(* ===== verification/_CoqProject ===== *)
-Q . S2P
Prelude.v
Mem.v
Spinlock.v
KState.v
ProcSync.v
RtSched.v
Banker.v
MidSched.v
Sched.v
Deadlock.v
Sems.v
Monitor.v
Dmsg.v
Pipe.v
Spool.v
Log.v
Bio.v
Kalloc.v
Life.v
Swap.v
Vm.v
Cow.v
Space.v
CString.v
Xattr.v
Fs.v
FsInv.v
FsFile.v
FsNode.v
FsIO.v
FsFree.v
FsOps.v
FsShare.v
FsRange.v
FsSpec.v
FsCache.v
Dir.v
Path.v
File.v
Sysfile.v
Names.v
SysNames.v
SysMake.v
NameCalls.v
Descend.v
FileIO.v
Fat.v
FatSpec.v
FatDir.v
Vfs.v
