(* ===== verification/Prelude.v ===== *)
(** * OopsOS: a verification library for the kernel under src/kernel

    OopsOS is a teaching kernel for RISC-V in C, derived from xv6: spinlocks and
    sleep locks, a process table with three scheduling classes, a mid-term
    scheduler that suspends processes, a banker that avoids deadlock, semaphores,
    monitors, direct messages, pipes, page tables with copy on write, a swapper, a
    write-ahead log, a buffer cache and a file system of inodes and directories.

    ** The model

    Kernel code runs with a spinlock held between two points where another hart
    may step in. The unit of the models is that critical section: a Rocq function
    from the kernel state before it to the state after it and a result. A C
    function that sleeps is cut at the sleep: its function ends in a "slept"
    result, and what follows is another function (or the same one, when the code
    loops). Interleavings are then arbitrary sequences of these functions, given
    as inductive step relations, and the invariants are proved by induction on
    runs. Spinlock.v is one level lower, at single memory accesses, and shows
    that a critical section is indeed not interrupted.

    The C structs are records with the same field names and [p->f = v] is written
    [p <| f := v |>]. An [int] is a [Z]; where wrap-around can matter it is
    written out ([i32], [u32] below). A pointer into a table is an index, a null
    pointer is [None], a panic is [None] in a function that can panic; where the
    code links objects of the heap (direct messages, page tables, the bytes of
    the disk) a pointer is an address and a null pointer is 0. Loops over the
    process table are folds or [find_index]; other loops have fuel. A loop whose
    fuel is used up has no result, and never stands for a loop that ended; where
    a loop of the code may not end the theorems say for which states it does.

    ** The files

    - Prelude.v: notations, record update, tactics, the hint database [oops], list
      and integer lemmas.
    - Spinlock.v (kernel/lock/spinlock.c): acquire, release, push_off, pop_off as
      atomic accesses of any number of harts. Mutual exclusion, interrupts masked
      while a lock is held and restored afterwards, panics only on misuse.
    - KState.v (kernel/include/proc.h, param.h and the tables of proc.c and
      sysproc.c): the state shared by the following files.
    - ProcSync.v (proc.c: sleep, wakeup, wakeupOneProc, wakeup1, kill, killtree).
      Waking one at a time is waking all; killtree kills exactly the descendants.
    - RtSched.v (proc.c: the rt_ functions). Catching up of releases, least laxity
      choice, preemption test. Releases, budgets and laxities are specified by
      arithmetic on the time that passed, apart from the loop of the code.
    - Banker.v (proc.c: the banker_ functions). Requests are granted exactly when
      safe; conservation of units; safety is kept.
    - MidSched.v (proc.c: the midsched_ functions). What a suspension shows to the
      others through an abstraction function, also when the process was woken or
      killed while its pages were written out; choice of the victim.
    - Sched.v (proc.c: scheduler, mlfq_; trap.c: clockintr and the timer path).
      Choice of one turn, demotion, and how long a ready process can wait when
      other harts step in between any two probes of a scan.
    - Deadlock.v (sleeplock.c, proc.c: deadlock_detect, the pi_ functions).
      Detection is exact, inherited priority is the maximum, no lost wakeup.
    - Sems.v, Monitor.v, Dmsg.v (sysproc.c, proc.c): semaphores and semaphore sets,
      monitors and condition variables, direct messages. No lost wakeups, mutual
      exclusion, all-or-nothing, order of delivery. Counts of semaphores are kept
      at 32 bits; the messages are linked through their next pointers in a heap,
      with the head and the tail of each queue in the process.
    - Pipe.v (pipe.c), Spool.v (driver/spool.c): bounded queues.
    - Log.v (filesystem/log.c): crash atomicity of commit, recovery, no panic.
    - Bio.v (filesystem/bio.c): one cached copy per block, coherence with the disk
      as one memory, contents returned by bread, failure exactly when all buffers
      are busy; what remains of it when others step in during the scan.
    - Kalloc.v (mm/kalloc.c): free lists and reference counts under interleaving.
    - Life.v (proc.c: allocproc, fork, clone, exit, wait, waitpid, join): the
      process tree, no lost wakeups between exit and wait, reaping.
    - Mem.v: a byte memory with little-endian loads and stores, for page tables
      and the disk. CString.v (lib/string.c): copies with any overlap, names in
      fixed-size fields.
    - Swap.v (mm/swap.c), Vm.v (mm/vm.c and cowpage, cowalloc of kalloc.c), Cow.v,
      Space.v: page tables in memory, and that fork with copy on write behaves as
      fork with eager copies.
    - Xattr.v (filesystem/xattr.c): extended attributes as a map.
    - Fs.v (filesystem/fs.c up to the directories): bitmap, block reference counts,
      inodes, bmap, readi and writei, truncation, holes, clones, deduplication.
      FsInv.v: the invariant - every block pointer of every file in a map, pointer
      blocks used once, the reference count of a block the number of its pointers,
      the bitmap the blocks in use - and the contents of files. FsFile.v, FsNode.v,
      FsIO.v, FsFree.v, FsOps.v, FsShare.v, FsRange.v: the operations against it.
      FsSpec.v: every call on the contents of files refines its effect on files as
      sequences of bytes. FsCache.v: the inode cache counts references and changes
      no file but by ialloc() and the last iput().
    - Dir.v (fs.c: dirlookup, dirlink, skipelem, namex): directories as lists of
      entries, adding an entry. Path.v: namex() walks along the elements of a path.
    - File.v (filesystem/file.c; dup, dup2, close of sysfile.c; the descriptors in
      fork and exit of proc.c): the table of open files. The calls on descriptors
      refine tables of descriptors that name open files.
    - Sysfile.v (kernel/sysfile.c): the calls on paths and descriptors. Names.v: the
      names as a tree with link counts, and the elementary changes of it. SysNames.v:
      link() and unlink() step by step; SysMake.v: create(), mkdir(), mknod();
      NameCalls.v: what these calls do to the names, and that every sequence of them
      keeps the tree. Descend.v: the walk of rename() to the root ends and is right.
    - FileIO.v: write() in several transactions is one write at the offset of the
      open file, and read() after lseek() returns what was written.
    - Fat.v (filesystem/fat.c): the FAT16 file system. FatSpec.v: chains of clusters,
      reading, writing and freeing them. FatDir.v: names and the root directory.
    - Vfs.v (filesystem/vfs.c; mount, umount of sysfile.c): the mount table and the
      mount for a path.

    ** How the components meet

    Deadlock.v, Sems.v, Monitor.v, Dmsg.v and Life.v use the wakeups of ProcSync.v
    on the shared state of KState.v; Monitor.v uses priority inheritance and
    deadlock detection; Life.v calls the banker, the monitors and the message
    queues on exit. Bio.v has the disk below it; Log.v works on a cache and a disk
    of its own, with the pin counts left to Bio.v. The disk of Fs.v is what the
    buffer cache shows, one memory by the coherence theorem of Bio.v; its calls log
    the blocks they change, and a call runs to its end under the inode locks of its
    caller. Vm.v takes pages from the free list of its own memory and calls Swap.v;
    iput() in Fs.v calls Xattr.v; Dir.v and Path.v are clients of the specifications
    in FsSpec.v and FsCache.v, not of the code below them. File.v and Sysfile.v call
    the inode layer and the directories; their theorems use the step specifications
    of Path.v, File.v and Dir.v. A call on names ends its transaction with end_op(),
    whose atomicity on disk is the theorem of Log.v.

    ** Fuel and bounds

    killtree follows parent chains with fuel NPROC + 1, enough on a table without
    cycles; the catch-up loop of the real-time class has a fuel computed from the
    elapsed time, which suffices for a task with consistent fields at a tick below
    2^31 ([rt_tame] of RtSched.v), and has no result otherwise: the loop of the code
    then need not end. Closing a message queue has a turn per message of the heap,
    each of which it frees; the banker's safety loop has the bound the code has; the clock of
    the buffer cache scans 2 * NBUF buffers as the code does. The loops of mappages()
    have one turn per page, freewalk() the depth 3 of a page table; readi() and
    writei() have one turn per block, the scans of balloc() one per bit or bitmap
    block, the scans of a directory one per entry, namex() one per byte of the path,
    of which each turn takes at least one; strlen() has the length of the string.
    filewrite(), pwrite(), fallocate() and fclonerange() have one turn per
    transaction and one to end; open() follows at most MAX_SYMLINK_DEPTH links; the
    walk to the root in rename() has a fuel of its caller, and as many turns as
    there are inodes are enough on a tree of names. Reading and writing a FAT file
    have a turn per sector and three more, freeing a chain one per cluster number,
    the scan of a FAT directory one per entry and two more.
    Sizes (NPROC, NBUF, LOGSIZE, ...) are those of param.h and fs.h.

    ** Not modelled

    The choice of pages to swap out, copyin() and copyout(), shared memory, message
    queues of messagequeue.c, the adapters of vfs.c for native inodes, exec, device
    drivers, the network, system call dispatch, boot code and user programs. Of
    sysfile.c exec, mmap, munmap, connect, fsinfo, recoveri and getcwd are left out;
    rename(), open() and the calls on files other than read(), write(), lseek(),
    dup(), dup2() and close() are defined, and their theorems are those of the layers
    below and of the walk to the root. Of fat.c all is defined; the theorems are on
    reading, writing and freeing chains and on the root directory. The theorems on names
    cover removed directories that are not in use: the kernel lets a process remove a
    directory that another one has as its current directory. Two calls of the file
    system do not interleave in Fs.v and Sysfile.v: the inode locks are part of the
    state, but a call that would wait for one is [None]. Copies to and from user
    memory are arguments that tell whether they succeed. Interrupt handlers other
    than the timer's are not modelled, nor are weak memory effects: the code puts
    __sync_synchronize() around its critical sections. *)

From stdpp Require Export base list numbers option.
From stdpp Require Export prelude.

(** ** Notation scope of the library *)

Declare Scope oops_scope.
Delimit Scope oops_scope with oops.
#[global] Open Scope oops_scope.
#[global] Open Scope Z_scope.

(** ** Field update of records

    [Rebuild R] holds the eta-expansion of the record [R]; [Setter f] is the
    update of the field [f], computed from it by [solve_setter]. The C
    assignment [p->f = v] is written [p <| f := v |>]. *)

Class Rebuild (R : Type) := rebuild : R → R.
Class Setter {R T : Type} (proj : R → T) := upd : (T → T) → R → R.

Ltac solve_setter :=
  lazymatch goal with
  | |- @Setter ?R ?T ?proj =>
      let inst := constr:(_ : Rebuild R) in
      let e := eval hnf in (inst : R → R) in
      let e' := eval pattern proj in e in
      lazymatch e' with
      | ?h _ =>
          let b := eval cbv beta in
            (λ (g : T → T) (r : R), h (λ x, g (proj x)) r) in
          exact b
      end
  end.

Notation "r <| f := v |>" := (upd (proj:=f) (λ _, v) r)
  (at level 1, left associativity, f at level 1, v at level 200) : oops_scope.

(** ** Machine integers

    [u32], [u64] and [i32] are the conversions to the C types [uint],
    [uint64] and [int] of the LP64 target; arithmetic at a width is the
    arithmetic of [Z] followed by the conversion. *)

Definition u32 (z : Z) : Z := z `mod` 2 ^ 32.
Definition u64 (z : Z) : Z := z `mod` 2 ^ 64.
Definition i32 (z : Z) : Z := (z + 2 ^ 31) `mod` 2 ^ 32 - 2 ^ 31.

Definition is_i32 (z : Z) : Prop := -2 ^ 31 ≤ z < 2 ^ 31.

Lemma u32_range z : 0 ≤ u32 z < 2 ^ 32.
Proof. unfold u32. apply Z.mod_pos_bound. lia. Qed.

Lemma u64_range z : 0 ≤ u64 z < 2 ^ 64.
Proof. unfold u64. apply Z.mod_pos_bound. lia. Qed.

Lemma i32_range z : is_i32 (i32 z).
Proof.
  unfold is_i32, i32. pose proof (Z.mod_pos_bound (z + 2 ^ 31) (2 ^ 32)). lia.
Qed.

Lemma u32_small z : 0 ≤ z < 2 ^ 32 → u32 z = z.
Proof. apply Z.mod_small. Qed.

Lemma u64_small z : 0 ≤ z < 2 ^ 64 → u64 z = z.
Proof. apply Z.mod_small. Qed.

Lemma i32_small z : is_i32 z → i32 z = z.
Proof. unfold is_i32, i32. intros ?. rewrite Z.mod_small; lia. Qed.

(** Conversions only see the residue of the value. *)
Lemma u32_i32 z : u32 (i32 z) = u32 z.
Proof.
  unfold u32, i32.
  rewrite (Z.mod_eq (z + 2 ^ 31) (2 ^ 32)) by lia.
  replace (z + 2 ^ 31 - 2 ^ 32 * ((z + 2 ^ 31) `div` 2 ^ 32) - 2 ^ 31)
    with (z + (- ((z + 2 ^ 31) `div` 2 ^ 32)) * 2 ^ 32) by lia.
  by rewrite Z.mod_add.
Qed.

(** ** Loops

    [while_fuel n c b s] runs [while (c) b] from [s] for at most [n] turns and
    is [None] when the turns did not suffice. [while_terminates] is the rule
    for total correctness: an invariant and a measure that decreases. *)

Fixpoint while_fuel {S} (n : nat) (cond : S → bool) (body : S → S) (s : S)
    : option S :=
  if cond s then
    match n with
    | O => None
    | Datatypes.S n' => while_fuel n' cond body (body s)
    end
  else Some s.

Lemma while_terminates {S} (I : S → Prop) (measure : S → Z) cond body n s :
  (∀ x, I x → cond x = true → I (body x) ∧ 0 ≤ measure (body x) < measure x) →
  I s → measure s ≤ Z.of_nat n → 0 ≤ measure s →
  ∃ s', while_fuel n cond body s = Some s' ∧ I s' ∧ cond s' = false.
Proof.
  intros Hstep. revert s.
  induction n as [|n IH]; intros s HI Hm H0; simpl;
    destruct (cond s) eqn:Hc; eauto.
  - destruct (Hstep s HI Hc) as [_ ?]. lia.
  - destruct (Hstep s HI Hc) as [? ?]. apply IH; [done | lia | lia].
Qed.

(** ** First index satisfying a test

    The kernel's tables are scanned with
    [for (i = 0; i < N; i++) if (test(tab[i])) ...]. *)

Fixpoint find_index {A} (P : A → bool) (l : list A) : option nat :=
  match l with
  | [] => None
  | x :: l' => if P x then Some O else S <$> find_index P l'
  end.

Lemma find_index_Some {A} (P : A → bool) l i :
  find_index P l = Some i →
  (∃ x, l !! i = Some x ∧ P x = true) ∧
  (∀ j y, (j < i)%nat → l !! j = Some y → P y = false).
Proof.
  revert i. induction l as [|x l IH]; intros i; simpl; [done|].
  destruct (P x) eqn:Hx.
  - intros [= <-]. split; [by exists x|]. lia.
  - destruct (find_index P l) as [k|]; simpl; [|done]. intros [= <-].
    destruct (IH k eq_refl) as [Hk Hlt]. split; [done|].
    intros [|j] y Hj; simpl; [congruence|]. apply Hlt. lia.
Qed.

Lemma find_index_None {A} (P : A → bool) l :
  find_index P l = None → ∀ x, x ∈ l → P x = false.
Proof.
  induction l as [|x l IH]; simpl; intros H y Hy.
  - by apply not_elem_of_nil in Hy.
  - destruct (P x) eqn:Hx; [done|].
    destruct (find_index P l); [done|].
    apply elem_of_cons in Hy as [->|Hy]; auto.
Qed.

Lemma find_index_is_Some {A} (P : A → bool) l x :
  x ∈ l → P x = true → is_Some (find_index P l).
Proof.
  intros Hx HP. destruct (find_index P l) eqn:E; [eauto|].
  rewrite (find_index_None P l E x Hx) in HP. done.
Qed.

Lemma find_index_lt {A} (P : A → bool) l i :
  find_index P l = Some i → (i < length l)%nat.
Proof.
  intros [(x & Hx & _) _]%find_index_Some. by apply lookup_lt_Some in Hx.
Qed.

(** ** Updating one entry *)

Lemma list_alter_id' {A} (f : A → A) (i : nat) (l : list A) x :
  l !! i = Some x → f x = x → alter f i l = l.
Proof.
  intros Hi Hf. apply list_eq. intros j. destruct (decide (i = j)) as [->|].
  - rewrite list_lookup_alter_eq, Hi. simpl. congruence.
  - by rewrite list_lookup_alter_ne.
Qed.

Lemma list_alter_ext' {A} (f g : A → A) (i : nat) (l : list A) x :
  l !! i = Some x → f x = g x → alter f i l = alter g i l.
Proof.
  intros Hi Hf. apply list_eq. intros j. destruct (decide (i = j)) as [->|].
  - rewrite !list_lookup_alter_eq, Hi. simpl. congruence.
  - by rewrite !list_lookup_alter_ne.
Qed.

Lemma list_alter_alter {A} (f g : A → A) (i : nat) (l : list A) :
  alter f i (alter g i l) = alter (f ∘ g) i l.
Proof.
  apply list_eq. intros j. destruct (decide (i = j)) as [->|].
  - rewrite !list_lookup_alter_eq. by destruct (l !! j).
  - by rewrite !list_lookup_alter_ne.
Qed.

Lemma list_alter_insert {A} (f : A → A) (i : nat) (l : list A) x :
  l !! i = Some x → alter f i l = <[i := f x]> l.
Proof.
  intros Hi. apply list_eq. intros j. destruct (decide (i = j)) as [->|].
  - rewrite list_lookup_alter_eq, Hi, list_lookup_insert_eq; [done|].
    by apply lookup_lt_Some in Hi.
  - by rewrite list_lookup_alter_ne, list_lookup_insert_ne.
Qed.

(** ** Sums over a table *)

Definition sum_with {A} (f : A → Z) (l : list A) : Z := foldr (λ x s, f x + s) 0 l.

Lemma sum_with_app {A} (f : A → Z) l k :
  sum_with f (l ++ k) = sum_with f l + sum_with f k.
Proof. induction l; simpl; lia. Qed.

Lemma sum_with_insert {A} (f : A → Z) l i x y :
  l !! i = Some x →
  sum_with f (<[i:=y]> l) = sum_with f l - f x + f y.
Proof.
  revert i. induction l as [|z l IH]; intros [|i]; simpl; try done.
  - intros [= ->]. lia.
  - intros Hi. rewrite (IH i Hi). lia.
Qed.

Lemma sum_with_perm {A} (f : A → Z) l k : l ≡ₚ k → sum_with f l = sum_with f k.
Proof. induction 1; simpl; lia. Qed.

Lemma sum_with_ext {A} (f g : A → Z) l :
  (∀ x, x ∈ l → f x = g x) → sum_with f l = sum_with g l.
Proof.
  induction l as [|x l IH]; simpl; intros H; [done|].
  rewrite H by set_solver. rewrite IH; [done|]. set_solver.
Qed.

(** A sum over part of a list whose other entries count for nothing. *)
Lemma sum_with_filter {A} (f : A → Z) (P : A → Prop) `{!∀ x, Decision (P x)} l :
  (∀ x, x ∈ l → ¬ P x → f x = 0) → sum_with f (filter P l) = sum_with f l.
Proof.
  induction l as [|x l IH]; intros Hz; [done|].
  destruct (decide (P x)) as [HP|HP].
  - rewrite filter_cons_True by done. simpl. rewrite IH; [done|]. set_solver.
  - rewrite filter_cons_False by done. simpl. rewrite IH by set_solver.
    rewrite (Hz x) by set_solver. done.
Qed.

(** A sum over the indices of a table is a sum over its entries. *)
Lemma sum_with_seq `{Inhabited A} (f : A → Z) l :
  sum_with (λ i, f (l !!! i)) (seq 0 (length l)) = sum_with f l.
Proof.
  induction l as [|x l IH] using rev_ind; [done|].
  rewrite length_app. simpl length. rewrite Nat.add_1_r, seq_S, !sum_with_app. simpl.
  rewrite lookup_total_app_r, Nat.sub_diag by lia. simpl. rewrite <-IH. f_equal.
  apply sum_with_ext. intros i Hi%elem_of_seq. by rewrite lookup_total_app_l by lia.
Qed.

Lemma sum_with_nonneg {A} (f : A → Z) l :
  (∀ x, x ∈ l → 0 ≤ f x) → 0 ≤ sum_with f l.
Proof.
  induction l as [|x l IH]; simpl; intros H; [lia|].
  pose proof (H x ltac:(set_solver)).
  assert (0 ≤ sum_with f l) by (apply IH; set_solver). lia.
Qed.

Lemma sum_with_elem_le {A} (f : A → Z) l x :
  (∀ y, y ∈ l → 0 ≤ f y) → x ∈ l → f x ≤ sum_with f l.
Proof.
  induction l as [|z l IH]; simpl; intros H Hx; [set_solver|].
  assert (0 ≤ sum_with f l) by (apply sum_with_nonneg; set_solver).
  pose proof (H z ltac:(set_solver)).
  apply elem_of_cons in Hx as [->|Hx]; [lia|].
  assert (f x ≤ sum_with f l) by (apply IH; set_solver). lia.
Qed.

(** How often [x] occurs in a list: ghost multisets of references. *)
Definition occ `{EqDecision A} (x : A) (l : list A) : Z :=
  sum_with (λ y, if decide (y = x) then 1 else 0) l.
#[global] Arguments occ : simpl never.

Section occ.
Context `{EqDecision A}.
Implicit Types (x y : A) (l : list A).

Lemma occ_cons x y l : occ x (y :: l) = (if decide (y = x) then 1 else 0) + occ x l.
Proof. done. Qed.

Lemma occ_perm x l l' : l ≡ₚ l' → occ x l = occ x l'.
Proof. apply sum_with_perm. Qed.

Lemma occ_nonneg x l : 0 ≤ occ x l.
Proof. apply sum_with_nonneg. intros. case_decide; lia. Qed.

Lemma occ_elem x l : x ∈ l → 1 ≤ occ x l.
Proof.
  intros Hx. induction Hx as [x l|x y l Hx IH]; rewrite occ_cons.
  - rewrite decide_True by done. pose proof (occ_nonneg x l). lia.
  - case_decide; lia.
Qed.

Lemma occ_not_elem x l : x ∉ l → occ x l = 0.
Proof.
  induction l as [|y l IH]; intros Hx; [done|]. rewrite occ_cons, IH by set_solver.
  rewrite decide_False by set_solver. done.
Qed.

Lemma occ_le x l : occ x l ≤ Z.of_nat (length l).
Proof. induction l as [|y l IH]; [done|]. rewrite occ_cons. simpl length. case_decide; lia. Qed.

Lemma occ_nodup x l : NoDup l → x ∈ l → occ x l = 1.
Proof.
  induction 1 as [|y l Hy Hl IH]; intros Hx; [set_solver|]. rewrite occ_cons. case_decide as E.
  - subst. by rewrite occ_not_elem.
  - rewrite IH; set_solver.
Qed.
End occ.

(** ** First minimum of a scan

    [first_min ok key n b]: [b] is the answer of a scan of the indices below
    [n] that keeps the first one that satisfies [ok] with the least [key]. *)

Definition first_min (ok : nat → Prop) (key : nat → Z) (n : nat) (b : option nat) : Prop :=
  match b with
  | None => ∀ i, (i < n)%nat → ¬ ok i
  | Some b => (b < n)%nat ∧ ok b ∧
      (∀ i, (i < n)%nat → ok i → key b ≤ key i) ∧
      (∀ i, (i < b)%nat → ok i → key b < key i)
  end.

Section first_min.
Context {ok : nat → Prop} {key : nat → Z} {n : nat} {b : option nat}.

Lemma first_min_skip : first_min ok key n b → ¬ ok n → first_min ok key (S n) b.
Proof.
  destruct b as [b'|]; simpl.
  - intros (?&?&Hmin&?) Hn. split_and!; [lia|done| |done].
    intros i Hi Hok. apply Hmin; [|done]. destruct (decide (i = n)); [congruence|lia].
  - intros Hno Hn i Hi. destruct (decide (i = n)); [congruence|]. apply Hno. lia.
Qed.

Lemma first_min_keep b' :
  b = Some b' → first_min ok key n b → key b' ≤ key n → first_min ok key (S n) b.
Proof.
  intros ->. simpl. intros (?&?&Hmin&?) Hle. split_and!; [lia|done| |done].
  intros i Hi Hok. destruct (decide (i = n)) as [->|]; [done|]. apply Hmin; [lia|done].
Qed.

Lemma first_min_take :
  first_min ok key n b → ok n → (∀ b', b = Some b' → key n < key b') →
  first_min ok key (S n) (Some n).
Proof.
  intros Hb Hn Hlt. split_and!; [lia|done| |].
  - intros i Hi Hok. destruct (decide (i = n)) as [->|]; [done|].
    destruct b as [b'|]; [|destruct (Hb i); [lia|done]].
    destruct Hb as (_&_&Hmin&_). pose proof (Hlt b' eq_refl).
    assert (key b' ≤ key i) by (apply Hmin; [lia|done]). lia.
  - intros i Hi Hok. destruct b as [b'|]; [|destruct (Hb i); [lia|done]].
    destruct Hb as (_&_&Hmin&_). pose proof (Hlt b' eq_refl).
    assert (key b' ≤ key i) by (apply Hmin; [lia|done]). lia.
Qed.
End first_min.

(** A [for] loop over the indices below [n]: an invariant for each prefix. *)
Lemma foldl_seq_ind {A} (P : nat → A → Prop) (f : A → nat → A) (a : A) (n : nat) :
  P 0%nat a → (∀ i x, (i < n)%nat → P i x → P (S i) (f x i)) →
  P n (foldl f a (seq 0 n)).
Proof.
  intros H0. induction n as [|n IH]; intros Hstep; [done|].
  rewrite seq_S, foldl_app. simpl. apply Hstep; [lia|].
  apply IH. intros i x Hi. apply Hstep. lia.
Qed.

(** Updating the entries of a table in the order of their indices. *)
Definition map_upto {A} (f : A → A) (n : nat) (l : list A) : list A :=
  imap (λ i x, if (i <? n)%nat then f x else x) l.

Lemma map_upto_0 {A} (f : A → A) l : map_upto f 0 l = l.
Proof.
  apply list_eq. intros i. unfold map_upto. rewrite list_lookup_imap.
  by destruct (l !! i).
Qed.

Lemma map_upto_length {A} (f : A → A) n l : length (map_upto f n l) = length l.
Proof. apply length_imap. Qed.

Lemma map_upto_lookup {A} (f : A → A) n l i :
  map_upto f n l !! i = (if (i <? n)%nat then f else id) <$> l !! i.
Proof.
  unfold map_upto. rewrite list_lookup_imap. destruct (l !! i); simpl; [|done].
  by case_match.
Qed.

Lemma map_upto_lookup_total `{Inhabited A} (f : A → A) n l :
  (n ≤ length l)%nat → map_upto f n l !!! n = l !!! n.
Proof.
  intros _. rewrite !list_lookup_total_alt, map_upto_lookup, Nat.ltb_irrefl.
  by destruct (l !! n).
Qed.

Lemma map_upto_S {A} (f : A → A) n l x :
  l !! n = Some x → map_upto f (S n) l = <[n := f x]> (map_upto f n l).
Proof.
  intros Hx. pose proof (lookup_lt_Some _ _ _ Hx). apply list_eq. intros i.
  destruct (decide (i = n)) as [->|Hne].
  - rewrite list_lookup_insert_eq by (by rewrite map_upto_length).
    rewrite map_upto_lookup, Hx. by rewrite (proj2 (Nat.ltb_lt n (S n))) by lia.
  - rewrite list_lookup_insert_ne, !map_upto_lookup by done.
    destruct (Nat.ltb_spec i (S n)), (Nat.ltb_spec i n); try done; lia.
Qed.

Lemma map_upto_all {A} (f : A → A) n l :
  (length l ≤ n)%nat → map_upto f n l = f <$> l.
Proof.
  intros Hn. apply list_eq. intros i. rewrite map_upto_lookup, list_lookup_fmap.
  destruct (l !! i) as [x|] eqn:E; [|by case_match]. apply lookup_lt_Some in E.
  by rewrite (proj2 (Nat.ltb_lt i n)) by lia.
Qed.

(** ** Automation *)

(** Boolean tests of the code, turned into the propositions they decide. *)
Ltac bool_facts :=
  repeat match goal with
  | H : negb ?b = true |- _ => apply negb_true_iff in H
  | H : negb ?b = false |- _ => apply negb_false_iff in H
  | H : (?a && ?b)%bool = true |- _ => apply andb_true_iff in H as [? ?]
  | H : (?a || ?b)%bool = false |- _ => apply orb_false_iff in H as [? ?]
  | H : bool_decide ?P = true |- _ => apply bool_decide_eq_true in H
  | H : bool_decide ?P = false |- _ => apply bool_decide_eq_false in H
  | H : (?a =? ?b) = true |- _ => apply Z.eqb_eq in H
  | H : (?a =? ?b) = false |- _ => apply Z.eqb_neq in H
  | H : (?a <? ?b) = true |- _ => apply Z.ltb_lt in H
  | H : (?a <? ?b) = false |- _ => apply Z.ltb_ge in H
  | H : (?a <=? ?b) = true |- _ => apply Z.leb_le in H
  | H : (?a <=? ?b) = false |- _ => apply Z.leb_gt in H
  end.

(** Case analysis on every test that blocks the goal. *)
Ltac case_tests :=
  repeat (case_match; bool_facts; simplify_eq/=).

Create HintDb oops.
Create Rewrite HintDb oops_rw.
#[export] Hint Resolve u32_range u64_range i32_range : oops.
#[export] Hint Resolve find_index_lt : oops.
