(* ===== verification/Mem.v ===== *)
(** * Byte memory

    A memory is a function from addresses to bytes: physical memory in Vm.v, the
    blocks of the disk as the buffer cache presents them in Fs.v. Words are
    little-endian. [memset] and [memmove] are the closed forms of the loops of
    src/kernel/lib/string.c (CString.v has the loops and the equivalence). *)

From stdpp Require Import list_numbers.
From S2P Require Import Prelude.

Definition load_le (n : Z) (m : Z → Z) (a : Z) : Z :=
  little_endian_to_Z 8 ((λ i, m (a + i)) <$> seqZ 0 n).

Definition store_bytes (a : Z) (bs : list Z) (m : Z → Z) : Z → Z :=
  λ x, if (a <=? x) && (x <? a + Z.of_nat (length bs)) then bs !!! Z.to_nat (x - a) else m x.

Definition store_le (n a v : Z) (m : Z → Z) : Z → Z := store_bytes a (Z_to_little_endian n 8 v) m.

Definition load64 : (Z → Z) → Z → Z := load_le 8.
Definition store64 : Z → Z → (Z → Z) → Z → Z := store_le 8.
Definition load32 : (Z → Z) → Z → Z := load_le 4.
Definition store32 : Z → Z → (Z → Z) → Z → Z := store_le 4.

Definition load_bytes (a : Z) (n : nat) (m : Z → Z) : list Z :=
  (λ i, m (a + i)) <$> seqZ 0 (Z.of_nat n).

Definition memset (a b n : Z) (m : Z → Z) : Z → Z :=
  λ x, if (a <=? x) && (x <? a + n) then b else m x.

Definition memmove (dst src n : Z) (m : Z → Z) : Z → Z :=
  λ x, if (dst <=? x) && (x <? dst + n) then m (src + (x - dst)) else m x.

(** ** Ranges of bytes *)

Lemma store_bytes_out a bs m x :
  ¬ (a ≤ x < a + Z.of_nat (length bs)) → store_bytes a bs m x = m x.
Proof.
  intros H. unfold store_bytes.
  destruct (Z.leb_spec a x), (Z.ltb_spec x (a + Z.of_nat (length bs))); simpl; try done. lia.
Qed.

Lemma store_bytes_in a bs m x :
  a ≤ x < a + Z.of_nat (length bs) → store_bytes a bs m x = bs !!! Z.to_nat (x - a).
Proof.
  intros H. unfold store_bytes. rewrite (proj2 (Z.leb_le _ _)), (proj2 (Z.ltb_lt _ _)) by lia. done.
Qed.

Lemma length_load_bytes a n m : length (load_bytes a n m) = n.
Proof. unfold load_bytes. rewrite length_fmap, length_seqZ. lia. Qed.

Lemma load_bytes_lookup a n m i : (i < n)%nat → load_bytes a n m !! i = Some (m (a + Z.of_nat i)).
Proof.
  intros Hi. unfold load_bytes. rewrite list_lookup_fmap.
  rewrite (proj2 (lookup_seqZ 0 (Z.of_nat n) i (0 + Z.of_nat i))) by lia. done.
Qed.

Lemma load_bytes_ext a n m m' :
  (∀ x, a ≤ x < a + Z.of_nat n → m x = m' x) → load_bytes a n m = load_bytes a n m'.
Proof.
  intros H. unfold load_bytes. apply list_fmap_ext. intros i x Hx.
  apply lookup_seqZ in Hx. apply H. lia.
Qed.

Lemma load_store_bytes a bs m : load_bytes a (length bs) (store_bytes a bs m) = bs.
Proof.
  apply list_eq. intros i. destruct (decide (i < length bs)%nat) as [Hi|Hi].
  - rewrite load_bytes_lookup by done. rewrite store_bytes_in by lia.
    replace (Z.to_nat (a + Z.of_nat i - a)) with i by lia.
    symmetry. by apply list_lookup_lookup_total_lt.
  - rewrite !lookup_ge_None_2; rewrite ?length_load_bytes; try done; lia.
Qed.

Lemma memset_in a b n m x : a ≤ x < a + n → memset a b n m x = b.
Proof.
  intros H. unfold memset. rewrite (proj2 (Z.leb_le _ _)), (proj2 (Z.ltb_lt _ _)) by lia. done.
Qed.

Lemma memset_out a b n m x : ¬ (a ≤ x < a + n) → memset a b n m x = m x.
Proof.
  intros H. unfold memset. destruct (Z.leb_spec a x), (Z.ltb_spec x (a + n)); simpl; try done. lia.
Qed.

Lemma memmove_in dst src n m x : dst ≤ x < dst + n → memmove dst src n m x = m (src + (x - dst)).
Proof.
  intros H. unfold memmove. rewrite (proj2 (Z.leb_le _ _)), (proj2 (Z.ltb_lt _ _)) by lia. done.
Qed.

Lemma memmove_out dst src n m x : ¬ (dst ≤ x < dst + n) → memmove dst src n m x = m x.
Proof.
  intros H. unfold memmove. destruct (Z.leb_spec dst x), (Z.ltb_spec x (dst + n)); simpl; try done. lia.
Qed.

(** ** Little-endian words *)

Section words.
Context (n : Z) (Hn : 0 ≤ n).

Lemma load_le_ext m m' a : (∀ x, a ≤ x < a + n → m x = m' x) → load_le n m a = load_le n m' a.
Proof using.
  intros H. unfold load_le. f_equal. apply list_fmap_ext. intros i x Hx.
  apply lookup_seqZ in Hx. apply H. lia.
Qed.

Lemma load_le_shift m m' a b : (∀ i, 0 ≤ i < n → m (a + i) = m' (b + i)) → load_le n m a = load_le n m' b.
Proof using Type.
  intros H. unfold load_le. f_equal. apply list_fmap_ext. intros i x Hx. apply lookup_seqZ in Hx. apply H. lia.
Qed.

Lemma load_le_bytes m a : load_le n m a = little_endian_to_Z 8 (load_bytes a (Z.to_nat n) m).
Proof using Hn. unfold load_le, load_bytes. by rewrite Z2Nat.id. Qed.

Lemma length_le v : Z.of_nat (length (Z_to_little_endian n 8 v)) = n.
Proof using Hn. rewrite length_Z_to_little_endian by lia. lia. Qed.

Lemma load_le_store_mod m a v : load_le n (store_le n a v m) a = v `mod` 2 ^ (8 * n).
Proof using Hn.
  rewrite load_le_bytes. unfold store_le.
  replace (Z.to_nat n) with (length (Z_to_little_endian n 8 v)) by (pose proof (length_le v); lia).
  rewrite load_store_bytes, little_endian_to_Z_to_little_endian by lia. by rewrite Z.mul_comm.
Qed.

Lemma load_le_store_eq m a v : 0 ≤ v < 2 ^ (8 * n) → load_le n (store_le n a v m) a = v.
Proof using Hn. intros Hv. rewrite load_le_store_mod. by apply Z.mod_small. Qed.

Lemma store_le_outside m a v x : ¬ (a ≤ x < a + n) → store_le n a v m x = m x.
Proof using Hn. intros H. apply store_bytes_out. by rewrite length_le. Qed.

Lemma load_le_store_ne m a b v :
  a + n ≤ b ∨ b + n ≤ a → load_le n (store_le n a v m) b = load_le n m b.
Proof using Hn. intros H. apply load_le_ext. intros x Hx. apply store_le_outside. lia. Qed.

Lemma load_le_memset0 p k m a : p ≤ a → a + n ≤ p + k → load_le n (memset p 0 k m) a = 0.
Proof using Hn.
  intros H1 H2. rewrite (load_le_ext _ (λ _, 0)) by (intros; apply memset_in; lia).
  unfold load_le. clear. induction (seqZ 0 n) as [|x l IH]; [done|].
  rewrite fmap_cons. cbn [little_endian_to_Z]. rewrite IH. done.
Qed.

Lemma load_le_range m a : (∀ x, 0 ≤ m x < 256) → 0 ≤ load_le n m a < 2 ^ (8 * n).
Proof using Hn.
  intros H. unfold load_le. replace (8 * n) with (Z.of_nat (length ((λ i, m (a + i)) <$> seqZ 0 n)) * 8).
  - apply little_endian_to_Z_bound; [lia|]. apply Forall_fmap, Forall_true. intros x. simpl.
    change (2 ^ 8) with 256. apply H.
  - rewrite length_fmap, length_seqZ. lia.
Qed.

End words.

Lemma load64_ext m m' a : (∀ x, a ≤ x < a + 8 → m x = m' x) → load64 m a = load64 m' a.
Proof. apply load_le_ext. Qed.

Lemma load64_store_eq m a v : 0 ≤ v < 2 ^ 64 → load64 (store64 a v m) a = v.
Proof. exact (load_le_store_eq 8 ltac:(lia) m a v). Qed.

Lemma store64_outside m a v x : ¬ (a ≤ x < a + 8) → store64 a v m x = m x.
Proof. exact (store_le_outside 8 ltac:(lia) m a v x). Qed.

Lemma load64_store_ne m a b v : a + 8 ≤ b ∨ b + 8 ≤ a → load64 (store64 a v m) b = load64 m b.
Proof. exact (load_le_store_ne 8 ltac:(lia) m a b v). Qed.

Lemma load64_memset0 p n m a : p ≤ a → a + 8 ≤ p + n → load64 (memset p 0 n m) a = 0.
Proof. exact (load_le_memset0 8 ltac:(lia) p n m a). Qed.

Lemma load32_ext m m' a : (∀ x, a ≤ x < a + 4 → m x = m' x) → load32 m a = load32 m' a.
Proof. apply load_le_ext. Qed.

Lemma load32_store_eq m a v : 0 ≤ v < 2 ^ 32 → load32 (store32 a v m) a = v.
Proof. exact (load_le_store_eq 4 ltac:(lia) m a v). Qed.

Lemma store32_outside m a v x : ¬ (a ≤ x < a + 4) → store32 a v m x = m x.
Proof. exact (store_le_outside 4 ltac:(lia) m a v x). Qed.

Lemma load32_store_ne m a b v : a + 4 ≤ b ∨ b + 4 ≤ a → load32 (store32 a v m) b = load32 m b.
Proof. exact (load_le_store_ne 4 ltac:(lia) m a b v). Qed.

Lemma load32_memset0 p n m a : p ≤ a → a + 4 ≤ p + n → load32 (memset p 0 n m) a = 0.
Proof. exact (load_le_memset0 4 ltac:(lia) p n m a). Qed.

(** ** Arrays of words *)

Lemma length_words n (l : list Z) : 0 ≤ n →
  Z.of_nat (length (mjoin (Z_to_little_endian n 8 <$> l))) = n * Z.of_nat (length l).
Proof.
  intros Hn. induction l as [|x l IH]; [cbn; lia|]. rewrite fmap_cons. cbn [mjoin list_join].
  rewrite length_app, Nat2Z.inj_add, length_le by done. cbn [length].
  rewrite Nat2Z.inj_succ, Z.mul_succ_r, <-IH. unfold mjoin. lia.
Qed.

(** A word of an array that was stored byte by byte. *)
Lemma load_le_words n a (l : list Z) m i v : 0 < n → l !! i = Some v → 0 ≤ v < 2 ^ (8 * n) →
  load_le n (store_bytes a (mjoin (Z_to_little_endian n 8 <$> l)) m) (a + n * Z.of_nat i) = v.
Proof.
  intros Hn Hi Hv. pose proof (lookup_lt_Some _ _ _ Hi) as Hlt.
  transitivity (load_le n (store_le n (a + n * Z.of_nat i) v m) (a + n * Z.of_nat i)).
  2: { apply load_le_store_eq; [lia|done]. }
  apply load_le_ext. intros x Hx. unfold store_le.
  rewrite store_bytes_in by (rewrite length_words by lia; nia).
  rewrite store_bytes_in by (rewrite length_le by lia; lia).
  set (j := Z.to_nat (x - (a + n * Z.of_nat i))).
  assert (j < Z.to_nat n)%nat as Hj by lia.
  assert (length (Z_to_little_endian n 8 v) = Z.to_nat n) as Hlen by (pose proof (length_le n ltac:(lia) v); lia).
  destruct (lookup_lt_is_Some_2 (Z_to_little_endian n 8 v) j) as [y Hy]; [lia|].
  rewrite (list_lookup_total_correct _ _ _ Hy). apply list_lookup_total_correct.
  replace (Z.to_nat (x - a)) with (i * Z.to_nat n + j)%nat by nia.
  apply (join_lookup_Some_same_length' (Z.to_nat n)); [|done|].
  - apply Forall_fmap, Forall_true. intros z. cbn. pose proof (length_le n ltac:(lia) z). lia.
  - exists (Z_to_little_endian n 8 v). by rewrite list_lookup_fmap, Hi.
Qed.
