(* ===== verification/Spinlock.v ===== *)
(** * Spin locks and interrupt nesting (src/kernel/lock/spinlock.c)

    The state of a hart ([struct cpu] plus its interrupt-enable bit) and of a
    spin lock, the functions [push_off], [pop_off] and [holding], and
    [acquire]/[release] cut at their atomic memory operations, so that the
    instructions of several harts interleave. [step] runs one such piece on
    one hart. The theorems are over every reachable interleaving: a lock is
    held by at most one hart, interrupts are off on a hart that holds a lock,
    and giving up the last lock restores the interrupt state the hart had
    before it took the first. *)

From stdpp Require Import gmap.
From S2P Require Import Prelude.

(** ** Per-hart interrupt nesting *)

Record cpu := mk_cpu {
  noff : Z;          (* depth of push_off() nesting *)
  intena : bool;     (* were interrupts enabled before push_off()? *)
  sie : bool;        (* sstatus.SIE, what intr_get() reads *)
}.

#[export] Instance cpu_rebuild : Rebuild cpu := λ c,
  mk_cpu (noff c) (intena c) (sie c).
#[export] Instance noff_set : Setter noff := ltac:(solve_setter).
#[export] Instance intena_set : Setter intena := ltac:(solve_setter).
#[export] Instance sie_set : Setter sie := ltac:(solve_setter).

Definition push_off (c : cpu) : cpu :=
  let old := sie c in
  let c := c <| sie := false |> in
  let c := if noff c =? 0 then c <| intena := old |> else c in
  c <| noff := noff c + 1 |>.

(** [None] is the panic of the two checks. *)
Definition pop_off (c : cpu) : option cpu :=
  if sie c then None
  else if noff c <? 1 then None
  else
    let c := c <| noff := noff c - 1 |> in
    Some (if (noff c =? 0) && intena c then c <| sie := true |> else c).

(** ** Locks and harts *)

Record spinlock := mk_spinlock {
  locked : bool;
  lcpu : option nat;    (* lk->cpu, the hart holding the lock *)
}.

#[export] Instance spinlock_rebuild : Rebuild spinlock := λ l,
  mk_spinlock (locked l) (lcpu l).
#[export] Instance locked_set : Setter locked := ltac:(solve_setter).
#[export] Instance lcpu_set : Setter lcpu := ltac:(solve_setter).

Definition initlock : spinlock := mk_spinlock false None.
#[export] Instance spinlock_inhabited : Inhabited spinlock := populate initlock.

Definition holding (lk : spinlock) (c : nat) : bool :=
  locked lk && bool_decide (lcpu lk = Some c).

(** Where a hart is inside [acquire] or [release]. *)
Inductive point :=
  | Run                  (* outside both *)
  | Spin (l : nat)       (* before __sync_lock_test_and_set *)
  | Record_cpu (l : nat) (* before lk->cpu = mycpu() *)
  | Unlock (l : nat)     (* before __sync_lock_release *)
  | Pop                  (* before pop_off() *)
  | Panicked.

(** [held], [pushes] and [before] are ghost: the locks the hart has acquired
    and not begun to release, its own calls of push_off() not yet undone, and
    the interrupt bit when its nesting depth last was zero. *)
Record hart := mk_hart {
  regs : cpu;
  pc : point;
  held : gset nat;
  pushes : Z;
  before : bool;
}.

#[export] Instance hart_rebuild : Rebuild hart := λ h,
  mk_hart (regs h) (pc h) (held h) (pushes h) (before h).
#[export] Instance regs_set : Setter regs := ltac:(solve_setter).
#[export] Instance pc_set : Setter pc := ltac:(solve_setter).
#[export] Instance held_set : Setter held := ltac:(solve_setter).
#[export] Instance pushes_set : Setter pushes := ltac:(solve_setter).
#[export] Instance before_set : Setter before := ltac:(solve_setter).

Record world := mk_world { locks : list spinlock; harts : list hart }.

(** ** One atomic piece of code on a hart *)

Inductive event :=
  | EAcquire (l : nat)   (* enter acquire(&locks[l]) *)
  | ERelease (l : nat)   (* enter release(&locks[l]) *)
  | EContinue            (* the next piece of the call in progress *)
  | EPushOff             (* a call of push_off() outside acquire *)
  | EPopOff              (* a call of pop_off() outside release *)
  | EIntr (on : bool).   (* intr_on()/intr_off(), outside critical sections *)

(** push_off(); if (holding(lk)) panic("acquire"); *)
Definition acquire_entry (lk : spinlock) (c l : nat) (h : hart) : hart :=
  let h := h <| regs := push_off (regs h) |> in
  if holding lk c then h <| pc := Panicked |> else h <| pc := Spin l |>.

(** One turn of the test-and-set loop: the old value decides. *)
Definition acquire_swap (lk : spinlock) (l : nat) (h : hart) : spinlock * hart :=
  if locked lk then (lk <| locked := true |>, h)
  else (lk <| locked := true |>, h <| pc := Record_cpu l |>).

(** lk->cpu = mycpu(); and acquire returns. *)
Definition acquire_record (lk : spinlock) (c l : nat) (h : hart) : spinlock * hart :=
  (lk <| lcpu := Some c |>, h <| pc := Run |> <| held := {[l]} ∪ held h |>).

(** if (!holding(lk)) panic("release"); lk->cpu = 0; *)
Definition release_entry (lk : spinlock) (c l : nat) (h : hart) : spinlock * hart :=
  if holding lk c then
    (lk <| lcpu := None |>, h <| pc := Unlock l |> <| held := held h ∖ {[l]} |>)
  else (lk, h <| pc := Panicked |>).

(** pop_off(), as the last call of release. *)
Definition do_pop (h : hart) : hart :=
  match pop_off (regs h) with
  | Some r => h <| regs := r |> <| pc := Run |>
  | None => h <| pc := Panicked |>
  end.

Definition put (w : world) (c l : nat) (x : spinlock * hart) : world :=
  mk_world (<[l := x.1]> (locks w)) (<[c := x.2]> (harts w)).

Definition step (w : world) (c : nat) (e : event) : option world :=
  h ← harts w !! c;
  match pc h, e with
  | Run, EAcquire l =>
      lk ← locks w !! l; Some (put w c l (lk, acquire_entry lk c l h))
  | Run, ERelease l =>
      lk ← locks w !! l; Some (put w c l (release_entry lk c l h))
  | Spin l, EContinue => lk ← locks w !! l; Some (put w c l (acquire_swap lk l h))
  | Record_cpu l, EContinue =>
      lk ← locks w !! l; Some (put w c l (acquire_record lk c l h))
  | Unlock l, EContinue =>
      lk ← locks w !! l; Some (put w c l (lk <| locked := false |>, h <| pc := Pop |>))
  | Pop, EContinue => Some (mk_world (locks w) (<[c := do_pop h]> (harts w)))
  | Run, EPushOff =>
      Some (mk_world (locks w) (<[c :=
        h <| regs := push_off (regs h) |> <| pushes := pushes h + 1 |>]> (harts w)))
  | Run, EPopOff =>
      if 0 <? pushes h then
        Some (mk_world (locks w)
          (<[c := (do_pop h) <| pushes := pushes h - 1 |>]> (harts w)))
      else None
  | Run, EIntr b =>
      if noff (regs h) =? 0 then
        Some (mk_world (locks w) (<[c :=
          h <| regs := (regs h) <| sie := b |> |> <| before := b |>]> (harts w)))
      else None
  | _, _ => None
  end.

(** ** Reachable states: all locks free, every hart idle with depth zero *)

Definition boot (nlocks ncpus : nat) : world :=
  mk_world (replicate nlocks initlock)
           (replicate ncpus (mk_hart (mk_cpu 0 false false) Run ∅ 0 false)).

Inductive reachable (nlocks ncpus : nat) : world → Prop :=
  | reach_boot : reachable nlocks ncpus (boot nlocks ncpus)
  | reach_step w c e w' :
      reachable nlocks ncpus w → step w c e = Some w' → reachable nlocks ncpus w'.

(** ** The invariant *)

Definition owns (h : hart) (l : nat) : Prop :=
  l ∈ held h ∨ pc h = Record_cpu l ∨ pc h = Unlock l.

(** Nesting depth contributed by the call in progress. *)
Definition pending (p : point) : Z :=
  match p with Run | Panicked => 0 | _ => 1 end.

Definition hart_ok (h : hart) : Prop :=
  (∀ l, pc h = Record_cpu l ∨ pc h = Unlock l → l ∉ held h) ∧
  0 ≤ pushes h ∧
  (pc h ≠ Panicked →
     noff (regs h) = Z.of_nat (size (held h)) + pending (pc h) + pushes h ∧
     (noff (regs h) = 0 → sie (regs h) = before h) ∧
     (0 < noff (regs h) → sie (regs h) = false ∧ intena (regs h) = before h)).

Definition lock_ok (w : world) (l : nat) (lk : spinlock) : Prop :=
  (locked lk = false →
     lcpu lk = None ∧ ∀ c h, harts w !! c = Some h → ¬ owns h l) ∧
  (∀ c h, harts w !! c = Some h → l ∈ held h → lcpu lk = Some c) ∧
  (∀ c, lcpu lk = Some c → ∃ h, harts w !! c = Some h ∧ l ∈ held h) ∧
  (∀ c1 c2 h1 h2, harts w !! c1 = Some h1 → harts w !! c2 = Some h2 →
     owns h1 l → owns h2 l → c1 = c2).

Definition inv (w : world) : Prop :=
  (∀ c h, harts w !! c = Some h → hart_ok h) ∧
  (∀ l lk, locks w !! l = Some lk → lock_ok w l lk).

(** ** Preservation *)

(** Two harts with the same claims on the lock [l]. *)
Definition same_claims (h h' : hart) (l : nat) : Prop :=
  (owns h' l ↔ owns h l) ∧ (l ∈ held h' ↔ l ∈ held h).

Section frame.
Context (w : world) (c : nat) (h h' : hart).
Hypothesis Hh : harts w !! c = Some h.

Lemma lock_ok_same_claims l lk ls :
  same_claims h h' l → lock_ok w l lk →
  lock_ok (mk_world ls (<[c := h']> (harts w))) l lk.
Proof using Hh.
  intros [Ho Hm] (H1 & H2 & H3 & H4).
  assert (Hcase : ∀ c' g, <[c := h']> (harts w) !! c' = Some g →
    ∃ g0, harts w !! c' = Some g0 ∧ (owns g l ↔ owns g0 l) ∧ (l ∈ held g ↔ l ∈ held g0)).
  { intros c' g [(-> & -> & _)|[_ Hg]]%list_lookup_insert_Some; eauto. }
  split; [|split; [|split]]; simpl.
  - intros Hl. destruct (H1 Hl) as [? Hn]. split; [done|].
    intros c' g Hg. destruct (Hcase c' g Hg) as (g0 & Hg0 & -> & _). eauto.
  - intros c' g Hg. destruct (Hcase c' g Hg) as (g0 & Hg0 & _ & ->). eauto.
  - intros c' Hc'. destruct (H3 c' Hc') as (g & Hg & Hin).
    destruct (decide (c' = c)) as [->|Hne].
    + simplify_eq. exists h'. rewrite list_lookup_insert_eq by eauto using lookup_lt_Some.
      split; [done|]. by apply Hm.
    + exists g. by rewrite list_lookup_insert_ne.
  - intros c1 c2 g1 g2 Hg1 Hg2.
    destruct (Hcase c1 g1 Hg1) as (? & ? & -> & _).
    destruct (Hcase c2 g2 Hg2) as (? & ? & -> & _). eauto.
Qed.

Lemma harts_ok_insert :
  (∀ c g, harts w !! c = Some g → hart_ok g) → hart_ok h' →
  ∀ c' g, <[c := h']> (harts w) !! c' = Some g → hart_ok g.
Proof.
  intros Hall Hok c' g [(_ & -> & _)|[_ Hg]]%list_lookup_insert_Some; eauto.
Qed.

Lemma inv_hart :
  inv w → hart_ok h' → (∀ l, same_claims h h' l) →
  inv (mk_world (locks w) (<[c := h']> (harts w))).
Proof using Hh.
  intros [Hhs Hls] Hok Hsame. split; simpl.
  - by apply harts_ok_insert.
  - intros l lk Hl. apply lock_ok_same_claims; auto.
Qed.

Lemma inv_put l lk lk' :
  inv w → locks w !! l = Some lk → hart_ok h' →
  (∀ l', l' ≠ l → same_claims h h' l') →
  lock_ok (put w c l (lk', h')) l lk' →
  inv (put w c l (lk', h')).
Proof using Hh.
  intros [Hhs Hls] Hl Hok Hsame Hlock. split; simpl.
  - by apply harts_ok_insert.
  - intros l' lk2 [(<- & -> & _)|[Hne Hl2]]%list_lookup_insert_Some; [done|].
    apply lock_ok_same_claims; auto.
Qed.
End frame.

(** *** The nesting depth *)

Lemma push_off_noff c : noff (push_off c) = noff c + 1.
Proof. unfold push_off. simpl. by case_match. Qed.

Lemma push_off_ok c b :
  0 ≤ noff c → (noff c = 0 → sie c = b) →
  (0 < noff c → sie c = false ∧ intena c = b) →
  sie (push_off c) = false ∧ intena (push_off c) = b.
Proof.
  intros H0 H1 H2. unfold push_off; simpl. case_match; bool_facts; simpl.
  - auto.
  - split; [done|]. apply H2. lia.
Qed.

Lemma pop_off_ok c b :
  1 ≤ noff c → sie c = false → intena c = b →
  ∃ r, pop_off c = Some r ∧ noff r = noff c - 1 ∧
    (noff r = 0 → sie r = b) ∧ (0 < noff r → sie r = false ∧ intena r = b).
Proof.
  intros Hn Hs Hi. unfold pop_off. rewrite Hs.
  destruct (Z.ltb_spec (noff c) 1); [lia|].
  eexists; split; [done|].
  destruct c as [n i s]; simpl in *; subst.
  destruct (Z.eqb_spec (n - 1) 0), b; simpl; repeat split; auto; lia.
Qed.

Lemma hart_depth_nonneg h : hart_ok h → pc h ≠ Panicked → 0 ≤ noff (regs h).
Proof.
  intros (_ & Hp & Hd) Hpc. destruct (Hd Hpc) as [-> _].
  destruct (pc h); simpl; lia.
Qed.

(** push_off keeps a hart well formed, whatever it stands for. *)
Lemma hart_ok_push h h' :
  hart_ok h → pc h = Run → held h' = held h → before h' = before h →
  regs h' = push_off (regs h) →
  pending (pc h') + pushes h' = pushes h + 1 → 0 ≤ pushes h' →
  (∀ l, pc h' = Record_cpu l ∨ pc h' = Unlock l → l ∉ held h') →
  hart_ok h'.
Proof.
  intros Hok Hrun Hheld Hbef Hregs Hpend Hp0 Hnot.
  pose proof (hart_depth_nonneg h Hok ltac:(congruence)) as H0.
  destruct Hok as (_ & _ & Hd).
  destruct Hd as (Hn & Hz & Hpos); [congruence|].
  destruct (push_off_ok (regs h) (before h) H0 Hz Hpos) as [Hs Hi].
  rewrite Hrun in Hn; simpl in Hn.
  split; [done|split; [done|intros _]].
  rewrite Hregs, push_off_noff, Hheld, Hbef, Hs, Hi.
  repeat split; auto; lia.
Qed.

(** pop_off never panics on a hart whose depth accounts for the call. *)
Lemma hart_ok_pop h k :
  hart_ok h → pc h = Run ∨ pc h = Pop → pending (pc h) + pushes h = k + 1 → 0 ≤ k →
  hart_ok ((do_pop h) <| pushes := k |>) ∧ pc (do_pop h) = Run.
Proof.
  intros (Hnot & Hp0 & Hd) Hpc Hk Hk0.
  assert (pc h ≠ Panicked) as Hnp by (destruct Hpc; congruence).
  destruct (Hd Hnp) as (Hn & Hz & Hpos).
  assert (1 ≤ noff (regs h)) as H1 by lia.
  destruct Hpos as [Hs Hi]; [lia|].
  destruct (pop_off_ok _ (before h) H1 Hs Hi) as (r & Hr & Hrn & Hr0 & Hrp).
  unfold do_pop. rewrite Hr. split; [|done].
  split; [intros l [?|?]; discriminate|split; [done|intros _]]; simpl.
  repeat split; try done; try (by apply Hrp). lia.
Qed.

(** *** One step *)

Lemma same_claims_pc h h' l :
  held h' = held h →
  (pc h' = Record_cpu l ∨ pc h' = Unlock l ↔ pc h = Record_cpu l ∨ pc h = Unlock l) →
  same_claims h h' l.
Proof. unfold same_claims, owns. intros ->. tauto. Qed.

(** Acquisition of a free lock: only this hart claims it. *)
Lemma lock_ok_swap w c l h lk :
  harts w !! c = Some h → lock_ok w l lk → locked lk = false → pc h = Spin l →
  lock_ok (put w c l (lk <| locked := true |>, h <| pc := Record_cpu l |>)) l
          (lk <| locked := true |>).
Proof.
  intros Hh (H1 & H2 & H3 & H4) Hfree Hpc. destruct (H1 Hfree) as [Hnone Hno].
  assert (Hown : ∀ c' g,
    <[c := h <| pc := Record_cpu l |>]> (harts w) !! c' = Some g → owns g l → c' = c).
  { intros c' g [(-> & _ & _)|[_ Hg]]%list_lookup_insert_Some Ho; [done|].
    exfalso. by eapply Hno. }
  split; [|split; [|split]]; simpl; [done|..].
  - intros c' g Hg Hin. exfalso.
    apply list_lookup_insert_Some in Hg as [(-> & <- & _)|[_ Hg]]; simpl in *.
    + eapply Hno; [exact Hh|]. by left.
    + eapply Hno; [exact Hg|]. by left.
  - rewrite Hnone. done.
  - intros c1 c2 g1 g2 Hg1 Hg2 Ho1 Ho2.
    rewrite (Hown c1 g1 Hg1 Ho1), (Hown c2 g2 Hg2 Ho2). done.
Qed.

Lemma lock_ok_record w c l h lk :
  harts w !! c = Some h → lock_ok w l lk → pc h = Record_cpu l →
  lock_ok (put w c l (acquire_record lk c l h)) l (lk <| lcpu := Some c |>).
Proof.
  intros Hh (H1 & H2 & H3 & H4) Hpc.
  assert (Ho : owns h l) by (right; left; done).
  assert (Hlt : (c < length (harts w))%nat) by eauto using lookup_lt_Some.
  assert (Hown : ∀ c' g, <[c := h <| pc := Run |> <| held := {[l]} ∪ held h |>]>
    (harts w) !! c' = Some g → owns g l → c' = c).
  { intros c' g [(-> & _ & _)|[_ Hg]]%list_lookup_insert_Some Ho'; [done|]. eauto. }
  split; [|split; [|split]]; simpl.
  - intros Hf. exfalso. destruct (H1 Hf) as [_ Hno]. by eapply Hno.
  - intros c' g Hg Hin. f_equal. symmetry. eapply Hown; [exact Hg|]. by left.
  - intros c' [= <-]. eexists. rewrite list_lookup_insert_eq by done.
    split; [done|]. simpl. set_solver.
  - intros c1 c2 g1 g2 Hg1 Hg2 Ho1 Ho2.
    rewrite (Hown c1 g1 Hg1 Ho1), (Hown c2 g2 Hg2 Ho2). done.
Qed.

Lemma lock_ok_clear w c l h lk :
  harts w !! c = Some h → lock_ok w l lk → l ∈ held h → locked lk = true →
  lock_ok (put w c l (lk <| lcpu := None |>,
                      h <| pc := Unlock l |> <| held := held h ∖ {[l]} |>)) l
          (lk <| lcpu := None |>).
Proof.
  intros Hh (H1 & H2 & H3 & H4) Hin Hlk.
  assert (Ho : owns h l) by (by left).
  assert (Hown : ∀ c' g, <[c := h <| pc := Unlock l |> <| held := held h ∖ {[l]} |>]>
    (harts w) !! c' = Some g → owns g l → c' = c).
  { intros c' g [(-> & _ & _)|[_ Hg]]%list_lookup_insert_Some Ho'; [done|]. eauto. }
  split; [|split; [|split]]; simpl; [congruence|..].
  - intros c' g Hg Hg'. exfalso.
    assert (c' = c) as -> by (eapply Hown; [exact Hg|]; by left).
    apply list_lookup_insert_Some in Hg as [(_ & <- & _)|[? _]]; [|done].
    simpl in Hg'. set_solver.
  - done.
  - intros c1 c2 g1 g2 Hg1 Hg2 Ho1 Ho2.
    rewrite (Hown c1 g1 Hg1 Ho1), (Hown c2 g2 Hg2 Ho2). done.
Qed.

Lemma lock_ok_unlock w c l h lk :
  harts w !! c = Some h → lock_ok w l lk → pc h = Unlock l → l ∉ held h →
  lock_ok (put w c l (lk <| locked := false |>, h <| pc := Pop |>)) l
          (lk <| locked := false |>).
Proof.
  intros Hh (H1 & H2 & H3 & H4) Hpc Hnin.
  assert (Ho : owns h l) by (right; right; done).
  assert (Hnone : ∀ c' g, <[c := h <| pc := Pop |>]> (harts w) !! c' = Some g →
    ¬ owns g l).
  { intros c' g [(-> & <- & _)|[Hne Hg]]%list_lookup_insert_Some Ho'.
    - destruct Ho' as [?|[?|?]]; simpl in *; [done|discriminate|discriminate].
    - apply Hne. symmetry. eauto. }
  split; [|split; [|split]]; simpl.
  - intros _. split; [|done].
    destruct (lcpu lk) as [c'|] eqn:Hc; [|done]. exfalso.
    destruct (H3 c' eq_refl) as (g & Hg & Hin).
    assert (c' = c) as -> by (eapply H4; eauto; by left). congruence.
  - intros c' g Hg Hin. exfalso. eapply Hnone; [exact Hg|]. by left.
  - intros c' Hc'. exfalso. destruct (H3 c' Hc') as (g & Hg & Hin).
    assert (c' = c) as -> by (eapply H4; eauto; by left). congruence.
  - intros c1 c2 g1 g2 Hg1 _ Ho1. exfalso. by eapply Hnone.
Qed.

(** Setting [locked] of a lock that is already taken changes nothing. *)
Lemma put_id w c l lk h :
  harts w !! c = Some h → locks w !! l = Some lk → put w c l (lk, h) = w.
Proof. intros Hh Hl. unfold put; simpl. rewrite !list_insert_id by done. by destruct w. Qed.

(** A hart that stops in a panic keeps its claims. *)
Lemma hart_ok_panic h r :
  hart_ok h → hart_ok (h <| regs := r |> <| pc := Panicked |>).
Proof.
  intros (_ & ? & _). split; [intros l [?|?]; discriminate|]. split; [done|].
  intros []. done.
Qed.

Ltac claims := apply same_claims_pc; simpl; [done|intuition congruence].

Lemma inv_acquire_entry w c l h lk :
  inv w → harts w !! c = Some h → locks w !! l = Some lk → pc h = Run →
  inv (put w c l (lk, acquire_entry lk c l h)).
Proof.
  intros Hinv Hh Hl Hpc. pose proof (proj1 Hinv c h Hh) as Hok.
  assert (inv (mk_world (locks w) (<[c := acquire_entry lk c l h]> (harts w)))) as H.
  { unfold acquire_entry. case_match.
    - apply inv_hart with h; [done|done|by apply hart_ok_panic|]. intros l'. claims.
    - apply inv_hart with h; [done|done| |intros l'; claims].
      apply hart_ok_push with h; simpl; auto; [lia|apply Hok|].
      intros l' [?|?]; discriminate. }
  unfold put; simpl. by rewrite (list_insert_id (locks w) l lk).
Qed.

Lemma inv_swap w c l h lk :
  inv w → harts w !! c = Some h → locks w !! l = Some lk → pc h = Spin l →
  inv (put w c l (acquire_swap lk l h)).
Proof.
  intros Hinv Hh Hl Hpc. unfold acquire_swap. destruct (locked lk) eqn:Hlk.
  - replace (lk <| locked := true |>) with lk by (destruct lk; simpl in *; by subst).
    by rewrite put_id.
  - pose proof (proj1 Hinv c h Hh) as Hok.
    pose proof (proj2 Hinv l lk Hl) as Hlock.
    apply inv_put with h lk; try done; [| |by apply lock_ok_swap].
    + destruct Hok as (_ & Hp & Hd). split; [|split; [done|]]; simpl.
      * intros l' [[= <-]|?] Hin; [|discriminate].
        destruct Hlock as (H1 & _). destruct (H1 Hlk) as [_ Hno].
        eapply Hno; [exact Hh|]. by left.
      * intros _. rewrite Hpc in Hd. by apply Hd.
    + intros l' Hne. claims.
Qed.

Lemma inv_record w c l h lk :
  inv w → harts w !! c = Some h → locks w !! l = Some lk → pc h = Record_cpu l →
  inv (put w c l (acquire_record lk c l h)).
Proof.
  intros Hinv Hh Hl Hpc. pose proof (proj1 Hinv c h Hh) as Hok.
  apply inv_put with h lk; try done;
    [| |by apply lock_ok_record; [done|apply (proj2 Hinv)|]].
  - destruct Hok as (Hnot & Hp & Hd). split; [|split; [done|]]; simpl.
    + intros l' [?|?]; discriminate.
    + intros _. destruct Hd as [Hn Hrest]; [congruence|].
      rewrite size_union by set_solver. rewrite size_singleton.
      rewrite Hpc in Hn; simpl in Hn. split; [lia|done].
  - intros l' Hne. unfold same_claims, owns; simpl. rewrite Hpc.
    set_solver.
Qed.

Lemma inv_release_entry w c l h lk :
  inv w → harts w !! c = Some h → locks w !! l = Some lk → pc h = Run →
  inv (put w c l (release_entry lk c l h)).
Proof.
  intros Hinv Hh Hl Hpc. pose proof (proj1 Hinv c h Hh) as Hok.
  pose proof (proj2 Hinv l lk Hl) as Hlock. unfold release_entry.
  destruct (holding lk c) eqn:Hhold.
  - unfold holding in Hhold. bool_facts.
    assert (l ∈ held h) as Hin.
    { destruct Hlock as (_ & _ & H3 & _).
      destruct (H3 c) as (g & Hg & ?); [done|]. by simplify_eq. }
    apply inv_put with h lk; try done; [| |by apply lock_ok_clear].
    + destruct Hok as (Hnot & Hp & Hd). split; [|split; [done|]]; simpl.
      * intros l' [?|[= <-]]; [discriminate|]. set_solver.
      * intros _. destruct Hd as [Hn Hrest]; [congruence|].
        rewrite size_difference by set_solver. rewrite size_singleton.
        assert (size (held h) ≠ 0%nat) by (rewrite size_non_empty_iff; set_solver).
        rewrite Hpc in Hn; simpl in Hn. split; [lia|done].
    + intros l' Hne. unfold same_claims, owns; simpl. rewrite Hpc.
      set_solver.
  - replace (put w c l (lk, h <| pc := Panicked |>))
      with (mk_world (locks w) (<[c := h <| pc := Panicked |>]> (harts w)))
      by (unfold put; simpl; by rewrite (list_insert_id (locks w) l lk)).
    apply inv_hart with h; [done|done| |intros l'; claims].
    by apply (hart_ok_panic h (regs h)).
Qed.

Lemma inv_unlock w c l h lk :
  inv w → harts w !! c = Some h → locks w !! l = Some lk → pc h = Unlock l →
  inv (put w c l (lk <| locked := false |>, h <| pc := Pop |>)).
Proof.
  intros Hinv Hh Hl Hpc. destruct (proj1 Hinv c h Hh) as (Hnot & Hp & Hd).
  apply inv_put with h lk; try done.
  - split; [intros l' [?|?]; discriminate|]. split; [done|]. simpl.
    intros _. rewrite Hpc in Hd. by apply Hd.
  - intros l' Hne. claims.
  - apply lock_ok_unlock; auto. by apply (proj2 Hinv).
Qed.

Lemma inv_boot nl nc : inv (boot nl nc).
Proof.
  split; simpl.
  - intros c h [-> _]%lookup_replicate_1. split; [set_solver|]. split; [done|].
    intros _; simpl. split; [done|split; [done|lia]].
  - intros l lk [-> _]%lookup_replicate_1.
    assert (Hno : ∀ c h, harts (boot nl nc) !! c = Some h → ¬ owns h l).
    { intros c h [-> _]%lookup_replicate_1 [?|[?|?]]; simpl in *; set_solver. }
    split; [done|split; [|split; [done|]]].
    + intros c h Hh Hin. exfalso. eapply Hno; [exact Hh|]. by left.
    + intros c1 c2 h1 h2 Hh1 _ Ho. exfalso. by eapply Hno.
Qed.

Lemma inv_step w c e w' : inv w → step w c e = Some w' → inv w'.
Proof.
  intros Hinv Hs. unfold step in Hs.
  destruct (harts w !! c) as [h|] eqn:Hh; simpl in Hs; [|done].
  pose proof (proj1 Hinv c h Hh) as Hok.
  destruct (pc h) as [|l|l|l| |] eqn:Hpc, e as [l'|l'| | | |b]; try done;
    try (destruct (locks w !! _) as [lk|] eqn:Hl; simpl in Hs; [|done]);
    simplify_eq.
  - by apply inv_acquire_entry.
  - by apply inv_release_entry.
  - apply inv_hart with h; [done|done| |intros l'; claims].
    apply hart_ok_push with h; simpl; auto; [rewrite Hpc; simpl; lia| |].
    + destruct Hok as (_ & ? & _). lia.
    + apply Hok.
  - case_match; bool_facts; simplify_eq.
    destruct (hart_ok_pop h (pushes h - 1)) as [Hok' Hrun];
      [done|by left|rewrite Hpc; simpl; lia|lia|].
    apply inv_hart with h; [done|done|done|]. intros l'. apply same_claims_pc; simpl.
    + unfold do_pop. by case_match.
    + rewrite Hrun, Hpc. done.
  - case_match; bool_facts; simplify_eq.
    apply inv_hart with h; [done|done| |intros l'; claims].
    destruct Hok as (Hnot & Hp & Hd). split; [done|split; [done|]]; simpl.
    intros Hnp. destruct (Hd Hnp) as (Hn & _ & _). repeat split; [done|lia|lia].
  - by apply inv_swap.
  - by apply inv_record.
  - by apply inv_unlock.
  - destruct (hart_ok_pop h (pushes h)) as [Hok' Hrun];
      [done|by right|rewrite Hpc; simpl; lia|apply Hok|].
    apply inv_hart with h; [done|done| |intros l'; apply same_claims_pc; simpl].
    + replace (do_pop h) with ((do_pop h) <| pushes := pushes h |>); [done|].
      unfold do_pop. case_match; by destruct h.
    + unfold do_pop. by case_match.
    + rewrite Hrun, Hpc. intuition congruence.
Qed.

Lemma inv_reachable nl nc w : reachable nl nc w → inv w.
Proof. induction 1; [apply inv_boot|]. by eapply inv_step. Qed.

(** ** Theorems *)

(** Running a list of events, to build concrete reachable states. *)
Fixpoint run (w : world) (es : list (nat * event)) : option world :=
  match es with
  | [] => Some w
  | (c, e) :: es => w' ← step w c e; run w' es
  end.

Lemma run_reachable nl nc es w w' :
  reachable nl nc w → run w es = Some w' → reachable nl nc w'.
Proof.
  revert w. induction es as [|[c e] es IH]; simpl; intros w Hw Hrun; [by simplify_eq|].
  destruct (step w c e) as [w1|] eqn:E; simpl in Hrun; [|done].
  eapply IH; [|done]. by eapply reach_step.
Qed.

(** C13: mutual exclusion. In every interleaving of acquire() and release() on
    any number of harts, two harts never hold the same lock, where a hart holds
    a lock from the return of acquire() to the call of release(). *)
Theorem mutual_exclusion nl nc w l lk c1 c2 h1 h2 :
  reachable nl nc w → locks w !! l = Some lk →
  harts w !! c1 = Some h1 → harts w !! c2 = Some h2 →
  l ∈ held h1 → l ∈ held h2 → c1 = c2.
Proof.
  intros Hr%inv_reachable Hl Hh1 Hh2 Hin1 Hin2.
  destruct (proj2 Hr l lk Hl) as (_ & _ & _ & Hex).
  eapply Hex; eauto; by left.
Qed.

(** C28: interrupt discipline. On every reachable state a hart that has not
    panicked has interrupts off while it holds any lock or spins for one, and
    once it is back at nesting depth zero its interrupt bit is what it was
    before the first push_off(). *)
Theorem interrupts_masked_and_restored nl nc w c h :
  reachable nl nc w → harts w !! c = Some h → pc h ≠ Panicked →
  (held h ≠ ∅ ∨ (∃ l, pc h = Spin l) → sie (regs h) = false) ∧
  (noff (regs h) = 0 → sie (regs h) = before h).
Proof.
  intros Hr%inv_reachable Hh Hpc.
  destruct (proj1 Hr c h Hh) as (_ & Hp & Hd).
  destruct (Hd Hpc) as (Hn & Hz & Hpos). split; [|done].
  intros Hbusy. apply Hpos. destruct Hbusy as [Hne|[l Hl]].
  - assert (size (held h) ≠ 0%nat) by (rewrite size_non_empty_iff; set_solver).
    destruct (pc h); simpl in Hn; lia.
  - rewrite Hl in Hn. simpl in Hn. lia.
Qed.

(** the sanity checks of the lock code fire only on misuse. On a reachable
    state a hart outside both functions that calls acquire() on a lock it does
    not hold, or release() on a lock it holds, or pop_off() to undo its own
    push_off(), does not panic; and no panic happens inside the two functions. *)
Theorem lock_calls_do_not_panic nl nc w c e w' h h' :
  reachable nl nc w → step w c e = Some w' →
  harts w !! c = Some h → harts w' !! c = Some h' →
  match e with
  | EAcquire l => l ∉ held h
  | ERelease l => l ∈ held h
  | _ => True
  end → pc h' ≠ Panicked.
Proof.
  intros Hr%inv_reachable Hs Hh Hh' Huse. unfold step in Hs. rewrite Hh in Hs; simpl in Hs.
  assert (Hlt : (c < length (harts w))%nat) by eauto using lookup_lt_Some.
  pose proof (proj1 Hr c h Hh) as Hok.
  destruct (pc h) as [|l|l|l| |] eqn:Hpc, e as [l'|l'| | | |b]; try done;
    try (destruct (locks w !! _) as [lk|] eqn:Hl; simpl in Hs; [|done]);
    try (case_match; [|done]); bool_facts; simplify_eq; simpl in Hh';
    rewrite list_lookup_insert_eq in Hh' by done; simplify_eq; simpl; try congruence.
  - unfold acquire_entry, holding. case_match; simpl; [|done]. bool_facts.
    destruct (proj2 Hr l' lk Hl) as (_ & _ & H3 & _).
    destruct (H3 c) as (g & Hg & ?); [done|]. by simplify_eq.
  - unfold release_entry, holding.
    destruct (proj2 Hr l' lk Hl) as (H1 & H2 & _).
    rewrite (H2 c h Hh Huse), bool_decide_true by done.
    destruct (locked lk) eqn:Hlk; [done|].
    destruct (H1 eq_refl) as [Hn _]. rewrite (H2 c h Hh Huse) in Hn. done.
  - destruct (hart_ok_pop h (pushes h - 1)) as [_ ->];
      [done|by left|rewrite Hpc; simpl; lia|lia|done].
  - unfold acquire_swap. case_match; simpl; congruence.
  - destruct (hart_ok_pop h (pushes h)) as [_ ->];
      [done|by right|rewrite Hpc; simpl; lia|apply Hok|done].
Qed.

(** *** Concrete instances: hart 0 takes lock 0 with interrupts on, hart 1
    spins for it. *)

Definition demo_events : list (nat * event) :=
  [(0%nat, EIntr true); (0%nat, EAcquire 0); (0%nat, EContinue); (0%nat, EContinue);
   (1%nat, EAcquire 0); (1%nat, EContinue)].

Definition demo_world : world := default (boot 1 2) (run (boot 1 2) demo_events).

Lemma demo_reachable : reachable 1 2 demo_world.
Proof. apply (run_reachable 1 2 demo_events (boot 1 2)); [apply reach_boot|]. vm_compute. reflexivity. Qed.

Definition demo_hart (c : nat) : hart :=
  default (mk_hart (mk_cpu 0 false false) Run ∅ 0 false) (harts demo_world !! c).

Lemma mutual_exclusion_witness :
  held (demo_hart 0) = {[0%nat]} ∧ ∀ c h, harts demo_world !! c = Some h →
    0%nat ∈ held h → 0%nat = c.
Proof.
  split; [vm_compute; reflexivity|]. intros c h Hh Hin.
  apply (mutual_exclusion 1 2 demo_world 0 (mk_spinlock true (Some 0%nat)) 0 c
           (demo_hart 0) h).
  - apply demo_reachable.
  - vm_compute. reflexivity.
  - vm_compute. reflexivity.
  - exact Hh.
  - vm_compute. reflexivity.
  - exact Hin.
Defined.

Lemma interrupts_masked_and_restored_witness : sie (regs (demo_hart 0)) = false.
Proof.
  apply (interrupts_masked_and_restored 1 2 demo_world 0 (demo_hart 0)).
  - apply demo_reachable.
  - vm_compute. reflexivity.
  - vm_compute. discriminate.
  - left. vm_compute. discriminate.
Defined.

Lemma lock_calls_do_not_panic_witness :
  ∃ w', step demo_world 0 (ERelease 0) = Some w' ∧
    ∀ h', harts w' !! 0%nat = Some h' → pc h' ≠ Panicked.
Proof.
  destruct (step demo_world 0 (ERelease 0)) as [w'|] eqn:E;
    [|vm_compute in E; discriminate].
  exists w'. split; [reflexivity|]. intros h' Hh'.
  apply (lock_calls_do_not_panic 1 2 demo_world 0 (ERelease 0) w' (demo_hart 0) h').
  - apply demo_reachable.
  - exact E.
  - vm_compute. reflexivity.
  - exact Hh'.
  - vm_compute. reflexivity.
Defined.
