(* ===== verification/KState.v ===== *)
(** * The shared kernel state

    The tables of the process-management half of the kernel, as the headers
    src/kernel/include/proc.h, spinlock.h, sleeplock.h and param.h declare
    them: [proc], [sem], [semset], [condvar], [monitor], [sleeplock],
    [banker_state], and the record [kernel] of all of them. A C array is a
    list, a pointer into a table is its index, a null pointer is [None], and a
    C [int] that the code only uses as a truth value is a [bool]. A [struct dmsg]
    is an object of the heap: its pointers are addresses, and null is 0. Spin locks do
    not appear in these records: an operation of the model is one critical
    section, and [Spinlock] justifies that a critical section runs alone. *)

From stdpp Require Import gmap.
From S2P Require Import Prelude.

(** ** Constants of param.h and spinlock.h *)

Definition NPROC : nat := 64.
Definition NCPU : nat := 8.
Definition PGSIZE : Z := 4096.
Definition KERNBASE : Z := 2147483648.
Definition PHYSTOP : Z := KERNBASE + 128 * 1024 * 1024.
Definition MAXVA : Z := Z.shiftl 1 (9 + 9 + 9 + 12 - 1).
Definition NINODE : nat := 50.
Definition NBUF : nat := 30.
Definition SEM_MAX_NUM : nat := 128.
Definition SEMSET_MAX_NUM : nat := 16.
Definition SEMSET_MAX_SIZE : nat := 16.
Definition MONITOR_MAX_NUM : nat := 16.
Definition MONITOR_COND_MAX : nat := 16.
Definition BANKER_RES_MAX : nat := 8.
Definition DMSG_MAX : Z := 128.
Definition DMSG_QUEUE_MAX : Z := 16.
Definition MLFQ_LEVELS : Z := 4.
Definition MIDSCHED_HOLD_TICKS : Z := 50.

(** [mlfq_time_slice[]]: the slices MLFQ_SLICE_L0 .. MLFQ_SLICE_L3. *)
Definition mlfq_time_slice (level : Z) : Z :=
  if level =? 0 then 1 else if level =? 1 then 2 else if level =? 2 then 4 else 8.

(** The build selects one scheduler: [make SCHED=MLFQ] (the default) or
    [make SCHED=DYNPRIO]; the [#if] blocks of the code test it. *)
Inductive sched_conf := SCHED_MLFQ | SCHED_DYNPRIO.

#[export] Instance sched_conf_eq_dec : EqDecision sched_conf.
Proof. solve_decision. Defined.

(** ** Wait channels

    [p->chan] is the address of a kernel object; two channels are equal when
    they are the same object. *)
Inductive chan :=
  | ChProc (i : nat)             (* &proc[i] *)
  | ChDmsg (i : nat)             (* &proc[i].dmsg_count *)
  | ChSem (i : nat)              (* &sems[i] *)
  | ChSemset (i j : nat)         (* &semsets[i].sems[j] *)
  | ChMon (i : nat)              (* &monitors[i] *)
  | ChCond (i j : nat)           (* &monitors[i].conds[j] *)
  | ChSleeplock (i : nat)        (* sleeplocks[i] *)
  | ChTicks                      (* &ticks *)
  | ChLog                        (* &log *)
  | ChOther (addr : Z).          (* any other object *)

#[export] Instance chan_eq_dec : EqDecision chan.
Proof. solve_decision. Defined.

(** ** Processes *)

Inductive procstate :=
  UNUSED | SLEEPING | SUSPENDED_SLEEP | SUSPENDED | RUNNABLE | RUNNING | ZOMBIE.

#[export] Instance procstate_eq_dec : EqDecision procstate.
Proof. solve_decision. Defined.

Inductive rt_class := SCHED_NORMAL | SCHED_RT_LLF.

#[export] Instance rt_class_eq_dec : EqDecision rt_class.
Proof. solve_decision. Defined.

(** A queued direct message, [struct dmsg]: [dm_next] is the address of the next
    one, 0 for null; of the array [data] the bytes that were written. *)
Record dmsg := mk_dmsg { dm_next : Z; dm_len : Z; dm_sender : Z; dm_data : list Z }.

#[export] Instance dmsg_rebuild : Rebuild dmsg := λ m,
  mk_dmsg (dm_next m) (dm_len m) (dm_sender m) (dm_data m).
#[export] Instance dm_next_set : Setter dm_next := ltac:(solve_setter).

(** [struct proc], the fields of the scheduling, synchronisation and IPC code.
    [dmsg_head] and [dmsg_tail] are addresses of messages, 0 for null. *)
Record proc := mk_proc {
  state : procstate;
  parent : option nat;
  p_chan : option chan;
  killed : bool;
  xstate : Z;
  pid : Z;
  tgid : Z;
  tgroup_ref : Z;
  sz : Z;
  swap_hand : Z;
  trace_mask : Z;
  priority : Z;
  wait_time : Z;
  cpu_time : Z;
  dyn_priority : Z;
  pi_boost : Z;
  mlfq_level : Z;
  mlfq_ticks : Z;
  rt_policy : rt_class;
  rt_period : Z;
  rt_runtime : Z;
  rt_deadline : Z;
  rt_release : Z;
  rt_deadline_tick : Z;
  rt_remaining : Z;
  rt_misses : Z;
  midsched_suspending : bool;
  pthread : option nat;
  ustack : Z;
  shm : Z;
  shmkeymask : Z;
  mqmask : Z;
  dmsg_head : Z;
  dmsg_tail : Z;
  dmsg_count : Z;
  dmsg_bytes : Z;
  dmsg_closed : bool;
  alarm_interval : Z;
  alarm_handler : Z;
  alarm_ticks : Z;
  alarm_goingoff : bool;
  bkr_active : bool;
  bkr_max : list Z;
  bkr_alloc : list Z;
}.

#[export] Instance proc_rebuild : Rebuild proc := λ p,
  mk_proc (state p) (parent p) (p_chan p) (killed p) (xstate p) (pid p) (tgid p)
    (tgroup_ref p) (sz p) (swap_hand p) (trace_mask p) (priority p) (wait_time p)
    (cpu_time p) (dyn_priority p) (pi_boost p) (mlfq_level p) (mlfq_ticks p)
    (rt_policy p) (rt_period p) (rt_runtime p) (rt_deadline p) (rt_release p)
    (rt_deadline_tick p) (rt_remaining p) (rt_misses p) (midsched_suspending p)
    (pthread p) (ustack p) (shm p) (shmkeymask p) (mqmask p) (dmsg_head p) (dmsg_tail p)
    (dmsg_count p) (dmsg_bytes p) (dmsg_closed p) (alarm_interval p)
    (alarm_handler p) (alarm_ticks p) (alarm_goingoff p) (bkr_active p)
    (bkr_max p) (bkr_alloc p).

#[export] Instance state_set : Setter state := ltac:(solve_setter).
#[export] Instance parent_set : Setter parent := ltac:(solve_setter).
#[export] Instance p_chan_set : Setter p_chan := ltac:(solve_setter).
#[export] Instance killed_set : Setter killed := ltac:(solve_setter).
#[export] Instance xstate_set : Setter xstate := ltac:(solve_setter).
#[export] Instance pid_set : Setter pid := ltac:(solve_setter).
#[export] Instance tgid_set : Setter tgid := ltac:(solve_setter).
#[export] Instance tgroup_ref_set : Setter tgroup_ref := ltac:(solve_setter).
#[export] Instance sz_set : Setter sz := ltac:(solve_setter).
#[export] Instance swap_hand_set : Setter swap_hand := ltac:(solve_setter).
#[export] Instance trace_mask_set : Setter trace_mask := ltac:(solve_setter).
#[export] Instance priority_set : Setter priority := ltac:(solve_setter).
#[export] Instance wait_time_set : Setter wait_time := ltac:(solve_setter).
#[export] Instance cpu_time_set : Setter cpu_time := ltac:(solve_setter).
#[export] Instance dyn_priority_set : Setter dyn_priority := ltac:(solve_setter).
#[export] Instance pi_boost_set : Setter pi_boost := ltac:(solve_setter).
#[export] Instance mlfq_level_set : Setter mlfq_level := ltac:(solve_setter).
#[export] Instance mlfq_ticks_set : Setter mlfq_ticks := ltac:(solve_setter).
#[export] Instance rt_policy_set : Setter rt_policy := ltac:(solve_setter).
#[export] Instance rt_period_set : Setter rt_period := ltac:(solve_setter).
#[export] Instance rt_runtime_set : Setter rt_runtime := ltac:(solve_setter).
#[export] Instance rt_deadline_set : Setter rt_deadline := ltac:(solve_setter).
#[export] Instance rt_release_set : Setter rt_release := ltac:(solve_setter).
#[export] Instance rt_deadline_tick_set : Setter rt_deadline_tick := ltac:(solve_setter).
#[export] Instance rt_remaining_set : Setter rt_remaining := ltac:(solve_setter).
#[export] Instance rt_misses_set : Setter rt_misses := ltac:(solve_setter).
#[export] Instance midsched_suspending_set : Setter midsched_suspending := ltac:(solve_setter).
#[export] Instance pthread_set : Setter pthread := ltac:(solve_setter).
#[export] Instance ustack_set : Setter ustack := ltac:(solve_setter).
#[export] Instance shm_set : Setter shm := ltac:(solve_setter).
#[export] Instance shmkeymask_set : Setter shmkeymask := ltac:(solve_setter).
#[export] Instance mqmask_set : Setter mqmask := ltac:(solve_setter).
#[export] Instance dmsg_head_set : Setter dmsg_head := ltac:(solve_setter).
#[export] Instance dmsg_tail_set : Setter dmsg_tail := ltac:(solve_setter).
#[export] Instance dmsg_count_set : Setter dmsg_count := ltac:(solve_setter).
#[export] Instance dmsg_bytes_set : Setter dmsg_bytes := ltac:(solve_setter).
#[export] Instance dmsg_closed_set : Setter dmsg_closed := ltac:(solve_setter).
#[export] Instance alarm_interval_set : Setter alarm_interval := ltac:(solve_setter).
#[export] Instance alarm_handler_set : Setter alarm_handler := ltac:(solve_setter).
#[export] Instance alarm_ticks_set : Setter alarm_ticks := ltac:(solve_setter).
#[export] Instance alarm_goingoff_set : Setter alarm_goingoff := ltac:(solve_setter).
#[export] Instance bkr_active_set : Setter bkr_active := ltac:(solve_setter).
#[export] Instance bkr_max_set : Setter bkr_max := ltac:(solve_setter).
#[export] Instance bkr_alloc_set : Setter bkr_alloc := ltac:(solve_setter).

(** The static initial value of an entry of [proc[]]: all fields zero. *)
Definition proc_zero : proc :=
  mk_proc UNUSED None None false 0 0 0 0 0 0 0 0 0 0 0 0 0 0 SCHED_NORMAL
    0 0 0 0 0 0 0 false None 0 0 0 0 0 0 0 0 false 0 0 0 false false
    (replicate BANKER_RES_MAX 0) (replicate BANKER_RES_MAX 0).

#[export] Instance proc_inhabited : Inhabited proc := populate proc_zero.

(** ** Synchronisation objects *)

Record sem := mk_sem {
  resource_count : Z;
  waiters : Z;
  owner : Z;
  allocated : bool;
}.

#[export] Instance sem_rebuild : Rebuild sem := λ s,
  mk_sem (resource_count s) (waiters s) (owner s) (allocated s).
#[export] Instance resource_count_set : Setter resource_count := ltac:(solve_setter).
#[export] Instance waiters_set : Setter waiters := ltac:(solve_setter).
#[export] Instance owner_set : Setter owner := ltac:(solve_setter).
#[export] Instance allocated_set : Setter allocated := ltac:(solve_setter).

Definition sem_zero : sem := mk_sem 0 0 0 false.
#[export] Instance sem_inhabited : Inhabited sem := populate sem_zero.

Record semset := mk_semset {
  set_allocated : bool;
  set_count : Z;
  set_sems : list sem;
}.

#[export] Instance semset_rebuild : Rebuild semset := λ s,
  mk_semset (set_allocated s) (set_count s) (set_sems s).
#[export] Instance set_allocated_set : Setter set_allocated := ltac:(solve_setter).
#[export] Instance set_count_set : Setter set_count := ltac:(solve_setter).
#[export] Instance set_sems_set : Setter set_sems := ltac:(solve_setter).

Definition semset_zero : semset :=
  mk_semset false 0 (replicate SEMSET_MAX_SIZE sem_zero).
#[export] Instance semset_inhabited : Inhabited semset := populate semset_zero.

Record condvar := mk_condvar { c_allocated : bool; c_waiters : Z }.

#[export] Instance condvar_rebuild : Rebuild condvar := λ c,
  mk_condvar (c_allocated c) (c_waiters c).
#[export] Instance c_allocated_set : Setter c_allocated := ltac:(solve_setter).
#[export] Instance c_waiters_set : Setter c_waiters := ltac:(solve_setter).

Definition condvar_zero : condvar := mk_condvar false 0.
#[export] Instance condvar_inhabited : Inhabited condvar := populate condvar_zero.

Record monitor := mk_monitor {
  m_allocated : bool;
  m_locked : bool;
  m_owner : Z;
  m_waiters : Z;
  m_pi_waiter_max : Z;
  m_conds : list condvar;
}.

#[export] Instance monitor_rebuild : Rebuild monitor := λ m,
  mk_monitor (m_allocated m) (m_locked m) (m_owner m) (m_waiters m)
    (m_pi_waiter_max m) (m_conds m).
#[export] Instance m_allocated_set : Setter m_allocated := ltac:(solve_setter).
#[export] Instance m_locked_set : Setter m_locked := ltac:(solve_setter).
#[export] Instance m_owner_set : Setter m_owner := ltac:(solve_setter).
#[export] Instance m_waiters_set : Setter m_waiters := ltac:(solve_setter).
#[export] Instance m_pi_waiter_max_set : Setter m_pi_waiter_max := ltac:(solve_setter).
#[export] Instance m_conds_set : Setter m_conds := ltac:(solve_setter).

Definition monitor_zero : monitor :=
  mk_monitor false false 0 0 0 (replicate MONITOR_COND_MAX condvar_zero).
#[export] Instance monitor_inhabited : Inhabited monitor := populate monitor_zero.

(** [struct sleeplock], an entry of the registration table [sleeplocks[]]. *)
Record sleeplock := mk_sleeplock {
  sl_locked : bool;
  sl_pid : Z;
  sl_pi_waiter_max : Z;
}.

#[export] Instance sleeplock_rebuild : Rebuild sleeplock := λ l,
  mk_sleeplock (sl_locked l) (sl_pid l) (sl_pi_waiter_max l).
#[export] Instance sl_locked_set : Setter sl_locked := ltac:(solve_setter).
#[export] Instance sl_pid_set : Setter sl_pid := ltac:(solve_setter).
#[export] Instance sl_pi_waiter_max_set : Setter sl_pi_waiter_max := ltac:(solve_setter).

#[export] Instance sleeplock_inhabited : Inhabited sleeplock :=
  populate (mk_sleeplock false 0 0).

Record banker_state := mk_banker {
  inited : bool;
  nres : nat;
  total : list Z;
  avail : list Z;
}.

#[export] Instance banker_state_rebuild : Rebuild banker_state := λ b,
  mk_banker (inited b) (nres b) (total b) (avail b).
#[export] Instance inited_set : Setter inited := ltac:(solve_setter).
#[export] Instance nres_set : Setter nres := ltac:(solve_setter).
#[export] Instance total_set : Setter total := ltac:(solve_setter).
#[export] Instance avail_set : Setter avail := ltac:(solve_setter).

(** ** The kernel *)

(** The tables, and the pages that hold a struct dmsg ([dmsg_heap], by address). *)
Record kernel := mk_kernel {
  procs : list proc;
  nextpid : Z;
  ticks : Z;
  initproc : option nat;
  midsched_enabled : bool;
  midsched_last_suspend : Z;
  mlfq_rr_next : list nat;
  last_boost : Z;
  banker : banker_state;
  sems : list sem;
  sem_used_count : Z;
  semsets : list semset;
  semset_used_count : Z;
  monitors : list monitor;
  sleeplocks : list sleeplock;
  dmsg_heap : gmap Z dmsg;
}.

#[export] Instance kernel_rebuild : Rebuild kernel := λ k,
  mk_kernel (procs k) (nextpid k) (ticks k) (initproc k) (midsched_enabled k)
    (midsched_last_suspend k) (mlfq_rr_next k) (last_boost k) (banker k) (sems k)
    (sem_used_count k) (semsets k) (semset_used_count k) (monitors k) (sleeplocks k)
    (dmsg_heap k).
#[export] Instance procs_set : Setter procs := ltac:(solve_setter).
#[export] Instance nextpid_set : Setter nextpid := ltac:(solve_setter).
#[export] Instance ticks_set : Setter ticks := ltac:(solve_setter).
#[export] Instance initproc_set : Setter initproc := ltac:(solve_setter).
#[export] Instance midsched_enabled_set : Setter midsched_enabled := ltac:(solve_setter).
#[export] Instance midsched_last_suspend_set : Setter midsched_last_suspend := ltac:(solve_setter).
#[export] Instance mlfq_rr_next_set : Setter mlfq_rr_next := ltac:(solve_setter).
#[export] Instance last_boost_set : Setter last_boost := ltac:(solve_setter).
#[export] Instance banker_set : Setter banker := ltac:(solve_setter).
#[export] Instance sems_set : Setter sems := ltac:(solve_setter).
#[export] Instance sem_used_count_set : Setter sem_used_count := ltac:(solve_setter).
#[export] Instance semsets_set : Setter semsets := ltac:(solve_setter).
#[export] Instance semset_used_count_set : Setter semset_used_count := ltac:(solve_setter).
#[export] Instance monitors_set : Setter monitors := ltac:(solve_setter).
#[export] Instance sleeplocks_set : Setter sleeplocks := ltac:(solve_setter).
#[export] Instance dmsg_heap_set : Setter dmsg_heap := ltac:(solve_setter).

(** Static initial values, before procinit() and initsem(). *)
Definition kernel_zero : kernel :=
  mk_kernel (replicate NPROC proc_zero) 1 0 None false 0 (replicate 4 0%nat) 0
    (mk_banker false 0 (replicate BANKER_RES_MAX 0) (replicate BANKER_RES_MAX 0))
    (replicate SEM_MAX_NUM sem_zero) 0 (replicate SEMSET_MAX_NUM semset_zero) 0
    (replicate MONITOR_MAX_NUM monitor_zero) [] ∅.

(** [p->f = ...] for the process at index [i], and for whole-table updates. *)
Definition upd_proc (i : nat) (f : proc → proc) (k : kernel) : kernel :=
  k <| procs := alter f i (procs k) |>.

(** [&proc[i]] read through the table; out of range it is the zero entry. *)
Definition get_proc (k : kernel) (i : nat) : proc := procs k !!! i.

Lemma get_proc_upd_eq k i f :
  (i < length (procs k))%nat → get_proc (upd_proc i f k) i = f (get_proc k i).
Proof.
  intros Hi. unfold get_proc, upd_proc; simpl.
  destruct (lookup_lt_is_Some_2 _ _ Hi) as [p Hp].
  rewrite !list_lookup_total_alt, list_lookup_alter_eq, Hp. done.
Qed.

Lemma get_proc_upd_ne k i j f :
  i ≠ j → get_proc (upd_proc i f k) j = get_proc k j.
Proof.
  intros Hij. unfold get_proc, upd_proc; simpl.
  by rewrite !list_lookup_total_alt, list_lookup_alter_ne.
Qed.

Lemma upd_proc_length k i f : length (procs (upd_proc i f k)) = length (procs k).
Proof. apply length_alter. Qed.

Lemma upd_proc_const k i f p :
  procs k !! i = Some p → upd_proc i f k = upd_proc i (λ _, f p) k.
Proof.
  intros Hp. unfold upd_proc. by rewrite (list_alter_ext' f (λ _, f p) i _ p).
Qed.

#[export] Hint Rewrite upd_proc_length : oops_rw.
