(* ===== verification/ProcSync.v ===== *)
(** * Sleeping, waking and killing (src/kernel/proc/proc.c)

    [sleep] is cut at its call of sched(): [sleep_enter] is what the process
    does before it gives up the hart, [sleep_exit] what it does when it runs
    again. [wakeup], [wakeupOneProc], [wakeup1], [kill] and [killtree] are the
    functions of the same names. *)

From S2P Require Import Prelude KState.

Section with_sched.
Context (mode : sched_conf).

(** The [#if defined(SCHED_MLFQ)] block that puts a woken process on level 0. *)
Definition mlfq_reset (p : proc) : proc :=
  match mode with
  | SCHED_MLFQ => p <| mlfq_level := 0 |> <| mlfq_ticks := 0 |>
  | SCHED_DYNPRIO => p
  end.

(** ** sleep *)

(** p->chan = chan; p->state = SLEEPING; p->mlfq_ticks = 0; sched(); *)
Definition sleep_enter (i : nat) (ch : chan) (k : kernel) : kernel :=
  upd_proc i (λ p, p <| p_chan := Some ch |> <| state := SLEEPING |>
                     <| mlfq_ticks := 0 |>) k.

(** p->chan = 0; *)
Definition sleep_exit (i : nat) (k : kernel) : kernel :=
  upd_proc i (λ p, p <| p_chan := None |>) k.

(** ** wakeup *)

Definition sleeping_on (ch : chan) (p : proc) : bool :=
  bool_decide (state p = SLEEPING) && bool_decide (p_chan p = Some ch).

Definition susp_sleeping_on (ch : chan) (p : proc) : bool :=
  bool_decide (state p = SUSPENDED_SLEEP) && bool_decide (p_chan p = Some ch).

(** The body of the loops of wakeup and wakeupOneProc. *)
Definition wake_proc (ch : chan) (p : proc) : proc :=
  if sleeping_on ch p then mlfq_reset (p <| state := RUNNABLE |>)
  else if susp_sleeping_on ch p then p <| state := SUSPENDED |>
  else p.

Definition wakeup (ch : chan) (k : kernel) : kernel :=
  k <| procs := wake_proc ch <$> procs k |>.

(** Whether the process is waiting on the channel, suspended or not. *)
Definition waiting_on (ch : chan) (p : proc) : bool :=
  sleeping_on ch p || susp_sleeping_on ch p.

Definition wakeupOneProc (ch : chan) (k : kernel) : kernel :=
  match find_index (waiting_on ch) (procs k) with
  | Some i => upd_proc i (wake_proc ch) k
  | None => k
  end.

(** wakeup1(p): wakes the process at [i] if it sleeps on its own address. *)
Definition wakeup1 (i : nat) (k : kernel) : kernel :=
  upd_proc i (wake_proc (ChProc i)) k.

(** ** kill *)

Definition mark_killed (p : proc) : proc :=
  let p := p <| killed := true |> in
  if bool_decide (state p = SLEEPING) then mlfq_reset (p <| state := RUNNABLE |>)
  else if bool_decide (state p = SUSPENDED) || bool_decide (state p = SUSPENDED_SLEEP)
  then mlfq_reset (p <| state := RUNNABLE |> <| midsched_suspending := false |>)
  else p.

Definition kill (pid0 : Z) (k : kernel) : Z * kernel :=
  match find_index (λ p, pid p =? pid0) (procs k) with
  | Some i => (0, upd_proc i mark_killed k)
  | None => (-1, k)
  end.

(** The walk up the parent pointers; [None] when the turns do not suffice. *)
Fixpoint is_descendant (fuel : nat) (ps : list proc) (cur : option nat)
    (root_pid : Z) : option bool :=
  match cur with
  | None => Some false
  | Some i =>
      match fuel with
      | O => None
      | S fuel =>
          let p := ps !!! i in
          if pid p =? root_pid then Some true
          else is_descendant fuel ps (parent p) root_pid
      end
  end.

(** A parent chain visits each table entry at most once. *)
Definition chain_fuel : nat := S NPROC.

Definition killtree_body (root_pid : Z) (st : option (kernel * bool)) (i : nat)
    : option (kernel * bool) :=
  '(k, found) ← st;
  let p := get_proc k i in
  if bool_decide (state p = UNUSED) then Some (k, found)
  else
    d ← is_descendant chain_fuel (procs k) (Some i) root_pid;
    if (pid p =? root_pid) || d then Some (upd_proc i mark_killed k, true)
    else Some (k, found).

Definition killtree (root_pid : Z) (k : kernel) : option (Z * kernel) :=
  '(k', found) ← foldl (killtree_body root_pid) (Some (k, false)) (seq 0 NPROC);
  Some (if found : bool then 0 else -1, k').

(** ** Facts about single processes *)

Lemma mlfq_reset_fields p :
  state (mlfq_reset p) = state p ∧ p_chan (mlfq_reset p) = p_chan p ∧
  pid (mlfq_reset p) = pid p ∧ parent (mlfq_reset p) = parent p ∧
  killed (mlfq_reset p) = killed p ∧
  midsched_suspending (mlfq_reset p) = midsched_suspending p.
Proof. unfold mlfq_reset. by destruct mode. Qed.

Lemma wake_proc_state ch p :
  state (wake_proc ch p) =
    if sleeping_on ch p then RUNNABLE
    else if susp_sleeping_on ch p then SUSPENDED else state p.
Proof.
  unfold wake_proc. case_match; [by destruct (mlfq_reset_fields (p <| state := RUNNABLE |>))|].
  by case_match.
Qed.

Lemma wake_proc_chan ch p : p_chan (wake_proc ch p) = p_chan p.
Proof. unfold wake_proc, mlfq_reset. repeat case_match; done. Qed.

Lemma wake_proc_pid ch p : pid (wake_proc ch p) = pid p.
Proof. unfold wake_proc, mlfq_reset. repeat case_match; done. Qed.

Lemma wake_proc_idle ch p : waiting_on ch p = false → wake_proc ch p = p.
Proof.
  unfold waiting_on, wake_proc. intros H. bool_facts. by rewrite H, H0.
Qed.

Lemma wake_proc_not_waiting ch p : waiting_on ch (wake_proc ch p) = false.
Proof.
  unfold waiting_on, sleeping_on at 1, susp_sleeping_on at 1.
  rewrite wake_proc_state.
  destruct (sleeping_on ch p) eqn:E1; [done|].
  destruct (susp_sleeping_on ch p) eqn:E2; [done|].
  rewrite wake_proc_idle by (unfold waiting_on; by rewrite E1, E2).
  fold (sleeping_on ch p) (susp_sleeping_on ch p). by rewrite E1, E2.
Qed.

Lemma mark_killed_fields p :
  killed (mark_killed p) = true ∧ pid (mark_killed p) = pid p ∧
  parent (mark_killed p) = parent p ∧
  (state (mark_killed p) = UNUSED ↔ state p = UNUSED).
Proof.
  destruct p as [s]; unfold mark_killed, mlfq_reset; destruct s, mode; done.
Qed.
End with_sched.

(** ** wakeup as repeated wakeupOneProc *)

Section wake.
Context (mode : sched_conf) (ch : chan).

Definition waiter_count (ps : list proc) : nat :=
  length (filter (λ p, waiting_on ch p = true) ps).

Definition wake_first (ps : list proc) : list proc :=
  match find_index (waiting_on ch) ps with
  | Some i => alter (wake_proc mode ch) i ps
  | None => ps
  end.

Lemma wake_first_spec ps :
  wake_proc mode ch <$> wake_first ps = wake_proc mode ch <$> ps ∧
  waiter_count (wake_first ps) = pred (waiter_count ps).
Proof.
  unfold wake_first, waiter_count.
  induction ps as [|p ps [IH1 IH2]]; simpl; [done|].
  destruct (waiting_on ch p) eqn:Hp; simpl.
  - rewrite (filter_cons_True _ p) by done.
    rewrite filter_cons_False by (by rewrite wake_proc_not_waiting).
    rewrite (wake_proc_idle _ ch (wake_proc _ _ _)) by apply wake_proc_not_waiting.
    done.
  - rewrite (filter_cons_False _ p) by (by rewrite Hp).
    destruct (find_index (waiting_on ch) ps) as [i|] eqn:E; simpl;
      rewrite filter_cons_False by (by rewrite Hp).
    all: split; [f_equal; exact IH1|exact IH2].
Qed.

Lemma wake_all_idle ps :
  waiter_count ps = 0%nat → wake_proc mode ch <$> ps = ps.
Proof.
  unfold waiter_count. intros H%nil_length_inv.
  induction ps as [|p ps IH]; [done|].
  destruct (waiting_on ch p) eqn:Hp.
  - by rewrite filter_cons_True in H.
  - rewrite filter_cons_False in H by (by rewrite Hp).
    rewrite fmap_cons, IH by done. by rewrite wake_proc_idle.
Qed.

Lemma wake_first_iter n ps :
  (waiter_count ps ≤ n)%nat →
  Nat.iter n wake_first ps = wake_proc mode ch <$> ps.
Proof.
  revert ps. induction n as [|n IH]; intros ps Hn.
  - simpl. rewrite wake_all_idle by lia. done.
  - rewrite Nat.iter_succ_r.
    destruct (wake_first_spec ps) as [Heq Hcnt].
    rewrite IH by lia. done.
Qed.

Lemma wakeupOneProc_procs k :
  wakeupOneProc mode ch k = k <| procs := wake_first (procs k) |>.
Proof.
  unfold wakeupOneProc, wake_first, upd_proc. case_match; [done|]. by destruct k.
Qed.

Lemma wakeupOneProc_iter_procs n k :
  Nat.iter n (wakeupOneProc mode ch) k = k <| procs := Nat.iter n wake_first (procs k) |>.
Proof.
  induction n as [|n IH]; [by destruct k|].
  simpl. rewrite IH, wakeupOneProc_procs. done.
Qed.
End wake.

(** ** The process tree *)

(** [descends ps i r]: an entry with pid [r] is on the parent chain of [i]. *)
Inductive descends (ps : list proc) (root_pid : Z) : nat → Prop :=
  | desc_here i : pid (ps !!! i) = root_pid → descends ps root_pid i
  | desc_up i j :
      parent (ps !!! i) = Some j → descends ps root_pid j → descends ps root_pid i.

(** Parent chains are finite: a depth that grows away from the root, at most
    the size of the table. *)
Definition tree_shaped (ps : list proc) : Prop :=
  ∃ depth : nat → nat, (∀ i, depth i ≤ NPROC)%nat ∧
    ∀ i j, parent (ps !!! i) = Some j → (depth j < depth i)%nat.

Lemma is_descendant_spec ps root_pid depth fuel i :
  (∀ i j, parent (ps !!! i) = Some j → (depth j < depth i)%nat) →
  (depth i < fuel)%nat →
  ∃ b, is_descendant fuel ps (Some i) root_pid = Some b ∧
       (b = true ↔ descends ps root_pid i).
Proof.
  intros Hdep. revert i. induction fuel as [|fuel IH]; intros i Hlt; [lia|]. simpl.
  destruct (Z.eqb_spec (pid (ps !!! i)) root_pid) as [Heq|Hne].
  - exists true. split; [done|]. split; [|done]. intros _. by apply desc_here.
  - destruct (parent (ps !!! i)) as [j|] eqn:Hj.
    + destruct (IH j) as (b & Hb & Hiff); [apply Hdep in Hj; lia|].
      exists b. split; [done|]. rewrite Hiff. split.
      * intros Hd. by eapply desc_up.
      * intros Hd. inv Hd; by simplify_eq.
    + exists false. rewrite <-Hj. split; [destruct fuel; by rewrite Hj|].
      split; [done|]. intros Hd. inv Hd; by simplify_eq.
Qed.

Lemma is_descendant_ext fuel ps ps' cur root_pid :
  (∀ i, pid (ps !!! i) = pid (ps' !!! i)) →
  (∀ i, parent (ps !!! i) = parent (ps' !!! i)) →
  is_descendant fuel ps cur root_pid = is_descendant fuel ps' cur root_pid.
Proof.
  intros Hpid Hpar. revert cur.
  induction fuel as [|fuel IH]; intros [i|]; simpl; try done.
  rewrite Hpid, Hpar. by rewrite IH.
Qed.

Lemma is_descendant_self fuel ps i root_pid :
  pid (ps !!! i) = root_pid → is_descendant (S fuel) ps (Some i) root_pid = Some true.
Proof. intros <-. simpl. by rewrite Z.eqb_refl. Qed.

#[global] Arguments is_descendant : simpl never.

(** What killtree does to the entry [i] of the table [ps]. *)
Definition kill_entry (mode : sched_conf) (ps : list proc) (root_pid : Z)
    (i : nat) (p : proc) : proc :=
  if negb (bool_decide (state p = UNUSED)) &&
     default false (is_descendant chain_fuel ps (Some i) root_pid)
  then mark_killed mode p else p.

Section killtree.
Context (mode : sched_conf) (k : kernel) (root_pid : Z).
Hypothesis Hlen : length (procs k) = NPROC.
Hypothesis Htree : tree_shaped (procs k).

Definition kill_upto (n : nat) : list proc :=
  imap (λ i p, if (i <? n)%nat then kill_entry mode (procs k) root_pid i p else p)
    (procs k).

Definition is_target (i : nat) : bool :=
  negb (bool_decide (state (procs k !!! i) = UNUSED)) &&
  default false (is_descendant chain_fuel (procs k) (Some i) root_pid).

Lemma kill_upto_lookup n i :
  kill_upto n !!! i =
    if (i <? n)%nat && (i <? NPROC)%nat
    then kill_entry mode (procs k) root_pid i (procs k !!! i)
    else procs k !!! i.
Proof using Hlen.
  rewrite !list_lookup_total_alt. unfold kill_upto. rewrite list_lookup_imap.
  destruct (Nat.ltb_spec i NPROC) as [Hi|Hi].
  - destruct (lookup_lt_is_Some_2 (procs k) i) as [p Hp]; [lia|].
    rewrite Hp. simpl. rewrite andb_true_r. by case_match.
  - rewrite (lookup_ge_None_2 (procs k)) by lia. simpl. by rewrite andb_false_r.
Qed.

Lemma kill_upto_same n i :
  pid (kill_upto n !!! i) = pid (procs k !!! i) ∧
  parent (kill_upto n !!! i) = parent (procs k !!! i).
Proof using Hlen.
  rewrite kill_upto_lookup. unfold kill_entry. repeat case_match; try done.
  destruct (mark_killed_fields mode (procs k !!! i)) as (_ & ? & ? & _). done.
Qed.

Lemma is_descendant_total i :
  ∃ b, is_descendant chain_fuel (procs k) (Some i) root_pid = Some b ∧
       (b = true ↔ descends (procs k) root_pid i).
Proof using Hlen Htree.
  destruct Htree as (depth & Hmax & Hdep).
  apply is_descendant_spec with depth; [done|]. pose proof (Hmax i).
  unfold chain_fuel. lia.
Qed.

Lemma is_target_exists :
  existsb is_target (seq 0 NPROC) = true ↔
  ∃ i p, procs k !! i = Some p ∧ state p ≠ UNUSED ∧ descends (procs k) root_pid i.
Proof using Hlen Htree.
  rewrite existsb_exists. unfold is_target. split.
  - intros (i & Hi%in_seq & Ht). bool_facts.
    destruct (lookup_lt_is_Some_2 (procs k) i) as [p Hp]; [lia|].
    destruct (is_descendant_total i) as (b & Hb & Hiff). rewrite Hb in *. simpl in *.
    exists i, p. rewrite (list_lookup_total_correct _ _ _ Hp) in *. naive_solver.
  - intros (i & p & Hp & Hu & Hd). exists i.
    split; [apply in_seq; apply lookup_lt_Some in Hp; lia|].
    rewrite (list_lookup_total_correct _ _ _ Hp), bool_decide_eq_false_2 by done.
    destruct (is_descendant_total i) as (b & Hb & Hiff). rewrite Hb. simpl.
    by apply Hiff.
Qed.

Lemma kill_upto_0 : kill_upto 0 = procs k.
Proof.
  apply list_eq. intros i. unfold kill_upto. rewrite list_lookup_imap.
  by destruct (procs k !! i).
Qed.

Lemma kill_upto_S n :
  (n < NPROC)%nat →
  kill_upto (S n) = alter (kill_entry mode (procs k) root_pid n) n (kill_upto n).
Proof using Hlen.
  intros Hn. apply list_eq. intros i. unfold kill_upto.
  destruct (decide (i = n)) as [->|Hne].
  - rewrite list_lookup_alter_eq, !list_lookup_imap.
    destruct (procs k !! n); simpl; [|done].
    rewrite (proj2 (Nat.ltb_lt n (S n))) by lia.
    by rewrite (proj2 (Nat.ltb_ge n n)) by lia.
  - rewrite list_lookup_alter_ne, !list_lookup_imap by done.
    destruct (procs k !! i); simpl; [|done].
    destruct (Nat.ltb_spec i (S n)), (Nat.ltb_spec i n); try done; lia.
Qed.

Lemma killtree_loop n :
  (n ≤ NPROC)%nat →
  foldl (killtree_body mode root_pid) (Some (k, false)) (seq 0 n) =
    Some (k <| procs := kill_upto n |>, existsb is_target (seq 0 n)).
Proof using Hlen Htree.
  induction n as [|n IH]; intros Hn.
  - simpl. do 2 f_equal. rewrite kill_upto_0. by destruct k.
  - rewrite seq_S, foldl_app, existsb_app, IH by lia. simpl.
    unfold get_proc. simpl. rewrite kill_upto_lookup, Nat.ltb_irrefl. simpl.
    rewrite (is_descendant_ext chain_fuel (kill_upto n) (procs k))
      by (intros i; apply kill_upto_same).
    destruct (is_descendant_total n) as (b & Hb & _).
    rewrite kill_upto_S by lia. unfold upd_proc, is_target, kill_entry.
    rewrite Hb. simpl. rewrite orb_false_r.
    destruct (lookup_lt_is_Some_2 (kill_upto n) n) as [p Hp].
    { unfold kill_upto. rewrite length_imap. lia. }
    assert (p = procs k !!! n) as ->.
    { apply list_lookup_total_correct in Hp. rewrite <-Hp, kill_upto_lookup.
      by rewrite Nat.ltb_irrefl. }
    destruct (decide (state (procs k !!! n) = UNUSED)) as [Hu|Hu].
    + rewrite bool_decide_true by done. simpl. rewrite orb_false_r.
      rewrite list_alter_id' with (x := procs k !!! n); [done|done|].
      by rewrite (bool_decide_eq_true_2 _ Hu).
    + rewrite bool_decide_false by done. simpl.
      assert ((pid (procs k !!! n) =? root_pid) || b = b) as ->.
      { destruct (Z.eqb_spec (pid (procs k !!! n)) root_pid) as [He|]; [|done].
        unfold chain_fuel in Hb. rewrite is_descendant_self in Hb by done.
        by simplify_eq. }
      destruct b; simpl.
      * rewrite orb_true_r.
        rewrite (list_alter_ext' (λ p, if negb (bool_decide (state p = UNUSED)) && true
                   then mark_killed mode p else p) (mark_killed mode) n _ _ Hp);
          [done|by rewrite (bool_decide_eq_false_2 _ Hu)].
      * rewrite orb_false_r. do 2 f_equal.
        rewrite list_alter_id' with (x := procs k !!! n); [done|done|].
        by rewrite (bool_decide_eq_false_2 _ Hu).
Qed.
End killtree.

(** ** Theorems *)

(** waking. Waking the waiters of a channel one at a time, often enough, is
    wakeup(): each call of wakeupOneProc() takes exactly the first remaining
    waiter and leaves every other process as it is. *)
Theorem wakeupOneProc_iter_is_wakeup mode ch k n :
  (waiter_count ch (procs k) ≤ n)%nat →
  Nat.iter n (wakeupOneProc mode ch) k = wakeup mode ch k ∧
  (∀ m, (m ≤ n)%nat →
     waiter_count ch (procs (Nat.iter m (wakeupOneProc mode ch) k)) =
       (waiter_count ch (procs k) - m)%nat) ∧
  ∀ p, p ∈ procs (wakeup mode ch k) → waiting_on ch p = false.
Proof.
  intros Hn. split; [|split].
  - rewrite wakeupOneProc_iter_procs, wake_first_iter by done. done.
  - intros m _. rewrite wakeupOneProc_iter_procs. simpl.
    induction m as [|m IH]; simpl; [lia|].
    rewrite (proj2 (wake_first_spec mode ch _)), IH. lia.
  - intros p (q & -> & _)%list_elem_of_fmap. apply wake_proc_not_waiting.
Qed.

(** C29: killtree(). When the parent pointers form a tree, killtree() returns,
    marks exactly the used entries with the given pid on their parent chain
    (themselves included), wakes those that sleep, leaves the rest of the table
    as it is, and reports -1 exactly when there was none. *)
Theorem killtree_kills_descendants mode k root_pid :
  length (procs k) = NPROC → tree_shaped (procs k) →
  ∃ r k', killtree mode root_pid k = Some (r, k') ∧
    (∀ i p, procs k !! i = Some p →
       procs k' !! i = Some p ∧
         ¬ (state p ≠ UNUSED ∧ descends (procs k) root_pid i) ∨
       procs k' !! i = Some (mark_killed mode p) ∧
         state p ≠ UNUSED ∧ descends (procs k) root_pid i) ∧
    (r = 0 ↔ ∃ i p, procs k !! i = Some p ∧ state p ≠ UNUSED ∧
                    descends (procs k) root_pid i) ∧
    (r = 0 ∨ r = -1).
Proof.
  intros Hlen Htree. unfold killtree.
  rewrite killtree_loop by done. cbn [mbind option_bind].
  do 2 eexists. split; [done|]. split; [|split].
  - intros i p Hp. simpl. unfold kill_upto. rewrite list_lookup_imap, Hp. simpl.
    assert (i < NPROC)%nat as Hi by (apply lookup_lt_Some in Hp; lia).
    rewrite (proj2 (Nat.ltb_lt _ _) Hi). unfold kill_entry.
    destruct (is_descendant_total k root_pid Hlen Htree i) as (b & -> & Hiff). simpl.
    destruct (decide (state p = UNUSED)) as [Hu|Hu].
    + rewrite bool_decide_eq_true_2 by done. left. split; [done|]. naive_solver.
    + rewrite bool_decide_eq_false_2 by done. destruct b; simpl.
      * right. naive_solver.
      * left. naive_solver.
  - rewrite <-(is_target_exists k root_pid Hlen Htree).
    destruct (existsb (is_target k root_pid) _); split; intros H;
      first [reflexivity|discriminate H].
  - destruct (existsb _ _); auto.
Qed.

(** *** Concrete instances: init (pid 1) with a child 5 and a grandchild 9 that
    sleeps on its own address, and an unrelated process 7. *)

Definition demo_procs : list proc :=
  [proc_zero <| state := SLEEPING |> <| pid := 1 |> <| p_chan := Some (ChProc 0) |>;
   proc_zero <| state := RUNNABLE |> <| pid := 5 |> <| parent := Some 0%nat |>;
   proc_zero <| state := SLEEPING |> <| pid := 9 |> <| parent := Some 1%nat |>
     <| p_chan := Some (ChSem 3) |> <| mlfq_level := 2 |>;
   proc_zero <| state := SUSPENDED_SLEEP |> <| pid := 7 |> <| parent := Some 0%nat |>
     <| p_chan := Some (ChSem 3) |>] ++ replicate 60 proc_zero.

Definition demo_kernel : kernel := kernel_zero <| procs := demo_procs |>.

Lemma demo_procs_parent i j :
  parent (demo_procs !!! i) = Some j → (i < 4)%nat.
Proof.
  intros H. destruct (decide (i < 4)%nat) as [|Hge]; [done|]. exfalso.
  rewrite list_lookup_total_alt in H. unfold demo_procs in H.
  rewrite lookup_app_r in H by (simpl; lia). simpl length in H.
  destruct (replicate 60 proc_zero !! (i - 4)%nat) as [p|] eqn:E; [|done].
  by apply lookup_replicate_1 in E as [-> _].
Qed.

Lemma demo_tree : tree_shaped demo_procs.
Proof.
  exists (λ i, match i with 1 | 3 => 1 | 2 => 2 | _ => 0 end)%nat. split.
  - intros [|[|[|[|i]]]]; unfold NPROC; lia.
  - intros i j H. pose proof (demo_procs_parent i j H).
    destruct i as [|[|[|[|i]]]]; vm_compute in H; simplify_eq; lia.
Qed.

Lemma wakeupOneProc_iter_is_wakeup_witness :
  Nat.iter 2 (wakeupOneProc SCHED_MLFQ (ChSem 3)) demo_kernel =
    wakeup SCHED_MLFQ (ChSem 3) demo_kernel.
Proof.
  apply (wakeupOneProc_iter_is_wakeup SCHED_MLFQ (ChSem 3) demo_kernel 2).
  vm_compute. lia.
Defined.

Lemma killtree_kills_descendants_witness :
  ∃ r k', killtree SCHED_MLFQ 5 demo_kernel = Some (r, k') ∧ (r = 0 ∨ r = -1) ∧
    state (procs k' !!! 2%nat) = RUNNABLE ∧ killed (procs k' !!! 3%nat) = false.
Proof.
  destruct (killtree_kills_descendants SCHED_MLFQ demo_kernel 5) as (r & k' & Hk & _ & _ & Hr).
  - vm_compute. reflexivity.
  - apply demo_tree.
  - exists r, k'. split; [exact Hk|]. split; [exact Hr|].
    vm_compute in Hk. injection Hk as <- <-. split; reflexivity.
Defined.
