(* ===== verification/RtSched.v ===== *)
(** * Real-time scheduling, least laxity first (src/kernel/proc/proc.c)

    The [rt_*] functions. Ticks and the real-time fields of a process are
    32-bit integers; the sums the code computes at that width wrap. The catch-up
    loop of rt_refresh_locked() need not end once they do (at tick 2^32 - 1 it
    never does), so that the functions that run it return an option: [None] when
    the loop makes more turns than whole periods have elapsed. *)

From S2P Require Import Prelude KState.

(** ** Per-process state *)

Definition rt_reset_locked (p : proc) : proc :=
  p <| rt_policy := SCHED_NORMAL |> <| rt_period := 0 |> <| rt_runtime := 0 |>
    <| rt_deadline := 0 |> <| rt_release := 0 |> <| rt_deadline_tick := 0 |>
    <| rt_remaining := 0 |> <| rt_misses := 0 |>.

Definition rt_setup_locked (p : proc) (period runtime deadline now : Z) : proc :=
  p <| rt_policy := SCHED_RT_LLF |> <| rt_period := period |>
    <| rt_runtime := runtime |> <| rt_deadline := deadline |>
    <| rt_release := i32 now |> <| rt_deadline_tick := i32 (now + deadline) |>
    <| rt_remaining := runtime |> <| rt_misses := 0 |>.

Definition is_rt (p : proc) : bool := bool_decide (rt_policy p = SCHED_RT_LLF).

(** now >= (uint)(p->rt_release + p->rt_period) *)
Definition refresh_cond (now : Z) (p : proc) : bool :=
  u32 (rt_release p + rt_period p) <=? now.

Definition refresh_body (p : proc) : proc :=
  let p := if 0 <? rt_remaining p then p <| rt_misses := i32 (rt_misses p + 1) |> else p in
  let p := p <| rt_release := i32 (rt_release p + rt_period p) |> in
  let p := p <| rt_deadline_tick := i32 (rt_release p + rt_deadline p) |> in
  p <| rt_remaining := rt_runtime p |>.

(** The number of whole periods between the release and [now]. *)
Definition periods (p : proc) (now : Z) : Z :=
  Z.max 0 ((now - rt_release p) / rt_period p).

Definition refresh_loop (p : proc) (now : Z) : option proc :=
  while_fuel (Z.to_nat (periods p now)) (refresh_cond now) refresh_body p.

Definition rt_refresh_locked (p : proc) (now : Z) : option proc :=
  if negb (is_rt p) then Some p
  else if (rt_period p <=? 0) || (rt_deadline p <=? 0) || (rt_runtime p <=? 0) then Some p
  else
    p ← refresh_loop p now;
    Some (if rt_remaining p <? 0 then p <| rt_remaining := 0 |> else p).

Definition rt_eligible_locked (p : proc) (now : Z) : bool :=
  if negb (is_rt p) then false
  else if rt_remaining p <=? 0 then false
  else if now <? u32 (rt_release p) then false
  else true.

Definition rt_laxity_locked (p : proc) (now : Z) : Z :=
  i32 (i32 (rt_deadline_tick p - i32 now) - rt_remaining p).

(** ** Choosing the process to run *)

Record pick := mk_pick { pk_procs : list proc; best : option nat; best_laxity : Z }.

Definition rt_candidate (p : proc) : bool :=
  bool_decide (state p = RUNNABLE) && is_rt p.

Definition rt_pick_body (now : Z) (s : pick) (i : nat) : option pick :=
  let p := pk_procs s !!! i in
  if rt_candidate p then
    p ← rt_refresh_locked p now;
    let s := mk_pick (<[i := p]> (pk_procs s)) (best s) (best_laxity s) in
    Some (
      if rt_eligible_locked p now then
        let laxity := rt_laxity_locked p now in
        if bool_decide (best s = None) || (laxity <? best_laxity s)
        then mk_pick (pk_procs s) (Some i) laxity
        else s
      else s)
  else Some s.

Definition rt_pick (now : Z) (k : kernel) : option (kernel * option nat) :=
  s ← foldl (λ os i, os ≫= λ s, rt_pick_body now s i)
        (Some (mk_pick (procs k) None 0)) (seq 0 NPROC);
  Some (k <| procs := pk_procs s |>, best s).

(** ** System calls and timer hooks *)

Definition rt_set (pid0 period runtime deadline : Z) (k : kernel) : Z * kernel :=
  if (period <=? 0) || (runtime <=? 0) || (deadline <=? 0) then (-1, k)
  else if (deadline <? runtime) || (period <? deadline) then (-1, k)
  else
    match find_index (λ p, pid p =? pid0) (procs k) with
    | Some i => (0, upd_proc i (λ p, rt_setup_locked p period runtime deadline (ticks k)) k)
    | None => (-1, k)
    end.

Definition rt_clear (pid0 : Z) (k : kernel) : Z * kernel :=
  match find_index (λ p, pid p =? pid0) (procs k) with
  | Some i => (0, upd_proc i rt_reset_locked k)
  | None => (-1, k)
  end.

(** [cur] is myproc(). *)
Definition rt_tick (cur : option nat) (k : kernel) : option (Z * kernel) :=
  match cur with
  | None => Some (0, k)
  | Some i =>
      let p := get_proc k i in
      if negb (is_rt p) then Some (0, k)
      else if negb (bool_decide (state p = RUNNING)) then Some (0, k)
      else if is_rt p then Some (0, k)
      else
        p ← rt_refresh_locked p (ticks k);
        let p := if 0 <? rt_remaining p then p <| rt_remaining := rt_remaining p - 1 |> else p in
        Some (if rt_remaining p <=? 0
              then (1, upd_proc i (λ _, p <| rt_remaining := 0 |>) k)
              else (0, upd_proc i (λ _, p) k))
  end.

(** The scan of rt_should_preempt over the table, with its early returns. *)
Fixpoint preempt_scan (now : Z) (cur_rt : bool) (cur_laxity : Z) (idx : list nat)
    (k : kernel) : option (Z * kernel) :=
  match idx with
  | [] => Some (0, k)
  | i :: idx =>
      let p := get_proc k i in
      if rt_candidate p then
        p ← rt_refresh_locked p now;
        let k := upd_proc i (λ _, p) k in
        if rt_eligible_locked p now then
          let laxity := rt_laxity_locked p now in
          if negb cur_rt then Some (1, k)
          else if laxity <? cur_laxity then Some (1, k)
          else preempt_scan now cur_rt cur_laxity idx k
        else preempt_scan now cur_rt cur_laxity idx k
      else preempt_scan now cur_rt cur_laxity idx k
  end.

(** The first half of rt_should_preempt: the laxity of the running process, if
    it is a real-time process with budget left. *)
Definition preempt_current (cur : option nat) (k : kernel) : option (kernel * bool * Z) :=
  let now := ticks k in
  match cur with
  | None => Some (k, false, 0x7fffffff)
  | Some i =>
      let p := get_proc k i in
      if is_rt p && bool_decide (state p = RUNNING) then
        p ← rt_refresh_locked p now;
        let k := upd_proc i (λ _, p) k in
        Some (if rt_eligible_locked p now then (k, true, rt_laxity_locked p now)
              else (k, false, 0x7fffffff))
      else Some (k, false, 0x7fffffff)
  end.

Definition rt_should_preempt (cur : option nat) (k : kernel) : option (Z * kernel) :=
  '(k, cur_rt, cur_laxity) ← preempt_current cur k;
  preempt_scan (ticks k) cur_rt cur_laxity (seq 0 NPROC) k.

(** ** rt_refresh_locked *)

(** A process set up by rt_set() at a tick that leaves room below 2^31. *)
Definition rt_valid (p : proc) (now : Z) : Prop :=
  rt_policy p = SCHED_RT_LLF ∧ 0 < rt_runtime p ∧ rt_runtime p ≤ rt_deadline p ∧
  rt_deadline p ≤ rt_period p ∧ 0 ≤ rt_release p ∧ 0 ≤ now ∧
  rt_release p + rt_period p < 2 ^ 31 ∧ now + rt_period p < 2 ^ 31.

Lemma refresh_body_fields p :
  rt_policy (refresh_body p) = rt_policy p ∧ rt_period (refresh_body p) = rt_period p ∧
  rt_runtime (refresh_body p) = rt_runtime p ∧ rt_deadline (refresh_body p) = rt_deadline p ∧
  state (refresh_body p) = state p ∧ pid (refresh_body p) = pid p ∧
  rt_remaining (refresh_body p) = rt_runtime p ∧
  rt_release (refresh_body p) = i32 (rt_release p + rt_period p) ∧
  rt_deadline_tick (refresh_body p) = i32 (i32 (rt_release p + rt_period p) + rt_deadline p) ∧
  rt_misses (refresh_body p) =
    if 0 <? rt_remaining p then i32 (rt_misses p + 1) else rt_misses p.
Proof. unfold refresh_body. by case_match. Qed.

#[local] Arguments refresh_body : simpl never.

Lemma refresh_cond_iff p now :
  rt_valid p now → refresh_cond now p = true ↔ rt_release p + rt_period p ≤ now.
Proof.
  intros (?&?&?&?&?&?&?&?). unfold refresh_cond. rewrite u32_small by lia.
  by rewrite Z.leb_le.
Qed.

Lemma refresh_body_valid p now :
  rt_valid p now → rt_release p + rt_period p ≤ now →
  rt_valid (refresh_body p) now ∧
  rt_release (refresh_body p) = rt_release p + rt_period p ∧
  rt_deadline_tick (refresh_body p) = rt_release p + rt_period p + rt_deadline p.
Proof.
  intros (?&?&?&?&?&?&?&?) Hle.
  destruct (refresh_body_fields p) as (E1&E2&E3&E4&_&_&_&E5&E6&_).
  unfold rt_valid. rewrite E1, E2, E3, E4, E5, E6.
  rewrite (i32_small (rt_release p + rt_period p)) by (unfold is_i32; lia).
  rewrite i32_small by (unfold is_i32; lia). split_and!; first [done|lia].
Qed.

Lemma periods_step p now :
  rt_valid p now → rt_release p + rt_period p ≤ now →
  periods p now = periods (refresh_body p) now + 1.
Proof.
  intros Hv Hle. destruct (refresh_body_valid p now Hv Hle) as (_ & Hr & _).
  destruct (refresh_body_fields p) as (_&Hp&_). destruct Hv as (?&?&?&?&?&?&?&?).
  unfold periods. rewrite Hr, Hp.
  replace (now - rt_release p)
    with ((now - (rt_release p + rt_period p)) + 1 * rt_period p) by lia.
  rewrite Z.div_add by lia.
  assert (0 ≤ (now - (rt_release p + rt_period p)) / rt_period p)
    by (apply Z.div_pos; lia). lia.
Qed.

Lemma periods_zero p now :
  rt_valid p now → ¬ (rt_release p + rt_period p ≤ now) → periods p now = 0.
Proof.
  intros (?&?&?&?&?&?&?&?) Hlt. unfold periods.
  assert ((now - rt_release p) / rt_period p < 1)
    by (apply Z.div_lt_upper_bound; lia). lia.
Qed.

(** The misses a catch-up of [n] periods adds: one per period that began, after
    the first only if the budget of the first was not used up. *)
Definition missed (p : proc) (n : nat) : Z :=
  match n with
  | O => 0
  | S m => (if 0 <? rt_remaining p then 1 else 0) + Z.of_nat m
  end.

Lemma refresh_loop_spec now n p :
  rt_valid p now → Z.of_nat n = periods p now →
  is_i32 (rt_misses p) → rt_misses p + Z.of_nat n < 2 ^ 31 →
  while_fuel n (refresh_cond now) refresh_body p = Some (Nat.iter n refresh_body p) ∧
  let p' := Nat.iter n refresh_body p in
  rt_valid p' now ∧ now < rt_release p' + rt_period p' ∧
  rt_release p' = rt_release p + Z.of_nat n * rt_period p ∧
  rt_period p' = rt_period p ∧ rt_runtime p' = rt_runtime p ∧
  rt_deadline p' = rt_deadline p ∧ state p' = state p ∧ pid p' = pid p ∧
  rt_misses p' = rt_misses p + missed p n ∧
  (n ≠ O → rt_remaining p' = rt_runtime p ∧
           rt_deadline_tick p' = rt_release p' + rt_deadline p).
Proof.
  revert p. induction n as [|n IH]; intros p Hv Hn Hi Hm.
  - assert (¬ rt_release p + rt_period p ≤ now) as Hlt.
    { intros Hle. pose proof (periods_step p now Hv Hle).
      unfold periods in *. lia. }
    simpl. destruct (refresh_cond now p) eqn:E.
    { by apply refresh_cond_iff in E. }
    split; [done|]. repeat split; try done; try lia; apply Hv.
  - destruct (decide (rt_release p + rt_period p ≤ now)) as [Hle|Hlt].
    2: { rewrite periods_zero in Hn by done. lia. }
    destruct (refresh_body_valid p now Hv Hle) as (Hv' & Hr & Hd).
    pose proof (periods_step p now Hv Hle) as Hper.
    destruct (refresh_body_fields p) as (E1&E2&E3&E4&E5&E6&E7&_&_&E8).
    assert (rt_misses (refresh_body p) =
            rt_misses p + if 0 <? rt_remaining p then 1 else 0) as Hmis.
    { rewrite E8. unfold is_i32 in Hi. case_match; [|lia].
      apply i32_small. unfold is_i32. lia. }
    destruct (IH (refresh_body p) Hv') as (Hw & Hspec).
    { lia. }
    { rewrite Hmis. unfold is_i32 in *. case_match; lia. }
    { rewrite Hmis. case_match; lia. }
    rewrite Nat.iter_succ_r. cbv zeta in Hspec.
    destruct Hspec as (S1&S2&S3&S4&S5&S6&S7&S8&S9&S10).
    split.
    { simpl. rewrite (proj2 (refresh_cond_iff p now Hv) Hle). exact Hw. }
    cbv zeta. split_and!; try congruence; try done.
    + rewrite S3, Hr, E2. lia.
    + rewrite S9, Hmis. destruct n as [|n]; unfold missed; [lia|].
      rewrite E7. destruct Hv as (_&Hrt&_).
      rewrite (proj2 (Z.ltb_lt 0 (rt_runtime p)) Hrt). lia.
    + intros _. destruct n as [|n].
      * cbn [Nat.iter nat_rect]. rewrite Hd, Hr. done.
      * destruct S10 as [-> ->]; [done|]. split; congruence.
Qed.

(** ** The current period of a task

    Read off the clock, without the loop: its release, its budget and its
    laxity. *)

Definition cur_release (p : proc) (now : Z) : Z := rt_release p + periods p now * rt_period p.

Definition cur_budget (p : proc) (now : Z) : Z :=
  if periods p now =? 0 then rt_remaining p else rt_runtime p.

(** A task whose fields are consistent: what rt_set() and the refresh leave, at a
    tick that leaves room below 2^31. *)
Definition rt_tame (now : Z) (p : proc) : Prop :=
  rt_valid p now ∧ rt_deadline_tick p = rt_release p + rt_deadline p ∧
  0 ≤ rt_remaining p ≤ rt_runtime p ∧ 0 ≤ rt_misses p ∧ rt_misses p + periods p now < 2 ^ 31.

(** The task in its current period. *)
Definition caught_up (now : Z) (p : proc) : proc :=
  p <| rt_release := cur_release p now |>
    <| rt_deadline_tick := cur_release p now + rt_deadline p |>
    <| rt_remaining := cur_budget p now |>
    <| rt_misses := rt_misses p + missed p (Z.to_nat (periods p now)) |>.

(** The current period has begun and has budget left. *)
Definition rt_active (now : Z) (p : proc) : Prop :=
  rt_policy p = SCHED_RT_LLF ∧ cur_release p now ≤ now ∧ 0 < cur_budget p now.

(** The time to the deadline that is left once the budget has run. *)
Definition laxity_at (now : Z) (p : proc) : Z :=
  cur_release p now + rt_deadline p - now - cur_budget p now.

Lemma iter_refresh_fields n p :
  let q := Nat.iter n refresh_body p in
  q = p <| rt_release := rt_release q |> <| rt_deadline_tick := rt_deadline_tick q |>
        <| rt_remaining := rt_remaining q |> <| rt_misses := rt_misses q |>.
Proof.
  cbv zeta. induction n as [|n IH]; [by destruct p|]. rewrite Nat.iter_succ.
  destruct (Nat.iter n refresh_body p) as [] eqn:E. rewrite IH. clear IH E. destruct p.
  unfold refresh_body. cbn. by case_match.
Qed.

(** For such a task the loop returns and brings it to its current period. *)
Lemma rt_refresh_tame now p :
  rt_tame now p → is_Some (refresh_loop p now) ∧ rt_refresh_locked p now = Some (caught_up now p).
Proof.
  intros (Hv & Hdt & Hrem & Hm0 & Hm). assert (0 ≤ periods p now) as H0 by (unfold periods; lia).
  destruct (refresh_loop_spec now (Z.to_nat (periods p now)) p Hv ltac:(lia)
    ltac:(unfold is_i32; lia) ltac:(lia)) as (Hw & S1 & S2 & S3 & S4 & S5 & S6 & _ & _ & S9 & S10).
  pose proof (iter_refresh_fields (Z.to_nat (periods p now)) p) as Hq. cbv zeta in Hq.
  set (q := Nat.iter _ _ _) in *. rewrite Z2Nat.id in S3 by done.
  assert (rt_remaining q = cur_budget p now ∧ rt_deadline_tick q = rt_release q + rt_deadline p)
    as [Hb Hd].
  { unfold cur_budget. destruct (Z.eqb_spec (periods p now) 0) as [E|E]; [|apply S10; lia].
    subst q. by rewrite E. }
  assert (q = caught_up now p) as Hqc.
  { rewrite Hq, Hb, Hd, S9, S3. done. }
  split; [by exists q|]. unfold rt_refresh_locked, refresh_loop. rewrite Hw.
  destruct Hv as (Hpol & ? & ? & ? & _). unfold is_rt. rewrite bool_decide_eq_true_2 by done.
  cbn [negb]. destruct (Z.leb_spec (rt_period p) 0); [lia|].
  destruct (Z.leb_spec (rt_deadline p) 0); [lia|]. destruct (Z.leb_spec (rt_runtime p) 0); [lia|].
  cbn [orb mbind option_bind]. rewrite Hb.
  assert (0 ≤ cur_budget p now) by (unfold cur_budget; case_match; lia).
  destruct (Z.ltb_spec (cur_budget p now) 0); [lia|]. by rewrite Hqc.
Qed.

Lemma periods_bounds now p :
  rt_valid p now → 0 ≤ rt_release p ≤ cur_release p now ∧
  (rt_release p ≤ now → cur_release p now ≤ now) ∧ now < cur_release p now + rt_period p ∧
  cur_release p now ≤ Z.max (rt_release p) now.
Proof.
  intros (?&?&?&?&?&?&?&?). unfold cur_release, periods.
  pose proof (Z.div_mod (now - rt_release p) (rt_period p) ltac:(lia)) as Hdm.
  pose proof (Z.mod_pos_bound (now - rt_release p) (rt_period p) ltac:(lia)) as Hmod.
  set (q := (now - rt_release p) / rt_period p) in *.
  destruct (decide (0 ≤ q)); [rewrite Z.max_r by done|rewrite Z.max_l by lia]; nia.
Qed.

Lemma rt_eligible_caught now p :
  rt_tame now p → rt_eligible_locked (caught_up now p) now = true ↔ rt_active now p.
Proof.
  intros (Hv & _ & Hrem & _). destruct (periods_bounds now p Hv) as (Hr0 & Hr1 & _ & Hr2).
  destruct Hv as (Hpol & ? & ? & ? & ? & ? & ? & ?).
  unfold rt_eligible_locked, rt_active, is_rt. cbn [caught_up rt_policy rt_remaining rt_release].
  change (rt_policy (caught_up now p)) with (rt_policy p).
  change (rt_remaining (caught_up now p)) with (cur_budget p now).
  change (rt_release (caught_up now p)) with (cur_release p now).
  rewrite (bool_decide_eq_true_2 _ Hpol), u32_small by lia. cbn [negb].
  destruct (Z.leb_spec (cur_budget p now) 0), (Z.ltb_spec now (cur_release p now));
    split; try done; lia.
Qed.

Lemma rt_laxity_caught now p :
  rt_tame now p → rt_laxity_locked (caught_up now p) now = laxity_at now p.
Proof.
  intros (Hv & _ & Hrem & _). destruct (periods_bounds now p Hv) as (Hr0 & Hr1 & Hr3 & Hr2).
  destruct Hv as (Hpol & ? & ? & ? & ? & ? & ? & ?). unfold rt_laxity_locked, laxity_at.
  change (rt_remaining (caught_up now p)) with (cur_budget p now).
  change (rt_deadline_tick (caught_up now p)) with (cur_release p now + rt_deadline p).
  assert (0 ≤ cur_budget p now ≤ rt_runtime p) by (unfold cur_budget; case_match; lia).
  rewrite (i32_small now) by (unfold is_i32; lia).
  rewrite (i32_small (_ - now)) by (unfold is_i32; lia).
  apply i32_small. unfold is_i32. lia.
Qed.

(** The refreshed task is consistent, and so is one that rt_set() sets up. *)
Lemma caught_up_tame now p : rt_tame now p → rt_tame now (caught_up now p).
Proof.
  intros (Hv & _ & Hrem & Hm0 & Hm). destruct (periods_bounds now p Hv) as (Hr0 & Hr1 & Hr3 & Hr2).
  assert (0 ≤ periods p now) as Hp0 by (unfold periods; lia).
  destruct Hv as (Hpol & ? & ? & ? & ? & ? & ? & ?).
  assert (periods (caught_up now p) now = 0) as Hz.
  { unfold periods at 1. change (rt_release (caught_up now p)) with (cur_release p now).
    change (rt_period (caught_up now p)) with (rt_period p).
    assert ((now - cur_release p now) / rt_period p < 1) by (apply Z.div_lt_upper_bound; lia). lia. }
  assert (0 ≤ missed p (Z.to_nat (periods p now)) ≤ periods p now).
  { destruct (Z.to_nat (periods p now)) eqn:E; simpl; [lia|]. case_match; lia. }
  assert (0 ≤ cur_budget p now ≤ rt_runtime p) by (unfold cur_budget; case_match; lia).
  unfold rt_tame, rt_valid. rewrite Hz. unfold caught_up. cbn. split_and!; try done; lia.
Qed.

Lemma rt_setup_tame p period runtime deadline t now :
  0 < runtime → runtime ≤ deadline → deadline ≤ period → 0 ≤ t ≤ now → now + period < 2 ^ 31 →
  rt_tame now (rt_setup_locked p period runtime deadline t).
Proof.
  intros. unfold rt_setup_locked.
  rewrite (i32_small t), (i32_small (t + deadline)) by (unfold is_i32; lia).
  set (q := p <| rt_policy := _ |> <| rt_period := _ |> <| rt_runtime := _ |> <| rt_deadline := _ |>
    <| rt_release := _ |> <| rt_deadline_tick := _ |> <| rt_remaining := _ |> <| rt_misses := _ |>).
  assert (periods q now ≤ now).
  { unfold periods. change (rt_release q) with t. change (rt_period q) with period.
    pose proof (Z.div_le_upper_bound (now - t) period now). nia. }
  unfold rt_tame, rt_valid. cbn. split_and!; try done; lia.
Qed.

(** ** rt_pick *)

Definition refreshed (now : Z) (p : proc) : proc :=
  if rt_candidate p then caught_up now p else p.

(** A RUNNABLE task in an active period. *)
Definition rt_ready (now : Z) (p : proc) : Prop := state p = RUNNABLE ∧ rt_active now p.

(** Every real-time process of the table is consistent. *)
Definition tame_table (now : Z) (k : kernel) : Prop :=
  ∀ i, is_rt (get_proc k i) = true → rt_tame now (get_proc k i).

Section rt_pick.
Context (now : Z) (k : kernel).
Hypothesis Hlen : length (procs k) = NPROC.
Hypothesis Htame : tame_table now k.

Definition pick_inv (n : nat) (s : pick) : Prop :=
  pk_procs s = map_upto (refreshed now) n (procs k) ∧
  first_min (λ i, rt_ready now (get_proc k i)) (λ i, laxity_at now (get_proc k i)) n (best s) ∧
  ∀ b, best s = Some b → best_laxity s = laxity_at now (get_proc k b).

Lemma rt_candidate_iff p : rt_candidate p = true ↔ state p = RUNNABLE ∧ is_rt p = true.
Proof. unfold rt_candidate. by rewrite andb_true_iff, bool_decide_eq_true. Qed.

Lemma not_candidate p : rt_candidate p = false → ¬ rt_ready now p.
Proof.
  intros Hc [Hs (Hp & _)]. apply not_true_iff_false in Hc. apply Hc, rt_candidate_iff.
  split; [done|]. unfold is_rt. by rewrite bool_decide_eq_true.
Qed.

Lemma pick_step n s :
  (n < NPROC)%nat → pick_inv n s → ∃ s', rt_pick_body now s n = Some s' ∧ pick_inv (S n) s'.
Proof using Hlen Htame.
  intros Hn (Hps & Hmin & Hlax).
  destruct (lookup_lt_is_Some_2 (procs k) n) as [p Hp]; [lia|].
  assert (get_proc k n = p) as Hg by by apply list_lookup_total_correct.
  unfold rt_pick_body. rewrite Hps, map_upto_lookup_total by lia.
  change (procs k !!! n) with (get_proc k n). rewrite Hg.
  unfold pick_inv. rewrite (map_upto_S _ _ _ _ Hp).
  replace (refreshed now p) with (if rt_candidate p then caught_up now p else p) by done.
  destruct (rt_candidate p) eqn:Hc.
  2: { eexists. split; [done|]. split_and!; [|apply first_min_skip; [done|]|done].
       - rewrite list_insert_id; [done|]. rewrite map_upto_lookup, Nat.ltb_irrefl, Hp. done.
       - rewrite Hg. by apply not_candidate. }
  apply rt_candidate_iff in Hc as [Hst Hrt].
  assert (rt_tame now p) as Ht by (rewrite <-Hg in *; by apply Htame).
  rewrite (proj2 (rt_refresh_tame now p Ht)). cbn [mbind option_bind].
  eexists. split; [reflexivity|]. rewrite (rt_laxity_caught now p Ht).
  pose proof (rt_eligible_caught now p Ht) as Hel.
  destruct (rt_eligible_locked (caught_up now p) now); simpl.
  2: { split_and!; [done|apply first_min_skip; [done|]|done]. rewrite Hg.
       intros [_ Ha]. by apply Hel in Ha. }
  assert (rt_ready now (get_proc k n)) as Hr by (rewrite Hg; split; [done|by apply Hel]).
  case_match eqn:Hb; simpl.
  - split; [done|split; [|intros b [= <-]; by rewrite Hg]].
    apply (first_min_take Hmin Hr). intros b Eb. rewrite Hg.
    rewrite Eb, (bool_decide_eq_false_2 (Some b = None)) in Hb by done.
    simpl in Hb. bool_facts. rewrite <-(Hlax b Eb). exact Hb.
  - apply orb_false_iff in Hb as [Hb Hge]. bool_facts.
    destruct (best s) as [b|] eqn:Eb; [|done].
    split; [done|split; [|done]].
    apply (first_min_keep b eq_refl Hmin). rewrite <-(Hlax b eq_refl), Hg. exact Hge.
Qed.

Lemma rt_pick_inv :
  ∃ b, rt_pick now k = Some (k <| procs := refreshed now <$> procs k |>, b) ∧
    first_min (λ i, rt_ready now (get_proc k i)) (λ i, laxity_at now (get_proc k i)) NPROC b.
Proof using Hlen Htame.
  assert (∃ s, foldl (λ os i, os ≫= λ s, rt_pick_body now s i)
    (Some (mk_pick (procs k) None 0)) (seq 0 NPROC) = Some s ∧ pick_inv NPROC s)
    as (s & Hs & Hps & Hmin & _).
  { apply (foldl_seq_ind (λ n os, ∃ s, os = Some s ∧ pick_inv n s)).
    - eexists. split; [done|]. unfold pick_inv. rewrite map_upto_0. split_and!; try done. simpl. lia.
    - intros n os Hn (s & -> & Hinv). by apply pick_step. }
  exists (best s). unfold rt_pick. rewrite Hs. split; [|exact Hmin]. cbn [mbind option_bind].
  rewrite Hps, map_upto_all by lia. done.
Qed.
End rt_pick.

(** ** rt_should_preempt *)

(** The part of the table that the scan has not reached. *)
Lemma preempt_scan_spec now cur_rt cur_lax idx k :
  NoDup idx → Forall (λ i, i < length (procs k))%nat idx →
  (∀ i, i ∈ idx → is_rt (get_proc k i) = true → rt_tame now (get_proc k i)) →
  ∃ r k', preempt_scan now cur_rt cur_lax idx k = Some (r, k') ∧
    (r = 1 ↔ ∃ i, i ∈ idx ∧ rt_ready now (get_proc k i) ∧
       (cur_rt = true → laxity_at now (get_proc k i) < cur_lax)).
Proof.
  revert k. induction idx as [|i idx IH]; intros k Hnd Hlt Htame.
  { do 2 eexists. split; [done|]. split; [done|]. set_solver. }
  apply NoDup_cons in Hnd as [Hi Hnd]. apply Forall_cons in Hlt as [Hil Hlt]. cbn [preempt_scan].
  set (p := get_proc k i).
  assert (∀ g j, j ∈ idx → get_proc (upd_proc i g k) j = get_proc k j) as Hsame.
  { intros g j Hj. apply get_proc_upd_ne. intros ->. done. }
  assert (∀ k1, (∀ j, j ∈ idx → get_proc k1 j = get_proc k j) →
    length (procs k1) = length (procs k) →
    ¬ (rt_ready now p ∧ (cur_rt = true → laxity_at now p < cur_lax)) →
    ∃ r k', preempt_scan now cur_rt cur_lax idx k1 = Some (r, k') ∧
      (r = 1 ↔ ∃ j, j ∈ i :: idx ∧ rt_ready now (get_proc k j) ∧
         (cur_rt = true → laxity_at now (get_proc k j) < cur_lax))) as Hskip.
  { intros k1 Hk1 Hl1 Hno. destruct (IH k1) as (r & k' & E & Hiff); [done|by rewrite Hl1| |].
    - intros j Hj. rewrite Hk1 by done. apply Htame. set_solver.
    - exists r, k'. split; [done|]. rewrite Hiff.
      split; intros (j & Hj & Hr); exists j.
      + rewrite Hk1 in Hr by done. split; [set_solver|done].
      + apply elem_of_cons in Hj as [->|Hj]; [done|]. by rewrite Hk1. }
  destruct (rt_candidate p) eqn:Hc.
  2: { apply Hskip; [done..|]. intros [Hr _]. by apply not_candidate in Hr. }
  apply rt_candidate_iff in Hc as [Hst Hrt].
  assert (rt_tame now p) as Ht by (apply Htame; [set_solver|done]).
  rewrite (proj2 (rt_refresh_tame now p Ht)). cbn [mbind option_bind].
  rewrite (rt_laxity_caught now p Ht). pose proof (rt_eligible_caught now p Ht) as Hel.
  destruct (rt_eligible_locked (caught_up now p) now).
  2: { apply Hskip; [auto|by rewrite upd_proc_length|]. intros [[_ Ha] _]. by apply Hel in Ha. }
  assert (rt_ready now p) as Hr by (split; [done|by apply Hel]).
  assert (∀ k' : kernel, (cur_rt = true → laxity_at now p < cur_lax) →
    ∃ r k'', Some (1, k') = Some (r, k'') ∧ (r = 1 ↔ ∃ j, j ∈ i :: idx ∧
      rt_ready now (get_proc k j) ∧ (cur_rt = true → laxity_at now (get_proc k j) < cur_lax)))
    as Hfound.
  { intros k' Hl. do 2 eexists. split; [done|]. split; [|done]. intros _. exists i.
    split; [set_solver|done]. }
  destruct cur_rt; cbn [negb]; [|by apply Hfound].
  destruct (Z.ltb_spec (laxity_at now p) cur_lax) as [Hl|Hl]; [by apply Hfound|].
  apply Hskip; [auto|by rewrite upd_proc_length|]. intros [_ Hl']. specialize (Hl' eq_refl). lia.
Qed.

(** The running process holds the hart as a real-time process. *)
Definition holds_rt (now : Z) (p : proc) : Prop := state p = RUNNING ∧ rt_active now p.

Lemma running_not_ready now p : state p = RUNNING → ¬ rt_ready now p.
Proof. unfold rt_ready. intros -> [? _]. done. Qed.

(** What preempt_current leaves for the scan. *)
Lemma preempt_current_spec cur k :
  tame_table (ticks k) k →
  ∃ k' cur_rt cur_lax, preempt_current cur k = Some (k', cur_rt, cur_lax) ∧
  ticks k' = ticks k ∧ length (procs k') = length (procs k) ∧
  (∀ j, get_proc k' j = get_proc k j ∨
     state (get_proc k j) = RUNNING ∧ rt_tame (ticks k) (get_proc k j) ∧
     get_proc k' j = caught_up (ticks k) (get_proc k j)) ∧
  (cur_rt = true ↔ ∃ c, cur = Some c ∧ holds_rt (ticks k) (get_proc k c)) ∧
  (∀ c, cur = Some c → cur_rt = true → cur_lax = laxity_at (ticks k) (get_proc k c)).
Proof.
  intros Htame. unfold preempt_current. set (now := ticks k).
  destruct cur as [c|].
  2: { do 3 eexists. split; [done|]. split_and!; try done; [by left|]. split; [done|].
       by intros (? & ? & _). }
  destruct (is_rt (get_proc k c) && bool_decide (state (get_proc k c) = RUNNING)) eqn:Hc.
  2: { do 3 eexists. split; [done|]. split_and!; try done; [by left|]. split; [done|].
       intros (c' & [= <-] & Hst & Hp & _). unfold is_rt in Hc.
       by rewrite !bool_decide_eq_true_2 in Hc. }
  apply andb_true_iff in Hc as [Hrt Hst%bool_decide_eq_true].
  pose proof (Htame c Hrt) as Ht. fold now in Ht.
  rewrite (proj2 (rt_refresh_tame now _ Ht)). cbn [mbind option_bind].
  rewrite (rt_laxity_caught now _ Ht). pose proof (rt_eligible_caught now _ Ht) as Hel.
  assert (∀ j, get_proc (upd_proc c (λ _, caught_up now (get_proc k c)) k) j = get_proc k j ∨
    state (get_proc k j) = RUNNING ∧ rt_tame now (get_proc k j) ∧
    get_proc (upd_proc c (λ _, caught_up now (get_proc k c)) k) j = caught_up now (get_proc k j))
    as Hj.
  { intros j. destruct (decide (c = j)) as [<-|Hne]; [|left; by apply get_proc_upd_ne].
    right. split_and!; try done. rewrite get_proc_upd_eq; [done|].
    destruct (decide (c < length (procs k))%nat) as [|Hge]; [done|]. unfold get_proc in Hst.
    rewrite list_lookup_total_alt, lookup_ge_None_2 in Hst by lia. done. }
  destruct (rt_eligible_locked (caught_up now (get_proc k c)) now);
    do 3 (eexists); (split; [reflexivity|]); (split_and!; [done|by rewrite upd_proc_length|done| |]).
  - split; [|done]. intros _. exists c. split; [done|]. split; [done|by apply Hel].
  - by intros ? [= <-].
  - split; [done|]. intros (c' & [= <-] & _ & Ha). by apply Hel in Ha.
  - done.
Qed.

(** ** Theorems *)

(** C30: rt_pick(). For a table of tasks with 0 < runtime <= deadline <= period, set
    up by rt_set() and refreshed since, at ticks that leave room below 2^31, the
    scan returns: no catch-up loop exceeds the periods that have elapsed. It moves
    exactly the RUNNABLE real-time processes to their current period (the release
    that the clock gives, a full budget when a period has begun), changes nothing
    else, and keeps the tasks consistent. It picks the process of least laxity
    (deadline minus now minus budget) among those that are RUNNABLE with budget
    left in a period that has begun, the first in the table among equals; it
    picks none exactly when there is none. *)
Theorem rt_pick_least_laxity now k :
  length (procs k) = NPROC → tame_table now k →
  ∃ k' b, rt_pick now k = Some (k', b) ∧
    k' = k <| procs := refreshed now <$> procs k |> ∧ tame_table now k' ∧
    first_min (λ i, rt_ready now (get_proc k i)) (λ i, laxity_at now (get_proc k i)) NPROC b.
Proof.
  intros Hlen Htame. destruct (rt_pick_inv now k Hlen Htame) as (b & E & Hmin).
  do 2 eexists. split; [exact E|]. split; [done|]. split; [|done].
  intros i. unfold get_proc; simpl. rewrite list_lookup_total_alt, list_lookup_fmap.
  specialize (Htame i). unfold get_proc in Htame. rewrite list_lookup_total_alt in Htame.
  destruct (procs k !! i) as [p|]; [|done]. simpl in *. unfold refreshed.
  destruct (rt_candidate p) eqn:Hc; [|done]. intros Hrt. by apply caught_up_tame, Htame.
Qed.

(** rt_refresh_locked(). For a consistent task the catch-up loop returns, and it
    advances the release by the number of whole periods that have elapsed: the
    new period contains [now], an elapsed period refills the budget and moves the
    deadline, and each period that began with budget left counts as a miss. *)
Theorem rt_refresh_catches_up p now :
  rt_tame now p →
  ∃ p', rt_refresh_locked p now = Some p' ∧
  rt_release p' = rt_release p + periods p now * rt_period p ∧
  now < rt_release p' + rt_period p ∧ (rt_release p ≤ now → rt_release p' ≤ now) ∧
  rt_misses p' = rt_misses p + missed p (Z.to_nat (periods p now)) ∧
  rt_remaining p' = (if periods p now =? 0 then rt_remaining p else rt_runtime p) ∧
  rt_deadline_tick p' = rt_release p' + rt_deadline p.
Proof.
  intros Ht. exists (caught_up now p). split; [by apply rt_refresh_tame|].
  destruct Ht as (Hv & _). destruct (periods_bounds now p Hv) as (_ & H1 & H2 & _).
  split_and!; done.
Qed.

(** rt_should_preempt(). On a table of consistent tasks it returns, and it asks
    for a reschedule exactly when some ready real-time process has less laxity
    than the running real-time process, or when one is ready and the running
    process is not a real-time process with budget left. *)
Theorem rt_should_preempt_iff cur k :
  length (procs k) = NPROC → tame_table (ticks k) k →
  ∃ r k', rt_should_preempt cur k = Some (r, k') ∧
  (r = 1 ↔ ∃ i, (i < NPROC)%nat ∧ rt_ready (ticks k) (get_proc k i) ∧
    ∀ c, cur = Some c → holds_rt (ticks k) (get_proc k c) →
      laxity_at (ticks k) (get_proc k i) < laxity_at (ticks k) (get_proc k c)).
Proof.
  intros Hlen Htame. unfold rt_should_preempt.
  destruct (preempt_current_spec cur k Htame) as (k1 & rt & lax & -> & Ht & Hl & Hsame & Hrt & Hlax).
  cbn [mbind option_bind]. rewrite Ht.
  destruct (preempt_scan_spec (ticks k) rt lax (seq 0 NPROC) k1) as (r & k' & -> & Hiff).
  { apply NoDup_seq. }
  { apply Forall_forall. intros i. rewrite elem_of_seq. lia. }
  { intros i _. destruct (Hsame i) as [-> |(_ & Hti & ->)]; [apply Htame|].
    intros _. by apply caught_up_tame. }
  do 2 eexists. split; [done|]. rewrite Hiff.
  assert (∀ i, rt_ready (ticks k) (get_proc k1 i) ↔ rt_ready (ticks k) (get_proc k i)) as Hready.
  { intros i. destruct (Hsame i) as [-> |(Hs & _ & ->)]; [done|].
    split; intros Hr; exfalso; by eapply running_not_ready; [|exact Hr]. }
  assert (∀ i, rt_ready (ticks k) (get_proc k i) → get_proc k1 i = get_proc k i) as Heq.
  { intros i Hr. destruct (Hsame i) as [-> |(Hs & _)]; [done|]. by apply running_not_ready in Hr. }
  split.
  - intros (i & Hi & Hr & Hli). apply Hready in Hr. rewrite (Heq i Hr) in Hli. exists i.
    rewrite elem_of_seq in Hi. split; [lia|]. split; [done|]. intros c -> Hh.
    assert (rt = true) as -> by (apply Hrt; by exists c). rewrite <-(Hlax c) by done. by apply Hli.
  - intros (i & Hi & Hr & Hli). exists i. rewrite elem_of_seq. split; [lia|].
    split; [by apply Hready|]. rewrite (Heq i Hr). intros ->.
    destruct (proj1 Hrt eq_refl) as (c & -> & Hh). rewrite (Hlax c) by done. by apply Hli.
Qed.

(** rt_tick() never charges the running real-time process: the test on
    SCHED_RT_LLF returns before the budget is decremented. *)
Theorem rt_tick_charges_nothing cur k : rt_tick cur k = Some (0, k).
Proof.
  unfold rt_tick. destruct cur as [i|]; [|done].
  destruct (is_rt (get_proc k i)) eqn:E; simpl; [|done]. by case_match.
Qed.

(** *** Concrete instances: at tick 25 a task released at tick 3 with period 10
    and budget left is two periods late; of two ready tasks the second has less
    laxity; a normal process runs. *)

Definition demo_rt (release : Z) (deadline : Z) : proc :=
  rt_setup_locked (proc_zero <| state := RUNNABLE |>) 10 2 deadline release.

Definition demo_rt_kernel : kernel :=
  kernel_zero <| ticks := 25 |>
    <| procs := [proc_zero <| state := RUNNING |>; demo_rt 3 9; demo_rt 20 6]
                ++ replicate 61 proc_zero |>.

Lemma demo_rt_ok r d : 0 ≤ r ≤ 25 → 2 ≤ d ≤ 10 → rt_tame 25 (demo_rt r d).
Proof. intros. unfold demo_rt. apply rt_setup_tame; lia. Qed.

Lemma demo_rt_tame : tame_table 25 demo_rt_kernel.
Proof.
  intros i. destruct i as [|[|[|i]]].
  - intros H. discriminate H.
  - intros _. exact (demo_rt_ok 3 9 ltac:(lia) ltac:(lia)).
  - intros _. exact (demo_rt_ok 20 6 ltac:(lia) ltac:(lia)).
  - unfold get_proc. rewrite list_lookup_total_alt.
    change (procs demo_rt_kernel !! S (S (S i))) with (replicate 61 proc_zero !! i).
    destruct (replicate 61 proc_zero !! i) as [p|] eqn:E; [|intros H; discriminate H].
    apply lookup_replicate in E as [-> _]. intros H. discriminate H.
Qed.

Lemma rt_refresh_catches_up_witness :
  ∃ p', rt_refresh_locked (demo_rt 3 9) 25 = Some p' ∧ rt_release p' = 23 ∧ rt_misses p' = 2.
Proof.
  destruct (rt_refresh_catches_up (demo_rt 3 9) 25) as (p' & E & Hr & _ & _ & Hm & _).
  - apply demo_rt_ok; lia.
  - exists p'. split; [exact E|]. rewrite Hr, Hm. split; reflexivity.
Defined.

Lemma rt_pick_least_laxity_witness :
  ∃ k', rt_pick 25 demo_rt_kernel = Some (k', Some 2%nat) ∧
    first_min (λ i, rt_ready 25 (get_proc demo_rt_kernel i))
      (λ i, laxity_at 25 (get_proc demo_rt_kernel i)) NPROC (Some 2%nat).
Proof.
  destruct (rt_pick_least_laxity 25 demo_rt_kernel eq_refl demo_rt_tame)
    as (k' & b & E & _ & _ & Hmin).
  assert (snd <$> rt_pick 25 demo_rt_kernel = Some (Some 2%nat)) as E2 by (vm_compute; reflexivity).
  rewrite E in E2. simpl in E2. injection E2 as ->. exists k'. split; [exact E|exact Hmin].
Defined.

Lemma rt_should_preempt_iff_witness :
  ∃ k', rt_should_preempt (Some 0%nat) demo_rt_kernel = Some (1, k').
Proof.
  destruct (rt_should_preempt_iff (Some 0%nat) demo_rt_kernel eq_refl demo_rt_tame)
    as (r & k' & E & Hiff).
  exists k'. rewrite (proj2 Hiff) in E; [exact E|]. exists 2%nat.
  split; [unfold NPROC; lia|]. split.
  - repeat split; vm_compute; congruence.
  - intros c [= <-] [_ (H & _)]. discriminate H.
Defined.

(** At the last tick of the unsigned clock the loop of rt_refresh_locked() does
    not end: its condition holds of every task. *)
Lemma rt_refresh_diverges p n :
  while_fuel n (refresh_cond (2 ^ 32 - 1)) refresh_body p = None.
Proof.
  revert p. induction n as [|n IH]; intros p; cbn [while_fuel];
    unfold refresh_cond at 1; rewrite (proj2 (Z.leb_le _ _)); try done;
    pose proof (u32_range (rt_release p + rt_period p)); lia.
Qed.
