(* ===== verification/Banker.v ===== *)
(** * The banker's algorithm (src/kernel/proc/proc.c)

    The resource vectors [total], [avail], [bkr_max] and [bkr_alloc] are C
    arrays of BANKER_RES_MAX ints, lists here. [banker_inv] bounds every entry
    by the [total] of its resource, so that no int of the code overflows. The
    process argument is its index; an operation is one critical section of
    banker.lock. *)

From S2P Require Import Prelude KState.

(** [for (r = 0; r < n; r++) v[r] = f(r, v[r]);] *)
Definition vloop (n : nat) (f : nat → Z → Z) (v : list Z) : list Z :=
  imap (λ r x, if (r <? n)%nat then f r x else x) v.

#[global] Arguments vloop : simpl never.

(** [for (r = 0; r < n; r++) if (!t(r)) return ...;] *)
Definition vall (n : nat) (t : nat → bool) : bool := forallb t (seq 0 n).

(** ** The safety check *)

Definition banker_need_ok (n : nat) (p : proc) (work : list Z) : bool :=
  vall n (λ r, bkr_max p !!! r - bkr_alloc p !!! r <=? work !!! r).

Record safety := mk_safety { work : list Z; finish : list bool; progress : bool }.

Definition safe_body (n : nat) (ps : list proc) (s : safety) (i : nat) : safety :=
  if (finish s !!! i : bool) then s
  else
    let p := ps !!! i in
    if banker_need_ok n p (work s) then
      mk_safety (vloop n (λ r w, w + bkr_alloc p !!! r) (work s))
        (<[i := true]> (finish s)) true
    else s.

Fixpoint safe_loop (fuel : nat) (n : nat) (ps : list proc) (w : list Z)
    (fin : list bool) : option (list bool) :=
  match fuel with
  | O => None
  | S fuel =>
      let s := foldl (safe_body n ps) (mk_safety w fin false) (seq 0 NPROC) in
      if progress s then safe_loop fuel n ps (work s) (finish s)
      else Some (finish s)
  end.

(** One pass more than there are processes: each pass but the last finishes one. *)
Definition safe_fuel : nat := S NPROC.

Definition bkr_idle (p : proc) : bool :=
  bool_decide (state p = UNUSED) || negb (bkr_active p).

Definition banker_is_safe_locked (k : kernel) : option bool :=
  fin ← safe_loop safe_fuel (nres (banker k)) (procs k) (avail (banker k))
          (bkr_idle <$> procs k);
  Some (forallb id fin).

Definition banker_any_alloc_locked (k : kernel) : bool :=
  existsb (λ p, bkr_active p &&
    existsb (λ r, 0 <? bkr_alloc p !!! r) (seq 0 (nres (banker k)))) (procs k).

(** ** The operations *)

Definition banker_init_state (k : kernel) : kernel :=
  k <| banker := mk_banker false 0 (replicate BANKER_RES_MAX 0)
                   (replicate BANKER_RES_MAX 0) |>.

Definition bad_nres (n : Z) : bool := (n <=? 0) || (Z.of_nat BANKER_RES_MAX <? n).

Definition bkr_clear (p : proc) : proc :=
  p <| bkr_active := false |> <| bkr_max := replicate BANKER_RES_MAX 0 |>
    <| bkr_alloc := replicate BANKER_RES_MAX 0 |>.

Definition banker_init (n : Z) (tot : list Z) (k : kernel) : Z * kernel :=
  if bad_nres n then (-1, k)
  else if negb (vall (Z.to_nat n) (λ r, 0 <=? tot !!! r)) then (-1, k)
  else if inited (banker k) && banker_any_alloc_locked k then (-1, k)
  else
    let fill := vloop (Z.to_nat n) (λ r _, tot !!! r) (replicate BANKER_RES_MAX 0) in
    (0, k <| banker := mk_banker true (Z.to_nat n) fill fill |>
          <| procs := bkr_clear <$> procs k |>).

Definition banker_set_max (i : nat) (n : Z) (mx : list Z) (k : kernel) : Z * kernel :=
  let b := banker k in
  let p := get_proc k i in
  if bad_nres n then (-1, k)
  else if negb (inited b) || negb (n =? Z.of_nat (nres b)) then (-1, k)
  else if negb (vall (nres b) (λ r, (0 <=? mx !!! r) && (mx !!! r <=? total b !!! r) &&
                                    (bkr_alloc p !!! r <=? mx !!! r))) then (-1, k)
  else
    (0, upd_proc i (λ p,
          let p := if bkr_active p then p
                   else p <| bkr_alloc := replicate BANKER_RES_MAX 0 |> in
          let p := p <| bkr_active := true |> in
          p <| bkr_max := vloop (nres b) (λ r _, mx !!! r) (replicate BANKER_RES_MAX 0) |>) k).

(** banker.avail[r] -= req[r]; p->bkr_alloc[r] += req[r]; for r < n *)
Definition banker_move (i : nat) (n : nat) (req : nat → Z) (k : kernel) : kernel :=
  upd_proc i (λ p, p <| bkr_alloc := vloop n (λ r x, x + req r) (bkr_alloc p) |>)
    (k <| banker := (banker k) <| avail := vloop n (λ r x, x - req r) (avail (banker k)) |> |>).

Definition banker_request (i : nat) (n : Z) (req : list Z) (k : kernel)
    : option (Z * kernel) :=
  let b := banker k in
  let p := get_proc k i in
  if bad_nres n then Some (-1, k)
  else if negb (inited b) || negb (n =? Z.of_nat (nres b)) || negb (bkr_active p)
  then Some (-1, k)
  else if negb (vall (nres b) (λ r,
      (0 <=? req !!! r) && (req !!! r <=? bkr_max p !!! r - bkr_alloc p !!! r) &&
      (req !!! r <=? avail b !!! r))) then Some (-1, k)
  else
    let k' := banker_move i (nres b) (λ r, req !!! r) k in
    safe ← banker_is_safe_locked k';
    if safe : bool then Some (0, k')
    else Some (-1, banker_move i (nres b) (λ r, - (req !!! r)) k').

Definition banker_release (i : nat) (n : Z) (rel : list Z) (k : kernel) : Z * kernel :=
  let b := banker k in
  let p := get_proc k i in
  if bad_nres n then (-1, k)
  else if negb (inited b) || negb (n =? Z.of_nat (nres b)) || negb (bkr_active p)
  then (-1, k)
  else if negb (vall (nres b) (λ r, (0 <=? rel !!! r) &&
                                    (rel !!! r <=? bkr_alloc p !!! r))) then (-1, k)
  else (0, banker_move i (nres b) (λ r, - (rel !!! r)) k).

Definition banker_release_proc (i : nat) (k : kernel) : kernel :=
  let b := banker k in
  let p := get_proc k i in
  if negb (inited b) || negb (bkr_active p) then k
  else
    upd_proc i (λ p, p <| bkr_alloc := vloop (nres b) (λ _ _, 0) (bkr_alloc p) |>
                       <| bkr_max := vloop (nres b) (λ _ _, 0) (bkr_max p) |>
                       <| bkr_active := false |>)
      (k <| banker := b <| avail := vloop (nres b) (λ r x, x + bkr_alloc p !!! r)
                                      (avail b) |> |>).

#[local] Opaque BANKER_RES_MAX NPROC.

(** ** Vectors *)

Lemma vloop_length n f v : length (vloop n f v) = length v.
Proof. apply length_imap. Qed.

Lemma vloop_lookup n f v r :
  (n ≤ length v)%nat → (r < n)%nat → vloop n f v !!! r = f r (v !!! r).
Proof.
  intros Hn Hr. destruct (lookup_lt_is_Some_2 v r) as [x Hx]; [lia|].
  rewrite !list_lookup_total_alt. unfold vloop. rewrite list_lookup_imap, Hx. simpl.
  by rewrite (proj2 (Nat.ltb_lt r n)).
Qed.

Lemma vloop_ext n f g v :
  (∀ r x, (r < n)%nat → v !! r = Some x → f r x = g r x) → vloop n f v = vloop n g v.
Proof.
  intros Hfg. apply list_eq. intros r. unfold vloop. rewrite !list_lookup_imap.
  destruct (v !! r) as [x|] eqn:E; simpl; [|done].
  destruct (Nat.ltb_spec r n); [|done]. by rewrite Hfg.
Qed.

Lemma vloop_compose n f g v : vloop n f (vloop n g v) = vloop n (λ r x, f r (g r x)) v.
Proof.
  apply list_eq. intros r. unfold vloop. rewrite !list_lookup_imap.
  destruct (v !! r) as [x|]; simpl; [|done]. by case_match.
Qed.

Lemma vloop_id n v : vloop n (λ _ x, x) v = v.
Proof.
  apply list_eq. intros r. unfold vloop. rewrite list_lookup_imap.
  destruct (v !! r) as [x|]; simpl; [|done]. by case_match.
Qed.

Lemma vall_true n t : vall n t = true ↔ ∀ r, (r < n)%nat → t r = true.
Proof.
  unfold vall. rewrite forallb_forall. setoid_rewrite in_seq.
  split; intros H r Hr; apply H; lia.
Qed.

(** ** Safe states

    The specification: a state is safe when the processes that hold or may
    claim resources can finish one after the other, each with what is free at
    its turn, returning what it holds. *)

Definition need (p : proc) (r : nat) : Z := bkr_max p !!! r - bkr_alloc p !!! r.

Fixpoint can_finish (n : nat) (ps : list proc) (w : nat → Z) (order : list nat) : Prop :=
  match order with
  | [] => True
  | i :: order =>
      (∀ r, (r < n)%nat → need (ps !!! i) r ≤ w r) ∧
      can_finish n ps (λ r, w r + bkr_alloc (ps !!! i) !!! r) order
  end.

Definition claims (ps : list proc) (i : nat) : Prop :=
  ∃ p, ps !! i = Some p ∧ bkr_idle p = false.

Definition is_safe (k : kernel) : Prop :=
  ∃ order, NoDup order ∧ (∀ i, i ∈ order ↔ claims (procs k) i) ∧
    can_finish (nres (banker k)) (procs k) (λ r, avail (banker k) !!! r) order.

Definition held (ps : list proc) (r : nat) (order : list nat) : Z :=
  sum_with (λ i, bkr_alloc (ps !!! i) !!! r) order.


Lemma can_finish_snoc n ps w order i :
  can_finish n ps w order →
  (∀ r, (r < n)%nat → need (ps !!! i) r ≤ w r + held ps r order) →
  can_finish n ps w (order ++ [i]).
Proof.
  revert w. induction order as [|j order IH]; simpl; intros w.
  - intros _ Hn. split; [|done]. intros r Hr. specialize (Hn r Hr). lia.
  - intros [Hj Hc] Hn. split; [done|]. apply IH; [done|].
    intros r Hr. specialize (Hn r Hr). unfold held in *. lia.
Qed.

Lemma can_finish_at n ps w order order1 i order2 :
  can_finish n ps w order → order = order1 ++ i :: order2 →
  ∀ r, (r < n)%nat → need (ps !!! i) r ≤ w r + held ps r order1.
Proof.
  intros Hc ->. revert w Hc. induction order1 as [|j order1 IH]; simpl; intros w.
  - intros [Hi _] r Hr. specialize (Hi r Hr). lia.
  - intros [_ Hc] r Hr. specialize (IH _ Hc r Hr). simpl in IH. unfold held in *. lia.
Qed.

(** What a larger set of finished processes returns is at least as much. *)
Lemma held_submseteq ps r l1 l2 :
  (∀ i, i ∈ l2 → 0 ≤ bkr_alloc (ps !!! i) !!! r) →
  l1 ⊆+ l2 → held ps r l1 ≤ held ps r l2.
Proof.
  intros Hpos (l3 & Hp)%submseteq_Permutation.
  unfold held. rewrite (sum_with_perm _ l2 (l1 ++ l3)), sum_with_app by done.
  assert (0 ≤ sum_with (λ i, bkr_alloc (ps !!! i) !!! r) l3); [|lia].
  apply sum_with_nonneg. intros i Hi. apply Hpos. rewrite Hp. set_solver.
Qed.

(** ** The safety check decides safety *)

Section safety_check.
Context (n : nat) (ps : list proc) (av : list Z).
Hypothesis Hlen : length ps = NPROC.
Hypothesis Hav : (n ≤ length av)%nat.
Hypothesis Hpos : ∀ p r, p ∈ ps → bkr_idle p = false → (r < n)%nat → 0 ≤ bkr_alloc p !!! r.

(** The work and finish vectors after the processes [order] have finished. *)
Definition finished (order : list nat) (w : list Z) (fin : list bool) : Prop :=
  NoDup order ∧ (∀ i, i ∈ order → claims ps i) ∧
  can_finish n ps (λ r, av !!! r) order ∧
  length w = length av ∧ length fin = NPROC ∧
  (∀ r, (r < n)%nat → w !!! r = av !!! r + held ps r order) ∧
  (∀ i, (i < NPROC)%nat → fin !!! i = true ↔ ¬ claims ps i ∨ i ∈ order).

Lemma claims_lookup i : claims ps i → (i < NPROC)%nat ∧ ps !!! i ∈ ps ∧ bkr_idle (ps !!! i) = false.
Proof using Hlen Hav Hpos.
  intros (p & Hp & Hidle). rewrite (list_lookup_total_correct _ _ _ Hp).
  split_and!; [apply lookup_lt_Some in Hp; lia|by eapply list_elem_of_lookup_2|done].
Qed.

Lemma need_ok_iff p w :
  banker_need_ok n p w = true ↔ ∀ r, (r < n)%nat → need p r ≤ w !!! r.
Proof.
  unfold banker_need_ok, need. rewrite vall_true. by setoid_rewrite Z.leb_le.
Qed.

Lemma finished_step order w fin i :
  finished order w fin → (i < NPROC)%nat → fin !!! i = false →
  banker_need_ok n (ps !!! i) w = true →
  finished (order ++ [i]) (vloop n (λ r x, x + bkr_alloc (ps !!! i) !!! r) w)
    (<[i := true]> fin).
Proof using Hlen Hav Hpos.
  intros (Hnd & Hcl & Hcf & Hlw & Hlf & Hw & Hf) Hi Hfi Hok.
  assert (claims ps i ∧ i ∉ order) as [Hc Hni].
  { assert (¬ (¬ claims ps i ∨ i ∈ order)) as Hn by (rewrite <-Hf by done; by rewrite Hfi).
    split; [|tauto]. destruct (lookup_lt_is_Some_2 ps i) as [p Hp]; [lia|].
    exists p. split; [done|]. destruct (bkr_idle p) eqn:E; [|done].
    destruct Hn. left. intros (q & Hq & Hq'). congruence. }
  rewrite need_ok_iff in Hok.
  split_and!.
  - apply NoDup_app. split_and!; [done|set_solver|apply NoDup_singleton].
  - set_solver.
  - apply can_finish_snoc; [done|]. intros r Hr. rewrite <-Hw by done. by apply Hok.
  - by rewrite vloop_length.
  - by rewrite length_insert.
  - intros r Hr. rewrite vloop_lookup by lia. rewrite Hw by done.
    unfold held. rewrite sum_with_app. simpl. lia.
  - intros j Hj. destruct (decide (i = j)) as [<-|Hne].
    + rewrite list_lookup_total_insert_eq by lia. set_solver.
    + rewrite list_lookup_total_insert_ne, Hf by done. set_solver.
Qed.

(** One pass over the table, up to the index [m]. *)
Definition pass_inv (order0 : list nat) (w0 : list Z) (fin0 : list bool) (m : nat)
    (s : safety) : Prop :=
  ∃ order, finished order (work s) (finish s) ∧
    if progress s then (length order0 < length order)%nat
    else work s = w0 ∧ finish s = fin0 ∧ order = order0 ∧
         ∀ i, (i < m)%nat → fin0 !!! i = false → banker_need_ok n (ps !!! i) w0 = false.

Lemma pass_step order0 w0 fin0 m s :
  (m < NPROC)%nat → pass_inv order0 w0 fin0 m s →
  pass_inv order0 w0 fin0 (S m) (safe_body n ps s m).
Proof using Hlen Hav Hpos.
  intros Hm (order & Hfin & Hprog). unfold safe_body.
  destruct (finish s !!! m : bool) eqn:Hf.
  { exists order. split; [done|]. destruct (progress s); [done|].
    destruct Hprog as (Hw & Hff & Ho & Hno). split_and!; try done.
    intros i Hi Hfi. destruct (decide (i = m)) as [->|]; [congruence|].
    apply Hno; [lia|done]. }
  destruct (banker_need_ok n (ps !!! m) (work s)) eqn:Hok.
  - exists (order ++ [m]). split; [by apply finished_step|]. simpl.
    rewrite length_app. simpl. destruct (progress s); [lia|].
    destruct Hprog as (_ & _ & -> & _). lia.
  - exists order. split; [done|]. destruct (progress s); [done|].
    destruct Hprog as (Hw & Hff & Ho & Hno). split_and!; try done.
    intros i Hi Hfi. destruct (decide (i = m)) as [->|]; [by rewrite <-Hw|].
    apply Hno; [lia|done].
Qed.

Lemma finished_bound order w fin : finished order w fin → (length order ≤ NPROC)%nat.
Proof using Hlen Hav Hpos.
  intros (Hnd & Hcl & _). transitivity (length (seq 0 NPROC)); [|by rewrite length_seq].
  apply submseteq_length, NoDup_submseteq; [done|]. intros i Hi%Hcl%claims_lookup.
  apply elem_of_seq. lia.
Qed.

(** The loop returns, and where it stops no unfinished process can go on. *)
Lemma safe_loop_spec fuel order w fin :
  finished order w fin → (NPROC - length order < fuel)%nat →
  ∃ order' w' fin', safe_loop fuel n ps w fin = Some fin' ∧ finished order' w' fin' ∧
    ∀ i, (i < NPROC)%nat → fin' !!! i = false → banker_need_ok n (ps !!! i) w' = false.
Proof using Hlen Hav Hpos.
  revert order w fin. induction fuel as [|fuel IH]; intros order w fin Hfin Hfuel; [lia|].
  cbn [safe_loop]. set (s := foldl _ _ _).
  assert (pass_inv order w fin NPROC s) as (order' & Hfin' & Hprog).
  { apply foldl_seq_ind; [|intros; by apply pass_step].
    exists order. split; [done|]. simpl. split_and!; try done. lia. }
  pose proof (finished_bound _ _ _ Hfin'). destruct (progress s).
  - apply (IH order'); [done|lia].
  - destruct Hprog as (Hw & Hf & Ho & Hno). exists order', (work s), (finish s).
    split_and!; try done. intros i Hi Hfi. rewrite Hw. apply Hno; [done|congruence].
Qed.

Lemma fin_start : finished [] av (bkr_idle <$> ps).
Proof using Hlen Hav Hpos.
  split_and!; try done; [apply NoDup_nil_2|set_solver|by rewrite length_fmap| |].
  - intros r _. unfold held. simpl. lia.
  - intros i Hi. destruct (lookup_lt_is_Some_2 ps i) as [p Hp]; [lia|].
    rewrite list_lookup_total_alt, list_lookup_fmap, Hp. simpl. split.
    + intros Hidle. left. intros (q & Hq & Hq'). congruence.
    + intros [Hn|Hn]; [|set_solver]. destruct (bkr_idle p) eqn:E; [done|].
      destruct Hn. by exists p.
Qed.

(** Where the loop stopped, a finishing order of all claimants is all done. *)
Lemma stuck_complete order order' w fin :
  NoDup order → (∀ i, i ∈ order ↔ claims ps i) →
  can_finish n ps (λ r, av !!! r) order → finished order' w fin →
  (∀ i, (i < NPROC)%nat → fin !!! i = false → banker_need_ok n (ps !!! i) w = false) →
  ∀ pre suf, order = pre ++ suf → pre ⊆ order'.
Proof using Hlen Hav Hpos.
  intros Hnd Hcl Hcf (Hnd' & Hcl' & _ & _ & _ & Hw & Hf) Hstuck pre.
  induction pre as [|i pre IH] using rev_ind; intros suf Heq; [set_solver|].
  assert (pre ⊆ order') as Hsub by (eapply (IH (i :: suf)); by rewrite Heq, <-app_assoc).
  apply list_subseteq_app_iff_l. split; [done|].
  assert (claims ps i) as Hci by (apply Hcl; set_solver).
  destruct (claims_lookup i Hci) as (Hi & _ & _).
  destruct (fin !!! i) eqn:Hfi.
  { apply Hf in Hfi as [?|?]; [done| |done]. set_solver. }
  exfalso. specialize (Hstuck i Hi Hfi). apply not_true_iff_false in Hstuck. apply Hstuck.
  apply need_ok_iff. intros r Hr. rewrite Hw by done.
  assert (held ps r pre ≤ held ps r order').
  { apply held_submseteq.
    - intros j Hj. destruct (claims_lookup j (Hcl' j Hj)) as (_ & ? & ?). by apply Hpos.
    - apply NoDup_submseteq; [|done]. rewrite Heq in Hnd.
      apply NoDup_app in Hnd as [Hnd _]. by apply NoDup_app in Hnd as [? _]. }
  pose proof (can_finish_at _ _ _ _ pre i suf Hcf ltac:(by rewrite Heq, <-app_assoc) r Hr).
  simpl in *. lia.
Qed.

Lemma safety_check_spec :
  ∃ fin, safe_loop safe_fuel n ps av (bkr_idle <$> ps) = Some fin ∧
    (forallb id fin = true ↔
     ∃ order, NoDup order ∧ (∀ i, i ∈ order ↔ claims ps i) ∧
       can_finish n ps (λ r, av !!! r) order).
Proof using Hlen Hav Hpos.
  destruct (safe_loop_spec safe_fuel [] av (bkr_idle <$> ps) fin_start) as
    (order' & w' & fin' & Hloop & Hfin & Hstuck); [unfold safe_fuel; cbn [length]; lia|].
  exists fin'. split; [done|].
  pose proof Hfin as (Hnd' & Hcl' & Hcf' & _ & Hlf & _ & Hf).
  assert (forallb id fin' = true ↔ ∀ i, (i < NPROC)%nat → fin' !!! i = true) as ->.
  { rewrite forallb_forall. split.
    - intros H i Hi. destruct (lookup_lt_is_Some_2 fin' i) as [x Hx]; [lia|].
      rewrite (list_lookup_total_correct _ _ _ Hx).
      apply H. apply list_elem_of_In. by eapply list_elem_of_lookup_2.
    - intros H x (i & Hi)%list_elem_of_In%list_elem_of_lookup_1.
      pose proof (lookup_lt_Some _ _ _ Hi). apply list_lookup_total_correct in Hi.
      rewrite <-Hi. apply H. lia. }
  split.
  - intros Hall. exists order'. split_and!; try done. intros i. split; [apply Hcl'|].
    intros Hc. destruct (claims_lookup i Hc) as (Hi & _).
    destruct (proj1 (Hf i Hi) (Hall i Hi)) as [?|?]; done.
  - intros (order & Hnd & Hcl & Hcf) i Hi. apply Hf; [done|].
    destruct (lookup_lt_is_Some_2 ps i) as [p Hp]; [lia|].
    destruct (bkr_idle p) eqn:E.
    + left. intros (q & Hq & Hq'). congruence.
    + right. eapply (stuck_complete order order' w' fin' Hnd Hcl Hcf Hfin Hstuck order []);
        [by rewrite app_nil_r|]. apply Hcl. by exists p.
Qed.
End safety_check.

(** ** The invariant *)

Definition entry_ok (n : nat) (tot : list Z) (p : proc) : Prop :=
  length (bkr_max p) = BANKER_RES_MAX ∧ length (bkr_alloc p) = BANKER_RES_MAX ∧
  ∀ r, (r < n)%nat →
    if bkr_active p
    then 0 ≤ bkr_alloc p !!! r ≤ bkr_max p !!! r ∧ bkr_max p !!! r ≤ tot !!! r
    else bkr_alloc p !!! r = 0.

Definition allocated_of (ps : list proc) (r : nat) : Z :=
  sum_with (λ p, bkr_alloc p !!! r) ps.

(** Every resource unit is either available or allocated, allocations respect
    the claims, claims respect the totals, totals are ints. *)
Definition banker_inv (k : kernel) : Prop :=
  let b := banker k in
  length (procs k) = NPROC ∧ length (avail b) = BANKER_RES_MAX ∧
  (inited b = true →
   (0 < nres b ≤ BANKER_RES_MAX)%nat ∧
   (∀ p, p ∈ procs k → entry_ok (nres b) (total b) p) ∧
   ∀ r, (r < nres b)%nat → 0 ≤ total b !!! r < 2 ^ 31 ∧ 0 ≤ avail b !!! r ∧
     avail b !!! r + allocated_of (procs k) r = total b !!! r).

Lemma banker_inv_upd k i p p' av' :
  banker_inv k → inited (banker k) = true → procs k !! i = Some p →
  length av' = BANKER_RES_MAX → entry_ok (nres (banker k)) (total (banker k)) p' →
  (∀ r, (r < nres (banker k))%nat → 0 ≤ av' !!! r ∧
     av' !!! r + bkr_alloc p' !!! r = avail (banker k) !!! r + bkr_alloc p !!! r) →
  banker_inv (upd_proc i (λ _, p') (k <| banker := (banker k) <| avail := av' |> |>)).
Proof.
  intros (Hl & _ & Hinv) Hin Hp Hav Hok Hr.
  destruct (Hinv Hin) as (Hn & Hent & Hsum).
  unfold banker_inv; simpl. split; [by rewrite length_alter|]. split; [done|].
  intros _. split; [done|]. rewrite (list_alter_insert _ _ _ _ Hp). split.
  - intros q (j & Hj)%list_elem_of_lookup_1.
    apply list_lookup_insert_Some in Hj as [(_ & <- & _)|(_ & Hj)]; [done|].
    apply Hent. by eapply list_elem_of_lookup_2.
  - intros r Hrn. specialize (Hr r Hrn). specialize (Hsum r Hrn).
    unfold allocated_of in *. rewrite (sum_with_insert _ _ _ _ _ Hp). lia.
Qed.

Lemma banker_move_inv k i p d :
  banker_inv k → inited (banker k) = true → procs k !! i = Some p →
  bkr_active p = true →
  (∀ r, (r < nres (banker k))%nat →
     0 ≤ bkr_alloc p !!! r + d r ≤ bkr_max p !!! r ∧ 0 ≤ avail (banker k) !!! r - d r) →
  banker_inv (banker_move i (nres (banker k)) d k).
Proof.
  intros Hinv Hin Hp Hact Hd. unfold banker_move.
  rewrite (upd_proc_const _ i _ p) by done.
  pose proof Hinv as (_ & Hla & H'). destruct (H' Hin) as (Hn & Hent & _).
  destruct (Hent p) as (Hlm & Hlal & Hr); [by eapply list_elem_of_lookup_2|].
  rewrite Hact in Hr.
  apply (banker_inv_upd k i p); [done..| | |]; simpl.
  - by rewrite vloop_length.
  - split_and!; simpl; [done|by rewrite vloop_length|]. rewrite Hact.
    intros r Hrn. rewrite vloop_lookup by lia.
    specialize (Hr r Hrn). specialize (Hd r Hrn). lia.
  - intros r Hrn. rewrite !vloop_lookup by lia. specialize (Hd r Hrn). lia.
Qed.

Lemma banker_move_undo k i n d :
  banker_move i n (λ r, - d r) (banker_move i n d k) = k.
Proof.
  unfold banker_move, upd_proc. destruct k as [ps ? ? ? ? ? ? ? [ini nr tot av] ].
  unfold upd, procs_set, banker_set, avail_set; simpl. rewrite !vloop_compose.
  rewrite (vloop_ext n _ (λ _ x, x)), vloop_id by (intros; lia).
  f_equal. rewrite list_alter_alter. apply list_alter_id.
  intros p. unfold upd, bkr_alloc_set; simpl. rewrite vloop_compose.
  rewrite (vloop_ext n _ (λ _ x, x)), vloop_id by (intros; lia). by destruct p.
Qed.

Lemma banker_inv_safe_iff k :
  banker_inv k → inited (banker k) = true →
  ∃ b, banker_is_safe_locked k = Some b ∧ (b = true ↔ is_safe k).
Proof.
  intros (Hl & Hla & Hinv) Hin. destruct (Hinv Hin) as (Hn & Hent & _).
  unfold banker_is_safe_locked.
  destruct (safety_check_spec (nres (banker k)) (procs k) (avail (banker k)) Hl)
    as (fin & Hf & Hiff); [lia| |].
  - intros p r Hp Hidle Hr. destruct (Hent p Hp) as (_ & _ & He). specialize (He r Hr).
    unfold bkr_idle in Hidle. bool_facts. rewrite H0 in He. lia.
  - rewrite Hf. cbn [mbind option_bind]. eauto.
Qed.

(** The guards of the operations, as propositions. *)
Definition call_ok (k : kernel) (n : Z) : Prop :=
  inited (banker k) = true ∧ n = Z.of_nat (nres (banker k)).

Lemma bad_nres_false n : bad_nres n = false ↔ 0 < n ≤ Z.of_nat BANKER_RES_MAX.
Proof. unfold bad_nres. rewrite orb_false_iff, Z.leb_gt, Z.ltb_ge. done. Qed.

(** ** Safety is kept *)

Section keep_safe.
Context (n : nat) (ps ps' : list proc) (i : nat).
Hypothesis Hsame : ∀ j, j ≠ i → ps' !!! j = ps !!! j.



End keep_safe.


(** ** Calls *)

Inductive banker_call :=
  | BInit (n : Z) (tot : list Z)
  | BSetMax (i : nat) (n : Z) (mx : list Z)
  | BRequest (i : nat) (n : Z) (req : list Z)
  | BRelease (i : nat) (n : Z) (rel : list Z)
  | BExit (i : nat).

Definition run_call (c : banker_call) (k : kernel) : option (Z * kernel) :=
  match c with
  | BInit n tot => Some (banker_init n tot k)
  | BSetMax i n mx => Some (banker_set_max i n mx k)
  | BRequest i n req => banker_request i n req k
  | BRelease i n rel => Some (banker_release i n rel k)
  | BExit i => Some (0, banker_release_proc i k)
  end.

(** The caller is an entry of the table, the vectors are vectors of ints. *)
Definition call_valid (c : banker_call) : Prop :=
  match c with
  | BInit _ v => Forall is_i32 v
  | BSetMax i _ _ | BRequest i _ _ | BRelease i _ _ | BExit i => (i < NPROC)%nat
  end.

Lemma zeros_lookup r : (r < BANKER_RES_MAX)%nat → replicate BANKER_RES_MAX 0 !!! r = 0.
Proof. intros Hr. by apply lookup_total_replicate_2. Qed.

Lemma entry_ok_fresh n tot p :
  (n ≤ BANKER_RES_MAX)%nat → entry_ok n tot (bkr_clear p).
Proof. intros Hn. split_and!; try done. intros r Hr. apply zeros_lookup. lia. Qed.

Lemma banker_init_inv n tot k :
  Forall is_i32 tot → banker_inv k →
  banker_inv (banker_init n tot k).2 ∧
  ((banker_init n tot k).1 ≠ 0 → (banker_init n tot k).2 = k).
Proof.
  intros Hi32 Hinv. unfold banker_init.
  destruct (bad_nres n) eqn:Hb; [done|]. apply bad_nres_false in Hb.
  destruct (vall _ _) eqn:Hv; [|done]. rewrite vall_true in Hv. cbn [negb].
  case_match; [done|]. destruct Hinv as (Hl & _ & _).
  set (fill := vloop _ _ _).
  assert (length fill = BANKER_RES_MAX) as Hlf by (subst fill; by rewrite vloop_length).
  assert (∀ r, (r < Z.to_nat n)%nat → fill !!! r = tot !!! r) as Hfill.
  { intros r Hr. subst fill. rewrite vloop_lookup; [done| |done].
    rewrite length_replicate. lia. }
  clearbody fill. simpl. split; [|done].
  unfold banker_inv; simpl. split; [by rewrite length_fmap|].
  split; [done|]. intros _. split; [lia|]. split.
  - intros p (q & -> & _)%list_elem_of_fmap. apply entry_ok_fresh. lia.
  - intros r Hr. rewrite Hfill by done. specialize (Hv r Hr). bool_facts.
    assert (is_i32 (tot !!! r)) as Hi.
    { rewrite list_lookup_total_alt. destruct (tot !! r) eqn:E; simpl; [|by vm_compute].
      rewrite Forall_lookup in Hi32. by eapply Hi32. }
    unfold is_i32 in Hi. unfold allocated_of. rewrite (sum_with_ext _ (λ _, 0)).
    + assert (∀ l : list proc, sum_with (λ _, 0) l = 0) as -> by (induction l; simpl; lia).
      lia.
    + intros p (q & -> & _)%list_elem_of_fmap. apply zeros_lookup. lia.
Qed.

Lemma banker_set_max_inv i n mx k p :
  procs k !! i = Some p → banker_inv k →
  banker_inv (banker_set_max i n mx k).2 ∧
  ((banker_set_max i n mx k).1 ≠ 0 → (banker_set_max i n mx k).2 = k).
Proof.
  intros Hp Hinv. unfold banker_set_max, get_proc.
  rewrite (list_lookup_total_correct _ _ _ Hp).
  destruct (bad_nres n) eqn:Hb; [done|]. apply bad_nres_false in Hb.
  destruct (inited (banker k)) eqn:Hin; [|done]. simpl.
  destruct (Z.eqb_spec n (Z.of_nat (nres (banker k)))); [|done]. simpl.
  destruct (vall _ _) eqn:Hv; [|done]. rewrite vall_true in Hv. simpl. split; [|done].
  pose proof Hinv as (_ & Hla & H'). destruct (H' Hin) as (Hn & Hent & Hsum).
  destruct (Hent p) as (Hlm & Hlal & Hr); [by eapply list_elem_of_lookup_2|].
  rewrite (upd_proc_const _ i _ p) by done.
  replace k with (k <| banker := (banker k) <| avail := avail (banker k) |> |>) at 2
    by (destruct k as [? ? ? ? ? ? ? ? []]; done).
  apply (banker_inv_upd k i p); [done..| |].
  - split_and!; simpl; [by rewrite vloop_length|by case_match|].
    intros r Hrn. rewrite vloop_lookup by (rewrite ?length_replicate; lia).
    specialize (Hv r Hrn). specialize (Hr r Hrn). bool_facts.
    destruct (bkr_active p) eqn:Ha; simpl; [lia|]. rewrite zeros_lookup by lia. lia.
  - intros r Hrn. specialize (Hsum r Hrn). specialize (Hr r Hrn). simpl.
    destruct (bkr_active p) eqn:Ha; simpl;
      change (let (_, _, _, a) := banker k in a) with (avail (banker k));
      [lia|]. rewrite zeros_lookup by lia. lia.
Qed.

Lemma banker_release_inv i n rel k p :
  procs k !! i = Some p → banker_inv k →
  banker_inv (banker_release i n rel k).2 ∧
  ((banker_release i n rel k).1 ≠ 0 → (banker_release i n rel k).2 = k).
Proof.
  intros Hp Hinv. unfold banker_release, get_proc.
  rewrite (list_lookup_total_correct _ _ _ Hp).
  destruct (bad_nres n) eqn:Hb; [done|]. apply bad_nres_false in Hb.
  destruct (inited (banker k)) eqn:Hin; [|done]. simpl.
  destruct (Z.eqb_spec n (Z.of_nat (nres (banker k)))); [|done]. simpl.
  destruct (bkr_active p) eqn:Ha; [|done]. simpl.
  destruct (vall _ _) eqn:Hv; [|done]. rewrite vall_true in Hv. simpl. split; [|done].
  pose proof Hinv as (_ & Hla & H'). destruct (H' Hin) as (Hn & Hent & Hsum).
  destruct (Hent p) as (Hlm & Hlal & Hr); [by eapply list_elem_of_lookup_2|].
  apply (banker_move_inv k i p); [done..|]. intros r Hrn.
  specialize (Hv r Hrn). specialize (Hr r Hrn). specialize (Hsum r Hrn).
  rewrite Ha in Hr. bool_facts. lia.
Qed.

Lemma banker_exit_inv i k p :
  procs k !! i = Some p → banker_inv k → banker_inv (banker_release_proc i k).
Proof.
  intros Hp Hinv. unfold banker_release_proc, get_proc.
  rewrite (list_lookup_total_correct _ _ _ Hp).
  destruct (inited (banker k)) eqn:Hin; [|done].
  destruct (bkr_active p) eqn:Ha; [|done]. simpl.
  pose proof Hinv as (_ & Hla & H'). destruct (H' Hin) as (Hn & Hent & Hsum).
  destruct (Hent p) as (Hlm & Hlal & Hr); [by eapply list_elem_of_lookup_2|].
  rewrite (upd_proc_const _ i _ p) by done. rewrite Ha in Hr.
  apply (banker_inv_upd k i p); [done..|by rewrite vloop_length| |]; simpl.
  - split_and!; simpl; [by rewrite vloop_length..|]. intros r Hrn.
    by rewrite vloop_lookup by lia.
  - intros r Hrn. rewrite !vloop_lookup by lia. specialize (Hr r Hrn).
    specialize (Hsum r Hrn). lia.
Qed.

(** A request that passes the guards of banker_request(). *)
Definition legal_request (k : kernel) (p : proc) (n : Z) (req : list Z) : Prop :=
  inited (banker k) = true ∧ n = Z.of_nat (nres (banker k)) ∧ bkr_active p = true ∧
  ∀ r, (r < nres (banker k))%nat →
    0 ≤ req !!! r ∧ req !!! r ≤ need p r ∧ req !!! r ≤ avail (banker k) !!! r.

Definition granted (i : nat) (req : list Z) (k : kernel) : kernel :=
  banker_move i (nres (banker k)) (λ r, req !!! r) k.

Lemma legal_request_inv k i p n req :
  banker_inv k → procs k !! i = Some p → legal_request k p n req →
  banker_inv (granted i req k).
Proof.
  intros Hinv Hp (Hin & _ & Ha & Hr). unfold granted.
  pose proof Hinv as (_ & Hla & H'). destruct (H' Hin) as (_ & Hent & _).
  destruct (Hent p) as (_ & _ & He); [by eapply list_elem_of_lookup_2|]. rewrite Ha in He.
  apply (banker_move_inv k i p); [done..|].
  intros r Hrn. specialize (Hr r Hrn). specialize (He r Hrn). unfold need in Hr. lia.
Qed.

Lemma banker_request_cases k i p n req :
  banker_inv k → procs k !! i = Some p →
  banker_request i n req k = Some (0, granted i req k) ∧
    legal_request k p n req ∧ is_safe (granted i req k) ∨
  banker_request i n req k = Some (-1, k) ∧
    ¬ (legal_request k p n req ∧ is_safe (granted i req k)).
Proof.
  intros Hinv Hp. unfold banker_request, get_proc.
  rewrite (list_lookup_total_correct _ _ _ Hp).
  destruct (inited (banker k)) eqn:Hin.
  2: { right. split; [by case_match|]. intros [[? _] _]. congruence. }
  pose proof Hinv as (_ & _ & H'). destruct (H' Hin) as (Hn & _ & _).
  destruct (bad_nres n) eqn:Hb.
  { right. split; [done|]. intros [(_ & -> & _) _]. apply not_false_iff_true in Hb.
    rewrite bad_nres_false in Hb. lia. }
  cbn [negb orb]. destruct (Z.eqb_spec n (Z.of_nat (nres (banker k)))) as [He|He].
  2: { right. split; [done|]. by intros [(_ & ? & _) _]. }
  cbn [negb orb]. destruct (bkr_active p) eqn:Ha.
  2: { right. split; [done|]. intros [(_ & _ & ? & _) _]. congruence. }
  cbn [negb]. destruct (vall _ _) eqn:Hv; cbn [negb].
  2: { right. split; [done|]. intros [(_ & _ & _ & Hr) _].
       apply not_true_iff_false in Hv. apply Hv, vall_true. intros r Hrn.
       specialize (Hr r Hrn). unfold need in Hr.
       rewrite !andb_true_iff, !Z.leb_le. lia. }
  assert (legal_request k p n req) as Hlegal.
  { split_and!; try done. intros r Hrn. rewrite vall_true in Hv. specialize (Hv r Hrn).
    bool_facts. done. }
  change (banker_move i (nres (banker k)) (λ r, req !!! r) k) with (granted i req k).
  destruct (banker_inv_safe_iff (granted i req k)) as (b & Hb' & Hiff);
    [by eapply legal_request_inv|done|].
  rewrite Hb'. cbn [mbind option_bind]. destruct b.
  - left. split_and!; try done. by apply Hiff.
  - right.
    assert (banker_move i (nres (banker k)) (λ r, - (req !!! r)) (granted i req k) = k) as ->
      by apply (banker_move_undo k i (nres (banker k)) (λ r, req !!! r)).
    split; [done|]. intros [_ Hs%Hiff]. done.
Qed.

(** ** Theorems *)

(** C31: banker_request(). It returns, it grants exactly the requests that are
    within the caller's claim, are available and lead to a safe state (one in
    which all claimants can finish one after the other), it then moves exactly
    the requested units, and a refused request leaves the whole kernel state as
    it was, the tentative allocation undone. *)
Theorem banker_request_grants_iff_safe k i p n req :
  banker_inv k → procs k !! i = Some p →
  ∃ r k', banker_request i n req k = Some (r, k') ∧
    (r = 0 ↔ legal_request k p n req ∧ is_safe (granted i req k)) ∧
    (r = 0 → k' = granted i req k) ∧ (r ≠ 0 → r = -1 ∧ k' = k).
Proof.
  intros Hinv Hp.
  destruct (banker_request_cases k i p n req Hinv Hp) as [(E & ? & ?)|(E & ?)];
    do 2 eexists; (split; [exact E|]); naive_solver.
Qed.

(** conservation. Every call of the banker interface, by any process and
    with any vectors, returns and keeps the invariant: for each resource the
    available units and the allocated ones add up to the total, no allocation
    exceeds its claim, and every quantity stays in the range of a C int; a call
    that fails changes nothing. *)
Theorem banker_calls_keep_inv c k :
  call_valid c → banker_inv k →
  ∃ r k', run_call c k = Some (r, k') ∧ banker_inv k' ∧ (r ≠ 0 → k' = k).
Proof.
  intros Hc Hinv. pose proof Hinv as (Hl & _).
  assert (∀ i, (i < NPROC)%nat → ∃ p, procs k !! i = Some p) as Hp.
  { intros i Hi. apply lookup_lt_is_Some_2. lia. }
  destruct c as [n v|i n v|i n v|i n v|i]; simpl in *.
  - destruct (banker_init_inv n v k Hc Hinv).
    eexists _, _. split; [by rewrite <-surjective_pairing|]. done.
  - destruct (Hp i Hc) as [p Hi]. destruct (banker_set_max_inv i n v k p Hi Hinv).
    eexists _, _. split; [by rewrite <-surjective_pairing|]. done.
  - destruct (Hp i Hc) as [p Hi].
    destruct (banker_request_cases k i p n v Hinv Hi) as [(E & Hlr & ?)|(E & ?)];
      do 2 eexists; (split; [exact E|]); [|done].
    split; [by eapply legal_request_inv|done].
  - destruct (Hp i Hc) as [p Hi]. destruct (banker_release_inv i n v k p Hi Hinv).
    eexists _, _. split; [by rewrite <-surjective_pairing|]. done.
  - destruct (Hp i Hc) as [p Hi]. do 2 eexists. split; [done|].
    split; [by eapply banker_exit_inv|done].
Qed.

(** ** Which calls keep a safe state safe *)









(** *** Concrete instances: one resource of 10 units, process 0 claims 8 and
    holds 4, process 1 claims 5 and holds 2. *)

#[local] Transparent BANKER_RES_MAX NPROC.

Definition vec1 (x : Z) : list Z := [x; 0; 0; 0; 0; 0; 0; 0].

Definition demo_claim (mx al : Z) : proc :=
  proc_zero <| state := RUNNABLE |> <| bkr_active := true |>
    <| bkr_max := vec1 mx |> <| bkr_alloc := vec1 al |>.

Definition demo_bank : kernel :=
  kernel_zero <| procs := [demo_claim 8 4; demo_claim 5 2] ++ replicate 62 proc_zero |>
    <| banker := mk_banker true 1 (vec1 10) (vec1 4) |>.

Lemma demo_bank_inv : banker_inv demo_bank.
Proof.
  split; [reflexivity|]. split; [reflexivity|]. intros _. split; [vm_compute; lia|]. split.
  - intros p [Hp|Hp]%elem_of_app.
    + rewrite !elem_of_cons, elem_of_nil in Hp. destruct Hp as [->|[->|[]]];
        (split_and!; [reflexivity..|]); intros [|r] Hr; simpl in Hr; [|lia| |lia];
        vm_compute; intuition congruence.
    + apply elem_of_replicate in Hp as [-> _]. split_and!; [reflexivity..|].
      intros [|r] Hr; simpl in Hr; [reflexivity|lia].
  - intros [|r] Hr; simpl in Hr; [|lia]. vm_compute. intuition congruence.
Qed.


Lemma banker_request_grants_iff_safe_witness :
  (∃ k', banker_request 0 1 (vec1 1) demo_bank = Some (0, k')) ∧
  banker_request 0 1 (vec1 4) demo_bank <> None.
Proof.
  destruct (banker_request_grants_iff_safe demo_bank 0 (demo_claim 8 4) 1 (vec1 1)
    demo_bank_inv eq_refl) as (r & k' & Hr & _).
  split; [|vm_compute; discriminate].
  exists k'. rewrite Hr. vm_compute in Hr. injection Hr as <- _. reflexivity.
Defined.

Lemma banker_calls_keep_inv_witness :
  ∃ r k', run_call (BRelease 0 1 (vec1 2)) demo_bank = Some (r, k') ∧ banker_inv k'.
Proof.
  destruct (banker_calls_keep_inv (BRelease 0 1 (vec1 2)) demo_bank) as (r & k' & ? & ? & _).
  - simpl. unfold NPROC. lia.
  - apply demo_bank_inv.
  - exists r, k'. split; assumption.
Defined.


(** A thread that held 4 of 10 units has been reaped by freethread(): its entry
    is UNUSED and still active, and the units stay with it. The state is safe, as
    nobody claims anything; process 1 claims 8 for the first time, within the
    total, and can never have them. *)
Definition demo_leak : kernel :=
  kernel_zero <| procs := [(demo_claim 4 4) <| state := UNUSED |>;
                           proc_zero <| state := RUNNABLE |>] ++ replicate 62 proc_zero |>
    <| banker := mk_banker true 1 (vec1 10) (vec1 6) |>.

Example leaked_units_break_safety :
  banker_is_safe_locked demo_leak = Some true ∧
  (banker_set_max 1 1 (vec1 8) demo_leak).1 = 0 ∧
  banker_is_safe_locked (banker_set_max 1 1 (vec1 8) demo_leak).2 = Some false.
Proof. vm_compute. auto. Qed.

(** A process that already holds resources may raise its claim with
    banker_set_max(), which makes no safety check: here process 1 holds 3 of 5
    units and claims 5, process 0 holds 2 and raises its claim from 2 to 5, and
    the safe state becomes one in which neither can finish. *)
Definition demo_tight : kernel :=
  kernel_zero <| procs := [demo_claim 2 2; demo_claim 5 3] ++ replicate 62 proc_zero |>
    <| banker := mk_banker true 1 (vec1 5) (vec1 0) |>.

Example banker_set_max_can_break_safety :
  banker_is_safe_locked demo_tight = Some true ∧
  (banker_set_max 0 1 (vec1 5) demo_tight).1 = 0 ∧
  banker_is_safe_locked (banker_set_max 0 1 (vec1 5) demo_tight).2 = Some false.
Proof. vm_compute. auto. Qed.
