(* ===== verification/MidSched.v ===== *)
(** * Medium-term scheduling (src/kernel/proc/proc.c, the midsched functions)

    Under memory pressure a process is suspended and its pages are written to
    swap; it is resumed when memory is free again. [midsched_suspend_one] gives
    up every lock while swapout_proc() writes the pages: it is cut there into
    [suspend_begin] and [suspend_end], which receives the number of pages
    swapped out. The amount of free memory and of cached swap pages that
    [midsched_maintain] reads are its arguments. *)

From S2P Require Import Prelude KState ProcSync.

Definition MIDSCHED_RESUME_MINFREE_PAGES : Z := 4096.
Definition MIDSCHED_SWAPBUF_TRIGGER : Z := 128.
Definition MIDSCHED_RESUME_FORCE_PAGES : Z := 8192.

(** [i] is the index of [p], [cur] that of the calling process. *)
Definition midsched_can_suspend (i : nat) (p : proc) (cur : option nat) : bool :=
  if negb (bool_decide (state p = RUNNABLE)) && negb (bool_decide (state p = SLEEPING))
  then false
  else if midsched_suspending p then false
  else if sz p =? 0 then false
  else if pid p <=? 1 then false
  else if bool_decide (cur = Some i) then false
  else if bool_decide (rt_policy p = SCHED_RT_LLF) then false
  else true.

Definition midsched_on (k : kernel) : bool := midsched_enabled k.

Section with_sched.
Context (mode : sched_conf).

Definition resume_proc (p : proc) : proc :=
  if bool_decide (state p = SUSPENDED) then mlfq_reset mode (p <| state := RUNNABLE |>)
  else if bool_decide (state p = SUSPENDED_SLEEP) then
    mlfq_reset mode
      (p <| state := if bool_decide (p_chan p = None) then RUNNABLE else SLEEPING |>)
  else p.

Definition midsched_resume_all (k : kernel) : kernel :=
  k <| procs := (λ p, (resume_proc p) <| midsched_suspending := false |>) <$> procs k |>.

Definition midsched_set (on : Z) (k : kernel) : Z * kernel :=
  let old := if midsched_enabled k then 1 else 0 in
  let k := k <| midsched_enabled := negb (on =? 0) |> in
  (old, if midsched_enabled k then k else midsched_resume_all k).

(** The victim: the first process of the largest size that can be suspended. *)
Definition victim_body (cur : option nat) (k : kernel) (st : option nat * Z) (i : nat)
    : option nat * Z :=
  let '(victim, maxsz) := st in
  let p := get_proc k i in
  if midsched_can_suspend i p cur then
    if maxsz <? sz p then (Some i, sz p) else (victim, maxsz)
  else (victim, maxsz).

Definition find_victim (cur : option nat) (k : kernel) : option nat :=
  fst (foldl (victim_body cur k) (None, 0) (seq 0 NPROC)).

Definition suspend_proc (p : proc) : proc :=
  let p := if bool_decide (state p = SLEEPING)
           then p <| state := SUSPENDED_SLEEP |> else p <| state := SUSPENDED |> in
  mlfq_reset mode (p <| midsched_suspending := true |>).

(** Up to the call of swapout_proc(); [None] is the return of 0 before it. *)
Definition suspend_begin (noff : Z) (cur : option nat) (k : kernel)
    : option (nat * procstate * kernel) :=
  if 0 <? noff then None
  else
    victim ← find_victim cur k;
    let p := get_proc k victim in
    if negb (midsched_can_suspend victim p cur) then None
    else Some (victim, state p, upd_proc victim suspend_proc k).

Definition unsuspend (prev : procstate) (p : proc) : proc :=
  if bool_decide (state p = SUSPENDED) || bool_decide (state p = SUSPENDED_SLEEP)
  then p <| state := prev |> else p.

(** After swapout_proc() has returned [swapped]. *)
Definition suspend_end (victim : nat) (prev : procstate) (swapped : Z) (k : kernel)
    : Z * kernel :=
  let k := upd_proc victim (λ p, p <| midsched_suspending := false |>) k in
  if swapped <=? 0 then (0, upd_proc victim (unsuspend prev) k)
  else (swapped, k <| midsched_last_suspend := ticks k |>).

Definition can_resume (p : proc) : bool :=
  (bool_decide (state p = SUSPENDED) || bool_decide (state p = SUSPENDED_SLEEP)) &&
  negb (midsched_suspending p).

Definition midsched_maybe_resume (k : kernel) : kernel :=
  match find_index can_resume (procs k) with
  | Some i => upd_proc i resume_proc k
  | None => k
  end.

(** [ticks - midsched_last_suspend] is a difference of unsigned ints. *)
Definition midsched_maintain (free cached : Z) (k : kernel) : kernel :=
  if negb (midsched_on k) then k
  else if u32 (ticks k - midsched_last_suspend k) <? MIDSCHED_HOLD_TICKS then k
  else if (MIDSCHED_RESUME_MINFREE_PAGES * PGSIZE <? free) &&
          ((cached <? MIDSCHED_SWAPBUF_TRIGGER / 2) ||
           (MIDSCHED_RESUME_FORCE_PAGES * PGSIZE <? free))
  then midsched_maybe_resume k
  else k.

(** ** Suspension is invisible to the rest of the kernel

    What the other components see of a process: whether it waits on a channel,
    is ready, runs or is gone. *)

Inductive view := VGone | VWaits (ch : option chan) | VReady | VRuns | VZombie.

Definition view_of (p : proc) : view :=
  match state p with
  | UNUSED => VGone
  | SLEEPING | SUSPENDED_SLEEP => VWaits (p_chan p)
  | RUNNABLE | SUSPENDED => VReady
  | RUNNING => VRuns
  | ZOMBIE => VZombie
  end.

(** wakeup() on the view. *)
Definition view_wake (ch : chan) (v : view) : view :=
  match v with
  | VWaits (Some ch') => if decide (ch' = ch) then VReady else v
  | _ => v
  end.

(** A sleeping process has a channel. *)
Definition has_chan (p : proc) : Prop :=
  state p = SLEEPING ∨ state p = SUSPENDED_SLEEP → p_chan p ≠ None.

Lemma mlfq_reset_view p : view_of (mlfq_reset mode p) = view_of p.
Proof. unfold mlfq_reset. by destruct mode. Qed.

Lemma wake_proc_view ch p : view_of (wake_proc mode ch p) = view_wake ch (view_of p).
Proof.
  unfold wake_proc, sleeping_on, susp_sleeping_on.
  destruct p as [s ? c]. unfold view_of; simpl.
  destruct s; simpl; try done; destruct c as [c|]; simpl; try done;
    destruct (decide (c = ch)) as [->|Hne];
    [rewrite bool_decide_eq_true_2 by done|rewrite bool_decide_eq_false_2 by congruence|
     rewrite bool_decide_eq_true_2 by done|rewrite bool_decide_eq_false_2 by congruence];
    simpl; try done; unfold mlfq_reset; by destruct mode.
Qed.

Lemma resume_proc_view p : has_chan p → view_of (resume_proc p) = view_of p.
Proof.
  unfold has_chan, resume_proc. destruct p as [s ? c]; simpl.
  destruct s; simpl; try done; intros Hc; rewrite mlfq_reset_view; try done.
  unfold view_of; simpl. destruct c; [done|]. destruct Hc; auto.
Qed.

Lemma suspend_proc_view p :
  state p = RUNNABLE ∨ state p = SLEEPING → view_of (suspend_proc p) = view_of p.
Proof.
  unfold suspend_proc. intros H. rewrite mlfq_reset_view. unfold view_of; simpl.
  destruct H as [-> | ->]; done.
Qed.

Lemma can_suspend_state i p cur :
  midsched_can_suspend i p cur = true →
  (state p = RUNNABLE ∨ state p = SLEEPING) ∧ 1 < pid p ∧ cur ≠ Some i ∧
  rt_policy p ≠ SCHED_RT_LLF ∧ midsched_suspending p = false.
Proof.
  unfold midsched_can_suspend. intros H. case_tests.
  apply andb_false_iff in H0 as [?|?]; bool_facts; split_and!; auto; lia.
Qed.
End with_sched.

(** ** The table *)

Definition views (k : kernel) : list view := view_of <$> procs k.

Lemma views_upd k i f p :
  procs k !! i = Some p → view_of (f p) = view_of p → views (upd_proc i f k) = views k.
Proof.
  intros Hp Hv. unfold views, upd_proc; simpl. apply list_eq. intros j.
  rewrite !list_lookup_fmap. destruct (decide (i = j)) as [<-|Hij].
  - rewrite list_lookup_alter_eq, Hp. simpl. by rewrite Hv.
  - by rewrite list_lookup_alter_ne.
Qed.

Lemma views_map k f :
  (∀ p, p ∈ procs k → view_of (f p) = view_of p) →
  views (k <| procs := f <$> procs k |>) = views k.
Proof.
  intros Hf. unfold views; simpl. rewrite <-list_fmap_compose.
  apply list_fmap_ext. intros i p Hp. apply Hf. by eapply list_elem_of_lookup_2.
Qed.

Lemma maybe_resume_views mode k :
  Forall has_chan (procs k) → views (midsched_maybe_resume mode k) = views k.
Proof.
  intros Hch. unfold midsched_maybe_resume.
  destruct (find_index _ _) as [i|] eqn:E; [|done].
  apply find_index_Some in E as [(p & Hp & _) _].
  apply (views_upd _ _ _ p); [done|]. apply resume_proc_view.
  rewrite Forall_lookup in Hch. by eapply Hch.
Qed.

Lemma resume_all_views mode k :
  Forall has_chan (procs k) → views (midsched_resume_all mode k) = views k.
Proof.
  intros Hch. apply views_map. intros p Hp. rewrite Forall_forall in Hch.
  transitivity (view_of (resume_proc mode p)); [done|]. apply resume_proc_view. by apply Hch.
Qed.

Lemma suspend_begin_spec mode noff cur k victim prev k' :
  suspend_begin mode noff cur k = Some (victim, prev, k') →
  ∃ p, p = get_proc k victim ∧ midsched_can_suspend victim p cur = true ∧
    prev = state p ∧ k' = upd_proc victim (suspend_proc mode) k.
Proof.
  unfold suspend_begin. destruct (0 <? noff); [done|].
  destruct (find_victim cur k) as [v|] eqn:E; cbn [mbind option_bind]; [|done].
  destruct (midsched_can_suspend v (get_proc k v) cur) eqn:Hc; [|done].
  intros [= <- <- <-]. eauto.
Qed.

Lemma get_proc_in_range k i cur :
  midsched_can_suspend i (get_proc k i) cur = true → procs k !! i = Some (get_proc k i).
Proof.
  intros (_ & Hpid & _)%can_suspend_state. unfold get_proc in *.
  rewrite list_lookup_total_alt in *. destruct (procs k !! i); [done|].
  simpl in Hpid. lia.
Qed.

Lemma suspend_roundtrip mode p prev :
  prev = state p → state p = RUNNABLE ∨ state p = SLEEPING →
  view_of (unsuspend prev ((suspend_proc mode p) <| midsched_suspending := false |>))
    = view_of p.
Proof.
  intros -> H. unfold suspend_proc, unsuspend, mlfq_reset. destruct p as [s]; simpl in *.
  destruct H as [-> | ->], mode; done.
Qed.

(** What the second half of a suspension does to the victim's entry. *)
Definition end_proc (prev : procstate) (swapped : Z) (p : proc) : proc :=
  let p := p <| midsched_suspending := false |> in
  if swapped <=? 0 then unsuspend prev p else p.

Lemma suspend_end_procs victim prev swapped k :
  procs (suspend_end victim prev swapped k).2 = alter (end_proc prev swapped) victim (procs k).
Proof.
  unfold suspend_end, end_proc, upd_proc. destruct (swapped <=? 0); simpl; [|done].
  by rewrite list_alter_alter.
Qed.

(** The victim's view at the end: a victim that slept when it was suspended and
    was woken since waits again, and one that was ready when it was suspended
    and sleeps now is ready. *)
Definition end_view (prev : procstate) (swapped : Z) (p : proc) : view :=
  if 0 <? swapped then view_of p
  else match prev, state p with
       | SLEEPING, SUSPENDED => VWaits (p_chan p)
       | RUNNABLE, SUSPENDED_SLEEP => VReady
       | _, _ => view_of p
       end.

Lemma end_proc_view prev swapped p :
  prev = RUNNABLE ∨ prev = SLEEPING → view_of (end_proc prev swapped p) = end_view prev swapped p.
Proof.
  intros Hprev. unfold end_proc, end_view, unsuspend. rewrite Z.ltb_antisym.
  destruct (swapped <=? 0); [|done]. cbn [negb]. destruct p as [s]; simpl.
  destruct Hprev as [-> | ->], s; done.
Qed.

(** The scan for the victim keeps the first largest candidate. *)
Lemma find_victim_spec cur k :
  first_min (λ i, midsched_can_suspend i (get_proc k i) cur = true ∧ 0 < sz (get_proc k i))
    (λ i, - sz (get_proc k i)) NPROC (find_victim cur k).
Proof.
  unfold find_victim.
  set (ok := λ i, midsched_can_suspend i (get_proc k i) cur = true ∧ 0 < sz (get_proc k i)).
  set (key := λ i, - sz (get_proc k i)).
  assert (∀ n, (λ n st, first_min ok key n st.1 ∧
    match st.1 with Some b => st.2 = sz (get_proc k b) | None => st.2 = 0 end) n
      (foldl (victim_body cur k) (None, 0) (seq 0 n))) as H; [|apply H].
  intros n. apply foldl_seq_ind; [split; [|done]; simpl; lia|].
  intros i [victim maxsz] _. simpl. intros [Hmin Hmax].
  destruct (midsched_can_suspend i (get_proc k i) cur) eqn:Hc; simpl.
  2: { split; [|done]. apply (first_min_skip Hmin). unfold ok. rewrite Hc. naive_solver. }
  destruct (Z.ltb_spec maxsz (sz (get_proc k i))) as [Hlt|Hge]; simpl.
  - assert (0 ≤ maxsz ∨ maxsz < 0) as [?|?] by lia.
    + split; [|done]. apply (first_min_take Hmin).
      * split; [done|lia].
      * intros b ->. unfold key. lia.
    + destruct victim as [b|]; [|lia]. destruct Hmin as (_ & (_ & ?) & _). lia.
  - split; [|done]. destruct victim as [b|].
    + apply (first_min_keep b eq_refl Hmin). unfold key. lia.
    + apply (first_min_skip Hmin). unfold ok. lia.
Qed.

(** ** Theorems *)

(** C32: what suspension changes of the processes' views (who waits on which
    channel, who is ready, who runs), in a table whose sleeping processes have a
    channel. Suspending the victim, resuming one process, resuming all of them
    and the periodic maintenance change no view, and wakeup() acts on the views
    of suspended processes as on the others. The end of a suspension, in
    whatever state the other processes left the table while swapout_proc() ran,
    changes no view either, except that of the victim in two cases where nothing
    was swapped: woken since, it waits again (a lost wakeup); ready when it was
    suspended and asleep now, it becomes ready. When nothing ran in between, the
    victim has the view it had before it was suspended. *)
Theorem midsched_transparent mode k :
  Forall has_chan (procs k) →
  (∀ noff cur victim prev k', suspend_begin mode noff cur k = Some (victim, prev, k') →
     views k' = views k ∧
     (∀ swapped, views (suspend_end victim prev swapped k').2 = views k) ∧
     ∀ swapped k1 p1, procs k1 !! victim = Some p1 →
       views (suspend_end victim prev swapped k1).2 =
         <[victim := end_view prev swapped p1]> (views k1)) ∧
  (∀ on, views (midsched_set mode on k).2 = views k) ∧
  (∀ free cached, views (midsched_maintain mode free cached k) = views k) ∧
  (∀ ch, views (wakeup mode ch k) = view_wake ch <$> views k).
Proof.
  intros Hch. split_and!.
  - intros noff cur victim prev k' (p & -> & Hc & -> & ->)%suspend_begin_spec.
    pose proof (get_proc_in_range _ _ _ Hc) as Hp.
    destruct (can_suspend_state _ _ _ Hc) as (Hst & _). set (p := get_proc k victim) in *.
    split_and!; [apply (views_upd _ _ _ p); [done|by apply suspend_proc_view]|..].
    + intros swapped. unfold views. rewrite suspend_end_procs. unfold upd_proc. simpl.
      rewrite list_alter_alter. apply (views_upd k victim _ p); [done|]. simpl.
      unfold end_proc. destruct (swapped <=? 0); [by apply suspend_roundtrip|].
      by apply suspend_proc_view.
    + intros swapped k1 p1 Hp1. unfold views. rewrite suspend_end_procs.
      rewrite (list_alter_insert _ _ _ _ Hp1), list_fmap_insert. by rewrite end_proc_view.
  - intros on. unfold midsched_set. simpl.
    destruct (negb (on =? 0)); simpl; [done|]. apply (resume_all_views mode k Hch).
  - intros free cached. unfold midsched_maintain. repeat case_match; try done.
    by apply maybe_resume_views.
  - intros ch. unfold views, wakeup; simpl. rewrite <-!list_fmap_compose.
    apply list_fmap_ext. intros i p _. simpl. apply wake_proc_view.
Qed.

(** the choice of the victim. midsched_suspend_one() takes the first process
    of the largest size among those that can be suspended, never init, never the
    caller, never a real-time process; switching the mechanism off leaves no
    process suspended. *)
Theorem midsched_victim mode k :
  (∀ noff cur victim prev k', suspend_begin mode noff cur k = Some (victim, prev, k') →
     first_min (λ i, midsched_can_suspend i (get_proc k i) cur = true ∧ 0 < sz (get_proc k i))
       (λ i, - sz (get_proc k i)) NPROC (Some victim) ∧
     1 < pid (get_proc k victim) ∧ cur ≠ Some victim ∧
     rt_policy (get_proc k victim) ≠ SCHED_RT_LLF) ∧
  (∀ p, p ∈ procs (midsched_set mode 0 k).2 →
     state p ≠ SUSPENDED ∧ state p ≠ SUSPENDED_SLEEP ∧ midsched_suspending p = false).
Proof.
  split.
  - intros noff cur victim prev k' H.
    pose proof H as (p & -> & Hc & _)%suspend_begin_spec.
    split; [|destruct (can_suspend_state _ _ _ Hc) as (_&?&?&?&_); done].
    unfold suspend_begin in H. destruct (0 <? noff); [done|].
    destruct (find_victim cur k) as [v|] eqn:E; cbn [mbind option_bind] in H; [|done].
    pose proof (find_victim_spec cur k) as Hs. rewrite E in Hs.
    case_match; [done|]. by simplify_eq.
  - intros p (q & -> & _)%list_elem_of_fmap. unfold resume_proc, mlfq_reset.
    destruct q as [s ? c]; simpl. destruct s, mode; simpl; try done; by destruct c.
Qed.

(** *** Concrete instances: process 2 of [demo_mid] sleeps on a semaphore and is
    the larger of the two candidates; process 1 is the caller. *)

Definition demo_mid : kernel :=
  kernel_zero <| ticks := 7 |> <| procs :=
    [proc_zero <| state := SLEEPING |> <| pid := 1 |> <| sz := 9000 |> <| p_chan := Some (ChProc 0) |>;
     proc_zero <| state := RUNNING |> <| pid := 5 |> <| sz := 90000 |>;
     proc_zero <| state := SLEEPING |> <| pid := 9 |> <| sz := 8192 |> <| p_chan := Some (ChSem 3) |>;
     proc_zero <| state := RUNNABLE |> <| pid := 7 |> <| sz := 4096 |>] ++ replicate 60 proc_zero |>.

Lemma demo_mid_chan : Forall has_chan (procs demo_mid).
Proof.
  apply Forall_app. split; [repeat constructor; by intros [?|?]|].
  apply Forall_replicate. by intros [?|?].
Qed.

Lemma midsched_transparent_witness :
  ∃ k', suspend_begin SCHED_MLFQ 0 (Some 1%nat) demo_mid = Some (2%nat, SLEEPING, k') ∧
    views (suspend_end 2 SLEEPING 0 k').2 = views demo_mid.
Proof.
  eexists. split; [vm_compute; reflexivity|].
  refine (proj1 (proj2 (proj1 (midsched_transparent SCHED_MLFQ demo_mid demo_mid_chan)
    0 (Some 1%nat) 2%nat SLEEPING _ _)) 0). vm_compute. reflexivity.
Defined.

Lemma midsched_victim_witness :
  ∃ k', suspend_begin SCHED_MLFQ 0 (Some 1%nat) demo_mid = Some (2%nat, SLEEPING, k') ∧
    1 < pid (get_proc demo_mid 2).
Proof.
  eexists. split; [vm_compute; reflexivity|].
  refine (proj1 (proj2 (proj1 (midsched_victim SCHED_MLFQ demo_mid)
    0 (Some 1%nat) 2%nat SLEEPING _ _))). vm_compute. reflexivity.
Defined.

(** A wakeup() that falls between the two halves of midsched_suspend_one() is
    lost when swapout_proc() swapped nothing: the victim is put back to SLEEPING
    although its channel has been signalled. *)
Example suspend_loses_wakeup :
  ∃ victim prev k', suspend_begin SCHED_MLFQ 0 (Some 1%nat) demo_mid = Some (victim, prev, k') ∧
    views (wakeup SCHED_MLFQ (ChSem 3) k') !! victim = Some VReady ∧
    views (suspend_end victim prev 0 (wakeup SCHED_MLFQ (ChSem 3) k')).2 !! victim
      = Some (VWaits (Some (ChSem 3))).
Proof. do 3 eexists. split; [vm_compute; reflexivity|]. vm_compute. auto. Qed.
