(* ===== verification/Sched.v ===== *)
(** * The CPU scheduler (src/kernel/proc/proc.c, src/kernel/interrupt/trap.c)

    [make SCHED=MLFQ] builds a multi-level feedback queue, [SCHED=DYNPRIO] a
    priority scheduler with aging; both run ready real-time processes first.
    [scheduler_round] is one turn of the loop of scheduler() up to its swtch():
    the process it switches to is the one returned. [timer_yield] is the
    decision of usertrap() and kerneltrap() on a timer interrupt. *)

From S2P Require Import Prelude KState ProcSync RtSched MidSched.

Definition MLFQ_BOOST_TICKS : Z := 200.

(** ** Levels *)

Definition clamp_level (l : Z) : Z :=
  let l := if l <? 0 then 0 else l in
  if MLFQ_LEVELS <=? l then MLFQ_LEVELS - 1 else l.

Definition setPriority (mode : sched_conf) (pid0 prio : Z) (k : kernel) : Z * kernel :=
  let prio := if prio <? 0 then 0 else prio in
  let prio := if 20 <? prio then 20 else prio in
  match find_index (λ p, pid p =? pid0) (procs k) with
  | Some i =>
      (0, upd_proc i (λ p,
        let p := p <| priority := prio |> in
        match mode with
        | SCHED_MLFQ =>
            p <| mlfq_level := clamp_level ((MLFQ_LEVELS - 1) - prio * MLFQ_LEVELS / 21) |>
              <| mlfq_ticks := 0 |>
        | SCHED_DYNPRIO => p <| dyn_priority := prio |>
        end) k)
  | None => (-1, k)
  end.

(** The tick of the running process [p]: whether its slice is over. *)
Definition mlfq_tick_proc (p : proc) : bool * proc :=
  let p := p <| mlfq_level := clamp_level (mlfq_level p) |> in
  let p := p <| mlfq_ticks := mlfq_ticks p + 1 |> in
  if mlfq_time_slice (mlfq_level p) <=? mlfq_ticks p then
    let p := if mlfq_level p <? MLFQ_LEVELS - 1
             then p <| mlfq_level := mlfq_level p + 1 |> else p in
    (true, p <| mlfq_ticks := 0 |>)
  else (false, p).

Definition mlfq_tick (cur : option nat) (k : kernel) : Z * kernel :=
  match cur with
  | None => (0, k)
  | Some i =>
      let p := get_proc k i in
      if negb (bool_decide (state p = RUNNING)) then (0, k)
      else
        let '(expired, p') := mlfq_tick_proc p in
        (if expired then 1 else 0, upd_proc i (λ _, p') k)
  end.

Definition boost_proc (p : proc) : proc :=
  if bool_decide (state p = UNUSED) then p
  else p <| mlfq_level := 0 |> <| mlfq_ticks := 0 |>.

Definition mlfq_boost (now : Z) (k : kernel) : kernel :=
  if now =? last_boost k then k
  else k <| last_boost := now |> <| procs := boost_proc <$> procs k |>.

Definition clockintr (mode : sched_conf) (k : kernel) : kernel :=
  let k := k <| ticks := u32 (ticks k + 1) |> in
  let now := ticks k in
  let k := wakeup mode ChTicks k in
  match mode with
  | SCHED_MLFQ => if now `mod` MLFQ_BOOST_TICKS =? 0 then mlfq_boost now k else k
  | SCHED_DYNPRIO => k
  end.

(** yield() up to sched(). *)
Definition yield (i : nat) (k : kernel) : kernel :=
  upd_proc i (λ p, p <| mlfq_ticks := 0 |> <| state := RUNNABLE |>) k.

(** Whether a timer interrupt takes the hart from the current process. *)
Definition timer_yield (mode : sched_conf) (cur : option nat) (k : kernel)
    : option (bool * kernel) :=
  '(r, k) ← rt_tick cur k;
  if negb (r =? 0) then Some (true, k)
  else
    '(r, k) ← rt_should_preempt cur k;
    Some (if negb (r =? 0) then (true, k)
          else match mode with
               | SCHED_MLFQ => let '(r, k) := mlfq_tick cur k in (negb (r =? 0), k)
               | SCHED_DYNPRIO => (true, k)
               end).

(** ** The feedback queue *)

Definition runnable_at (level : Z) (p : proc) : bool :=
  bool_decide (state p = RUNNABLE) && (mlfq_level p =? level) &&
  bool_decide (rt_policy p = SCHED_NORMAL).

(** The level clamped to its range, as the scan writes it back. *)
Definition clamped (p : proc) : proc := p <| mlfq_level := clamp_level (mlfq_level p) |>.

(** One turn of the inner loop, with the lock of the candidate held. It reads
    mlfq_rr_next[level] anew in every turn, and writes it when it takes the
    candidate. *)
Definition mlfq_probe (level i : nat) (k : kernel) : kernel * option nat :=
  let idx := ((mlfq_rr_next k !!! level + i) `mod` NPROC)%nat in
  let k := upd_proc idx clamped k in
  if runnable_at (Z.of_nat level) (get_proc k idx)
  then (k <| mlfq_rr_next := <[level := ((idx + 1) `mod` NPROC)%nat]> (mlfq_rr_next k) |>, Some idx)
  else (k, None).

(** The inner loop over the values [cs] of its counter, with its break. *)
Fixpoint scan_level (level : nat) (cs : list nat) (k : kernel) : kernel * option nat :=
  match cs with
  | [] => (k, None)
  | i :: cs =>
      match mlfq_probe level i k with
      | (k, Some idx) => (k, Some idx)
      | (k, None) => scan_level level cs k
      end
  end.

(** The outer loop over the levels, with its break. *)
Fixpoint scan_levels (levels : list nat) (k : kernel) : kernel * option nat :=
  match levels with
  | [] => (k, None)
  | level :: levels =>
      match scan_level level (seq 0 NPROC) k with
      | (k, Some idx) => (k, Some idx)
      | (k, None) => scan_levels levels k
      end
  end.

(** The scan of a hart that no other hart interrupts. Its locks are dropped
    between two probes; [scans] below is the scan with anything in between. *)
Definition mlfq_pick (k : kernel) : kernel * option nat :=
  scan_levels (seq 0 (Z.to_nat MLFQ_LEVELS)) k.

(** The scan from the level [level] and the counter [i] on, with steps [env] of
    the rest of the kernel before every probe: it takes the process [b] at the
    level [l]. *)
Inductive scans (env : kernel → kernel → Prop) :
    nat → nat → kernel → nat → nat → kernel → Prop :=
  | sc_found level i k k1 k2 b :
      env k k1 → mlfq_probe level i k1 = (k2, Some b) → scans env level i k level b k2
  | sc_next level i k k1 k2 l b k3 :
      env k k1 → mlfq_probe level i k1 = (k2, None) → (S i < NPROC)%nat →
      scans env level (S i) k2 l b k3 → scans env level i k l b k3
  | sc_level level i k k1 k2 l b k3 :
      env k k1 → mlfq_probe level i k1 = (k2, None) → S i = NPROC →
      (S level < Z.to_nat MLFQ_LEVELS)%nat →
      scans env (S level) 0 k2 l b k3 → scans env level i k l b k3.

(** ** Dynamic priorities *)

Definition pi_effective_base (p : proc) : Z :=
  let base := priority p in
  let base := if base <? pi_boost p then pi_boost p else base in
  let base := if base <? 0 then 0 else base in
  if 20 <? base then 20 else base.

(** One process that waits in the loop of scheduler(). C division truncates. *)
Definition age_proc (p : proc) : proc :=
  let p := p <| wait_time := wait_time p + 1 |> in
  let d := pi_effective_base p + wait_time p ÷ 5 - cpu_time p ÷ 5 in
  let d := if d <? 0 then 0 else d in
  let d := if 20 <? d then 20 else d in
  p <| dyn_priority := d |>.

Definition dyn_candidate (p : proc) : bool :=
  bool_decide (state p = RUNNABLE) && bool_decide (rt_policy p = SCHED_NORMAL).

Record dyn_scan := mk_dyn { ds_procs : list proc; pmax : option nat; priority_max : Z }.

Definition dyn_body (s : dyn_scan) (i : nat) : dyn_scan :=
  let p := ds_procs s !!! i in
  if dyn_candidate p then
    let p := age_proc p in
    let ps := <[i := p]> (ds_procs s) in
    if priority_max s <? dyn_priority p then mk_dyn ps (Some i) (dyn_priority p)
    else mk_dyn ps (pmax s) (priority_max s)
  else s.

Definition dyn_pick (k : kernel) : kernel * option nat :=
  let s := foldl dyn_body (mk_dyn (procs k) None (-1)) (seq 0 NPROC) in
  (k <| procs := ds_procs s |>, pmax s).

(** ** One turn of scheduler() *)

Definition scheduler_round (mode : sched_conf) (free cached : Z) (k : kernel)
    : option (kernel * option nat) :=
  let k := midsched_maintain mode free cached k in
  '(k, rt) ← rt_pick (ticks k) k;
  Some (match mode, rt with
  | SCHED_MLFQ, Some i =>
      (upd_proc i (λ p, p <| state := RUNNING |> <| mlfq_ticks := 0 |>) k, Some i)
  | SCHED_DYNPRIO, Some i => (upd_proc i (λ p, p <| state := RUNNING |>) k, Some i)
  | SCHED_MLFQ, None =>
      let '(k, found) := mlfq_pick k in
      match found with
      | Some i => (upd_proc i (λ p, p <| state := RUNNING |> <| mlfq_ticks := 0 |>) k, Some i)
      | None => (k, None)
      end
  | SCHED_DYNPRIO, None =>
      let '(k, found) := dyn_pick k in
      match found with
      | Some i =>
          if bool_decide (state (get_proc k i) = RUNNABLE) then
            (upd_proc i (λ p, p <| state := RUNNING |> <| wait_time := 0 |>
                                <| cpu_time := cpu_time p + 1 |>) k, Some i)
          else (k, None)
      | None => (k, None)
      end
  end).

(** ** Levels are clamped when they are read

    The scan writes clamped levels back; two tables are the same up to that. *)

Definition waits_at (level : Z) (p : proc) : bool := runnable_at level (clamped p).

Definition level_equiv (ps ps' : list proc) : Prop := clamped <$> ps = clamped <$> ps'.

#[export] Instance level_equiv_equivalence : Equivalence level_equiv.
Proof. split; red; unfold level_equiv; congruence. Qed.

Lemma clamp_level_range l : 0 ≤ clamp_level l < MLFQ_LEVELS.
Proof. unfold clamp_level, MLFQ_LEVELS. repeat case_match; bool_facts; lia. Qed.

Lemma clamp_level_id l : 0 ≤ l < MLFQ_LEVELS → clamp_level l = l.
Proof. unfold clamp_level, MLFQ_LEVELS. intros ?. repeat case_match; bool_facts; lia. Qed.

Lemma clamped_idem p : clamped (clamped p) = clamped p.
Proof.
  unfold clamped. destruct p; unfold upd, mlfq_level_set; simpl.
  by rewrite clamp_level_id by apply clamp_level_range.
Qed.

Lemma level_equiv_lookup ps ps' i :
  level_equiv ps ps' → clamped (ps !!! i) = clamped (ps' !!! i).
Proof.
  intros H. rewrite !list_lookup_total_alt.
  assert (clamped <$> ps !! i = clamped <$> ps' !! i) as Hi
    by (rewrite <-!list_lookup_fmap; by rewrite H).
  destruct (ps !! i), (ps' !! i); simpl in *; congruence.
Qed.

Lemma level_equiv_alter ps i : level_equiv (alter clamped i ps) ps.
Proof.
  apply list_eq. intros j. rewrite !list_lookup_fmap.
  destruct (decide (i = j)) as [<-|Hne]; [|by rewrite list_lookup_alter_ne].
  rewrite list_lookup_alter_eq. destruct (ps !! i) as [p|]; [|done]. simpl.
  by rewrite clamped_idem.
Qed.

#[export] Instance waits_at_proper level i :
  Proper (level_equiv ==> eq) (λ ps, waits_at level (ps !!! i)).
Proof. intros ps ps' H. unfold waits_at. by rewrite (level_equiv_lookup _ _ i H). Qed.

Lemma waits_at_equiv level ps ps' i :
  level_equiv ps ps' → waits_at level (ps !!! i) = waits_at level (ps' !!! i).
Proof. intros H. by apply (waits_at_proper level i). Qed.

(** (mlfq_rr_next[level] + i) % NPROC for the values [cs] of the counter *)
Definition rr_indices (next : nat) (cs : list nat) : list nat :=
  (λ i, (next + i) `mod` NPROC)%nat <$> cs.

(** What one probe does: the candidate's level is clamped; if it waits at the
    level it is taken and the position moves past it. *)
Lemma mlfq_probe_spec level i k :
  let idx := ((mlfq_rr_next k !!! level + i) `mod` NPROC)%nat in
  let '(k', found) := mlfq_probe level i k in
  level_equiv (procs k') (procs k) ∧
  if waits_at (Z.of_nat level) (procs k !!! idx) then
    found = Some idx ∧ k' = k <| procs := procs k' |> <| mlfq_rr_next :=
      <[level := ((idx + 1) `mod` NPROC)%nat]> (mlfq_rr_next k) |>
  else found = None ∧ k' = k <| procs := procs k' |>.
Proof.
  cbv zeta. unfold mlfq_probe. set (idx := ((_ + i) `mod` NPROC)%nat).
  assert (runnable_at (Z.of_nat level) (get_proc (upd_proc idx clamped k) idx) =
    waits_at (Z.of_nat level) (procs k !!! idx)) as ->.
  { unfold waits_at. f_equal. unfold get_proc, upd_proc; simpl.
    rewrite !list_lookup_total_alt, list_lookup_alter_eq. by destruct (procs k !! idx). }
  destruct (waits_at _ _); (split; [apply level_equiv_alter|]); (split; [done|]); by destruct k.
Qed.

(** The scan of a level returns the first waiting index of its order. *)
Lemma scan_level_spec level cs k :
  let idxs := rr_indices (mlfq_rr_next k !!! level) cs in
  let '(k', found) := scan_level level cs k in
  level_equiv (procs k') (procs k) ∧
  found = find_index (λ i, waits_at (Z.of_nat level) (procs k !!! i)) idxs ≫= (idxs !!.) ∧
  k' = k <| procs := procs k' |> <| mlfq_rr_next :=
    match found with
    | Some b => <[level := ((b + 1) `mod` NPROC)%nat]> (mlfq_rr_next k)
    | None => mlfq_rr_next k
    end |>.
Proof.
  revert k. induction cs as [|i cs IH]; intros k; cbv zeta.
  { cbn. split; [done|]. split; [done|]. by destruct k. }
  cbn [scan_level rr_indices fmap list_fmap find_index].
  pose proof (mlfq_probe_spec level i k) as Hp. cbv zeta in Hp.
  set (idx := ((_ + i) `mod` NPROC)%nat) in *.
  destruct (mlfq_probe level i k) as [k1 f]. destruct Hp as [Heq Hp].
  destruct (waits_at (Z.of_nat level) (procs k !!! idx)) eqn:E; destruct Hp as [-> Hk1].
  { split; [done|]. split; [done|]. exact Hk1. }
  specialize (IH k1). cbv zeta in IH.
  assert (mlfq_rr_next k1 = mlfq_rr_next k) as Hrr by (by rewrite Hk1).
  rewrite Hrr in IH. destruct (scan_level level cs k1) as [k2 found].
  destruct IH as (IH1 & IH2 & IH3). split; [by rewrite IH1|]. split.
  - rewrite IH2. fold (rr_indices (mlfq_rr_next k !!! level) cs).
    assert (find_index (λ i, waits_at (Z.of_nat level) (procs k1 !!! i))
              (rr_indices (mlfq_rr_next k !!! level) cs) =
            find_index (λ i, waits_at (Z.of_nat level) (procs k !!! i))
              (rr_indices (mlfq_rr_next k !!! level) cs)) as ->.
    { clear -Heq. induction (rr_indices _ _) as [|j idxs IH]; [done|]. cbn [find_index].
      rewrite IH. by rewrite (waits_at_equiv _ _ (procs k)). }
    fold (rr_indices (mlfq_rr_next k !!! level) cs).
    destruct (find_index (λ i, waits_at (Z.of_nat level) (procs k !!! i))
                (rr_indices (mlfq_rr_next k !!! level) cs)); reflexivity.
  - rewrite IH3, Hk1. by destruct k.
Qed.

(** ** The round-robin order *)

(** The order of a whole scan. *)
Definition rr_order (next : nat) : list nat := rr_indices next (seq 0 NPROC).

(** How far [i] is behind [next] in the cyclic order of the table. *)
Definition dist (next i : nat) : nat := ((i + NPROC - next) `mod` NPROC)%nat.

Lemma dist_lt next i : (dist next i < NPROC)%nat.
Proof. apply Nat.mod_upper_bound. done. Qed.

Lemma dist_cases next i :
  (next < NPROC)%nat → (i < NPROC)%nat →
  dist next i = (if decide (next ≤ i) then i - next else i + NPROC - next)%nat.
Proof.
  intros Hn Hi. unfold dist. case_decide.
  - replace (i + NPROC - next)%nat with ((i - next) + 1 * NPROC)%nat by lia.
    rewrite Nat.Div0.mod_add, Nat.mod_small by lia. lia.
  - rewrite Nat.mod_small by lia. done.
Qed.

Lemma mod_NPROC_cases m :
  (m < 2 * NPROC)%nat → (m `mod` NPROC = if decide (m < NPROC) then m else m - NPROC)%nat.
Proof.
  intros Hm. case_decide.
  - by rewrite Nat.mod_small.
  - replace m with ((m - NPROC) + 1 * NPROC)%nat at 1 by lia.
    rewrite Nat.Div0.mod_add, Nat.mod_small by lia. lia.
Qed.

Lemma rr_order_lookup next j i :
  (next < NPROC)%nat → rr_order next !! j = Some i ↔ (i < NPROC)%nat ∧ dist next i = j.
Proof.
  intros Hn. unfold rr_order, rr_indices. rewrite list_lookup_fmap_Some. split.
  - intros (x & -> & [-> Hj]%lookup_seq). rewrite Nat.add_0_l in *.
    assert (((next + j) `mod` NPROC < NPROC)%nat) by (apply Nat.mod_upper_bound; done).
    split; [done|]. rewrite dist_cases by done. rewrite mod_NPROC_cases by lia.
    repeat case_decide; lia.
  - intros [Hi Hd]. exists j. pose proof (dist_lt next i) as Hlt.
    assert (j < NPROC)%nat by lia. split.
    + rewrite dist_cases in Hd by done. rewrite mod_NPROC_cases by lia.
      repeat case_decide; lia.
    + apply lookup_seq. lia.
Qed.

(** The index found is the nearest waiting one, none when no process waits. *)
Definition nearest (ok : nat → bool) (next : nat) (found : option nat) : Prop :=
  match found with
  | None => ∀ i, (i < NPROC)%nat → ok i = false
  | Some b => (b < NPROC)%nat ∧ ok b = true ∧
      ∀ i, (i < NPROC)%nat → ok i = true → (dist next b ≤ dist next i)%nat
  end.

Lemma rr_scan_nearest ok next :
  (next < NPROC)%nat →
  nearest ok next (find_index ok (rr_order next) ≫= (rr_order next !!.)).
Proof.
  intros Hn. destruct (find_index ok (rr_order next)) as [j|] eqn:E; cbn [mbind option_bind].
  - apply find_index_Some in E as [(b & Hb & Hok) Hmin]. rewrite Hb.
    pose proof Hb as [Hlt Hd]%rr_order_lookup; [|done]. split_and!; try done.
    intros i Hi Hoki. rewrite Hd. destruct (decide (j ≤ dist next i)%nat) as [|Hgt]; [done|].
    rewrite (Hmin (dist next i) i) in Hoki; [done|lia|]. by apply rr_order_lookup.
  - intros i Hi. apply (find_index_None _ _ E). apply list_elem_of_lookup.
    exists (dist next i). by apply rr_order_lookup.
Qed.

(** Passing over [b] brings the start of the next scan closer to [i]. *)
Lemma dist_step next b i :
  (next < NPROC)%nat → (b < NPROC)%nat → (i < NPROC)%nat → b ≠ i →
  (dist next b ≤ dist next i)%nat →
  (dist ((b + 1) `mod` NPROC) i < dist next i)%nat.
Proof.
  intros Hn Hb Hi Hne. rewrite !(dist_cases next) by done.
  assert (((b + 1) `mod` NPROC < NPROC)%nat) by (apply Nat.mod_upper_bound; done).
  rewrite dist_cases by done. rewrite mod_NPROC_cases by lia.
  repeat case_decide; lia.
Qed.

(** ** mlfq_pick *)

(** A process the feedback queue may run, and its level. *)
Definition normal_ready (p : proc) : bool :=
  bool_decide (state p = RUNNABLE) && bool_decide (rt_policy p = SCHED_NORMAL).

Definition level_of (p : proc) : Z := clamp_level (mlfq_level p).

Lemma level_of_range p : 0 ≤ level_of p < MLFQ_LEVELS.
Proof. apply clamp_level_range. Qed.

Lemma waits_at_iff level p :
  waits_at level p = true ↔ normal_ready p = true ∧ level_of p = level.
Proof.
  unfold waits_at, runnable_at, normal_ready, level_of, clamped.
  cbn. rewrite !andb_true_iff, Z.eqb_eq. tauto.
Qed.

(** The round-robin positions are indices of the table. *)
Definition rr_ok (k : kernel) : Prop :=
  length (mlfq_rr_next k) = Z.to_nat MLFQ_LEVELS ∧
  Forall (λ n, n < NPROC)%nat (mlfq_rr_next k).

Lemma rr_ok_lookup k level :
  rr_ok k → (level < Z.to_nat MLFQ_LEVELS)%nat → (mlfq_rr_next k !!! level < NPROC)%nat.
Proof.
  intros [Hl Hf] Hlev. rewrite Forall_lookup in Hf.
  destruct (lookup_lt_is_Some_2 (mlfq_rr_next k) level) as [x Hx]; [lia|].
  rewrite (list_lookup_total_correct _ _ _ Hx). by eapply Hf.
Qed.

(** The outcome of a pick: nothing ready, or the nearest process of the highest
    level (the least number) that has one. *)
Definition pick_outcome (ps : list proc) (rr rr' : list nat) (lo : nat)
    (found : option nat) : Prop :=
  match found with
  | None => rr' = rr ∧ ∀ i, (i < NPROC)%nat → normal_ready (ps !!! i) = true →
                         level_of (ps !!! i) < Z.of_nat lo
  | Some b => ∃ level, (lo ≤ level < Z.to_nat MLFQ_LEVELS)%nat ∧
      rr' = <[level := ((b + 1) `mod` NPROC)%nat]> rr ∧
      (b < NPROC)%nat ∧ waits_at (Z.of_nat level) (ps !!! b) = true ∧
      (∀ i, (i < NPROC)%nat → normal_ready (ps !!! i) = true →
            level_of (ps !!! i) < Z.of_nat lo ∨ Z.of_nat level ≤ level_of (ps !!! i)) ∧
      (∀ i, (i < NPROC)%nat → waits_at (Z.of_nat level) (ps !!! i) = true →
            (dist (rr !!! level) b ≤ dist (rr !!! level) i)%nat)
  end.

#[local] Opaque NPROC.

Lemma level_equiv_same ps ps' i :
  level_equiv ps ps' → level_of (ps !!! i) = level_of (ps' !!! i) ∧
    normal_ready (ps !!! i) = normal_ready (ps' !!! i).
Proof.
  intros Hi%(level_equiv_lookup _ _ i). unfold level_of, normal_ready.
  split; [by apply (f_equal mlfq_level) in Hi|].
  pose proof (f_equal state Hi) as H1. pose proof (f_equal rt_policy Hi) as H2.
  simpl in H1, H2. by rewrite H1, H2.
Qed.

#[export] Instance pick_outcome_proper :
  Proper (level_equiv ==> eq ==> eq ==> eq ==> eq ==> impl) pick_outcome.
Proof.
  intros ps ps' Heq rr ? <- rr' ? <- lo ? <- [b|] ? <-; unfold pick_outcome, impl.
  - intros (level & ? & ? & ? & Hw & Hlev & Hmin).
    exists level. split_and!; try done; try lia.
    + by rewrite <-(waits_at_equiv _ ps).
    + intros i. destruct (level_equiv_same _ _ i Heq) as [<- <-]. apply Hlev.
    + intros i. rewrite <-(waits_at_equiv _ ps) by done. apply Hmin.
  - intros [? Hlev]. split; [done|]. intros i.
    destruct (level_equiv_same _ _ i Heq) as [<- <-]. apply Hlev.
Qed.

Lemma pick_outcome_weaken ps rr rr' lo found :
  (∀ i, (i < NPROC)%nat → normal_ready (ps !!! i) = true →
        level_of (ps !!! i) ≠ Z.of_nat lo) →
  pick_outcome ps rr rr' (S lo) found → pick_outcome ps rr rr' lo found.
Proof.
  intros Hnot. unfold pick_outcome. destruct found as [b|].
  - intros (level & ? & ? & ? & Hw & Hlev & Hmin). exists level.
    split_and!; try done; try lia. intros i Hi Hr.
    specialize (Hlev i Hi Hr). specialize (Hnot i Hi Hr). lia.
  - intros [? Hlev]. split; [done|]. intros i Hi Hr.
    specialize (Hlev i Hi Hr). specialize (Hnot i Hi Hr). lia.
Qed.

Lemma scan_levels_spec n lo k :
  rr_ok k → (lo + n = Z.to_nat MLFQ_LEVELS)%nat →
  let '(k', found) := scan_levels (seq lo n) k in
  level_equiv (procs k') (procs k) ∧
  k' = k <| procs := procs k' |> <| mlfq_rr_next := mlfq_rr_next k' |> ∧
  pick_outcome (procs k) (mlfq_rr_next k) (mlfq_rr_next k') lo found.
Proof.
  revert lo k. induction n as [|n IH]; intros lo k Hrr Hlo; cbn [seq scan_levels].
  - split; [done|]. split; [by destruct k|]. split; [done|]. intros i _ _.
    unfold level_of. pose proof (clamp_level_range (mlfq_level (procs k !!! i))). lia.
  - pose proof (rr_ok_lookup k lo Hrr ltac:(lia)) as Hnext.
    pose proof (scan_level_spec lo (seq 0 NPROC) k) as Hspec. cbv zeta in Hspec.
    fold (rr_order (mlfq_rr_next k !!! lo)) in Hspec.
    destruct (scan_level lo (seq 0 NPROC) k) as [k1 found].
    destruct Hspec as (Heq & Hfound & Hk1).
    pose proof (rr_scan_nearest (λ i, waits_at (Z.of_nat lo) (procs k !!! i))
                  (mlfq_rr_next k !!! lo) Hnext) as Hnear.
    rewrite <-Hfound in Hnear. destruct found as [b|].
    + destruct Hnear as (Hb & Hw & Hmin). split; [done|].
      split; [rewrite Hk1; by destruct k|].
      exists lo. rewrite Hk1. cbn [mlfq_rr_next upd mlfq_rr_next_set]. split_and!; try done; try lia.
    + assert (mlfq_rr_next k1 = mlfq_rr_next k) as Hrr1 by (by rewrite Hk1).
      specialize (IH (S lo) k1 ltac:(unfold rr_ok; by rewrite Hrr1) ltac:(lia)).
      destruct (scan_levels (seq (S lo) n) k1) as [k' found'].
      destruct IH as (Heq' & Hk' & IH). rewrite Hrr1 in IH.
      apply (pick_outcome_proper _ _ Heq _ _ eq_refl _ _ eq_refl _ _ eq_refl _ _ eq_refl) in IH.
      split; [by transitivity (procs k1)|]. split; [rewrite Hk', Hk1; by destruct k|].
      apply pick_outcome_weaken; [|done]. intros i Hi Hr He.
      specialize (Hnear i Hi). apply not_true_iff_false in Hnear.
      apply Hnear, waits_at_iff. done.
Qed.

Lemma mlfq_pick_outcome k :
  rr_ok k →
  let '(k', found) := mlfq_pick k in
  level_equiv (procs k') (procs k) ∧
  k' = k <| procs := procs k' |> <| mlfq_rr_next := mlfq_rr_next k' |> ∧
  pick_outcome (procs k) (mlfq_rr_next k) (mlfq_rr_next k') 0 found.
Proof. intros Hrr. by apply (scan_levels_spec (Z.to_nat MLFQ_LEVELS) 0). Qed.

Lemma mlfq_pick_rr_ok k : rr_ok k → rr_ok (mlfq_pick k).1.
Proof.
  intros Hrr. pose proof (mlfq_pick_outcome k Hrr) as H.
  destruct (mlfq_pick k) as [k' found]. destruct H as (_ & _ & H). simpl.
  destruct Hrr as [Hl Hf]. unfold rr_ok. destruct found as [b|]; simpl in H.
  - destruct H as (level & _ & -> & Hb & _). rewrite length_insert. split; [done|].
    apply Forall_insert; [done|]. apply Nat.mod_upper_bound. lia.
  - by destruct H as [-> _].
Qed.

(** ** Interleaved scans *)

(** A step of the rest of the kernel after which process [i] is ready at the
    level, and which leaves the position of the level alone. *)
Definition stays_ready (level i : nat) (k k' : kernel) : Prop :=
  rr_ok k' ∧ waits_at (Z.of_nat level) (procs k' !!! i) = true ∧
  mlfq_rr_next k' !!! level = mlfq_rr_next k !!! level.

(** A probe that takes nothing moves no position, and its candidate does not
    wait at the level. *)
Lemma probe_none level i k k' :
  mlfq_probe level i k = (k', None) →
  mlfq_rr_next k' = mlfq_rr_next k ∧
  waits_at (Z.of_nat level) (procs k !!! ((mlfq_rr_next k !!! level + i) `mod` NPROC)%nat) = false.
Proof.
  intros E. pose proof (mlfq_probe_spec level i k) as Hp. rewrite E in Hp.
  destruct Hp as [_ Hp]. destruct (waits_at _ _); destruct Hp as [? Hk]; [done|].
  split; [by rewrite Hk|done].
Qed.

Lemma probe_some level i k k' b :
  rr_ok k → (level < Z.to_nat MLFQ_LEVELS)%nat → mlfq_probe level i k = (k', Some b) →
  b = ((mlfq_rr_next k !!! level + i) `mod` NPROC)%nat ∧
  mlfq_rr_next k' !!! level = ((b + 1) `mod` NPROC)%nat.
Proof.
  intros Hrr Hlev E. pose proof (mlfq_probe_spec level i k) as Hp. rewrite E in Hp.
  destruct Hp as [_ Hp]. destruct (waits_at _ _); destruct Hp as [Hb Hk]; [|done].
  injection Hb as Hb. split; [done|]. rewrite Hk, <-Hb. cbn [mlfq_rr_next upd mlfq_rr_next_set].
  apply list_lookup_total_insert_eq. destruct Hrr as [-> _]. lia.
Qed.

Lemma scans_level env l0 j k l b k' : scans env l0 j k l b k' → (l0 ≤ l)%nat.
Proof. induction 1; lia. Qed.

(** A scan that takes a process at the level of [i], while [i] stays ready,
    passes over no process behind [i]. *)
Lemma scans_nearest level i l0 j k l b k' :
  scans (stays_ready level i) l0 j k l b k' → (i < NPROC)%nat → l = level →
  (level < Z.to_nat MLFQ_LEVELS)%nat → (j < NPROC)%nat →
  (l0 = level → (j ≤ dist (mlfq_rr_next k !!! level) i)%nat) →
  (mlfq_rr_next k !!! level < NPROC)%nat ∧ (b < NPROC)%nat ∧
  (dist (mlfq_rr_next k !!! level) b ≤ dist (mlfq_rr_next k !!! level) i)%nat ∧
  mlfq_rr_next k' !!! level = ((b + 1) `mod` NPROC)%nat.
Proof.
  intros Hsc Hi. induction Hsc as [l0 j k k1 k2 b (Hrr & Hw & Hn) Hp|
    l0 j k k1 k2 l b k3 (Hrr & Hw & Hn) Hp Hj Hsc IH|
    l0 j k k1 k2 l b k3 (Hrr & Hw & Hn) Hp Hj Hl0 Hsc IH]; intros -> Hlev Hjn Hd;
    rewrite <-Hn in *; pose proof (rr_ok_lookup k1 level Hrr Hlev) as Hnext.
  - destruct (probe_some _ _ _ _ _ Hrr Hlev Hp) as [Hb Hk2].
    assert (rr_order (mlfq_rr_next k1 !!! level) !! j = Some b) as Hbj.
    { unfold rr_order, rr_indices. rewrite list_lookup_fmap, lookup_seq_lt by done. by rewrite Hb. }
    apply rr_order_lookup in Hbj as [? Hdb]; [|done]. split_and!; try done. rewrite Hdb. by apply Hd.
  - destruct (probe_none _ _ _ _ Hp) as [Hk2 Hno]. rewrite Hk2 in IH. apply IH; try done; try lia.
    intros ->. specialize (Hd eq_refl).
    destruct (decide (j = dist (mlfq_rr_next k1 !!! level) i)) as [->|]; [|lia].
    assert (rr_order (mlfq_rr_next k1 !!! level) !! dist (mlfq_rr_next k1 !!! level) i = Some i)
      as Hij by (by apply rr_order_lookup).
    unfold rr_order, rr_indices in Hij. rewrite list_lookup_fmap, lookup_seq_lt in Hij by done.
    injection Hij as Hij. rewrite Hij in Hno. congruence.
  - destruct (probe_none _ _ _ _ Hp) as [Hk2 Hno]. rewrite Hk2 in IH. apply IH; try done; lia.
Qed.

(** The uninterrupted scan is the one with no steps in between. *)
Lemma scan_level_scans level n j k k' b :
  (j + n = NPROC)%nat → scan_level level (seq j n) k = (k', Some b) →
  scans eq level j k level b k'.
Proof.
  revert j k. induction n as [|n IH]; intros j k Hjn; cbn [seq scan_level]; [done|].
  destruct (mlfq_probe level j k) as [k1 [idx|] ] eqn:E; intros Hs.
  - simplify_eq. by eapply sc_found.
  - eapply sc_next; [done|done| |by apply IH; [lia|]]. destruct n; [done|]. lia.
Qed.

Lemma scan_level_none env level l b k3 n j k k' :
  (∀ k, env k k) → (j + S n = NPROC)%nat → (S level < Z.to_nat MLFQ_LEVELS)%nat →
  scan_level level (seq j (S n)) k = (k', None) →
  scans env (S level) 0 k' l b k3 → scans env level j k l b k3.
Proof.
  intros Henv. revert j k. induction n as [|n IH]; intros j k Hjn Hl Hs Hsc;
    cbn [seq scan_level] in Hs; destruct (mlfq_probe level j k) as [k1 [idx|] ] eqn:E; try done.
  - simplify_eq. by eapply sc_level; [apply Henv|done|lia| |].
  - eapply sc_next; [apply Henv|done|lia|]. by apply IH; [lia| | |].
Qed.

Lemma mlfq_pick_scans k k' b :
  mlfq_pick k = (k', Some b) → ∃ level, scans eq 0 0 k level b k'.
Proof.
  unfold mlfq_pick.
  assert (∀ n lo k, (lo + n = Z.to_nat MLFQ_LEVELS)%nat → scan_levels (seq lo n) k = (k', Some b) →
    ∃ level, scans eq lo 0 k level b k') as H; [|by apply H].
  clear k. induction n as [|n IH]; intros lo k Hlo; cbn [seq scan_levels]; [done|].
  destruct (scan_level lo (seq 0 NPROC) k) as [k1 [idx|] ] eqn:E; intros Hs.
  - simplify_eq. exists lo. by apply (scan_level_scans lo NPROC).
  - destruct n as [|n]; [done|]. destruct (IH (S lo) k1 ltac:(lia) Hs) as [level Hsc].
    exists level. assert (NPROC = S 63) as HN by reflexivity.
    rewrite HN in E. eapply scan_level_none; [done| |lia|exact E|done]. lia.
Qed.

(** ** dyn_pick *)

Definition aged (p : proc) : proc := if dyn_candidate p then age_proc p else p.

Lemma age_range p : 0 ≤ dyn_priority (age_proc p) ≤ 20.
Proof.
  unfold age_proc; cbv zeta; cbn -[Z.quot pi_effective_base].
  repeat case_match; bool_facts; lia.
Qed.

Definition dyn_inv (k : kernel) (n : nat) (s : dyn_scan) : Prop :=
  ds_procs s = map_upto aged n (procs k) ∧
  first_min (λ i, dyn_candidate (get_proc k i) = true)
    (λ i, - dyn_priority (age_proc (get_proc k i))) n (pmax s) ∧
  priority_max s = match pmax s with
                   | Some b => dyn_priority (age_proc (get_proc k b))
                   | None => -1
                   end.

Lemma dyn_step k n s :
  length (procs k) = NPROC → (n < NPROC)%nat → dyn_inv k n s → dyn_inv k (S n) (dyn_body s n).
Proof.
  intros Hlen Hn (Hps & Hmin & Hmax).
  destruct (lookup_lt_is_Some_2 (procs k) n) as [p Hp]; [lia|].
  assert (get_proc k n = p) as Hg by by apply list_lookup_total_correct.
  unfold dyn_body. rewrite Hps, map_upto_lookup_total by lia.
  change (procs k !!! n) with (get_proc k n). rewrite Hg.
  unfold dyn_inv. rewrite (map_upto_S _ _ _ _ Hp).
  replace (aged p) with (if dyn_candidate p then age_proc p else p) by done.
  destruct (dyn_candidate p) eqn:Hc.
  2: { split; [|split; [apply (first_min_skip Hmin); by rewrite Hg, Hc|done]].
       rewrite Hps, list_insert_id; [done|].
       rewrite map_upto_lookup, Nat.ltb_irrefl, Hp. done. }
  pose proof (age_range p).
  destruct (Z.ltb_spec (priority_max s) (dyn_priority (age_proc p))) as [Hlt|Hge].
  - split; [done|]. split; [|cbn [pmax priority_max]; by rewrite Hg].
    apply (first_min_take Hmin); [by rewrite Hg|]. intros b Hb. rewrite Hb in Hmax.
    rewrite Hg. lia.
  - split; [done|]. split; [|done]. cbn [pmax]. rewrite Hmax in Hge.
    destruct (pmax s) as [b|] eqn:Eb; [|lia].
    apply (first_min_keep b eq_refl Hmin). rewrite Hg. lia.
Qed.

Lemma dyn_pick_outcome k :
  length (procs k) = NPROC →
  (dyn_pick k).1 = k <| procs := aged <$> procs k |> ∧
  first_min (λ i, dyn_candidate (get_proc k i) = true)
    (λ i, - dyn_priority (age_proc (get_proc k i))) NPROC (dyn_pick k).2.
Proof.
  intros Hlen.
  assert (dyn_inv k NPROC (foldl dyn_body (mk_dyn (procs k) None (-1)) (seq 0 NPROC)))
    as (Hps & Hmin & _).
  { apply foldl_seq_ind; [|intros; by apply dyn_step].
    split; [by rewrite map_upto_0|]. split; [|done]. simpl. lia. }
  unfold dyn_pick. cbn [fst snd]. split; [|done].
  rewrite Hps, map_upto_all by lia. done.
Qed.

(** ** One turn *)

Lemma refreshed_state now p : state (refreshed now p) = state p.
Proof. unfold refreshed. by case_match. Qed.

Lemma refreshed_normal now p : normal_ready (refreshed now p) = normal_ready p.
Proof.
  unfold normal_ready. rewrite refreshed_state. unfold refreshed. by case_match.
Qed.

Lemma aged_state p : state (aged p) = state p.
Proof. unfold aged. by case_match. Qed.

Lemma level_equiv_state ps ps' i :
  level_equiv ps ps' → state (ps !!! i) = state (ps' !!! i).
Proof. intros Hi%(level_equiv_lookup _ _ i). by apply (f_equal state) in Hi. Qed.

Lemma fmap_lookup_total_in (f : proc → proc) ps i :
  (i < length ps)%nat → (f <$> ps) !!! i = f (ps !!! i).
Proof.
  intros Hi. destruct (lookup_lt_is_Some_2 ps i Hi) as [p Hp].
  by rewrite !list_lookup_total_alt, list_lookup_fmap, Hp.
Qed.

Lemma normal_refreshed now p : normal_ready p = true → refreshed now p = p.
Proof.
  unfold normal_ready, refreshed, rt_candidate, is_rt. intros H. bool_facts.
  rewrite (bool_decide_eq_false_2 (rt_policy p = SCHED_RT_LLF)) by congruence.
  by rewrite andb_false_r.
Qed.

Lemma maintain_same mode free cached k :
  length (procs (midsched_maintain mode free cached k)) = length (procs k) ∧
  mlfq_rr_next (midsched_maintain mode free cached k) = mlfq_rr_next k.
Proof.
  unfold midsched_maintain, midsched_maybe_resume. repeat case_match; try done.
  by rewrite upd_proc_length.
Qed.

(** The process to run: the ready real-time process of least laxity if there is
    one, else a normal process of the highest level or priority. *)
Definition best_choice (mode : sched_conf) (now : Z) (k : kernel) (i : nat) : Prop :=
  (rt_ready now (get_proc k i) ∧
   ∀ j, (j < NPROC)%nat → rt_ready now (get_proc k j) →
     laxity_at now (get_proc k i) ≤ laxity_at now (get_proc k j)) ∨
  ((∀ j, (j < NPROC)%nat → ¬ rt_ready now (get_proc k j)) ∧
   normal_ready (get_proc k i) = true ∧
   ∀ j, (j < NPROC)%nat → normal_ready (get_proc k j) = true →
     match mode with
     | SCHED_MLFQ => level_of (get_proc k i) ≤ level_of (get_proc k j)
     | SCHED_DYNPRIO =>
         dyn_priority (age_proc (get_proc k j)) ≤ dyn_priority (age_proc (get_proc k i))
     end).

(** The outcome of a turn that started with the table of [k0]. *)
Definition round_outcome (mode : sched_conf) (now : Z) (k0 k' : kernel)
    (found : option nat) : Prop :=
  match found with
  | None => ∀ i, (i < NPROC)%nat → ¬ rt_ready now (get_proc k0 i) ∧
                                   normal_ready (get_proc k0 i) = false
  | Some i => (i < NPROC)%nat ∧ state (get_proc k0 i) = RUNNABLE ∧
      state (get_proc k' i) = RUNNING ∧
      (∀ j, j ≠ i → state (get_proc k' j) = state (get_proc k0 j)) ∧
      best_choice mode now k0 i
  end.

Lemma rt_ready_runnable now p : rt_ready now p → state p = RUNNABLE.
Proof. by intros []. Qed.

Lemma normal_ready_runnable p : normal_ready p = true → state p = RUNNABLE.
Proof. unfold normal_ready. intros H. by bool_facts. Qed.

(** Switching to [i] from a table that differs from [k0] in no state. *)
Lemma round_run mode now k0 k1 i f :
  (∀ p, state (f p) = RUNNING) → length (procs k1) = NPROC → (i < NPROC)%nat →
  (∀ j, state (get_proc k1 j) = state (get_proc k0 j)) →
  state (get_proc k0 i) = RUNNABLE → best_choice mode now k0 i →
  round_outcome mode now k0 (upd_proc i f k1) (Some i).
Proof.
  intros Hf Hlen Hi Hst Hrun Hbest. split_and!; try done.
  - rewrite get_proc_upd_eq by lia. apply Hf.
  - intros j Hj. rewrite get_proc_upd_ne by done. apply Hst.
Qed.

Lemma fmap_states (f : proc → proc) k j :
  (∀ p, state (f p) = state p) →
  state (get_proc (k <| procs := f <$> procs k |>) j) = state (get_proc k j).
Proof.
  intros Hf. unfold get_proc; simpl. rewrite !list_lookup_total_alt, list_lookup_fmap.
  destruct (procs k !! j); simpl; [apply Hf|done].
Qed.

(** The half of the turn after rt_pick() found nothing. *)
Section after_rt.
Context (now : Z) (k0 : kernel).
Hypothesis Hlen : length (procs k0) = NPROC.
Hypothesis Hrt : ∀ j, (j < NPROC)%nat → ¬ rt_ready now (get_proc k0 j).

Let k1 : kernel := k0 <| procs := refreshed now <$> procs k0 |>.

Lemma k1_get j : (j < NPROC)%nat → get_proc k1 j = refreshed now (get_proc k0 j).
Proof using Hlen.
  intros Hj. unfold k1, get_proc; simpl. apply fmap_lookup_total_in. lia.
Qed.

Lemma k1_normal j : (j < NPROC)%nat →
  normal_ready (get_proc k1 j) = normal_ready (get_proc k0 j).
Proof using Hlen. intros Hj. rewrite k1_get by done. apply refreshed_normal. Qed.

Lemma k1_same j : (j < NPROC)%nat → normal_ready (get_proc k0 j) = true →
  get_proc k1 j = get_proc k0 j.
Proof using Hlen. intros Hj Hn. rewrite k1_get by done. by apply normal_refreshed. Qed.

Lemma k1_state j : state (get_proc k1 j) = state (get_proc k0 j).
Proof. apply (fmap_states _ k0). apply refreshed_state. Qed.

Lemma mlfq_turn :
  rr_ok k0 →
  let '(k2, found) := mlfq_pick k1 in
  round_outcome SCHED_MLFQ now k0
    (match found with
     | Some i => upd_proc i (λ p, p <| state := RUNNING |> <| mlfq_ticks := 0 |>) k2
     | None => k2
     end) found.
Proof using Hlen Hrt.
  intros Hrr. pose proof (mlfq_pick_outcome k1 Hrr) as H.
  destruct (mlfq_pick k1) as [k2 [b|] ]; destruct H as (Heq & _ & Hout).
  - destruct Hout as (level & Hlev & _ & Hb & Hw & Hmin & _).
    apply waits_at_iff in Hw as [Hn Hl].
    change (procs k1 !!! b) with (get_proc k1 b) in *.
    rewrite k1_normal in Hn by done. rewrite (k1_same b) in Hl by done.
    apply round_run; try done.
    + rewrite <-(length_fmap clamped), Heq, length_fmap. unfold k1; simpl.
      by rewrite length_fmap.
    + intros j. rewrite <-k1_state. by apply level_equiv_state.
    + by apply normal_ready_runnable.
    + right. split_and!; try done. intros j Hj Hnj.
      specialize (Hmin j Hj). change (procs k1 !!! j) with (get_proc k1 j) in Hmin.
      rewrite k1_normal, k1_same in Hmin by done. specialize (Hmin Hnj).
      pose proof (level_of_range (get_proc k0 j)). lia.
  - destruct Hout as (_ & Hno). intros i Hi. split; [by apply Hrt|].
    apply not_true_iff_false. intros Hn. specialize (Hno i Hi).
    change (procs k1 !!! i) with (get_proc k1 i) in Hno.
    rewrite k1_normal, k1_same in Hno by done. specialize (Hno Hn).
    pose proof (level_of_range (get_proc k0 i)). lia.
Qed.

Lemma dyn_turn :
  let '(k2, found) := dyn_pick k1 in
  round_outcome SCHED_DYNPRIO now k0
    (match found with
     | Some i => upd_proc i (λ p, p <| state := RUNNING |> <| wait_time := 0 |>
                                    <| cpu_time := cpu_time p + 1 |>) k2
     | None => k2
     end) found ∧
  ∀ i, found = Some i → state (get_proc k2 i) = RUNNABLE.
Proof using Hlen Hrt.
  assert (length (procs k1) = NPROC) as Hl1 by (unfold k1; simpl; by rewrite length_fmap).
  destruct (dyn_pick_outcome k1 Hl1) as [Hk2 Hmin].
  destruct (dyn_pick k1) as [k2 found]. cbn [fst snd] in *.
  assert (∀ j, state (get_proc k2 j) = state (get_proc k0 j)) as Hst.
  { intros j. rewrite Hk2, <-k1_state. apply fmap_states, aged_state. }
  destruct found as [b|].
  - destruct Hmin as (Hb & Hc & Hmin & _).
    assert (normal_ready (get_proc k0 b) = true) as Hn by (by rewrite <-k1_normal).
    pose proof (normal_ready_runnable _ Hn).
    split; [|intros i [= <-]; by rewrite Hst].
    apply round_run; try done.
    + rewrite Hk2; simpl. by rewrite length_fmap.
    + right. split_and!; try done. intros j Hj Hnj.
      specialize (Hmin j Hj). rewrite !k1_same in Hmin by done. specialize (Hmin Hnj). lia.
  - split; [|done]. intros i Hi. split; [by apply Hrt|].
    apply not_true_iff_false. intros Hn. apply (Hmin i Hi).
    change (normal_ready (get_proc k1 i) = true). by rewrite k1_normal.
Qed.
End after_rt.

(** ** Time slices *)

Definition tick_once (p : proc) : proc := (mlfq_tick_proc p).2.

Lemma slice_pos l : 1 ≤ mlfq_time_slice l.
Proof. unfold mlfq_time_slice. repeat case_match; lia. Qed.

Lemma tick_inside p :
  0 ≤ mlfq_level p < MLFQ_LEVELS → mlfq_ticks p + 1 < mlfq_time_slice (mlfq_level p) →
  mlfq_tick_proc p = (false, p <| mlfq_ticks := mlfq_ticks p + 1 |>).
Proof.
  intros Hl Ht. unfold mlfq_tick_proc. cbv zeta. cbn [mlfq_level mlfq_ticks].
  rewrite (clamp_level_id _ Hl).
  assert (p <| mlfq_level := mlfq_level p |> = p) as -> by by destruct p.
  cbn [mlfq_level mlfq_ticks upd mlfq_ticks_set].
  destruct (Z.leb_spec (mlfq_time_slice (mlfq_level p)) (mlfq_ticks p + 1)); [lia|done].
Qed.

Lemma ticks_inside p m :
  0 ≤ mlfq_level p < MLFQ_LEVELS → mlfq_ticks p = 0 →
  Z.of_nat m < mlfq_time_slice (mlfq_level p) →
  Nat.iter m tick_once p = p <| mlfq_ticks := Z.of_nat m |>.
Proof.
  intros Hl H0. induction m as [|m IH]; intros Hm.
  - destruct p. simpl in H0. by subst.
  - rewrite Nat.iter_succ, IH by lia. unfold tick_once.
    rewrite tick_inside; [|done|simpl; lia]. simpl. destruct p. unfold upd, mlfq_ticks_set; simpl.
    f_equal. lia.
Qed.

(** ** Theorems *)

(** one turn of scheduler(). It is work conserving: it idles only when no
    process is ready. Otherwise it switches to a RUNNABLE process, which becomes
    RUNNING, and no other process changes state; a ready real-time process of
    least laxity comes before every normal process, and among normal ones the
    process chosen has the highest level (feedback queue) or the highest aged
    priority (dynamic priorities). The real-time processes are consistent (see
    [rt_tame]) and no other hart interrupts the scans. *)
Theorem scheduler_round_choice mode free cached k :
  length (procs k) = NPROC → rr_ok k →
  let k0 := midsched_maintain mode free cached k in
  tame_table (ticks k0) k0 →
  ∃ k' found, scheduler_round mode free cached k = Some (k', found) ∧
    round_outcome mode (ticks k0) k0 k' found.
Proof.
  intros Hlen Hrr. cbv zeta. unfold scheduler_round. intros Htame.
  destruct (maintain_same mode free cached k) as [Hl0 Hr0].
  set (k0 := midsched_maintain mode free cached k) in *. set (now := ticks k0) in *.
  rewrite Hlen in Hl0. destruct (rt_pick_inv now k0 Hl0 Htame) as (b & -> & Hmin).
  cbn [mbind option_bind]. destruct b as [i|].
  - destruct Hmin as (Hi & Hr & Hle & _).
    assert (best_choice mode now k0 i) as Hbest by (left; done).
    pose proof (rt_ready_runnable _ _ Hr).
    destruct mode; do 2 eexists; (split; [reflexivity|]); apply round_run; try done;
      try (simpl; by rewrite length_fmap); intros j; apply fmap_states, refreshed_state.
  - destruct mode.
    + pose proof (mlfq_turn now k0 Hl0 Hmin) as Ht. unfold rr_ok in Ht. rewrite Hr0 in Ht.
      specialize (Ht Hrr). destruct (mlfq_pick _) as [k2 [b|] ]; do 2 eexists;
        (split; [reflexivity|]); exact Ht.
    + pose proof (dyn_turn now k0 Hl0 Hmin) as Ht.
      destruct (dyn_pick _) as [k2 [b|] ]; destruct Ht as [Ht Hst]; do 2 eexists;
        (split; [|exact Ht]); [|reflexivity].
      by rewrite (bool_decide_eq_true_2 _ (Hst b eq_refl)).
Qed.

(** C18: bounded waiting in the feedback queue. Consider the successive choices
    [bs 0], [bs 1], ... that the scheduler's scans make at a level. Before every
    probe of a scan and between the scans anything may happen to the table, as
    long as process [i] is ready at that level at every probe and no other hart
    moves mlfq_rr_next[level]: then [i] is chosen among the first NPROC of these
    choices. *)
Theorem mlfq_bounded_waiting (ks ks' : nat → kernel) (bs : nat → nat) (level i : nat) :
  (level < Z.to_nat MLFQ_LEVELS)%nat → (i < NPROC)%nat →
  (∀ n, scans (stays_ready level i) 0 0 (ks n) level (bs n) (ks' n) ∧
        mlfq_rr_next (ks (S n)) !!! level = mlfq_rr_next (ks' n) !!! level) →
  ∃ n, (n < NPROC)%nat ∧ bs n = i.
Proof.
  intros Hlev Hi Hrun.
  assert (∀ n, bs n = i ∨ (dist (mlfq_rr_next (ks (S n)) !!! level) i <
                           dist (mlfq_rr_next (ks n) !!! level) i)%nat) as Hdec.
  { intros n. destruct (Hrun n) as [Hscan Hnext].
    destruct (decide (bs n = i)) as [|Hne]; [by left|right]. rewrite Hnext.
    destruct (scans_nearest _ _ _ _ _ _ _ _ Hscan Hi) as (Hrr & Hb & Hle & ->); [intros; lia..|].
    by apply dist_step. }
  assert (∀ m, (∃ n, (n < m)%nat ∧ bs n = i) ∨
     (dist (mlfq_rr_next (ks m) !!! level) i + m ≤ dist (mlfq_rr_next (ks 0%nat) !!! level) i)%nat)
    as Hind.
  { induction m as [|m [(n & Hn & He)|IH] ]; [right; lia|left; exists n; split; [lia|done]|].
    destruct (Hdec m) as [He|Hlt]; [left; exists m; split; [lia|done]|right; lia]. }
  destruct (Hind NPROC) as [?|Hle]; [done|].
  pose proof (dist_lt (mlfq_rr_next (ks 0%nat) !!! level) i). lia.
Qed.

(** time slices. A process that starts its slice at level [l] keeps the hart
    and its level for every tick before the last of mlfq_time_slice[l]; the last
    tick takes the hart, moves it one level down (not below the lowest) and
    starts a new slice. *)
Theorem mlfq_slice_demotes p m :
  0 ≤ mlfq_level p < MLFQ_LEVELS → mlfq_ticks p = 0 →
  Z.of_nat m < mlfq_time_slice (mlfq_level p) →
  let q := Nat.iter m tick_once p in
  mlfq_level q = mlfq_level p ∧ mlfq_ticks q = Z.of_nat m ∧
  ((mlfq_tick_proc q).1 = true ↔ Z.of_nat m + 1 = mlfq_time_slice (mlfq_level p)) ∧
  ((mlfq_tick_proc q).1 = true →
     mlfq_level (tick_once q) = Z.min (mlfq_level p + 1) (MLFQ_LEVELS - 1) ∧
     mlfq_ticks (tick_once q) = 0).
Proof.
  intros Hl H0 Hm. cbv zeta. rewrite ticks_inside by done.
  split; [done|]. split; [done|].
  unfold tick_once, mlfq_tick_proc. cbv zeta.
  change (mlfq_level (p <| mlfq_ticks := Z.of_nat m |>)) with (mlfq_level p).
  rewrite (clamp_level_id _ Hl). cbn [mlfq_level mlfq_ticks upd mlfq_level_set mlfq_ticks_set].
  destruct (Z.leb_spec (mlfq_time_slice (mlfq_level p)) (Z.of_nat m + 1)); simpl.
  - split; [split; [lia|done]|]. intros _. unfold MLFQ_LEVELS in *.
    destruct (Z.ltb_spec (mlfq_level p) (4 - 1)); simpl; split; try done; lia.
  - split; [split; [done|lia]|done].
Qed.

(** *** Concrete instances: two processes ready at level 0 (entries 0 and 1) and
    one at level 2 take turns. *)

#[local] Transparent NPROC.

Definition demo_sched (next : nat) : kernel :=
  kernel_zero <| mlfq_rr_next := [next; 0; 0; 0]%nat |> <| procs :=
    [proc_zero <| state := RUNNABLE |> <| pid := 3 |>;
     proc_zero <| state := RUNNABLE |> <| pid := 4 |>;
     proc_zero <| state := RUNNABLE |> <| pid := 5 |> <| mlfq_level := 2 |>]
    ++ replicate 61 proc_zero |>.

Lemma demo_sched_rr next : (next < 64)%nat → rr_ok (demo_sched next).
Proof.
  intros Hn. split; [reflexivity|]. unfold demo_sched, NPROC; simpl.
  repeat (apply Forall_cons; split; [lia|]). apply Forall_nil_2.
Qed.

Lemma demo_sched_tame next : tame_table 0 (demo_sched next).
Proof.
  intros i. destruct i as [|[|[|i]]]; [intros H; discriminate H..|].
  unfold get_proc. rewrite list_lookup_total_alt.
  change (procs (demo_sched next) !! S (S (S i))) with (replicate 61 proc_zero !! i).
  destruct (replicate 61 proc_zero !! i) as [p|] eqn:E; [|intros H; discriminate H].
  apply lookup_replicate in E as [-> _]. intros H. discriminate H.
Qed.

Lemma scheduler_round_choice_witness :
  ∃ k', scheduler_round SCHED_MLFQ 0 0 (demo_sched 1) = Some (k', Some 1%nat) ∧
    round_outcome SCHED_MLFQ 0 (demo_sched 1) k' (Some 1%nat).
Proof.
  destruct (scheduler_round_choice SCHED_MLFQ 0 0 (demo_sched 1) eq_refl
    (demo_sched_rr 1 ltac:(lia)) (demo_sched_tame 1)) as (k' & found & E & H).
  assert (snd <$> scheduler_round SCHED_MLFQ 0 0 (demo_sched 1) = Some (Some 1%nat)) as E2
    by (vm_compute; reflexivity).
  rewrite E in E2. cbn [fmap option_fmap option_map snd] in E2. injection E2 as ->.
  exists k'. split; [exact E|exact H].
Defined.

(** Processes 1 and [n mod 64] are ready at level 0, the latter being next. *)
Definition demo_ready : proc := proc_zero <| state := RUNNABLE |>.

Definition demo_turn (n : nat) : kernel :=
  kernel_zero <| mlfq_rr_next := [n `mod` 64; 0; 0; 0]%nat |> <| procs :=
    <[1%nat := demo_ready]> (<[(n `mod` 64)%nat := demo_ready]> (replicate 64 proc_zero)) |>.

Lemma demo_turn_ready n i :
  i = 1%nat ∨ i = (n `mod` 64)%nat → waits_at 0 (procs (demo_turn n) !!! i) = true.
Proof.
  pose proof (Nat.mod_upper_bound n 64 ltac:(lia)) as Hn.
  assert (procs (demo_turn n) =
    <[1%nat := demo_ready]> (<[(n `mod` 64)%nat := demo_ready]> (replicate 64 proc_zero))) as ->
    by reflexivity.
  intros Hi. destruct (decide (i = 1%nat)) as [->|Hne].
  - rewrite list_lookup_total_insert_eq by (rewrite length_insert, length_replicate; lia).
    reflexivity.
  - destruct Hi as [?| ->]; [done|]. rewrite list_lookup_total_insert_ne by done.
    rewrite list_lookup_total_insert_eq by (rewrite length_replicate; lia). reflexivity.
Qed.

Lemma demo_turn_stays n : stays_ready 0 1 (demo_turn n) (demo_turn n).
Proof.
  split; [|split; [apply demo_turn_ready; by left|done]]. split; [reflexivity|].
  pose proof (Nat.mod_upper_bound n 64 ltac:(lia)) as Hn.
  change (mlfq_rr_next (demo_turn n)) with [n `mod` 64; 0; 0; 0]%nat. unfold NPROC.
  repeat (apply Forall_cons; split; [lia|]). apply Forall_nil_2.
Qed.

Lemma demo_turn_scans n :
  scans (stays_ready 0 1) 0 0 (demo_turn n) 0 (n `mod` 64) (mlfq_probe 0 0 (demo_turn n)).1 ∧
  mlfq_rr_next (mlfq_probe 0 0 (demo_turn n)).1 !!! 0%nat = (S n `mod` 64)%nat.
Proof.
  pose proof (mlfq_probe_spec 0 0 (demo_turn n)) as Hp. cbv zeta in Hp.
  change (mlfq_rr_next (demo_turn n) !!! 0%nat) with (n `mod` 64)%nat in Hp.
  assert ((n `mod` 64 + 0) `mod` NPROC = n `mod` 64)%nat as E.
  { rewrite Nat.add_0_r. unfold NPROC. apply Nat.Div0.mod_mod. }
  change (Z.of_nat 0) with 0 in Hp.
  rewrite E, (demo_turn_ready n _ (or_intror eq_refl)) in Hp.
  destruct (mlfq_probe 0 0 (demo_turn n)) as [k' f] eqn:Ep. destruct Hp as (_ & -> & Hk').
  split; [by eapply sc_found; [apply demo_turn_stays|]|]. cbn [fst]. rewrite Hk'.
  cbn [mlfq_rr_next upd mlfq_rr_next_set].
  rewrite list_lookup_total_insert_eq by (simpl; lia). unfold NPROC.
  rewrite Nat.Div0.add_mod_idemp_l. f_equal. lia.
Qed.

Lemma mlfq_bounded_waiting_witness : ∃ n, (n < NPROC)%nat ∧ (n `mod` 64)%nat = 1%nat.
Proof.
  apply (mlfq_bounded_waiting demo_turn (λ n, (mlfq_probe 0 0 (demo_turn n)).1)
    (λ n, (n `mod` 64)%nat) 0 1).
  - vm_compute. lia.
  - unfold NPROC. lia.
  - intros n. destruct (demo_turn_scans n) as [H1 H2]. split; [exact H1|].
    rewrite H2. reflexivity.
Defined.

(** With two harts the scan can miss a ready process. mlfq_rr_next[0] is 5 and
    processes 6 and 7 are ready. The first hart has probed process 5; the second
    takes process 6, which moves the position to 7; the first goes on at
    7 + 1 = 8 and ends the level without having looked at process 7. *)
Definition demo_race : kernel :=
  kernel_zero <| mlfq_rr_next := [5; 0; 0; 0]%nat |> <| procs :=
    <[6%nat := demo_ready]> (<[7%nat := demo_ready]> (replicate 64 proc_zero)) |>.

Example mlfq_scan_misses_ready :
  let '(k1, a0) := mlfq_probe 0 0 demo_race in
  let '(k2, b0) := scan_level 0 (seq 0 NPROC) k1 in
  let '(k3, a1) := scan_level 0 (seq 1 63)
                     (upd_proc 6 (λ p, p <| state := RUNNING |>) k2) in
  a0 = None ∧ b0 = Some 6%nat ∧ a1 = None ∧ waits_at 0 (get_proc k3 7) = true.
Proof. vm_compute. auto. Qed.

Lemma mlfq_slice_demotes_witness :
  mlfq_level (tick_once (Nat.iter 3 tick_once (proc_zero <| mlfq_level := 2 |>))) = 3.
Proof.
  destruct (mlfq_slice_demotes (proc_zero <| mlfq_level := 2 |>) 3) as (_ & _ & _ & H).
  - vm_compute. split; congruence.
  - reflexivity.
  - reflexivity.
  - destruct H as [-> _]; reflexivity.
Defined.
