(* ===== verification/Deadlock.v ===== *)
(** * Priority inheritance, sleep locks and deadlock detection

    [pi_donate], [pi_recalc], [owner_of_chan] and [deadlock_detect] of
    src/kernel/proc/proc.c, and src/kernel/lock/sleeplock.c. A sleep lock is an
    entry of the registration table; [acquiresleep] is cut at its call of
    sleep(): [acquiresleep_try] is one turn of its loop. *)

From S2P Require Import Prelude KState ProcSync.

Definition MAX_SLEEPLOCKS : nat := NINODE + NBUF.

(** ** Donated priorities *)

Definition clamp20 (z : Z) : Z :=
  let z := if z <? 0 then 0 else z in if 20 <? z then 20 else z.

(** The first used entry with a pid: the target of the loops over the table. *)
Definition used_pid (pid0 : Z) (p : proc) : bool :=
  (pid p =? pid0) && negb (bool_decide (state p = UNUSED)).

Definition donate_proc (mode : sched_conf) (prio : Z) (p : proc) : proc :=
  let p' := if pi_boost p <? prio then p <| pi_boost := prio |> else p in
  match mode with
  | SCHED_MLFQ =>
      if priority p <? prio then p' <| mlfq_level := 0 |> <| mlfq_ticks := 0 |> else p'
  | SCHED_DYNPRIO => p'
  end.

Definition pi_donate (mode : sched_conf) (owner_pid donated : Z) (k : kernel) : kernel :=
  if owner_pid <=? 0 then k
  else match find_index (used_pid owner_pid) (procs k) with
       | Some i => upd_proc i (donate_proc mode (clamp20 donated)) k
       | None => k
       end.

(** [if (c(x) && v(x) > max) max = v(x)] over a table. *)
Definition max_where {A} (c : A → bool) (v : A → Z) (l : list A) : Z :=
  foldl (λ m x, if c x && (m <? v x) then v x else m) 0 l.

Definition monitor_max_waiter_for_pid (pid0 : Z) (k : kernel) : Z :=
  max_where (λ m, m_allocated m && m_locked m && (m_owner m =? pid0))
    m_pi_waiter_max (monitors k).

Definition sleeplock_max_waiter_for_pid (pid0 : Z) (k : kernel) : Z :=
  max_where (λ l, sl_locked l && (sl_pid l =? pid0)) sl_pi_waiter_max (sleeplocks k).

Definition pi_recalc (owner_pid : Z) (k : kernel) : kernel :=
  if owner_pid <=? 0 then k
  else
    let mx := monitor_max_waiter_for_pid owner_pid k in
    let sl_max := sleeplock_max_waiter_for_pid owner_pid k in
    let mx := if mx <? sl_max then sl_max else mx in
    match find_index (used_pid owner_pid) (procs k) with
    | Some i => upd_proc i (λ p, p <| pi_boost := mx |>) k
    | None => k
    end.

(** ** Owners and the wait-for chain *)

Definition sleeplock_owner (ch : chan) (k : kernel) : Z :=
  match ch with
  | ChSleeplock i => match sleeplocks k !! i with Some l => sl_pid l | None => 0 end
  | _ => 0
  end.

Definition owner_of_chan (ch : option chan) (k : kernel) : Z :=
  match ch with
  | None => 0
  | Some (ChSem i) => match sems k !! i with Some s => owner s | None => 0 end
  | Some (ChSemset i j as c) =>
      match semsets k !! i with
      | Some ss =>
          if set_allocated ss && (Z.of_nat j <? set_count ss) then
            match set_sems ss !! j with Some s => owner s | None => 0 end
          else sleeplock_owner c k
      | None => 0
      end
  | Some (ChMon i) => match monitors k !! i with Some m => m_owner m | None => 0 end
  | Some c => sleeplock_owner c k
  end.

Fixpoint detect_loop (depth : nat) (start_pid cur : Z) (k : kernel) : Z :=
  match depth with
  | O => 0
  | S depth =>
      if cur <=? 0 then 0
      else if cur =? start_pid then 1
      else match find_index (used_pid cur) (procs k) with
           | None => 0
           | Some i =>
               let p := get_proc k i in
               if negb (bool_decide (state p = SLEEPING)) || bool_decide (p_chan p = None)
               then 0
               else detect_loop depth start_pid (owner_of_chan (p_chan p) k) k
           end
  end.

(** [start] is myproc(), [ch] the channel it is about to wait on. *)
Definition deadlock_detect (start : option nat) (ch : option chan) (k : kernel) : Z :=
  match start, ch with
  | Some i, Some _ => detect_loop NPROC (pid (get_proc k i)) (owner_of_chan ch k) k
  | _, _ => 0
  end.

(** ** Sleep locks *)

(** register_sleeplock() panics when its table is full: [None]. *)
Definition initsleeplock (k : kernel) : option (nat * kernel) :=
  let n := length (sleeplocks k) in
  if (n <? MAX_SLEEPLOCKS)%nat then
    Some (n, k <| sleeplocks := sleeplocks k ++ [mk_sleeplock false 0 0] |>)
  else None.

(** donor = p->priority; if (p->pi_boost > donor) donor = p->pi_boost; *)
Definition donor_prio (me : proc) : Z :=
  if priority me <? pi_boost me then pi_boost me else priority me.

(** One turn of the loop of acquiresleep by the process at [cur]: [true] when it
    has the lock, [false] when it went to sleep. *)
Definition acquiresleep_try (mode : sched_conf) (l cur : nat) (k : kernel) : bool * kernel :=
  let lk := sleeplocks k !!! l in
  let me := get_proc k cur in
  if sl_locked lk then
    let donor := donor_prio me in
    let k := if sl_pi_waiter_max lk <? donor
             then k <| sleeplocks := <[l := lk <| sl_pi_waiter_max := donor |>]> (sleeplocks k) |>
             else k in
    let k := if 0 <? sl_pid lk then pi_donate mode (sl_pid lk) donor k else k in
    (false, sleep_enter cur (ChSleeplock l) k)
  else
    (true, k <| sleeplocks := <[l := mk_sleeplock true (pid me) 0]> (sleeplocks k) |>).

Definition releasesleep (mode : sched_conf) (l : nat) (k : kernel) : kernel :=
  let owner_pid := sl_pid (sleeplocks k !!! l) in
  let k := k <| sleeplocks := <[l := mk_sleeplock false 0 0]> (sleeplocks k) |> in
  let k := wakeup mode (ChSleeplock l) k in
  if 0 <? owner_pid then pi_recalc owner_pid k else k.

Definition holdingsleep (l cur : nat) (k : kernel) : bool :=
  let lk := sleeplocks k !!! l in
  sl_locked lk && (sl_pid lk =? pid (get_proc k cur)).

(** ** Maxima over a table *)

Lemma max_where_ge {A} (c : A → bool) v (l : list A) x :
  x ∈ l → c x = true → v x ≤ max_where c v l.
Proof.
  unfold max_where.
  assert (∀ m (l : list A), m ≤ foldl (λ m x, if c x && (m <? v x) then v x else m) m l) as Hle.
  { intros m l'. revert m. induction l' as [|y l' IH]; intros m; simpl; [lia|].
    specialize (IH (if c y && (m <? v y) then v y else m)).
    destruct (c y), (Z.ltb_spec m (v y)); simpl in *; lia. }
  generalize 0. induction l as [|y l IH]; intros m Hx Hc; [set_solver|]. simpl.
  apply elem_of_cons in Hx as [<-|Hx]; [|by apply IH]. rewrite Hc. simpl.
  specialize (Hle (if m <? v x then v x else m) l).
  destruct (Z.ltb_spec m (v x)); lia.
Qed.

Lemma max_where_attained {A} (c : A → bool) v (l : list A) :
  max_where c v l = 0 ∨ ∃ x, x ∈ l ∧ c x = true ∧ max_where c v l = v x.
Proof.
  unfold max_where. induction l as [|y l IH] using rev_ind; [by left|].
  rewrite foldl_app. simpl. set (m := foldl _ _ _) in *.
  destruct (c y && (m <? v y)) eqn:E; bool_facts.
  - right. exists y. set_solver.
  - destruct IH as [|(x & ? & ? & ?)]; [by left|right]. exists x. set_solver.
Qed.

Lemma max_where_nonneg {A} (c : A → bool) v (l : list A) : 0 ≤ max_where c v l.
Proof.
  unfold max_where. induction l as [|y l IH] using rev_ind; [done|].
  rewrite foldl_app. simpl. case_match; [|done]. bool_facts. lia.
Qed.

(** ** The wait-for chain *)

(** The pid the process [cur] waits for, [None] when it does not wait. *)
Definition waits_for (k : kernel) (cur : Z) : option Z :=
  i ← find_index (used_pid cur) (procs k);
  let p := get_proc k i in
  if bool_decide (state p = SLEEPING) && negb (bool_decide (p_chan p = None)) then
    let o := owner_of_chan (p_chan p) k in
    if 0 <? o then Some o else None
  else None.

(** [n] steps along the chain. *)
Fixpoint chain (k : kernel) (n : nat) (cur : Z) : option Z :=
  match n with
  | O => Some cur
  | S n => waits_for k cur ≫= chain k n
  end.

Lemma chain_app k n m cur : chain k (n + m) cur = chain k n cur ≫= chain k m.
Proof.
  revert cur. induction n as [|n IH]; intros cur; simpl; [done|].
  destruct (waits_for k cur); simpl; [apply IH|done].
Qed.

Lemma chain_S k n cur : chain k (S n) cur = chain k n cur ≫= waits_for k.
Proof.
  rewrite <-Nat.add_1_r, chain_app. destruct (chain k n cur); simpl; [|done].
  by destruct (waits_for k _).
Qed.



Section shortest.
Context (k : kernel) (start_pid cur : Z) (n : nat).
Hypothesis Hstart : start_pid ∈ (pid <$> procs k).
Hypothesis Hn : chain k n cur = Some start_pid.
Hypothesis Hmin : ∀ m, chain k m cur = Some start_pid → (n ≤ m)%nat.


End shortest.


(** ** Sleep locks: waiters and holders *)

(** A process waits on a sleep lock only while the lock is held, and only on
    registered locks. *)
Definition sl_inv (k : kernel) : Prop :=
  ∀ l p, p ∈ procs k → waiting_on (ChSleeplock l) p = true →
    ∃ lk, sleeplocks k !! l = Some lk ∧ sl_locked lk = true.

(** The steps of the system: attempts and releases by running processes, new
    locks, and any other step of the kernel, which does not touch the locks and
    puts no process to sleep on one. *)
Inductive sl_step (mode : sched_conf) (k : kernel) : kernel → Prop :=
  | sl_try l cur :
      (l < length (sleeplocks k))%nat → state (get_proc k cur) = RUNNING →
      sl_step mode k (acquiresleep_try mode l cur k).2
  | sl_release l cur :
      holdingsleep l cur k = true → sl_step mode k (releasesleep mode l k)
  | sl_init l k' : initsleeplock k = Some (l, k') → sl_step mode k k'
  | sl_other k' :
      sleeplocks k' = sleeplocks k →
      (∀ l p', p' ∈ procs k' → waiting_on (ChSleeplock l) p' = true →
         ∃ p, p ∈ procs k ∧ waiting_on (ChSleeplock l) p = true) →
      sl_step mode k k'.

Lemma waiting_upd k i f ch p :
  (∀ q, waiting_on ch (f q) = true → waiting_on ch q = true) →
  p ∈ procs (upd_proc i f k) → waiting_on ch p = true →
  ∃ q, q ∈ procs k ∧ waiting_on ch q = true.
Proof.
  intros Hf (j & Hj)%list_elem_of_lookup_1 Hw. unfold upd_proc in Hj; simpl in Hj.
  destruct (decide (i = j)) as [<-|Hij].
  - rewrite list_lookup_alter_eq in Hj. destruct (procs k !! i) as [q|] eqn:E; [|done].
    simplify_eq/=. exists q. split; [by eapply list_elem_of_lookup_2|]. by apply Hf.
  - rewrite list_lookup_alter_ne in Hj by done. exists p.
    split; [by eapply list_elem_of_lookup_2|done].
Qed.

Lemma pi_donate_waiting mode o d k ch p :
  p ∈ procs (pi_donate mode o d k) → waiting_on ch p = true →
  ∃ q, q ∈ procs k ∧ waiting_on ch q = true.
Proof.
  unfold pi_donate. destruct (o <=? 0); [eauto|].
  destruct (find_index _ _) as [i|]; [|eauto]. apply waiting_upd.
  intros q. unfold donate_proc. destruct mode; repeat case_match; done.
Qed.

Lemma pi_donate_locks mode o d k : sleeplocks (pi_donate mode o d k) = sleeplocks k.
Proof. unfold pi_donate. repeat case_match; done. Qed.

Lemma pi_recalc_waiting o k ch p :
  p ∈ procs (pi_recalc o k) → waiting_on ch p = true →
  ∃ q, q ∈ procs k ∧ waiting_on ch q = true.
Proof.
  unfold pi_recalc. destruct (o <=? 0); [eauto|].
  destruct (find_index _ _) as [i|]; [|eauto]. by apply waiting_upd.
Qed.

Lemma pi_recalc_locks o k : sleeplocks (pi_recalc o k) = sleeplocks k.
Proof. unfold pi_recalc. repeat case_match; done. Qed.

(** The failing attempt, as an update of the lock table followed by steps that
    only change processes. *)
Lemma try_locked mode l cur k lk :
  sleeplocks k !! l = Some lk → sl_locked lk = true →
  ∃ lk' k1, acquiresleep_try mode l cur k = (false, sleep_enter cur (ChSleeplock l) k1) ∧
    sleeplocks k1 = <[l := lk']> (sleeplocks k) ∧
    sl_locked lk' = true ∧ sl_pid lk' = sl_pid lk ∧
    ∀ ch p, p ∈ procs k1 → waiting_on ch p = true →
      ∃ q, q ∈ procs k ∧ waiting_on ch q = true.
Proof.
  intros Hlk Hlocked. unfold acquiresleep_try.
  rewrite (list_lookup_total_correct _ _ _ Hlk), Hlocked.
  set (donor := donor_prio _).
  exists (if sl_pi_waiter_max lk <? donor then lk <| sl_pi_waiter_max := donor |> else lk).
  eexists. split; [done|].
  assert (lk = lk ∧ <[l:=lk]> (sleeplocks k) = sleeplocks k) as [_ Hid]
    by (split; [done|by apply list_insert_id]).
  destruct (sl_pi_waiter_max lk <? donor), (0 <? sl_pid lk);
    rewrite ?pi_donate_locks; simpl; rewrite ?Hid; split_and!; try done; eauto using pi_donate_waiting.
  all: intros ch p Hp Hw; destruct (pi_donate_waiting _ _ _ _ _ _ Hp Hw) as (q & Hq & ?);
    by exists q.
Qed.

Lemma sl_inv_try mode l cur k :
  sl_inv k → (l < length (sleeplocks k))%nat → sl_inv (acquiresleep_try mode l cur k).2.
Proof.
  intros Hinv Hl. destruct (lookup_lt_is_Some_2 (sleeplocks k) l Hl) as [lk Hlk].
  destruct (sl_locked lk) eqn:Hlocked.
  - destruct (try_locked mode l cur k lk Hlk Hlocked) as (lk' & k1 & -> & Hs & Hl' & _ & Hw1).
    simpl. intros l' p Hp Hw. change (sleeplocks (sleep_enter _ _ k1)) with (sleeplocks k1).
    rewrite Hs. destruct (decide (l' = l)) as [->|Hne].
    { exists lk'. by rewrite list_lookup_insert_eq. }
    rewrite list_lookup_insert_ne by done.
    unfold sleep_enter in Hp.
    apply (waiting_upd _ _ _ (ChSleeplock l')) in Hp as (q & Hq & Hwq); [| |exact Hw].
    + destruct (Hw1 _ q Hq Hwq) as (q' & ? & ?). by eapply Hinv.
    + intros q. unfold waiting_on, sleeping_on, susp_sleeping_on; simpl.
      rewrite (bool_decide_eq_false_2 (Some (ChSleeplock l) = _)) by congruence. done.
  - unfold acquiresleep_try. rewrite (list_lookup_total_correct _ _ _ Hlk), Hlocked. simpl.
    intros l' p Hp Hw. simpl. destruct (decide (l' = l)) as [->|Hne].
    + eexists. rewrite list_lookup_insert_eq by done. done.
    + rewrite list_lookup_insert_ne by done. by eapply Hinv.
Qed.

Lemma sl_inv_release mode l k : sl_inv k → sl_inv (releasesleep mode l k).
Proof.
  intros Hinv. unfold releasesleep. set (k1 := k <| sleeplocks := _ |>).
  assert (sl_inv (wakeup mode (ChSleeplock l) k1)) as Hw.
  { intros l' p (q & -> & Hq)%list_elem_of_fmap Hw. simpl.
    destruct (decide (l' = l)) as [->|Hne].
    { by rewrite wake_proc_not_waiting in Hw. }
    rewrite list_lookup_insert_ne by done. apply (Hinv l' q Hq).
    destruct (waiting_on (ChSleeplock l) q) eqn:E; [|by rewrite wake_proc_idle in Hw].
    unfold waiting_on, sleeping_on, susp_sleeping_on in Hw.
    rewrite wake_proc_chan in Hw.
    unfold waiting_on, sleeping_on, susp_sleeping_on in E.
    destruct (bool_decide_reflect (p_chan q = Some (ChSleeplock l))) as [Hc|];
      [|by rewrite !andb_false_r in E].
    rewrite Hc, (bool_decide_eq_false_2 (Some (ChSleeplock l) = _)) in Hw by congruence.
    by rewrite !andb_false_r in Hw. }
  case_match; [|done]. intros l' p Hp Hwp.
  apply pi_recalc_waiting with (1 := Hp) in Hwp as (q & Hq & Hwq).
  rewrite pi_recalc_locks. by eapply Hw.
Qed.

Lemma sl_inv_step mode k k' : sl_inv k → sl_step mode k k' → sl_inv k'.
Proof.
  intros Hinv Hstep. destruct Hstep as [l cur Hl _|l cur _|l k' Hi|k' Hs Hw].
  - by apply sl_inv_try.
  - by apply sl_inv_release.
  - unfold initsleeplock in Hi. case_match; simplify_eq. intros l p Hp Hw. simpl in *.
    destruct (Hinv l p Hp Hw) as (lk & Hlk & ?). exists lk. split; [|done].
    by apply lookup_app_l_Some.
  - intros l p Hp Hwp. rewrite Hs. destruct (Hw l p Hp Hwp) as (q & Hq & Hwq).
    by eapply Hinv.
Qed.

Lemma sl_inv_reachable mode k k' : sl_inv k → rtc (sl_step mode) k k' → sl_inv k'.
Proof. intros H. induction 1; [done|]. eauto using sl_inv_step. Qed.

(** ** Theorems *)


(** priority inheritance. pi_recalc() sets the boost of the owner, the
    first used process with the pid, to the largest priority waiting on any
    monitor or sleep lock that the owner holds, to 0 when there is none, and
    changes nothing else. *)
Theorem pi_recalc_is_max owner_pid i p k :
  0 < owner_pid → find_index (used_pid owner_pid) (procs k) = Some i →
  procs k !! i = Some p →
  ∃ boost, pi_recalc owner_pid k = upd_proc i (λ p, p <| pi_boost := boost |>) k ∧
    (∀ m, m ∈ monitors k → m_allocated m = true → m_locked m = true →
       m_owner m = owner_pid → m_pi_waiter_max m ≤ boost) ∧
    (∀ l, l ∈ sleeplocks k → sl_locked l = true → sl_pid l = owner_pid →
       sl_pi_waiter_max l ≤ boost) ∧
    0 ≤ boost ∧
    (boost = 0 ∨
     (∃ m, m ∈ monitors k ∧ m_locked m = true ∧ m_owner m = owner_pid ∧
           boost = m_pi_waiter_max m) ∨
     (∃ l, l ∈ sleeplocks k ∧ sl_locked l = true ∧ sl_pid l = owner_pid ∧
           boost = sl_pi_waiter_max l)).
Proof.
  intros Ho Hi Hp. unfold pi_recalc.
  destruct (Z.leb_spec owner_pid 0); [lia|]. rewrite Hi.
  set (mm := monitor_max_waiter_for_pid owner_pid k).
  set (sm := sleeplock_max_waiter_for_pid owner_pid k).
  exists (if mm <? sm then sm else mm). split; [done|].
  assert (0 ≤ mm) by apply max_where_nonneg. assert (0 ≤ sm) by apply max_where_nonneg.
  split_and!.
  - intros m Hm Ha Hl Hw. assert (m_pi_waiter_max m ≤ mm).
    { apply max_where_ge; [done|]. by rewrite Ha, Hl, Hw, Z.eqb_refl. }
    destruct (Z.ltb_spec mm sm); lia.
  - intros l Hl Hk Hw. assert (sl_pi_waiter_max l ≤ sm).
    { apply max_where_ge; [done|]. by rewrite Hk, Hw, Z.eqb_refl. }
    destruct (Z.ltb_spec mm sm); lia.
  - case_match; lia.
  - destruct (Z.ltb_spec mm sm).
    + destruct (max_where_attained (λ l, sl_locked l && (sl_pid l =? owner_pid))
        sl_pi_waiter_max (sleeplocks k)) as [E|(l & Hl & Hc & E)]; [by left|].
      right. right. exists l. bool_facts. done.
    + destruct (max_where_attained
        (λ m, m_allocated m && m_locked m && (m_owner m =? owner_pid))
        m_pi_waiter_max (monitors k)) as [E|(m & Hm & Hc & E)]; [by left|].
      right. left. exists m. bool_facts. done.
Qed.

(** C34: sleep locks lose no wakeup. Whatever running processes acquire and
    release, in any order and interleaved with any other step of the kernel
    that does not touch the locks, a process sleeps (suspended or not) on a
    sleep lock only while the lock is held: a free lock has no sleeper. *)
Theorem sleeplock_no_lost_wakeup mode k k' l p :
  sl_inv k → rtc (sl_step mode) k k' →
  p ∈ procs k' → waiting_on (ChSleeplock l) p = true →
  ∃ lk, sleeplocks k' !! l = Some lk ∧ sl_locked lk = true.
Proof. intros Hinv Hrun. exact (sl_inv_reachable mode k k' Hinv Hrun l p). Qed.

(** *** Concrete instances: process 3 owns semaphore 0 and sleeps on semaphore 1,
    which process 4 owns; process 4 is about to sleep on semaphore 0. *)

Definition demo_dl : kernel :=
  kernel_zero
    <| sems := <[0%nat := mk_sem 0 0 3 true]> (<[1%nat := mk_sem 0 1 4 true]> (sems kernel_zero)) |>
    <| sleeplocks := [mk_sleeplock true 4 7; mk_sleeplock false 0 0] |>
    <| procs :=
      [proc_zero <| state := SLEEPING |> <| pid := 3 |> <| p_chan := Some (ChSem 1) |>;
       proc_zero <| state := RUNNING |> <| pid := 4 |> <| priority := 10 |>;
       proc_zero <| state := RUNNING |> <| pid := 5 |> <| priority := 12 |>]
      ++ replicate 61 proc_zero |>.


Lemma pi_recalc_is_max_witness :
  ∃ boost, pi_recalc 4 demo_dl = upd_proc 1 (λ p, p <| pi_boost := boost |>) demo_dl ∧ 7 ≤ boost.
Proof.
  destruct (pi_recalc_is_max 4 1 (get_proc demo_dl 1) demo_dl)
    as (boost & Hb & _ & Hl & _); [reflexivity..|].
  exists boost. split; [exact Hb|].
  apply (Hl (mk_sleeplock true 4 7)); [|reflexivity..].
  unfold demo_dl; simpl. apply elem_of_cons. left. reflexivity.
Defined.

Lemma demo_dl_inv : sl_inv demo_dl.
Proof.
  intros l p [Hp|Hp]%elem_of_app.
  - rewrite !elem_of_cons, elem_of_nil in Hp. by destruct Hp as [->|[->|[->|[]]]].
  - by apply elem_of_replicate in Hp as [-> _].
Qed.

Lemma sleeplock_no_lost_wakeup_witness :
  ∃ lk, sleeplocks (acquiresleep_try SCHED_MLFQ 0 2 demo_dl).2 !! 0%nat = Some lk ∧
    sl_locked lk = true.
Proof.
  apply (sleeplock_no_lost_wakeup SCHED_MLFQ demo_dl (acquiresleep_try SCHED_MLFQ 0 2 demo_dl).2
    0 (get_proc (acquiresleep_try SCHED_MLFQ 0 2 demo_dl).2 2)).
  - exact demo_dl_inv.
  - apply rtc_once, (sl_try _ _ 0 2); [simpl; lia|reflexivity].
  - apply list_elem_of_lookup_2 with 2%nat. vm_compute. reflexivity.
  - vm_compute. reflexivity.
Defined.

(** A cycle through a process that the medium-term scheduler has suspended is
    not seen: the walk stops at a state other than SLEEPING. *)
Example deadlock_missed_when_suspended :
  deadlock_detect (Some 1%nat) (Some (ChSem 0))
    (upd_proc 0 (λ p, p <| state := SUSPENDED_SLEEP |>) demo_dl) = 0.
Proof. vm_compute. reflexivity. Qed.
