(* ===== verification/Sems.v ===== *)
(** * Semaphores and semaphore sets (src/kernel/sysproc.c)

    The sys_sem and sys_semset calls run the same P, V and AND-P code on an entry of
    [sems[]] and on an element of a semaphore set. [SemBank] is what that code
    needs of its table: reading and writing a semaphore and the address it
    sleeps on; [sems_bank] and [semset_bank id] are the two tables. The counts
    are C ints, which wrap around at [2 ^ 31]. P is cut at
    its call of sleep() into [p_enter] and [p_resume], AND-P into [multi_try]
    and [multi_resume]. Arguments that the code reads from user memory are
    [None] when copyin() fails. *)

From stdpp Require Import sorting.
From S2P Require Import Prelude KState ProcSync Deadlock.

(** ** The table a semaphore lives in *)

Class SemBank := {
  bank_get : nat → kernel → option sem;
  bank_set : nat → sem → kernel → kernel;
  bank_chan : nat → chan;
}.

Class SemBankLaws (B : SemBank) := {
  bank_get_set_eq i s s' k : bank_get i k = Some s → bank_get i (bank_set i s' k) = Some s';
  bank_get_set_ne i j s k : i ≠ j → bank_get j (bank_set i s k) = bank_get j k;
  bank_set_procs i s k : procs (bank_set i s k) = procs k;
  bank_get_procs i k ps : bank_get i (k <| procs := ps |>) = bank_get i k;
  bank_set_set i s s' k : bank_set i s' (bank_set i s k) = bank_set i s' k;
  bank_set_same i s k : bank_get i k = Some s → bank_set i s k = k;
}.

#[export] Instance sems_bank : SemBank := {|
  bank_get i k := sems k !! i;
  bank_set i s k := k <| sems := <[i := s]> (sems k) |>;
  bank_chan i := ChSem i;
|}.

Definition upd_semset (id : nat) (f : semset → semset) (k : kernel) : kernel :=
  k <| semsets := alter f id (semsets k) |>.

Definition semset_bank (id : nat) : SemBank := {|
  bank_get i k := semsets k !! id ≫= λ ss, set_sems ss !! i;
  bank_set i s k := upd_semset id (λ ss, ss <| set_sems := <[i := s]> (set_sems ss) |>) k;
  bank_chan i := ChSemset id i;
|}.

(** What a system call segment does: return a value, or go to sleep. *)
Inductive outcome := Ret (r : Z) | Slept.

#[export] Instance outcome_eq_dec : EqDecision outcome.
Proof. solve_decision. Defined.

Section ops.
Context {B : SemBank}.
Context (mode : sched_conf).

(** if (count == 0) owner = pid; else if (count > 0) owner = 0; *)
Definition set_owner (pid0 : Z) (s : sem) : sem :=
  if resource_count s =? 0 then s <| owner := pid0 |>
  else if 0 <? resource_count s then s <| owner := 0 |>
  else s.

Definition modify (id : nat) (f : sem → sem) (k : kernel) : kernel :=
  match bank_get id k with Some s => bank_set id (f s) k | None => k end.

(** P by the process at [cur]. *)
Definition p_enter (cur id : nat) (k : kernel) : outcome * kernel :=
  match bank_get id k with
  | None => (Ret (-1), k)
  | Some s =>
      if negb (allocated s) then (Ret (-1), k)
      else
        let s := s <| resource_count := i32 (resource_count s - 1) |> in
        if resource_count s <? 0 then
          let k' := bank_set id s k in
          if negb (deadlock_detect (Some cur) (Some (bank_chan id)) k' =? 0) then
            (Ret (-1), bank_set id (s <| resource_count := i32 (resource_count s + 1) |>) k')
          else
            (Slept, sleep_enter cur (bank_chan id)
                      (bank_set id (s <| waiters := i32 (waiters s + 1) |>) k'))
        else (Ret 0, bank_set id (set_owner (pid (get_proc k cur)) s) k)
  end.

(** P when its sleep() returns. *)
Definition p_resume (cur id : nat) (k : kernel) : kernel :=
  modify id (λ s, set_owner (pid (get_proc k cur)) (s <| waiters := i32 (waiters s - 1) |>))
    (sleep_exit cur k).

Definition v_op (id : nat) (k : kernel) : Z * kernel :=
  match bank_get id k with
  | None => (-1, k)
  | Some s =>
      if negb (allocated s) then (-1, k)
      else
        let s := s <| resource_count := i32 (resource_count s + 1) |> <| owner := 0 |> in
        let k := bank_set id s k in
        (0, if (resource_count s <=? 0) || (0 <? waiters s)
            then wakeupOneProc mode (bank_chan id) k else k)
  end.

(** ** AND-P *)

(** The scan of the semaphores: [None] when one is not allocated, else the first
    whose count is not positive. *)
Fixpoint multi_scan (ids : list nat) (wait : option nat) (k : kernel)
    : option (option nat) :=
  match ids with
  | [] => Some wait
  | i :: ids =>
      match bank_get i k with
      | None => None
      | Some s =>
          if negb (allocated s) then None
          else multi_scan ids
                 (if (resource_count s <=? 0) && bool_decide (wait = None)
                  then Some i else wait) k
      end
  end.

Definition multi_take (pid0 : Z) (ids : list nat) (k : kernel) : kernel :=
  foldl (λ k i, modify i (λ s,
           set_owner pid0 (s <| resource_count := i32 (resource_count s - 1) |>)) k) k ids.

Definition multi_waiters (d : Z) (ids : list nat) (k : kernel) : kernel :=
  foldl (λ k i, modify i (λ s, s <| waiters := i32 (waiters s + d) |>) k) k ids.

(** One turn of the loop; it sleeps on the first semaphore that is not free. *)
Definition multi_try (cur : nat) (ids : list nat) (k : kernel) : outcome * kernel :=
  match multi_scan ids None k with
  | None => (Ret (-1), k)
  | Some None => (Ret 0, multi_take (pid (get_proc k cur)) ids k)
  | Some (Some w) =>
      if negb (deadlock_detect (Some cur) (Some (bank_chan w)) k =? 0) then (Ret (-1), k)
      else (Slept, sleep_enter cur (bank_chan w) (multi_waiters 1 ids k))
  end.

Definition multi_resume (cur : nat) (ids : list nat) (k : kernel) : kernel :=
  multi_waiters (-1) ids (sleep_exit cur k).
End ops.

(** The insertion sort of the id list. The sorted prefix is kept from its last
    element to its first, the order in which the inner loop visits it. *)
Fixpoint shift_insert (key : Z) (prefix : list Z) : list Z :=
  match prefix with
  | x :: prefix' => if key <? x then x :: shift_insert key prefix' else key :: prefix
  | [] => [key]
  end.

Definition sort_ids (ids : list Z) : list Z :=
  rev (foldl (λ prefix key, shift_insert key prefix) [] ids).

(** The checks of range and of repetition on the sorted list. *)
Fixpoint ids_ok (limit : Z) (prev : option Z) (ids : list Z) : bool :=
  match ids with
  | [] => true
  | x :: ids =>
      if (x <? 0) || (limit <=? x) then false
      else if bool_decide (prev = Some x) then false
      else ids_ok limit (Some x) ids
  end.

(** ** System calls on sems[] *)

Definition valid_sem (id : Z) : bool := (0 <=? id) && (id <? Z.of_nat SEM_MAX_NUM).

Definition sys_sem_create (n_sem : Z) (k : kernel) : Z * kernel :=
  if n_sem <? 0 then (-1, k)
  else match find_index (λ s, negb (allocated s)) (sems k) with
       | Some id =>
           (Z.of_nat id,
            k <| sems := alter (λ s, s <| allocated := true |> <| resource_count := n_sem |>
                                       <| owner := 0 |>) id (sems k) |>
              <| sem_used_count := sem_used_count k + 1 |>)
       | None => (-1, k)
       end.

Definition sys_sem_free (id : Z) (k : kernel) : Z * kernel :=
  if negb (valid_sem id) then (-1, k)
  else
    let s := sems k !!! Z.to_nat id in
    if negb (allocated s) then (-1, k)
    else if (resource_count s <? 0) || (0 <? waiters s) then (-1, k)
    else (0, k <| sems := <[Z.to_nat id := s <| allocated := false |>
                              <| resource_count := 0 |> <| owner := 0 |>]> (sems k) |>
               <| sem_used_count := sem_used_count k - 1 |>).

Definition sys_sem_p (cur : nat) (id : Z) (k : kernel) : outcome * kernel :=
  if negb (valid_sem id) then (Ret (-1), k)
  else p_enter (B := sems_bank) cur (Z.to_nat id) k.

Definition sys_sem_v (mode : sched_conf) (id : Z) (k : kernel) : Z * kernel :=
  if negb (valid_sem id) then (-1, k) else v_op (B := sems_bank) mode (Z.to_nat id) k.

Definition sys_sem_p_multi (cur : nat) (n : Z) (uids : option (list Z)) (k : kernel)
    : outcome * kernel :=
  if (n <=? 0) || (Z.of_nat SEM_MAX_NUM <? n) then (Ret (-1), k)
  else match uids with
       | None => (Ret (-1), k)
       | Some ids =>
           let ids := sort_ids ids in
           if negb (ids_ok (Z.of_nat SEM_MAX_NUM) None ids) then (Ret (-1), k)
           else multi_try (B := sems_bank) cur (Z.to_nat <$> ids) k
       end.

(** ** System calls on semaphore sets *)

Definition valid_set (id : Z) : bool := (0 <=? id) && (id <? Z.of_nat SEMSET_MAX_NUM).

Definition sys_semset_create (n : Z) (uvals : option (option (list Z))) (k : kernel)
    : Z * kernel :=
  (* uvals: [None] for a null address, [Some None] for a failing copyin() *)
  if (n <=? 0) || (Z.of_nat SEMSET_MAX_SIZE <? n) then (-1, k)
  else
    match (match uvals with
           | None => Some (replicate (Z.to_nat n) 0)
           | Some None => None
           | Some (Some vals) => if forallb (λ v, 0 <=? v) vals then Some vals else None
           end) with
    | None => (-1, k)
    | Some vals =>
        match find_index (λ ss, negb (set_allocated ss)) (semsets k) with
        | Some id =>
            let mk i := if (i <? Z.to_nat n)%nat then mk_sem (vals !!! i) 0 0 true
                        else mk_sem 0 0 0 false in
            (Z.of_nat id,
             upd_semset id (λ ss, ss <| set_allocated := true |> <| set_count := n |>
                                    <| set_sems := mk <$> seq 0 SEMSET_MAX_SIZE |>) k
               <| semset_used_count := semset_used_count k + 1 |>)
        | None => (-1, k)
        end
    end.

Definition sys_semset_free (id : Z) (k : kernel) : Z * kernel :=
  if negb (valid_set id) then (-1, k)
  else
    let set := semsets k !!! Z.to_nat id in
    if negb (set_allocated set) then (-1, k)
    else
      let n := Z.to_nat (set_count set) in
      if existsb (λ s, negb (allocated s) || (resource_count s <? 0) || (0 <? waiters s))
           (take n (set_sems set)) then (-1, k)
      else (0, upd_semset (Z.to_nat id) (λ ss,
                 ss <| set_sems := (const sem_zero <$> take n (set_sems ss)) ++
                                     drop n (set_sems ss) |>
                    <| set_allocated := false |> <| set_count := 0 |>) k
               <| semset_used_count := semset_used_count k - 1 |>).

(** The common guard of semset_p and semset_v. *)
Definition valid_set_idx (id idx : Z) (k : kernel) : bool :=
  valid_set id &&
  (let set := semsets k !!! Z.to_nat id in
   set_allocated set && (0 <=? idx) && (idx <? set_count set)).

Definition sys_semset_p (cur : nat) (id idx : Z) (k : kernel) : outcome * kernel :=
  if negb (valid_set_idx id idx k) then (Ret (-1), k)
  else p_enter (B := semset_bank (Z.to_nat id)) cur (Z.to_nat idx) k.

Definition sys_semset_v (mode : sched_conf) (id idx : Z) (k : kernel) : Z * kernel :=
  if negb (valid_set_idx id idx k) then (-1, k)
  else v_op (B := semset_bank (Z.to_nat id)) mode (Z.to_nat idx) k.

Definition sys_semset_p_multi (cur : nat) (id n : Z) (uidxs : option (list Z)) (k : kernel)
    : outcome * kernel :=
  if negb (valid_set id) then (Ret (-1), k)
  else if (n <=? 0) || (Z.of_nat SEMSET_MAX_SIZE <? n) then (Ret (-1), k)
  else
    let set := semsets k !!! Z.to_nat id in
    if negb (set_allocated set) || (set_count set <? n) then (Ret (-1), k)
    else match uidxs with
         | None => (Ret (-1), k)
         | Some idxs =>
             let idxs := sort_ids idxs in
             if negb (ids_ok (set_count set) None idxs) then (Ret (-1), k)
             else multi_try (B := semset_bank (Z.to_nat id)) cur (Z.to_nat <$> idxs) k
         end.

(** ** The tables are tables *)

#[export] Instance sems_bank_laws : SemBankLaws sems_bank.
Proof.
  split; unfold bank_get, bank_set, sems_bank; try done.
  - intros i s s' k Hs. simpl. apply list_lookup_insert_eq. by apply lookup_lt_Some in Hs.
  - intros i j s k Hij. simpl. by rewrite list_lookup_insert_ne.
  - intros i s s' k. destruct k. unfold upd, sems_set; simpl. by rewrite list_insert_insert_eq.
  - intros i s k Hs. destruct k. unfold upd, sems_set; simpl in *. by rewrite list_insert_id.
Qed.

#[export] Instance semset_bank_laws id : SemBankLaws (semset_bank id).
Proof.
  split; unfold bank_get, bank_set, semset_bank, upd_semset; try done.
  - intros i s s' k Hs. simpl in *. rewrite list_lookup_alter_eq.
    destruct (semsets k !! id) as [ss|]; simpl in *; [|done].
    apply list_lookup_insert_eq. by apply lookup_lt_Some in Hs.
  - intros i j s k Hij. simpl. rewrite list_lookup_alter_eq.
    destruct (semsets k !! id) as [ss|]; simpl; [|done]. by rewrite list_lookup_insert_ne.
  - intros i s s' k. destruct k. unfold upd, semsets_set; simpl. f_equal.
    rewrite list_alter_alter. apply list_eq. intros j. destruct (decide (id = j)) as [->|].
    + rewrite !list_lookup_alter_eq. destruct (semsets !! j) as [ [] |]; [|done]. simpl.
      unfold set_sems_set; simpl. by rewrite list_insert_insert_eq.
    + by rewrite !list_lookup_alter_ne.
  - intros i s k Hs. destruct k. unfold upd, semsets_set; simpl in *. f_equal.
    destruct (semsets !! id) as [ss|] eqn:E; simpl in Hs; [|done].
    apply (list_alter_id' _ _ _ ss); [done|]. destruct ss; simpl in *.
    unfold set_sems_set; simpl. by rewrite list_insert_id.
Qed.

(** ** The insertion sort *)

Lemma shift_insert_perm key l : shift_insert key l ≡ₚ key :: l.
Proof.
  induction l as [|x l IH]; simpl; [done|]. case_match; [|done].
  rewrite IH. apply Permutation_swap.
Qed.

Lemma shift_insert_sorted key l :
  StronglySorted Z.ge l → StronglySorted Z.ge (shift_insert key l).
Proof.
  induction 1 as [|x l Hs IH Hx]; simpl; [repeat constructor|].
  destruct (Z.ltb_spec key x).
  - constructor; [done|]. rewrite shift_insert_perm. constructor; [lia|done].
  - constructor; [by constructor|]. constructor; [lia|].
    eapply Forall_impl; [exact Hx|]. simpl. lia.
Qed.

Lemma sort_ids_spec ids : sort_ids ids ≡ₚ ids ∧ StronglySorted Z.le (sort_ids ids).
Proof.
  unfold sort_ids.
  assert (∀ l acc, StronglySorted Z.ge acc →
    let r := foldl (λ prefix key, shift_insert key prefix) acc l in
    r ≡ₚ l ++ acc ∧ StronglySorted Z.ge r) as Hloop.
  { induction l as [|x l IH]; intros acc Hacc; simpl; [done|].
    destruct (IH (shift_insert x acc)) as [Hp Hs]; [by apply shift_insert_sorted|].
    split; [|done]. rewrite Hp, shift_insert_perm. by rewrite Permutation_middle. }
  destruct (Hloop ids []) as [Hp Hs]; [constructor|]. rewrite app_nil_r in Hp.
  split; [by rewrite <-Permutation_rev|].
  revert Hs. generalize (foldl (λ prefix key, shift_insert key prefix) [] ids).
  induction 1 as [|x l Hs IH Hx]; simpl; [constructor|].
  apply StronglySorted_app. split; [|split; [done|repeat constructor]].
  intros y z Hy Hz. apply list_elem_of_singleton in Hz as ->.
  rewrite Forall_forall in Hx. apply list_elem_of_In, in_rev, list_elem_of_In, Hx in Hy. lia.
Qed.

(** On a sorted list the checks accept exactly the strictly increasing lists of
    valid ids. *)
Lemma ids_ok_spec limit ids :
  StronglySorted Z.le ids → ids_ok limit None ids = true →
  StronglySorted Z.lt ids ∧ Forall (λ i, 0 ≤ i < limit) ids.
Proof.
  assert (∀ ids prev, StronglySorted Z.le ids → (∀ p x, prev = Some p → x ∈ ids → p ≤ x) →
    ids_ok limit prev ids = true → StronglySorted Z.lt ids ∧ Forall (λ i, 0 ≤ i < limit) ids ∧
    (∀ p x, prev = Some p → x ∈ ids → p < x)) as Hgen.
  { clear ids. induction ids as [|x ids IH]; intros prev Hs Hprev; cbn [ids_ok].
    { intros _. split_and!; [constructor..|set_solver]. }
    apply StronglySorted_cons in Hs as [Hx Hs]. rewrite Forall_forall in Hx.
    destruct (Z.ltb_spec x 0); [done|]. destruct (Z.leb_spec limit x); [done|]. simpl.
    case_bool_decide as Hp; [done|]. intros Hok.
    destruct (IH (Some x) Hs) as (H1 & H2 & H3); [intros p y [= <-]; apply Hx|done|].
    split_and!.
    - apply StronglySorted_cons. split; [|done]. apply Forall_forall. intros y Hy.
      by apply (H3 x y).
    - constructor; [lia|done].
    - intros p y -> Hy. assert (p ≠ x) by congruence.
      assert (p ≤ x) by (apply (Hprev p x eq_refl); set_solver).
      apply elem_of_cons in Hy as [->|Hy]; [lia|]. specialize (Hx y Hy). lia. }
  intros Hs Hok. destruct (Hgen ids None Hs) as (?&?&_); [done..|]. done.
Qed.

(** ** Counting processes *)

Definition count_if (t : proc → bool) (ps : list proc) : Z :=
  sum_with (λ p, if t p then 1 else 0) ps.

Lemma count_if_alter t f i ps p :
  ps !! i = Some p →
  count_if t (alter f i ps) =
    count_if t ps - (if t p then 1 else 0) + (if t (f p) then 1 else 0).
Proof.
  intros Hp. rewrite (list_alter_insert _ _ _ _ Hp). unfold count_if.
  by rewrite (sum_with_insert _ _ _ p).
Qed.

Lemma count_if_nonneg t ps : 0 ≤ count_if t ps.
Proof. apply sum_with_nonneg. intros p _. case_match; lia. Qed.

Lemma count_if_le t ps : count_if t ps ≤ Z.of_nat (length ps).
Proof. unfold count_if. induction ps as [|p ps IH]; simpl; [lia|]. case_match; lia. Qed.

Lemma waiter_count_if ch ps : Z.of_nat (waiter_count ch ps) = count_if (waiting_on ch) ps.
Proof.
  unfold waiter_count, count_if. induction ps as [|p ps IH]; [done|].
  destruct (waiting_on ch p) eqn:E.
  - rewrite filter_cons_True by done. simpl. rewrite E. lia.
  - rewrite filter_cons_False by (by rewrite E). simpl. rewrite E. lia.
Qed.

(** The processes asleep on a channel, and those whose sleep() on it has not
    returned yet: asleep, or woken and not yet back. *)
Definition asleep (ch : chan) (k : kernel) : Z := count_if (waiting_on ch) (procs k).

Definition in_sleep (ch : chan) (p : proc) : bool := bool_decide (p_chan p = Some ch).

Definition inside (ch : chan) (k : kernel) : Z := count_if (in_sleep ch) (procs k).

Lemma asleep_wake_one mode ch k :
  asleep ch (wakeupOneProc mode ch k) = Z.max 0 (asleep ch k - 1) ∧
  inside ch (wakeupOneProc mode ch k) = inside ch k.
Proof.
  split.
  - unfold asleep. rewrite <-!waiter_count_if, wakeupOneProc_procs. simpl.
    rewrite (proj2 (wake_first_spec mode ch _)). lia.
  - unfold inside, wakeupOneProc. destruct (find_index _ _) as [i|] eqn:E; [|done].
    apply find_index_Some in E as [(p & Hp & _) _]. unfold upd_proc; simpl.
    rewrite (count_if_alter _ _ _ _ p Hp). unfold in_sleep. rewrite wake_proc_chan. lia.
Qed.

Lemma wakeupOneProc_length mode ch k :
  length (procs (wakeupOneProc mode ch k)) = length (procs k).
Proof. unfold wakeupOneProc. case_match; [apply upd_proc_length|done]. Qed.

Lemma asleep_sleep_enter ch k cur p :
  procs k !! cur = Some p → state p = RUNNING → p_chan p = None →
  asleep ch (sleep_enter cur ch k) = asleep ch k + 1 ∧
  inside ch (sleep_enter cur ch k) = inside ch k + 1.
Proof.
  intros Hp Hst Hc. unfold asleep, inside, sleep_enter, upd_proc; simpl.
  rewrite !(count_if_alter _ _ _ _ p Hp).
  unfold waiting_on, sleeping_on, susp_sleeping_on, in_sleep; simpl. rewrite Hst, Hc. simpl.
  rewrite !(bool_decide_eq_true_2 (Some ch = Some ch)) by done. simpl. lia.
Qed.

Lemma asleep_sleep_exit ch k cur p :
  procs k !! cur = Some p → state p = RUNNING → p_chan p = Some ch →
  asleep ch (sleep_exit cur k) = asleep ch k ∧
  inside ch (sleep_exit cur k) = inside ch k - 1.
Proof.
  intros Hp Hst Hc. unfold asleep, inside, sleep_exit, upd_proc; simpl.
  rewrite !(count_if_alter _ _ _ _ p Hp).
  unfold waiting_on, sleeping_on, susp_sleeping_on, in_sleep; simpl. rewrite Hst, Hc. simpl.
  rewrite (bool_decide_eq_true_2 (Some ch = Some ch)) by done. lia.
Qed.

(** ** P and V on one semaphore *)

Section pv.
Context {B : SemBank} {HB : SemBankLaws B}.
Context (mode : sched_conf) (id : nat).

Let ch := bank_chan id.

(** A state with two counters: the units granted (a P that returned at once, or
    a waiter that a V woke) and the units released. *)
Inductive pv_step : kernel * Z * Z → kernel * Z * Z → Prop :=
  | pv_p cur p k g v o k' :
      procs k !! cur = Some p → state p = RUNNING → p_chan p = None →
      p_enter cur id k = (o, k') →
      pv_step (k, g, v) (k', if decide (o = Ret 0) then g + 1 else g, v)
  | pv_resume cur p k g v :
      procs k !! cur = Some p → state p = RUNNING → p_chan p = Some ch →
      pv_step (k, g, v) (p_resume cur id k, g, v)
  | pv_v k g v k' :
      v_op mode id k = (0, k') →
      pv_step (k, g, v) (k', g + (asleep ch k - asleep ch k'), v + 1)
  | pv_other k g v k' :
      bank_get id k' = bank_get id k → asleep ch k' = asleep ch k → inside ch k' = inside ch k →
      length (procs k') = length (procs k) →
      pv_step (k, g, v) (k', g, v).

Definition pv_inv (n0 : Z) (st : kernel * Z * Z) : Prop :=
  let '(k, g, v) := st in
  ∃ s, bank_get id k = Some s ∧ allocated s = true ∧
    asleep ch k = Z.max 0 (- resource_count s) ∧ waiters s = inside ch k ∧
    resource_count s + asleep ch k = n0 - g + v ∧
    0 ≤ g ∧ 0 ≤ v ∧ length (procs k) = NPROC.

(** With the units released below [2 ^ 31] the counts stay ints. *)
Lemma pv_bounds n0 k g v s :
  pv_inv n0 (k, g, v) → bank_get id k = Some s → 0 ≤ n0 → n0 + v < 2 ^ 31 →
  - 64 ≤ resource_count s ≤ n0 + v ∧ 0 ≤ waiters s ≤ 64.
Proof.
  intros (s' & Hs & _ & Has & Hw & Hsum & Hg & Hv & Hlen) Hs' Hn Hb. simplify_eq.
  pose proof (count_if_le (waiting_on ch) (procs k)) as H1. fold (asleep ch k) in H1.
  pose proof (count_if_le (in_sleep ch) (procs k)) as H2. fold (inside ch k) in H2.
  pose proof (count_if_nonneg (in_sleep ch) (procs k)) as H3. fold (inside ch k) in H3.
  rewrite Hlen in H1, H2. unfold NPROC in *. lia.
Qed.

Lemma set_owner_fields pid0 s :
  resource_count (set_owner pid0 s) = resource_count s ∧
  waiters (set_owner pid0 s) = waiters s ∧ allocated (set_owner pid0 s) = allocated s.
Proof. unfold set_owner. repeat case_match; done. Qed.

Lemma bank_set_counts t s i k : count_if t (procs (bank_set i s k)) = count_if t (procs k).
Proof using HB. by rewrite bank_set_procs. Qed.

Lemma pv_inv_p n0 cur p k g v o k' :
  0 ≤ n0 → n0 + v < 2 ^ 31 →
  pv_inv n0 (k, g, v) → procs k !! cur = Some p → state p = RUNNING → p_chan p = None →
  p_enter cur id k = (o, k') →
  pv_inv n0 (k', if decide (o = Ret 0) then g + 1 else g, v).
Proof using HB.
  intros Hn Hv Hinv Hp Hst Hc. pose proof Hinv as (s & Hs & Ha & Has & Hw & Hsum & Hg0 & Hv0 & Hlen).
  destruct (pv_bounds n0 k g v s Hinv Hs Hn Hv) as [Hb1 Hb2].
  unfold p_enter. rewrite Hs, Ha. cbn [negb].
  rewrite (i32_small (resource_count s - 1)) by (unfold is_i32; lia).
  set (s1 := s <| resource_count := resource_count s - 1 |>).
  assert (resource_count s1 = resource_count s - 1 ∧ waiters s1 = waiters s) as [Hc1 Hw1] by done.
  rewrite (i32_small (resource_count s1 + 1)) by (unfold is_i32; lia).
  rewrite (i32_small (waiters s1 + 1)) by (unfold is_i32; lia).
  destruct (Z.ltb_spec (resource_count s1) 0) as [Hneg|Hpos].
  - destruct (negb (_ =? 0)); intros [= <- <-]; (rewrite decide_False by done).
    + exists (s1 <| resource_count := resource_count s1 + 1 |>).
      rewrite bank_set_set. split; [by eapply bank_get_set_eq|].
      unfold asleep, inside. rewrite !bank_set_counts, bank_set_procs. simpl.
      fold (asleep ch k) (inside ch k). split_and!; try done; simpl; lia.
    + exists (s1 <| waiters := waiters s1 + 1 |>). rewrite bank_set_set.
      set (k1 := bank_set id _ k).
      assert (procs k1 = procs k) as Hk1 by (unfold k1; by rewrite bank_set_procs).
      assert (procs k1 !! cur = Some p) as Hp1 by (by rewrite Hk1).
      destruct (asleep_sleep_enter ch k1 cur p Hp1 Hst Hc) as [E1 E2].
      fold ch. rewrite E1, E2. unfold sleep_enter, upd_proc. rewrite bank_get_procs.
      split; [by eapply bank_get_set_eq|].
      assert (asleep ch k1 = asleep ch k ∧ inside ch k1 = inside ch k) as [-> ->]
        by (unfold asleep, inside; by rewrite Hk1).
      cbn [resource_count waiters allocated upd waiters_set procs procs_set].
      rewrite length_alter, Hk1. split_and!; try done; simpl; lia.
  - intros [= <- <-]. rewrite decide_True by done.
    destruct (set_owner_fields (pid (get_proc k cur)) s1) as (F1 & F2 & F3).
    exists (set_owner (pid (get_proc k cur)) s1). split; [by eapply bank_get_set_eq|].
    unfold asleep, inside. rewrite !bank_set_counts, bank_set_procs, F1, F2, F3.
    fold (asleep ch k) (inside ch k). split_and!; try done; simpl; lia.
Qed.

Lemma pv_inv_resume n0 cur p k g v :
  0 ≤ n0 → n0 + v < 2 ^ 31 →
  pv_inv n0 (k, g, v) → procs k !! cur = Some p → state p = RUNNING → p_chan p = Some ch →
  pv_inv n0 (p_resume cur id k, g, v).
Proof using HB.
  intros Hn Hv Hinv Hp Hst Hc. pose proof Hinv as (s & Hs & Ha & Has & Hw & Hsum & Hg0 & Hv0 & Hlen).
  destruct (pv_bounds n0 k g v s Hinv Hs Hn Hv) as [Hb1 Hb2]. unfold p_resume, modify.
  destruct (asleep_sleep_exit ch k cur p Hp Hst Hc) as [E1 E2].
  assert (bank_get id (sleep_exit cur k) = Some s) as Hs'
    by (unfold sleep_exit, upd_proc; by rewrite bank_get_procs).
  rewrite Hs'. rewrite (i32_small (waiters s - 1)) by (unfold is_i32; lia).
  set (s1 := s <| waiters := waiters s - 1 |>).
  destruct (set_owner_fields (pid (get_proc k cur)) s1) as (F1 & F2 & F3).
  eexists. split; [by eapply bank_get_set_eq|]. rewrite F1, F2, F3.
  unfold asleep, inside in *. rewrite !bank_set_counts, E1, E2, bank_set_procs.
  unfold sleep_exit. rewrite upd_proc_length. split_and!; try done; simpl; lia.
Qed.

Lemma pv_inv_v n0 k g v k' :
  0 ≤ n0 → n0 + (v + 1) < 2 ^ 31 →
  pv_inv n0 (k, g, v) → v_op mode id k = (0, k') →
  pv_inv n0 (k', g + (asleep ch k - asleep ch k'), v + 1).
Proof using HB.
  intros Hn Hv Hinv. pose proof Hinv as (s & Hs & Ha & Has & Hw & Hsum & Hg0 & Hv0 & Hlen).
  destruct (pv_bounds n0 k g v s Hinv Hs Hn ltac:(lia)) as [Hb1 Hb2].
  unfold v_op. rewrite Hs, Ha. cbn [negb].
  rewrite (i32_small (resource_count s + 1)) by (unfold is_i32; lia).
  set (s1 := s <| resource_count := resource_count s + 1 |> <| owner := 0 |>).
  assert (resource_count s1 = resource_count s + 1 ∧ waiters s1 = waiters s) as [Hc1 Hw1] by done.
  set (k1 := bank_set id s1 k). fold ch.
  assert (procs k1 = procs k) as Hk1 by (unfold k1; by rewrite bank_set_procs).
  assert (asleep ch k1 = asleep ch k ∧ inside ch k1 = inside ch k) as [A1 I1]
    by (unfold asleep, inside; by rewrite Hk1).
  assert (bank_get id k1 = Some s1) as G1 by (by eapply bank_get_set_eq).
  destruct ((resource_count s1 <=? 0) || (0 <? waiters s1)) eqn:Hg; intros [= <-].
  - destruct (asleep_wake_one mode ch k1) as [E1 E2]. exists s1. rewrite E1, E2, A1, I1.
    split; [rewrite wakeupOneProc_procs, bank_get_procs; done|].
    rewrite wakeupOneProc_length, Hk1. split_and!; try done; lia.
  - bool_facts. exists s1. rewrite A1, I1, Hk1. split_and!; try done; lia.
Qed.

Lemma pv_step_mono st st' : pv_step st st' → st.2 ≤ st'.2.
Proof. destruct 1; simpl; lia. Qed.

Lemma pv_inv_step n0 st st' :
  0 ≤ n0 → n0 + st'.2 < 2 ^ 31 → pv_inv n0 st → pv_step st st' → pv_inv n0 st'.
Proof using HB.
  intros Hn Hv Hinv Hstep. destruct Hstep; simpl in Hv.
  - by eapply pv_inv_p.
  - by eapply pv_inv_resume.
  - by eapply pv_inv_v.
  - destruct Hinv as (s & ? & ? & ? & ? & ? & ? & ? & ?). exists s. by rewrite H, H0, H1, H2.
Qed.

Lemma pv_inv_reachable n0 st st' :
  0 ≤ n0 → pv_inv n0 st → rtc pv_step st st' → n0 + st'.2 < 2 ^ 31 → pv_inv n0 st'.
Proof using HB.
  intros Hn H0 Hrun. revert st' Hrun. apply (rtc_ind_r (λ z, n0 + z.2 < 2 ^ 31 → pv_inv n0 z)).
  { done. }
  intros y z Hy Hyz IH Hz. apply (pv_inv_step n0 y); try done. apply IH.
  apply pv_step_mono in Hyz. lia.
Qed.
End pv.

(** ** AND-P takes all or nothing *)

Section multi.
Context {B : SemBank} {HB : SemBankLaws B}.

Lemma modify_get i j f k :
  bank_get j (modify i f k) = if decide (i = j) then f <$> bank_get j k else bank_get j k.
Proof using HB.
  unfold modify. destruct (bank_get i k) as [s|] eqn:E; case_decide as Hij.
  - subst j. rewrite E. simpl. by eapply bank_get_set_eq.
  - by apply bank_get_set_ne.
  - subst j. by rewrite E.
  - done.
Qed.

Lemma modify_procs i f k : procs (modify i f k) = procs k.
Proof using HB. unfold modify. case_match; [apply bank_set_procs|done]. Qed.

Lemma modify_fold f ids k j :
  NoDup ids →
  bank_get j (foldl (λ k i, modify i f k) k ids) =
    (if decide (j ∈ ids) then f <$> bank_get j k else bank_get j k) ∧
  procs (foldl (λ k i, modify i f k) k ids) = procs k.
Proof using HB.
  revert k. induction ids as [|i ids IH]; intros k Hnd; cbn [foldl].
  { split; [|done]. case_decide; [set_solver|done]. }
  apply NoDup_cons in Hnd as [Hi Hnd]. destruct (IH (modify i f k) Hnd) as [-> ->].
  rewrite modify_get, modify_procs. split; [|done].
  destruct (decide (i = j)) as [->|Hij].
  - rewrite decide_False, (decide_True (P := j ∈ j :: ids)) by set_solver. done.
  - destruct (decide (j ∈ ids)); [rewrite decide_True by set_solver|
      rewrite decide_False by set_solver]; done.
Qed.

(** A semaphore that can be taken. *)
Definition free_sem (s : sem) : Prop := allocated s = true ∧ 0 < resource_count s.

Lemma multi_scan_spec ids wait k :
  match multi_scan ids wait k with
  | None => ∃ i, i ∈ ids ∧ ∀ s, bank_get i k = Some s → allocated s = false
  | Some r => (∀ i, i ∈ ids → ∃ s, bank_get i k = Some s ∧ allocated s = true) ∧
      match r with
      | None => wait = None ∧ ∀ i, i ∈ ids → ∃ s, bank_get i k = Some s ∧ free_sem s
      | Some w => wait = Some w ∨
          (w ∈ ids ∧ ∃ s, bank_get w k = Some s ∧ allocated s = true ∧ resource_count s ≤ 0)
      end
  end.
Proof.
  revert wait. induction ids as [|i ids IH]; intros wait; cbn [multi_scan].
  { split; [set_solver|]. destruct wait; [by left|]. split; [done|set_solver]. }
  destruct (bank_get i k) as [s|] eqn:E.
  2: { exists i. split; [set_solver|]. by rewrite E. }
  destruct (allocated s) eqn:Ha; cbn [negb].
  2: { exists i. split; [set_solver|]. rewrite E. by intros ? [= <-]. }
  set (wait' := if (resource_count s <=? 0) && bool_decide (wait = None)
                then Some i else wait).
  specialize (IH wait').
  destruct (multi_scan ids wait' k) as [r|].
  2: { destruct IH as (j & ? & ?). exists j. set_solver. }
  destruct IH as [Hall Hr]. split.
  { intros j [->|Hj]%elem_of_cons; [by exists s|by apply Hall]. }
  destruct r as [w|].
  - destruct Hr as [Hw|(Hw & ?)]; [|right; set_solver].
    unfold wait' in Hw. destruct (Z.leb_spec (resource_count s) 0); simpl in Hw; [|by left].
    case_bool_decide; [|by left]. simplify_eq. right. split; [set_solver|]. by exists s.
  - destruct Hr as [Hw Hfree]. unfold wait' in Hw.
    destruct (Z.leb_spec (resource_count s) 0) as [Hle|Hgt]; simpl in Hw.
    + case_bool_decide; [done|]. congruence.
    + split; [done|]. intros j [->|Hj]%elem_of_cons; [|by apply Hfree].
      exists s. split; [done|]. done.
Qed.
End multi.

Lemma sorted_ids_nodup limit ids :
  ids_ok limit None (sort_ids ids) = true → NoDup (Z.to_nat <$> sort_ids ids) ∧ NoDup ids ∧
  Forall (λ i, 0 ≤ i < limit) ids.
Proof.
  intros Hok. destruct (sort_ids_spec ids) as [Hperm Hsort].
  destruct (ids_ok_spec limit _ Hsort Hok) as [Hlt Hrange].
  assert (NoDup (sort_ids ids)) as Hnd.
  { clear -Hlt. induction Hlt as [|x l Hs IH Hx]; constructor; [|done].
    intros Hin. rewrite Forall_forall in Hx. specialize (Hx x Hin). lia. }
  split_and!.
  - apply NoDup_fmap_2_strong; [|done]. rewrite Forall_forall in Hrange.
    intros x y Hx%Hrange Hy%Hrange. lia.
  - by rewrite <-Hperm.
  - by rewrite <-Hperm.
Qed.

(** ** Theorems *)

(** C35: P and V. For a semaphore (of [sems[]] or of a set) that starts with
    [n0] units, under any interleaving of P, the return of sleeping P's, V and
    steps that do not touch it, its count or its sleepers, as long as [n0] and
    the number of V's together stay below [2 ^ 31]: the count is negative exactly
    by the number of processes asleep on it, so that no process sleeps while a
    unit is free, the waiters field counts the processes inside sleep(), and at
    most [n0] units are granted and not released. AND-P on the same semaphore,
    kill() of a sleeper and the medium-term scheduler's restored sleep are not
    among the steps (see [mixed_p_loses_wakeup] and [killed_waiter_returns_zero]);
    past the bound the count wraps around ([sem_v_overflows]). *)
Theorem semaphore_no_lost_wakeup {B : SemBank} {HB : SemBankLaws B} mode id n0 k0 k g v :
  0 ≤ n0 → n0 + v < 2 ^ 31 →
  pv_inv id n0 (k0, 0, 0) → rtc (pv_step mode id) (k0, 0, 0) (k, g, v) →
  ∃ s, bank_get id k = Some s ∧
    asleep (bank_chan id) k = Z.max 0 (- resource_count s) ∧
    waiters s = inside (bank_chan id) k ∧ g - v = n0 - Z.max 0 (resource_count s) ∧
    g - v ≤ n0.
Proof.
  intros Hn Hv H0 Hrun.
  destruct (pv_inv_reachable mode id n0 _ _ Hn H0 Hrun Hv) as (s & Hs & _ & Has & Hw & Hsum & _).
  exists s. split_and!; try done; lia.
Qed.

(** AND-P. One turn of sem_p_multi takes one unit of every requested
    semaphore exactly when all of them are allocated and have one, and otherwise
    takes none: it fails without any change, or it sleeps on a requested
    semaphore that has no unit, all counts unchanged. *)
Theorem sem_multi_all_or_nothing {B : SemBank} {HB : SemBankLaws B} cur ids k :
  NoDup ids →
  let '(o, k') := multi_try cur ids k in
  (o = Ret 0 ↔ ∀ i, i ∈ ids → ∃ s, bank_get i k = Some s ∧ free_sem s) ∧
  match o with
  | Ret r =>
      if r =? 0 then procs k' = procs k ∧ ∀ i, bank_get i k' =
        if decide (i ∈ ids)
        then (λ s, set_owner (pid (get_proc k cur))
                     (s <| resource_count := i32 (resource_count s - 1) |>)) <$> bank_get i k
        else bank_get i k
      else k' = k
  | Slept =>
      (∃ w s, w ∈ ids ∧ bank_get w k = Some s ∧ resource_count s ≤ 0 ∧
         procs k' = procs (sleep_enter cur (bank_chan w) k)) ∧
      ∀ i, bank_get i k' =
        if decide (i ∈ ids) then (λ s, s <| waiters := i32 (waiters s + 1) |>) <$> bank_get i k
        else bank_get i k
  end.
Proof.
  intros Hnd. unfold multi_try. pose proof (multi_scan_spec ids None k) as Hscan.
  destruct (multi_scan ids None k) as [[w|]|].
  - destruct Hscan as [_ [?|(Hw & s & Hs & Ha & Hc)] ]; [done|].
    assert (¬ ∀ i, i ∈ ids → ∃ s, bank_get i k = Some s ∧ free_sem s) as Hnot.
    { intros Hall. destruct (Hall w Hw) as (s' & ? & _ & ?). simplify_eq. lia. }
    destruct (negb (deadlock_detect _ _ _ =? 0)); [split; [naive_solver|done]|].
    split; [naive_solver|].
    unfold multi_waiters, sleep_enter, upd_proc. split.
    + exists w, s. split_and!; try done. simpl.
      by rewrite (proj2 (modify_fold _ ids k 0%nat Hnd)).
    + intros i. rewrite bank_get_procs. apply modify_fold. done.
  - destruct Hscan as (_ & _ & Hall). split; [naive_solver|]. simpl. unfold multi_take.
    split; [apply (modify_fold _ ids k 0%nat Hnd)|]. intros i. by apply modify_fold.
  - destruct Hscan as (i & Hi & Hs). split; [|done]. split; [done|]. intros Hall.
    destruct (Hall i Hi) as (s & Hs' & Ha & _). rewrite (Hs s Hs') in Ha. done.
Qed.

(** the id list. sem_p_multi goes on exactly with lists of different ids in
    range; it locks the semaphores in increasing order, whatever order the
    caller gave, and so can take none of their locks twice. *)
Theorem sem_multi_ids_sorted limit ids :
  (ids_ok limit None (sort_ids ids) = true →
   NoDup ids ∧ Forall (λ i, 0 ≤ i < limit) ids ∧
   StronglySorted Z.lt (sort_ids ids) ∧ NoDup (Z.to_nat <$> sort_ids ids)) ∧
  sort_ids ids ≡ₚ ids ∧ StronglySorted Z.le (sort_ids ids).
Proof.
  destruct (sort_ids_spec ids) as [Hperm Hsort]. split; [|done]. intros Hok.
  destruct (sorted_ids_nodup _ _ Hok) as (? & ? & ?).
  destruct (ids_ok_spec _ _ Hsort Hok) as [? _]. done.
Qed.

(** *** Concrete instances: semaphore 0 with one unit and three processes. *)

Definition demo_sem (n : Z) : kernel :=
  kernel_zero <| sems := <[0%nat := mk_sem n 0 0 true]> (sems kernel_zero) |>
    <| procs := [proc_zero <| state := RUNNING |> <| pid := 3 |>;
                 proc_zero <| state := RUNNING |> <| pid := 4 |>;
                 proc_zero <| state := RUNNING |> <| pid := 5 |>] ++ replicate 61 proc_zero |>.

Lemma semaphore_no_lost_wakeup_witness :
  let k1 := (p_enter (B := sems_bank) 0 0 (demo_sem 1)).2 in
  let k2 := (p_enter (B := sems_bank) 1 0 k1).2 in
  asleep (ChSem 0) k2 = 1 ∧
  ∃ s, bank_get (SemBank := sems_bank) 0%nat k2 = Some s ∧
    asleep (ChSem 0) k2 = Z.max 0 (- resource_count s).
Proof.
  cbv zeta. set (k1 := (p_enter 0 0 (demo_sem 1)).2). set (k2 := (p_enter 1 0 k1).2).
  split; [vm_compute; reflexivity|].
  destruct (semaphore_no_lost_wakeup (B := sems_bank) SCHED_MLFQ 0 1 (demo_sem 1) k2 1 0)
    as (s & Hs & Ha & _).
  - lia.
  - lia.
  - exists (mk_sem 1 0 0 true). vm_compute. split_and!; first [reflexivity|discriminate].
  - eapply rtc_l.
    { apply (pv_p (B := sems_bank) SCHED_MLFQ 0 0 (get_proc (demo_sem 1) 0) (demo_sem 1) 0 0
               (Ret 0) k1); reflexivity. }
    eapply rtc_l; [|apply rtc_refl].
    apply (pv_p (B := sems_bank) SCHED_MLFQ 0 1 (get_proc k1 1) k1 _ _ Slept k2); reflexivity.
  - exists s. split; assumption.
Defined.

Lemma sem_multi_all_or_nothing_witness :
  (multi_try (B := sems_bank) 0 [0%nat; 1%nat] (demo_sem 1)).1 = Ret (-1) ∧
  (multi_try (B := sems_bank) 0 [0%nat] (demo_sem 1)).1 = Ret 0.
Proof.
  split; [vm_compute; reflexivity|].
  pose proof (sem_multi_all_or_nothing (B := sems_bank) 0 [0%nat] (demo_sem 1)
                (NoDup_singleton 0%nat)) as H.
  destruct (multi_try 0 [0%nat] (demo_sem 1)) as [o k']. apply (proj1 H). intros i Hi.
  apply list_elem_of_singleton in Hi as ->. exists (mk_sem 1 0 0 true).
  split; [reflexivity|]. split; reflexivity.
Defined.

Lemma sem_multi_ids_sorted_witness : StronglySorted Z.lt (sort_ids [7; 2; 5]).
Proof. apply (sem_multi_ids_sorted 128 [7; 2; 5]). vm_compute. reflexivity. Defined.

(** P and AND-P on the same semaphore: process 0 waits in sem_p_multi, process 1
    in sem_p; the V wakes the first, which finds the count still not positive and
    sleeps again; process 1 sleeps on although a unit was released for it. *)
Example mixed_p_loses_wakeup :
  let k1 := (multi_try (B := sems_bank) 0 [0%nat] (demo_sem 0)).2 in
  let k2 := (p_enter (B := sems_bank) 1 0 k1).2 in
  let k3 := (v_op (B := sems_bank) SCHED_MLFQ 0 k2).2 in
  let k4 := multi_resume (B := sems_bank) 0 [0%nat]
              (upd_proc 0 (λ p, p <| state := RUNNING |>) k3) in
  let '(o, k5) := multi_try (B := sems_bank) 0 [0%nat] k4 in
  o = Slept ∧ asleep (ChSem 0) k5 = 2 ∧
  resource_count <$> (sems k5 !! 0%nat) = Some 0.
Proof. vm_compute. auto. Qed.

(** sem_create(INT_MAX) and one V: the count becomes negative. *)
Example sem_v_overflows :
  let '(r, k) := v_op (B := sems_bank) SCHED_MLFQ 0 (demo_sem (2 ^ 31 - 1)) in
  r = 0 ∧ resource_count <$> (sems k !! 0%nat) = Some (- 2 ^ 31).
Proof. vm_compute. auto. Qed.

(** A process that kill() takes out of sem_p returns 0 without a unit: the count
    stays negative with nobody asleep. *)
Example killed_waiter_returns_zero :
  let k1 := (p_enter (B := sems_bank) 0 0 (demo_sem 0)).2 in
  let k2 := (kill SCHED_MLFQ 3 k1).2 in
  let k3 := p_resume (B := sems_bank) 0 0 (upd_proc 0 (λ p, p <| state := RUNNING |>) k2) in
  asleep (ChSem 0) k3 = 0 ∧ resource_count <$> (sems k3 !! 0%nat) = Some (-1).
Proof. vm_compute. auto. Qed.
