(* ===== verification/Monitor.v ===== *)
(** * Monitors and condition variables (src/kernel/sysproc.c, proc/proc.c)

    sys_mon_enter and sys_cond_wait are cut at their calls of sleep():
    [mon_enter] runs up to the first sleep or return, [mon_enter_resume] from a
    return of sleep() to the next one; [cond_wait] releases the monitor and
    sleeps on the condition, [cond_wait_resume] and [cond_wait_again] take the
    monitor again. Guards on the range of the ids come first, as in the code. *)

From S2P Require Import Prelude KState ProcSync Deadlock Sems.

Definition upd_mon (id : nat) (f : monitor → monitor) (k : kernel) : kernel :=
  k <| monitors := alter f id (monitors k) |>.

Definition get_mon (k : kernel) (id : nat) : monitor := monitors k !!! id.

Definition upd_cond (cid : nat) (f : condvar → condvar) (m : monitor) : monitor :=
  m <| m_conds := alter f cid (m_conds m) |>.

Definition get_cond (m : monitor) (cid : nat) : condvar := m_conds m !!! cid.

Definition bad_mid (id : Z) : bool := (id <? 0) || (Z.of_nat MONITOR_MAX_NUM <=? id).
Definition bad_cid (id : Z) : bool := (id <? 0) || (Z.of_nat MONITOR_COND_MAX <=? id).

(** ** Creation and destruction *)

Definition sys_mon_create (k : kernel) : Z * kernel :=
  match find_index (λ m, negb (m_allocated m)) (monitors k) with
  | Some id =>
      (Z.of_nat id, upd_mon id (λ _,
         mk_monitor true false 0 0 0 (replicate MONITOR_COND_MAX condvar_zero)) k)
  | None => (-1, k)
  end.

Definition sys_mon_free (id : Z) (k : kernel) : Z * kernel :=
  if bad_mid id then (-1, k)
  else
    let m := get_mon k (Z.to_nat id) in
    if negb (m_allocated m) || m_locked m || (0 <? m_waiters m) then (-1, k)
    else if existsb (λ c, c_allocated c || (0 <? c_waiters c)) (m_conds m) then (-1, k)
    else (0, upd_mon (Z.to_nat id)
               (λ m, m <| m_allocated := false |> <| m_pi_waiter_max := 0 |>) k).

Definition sys_cond_create (mid : Z) (k : kernel) : Z * kernel :=
  if bad_mid mid then (-1, k)
  else
    let m := get_mon k (Z.to_nat mid) in
    if negb (m_allocated m) then (-1, k)
    else match find_index (λ c, negb (c_allocated c)) (m_conds m) with
         | Some i => (Z.of_nat i, upd_mon (Z.to_nat mid) (upd_cond i (λ _, mk_condvar true 0)) k)
         | None => (-1, k)
         end.

Definition sys_cond_free (mid cid : Z) (k : kernel) : Z * kernel :=
  if bad_mid mid || bad_cid cid then (-1, k)
  else
    let m := get_mon k (Z.to_nat mid) in
    let c := get_cond m (Z.to_nat cid) in
    if negb (m_allocated m) || negb (c_allocated c) || (0 <? c_waiters c) then (-1, k)
    else (0, upd_mon (Z.to_nat mid)
               (upd_cond (Z.to_nat cid) (λ c, c <| c_allocated := false |>)) k).

Section with_sched.
Context (mode : sched_conf).

(** ** Entering *)

(** m->locked = 1; m->owner = pid; m->pi_waiter_max = 0; return 0 *)
Definition mon_take (cur id : nat) (k : kernel) : kernel :=
  upd_mon id (λ m, m <| m_locked := true |> <| m_owner := pid (get_proc k cur) |>
                     <| m_pi_waiter_max := 0 |>) k.

(** m->waiters++; sleep(m, ...) *)
Definition mon_block (cur id : nat) (k : kernel) : kernel :=
  sleep_enter cur (ChMon id) (upd_mon id (λ m, m <| m_waiters := m_waiters m + 1 |>) k).

(** ...; m->waiters--; *)
Definition mon_unblock (cur id : nat) (k : kernel) : kernel :=
  upd_mon id (λ m, m <| m_waiters := m_waiters m - 1 |>) (sleep_exit cur k).

(** The test of the loop of mon_enter, with the body up to its sleep. *)
Definition mon_enter_loop (cur id : nat) (k : kernel) : outcome * kernel :=
  let m := get_mon k id in
  let me := get_proc k cur in
  if m_locked m then
    if killed me then (Ret (-1), k)
    else if negb (deadlock_detect (Some cur) (Some (ChMon id)) k =? 0) then (Ret (-1), k)
    else
      let donor := donor_prio me in
      let k := if m_pi_waiter_max m <? donor
               then upd_mon id (λ m, m <| m_pi_waiter_max := donor |>) k else k in
      let k := if 0 <? m_owner m then pi_donate mode (m_owner m) donor k else k in
      (Slept, mon_block cur id k)
  else (Ret 0, mon_take cur id k).

Definition mon_enter (cur id : nat) (k : kernel) : outcome * kernel :=
  let m := get_mon k id in
  if negb (m_allocated m) || (m_owner m =? pid (get_proc k cur)) then (Ret (-1), k)
  else mon_enter_loop cur id k.

Definition mon_enter_resume (cur id : nat) (k : kernel) : outcome * kernel :=
  mon_enter_loop cur id (mon_unblock cur id k).

Definition sys_mon_enter (cur : nat) (id : Z) (k : kernel) : outcome * kernel :=
  if bad_mid id then (Ret (-1), k) else mon_enter cur (Z.to_nat id) k.

(** ** Leaving *)

(** m->locked = 0; m->owner = 0; *)
Definition mon_open (id : nat) (k : kernel) : kernel :=
  upd_mon id (λ m, m <| m_locked := false |> <| m_owner := 0 |>) k.

Definition mon_exit (cur id : nat) (k : kernel) : Z * kernel :=
  let m := get_mon k id in
  let pid0 := pid (get_proc k cur) in
  if negb (m_allocated m) || negb (m_owner m =? pid0) then (-1, k)
  else
    let k := upd_mon id (λ m, m <| m_pi_waiter_max := 0 |>) (mon_open id k) in
    (0, pi_recalc pid0 (wakeupOneProc mode (ChMon id) k)).

Definition sys_mon_exit (cur : nat) (id : Z) (k : kernel) : Z * kernel :=
  if bad_mid id then (-1, k) else mon_exit cur (Z.to_nat id) k.

(** monitor_release_on_exit(), for the process at [cur]. *)
Definition release_on_exit_body (pid0 : Z) (k : kernel) (id : nat) : kernel :=
  let m := get_mon k id in
  if m_allocated m && m_locked m && (m_owner m =? pid0) then
    wakeupOneProc mode (ChMon id)
      (upd_mon id (λ m, m <| m_pi_waiter_max := 0 |>) (mon_open id k))
  else k.

Definition monitor_release_on_exit (cur : nat) (k : kernel) : kernel :=
  foldl (release_on_exit_body (pid (get_proc k cur))) k (seq 0 MONITOR_MAX_NUM).

(** ** Conditions *)

(** The common guard of wait, signal and broadcast. *)
Definition cond_guard (cur mid cid : nat) (k : kernel) : bool :=
  let m := get_mon k mid in
  m_allocated m && c_allocated (get_cond m cid) && (m_owner m =? pid (get_proc k cur)).

Definition cond_wait (cur mid cid : nat) (k : kernel) : outcome * kernel :=
  if negb (cond_guard cur mid cid k) then (Ret (-1), k)
  else
    let k := upd_mon mid (upd_cond cid (λ c, c <| c_waiters := c_waiters c + 1 |>)) k in
    let k := wakeupOneProc mode (ChMon mid) (mon_open mid k) in
    (Slept, sleep_enter cur (ChCond mid cid) k).

(** while (m->locked) { m->waiters++; sleep; ... } m->locked = 1; m->owner = pid; *)
Definition cond_wait_loop (cur mid : nat) (k : kernel) : outcome * kernel :=
  if m_locked (get_mon k mid) then (Slept, mon_block cur mid k)
  else (Ret 0, upd_mon mid (λ m, m <| m_locked := true |>
                                   <| m_owner := pid (get_proc k cur) |>) k).

(** After the sleep on the condition. *)
Definition cond_wait_resume (cur mid cid : nat) (k : kernel) : outcome * kernel :=
  let k := sleep_exit cur k in
  let k := upd_mon mid (upd_cond cid (λ c, c <| c_waiters := c_waiters c - 1 |>)) k in
  if killed (get_proc k cur) then (Ret (-1), k) else cond_wait_loop cur mid k.

(** After a sleep on the monitor. *)
Definition cond_wait_again (cur mid : nat) (k : kernel) : outcome * kernel :=
  let k := mon_unblock cur mid k in
  if killed (get_proc k cur) then (Ret (-1), k) else cond_wait_loop cur mid k.

Definition cond_signal (cur mid cid : nat) (k : kernel) : Z * kernel :=
  if negb (cond_guard cur mid cid k) then (-1, k)
  else (0, if 0 <? c_waiters (get_cond (get_mon k mid) cid)
           then wakeupOneProc mode (ChCond mid cid) k else k).

Definition cond_broadcast (cur mid cid : nat) (k : kernel) : Z * kernel :=
  if negb (cond_guard cur mid cid k) then (-1, k)
  else (0, if 0 <? c_waiters (get_cond (get_mon k mid) cid)
           then wakeup mode (ChCond mid cid) k else k).

Definition bad_ids (mid cid : Z) : bool := bad_mid mid || bad_cid cid.

Definition sys_cond_wait (cur : nat) (mid cid : Z) (k : kernel) : outcome * kernel :=
  if bad_ids mid cid then (Ret (-1), k) else cond_wait cur (Z.to_nat mid) (Z.to_nat cid) k.

Definition sys_cond_signal (cur : nat) (mid cid : Z) (k : kernel) : Z * kernel :=
  if bad_ids mid cid then (-1, k) else cond_signal cur (Z.to_nat mid) (Z.to_nat cid) k.

Definition sys_cond_broadcast (cur : nat) (mid cid : Z) (k : kernel) : Z * kernel :=
  if bad_ids mid cid then (-1, k) else cond_broadcast cur (Z.to_nat mid) (Z.to_nat cid) k.
End with_sched.

(** ** What a step changes of the waiters of a channel *)

Lemma asleep_le_inside ch k : 0 ≤ asleep ch k ≤ inside ch k.
Proof.
  unfold asleep, inside, count_if. induction (procs k) as [|p ps IH]; simpl; [lia|].
  unfold waiting_on, sleeping_on, susp_sleeping_on, in_sleep in *.
  destruct (bool_decide (state p = SLEEPING)), (bool_decide (state p = SUSPENDED_SLEEP)),
    (bool_decide (p_chan p = Some ch)); simpl; lia.
Qed.

Lemma counts_upd ch k i f p :
  procs k !! i = Some p → waiting_on ch (f p) = waiting_on ch p →
  in_sleep ch (f p) = in_sleep ch p →
  asleep ch (upd_proc i f k) = asleep ch k ∧ inside ch (upd_proc i f k) = inside ch k.
Proof.
  intros Hp Hw Hi. unfold asleep, inside, upd_proc; simpl.
  rewrite !(count_if_alter _ _ _ _ p Hp), Hw, Hi. lia.
Qed.

Lemma counts_used ch k pid0 i f :
  find_index (used_pid pid0) (procs k) = Some i →
  (∀ p, waiting_on ch (f p) = waiting_on ch p ∧ in_sleep ch (f p) = in_sleep ch p) →
  asleep ch (upd_proc i f k) = asleep ch k ∧ inside ch (upd_proc i f k) = inside ch k.
Proof.
  intros [(p & Hp & _) _]%find_index_Some Hf. apply (counts_upd ch k i f p Hp); apply Hf.
Qed.

Lemma pi_donate_counts mode o d ch k :
  asleep ch (pi_donate mode o d k) = asleep ch k ∧
  inside ch (pi_donate mode o d k) = inside ch k ∧
  monitors (pi_donate mode o d k) = monitors k.
Proof.
  unfold pi_donate. destruct (o <=? 0); [done|].
  destruct (find_index _ _) as [i|] eqn:E; [|done].
  destruct (counts_used ch k o i (donate_proc mode (clamp20 d)) E) as [-> ->]; [|done].
  intros p. unfold donate_proc. destruct mode; repeat case_match; done.
Qed.

Lemma pi_recalc_counts o ch k :
  asleep ch (pi_recalc o k) = asleep ch k ∧ inside ch (pi_recalc o k) = inside ch k ∧
  monitors (pi_recalc o k) = monitors k.
Proof.
  unfold pi_recalc. destruct (o <=? 0); [done|].
  destruct (find_index _ _) as [i|] eqn:E; [|done]. cbv zeta.
  match goal with |- context [upd_proc i ?f k] =>
    destruct (counts_used ch k o i f E) as [-> ->]; done end.
Qed.

Lemma wakeupOneProc_running mode ch k i p :
  procs k !! i = Some p → state p = RUNNING →
  procs (wakeupOneProc mode ch k) !! i = Some p ∧
  monitors (wakeupOneProc mode ch k) = monitors k.
Proof.
  intros Hp Hst. unfold wakeupOneProc. destruct (find_index _ _) as [j|] eqn:E; [|done].
  apply find_index_Some in E as [(q & Hq & Hw) _]. split; [|done]. unfold upd_proc; simpl.
  destruct (decide (j = i)) as [->|]; [|by rewrite list_lookup_alter_ne].
  simplify_eq. unfold waiting_on, sleeping_on, susp_sleeping_on in Hw. by rewrite Hst in Hw.
Qed.

Lemma pi_donate_lookup mode o d k i p :
  procs k !! i = Some p →
  ∃ p', procs (pi_donate mode o d k) !! i = Some p' ∧
    state p' = state p ∧ p_chan p' = p_chan p ∧ pid p' = pid p ∧ killed p' = killed p.
Proof.
  intros Hp. unfold pi_donate. destruct (o <=? 0); [by exists p|].
  destruct (find_index _ _) as [j|]; [|by exists p]. unfold upd_proc; simpl.
  destruct (decide (j = i)) as [->|]; [|rewrite list_lookup_alter_ne by done; by exists p].
  rewrite list_lookup_alter_eq, Hp. eexists. split; [done|].
  unfold donate_proc. destruct mode; repeat case_match; done.
Qed.

(** ** Runs of a monitor

    The state of a run is the kernel and the processes inside the monitor: those
    whose mon_enter or cond_wait has returned 0 and that have not left. *)

Definition run_state : Type := kernel * list Z.

(** A process in its critical path: running, not in sleep(). *)
Definition on_hart (k : kernel) (cur : nat) (p : proc) (ch : option chan) : Prop :=
  procs k !! cur = Some p ∧ state p = RUNNING ∧ p_chan p = ch ∧ 0 < pid p.

Definition enters (o : outcome) (pid0 : Z) (hs : list Z) : list Z :=
  if decide (o = Ret 0) then pid0 :: hs else hs.

Definition leaves (pid0 : Z) (hs : list Z) : list Z := filter (λ h, h ≠ pid0) hs.

Inductive mon_step (mode : sched_conf) (id : nat) : run_state → run_state → Prop :=
  | ms_enter cur p k hs o k' :
      on_hart k cur p None → mon_enter mode cur id k = (o, k') →
      mon_step mode id (k, hs) (k', enters o (pid p) hs)
  | ms_enter_resume cur p k hs o k' :
      on_hart k cur p (Some (ChMon id)) → mon_enter_resume mode cur id k = (o, k') →
      mon_step mode id (k, hs) (k', enters o (pid p) hs)
  | ms_exit cur p k hs k' :
      on_hart k cur p None → mon_exit mode cur id k = (0, k') →
      mon_step mode id (k, hs) (k', leaves (pid p) hs)
  | ms_die cur p k hs :
      on_hart k cur p None →
      mon_step mode id (k, hs) (release_on_exit_body mode (pid p) k id, leaves (pid p) hs)
  | ms_wait cur p cid k hs k' :
      on_hart k cur p None → cond_wait mode cur id cid k = (Slept, k') →
      mon_step mode id (k, hs) (k', leaves (pid p) hs)
  | ms_wait_resume cur p cid k hs o k' :
      on_hart k cur p (Some (ChCond id cid)) → cond_wait_resume cur id cid k = (o, k') →
      mon_step mode id (k, hs) (k', enters o (pid p) hs)
  | ms_wait_again cur p k hs o k' :
      on_hart k cur p (Some (ChMon id)) → killed p = false →
      cond_wait_again cur id k = (o, k') →
      mon_step mode id (k, hs) (k', enters o (pid p) hs)
  | ms_other k hs k' :
      monitors k' !! id = monitors k !! id → asleep (ChMon id) k' ≤ asleep (ChMon id) k →
      inside (ChMon id) k' = inside (ChMon id) k → mon_step mode id (k, hs) (k', hs).

(** The processes inside are the owner, or none, and the waiters are counted. *)
Definition mon_weak (m : monitor) (i : Z) (hs : list Z) : Prop :=
  hs = (if m_locked m then [m_owner m] else []) ∧
  (if m_locked m then 0 < m_owner m else m_owner m = 0) ∧ m_waiters m = i ∧
  m_allocated m = true.

(** Moreover, when the monitor is free and somebody sleeps on it, somebody else
    has been woken and is on its way. *)
Definition mon_ok (m : monitor) (a i : Z) (hs : list Z) : Prop :=
  mon_weak m i hs ∧ (m_locked m = false → 0 < a → a < i).

Definition mon_inv (id : nat) (st : run_state) : Prop :=
  ∃ m, monitors st.1 !! id = Some m ∧
    mon_ok m (asleep (ChMon id) st.1) (inside (ChMon id) st.1) st.2.

Section steps.
Context (mode : sched_conf) (id : nat).

Let ch := ChMon id.

Lemma pi_donate_on_hart k cur p o d :
  on_hart k cur p None → ∃ p', on_hart (pi_donate mode o d k) cur p' None.
Proof.
  intros (Hp & Hst & Hc & Hpid).
  destruct (pi_donate_lookup mode o d k cur p Hp) as (p' & Hp' & ? & ? & ? & _).
  exists p'. split_and!; congruence.
Qed.

Lemma upd_mon_get k m f :
  monitors k !! id = Some m → monitors (upd_mon id f k) !! id = Some (f m).
Proof. intros Hm. unfold upd_mon; simpl. by rewrite list_lookup_alter_eq, Hm. Qed.

Lemma get_mon_eq k m : monitors k !! id = Some m → get_mon k id = m.
Proof. apply list_lookup_total_correct. Qed.

Lemma get_proc_eq k cur p : procs k !! cur = Some p → get_proc k cur = p.
Proof. apply list_lookup_total_correct. Qed.

Lemma leaves_owner m i hs pid0 :
  mon_weak m i hs → 0 < pid0 → m_owner m = pid0 →
  m_locked m = true ∧ leaves pid0 hs = [].
Proof.
  intros (Hhs & Ho & _ & _) Hpid He. destruct (m_locked m); [|lia].
  split; [done|]. rewrite Hhs, He. unfold leaves.
  rewrite filter_cons_False by (intros Hn; by apply Hn). done.
Qed.

(** A locked monitor needs nobody on its way. *)
Lemma locked_ok m a i hs : mon_weak m i hs → m_locked m = true → mon_ok m a i hs.
Proof. intros Hw Hl. split; [done|]. by rewrite Hl. Qed.

(** Opening the monitor and waking one of its sleepers. *)
Lemma opened k m hs :
  monitors k !! id = Some m → mon_weak m (inside ch k) hs →
  ∀ f, m_locked (f m) = false → m_owner (f m) = 0 → m_waiters (f m) = m_waiters m →
  m_allocated (f m) = m_allocated m →
  mon_inv id (wakeupOneProc mode ch (upd_mon id f k), []).
Proof.
  intros Hm (_ & _ & Hw & Hal) f Hl Ho Hwf Haf. exists (f m).
  destruct (asleep_wake_one mode ch (upd_mon id f k)) as [Ha Hi].
  assert (monitors (wakeupOneProc mode ch (upd_mon id f k)) !! id = Some (f m)) as Hg
    by (rewrite wakeupOneProc_procs; by apply upd_mon_get).
  cbn [fst snd]. fold ch. rewrite Ha, Hi. split; [done|].
  change (asleep ch (upd_mon id f k)) with (asleep ch k).
  change (inside ch (upd_mon id f k)) with (inside ch k).
  pose proof (asleep_le_inside ch k). unfold mon_ok, mon_weak. rewrite Hl, Ho, Hwf, Haf.
  split_and!; try done. lia.
Qed.

(** A process takes the free monitor. *)
Lemma taken k m hs pid0 f :
  monitors k !! id = Some m → mon_weak m (inside ch k) hs → m_locked m = false →
  0 < pid0 → m_locked (f m) = true → m_owner (f m) = pid0 → m_waiters (f m) = m_waiters m →
  m_allocated (f m) = m_allocated m → mon_inv id (upd_mon id f k, pid0 :: hs).
Proof.
  intros Hm (Hhs & _ & Hw & Hal) Hfree Hpid Hl Ho Hwf Haf. exists (f m).
  split; [by apply upd_mon_get|]. apply locked_ok; [|done].
  unfold mon_weak. rewrite Hl, Ho, Hwf, Haf, Hhs, Hfree. done.
Qed.

(** A process goes to sleep on the monitor while it is locked. *)
Lemma blocked k m hs cur p :
  monitors k !! id = Some m → mon_weak m (inside ch k) hs → m_locked m = true →
  on_hart k cur p None → mon_inv id (mon_block cur id k, hs).
Proof.
  intros Hm (Hhs & Ho & Hw & Hal) Hl (Hp & Hst & Hc & _). unfold mon_block. fold ch.
  set (k1 := upd_mon id _ k).
  destruct (asleep_sleep_enter ch k1 cur p Hp Hst Hc) as [Ha Hi].
  eexists. cbn [fst snd]. fold ch. rewrite Ha, Hi. split.
  - apply (upd_mon_get k m _ Hm).
  - apply locked_ok; [|done]. change (inside ch k1) with (inside ch k).
    split; [done|split; [done|split; [simpl; lia|done]]].
Qed.

(** Back from a sleep on the monitor. *)
Lemma unblocked k m hs cur p :
  monitors k !! id = Some m → mon_weak m (inside ch k) hs → on_hart k cur p (Some ch) →
  ∃ m' p', monitors (mon_unblock cur id k) !! id = Some m' ∧ m_locked m' = m_locked m ∧
    mon_weak m' (inside ch (mon_unblock cur id k)) hs ∧
    on_hart (mon_unblock cur id k) cur p' None ∧ pid p' = pid p ∧ killed p' = killed p.
Proof.
  intros Hm (Hhs & Ho & Hw & Hal) (Hp & Hst & Hc & Hpid). unfold mon_unblock.
  destruct (asleep_sleep_exit ch k cur p Hp Hst Hc) as [Ha Hi].
  exists (m <| m_waiters := m_waiters m - 1 |>), (p <| p_chan := None |>).
  split; [exact (upd_mon_get (sleep_exit cur k) m (λ m, m <| m_waiters := m_waiters m - 1 |>) Hm)|].
  split; [done|].
  change (inside ch (upd_mon id ?f ?k)) with (inside ch k). rewrite Hi.
  split; [split; [done|split; [done|split; [simpl; lia|done]]]|].
  split; [|done]. split_and!; try done. simpl. by rewrite list_lookup_alter_eq, Hp.
Qed.

Lemma enter_loop_inv k m hs cur p o k' :
  monitors k !! id = Some m → mon_weak m (inside ch k) hs → on_hart k cur p None →
  mon_enter_loop mode cur id k = (o, k') → mon_inv id (k', enters o (pid p) hs).
Proof.
  intros Hm Hweak Hon. pose proof Hon as (Hp & _ & _ & Hpid). unfold mon_enter_loop.
  rewrite (get_mon_eq _ _ Hm), (get_proc_eq _ _ _ Hp).
  destruct (m_locked m) eqn:Hl.
  - assert (mon_inv id (k, hs)) as Hsame by (exists m; split; [done|by apply locked_ok]).
    destruct (killed p); [by intros [= <- <-]|].
    destruct (negb _); [by intros [= <- <-]|].
    intros [= <- <-]. unfold enters. rewrite decide_False by done.
    set (k1 := if m_pi_waiter_max m <? donor_prio p then _ else k).
    assert (∃ m1, monitors k1 !! id = Some m1 ∧ m_locked m1 = true ∧
              mon_weak m1 (inside ch k1) hs ∧ on_hart k1 cur p None) as (m1 & Hm1 & Hl1 & Hw1 & Hon1).
    { unfold k1. destruct (m_pi_waiter_max m <? donor_prio p); [|by exists m].
      eexists. split; [by apply (upd_mon_get k m)|]. done. }
    destruct (0 <? m_owner m).
    + destruct (pi_donate_counts mode (m_owner m) (donor_prio p) ch k1) as (_ & Hi & Hmon).
      destruct (pi_donate_on_hart k1 cur p (m_owner m) (donor_prio p) Hon1) as (p1 & Hp1).
      eapply (blocked _ m1); [by rewrite Hmon|by rewrite Hi|done|exact Hp1].
    + by eapply (blocked _ m1).
  - intros [= <- <-]. unfold enters, mon_take. rewrite decide_True by done.
    rewrite (get_proc_eq _ _ _ Hp). by eapply taken.
Qed.

Lemma wait_loop_inv k m hs cur p o k' :
  monitors k !! id = Some m → mon_weak m (inside ch k) hs → on_hart k cur p None →
  cond_wait_loop cur id k = (o, k') → mon_inv id (k', enters o (pid p) hs).
Proof.
  intros Hm Hweak Hon. pose proof Hon as (Hp & _ & _ & Hpid). unfold cond_wait_loop.
  rewrite (get_mon_eq _ _ Hm), (get_proc_eq _ _ _ Hp).
  destruct (m_locked m) eqn:Hl; intros [= <- <-]; unfold enters.
  - rewrite decide_False by done. by eapply blocked.
  - rewrite decide_True by done. by eapply taken.
Qed.

(** Steps that only concern a condition variable. *)
Lemma cond_only k m hs cid f :
  monitors k !! id = Some m → mon_weak m (inside ch k) hs →
  ∃ m', monitors (upd_mon id (upd_cond cid f) k) !! id = Some m' ∧
    m_locked m' = m_locked m ∧ m_owner m' = m_owner m ∧
    mon_weak m' (inside ch (upd_mon id (upd_cond cid f) k)) hs.
Proof.
  intros Hm Hw. exists (upd_cond cid f m). split; [by apply upd_mon_get|]. done.
Qed.

(** The state in which mon_exit and an exiting process leave the monitor. *)
Lemma open_both k :
  upd_mon id (λ m, m <| m_pi_waiter_max := 0 |>) (mon_open id k) =
  upd_mon id (λ m, m <| m_locked := false |> <| m_owner := 0 |> <| m_pi_waiter_max := 0 |>) k.
Proof.
  unfold mon_open, upd_mon. destruct k. unfold upd, monitors_set; simpl.
  by rewrite list_alter_alter.
Qed.

Lemma mon_inv_exit k hs cur p k' :
  mon_inv id (k, hs) → on_hart k cur p None → mon_exit mode cur id k = (0, k') →
  mon_inv id (k', leaves (pid p) hs).
Proof.
  intros (m & Hm & Hok & _) (Hp & Hst & Hc & Hpid). cbn [fst snd] in *. unfold mon_exit.
  rewrite (get_mon_eq _ _ Hm), (get_proc_eq _ _ _ Hp).
  destruct (m_allocated m); cbn [negb orb]; [|done].
  destruct (Z.eqb_spec (m_owner m) (pid p)) as [Ho|]; cbn [negb]; [|done].
  intros [= <-]. destruct (leaves_owner _ _ _ _ Hok Hpid Ho) as [Hl ->].
  rewrite open_both. set (k1 := wakeupOneProc _ _ _).
  assert (mon_inv id (k1, [])) as (m' & Hm' & Hok') by (by apply (opened k m hs Hm Hok)).
  destruct (pi_recalc_counts (pid p) ch k1) as (E1 & E2 & E3).
  exists m'. cbn [fst snd] in *. fold ch in Hok' |- *. rewrite E1, E2, E3. done.
Qed.

Lemma mon_inv_die k hs cur p :
  mon_inv id (k, hs) → on_hart k cur p None →
  mon_inv id (release_on_exit_body mode (pid p) k id, leaves (pid p) hs).
Proof.
  intros (m & Hm & Hok & Hwake) (Hp & Hst & Hc & Hpid). cbn [fst snd] in *.
  unfold release_on_exit_body. rewrite (get_mon_eq _ _ Hm).
  pose proof Hok as (Hhs & Ho & _ & Hal). rewrite Hal. cbn [andb].
  destruct (m_locked m) eqn:Hl; [destruct (Z.eqb_spec (m_owner m) (pid p)) as [He|Hne]|];
    cbn [andb].
  - destruct (leaves_owner _ _ _ _ Hok Hpid He) as [_ ->]. rewrite open_both.
    by apply (opened k m hs Hm Hok).
  - exists m. split; [done|]. cbn [fst snd]. apply locked_ok; [|done].
    replace (leaves (pid p) hs) with hs; [done|]. subst hs. unfold leaves.
    by rewrite filter_cons_True.
  - exists m. split; [done|]. cbn [fst snd]. subst hs. split; [exact Hok|].
    rewrite Hl. exact Hwake.
Qed.

Lemma mon_inv_wait k hs cur p cid k' :
  mon_inv id (k, hs) → on_hart k cur p None → cond_wait mode cur id cid k = (Slept, k') →
  mon_inv id (k', leaves (pid p) hs).
Proof.
  intros (m & Hm & Hok & _) (Hp & Hst & Hc & Hpid). cbn [fst snd] in *.
  unfold cond_wait, cond_guard. rewrite (get_mon_eq _ _ Hm), (get_proc_eq _ _ _ Hp).
  destruct (m_allocated m && c_allocated (get_cond m cid)); cbn [andb negb]; [|done].
  destruct (Z.eqb_spec (m_owner m) (pid p)) as [Ho|]; cbn [negb]; [|done].
  intros [= <-]. destruct (leaves_owner _ _ _ _ Hok Hpid Ho) as [_ ->].
  destruct (cond_only k m hs cid (λ c, c <| c_waiters := c_waiters c + 1 |>) Hm Hok)
    as (m1 & Hm1 & _ & _ & Hok1).
  set (k1 := upd_mon id (upd_cond cid _) k) in *.
  assert (mon_inv id (wakeupOneProc mode ch (mon_open id k1), [])) as (m' & Hm' & Hok')
    by (by apply (opened k1 m1 hs Hm1 Hok1)).
  set (k2 := wakeupOneProc mode ch (mon_open id k1)) in *.
  assert (procs k2 !! cur = Some p) as Hp2 by (by apply wakeupOneProc_running).
  destruct (counts_upd ch k2 cur
    (λ p, p <| p_chan := Some (ChCond id cid) |> <| state := SLEEPING |> <| mlfq_ticks := 0 |>)
    p Hp2) as [E1 E2].
  { unfold waiting_on, sleeping_on, susp_sleeping_on. by rewrite Hst. }
  { unfold in_sleep; simpl. rewrite Hc. done. }
  change (asleep (ChMon id) (sleep_enter cur (ChCond id cid) k2) = asleep (ChMon id) k2) in E1.
  change (inside (ChMon id) (sleep_enter cur (ChCond id cid) k2) = inside (ChMon id) k2) in E2.
  exists m'. split; [exact Hm'|]. cbn [fst snd] in *.
  change (wakeupOneProc mode (ChMon id) (mon_open id k1)) with k2. rewrite E1, E2. done.
Qed.

Lemma mon_inv_wait_resume k hs cur p cid o k' :
  mon_inv id (k, hs) → on_hart k cur p (Some (ChCond id cid)) →
  cond_wait_resume cur id cid k = (o, k') → mon_inv id (k', enters o (pid p) hs).
Proof.
  intros (m & Hm & Hok & Hwake) (Hp & Hst & Hc & Hpid). cbn [fst snd] in *.
  unfold cond_wait_resume. set (k1 := sleep_exit cur k).
  destruct (counts_upd ch k cur (λ p, p <| p_chan := None |>) p Hp) as [E1 E2].
  { unfold waiting_on, sleeping_on, susp_sleeping_on; simpl. by rewrite Hst. }
  { unfold in_sleep; simpl. rewrite Hc. done. }
  change (asleep (ChMon id) k1 = asleep (ChMon id) k) in E1.
  change (inside (ChMon id) k1 = inside (ChMon id) k) in E2.
  rewrite <-E2 in Hok. rewrite <-E1, <-E2 in Hwake.
  destruct (cond_only k1 m hs cid (λ c, c <| c_waiters := c_waiters c - 1 |>) Hm Hok)
    as (m1 & Hm1 & Hl1 & _ & Hok1).
  set (k2 := upd_mon id (upd_cond cid _) k1) in *.
  assert (on_hart k2 cur (p <| p_chan := None |>) None) as Hon.
  { split_and!; try done. simpl. by rewrite list_lookup_alter_eq, Hp. }
  destruct (killed (get_proc k2 cur)).
  - intros [= <- <-]. exists m1. split; [done|]. split; [done|]. rewrite Hl1. exact Hwake.
  - intros Hloop. exact (wait_loop_inv k2 m1 hs cur _ o k' Hm1 Hok1 Hon Hloop).
Qed.

Lemma mon_inv_step st st' : mon_inv id st → mon_step mode id st st' → mon_inv id st'.
Proof.
  intros Hinv Hstep.
  destruct Hstep as [cur p k hs o k' Hon He|cur p k hs o k' Hon He|cur p k hs k' Hon He
    |cur p k hs Hon|cur p cid k hs k' Hon He|cur p cid k hs o k' Hon He
    |cur p k hs o k' Hon Hk He|k hs k' H1 H2 H3].
  - destruct Hinv as (m & Hm & Hok). cbn [fst snd] in *. unfold mon_enter in He.
    destruct (negb _ || _); [simplify_eq; by exists m|].
    eapply enter_loop_inv; [done|apply Hok|done|done].
  - destruct Hinv as (m & Hm & Hok & _). cbn [fst snd] in *.
    destruct (unblocked k m hs cur p Hm Hok Hon) as (m' & p' & Hm' & _ & Hw & Hon' & Hpid & _).
    rewrite <-Hpid. by eapply enter_loop_inv.
  - by eapply mon_inv_exit.
  - by eapply mon_inv_die.
  - by eapply mon_inv_wait.
  - by eapply mon_inv_wait_resume.
  - destruct Hinv as (m & Hm & Hok & _). cbn [fst snd] in *.
    destruct (unblocked k m hs cur p Hm Hok Hon) as (m' & p' & Hm' & _ & Hw & Hon' & Hpid & Hk').
    unfold cond_wait_again in He. pose proof Hon' as (Hp' & _).
    rewrite (get_proc_eq _ _ _ Hp'), Hk', Hk in He. rewrite <-Hpid. by eapply wait_loop_inv.
  - destruct Hinv as (m & Hm & Hw & Hok). exists m. cbn [fst snd] in *. rewrite H1, H3.
    split; [done|]. split; [done|]. intros Hl Ha. specialize (Hok Hl ltac:(lia)). lia.
Qed.

Lemma mon_inv_run st st' : mon_inv id st → rtc (mon_step mode id) st st' → mon_inv id st'.
Proof. intros H. induction 1; eauto using mon_inv_step. Qed.
End steps.

(** ** Theorems *)


(** C19: no lost wakeup. In the same runs, which include kill() of sleepers,
    whenever the monitor is free and a process sleeps on it, another one has been
    woken for it and has not taken it yet; and the waiters field counts the
    processes inside sleep(). Two things are not among the steps and break it: a
    process that finds itself killed when it is woken to take the monitor back in
    cond_wait() ([killed_cond_waiter_loses_wakeup]), and a wakeup that
    midsched_suspend_one() undoes. *)
Theorem monitor_no_lost_wakeup mode id k0 k hs m :
  mon_inv id (k0, []) → rtc (mon_step mode id) (k0, []) (k, hs) →
  monitors k !! id = Some m →
  m_waiters m = inside (ChMon id) k ∧
  (m_locked m = false → 0 < asleep (ChMon id) k →
   0 < inside (ChMon id) k - asleep (ChMon id) k).
Proof.
  intros H0 Hrun Hm.
  destruct (mon_inv_run mode id _ _ H0 Hrun) as (m' & Hm' & (_ & _ & Hw & _) & Hwake).
  simpl in *. simplify_eq. split; [done|]. intros Hl Ha. specialize (Hwake Hl Ha). lia.
Qed.

(** *** Concrete instances: two processes at a fresh monitor. *)

Definition demo_mon : kernel :=
  kernel_zero
    <| monitors := <[0%nat := mk_monitor true false 0 0 0 (replicate MONITOR_COND_MAX condvar_zero)]>
                     (monitors kernel_zero) |>
    <| procs := [proc_zero <| state := RUNNING |> <| pid := 3 |> <| priority := 10 |>;
                 proc_zero <| state := RUNNING |> <| pid := 4 |> <| priority := 12 |>;
                 proc_zero <| state := RUNNING |> <| pid := 5 |> <| priority := 9 |>]
                ++ replicate 61 proc_zero |>.

Lemma demo_mon_inv : mon_inv 0 (demo_mon, []).
Proof.
  eexists. split; [reflexivity|]. split; [vm_compute; auto|]. intros _ H.
  vm_compute in H. discriminate H.
Qed.

Definition demo_mon1 : kernel := (mon_enter SCHED_MLFQ 0 0 demo_mon).2.
Definition demo_mon2 : kernel := (mon_enter SCHED_MLFQ 1 0 demo_mon1).2.

Lemma demo_mon_run : rtc (mon_step SCHED_MLFQ 0) (demo_mon, []) (demo_mon2, [3]).
Proof.
  eapply rtc_l.
  { apply (ms_enter SCHED_MLFQ 0 0 (get_proc demo_mon 0) demo_mon [] (Ret 0) demo_mon1);
      [split_and!; reflexivity|reflexivity]. }
  eapply rtc_l; [|apply rtc_refl].
  apply (ms_enter SCHED_MLFQ 0 1 (get_proc demo_mon1 1) demo_mon1 [3] Slept demo_mon2);
    [split_and!; reflexivity|reflexivity].
Qed.


Lemma monitor_no_lost_wakeup_witness :
  m_waiters (get_mon demo_mon2 0) = inside (ChMon 0) demo_mon2.
Proof.
  destruct (monitor_no_lost_wakeup SCHED_MLFQ 0 demo_mon demo_mon2 [3] (get_mon demo_mon2 0)
    demo_mon_inv demo_mon_run) as [H _]; [vm_compute; reflexivity|]. exact H.
Defined.

(** A process killed in the second half of cond_wait() consumes the wakeup of
    mon_exit(): it returns -1 and leaves the monitor free with process 2 asleep
    on it and nobody on the way. *)
Example killed_cond_waiter_loses_wakeup :
  let run i k := upd_proc i (λ p, p <| state := RUNNING |>) k in
  (* process 1 is in cond_wait and sleeps on the locked monitor, then process 2 *)
  let k1 := upd_mon 0 (λ m, m <| m_locked := true |> <| m_owner := 3 |>) demo_mon in
  let k2 := (cond_wait_loop 1 0 k1).2 in
  let k3 := (mon_enter SCHED_MLFQ 2 0 k2).2 in
  let k4 := (mon_exit SCHED_MLFQ 0 0 k3).2 in
  let k5 := (kill SCHED_MLFQ 4 k4).2 in
  let '(o, k6) := cond_wait_again 1 0 (run 1%nat k5) in
  o = Ret (-1) ∧ m_locked (get_mon k6 0) = false ∧
  asleep (ChMon 0) k6 = 1 ∧ inside (ChMon 0) k6 = 1.
Proof. vm_compute. auto. Qed.
