(* ===== verification/Dmsg.v ===== *)
(** * Direct messages (src/kernel/sysproc.c, src/kernel/proc/proc.c)

    Every process has a queue of at most DMSG_QUEUE_MAX messages: a linked list
    of struct dmsg, each in a page of its own, from [dmsg_head] along [dm_next]
    to [dmsg_tail]. The operations follow those pointers in [dmsg_heap]. The
    address that kalloc() returned (0 when it failed), the bytes that copyin()
    read and whether copyout() succeeded are arguments. sys_dmsgsend and
    sys_dmsgrcv are cut at their calls of sleep(). That the pointers form a
    queue is a theorem: [queue_rep] relates them to a list of messages. *)

From stdpp Require Import gmap.
From S2P Require Import Prelude KState ProcSync Deadlock Sems.

(** dmsg_lock_target(): the first used process with the pid, unless closed. *)
Definition dmsg_lock_target (pid0 : Z) (k : kernel) : option nat :=
  i ← find_index (used_pid pid0) (procs k);
  if dmsg_closed (get_proc k i) then None else Some i.

(** The message [m], written to the page at [page], becomes the last one of the
    process at [t]. *)
Definition dmsg_push (t : nat) (page : Z) (m : dmsg) (k : kernel) : kernel :=
  let k := k <| dmsg_heap := <[page := m]> (dmsg_heap k) |> in
  let tail := dmsg_tail (get_proc k t) in
  let k := if negb (tail =? 0)
           then k <| dmsg_heap := alter (λ m' : dmsg, m' <| dm_next := page |>) tail (dmsg_heap k) |>
           else upd_proc t (λ p, p <| dmsg_head := page |>) k in
  upd_proc t (λ p, p <| dmsg_tail := page |> <| dmsg_count := dmsg_count p + 1 |>
                     <| dmsg_bytes := dmsg_bytes p + dm_len m |>) k.

Section with_sched.
Context (mode : sched_conf).

(** The body of the loop of dmsgsend with the lock of the target [t] held. *)
Definition send_body (cur t : nat) (len : Z) (kbuf : list Z) (page : Z) (k : kernel)
    : outcome * kernel :=
  if DMSG_QUEUE_MAX <=? dmsg_count (get_proc k t) then (Slept, sleep_enter cur (ChDmsg t) k)
  else if page =? 0 then (Ret (-1), k)
  else
    let m := mk_dmsg 0 len (pid (get_proc k cur)) (take (Z.to_nat len) kbuf) in
    (Ret 0, wakeupOneProc mode (ChDmsg t) (dmsg_push t page m k)).

Definition sys_dmsgsend (cur : nat) (pid0 len : Z) (kbuf : option (list Z)) (page : Z)
    (k : kernel) : outcome * kernel :=
  if (pid0 <=? 0) || (len <? 0) || (DMSG_MAX <? len) then (Ret (-1), k)
  else
    match (if 0 <? len then kbuf else Some []) with
    | None => (Ret (-1), k)
    | Some buf =>
        match dmsg_lock_target pid0 k with
        | None => (Ret (-1), k)
        | Some t => send_body cur t len buf page k
        end
    end.

(** The sender's sleep() has returned. *)
Definition dmsgsend_resume (cur t : nat) (len : Z) (kbuf : list Z) (page : Z)
    (k : kernel) : outcome * kernel :=
  let k := sleep_exit cur k in
  if dmsg_closed (get_proc k t) then (Ret (-1), k)
  else send_body cur t len kbuf page k.

(** What dmsgrcv gives its caller: its return value and the bytes copied out.
    [RcvFault] is a read through a [dmsg_head] that points to no message. *)
Inductive rcv_outcome := RcvRet (r : Z) (copied : list Z) | RcvSlept | RcvFault.

(** Taking the first message, [m] at the address [dmsg_head], off the list. *)
Definition dmsg_pop (cur : nat) (m : dmsg) (k : kernel) : kernel :=
  let k := upd_proc cur (λ p, p <| dmsg_head := dm_next m |>) k in
  let k := if dmsg_head (get_proc k cur) =? 0
           then upd_proc cur (λ p, p <| dmsg_tail := 0 |>) k else k in
  upd_proc cur (λ p, p <| dmsg_count := dmsg_count p - 1 |>
                       <| dmsg_bytes := dmsg_bytes p - dm_len m |>) k.

Definition kfree_msg (a : Z) (k : kernel) : kernel :=
  k <| dmsg_heap := delete a (dmsg_heap k) |>.

Definition rcv_body (cur : nat) (len : Z) (copyout_ok : bool) (k : kernel)
    : rcv_outcome * kernel :=
  let p := get_proc k cur in
  if dmsg_count p =? 0 then
    if killed p || dmsg_closed p then (RcvRet (-1) [], k)
    else (RcvSlept, sleep_enter cur (ChDmsg cur) k)
  else
    match dmsg_heap k !! dmsg_head p with
    | None => (RcvFault, k)
    | Some m =>
        if len <? dm_len m then (RcvRet (-1) [], k)
        else
          let kbuf := take (Z.to_nat (dm_len m)) (dm_data m) in
          let k := wakeupOneProc mode (ChDmsg cur) (dmsg_pop cur m k) in
          let k := kfree_msg (dmsg_head p) k in
          if (0 <? dm_len m) && negb copyout_ok then (RcvRet (-1) [], k)
          else (RcvRet (dm_sender m) kbuf, k)
    end.

Definition sys_dmsgrcv (cur : nat) (len : Z) (copyout_ok : bool) (k : kernel)
    : rcv_outcome * kernel :=
  if (len <? 0) || (DMSG_MAX <? len) then (RcvRet (-1) [], k)
  else rcv_body cur len copyout_ok k.

Definition dmsgrcv_resume (cur : nat) (len : Z) (copyout_ok : bool) (k : kernel)
    : rcv_outcome * kernel :=
  rcv_body cur len copyout_ok (sleep_exit cur k).

(** The loop of dmsg_close() from the message at [a]: every turn frees a page of
    the heap, so as many turns as the heap has pages are enough. A link to a page
    that is not a message, which [queues] below excludes, ends it. *)
Fixpoint free_msgs (fuel : nat) (a : Z) (h : gmap Z dmsg) : gmap Z dmsg :=
  match fuel with
  | O => h
  | S fuel =>
      if a =? 0 then h
      else match h !! a with
           | None => h
           | Some m => free_msgs fuel (dm_next m) (delete a h)
           end
  end.

Definition dmsg_close (t : nat) (k : kernel) : kernel :=
  let m := dmsg_head (get_proc k t) in
  let k := upd_proc t (λ p, p <| dmsg_closed := true |> <| dmsg_head := 0 |>
                         <| dmsg_tail := 0 |> <| dmsg_count := 0 |> <| dmsg_bytes := 0 |>) k in
  let k := wakeup mode (ChDmsg t) k in
  k <| dmsg_heap := free_msgs (size (dmsg_heap k)) m (dmsg_heap k) |>.
End with_sched.

(** ** Linked lists *)

(** From the address [a] the links lead through the addresses [l] to null. *)
Fixpoint chain (h : gmap Z dmsg) (a : Z) (l : list Z) : Prop :=
  match l with
  | [] => a = 0
  | x :: l => a = x ∧ x ≠ 0 ∧ ∃ m, h !! x = Some m ∧ chain h (dm_next m) l
  end.

Lemma chain_frame h h' l : ∀ a,
  (∀ x, x ∈ l → h' !! x = h !! x) → chain h a l → chain h' a l.
Proof.
  induction l as [|x l IH]; [done|]. intros a Hh (-> & Hx & m & Hm & Hc). simpl.
  split_and!; [done..|]. exists m. split; [by rewrite Hh by set_solver|].
  apply IH; [|done]. intros y Hy. apply Hh. set_solver.
Qed.

Lemma chain_nonzero h l : ∀ a x, chain h a l → x ∈ l → x ≠ 0.
Proof.
  induction l as [|y l IH]; intros a x; [set_solver|].
  intros (-> & Hy & m & _ & Hc) [->|Hx]%elem_of_cons; [done|]. by apply (IH _ _ Hc).
Qed.

Lemma chain_alloc h l : ∀ a x, chain h a l → x ∈ l → is_Some (h !! x).
Proof.
  induction l as [|y l IH]; intros a x; [set_solver|].
  intros (-> & Hy & m & Hm & Hc) [->|Hx]%elem_of_cons; [by exists m|]. by apply (IH _ _ Hc).
Qed.

(** Linking a new last message: what dmsgsend does when the queue is not empty. *)
Lemma links_snoc h l page m : ∀ a z,
  chain h a (l ++ [z]) → NoDup (l ++ [z]) → page ∉ l ++ [z] → page ≠ 0 → dm_next m = 0 →
  chain (alter (λ m' : dmsg, m' <| dm_next := page |>) z (<[page := m]> h)) a
    ((l ++ [z]) ++ [page]).
Proof.
  induction l as [|x l IH]; intros a z; cbn [app chain].
  - intros (-> & Hz & mz & Hmz & _) _ Hp Hp0 Hn. split_and!; [done..|].
    exists (mz <| dm_next := page |>). assert (page ≠ z) by set_solver. split.
    + by rewrite lookup_alter_eq, lookup_insert_ne, Hmz.
    + simpl. split_and!; [done..|]. exists m.
      by rewrite lookup_alter_ne, lookup_insert_eq.
  - intros (-> & Hx & mx & Hmx & Hc) [Hnx Hnd]%NoDup_cons Hp Hp0 Hn. split_and!; [done..|].
    exists mx. assert (z ≠ x) by set_solver. assert (page ≠ x) by set_solver. split.
    + by rewrite lookup_alter_ne, lookup_insert_ne.
    + apply IH; set_solver.
Qed.

(** The loop of dmsg_close() frees the pages of the list and no other. *)
Lemma free_msgs_chain l : ∀ fuel a h,
  chain h a l → NoDup l → (length l ≤ fuel)%nat →
  free_msgs fuel a h = foldl (λ h x, delete x h) h l.
Proof.
  induction l as [|x l IH]; intros fuel a h; cbn [chain].
  - intros -> _ _. by destruct fuel.
  - intros (-> & Hx & m & Hm & Hc) [Hnx Hnd]%NoDup_cons Hf. simpl in Hf.
    destruct fuel as [|fuel]; [lia|]. simpl. rewrite (proj2 (Z.eqb_neq x 0)) by done.
    rewrite Hm. apply IH; [|done|lia]. eapply chain_frame; [|exact Hc].
    intros y Hy. rewrite lookup_delete_ne; [done|set_solver].
Qed.

Lemma chain_size h a l : chain h a l → NoDup l → (length l ≤ size h)%nat.
Proof.
  intros Hc Hnd. rewrite <-size_dom, <-(size_list_to_set (C := gset Z) l) by done.
  apply subseteq_size. intros x Hx%elem_of_list_to_set. apply elem_of_dom.
  by eapply chain_alloc.
Qed.

Lemma foldl_delete_lookup (h : gmap Z dmsg) l x :
  x ∉ l → foldl (λ h x, delete x h) h l !! x = h !! x.
Proof.
  revert h. induction l as [|y l IH]; intros h Hx; [done|]. simpl.
  rewrite IH by set_solver. apply lookup_delete_ne. set_solver.
Qed.

(** ** The queue of a process *)

Definition msg_ok (m : dmsg) : Prop :=
  0 ≤ dm_len m ≤ DMSG_MAX ∧ Z.of_nat (length (dm_data m)) = dm_len m.

(** The length of the message at an address. *)
Definition len_at (h : gmap Z dmsg) (a : Z) : Z := from_option dm_len 0 (h !! a).

(** The pointers and counters of the process entry describe the queue of the
    messages at the addresses [l]. *)
Record queue_rep (h : gmap Z dmsg) (p : proc) (l : list Z) : Prop := {
  qr_chain : chain h (dmsg_head p) l;
  qr_tail : dmsg_tail p = default 0 (last l);
  qr_nodup : NoDup l;
  qr_count : dmsg_count p = Z.of_nat (length l);
  qr_max : dmsg_count p ≤ DMSG_QUEUE_MAX;
  qr_bytes : dmsg_bytes p = sum_with (len_at h) l;
  qr_ok : ∀ a m, a ∈ l → h !! a = Some m → msg_ok m;
}.

(** Every process has a queue, and no two queues share a page. *)
Record queues (k : kernel) (qs : nat → list Z) : Prop := {
  qs_rep : ∀ t, queue_rep (dmsg_heap k) (get_proc k t) (qs t);
  qs_disj : ∀ t t' a, a ∈ qs t → a ∈ qs t' → t = t';
}.

(** A message as a caller sees it: its sender and its bytes. *)
Definition msg_at (h : gmap Z dmsg) (a : Z) : option (Z * list Z) :=
  m ← h !! a; Some (dm_sender m, dm_data m).

Definition contents (h : gmap Z dmsg) (l : list Z) : list (Z * list Z) := omap (msg_at h) l.

Definition dm_view (p : proc) : Z * Z * Z * Z :=
  (dmsg_head p, dmsg_tail p, dmsg_count p, dmsg_bytes p).

(** What a queue depends on. *)
Lemma queue_rep_ext h h' p p' l :
  dm_view p' = dm_view p → (∀ a, a ∈ l → h' !! a = h !! a) →
  queue_rep h p l → queue_rep h' p' l.
Proof.
  unfold dm_view. intros [= E1 E2 E3 E4] Hh [H1 H2 H3 H4 H5 H6 H7].
  constructor; rewrite ?E1, ?E2, ?E3, ?E4; try done.
  - by apply (chain_frame h).
  - rewrite H6. apply sum_with_ext. intros a Ha. unfold len_at. by rewrite Hh.
  - intros a m Ha. rewrite Hh by done. by apply H7.
Qed.

Lemma contents_ext h h' l :
  (∀ a, a ∈ l → msg_at h' a = msg_at h a) → contents h' l = contents h l.
Proof.
  unfold contents. induction l as [|x l IH]; intros Hh; [done|]. simpl.
  rewrite (Hh x) by set_solver. case_match; [f_equal|]; exact (IH ltac:(set_solver)).
Qed.

Lemma contents_ext' h h' l : (∀ a, a ∈ l → h' !! a = h !! a) → contents h' l = contents h l.
Proof. intros Hh. apply contents_ext. intros a Ha. unfold msg_at. by rewrite Hh. Qed.

(** *** Steps of the scheduler do not touch queues *)

Lemma dm_view_wakeupOne mode ch k t :
  dm_view (get_proc (wakeupOneProc mode ch k) t) = dm_view (get_proc k t).
Proof.
  unfold wakeupOneProc. destruct (find_index _ _) as [i|] eqn:E; [|done].
  destruct (decide (i = t)) as [->|Hne]; [|by rewrite get_proc_upd_ne].
  rewrite get_proc_upd_eq by (by eapply find_index_lt).
  unfold wake_proc, mlfq_reset. repeat case_match; done.
Qed.

Lemma heap_wakeupOne mode ch k : dmsg_heap (wakeupOneProc mode ch k) = dmsg_heap k.
Proof. unfold wakeupOneProc. by case_match. Qed.

Lemma proj_upd {A} (g : proc → A) i f k t :
  (∀ p, g (f p) = g p) → g (get_proc (upd_proc i f k) t) = g (get_proc k t).
Proof.
  intros Hf. destruct (decide (i = t)) as [->|Hne]; [|by rewrite get_proc_upd_ne].
  destruct (decide (t < length (procs k))%nat); [by rewrite get_proc_upd_eq, Hf|].
  unfold get_proc, upd_proc; simpl. rewrite !list_lookup_total_alt.
  rewrite !lookup_ge_None_2; [done|lia|rewrite length_alter; lia].
Qed.

Lemma dm_view_wakeup mode ch k t :
  dm_view (get_proc (wakeup mode ch k) t) = dm_view (get_proc k t).
Proof.
  unfold get_proc, wakeup; simpl. rewrite !list_lookup_total_alt, list_lookup_fmap.
  destruct (procs k !! t) as [p|]; [|done]. simpl.
  unfold wake_proc, mlfq_reset. repeat case_match; done.
Qed.

Lemma queues_quiet k k' qs :
  (∀ t, dm_view (get_proc k' t) = dm_view (get_proc k t)) → dmsg_heap k' = dmsg_heap k →
  queues k qs → queues k' qs.
Proof.
  intros Hv Hh [Hr Hd]. constructor; [|done]. intros t.
  eapply queue_rep_ext; [apply Hv|intros a _; by rewrite Hh|done].
Qed.

(** *** Sending *)

Lemma len_at_alter h z page l :
  sum_with (len_at (alter (λ m' : dmsg, m' <| dm_next := page |>) z h)) l = sum_with (len_at h) l.
Proof.
  apply sum_with_ext. intros a _. unfold len_at. rewrite lookup_alter.
  case_decide; [subst|done]. by destruct (h !! a).
Qed.

Lemma msg_at_alter h z page a :
  msg_at (alter (λ m' : dmsg, m' <| dm_next := page |>) z h) a = msg_at h a.
Proof.
  unfold msg_at. rewrite lookup_alter. case_decide; [subst|done]. by destruct (h !! a).
Qed.

(** The heap and the entry of the target after [dmsg_push]. *)
Definition push_heap (page : Z) (m : dmsg) (tail : Z) (h : gmap Z dmsg) : gmap Z dmsg :=
  if tail =? 0 then <[page := m]> h
  else alter (λ m' : dmsg, m' <| dm_next := page |>) tail (<[page := m]> h).

Definition pushed (page : Z) (m : dmsg) (p : proc) : proc :=
  (if dmsg_tail p =? 0 then p <| dmsg_head := page |> else p) <| dmsg_tail := page |>
    <| dmsg_count := dmsg_count p + 1 |> <| dmsg_bytes := dmsg_bytes p + dm_len m |>.

Lemma dmsg_push_eq t page m k :
  (t < length (procs k))%nat →
  get_proc (dmsg_push t page m k) t = pushed page m (get_proc k t) ∧
  (∀ t', t' ≠ t → get_proc (dmsg_push t page m k) t' = get_proc k t') ∧
  dmsg_heap (dmsg_push t page m k) = push_heap page m (dmsg_tail (get_proc k t)) (dmsg_heap k).
Proof.
  intros Ht. unfold dmsg_push, pushed, push_heap.
  change (get_proc (k <| dmsg_heap := _ |>) t) with (get_proc k t).
  destruct (dmsg_tail (get_proc k t) =? 0); cbn [negb]; split_and!; try done.
  - rewrite !get_proc_upd_eq; [done|done|by rewrite upd_proc_length].
  - intros t' Hne. by rewrite !get_proc_upd_ne.
  - by rewrite get_proc_upd_eq.
  - intros t' Hne. by rewrite get_proc_upd_ne.
Qed.

Lemma push_heap_lookup page m tail h a :
  a ≠ page → a ≠ tail → push_heap page m tail h !! a = h !! a.
Proof.
  intros H1 H2. unfold push_heap. case_match; rewrite ?lookup_alter_ne by done;
    by rewrite lookup_insert_ne.
Qed.

Lemma push_heap_msg page m tail h a :
  a ≠ page → msg_at (push_heap page m tail h) a = msg_at h a.
Proof.
  intros Ha. unfold push_heap. case_match; rewrite ?msg_at_alter; unfold msg_at;
    by rewrite lookup_insert_ne.
Qed.

Lemma push_heap_new page m tail h :
  page ≠ tail → push_heap page m tail h !! page = Some m.
Proof.
  intros Hp. unfold push_heap. case_match; rewrite ?lookup_alter_ne by done;
    by rewrite lookup_insert_eq.
Qed.

Lemma push_chain h p l page m :
  queue_rep h p l → page ∉ l → page ≠ 0 → dm_next m = 0 →
  chain (push_heap page m (dmsg_tail p) h) (dmsg_head (pushed page m p)) (l ++ [page]).
Proof.
  intros [Hc Ht Hnd _ _ _ _] Hp Hp0 Hn. unfold push_heap, pushed.
  destruct (last l) as [z|] eqn:Hz; simpl in Ht; rewrite Ht.
  - apply last_Some in Hz as [l' ->]. assert (z ≠ 0) as Hz0.
    { eapply chain_nonzero; [exact Hc|]. set_solver. }
    rewrite (proj2 (Z.eqb_neq z 0)) by done. by apply links_snoc.
  - apply last_None in Hz as ->. simpl. split_and!; [done..|].
    exists m. by rewrite lookup_insert_eq.
Qed.

Lemma push_rep h p l page m :
  queue_rep h p l → h !! page = None → page ≠ 0 → dm_next m = 0 → msg_ok m →
  dmsg_count p < DMSG_QUEUE_MAX →
  queue_rep (push_heap page m (dmsg_tail p) h) (pushed page m p) (l ++ [page]).
Proof.
  intros Hq Hnew Hp0 Hn Hm Hlt.
  assert (page ∉ l) as Hp.
  { intros Hin. destruct (chain_alloc h l (dmsg_head p) page) as [? E]; [apply Hq|done|].
    by rewrite Hnew in E. }
  assert (page ≠ dmsg_tail p) as Hpt.
  { rewrite (qr_tail _ _ _ Hq). intros ->. destruct (last l) eqn:El; [|done].
    apply Hp. by apply last_Some_elem_of. }
  pose proof (push_chain h p l page m Hq Hp Hp0 Hn) as Hchain.
  destruct Hq as [Hc Ht Hnd Hcnt Hmax Hb Hok].
  constructor; [exact Hchain|..].
  - by rewrite last_snoc.
  - apply NoDup_app. split_and!; [done| |apply NoDup_singleton]. set_solver.
  - unfold pushed; simpl. rewrite length_app. simpl. lia.
  - unfold pushed; simpl. lia.
  - unfold pushed; simpl. rewrite sum_with_app, Hb. f_equal.
    + unfold push_heap. case_match; rewrite ?len_at_alter; apply sum_with_ext; intros a Ha;
        unfold len_at; rewrite lookup_insert_ne; set_solver.
    + simpl. unfold len_at. rewrite push_heap_new by done. simpl. lia.
  - intros a m' Ha Hm'. destruct (decide (a = page)) as [->|Hne].
    + rewrite push_heap_new in Hm' by done. by simplify_eq.
    + assert (a ∈ l) as Hal by set_solver. unfold push_heap in Hm'. case_match.
      * rewrite lookup_insert_ne in Hm' by done. by apply (Hok a).
      * rewrite lookup_alter in Hm'. case_decide; rewrite lookup_insert_ne in Hm' by done;
          [|by apply (Hok a)].
        apply fmap_Some in Hm' as (m0 & Hm0 & ->). apply (Hok _ m0 Hal). congruence.
Qed.

(** dmsgsend adds the message at the end of the target's queue and leaves the
    other queues alone. *)
Lemma push_queues t page m k qs :
  queues k qs → (t < length (procs k))%nat → dmsg_heap k !! page = None → page ≠ 0 →
  dm_next m = 0 → msg_ok m → dmsg_count (get_proc k t) < DMSG_QUEUE_MAX →
  queues (dmsg_push t page m k) (λ t', if decide (t' = t) then qs t ++ [page] else qs t').
Proof.
  intros [Hr Hd] Ht Hnew Hp0 Hn Hm Hlt.
  destruct (dmsg_push_eq t page m k Ht) as (E1 & E2 & E3).
  assert (∀ t', page ∉ qs t') as Hfresh.
  { intros t' Hin. destruct (chain_alloc (dmsg_heap k) (qs t') (dmsg_head (get_proc k t')) page)
      as [? E]; [apply Hr|done|]. by rewrite Hnew in E. }
  constructor.
  - intros t'. rewrite E3. case_decide as Hd'; [subst|].
    + rewrite E1. by apply push_rep.
    + rewrite E2 by done. eapply queue_rep_ext; [done| |apply Hr].
      intros a Ha. apply push_heap_lookup; [intros ->; by apply (Hfresh t')|].
      rewrite (qr_tail _ _ _ (Hr t)). intros ->. destruct (last (qs t)) as [z|] eqn:El.
      * apply Hd'. apply (Hd t' t z); [done|]. by apply last_Some_elem_of.
      * eapply chain_nonzero; [apply (qr_chain _ _ _ (Hr t'))|exact Ha|done].
  - intros t1 t2 a. specialize (Hfresh t1) as F1. specialize (Hfresh t2) as F2.
    specialize (Hd t1 t2 a) as Hda. repeat case_decide; subst; try done; intros Ha Ha'.
    + apply elem_of_app in Ha as [Ha| ->%list_elem_of_singleton]; [auto|done].
    + apply elem_of_app in Ha' as [Ha'| ->%list_elem_of_singleton]; [auto|done].
Qed.

(** *** Receiving *)

(** The entry of the receiver after [dmsg_pop]. *)
Definition popped (m : dmsg) (p : proc) : proc :=
  (if dm_next m =? 0 then p <| dmsg_head := dm_next m |> <| dmsg_tail := 0 |>
   else p <| dmsg_head := dm_next m |>)
    <| dmsg_count := dmsg_count p - 1 |> <| dmsg_bytes := dmsg_bytes p - dm_len m |>.

Lemma dmsg_pop_eq cur m k :
  (cur < length (procs k))%nat →
  get_proc (dmsg_pop cur m k) cur = popped m (get_proc k cur) ∧
  (∀ t, t ≠ cur → get_proc (dmsg_pop cur m k) t = get_proc k t) ∧
  dmsg_heap (dmsg_pop cur m k) = dmsg_heap k.
Proof.
  intros Ht. unfold dmsg_pop, popped. rewrite (get_proc_upd_eq k) by done. simpl.
  destruct (dm_next m =? 0); split_and!; try done.
  - rewrite !get_proc_upd_eq by (by rewrite ?upd_proc_length). done.
  - intros t Hne. by rewrite !get_proc_upd_ne.
  - rewrite !get_proc_upd_eq by (by rewrite ?upd_proc_length). done.
  - intros t Hne. by rewrite !get_proc_upd_ne.
Qed.

Lemma pop_rep h p x l m :
  queue_rep h p (x :: l) → h !! x = Some m → queue_rep (delete x h) (popped m p) l.
Proof.
  intros [Hc Ht Hnd Hcnt Hmax Hb Hok] Hm. simpl in Hc. destruct Hc as (_ & _ & m' & E & Hc).
  assert (m' = m) as -> by congruence. apply NoDup_cons in Hnd as [Hx Hnd].
  assert (∀ y, y ∈ l → delete x h !! y = h !! y) as Hdel.
  { intros y Hy. rewrite lookup_delete_ne; set_solver. }
  assert (chain (delete x h) (dm_next m) l) as Hc' by (by apply (chain_frame h)).
  simpl in Hcnt, Hb. unfold len_at at 1 in Hb. rewrite Hm in Hb. simpl in Hb.
  constructor; unfold popped; try done.
  - destruct (dm_next m =? 0); done.
  - destruct l as [|y l]; simpl in Hc'.
    + by rewrite Hc', Z.eqb_refl.
    + destruct Hc' as (-> & Hy & _). rewrite (proj2 (Z.eqb_neq y 0)) by done. exact Ht.
  - destruct (dm_next m =? 0); simpl; lia.
  - destruct (dm_next m =? 0); simpl; lia.
  - transitivity (sum_with (len_at h) l); [destruct (dm_next m =? 0); simpl; lia|].
    apply sum_with_ext. intros y Hy. unfold len_at. by rewrite Hdel.
  - intros a ma Ha. rewrite Hdel by done. apply Hok. set_solver.
Qed.

(** dmsgrcv takes the first message off the receiver's queue, gives its page
    back, and leaves the other queues alone. *)
Lemma pop_queues mode cur m k qs x l :
  queues k qs → (cur < length (procs k))%nat → qs cur = x :: l → dmsg_heap k !! x = Some m →
  queues (kfree_msg x (wakeupOneProc mode (ChDmsg cur) (dmsg_pop cur m k)))
    (λ t, if decide (t = cur) then l else qs t).
Proof.
  intros [Hr Hd] Hcur Hq Hm. destruct (dmsg_pop_eq cur m k Hcur) as (E1 & E2 & E3).
  set (k1 := wakeupOneProc _ _ _).
  assert (∀ t, dm_view (get_proc k1 t) = dm_view (get_proc (dmsg_pop cur m k) t)) as Hv
    by (intros t; apply dm_view_wakeupOne).
  assert (dmsg_heap k1 = dmsg_heap k) as Hh by (unfold k1; by rewrite heap_wakeupOne).
  constructor.
  - intros t. change (get_proc (kfree_msg x k1) t) with (get_proc k1 t).
    change (dmsg_heap (kfree_msg x k1)) with (delete x (dmsg_heap k1)). rewrite Hh.
    case_decide as Ht; [subst t|].
    + eapply queue_rep_ext; [|done|apply (pop_rep _ (get_proc k cur) x l m)].
      * by rewrite Hv, E1.
      * rewrite <-Hq. apply Hr.
      * done.
    + eapply queue_rep_ext; [| |apply (Hr t)]; [by rewrite Hv, E2|].
      intros a Ha. apply lookup_delete_ne. intros ->. apply Ht.
      apply (Hd t cur a Ha). rewrite Hq. set_solver.
  - intros t t' a. specialize (Hd t t' a). repeat case_decide; subst; rewrite ?Hq in Hd; set_solver.
Qed.

(** *** Closing *)

Lemma close_queues mode t k qs :
  queues k qs → (t < length (procs k))%nat →
  queues (dmsg_close mode t k) (λ t', if decide (t' = t) then [] else qs t').
Proof.
  intros [Hr Hd] Ht. unfold dmsg_close. set (k1 := upd_proc _ _ _).
  change (dmsg_heap (wakeup mode (ChDmsg t) k1)) with (dmsg_heap k).
  rewrite (free_msgs_chain (qs t)); [|apply Hr..|eapply chain_size; apply Hr].
  constructor.
  - intros t'. change (get_proc (_ <| dmsg_heap := _ |>) t') with
      (get_proc (wakeup mode (ChDmsg t) k1) t').
    case_decide as Ht'; [subst t'|].
    + eapply (queue_rep_ext _ _ (get_proc k1 t)); [apply dm_view_wakeup|done|].
      unfold k1. rewrite get_proc_upd_eq by done. constructor; try done.
      * apply NoDup_nil_2.
      * set_solver.
    + eapply queue_rep_ext; [| |apply (Hr t')].
      * rewrite dm_view_wakeup. unfold k1. by rewrite get_proc_upd_ne.
      * intros a Ha. apply (foldl_delete_lookup (dmsg_heap k)). intros Ha'.
        apply Ht'. by apply (Hd t' t a).
  - intros t1 t2 a. specialize (Hd t1 t2 a). repeat case_decide; set_solver.
Qed.

(** ** Runs: the messages accepted for and taken by every process *)

(** What a dmsgrcv that took a message gave its caller: whether its copyout()
    succeeded, its return value and the bytes copied out. *)
Record delivery := mk_delivery { dl_ok : bool; dl_ret : Z; dl_data : list Z }.

Record mrun := mk_mrun {
  mr_k : kernel;
  accepted : nat → list (Z * list Z);
  delivered : nat → list delivery;
}.

Definition note {A} (t : nat) (x : A) (f : nat → list A) : nat → list A :=
  λ t', if decide (t' = t) then f t ++ [x] else f t'.

Definition forget {A} (t : nat) (f : nat → list A) : nat → list A :=
  λ t', if decide (t' = t) then [] else f t'.

(** A send that returns 0 is an accepted message. *)
Definition after_send (t : nat) (msg : Z * list Z) (o : outcome)
    (f : nat → list (Z * list Z)) : nat → list (Z * list Z) :=
  if decide (o = Ret 0) then note t msg f else f.

(** A receive that returns with the count lowered has taken a message; what it
    returned is what its caller got of it. *)
Definition after_rcv (t : nat) (k k' : kernel) (ok : bool) (o : rcv_outcome)
    (f : nat → list delivery) : nat → list delivery :=
  match o with
  | RcvRet r data =>
      if dmsg_count (get_proc k' t) <? dmsg_count (get_proc k t)
      then note t (mk_delivery ok r data) f else f
  | _ => f
  end.

(** kalloc() failed, or returned a page that holds no message: [Kalloc] shows
    that it gives out no page that is in use. *)
Definition fresh (page : Z) (k : kernel) : Prop := page = 0 ∨ dmsg_heap k !! page = None.

Inductive dm_step (mode : sched_conf) : mrun → mrun → Prop :=
  | dm_send cur pid0 len kbuf page k o k' s r :
      fresh page k → (∀ b, kbuf = Some b → len ≤ Z.of_nat (length b)) →
      sys_dmsgsend mode cur pid0 len kbuf page k = (o, k') →
      dm_step mode (mk_mrun k s r)
        (mk_mrun k' (after_send (default 0%nat (dmsg_lock_target pid0 k))
           (pid (get_proc k cur), take (Z.to_nat len) (default [] kbuf)) o s) r)
  | dm_send_resume cur t len kbuf page k o k' s r :
      fresh page k → (t < length (procs k))%nat → 0 ≤ len ≤ DMSG_MAX →
      len ≤ Z.of_nat (length kbuf) →
      dmsgsend_resume mode cur t len kbuf page k = (o, k') →
      dm_step mode (mk_mrun k s r)
        (mk_mrun k' (after_send t (pid (get_proc k cur), take (Z.to_nat len) kbuf) o s) r)
  | dm_recv cur len ok k o k' s r :
      (cur < length (procs k))%nat → sys_dmsgrcv mode cur len ok k = (o, k') →
      dm_step mode (mk_mrun k s r) (mk_mrun k' s (after_rcv cur k k' ok o r))
  | dm_recv_resume cur len ok k o k' s r :
      (cur < length (procs k))%nat → dmsgrcv_resume mode cur len ok k = (o, k') →
      dm_step mode (mk_mrun k s r) (mk_mrun k' s (after_rcv cur k k' ok o r))
  | dm_close t k s r :
      (t < length (procs k))%nat →
      dm_step mode (mk_mrun k s r) (mk_mrun (dmsg_close mode t k) (forget t s) (forget t r))
  | dm_other k k' s r :
      (∀ t, dm_view (get_proc k' t) = dm_view (get_proc k t)) → dmsg_heap k' = dmsg_heap k →
      dm_step mode (mk_mrun k s r) (mk_mrun k' s r).

(** What the caller of a dmsgrcv that took the message must have got: the sender
    and the bytes, or -1 and nothing when copyout() failed. *)
Definition delivers (d : delivery) (msg : Z * list Z) : Prop :=
  if dl_ok d || bool_decide (msg.2 = []) then (dl_ret d, dl_data d) = msg
  else (dl_ret d, dl_data d) = (-1, []).

(** The messages accepted for a process are the ones taken, in order, followed
    by the ones in its queue. *)
Definition fifo (h : gmap Z dmsg) (l : list Z) (s : list (Z * list Z)) (r : list delivery) : Prop :=
  ∃ taken, s = taken ++ contents h l ∧ Forall2 delivers r taken.

Definition dm_inv (st : mrun) : Prop :=
  ∃ qs, queues (mr_k st) qs ∧
    ∀ t, fifo (dmsg_heap (mr_k st)) (qs t) (accepted st t) (delivered st t).

Lemma fifo_ext h h' l s r :
  (∀ a, a ∈ l → msg_at h' a = msg_at h a) → fifo h l s r → fifo h' l s r.
Proof. intros Hh (taken & -> & Hf). exists taken. by rewrite (contents_ext h h'). Qed.

Lemma dm_inv_quiet k k' s r :
  (∀ t, dm_view (get_proc k' t) = dm_view (get_proc k t)) → dmsg_heap k' = dmsg_heap k →
  dm_inv (mk_mrun k s r) → dm_inv (mk_mrun k' s r).
Proof.
  intros Hv Hh (qs & Hq & Hf). exists qs. split; [by apply (queues_quiet k)|].
  intros t. simpl. rewrite Hh. apply Hf.
Qed.

Lemma contents_snoc h l a m :
  h !! a = Some m → contents h (l ++ [a]) = contents h l ++ [(dm_sender m, dm_data m)].
Proof.
  intros Hm. unfold contents. rewrite omap_app. f_equal. simpl. unfold msg_at. by rewrite Hm.
Qed.

(** A send with the lock of the target held. *)
Lemma dm_inv_send mode cur t len kbuf page k o k' s r :
  (t < length (procs k))%nat → fresh page k → 0 ≤ len ≤ DMSG_MAX →
  len ≤ Z.of_nat (length kbuf) → send_body mode cur t len kbuf page k = (o, k') →
  dm_inv (mk_mrun k s r) →
  dm_inv (mk_mrun k' (after_send t (pid (get_proc k cur), take (Z.to_nat len) kbuf) o s) r).
Proof.
  intros Ht Hfresh Hlen Hbuf Hb (qs & Hq & Hf). simpl in Hq, Hf. unfold send_body in Hb.
  destruct (Z.leb_spec DMSG_QUEUE_MAX (dmsg_count (get_proc k t))).
  { simplify_eq. apply (dm_inv_quiet k); [|done|by exists qs].
    intros t'. by apply (proj_upd dm_view). }
  destruct (Z.eqb_spec page 0) as [->|Hp0]; [simplify_eq; by exists qs|].
  destruct Hfresh as [?|Hnew]; [done|].
  set (m := mk_dmsg 0 len _ _) in Hb. simplify_eq. unfold after_send. rewrite decide_True by done.
  apply (dm_inv_quiet (dmsg_push t page m k));
    [intros; apply dm_view_wakeupOne|apply heap_wakeupOne|].
  assert (msg_ok m) as Hm by (split; [done|]; simpl; rewrite length_take; lia).
  pose proof (push_queues t page m k qs Hq Ht Hnew Hp0 eq_refl Hm ltac:(done)) as Hq'.
  eexists. split; [exact Hq'|]. intros t'. cbn [mr_k accepted delivered]. unfold note.
  destruct (dmsg_push_eq t page m k Ht) as (_ & _ & Hh). rewrite Hh.
  assert (∀ t', page ∉ qs t') as Hpg.
  { intros t1 Hin. destruct (chain_alloc _ _ _ _ (qr_chain _ _ _ (qs_rep _ _ Hq t1)) Hin) as [? E].
    by rewrite Hnew in E. }
  assert (fifo (push_heap page m (dmsg_tail (get_proc k t)) (dmsg_heap k)) (qs t') (s t') (r t'))
    as Hf'.
  { eapply fifo_ext; [|apply Hf]. intros a Ha. apply push_heap_msg. intros ->. by apply (Hpg t'). }
  case_decide; [subst t'|done]. destruct Hf' as (taken & -> & Hfor). exists taken. split; [|done].
  rewrite (contents_snoc _ _ _ m), app_assoc; [done|]. apply push_heap_new.
  rewrite (qr_tail _ _ _ (qs_rep _ _ Hq t)). intros ->.
  destruct (last (qs t)) eqn:E; [|done]. by apply (Hpg t), last_Some_elem_of.
Qed.

(** A receive with the lock held. *)
Lemma dm_inv_rcv mode cur len ok k o k' s r :
  (cur < length (procs k))%nat → rcv_body mode cur len ok k = (o, k') →
  dm_inv (mk_mrun k s r) →
  o ≠ RcvFault ∧ dm_inv (mk_mrun k' s (after_rcv cur k k' ok o r)).
Proof.
  intros Hcur Hb (qs & Hq & Hf). simpl in Hq, Hf. unfold rcv_body in Hb.
  assert (dm_inv (mk_mrun k s r)) as H0 by (by exists qs).
  assert (∀ k1, (k1 = k) → dmsg_count (get_proc k1 cur) <? dmsg_count (get_proc k cur) = false)
    as Hsame by (intros k1 ->; apply Z.ltb_irrefl).
  pose proof (qs_rep _ _ Hq cur) as Hrep.
  destruct (Z.eqb_spec (dmsg_count (get_proc k cur)) 0) as [Hz|Hz].
  { destruct (killed _ || dmsg_closed _); simplify_eq; split; try done.
    - simpl. by rewrite Hsame.
    - apply (dm_inv_quiet k); [|done..]. intros t'. by apply (proj_upd dm_view). }
  destruct (qs cur) as [|x l] eqn:Eq; [by destruct Hz; rewrite (qr_count _ _ _ Hrep)|].
  pose proof (qr_chain _ _ _ Hrep) as (Hx & _ & m & Hm & _). rewrite Hx, Hm in Hb.
  destruct (len <? dm_len m); [simplify_eq; split; [done|]; simpl; by rewrite Hsame|].
  pose proof (pop_queues mode cur m k qs x l Hq Hcur Eq Hm) as Hq'.
  set (k1 := kfree_msg x _) in *.
  assert (o = (if (0 <? dm_len m) && negb ok then RcvRet (-1) []
          else RcvRet (dm_sender m) (take (Z.to_nat (dm_len m)) (dm_data m))) ∧ k' = k1) as [-> ->].
  { by destruct ((0 <? dm_len m) && negb ok); simplify_eq. }
  destruct (qr_ok _ _ _ Hrep x m) as [Hlen Hdat]; [set_solver|done|].
  assert (after_rcv cur k k1 ok (if (0 <? dm_len m) && negb ok then RcvRet (-1) []
     else RcvRet (dm_sender m) (take (Z.to_nat (dm_len m)) (dm_data m))) r =
     note cur (if (0 <? dm_len m) && negb ok then mk_delivery ok (-1) []
               else mk_delivery ok (dm_sender m) (dm_data m)) r) as ->.
  { pose proof (qr_count _ _ _ (qs_rep _ _ Hq' cur)) as Hc. rewrite decide_True in Hc by done.
    pose proof (qr_count _ _ _ Hrep) as Hc0. simpl in Hc0. unfold after_rcv.
    rewrite (proj2 (Z.ltb_lt (dmsg_count (get_proc k1 cur)) (dmsg_count (get_proc k cur)))) by lia.
    rewrite take_ge by lia. by case_match. }
  split; [by case_match|]. eexists. split; [exact Hq'|]. intros t. cbn [mr_k accepted delivered]. unfold note.
  assert (dmsg_heap k1 = delete x (dmsg_heap k)) as ->.
  { unfold k1, kfree_msg; simpl. rewrite heap_wakeupOne.
    destruct (dmsg_pop_eq cur m k Hcur) as (_ & _ & ->). done. }
  case_decide as Ht; [subst t|].
  - destruct (Hf cur) as (taken & Hs & Hfor). rewrite Eq in Hs.
    exists (taken ++ [(dm_sender m, dm_data m)]). split.
    + rewrite Hs, <-app_assoc. f_equal. unfold contents at 1. simpl. unfold msg_at at 1.
      rewrite Hm. simpl. f_equal. symmetry. apply contents_ext'. intros a Ha.
      apply lookup_delete_ne. intros ->. pose proof (qr_nodup _ _ _ Hrep) as [? _]%NoDup_cons. done.
    + apply Forall2_app; [done|]. apply Forall2_cons. split; [|constructor]. unfold delivers.
      destruct ok; simpl; [by rewrite andb_false_r|]. rewrite andb_true_r.
      destruct (dm_data m) eqn:Ed; simpl in *.
      * by rewrite (proj2 (Z.ltb_ge 0 (dm_len m))) by lia.
      * by rewrite (proj2 (Z.ltb_lt 0 (dm_len m))) by lia.
  - eapply fifo_ext; [|apply Hf]. intros a Ha. unfold msg_at. rewrite lookup_delete_ne; [done|].
    intros ->. apply Ht. apply (qs_disj _ _ Hq t cur a Ha). rewrite Eq. set_solver.
Qed.

Lemma dm_inv_step mode st st' : dm_inv st → dm_step mode st st' → dm_inv st'.
Proof.
  intros Hinv Hstep. destruct Hstep as
    [cur pid0 len kbuf page k o k' s r Hfr Hbuf Hb|cur t len kbuf page k o k' s r Hfr Ht Hlen Hbuf Hb
    |cur len ok k o k' s r Hcur Hb|cur len ok k o k' s r Hcur Hb|t k s r Ht|k k' s r Hv Hh].
  - unfold sys_dmsgsend in Hb.
    destruct (_ || _) eqn:E; [by simplify_eq|]. destruct (if 0 <? len then _ else _) as [b|] eqn:Eb;
      [|by simplify_eq].
    destruct (dmsg_lock_target pid0 k) as [t|] eqn:Et; [|by simplify_eq]. simpl.
    assert (0 ≤ len ≤ DMSG_MAX) as Hlen by lia.
    assert (len ≤ Z.of_nat (length b) ∧ take (Z.to_nat len) (default [] kbuf) = take (Z.to_nat len) b)
      as [Hlb ->].
    { destruct (Z.ltb_spec 0 len); simplify_eq; [by split; [apply Hbuf|]|].
      replace len with 0 by lia. split; [simpl; lia|done]. }
    apply (dm_inv_send mode cur t len b page k o k' s r); try done.
    unfold dmsg_lock_target in Et. destruct (find_index _ _) as [i|] eqn:Ei; [|done].
    simpl in Et. case_match; simplify_eq. by eapply find_index_lt.
  - unfold dmsgsend_resume in Hb.
    assert (dm_inv (mk_mrun (sleep_exit cur k) s r)) as H0.
    { apply (dm_inv_quiet k); [|done..]. intros t'. by apply (proj_upd dm_view). }
    destruct (dmsg_closed _); [by simplify_eq|].
    assert (pid (get_proc k cur) = pid (get_proc (sleep_exit cur k) cur)) as ->.
    { symmetry. by apply (proj_upd pid). }
    eapply dm_inv_send; try done. unfold sleep_exit. by rewrite upd_proc_length.
  - unfold sys_dmsgrcv in Hb. destruct (_ || _).
    + simplify_eq. simpl. by rewrite Z.ltb_irrefl.
    + by eapply dm_inv_rcv.
  - unfold dmsgrcv_resume in Hb.
    assert (after_rcv cur k k' ok o r = after_rcv cur (sleep_exit cur k) k' ok o r) as ->.
    { unfold after_rcv. replace (dmsg_count (get_proc (sleep_exit cur k) cur))
        with (dmsg_count (get_proc k cur)); [done|]. symmetry. by apply (proj_upd dmsg_count). }
    eapply dm_inv_rcv; [unfold sleep_exit; by rewrite upd_proc_length|done|].
    apply (dm_inv_quiet k); [|done..]. intros t'. by apply (proj_upd dm_view).
  - destruct Hinv as (qs & Hq & Hf). eexists. split; [by apply close_queues|].
    intros t'. cbn [mr_k accepted delivered]. unfold forget. case_decide as Ht'.
    + exists []. split; [done|constructor].
    + eapply fifo_ext; [|apply Hf]. intros a Ha. unfold dmsg_close, msg_at. simpl.
      rewrite (free_msgs_chain (qs t)); [|apply Hq..|eapply chain_size; apply Hq].
      rewrite foldl_delete_lookup; [done|]. intros Ha'. apply Ht'.
      by apply (qs_disj _ _ Hq t' t a).
  - by apply (dm_inv_quiet k).
Qed.

(** ** Theorems *)

(** C37: direct messages are delivered in order. From empty queues, under any
    interleaving of sends, receives, closes and steps that do not touch queues,
    the pointers of every process form a linked list of at most DMSG_QUEUE_MAX
    messages, in pages that no two queues share, with exact counters of messages
    and bytes. The messages accepted for a process since its queue was last
    closed are the ones its receives took, in the order of acceptance, followed
    by the ones in the list. A receive returned the sender and the bytes of the
    message that it took, except when copyout() failed: then the message is gone
    and the call returned -1. No receive reads through a pointer to no message.
    kalloc() is assumed to return no page that still holds a message. *)
Theorem dmsg_fifo mode k0 k s r :
  queues k0 (λ _, []) →
  rtc (dm_step mode) (mk_mrun k0 (λ _, []) (λ _, [])) (mk_mrun k s r) →
  (∃ qs, queues k qs ∧ ∀ t, fifo (dmsg_heap k) (qs t) (s t) (r t)) ∧
  (∀ cur len ok, (cur < length (procs k))%nat → (sys_dmsgrcv mode cur len ok k).1 ≠ RcvFault).
Proof.
  intros Hq Hrun. assert (dm_inv (mk_mrun k s r)) as Hinv.
  { assert (dm_inv (mk_mrun k0 (λ _, []) (λ _, []))) as H0.
    { exists (λ _, []). split; [done|]. intros t. exists []. split; [done|constructor]. }
    revert H0. induction Hrun; eauto using dm_inv_step. }
  split; [exact Hinv|]. intros cur len ok Hcur. unfold sys_dmsgrcv. destruct (_ || _); [done|].
  destruct (rcv_body mode cur len ok k) as [o k'] eqn:E. by eapply dm_inv_rcv.
Qed.

(** *** A concrete run: process 0 sends two messages to process 1, which takes
    the first. *)

Definition demo_dm : kernel :=
  kernel_zero <| procs := [proc_zero <| state := RUNNING |> <| pid := 3 |>;
                           proc_zero <| state := RUNNING |> <| pid := 4 |>]
                          ++ replicate 62 proc_zero |>.

Definition demo_dm1 : kernel := (sys_dmsgsend SCHED_MLFQ 0 4 2 (Some [7; 8]) 4096 demo_dm).2.
Definition demo_dm2 : kernel := (sys_dmsgsend SCHED_MLFQ 0 4 1 (Some [9]) 8192 demo_dm1).2.
Definition demo_dm3 : kernel := (sys_dmsgrcv SCHED_MLFQ 1 10 true demo_dm2).2.

Lemma demo_dm_empty : queues demo_dm (λ _, []).
Proof.
  assert (∀ t, dm_view (get_proc demo_dm t) = (0, 0, 0, 0)) as Hv.
  { intros t. destruct t as [|[|t]]; [done..|]. unfold get_proc.
    rewrite list_lookup_total_alt.
    change (procs demo_dm !! S (S t)) with (replicate 62 proc_zero !! t).
    destruct (replicate 62 proc_zero !! t) as [p|] eqn:E; [|done].
    by apply lookup_replicate in E as [-> _]. }
  constructor; [|set_solver]. intros t. specialize (Hv t). unfold dm_view in Hv.
  injection Hv as H1 H2 H3 H4. constructor; rewrite ?H1, ?H2, ?H3, ?H4; try done.
  apply NoDup_nil_2.
Qed.

Lemma dmsg_fifo_witness :
  (sys_dmsgrcv SCHED_MLFQ 1 10 true demo_dm2).1 = RcvRet 3 [7; 8] ∧
  ∃ s r qs, queues demo_dm3 qs ∧ fifo (dmsg_heap demo_dm3) (qs 1%nat) (s 1%nat) (r 1%nat) ∧
    s 1%nat = [(3, [7; 8]); (3, [9])] ∧ r 1%nat = [mk_delivery true 3 [7; 8]].
Proof.
  split; [vm_compute; reflexivity|].
  pose proof (dm_send SCHED_MLFQ 0 4 2 (Some [7; 8]) 4096 demo_dm (Ret 0) demo_dm1
    (λ _, []) (λ _, []) (or_intror eq_refl) ltac:(intros ? [= <-]; simpl; lia)
    ltac:(vm_compute; reflexivity)) as S1.
  pose proof (λ s r, dm_send SCHED_MLFQ 0 4 1 (Some [9]) 8192 demo_dm1 (Ret 0) demo_dm2 s r
    ltac:(right; vm_compute; reflexivity) ltac:(intros ? [= <-]; simpl; lia)
    ltac:(vm_compute; reflexivity)) as S2.
  pose proof (λ s r, dm_recv SCHED_MLFQ 1 10 true demo_dm2 (RcvRet 3 [7; 8]) demo_dm3 s r
    ltac:(vm_compute; lia) ltac:(vm_compute; reflexivity)) as S3.
  destruct (dmsg_fifo SCHED_MLFQ demo_dm demo_dm3 _ _ demo_dm_empty
    (rtc_l _ _ _ _ S1 (rtc_l _ _ _ _ (S2 _ _) (rtc_once _ _ (S3 _ _))))) as [(qs & Hq & Hf) _].
  eexists _, _, qs. split; [exact Hq|]. split; [exact (Hf 1%nat)|].
  split; vm_compute; reflexivity.
Defined.
