(* ===== verification/Pipe.v ===== *)
(** * Pipes (src/kernel/proc/pipe.c)

    [nread] and [nwrite] are free-running unsigned ints, reduced modulo PIPESIZE
    to index the buffer. pipewrite and piperead are cut at their calls of
    sleep(): [pipewrite_seg] and [piperead_seg] run from a point where the lock
    is held to the next sleep or return. The bytes of the source buffer are a
    list in which [None] is a byte that copyin() cannot read; for a read, the
    list tells for each byte whether copyout() can store it. *)

From S2P Require Import Prelude.

Definition PIPESIZE : Z := 512.

Record pipe := mk_pipe {
  data : list Z;
  nread : Z;
  nwrite : Z;
  readopen : bool;
  writeopen : bool;
}.

#[export] Instance pipe_rebuild : Rebuild pipe := λ p,
  mk_pipe (data p) (nread p) (nwrite p) (readopen p) (writeopen p).
#[export] Instance data_set : Setter data := ltac:(solve_setter).
#[export] Instance nread_set : Setter nread := ltac:(solve_setter).
#[export] Instance nwrite_set : Setter nwrite := ltac:(solve_setter).
#[export] Instance readopen_set : Setter readopen := ltac:(solve_setter).
#[export] Instance writeopen_set : Setter writeopen := ltac:(solve_setter).

(** The pipe part of pipealloc(); kalloc() gives a page of arbitrary contents. *)
Definition pipealloc (junk : list Z) : pipe := mk_pipe junk 0 0 true true.

(** A wait point of a pipe: [&pi->nread] (readers) or [&pi->nwrite] (writers). *)
Inductive wchan := WRead | WWrite.

(** What a segment ends with, and the wakeup()s it made. *)
Inductive pend := PRet (r : Z) | PSleep (ch : wchan).

(** pipeclose(): the channel woken, and whether the page is freed. *)
Definition pipeclose (writable : bool) (pi : pipe) : pipe * wchan * bool :=
  let '(pi, woken) := if writable then (pi <| writeopen := false |>, WRead)
                      else (pi <| readopen := false |>, WWrite) in
  (pi, woken, negb (readopen pi) && negb (writeopen pi)).

Definition is_full (pi : pipe) : bool := nwrite pi =? u32 (nread pi + PIPESIZE).
Definition is_empty (pi : pipe) : bool := nread pi =? nwrite pi.

(** pi->data[pi->nwrite++ % PIPESIZE] = ch *)
Definition put (ch : Z) (pi : pipe) : pipe :=
  pi <| data := <[Z.to_nat (nwrite pi `mod` PIPESIZE) := ch]> (data pi) |>
     <| nwrite := u32 (nwrite pi + 1) |>.

(** ch = pi->data[pi->nread++ % PIPESIZE] *)
Definition get (pi : pipe) : Z * pipe :=
  (data pi !!! Z.to_nat (nread pi `mod` PIPESIZE), pi <| nread := u32 (nread pi + 1) |>).

(** From index [i] of the source on; the segment's end, the wakeup() of the
    readers, and the source from the byte it stopped at. *)
Fixpoint pipewrite_seg (killed : bool) (src : list (option Z)) (i : Z) (pi : pipe)
    : pend * list wchan * list (option Z) * Z * pipe :=
  match src with
  | [] => (PRet i, [WRead], [], i, pi)
  | c :: rest =>
      if is_full pi then
        if negb (readopen pi) || killed then (PRet (-1), [], src, i, pi)
        else (PSleep WWrite, [WRead], src, i, pi)
      else
        match c with
        | None => (PRet i, [WRead], src, i, pi)
        | Some ch => pipewrite_seg killed rest (i + 1) (put ch pi)
        end
  end.

(** The copy loop of piperead: the count returned, the bytes taken out of the
    pipe and the pipe. *)
Fixpoint piperead_copy (dst : list bool) (i : Z) (pi : pipe) : Z * list Z * pipe :=
  match dst with
  | [] => (i, [], pi)
  | ok :: dst =>
      if is_empty pi then (i, [], pi)
      else
        let '(ch, pi) := get pi in
        if (ok : bool) then
          let '(n, taken, pi) := piperead_copy dst (i + 1) pi in (n, ch :: taken, pi)
        else (i, [ch], pi)
  end.

Definition piperead_seg (killed : bool) (dst : list bool) (pi : pipe)
    : pend * list wchan * list Z * pipe :=
  if is_empty pi && writeopen pi then
    if killed then (PRet (-1), [], [], pi) else (PSleep WRead, [], [], pi)
  else
    let '(n, taken, pi) := piperead_copy dst 0 pi in (PRet n, [WWrite], taken, pi).

(** ** The queue a pipe implements *)

(** The number of bytes in the pipe. *)
Definition fill (pi : pipe) : Z := u32 (nwrite pi - nread pi).

Definition slot (n : Z) : nat := Z.to_nat (u32 n `mod` PIPESIZE).

Definition contents (pi : pipe) : list Z :=
  (λ j : nat, data pi !!! slot (nread pi + Z.of_nat j)) <$> seq 0 (Z.to_nat (fill pi)).

Definition pipe_ok (pi : pipe) : Prop :=
  length (data pi) = Z.to_nat PIPESIZE ∧ 0 ≤ nread pi < 2 ^ 32 ∧ 0 ≤ nwrite pi < 2 ^ 32 ∧
  fill pi ≤ PIPESIZE.

(** 2^32 is a multiple of PIPESIZE: the index of a position does not depend on
    the wrap-around of the counter. *)
Lemma slot_alt n : slot n = Z.to_nat (n `mod` PIPESIZE).
Proof.
  unfold slot, u32, PIPESIZE. f_equal.
  rewrite (Z.mod_eq n (2 ^ 32)) by lia.
  replace (n - 2 ^ 32 * (n / 2 ^ 32)) with (n + (- (2 ^ 23 * (n / 2 ^ 32))) * 512) by lia.
  by rewrite Z.mod_add.
Qed.

Lemma slot_lt n : (slot n < Z.to_nat PIPESIZE)%nat.
Proof.
  rewrite slot_alt. unfold PIPESIZE. pose proof (Z.mod_pos_bound n 512). lia.
Qed.

(** Positions less than PIPESIZE apart are different slots. *)
Lemma slot_inj a b : slot a = slot b → 0 ≤ b - a < PIPESIZE → a = b.
Proof.
  rewrite !slot_alt. unfold PIPESIZE. intros H Hd.
  pose proof (Z.mod_pos_bound a 512). pose proof (Z.mod_pos_bound b 512).
  assert (a `mod` 512 = b `mod` 512) as E by lia.
  pose proof (Z.div_mod a 512). pose proof (Z.div_mod b 512). lia.
Qed.

Lemma fill_range pi : 0 ≤ fill pi < 2 ^ 32.
Proof. apply u32_range. Qed.

(** nwrite and nread + fill agree modulo 2^32. *)
Lemma nwrite_fill pi :
  0 ≤ nwrite pi < 2 ^ 32 → u32 (nread pi + fill pi) = nwrite pi.
Proof.
  intros Hw. unfold fill, u32. rewrite Zplus_mod_idemp_r.
  replace (nread pi + (nwrite pi - nread pi)) with (nwrite pi) by lia.
  by apply Z.mod_small.
Qed.

Lemma is_empty_iff pi : pipe_ok pi → is_empty pi = true ↔ fill pi = 0.
Proof.
  intros (_ & Hr & Hw & _). unfold is_empty. rewrite Z.eqb_eq. split.
  - intros E. unfold fill. by rewrite E, Z.sub_diag.
  - intros Hf. rewrite <-(nwrite_fill pi), Hf, u32_small by lia. lia.
Qed.

Lemma is_full_iff pi : pipe_ok pi → is_full pi = true ↔ fill pi = PIPESIZE.
Proof.
  intros (_ & Hr & Hw & Hf). unfold is_full. rewrite Z.eqb_eq. split.
  - intros E. unfold fill. rewrite E. unfold u32. rewrite Zminus_mod_idemp_l.
    replace (nread pi + PIPESIZE - nread pi) with PIPESIZE by lia. done.
  - intros E. by rewrite <-(nwrite_fill pi), E.
Qed.

Lemma contents_length pi : length (contents pi) = Z.to_nat (fill pi).
Proof. unfold contents. by rewrite length_fmap, length_seq. Qed.

Lemma contents_lookup pi j :
  (j < Z.to_nat (fill pi))%nat →
  contents pi !! j = Some (data pi !!! slot (nread pi + Z.of_nat j)).
Proof.
  intros Hj. unfold contents. rewrite list_lookup_fmap, lookup_seq_lt by lia. done.
Qed.

Lemma put_spec ch pi :
  pipe_ok pi → is_full pi = false →
  pipe_ok (put ch pi) ∧ contents (put ch pi) = contents pi ++ [ch].
Proof.
  intros Hok Hnf. pose proof Hok as (Hlen & Hr & Hw & Hf).
  assert (fill pi ≠ PIPESIZE) as Hne
    by (rewrite <-(is_full_iff pi Hok); by rewrite Hnf).
  pose proof (fill_range pi).
  assert (fill (put ch pi) = fill pi + 1) as Hfill.
  { unfold fill, put; simpl. unfold u32 at 1. unfold u32 at 1. rewrite Zminus_mod_idemp_l.
    replace (nwrite pi + 1 - nread pi) with ((nwrite pi - nread pi) + 1) by lia.
    rewrite <-Zplus_mod_idemp_l. fold (u32 (nwrite pi - nread pi)). fold (fill pi).
    unfold PIPESIZE in *. rewrite Z.mod_small; lia. }
  assert (Z.to_nat (nwrite pi `mod` PIPESIZE) = slot (nread pi + fill pi)) as Hslot.
  { unfold slot. by rewrite nwrite_fill. }
  split.
  - unfold pipe_ok. rewrite Hfill. unfold put; simpl. rewrite length_insert.
    pose proof (u32_range (nwrite pi + 1)). split_and!; try done; lia.
  - apply list_eq_same_length with (n := Z.to_nat (fill pi + 1));
      [rewrite length_app, contents_length; simpl; lia|
       by rewrite contents_length, Hfill|].
    intros j x y Hj. rewrite contents_lookup by (rewrite Hfill; lia).
    unfold put; simpl. rewrite Hslot. destruct (decide (j = Z.to_nat (fill pi))) as [->|Hjn].
    + rewrite lookup_app_r by (rewrite contents_length; lia).
      rewrite contents_length, Nat.sub_diag. rewrite Z2Nat.id by lia.
      rewrite list_lookup_total_insert_eq by (rewrite Hlen; apply slot_lt). simpl. congruence.
    + rewrite lookup_app_l by (rewrite contents_length; lia).
      rewrite contents_lookup by lia. rewrite list_lookup_total_insert_ne; [congruence|].
      intros E%eq_sym%slot_inj; lia.
Qed.

Lemma get_spec pi :
  pipe_ok pi → is_empty pi = false →
  let '(ch, pi') := get pi in pipe_ok pi' ∧ contents pi = ch :: contents pi'.
Proof.
  intros Hok Hne. pose proof Hok as (Hlen & Hr & Hw & Hf).
  assert (fill pi ≠ 0) as Hn0 by (rewrite <-(is_empty_iff pi Hok); by rewrite Hne).
  pose proof (fill_range pi). unfold get. set (pi' := pi <| nread := _ |>).
  assert (fill pi' = fill pi - 1) as Hfill.
  { unfold fill, pi'; simpl. unfold u32 at 1. unfold u32 at 1. rewrite Zminus_mod_idemp_r.
    replace (nwrite pi - (nread pi + 1)) with ((nwrite pi - nread pi) - 1) by lia.
    rewrite <-Zminus_mod_idemp_l. fold (u32 (nwrite pi - nread pi)). fold (fill pi).
    unfold PIPESIZE in *. rewrite Z.mod_small; lia. }
  split.
  - unfold pipe_ok. rewrite Hfill. pose proof (u32_range (nread pi + 1)).
    unfold pi'; simpl. split_and!; try done; lia.
  - apply list_eq_same_length with (n := Z.to_nat (fill pi));
      [simpl; rewrite contents_length, Hfill; lia|apply contents_length|].
    intros j x y Hj. rewrite contents_lookup by done. destruct j as [|j]; simpl.
    + rewrite Z.add_0_r. unfold slot. rewrite (u32_small (nread pi)) by done. congruence.
    + rewrite contents_lookup by (rewrite Hfill; lia). unfold pi'; simpl.
      replace (slot (u32 (nread pi + 1) + Z.of_nat j)) with (slot (nread pi + Z.of_nat (S j)));
        [congruence|].
      unfold slot, u32. rewrite Zplus_mod_idemp_l. do 3 f_equal. lia.
Qed.

(** ** Segments *)

Lemma pipewrite_seg_spec killed src i pi :
  pipe_ok pi →
  let '(e, woken, rest, j, pi') := pipewrite_seg killed src i pi in
  ∃ bs, src = (Some <$> bs) ++ rest ∧ j = i + Z.of_nat (length bs) ∧
    pipe_ok pi' ∧ contents pi' = contents pi ++ bs ∧
    readopen pi' = readopen pi ∧ writeopen pi' = writeopen pi ∧
    match e with
    | PRet r => r = j ∧ woken = [WRead] ∨
                r = -1 ∧ woken = [] ∧ is_full pi' = true ∧ (readopen pi = false ∨ killed = true)
    | PSleep ch => ch = WWrite ∧ woken = [WRead] ∧ is_full pi' = true ∧
                   readopen pi = true ∧ rest ≠ []
    end.
Proof.
  revert i pi. induction src as [|c src IH]; intros i pi Hok; cbn [pipewrite_seg].
  { exists []. simpl. rewrite app_nil_r. split_and!; try done; [lia|]. left. done. }
  destruct (is_full pi) eqn:Hf.
  - destruct (negb (readopen pi) || killed) eqn:Hk; exists []; simpl; rewrite app_nil_r.
    + split_and!; try done; [lia|]. right. split_and!; try done.
      apply orb_true_iff in Hk as [?|?]; [left|by right]. by apply negb_true_iff.
    + bool_facts. split_and!; try done. lia.
  - destruct c as [ch|].
    + destruct (put_spec ch pi Hok Hf) as [Hok' Hc]. specialize (IH (i + 1) (put ch pi) Hok').
      destruct (pipewrite_seg killed src (i + 1) (put ch pi)) as [[[[e woken] rest] j] pi'].
      destruct IH as (bs & -> & -> & Hok2 & Hc2 & Hr & Hw & He). exists (ch :: bs).
      rewrite Hc2, Hc, <-app_assoc. split_and!; try done. simpl length. lia.
    + exists []. simpl. rewrite app_nil_r. split_and!; try done; [lia|]. left. done.
Qed.

Lemma piperead_copy_spec dst i pi :
  pipe_ok pi →
  let '(n, taken, pi') := piperead_copy dst i pi in
  pipe_ok pi' ∧ contents pi = taken ++ contents pi' ∧
  readopen pi' = readopen pi ∧ writeopen pi' = writeopen pi ∧
  (n = i + Z.of_nat (length taken) ∨ n + 1 = i + Z.of_nat (length taken) ∧ Exists (eq false) dst).
Proof.
  revert i pi. induction dst as [|ok dst IH]; intros i pi Hok; cbn [piperead_copy].
  { simpl. split_and!; try done. left. lia. }
  destruct (is_empty pi) eqn:He.
  { simpl. split_and!; try done. left. lia. }
  pose proof (get_spec pi Hok He) as Hg. destruct (get pi) as [ch pi1] eqn:Eg.
  assert (readopen pi1 = readopen pi ∧ writeopen pi1 = writeopen pi) as [Hr1 Hw1]
    by (unfold get in Eg; by simplify_eq).
  destruct Hg as [Hok1 Hc1]. destruct ok.
  - specialize (IH (i + 1) pi1 Hok1). destruct (piperead_copy dst (i + 1) pi1) as [[n taken] pi'].
    destruct IH as (Hok2 & Hc2 & Hr & Hw & Hn). rewrite Hc1, Hc2, Hr, Hw.
    split_and!; try done. simpl length. destruct Hn as [?|[? ?]]; [left; lia|right].
    split; [lia|]. by apply Exists_cons_tl.
  - rewrite Hc1. split_and!; try done. right. split; [simpl; lia|]. by apply Exists_cons_hd.
Qed.

(** ** Runs of a pipe

    The bytes put into the pipe, the bytes taken out of it, and the numbers of
    readers and writers asleep on it. *)

Record prun := mk_prun { pp : pipe; wr : list Z; tk : list Z; rs : nat; ws : nat }.

Definition wake_readers (woken : list wchan) (n : nat) : nat :=
  if existsb (λ c, match c with WRead => true | WWrite => false end) woken then 0 else n.

Definition wake_writers (woken : list wchan) (n : nat) : nat :=
  if existsb (λ c, match c with WRead => false | WWrite => true end) woken then 0 else n.

Definition sleeps (e : pend) : nat := match e with PSleep _ => 1 | PRet _ => 0 end.

(** A process is in a call on an end only while the end is open: the last close
    of an end comes when no process uses it. A writer that is already killed is
    let in only where it returns at once. *)
Inductive pipe_step : prun → prun → Prop :=
  | ps_write killed src i pi e woken rest j pi' bs w t r s :
      writeopen pi = true → killed = false ∨ is_full pi = true →
      pipewrite_seg killed src i pi = (e, woken, rest, j, pi') →
      src = (Some <$> bs) ++ rest →
      pipe_step (mk_prun pi w t r s)
        (mk_prun pi' (w ++ bs) t (wake_readers woken r) (wake_writers woken s + sleeps e))
  | ps_read killed dst pi e woken taken pi' w t r s :
      readopen pi = true → piperead_seg killed dst pi = (e, woken, taken, pi') →
      pipe_step (mk_prun pi w t r s)
        (mk_prun pi' w (t ++ taken) (wake_readers woken r + sleeps e) (wake_writers woken s))
  | ps_close writable pi pi' ch freed w t r s :
      pipeclose writable pi = (pi', ch, freed) →
      (if writable then s = 0%nat else r = 0%nat) →
      pipe_step (mk_prun pi w t r s)
        (mk_prun pi' w t (wake_readers [ch] r) (wake_writers [ch] s)).

(** Readers sleep only on an empty pipe that can still be written, writers only
    on a full one that can still be read. *)
Definition pipe_inv (st : prun) : Prop :=
  pipe_ok (pp st) ∧ wr st = tk st ++ contents (pp st) ∧
  ((0 < rs st)%nat → is_empty (pp st) = true ∧ writeopen (pp st) = true ∧
                     readopen (pp st) = true) ∧
  ((0 < ws st)%nat → is_full (pp st) = true ∧ readopen (pp st) = true ∧
                     writeopen (pp st) = true).

Lemma contents_nil_full pi pi' bs :
  pipe_ok pi → pipe_ok pi' → is_full pi = true → contents pi' = contents pi ++ bs →
  bs = [].
Proof.
  intros Hok Hok' Hf Hc. apply is_full_iff in Hf; [|done].
  assert (length (contents pi') = length (contents pi) + length bs)%nat as E
    by (by rewrite Hc, length_app).
  rewrite !contents_length in E. destruct Hok' as (_ & _ & _ & ?). pose proof (fill_range pi').
  destruct bs; [done|]. simpl in E. lia.
Qed.

Lemma same_contents pi pi' :
  pipe_ok pi → pipe_ok pi' → contents pi' = contents pi →
  is_empty pi' = is_empty pi ∧ is_full pi' = is_full pi.
Proof.
  intros Hok Hok' Hc. apply (f_equal length) in Hc. rewrite !contents_length in Hc.
  pose proof (fill_range pi). pose proof (fill_range pi').
  assert (fill pi' = fill pi) as E by lia.
  split; apply eq_true_iff_eq; [rewrite !is_empty_iff by done|rewrite !is_full_iff by done];
    by rewrite E.
Qed.

Lemma pipe_inv_write killed src i pi e woken rest j pi' bs w t r s :
  writeopen pi = true → killed = false ∨ is_full pi = true →
  pipewrite_seg killed src i pi = (e, woken, rest, j, pi') → src = (Some <$> bs) ++ rest →
  pipe_inv (mk_prun pi w t r s) →
  pipe_inv (mk_prun pi' (w ++ bs) t (wake_readers woken r) (wake_writers woken s + sleeps e)).
Proof.
  intros Hwopen Hk Hseg Hsrc (Hok & Hc & Hr & Hw). simpl in *.
  pose proof (pipewrite_seg_spec killed src i pi Hok) as Hspec. rewrite Hseg in Hspec.
  destruct Hspec as (bs' & Hsrc' & _ & Hok' & Hc' & Hro & Hwo & He).
  assert (bs' = bs) as ->.
  { rewrite Hsrc' in Hsrc. apply app_inv_tail in Hsrc.
    apply (list_fmap_eq_inj Some) in Hsrc; [done|]. intros ? ? [= ?]. done. }
  assert (is_full pi = true → contents pi' = contents pi) as Hsame.
  { intros Hf. assert (bs = []) as E by (by eapply (contents_nil_full pi pi')).
    by rewrite Hc', E, app_nil_r. }
  unfold pipe_inv; simpl. rewrite Hro, Hwo. split; [done|].
  split; [by rewrite Hc, Hc', app_assoc|].
  destruct e as [ret|ch]; simpl.
  - destruct He as [[-> ->]|(-> & -> & Hf & Hcase)]; unfold wake_readers, wake_writers; simpl;
      rewrite Nat.add_0_r.
    + split; [lia|]. intros Hs. destruct (Hw Hs) as [Hf Hop].
      by destruct (same_contents pi pi' Hok Hok' (Hsame Hf)) as [_ ->].
    + destruct Hk as [->|Hfull].
      * destruct Hcase as [Hno|]; [|done].
        split; intros Hs; [destruct (Hr Hs) as (_ & _ & ?)|destruct (Hw Hs) as (_ & ? & _)];
          congruence.
      * by destruct (same_contents pi pi' Hok Hok' (Hsame Hfull)) as [-> ->].
  - destruct He as (-> & -> & Hf & Hop & _). unfold wake_readers, wake_writers; simpl.
    split; [lia|]. intros _. by rewrite Hf.
Qed.

Lemma pipe_inv_read killed dst pi e woken taken pi' w t r s :
  readopen pi = true → piperead_seg killed dst pi = (e, woken, taken, pi') →
  pipe_inv (mk_prun pi w t r s) →
  pipe_inv (mk_prun pi' w (t ++ taken) (wake_readers woken r + sleeps e) (wake_writers woken s)).
Proof.
  intros Hropen Hseg (Hok & Hc & Hr & Hw). simpl in *. unfold piperead_seg in Hseg.
  destruct (is_empty pi && writeopen pi) eqn:He.
  - bool_facts. destruct killed; simplify_eq; unfold pipe_inv, wake_readers, wake_writers; simpl;
      rewrite app_nil_r; split_and!; try done; rewrite ?Nat.add_0_r; done.
  - pose proof (piperead_copy_spec dst 0 pi Hok) as Hspec.
    destruct (piperead_copy dst 0 pi) as [[n tk0] pi0]. simplify_eq.
    destruct Hspec as (Hok' & Hc' & Hro & Hwo & _).
    unfold pipe_inv, wake_readers, wake_writers; simpl. rewrite Nat.add_0_r, Hro, Hwo.
    split; [done|]. split; [by rewrite Hc', app_assoc|]. split; [|lia].
    intros Hs. exfalso. destruct (Hr Hs) as (He' & Hw' & _). by rewrite He', Hw' in He.
Qed.

Lemma pipe_inv_step st st' : pipe_inv st → pipe_step st st' → pipe_inv st'.
Proof.
  intros Hinv Hstep. destruct Hstep.
  - by eapply pipe_inv_write.
  - by eapply pipe_inv_read.
  - destruct Hinv as (Hok & Hc & Hr & Hw). simpl in *.
    unfold pipeclose in H. destruct writable; simplify_eq;
      unfold pipe_inv, wake_readers, wake_writers; simpl;
      (split; [done|]); (split; [done|]); split; try lia; done.
Qed.

Lemma pipe_inv_run junk st :
  length junk = Z.to_nat PIPESIZE →
  rtc pipe_step (mk_prun (pipealloc junk) [] [] 0 0) st → pipe_inv st.
Proof.
  intros Hj Hrun.
  assert (pipe_inv (mk_prun (pipealloc junk) [] [] 0 0)) as H0.
  { split; [|split; [done|]; simpl; lia]. unfold pipe_ok; simpl. split_and!; [done|lia..|].
    vm_compute. congruence. }
  revert H0. induction Hrun; eauto using pipe_inv_step.
Qed.

(** ** Theorems *)

(** C20: a pipe is a queue. Under any interleaving of the segments of writes,
    reads and closes, the bytes taken out of the pipe followed by those in it
    are the bytes put into it, in order, however often the 32-bit counters wrap
    around; the pipe never holds more than PIPESIZE bytes. *)
Theorem pipe_fifo pi junk w t r s :
  length junk = Z.to_nat PIPESIZE →
  rtc pipe_step (mk_prun (pipealloc junk) [] [] 0 0) (mk_prun pi w t r s) →
  w = t ++ contents pi ∧ (length (contents pi) ≤ Z.to_nat PIPESIZE)%nat.
Proof.
  intros Hj Hrun.
  destruct (pipe_inv_run junk _ Hj Hrun) as (Hok & Hc & _).
  split; [done|]. rewrite contents_length. destruct Hok as (_ & _ & _ & ?). simpl in *. lia.
Qed.

(** no lost wakeup. In the same runs a reader sleeps only while the pipe is
    empty and can still be written, a writer only while it is full and can
    still be read. *)
Theorem pipe_no_lost_wakeup pi junk w t r s :
  length junk = Z.to_nat PIPESIZE →
  rtc pipe_step (mk_prun (pipealloc junk) [] [] 0 0) (mk_prun pi w t r s) →
  ((0 < r)%nat → is_empty pi = true ∧ writeopen pi = true) ∧
  ((0 < s)%nat → is_full pi = true ∧ readopen pi = true).
Proof.
  intros Hj Hrun.
  destruct (pipe_inv_run junk _ Hj Hrun) as (_ & _ & Hr & Hw).
  simpl in *. naive_solver.
Qed.

(** *** Concrete runs: two bytes are written and one of them is read; a reader of
    the empty pipe goes to sleep. *)

Definition demo_pipe0 : pipe := pipealloc (replicate 512 0).
Definition demo_pipe1 : pipe := put 8 (put 7 demo_pipe0).
Definition demo_pipe2 : pipe := demo_pipe1 <| nread := 1 |>.

Lemma demo_pipe_write :
  pipe_step (mk_prun demo_pipe0 [] [] 0 0) (mk_prun demo_pipe1 [7; 8] [] 0 0).
Proof.
  apply (ps_write false [Some 7; Some 8] 0 demo_pipe0 (PRet 2) [WRead] [] 2 demo_pipe1 [7; 8]
           [] [] 0 0); [reflexivity|by left|vm_compute; reflexivity|reflexivity].
Qed.

Lemma demo_pipe_read :
  pipe_step (mk_prun demo_pipe1 [7; 8] [] 0 0) (mk_prun demo_pipe2 [7; 8] [7] 0 0).
Proof.
  apply (ps_read false [true] demo_pipe1 (PRet 1) [WWrite] [7] demo_pipe2 [7; 8] [] 0 0);
    [reflexivity|vm_compute; reflexivity].
Qed.

Lemma pipe_fifo_witness : [7; 8] = [7] ++ contents demo_pipe2.
Proof.
  refine (proj1 (pipe_fifo demo_pipe2 (replicate 512 0) [7; 8] [7] 0 0 _
    (rtc_l _ _ _ _ demo_pipe_write (rtc_once _ _ demo_pipe_read)))).
  vm_compute. reflexivity.
Defined.

Lemma demo_pipe_sleep :
  pipe_step (mk_prun demo_pipe0 [] [] 0 0) (mk_prun demo_pipe0 [] [] 1 0).
Proof.
  apply (ps_read false [true] demo_pipe0 (PSleep WRead) [] [] demo_pipe0 [] [] 0 0);
    [reflexivity|vm_compute; reflexivity].
Qed.

Lemma pipe_no_lost_wakeup_witness : is_empty demo_pipe0 = true ∧ writeopen demo_pipe0 = true.
Proof.
  refine (proj1 (pipe_no_lost_wakeup demo_pipe0 (replicate 512 0) [] [] 1 0
    _ (rtc_once _ _ demo_pipe_sleep)) _); [vm_compute; reflexivity|lia].
Defined.
