(* ===== verification/Spool.v ===== *)
(** * The spool device (src/kernel/driver/spool.c)

    A buffer of SPOOL_BUF bytes with free-running unsigned indices [r] and [w].
    spoolread and spoolwrite are cut at their calls of sleep(), as the pipe's.
    [None] in a source is a byte that either_copyin() cannot read, [false] in a
    destination one that either_copyout() cannot store. *)

From S2P Require Import Prelude.

Definition SPOOL_BUF : Z := 4096.

Record spool := mk_spool { buf : list Z; sp_r : Z; sp_w : Z }.

#[export] Instance spool_rebuild : Rebuild spool := λ s, mk_spool (buf s) (sp_r s) (sp_w s).
#[export] Instance buf_set : Setter buf := ltac:(solve_setter).
#[export] Instance sp_r_set : Setter sp_r := ltac:(solve_setter).
#[export] Instance sp_w_set : Setter sp_w := ltac:(solve_setter).

Definition spool_zero : spool := mk_spool (replicate (Z.to_nat SPOOL_BUF) 0) 0 0.

Inductive send := SRet (n : Z) | SSleep.

(** while (((spool.w + 1) % SPOOL_BUF) == spool.r) *)
Definition spool_full (s : spool) : bool := u32 (sp_w s + 1) `mod` SPOOL_BUF =? sp_r s.

Definition spool_put (c : Z) (s : spool) : spool :=
  s <| buf := <[Z.to_nat (sp_w s `mod` SPOOL_BUF) := c]> (buf s) |>
    <| sp_w := u32 (sp_w s + 1) |>.

Definition spool_get (s : spool) : Z * spool :=
  (buf s !!! Z.to_nat (sp_r s `mod` SPOOL_BUF), s <| sp_r := u32 (sp_r s + 1) |>).

(** spoolwrite from index [i]: its end, the rest of the source, the device. *)
Fixpoint spoolwrite_seg (killed : bool) (src : list (option Z)) (i : Z) (s : spool)
    : send * list (option Z) * spool :=
  match src with
  | [] => (SRet i, [], s)
  | c :: rest =>
      if spool_full s then
        if killed then (SRet (-1), src, s) else (SSleep, src, s)
      else match c with
           | None => (SRet i, src, s)
           | Some ch => spoolwrite_seg killed rest (i + 1) (spool_put ch s)
           end
  end.

(** spoolread with [dst] bytes to go of [target]: its end, the bytes taken. *)
Fixpoint spoolread_seg (killed : bool) (target : Z) (dst : list bool) (s : spool)
    : send * list Z * spool :=
  let n := Z.of_nat (length dst) in
  match dst with
  | [] => (SRet target, [], s)
  | ok :: dst' =>
      if sp_r s =? sp_w s then
        if killed then (SRet (-1), [], s)
        else if n <? target then (SRet (target - n), [], s)
        else (SSleep, [], s)
      else
        let '(c, s) := spool_get s in
        if negb ok then (SRet (target - n), [c], s)
        else
          let '(e, taken, s) := spoolread_seg killed target dst' s in (e, c :: taken, s)
  end.

(** ** While the reader's index has not passed the end of the buffer *)

Definition sp_fill (s : spool) : Z := sp_w s - sp_r s.

Definition spool_ok (s : spool) : Prop :=
  length (buf s) = Z.to_nat SPOOL_BUF ∧ 0 ≤ sp_r s < SPOOL_BUF ∧
  0 ≤ sp_fill s < SPOOL_BUF.

Definition sp_contents (s : spool) : list Z :=
  (λ j : nat, buf s !!! Z.to_nat ((sp_r s + Z.of_nat j) `mod` SPOOL_BUF))
    <$> seq 0 (Z.to_nat (sp_fill s)).

(** With the read index in the buffer the test is exact: full means all but one. *)
Lemma spool_full_iff s : spool_ok s → spool_full s = true ↔ sp_fill s = SPOOL_BUF - 1.
Proof.
  intros (_ & Hr & Hf). unfold spool_full, sp_fill, SPOOL_BUF in *.
  rewrite Z.eqb_eq, u32_small by lia.
  destruct (decide (sp_w s + 1 < 4096)).
  - rewrite Z.mod_small by lia. lia.
  - replace (sp_w s + 1) with ((sp_w s + 1 - 4096) + 1 * 4096) by lia.
    rewrite Z.mod_add by lia. destruct (decide (sp_w s + 1 - 4096 < 4096)).
    + rewrite Z.mod_small by lia. lia.
    + lia.
Qed.

Lemma sp_contents_length s : length (sp_contents s) = Z.to_nat (sp_fill s).
Proof. unfold sp_contents. by rewrite length_fmap, length_seq. Qed.

Lemma sp_contents_lookup s j :
  (j < Z.to_nat (sp_fill s))%nat →
  sp_contents s !! j = Some (buf s !!! Z.to_nat ((sp_r s + Z.of_nat j) `mod` SPOOL_BUF)).
Proof.
  intros Hj. unfold sp_contents. rewrite list_lookup_fmap, lookup_seq_lt by lia. done.
Qed.

Lemma spool_put_spec c s :
  spool_ok s → spool_full s = false →
  spool_ok (spool_put c s) ∧ sp_contents (spool_put c s) = sp_contents s ++ [c].
Proof.
  intros Hok Hnf. pose proof Hok as (Hl & Hr & Hf).
  assert (sp_fill s ≠ SPOOL_BUF - 1) as Hne by (rewrite <-spool_full_iff by done; by rewrite Hnf).
  assert (sp_w (spool_put c s) = sp_w s + 1) as Hw.
  { unfold spool_put; simpl. apply u32_small. unfold sp_fill, SPOOL_BUF in *. lia. }
  assert (sp_fill (spool_put c s) = sp_fill s + 1) as Hfill
    by (unfold sp_fill at 1; rewrite Hw; unfold sp_fill; simpl; lia).
  split.
  - unfold spool_ok. rewrite Hfill. unfold spool_put; simpl. rewrite length_insert.
    unfold SPOOL_BUF in *. split_and!; try done; lia.
  - apply list_eq_same_length with (n := Z.to_nat (sp_fill s + 1));
      [rewrite length_app, sp_contents_length; simpl; lia|by rewrite sp_contents_length, Hfill|].
    intros j x y Hj. rewrite sp_contents_lookup by (rewrite Hfill; lia).
    change (sp_r (spool_put c s)) with (sp_r s). unfold spool_put; simpl.
    assert (∀ z, (Z.to_nat (z `mod` SPOOL_BUF) < Z.to_nat SPOOL_BUF)%nat) as Hlt.
    { intros z. pose proof (Z.mod_pos_bound z SPOOL_BUF). unfold SPOOL_BUF in *. lia. }
    destruct (decide (j = Z.to_nat (sp_fill s))) as [->|Hjn].
    + rewrite lookup_app_r by (rewrite sp_contents_length; lia).
      rewrite sp_contents_length, Nat.sub_diag, Z2Nat.id by lia.
      replace (sp_r s + sp_fill s) with (sp_w s) by (unfold sp_fill; lia).
      rewrite list_lookup_total_insert_eq by (rewrite Hl; apply Hlt). simpl. congruence.
    + rewrite lookup_app_l by (rewrite sp_contents_length; lia).
      rewrite sp_contents_lookup by lia. rewrite list_lookup_total_insert_ne; [congruence|].
      intros E. unfold sp_fill, SPOOL_BUF in *.
      pose proof (Z.mod_pos_bound (sp_w s) 4096). pose proof (Z.mod_pos_bound (sp_r s + Z.of_nat j) 4096).
      pose proof (Z.div_mod (sp_w s) 4096). pose proof (Z.div_mod (sp_r s + Z.of_nat j) 4096).
      lia.
Qed.

(** ** Theorems *)

(** the spool buffer, up to its first wrap. While the reader's index has not
    left the buffer, spoolwrite appends exactly the bytes it accepts to the
    contents and never overwrites an unread byte; it stops early only when the
    buffer holds SPOOL_BUF - 1 bytes or the source faults. *)
Theorem spoolwrite_appends killed src i s :
  spool_ok s →
  let '(e, rest, s') := spoolwrite_seg killed src i s in
  ∃ bs, src = (Some <$> bs) ++ rest ∧ sp_contents s' = sp_contents s ++ bs ∧ spool_ok s' ∧
    match e with
    | SRet n => n = i + Z.of_nat (length bs) ∧ (rest = [] ∨ head rest = Some None) ∨
                n = -1 ∧ killed = true ∧ sp_fill s' = SPOOL_BUF - 1
    | SSleep => killed = false ∧ sp_fill s' = SPOOL_BUF - 1
    end.
Proof.
  revert i s. induction src as [|c src IH]; intros i s Hok; cbn [spoolwrite_seg].
  { exists []. simpl. rewrite app_nil_r. split_and!; try done. left. split; [lia|by left]. }
  destruct (spool_full s) eqn:Hf.
  - apply spool_full_iff in Hf; [|done].
    destruct killed; exists []; simpl; rewrite app_nil_r; split_and!; try done. by right.
  - destruct c as [ch|].
    + destruct (spool_put_spec ch s Hok Hf) as [Hok' Hc]. specialize (IH (i + 1) _ Hok').
      destruct (spoolwrite_seg killed src (i + 1) (spool_put ch s)) as [[e rest] s'].
      destruct IH as (bs & -> & Hc2 & Hok2 & He). exists (ch :: bs).
      rewrite Hc2, Hc, <-app_assoc. split_and!; try done. destruct e; [|done].
      destruct He as [[-> ?]|?]; [left|by right]. split; [simpl length; lia|done].
    + exists []. simpl. rewrite app_nil_r. split_and!; try done. left. split; [lia|by right].
Qed.

Lemma spoolwrite_appends_witness :
  ∃ s', spoolwrite_seg false [Some 7; Some 8; None] 0 spool_zero = (SRet 2, [None], s') ∧
    sp_contents s' = [7; 8].
Proof.
  assert (spool_ok spool_zero) as Hok.
  { split_and!; [reflexivity|vm_compute; congruence|vm_compute; congruence|
      vm_compute; congruence|vm_compute; congruence]. }
  pose proof (spoolwrite_appends false [Some 7; Some 8; None] 0 spool_zero Hok) as H.
  destruct (spoolwrite_seg false [Some 7; Some 8; None] 0 spool_zero) as [[e rest] s'] eqn:E.
  exists s'. vm_compute in E. injection E as <- <- <-.
  split; [reflexivity|]. vm_compute. reflexivity.
Defined.

(** Once the reader's index has passed the end of the buffer the test can no
    longer hold: with a full buffer of unread bytes (r = 4096, w = 8192) the
    device still accepts a byte and overwrites the oldest one. *)
Example spool_overwrites_unread :
  let s := mk_spool (replicate 4096 1) 4096 8192 in
  spool_full s = false ∧
  (spool_get s).1 = 1 ∧ (spool_get (spool_put 2 s)).1 = 2.
Proof. vm_compute. auto. Qed.
