(* ===== verification/Log.v ===== *)
(** * The file-system log (src/kernel/filesystem/log.c)

    [disk] is the contents of the disk, [cache] what bread() returns: the buffer
    of the block if it is cached, else the block on the disk. A block that
    log_write() has recorded is pinned, so its cached contents stay. The first
    [log.lh.n] entries of the in-memory header are the list [lh]. bwrite() also
    records the write in [trace], the order in which the writes reach the disk:
    a crash keeps a prefix of it. Blocks are lists of 32-bit words, the view the
    code takes of the header block. *)

From S2P Require Import Prelude.

Definition MAXOPBLOCKS : Z := 10.
Definition LOGSIZE : Z := MAXOPBLOCKS * 3.

Definition block : Type := list Z.

Definition upd_block (d : Z → block) (b : Z) (v : block) : Z → block :=
  λ x, if x =? b then v else d x.

Record log := mk_log {
  disk : Z → block;
  cache : Z → block;
  trace : list (Z * block);
  l_start : Z;
  l_size : Z;
  outstanding : Z;
  committing : bool;
  lh : list Z;
}.

#[export] Instance log_rebuild : Rebuild log := λ l,
  mk_log (disk l) (cache l) (trace l) (l_start l) (l_size l) (outstanding l)
    (committing l) (lh l).
#[export] Instance disk_set : Setter disk := ltac:(solve_setter).
#[export] Instance cache_set : Setter cache := ltac:(solve_setter).
#[export] Instance trace_set : Setter trace := ltac:(solve_setter).
#[export] Instance l_start_set : Setter l_start := ltac:(solve_setter).
#[export] Instance l_size_set : Setter l_size := ltac:(solve_setter).
#[export] Instance outstanding_set : Setter outstanding := ltac:(solve_setter).
#[export] Instance committing_set : Setter committing := ltac:(solve_setter).
#[export] Instance lh_set : Setter lh := ltac:(solve_setter).

(** Writing a buffer that now holds [v]. *)
Definition bwrite (b : Z) (v : block) (l : log) : log :=
  l <| disk := upd_block (disk l) b v |> <| cache := upd_block (cache l) b v |>
    <| trace := trace l ++ [(b, v)] |>.

(** for (tail = 0; tail < log.lh.n; tail++) ... *)
Definition install_body (l : log) (tail : nat) : log :=
  bwrite (lh l !!! tail) (cache l (l_start l + Z.of_nat tail + 1)) l.

Definition install_trans (l : log) : log := foldl install_body l (seq 0 (length (lh l))).

Definition write_log_body (l : log) (tail : nat) : log :=
  bwrite (l_start l + Z.of_nat tail + 1) (cache l (lh l !!! tail)) l.

Definition write_log (l : log) : log := foldl write_log_body l (seq 0 (length (lh l))).

(** The header block: its first word is n, the next n words are the numbers. *)
Definition read_head (l : log) : log :=
  let h := cache l (l_start l) in
  l <| lh := take (Z.to_nat (h !!! 0%nat)) (drop 1 h) |>.

Definition put_head (blocks : list Z) (h : block) : block :=
  Z.of_nat (length blocks) :: blocks ++ drop (S (length blocks)) h.

Definition write_head (l : log) : log :=
  bwrite (l_start l) (put_head (lh l) (cache l (l_start l))) l.

Definition recover_from_log (l : log) : log :=
  let l := read_head l in
  let l := install_trans l in
  let l := l <| lh := [] |> in
  write_head l.

(** initlog() on a disk: nothing is cached yet. *)
Definition initlog (start size : Z) (d : Z → block) : log :=
  recover_from_log (mk_log d d [] start size 0 false []).

Definition commit (l : log) : log :=
  if (0 <? length (lh l))%nat then
    let l := write_log l in
    let l := write_head l in
    let l := install_trans l in
    let l := l <| lh := [] |> in
    write_head l
  else l.

(** begin_op(): [None] when it has to sleep. *)
Definition begin_op (l : log) : option log :=
  if committing l then None
  else if LOGSIZE <? Z.of_nat (length (lh l)) + (outstanding l + 1) * MAXOPBLOCKS then None
  else Some (l <| outstanding := outstanding l + 1 |>).

(** end_op(): [None] is its panic; the flag tells whether it has to commit. *)
Definition end_op_enter (l : log) : option (bool * log) :=
  let l := l <| outstanding := outstanding l - 1 |> in
  if committing l then None
  else if outstanding l =? 0 then Some (true, l <| committing := true |>)
  else Some (false, l).

Definition end_op_commit (l : log) : log := (commit l) <| committing := false |>.

(** log_write() of block [b]; the caller has changed the buffer to [v] before.
    [None] is a panic. *)
Definition log_write (b : Z) (v : block) (l : log) : option log :=
  let l := l <| cache := upd_block (cache l) b v |> in
  let n := Z.of_nat (length (lh l)) in
  if (LOGSIZE <=? n) || (l_size l - 1 <=? n) then None
  else if outstanding l <? 1 then None
  else match find_index (λ x, x =? b) (lh l) with
       | Some i => Some (l <| lh := <[i := b]> (lh l) |>)
       | None => Some (l <| lh := lh l ++ [b] |>)
       end.

(** ** Disk writes *)

Definition apply_writes (d : Z → block) (ws : list (Z * block)) : Z → block :=
  foldl (λ d w, upd_block d w.1 w.2) d ws.

Lemma apply_app d ws ws' : apply_writes d (ws ++ ws') = apply_writes (apply_writes d ws) ws'.
Proof. apply foldl_app. Qed.

Lemma apply_snoc d ws b v :
  apply_writes d (ws ++ [(b, v)]) = upd_block (apply_writes d ws) b v.
Proof. by rewrite apply_app. Qed.

Lemma upd_block_eq d b v : upd_block d b v b = v.
Proof. unfold upd_block. by rewrite Z.eqb_refl. Qed.

Lemma upd_block_ne d b v x : x ≠ b → upd_block d b v x = d x.
Proof. intros Hx. unfold upd_block. by rewrite (proj2 (Z.eqb_neq x b)). Qed.

Lemma apply_other d ws x : x ∉ ws.*1 → apply_writes d ws x = d x.
Proof.
  revert d. induction ws as [|[b v] ws IH]; intros d Hx; [done|]. simpl in *.
  rewrite IH by set_solver. apply upd_block_ne. set_solver.
Qed.

Lemma apply_in d ws x v : NoDup ws.*1 → (x, v) ∈ ws → apply_writes d ws x = v.
Proof.
  revert d. induction ws as [|[b u] ws IH]; intros d Hnd Hin; [set_solver|]. simpl in *.
  apply NoDup_cons in Hnd as [Hb Hnd]. apply elem_of_cons in Hin as [[= <- <-]|Hin].
  - rewrite apply_other by done. apply upd_block_eq.
  - by apply IH.
Qed.

(** Blocks outside the log area. *)
Definition home (l : log) (b : Z) : Prop := ¬ (l_start l ≤ b < l_start l + l_size l).

(** A log with a transaction to commit: the header on the disk is clear, the
    recorded blocks are different home blocks, and they fit. *)
Definition log_ok (l : log) : Prop :=
  NoDup (lh l) ∧ (∀ b, b ∈ lh l → home l b) ∧ Z.of_nat (length (lh l)) ≤ l_size l - 1 ∧
  (length (lh l) < length (disk l (l_start l)))%nat ∧
  cache l (l_start l) = disk l (l_start l) ∧ disk l (l_start l) !! 0%nat = Some 0.

(** The log after the writes [ws] have gone through the cache to the disk. *)
Definition after (l : log) (ws : list (Z * block)) : log :=
  l <| disk := apply_writes (disk l) ws |> <| cache := apply_writes (cache l) ws |>
    <| trace := trace l ++ ws |>.

Lemma bwrite_after l ws b v : bwrite b v (after l ws) = after l (ws ++ [(b, v)]).
Proof.
  unfold bwrite, after. destruct l. unfold upd, disk_set, cache_set, trace_set; simpl.
  by rewrite !apply_app, <-app_assoc.
Qed.

Lemma after_nil l : after l [] = l.
Proof.
  unfold after. destruct l. unfold upd, disk_set, cache_set, trace_set; simpl.
  by rewrite app_nil_r.
Qed.

Lemma after_after l ws ws' : after (after l ws) ws' = after l (ws ++ ws').
Proof.
  unfold after. destruct l. unfold upd, disk_set, cache_set, trace_set; simpl.
  by rewrite !apply_app, <-app_assoc.
Qed.

Lemma write_head_clear l :
  write_head (l <| lh := [] |>) =
    (bwrite (l_start l) (put_head [] (cache l (l_start l))) l) <| lh := [] |>.
Proof. by destruct l. Qed.

(** The writes of write_log() and of install_trans(). *)
Definition log_writes (l : log) : list (Z * block) :=
  imap (λ i b, (l_start l + Z.of_nat i + 1, cache l b)) (lh l).

Definition install_writes (l : log) : list (Z * block) :=
  imap (λ i b, (b, cache l (l_start l + Z.of_nat i + 1))) (lh l).

Lemma take_imap_S {A B} (f : nat → A → B) (xs : list A) m x :
  xs !! m = Some x → take (S m) (imap f xs) = take m (imap f xs) ++ [f m x].
Proof. intros Hx. apply take_S_r. by rewrite list_lookup_imap, Hx. Qed.

Lemma log_writes_fst l : (log_writes l).*1 = imap (λ i _, l_start l + Z.of_nat i + 1) (lh l).
Proof. unfold log_writes. by rewrite fmap_imap. Qed.

Lemma install_writes_fst l : (install_writes l).*1 = lh l.
Proof.
  unfold install_writes. rewrite fmap_imap. apply list_eq. intros i.
  rewrite list_lookup_imap. by destruct (lh l !! i).
Qed.

Lemma log_writes_area l x :
  x ∈ (log_writes l).*1 → l_start l < x ≤ l_start l + Z.of_nat (length (lh l)).
Proof.
  rewrite log_writes_fst, elem_of_lookup_imap. intros (i & b & -> & Hi%lookup_lt_Some). lia.
Qed.

Lemma log_writes_nodup l : NoDup (log_writes l).*1.
Proof.
  rewrite log_writes_fst. apply NoDup_alt. intros i j x.
  rewrite !list_lookup_imap. destruct (lh l !! i), (lh l !! j); simpl; intros; simplify_eq. lia.
Qed.

Lemma fst_take (ws : list (Z * block)) m x : x ∈ (take m ws).*1 → x ∈ ws.*1.
Proof.
  rewrite !list_elem_of_fmap. intros (w & -> & (i & Hi & _)%elem_of_take).
  exists w. split; [done|]. by eapply list_elem_of_lookup_2.
Qed.

(** The recorded blocks are apart from the header and the log blocks in use. *)
Definition apart (l : log) : Prop :=
  ∀ b, b ∈ lh l → ¬ (l_start l ≤ b ≤ l_start l + Z.of_nat (length (lh l))).

Lemma log_ok_apart l : log_ok l → apart l.
Proof. intros (_ & Hhome & Hn & _) b Hb Hin. apply (Hhome b Hb). lia. Qed.

Lemma write_log_after l : apart l → write_log l = after l (log_writes l).
Proof.
  intros Hap.
  assert (∀ m, (m ≤ length (lh l))%nat →
    foldl write_log_body l (seq 0 m) = after l (take m (log_writes l))) as H.
  { induction m as [|m IH]; intros Hm; [by rewrite take_0, after_nil|].
    rewrite seq_S, foldl_app, IH by lia. simpl.
    destruct (lookup_lt_is_Some_2 (lh l) m) as [b Hb]; [lia|].
    set (ws := take m (log_writes l)). unfold log_writes.
    rewrite (take_imap_S _ _ _ b Hb). fold (log_writes l). fold ws.
    unfold write_log_body. rewrite bwrite_after. do 3 f_equal.
    change (lh (after l ws)) with (lh l). rewrite (list_lookup_total_correct _ _ _ Hb).
    change (cache (after l ws) b) with (apply_writes (cache l) ws b).
    change (l_start (after l ws)) with (l_start l). f_equal.
    apply apply_other. intros Hin%fst_take%log_writes_area.
    apply (Hap b); [by eapply list_elem_of_lookup_2|]. lia. }
  unfold write_log. rewrite H by lia. rewrite take_ge; [done|].
  unfold log_writes. rewrite length_imap. done.
Qed.

Lemma install_after l : apart l → install_trans l = after l (install_writes l).
Proof.
  intros Hap.
  assert (∀ m, (m ≤ length (lh l))%nat →
    foldl install_body l (seq 0 m) = after l (take m (install_writes l))) as H.
  { induction m as [|m IH]; intros Hm; [by rewrite take_0, after_nil|].
    rewrite seq_S, foldl_app, IH by lia. simpl.
    destruct (lookup_lt_is_Some_2 (lh l) m) as [b Hb]; [lia|].
    set (ws := take m (install_writes l)). unfold install_writes.
    rewrite (take_imap_S _ _ _ b Hb). fold (install_writes l). fold ws.
    unfold install_body. rewrite bwrite_after. do 3 f_equal.
    change (lh (after l ws)) with (lh l). rewrite (list_lookup_total_correct _ _ _ Hb).
    change (l_start (after l ws)) with (l_start l).
    change (cache (after l ws)) with (apply_writes (cache l) ws). f_equal.
    apply apply_other. intros Hin%fst_take. rewrite install_writes_fst in Hin.
    apply (Hap _ Hin). lia. }
  unfold install_trans. rewrite H by lia. rewrite take_ge; [done|].
  unfold install_writes. rewrite length_imap. done.
Qed.

(** ** Recovery *)

(** The disk that recovery leaves: a header with n = 0 leaves the home blocks as
    they are, a full header replays the log blocks. *)
Definition replay (l : log) (d : Z → block) : Z → block :=
  apply_writes d (imap (λ i b, (b, d (l_start l + Z.of_nat i + 1))) (lh l)).

Lemma initlog_disk start size d blocks x :
  take (Z.to_nat (d start !!! 0%nat)) (drop 1 (d start)) = blocks →
  (∀ b, b ∈ blocks → ¬ (start ≤ b ≤ start + Z.of_nat (length blocks))) →
  x ≠ start →
  disk (initlog start size d) x =
    apply_writes d (imap (λ i b, (b, d (start + Z.of_nat i + 1))) blocks) x.
Proof.
  intros <- Hap Hx. set (blocks := take _ _) in *.
  set (l0 := mk_log d d [] start size 0 false blocks).
  assert (initlog start size d = write_head ((install_trans l0) <| lh := [] |>)) as -> by done.
  rewrite (install_after l0 Hap). unfold write_head, bwrite; simpl.
  by rewrite upd_block_ne.
Qed.

(** *** The writes of a commit *)

Section commit.
Context (l : log).
Hypothesis Hok : log_ok l.
Hypothesis Hne : lh l ≠ [].

Let h0 := disk l (l_start l).
Let h1 := put_head (lh l) h0.
Let h2 := put_head [] h1.

Definition home_writes : list (Z * block) := (λ b, (b, cache l b)) <$> lh l.

Lemma commit_trace :
  commit l =
    (after l (log_writes l ++ [(l_start l, h1)] ++ home_writes ++ [(l_start l, h2)]))
      <| lh := [] |>.
Proof using Hok Hne.
  unfold commit. assert ((0 <? length (lh l))%nat = true) as ->.
  { clear -Hne. by destruct (lh l). }
  pose proof (log_ok_apart l Hok) as Hap. rewrite write_log_after by done.
  assert (apply_writes (cache l) (log_writes l) (l_start l) = h0) as Hh.
  { rewrite apply_other; [by destruct Hok as (_&_&_&_&->&_)|].
    intros Hin%log_writes_area. lia. }
  set (ws1 := log_writes l ++ [(l_start l, h1)]).
  assert (write_head (after l (log_writes l)) = after l ws1) as ->.
  { unfold ws1, h1. rewrite <-bwrite_after, <-Hh. reflexivity. }
  rewrite (install_after (after l ws1)) by exact Hap.
  assert (install_writes (after l ws1) = home_writes) as Hinst.
  { unfold install_writes, home_writes. change (lh (after l ws1)) with (lh l).
    apply list_eq. intros i. rewrite list_lookup_imap, list_lookup_fmap.
    destruct (lh l !! i) as [b|] eqn:Hb; simpl; [|done]. do 2 f_equal.
    unfold ws1. rewrite apply_app. simpl. rewrite upd_block_ne by lia.
    apply apply_in; [apply log_writes_nodup|]. unfold log_writes.
    apply elem_of_lookup_imap. by exists i, b. }
  rewrite Hinst, write_head_clear, after_after.
  assert (cache (after l (ws1 ++ home_writes)) (l_start l) = h1) as Hh1.
  { change (apply_writes (cache l) (ws1 ++ home_writes) (l_start l) = h1).
    rewrite apply_app, apply_other.
    - unfold ws1. rewrite apply_app. apply upd_block_eq.
    - unfold home_writes. rewrite <-list_fmap_compose, list_elem_of_fmap.
      intros (b & Hb & Hin). simpl in Hb. apply (Hap b Hin). lia. }
  change (l_start (after l (ws1 ++ home_writes))) with (l_start l).
  rewrite Hh1, bwrite_after. unfold ws1. by rewrite <-!app_assoc.
Qed.

(** The contents of the home blocks after the transaction. *)
Definition committed (x : Z) : block :=
  if decide (x ∈ lh l) then cache l x else disk l x.

Lemma h0_clear : take (Z.to_nat (h0 !!! 0%nat)) (drop 1 h0) = [].
Proof using Hok Hne.
  destruct Hok as (_&_&_&_&_&H0). fold h0 in H0.
  by rewrite (list_lookup_total_correct _ _ _ H0).
Qed.

Lemma h1_blocks : take (Z.to_nat (h1 !!! 0%nat)) (drop 1 h1) = lh l.
Proof.
  change (take (Z.to_nat (Z.of_nat (length (lh l))))
            (lh l ++ drop (S (length (lh l))) h0) = lh l).
  by rewrite Nat2Z.id, take_app_length.
Qed.

Lemma h2_clear : take (Z.to_nat (h2 !!! 0%nat)) (drop 1 h2) = [].
Proof. done. Qed.

Lemma home_writes_fst : home_writes.*1 = lh l.
Proof. unfold home_writes. rewrite <-list_fmap_compose. by apply list_fmap_id. Qed.

Lemma home_not_log x : home l x → x ≠ l_start l ∧ x ∉ (log_writes l).*1.
Proof using Hok Hne.
  intros Hx. pose proof Hok as (_ & _ & Hn & _). unfold home in Hx.
  split; [lia|]. intros Hin%log_writes_area. lia.
Qed.

Lemma recover_before k x :
  home l x → (k ≤ length (lh l))%nat →
  disk (initlog (l_start l) (l_size l) (apply_writes (disk l) (take k (log_writes l)))) x
    = disk l x.
Proof using Hok Hne.
  intros Hx Hk. destruct (home_not_log x Hx) as [Hs Hlog].
  rewrite (initlog_disk _ _ _ []); [|rewrite apply_other; [exact h0_clear|]|set_solver|done].
  - simpl. rewrite apply_other; [done|]. intros Hin%fst_take. done.
  - intros Hin%fst_take%log_writes_area. lia.
Qed.

(** The disk with the header written and part of the blocks installed. *)
Let d (j : nat) := apply_writes (disk l) (log_writes l ++ [(l_start l, h1)] ++ take j home_writes).

Lemma d_head j : d j (l_start l) = h1.
Proof using Hok Hne.
  unfold d. rewrite !apply_app, apply_other; [apply upd_block_eq|].
  intros Hin%fst_take. rewrite home_writes_fst in Hin.
  apply (log_ok_apart l Hok _ Hin). lia.
Qed.

Lemma d_log j i b : lh l !! i = Some b → d j (l_start l + Z.of_nat i + 1) = cache l b.
Proof using Hok Hne.
  intros Hb. pose proof (lookup_lt_Some _ _ _ Hb). unfold d. rewrite !apply_app, apply_other.
  - simpl. rewrite upd_block_ne by lia. apply apply_in; [apply log_writes_nodup|].
    apply elem_of_lookup_imap. by exists i, b.
  - intros Hin%fst_take. rewrite home_writes_fst in Hin.
    apply (log_ok_apart l Hok _ Hin). lia.
Qed.

Lemma d_home j x : home l x → x ∉ lh l → d j x = disk l x.
Proof using Hok Hne.
  intros Hx Hn. destruct (home_not_log x Hx) as [Hs Hlog]. unfold d.
  rewrite !apply_app, apply_other.
  - simpl. rewrite upd_block_ne by done. by apply apply_other.
  - intros Hin%fst_take. by rewrite home_writes_fst in Hin.
Qed.

Lemma recover_after j x :
  home l x → disk (initlog (l_start l) (l_size l) (d j)) x = committed x.
Proof using Hok Hne.
  intros Hx. destruct (home_not_log x Hx) as [Hs _].
  rewrite (initlog_disk _ _ _ (lh l)); [|rewrite d_head; apply h1_blocks|
    by apply log_ok_apart|done].
  set (ws := imap _ (lh l)).
  assert (ws.*1 = lh l) as Hfst.
  { unfold ws. rewrite fmap_imap. apply list_eq. intros i. rewrite list_lookup_imap.
    by destruct (lh l !! i). }
  unfold committed. case_decide as Hin.
  - apply (apply_in _ ws); [exact (eq_ind_r NoDup (proj1 Hok) Hfst)|]. apply list_elem_of_lookup in Hin as (i & Hi).
    unfold ws. apply elem_of_lookup_imap. exists i, x. split; [|done].
    by rewrite (d_log j i x Hi).
  - rewrite (apply_other _ ws); [by apply d_home|].
    exact (eq_ind_r (λ b, x ∉ b) Hin Hfst).
Qed.

Lemma recover_done x :
  home l x →
  disk (initlog (l_start l) (l_size l)
    (apply_writes (disk l)
       (log_writes l ++ [(l_start l, h1)] ++ home_writes ++ [(l_start l, h2)]))) x
    = committed x.
Proof using Hok Hne.
  intros Hx. destruct (home_not_log x Hx) as [Hs Hlog].
  rewrite !app_assoc, (initlog_disk _ _ _ []);
    [|rewrite apply_snoc, upd_block_eq; apply h2_clear|set_solver|done].
  cbn [imap apply_writes foldl]. rewrite apply_snoc, upd_block_ne by done.
  rewrite apply_app, apply_snoc. unfold committed. case_decide as Hin.
  - apply apply_in; [rewrite home_writes_fst; apply Hok|]. unfold home_writes.
    apply list_elem_of_fmap. by exists x.
  - rewrite apply_other by (by rewrite home_writes_fst).
    rewrite upd_block_ne by done. by apply apply_other.
Qed.

(** A prefix of the writes of a commit is one of three kinds. *)
Lemma commit_prefix k :
  let ws := log_writes l ++ [(l_start l, h1)] ++ home_writes ++ [(l_start l, h2)] in
  take k ws = take k (log_writes l) ∧ (k ≤ length (lh l))%nat ∨
  (∃ j, take k ws = log_writes l ++ [(l_start l, h1)] ++ take j home_writes) ∨
  take k ws = ws.
Proof.
  assert (length (log_writes l) = length (lh l)) as Hl
    by (unfold log_writes; by rewrite length_imap).
  assert (length home_writes = length (lh l)) as Hh
    by (unfold home_writes; by rewrite length_fmap).
  cbv zeta. destruct (decide (k ≤ length (lh l))%nat) as [Hk|Hk].
  { left. split; [|done]. rewrite take_app_le by lia. done. }
  right. destruct (decide (k ≤ length (lh l) + 1 + length (lh l))%nat) as [Hk2|Hk2].
  - left. exists (k - length (lh l) - 1)%nat.
    rewrite take_app_ge by lia. f_equal. rewrite Hl.
    rewrite take_app_ge by (simpl; lia). f_equal. simpl length.
    rewrite take_app_le by lia. done.
  - right. apply take_ge. rewrite !length_app. simpl. lia.
Qed.
End commit.

(** ** Crashes during recovery *)

(** The blocks that the header in [h] names. *)
Definition head_blocks (h : block) : list Z := take (Z.to_nat (h !!! 0%nat)) (drop 1 h).

(** The header names no block of the log area in use. *)
Definition head_ok (start : Z) (h : block) : Prop :=
  ∀ b, b ∈ head_blocks h → ¬ (start ≤ b ≤ start + Z.of_nat (length (head_blocks h))).

Definition replay_writes (start : Z) (d : Z → block) : list (Z * block) :=
  imap (λ i b, (b, d (start + Z.of_nat i + 1))) (head_blocks (d start)).

Lemma replay_writes_fst start d : (replay_writes start d).*1 = head_blocks (d start).
Proof.
  unfold replay_writes. rewrite fmap_imap. apply list_eq. intros i.
  rewrite list_lookup_imap. by destruct (head_blocks (d start) !! i).
Qed.

Lemma initlog_after start size d :
  head_ok start (d start) →
  initlog start size d =
    after (mk_log d d [] start size 0 false [])
      (replay_writes start d ++ [(start, put_head [] (d start))]).
Proof.
  intros Hap.
  set (l0 := mk_log d d [] start size 0 false (head_blocks (d start))).
  assert (initlog start size d = write_head ((install_trans l0) <| lh := [] |>)) as -> by done.
  rewrite (install_after l0 Hap).
  assert (apply_writes d (replay_writes start d) start = d start) as Hst.
  { apply apply_other. rewrite replay_writes_fst. intros Hin. apply (Hap _ Hin). lia. }
  rewrite write_head_clear.
  change (l_start (after l0 (install_writes l0))) with start.
  change (cache (after l0 (install_writes l0)) start)
    with (apply_writes d (replay_writes start d) start).
  rewrite Hst, bwrite_after. done.
Qed.

(** Repeating a prefix of a sequence of writes changes nothing. *)
Lemma apply_ext d d' ws x :
  (x ∉ ws.*1 → d x = d' x) → apply_writes d ws x = apply_writes d' ws x.
Proof.
  revert d d'. induction ws as [|[b v] ws IH]; intros d d' Heq; [apply Heq; set_solver|].
  simpl. apply IH. intros Hx. unfold upd_block. case_eq (x =? b); [done|].
  intros Hb%Z.eqb_neq. apply Heq. set_solver.
Qed.

Lemma apply_prefix d ws m x : apply_writes (apply_writes d (take m ws)) ws x = apply_writes d ws x.
Proof. apply apply_ext. intros Hx. apply apply_other. intros Hin%fst_take. done. Qed.

(** *** Runs of file-system operations

    The second component holds, for every operation between begin_op() and
    end_op(), how many blocks it has logged. The rule for log_write() is the
    contract of the file-system calls: at most MAXOPBLOCKS blocks each, none of
    them in the log area. *)

Inductive log_step : log * list nat → log * list nat → Prop :=
  | step_begin l l' us :
      begin_op l = Some l' → log_step (l, us) (l', us ++ [0%nat])
  | step_write l l' us i u b v :
      us !! i = Some u → Z.of_nat u < MAXOPBLOCKS → home l b →
      log_write b v l = Some l' → log_step (l, us) (l', <[i := S u]> us)
  | step_end l l' us i c :
      (i < length us)%nat → end_op_enter l = Some (c, l') → log_step (l, us) (l', delete i us)
  | step_commit l us :
      committing l = true → log_step (l, us) (end_op_commit l, us).

(** What the operations under way may still log. *)
Definition reserved (us : list nat) : Z := sum_with (λ u, MAXOPBLOCKS - Z.of_nat u) us.

Definition head_clear (l : log) : Prop :=
  cache l (l_start l) = disk l (l_start l) ∧ disk l (l_start l) !! 0%nat = Some 0 ∧
  LOGSIZE < Z.of_nat (length (disk l (l_start l))).

Definition log_inv (s : log * list nat) : Prop :=
  let l := s.1 in let us := s.2 in
  (LOGSIZE ≤ l_size l - 1 ∧ head_clear l) ∧
  (NoDup (lh l) ∧ ∀ b, b ∈ lh l → home l b) ∧
  outstanding l = Z.of_nat (length us) ∧ (∀ u, u ∈ us → Z.of_nat u ≤ MAXOPBLOCKS) ∧
  Z.of_nat (length (lh l)) + reserved us ≤ LOGSIZE ∧
  (committing l = true → us = []) ∧ (us = [] → committing l = false → lh l = []).

Lemma put_head_length bs h :
  (length bs < length h)%nat → length (put_head bs h) = length h.
Proof. intros Hl. unfold put_head. simpl. rewrite length_app, length_drop. lia. Qed.

Lemma reserved_nonneg us : (∀ u, u ∈ us → Z.of_nat u ≤ MAXOPBLOCKS) → 0 ≤ reserved us.
Proof. intros Hu. apply sum_with_nonneg. intros u Hin. specialize (Hu u Hin). lia. Qed.

Lemma log_inv_init start size d :
  LOGSIZE ≤ size - 1 → LOGSIZE < Z.of_nat (length (d start)) → head_ok start (d start) →
  log_inv (initlog start size d, []).
Proof.
  intros Hs Hl Hh. rewrite initlog_after by done. unfold log_inv, head_clear; simpl.
  rewrite !apply_snoc, upd_block_eq. split_and!; try done; try set_solver; [|constructor].
  rewrite put_head_length; [done|]. simpl. unfold LOGSIZE, MAXOPBLOCKS in Hl. lia.
Qed.

Lemma log_inv_ok l us : log_inv (l, us) → log_ok l.
Proof.
  intros ((Hsz & Hc & H0 & Hlen) & (Hnd & Hh) & _ & Hu & Hr & _); simpl in *.
  pose proof (reserved_nonneg _ Hu). split_and!; try done; lia.
Qed.

Lemma log_inv_write l us i u b v :
  log_inv (l, us) → us !! i = Some u → Z.of_nat u < MAXOPBLOCKS →
  ∃ l', log_write b v l = Some l' ∧ (home l b → log_inv (l', <[i := S u]> us)).
Proof.
  intros ((Hsz & Hc & H0 & Hlen) & (Hnd & Hh) & Ho & Hu & Hr & Hcm & He) Hi Hb; simpl in *.
  pose proof (sum_with_elem_le (λ u, MAXOPBLOCKS - Z.of_nat u) us u) as Hle.
  pose proof (list_elem_of_lookup_2 _ _ _ Hi) as Hin.
  assert (MAXOPBLOCKS - Z.of_nat u ≤ reserved us) as Hres.
  { apply Hle; [|done]. intros y Hy. specialize (Hu y Hy). lia. }
  pose proof (lookup_lt_Some _ _ _ Hi) as Hlt.
  assert (reserved (<[i := S u]> us) = reserved us - 1) as Hr'.
  { unfold reserved. rewrite (sum_with_insert _ _ _ _ _ Hi). lia. }
  assert (∀ w, w ∈ <[i := S u]> us → Z.of_nat w ≤ MAXOPBLOCKS) as Hu'.
  { intros w [j Hj]%list_elem_of_lookup. apply list_lookup_insert_Some in Hj as
      [(-> & <- & _)|(_ & Hj)]; [lia|]. apply Hu. by eapply list_elem_of_lookup_2. }
  assert (<[i := S u]> us ≠ []) as Hne.
  { intros E%(f_equal length). rewrite length_insert in E. simpl in E. lia. }
  unfold log_write; simpl.
  rewrite (proj2 (Z.leb_gt _ _)) by lia. rewrite (proj2 (Z.leb_gt _ _)) by lia. simpl.
  rewrite (proj2 (Z.ltb_ge _ _)) by lia.
  destruct (find_index (λ x, x =? b) (lh l)) as [k|] eqn:Hf.
  - apply find_index_Some in Hf as [(x & Hk & Hx) _]. apply Z.eqb_eq in Hx as ->.
    eexists. split; [done|]. intros Hhome. unfold log_inv, head_clear; simpl.
    rewrite (list_insert_id _ _ _ Hk), Hr', length_insert.
    rewrite upd_block_ne by (unfold home in Hhome; unfold LOGSIZE, MAXOPBLOCKS in *; lia).
    split_and!; try done; lia || (intros E; by rewrite Hcm in Hi).
  - eexists. split; [done|]. intros Hhome. unfold log_inv, head_clear; simpl.
    rewrite Hr', length_insert, length_app; simpl.
    rewrite upd_block_ne by (unfold home in Hhome; unfold LOGSIZE, MAXOPBLOCKS in *; lia).
    split_and!; try done; try lia.
    + apply NoDup_app. split_and!; [done| |apply NoDup_singleton].
      intros x Hx ->%list_elem_of_singleton.
      eapply find_index_None in Hf; [|exact Hx]. by rewrite Z.eqb_refl in Hf.
    + intros x [Hx| ->%list_elem_of_singleton]%elem_of_app; [by apply Hh|done].
    + intros E. by rewrite Hcm in Hi.
Qed.

Lemma log_inv_end l us i :
  log_inv (l, us) → (i < length us)%nat →
  ∃ c l', end_op_enter l = Some (c, l') ∧ log_inv (l', delete i us).
Proof.
  intros ((Hsz & Hc & H0 & Hlen) & (Hnd & Hh) & Ho & Hu & Hr & Hcm & He) Hi; simpl in *.
  assert (committing l = false) as Hcf.
  { destruct (committing l); [|done]. rewrite Hcm in Hi by done. simpl in Hi. lia. }
  destruct (lookup_lt_is_Some_2 us i Hi) as [u Hui].
  pose proof (delete_Permutation us i u Hui) as Hp.
  assert (reserved (delete i us) ≤ reserved us) as Hr'.
  { unfold reserved. rewrite (sum_with_perm _ _ _ Hp). simpl.
    specialize (Hu u (list_elem_of_lookup_2 _ _ _ Hui)). lia. }
  assert (length us = S (length (delete i us))) as Hl'.
  { rewrite Hp at 1. done. }
  assert (∀ w, w ∈ delete i us → Z.of_nat w ≤ MAXOPBLOCKS) as Hu'.
  { intros w Hw. apply Hu. rewrite Hp. set_solver. }
  unfold end_op_enter; simpl. rewrite Hcf.
  destruct (Z.eqb_spec (outstanding l - 1) 0) as [E|E]; eexists _, _; split; try done;
    unfold log_inv, head_clear; simpl; split_and!; try done; try lia.
  - intros _. apply nil_length_inv. lia.
  - congruence.
  - intros E'. rewrite E' in Hl'. simpl in Hl'. lia.
Qed.

Lemma log_inv_commit l us :
  log_inv (l, us) → committing l = true → log_inv (end_op_commit l, us).
Proof.
  intros Hinv Hc. pose proof (log_inv_ok _ _ Hinv) as Hok.
  destruct Hinv as ((Hsz & Hcd & H0 & Hlen) & (Hnd & Hh) & Ho & Hu & Hr & Hcm & He); simpl in *.
  rewrite (Hcm Hc) in *. unfold end_op_commit.
  destruct (decide (lh l = [])) as [E|E].
  { unfold commit. rewrite E. simpl. unfold log_inv, head_clear; simpl.
    rewrite E in *. split_and!; done. }
  rewrite commit_trace by done. unfold log_inv, head_clear; simpl.
  rewrite !app_comm_cons, !app_assoc, !apply_snoc, !upd_block_eq.
  split_and!; try done; [|constructor|set_solver].
  rewrite !put_head_length; [done|..]; simpl; try lia;
    rewrite ?length_app, ?length_drop; simpl; destruct Hok as (_&_&_&?&_); lia.
Qed.

Lemma log_inv_step s s' : log_inv s → log_step s s' → log_inv s'.
Proof.
  intros Hinv Hs. destruct Hs as [l l' us Hb|l l' us i u b v Hi Hu Hh Hw|l l' us i c Hi He|l us Hc].
  - destruct Hinv as (H1 & H2 & Ho & Hu & Hr & Hcm & He); simpl in *.
    unfold begin_op in Hb. destruct (committing l) eqn:Hc; [done|].
    destruct (LOGSIZE <? _) eqn:Hlt; [done|]. apply Z.ltb_ge in Hlt. injection Hb as <-.
    assert (reserved us ≤ outstanding l * MAXOPBLOCKS) as Hru.
    { clear -Ho. rewrite Ho. clear Ho. unfold reserved, MAXOPBLOCKS.
      induction us as [|u us IH]; simpl; lia. }
    unfold log_inv; simpl. unfold reserved in *. rewrite sum_with_app, length_app. simpl.
    split_and!; try done; try apply H1; try apply H2; try lia.
    + intros u [Hin| ->%list_elem_of_singleton]%elem_of_app; [by apply Hu|done].
    + intros E. by rewrite E in Hc.
    + destruct us; simpl; discriminate.
  - destruct (log_inv_write _ _ i u b v Hinv Hi Hu) as (l'' & Hw' & Hi'). simplify_eq. auto.
  - destruct (log_inv_end _ _ i Hinv Hi) as (c' & l'' & He' & Hi'). simplify_eq. auto.
  - by apply log_inv_commit.
Qed.

Lemma log_inv_run s s' : log_inv s → rtc log_step s s' → log_inv s'.
Proof. induction 2; eauto using log_inv_step. Qed.

(** ** Theorems *)

(** C3: commits are atomic. Cut the writes of a commit after any of them and
    boot: recovery leaves all the home blocks as they were before the
    transaction, or all of them as the transaction wrote them; the latter
    whenever the header write of the commit was among the writes done. *)
Theorem commit_crash_atomic l k :
  log_ok l → lh l ≠ [] →
  let d := apply_writes (disk l) (take k (drop (length (trace l)) (trace (commit l)))) in
  let d' := disk (initlog (l_start l) (l_size l) d) in
  ((∀ x, home l x → d' x = disk l x) ∨ (∀ x, home l x → d' x = committed l x)) ∧
  ((length (lh l) < k)%nat → ∀ x, home l x → d' x = committed l x).
Proof.
  intros Hok Hne. cbv zeta.
  assert (drop (length (trace l)) (trace (commit l)) = log_writes l ++ [(l_start l, put_head (lh l) (disk l (l_start l)))] ++
    home_writes l ++ [(l_start l, put_head [] (put_head (lh l) (disk l (l_start l))))]) as ->.
  { rewrite commit_trace by done. simpl. by rewrite drop_app_length. }
  destruct (commit_prefix l k) as [[-> Hk]|[[j ->]| ->]].
  - split; [left|lia]. intros x Hx. by apply recover_before.
  - split; [right|intros _]; intros x Hx; by apply (recover_after l Hok Hne).
  - split; [right|intros _]; intros x Hx; by apply (recover_done l Hok Hne).
Qed.

Definition demo_disk : Z → block := λ x, if x =? 2 then replicate 32 0 else [x].
Definition demo_log : log :=
  mk_log demo_disk (upd_block (upd_block demo_disk 50 [7]) 60 [8]) [] 2 30 0 true [50; 60].

Lemma demo_log_ok : log_ok demo_log.
Proof.
  split_and!; [by apply (bool_decide_unpack _); vm_compute| |
    vm_compute; discriminate|vm_compute; lia|reflexivity|reflexivity].
  intros b Hb. unfold home, demo_log; simpl in *. set_solver by lia.
Qed.

(** The first home block is installed, the second one is not. *)
Lemma commit_crash_atomic_witness :
  let d := apply_writes (disk demo_log)
    (take 4 (drop (length (trace demo_log)) (trace (commit demo_log)))) in
  d 50 = [7] ∧ d 60 = [60] ∧ disk (initlog (l_start demo_log) (l_size demo_log) d) 60 = committed demo_log 60 ∧
  committed demo_log 60 = [8].
Proof.
  cbv zeta. split_and!; [reflexivity|reflexivity| |reflexivity].
  refine (proj2 (commit_crash_atomic demo_log 4 demo_log_ok _) _ 60 _);
    [discriminate|simpl; lia|unfold home; simpl; lia].
Defined.

(** C38: the space that begin_op() reserves is enough. From boot, while every
    file-system call logs at most MAXOPBLOCKS blocks outside the log area, and
    the log area has room for LOGSIZE blocks: log_write() and end_op() never
    panic, begin_op() does not wait when nothing is under way, and the state
    that commit() starts from satisfies [log_ok]. *)
Theorem log_never_panics start size d l us :
  LOGSIZE ≤ size - 1 → LOGSIZE < Z.of_nat (length (d start)) → head_ok start (d start) →
  rtc log_step (initlog start size d, []) (l, us) →
  (∀ i u b v, us !! i = Some u → Z.of_nat u < MAXOPBLOCKS → is_Some (log_write b v l)) ∧
  (us ≠ [] → is_Some (end_op_enter l)) ∧
  (us = [] → committing l = false → is_Some (begin_op l)) ∧
  (committing l = true → us = [] ∧ log_ok l).
Proof.
  intros Hs Hl Hh Hrun. pose proof (log_inv_run _ _ (log_inv_init _ _ _ Hs Hl Hh) Hrun) as Hinv.
  split_and!.
  - intros i u b v Hi Hu. destruct (log_inv_write _ _ i u b v Hinv Hi Hu) as (l' & -> & _). done.
  - intros Hne. assert (0 < length us)%nat as Hi by (destruct us; simpl; [done|lia]).
    destruct (log_inv_end _ _ 0 Hinv Hi) as (c & l' & -> & _). done.
  - intros -> Hc. destruct Hinv as (_ & _ & Ho & _ & _ & _ & He); simpl in *.
    unfold begin_op. rewrite Hc, (He eq_refl Hc), Ho. done.
  - intros Hc. split; [|by eapply log_inv_ok]. by apply Hinv.
Qed.

(** One operation is under way and has logged two blocks. *)
Definition demo_l0 : log := initlog 2 31 demo_disk.
Definition demo_l1 : log := default demo_l0 (begin_op demo_l0).
Definition demo_l2 : log := default demo_l1 (log_write 50 [7] demo_l1).
Definition demo_l3 : log := default demo_l2 (log_write 60 [8] demo_l2).

Lemma log_never_panics_witness :
  lh demo_l3 = [50; 60] ∧ is_Some (log_write 70 [9] demo_l3).
Proof.
  split; [reflexivity|].
  refine (proj1 (log_never_panics 2 31 demo_disk demo_l3 [2%nat] _ _ _ _) 0%nat 2%nat 70 [9] _ _);
    [vm_compute; discriminate|vm_compute; reflexivity| | |reflexivity|reflexivity].
  - intros b Hb. exfalso. revert Hb. apply not_elem_of_nil.
  - eapply rtc_l; [apply (step_begin _ demo_l1 []); reflexivity|].
    eapply rtc_l; [apply (step_write _ demo_l2 _ 0 0 50 [7]);
      [reflexivity|reflexivity|unfold home; simpl; lia|reflexivity]|].
    eapply rtc_l; [apply (step_write _ demo_l3 _ 0 1 60 [8]);
      [reflexivity|reflexivity|unfold home; simpl; lia|reflexivity]|].
    apply rtc_refl.
Defined.

(** mkfs gives the log area LOGSIZE blocks, one of which is the header: three
    operations that stay within their budgets then run into the panic of
    log_write(). *)
Example log_area_one_block_short :
  let l0 := initlog 2 LOGSIZE demo_disk in
  let ws := foldl (λ o b, o ≫= log_write (100 + Z.of_nat b) [0])
              ((begin_op l0 ≫= begin_op) ≫= begin_op) (seq 0 29) in
  (length ∘ lh <$> ws) = Some 29%nat ∧ ws ≫= log_write 130 [0] = None.
Proof. vm_compute. split; reflexivity. Qed.

(** recovery may be interrupted by another crash. Cut the writes of
    recovery after any of them and boot again: the second recovery leaves every
    block but the header as the first one would have. *)
Theorem recovery_idempotent start size d k x :
  head_ok start (d start) → x ≠ start →
  let d' := apply_writes d (take k (trace (initlog start size d))) in
  disk (initlog start size d') x = disk (initlog start size d) x.
Proof.
  intros Hh Hx. cbv zeta. rewrite (initlog_after start size d Hh).
  change (trace _) with (replay_writes start d ++ [(start, put_head [] (d start))]).
  destruct (decide (k ≤ length (replay_writes start d))%nat) as [Hk|Hk].
  - rewrite take_app_le by done. set (d' := apply_writes d (take k (replay_writes start d))).
    assert (∀ y, start ≤ y ≤ start + Z.of_nat (length (head_blocks (d start))) → d' y = d y) as Hlog.
    { intros y Hy. apply apply_other. intros Hin%fst_take. rewrite replay_writes_fst in Hin.
      by apply (Hh y). }
    assert (d' start = d start) as Hst by (apply Hlog; lia).
    assert (replay_writes start d' = replay_writes start d) as Hrw.
    { unfold replay_writes. rewrite Hst. apply list_eq. intros i. rewrite !list_lookup_imap.
      destruct (head_blocks (d start) !! i) as [b|] eqn:Hi; simpl; [|done].
      apply lookup_lt_Some in Hi. rewrite Hlog by lia. done. }
    rewrite initlog_after by (by rewrite Hst). rewrite Hrw, Hst. simpl.
    rewrite !apply_snoc, !upd_block_ne by done. apply apply_prefix.
  - rewrite take_ge by (rewrite length_app; simpl; lia).
    rewrite (initlog_disk _ _ _ []); [done|..|set_solver|done].
    by rewrite apply_snoc, upd_block_eq.
Qed.

(** Recovery of a committed transaction stops after its first home block. *)
Lemma recovery_idempotent_witness :
  let d := upd_block (upd_block (upd_block demo_disk 2 [2; 50; 60]) 3 [7]) 4 [8] in
  let d' := apply_writes d (take 1 (trace (initlog 2 31 d))) in
  d' 50 = [7] ∧ d' 60 = [60] ∧ disk (initlog 2 31 d') 60 = disk (initlog 2 31 d) 60.
Proof.
  cbv zeta. split_and!; [reflexivity|reflexivity|].
  apply recovery_idempotent; [|discriminate].
  intros b Hb. change (b ∈ [50; 60]) in Hb. simpl length. set_solver by lia.
Defined.
