(* ===== verification/Bio.v ===== *)
(** * The buffer cache (src/kernel/filesystem/bio.c)

    The hash chains are the lists [buckets], in the order of their links; the
    sleep lock of a buffer is the pid of its holder. The disk driver moves block
    [b->blockno] and ignores the device, so [platter] is indexed by the block
    number alone; the one device in use is ROOTDEV.

    Every function holds one spin lock at a time apart from evict_lock, so a
    critical section of a bucket lock is one step of [bio_step]; an eviction is
    a sequence of such steps that only one process can be in, the [phase].
    [refs] are the references that bget() handed out, [outs] those whose
    holders are inside brelse(), past releasesleep(), [pins] those of bpin(). *)

From S2P Require Import Prelude KState Log.

Definition NBUCKET : nat := 13.
Definition FSSIZE : Z := 100000.
Definition ROOTDEV : Z := 1.

Definition HASH (id : Z) : nat := Z.to_nat (id `mod` Z.of_nat NBUCKET).

Record buf := mk_buf {
  b_valid : bool;
  b_dev : Z;
  b_blockno : Z;
  b_lock : option Z;
  b_refcnt : Z;
  b_refbit : bool;
  b_data : block;
}.

#[export] Instance buf_rebuild : Rebuild buf := λ b,
  mk_buf (b_valid b) (b_dev b) (b_blockno b) (b_lock b) (b_refcnt b) (b_refbit b) (b_data b).
#[export] Instance b_valid_set : Setter b_valid := ltac:(solve_setter).
#[export] Instance b_dev_set : Setter b_dev := ltac:(solve_setter).
#[export] Instance b_blockno_set : Setter b_blockno := ltac:(solve_setter).
#[export] Instance b_lock_set : Setter b_lock := ltac:(solve_setter).
#[export] Instance b_refcnt_set : Setter b_refcnt := ltac:(solve_setter).
#[export] Instance b_refbit_set : Setter b_refbit := ltac:(solve_setter).
#[export] Instance b_data_set : Setter b_data := ltac:(solve_setter).

Definition buf_zero : buf := mk_buf false 0 0 None 0 false [].
#[export] Instance buf_inhabited : Inhabited buf := populate buf_zero.

Record bcache := mk_bcache {
  bufs : list buf;
  buckets : list (list nat);
  clock_hand : nat;
  ra_dev : Z;
  ra_blockno : Z;
  platter : Z → block;
}.

#[export] Instance bcache_rebuild : Rebuild bcache := λ c,
  mk_bcache (bufs c) (buckets c) (clock_hand c) (ra_dev c) (ra_blockno c) (platter c).
#[export] Instance bufs_set : Setter bufs := ltac:(solve_setter).
#[export] Instance buckets_set : Setter buckets := ltac:(solve_setter).
#[export] Instance clock_hand_set : Setter clock_hand := ltac:(solve_setter).
#[export] Instance ra_dev_set : Setter ra_dev := ltac:(solve_setter).
#[export] Instance ra_blockno_set : Setter ra_blockno := ltac:(solve_setter).
#[export] Instance platter_set : Setter platter := ltac:(solve_setter).

Definition get_buf (c : bcache) (i : nat) : buf := bufs c !!! i.

Definition upd_buf (i : nat) (f : buf → buf) (c : bcache) : bcache :=
  c <| bufs := alter f i (bufs c) |>.

Definition upd_bucket (h : nat) (f : list nat → list nat) (c : bcache) : bcache :=
  c <| buckets := alter f h (buckets c) |>.

(** binit(): all buffers are linked into bucket 0, each in front of the others. *)
Definition binit (d : Z → block) : bcache :=
  mk_bcache (replicate NBUF buf_zero)
    (rev (seq 0 NBUF) :: replicate (NBUCKET - 1) []) 0 (u32 (-1)) 0 d.

(** ** Lookup *)

Definition caches (dev blockno : Z) (b : buf) : bool :=
  (b_dev b =? dev) && (b_blockno b =? blockno).

Fixpoint chain_find (dev blockno : Z) (bs : list buf) (chain : list nat) : option nat :=
  match chain with
  | [] => None
  | i :: chain =>
      if caches dev blockno (bs !!! i) then Some i else chain_find dev blockno bs chain
  end.

Definition bucket_find (dev blockno : Z) (c : bcache) : option nat :=
  chain_find dev blockno (bufs c) (buckets c !!! HASH blockno).

Definition buf_cached (dev blockno : Z) (c : bcache) : bool :=
  bool_decide (is_Some (bucket_find dev blockno c)).

Definition take_ref (b : buf) : buf :=
  b <| b_refcnt := u32 (b_refcnt b + 1) |> <| b_refbit := true |>.

(** The search of a bucket for a block, under the bucket's lock. *)
Definition bget_hit (dev blockno : Z) (c : bcache) : option (nat * bcache) :=
  match bucket_find dev blockno c with
  | Some i => Some (i, upd_buf i take_ref c)
  | None => None
  end.

(** ** Eviction *)

Definition unlink (i : nat) (c : bcache) : bcache :=
  upd_bucket (HASH (b_blockno (get_buf c i))) (filter (λ j, j ≠ i)) c.

(** One turn of the clock. *)
Definition scan_one (c : bcache) : option nat * bcache :=
  let i := clock_hand c in
  let c := c <| clock_hand := ((clock_hand c + 1) `mod` NBUF)%nat |> in
  let b := get_buf c i in
  if b_refcnt b =? 0 then
    if b_refbit b then (None, upd_buf i (λ b, b <| b_refbit := false |>) c)
    else (Some i, upd_buf i (λ b, b <| b_refcnt := 1 |>) (unlink i c))
  else (None, c).

Fixpoint clock_scan (n : nat) (c : bcache) : option nat * bcache :=
  match n with
  | O => (None, c)
  | S n =>
      match scan_one c with
      | (Some i, c) => (Some i, c)
      | (None, c) => clock_scan n c
      end
  end.

Definition link (i : nat) (dev blockno : Z) (c : bcache) : bcache :=
  upd_bucket (HASH blockno) (cons i)
    (upd_buf i (λ b, b <| b_dev := dev |> <| b_blockno := blockno |> <| b_valid := false |>
                       <| b_refbit := true |>) c).

(** bget_common() without interference, up to acquiresleep(); no buffer is a
    panic in bget() and a return of 0 in bget_ra(). The code drops the bucket
    locks between two turns of the clock: in the runs of [bio_step] below every
    turn is a step of its own, and [scan_fails] is a scan with steps of other
    processes between its turns. *)
Definition bget_common (dev blockno : Z) (c : bcache) : option nat * bcache :=
  match bget_hit dev blockno c with
  | Some (i, c) => (Some i, c)
  | None =>
      match bget_hit dev blockno c with
      | Some (i, c) => (Some i, c)
      | None =>
          match clock_scan (NBUF * 2) c with
          | (Some i, c) => (Some i, link i dev blockno c)
          | (None, c) => (None, c)
          end
      end
  end.

(** ** Using a buffer *)

(** acquiresleep(&b->lock): [None] when it has to sleep. *)
Definition lock_buf (p : Z) (i : nat) (c : bcache) : option bcache :=
  match b_lock (get_buf c i) with
  | Some _ => None
  | None => Some (upd_buf i (λ b, b <| b_lock := Some p |>) c)
  end.

Definition holds (p : Z) (i : nat) (c : bcache) : bool :=
  bool_decide (b_lock (get_buf c i) = Some p).

(** if (!b->valid) { virtio_disk_rw(b, 0); b->valid = 1; } *)
Definition fill (i : nat) (c : bcache) : bcache :=
  upd_buf i (λ b, if b_valid b then b
                  else b <| b_data := platter c (b_blockno b) |> <| b_valid := true |>) c.

Definition bwrite (p : Z) (i : nat) (c : bcache) : option bcache :=
  if holds p i c then
    Some (c <| platter := upd_block (platter c) (b_blockno (get_buf c i)) (b_data (get_buf c i)) |>)
  else None.

Definition drop_ref (b : buf) : buf := b <| b_refcnt := u32 (b_refcnt b - 1) |>.

(** releasesleep(&b->lock) *)
Definition unlock_buf (i : nat) (c : bcache) : bcache :=
  upd_buf i (λ b, b <| b_lock := None |>) c.

Definition brelse (p : Z) (i : nat) (c : bcache) : option bcache :=
  if holds p i c then
    Some (upd_buf i drop_ref (unlock_buf i c))
  else None.

Definition bpin (i : nat) (c : bcache) : bcache :=
  upd_buf i (λ b, b <| b_refcnt := u32 (b_refcnt b + 1) |>) c.

Definition bunpin (i : nat) (c : bcache) : bcache := upd_buf i drop_ref c.

Definition should_readahead (dev blockno : Z) (c : bcache) : bool * bcache :=
  let seq := (ra_dev c =? dev) && (u32 (ra_blockno c + 1) =? blockno) in
  (seq, c <| ra_dev := dev |> <| ra_blockno := blockno |>).

Definition readahead (p dev blockno : Z) (c : bcache) : option bcache :=
  if FSSIZE <=? blockno then Some c
  else if buf_cached dev blockno c then Some c
  else match bget_common dev blockno c with
       | (None, c) => Some c
       | (Some i, c) =>
           c ← lock_buf p i c;
           let c := fill i c in
           let c := upd_buf i (λ b, b <| b_refbit := false |>) c in
           brelse p i c
       end.

(** bread() without interference: [None] when it has to sleep, or panics. *)
Definition bread (p dev blockno : Z) (c : bcache) : option (nat * bcache) :=
  match bget_common dev blockno c with
  | (None, _) => None
  | (Some i, c) =>
      c ← lock_buf p i c;
      let c := fill i c in
      match should_readahead dev blockno c with
      | (true, c) => c ← readahead p dev (u32 (blockno + 1)) c; Some (i, c)
      | (false, c) => Some (i, c)
      end
  end.

(** ** Runs *)

(** Who holds evict_lock: nobody, a process whose clock has [n] turns left, or
    one that has unlinked the victim [i]. *)
Inductive phase := Idle | Scanning (blockno : Z) (n : nat) | Linking (blockno : Z) (i : nat).

Record brun := mk_brun {
  bc : bcache; ph : phase; refs : list nat; outs : list nat; pins : list nat }.

Definition clean (c : bcache) (i : nat) : Prop :=
  b_data (get_buf c i) = platter c (b_blockno (get_buf c i)).

(** The steps of the functions above by any processes, in any order. The label
    is the block and contents of a change of a buffer by its holder. Clients
    change and write only buffers that bread() has filled, release a changed
    buffer only after pinning or writing it, and unpin it only while they hold it. *)
Inductive bio_step : brun → option (Z * block) → brun → Prop :=
  | bs_hit c s rs os ps blockno i c' :
      bget_hit ROOTDEV blockno c = Some (i, c') →
      Z.of_nat (length rs + length os + length ps) < 2 ^ 32 - 2 →
      bio_step (mk_brun c s rs os ps) None (mk_brun c' s (i :: rs) os ps)
  | bs_miss c rs os ps blockno :
      bucket_find ROOTDEV blockno c = None →
      bio_step (mk_brun c Idle rs os ps) None (mk_brun c (Scanning blockno (NBUF * 2)) rs os ps)
  | bs_scan c rs os ps blockno n c' :
      scan_one c = (None, c') →
      bio_step (mk_brun c (Scanning blockno (S n)) rs os ps) None
        (mk_brun c' (Scanning blockno n) rs os ps)
  | bs_victim c rs os ps blockno n i c' :
      scan_one c = (Some i, c') →
      bio_step (mk_brun c (Scanning blockno (S n)) rs os ps) None
        (mk_brun c' (Linking blockno i) rs os ps)
  | bs_fail c rs os ps blockno :
      bio_step (mk_brun c (Scanning blockno 0) rs os ps) None (mk_brun c Idle rs os ps)
  | bs_link c rs os ps blockno i :
      Z.of_nat (length rs + length os + length ps) < 2 ^ 32 - 2 →
      bio_step (mk_brun c (Linking blockno i) rs os ps) None
        (mk_brun (link i ROOTDEV blockno c) Idle (i :: rs) os ps)
  | bs_lock c s rs os ps p i c' :
      i ∈ rs → lock_buf p i c = Some c' →
      bio_step (mk_brun c s rs os ps) None (mk_brun c' s rs os ps)
  | bs_fill c s rs os ps p i :
      holds p i c = true →
      bio_step (mk_brun c s rs os ps) None (mk_brun (fill i c) s rs os ps)
  | bs_change c s rs os ps p i v :
      holds p i c = true → b_valid (get_buf c i) = true →
      bio_step (mk_brun c s rs os ps) (Some (b_blockno (get_buf c i), v))
        (mk_brun (upd_buf i (λ b, b <| b_data := v |>) c) s rs os ps)
  | bs_bwrite c s rs os ps p i c' :
      b_valid (get_buf c i) = true → bwrite p i c = Some c' →
      bio_step (mk_brun c s rs os ps) None (mk_brun c' s rs os ps)
  | bs_unlock c s rs rs' os ps p i :
      holds p i c = true → clean c i ∨ i ∈ ps → rs ≡ₚ i :: rs' →
      bio_step (mk_brun c s rs os ps) None (mk_brun (unlock_buf i c) s rs' (i :: os) ps)
  | bs_deref c s rs os os' ps i :
      os ≡ₚ i :: os' →
      bio_step (mk_brun c s rs os ps) None (mk_brun (upd_buf i drop_ref c) s rs os' ps)
  | bs_bpin c s rs os ps p i :
      holds p i c = true → Z.of_nat (length rs + length os + length ps) < 2 ^ 32 - 2 →
      bio_step (mk_brun c s rs os ps) None (mk_brun (bpin i c) s rs os (i :: ps))
  | bs_bunpin c s rs os ps ps' p i :
      holds p i c = true → ps ≡ₚ i :: ps' →
      bio_step (mk_brun c s rs os ps) None (mk_brun (bunpin i c) s rs os ps')
  | bs_refbit c s rs os ps p i :
      holds p i c = true →
      bio_step (mk_brun c s rs os ps) None
        (mk_brun (upd_buf i (λ b, b <| b_refbit := false |>) c) s rs os ps)
  | bs_ra c s rs os ps dev blockno :
      bio_step (mk_brun c s rs os ps) None
        (mk_brun (should_readahead dev blockno c).2 s rs os ps).

(** A run, with the changes made in it in order. *)
Inductive bio_run : brun → list (Z * block) → brun → Prop :=
  | br_nil s : bio_run s [] s
  | br_step s s' s'' ws o :
      bio_run s ws s' → bio_step s' o s'' → bio_run s (ws ++ option_list o) s''.

(** ** The invariant *)

Definition linked (s : phase) (i : nat) : Prop :=
  (i < NBUF)%nat ∧ match s with Linking _ v => i ≠ v | _ => True end.

Definition on_root (c : bcache) (i : nat) (blockno : Z) : Prop :=
  b_dev (get_buf c i) = ROOTDEV ∧ b_blockno (get_buf c i) = blockno.

(** The hash chains hold the linked buffers, each in its bucket, no block is
    cached twice, and the block an eviction is for is not cached. *)
Record shape (c : bcache) (s : phase) : Prop := {
  sh_bufs : length (bufs c) = NBUF;
  sh_buckets : length (buckets c) = NBUCKET;
  sh_hand : (clock_hand c < NBUF)%nat;
  sh_nodup h : (h < NBUCKET)%nat → NoDup (buckets c !!! h);
  sh_chain h i : (h < NBUCKET)%nat →
    i ∈ buckets c !!! h ↔ linked s i ∧ HASH (b_blockno (get_buf c i)) = h;
  sh_unique i j bn : linked s i → linked s j → on_root c i bn → on_root c j bn → i = j;
  sh_phase : match s with
             | Idle => True
             | Scanning bn _ => ∀ i, linked s i → ¬ on_root c i bn
             | Linking bn v => (v < NBUF)%nat ∧ ∀ i, linked s i → ¬ on_root c i bn
             end;
}.

Definition victim_ref (s : phase) (i : nat) : Z :=
  match s with Linking _ v => if decide (i = v) then 1 else 0 | _ => 0 end.

(** refcnt counts the references, and the holder of a lock has one. *)
Record counts (c : bcache) (s : phase) (rs os ps : list nat) : Prop := {
  ct_refcnt i : (i < NBUF)%nat →
    b_refcnt (get_buf c i) = occ i rs + occ i os + occ i ps + victim_ref s i;
  ct_small : Z.of_nat (length rs + length os + length ps) < 2 ^ 32 - 1;
  ct_in_use i : i ∈ rs ++ os ++ ps → linked s i ∧ b_dev (get_buf c i) = ROOTDEV;
  ct_lock i p : b_lock (get_buf c i) = Some p → i ∈ rs;
}.

Definition covered (c : bcache) (ps : list nat) (i : nat) : Prop :=
  i ∈ ps ∨ b_lock (get_buf c i) ≠ None.

(** The memory [m] that the cache stands for: valid buffers agree with it, and
    so does every block of the disk that is not held or pinned. *)
Record contents (c : bcache) (s : phase) (ps : list nat) (m : Z → block) : Prop := {
  cn_valid i bn : linked s i → on_root c i bn → b_valid (get_buf c i) = true →
    b_data (get_buf c i) = m bn;
  cn_disk bn : platter c bn = m bn ∨
    ∃ i, linked s i ∧ on_root c i bn ∧ b_valid (get_buf c i) = true ∧ covered c ps i;
}.

Record binv (m : Z → block) (r : brun) : Prop := {
  bi_shape : shape (bc r) (ph r);
  bi_counts : counts (bc r) (ph r) (refs r) (outs r) (pins r);
  bi_contents : contents (bc r) (ph r) (pins r) m;
}.

(** *** Lookups *)

Lemma get_upd_eq c i f : (i < length (bufs c))%nat → get_buf (upd_buf i f c) i = f (get_buf c i).
Proof. intros Hi. unfold get_buf, upd_buf; simpl. by apply list_lookup_total_alter_eq. Qed.

Lemma get_upd_ne c i j f : i ≠ j → get_buf (upd_buf i f c) j = get_buf c j.
Proof. intros Hi. unfold get_buf, upd_buf; simpl. by apply list_lookup_total_alter_ne. Qed.

(** A field that [f] leaves alone. *)
Lemma get_upd_field {T} (π : buf → T) c i j f :
  (∀ b, π (f b) = π b) → π (get_buf (upd_buf i f c) j) = π (get_buf c j).
Proof.
  intros Hf. destruct (decide (i = j)) as [->|Hne]; [|by rewrite get_upd_ne].
  destruct (decide (j < length (bufs c))%nat) as [Hj|Hj]; [by rewrite get_upd_eq|].
  unfold get_buf, upd_buf; simpl. rewrite list_lookup_total_alter, decide_False; [done|tauto].
Qed.

Lemma bucket_total c h f j :
  (h < length (buckets c))%nat →
  buckets (upd_bucket h f c) !!! j = if decide (j = h) then f (buckets c !!! h) else buckets c !!! j.
Proof.
  intros Hh. unfold upd_bucket; simpl. case_decide as E.
  - subst. by apply list_lookup_total_alter_eq.
  - by apply list_lookup_total_alter_ne.
Qed.

Lemma HASH_lt bn : (HASH bn < NBUCKET)%nat.
Proof. unfold HASH. pose proof (Z.mod_pos_bound bn (Z.of_nat NBUCKET)). unfold NBUCKET in *. lia. Qed.

Lemma chain_find_Some dev bn bs ch i :
  chain_find dev bn bs ch = Some i → i ∈ ch ∧ caches dev bn (bs !!! i) = true.
Proof.
  induction ch as [|j ch IH]; simpl; [done|]. case_match eqn:E.
  - intros [= <-]. split; [left|done].
  - intros [? ?]%IH. split; [by right|done].
Qed.

Lemma chain_find_None dev bn bs ch :
  chain_find dev bn bs ch = None → ∀ i, i ∈ ch → caches dev bn (bs !!! i) = false.
Proof.
  induction ch as [|j ch IH]; simpl; [set_solver|]. case_match eqn:E; [done|].
  intros Hn i [->|Hi]%elem_of_cons; auto.
Qed.

Lemma caches_root c i bn : caches ROOTDEV bn (get_buf c i) = true ↔ on_root c i bn.
Proof. unfold caches, on_root. rewrite andb_true_iff, !Z.eqb_eq. done. Qed.

Lemma find_hit c s bn i : shape c s → bucket_find ROOTDEV bn c = Some i → linked s i ∧ on_root c i bn.
Proof.
  intros Hs [Hi Hc]%chain_find_Some. apply caches_root in Hc. split; [|done].
  eapply sh_chain; eauto using HASH_lt.
Qed.

Lemma find_miss c s bn :
  shape c s → bucket_find ROOTDEV bn c = None → ∀ i, linked s i → ¬ on_root c i bn.
Proof.
  intros Hs Hf i Hi Hr. assert (i ∈ buckets c !!! HASH bn) as Hin.
  { apply (sh_chain c s Hs); [apply HASH_lt|]. split; [done|]. by rewrite (proj2 Hr). }
  pose proof (chain_find_None _ _ _ _ Hf i Hin) as Hc.
  apply caches_root in Hr. unfold get_buf in Hr. congruence.
Qed.

Lemma find_cached c s bn i :
  shape c s → linked s i → on_root c i bn → bucket_find ROOTDEV bn c = Some i.
Proof.
  intros Hs Hi Hr. destruct (bucket_find ROOTDEV bn c) as [j|] eqn:Hf.
  - destruct (find_hit _ _ _ _ Hs Hf) as [Hj Hrj]. f_equal. by eapply sh_unique.
  - exfalso. by eapply find_miss.
Qed.

(** *** Steps that keep the identity of every buffer *)

Definition keeps_id (f : buf → buf) : Prop :=
  ∀ b, b_dev (f b) = b_dev b ∧ b_blockno (f b) = b_blockno b.

Lemma on_root_upd c i f j bn :
  keeps_id f → on_root (upd_buf i f c) j bn ↔ on_root c j bn.
Proof.
  intros Hf. unfold on_root.
  by rewrite (get_upd_field b_dev), (get_upd_field b_blockno) by apply Hf.
Qed.

Lemma shape_upd c s i f : keeps_id f → shape c s → shape (upd_buf i f c) s.
Proof.
  intros Hf [H1 H2 H3 H4 H5 H6 H7]. constructor; simpl; try done.
  - by rewrite length_alter.
  - intros h j Hh. rewrite (get_upd_field b_blockno) by apply Hf. by apply H5.
  - intros j j' bn. rewrite !on_root_upd by done. apply H6.
  - destruct s; [done|..]; setoid_rewrite on_root_upd; done.
Qed.

(** Changes of the counters, the reference bit or the lock. *)
Definition keeps_data (f : buf → buf) : Prop :=
  keeps_id f ∧ ∀ b, b_valid (f b) = b_valid b ∧ b_data (f b) = b_data b.

Lemma contents_upd c s ps ps' m i f :
  keeps_data f →
  (∀ j bn, linked s j → on_root c j bn → b_valid (get_buf c j) = true → covered c ps j →
     covered (upd_buf i f c) ps' j ∨ platter c bn = m bn) →
  contents c s ps m → contents (upd_buf i f c) s ps' m.
Proof.
  intros [Hid Hf] Hcov [Hv Hd]. constructor.
  - intros j bn Hj. rewrite on_root_upd by done.
    rewrite (get_upd_field b_valid), (get_upd_field b_data) by apply Hf. by apply Hv.
  - intros bn. destruct (Hd bn) as [Hm|(j & Hj & Hr & Hval & Hc)]; [by left|].
    destruct (Hcov j bn Hj Hr Hval Hc) as [Hc'|]; [|by left]. right. exists j.
    rewrite on_root_upd by done. by rewrite (get_upd_field b_valid) by apply Hf.
Qed.

(** The same with nothing uncovered. *)
Lemma contents_keep c s ps m i f :
  keeps_data f → (∀ b, b_lock b ≠ None → b_lock (f b) ≠ None) →
  contents c s ps m → contents (upd_buf i f c) s ps m.
Proof.
  intros Hf Hl. apply contents_upd; [done|]. intros j bn _ _ _ [Hj|Hj]; left; [by left|right].
  destruct (decide (i = j)) as [->|Hne]; [|by rewrite get_upd_ne].
  destruct (decide (j < length (bufs c))%nat) as [Hlt|Hge]; [rewrite get_upd_eq by done; auto|].
  unfold get_buf, upd_buf; simpl. rewrite list_lookup_total_alter, decide_False; [done|tauto].
Qed.

Lemma shape_linked_lt c s i : shape c s → linked s i → (i < length (bufs c))%nat.
Proof. intros Hs Hi. rewrite (sh_bufs c s Hs). apply Hi. Qed.

Lemma bcounts_upd c s rs os ps rs' os' ps' i f d :
  shape c s → keeps_id f → linked s i → b_dev (get_buf c i) = ROOTDEV →
  b_refcnt (f (get_buf c i)) = b_refcnt (get_buf c i) + d →
  (∀ j, occ j rs' + occ j os' + occ j ps' =
        occ j rs + occ j os + occ j ps + (if decide (j = i) then d else 0)) →
  Z.of_nat (length rs' + length os' + length ps') < 2 ^ 32 - 1 →
  (∀ j, j ∈ rs' ++ os' ++ ps' → j = i ∨ j ∈ rs ++ os ++ ps) →
  (∀ p, b_lock (f (get_buf c i)) = Some p → i ∈ rs') →
  (∀ j, j ≠ i → j ∈ rs → j ∈ rs') →
  counts c s rs os ps → counts (upd_buf i f c) s rs' os' ps'.
Proof.
  intros Hs Hid Hi Hdev Hd Hocc Hsm Hin Hlk Hkeep [Hr _ Hu Hl].
  pose proof (shape_linked_lt _ _ _ Hs Hi) as Hlt. constructor; [|done|..].
  - intros j Hj. rewrite Hocc. destruct (decide (j = i)) as [->|Hne].
    + rewrite get_upd_eq, Hd, (Hr i Hj) by done. lia.
    + rewrite get_upd_ne, (Hr j Hj) by done. lia.
  - intros j [->|Hj]%Hin; rewrite (get_upd_field b_dev) by apply Hid; [done|by apply Hu].
  - intros j p. destruct (decide (j = i)) as [->|Hne].
    + rewrite get_upd_eq by done. apply Hlk.
    + rewrite get_upd_ne by done. intros Hp. apply Hkeep; [done|]. by eapply Hl.
Qed.

Lemma holds_inv c s rs os ps p i :
  counts c s rs os ps → holds p i c = true →
  i ∈ rs ∧ linked s i ∧ b_dev (get_buf c i) = ROOTDEV ∧ b_lock (get_buf c i) = Some p.
Proof.
  intros Hc Hh%bool_decide_eq_true. pose proof (ct_lock _ _ _ _ _ Hc i p Hh) as Hi.
  destruct (ct_in_use _ _ _ _ _ Hc i) as [? ?]; [set_solver|]. done.
Qed.

(** The counter of a buffer in use does not wrap around. *)
Lemma refcnt_small c s rs os ps i :
  counts c s rs os ps → linked s i →
  b_refcnt (get_buf c i) = occ i rs + occ i os + occ i ps ∧
  0 ≤ b_refcnt (get_buf c i) < 2 ^ 32 - 1.
Proof.
  intros [Hr Hsm _ _] [Hi Hl]. rewrite (Hr i Hi).
  assert (victim_ref s i = 0) as -> by (destruct s; [done..|]; simpl; by rewrite decide_False).
  pose proof (occ_nonneg i rs). pose proof (occ_nonneg i os). pose proof (occ_nonneg i ps).
  pose proof (occ_le i rs). pose proof (occ_le i os). pose proof (occ_le i ps). lia.
Qed.

(** A buffer whose counter is zero is neither referenced nor locked. *)
Lemma unused c s rs os ps i :
  counts c s rs os ps → (i < NBUF)%nat → b_refcnt (get_buf c i) = 0 →
  (i ∉ rs) ∧ (i ∉ os) ∧ (i ∉ ps) ∧ b_lock (get_buf c i) = None ∧ linked s i.
Proof.
  intros [Hr _ _ Hl] Hi H0. rewrite (Hr i Hi) in H0.
  pose proof (occ_nonneg i rs). pose proof (occ_nonneg i os). pose proof (occ_nonneg i ps).
  assert (0 ≤ victim_ref s i) by (destruct s; simpl; [done..|]; case_decide; lia).
  assert (i ∉ rs) by (intros E%occ_elem; lia).
  split_and!; [done|intros E%occ_elem; lia|intros E%occ_elem; lia| |].
  - destruct (b_lock (get_buf c i)) as [p|] eqn:E; [|done]. by apply Hl in E.
  - split; [done|]. destruct s as [| |bn v]; [done..|]. simpl in *. case_decide; [lia|done].
Qed.

(** *** Preservation, step by step *)

Ltac keeps := by repeat split.

Section steps.
Context (m : Z → block) (c : bcache) (s : phase) (rs os ps : list nat).
Hypothesis Hinv : binv m (mk_brun c s rs os ps).

Let Hs : shape c s := bi_shape _ _ Hinv.
Let Hct : counts c s rs os ps := bi_counts _ _ Hinv.
Let Hcn : contents c s ps m := bi_contents _ _ Hinv.

Lemma step_hit bn i c' :
  bget_hit ROOTDEV bn c = Some (i, c') →
  Z.of_nat (length rs + length os + length ps) < 2 ^ 32 - 2 →
  binv m (mk_brun c' s (i :: rs) os ps).
Proof using Hinv.
  unfold bget_hit. intros Hf Hlen. destruct (bucket_find ROOTDEV bn c) as [j|] eqn:E; [|done].
  injection Hf as -> <-. destruct (find_hit _ _ _ _ Hs E) as [Hi [Hdev _]].
  destruct (refcnt_small _ _ _ _ _ i Hct Hi) as [_ Hb].
  constructor; simpl.
  - apply shape_upd; [keeps|done].
  - eapply (bcounts_upd _ _ rs os ps _ _ _ _ _ 1); try done.
    + unfold take_ref; simpl. rewrite u32_small; lia.
    + intros j. rewrite occ_cons. repeat case_decide; congruence || lia.
    + simpl. lia.
    + set_solver.
    + intros p _. left.
    + intros j _ Hj. by right.
  - apply contents_keep; [keeps|done|done].
Qed.

Lemma step_lock p i c' :
  i ∈ rs → lock_buf p i c = Some c' → binv m (mk_brun c' s rs os ps).
Proof using Hinv.
  unfold lock_buf. intros Hi Hl. destruct (b_lock (get_buf c i)) eqn:E; [done|]. injection Hl as <-.
  destruct (ct_in_use _ _ _ _ _ Hct i) as [Hlk Hdev]; [set_solver|]. constructor; simpl.
  - apply shape_upd; [keeps|done].
  - eapply (bcounts_upd _ _ rs os ps _ _ _ _ _ 0); try done.
    + simpl. lia.
    + intros j. case_decide; lia.
    + apply Hct.
    + set_solver.
  - apply contents_keep; [keeps|done|done].
Qed.

(** The holder changes the counter by nothing: the reference bit. *)
Lemma step_refbit p i :
  holds p i c = true → binv m (mk_brun (upd_buf i (λ b, b <| b_refbit := false |>) c) s rs os ps).
Proof using Hinv.
  intros Hh. destruct (holds_inv _ _ _ _ _ _ _ Hct Hh) as (Hi & Hlk & Hdev & Hp). constructor; simpl.
  - apply shape_upd; [keeps|done].
  - eapply (bcounts_upd _ _ rs os ps _ _ _ _ _ 0); try done.
    + simpl. lia.
    + intros j. case_decide; lia.
    + apply Hct.
    + set_solver.
  - apply contents_keep; [keeps|done|done].
Qed.

Lemma step_bpin p i :
  holds p i c = true → Z.of_nat (length rs + length os + length ps) < 2 ^ 32 - 2 →
  binv m (mk_brun (bpin i c) s rs os (i :: ps)).
Proof using Hinv.
  intros Hh Hlen. destruct (holds_inv _ _ _ _ _ _ _ Hct Hh) as (Hi & Hlk & Hdev & Hp).
  destruct (refcnt_small _ _ _ _ _ i Hct Hlk) as [_ Hb]. constructor; simpl.
  - apply shape_upd; [keeps|done].
  - eapply (bcounts_upd _ _ rs os ps _ _ _ _ _ 1); try done.
    + simpl. rewrite u32_small; lia.
    + intros j. rewrite occ_cons. repeat case_decide; congruence || lia.
    + simpl. lia.
    + set_solver.
  - eapply contents_upd, Hcn; [keeps|]. intros j bn _ _ _ [Hj|Hj]; left; [left; by right|right].
    by rewrite (get_upd_field b_lock).
Qed.

Lemma step_bunpin ps' p i :
  holds p i c = true → ps ≡ₚ i :: ps' → binv m (mk_brun (bunpin i c) s rs os ps').
Proof using Hinv.
  intros Hh Hps. destruct (holds_inv _ _ _ _ _ _ _ Hct Hh) as (Hi & Hlk & Hdev & Hp).
  destruct (refcnt_small _ _ _ _ _ i Hct Hlk) as [Heq Hb].
  pose proof (occ_elem i ps) as H1. rewrite Hps in H1 at 1. specialize (H1 (list_elem_of_here _ _)).
  pose proof (occ_nonneg i rs). pose proof (occ_nonneg i os).
  pose proof (Permutation_length Hps) as Hl. constructor; simpl.
  - apply shape_upd; [keeps|done].
  - eapply (bcounts_upd _ _ rs os ps _ _ _ _ _ (-1)); try done.
    + unfold drop_ref; simpl. rewrite u32_small; lia.
    + intros j. rewrite (occ_perm j _ _ Hps), occ_cons. repeat case_decide; congruence || lia.
    + pose proof (ct_small _ _ _ _ _ Hct). simpl in Hl. lia.
    + intros j Hj. right. rewrite Hps. set_solver.
  - eapply contents_upd, Hcn; [keeps|]. intros j bn _ _ _ Hcov. left. unfold covered.
    rewrite (get_upd_field b_lock) by done. destruct Hcov as [Hj|Hj]; [|by right].
    rewrite Hps in Hj. apply elem_of_cons in Hj as [->|Hj]; [right; by rewrite Hp|by left].
Qed.

Lemma step_deref os' i :
  os ≡ₚ i :: os' → binv m (mk_brun (upd_buf i drop_ref c) s rs os' ps).
Proof using Hinv.
  intros Hos. destruct (ct_in_use _ _ _ _ _ Hct i) as [Hlk Hdev]; [rewrite Hos; set_solver|].
  destruct (refcnt_small _ _ _ _ _ i Hct Hlk) as [Heq Hb].
  pose proof (occ_elem i os) as H1. rewrite Hos in H1 at 1. specialize (H1 (list_elem_of_here _ _)).
  pose proof (occ_nonneg i rs). pose proof (occ_nonneg i ps).
  pose proof (Permutation_length Hos) as Hl. constructor; simpl.
  - apply shape_upd; [keeps|done].
  - eapply (bcounts_upd _ _ rs os ps _ _ _ _ _ (-1)); try done.
    + unfold drop_ref; simpl. rewrite u32_small; lia.
    + intros j. rewrite (occ_perm j _ _ Hos), occ_cons. repeat case_decide; congruence || lia.
    + pose proof (ct_small _ _ _ _ _ Hct). simpl in Hl. lia.
    + intros j Hj. right. rewrite Hos. set_solver.
    + intros p. apply (ct_lock _ _ _ _ _ Hct).
  - apply contents_keep; [keeps|done|done].
Qed.

Lemma step_unlock rs' p i :
  holds p i c = true → clean c i ∨ i ∈ ps → rs ≡ₚ i :: rs' →
  binv m (mk_brun (unlock_buf i c) s rs' (i :: os) ps).
Proof using Hinv.
  intros Hh Hcl Hrs. destruct (holds_inv _ _ _ _ _ _ _ Hct Hh) as (Hi & Hlk & Hdev & Hp).
  pose proof (Permutation_length Hrs) as Hl. constructor; simpl.
  - apply shape_upd; [keeps|done].
  - eapply (bcounts_upd _ _ rs os ps _ _ _ _ _ 0); try done.
    + simpl. lia.
    + intros j. rewrite (occ_perm j _ _ Hrs), !occ_cons. repeat case_decide; lia.
    + pose proof (ct_small _ _ _ _ _ Hct). simpl in *. lia.
    + intros j. rewrite Hrs. set_solver.
    + intros j Hne. rewrite Hrs. set_solver.
  - eapply contents_upd, Hcn; [keeps|]. intros j bn Hj Hr Hvj Hcov.
    destruct (decide (j = i)) as [->|Hne].
    + destruct Hcl as [Hcl|Hps]; [right|left; by left]. destruct Hr as [Hr1 Hr2].
      rewrite <-(cn_valid _ _ _ _ Hcn i bn), Hcl, Hr2; done.
    + left. unfold covered, unlock_buf. by rewrite get_upd_ne.
Qed.

(** A buffer that is filled, or already valid. *)
Lemma step_fill p i : holds p i c = true → binv m (mk_brun (fill i c) s rs os ps).
Proof using Hinv.
  intros Hh. destruct (holds_inv _ _ _ _ _ _ _ Hct Hh) as (Hi & Hlk & Hdev & Hp).
  pose proof (shape_linked_lt _ _ _ Hs Hlk) as Hlt.
  assert (keeps_id (λ b, if b_valid b then b
            else b <| b_data := platter c (b_blockno b) |> <| b_valid := true |>)) as Hid.
  { intros b. by destruct (b_valid b). }
  constructor; simpl.
  - by apply shape_upd.
  - eapply (bcounts_upd _ _ rs os ps _ _ _ _ _ 0); try done.
    + destruct (b_valid _); simpl; lia.
    + intros j. case_decide; lia.
    + apply Hct.
    + set_solver.
  - destruct (b_valid (get_buf c i)) eqn:Hv.
    { assert (fill i c = c) as ->; [|done]. unfold fill, upd_buf.
      destruct c as [bs]; unfold upd, bufs_set; simpl in *. f_equal.
      apply list_eq. intros j. rewrite list_lookup_alter. case_decide as E; [subst|done].
      destruct (bs !! j) as [b|] eqn:Hb; simpl; [|done].
      unfold get_buf in Hv; simpl in Hv. rewrite (list_lookup_total_correct _ _ _ Hb) in Hv.
      by rewrite Hv. }
    assert (∀ bn, on_root c i bn → platter c bn = m bn) as Hm.
    { intros bn Hr. destruct (cn_disk _ _ _ _ Hcn bn) as [?|(j & Hj & Hrj & Hvj & _)]; [done|].
      rewrite (sh_unique _ _ Hs i j bn) in Hv by done. congruence. }
    assert (∀ j, get_buf (fill i c) j = if decide (j = i)
      then (get_buf c i) <| b_data := platter c (b_blockno (get_buf c i)) |> <| b_valid := true |>
      else get_buf c j) as Hg.
    { intros j. unfold fill. case_decide as E; [subst; rewrite get_upd_eq by done; by rewrite Hv|].
      by rewrite get_upd_ne. }
    constructor.
    + intros j bn Hj. unfold on_root. rewrite Hg. case_decide as E; [subst|by apply Hcn].
      simpl. intros Hr _. rewrite <-Hm by done. by destruct Hr as [_ <-].
    + intros bn. change (platter (fill i c)) with (platter c).
      destruct (cn_disk _ _ _ _ Hcn bn) as [?|(j & Hj & Hrj & Hvj & Hc)]; [by left|].
      right. exists j. unfold on_root, covered. rewrite !Hg.
      rewrite decide_False by congruence. done.
Qed.

Lemma step_change p i v :
  holds p i c = true → b_valid (get_buf c i) = true →
  binv (upd_block m (b_blockno (get_buf c i)) v)
    (mk_brun (upd_buf i (λ b, b <| b_data := v |>) c) s rs os ps).
Proof using Hinv.
  intros Hh Hv. destruct (holds_inv _ _ _ _ _ _ _ Hct Hh) as (Hi & Hlk & Hdev & Hp).
  pose proof (shape_linked_lt _ _ _ Hs Hlk) as Hlt. constructor; simpl.
  - apply shape_upd; [keeps|done].
  - eapply (bcounts_upd _ _ rs os ps _ _ _ _ _ 0); try done.
    + simpl. lia.
    + intros j. case_decide; lia.
    + apply Hct.
    + set_solver.
  - constructor.
    + intros j bn Hj. rewrite on_root_upd by keeps. rewrite (get_upd_field b_valid) by done.
      intros Hr Hvj. destruct (decide (j = i)) as [->|Hne].
      * rewrite get_upd_eq by done. simpl. destruct Hr as [_ <-]. by rewrite upd_block_eq.
      * rewrite get_upd_ne by done. rewrite upd_block_ne; [by apply (cn_valid _ _ _ _ Hcn)|].
        intros E. apply Hne. by apply (sh_unique _ _ Hs _ _ bn).
    + intros bn. destruct (decide (bn = b_blockno (get_buf c i))) as [->|Hne].
      * right. exists i. rewrite on_root_upd by keeps. rewrite (get_upd_field b_valid) by done.
        unfold covered. rewrite (get_upd_field b_lock) by done. split_and!; [done..|right; by rewrite Hp].
      * rewrite upd_block_ne by done.
        destruct (cn_disk _ _ _ _ Hcn bn) as [?|(j & Hj & Hrj & Hvj & Hc)]; [by left|].
        right. exists j. rewrite on_root_upd by keeps. rewrite (get_upd_field b_valid) by done.
        unfold covered. by rewrite (get_upd_field b_lock) by done.
Qed.

Lemma step_bwrite p i c' :
  b_valid (get_buf c i) = true → bwrite p i c = Some c' → binv m (mk_brun c' s rs os ps).
Proof using Hinv.
  unfold bwrite. intros Hv Hw. destruct (holds p i c) eqn:Hh; [|done]. injection Hw as <-.
  destruct (holds_inv _ _ _ _ _ _ _ Hct Hh) as (Hi & Hlk & Hdev & Hp). constructor; simpl.
  - destruct Hs. by constructor.
  - destruct Hct. by constructor.
  - constructor; [apply Hcn|]. intros bn. simpl.
    destruct (decide (bn = b_blockno (get_buf c i))) as [->|Hne].
    + left. rewrite upd_block_eq. by apply (cn_valid _ _ _ _ Hcn).
    + rewrite upd_block_ne by done. apply (cn_disk _ _ _ _ Hcn).
Qed.

Lemma step_ra dev bn : binv m (mk_brun (should_readahead dev bn c).2 s rs os ps).
Proof using Hinv.
  constructor; simpl; [destruct Hs|destruct Hct|destruct Hcn]; by constructor.
Qed.
End steps.

(** *** Eviction *)

(** Between critical sections that leave the cache alone. *)
Lemma binv_phase m c s s' rs os ps :
  (∀ i, linked s' i ↔ linked s i) → (∀ i, victim_ref s' i = victim_ref s i) →
  match s' with
  | Idle => True
  | Scanning bn _ => ∀ i, linked s' i → ¬ on_root c i bn
  | Linking bn v => (v < NBUF)%nat ∧ ∀ i, linked s' i → ¬ on_root c i bn
  end →
  binv m (mk_brun c s rs os ps) → binv m (mk_brun c s' rs os ps).
Proof.
  intros Hl Hv Hph [[H1 H2 H3 H4 H5 H6 _] [C1 C2 C3 C4] [D1 D2]]; simpl in *.
  constructor; constructor; simpl; try done; setoid_rewrite Hl || setoid_rewrite Hv; done.
Qed.

Lemma shape_hand c s n :
  shape c s → shape (c <| clock_hand := (n `mod` NBUF)%nat |>) s.
Proof.
  intros [H1 H2 H3 H4 H5 H6 H7]. constructor; try done.
  exact (Nat.mod_upper_bound n NBUF ltac:(done)).
Qed.

Lemma binv_hand m c s n rs os ps :
  binv m (mk_brun c s rs os ps) →
  binv m (mk_brun (c <| clock_hand := (n `mod` NBUF)%nat |>) s rs os ps).
Proof.
  intros [Hs [C1 C2 C3 C4] [D1 D2]]; simpl in *.
  constructor; [by apply shape_hand|by constructor..].
Qed.

(** Clearing the reference bit of any buffer. *)
Lemma binv_clear m c s i rs os ps :
  binv m (mk_brun c s rs os ps) →
  binv m (mk_brun (upd_buf i (λ b, b <| b_refbit := false |>) c) s rs os ps).
Proof.
  intros [Hs [C1 C2 C3 C4] Hcn]; simpl in *. constructor; simpl.
  - apply shape_upd; [keeps|done].
  - constructor; try done; intros j.
    + rewrite (get_upd_field b_refcnt) by done. apply C1.
    + rewrite (get_upd_field b_dev) by done. apply C3.
    + rewrite (get_upd_field b_lock) by done. apply C4.
  - apply contents_keep; [keeps|done|done].
Qed.

Lemma step_scan m c bn n rs os ps c' :
  binv m (mk_brun c (Scanning bn (S n)) rs os ps) → scan_one c = (None, c') →
  binv m (mk_brun c' (Scanning bn n) rs os ps).
Proof.
  intros Hinv Hsc. apply (binv_phase _ _ (Scanning bn (S n)) (Scanning bn n)); [done..| |].
  - pose proof (sh_phase _ _ (bi_shape _ _ Hinv)) as Hph. simpl in Hph.
    revert Hsc. unfold scan_one; simpl. repeat case_match; intros [= <-]; try done.
    intros j. rewrite on_root_upd by keeps. apply Hph.
  - revert Hsc. unfold scan_one; simpl. repeat case_match; intros [= <-];
      [apply binv_clear|]; by apply binv_hand.
Qed.

Lemma step_victim m c bn n rs os ps i c' :
  binv m (mk_brun c (Scanning bn (S n)) rs os ps) → scan_one c = (Some i, c') →
  binv m (mk_brun c' (Linking bn i) rs os ps).
Proof.
  intros Hinv Hsc. apply (binv_hand _ _ _ (clock_hand c + 1)) in Hinv as Hinv'.
  pose proof (sh_hand _ _ (bi_shape _ _ Hinv)) as Hhand. simpl in Hhand.
  revert Hsc. unfold scan_one. cbv zeta.
  set (c1 := c <| clock_hand := _ |>) in *. destruct (b_refcnt _ =? 0) eqn:H0; [|done].
  destruct (b_refbit _); [done|]. intros [= Hi <-]. rewrite Hi in *. clear Hi Hinv. clearbody c1.
  apply Z.eqb_eq in H0. destruct Hinv' as [Hs Hct Hcn]; simpl in *.
  destruct (unused _ _ _ _ _ _ Hct Hhand H0) as (Hrs & Hos & Hps & Hlk & _).
  set (h0 := HASH (b_blockno (get_buf c1 i))).
  assert (length (bufs c1) = NBUF) as Hlen by apply Hs.
  assert (∀ j, linked (Linking bn i) j ↔ (linked (Scanning bn (S n)) j ∧ j ≠ i)) as Hlinked.
  { intros j. unfold linked. tauto. }
  set (f := λ b, b <| b_refcnt := 1 |>).
  assert (keeps_data f) as Hf by keeps.
  assert (∀ j, get_buf (upd_buf i f (unlink i c1)) j = get_buf (upd_buf i f c1) j) as Hg by done.
  assert (∀ j b, on_root (upd_buf i f (unlink i c1)) j b ↔ on_root c1 j b) as Hr.
  { intros j b. unfold on_root. rewrite Hg. apply on_root_upd, Hf. }
  assert (∀ h, buckets (upd_buf i f (unlink i c1)) !!! h =
    if decide (h = h0) then filter (λ j, j ≠ i) (buckets c1 !!! h0) else buckets c1 !!! h) as Hbk.
  { intros h. apply (bucket_total c1 h0). rewrite (sh_buckets _ _ Hs). apply HASH_lt. }
  constructor; cbn [bc ph refs outs pins].
  - destruct Hs as [S1 S2 S3 S4 S5 S6 S7]. constructor; try done.
    + simpl. by rewrite length_alter.
    + simpl. by rewrite length_alter.
    + intros h Hh. rewrite Hbk.
      case_decide; [apply NoDup_filter; subst; auto using HASH_lt|auto].
    + intros h j Hh. rewrite Hbk.
      rewrite Hg, (get_upd_field b_blockno) by done. rewrite Hlinked. fold h0.
      case_decide as E.
      * subst h. rewrite list_elem_of_filter, S5 by done. tauto.
      * rewrite S5 by done. split; [|tauto]. intros [? Hj]. split_and!; [done| |done].
        intros ->. by apply E.
    + intros j j' b [Hj _]%Hlinked [Hj' _]%Hlinked. rewrite !Hr. by apply S6.
    + split; [done|]. intros j [Hj _]%Hlinked. rewrite Hr. by apply S7.
  - destruct Hct as [C1 C2 C3 C4]. constructor; try done.
    + intros j Hj. rewrite Hg. simpl. destruct (decide (j = i)) as [->|Hne].
      * rewrite get_upd_eq by lia. simpl.
        pose proof (C1 i Hj) as E. rewrite H0 in E. simpl in E. lia.
      * rewrite get_upd_ne by done. rewrite (C1 j Hj). done.
    + intros j Hj. rewrite Hg, (get_upd_field b_dev) by done. rewrite Hlinked.
      destruct (C3 j Hj). split_and!; [done| |done]. intros ->. set_solver.
    + intros j p. rewrite Hg, (get_upd_field b_lock) by done. apply C4.
  - destruct Hcn as [D1 D2]. constructor.
    + intros j b [Hj _]%Hlinked. rewrite Hr, Hg, (get_upd_field b_valid), (get_upd_field b_data)
        by done. by apply D1.
    + intros b. destruct (D2 b) as [?|(j & Hj & Hrj & Hvj & Hcov)]; [by left|].
      right. exists j. rewrite Hlinked, Hr, Hg, (get_upd_field b_valid) by done.
      unfold covered in *. rewrite Hg, (get_upd_field b_lock) by done. split_and!; try done.
      intros ->. rewrite Hlk in Hcov. tauto.
Qed.

Lemma step_link m c bn rs os ps i :
  binv m (mk_brun c (Linking bn i) rs os ps) →
  Z.of_nat (length rs + length os + length ps) < 2 ^ 32 - 2 →
  binv m (mk_brun (link i ROOTDEV bn c) Idle (i :: rs) os ps).
Proof.
  intros [Hs Hct Hcn] Hlen; simpl in *. unfold link.
  set (f := λ b, b <| b_dev := _ |> <| b_blockno := _ |> <| b_valid := _ |> <| b_refbit := _ |>).
  destruct (sh_phase _ _ Hs) as [Hi Hfresh]. pose proof (sh_bufs _ _ Hs) as Hb.
  assert (∀ j, linked Idle j ↔ linked (Linking bn i) j ∨ j = i) as Hlinked.
  { intros j. unfold linked. destruct (decide (j = i)) as [->|]; tauto. }
  assert (∀ j, get_buf (upd_bucket (HASH bn) (cons i) (upd_buf i f c)) j =
    if decide (j = i) then f (get_buf c i) else get_buf c j) as Hg.
  { intros j. change (get_buf (upd_buf i f c) j = if decide (j = i) then f (get_buf c i) else get_buf c j).
    case_decide; [subst; rewrite get_upd_eq by lia; done|by rewrite get_upd_ne]. }
  assert (∀ j, linked (Linking bn i) j → j ≠ i) as Hne by (intros j [_ ?]; done).
  assert (∀ h, buckets (upd_bucket (HASH bn) (cons i) (upd_buf i f c)) !!! h =
    if decide (h = HASH bn) then i :: buckets c !!! HASH bn else buckets c !!! h) as Hbk.
  { intros h. apply (bucket_total (upd_buf i f c) (HASH bn)). simpl.
    rewrite (sh_buckets _ _ Hs). apply HASH_lt. }
  constructor; cbn [bc ph refs outs pins].
  - destruct Hs as [S1 S2 S3 S4 S5 S6 S7].
    assert (∀ h, (h < NBUCKET)%nat → i ∉ buckets c !!! h) as Hout.
    { intros h Hh [Hj _]%S5; [|done]. by apply Hne in Hj. }
    constructor; try done.
    + simpl. by rewrite length_alter.
    + simpl. by rewrite length_alter.
    + intros h Hh. rewrite Hbk.
      case_decide; simpl; [|auto]. subst. constructor; auto using HASH_lt.
    + intros h j Hh. rewrite Hbk.
      rewrite Hlinked, Hg. destruct (decide (j = i)) as [->|Hji].
      * simpl. case_decide as E; [subst; set_solver|].
        split; [intros Hin; by destruct (Hout h Hh)|]. intros [_ ?]. by destruct E.
      * case_decide as E; [rewrite elem_of_cons|]; subst; rewrite S5 by done; tauto.
    + intros j j' b Hj Hj'. unfold on_root. rewrite !Hg. rewrite Hlinked in Hj, Hj'.
      repeat case_decide; subst; simpl; try done; intros [R1 R2] [R1' R2']; subst.
      * destruct Hj' as [Hj'|?]; [|done]. by destruct (Hfresh j' Hj').
      * destruct Hj as [Hj|?]; [|done]. by destruct (Hfresh j Hj).
      * destruct Hj as [Hj|?], Hj' as [Hj'|?]; try done. by eapply S6.
  - destruct Hct as [C1 C2 C3 C4].
    assert (∀ j, j ∈ rs ++ os ++ ps → j ≠ i) as Hout.
    { intros j [Hj _]%C3. by apply Hne. }
    constructor.
    + intros j Hj. rewrite Hg, occ_cons. case_decide as E.
      * subst. simpl. rewrite (C1 i Hj). simpl. rewrite !decide_True by done. lia.
      * rewrite (C1 j Hj). simpl. rewrite !decide_False by done. lia.
    + simpl. lia.
    + intros j. rewrite Hlinked, Hg. intros [->|Hj]%elem_of_cons.
      * rewrite decide_True by done. split; [by right|done].
      * rewrite decide_False by auto. destruct (C3 j Hj). auto.
    + intros j p. rewrite Hg. case_decide as E; [subst; intros _; left|].
      intros Hj. right. by eapply C4.
  - destruct Hcn as [D1 D2]. constructor.
    + intros j b. rewrite Hlinked. unfold on_root. rewrite Hg. case_decide as E; [done|].
      intros [Hj|?]; [|done]. by apply D1.
    + intros b. destruct (D2 b) as [?|(j & Hj & Hrj & Hvj & Hcov)]; [by left|].
      right. exists j. rewrite Hlinked. unfold covered, on_root.
      rewrite Hg, decide_False by auto. auto.
Qed.

Lemma binv_step m r o r' :
  binv m r → bio_step r o r' → binv (apply_writes m (option_list o)) r'.
Proof.
  intros Hinv Hst. destruct Hst; simpl;
    eauto using step_hit, step_scan, step_victim, step_link, step_lock, step_fill, step_change,
      step_bwrite, step_unlock, step_deref, step_bpin, step_bunpin, step_refbit, step_ra.
  - eapply binv_phase, Hinv; [done..|]. simpl. intros i Hi.
    eapply find_miss; [apply (bi_shape _ _ Hinv)|done..].
  - by eapply binv_phase, Hinv.
  - by apply (step_ra _ _ _ _ _ _ Hinv dev blockno).
Qed.

Lemma get_binit d i : get_buf (binit d) i = buf_zero.
Proof.
  unfold get_buf, binit; cbn [bufs]. rewrite list_lookup_total_alt.
  destruct (replicate NBUF buf_zero !! i) as [b|] eqn:E; [|done].
  by apply lookup_replicate in E as [-> _].
Qed.

Definition booted (d : Z → block) : brun := mk_brun (binit d) Idle [] [] [].

Lemma binv_boot d : binv d (booted d).
Proof.
  assert (∀ i bn, ¬ on_root (binit d) i bn) as Hr.
  { intros i bn [E _]. by rewrite get_binit in E. }
  assert (∀ h, (h < NBUCKET)%nat → buckets (binit d) !!! h = if decide (h = 0%nat) then rev (seq 0 NBUF) else []) as Hb.
  { intros h Hh. do 13 (destruct h as [|h]; [done|]). unfold NBUCKET in Hh. lia. }
  constructor; constructor; simpl; try done; try lia.
  - unfold NBUF. lia.
  - intros h Hh. rewrite Hb by done. case_decide; [|constructor].
    apply (bool_decide_unpack _). by vm_compute.
  - intros h i Hh. rewrite Hb by done. rewrite get_binit. change (HASH (b_blockno buf_zero)) with 0%nat.
    unfold linked. case_decide as E; [|set_solver].
    rewrite list_elem_of_In, <-in_rev, <-list_elem_of_In, elem_of_seq. lia.
  - intros i j bn _ _ Hi. by destruct (Hr i bn).
  - intros i _. by rewrite get_binit.
  - intros i. set_solver.
  - intros i p. by rewrite get_binit.
  - intros i bn _ Hi. by destruct (Hr i bn).
  - intros bn. by left.
Qed.

Lemma binv_run m r ws r' : binv m r → bio_run r ws r' → binv (apply_writes m ws) r'.
Proof.
  intros Hinv Hrun. induction Hrun as [|r r1 r2 ws o Hrun IH Hst]; [done|].
  rewrite apply_app. eapply binv_step; eauto.
Qed.

(** ** The composed functions as runs *)

Lemma bio_run_trans r1 ws r2 ws' r3 :
  bio_run r1 ws r2 → bio_run r2 ws' r3 → bio_run r1 (ws ++ ws') r3.
Proof.
  intros H1 H2. induction H2 as [|r2 r3 r4 ws' o H2 IH Hst]; [by rewrite app_nil_r|].
  rewrite app_assoc. by eapply br_step; [apply IH|].
Qed.

Lemma bio_run_silent r1 r2 r3 : bio_run r1 [] r2 → bio_step r2 None r3 → bio_run r1 [] r3.
Proof. intros H1 H2. apply (br_step r1 r2 r3 [] None H1 H2). Qed.

Lemma bio_run_silents r1 r2 r3 : bio_run r1 [] r2 → bio_run r2 [] r3 → bio_run r1 [] r3.
Proof. apply bio_run_trans. Qed.

Lemma bio_run_one r1 r2 : bio_step r1 None r2 → bio_run r1 [] r2.
Proof. apply bio_run_silent, br_nil. Qed.

Section composed.
Context (rs os ps : list nat).

Lemma clock_scan_run n bn c o c' :
  clock_scan n c = (o, c') →
  bio_run (mk_brun c (Scanning bn n) rs os ps) []
    (mk_brun c' (match o with Some i => Linking bn i | None => Idle end) rs os ps).
Proof.
  revert c. induction n as [|n IH]; intros c; cbn [clock_scan].
  - intros [= <- <-]. apply bio_run_one, bs_fail.
  - destruct (scan_one c) as [[i|] c1] eqn:Hsc.
    + intros [= <- <-]. by eapply bio_run_one, bs_victim.
    + intros Hn. eapply bio_run_silents; [by eapply bio_run_one, bs_scan|by apply IH].
Qed.

Lemma bget_common_run bn c o c' :
  Z.of_nat (length rs + length os + length ps) < 2 ^ 32 - 2 →
  bget_common ROOTDEV bn c = (o, c') →
  bio_run (mk_brun c Idle rs os ps) [] (mk_brun c' Idle (option_list o ++ rs) os ps).
Proof.
  intros Hlen. unfold bget_common. destruct (bget_hit ROOTDEV bn c) as [[i c1]|] eqn:Hhit.
  - intros [= <- <-]. by eapply bio_run_one, bs_hit.
  - assert (bucket_find ROOTDEV bn c = None) as Hf.
    { unfold bget_hit in Hhit. by destruct (bucket_find _ _ _). }
    destruct (clock_scan (NBUF * 2) c) as [[i|] c1] eqn:Hsc; intros [= <- <-].
    + eapply bio_run_silent; [|by apply bs_link].
      eapply bio_run_silents; [by eapply bio_run_one, bs_miss|]. exact (clock_scan_run _ bn _ _ _ Hsc).
    + eapply bio_run_silents; [by eapply bio_run_one, bs_miss|]. exact (clock_scan_run _ bn _ _ _ Hsc).
Qed.

Lemma brelse_run s p i c c' :
  brelse p i c = Some c' → clean c i ∨ i ∈ ps →
  bio_run (mk_brun c s (i :: rs) os ps) [] (mk_brun c' s rs os ps).
Proof.
  unfold brelse. intros Hb Hcl. destruct (holds p i c) eqn:Hh; [|done]. injection Hb as <-.
  eapply bio_run_silent; [by eapply bio_run_one, bs_unlock|]. by apply bs_deref.
Qed.
End composed.

Lemma evict_run m c bn rs os ps i c' :
  binv m (mk_brun c Idle rs os ps) → bucket_find ROOTDEV bn c = None →
  clock_scan (NBUF * 2) c = (Some i, c') → binv m (mk_brun c' (Linking bn i) rs os ps).
Proof.
  intros Hinv Hf Hsc. eapply (binv_run _ _ []); [exact Hinv|].
  eapply bio_run_silents; [by eapply bio_run_one, bs_miss|].
  exact (clock_scan_run _ _ _ _ bn _ _ _ Hsc).
Qed.

Lemma get_link m c bn rs os ps i :
  binv m (mk_brun c (Linking bn i) rs os ps) →
  get_buf (link i ROOTDEV bn c) i =
    (get_buf c i) <| b_dev := ROOTDEV |> <| b_blockno := bn |> <| b_valid := false |>
      <| b_refbit := true |>.
Proof.
  intros [Hs _ _]; simpl in Hs. destruct (sh_phase _ _ Hs) as [Hi _].
  refine (get_upd_eq c i _ _). rewrite (sh_bufs _ _ Hs). apply Hi.
Qed.

(** The buffer that bget_common() returns is the one for the block; on a miss it
    is not valid yet. *)
Lemma bget_on_root m c bn rs os ps i c' :
  binv m (mk_brun c Idle rs os ps) → bget_common ROOTDEV bn c = (Some i, c') →
  on_root c' i bn ∧ (bucket_find ROOTDEV bn c = None → b_valid (get_buf c' i) = false).
Proof.
  intros Hinv. pose proof (bi_shape _ _ Hinv) as Hs. unfold bget_common, bget_hit; simpl in Hs.
  destruct (bucket_find ROOTDEV bn c) as [j|] eqn:Hf.
  - intros [= <- <-]. split; [|done]. apply on_root_upd; [keeps|]. by eapply find_hit.
  - destruct (clock_scan (NBUF * 2) c) as [[j|] c1] eqn:Hsc; [|done]. intros [= <- <-].
    pose proof (get_link _ _ _ _ _ _ _ (evict_run _ _ _ _ _ _ _ _ Hinv Hf Hsc)) as Hg.
    unfold on_root. by rewrite Hg.
Qed.

Lemma lock_buf_holds p i c c' :
  (i < length (bufs c))%nat → lock_buf p i c = Some c' →
  holds p i c' = true ∧ (∀ j, b_valid (get_buf c' j) = b_valid (get_buf c j)) ∧
  (∀ j bn, on_root c' j bn ↔ on_root c j bn) ∧ length (bufs c') = length (bufs c).
Proof.
  intros Hi. unfold lock_buf. destruct (b_lock _); [done|]. intros [= <-]. split_and!.
  - apply bool_decide_eq_true. by rewrite get_upd_eq.
  - intros j. by apply get_upd_field.
  - intros j bn. apply on_root_upd. keeps.
  - simpl. by rewrite length_alter.
Qed.

Lemma fill_buf i c :
  (i < length (bufs c))%nat →
  b_valid (get_buf (fill i c) i) = true ∧
  (b_valid (get_buf c i) = false → clean (fill i c) i) ∧
  (∀ j bn, on_root (fill i c) j bn ↔ on_root c j bn) ∧
  (∀ j, b_lock (get_buf (fill i c) j) = b_lock (get_buf c j)).
Proof.
  intros Hi. unfold clean. change (platter (fill i c)) with (platter c). unfold fill.
  rewrite get_upd_eq by done. split_and!.
  - by destruct (b_valid (get_buf c i)) eqn:E.
  - intros ->. done.
  - intros j bn. apply on_root_upd. intros b. by destruct (b_valid b).
  - intros j. apply get_upd_field. intros b. by destruct (b_valid b).
Qed.

(** readahead() as a run: it leaves no reference behind. *)
Lemma readahead_run m c rs os ps p bn c' :
  binv m (mk_brun c Idle rs os ps) →
  Z.of_nat (length rs + length os + length ps) < 2 ^ 32 - 2 →
  readahead p ROOTDEV bn c = Some c' →
  bio_run (mk_brun c Idle rs os ps) [] (mk_brun c' Idle rs os ps).
Proof.
  intros Hinv Hlen. unfold readahead. case_match; [intros [= <-]; apply br_nil|].
  unfold buf_cached. case_bool_decide as Hc; [intros [= <-]; apply br_nil|].
  apply eq_None_not_Some in Hc.
  destruct (bget_common ROOTDEV bn c) as [[i|] c1] eqn:Hg; 
    [|intros [= <-]; exact (bget_common_run _ _ _ _ _ _ _ Hlen Hg)].
  destruct (bget_on_root _ _ _ _ _ _ _ _ Hinv Hg) as [_ Hinval]. specialize (Hinval Hc).
  apply (bget_common_run rs os ps _ _ _ _ Hlen) in Hg as Hrun.
  pose proof (binv_run _ _ _ _ Hinv Hrun) as Hinv1. pose proof (bi_shape _ _ Hinv1) as Hs1.
  simpl in *. assert (i < length (bufs c1))%nat as Hi.
  { rewrite (sh_bufs _ _ Hs1). eapply ct_in_use; [apply (bi_counts _ _ Hinv1)|]. simpl. set_solver. }
  destruct (lock_buf p i c1) as [c2|] eqn:Hl; [|done]. simpl.
  destruct (lock_buf_holds _ _ _ _ Hi Hl) as (Hh & Hv & _ & Hlen2).
  destruct (fill_buf i c2) as (_ & Hcl & _ & Hlk); [by rewrite Hlen2|].
  rewrite Hv in Hcl. specialize (Hcl Hinval). intros Hb.
  assert (holds p i (fill i c2) = true) as Hh2.
  { apply bool_decide_eq_true. rewrite Hlk. by apply bool_decide_eq_true in Hh. }
  eapply bio_run_silents; [exact Hrun|].
  eapply bio_run_silents; [eapply bio_run_one, (bs_lock _ _ _ _ _ p i); [left|done]|].
  eapply bio_run_silents; [by eapply bio_run_one, (bs_fill _ _ _ _ _ p i)|].
  eapply bio_run_silents; [by eapply bio_run_one, (bs_refbit _ _ _ _ _ p i)|].
  eapply brelse_run; [done|]. left. unfold clean in *.
  by rewrite (get_upd_field b_data), (get_upd_field b_blockno) by done.
Qed.

(** ** The clock *)

(** Turns until the hand comes to buffer [i]. *)
Definition turns (hand i : nat) : nat :=
  if (hand <=? i)%nat then (i - hand)%nat else (i + NBUF - hand)%nat.

Lemma turns_next hand i :
  (hand < NBUF)%nat → (i < NBUF)%nat →
  (hand = i → turns ((hand + 1) `mod` NBUF) i = NBUF - 1)%nat ∧
  (hand ≠ i → turns hand i = S (turns ((hand + 1) `mod` NBUF) i))%nat ∧
  ((hand + 1) `mod` NBUF < NBUF)%nat.
Proof.
  intros Hh Hi. destruct (decide (hand + 1 = NBUF)%nat) as [E|E].
  - rewrite E, Nat.Div0.mod_same. unfold turns. destruct (Nat.leb_spec hand i), (Nat.leb_spec 0 i); lia.
  - rewrite Nat.mod_small by lia. unfold turns.
    destruct (Nat.leb_spec hand i), (Nat.leb_spec (hand + 1) i); lia.
Qed.

(** A scan of [n] turns that finds no victim, with steps [env] of other processes
    before every turn. *)
Inductive scan_fails (env : bcache → bcache → Prop) : nat → bcache → bcache → Prop :=
  | sf_end c : scan_fails env 0 c c
  | sf_turn n c c1 c2 c3 :
      env c c1 → scan_one c1 = (None, c2) → scan_fails env n c2 c3 → scan_fails env (S n) c c3.

(** A step of the others that leaves the buffer [i] unused and the clock hand,
    which evict_lock protects, where it is. *)
Definition stays_free (i : nat) (c c' : bcache) : Prop :=
  length (bufs c') = NBUF ∧ clock_hand c' = clock_hand c ∧ b_refcnt (get_buf c' i) = 0 ∧
  (b_refbit (get_buf c' i) = true → b_refbit (get_buf c i) = true).

Section clock.
Context (i : nat).
Hypothesis Hi : (i < NBUF)%nat.

(** One turn of the clock that finds no victim. *)
Lemma scan_one_none c c' :
  length (bufs c) = NBUF → scan_one c = (None, c') →
  clock_hand c' = ((clock_hand c + 1) `mod` NBUF)%nat ∧ length (bufs c') = NBUF ∧
  (∀ j, b_refcnt (get_buf c' j) = b_refcnt (get_buf c j)) ∧
  (b_refcnt (get_buf c i) = 0 →
   b_refbit (get_buf c' i) = if decide (i = clock_hand c) then false else b_refbit (get_buf c i)) ∧
  (b_refcnt (get_buf c i) = 0 → b_refbit (get_buf c i) = false → i ≠ clock_hand c).
Proof using Hi.
  intros Hl. unfold scan_one. cbv zeta. set (c1 := c <| clock_hand := _ |>).
  change (get_buf c1) with (get_buf c). change (bufs c1) with (bufs c) in *.
  destruct (b_refcnt (get_buf c (clock_hand c)) =? 0) eqn:E0.
  - destruct (b_refbit _) eqn:Eb; [|done]. intros [= <-]. split_and!.
    + done.
    + simpl. by rewrite length_alter.
    + intros j. by rewrite (get_upd_field b_refcnt).
    + intros _. case_decide as E; [subst; rewrite get_upd_eq by (simpl; lia); done|].
      by rewrite get_upd_ne.
    + intros _ Hb ->. congruence.
  - intros [= <-]. split_and!; try done.
    + intros H0. case_decide as E; [subst|done]. apply Z.eqb_neq in E0. lia.
    + intros H0 _ ->. apply Z.eqb_neq in E0. lia.
Qed.

Lemma clock_second_chance n c :
  length (bufs c) = NBUF → (clock_hand c < NBUF)%nat → b_refcnt (get_buf c i) = 0 →
  (turns (clock_hand c) i + (if b_refbit (get_buf c i) then NBUF else 0) < n)%nat →
  is_Some (clock_scan n c).1.
Proof using Hi.
  revert c. induction n as [|n IH]; intros c Hl Hh H0 Ht; [lia|]. cbn [clock_scan].
  destruct (scan_one c) as [[j|] c1] eqn:Hsc; [done|].
  destruct (scan_one_none _ _ Hl Hsc) as (Hc & Hl1 & Hr & Hbit & Hne).
  destruct (turns_next (clock_hand c) i Hh Hi) as (T1 & T2 & T3).
  apply IH; [done|by rewrite Hc|by rewrite Hr|]. rewrite Hc, (Hbit H0).
  case_decide as E.
  - rewrite T1 by done. destruct (b_refbit _) eqn:Eb; [|by destruct (Hne H0 eq_refl)].
    unfold NBUF in *. lia.
  - rewrite T2 in Ht by done. lia.
Qed.

Lemma scan_finds_free n c c' :
  scan_fails (stays_free i) n c c' → (clock_hand c < NBUF)%nat →
  (n ≤ turns (clock_hand c) i + if b_refbit (get_buf c i) then NBUF else 0)%nat.
Proof using Hi.
  induction 1 as [c|n c c1 c2 c3 (Hl & Hc1 & H0 & Hb) Hsc _ IH]; intros Hh; [lia|].
  rewrite <-Hc1 in *. destruct (scan_one_none _ _ Hl Hsc) as (Hc & Hl1 & Hr & Hbit & Hne).
  destruct (turns_next (clock_hand c1) i Hh Hi) as (T1 & T2 & T3).
  rewrite Hc in IH. specialize (IH T3). rewrite (Hbit H0) in IH. case_decide as E.
  - rewrite T1 in IH by done. destruct (b_refbit (get_buf c1 i)) eqn:Eb; [|by destruct (Hne H0 eq_refl)].
    rewrite (Hb eq_refl). unfold NBUF in *. lia.
  - rewrite T2 by done. destruct (b_refbit (get_buf c1 i)); [rewrite (Hb eq_refl)|]; lia.
Qed.
End clock.

Lemma clock_all_busy n c :
  length (bufs c) = NBUF → (clock_hand c < NBUF)%nat →
  (∀ i, (i < NBUF)%nat → b_refcnt (get_buf c i) ≠ 0) → (clock_scan n c).1 = None.
Proof.
  revert c. induction n as [|n IH]; intros c Hl Hh Hb; [done|]. cbn [clock_scan].
  destruct (scan_one c) as [[j|] c1] eqn:Hsc.
  - exfalso. revert Hsc. unfold scan_one. cbv zeta. case_match eqn:E0; [|done].
    apply Z.eqb_eq in E0. by destruct (Hb (clock_hand c) Hh E0).
  - destruct (scan_one_none (clock_hand c) Hh _ _ Hl Hsc) as (Hc & Hl1 & Hr & _).
    apply IH; [done| |].
    + rewrite Hc. exact (proj2 (proj2 (turns_next _ _ Hh Hh))).
    + intros i Hi. rewrite Hr. auto.
Qed.

(** An eviction leaves the buffers in use alone. *)
Lemma clock_scan_busy n j c o c' :
  b_refcnt (get_buf c j) ≠ 0 → clock_scan n c = (o, c') →
  get_buf c' j = get_buf c j ∧ o ≠ Some j.
Proof.
  revert c. induction n as [|n IH]; intros c Hb; cbn [clock_scan]; [by intros [= <- <-]|].
  assert (∀ o1 c1, scan_one c = (o1, c1) → get_buf c1 j = get_buf c j ∧ o1 ≠ Some j) as Hone.
  { intros o1 c1. unfold scan_one. cbv zeta. set (c0 := c <| clock_hand := _ |>).
    change (get_buf c0) with (get_buf c). case_match eqn:E0; [apply Z.eqb_eq in E0|by intros [= <- <-]].
    assert (clock_hand c ≠ j) as Hne by (intros E; by rewrite E in E0).
    case_match; intros [= <- <-].
    - by rewrite get_upd_ne.
    - split; [|congruence]. rewrite get_upd_ne by done. done. }
  destruct (scan_one c) as [[i|] c1] eqn:Hsc.
  - intros [= <- <-]. by apply Hone.
  - destruct (Hone _ _ eq_refl) as [Hg _]. intros Hn. rewrite <-Hg. apply IH; [by rewrite Hg|done].
Qed.

Lemma readahead_other p bn c c' j :
  b_refcnt (get_buf c j) ≠ 0 → readahead p ROOTDEV bn c = Some c' → get_buf c' j = get_buf c j.
Proof.
  intros Hb. unfold readahead. case_match; [by intros [= <-]|].
  unfold buf_cached. case_bool_decide as Hc; [by intros [= <-]|].
  apply eq_None_not_Some in Hc. unfold bget_common, bget_hit. rewrite Hc.
  destruct (clock_scan (NBUF * 2) c) as [[i|] c1] eqn:Hsc;
    destruct (clock_scan_busy _ _ _ _ _ Hb Hsc) as [Hg Hne]; [|by intros [= <-]].
  assert (i ≠ j) as Hij by congruence.
  assert (get_buf (link i ROOTDEV bn c1) j = get_buf c j) as Hl.
  { rewrite <-Hg. exact (get_upd_ne c1 i j _ Hij). }
  unfold lock_buf. case_match; [done|]. simpl. unfold brelse. case_match; [|done].
  intros [= <-]. unfold unlock_buf, fill. by rewrite !get_upd_ne.
Qed.

(** bread() up to the read-ahead. *)
Lemma bread_core m c rs os ps p bn j c1 c2 :
  binv m (mk_brun c Idle rs os ps) →
  Z.of_nat (length rs + length os + length ps) < 2 ^ 32 - 3 →
  bget_common ROOTDEV bn c = (Some j, c1) → lock_buf p j c1 = Some c2 →
  let c4 := (should_readahead ROOTDEV bn (fill j c2)).2 in
  bio_run (mk_brun c Idle rs os ps) [] (mk_brun c4 Idle (j :: rs) os ps) ∧
  on_root c4 j bn ∧ holds p j c4 = true ∧ b_valid (get_buf c4 j) = true ∧
  b_refcnt (get_buf c4 j) ≠ 0.
Proof.
  intros Hinv Hlen Hg Hl. destruct (bget_on_root _ _ _ _ _ _ _ _ Hinv Hg) as [Hr _].
  assert (Z.of_nat (length rs + length os + length ps) < 2 ^ 32 - 2) as Hlen' by lia.
  apply (bget_common_run rs os ps _ _ _ _ Hlen') in Hg as Hrun.
  pose proof (binv_run _ _ _ _ Hinv Hrun) as Hinv1. simpl in Hrun, Hinv1.
  pose proof (bi_shape _ _ Hinv1) as Hs1. pose proof (bi_counts _ _ Hinv1) as Hct1. simpl in Hs1, Hct1.
  assert (j < length (bufs c1))%nat as Hj.
  { rewrite (sh_bufs _ _ Hs1). eapply ct_in_use; [apply Hct1|]. simpl. set_solver. }
  destruct (lock_buf_holds _ _ _ _ Hj Hl) as (Hh & _ & Hr2 & Hlen2).
  destruct (fill_buf j c2) as (Hv & _ & Hr3 & Hlk); [by rewrite Hlen2|]. intros c4.
  assert (bio_run (mk_brun c Idle rs os ps) [] (mk_brun c4 Idle (j :: rs) os ps)) as Hrun4.
  { eapply bio_run_silents; [exact Hrun|].
    eapply bio_run_silents; [eapply bio_run_one, (bs_lock _ _ _ _ _ p j); [left|done]|].
    eapply bio_run_silents; [by eapply bio_run_one, (bs_fill _ _ _ _ _ p j)|].
    apply bio_run_one, (bs_ra (fill j c2) Idle _ os ps ROOTDEV bn). }
  split_and!; [done| | |done|].
  - change (on_root (fill j c2) j bn). by rewrite Hr3, Hr2.
  - apply bool_decide_eq_true. change (b_lock (get_buf (fill j c2) j) = Some p). rewrite Hlk.
    by apply bool_decide_eq_true in Hh.
  - pose proof (bi_counts _ _ (binv_run _ _ _ _ Hinv Hrun4)) as Hct4.
    destruct (refcnt_small _ _ _ _ _ j Hct4) as [Hcnt _]; cbn [bc ph refs outs pins] in *.
    { apply (ct_in_use _ _ _ _ _ Hct4). simpl. set_solver. }
    rewrite Hcnt. pose proof (occ_elem j (j :: rs) ltac:(left)).
    pose proof (occ_nonneg j os). pose proof (occ_nonneg j ps). lia.
Qed.

(** ** Theorems *)

(** the cache holds each block at most once. In every run from boot, of any
    processes that get, fill, change, write, pin and release buffers while one
    of them may be inside an eviction: two linked buffers never stand for the
    same block; a buffer in use is the one that a lookup of its block finds (it
    is not recycled); refcnt is the number of its users; a lock holder is one
    of them. *)
Theorem bcache_unique d ws r :
  bio_run (booted d) ws r →
  (∀ i j bn, linked (ph r) i → linked (ph r) j → on_root (bc r) i bn → on_root (bc r) j bn →
     i = j) ∧
  (∀ i, i ∈ refs r ++ outs r ++ pins r →
     bucket_find ROOTDEV (b_blockno (get_buf (bc r) i)) (bc r) = Some i ∧
     b_refcnt (get_buf (bc r) i) = occ i (refs r) + occ i (outs r) + occ i (pins r)) ∧
  (∀ i p, b_lock (get_buf (bc r) i) = Some p → i ∈ refs r).
Proof.
  intros Hrun. destruct (binv_run _ _ _ _ (binv_boot d) Hrun) as [Hs Hct Hcn].
  split_and!; [apply Hs| |apply Hct]. intros i Hi.
  destruct (ct_in_use _ _ _ _ _ Hct i Hi) as [Hl Hd]. split.
  - by eapply find_cached.
  - by eapply refcnt_small.
Qed.


(** bread(). When it need not wait it returns, for any block, the buffer of
    that block, locked by the caller and filled, and what it did (read-ahead of
    the next block included) is a run of the cache that makes no change and
    leaves behind just the caller's reference. *)
Theorem bread_returns_block d ws c rs os ps p bn i c' :
  bio_run (booted d) ws (mk_brun c Idle rs os ps) →
  Z.of_nat (length rs + length os + length ps) < 2 ^ 32 - 3 →
  bread p ROOTDEV bn c = Some (i, c') →
  bio_run (booted d) ws (mk_brun c' Idle (i :: rs) os ps) ∧
  on_root c' i bn ∧ holds p i c' = true ∧ b_valid (get_buf c' i) = true ∧
  b_data (get_buf c' i) = apply_writes d ws bn.
Proof.
  intros Hrun0 Hlen. pose proof (binv_run _ _ _ _ (binv_boot d) Hrun0) as Hinv. unfold bread.
  destruct (bget_common ROOTDEV bn c) as [[j|] c1] eqn:Hg; [|done].
  destruct (lock_buf p j c1) as [c2|] eqn:Hl; [|done]. simpl.
  destruct (bread_core _ _ _ _ _ _ _ _ _ _ Hinv Hlen Hg Hl) as (Hrun4 & Hr & Hh & Hv & Hcnt).
  simpl in *. set (c4 := (fill j c2) <| ra_dev := ROOTDEV |> <| ra_blockno := bn |>) in *.
  pose proof (bio_run_trans _ _ _ _ _ Hrun0 Hrun4) as Hrun04. rewrite app_nil_r in Hrun04.
  intros Hres. enough (bio_run (booted d) ws (mk_brun c' Idle (i :: rs) os ps) ∧ i = j ∧
    get_buf c' j = get_buf c4 j) as (Hfin & -> & Hsame).
  { unfold holds, on_root. rewrite Hsame. split_and!; try done; try apply Hr.
    destruct (binv_run _ _ _ _ (binv_boot d) Hfin) as [Hs Hct Hcn]; simpl in *.
    destruct (ct_in_use _ _ _ _ _ Hct j) as [Hlj _]; [set_solver|]. rewrite <-Hsame.
    apply (cn_valid _ _ _ _ Hcn j bn); [done|unfold on_root|]; by rewrite Hsame. }
  revert Hres. case_match; [|by intros [= <- <-]].
  destruct (readahead p ROOTDEV (u32 (bn + 1)) c4) as [c5|] eqn:Hra; [|done]. intros [= <- <-].
  pose proof (binv_run _ _ _ _ Hinv Hrun4) as Hinv4.
  split_and!; [|done|by eapply readahead_other].
  pose proof (readahead_run _ _ _ _ _ _ _ _ Hinv4 ltac:(simpl; lia) Hra) as Hrun5.
  pose proof (bio_run_trans _ _ _ _ _ Hrun04 Hrun5) as Hall. by rewrite app_nil_r in Hall.
Qed.

(** C39: bget() finds a buffer whenever there is one. A bget() that no other
    process interrupts fails (a panic in bget(), a skipped read-ahead in
    bget_ra()) exactly when the block is not cached and every buffer is in use:
    two rounds of the clock are enough. With steps of other processes between the
    turns of the clock the scan does not fail either if some buffer is free and
    nobody uses it during the scan; when the free buffers are used and given back
    meanwhile it can fail ([bget_misses_free_buffer]). *)
Theorem bget_fails_iff_all_busy d ws r bn :
  bio_run (booted d) ws r →
  ((bget_common ROOTDEV bn (bc r)).1 = None ↔
   bucket_find ROOTDEV bn (bc r) = None ∧
   ∀ i, (i < NBUF)%nat → b_refcnt (get_buf (bc r) i) ≠ 0) ∧
  (∀ i c', (i < NBUF)%nat → scan_fails (stays_free i) (NBUF * 2) (bc r) c' → False).
Proof.
  intros Hrun. destruct (binv_run _ _ _ _ (binv_boot d) Hrun) as [[S1 _ S3 _ _ _ _] _ _].
  split.
  2: { intros i c' Hi Hf%(scan_finds_free i Hi); [|done]. revert Hf.
       unfold turns, NBUF in *. destruct (Nat.leb_spec (clock_hand (bc r)) i), (b_refbit _); lia. }
  unfold bget_common, bget_hit. destruct (bucket_find ROOTDEV bn (bc r)) as [j|]; [naive_solver|].
  assert ((clock_scan (NBUF * 2) (bc r)).1 = None ↔
    ∀ i, (i < NBUF)%nat → b_refcnt (get_buf (bc r) i) ≠ 0) as Hsc.
  { split; [|by apply clock_all_busy]. intros Hn i Hi H0.
    destruct (clock_second_chance i Hi (NBUF * 2) (bc r) S1 S3 H0) as [v Hv]; [|congruence].
    unfold turns, NBUF in *. destruct (Nat.leb_spec (clock_hand (bc r)) i), (b_refbit _); lia. }
  destruct (clock_scan (NBUF * 2) (bc r)) as [[j|] c1]; simpl in *; tauto.
Qed.

(** *** A short run: process 7 reads block 5 and changes it *)

Definition demo_platter : Z → block := λ bn, [bn].
Definition demo_b0 : bcache := binit demo_platter.
Definition demo_b1 : bcache := (bget_common ROOTDEV 5 demo_b0).2.
Definition demo_b2 : bcache := fill 0 (default demo_b1 (lock_buf 7 0 demo_b1)).
Definition demo_b4 : bcache := (default (0%nat, demo_b0) (bread 7 ROOTDEV 5 demo_b0)).2.

Lemma demo_b1_run : bio_run (booted demo_platter) [] (mk_brun demo_b1 Idle [0%nat] [] []).
Proof. by apply (bget_common_run [] [] [] 5 demo_b0 (Some 0%nat)). Qed.


Lemma bcache_unique_witness : bucket_find ROOTDEV 5 demo_b1 = Some 0%nat.
Proof.
  exact (proj1 (proj1 (proj2 (bcache_unique _ _ _ demo_b1_run)) 0%nat (list_elem_of_here _ _))).
Defined.


Lemma bread_returns_block_witness :
  holds 7 0 demo_b4 = true ∧ b_data (get_buf demo_b4 0) = [5].
Proof.
  refine ((λ H, conj (proj1 (proj2 (proj2 H))) (proj2 (proj2 (proj2 (proj2 H)))))
    (bread_returns_block demo_platter [] demo_b0 [] [] [] 7 5 0 demo_b4 (br_nil _) _ _)).
  - vm_compute. reflexivity.
  - reflexivity.
Defined.

Lemma bget_fails_iff_all_busy_witness : (bget_common ROOTDEV 5 demo_b0).1 ≠ None.
Proof.
  intros H. apply (bget_fails_iff_all_busy demo_platter [] (booted demo_platter) 5 (br_nil _)) in H.
  apply (proj2 H 0%nat); [vm_compute; lia|reflexivity].
Defined.

(** Buffer 29 is the only free one, with its reference bit set. The first round
    of the clock clears the bit; another process finds its block in the cache,
    which sets the bit again, and gives it back; the second round clears the bit
    again and bget() panics with a free buffer. *)
Example bget_misses_free_buffer :
  let c0 := demo_b0 <| bufs := imap (λ i b, if (i =? 29)%nat then b <| b_refbit := true |>
                                            else b <| b_refcnt := 1 |>) (bufs demo_b0) |> in
  let '(o1, c1) := clock_scan NBUF c0 in
  let '(o2, c2) := clock_scan NBUF (upd_buf 29 drop_ref (upd_buf 29 take_ref c1)) in
  o1 = None ∧ o2 = None ∧ b_refcnt (get_buf c2 29) = 0.
Proof. by vm_compute. Qed.

(** Recovery unpins the blocks it installs, which nobody has pinned: the counter
    of the buffer goes to zero while it is still held, and then wraps around. *)
Example recovery_unpin_underflows :
  let c := bunpin 0 demo_b2 in
  b_refcnt (get_buf c 0) = 0 ∧ holds 7 0 c = true ∧
  (λ c, b_refcnt (get_buf c 0)) <$> brelse 7 0 c = Some (2 ^ 32 - 1).
Proof. by vm_compute. Qed.
