(* ===== verification/Kalloc.v ===== *)
(** * Physical pages (src/kernel/mm/kalloc.c)

    A free list is the list of its pages; [cnt] is ref.cnt[], indexed by page
    number. [kend] is the linker's symbol [end], the first address after the
    kernel. A panic is [None]. *)

From S2P Require Import Prelude KState.

Definition PGROUNDUP (sz : Z) : Z := Z.land (u64 (sz + PGSIZE - 1)) (Z.lnot (PGSIZE - 1)).
Definition PGROUNDDOWN (a : Z) : Z := Z.land a (Z.lnot (PGSIZE - 1)).

(** Both macros in terms of division. *)
Lemma PGROUNDDOWN_div a : PGROUNDDOWN a = a / PGSIZE * PGSIZE.
Proof.
  unfold PGROUNDDOWN. change (PGSIZE - 1) with (Z.ones 12).
  rewrite <-Z.ldiff_land, Z.ldiff_ones_r, Z.shiftl_mul_pow2, Z.shiftr_div_pow2 by lia. done.
Qed.

Lemma PGROUNDUP_div a : 0 ≤ a < 2 ^ 63 → PGROUNDUP a = (a + PGSIZE - 1) / PGSIZE * PGSIZE.
Proof.
  intros Ha. unfold PGROUNDUP. rewrite u64_small by (unfold PGSIZE; lia). apply PGROUNDDOWN_div.
Qed.

Record kmem := mk_kmem { freelist : list (list Z); cnt : Z → Z }.

#[export] Instance kmem_rebuild : Rebuild kmem := λ m, mk_kmem (freelist m) (cnt m).
#[export] Instance freelist_set : Setter freelist := ltac:(solve_setter).
#[export] Instance cnt_set : Setter cnt := ltac:(solve_setter).

Definition set_cnt (pa v : Z) (m : kmem) : kmem :=
  m <| cnt := λ n, if n =? pa / PGSIZE then v else cnt m n |>.

Definition krefcnt (pa : Z) (m : kmem) : Z := cnt m (pa / PGSIZE).

Section kalloc.
Context (kend : Z).

(** pa % PGSIZE != 0 || pa < end || pa >= PHYSTOP *)
Definition bad_page (pa : Z) : bool :=
  negb (pa `mod` PGSIZE =? 0) || (pa <? kend) || (PHYSTOP <=? pa).

(** kfree() up to the release of ref.lock; the flag tells whether the page is
    to go on a free list. *)
Definition ref_drop (pa : Z) (m : kmem) : option (bool * kmem) :=
  if bad_page pa then None
  else let m := set_cnt pa (i32 (krefcnt pa m - 1)) m in
       Some (krefcnt pa m =? 0, m).

Definition push_page (id : nat) (pa : Z) (m : kmem) : kmem :=
  m <| freelist := alter (cons pa) id (freelist m) |>.

(** kfree() on hart [id]. *)
Definition kfree (id : nat) (pa : Z) (m : kmem) : option kmem :=
  match ref_drop pa m with
  | None => None
  | Some (true, m) => Some (push_page id pa m)
  | Some (false, m) => Some m
  end.

(** The pages of the loop of freerange(). *)
Definition range_pages (pa_start pa_end : Z) : list Z :=
  let p := PGROUNDUP pa_start in
  (λ i, p + Z.of_nat i * PGSIZE) <$> seq 0 (Z.to_nat ((pa_end - p) / PGSIZE)).

Definition freerange_body (id : nat) (o : option kmem) (p : Z) : option kmem :=
  m ← o; kfree id p (set_cnt p 1 m).

Definition freerange (id : nat) (pa_start pa_end : Z) (m : kmem) : option kmem :=
  foldl (freerange_body id) (Some m) (range_pages pa_start pa_end).

Definition kinit (id : nat) : option kmem :=
  freerange id kend PHYSTOP (mk_kmem (replicate NCPU []) (λ _, 0)).

(** Taking the head of the list of one hart, under its lock. *)
Definition pop_page (id : nat) (m : kmem) : option Z * kmem :=
  match freelist m !!! id with
  | [] => (None, m)
  | r :: next => (Some r, set_cnt r 1 (m <| freelist := <[id := next]> (freelist m) |>))
  end.

Fixpoint steal (ids : list nat) (id : nat) (m : kmem) : option Z * kmem :=
  match ids with
  | [] => (None, m)
  | antid :: ids =>
      if (antid =? id)%nat then steal ids id m
      else match pop_page antid m with
           | (Some r, m) => (Some r, m)
           | (None, m) => steal ids id m
           end
  end.

Definition kalloc_try (id : nat) (m : kmem) : option Z * kmem :=
  match pop_page id m with
  | (Some r, m) => (Some r, m)
  | (None, m) => steal (seq 0 NCPU) id m
  end.

(** The loops over the lists add PGSIZE for each page. *)
Definition freebytes (m : kmem) : Z :=
  foldl (λ dst i, foldl (λ dst _, u64 (dst + PGSIZE)) dst (freelist m !!! i)) 0 (seq 0 8).

Definition kaddrefcnt (pa : Z) (m : kmem) : Z * kmem :=
  if bad_page pa then (-1, m) else (0, set_cnt pa (i32 (krefcnt pa m + 1)) m).

(** ** Runs on any number of harts

    [refs] are the references to pages that callers have (each kalloc() and each
    kaddrefcnt() makes one), [moving] the pages that a kfree() is about to put
    on a free list. *)
Record krun := mk_krun { kr : kmem; moving : list Z; refs : list Z }.

Inductive kstep : krun → krun → Prop :=
  | ks_alloc m mv rs id r m' :
      (id < NCPU)%nat → pop_page id m = (Some r, m') →
      kstep (mk_krun m mv rs) (mk_krun m' mv (r :: rs))
  | ks_share m mv rs pa m' :
      pa ∈ rs → occ pa rs < 2 ^ 31 - 1 → kaddrefcnt pa m = (0, m') →
      kstep (mk_krun m mv rs) (mk_krun m' mv (pa :: rs))
  | ks_drop m mv rs rs' pa m' :
      rs ≡ₚ pa :: rs' → ref_drop pa m = Some (false, m') →
      kstep (mk_krun m mv rs) (mk_krun m' mv rs')
  | ks_drop_last m mv rs rs' pa m' :
      rs ≡ₚ pa :: rs' → ref_drop pa m = Some (true, m') →
      kstep (mk_krun m mv rs) (mk_krun m' (pa :: mv) rs')
  | ks_push m mv mv' rs id pa :
      (id < NCPU)%nat → mv ≡ₚ pa :: mv' →
      kstep (mk_krun m mv rs) (mk_krun (push_page id pa m) mv' rs).

(** The pages of the allocator. *)
Definition managed (pa : Z) : Prop := pa `mod` PGSIZE = 0 ∧ kend ≤ pa < PHYSTOP.

(** Every page is free once, or counted by its references. *)
Record kinv (s : krun) : Prop := {
  ki_lists : length (freelist (kr s)) = NCPU;
  ki_nodup : NoDup (concat (freelist (kr s)) ++ moving s);
  ki_free pa : pa ∈ concat (freelist (kr s)) ++ moving s ↔ managed pa ∧ krefcnt pa (kr s) = 0;
  ki_count pa : managed pa → krefcnt pa (kr s) = occ pa (refs s);
  ki_refs pa : pa ∈ refs s → managed pa;
  ki_small pa : occ pa (refs s) < 2 ^ 31;
}.

(** ** Lists of lists *)

Lemma concat_alter_cons {A} (ls : list (list A)) id x :
  (id < length ls)%nat → concat (alter (cons x) id ls) ≡ₚ x :: concat ls.
Proof.
  revert id. induction ls as [|l ls IH]; intros [|id] Hid; simpl in *; try lia; [done|].
  rewrite (IH id) by lia. symmetry. apply Permutation_middle.
Qed.

Lemma concat_insert_tail {A} (ls : list (list A)) id x l :
  ls !! id = Some (x :: l) → concat ls ≡ₚ x :: concat (<[id := l]> ls).
Proof.
  revert id. induction ls as [|k ls IH]; intros [|id] Hid; simpl in *; try done.
  - by injection Hid as ->.
  - rewrite (IH id) by done. symmetry. apply Permutation_middle.
Qed.

(** ** The reference counts *)

Lemma bad_page_managed pa : bad_page pa = false ↔ managed pa.
Proof.
  unfold bad_page, managed.
  rewrite !orb_false_iff, negb_false_iff, Z.eqb_eq, Z.ltb_ge, Z.leb_gt. lia.
Qed.

Lemma managed_same_page pa pa' :
  managed pa → managed pa' → pa / PGSIZE = pa' / PGSIZE → pa = pa'.
Proof.
  intros [H1 _] [H2 _] Heq. rewrite (Z.div_mod pa PGSIZE), (Z.div_mod pa' PGSIZE) by done. lia.
Qed.

Lemma freelist_set_cnt pa v m : freelist (set_cnt pa v m) = freelist m.
Proof. done. Qed.

Lemma refcnt_set_eq pa v m : krefcnt pa (set_cnt pa v m) = v.
Proof. unfold krefcnt, set_cnt; simpl. by rewrite Z.eqb_refl. Qed.

Lemma refcnt_set_ne pa pa' v m :
  managed pa → managed pa' → pa ≠ pa' → krefcnt pa' (set_cnt pa v m) = krefcnt pa' m.
Proof.
  intros H1 H2 Hne. unfold krefcnt, set_cnt; simpl.
  rewrite (proj2 (Z.eqb_neq _ _)); [done|]. intros E. apply Hne. by apply managed_same_page.
Qed.

(** Setting the count of a page, as seen from the managed pages. *)
Lemma refcnt_set pa pa' v m :
  managed pa → managed pa' →
  krefcnt pa' (set_cnt pa v m) = if decide (pa = pa') then v else krefcnt pa' m.
Proof.
  intros H1 H2. case_decide as E; [subst; apply refcnt_set_eq|by apply refcnt_set_ne].
Qed.

Lemma pop_page_Some id m r m' :
  (id < length (freelist m))%nat → pop_page id m = (Some r, m') →
  concat (freelist m) ≡ₚ r :: concat (freelist m') ∧ length (freelist m') = length (freelist m) ∧
  m' = set_cnt r 1 (m <| freelist := freelist m' |>).
Proof.
  intros Hid. unfold pop_page. destruct (lookup_lt_is_Some_2 _ _ Hid) as [l Hl].
  rewrite (list_lookup_total_correct _ _ _ Hl). destruct l as [|x l]; [done|].
  intros [= <- <-]. simpl. rewrite length_insert. split_and!; [|done..].
  by apply concat_insert_tail.
Qed.

(** ** Preservation *)

Lemma kinv_alloc m mv rs id r m' :
  kinv (mk_krun m mv rs) → (id < NCPU)%nat → pop_page id m = (Some r, m') →
  managed r ∧ (r ∉ rs) ∧ kinv (mk_krun m' mv (r :: rs)).
Proof.
  intros [H1 H2 H3 H4 H5 H6] Hid Hp; simpl in *.
  destruct (pop_page_Some id m r m') as (Hperm & Hlen & Hm'); [by rewrite H1|done|].
  destruct (proj1 (H3 r)) as [Hr H0]; [rewrite Hperm; set_solver|].
  assert (r ∉ rs) as Hnr.
  { intros Hin%occ_elem. rewrite <-H4, H0 in Hin by done. lia. }
  split_and!; [done..|]. rewrite Hperm in H2. apply NoDup_cons in H2 as [Hn1 Hn2].
  assert (∀ pa, managed pa → krefcnt pa m' = if decide (r = pa) then 1 else krefcnt pa m) as Hc.
  { intros pa Hpa. rewrite Hm'. by rewrite refcnt_set. }
  constructor; simpl; try done.
  - by rewrite Hlen.
  - intros pa. destruct (decide (r = pa)) as [<-|Hne].
    + rewrite Hc, decide_True by done. split; [done|]. intros [_ ?]. done.
    + transitivity (pa ∈ concat (freelist m) ++ mv); [rewrite Hperm; set_solver|].
      rewrite H3. split; intros [Hpa Hz]; (split; [done|]).
      * by rewrite Hc, decide_False.
      * by rewrite Hc, decide_False in Hz.
  - intros pa Hpa. rewrite occ_cons, Hc by done. case_decide; [subst|by rewrite H4].
    by rewrite (occ_not_elem pa rs).
  - intros pa [->|Hin]%elem_of_cons; auto.
  - intros pa. rewrite occ_cons. case_decide; [subst; rewrite (occ_not_elem pa rs) by done; lia|].
    apply H6.
Qed.

Lemma kinv_share m mv rs pa m' :
  kinv (mk_krun m mv rs) → pa ∈ rs → occ pa rs < 2 ^ 31 - 1 → kaddrefcnt pa m = (0, m') →
  kinv (mk_krun m' mv (pa :: rs)).
Proof.
  intros [H1 H2 H3 H4 H5 H6] Hin Hs Hk; simpl in *. pose proof (H5 pa Hin) as Hpa.
  unfold kaddrefcnt in Hk. rewrite (proj2 (bad_page_managed pa) Hpa) in Hk. injection Hk as <-.
  pose proof (occ_elem _ _ Hin) as Hocc. pose proof (H4 pa Hpa) as Hcnt.
  rewrite Hcnt, i32_small by (unfold is_i32; lia). constructor; cbn [kr moving refs]; rewrite ?freelist_set_cnt; try done.
  - intros q. rewrite H3. split; intros [Hq Hz]; (split; [done|]); revert Hz;
      rewrite refcnt_set by done; case_decide; subst; lia.
  - intros q Hq. rewrite occ_cons, refcnt_set by done. case_decide; [subst; lia|by rewrite H4].
  - intros q [->|Hq]%elem_of_cons; auto.
  - intros q. rewrite occ_cons. case_decide; [subst; lia|apply H6].
Qed.

Lemma kinv_drop m mv rs rs' pa :
  kinv (mk_krun m mv rs) → rs ≡ₚ pa :: rs' →
  ∃ m', ref_drop pa m = Some (occ pa rs' =? 0, m') ∧
    kinv (mk_krun m' (if occ pa rs' =? 0 then pa :: mv else mv) rs').
Proof.
  intros [H1 H2 H3 H4 H5 H6] Hrs; simpl in *.
  assert (managed pa) as Hpa by (apply H5; rewrite Hrs; left).
  assert (occ pa rs = 1 + occ pa rs') as Ho.
  { rewrite (occ_perm pa _ _ Hrs), occ_cons, decide_True by done. done. }
  pose proof (occ_nonneg pa rs') as Hn. pose proof (H6 pa) as Hlt.
  assert (i32 (krefcnt pa m - 1) = occ pa rs') as Hc.
  { rewrite H4, Ho by done. rewrite i32_small; [lia|unfold is_i32; lia]. }
  unfold ref_drop. rewrite (proj2 (bad_page_managed pa) Hpa), Hc, refcnt_set_eq.
  eexists. split; [done|].
  assert (∀ q, managed q → krefcnt q (set_cnt pa (occ pa rs') m) = occ q rs') as Hq.
  { intros q Hq. rewrite refcnt_set by done. case_decide as E; [by subst|].
    rewrite H4 by done. rewrite (occ_perm q _ _ Hrs), occ_cons, decide_False by done. done. }
  constructor; cbn [kr moving refs]; rewrite ?freelist_set_cnt; try done.
  - case_match eqn:E; [|done]. apply Z.eqb_eq in E. rewrite <-Permutation_middle.
    constructor; [|done]. rewrite H3. intros [_ Hz]. rewrite H4 in Hz by done. lia.
  - intros q. destruct (decide (q = pa)) as [->|Hne].
    + rewrite refcnt_set_eq. assert (pa ∉ concat (freelist m) ++ mv) as Hno.
      { rewrite H3. intros [_ Hz]. rewrite H4 in Hz by done. lia. }
      case_match eqn:E; [apply Z.eqb_eq in E|apply Z.eqb_neq in E]; [|tauto].
      split; [done|]. set_solver.
    + transitivity (q ∈ concat (freelist m) ++ mv); [case_match; set_solver|].
      rewrite H3. split; intros [Hm Hz]; (split; [done|]); revert Hz;
        rewrite refcnt_set by done; rewrite decide_False by done; done.
  - intros q Hin. apply H5. rewrite Hrs. by right.
  - intros q. pose proof (H6 q) as Hlq. rewrite (occ_perm q _ _ Hrs), occ_cons in Hlq.
    case_decide; lia.
Qed.

Lemma kinv_push m mv mv' rs id pa :
  kinv (mk_krun m mv rs) → (id < NCPU)%nat → mv ≡ₚ pa :: mv' →
  kinv (mk_krun (push_page id pa m) mv' rs).
Proof.
  intros [H1 H2 H3 H4 H5 H6] Hid Hmv; simpl in *.
  assert (concat (alter (cons pa) id (freelist m)) ++ mv' ≡ₚ concat (freelist m) ++ mv) as Hp.
  { rewrite concat_alter_cons by (by rewrite H1). rewrite Hmv. simpl. apply Permutation_middle. }
  constructor; simpl; try done.
  - by rewrite length_alter.
  - by rewrite Hp.
  - intros q. rewrite Hp. apply H3.
Qed.

Lemma kinv_step s s' : kinv s → kstep s s' → kinv s'.
Proof.
  intros Hinv Hst. destruct Hst as [m mv rs id r m' Hid Hp|m mv rs pa m' Hin Hs Hk|
    m mv rs rs' pa m' Hrs Hd|m mv rs rs' pa m' Hrs Hd|m mv mv' rs id pa Hid Hmv].
  - by eapply kinv_alloc.
  - by eapply kinv_share.
  - destruct (kinv_drop _ _ _ _ _ Hinv Hrs) as (m2 & Hd2 & Hi). rewrite Hd in Hd2.
    injection Hd2 as Hz ->. by rewrite <-Hz in Hi.
  - destruct (kinv_drop _ _ _ _ _ Hinv Hrs) as (m2 & Hd2 & Hi). rewrite Hd in Hd2.
    injection Hd2 as Hz ->. by rewrite <-Hz in Hi.
  - by eapply kinv_push.
Qed.

Lemma kinv_run s s' : kinv s → rtc kstep s s' → kinv s'.
Proof. induction 2; eauto using kinv_step. Qed.

(** ** Boot *)

Lemma freerange_loop id ps m :
  (id < length (freelist m))%nat → (∀ n, cnt m n = 0) → (∀ p, p ∈ ps → managed p) →
  ∃ m', foldl (freerange_body id) (Some m) ps = Some m' ∧ (∀ n, cnt m' n = 0) ∧
    concat (freelist m') ≡ₚ ps ++ concat (freelist m) ∧ length (freelist m') = length (freelist m).
Proof.
  revert m. induction ps as [|p ps IH]; intros m Hid H0 Hps; [by exists m|].
  assert (bad_page p = false) as Hb by (apply bad_page_managed, Hps; left).
  simpl. unfold kfree, ref_drop. rewrite Hb, !refcnt_set_eq. simpl.
  set (m1 := push_page id p _).
  destruct (IH m1) as (m' & Hm' & Hz & Hp & Hl).
  - simpl. by rewrite length_alter.
  - intros n. simpl. repeat case_match; done.
  - intros q Hq. apply Hps. by right.
  - exists m'. split_and!; [done..| |].
    + rewrite Hp. simpl. rewrite concat_alter_cons by done. symmetry. apply Permutation_middle.
    + rewrite Hl. simpl. by rewrite length_alter.
Qed.

Context (Hkend : 0 < kend ≤ PHYSTOP).

Lemma range_pages_managed pa : pa ∈ range_pages kend PHYSTOP ↔ managed pa.
Proof using Hkend.
  unfold range_pages, managed. cbv zeta.
  rewrite PGROUNDUP_div by (unfold PHYSTOP, KERNBASE in Hkend; lia).
  assert (PHYSTOP = 557056 * PGSIZE) as Hst by done.
  set (q := (kend + PGSIZE - 1) / PGSIZE).
  assert (kend ≤ q * PGSIZE < kend + PGSIZE) as Hq.
  { unfold q. pose proof (Z.div_mod (kend + PGSIZE - 1) PGSIZE ltac:(done)).
    pose proof (Z.mod_pos_bound (kend + PGSIZE - 1) PGSIZE ltac:(done)). lia. }
  assert ((PHYSTOP - q * PGSIZE) / PGSIZE = 557056 - q) as Hn.
  { rewrite Hst, <-Z.mul_sub_distr_r, Z.div_mul by done. done. }
  rewrite Hn, list_elem_of_fmap. setoid_rewrite elem_of_seq. split.
  - intros (i & -> & Hi). split; [|unfold PGSIZE in *; lia].
    rewrite <-Z.mul_add_distr_r. apply Z.mod_mul. done.
  - intros [Hm Hr]. apply Z.mod_divide in Hm as [k ->]; [|done].
    exists (Z.to_nat (k - q)). unfold PGSIZE in *. lia.
Qed.

Lemma range_pages_nodup : NoDup (range_pages kend PHYSTOP).
Proof.
  unfold range_pages. apply NoDup_fmap_2; [|apply NoDup_seq].
  intros i j Hij. unfold PGSIZE in Hij. lia.
Qed.

Lemma kinit_inv id :
  (id < NCPU)%nat → ∃ m, kinit id = Some m ∧ kinv (mk_krun m [] []).
Proof using Hkend.
  intros Hid. unfold kinit, freerange.
  destruct (freerange_loop id (range_pages kend PHYSTOP)
    (mk_kmem (replicate NCPU []) (λ _, 0))) as (m & Hm & Hz & Hp & Hl).
  - done.
  - done.
  - intros p. by rewrite range_pages_managed.
  - exists m. split; [exact Hm|]. simpl in Hp. rewrite app_nil_r in Hp.
    constructor; cbn [kr moving refs]; rewrite ?app_nil_r.
    + done.
    + rewrite Hp. apply range_pages_nodup.
    + intros pa. rewrite Hp, range_pages_managed. unfold krefcnt. rewrite Hz. tauto.
    + intros pa _. unfold krefcnt. by rewrite Hz.
    + intros pa. set_solver.
    + done.
Qed.

End kalloc.

(** ** kalloc_try() and freebytes() *)

Lemma pop_page_None id m :
  (pop_page id m).1 = None ↔ freelist m !!! id = [].
Proof. unfold pop_page. by destruct (freelist m !!! id). Qed.

Lemma pop_page_empty id m : freelist m !!! id = [] → pop_page id m = (None, m).
Proof. unfold pop_page. by intros ->. Qed.

Lemma steal_cases ids id m :
  (∃ a, a ∈ ids ∧ is_Some (pop_page a m).1 ∧ steal ids id m = pop_page a m) ∨
  steal ids id m = (None, m) ∧ ∀ a, a ∈ ids → a ≠ id → freelist m !!! a = [].
Proof.
  induction ids as [|a ids IH]; simpl; [right; split; [done|set_solver]|].
  destruct (Nat.eqb_spec a id) as [->|Hne].
  - destruct IH as [(b & Hb & Hs & ->)|[-> H]]; [left; exists b; set_solver|right; set_solver].
  - destruct (pop_page a m) as [[r|] m1] eqn:Hp.
    + left. exists a. rewrite Hp. split; [left|done].
    + pose proof (proj1 (pop_page_None a m)) as He. rewrite Hp in He. specialize (He eq_refl).
      rewrite (pop_page_empty _ _ He) in Hp. injection Hp as <-.
      destruct IH as [(b & Hb & Hs & ->)|[-> H]]; [left; exists b; set_solver|right; set_solver].
Qed.

Lemma freebytes_sum m :
  length (freelist m) = NCPU → PGSIZE * Z.of_nat (length (concat (freelist m))) < 2 ^ 64 →
  freebytes m = PGSIZE * Z.of_nat (length (concat (freelist m))).
Proof.
  intros Hl Hb. unfold freebytes.
  assert (∀ (l : list Z) d, 0 ≤ d → d + PGSIZE * Z.of_nat (length l) < 2 ^ 64 →
    foldl (λ dst _, u64 (dst + PGSIZE)) d l = d + PGSIZE * Z.of_nat (length l)) as Hin.
  { induction l as [|x l IH]; intros d Hd Hlt; simpl; [lia|]. simpl length in Hlt.
    rewrite u64_small by (unfold PGSIZE in *; lia).
    rewrite IH; unfold PGSIZE in *; lia. }
  assert (∀ ls d, 0 ≤ d → d + PGSIZE * Z.of_nat (length (concat ls)) < 2 ^ 64 →
    foldl (foldl (λ dst (_ : Z), u64 (dst + PGSIZE))) d ls =
      d + PGSIZE * Z.of_nat (length (concat ls))) as Hout.
  { induction ls as [|l ls IH]; intros d Hd Hlt; [simpl; lia|]. simpl in *. rewrite length_app in *.
    rewrite Hin, IH; unfold PGSIZE in *; lia. }
  rewrite <-(Z.add_0_l (PGSIZE * _)), <-Hout by lia. clear Hb Hin Hout.
  destruct m as [[|l0 [|l1 [|l2 [|l3 [|l4 [|l5 [|l6 [|l7 [|]]]]]]]]] c]; done.
Qed.
Lemma concat_all_nil {A} (ls : list (list A)) :
  (∀ j, (j < length ls)%nat → ls !!! j = []) → concat ls = [].
Proof.
  induction ls as [|l ls IH]; intros Hj; [done|]. simpl.
  rewrite (Hj 0%nat ltac:(simpl; lia) : l = []). simpl. apply IH. intros j Hlt. apply (Hj (S j)). simpl. lia.
Qed.

(** kalloc_try() takes the head of some list, or all lists are empty. *)
Lemma kalloc_try_Some id m r m' :
  (id < NCPU)%nat → kalloc_try id m = (Some r, m') →
  ∃ j, (j < NCPU)%nat ∧ pop_page j m = (Some r, m').
Proof.
  intros Hid. unfold kalloc_try. destruct (pop_page id m) as [[r0|] m1] eqn:Hp.
  { intros [= -> ->]. by exists id. }
  assert (freelist m !!! id = []) as He by (by apply pop_page_None; rewrite Hp).
  rewrite (pop_page_empty _ _ He) in Hp. injection Hp as <-.
  destruct (steal_cases (seq 0 NCPU) id m) as [(a & Ha & _ & ->)|[-> _]]; [|done].
  apply elem_of_seq in Ha. intros Hp. exists a. split; [lia|done].
Qed.

Lemma kalloc_try_None id m m' :
  length (freelist m) = NCPU → kalloc_try id m = (None, m') → m' = m ∧ concat (freelist m) = [].
Proof.
  intros Hl. unfold kalloc_try. destruct (pop_page id m) as [[r0|] m1] eqn:Hp; [done|].
  assert (freelist m !!! id = []) as He by (by apply pop_page_None; rewrite Hp).
  rewrite (pop_page_empty _ _ He) in Hp. injection Hp as <-.
  destruct (steal_cases (seq 0 NCPU) id m) as [(a & _ & [r Hs] & ->)|[-> Hall]].
  - intros Hp. by rewrite Hp in Hs.
  - intros [= <-]. split; [done|]. apply concat_all_nil. intros j Hj.
    destruct (decide (j = id)) as [->|Hne]; [done|]. apply Hall; [apply elem_of_seq; lia|done].
Qed.

(** The free pages fit below PHYSTOP. *)
Lemma free_bound kend m mv rs :
  0 < kend ≤ PHYSTOP → kinv kend (mk_krun m mv rs) →
  PGSIZE * Z.of_nat (length (concat (freelist m))) ≤ PHYSTOP.
Proof.
  intros Hk Hinv. pose proof (ki_nodup _ _ Hinv) as Hnd. simpl in Hnd.
  apply NoDup_app in Hnd as (Hnd & _ & _).
  assert (length (concat (freelist m)) ≤ length (range_pages kend PHYSTOP))%nat as Hle.
  { apply submseteq_length, NoDup_submseteq; [done|]. intros pa Hpa.
    apply (range_pages_managed kend Hk). eapply (ki_free _ _ Hinv). simpl. set_solver. }
  unfold range_pages in Hle. rewrite length_fmap, length_seq in Hle.
  pose proof (PGROUNDUP_div kend) as Hup.
  rewrite Hup in Hle by (unfold PHYSTOP, KERNBASE in Hk; lia).
  set (q := (kend + PGSIZE - 1) / PGSIZE) in *.
  assert (0 ≤ q) by (apply Z.div_pos; unfold PGSIZE in *; lia).
  pose proof (Z.mul_div_le (PHYSTOP - q * PGSIZE) PGSIZE ltac:(done)).
  pose proof (Z2Nat.id ((PHYSTOP - q * PGSIZE) / PGSIZE)).
  unfold PGSIZE, PHYSTOP, KERNBASE in *. lia.
Qed.

(** ** Theorems *)

(** C14: physical pages. On any number of harts, under any interleaving of
    kalloc(), kaddrefcnt() and kfree() (whose two critical sections other harts
    may come between) after kinit(): the count of a page is the number of
    references to it; a page is free, once, exactly when nobody refers to it,
    so that no page is lost or handed out twice; kalloc() gives out aligned
    pages of the managed range that nobody refers to; and giving back a
    reference never panics. *)
Theorem kalloc_exclusive kend id m0 m mv rs :
  0 < kend ≤ PHYSTOP → (id < NCPU)%nat → kinit kend id = Some m0 →
  rtc (kstep kend) (mk_krun m0 [] []) (mk_krun m mv rs) →
  (∀ pa, managed kend pa →
     krefcnt pa m = occ pa rs ∧
     occ pa (concat (freelist m) ++ mv) = if decide (pa ∈ rs) then 0 else 1) ∧
  (∀ j r m', (j < NCPU)%nat → pop_page j m = (Some r, m') →
     managed kend r ∧ (r ∉ rs) ∧ krefcnt r m' = 1) ∧
  (∀ pa, pa ∈ rs → ref_drop kend pa m ≠ None).
Proof.
  intros Hk Hid Hm0 Hrun. destruct (kinit_inv kend Hk id Hid) as (m1 & Hm1 & Hi0).
  rewrite Hm0 in Hm1. injection Hm1 as <-.
  pose proof (kinv_run kend _ _ Hi0 Hrun) as Hinv. split_and!.
  - intros pa Hpa. pose proof (ki_count _ _ Hinv pa Hpa) as Hc. split; [done|]. simpl in Hc.
    case_decide as Hin.
    + apply occ_not_elem. intros [_ Hz]%(ki_free _ _ Hinv). simpl in Hz.
      pose proof (occ_elem _ _ Hin). lia.
    + apply occ_nodup; [apply (ki_nodup _ _ Hinv)|]. apply (ki_free _ _ Hinv). simpl.
      by rewrite Hc, occ_not_elem.
  - intros j r m' Hj Hp. destruct (kinv_alloc _ _ _ _ _ _ _ Hinv Hj Hp) as (H1 & H2 & H3).
    split_and!; [done..|]. rewrite (ki_count _ _ H3 r H1 : krefcnt r m' = occ r (r :: rs)).
    by rewrite occ_cons, decide_True, occ_not_elem.
  - intros pa Hin. unfold ref_drop.
    by rewrite (proj2 (bad_page_managed kend pa) (ki_refs _ _ Hinv pa Hin)).
Qed.

(** C40: kalloc_try() fails only when memory is exhausted. When no other hart
    interferes it returns no page exactly when all free lists are empty, that
    is when freebytes() is 0; otherwise it returns a free page, aligned and between
    end and PHYSTOP, that nobody has a reference to. The page leaves its list and
    gets reference count 1, no other count changes, and freebytes(), which reports
    PGSIZE bytes for every page on a list without overflow, falls by PGSIZE. *)
Theorem kalloc_try_complete kend m mv rs id :
  kinv kend (mk_krun m mv rs) → 0 < kend ≤ PHYSTOP → (id < NCPU)%nat →
  let bytes := PGSIZE * Z.of_nat (length (concat (freelist m))) in
  freebytes m = bytes ∧ bytes ≤ PHYSTOP ∧
  match kalloc_try id m with
  | (Some r, m') => concat (freelist m) ≡ₚ r :: concat (freelist m') ∧ managed kend r ∧ r ∉ rs ∧
      krefcnt r m' = 1 ∧ (∀ pa, managed kend pa → pa ≠ r → krefcnt pa m' = krefcnt pa m) ∧
      freebytes m' = freebytes m - PGSIZE
  | (None, m') => m' = m ∧ concat (freelist m) = [] ∧ freebytes m = 0
  end.
Proof.
  intros Hinv Hk Hid. cbv zeta.
  assert (PGSIZE * Z.of_nat (length (concat (freelist m))) ≤ PHYSTOP) as Hb.
  { eapply free_bound; eassumption. }
  pose proof (ki_lists _ _ Hinv) as Hl. simpl in Hl.
  assert (∀ m1, length (freelist m1) = NCPU →
    PGSIZE * Z.of_nat (length (concat (freelist m1))) ≤ PHYSTOP →
    freebytes m1 = PGSIZE * Z.of_nat (length (concat (freelist m1)))) as Hfb.
  { intros m1 H1 H2. apply freebytes_sum; [done|]. unfold PHYSTOP, KERNBASE in H2. lia. }
  rewrite (Hfb m Hl Hb). split; [done|]. split; [done|].
  destruct (kalloc_try id m) as [[r|] m'] eqn:Ht.
  - destruct (kalloc_try_Some id m r m' Hid Ht) as (j & Hj & Hp).
    destruct (kinv_alloc _ _ _ _ _ _ _ Hinv Hj Hp) as (Hr & Hnr & Hinv').
    destruct (pop_page_Some j m r m') as (Hperm & Hlen & Hm'); [by rewrite Hl|done|].
    split_and!; [done..| | |].
    + rewrite Hm'. apply refcnt_set_eq.
    + intros pa Hpa Hne. rewrite Hm', (refcnt_set_ne kend); [done..|congruence].
    + pose proof (ki_lists _ _ Hinv') as Hl'. simpl in Hl'.
      pose proof (free_bound _ _ _ _ Hk Hinv') as Hb'. rewrite (Hfb m' Hl' Hb').
      rewrite Hperm. simpl length. lia.
  - destruct (kalloc_try_None id m m') as [-> Hnil]; [by rewrite Hl|done|].
    split_and!; [done..|]. by rewrite Hnil.
Qed.

(** *** Two pages of memory *)

Definition demo_kend : Z := PHYSTOP - 2 * PGSIZE.
Definition demo_m0 : kmem := default (mk_kmem [] (λ _, 0)) (kinit demo_kend 0).
Definition demo_m1 : kmem := (pop_page 0 demo_m0).2.
Definition demo_page : Z := PHYSTOP - PGSIZE.

Lemma demo_kend_ok : 0 < demo_kend ≤ PHYSTOP.
Proof. by vm_compute. Qed.

Lemma demo_kinit : kinit demo_kend 0 = Some demo_m0.
Proof. by vm_compute. Qed.

Lemma demo_cpu : (0 < NCPU)%nat.
Proof. unfold NCPU. lia. Qed.

Lemma demo_krun :
  rtc (kstep demo_kend) (mk_krun demo_m0 [] []) (mk_krun demo_m1 [] [demo_page]).
Proof.
  apply rtc_once, (ks_alloc _ _ _ _ 0%nat); [apply demo_cpu|]. by vm_compute.
Qed.

Lemma kalloc_exclusive_witness : krefcnt demo_page demo_m1 = 1.
Proof.
  refine (proj1 (proj1 (kalloc_exclusive demo_kend 0 demo_m0 demo_m1 [] [demo_page] demo_kend_ok
    demo_cpu demo_kinit demo_krun) demo_page _)). by vm_compute.
Defined.

Lemma demo_m0_inv : kinv demo_kend (mk_krun demo_m0 [] []).
Proof.
  destruct (kinit_inv demo_kend demo_kend_ok 0 demo_cpu) as (m & Hm & Hi).
  rewrite demo_kinit in Hm. by injection Hm as <-.
Qed.

Lemma kalloc_try_complete_witness :
  (kalloc_try 0 demo_m0).1 = Some demo_page ∧
  krefcnt demo_page (kalloc_try 0 demo_m0).2 = 1 ∧ freebytes (kalloc_try 0 demo_m0).2 = 4096.
Proof.
  assert ((kalloc_try 0 demo_m0).1 = Some demo_page) as E by (vm_compute; reflexivity).
  split; [exact E|].
  destruct (kalloc_try_complete demo_kend demo_m0 [] [] 0 demo_m0_inv demo_kend_ok demo_cpu)
    as (Hf & _ & H).
  destruct (kalloc_try 0 demo_m0) as [r m']. cbn [fst snd] in *. subst r.
  destruct H as (_ & _ & _ & Hc & _ & Hb). split; [exact Hc|]. rewrite Hb, Hf. reflexivity.
Defined.
