(* ===== verification/Life.v ===== *)
(** * The life of a process (src/kernel/proc/proc.c)

    allocproc, fork, clone, exit, wait, waitpid and join over the process table.
    What they do to page tables, files and the message queues of other files is
    left out; whether kalloc(), proc_pagetable(), uvmcopy(), uvmshare(),
    walkaddr() and copyout() succeed is an argument. A function that can sleep
    is cut there: its loop body either returns or ends in [sleep_enter]. *)

From S2P Require Import Prelude KState ProcSync RtSched Banker MidSched Monitor Dmsg.

Section with_sched.
Context (mode : sched_conf).

(** ** Entries of the table *)

Definition allocpid (k : kernel) : Z * kernel :=
  (nextpid k, k <| nextpid := i32 (nextpid k + 1) |>).

(** The fields that allocproc() sets before it allocates memory. *)
Definition embryo (pid0 : Z) (p : proc) : proc :=
  (rt_reset_locked
    (p <| pid := pid0 |> <| tgid := 0 |> <| tgroup_ref := 0 |> <| pthread := None |>
       <| ustack := 0 |> <| mqmask := 0 |> <| dmsg_head := 0 |> <| dmsg_tail := 0 |>
       <| dmsg_count := 0 |> <| dmsg_bytes := 0 |> <| dmsg_closed := false |>
       <| bkr_active := false |>
       <| bkr_max := replicate BANKER_RES_MAX 0 |> <| bkr_alloc := replicate BANKER_RES_MAX 0 |>
       <| priority := 10 |> <| cpu_time := 0 |> <| wait_time := 0 |> <| dyn_priority := 10 |>
       <| pi_boost := 0 |> <| mlfq_level := 0 |> <| mlfq_ticks := 0 |>))
    <| midsched_suspending := false |> <| trace_mask := 0 |> <| swap_hand := 0 |>
    <| shm := KERNBASE |> <| shmkeymask := 0 |>.

Definition alarm_clear (p : proc) : proc :=
  p <| alarm_interval := 0 |> <| alarm_handler := 0 |> <| alarm_ticks := 0 |>
    <| alarm_goingoff := false |>.

(** What freeproc() does to the entry itself. *)
Definition clear_proc (p : proc) : proc :=
  (rt_reset_locked
    (alarm_clear
      (p <| sz := 0 |> <| pid := 0 |> <| tgid := 0 |> <| tgroup_ref := 0 |>
         <| parent := None |> <| pthread := None |> <| ustack := 0 |> <| p_chan := None |>
         <| killed := false |> <| xstate := 0 |>)
      <| mlfq_level := 0 |> <| mlfq_ticks := 0 |> <| pi_boost := 0 |>))
    <| state := UNUSED |> <| shm := KERNBASE |> <| shmkeymask := 0 |>.

Definition freeproc (i : nat) (k : kernel) : kernel :=
  upd_proc i clear_proc (banker_release_proc i k).

(** What freethread() does to the entry itself. *)
Definition clear_thread (p : proc) : proc :=
  (rt_reset_locked
    (alarm_clear
      (p <| sz := 0 |> <| pid := 0 |> <| parent := None |> <| pthread := None |>
         <| tgid := 0 |> <| tgroup_ref := 0 |> <| p_chan := None |> <| killed := false |>
         <| xstate := 0 |> <| trace_mask := 0 |> <| ustack := 0 |> <| mqmask := 0 |>
         <| shm := KERNBASE |> <| shmkeymask := 0 |> <| dmsg_head := 0 |> <| dmsg_tail := 0 |>
         <| dmsg_count := 0 |> <| dmsg_bytes := 0 |> <| dmsg_closed := false |>)))
    <| state := UNUSED |>.

Definition ref_dec (p : proc) : proc :=
  if 0 <? tgroup_ref p then p <| tgroup_ref := tgroup_ref p - 1 |> else p.

Definition freethread (i leader : nat) (k : kernel) : kernel :=
  upd_proc leader ref_dec (upd_proc i clear_thread k).

Definition unused (p : proc) : bool := bool_decide (state p = UNUSED).

(** allocproc(): the new entry, still UNUSED; the arguments tell whether the two
    trapframe pages and the page table could be allocated. *)
Definition allocproc (tf alarm pt : bool) (k : kernel) : option nat * kernel :=
  match find_index unused (procs k) with
  | None => (None, k)
  | Some i =>
      let '(pid0, k) := allocpid k in
      let k := upd_proc i (embryo pid0) k in
      if negb tf then (None, k)
      else if negb alarm then (None, k)
      else let k := upd_proc i alarm_clear k in
           if negb pt then (None, freeproc i k) else (Some i, k)
  end.

Definition userinit (k : kernel) : kernel :=
  match allocproc true true true k with
  | (None, k) => k
  | (Some i, k) =>
      upd_proc i (λ p, p <| sz := PGSIZE |> <| tgid := pid p |> <| tgroup_ref := 1 |>
                         <| state := RUNNABLE |>)
        (k <| initproc := Some i |>)
  end.

(** ** Creation *)

Definition fork_child (cur : nat) (p np : proc) : proc :=
  np <| shm := shm p |> <| shmkeymask := shmkeymask p |> <| mqmask := mqmask p |>
     <| sz := sz p |> <| tgid := pid np |> <| tgroup_ref := 1 |> <| pthread := None |>
     <| ustack := 0 |> <| parent := Some cur |> <| state := RUNNABLE |>
     <| trace_mask := trace_mask p |>.

Definition fork (cur : nat) (tf alarm pt copy : bool) (k : kernel) : Z * kernel :=
  match allocproc tf alarm pt k with
  | (None, k) => (-1, k)
  | (Some np, k) =>
      if negb copy then (-1, freeproc np k)
      else (pid (get_proc k np), upd_proc np (fork_child cur (get_proc k cur)) k)
  end.

Definition tgroup_leader (i : nat) (k : kernel) : nat := default i (pthread (get_proc k i)).

Definition clone_child (l : nat) (leader : proc) (stack now : Z) (np : proc) : proc :=
  let np := np <| sz := sz leader |> <| tgid := pid leader |> <| pthread := Some l |>
               <| ustack := stack |> <| parent := None |> <| trace_mask := trace_mask leader |>
               <| mlfq_level := mlfq_level leader |> <| mlfq_ticks := 0 |> in
  let np := if is_rt leader
            then rt_setup_locked np (rt_period leader) (rt_runtime leader) (rt_deadline leader) now
            else rt_reset_locked np in
  np <| shm := shm leader |> <| shmkeymask := shmkeymask leader |>.

Definition bad_stack (stack : Z) : bool :=
  negb (stack `mod` PGSIZE =? 0) || (stack <? PGSIZE) || (MAXVA - PGSIZE <=? stack).

Definition clone (cur : nat) (tf alarm pt : bool) (stack : Z) (mapped share : bool) (k : kernel)
    : Z * kernel :=
  let l := tgroup_leader cur k in
  match allocproc tf alarm pt k with
  | (None, k) => (-1, k)
  | (Some np, k) =>
      if bad_stack stack then (-1, freeproc np k)
      else if negb mapped then (-1, freeproc np k)
      else
        let k := upd_proc np (clone_child l (get_proc k l) stack (ticks k)) k in
        if negb share then (-1, freeproc np k)
        else
          let k := upd_proc l (λ p, p <| tgroup_ref := tgroup_ref p + 1 |>) k in
          (pid (get_proc k np), upd_proc np (λ p, p <| state := RUNNABLE |>) k)
  end.

(** ** Exit *)

Definition child_of (i : nat) (p : proc) : bool := bool_decide (parent p = Some i).

Definition thread_of (l : nat) (p : proc) : bool := bool_decide (pthread p = Some l).

Definition zombie (p : proc) : bool := bool_decide (state p = ZOMBIE).

Definition reparent (i : nat) (k : kernel) : kernel :=
  k <| procs := (λ pp, if child_of i pp then pp <| parent := initproc k |> else pp) <$> procs k |>.

(** The body of the inner loop of tgroup_kill_and_reap(). *)
Definition reap_body (leader : nat) (st : bool * kernel) (i : nat) : bool * kernel :=
  let '(found, k) := st in
  let p := get_proc k i in
  if thread_of leader p then
    if zombie p then (true, freethread i leader k)
    else (true, upd_proc i (λ p, (if bool_decide (state p = SLEEPING)
                                  then p <| state := RUNNABLE |> else p) <| killed := true |>) k)
  else (found, k).

(** One turn of its outer loop: the flag tells whether it is done. *)
Definition tgroup_kill_and_reap (leader : nat) (k : kernel) : bool * kernel :=
  let '(found, k) := foldl (reap_body leader) (false, k) (seq 0 NPROC) in
  if negb found || (tgroup_ref (get_proc k leader) <=? 1) then (true, k)
  else (false, sleep_enter leader (ChProc leader) k).

(** exit() from the closing of the message queue to the monitors. *)
Definition exit_close (cur : nat) (k : kernel) : kernel :=
  monitor_release_on_exit mode cur (dmsg_close mode cur k).

(** acquire(&initproc->lock); wakeup1(initproc); *)
Definition exit_wake_init (k : kernel) : kernel :=
  match initproc k with Some i => wakeup1 mode i k | None => k end.

(** The pointer that exit() reads under p->lock; [None] is the null pointer. *)
Definition original_parent (p : proc) : option nat :=
  if bool_decide (parent p = None) && negb (bool_decide (pthread p = None))
  then pthread p else parent p.

(** With the locks of both held, up to sched(). *)
Definition exit_finish (cur op : nat) (status : Z) (k : kernel) : kernel :=
  upd_proc cur (λ p, p <| xstate := status |> <| state := ZOMBIE |>)
    (wakeup1 mode op (reparent cur k)).

(** ** Waiting for children *)

(** A return value with the status copied out, or sleeping. *)
Inductive wait_outcome := WRet (r : Z) (status : option Z) | WSlept.

Definition wanted (cur : nat) (pid0 : Z) (np : proc) : bool :=
  child_of cur np && ((pid0 <? 0) || (pid np =? pid0)).

(** One turn of the loop of waitpid(). *)
Definition waitpid (cur : nat) (pid0 : Z) (addr copyout_ok nohang : bool) (k : kernel)
    : wait_outcome * kernel :=
  match find_index (λ np, wanted cur pid0 np && zombie np) (procs k) with
  | Some i =>
      let np := get_proc k i in
      let k := upd_proc cur (λ p, p <| mqmask := 0 |>) k in
      if addr && negb copyout_ok then (WRet (-1) None, k)
      else (WRet (pid np) (if addr then Some (xstate np) else None), freeproc i k)
  | None =>
      if negb (existsb (wanted cur pid0) (procs k)) || killed (get_proc k cur)
      then (WRet (-1) None, k)
      else if nohang then (WRet 0 None, k)
      else (WSlept, sleep_enter cur (ChProc cur) k)
  end.

(** One turn of the loop of wait(). *)
Definition wait (cur : nat) (addr copyout_ok : bool) (k : kernel) : wait_outcome * kernel :=
  match find_index (λ np, child_of cur np && zombie np) (procs k) with
  | Some i =>
      let np := get_proc k i in
      let k := upd_proc cur (λ p, p <| mqmask := 0 |>) k in
      if addr && negb copyout_ok then (WRet (-1) None, k)
      else (WRet (pid np) (if addr then Some (xstate np) else None), freeproc i k)
  | None =>
      if negb (existsb (child_of cur) (procs k)) || killed (get_proc k cur)
      then (WRet (-1) None, k)
      else (WSlept, sleep_enter cur (ChProc cur) k)
  end.

(** One turn of the loop of join(); the status is the stack address. *)
Definition join (cur : nat) (copyout_ok : bool) (k : kernel) : wait_outcome * kernel :=
  match find_index (λ p, thread_of cur p && zombie p) (procs k) with
  | Some i =>
      let p := get_proc k i in
      if negb copyout_ok then (WRet (-1) None, k)
      else (WRet (pid p) (Some (ustack p)), freethread i cur k)
  | None =>
      if negb (existsb (thread_of cur) (procs k)) || killed (get_proc k cur)
      then (WRet (-1) None, k)
      else (WSlept, sleep_enter cur (ChProc cur) k)
  end.
End with_sched.

(** ** Runs *)

Definition live (p : proc) : Prop := state p ≠ UNUSED ∧ state p ≠ ZOMBIE.

(** What a process sleeps in when it sleeps on its own address; [InPutBack] when
    midsched_suspend_one() put it back to SLEEPING after it was woken. *)
Inductive call := InNone | InWait (pid0 : Z) | InJoin | InReap | InPutBack.

(** Steps that create no process and end none. *)
Record still (k k' : kernel) : Prop := {
  s_len : length (procs k') = length (procs k);
  s_init : initproc k' = initproc k;
  s_next : nextpid k' = nextpid k;
  s_pid i : pid (get_proc k' i) = pid (get_proc k i);
  s_parent i : parent (get_proc k' i) = parent (get_proc k i);
  s_pthread i : pthread (get_proc k' i) = pthread (get_proc k i);
  s_unused i : state (get_proc k' i) = UNUSED ↔ state (get_proc k i) = UNUSED;
  s_zombie i : state (get_proc k' i) = ZOMBIE ↔ state (get_proc k i) = ZOMBIE;
}.

(** Steps of the rest of the kernel: they also send no process to sleep on its
    own address. midsched_suspend_one() can do that; its second half is the step
    [ls_suspend_end] below. *)
Record quiet (k k' : kernel) : Prop := {
  q_len : length (procs k') = length (procs k);
  q_init : initproc k' = initproc k;
  q_next : nextpid k' = nextpid k;
  q_pid i : pid (get_proc k' i) = pid (get_proc k i);
  q_parent i : parent (get_proc k' i) = parent (get_proc k i);
  q_pthread i : pthread (get_proc k' i) = pthread (get_proc k i);
  q_unused i : state (get_proc k' i) = UNUSED ↔ state (get_proc k i) = UNUSED;
  q_zombie i : state (get_proc k' i) = ZOMBIE ↔ state (get_proc k i) = ZOMBIE;
  q_waits i : waiting_on (ChProc i) (get_proc k' i) = true →
              waiting_on (ChProc i) (get_proc k i) = true;
}.

(** [leaving] holds, for the processes in exit() past the read of p->parent,
    what they read; [inside] what a process called last of wait(), join() and
    the loop of exit(). *)
Record lrun := mk_lrun { lk : kernel; leaving : list (nat * nat); inside : nat → call }.

Definition enter_call (i : nat) (c : call) (f : nat → call) : nat → call :=
  λ j, if (j =? i)%nat then c else f j.

Definition runs (k : kernel) (i : nat) : Prop := state (get_proc k i) = RUNNING.

(** swapout_proc() swapped nothing and the victim, asleep when it was suspended,
    has been woken since: midsched_suspend_one() makes it SLEEPING again. *)
Definition puts_back (i : nat) (prev : procstate) (swapped : Z) (k : kernel) : bool :=
  (swapped <=? 0) && bool_decide (prev = SLEEPING) &&
  bool_decide (state (get_proc k i) = SUSPENDED).

Inductive life_step (mode : sched_conf) : lrun → lrun → Prop :=
  | ls_quiet k k' lv ins :
      quiet k k' → life_step mode (mk_lrun k lv ins) (mk_lrun k' lv ins)
  | ls_suspend_end k lv ins i prev swapped :
      prev = RUNNABLE ∨ prev = SLEEPING →
      life_step mode (mk_lrun k lv ins)
        (mk_lrun (suspend_end i prev swapped k).2 lv
           (if puts_back i prev swapped k then enter_call i InPutBack ins else ins))
  | ls_fork k lv ins cur tf alarm pt copy :
      runs k cur → nextpid k < 2 ^ 31 - 1 →
      life_step mode (mk_lrun k lv ins) (mk_lrun (fork cur tf alarm pt copy k).2 lv ins)
  | ls_clone k lv ins cur tf alarm pt stack mapped share :
      runs k cur → nextpid k < 2 ^ 31 - 1 →
      life_step mode (mk_lrun k lv ins)
        (mk_lrun (clone cur tf alarm pt stack mapped share k).2 lv ins)
  | ls_wait k lv ins cur addr ok :
      runs k cur →
      life_step mode (mk_lrun k lv ins)
        (mk_lrun (wait cur addr ok k).2 lv (enter_call cur (InWait (-1)) ins))
  | ls_waitpid k lv ins cur pid0 addr ok nohang :
      runs k cur →
      life_step mode (mk_lrun k lv ins)
        (mk_lrun (waitpid cur pid0 addr ok nohang k).2 lv (enter_call cur (InWait pid0) ins))
  | ls_join k lv ins cur ok :
      runs k cur →
      life_step mode (mk_lrun k lv ins)
        (mk_lrun (join cur ok k).2 lv (enter_call cur InJoin ins))
  | ls_reap k lv ins cur :
      runs k cur →
      life_step mode (mk_lrun k lv ins)
        (mk_lrun (tgroup_kill_and_reap cur k).2 lv (enter_call cur InReap ins))
  | ls_pick k lv ins cur op :
      runs k cur → initproc k ≠ Some cur → cur ∉ lv.*1 →
      original_parent (get_proc k cur) = Some op →
      life_step mode (mk_lrun k lv ins) (mk_lrun k ((cur, op) :: lv) ins)
  | ls_finish k lv lv' ins cur op status :
      runs k cur → lv ≡ₚ (cur, op) :: lv' →
      life_step mode (mk_lrun k lv ins) (mk_lrun (exit_finish mode cur op status k) lv' ins).

(** ** Quiet steps *)

Lemma quiet_refl k : quiet k k.
Proof. by constructor. Qed.

Lemma quiet_trans k1 k2 k3 : quiet k1 k2 → quiet k2 k3 → quiet k1 k3.
Proof.
  intros [A1 A2 A3 A4 A5 A6 A7 A8 A9] [B1 B2 B3 B4 B5 B6 B7 B8 B9].
  constructor; try congruence; intros i.
  - by rewrite B7.
  - by rewrite B8.
  - auto.
Qed.

(** A change of one entry that keeps what [quiet] looks at. *)
Record calm (f : proc → proc) : Prop := {
  c_id p : pid (f p) = pid p ∧ parent (f p) = parent p ∧ pthread (f p) = pthread p;
  c_unused p : state (f p) = UNUSED ↔ state p = UNUSED;
  c_zombie p : state (f p) = ZOMBIE ↔ state p = ZOMBIE;
  c_waits ch p : waiting_on ch (f p) = true → waiting_on ch p = true;
}.

Lemma get_proc_alter k i j f :
  get_proc (upd_proc i f k) j = get_proc k j ∨ get_proc (upd_proc i f k) j = f (get_proc k j).
Proof.
  destruct (decide (i = j)) as [->|Hne]; [|left; by apply get_proc_upd_ne].
  destruct (decide (j < length (procs k))%nat) as [Hj|Hj]; [right; by apply get_proc_upd_eq|].
  left. unfold get_proc, upd_proc; simpl.
  rewrite list_lookup_total_alter, decide_False; [done|tauto].
Qed.

Lemma quiet_upd k i f : calm f → quiet k (upd_proc i f k).
Proof.
  intros [F1 F2 F3 F4]. constructor; try done; [by rewrite upd_proc_length|..]; intros j;
    destruct (get_proc_alter k i j f) as [-> | ->]; try done; try apply F1; auto.
Qed.

Lemma quiet_map k f :
  calm f → f proc_zero = proc_zero → quiet k (k <| procs := f <$> procs k |>).
Proof.
  intros [F1 F2 F3 F4] F0.
  assert (∀ j, get_proc (k <| procs := f <$> procs k |>) j = f (get_proc k j)) as Hg.
  { intros j. unfold get_proc; simpl. rewrite !list_lookup_total_alt, list_lookup_fmap.
    by destruct (procs k !! j). }
  constructor; try done; [simpl; by rewrite length_fmap|..]; intros j; rewrite Hg;
    try apply F1; auto.
Qed.

Lemma calm_wake mode ch : calm (wake_proc mode ch).
Proof.
  assert (∀ p, state (wake_proc mode ch p) = state p ∨
    state (wake_proc mode ch p) = RUNNABLE ∧ state p = SLEEPING ∨
    state (wake_proc mode ch p) = SUSPENDED ∧ state p = SUSPENDED_SLEEP) as Hst.
  { intros p. rewrite wake_proc_state. unfold sleeping_on, susp_sleeping_on.
    repeat case_bool_decide; simpl; auto. }
  constructor.
  - intros p. unfold wake_proc, mlfq_reset. destruct mode; repeat case_match; done.
  - intros p. destruct (Hst p) as [-> |[[-> ->]|[-> ->]]]; done.
  - intros p. destruct (Hst p) as [-> |[[-> ->]|[-> ->]]]; done.
  - intros c p. assert (p_chan (wake_proc mode ch p) = p_chan p) as Hch.
    { unfold wake_proc, mlfq_reset. destruct mode; repeat case_match; done. }
    unfold waiting_on, sleeping_on, susp_sleeping_on. rewrite Hch.
    destruct (Hst p) as [-> |[[-> ->]|[-> ->]]]; [done|..]; intros E; discriminate E.
Qed.

Lemma quiet_wakeup1 mode i k : quiet k (wakeup1 mode i k).
Proof. apply quiet_upd, calm_wake. Qed.

Lemma quiet_wakeup mode ch k : quiet k (wakeup mode ch k).
Proof. apply quiet_map; [apply calm_wake|done]. Qed.

Lemma quiet_wakeupOne mode ch k : quiet k (wakeupOneProc mode ch k).
Proof.
  unfold wakeupOneProc. case_match; [apply quiet_upd, calm_wake|apply quiet_refl].
Qed.

Lemma quiet_same_procs k k' :
  procs k' = procs k → initproc k' = initproc k → nextpid k' = nextpid k → quiet k k'.
Proof. intros Hp Hi Hn. constructor; try congruence; unfold get_proc; rewrite Hp; done. Qed.

Lemma quiet_close mode cur k : quiet k (exit_close mode cur k).
Proof.
  unfold exit_close. apply (quiet_trans _ (dmsg_close mode cur k)).
  - unfold dmsg_close. eapply quiet_trans; [|by eapply (quiet_same_procs (wakeup _ _ _))].
    eapply quiet_trans; [|apply quiet_wakeup]. apply quiet_upd. by constructor.
  - unfold monitor_release_on_exit. generalize (pid (get_proc (dmsg_close mode cur k) cur)).
    generalize (dmsg_close mode cur k). intros k0 pid0.
    assert (∀ l k1, quiet k0 k1 → quiet k0 (foldl (release_on_exit_body mode pid0) k1 l)) as H.
    { induction l as [|id l IH]; intros k1 H1; [done|]. simpl. apply IH.
      eapply quiet_trans; [done|]. unfold release_on_exit_body. case_match; [|apply quiet_refl].
      eapply quiet_trans; [|apply quiet_wakeupOne]. by apply quiet_same_procs. }
    apply H, quiet_refl.
Qed.

Lemma quiet_wake_init mode k : quiet k (exit_wake_init mode k).
Proof. unfold exit_wake_init. case_match; [apply quiet_wakeup1|apply quiet_refl]. Qed.

Lemma quiet_banker i k : quiet k (banker_release_proc i k).
Proof.
  unfold banker_release_proc. case_match; [apply quiet_refl|].
  eapply quiet_trans; [|apply quiet_upd; by constructor]. by apply quiet_same_procs.
Qed.

(** ** The invariant *)

Definition waits (k : kernel) (i : nat) : Prop :=
  waiting_on (ChProc i) (get_proc k i) = true.

(** No child (thread) that a sleeper in wait() (join()) asked for is a zombie;
    init is apart, see [exit_wake_init]. *)
Definition call_ok (k : kernel) (j : nat) (c : call) : Prop :=
  match c with
  | InWait pid0 => initproc k ≠ Some j → ∀ i, wanted j pid0 (get_proc k i) = true →
                   state (get_proc k i) ≠ ZOMBIE
  | InJoin => ∀ i, thread_of j (get_proc k i) = true → state (get_proc k i) ≠ ZOMBIE
  | _ => True
  end.

Record life_inv (r : lrun) : Prop := {
  li_len : length (procs (lk r)) = NPROC;
  li_init : ∃ ip, initproc (lk r) = Some ip ∧ live (get_proc (lk r) ip) ∧
            parent (get_proc (lk r) ip) = None ∧ pthread (get_proc (lk r) ip) = None;
  li_next : 0 < nextpid (lk r) < 2 ^ 31;
  li_pid i : state (get_proc (lk r) i) ≠ UNUSED → 0 < pid (get_proc (lk r) i) < nextpid (lk r);
  li_inj i j : state (get_proc (lk r) i) ≠ UNUSED → state (get_proc (lk r) j) ≠ UNUSED →
               pid (get_proc (lk r) i) = pid (get_proc (lk r) j) → i = j;
  li_unused i : state (get_proc (lk r) i) = UNUSED →
                parent (get_proc (lk r) i) = None ∧ pthread (get_proc (lk r) i) = None;
  li_parent i j : parent (get_proc (lk r) i) = Some j → live (get_proc (lk r) j);
  li_orphan i : state (get_proc (lk r) i) ≠ UNUSED → parent (get_proc (lk r) i) = None →
                pthread (get_proc (lk r) i) = None → initproc (lk r) = Some i;
  li_thread i : pthread (get_proc (lk r) i) ≠ None → parent (get_proc (lk r) i) = None;
  li_nodup : NoDup (leaving r).*1;
  li_leaving i op : (i, op) ∈ leaving r →
    live (get_proc (lk r) i) ∧ initproc (lk r) ≠ Some i ∧
    (parent (get_proc (lk r) i) = Some op ∨
     parent (get_proc (lk r) i) = initproc (lk r) ∨
     parent (get_proc (lk r) i) = None ∧ pthread (get_proc (lk r) i) = Some op);
  li_waits j : waits (lk r) j → call_ok (lk r) j (inside r j);
}.

Lemma live_quiet k k' i : quiet k k' → live (get_proc k' i) ↔ live (get_proc k i).
Proof. intros Hq. unfold live. by rewrite (q_unused _ _ Hq), (q_zombie _ _ Hq). Qed.

Lemma quiet_still k k' : quiet k k' → still k k'.
Proof. by intros []. Qed.

Lemma life_inv_still k k' lv ins :
  still k k' → (∀ j, waits k' j → waits k j ∨ ins j = InPutBack) →
  life_inv (mk_lrun k lv ins) → life_inv (mk_lrun k' lv ins).
Proof.
  intros [Q1 Q2 Q3 Q4 Q5 Q6 Q7 Q8] Q9 [H1 H2 H3 H4 H5 H6 H7 H8 H9 H10 H11 H12]; simpl in *.
  assert (∀ i, live (get_proc k' i) ↔ live (get_proc k i)) as Hl.
  { intros i. unfold live. by rewrite Q7, Q8. }
  assert (∀ j pid0 i, wanted j pid0 (get_proc k' i) = wanted j pid0 (get_proc k i)) as Hw.
  { intros j pid0 i. unfold wanted, child_of. by rewrite Q4, Q5. }
  assert (∀ j i, thread_of j (get_proc k' i) = thread_of j (get_proc k i)) as Ht.
  { intros j i. unfold thread_of. by rewrite Q6. }
  constructor; simpl; rewrite ?Q1, ?Q2, ?Q3; try done.
  - destruct H2 as (ip & Hi & Hp). exists ip. by rewrite Hl, Q5, Q6.
  - intros i. rewrite Q7, Q4. apply H4.
  - intros i j. rewrite !Q7, !Q4. apply H5.
  - intros i. rewrite Q7, Q5, Q6. apply H6.
  - intros i j. rewrite Q5, Hl. apply H7.
  - intros i. rewrite Q7, Q5, Q6. apply H8.
  - intros i. rewrite Q6, Q5. apply H9.
  - intros i op Hin. rewrite Hl, Q5, Q6. by apply H11.
  - intros j Hj. destruct (Q9 j Hj) as [Hw'| ->]; [|done]. specialize (H12 j Hw').
    unfold call_ok in *. rewrite Q2.
    destruct (ins j); try done.
    + intros Hip i. rewrite Hw, Q8. by apply H12.
    + intros i. rewrite Ht, Q8. by apply H12.
Qed.

Lemma life_inv_quiet k k' lv ins :
  quiet k k' → life_inv (mk_lrun k lv ins) → life_inv (mk_lrun k' lv ins).
Proof.
  intros Hq. apply life_inv_still; [by apply quiet_still|]. intros j Hj. left.
  by apply (q_waits _ _ Hq).
Qed.

(** *** Freed and new entries *)

Lemma get_proc_some k i : state (get_proc k i) ≠ UNUSED → (i < length (procs k))%nat.
Proof.
  intros Hs. destruct (decide (i < length (procs k))%nat) as [|Hge]; [done|].
  destruct Hs. unfold get_proc. rewrite list_lookup_total_alt, lookup_ge_None_2 by lia. done.
Qed.

(** Kernels that differ, as far as this file is concerned, at one entry only. *)
Record agree_off (i : nat) (k k' : kernel) : Prop := {
  ao_len : length (procs k') = length (procs k);
  ao_init : initproc k' = initproc k;
  ao_next : nextpid k' = nextpid k;
  ao_proc j : j ≠ i →
    pid (get_proc k' j) = pid (get_proc k j) ∧ parent (get_proc k' j) = parent (get_proc k j) ∧
    pthread (get_proc k' j) = pthread (get_proc k j) ∧
    state (get_proc k' j) = state (get_proc k j) ∧ p_chan (get_proc k' j) = p_chan (get_proc k j);
}.

Lemma agree_off_trans i k1 k2 k3 : agree_off i k1 k2 → agree_off i k2 k3 → agree_off i k1 k3.
Proof.
  intros [A1 A2 A3 A4] [B1 B2 B3 B4]. constructor; try congruence. intros j Hj.
  destruct (A4 j Hj) as (? & ? & ? & ? & ?), (B4 j Hj) as (? & ? & ? & ? & ?).
  split_and!; congruence.
Qed.

Lemma agree_off_upd i f k : agree_off i k (upd_proc i f k).
Proof.
  constructor; try done; [by rewrite upd_proc_length|]. intros j Hj.
  by rewrite get_proc_upd_ne.
Qed.

(** A change of any entry that keeps the fields of this file. *)
Lemma agree_off_frame i l f k :
  (∀ p, pid (f p) = pid p ∧ parent (f p) = parent p ∧ pthread (f p) = pthread p ∧
        state (f p) = state p ∧ p_chan (f p) = p_chan p) →
  agree_off i k (upd_proc l f k).
Proof.
  intros Hf. constructor; try done; [by rewrite upd_proc_length|]. intros j Hj.
  destruct (get_proc_alter k l j f) as [-> | ->]; [done|apply Hf].
Qed.

Lemma agree_off_banker i l k : agree_off i k (banker_release_proc l k).
Proof.
  unfold banker_release_proc. case_match; [by constructor|].
  set (k1 := k <| banker := _ |>). apply (agree_off_trans _ _ k1); [by constructor|].
  by apply agree_off_frame.
Qed.

(** An entry that is UNUSED afterwards and was not live before. *)
Lemma life_inv_dead k k' lv ins i :
  agree_off i k k' → ¬ live (get_proc k i) →
  state (get_proc k' i) = UNUSED ∧ parent (get_proc k' i) = None ∧ pthread (get_proc k' i) = None →
  life_inv (mk_lrun k lv ins) → life_inv (mk_lrun k' lv ins).
Proof.
  intros [A1 A2 A3 A4] Hdead (F1 & F2 & F3) [H1 H2 H3 H4 H5 H6 H7 H8 H9 H10 H11 H12]; simpl in *.
  assert (∀ j, j = i ∨ j ≠ i ∧ (pid (get_proc k' j) = pid (get_proc k j) ∧
    parent (get_proc k' j) = parent (get_proc k j) ∧
    pthread (get_proc k' j) = pthread (get_proc k j) ∧
    state (get_proc k' j) = state (get_proc k j) ∧
    p_chan (get_proc k' j) = p_chan (get_proc k j))) as Hg.
  { intros j. destruct (decide (j = i)); auto. }
  assert (∀ j, live (get_proc k j) → live (get_proc k' j)) as Hkeep.
  { intros j Hj. unfold live. destruct (Hg j) as [-> |(_ & _ & _ & _ & -> & _)]; done. }
    constructor; simpl; rewrite ?A1, ?A2, ?A3; try done.
  - destruct H2 as (ip & Hip & Hl & Hr). exists ip.
    destruct (Hg ip) as [-> |(_ & _ & Ep & Et & _)]; [by destruct Hdead|].
    rewrite Ep, Et. split_and!; [done|by apply Hkeep|apply Hr|apply Hr].
  - intros j. destruct (Hg j) as [-> |(_ & -> & _ & _ & -> & _)]; [done|apply H4].
  - intros j j'. destruct (Hg j) as [-> |(_ & -> & _ & _ & -> & _)],
      (Hg j') as [-> |(_ & -> & _ & _ & -> & _)]; try done. apply H5.
  - intros j. destruct (Hg j) as [-> |(_ & _ & -> & -> & -> & _)]; [done|apply H6].
  - intros j j'. destruct (Hg j) as [-> |(_ & _ & -> & _)]; [by rewrite F2|].
    intros Hp%H7. by apply Hkeep.
  - intros j. destruct (Hg j) as [-> |(_ & _ & -> & -> & -> & _)]; [done|apply H8].
  - intros j. destruct (Hg j) as [-> |(_ & _ & -> & -> & _)]; [done|apply H9].
  - intros j op Hin. destruct (H11 j op Hin) as (Hl & Hni & Hr).
    destruct (Hg j) as [-> |(_ & _ & -> & -> & _)]; [done|]. auto.
  - intros j Hj.
    assert (waits k j) as Hjk.
    { unfold waits, waiting_on, sleeping_on, susp_sleeping_on in *.
      destruct (Hg j) as [-> |(_ & _ & _ & _ & Es & Ec)]; [by rewrite F1 in Hj|].
      by rewrite Es, Ec in Hj. }
    specialize (H12 j Hjk). unfold call_ok, wanted, child_of, thread_of in *. rewrite A2.
    destruct (ins j); try done; [intros Hip|]; intros i';
      (destruct (Hg i') as [-> |(_ & G1 & G2 & G3 & G4 & _)];
         [by rewrite F1|rewrite ?G1, ?G2, ?G3, ?G4; auto]).
Qed.

Lemma life_inv_clear k lv ins i f :
  (∀ p, state (f p) = UNUSED ∧ parent (f p) = None ∧ pthread (f p) = None) →
  ¬ live (get_proc k i) →
  life_inv (mk_lrun k lv ins) → life_inv (mk_lrun (upd_proc i f k) lv ins).
Proof.
  intros Hf Hdead Hinv. eapply life_inv_dead; [apply (agree_off_upd i f)|done| |done].
  destruct (decide (i < length (procs k))%nat) as [Hi|Hi]; [rewrite get_proc_upd_eq by done; auto|].
  assert (get_proc (upd_proc i f k) i = proc_zero) as ->; [|done].
  unfold get_proc. rewrite list_lookup_total_alt, lookup_ge_None_2; [done|].
  rewrite upd_proc_length. lia.
Qed.

Lemma life_inv_freeproc k lv ins i :
  ¬ live (get_proc k i) → life_inv (mk_lrun k lv ins) → life_inv (mk_lrun (freeproc i k) lv ins).
Proof.
  intros Hd Hinv. apply life_inv_clear; [done| |].
  - by rewrite (live_quiet _ _ _ (quiet_banker i k)).
  - eapply life_inv_quiet, Hinv. apply quiet_banker.
Qed.

Lemma life_inv_freethread k lv ins i l :
  ¬ live (get_proc k i) → life_inv (mk_lrun k lv ins) →
  life_inv (mk_lrun (freethread i l k) lv ins).
Proof.
  intros Hd Hinv. apply (life_inv_quiet (upd_proc i clear_thread k)); [|by apply life_inv_clear].
  apply quiet_upd. constructor; intros *; unfold ref_dec; case_match; done.
Qed.

(** An entry that is being set up: UNUSED, with a pid of its own. *)
Definition embryonic (k : kernel) (i : nat) : Prop :=
  state (get_proc k i) = UNUSED ∧ (i < length (procs k))%nat ∧
  0 < pid (get_proc k i) < nextpid k ∧
  ∀ j, state (get_proc k j) ≠ UNUSED → pid (get_proc k j) ≠ pid (get_proc k i).

Lemma allocproc_inv k lv ins tf alarm pt :
  life_inv (mk_lrun k lv ins) → nextpid k < 2 ^ 31 - 1 →
  let '(o, k') := allocproc tf alarm pt k in
  life_inv (mk_lrun k' lv ins) ∧ (∀ i, live (get_proc k i) → get_proc k' i = get_proc k i) ∧
  match o with Some i => embryonic k' i | None => True end.
Proof.
  intros Hinv Hn. unfold allocproc. destruct (find_index unused (procs k)) as [i|] eqn:Hf; [|done].
  apply find_index_Some in Hf as [(p & Hp & Hu%bool_decide_eq_true) _].
  pose proof (lookup_lt_Some _ _ _ Hp) as Hi.
  assert (get_proc k i = p) as Hgi by (by apply list_lookup_total_correct).
  unfold allocpid. rewrite i32_small by (pose proof (li_next _ Hinv); simpl in *; unfold is_i32; lia).
  set (k1 := k <| nextpid := nextpid k + 1 |>). set (k2 := upd_proc i (embryo (nextpid k)) k1).
  assert (life_inv (mk_lrun k1 lv ins)) as Hinv1.
  { destruct Hinv as [H1 H2 H3 H4 H5 H6 H7 H8 H9 H10 H11 H12]; simpl in *.
    constructor; try done; simpl; [lia|]. intros j Hj. specialize (H4 j Hj).
    change (get_proc k1 j) with (get_proc k j). lia. }
  assert (state (get_proc k1 i) = UNUSED) as Hst by (change (get_proc k1 i) with (get_proc k i); by rewrite Hgi).
  assert (life_inv (mk_lrun k2 lv ins)) as Hinv2.
  { destruct (li_unused _ Hinv1 i Hst) as [Hpa Hpt].
    unfold k2. rewrite (upd_proc_const k1 i (embryo (nextpid k)) p Hp).
    apply life_inv_clear; [|by intros [? _]|done].
    intros _. change (get_proc k1 i) with (get_proc k i) in *. rewrite <-Hgi. done. }
  assert (∀ j, live (get_proc k j) → get_proc k2 j = get_proc k j) as Hkeep.
  { intros j Hj. unfold k2. rewrite get_proc_upd_ne; [done|]. intros <-. rewrite Hgi in Hj. by destruct Hj. }
  destruct tf; simpl; [|done]. destruct alarm; simpl; [|done].
  set (k3 := upd_proc i alarm_clear k2).
  assert (quiet k2 k3) as Hq by (apply quiet_upd; by constructor).
  assert (life_inv (mk_lrun k3 lv ins)) as Hinv3 by (by eapply life_inv_quiet).
  assert (state (get_proc k3 i) = UNUSED) as Hst3.
  { apply (q_unused _ _ Hq). unfold k2. by rewrite get_proc_upd_eq. }
  assert (∀ j, live (get_proc k j) → j ≠ i) as Hne.
  { intros j Hj ->. rewrite Hgi in Hj. by destruct Hj. }
  destruct pt; simpl.
  - split_and!; [done| |].
    + intros j Hj. unfold k3. rewrite get_proc_upd_ne by (symmetry; auto). auto.
    + assert (pid (get_proc k3 i) = nextpid k) as Hpid.
      { rewrite (q_pid _ _ Hq). unfold k2. by rewrite get_proc_upd_eq. }
      split_and!; [done|unfold k3, k2; by rewrite !upd_proc_length|..]; rewrite Hpid; simpl;
        [pose proof (li_next _ Hinv); simpl in *; lia..|].
      intros j Hj Heq. assert (j ≠ i) as Hji by (intros ->; done).
      pose proof (li_pid _ Hinv j) as Hb. simpl in Hb. unfold k3, k2 in Hj, Heq.
      rewrite !get_proc_upd_ne in Hj, Heq by done.
      change (get_proc k1 j) with (get_proc k j) in *. specialize (Hb Hj). lia.
  - split_and!; [|intros j Hj|done].
    + apply life_inv_freeproc; [by intros [? _]|done].
    + unfold freeproc. rewrite get_proc_upd_ne by (symmetry; auto).
      unfold banker_release_proc. case_match; [|rewrite get_proc_upd_ne by (symmetry; auto)];
        unfold k3; try change (get_proc (_ <| banker := _ |>) j) with (get_proc (upd_proc i alarm_clear k2) j);
        rewrite get_proc_upd_ne by (symmetry; auto); auto.
Qed.

(** A new process or thread becomes RUNNABLE. *)
Lemma life_inv_start k k' lv ins i :
  agree_off i k k' → embryonic k i →
  state (get_proc k' i) = RUNNABLE → pid (get_proc k' i) = pid (get_proc k i) →
  (∃ cur, parent (get_proc k' i) = Some cur ∧ live (get_proc k cur) ∧
          pthread (get_proc k' i) = None) ∨
  parent (get_proc k' i) = None ∧ pthread (get_proc k' i) ≠ None →
  life_inv (mk_lrun k lv ins) → life_inv (mk_lrun k' lv ins).
Proof.
  intros [A1 A2 A3 A4] (E1 & E2 & E3 & E4) F1 F2 F3 [H1 H2 H3 H4 H5 H6 H7 H8 H9 H10 H11 H12];
    simpl in *.
  assert (∀ j, j = i ∨ j ≠ i ∧ (pid (get_proc k' j) = pid (get_proc k j) ∧
    parent (get_proc k' j) = parent (get_proc k j) ∧
    pthread (get_proc k' j) = pthread (get_proc k j) ∧
    state (get_proc k' j) = state (get_proc k j) ∧
    p_chan (get_proc k' j) = p_chan (get_proc k j))) as Hg.
  { intros j. destruct (decide (j = i)); auto. }
  assert (∀ j, live (get_proc k j) → live (get_proc k' j) ∧ j ≠ i) as Hkeep.
  { intros j Hj. assert (j ≠ i) as Hne by (intros ->; by destruct Hj). split; [|done].
    unfold live. destruct (Hg j) as [-> |(_ & _ & _ & _ & -> & _)]; done. }
    constructor; simpl; rewrite ?A1, ?A2, ?A3; try done.
  - destruct H2 as (ip & Hip & Hl & Hr). exists ip. destruct (Hkeep ip Hl) as [Hl' Hne].
    destruct (A4 ip Hne) as (_ & -> & -> & _). auto.
  - intros j. destruct (Hg j) as [-> |(_ & -> & _ & _ & -> & _)]; [by rewrite F2|apply H4].
  - intros j j'. destruct (Hg j) as [-> |(_ & -> & _ & _ & -> & _)],
      (Hg j') as [-> |(_ & -> & _ & _ & -> & _)]; rewrite ?F2; try done.
    + intros _ Hu Heq. by destruct (E4 j' Hu).
    + intros Hu _ Heq. by destruct (E4 j Hu).
    + apply H5.
  - intros j. destruct (Hg j) as [-> |(_ & _ & -> & -> & -> & _)]; [by rewrite F1|apply H6].
  - intros j j'. destruct (Hg j) as [-> |(_ & _ & -> & _)].
    + intros Hp. destruct F3 as [(cur & Hc & Hl & _)|[Hc _]]; rewrite Hc in Hp; [|done].
      injection Hp as <-. by apply Hkeep.
    + intros Hp%H7. by apply Hkeep.
  - intros j. destruct (Hg j) as [-> |(_ & _ & -> & -> & -> & _)]; [|apply H8].
    intros _ Hp Ht. destruct F3 as [(cur & Hc & _)|[_ Hc]]; congruence.
  - intros j. destruct (Hg j) as [-> |(_ & _ & -> & -> & _)]; [|apply H9].
    destruct F3 as [(cur & _ & _ & ->)|[-> _]]; done.
  - intros j op Hin. destruct (H11 j op Hin) as (Hl & Hni & Hr).
    destruct (Hkeep j Hl) as [Hl' Hne]. destruct (A4 j Hne) as (_ & -> & -> & _). auto.
  - intros j Hj.
    assert (waits k j) as Hjk.
    { unfold waits, waiting_on, sleeping_on, susp_sleeping_on in *.
      destruct (Hg j) as [-> |(_ & _ & _ & _ & Es & Ec)]; [by rewrite F1 in Hj|].
      by rewrite Es, Ec in Hj. }
    specialize (H12 j Hjk). unfold call_ok, wanted, child_of, thread_of in *. rewrite A2.
    destruct (ins j); try done; [intros Hip|]; intros i';
      (destruct (Hg i') as [-> |(_ & G1 & G2 & G3 & G4 & _)];
         [by rewrite F1|rewrite ?G1, ?G2, ?G3, ?G4; auto]).
Qed.

Lemma life_inv_fork k lv ins cur tf alarm pt copy :
  life_inv (mk_lrun k lv ins) → runs k cur → nextpid k < 2 ^ 31 - 1 →
  life_inv (mk_lrun (fork cur tf alarm pt copy k).2 lv ins).
Proof.
  intros Hinv Hrun Hn. unfold fork.
  pose proof (allocproc_inv k lv ins tf alarm pt Hinv Hn) as Ha.
  destruct (allocproc tf alarm pt k) as [[np|] k1]; [|apply Ha]. destruct Ha as (Hi1 & Hkeep & Hem).
  assert (live (get_proc k cur)) as Hc by (unfold live; rewrite Hrun; done).
  destruct copy; simpl.
  - eapply life_inv_start; [apply agree_off_upd|exact Hem|..|exact Hi1];
      destruct Hem as (_ & Hlt & _); rewrite get_proc_upd_eq by done; try done.
    left. exists cur. split_and!; try done. by rewrite Hkeep.
  - apply life_inv_freeproc; [|done]. intros [Hu _]. by destruct Hem.
Qed.

Lemma life_inv_clone k lv ins cur tf alarm pt stack mapped share :
  life_inv (mk_lrun k lv ins) → runs k cur → nextpid k < 2 ^ 31 - 1 →
  life_inv (mk_lrun (clone cur tf alarm pt stack mapped share k).2 lv ins).
Proof.
  intros Hinv Hrun Hn. unfold clone. set (l := tgroup_leader cur k).
  pose proof (allocproc_inv k lv ins tf alarm pt Hinv Hn) as Ha.
  destruct (allocproc tf alarm pt k) as [[np|] k1]; [|apply Ha]. destruct Ha as (Hi1 & _ & Hem).
  pose proof Hem as (Hu & Hlt & _).
  assert (¬ live (get_proc k1 np)) as Hd by (intros [? _]; done).
  destruct (bad_stack stack); [by apply life_inv_freeproc|].
  destruct mapped; simpl; [|by apply life_inv_freeproc].
  set (f := clone_child l (get_proc k1 l) stack (ticks k1)).
  assert (∀ p, pid (f p) = pid p ∧ state (f p) = state p ∧ parent (f p) = None ∧
    pthread (f p) = Some l) as Hf.
  { intros p. unfold f, clone_child. by destruct (is_rt _). }
  destruct share; simpl.
  - set (g := λ p, p <| tgroup_ref := tgroup_ref p + 1 |>).
    set (k2 := upd_proc l g (upd_proc np f k1)).
    assert (agree_off np k1 k2) as Hag.
    { eapply agree_off_trans; [apply agree_off_upd|by apply agree_off_frame]. }
    assert (pid (get_proc k2 np) = pid (get_proc k1 np) ∧ parent (get_proc k2 np) = None ∧
      pthread (get_proc k2 np) = Some l) as (G1 & G2 & G3).
    { unfold k2. destruct (get_proc_alter (upd_proc np f k1) l np g) as [-> | ->];
        rewrite get_proc_upd_eq by done; destruct (Hf (get_proc k1 np)) as (? & ? & ? & ?); done. }
    assert (np < length (procs k2))%nat as Hlt2 by (unfold k2; by rewrite !upd_proc_length).
    eapply life_inv_start; [|exact Hem|..|exact Hi1].
    + eapply agree_off_trans; [exact Hag|apply agree_off_upd].
    + by rewrite get_proc_upd_eq.
    + by rewrite get_proc_upd_eq.
    + right. rewrite get_proc_upd_eq by done. simpl. by rewrite G2, G3.
  - eapply life_inv_dead; [|exact Hd| |exact Hi1].
    + eapply agree_off_trans; [apply agree_off_upd|]. unfold freeproc.
      eapply agree_off_trans; [apply agree_off_banker|apply agree_off_upd].
    + unfold freeproc. rewrite get_proc_upd_eq; [done|].
      rewrite (q_len _ _ (quiet_banker np _)). by rewrite upd_proc_length.
Qed.

(** *** Waiting *)

Lemma runs_not_waits k i : runs k i → ¬ waits k i.
Proof.
  intros Hr. unfold waits, waiting_on, sleeping_on, susp_sleeping_on. by rewrite Hr.
Qed.

Lemma life_inv_call k lv ins cur c :
  ¬ waits k cur → life_inv (mk_lrun k lv ins) → life_inv (mk_lrun k lv (enter_call cur c ins)).
Proof.
  intros Hw [H1 H2 H3 H4 H5 H6 H7 H8 H9 H10 H11 H12]; simpl in *. constructor; simpl; try done.
  intros j Hj. unfold enter_call. destruct (Nat.eqb_spec j cur) as [->|]; [done|auto].
Qed.

Lemma life_inv_sleep k lv ins cur c :
  runs k cur → call_ok k cur c → life_inv (mk_lrun k lv ins) →
  life_inv (mk_lrun (sleep_enter cur (ChProc cur) k) lv (enter_call cur c ins)).
Proof.
  intros Hrun Hok [H1 H2 H3 H4 H5 H6 H7 H8 H9 H10 H11 H12]; simpl in *.
  assert (cur < length (procs k))%nat as Hlt by (apply get_proc_some; by rewrite Hrun).
  set (k' := sleep_enter cur (ChProc cur) k).
  assert (∀ j, pid (get_proc k' j) = pid (get_proc k j) ∧
    parent (get_proc k' j) = parent (get_proc k j) ∧
    pthread (get_proc k' j) = pthread (get_proc k j)) as Hg.
  { intros j. unfold k', sleep_enter. set (f := λ p : proc, _).
    by destruct (get_proc_alter k cur j f) as [-> | ->]. }
  assert (∀ j, state (get_proc k' j) = if decide (j = cur) then SLEEPING else state (get_proc k j)) as Hst.
  { intros j. unfold k', sleep_enter. case_decide as E; [subst; by rewrite get_proc_upd_eq|].
    by rewrite get_proc_upd_ne. }
  assert (∀ j, state (get_proc k' j) = UNUSED ↔ state (get_proc k j) = UNUSED) as Hun.
  { intros j. rewrite Hst. case_decide as E; [subst; by rewrite Hrun|done]. }
  assert (∀ j, state (get_proc k' j) = ZOMBIE ↔ state (get_proc k j) = ZOMBIE) as Hzo.
  { intros j. rewrite Hst. case_decide as E; [subst; by rewrite Hrun|done]. }
  assert (∀ j, live (get_proc k' j) ↔ live (get_proc k j)) as Hl.
  { intros j. unfold live. by rewrite Hun, Hzo. }
  assert (∀ j d, call_ok k j d → call_ok k' j d) as Hck.
  { intros j d. unfold call_ok, wanted, child_of, thread_of. change (initproc k') with (initproc k).
    intros Hd. destruct d; try done; [intros Hip|]; intros i;
      destruct (Hg i) as (G1 & G2 & G3); rewrite ?G1, ?G2, ?G3, Hzo; auto. }
  constructor; simpl; try done.
  - by rewrite length_alter.
  - destruct H2 as (ip & Hi & Hp). exists ip. destruct (Hg ip) as (_ & -> & ->). by rewrite Hl.
  - intros i. destruct (Hg i) as (-> & _). rewrite Hun. apply H4.
  - intros i j. destruct (Hg i) as (-> & _), (Hg j) as (-> & _). rewrite !Hun. apply H5.
  - intros i. destruct (Hg i) as (_ & -> & ->). rewrite Hun. apply H6.
  - intros i j. destruct (Hg i) as (_ & -> & _). rewrite Hl. apply H7.
  - intros i. destruct (Hg i) as (_ & -> & ->). rewrite Hun. apply H8.
  - intros i. destruct (Hg i) as (_ & -> & ->). apply H9.
  - intros i op Hin. destruct (Hg i) as (_ & -> & ->). rewrite Hl. by apply H11.
  - intros j Hj. apply Hck. unfold enter_call. destruct (Nat.eqb_spec j cur) as [->|Hne]; [done|].
    apply H12. unfold waits in *. unfold k', sleep_enter in Hj. by rewrite get_proc_upd_ne in Hj.
Qed.

Lemma find_index_get (P : proc → bool) k i :
  find_index P (procs k) = Some i → P (get_proc k i) = true ∧ (i < length (procs k))%nat.
Proof.
  intros Hf. split; [|by eapply find_index_lt].
  apply find_index_Some in Hf as [(p & Hp & HP) _].
  unfold get_proc. by rewrite (list_lookup_total_correct _ _ _ Hp).
Qed.

Lemma find_index_all (P : proc → bool) k i :
  find_index P (procs k) = None → P proc_zero = false → P (get_proc k i) = false.
Proof.
  intros Hf H0. unfold get_proc. rewrite list_lookup_total_alt.
  destruct (procs k !! i) as [p|] eqn:Hp; [|done]. simpl.
  apply (find_index_None P (procs k) Hf). by eapply list_elem_of_lookup_2.
Qed.

(** The common shape of wait(), waitpid() and join(). *)
Lemma life_inv_reap k lv ins cur c i f g :
  runs k cur → life_inv (mk_lrun k lv ins) → zombie (get_proc k i) = true → calm g →
  (∀ k, ¬ live (get_proc k i) → life_inv (mk_lrun k lv (enter_call cur c ins)) →
        life_inv (mk_lrun (f k) lv (enter_call cur c ins))) →
  life_inv (mk_lrun (f (upd_proc cur g k)) lv (enter_call cur c ins)).
Proof.
  intros Hrun Hinv Hz%bool_decide_eq_true Hg Hf. apply Hf.
  - rewrite (live_quiet _ _ _ (quiet_upd k cur g Hg)). by intros [_ ?].
  - eapply life_inv_quiet; [by apply quiet_upd|]. apply life_inv_call; [by apply runs_not_waits|done].
Qed.

Lemma life_inv_waitpid k lv ins cur pid0 addr ok nohang :
  runs k cur → life_inv (mk_lrun k lv ins) →
  life_inv (mk_lrun (waitpid cur pid0 addr ok nohang k).2 lv (enter_call cur (InWait pid0) ins)).
Proof.
  intros Hrun Hinv. pose proof (runs_not_waits _ _ Hrun) as Hnw. unfold waitpid.
  destruct (find_index _ (procs k)) as [i|] eqn:Hf.
  - apply find_index_get in Hf as [[_ Hz]%andb_true_iff _]. case_match; simpl.
    + apply (life_inv_reap k lv ins cur _ i id); [done..|by constructor|done].
    + apply (life_inv_reap k lv ins cur _ i (freeproc i)); [done..|by constructor|].
      intros k' Hd Hi. by apply life_inv_freeproc.
  - case_match; simpl; [by apply life_inv_call|]. case_match; simpl; [by apply life_inv_call|].
    apply life_inv_sleep; [done| |done]. intros _ i Hw Hz.
    pose proof (find_index_all _ k i Hf eq_refl) as Hn. cbv beta in Hn. rewrite Hw in Hn. simpl in Hn.
    unfold zombie in Hn. by rewrite bool_decide_true in Hn.
Qed.

(** wait() is waitpid() for any child. *)
Lemma wait_waitpid cur addr ok k : wait cur addr ok k = waitpid cur (-1) addr ok false k.
Proof.
  unfold wait, waitpid.
  assert (∀ np, wanted cur (-1) np = child_of cur np) as Hw.
  { intros np. unfold wanted. by rewrite orb_true_l, andb_true_r. }
  assert (existsb (wanted cur (-1)) (procs k) = existsb (child_of cur) (procs k)) as ->.
  { induction (procs k) as [|p ps IH]; [done|]. simpl. by rewrite Hw, IH. }
  assert (find_index (λ np, wanted cur (-1) np && zombie np) (procs k) =
    find_index (λ np, child_of cur np && zombie np) (procs k)) as ->; [|done].
  induction (procs k) as [|p ps IH]; [done|]. simpl. by rewrite Hw, IH.
Qed.

Lemma life_inv_join k lv ins cur ok :
  runs k cur → life_inv (mk_lrun k lv ins) →
  life_inv (mk_lrun (join cur ok k).2 lv (enter_call cur InJoin ins)).
Proof.
  intros Hrun Hinv. pose proof (runs_not_waits _ _ Hrun) as Hnw. unfold join.
  destruct (find_index _ (procs k)) as [i|] eqn:Hf.
  - apply find_index_get in Hf as [[_ Hz%bool_decide_eq_true]%andb_true_iff _].
    case_match; simpl; [by apply life_inv_call|].
    apply life_inv_freethread; [by intros [_ ?]|by apply life_inv_call].
  - case_match; simpl; [by apply life_inv_call|]. apply life_inv_sleep; [done| |done]. intros i Hw Hz.
    pose proof (find_index_all _ k i Hf eq_refl) as Hn. cbv beta in Hn. rewrite Hw in Hn. simpl in Hn.
    unfold zombie in Hn. by rewrite bool_decide_true in Hn.
Qed.

(** *** Exit *)

Lemma reap_body_inv lv ins leader st i :
  runs st.2 leader → life_inv (mk_lrun st.2 lv ins) →
  runs (reap_body leader st i).2 leader ∧ life_inv (mk_lrun (reap_body leader st i).2 lv ins).
Proof.
  destruct st as [found k]. intros Hrun Hinv. unfold reap_body; simpl in *.
  destruct (thread_of leader (get_proc k i)); [|done].
  destruct (zombie (get_proc k i)) eqn:Hz; simpl.
  - apply bool_decide_eq_true in Hz. assert (leader ≠ i) as Hne by (intros ->; congruence).
    split; [|apply life_inv_freethread; [by intros [_ ?]|done]].
    unfold runs, freethread in *.
    assert (∀ k1, state (get_proc (upd_proc leader ref_dec k1) leader) = state (get_proc k1 leader)) as ->.
    { intros k1. destruct (get_proc_alter k1 leader leader ref_dec) as [-> | ->]; [done|].
      unfold ref_dec. by case_match. }
    by rewrite get_proc_upd_ne.
  - set (f := λ p : proc, _). assert (calm f) as Hf.
    { constructor; unfold f; simpl; intros *; case_bool_decide as E; simpl; rewrite ?E; done. }
    split; [|eapply life_inv_quiet; [by apply quiet_upd|done]].
    unfold runs in *. destruct (get_proc_alter k i leader f) as [-> | ->]; [done|].
    unfold f. by rewrite Hrun.
Qed.

Lemma life_inv_group k lv ins cur :
  runs k cur → life_inv (mk_lrun k lv ins) →
  life_inv (mk_lrun (tgroup_kill_and_reap cur k).2 lv (enter_call cur InReap ins)).
Proof.
  intros Hrun Hinv. unfold tgroup_kill_and_reap.
  assert (∀ l st, runs st.2 cur → life_inv (mk_lrun st.2 lv ins) →
    runs (foldl (reap_body cur) st l).2 cur ∧
    life_inv (mk_lrun (foldl (reap_body cur) st l).2 lv ins)) as Hl.
  { induction l as [|i l IH]; intros st Hr Hi; [done|]. simpl.
    destruct (reap_body_inv lv ins cur st i Hr Hi). by apply IH. }
  destruct (Hl (seq 0 NPROC) (false, k) Hrun Hinv) as [Hr Hi].
  destruct (foldl (reap_body cur) (false, k) (seq 0 NPROC)) as [found k1]; simpl in *.
  case_match; simpl; [apply life_inv_call; [by apply runs_not_waits|done]|].
  by apply life_inv_sleep.
Qed.

Lemma original_parent_cases p op :
  original_parent p = Some op →
  parent p = Some op ∨ parent p = None ∧ pthread p = Some op.
Proof.
  unfold original_parent. case_bool_decide; simpl; [|by left].
  case_bool_decide; simpl; [by left|]. by right.
Qed.

Lemma life_inv_pick k lv ins cur op :
  life_inv (mk_lrun k lv ins) → runs k cur → initproc k ≠ Some cur → cur ∉ lv.*1 →
  original_parent (get_proc k cur) = Some op → life_inv (mk_lrun k ((cur, op) :: lv) ins).
Proof.
  intros [H1 H2 H3 H4 H5 H6 H7 H8 H9 H10 H11 H12] Hrun Hni Hlv Hop; simpl in *.
  constructor; simpl; try done; [by constructor|].
  intros i op' [[= -> ->]|Hin]%elem_of_cons; [|by apply H11].
  split_and!; [split; by rewrite Hrun|done|]. apply original_parent_cases in Hop as [?|?]; auto.
Qed.

(** What the end of exit() does to the table. *)
Lemma exit_finish_spec mode cur op status k ip :
  initproc k = Some ip → runs k cur →
  let k' := exit_finish mode cur op status k in
  (length (procs k') = length (procs k) ∧ initproc k' = Some ip ∧ nextpid k' = nextpid k) ∧
  (∀ j, pid (get_proc k' j) = pid (get_proc k j) ∧
    pthread (get_proc k' j) = pthread (get_proc k j) ∧
    parent (get_proc k' j) =
      if child_of cur (get_proc k j) then Some ip else parent (get_proc k j)) ∧
  (∀ j, state (get_proc k' j) = UNUSED ↔ state (get_proc k j) = UNUSED) ∧
  (∀ j, state (get_proc k' j) = ZOMBIE ↔ state (get_proc k j) = ZOMBIE ∨ j = cur) ∧
  (∀ j, waits k' j → waits k j ∧ j ≠ op).
Proof.
  intros Hip Hrun k'. set (k1 := reparent cur k). set (k2 := wakeup1 mode op k1).
  set (f := λ p : proc, p <| xstate := status |> <| state := ZOMBIE |>).
  change k' with (upd_proc cur f k2). clear k'.
  assert (∀ j, get_proc k1 j = if child_of cur (get_proc k j)
    then (get_proc k j) <| parent := Some ip |> else get_proc k j) as Hg1.
  { intros j. unfold k1, reparent, get_proc; simpl.
    rewrite Hip, !list_lookup_total_alt, list_lookup_fmap. by destruct (procs k !! j). }
  pose proof (quiet_wakeup1 mode op k1 : quiet k1 k2) as Hq.
  assert (length (procs k2) = length (procs k)) as Hlen.
  { rewrite (q_len _ _ Hq). unfold k1, reparent; simpl. by rewrite length_fmap. }
  assert (cur < length (procs k2))%nat as Hlt by (rewrite Hlen; apply get_proc_some; by rewrite Hrun).
  assert (∀ j, state (get_proc k1 j) = state (get_proc k j)) as Hst1.
  { intros j. rewrite Hg1. by destruct (child_of _ _). }
  assert (∀ j, get_proc (upd_proc cur f k2) j =
    if decide (j = cur) then f (get_proc k2 cur) else get_proc k2 j) as Hg.
  { intros j. case_decide as E; [subst; by apply get_proc_upd_eq|by apply get_proc_upd_ne]. }
  split_and!.
  - by rewrite upd_proc_length.
  - exact Hip.
  - done.
  - intros j. assert (pid (get_proc k2 j) = pid (get_proc k j) ∧
      pthread (get_proc k2 j) = pthread (get_proc k j) ∧
      parent (get_proc k2 j) =
        if child_of cur (get_proc k j) then Some ip else parent (get_proc k j)).
    { rewrite (q_pid _ _ Hq), (q_pthread _ _ Hq), (q_parent _ _ Hq), Hg1. by destruct (child_of _ _). }
    rewrite Hg. case_decide; [by subst|done].
  - intros j. rewrite Hg. case_decide; [subst; by rewrite Hrun|]. by rewrite (q_unused _ _ Hq), Hst1.
  - intros j. rewrite Hg. case_decide; [subst; simpl; tauto|].
    rewrite (q_zombie _ _ Hq), Hst1. tauto.
  - intros j. unfold waits. rewrite Hg. case_decide; [done|]. intros Hj. split.
    + apply (q_waits _ _ Hq) in Hj. rewrite Hg1 in Hj. by destruct (child_of _ _).
    + intros ->. destruct (decide (op < length (procs k1))%nat) as [Hl|Hl].
      * unfold k2, wakeup1 in Hj. rewrite get_proc_upd_eq in Hj by done.
        by rewrite wake_proc_not_waiting in Hj.
      * unfold get_proc in Hj. rewrite list_lookup_total_alt, lookup_ge_None_2 in Hj; [done|].
        rewrite (q_len _ _ Hq). lia.
Qed.

Lemma life_inv_finish mode k lv lv' ins cur op status :
  life_inv (mk_lrun k lv ins) → runs k cur → lv ≡ₚ (cur, op) :: lv' →
  life_inv (mk_lrun (exit_finish mode cur op status k) lv' ins).
Proof.
  intros Hinv Hrun Hlv. pose proof Hinv as
    [H1 (ip & Hip & Hipl & Hipp & Hipt) H3 H4 H5 H6 H7 H8 H9 H10 H11 H12]; simpl in *.
  destruct (H11 cur op) as (Hcl & Hcn & Hcp); [rewrite Hlv; left|].
  destruct (exit_finish_spec mode cur op status k ip Hip Hrun)
    as ((A1 & A2 & A3) & Hid & Hun & Hzo & Hw). set (k' := exit_finish mode cur op status k) in *.
  assert (ip ≠ cur) as Hne by (intros ->; congruence).
  assert (∀ j, j ≠ cur → live (get_proc k j) → live (get_proc k' j)) as Hl.
  { intros j Hj. unfold live. rewrite Hun, Hzo. tauto. }
  assert (∀ j, child_of cur (get_proc k j) = true ↔ parent (get_proc k j) = Some cur) as Hch.
  { intros j. apply bool_decide_eq_true. }
  assert (∀ j, parent (get_proc k' j) = None ↔ parent (get_proc k j) = None) as Hnone.
  { intros j. destruct (Hid j) as (_ & _ & ->). destruct (child_of _ _) eqn:E; [|done].
    apply Hch in E. by rewrite E. }
  assert ((cur ∉ lv'.*1) ∧ NoDup lv'.*1) as [Hcl' Hnd'].
  { rewrite Hlv in H10. simpl in H10. apply NoDup_cons in H10 as [? ?].
    done. }
  clearbody k'.   constructor; simpl; rewrite ?A1, ?A2, ?A3; try done.
  - exists ip. split_and!; [done|by apply Hl|by apply Hnone|]. by destruct (Hid ip) as (_ & -> & _).
  - intros i. rewrite Hun. destruct (Hid i) as (-> & _). apply H4.
  - intros i j. rewrite !Hun. destruct (Hid i) as (-> & _), (Hid j) as (-> & _). apply H5.
  - intros i. rewrite Hun, Hnone. destruct (Hid i) as (_ & -> & _). apply H6.
  - intros i j. destruct (Hid i) as (_ & _ & ->). destruct (child_of _ _) eqn:E.
    + intros [= <-]. by apply Hl.
    + intros Hp. apply Hl; [|by eapply H7]. intros ->. apply Hch in Hp. congruence.
  - intros i. rewrite Hun, Hnone. destruct (Hid i) as (_ & -> & _). rewrite <-Hip. apply H8.
  - intros i. rewrite Hnone. destruct (Hid i) as (_ & -> & _). apply H9.
  - intros i op' Hin. destruct (H11 i op') as (Hli & Hni & Hpi); [rewrite Hlv; by right|].
    assert (i ≠ cur) as Hic.
    { intros ->. apply Hcl'. apply list_elem_of_fmap. by exists (cur, op'). }
    rewrite <-Hip. split_and!; [by apply Hl|done|].
    destruct (Hid i) as (_ & -> & ->). rewrite Hip. destruct (child_of _ _); [auto|].
    rewrite Hip in Hpi. tauto.
  - intros j Hj. apply Hw in Hj as [Hj Hjop]. specialize (H12 j Hj).
    unfold call_ok in *. rewrite A2. rewrite Hip in H12. destruct (ins j) as [|pid0| | |]; try done.
    + intros Hnj i. unfold wanted. destruct (Hid i) as (-> & _ & Ep). unfold child_of at 1. rewrite Ep.
      rewrite andb_true_iff, bool_decide_eq_true. intros [Hpi Hpid] Hzi.
      destruct (child_of cur (get_proc k i)) eqn:E; [congruence|].
      apply Hzo in Hzi as [Hzi| ->].
      * apply (H12 Hnj i); [|done]. unfold wanted. rewrite Hpid, andb_true_r.
        by apply bool_decide_eq_true.
      * destruct Hcp as [Hcp|[Hcp|[Hcp _]]]; congruence.
    + intros i. unfold thread_of. destruct (Hid i) as (_ & -> & _). intros Ht Hzi.
      apply Hzo in Hzi as [Hzi| ->]; [by apply (H12 i)|].
      apply bool_decide_eq_true in Ht. assert (parent (get_proc k cur) = None) as Hpc.
      { apply H9. by rewrite Ht. }
      destruct Hcp as [Hcp|[Hcp|[_ Hcp]]]; congruence.
Qed.

(** The second half of a suspension keeps every process's identity, and makes
    one wait that did not only where [puts_back] says so. *)
Lemma suspend_end_still i prev swapped k :
  prev = RUNNABLE ∨ prev = SLEEPING →
  still k (suspend_end i prev swapped k).2 ∧
  ∀ j, waits (suspend_end i prev swapped k).2 j →
    waits k j ∨ j = i ∧ puts_back i prev swapped k = true.
Proof.
  intros Hprev. set (f := end_proc prev swapped).
  assert (∀ j, get_proc (suspend_end i prev swapped k).2 j = get_proc (upd_proc i f k) j) as Hg.
  { intros j. unfold get_proc. by rewrite suspend_end_procs. }
  assert (∀ p, state (f p) = state p ∨ state (f p) = prev ∧ swapped ≤ 0 ∧
    (state p = SUSPENDED ∨ state p = SUSPENDED_SLEEP)) as Hst.
  { intros p. unfold f, end_proc, unsuspend. destruct (Z.leb_spec swapped 0); [|by left].
    simpl. repeat case_bool_decide; simpl; auto. }
  assert (∀ p, pid (f p) = pid p ∧ parent (f p) = parent p ∧ pthread (f p) = pthread p ∧
    p_chan (f p) = p_chan p) as Hid.
  { intros p. unfold f, end_proc, unsuspend. repeat case_match; done. }
  split.
  - constructor; try (unfold suspend_end; by case_match);
      [by rewrite suspend_end_procs, length_alter|..]; intros j; rewrite Hg;
      destruct (get_proc_alter k i j f) as [-> | ->]; try done; try apply Hid;
      destruct (Hst (get_proc k j)) as [-> |(-> & _ & Hs)]; try done;
      destruct Hprev as [-> | ->], Hs as [-> | ->]; done.
  - intros j. unfold waits. rewrite Hg. destruct (decide (j = i)) as [->|Hne];
      [|rewrite get_proc_upd_ne by done; by left].
    destruct (get_proc_alter k i i f) as [-> | ->]; [by left|].
    unfold waiting_on, sleeping_on, susp_sleeping_on, puts_back.
    destruct (Hid (get_proc k i)) as (_ & _ & _ & ->).
    destruct (Hst (get_proc k i)) as [-> |(-> & Hle & Hs)]; [by left|].
    destruct Hprev as [-> | ->]; [intros E; discriminate E|].
    rewrite (proj2 (Z.leb_le swapped 0)) by done. destruct Hs as [-> | ->]; [by right|left].
    revert H. simpl. by rewrite orb_false_r.
Qed.

Lemma life_inv_suspend_end k lv ins i prev swapped :
  prev = RUNNABLE ∨ prev = SLEEPING → life_inv (mk_lrun k lv ins) →
  life_inv (mk_lrun (suspend_end i prev swapped k).2 lv
    (if puts_back i prev swapped k then enter_call i InPutBack ins else ins)).
Proof.
  intros Hprev Hinv. destruct (suspend_end_still i prev swapped k Hprev) as [Hst Hw].
  destruct (puts_back i prev swapped k) eqn:Hpb.
  - apply (life_inv_still k); [done| |].
    + intros j Hj. destruct (Hw j Hj) as [?|[-> _] ]; [by left|right].
      unfold enter_call. by rewrite Nat.eqb_refl.
    + apply life_inv_call; [|done]. unfold puts_back in Hpb. unfold waits, waiting_on.
      apply andb_true_iff in Hpb as [_ Hs%bool_decide_eq_true]. intros E.
      unfold sleeping_on, susp_sleeping_on in E. rewrite Hs in E. discriminate E.
  - apply (life_inv_still k); [done| |done].
    intros j Hj. destruct (Hw j Hj) as [?|[_ ?] ]; [by left|congruence].
Qed.

Lemma life_inv_step mode r r' : life_inv r → life_step mode r r' → life_inv r'.
Proof.
  intros Hinv Hst. destruct Hst.
  - by eapply life_inv_quiet.
  - by apply life_inv_suspend_end.
  - by apply life_inv_fork.
  - by apply life_inv_clone.
  - rewrite wait_waitpid. by apply life_inv_waitpid.
  - by apply life_inv_waitpid.
  - by apply life_inv_join.
  - by apply life_inv_group.
  - by apply life_inv_pick.
  - by eapply life_inv_finish.
Qed.

Lemma life_inv_run mode r r' : life_inv r → rtc (life_step mode) r r' → life_inv r'.
Proof. induction 2; eauto using life_inv_step. Qed.

(** ** Boot *)

Definition boot_run : lrun := mk_lrun (userinit kernel_zero) [] (λ _, InNone).

Lemma boot_procs i :
  get_proc (userinit kernel_zero) i = if decide (i = 0%nat) then get_proc (userinit kernel_zero) 0
                                      else proc_zero.
Proof.
  case_decide as E; [by subst|]. destruct i as [|i]; [done|].
  change (get_proc (userinit kernel_zero) (S i)) with (replicate (NPROC - 1) proc_zero !!! i).
  destruct (decide (i < NPROC - 1)%nat) as [Hi|Hi]; [by rewrite lookup_total_replicate_2|].
  rewrite list_lookup_total_alt, lookup_ge_None_2; [done|]. rewrite length_replicate. lia.
Qed.

Lemma life_inv_boot : life_inv boot_run.
Proof.
  constructor; cbn [lk leaving inside boot_run]; try done.
  - by exists 0%nat.
  - intros i. rewrite boot_procs. by case_decide.
  - intros i j. rewrite (boot_procs i), (boot_procs j). repeat case_decide; try done. congruence.
  - intros i. rewrite boot_procs. by case_decide.
  - intros i j. rewrite boot_procs. by case_decide.
  - intros i. rewrite boot_procs. case_decide; by subst.
  - intros i. rewrite boot_procs. by case_decide.
  - constructor.
  - intros i op Hin. inversion Hin.
Qed.

(** The scheduler puts a runnable process on a CPU. *)
Definition dispatched (i : nat) (k : kernel) : kernel :=
  upd_proc i (λ p, if bool_decide (state p = RUNNABLE) then p <| state := RUNNING |> else p) k.

Lemma quiet_dispatched i k : quiet k (dispatched i k).
Proof.
  apply quiet_upd. constructor; intros *; case_bool_decide as E; simpl; rewrite ?E; try done.
Qed.

(** ** The process tree *)

(** C16: in every run from boot, the process tree is well formed: the processes
    in use have distinct positive identifiers below nextpid; the parent of a
    process is never unused nor a zombie; an UNUSED entry has no parent; init
    stays alive; and a running process other than init has a parent or a thread
    leader, so exit() never locks through a null pointer. *)
Theorem process_tree_sound mode r :
  rtc (life_step mode) boot_run r →
  let k := lk r in
  (∀ i, state (get_proc k i) ≠ UNUSED → 0 < pid (get_proc k i) < nextpid k) ∧
  (∀ i j, state (get_proc k i) ≠ UNUSED → state (get_proc k j) ≠ UNUSED →
     pid (get_proc k i) = pid (get_proc k j) → i = j) ∧
  (∀ i j, parent (get_proc k i) = Some j → live (get_proc k j)) ∧
  (∀ i, state (get_proc k i) = UNUSED → parent (get_proc k i) = None) ∧
  (∃ ip, initproc k = Some ip ∧ live (get_proc k ip)) ∧
  (∀ i, runs k i → initproc k ≠ Some i → original_parent (get_proc k i) ≠ None).
Proof.
  intros Hr. destruct (life_inv_run mode _ r life_inv_boot Hr)
    as [H1 (ip & Hip & Hl & _) H3 H4 H5 H6 H7 H8 H9 H10 H11 H12]. cbv zeta. split_and!; try done.
  - intros i Hi. by apply H6.
  - by exists ip.
  - intros i Hi Hni. unfold original_parent, runs in *.
    destruct (parent (get_proc (lk r) i)) as [op|] eqn:Ep; [done|].
    destruct (pthread (get_proc (lk r) i)) as [l|] eqn:Et; [done|]. intros _. apply Hni, H8; [|done..].
    by rewrite Hi.
Qed.

(** init runs, forks a child, and the child runs and forks one of its own. *)
Definition run_k1 : kernel := dispatched 0 (userinit kernel_zero).

Definition run_k2 : kernel := dispatched 1 (fork 0 true true true true run_k1).2.

Definition run_k3 : kernel := (fork 1 true true true true run_k2).2.

Lemma demo_run mode : rtc (life_step mode) boot_run (mk_lrun run_k3 [] (λ _, InNone)).
Proof.
  apply (rtc_l _ _ (mk_lrun run_k1 [] (λ _, InNone))); [apply ls_quiet, quiet_dispatched|].
  apply (rtc_l _ _ (mk_lrun (fork 0 true true true true run_k1).2 [] (λ _, InNone)));
    [by apply ls_fork|].
  apply (rtc_l _ _ (mk_lrun run_k2 [] (λ _, InNone))); [apply ls_quiet, quiet_dispatched|].
  apply rtc_once. by apply ls_fork.
Qed.

Lemma process_tree_sound_witness :
  original_parent (get_proc run_k3 1) ≠ None ∧ live (get_proc run_k3 1) ∧
  parent (get_proc run_k3 2) = Some 1%nat.
Proof.
  destruct (process_tree_sound SCHED_MLFQ _ (demo_run SCHED_MLFQ))
    as (_ & _ & Hp & _ & _ & Ho).
  split_and!; [by apply Ho|by apply (Hp 2%nat)|by vm_compute].
Defined.

(** C15: no wakeup is lost between exit() and the calls that wait for it: in every
    run from boot, when a process other than init is asleep in wait(), waitpid()
    or join(), none of the children (threads) it asked for is a zombie. The runs
    include the suspensions of the medium-term scheduler; a process that
    midsched_suspend_one() put back to SLEEPING after it had been woken
    ([InPutBack]) is the one exception, until it calls again. *)
Theorem wait_loses_no_zombie mode r j i :
  rtc (life_step mode) boot_run r → waits (lk r) j → initproc (lk r) ≠ Some j →
  match inside r j with
  | InWait pid0 => wanted j pid0 (get_proc (lk r) i) = true
  | InJoin => thread_of j (get_proc (lk r) i) = true
  | _ => False
  end → state (get_proc (lk r) i) ≠ ZOMBIE.
Proof.
  intros Hr Hj Hni Hi. pose proof (li_waits _ (life_inv_run mode _ r life_inv_boot Hr) j Hj) as Hok.
  unfold call_ok in Hok. destruct (inside r j); try done; auto.
Qed.

Lemma wait_loses_no_zombie_witness :
  let r := mk_lrun (waitpid 1 3 true true false run_k3).2 [] (enter_call 1 (InWait 3) (λ _, InNone)) in
  waits (lk r) 1 ∧ state (get_proc (lk r) 2) ≠ ZOMBIE.
Proof.
  cbv zeta. split; [by vm_compute|].
  apply (wait_loses_no_zombie SCHED_MLFQ
    (mk_lrun (waitpid 1 3 true true false run_k3).2 [] (enter_call 1 (InWait 3) (λ _, InNone))) 1 2).
  - eapply rtc_r; [apply demo_run|]. apply ls_waitpid. by vm_compute.
  - by vm_compute.
  - by vm_compute.
  - by vm_compute.
Defined.

(** ** Reaping *)

Lemma existsb_get (P : proc → bool) k :
  existsb P (procs k) = false → P proc_zero = false → ∀ i, P (get_proc k i) = false.
Proof.
  intros He H0 i. unfold get_proc. rewrite list_lookup_total_alt.
  destruct (procs k !! i) as [p|] eqn:Hp; [|done]. simpl.
  destruct (P p) eqn:E; [|done]. rewrite <-He. symmetry. apply existsb_exists. exists p.
  split; [|done]. apply list_elem_of_In. by eapply list_elem_of_lookup_2.
Qed.

(** in every run from boot, waitpid() of a running process that returns a
    positive value returns the pid of the one process that has it, a zombie
    child that was asked for; its status is what is copied out; afterwards no
    process has that pid and no other entry has changed its state or pid. A value
    that is not positive leaves every state as it was and is 0 under WNOHANG, or
    -1 because copyout() failed, no child was asked for, or the caller was
    killed. *)
Theorem waitpid_reaps_once mode r cur pid0 addr ok nohang v st k' :
  rtc (life_step mode) boot_run r → runs (lk r) cur →
  waitpid cur pid0 addr ok nohang (lk r) = (WRet v st, k') →
  let k := lk r in
  if 0 <? v then
    ∃ i, pid (get_proc k i) = v ∧ wanted cur pid0 (get_proc k i) = true ∧
      state (get_proc k i) = ZOMBIE ∧ st = (if addr then Some (xstate (get_proc k i)) else None) ∧
      (∀ j, state (get_proc k' j) ≠ UNUSED → pid (get_proc k' j) ≠ v) ∧
      (∀ j, j ≠ i → state (get_proc k' j) = state (get_proc k j) ∧
                    pid (get_proc k' j) = pid (get_proc k j))
  else
    (∀ j, state (get_proc k' j) = state (get_proc k j)) ∧ st = None ∧
    (v = 0 ∧ nohang = true ∨
     v = -1 ∧ (addr = true ∧ ok = false ∨ killed (get_proc k cur) = true ∨
               ∀ j, wanted cur pid0 (get_proc k j) = false)).
Proof.
  intros Hr Hrun Hw. destruct (life_inv_run mode _ r life_inv_boot Hr)
    as [H1 _ _ H4 H5 _ _ _ _ _ _ _]. cbv zeta. unfold waitpid in Hw.
  set (k := lk r) in *. destruct (find_index _ (procs k)) as [i|] eqn:Hf.
  - apply find_index_get in Hf as [[Hwi Hz%bool_decide_eq_true]%andb_true_iff Hi].
    set (k1 := upd_proc cur _ k) in Hw. assert (i ≠ cur) as Hne by (intros ->; congruence).
    destruct (addr && negb ok) eqn:Ea.
    + injection Hw as <- <- <-. simpl. apply andb_true_iff in Ea as [-> Ho%negb_true_iff].
      split_and!; [|done|right; auto]. intros j. unfold k1.
      set (g := λ p : proc, _). by destruct (get_proc_alter k cur j g) as [-> | ->].
    + injection Hw as <- <- <-. assert (state (get_proc k i) ≠ UNUSED) as Hu by congruence.
      rewrite (proj2 (Z.ltb_lt _ _)) by (by apply H4). exists i.
      assert (∀ j, j ≠ i → state (get_proc (freeproc i k1) j) = state (get_proc k j) ∧
        pid (get_proc (freeproc i k1) j) = pid (get_proc k j)) as Hoff.
      { intros j Hj. assert (agree_off i k (freeproc i k1)) as Ho.
        { apply (agree_off_trans _ _ k1); [by apply agree_off_frame|].
          eapply agree_off_trans; [apply agree_off_banker|apply agree_off_upd]. }
        destruct (ao_proc _ _ _ Ho j Hj) as (-> & _ & _ & -> & _). done. }
      split_and!; [done..| |done].
      intros j Hj. destruct (decide (j = i)) as [->|Hji].
      { destruct Hj. unfold freeproc. rewrite get_proc_upd_eq; [done|].
        rewrite (q_len _ _ (quiet_banker i k1)). unfold k1. by rewrite upd_proc_length. }
      destruct (Hoff j Hji) as [Es Ep]. rewrite Es in Hj. rewrite Ep. intros Heq.
      by apply Hji, H5.
  - destruct (negb _ || _) eqn:Eb.
    + injection Hw as <- <- <-. split_and!; [done..|]. right. split; [done|]. right.
      apply orb_true_iff in Eb as [Eb%negb_true_iff|Eb]; [right|by left].
      by apply existsb_get.
    + destruct nohang; [|done]. injection Hw as <- <- <-. split_and!; [done..|]. by left.
Qed.

(** The child of the run above exits with status 7 and its parent reaps it. *)
Definition run_k4 : kernel := exit_finish SCHED_MLFQ 2 1 7 (dispatched 2 run_k3).

Lemma demo_run_exit : rtc (life_step SCHED_MLFQ) boot_run (mk_lrun run_k4 [] (λ _, InNone)).
Proof.
  eapply rtc_r; [eapply rtc_r; [eapply rtc_r; [apply demo_run|]|]|].
  - apply ls_quiet, (quiet_dispatched 2).
  - apply (ls_pick _ _ _ _ 2 1); [by vm_compute|by vm_compute|set_solver|by vm_compute].
  - apply ls_finish with (lv := [(2%nat, 1%nat)]); [by vm_compute|done].
Qed.

Lemma demo_waitpid : (waitpid 1 3 true true false run_k4).1 = WRet 3 (Some 7).
Proof. by vm_compute. Qed.

Lemma demo_runs : runs run_k4 1.
Proof. by vm_compute. Qed.

Lemma waitpid_reaps_once_witness :
  let k' := (waitpid 1 3 true true false run_k4).2 in
  (waitpid 1 3 true true false run_k4).1 = WRet 3 (Some 7) ∧
  ∀ j, state (get_proc k' j) ≠ UNUSED → pid (get_proc k' j) ≠ 3.
Proof.
  cbv zeta. pose proof demo_waitpid as E. split; [exact E|].
  destruct (waitpid 1 3 true true false run_k4) as [o k'] eqn:Ew. simpl in E. subst o.
  destruct (waitpid_reaps_once SCHED_MLFQ _ 1 3 true true false 3 (Some 7) k'
    demo_run_exit demo_runs Ew) as (i & _ & _ & _ & _ & Hno & _). exact Hno.
Defined.
