(* ===== verification/Swap.v ===== *)
(** * The swap area (src/kernel/mm/swap.c)

    The map of swap slots and the page buffer in front of the swap area. [slots]
    is what the blocks of a slot hold, as seen through the buffer cache; the
    statistics of swap_throttle(), which only delay the caller, are left out. *)

From S2P Require Import Prelude KState.

Definition SWAP_PAGES : nat := 512.
Definition SWAP_PBUF_SIZE : nat := 64.

Record swap_pbuf_entry := mk_pbuf { pb_valid : bool; pb_slot : Z; pb_pa : Z }.

#[export] Instance pbuf_rebuild : Rebuild swap_pbuf_entry := λ e,
  mk_pbuf (pb_valid e) (pb_slot e) (pb_pa e).
#[export] Instance pb_valid_set : Setter pb_valid := ltac:(solve_setter).

#[export] Instance pbuf_inhabited : Inhabited swap_pbuf_entry := populate (mk_pbuf false 0 0).

Record swap := mk_swap {
  swapready : bool;
  swapmap : list bool;
  swap_hint : Z;
  swap_pbuf : list swap_pbuf_entry;
  swap_pbuf_hand : nat;
  swap_pbuf_cached : Z;
  swap_pbuf_hits : Z;
  swap_pbuf_misses : Z;
  slots : Z → list Z;
}.

#[export] Instance swap_rebuild : Rebuild swap := λ s,
  mk_swap (swapready s) (swapmap s) (swap_hint s) (swap_pbuf s) (swap_pbuf_hand s)
    (swap_pbuf_cached s) (swap_pbuf_hits s) (swap_pbuf_misses s) (slots s).
#[export] Instance swapmap_set : Setter swapmap := ltac:(solve_setter).
#[export] Instance swap_hint_set : Setter swap_hint := ltac:(solve_setter).
#[export] Instance swap_pbuf_set : Setter swap_pbuf := ltac:(solve_setter).
#[export] Instance swap_pbuf_hand_set : Setter swap_pbuf_hand := ltac:(solve_setter).
#[export] Instance swap_pbuf_cached_set : Setter swap_pbuf_cached := ltac:(solve_setter).
#[export] Instance swap_pbuf_hits_set : Setter swap_pbuf_hits := ltac:(solve_setter).
#[export] Instance swap_pbuf_misses_set : Setter swap_pbuf_misses := ltac:(solve_setter).
#[export] Instance slots_set : Setter slots := ltac:(solve_setter).

(** The state after swapinit(), when the swap area fits on the disk. *)
Definition swapinit (sl : Z → list Z) : swap :=
  mk_swap true (replicate SWAP_PAGES false) 0 (replicate SWAP_PBUF_SIZE (mk_pbuf false 0 0))
    0 0 0 0 sl.

(** ** Slots *)

(** idx of the i-th turn of the loop. *)
Definition probe (hint : Z) (i : nat) : nat :=
  Z.to_nat (u32 (hint + Z.of_nat i) `mod` Z.of_nat SWAP_PAGES).

Definition swap_alloc (s : swap) : Z * swap :=
  match find_index (λ i, negb (swapmap s !!! probe (swap_hint s) i)) (seq 0 SWAP_PAGES) with
  | None => (-1, s)
  | Some i =>
      let idx := probe (swap_hint s) i in
      (Z.of_nat idx, s <| swapmap := <[idx := true]> (swapmap s) |>
                       <| swap_hint := (Z.of_nat idx + 1) `mod` Z.of_nat SWAP_PAGES |>)
  end.

Definition swapfree (slot : Z) (s : swap) : swap :=
  if Z.of_nat SWAP_PAGES <=? slot then s
  else s <| swapmap := <[Z.to_nat slot := false]> (swapmap s) |>.

Definition swap_write (slot : Z) (bs : list Z) (s : swap) : swap :=
  s <| slots := λ n, if n =? slot then bs else slots s n |>.

Definition swap_read (slot : Z) (s : swap) : list Z := slots s slot.

(** ** The page buffer *)

(** The page that is to be given to kfree(), and the new state. *)
Definition swap_pbuf_put (slot pa : Z) (s : swap) : option Z * swap :=
  let idx := swap_pbuf_hand s in
  let e := swap_pbuf s !!! idx in
  let old := if pb_valid e then Some (pb_pa e) else None in
  let s := if pb_valid e && (0 <? swap_pbuf_cached s)
           then s <| swap_pbuf_cached := swap_pbuf_cached s - 1 |> else s in
  (old, s <| swap_pbuf := <[idx := mk_pbuf true slot pa]> (swap_pbuf s) |>
          <| swap_pbuf_cached := swap_pbuf_cached s + 1 |>
          <| swap_pbuf_hand := ((idx + 1) `mod` SWAP_PBUF_SIZE)%nat |>).

(** [None] is the null pointer. *)
Definition swap_pbuf_get (slot : Z) (s : swap) : option Z * swap :=
  match find_index (λ e, pb_valid e && (pb_slot e =? slot)) (swap_pbuf s) with
  | Some i =>
      let s' := s <| swap_pbuf := alter (λ e, e <| pb_valid := false |>) i (swap_pbuf s) |>
                  <| swap_pbuf_hits := swap_pbuf_hits s + 1 |> in
      (Some (pb_pa (swap_pbuf s !!! i)),
       if 0 <? swap_pbuf_cached s then s' <| swap_pbuf_cached := swap_pbuf_cached s - 1 |> else s')
  | None => (None, s <| swap_pbuf_misses := swap_pbuf_misses s + 1 |>)
  end.

Definition swap_pbuf_stats (s : swap) : Z * Z * Z :=
  (swap_pbuf_hits s, swap_pbuf_misses s, swap_pbuf_cached s).

(** ** Lemmas *)

(** What every operation keeps. *)
Record swap_wf (s : swap) : Prop := {
  sw_map : length (swapmap s) = SWAP_PAGES;
  sw_hint : 0 ≤ swap_hint s < Z.of_nat SWAP_PAGES;
  sw_buf : length (swap_pbuf s) = SWAP_PBUF_SIZE;
  sw_hand : (swap_pbuf_hand s < SWAP_PBUF_SIZE)%nat;
  sw_cached : swap_pbuf_cached s = Z.of_nat (length (filter (λ e, pb_valid e = true) (swap_pbuf s)));
}.

Lemma probe_onto hint j :
  0 ≤ hint < Z.of_nat SWAP_PAGES → (j < SWAP_PAGES)%nat →
  ∃ i, (i < SWAP_PAGES)%nat ∧ probe hint i = j.
Proof.
  intros Hh Hj. exists (Z.to_nat ((Z.of_nat j - hint) `mod` Z.of_nat SWAP_PAGES)).
  pose proof (Z.mod_pos_bound (Z.of_nat j - hint) (Z.of_nat SWAP_PAGES) ltac:(done)) as Hm.
  split; [lia|]. unfold probe. rewrite Z2Nat.id by lia. unfold u32.
  rewrite (Z.mod_small (hint + _) (2 ^ 32)) by (unfold SWAP_PAGES in *; lia).
  rewrite Zplus_mod_idemp_r. replace (hint + (Z.of_nat j - hint)) with (Z.of_nat j) by lia.
  rewrite Z.mod_small by lia. lia.
Qed.

Lemma probe_lt hint i : (probe hint i < SWAP_PAGES)%nat.
Proof.
  unfold probe. pose proof (Z.mod_pos_bound (u32 (hint + Z.of_nat i)) (Z.of_nat SWAP_PAGES) ltac:(done)).
  lia.
Qed.

(** swap_alloc() takes a free slot and fails only when there is none. *)
Lemma swap_alloc_spec s :
  swap_wf s →
  match swap_alloc s with
  | (slot, s') =>
      if 0 <=? slot
      then slot < Z.of_nat SWAP_PAGES ∧ swapmap s !! Z.to_nat slot = Some false ∧
           swapmap s' = <[Z.to_nat slot := true]> (swapmap s) ∧ swap_wf s'
      else slot = -1 ∧ s' = s ∧ ∀ j, (j < SWAP_PAGES)%nat → swapmap s !! j = Some true
  end.
Proof.
  intros Hwf. pose proof Hwf as [H1 H2 H3 H4 H5]. unfold swap_alloc.
  destruct (find_index _ _) as [i|] eqn:Hf.
  - apply find_index_Some in Hf as [(n & Hn & Hfree%negb_true_iff) _].
    apply lookup_seq in Hn as [-> Hi]. simpl in Hfree.
    pose proof (probe_lt (swap_hint s) i) as Hlt. rewrite (proj2 (Z.leb_le _ _)) by lia.
    rewrite Nat2Z.id. split_and!; [lia| |done|].
    + destruct (lookup_lt_is_Some_2 (swapmap s) (probe (swap_hint s) i)) as [b Hb]; [by rewrite H1|].
      rewrite Hb. apply list_lookup_total_correct in Hb. simpl in Hfree. congruence.
    + constructor; simpl; try done; [by rewrite length_insert|].
      apply Z.mod_pos_bound. done.
  - simpl. split_and!; [done..|]. intros j Hj. destruct (probe_onto (swap_hint s) j H2 Hj) as (i & Hi & Hp).
    destruct (lookup_lt_is_Some_2 (swapmap s) j) as [b Hb]; [by rewrite H1|].
    pose proof (find_index_None _ _ Hf i ltac:(apply elem_of_seq; lia)) as Hn. simpl in Hn.
    rewrite Hp, (list_lookup_total_correct _ _ _ Hb) in Hn. by destruct b.
Qed.

(** The buffer may answer for a slot that has been freed and taken again. All
    slots but the last are in use; a page goes out to the last slot, its address
    space is torn down (swapfree), another page goes out to that slot, and
    reading it back gives the page of the first. *)
Definition nearly_full : swap :=
  (swapinit (λ _, [])) <| swapmap := replicate 511 true ++ [false] |> <| swap_hint := 511 |>.

Example swap_pbuf_stale :
  let '(slot1, s1) := swap_alloc nearly_full in
  let s2 := (swap_pbuf_put slot1 (KERNBASE + PGSIZE) s1).2 in
  let '(slot2, s3) := swap_alloc (swapfree slot1 s2) in
  let s4 := (swap_pbuf_put slot2 (KERNBASE + 2 * PGSIZE) s3).2 in
  slot2 = slot1 ∧ (swap_pbuf_get slot2 s4).1 = Some (KERNBASE + PGSIZE).
Proof. vm_compute. done. Qed.
