(* ===== verification/Vm.v ===== *)
(** * Page tables (src/kernel/mm/vm.c)

    Physical memory is a function from addresses to bytes; a page table is where
    the code has it, in 512 little-endian words of a physical page. [km] is the
    page allocator, [sw] the swap area. kalloc() is its attempt kalloc_try(): it
    returns 0 instead of swapping pages out. A panic is [None]; a null [pte_t *]
    is the inner [None]. *)

From stdpp Require Import list_numbers gmap.
From S2P Require Import Prelude Mem KState Kalloc Swap.

(** ** The machine *)

Record machine := mk_machine { km : kmem; ram : Z → Z; sw : swap }.

#[export] Instance machine_rebuild : Rebuild machine := λ s, mk_machine (km s) (ram s) (sw s).
#[export] Instance km_set : Setter km := ltac:(solve_setter).
#[export] Instance ram_set : Setter ram := ltac:(solve_setter).
#[export] Instance sw_set : Setter sw := ltac:(solve_setter).

(** ** Page table entries *)

Definition PTE_V : Z := 1.
Definition PTE_R : Z := 2.
Definition PTE_W : Z := 4.
Definition PTE_X : Z := 8.
Definition PTE_U : Z := 16.
Definition PTE_A : Z := 64.
Definition PTE_F : Z := 256.
Definition PTE_S : Z := 512.

Definition PA2PTE (pa : Z) : Z := u64 (Z.shiftl (Z.shiftr pa 12) 10).
Definition PTE2PA (pte : Z) : Z := u64 (Z.shiftl (Z.shiftr pte 10) 12).
Definition PTE_FLAGS (pte : Z) : Z := Z.land pte 0x3FF.
Definition PTE2SWAP (pte : Z) : Z := Z.shiftr pte 10.
Definition SWAP2PTE (slot : Z) : Z := u64 (Z.shiftl slot 10).

Definition PX (level : nat) (va : Z) : Z := Z.land (Z.shiftr va (12 + 9 * Z.of_nat level)) 0x1FF.

(** [pte & f], as a condition. *)
Definition has (f pte : Z) : bool := negb (Z.land pte f =? 0).

Definition TRAMPOLINE : Z := MAXVA - PGSIZE.
Definition TRAPFRAME : Z := TRAMPOLINE - PGSIZE.

(** The number of turns of [for (a = start; a < limit; a += PGSIZE)]. *)
Definition page_count (start limit : Z) : nat := Z.to_nat ((limit - start + PGSIZE - 1) / PGSIZE).

Section vm.
(** The end of the kernel image and the hart that runs the code. *)
Context (kend : Z) (id : nat).

(** ** Pages *)

Definition kalloc (st : machine) : option Z * machine :=
  match kalloc_try id (km st) with
  | (None, m) => (None, st <| km := m |>)
  | (Some r, m) => (Some r, st <| km := m |> <| ram := memset r 5 PGSIZE (ram st) |>)
  end.

Definition page_free (pa : Z) (st : machine) : option machine :=
  match ref_drop kend pa (km st) with
  | None => None
  | Some (false, m) => Some (st <| km := m |>)
  | Some (true, m) =>
      Some (st <| km := push_page id pa m |> <| ram := memset pa 1 PGSIZE (ram st) |>)
  end.

Definition share_page (pa : Z) (st : machine) : machine :=
  st <| km := (kaddrefcnt kend pa (km st)).2 |>.

Definition store_pte (a v : Z) (st : machine) : machine := st <| ram := store64 a v (ram st) |>.

Definition load_pte (a : Z) (st : machine) : Z := load64 (ram st) a.

(** ** The walk *)

(** The loop of walk() from [level] down, at the page [pagetable]. *)
Fixpoint walk_loop (level : nat) (pagetable va : Z) (alloc : bool) (st : machine)
    : option Z * machine :=
  match level with
  | O => (Some (pagetable + 8 * PX 0 va), st)
  | S l =>
      let a := pagetable + 8 * PX level va in
      let pte := load_pte a st in
      if has PTE_V pte then walk_loop l (PTE2PA pte) va alloc st
      else if negb alloc then (None, st)
      else match kalloc st with
           | (None, st) => (None, st)
           | (Some p, st) =>
               let st := st <| ram := memset p 0 PGSIZE (ram st) |> in
               walk_loop l p va alloc (store_pte a (Z.lor (PA2PTE p) PTE_V) st)
           end
  end.

Definition walk (pagetable va : Z) (alloc : bool) (st : machine) : option (option Z * machine) :=
  if MAXVA <=? va then None else Some (walk_loop 2 pagetable va alloc st).

(** ** Mapping and unmapping *)

(** The loop of mappages(); [fuel] turns are left. *)
Fixpoint map_loop (fuel : nat) (pagetable a last pa perm : Z) (st : machine) : option (Z * machine) :=
  match fuel with
  | O => None
  | S fuel =>
      '(o, st) ← walk pagetable a true st;
      match o with
      | None => Some (-1, st)
      | Some slot =>
          if has PTE_V (load_pte slot st) then None
          else
            let st := store_pte slot (Z.lor (Z.lor (PA2PTE pa) perm) PTE_V) st in
            if a =? last then Some (0, st)
            else map_loop fuel pagetable (u64 (a + PGSIZE)) last (u64 (pa + PGSIZE)) perm st
      end
  end.

(** When [last] is below the first page the loop runs into the panic of walk(). *)
Definition mappages (pagetable va size pa perm : Z) (st : machine) : option (Z * machine) :=
  let a := PGROUNDDOWN va in
  let last := PGROUNDDOWN (u64 (va + size - 1)) in
  map_loop (S (page_count a (if a <=? last then last else MAXVA))) pagetable a last pa perm st.

Definition kvmmap (kernel_pagetable va pa sz perm : Z) (st : machine) : option machine :=
  '(r, st) ← mappages kernel_pagetable va sz pa perm st;
  if negb (r =? 0) then None else Some st.

Definition kvmpa (kernel_pagetable va : Z) (st : machine) : option Z :=
  '(o, st) ← walk kernel_pagetable va false st;
  slot ← o;
  let pte := load_pte slot st in
  if negb (has PTE_V pte) then None else Some (u64 (PTE2PA pte + va `mod` PGSIZE)).

(** One turn of the loop of uvmunmap(). *)
Definition unmap_body (pagetable : Z) (do_free : bool) (o : option machine) (a : Z)
    : option machine :=
  st ← o;
  '(w, st) ← walk pagetable a false st;
  match w with
  | None => Some st
  | Some slot =>
      let pte := load_pte slot st in
      if negb (has PTE_V pte) then
        let st := if do_free && has PTE_S pte
                  then st <| sw := swapfree (PTE2SWAP pte) (sw st) |> else st in
        Some (store_pte slot 0 st)
      else if PTE_FLAGS pte =? PTE_V then None
      else
        st ← (if do_free then page_free (PTE2PA pte) st else Some st);
        Some (store_pte slot 0 st)
  end.

Definition page_seq (start : Z) (n : nat) : list Z := (λ i, start + PGSIZE * i) <$> seqZ 0 (Z.of_nat n).

Definition uvmunmap (pagetable va npages : Z) (do_free : bool) (st : machine) : option machine :=
  if negb (va `mod` PGSIZE =? 0) then None
  else foldl (unmap_body pagetable do_free) (Some st)
         (page_seq va (page_count va (u64 (va + npages * PGSIZE)))).

Definition uvmcreate (st : machine) : option Z * machine :=
  match kalloc st with
  | (None, st) => (None, st)
  | (Some p, st) => (Some p, st <| ram := memset p 0 PGSIZE (ram st) |>)
  end.

Definition uvmdealloc (pagetable oldsz newsz : Z) (st : machine) : option (Z * machine) :=
  if oldsz <=? newsz then Some (oldsz, st)
  else
    st ← (if PGROUNDUP newsz <? PGROUNDUP oldsz
          then uvmunmap pagetable (PGROUNDUP newsz)
                 (i32 ((PGROUNDUP oldsz - PGROUNDUP newsz) / PGSIZE)) true st
          else Some st);
    Some (newsz, st).

(** One turn of the loop of uvmalloc(); the flag tells that it has returned 0. *)
Definition alloc_body (pagetable oldsz : Z) (o : option (bool * machine)) (a : Z)
    : option (bool * machine) :=
  '(failed, st) ← o;
  if failed : bool then Some (true, st)
  else match kalloc st with
       | (None, st) => '(_, st) ← uvmdealloc pagetable a oldsz st; Some (true, st)
       | (Some mem, st) =>
           let st := st <| ram := memset mem 0 PGSIZE (ram st) |> in
           '(r, st) ← mappages pagetable a PGSIZE mem
                        (Z.lor (Z.lor (Z.lor PTE_W PTE_X) PTE_R) PTE_U) st;
           if negb (r =? 0) then
             st ← page_free mem st;
             '(_, st) ← uvmdealloc pagetable a oldsz st; Some (true, st)
           else Some (false, st)
       end.

Definition uvmalloc (pagetable oldsz newsz : Z) (st : machine) : option (Z * machine) :=
  if newsz <? oldsz then Some (oldsz, st)
  else
    let oldsz := PGROUNDUP oldsz in
    '(failed, st) ← foldl (alloc_body pagetable oldsz) (Some (false, st))
                      (page_seq oldsz (page_count oldsz newsz));
    Some (if failed : bool then 0 else newsz, st).

(** [depth] bounds the recursion; page tables have three levels. *)
Fixpoint freewalk (depth : nat) (pagetable : Z) (st : machine) : option machine :=
  match depth with
  | O => None
  | S depth =>
      st ← foldl (λ o i,
             st ← o;
             let pte := load_pte (pagetable + 8 * i) st in
             if has PTE_V pte && (Z.land pte (Z.lor (Z.lor PTE_R PTE_W) PTE_X) =? 0) then
               st ← freewalk depth (PTE2PA pte) st;
               Some (store_pte (pagetable + 8 * i) 0 st)
             else Some st) (Some st) (seqZ 0 512);
      page_free pagetable st
  end.

Definition uvmfree (pagetable sz : Z) (st : machine) : option machine :=
  st ← (if 0 <? sz then uvmunmap pagetable 0 (PGROUNDUP sz / PGSIZE) true st else Some st);
  freewalk 3 pagetable st.

Definition uvmclear (pagetable va : Z) (st : machine) : option machine :=
  '(o, st) ← walk pagetable va false st;
  slot ← o;
  Some (store_pte slot (Z.ldiff (load_pte slot st) PTE_U) st).

(** ** Swapped pages *)

Definition swapin (pagetable va : Z) (st : machine) : option (Z * machine) :=
  if negb (swapready (sw st)) then Some (-1, st)
  else
    '(o, st) ← walk pagetable va false st;
    match o with
    | None => Some (1, st)
    | Some slot =>
        let pte := load_pte slot st in
        if negb (has PTE_S pte) then Some (1, st)
        else
          let n := PTE2SWAP pte in
          let '(b, s) := swap_pbuf_get (u32 n) (sw st) in
          let st := st <| sw := s |> in
          let '(mem, st) :=
            match b with
            | Some p => (Some p, st)
            | None => match kalloc st with
                      | (None, st) => (None, st)
                      | (Some p, st) =>
                          (Some p, st <| ram := store_bytes p (swap_read n (sw st)) (ram st) |>)
                      end
            end in
          match mem with
          | None => Some (-1, st)
          | Some p =>
              let st := st <| sw := swapfree n (sw st) |> in
              let flags := Z.lor (Z.ldiff (PTE_FLAGS (load_pte slot st)) PTE_S) PTE_V in
              Some (0, store_pte slot (Z.lor (PA2PTE p) flags) st)
          end
    end.

Definition swapcopy (pagetable va src_pte : Z) (st : machine) : option (Z * machine) :=
  if negb (swapready (sw st)) then Some (-1, st)
  else
    let '(newslot, s) := swap_alloc (sw st) in
    let st := st <| sw := s |> in
    if newslot <? 0 then Some (-1, st)
    else
      let st := st <| sw := swap_write newslot (swap_read (PTE2SWAP src_pte) (sw st)) (sw st) |> in
      '(o, st) ← walk pagetable va true st;
      match o with
      | None => Some (-1, st <| sw := swapfree newslot (sw st) |>)
      | Some slot =>
          let flags := Z.lor (Z.ldiff (PTE_FLAGS src_pte) PTE_V) PTE_S in
          Some (0, store_pte slot (Z.lor (SWAP2PTE newslot) flags) st)
      end.

(** A return value of 0 is [None]. *)
Definition walkaddr (pagetable va : Z) (st : machine) : option (option Z * machine) :=
  if MAXVA <=? va then Some (None, st)
  else
    '(o, st) ← walk pagetable va false st;
    match o with
    | None => Some (None, st)
    | Some slot =>
        '(r, st) ← (if has PTE_V (load_pte slot st) then Some (Some slot, st)
                    else if has PTE_S (load_pte slot st) then
                      '(r, st) ← swapin pagetable (PGROUNDDOWN va) st;
                      if r =? 0 then walk pagetable va false st else Some (None, st)
                    else Some (None, st));
        match r with
        | None => Some (None, st)
        | Some slot =>
            let pte := load_pte slot st in
            let pa := PTE2PA pte in
            Some (if has PTE_V pte && has PTE_U pte && negb (pa =? 0) then Some pa else None, st)
        end
    end.

(** ** Copies of address spaces *)

(** One turn of the loop of uvmcopy(); the flag tells that it has returned -1. *)
Definition copy_body (old new : Z) (o : option (bool * machine)) (i : Z) : option (bool * machine) :=
  '(failed, st) ← o;
  if failed : bool then Some (true, st)
  else
    '(w, st) ← walk old i false st;
    match w with
    | None => Some (false, st)
    | Some slot =>
        let pte := load_pte slot st in
        if negb (has PTE_V pte) then
          if has PTE_S pte then
            '(r, st) ← swapcopy new i pte st;
            if r <? 0 then st ← uvmunmap new 0 (i / PGSIZE) true st; Some (true, st)
            else Some (false, st)
          else Some (false, st)
        else
          let pa := PTE2PA pte in
          let flags := PTE_FLAGS pte in
          let '(flags, st) :=
            if has PTE_W flags then
              let flags := Z.ldiff (Z.lor flags PTE_F) PTE_W in
              (flags, store_pte slot (Z.lor (PA2PTE pa) flags) st)
            else (flags, st) in
          '(r, st) ← mappages new i PGSIZE pa flags st;
          if negb (r =? 0) then st ← uvmunmap new 0 (i / PGSIZE) true st; Some (true, st)
          else Some (false, share_page pa st)
    end.

Definition uvmcopy (old new sz : Z) (st : machine) : option (Z * machine) :=
  '(failed, st) ← foldl (copy_body old new) (Some (false, st)) (page_seq 0 (page_count 0 sz));
  Some (if failed : bool then -1 else 0, st).

(** One turn of the loop of uvmshare(). *)
Definition share_body (old new : Z) (o : option (bool * machine)) (i : Z) : option (bool * machine) :=
  '(failed, st) ← o;
  if failed : bool then Some (true, st)
  else
    '(w, st) ← walk old i false st;
    match w with
    | None => Some (false, st)
    | Some slot =>
        '(r, w, st) ← (if has PTE_V (load_pte slot st) then Some (0, Some slot, st)
                       else if has PTE_S (load_pte slot st) then
                         '(r, st) ← swapin old i st;
                         if r <? 0 then Some (r, None, st)
                         else '(w, st) ← walk old i false st; Some (r, w, st)
                       else Some (0, None, st));
        if r <? 0 then st ← uvmunmap new 0 (i / PGSIZE) true st; Some (true, st)
        else match w with
             | None => Some (false, st)
             | Some slot =>
                 let pte := load_pte slot st in
                 if negb (has PTE_V pte) then Some (false, st)
                 else
                   '(r, st) ← mappages new i PGSIZE (PTE2PA pte) (PTE_FLAGS pte) st;
                   if negb (r =? 0) then st ← uvmunmap new 0 (i / PGSIZE) true st; Some (true, st)
                   else Some (false, share_page (PTE2PA pte) st)
             end
    end.

Definition uvmshare (old new sz : Z) (st : machine) : option (Z * machine) :=
  '(failed, st) ← foldl (share_body old new) (Some (false, st)) (page_seq 0 (page_count 0 sz));
  Some (if failed : bool then -1 else 0, st).

(** ** Copy on write (src/kernel/mm/kalloc.c) *)

(** cowpage() returns 0. *)
Definition cowpage (pagetable va : Z) (st : machine) : bool :=
  if MAXVA <=? va then false
  else match walk pagetable va false st with
       | Some (Some slot, st) => has PTE_V (load_pte slot st) && has PTE_F (load_pte slot st)
       | _ => false
       end.

Definition cowalloc (pagetable va : Z) (st : machine) : option (option Z * machine) :=
  if negb (va `mod` PGSIZE =? 0) then Some (None, st)
  else
    '(o, st) ← walkaddr pagetable va st;
    match o with
    | None => Some (None, st)
    | Some pa =>
        '(w, st) ← walk pagetable va false st;
        slot ← w;
        let pte := load_pte slot st in
        if krefcnt pa (km st) =? 1 then
          Some (Some pa, store_pte slot (Z.ldiff (Z.lor pte PTE_W) PTE_F) st)
        else
          match kalloc st with
          | (None, st) => Some (None, st)
          | (Some mem, st) =>
              let st := st <| ram := memmove mem pa PGSIZE (ram st) |> in
              let pte := Z.ldiff (load_pte slot st) PTE_V in
              let st := store_pte slot pte st in
              '(r, st) ← mappages pagetable va PGSIZE mem
                           (Z.ldiff (Z.lor (PTE_FLAGS pte) PTE_W) PTE_F) st;
              if negb (r =? 0) then
                st ← page_free mem st;
                Some (None, store_pte slot (Z.lor (load_pte slot st) PTE_V) st)
              else
                st ← page_free (PGROUNDDOWN pa) st;
                Some (Some mem, st)
          end
    end.

End vm.

(** ** Bits of page table entries *)

Lemma testbit_small f n : 0 ≤ f < 1024 → 10 ≤ n → Z.testbit f n = false.
Proof.
  intros Hf Hn. destruct (decide (f = 0)) as [->|]; [apply Z.testbit_0_l|].
  apply Z.bits_above_log2; [lia|]. assert (Z.log2 f < 10); [|lia]. apply Z.log2_lt_pow2; lia.
Qed.

Lemma bits_small v : (∀ n, 10 ≤ n → Z.testbit v n = false) → 0 ≤ v < 1024.
Proof.
  intros H. replace v with (v `mod` 2 ^ 10); [apply Z.mod_pos_bound; lia|].
  rewrite <-Z.land_ones by lia. apply Z.bits_inj'. intros n Hn. rewrite Z.land_spec.
  destruct (decide (n < 10)); [rewrite Z.ones_spec_low by lia; by rewrite andb_true_r|].
  rewrite H by lia. done.
Qed.

(** An entry for frame number [x] with the ten low bits [f]. *)
Definition frame_pte (x f : Z) : Z := Z.lor (Z.shiftl x 10) f.

Section bits.
Context (x f g : Z) (Hx : 0 ≤ x < 2 ^ 44) (Hf : 0 ≤ f < 1024) (Hg : 0 ≤ g < 1024).

Lemma frame_pte_land : Z.land (frame_pte x f) g = Z.land f g.
Proof using Hx Hf Hg.
  apply Z.bits_inj'. intros n Hn. unfold frame_pte. rewrite !Z.land_spec, Z.lor_spec.
  destruct (decide (n < 10)); [rewrite Z.shiftl_spec_low by lia; done|].
  rewrite (testbit_small g) by lia. by rewrite !andb_false_r.
Qed.

Lemma frame_pte_lor : Z.lor (frame_pte x f) g = frame_pte x (Z.lor f g).
Proof. unfold frame_pte. by rewrite Z.lor_assoc. Qed.

Lemma frame_pte_ldiff : Z.ldiff (frame_pte x f) g = frame_pte x (Z.ldiff f g).
Proof using Hx Hf Hg.
  apply Z.bits_inj'. intros n Hn. unfold frame_pte. rewrite !Z.ldiff_spec, !Z.lor_spec, Z.ldiff_spec.
  destruct (decide (n < 10)); [rewrite Z.shiftl_spec_low by lia; done|].
  rewrite (testbit_small g) by lia. simpl. by rewrite !andb_true_r.
Qed.

Lemma frame_pte_has : has g (frame_pte x f) = has g f.
Proof using Hx Hf Hg. unfold has. by rewrite frame_pte_land. Qed.

Lemma flags_lor : 0 ≤ Z.lor f g < 1024.
Proof using Hf Hg.
  apply bits_small. intros n Hn. rewrite Z.lor_spec, !testbit_small by lia. done.
Qed.

Lemma flags_ldiff : 0 ≤ Z.ldiff f g < 1024.
Proof using Hf Hg.
  apply bits_small. intros n Hn. rewrite Z.ldiff_spec, !testbit_small by lia. done.
Qed.

Lemma frame_pte_add : frame_pte x f = x * 1024 + f.
Proof using Hx Hf.
  assert (Z.land (Z.shiftl x 10) f = 0) as H0.
  { apply Z.bits_inj'. intros n Hn. rewrite Z.land_spec, Z.testbit_0_l.
    destruct (decide (n < 10)); [by rewrite Z.shiftl_spec_low by lia|].
    rewrite (testbit_small f) by lia. by rewrite andb_false_r. }
  unfold frame_pte. rewrite <-Z.lxor_lor, <-Z.add_nocarry_lxor, Z.shiftl_mul_pow2 by (done || lia).
  done.
Qed.

Lemma frame_pte_range : 0 ≤ frame_pte x f < 2 ^ 64.
Proof using Hx Hf. rewrite frame_pte_add. lia. Qed.

Lemma frame_pte_pa : PTE2PA (frame_pte x f) = x * PGSIZE.
Proof using Hx Hf.
  unfold PTE2PA. rewrite Z.shiftr_div_pow2, Z.shiftl_mul_pow2, frame_pte_add by lia.
  rewrite <-(Z.div_unique (x * 1024 + f) (2 ^ 10) x f) by lia.
  apply u64_small. unfold PGSIZE. lia.
Qed.

Lemma frame_pte_flags : PTE_FLAGS (frame_pte x f) = f.
Proof using Hx Hf.
  unfold PTE_FLAGS. change 0x3FF with (Z.ones 10). rewrite Z.land_ones, frame_pte_add by lia.
  symmetry. apply (Z.mod_unique _ _ x); lia.
Qed.

Lemma frame_pte_of_pa : PA2PTE (x * PGSIZE) = frame_pte x 0.
Proof using Hx.
  unfold PA2PTE, frame_pte. rewrite Z.shiftr_div_pow2, Z.lor_0_r by lia.
  change (2 ^ 12) with PGSIZE. rewrite Z.div_mul by done. apply u64_small.
  rewrite Z.shiftl_mul_pow2 by lia. lia.
Qed.
End bits.

(** ** Page tables as trees

    [own] tells for every page of a page table which table it belongs to (by its
    root page), its level, and the address bits that lead to it: the page at
    level [l] with prefix [x] serves the addresses [va] with
    [va / 2 ^ (12 + 9 * (l + 1)) = x]. *)
Abbreviation owners := (gmap Z (Z * nat * Z)).

(** The entry that the hardware finds for [va] from the page [p] at level [l];
    0 when a table is missing. *)
Fixpoint tr (m : Z → Z) (l : nat) (p va : Z) : Z :=
  match l with
  | O => load64 m (p + 8 * PX 0 va)
  | S l' =>
      let e := load64 m (p + 8 * PX l va) in
      if has PTE_V e then tr m l' (PTE2PA e) va else 0
  end.

Lemma tr_O m p va : tr m 0 p va = load64 m (p + 8 * PX 0 va).
Proof. done. Qed.

Lemma tr_S m l p va :
  tr m (S l) p va =
  if has PTE_V (load64 m (p + 8 * PX (S l) va))
  then tr m l (PTE2PA (load64 m (p + 8 * PX (S l) va))) va else 0.
Proof. done. Qed.

#[global] Arguments tr : simpl never.

Definition covers (l : nat) (x va : Z) : Prop := 0 ≤ va ∧ va / 2 ^ (12 + 9 * Z.of_nat (S l)) = x.

Definition page_ok (p : Z) : Prop := p `mod` PGSIZE = 0 ∧ 0 < p < 2 ^ 56.

Record tree (m : Z → Z) (own : owners) : Prop := {
  t_page p t : own !! p = Some t → page_ok p;
  t_root p r l x : own !! p = Some (r, l, x) → own !! r = Some (r, 2%nat, 0);
  t_level p r l x : own !! p = Some (r, l, x) → (l ≤ 2)%nat ∧ 0 ≤ x ∧ (l = 2%nat → p = r ∧ x = 0);
  t_uniq p q r l x : own !! p = Some (r, l, x) → own !! q = Some (r, l, x) → p = q;
  t_entry p r l x i : own !! p = Some (r, S l, x) → 0 ≤ i < 512 →
    let e := load64 m (p + 8 * i) in
    has PTE_V e = true → own !! PTE2PA e = Some (r, l, x * 512 + i);
  t_reach q r l x : own !! q = Some (r, l, x) → (l < 2)%nat →
    ∃ p, own !! p = Some (r, S l, x / 512) ∧
      let e := load64 m (p + 8 * (x `mod` 512)) in has PTE_V e = true ∧ PTE2PA e = q;
}.

Lemma PX_range l va : 0 ≤ PX l va < 512.
Proof.
  unfold PX. change 0x1FF with (Z.ones 9). rewrite Z.land_ones by lia. apply Z.mod_pos_bound. lia.
Qed.

Lemma PX_mod l va : PX l va = (va / 2 ^ (12 + 9 * Z.of_nat l)) `mod` 512.
Proof.
  unfold PX. change 0x1FF with (Z.ones 9). rewrite Z.land_ones, Z.shiftr_div_pow2 by lia. reflexivity.
Qed.

(** The index at a level is the next nine bits of the prefix. *)
Lemma covers_step l x va :
  covers l x va → va / 2 ^ (12 + 9 * Z.of_nat l) = x * 512 + PX l va.
Proof.
  intros [H0 <-]. rewrite PX_mod.
  rewrite (Z.div_mod (va / 2 ^ (12 + 9 * Z.of_nat l)) 512) at 1 by lia.
  rewrite Z.div_div by lia. replace (12 + 9 * Z.of_nat (S l)) with (12 + 9 * Z.of_nat l + 9) by lia.
  rewrite (Z.pow_add_r 2 _ 9) by lia. change (2 ^ 9) with 512. lia.
Qed.

Lemma covers_child l x va : covers (S l) x va → covers l (x * 512 + PX (S l) va) va.
Proof. intros H. split; [apply H|]. by apply covers_step. Qed.

Lemma covers_page x va : covers 0 x va → va / PGSIZE = x * 512 + PX 0 va.
Proof. intros H. by apply (covers_step 0). Qed.

Lemma covers_root va : 0 ≤ va < MAXVA → covers 2 0 va.
Proof.
  intros H. split; [lia|]. apply Z.div_small. change (2 ^ (12 + 9 * Z.of_nat 3)) with (2 ^ 39).
  change MAXVA with (2 ^ 38) in H. lia.
Qed.

Lemma pages_apart p q : page_ok p → page_ok q → p ≠ q → p + PGSIZE ≤ q ∨ q + PGSIZE ≤ p.
Proof.
  intros [[a ->]%Z.mod_divide _] [[b ->]%Z.mod_divide _] Hne; [|done..]. unfold PGSIZE in *. lia.
Qed.

(** A store to one page does not reach another. *)
Lemma load64_other_page m p q i j v :
  page_ok p → page_ok q → p ≠ q → 0 ≤ i < 512 → 0 ≤ j < 512 →
  load64 (store64 (p + 8 * i) v m) (q + 8 * j) = load64 m (q + 8 * j).
Proof.
  intros Hp Hq Hne Hi Hj. apply load64_store_ne.
  destruct (pages_apart p q Hp Hq Hne); unfold PGSIZE in *; lia.
Qed.

Lemma load64_entry m p i j v :
  0 ≤ v < 2 ^ 64 →
  load64 (store64 (p + 8 * i) v m) (p + 8 * j) = if decide (i = j) then v else load64 m (p + 8 * j).
Proof.
  intros Hv. case_decide as E; [subst; by apply load64_store_eq|]. apply load64_store_ne. lia.
Qed.

Lemma tr_agree m m' own :
  tree m own → (∀ p t a, own !! p = Some t → p ≤ a < p + PGSIZE → m' a = m a) →
  ∀ l p r x va, own !! p = Some (r, l, x) → covers l x va → tr m' l p va = tr m l p va.
Proof.
  intros Ht Hag.
  assert (∀ p t j, own !! p = Some t → 0 ≤ j < 512 → load64 m' (p + 8 * j) = load64 m (p + 8 * j)) as Hld.
  { intros p t j Hp Hj. apply load64_ext. intros y Hy. apply (Hag p t); [done|]. unfold PGSIZE. lia. }
  induction l as [|l IH]; intros p r x va Hp Hc; rewrite ?tr_O, ?tr_S.
  - by apply (Hld _ _ _ Hp), PX_range.
  - rewrite (Hld _ _ _ Hp (PX_range (S l) va)).
    destruct (has PTE_V _) eqn:Hv; [|done].
    pose proof (t_entry _ _ Ht _ _ _ _ _ Hp (PX_range (S l) va) Hv) as Hq.
    apply (IH _ r _ va Hq). by apply covers_child.
Qed.

Lemma tree_agree m m' own :
  tree m own → (∀ p t a, own !! p = Some t → p ≤ a < p + PGSIZE → m' a = m a) → tree m' own.
Proof.
  intros Ht Hag.
  assert (∀ p t j, own !! p = Some t → 0 ≤ j < 512 → load64 m' (p + 8 * j) = load64 m (p + 8 * j)) as Hld.
  { intros p t j Hp Hj. apply load64_ext. intros y Hy. apply (Hag p t); [done|]. unfold PGSIZE. lia. }
  destruct Ht as [T1 T2 T3 T4 T5 T6]. constructor; try done.
  - intros p r l x i Hp Hi. rewrite (Hld _ _ _ Hp Hi). by apply T5.
  - intros q r l x Hq Hl. destruct (T6 _ _ _ _ Hq Hl) as (p & Hp & He). exists p. split; [done|].
    rewrite (Hld _ _ _ Hp); [done|]. apply Z.mod_pos_bound. lia.
Qed.

(** The ancestors of a page that serves [va] lead to it. *)
Lemma tree_up m own n l q r a va :
  tree m own → own !! q = Some (r, n, a) → covers n a va → (n ≤ l ≤ 2)%nat →
  ∃ p, own !! p = Some (r, l, va / 2 ^ (12 + 9 * Z.of_nat (S l))).
Proof.
  intros Ht. remember (l - n)%nat as d eqn:Ed. revert n q a Ed.
  induction d as [|d IH]; intros n q a Ed Hq [H0 Ha] Hn.
  - assert (n = l) as -> by lia. exists q. by rewrite Ha.
  - destruct (t_reach _ _ Ht _ _ _ _ Hq) as (p & Hp & _); [lia|].
    apply (IH (S n) p (a / 512)); [lia|done| |lia]. split; [done|].
    rewrite <-Ha, Z.div_div by lia.
    replace (12 + 9 * Z.of_nat (S (S n))) with (12 + 9 * Z.of_nat (S n) + 9) by lia.
    by rewrite (Z.pow_add_r 2 _ 9) by lia.
Qed.

Lemma tree_path m own n l q p r a x va :
  tree m own → own !! q = Some (r, n, a) → covers n a va → (n ≤ l)%nat →
  own !! p = Some (r, S l, x) → covers (S l) x va →
  has PTE_V (load64 m (p + 8 * PX (S l) va)) = true.
Proof.
  intros Ht Hq Ha Hn Hp Hc. pose proof (PX_range (S l) va) as Hr.
  destruct (t_level _ _ Ht _ _ _ _ Hp) as [Hl2 _].
  destruct (tree_up _ _ _ l _ _ _ _ Ht Hq Ha) as (e & He); [lia|].
  pose proof (covers_child _ _ _ Hc) as [_ Hx]. rewrite Hx in He.
  destruct (t_reach _ _ Ht _ _ _ _ He) as (p' & Hp' & Hv' & _); [lia|].
  rewrite <-(Z.div_unique (x * 512 + PX (S l) va) 512 x (PX (S l) va)) in Hp' by lia.
  rewrite <-(Z.mod_unique (x * 512 + PX (S l) va) 512 x (PX (S l) va)) in Hv' by lia.
  assert (p' = p) as -> by (by eapply t_uniq). done.
Qed.

(** Writing a leaf entry changes that entry only. *)
Section leaf.
Context (m : Z → Z) (own : owners) (Ht : tree m own).
Context (q r0 x0 i w : Z) (Hq : own !! q = Some (r0, 0%nat, x0)) (Hi : 0 ≤ i < 512).
Context (Hw : 0 ≤ w < 2 ^ 64).

Lemma leaf_elsewhere p t j :
  own !! p = Some t → p ≠ q → 0 ≤ j < 512 →
  load64 (store64 (q + 8 * i) w m) (p + 8 * j) = load64 m (p + 8 * j).
Proof using Ht Hq Hi.
  intros Hp Hne Hj. apply load64_other_page; try done; [by eapply t_page..].
Qed.

Lemma tree_leaf : tree (store64 (q + 8 * i) w m) own.
Proof using Ht Hq Hi.
  assert (∀ p r l x j, own !! p = Some (r, S l, x) → 0 ≤ j < 512 →
    load64 (store64 (q + 8 * i) w m) (p + 8 * j) = load64 m (p + 8 * j)) as Hld.
  { intros p r l x j Hp Hj. eapply leaf_elsewhere; [done| |done]. intros ->. congruence. }
  destruct Ht as [T1 T2 T3 T4 T5 T6]. constructor; try done.
  - intros p r l x j Hp Hj. rewrite (Hld _ _ _ _ _ Hp Hj). by apply T5.
  - intros p r l x Hp Hl. destruct (T6 _ _ _ _ Hp Hl) as (p' & Hp' & He). exists p'. split; [done|].
    rewrite (Hld _ _ _ _ _ Hp'); [done|]. apply Z.mod_pos_bound. lia.
Qed.

Lemma tr_leaf l p r x va :
  own !! p = Some (r, l, x) → covers l x va →
  tr (store64 (q + 8 * i) w m) l p va =
    if decide (r = r0 ∧ va / PGSIZE = x0 * 512 + i) then w else tr m l p va.
Proof using Ht Hq Hi Hw.
  revert p r x. induction l as [|l IH]; intros p r x Hp Hc; rewrite ?tr_O, ?tr_S.
  - pose proof (covers_page _ _ Hc) as Hpg. pose proof (PX_range 0 va) as Hr.
    destruct (decide (p = q)) as [->|Hne].
    + rewrite Hp in Hq. injection Hq as -> ->. rewrite load64_entry by done.
      destruct (decide (i = PX 0 va)), (decide _) as [Hd|Hd]; try done; [destruct Hd; split; lia|].
      destruct Hd. lia.
    + rewrite (leaf_elsewhere _ _ _ Hp Hne Hr), decide_False; [done|]. intros [-> Hd]. apply Hne.
      assert (x = x0) as -> by lia. by eapply t_uniq.
  - pose proof (PX_range (S l) va) as Hr.
    rewrite (leaf_elsewhere _ _ _ Hp ltac:(congruence) Hr). destruct (has PTE_V _) eqn:Hv.
    + apply IH with (x := x * 512 + PX (S l) va); [|by apply covers_child].
      by apply (t_entry _ _ Ht _ _ _ _ _ Hp).
    + rewrite decide_False; [done|]. intros [-> Hd].
      rewrite (tree_path _ own 0 l q p r0 x0 x va) in Hv; try done; [|lia].
      split; [apply Hc|]. change (2 ^ (12 + 9 * Z.of_nat 1)) with (PGSIZE * 512).
      rewrite <-Z.div_div, Hd by done. symmetry. apply (Z.div_unique _ _ _ i); lia.
Qed.
End leaf.

(** Adding a page of zeros where a table was missing changes no translation. *)
Section grow.
Context (m : Z → Z) (own : owners) (Ht : tree m own).
Context (p0 r0 x0 i q : Z) (l0 : nat) (Hp0 : own !! p0 = Some (r0, S l0, x0)) (Hi : 0 ≤ i < 512).
Context (Hinv : has PTE_V (load64 m (p0 + 8 * i)) = false).
Context (Hq : own !! q = None) (Hqok : page_ok q).

Let w : Z := Z.lor (PA2PTE q) PTE_V.
Let m' : Z → Z := store64 (p0 + 8 * i) w (memset q 0 PGSIZE m).
Let own' : owners := <[q := (r0, l0, x0 * 512 + i)]> own.

Lemma grow_word : 0 ≤ w < 2 ^ 64 ∧ has PTE_V w = true ∧ PTE2PA w = q.
Proof using Hqok.
  destruct Hqok as [Hm Hr]. apply Z.mod_divide in Hm as [f Hf]; [|done].
  assert (0 ≤ f < 2 ^ 44) as Hfr by (unfold PGSIZE in Hf; lia). unfold w.
  rewrite Hf, frame_pte_of_pa, frame_pte_lor by done. change (Z.lor 0 PTE_V) with 1.
  split; [apply frame_pte_range; lia|]. split; [by rewrite frame_pte_has by (done || lia)|].
  apply frame_pte_pa; lia.
Qed.

Lemma grow_old p t j :
  own !! p = Some t → 0 ≤ j < 512 →
  load64 m' (p + 8 * j) = if decide (p = p0 ∧ j = i) then w else load64 m (p + 8 * j).
Proof using Ht Hp0 Hi Hq Hqok Hinv.
  intros Hp Hj. pose proof (t_page _ _ Ht _ _ Hp) as Hpok. pose proof (t_page _ _ Ht _ _ Hp0) as Hp0ok.
  assert (load64 (memset q 0 PGSIZE m) (p + 8 * j) = load64 m (p + 8 * j)) as Hms.
  { apply load64_ext. intros y Hy. apply memset_out.
    destruct (pages_apart p q Hpok Hqok ltac:(congruence)); unfold PGSIZE in *; lia. }
  unfold m'. destruct (decide (p = p0)) as [->|Hne].
  - rewrite load64_entry by apply grow_word. rewrite Hms.
    destruct (decide (i = j)), (decide _) as [Hd|Hd]; try done; [destruct Hd; by subst|].
    destruct Hd; congruence.
  - rewrite load64_other_page, Hms, decide_False by (done || naive_solver). done.
Qed.

Lemma grow_new j : 0 ≤ j < 512 → load64 m' (q + 8 * j) = 0.
Proof using Ht Hp0 Hi Hq Hqok Hinv.
  intros Hj. unfold m'. rewrite load64_other_page; try done; [|by eapply t_page|congruence].
  apply load64_memset0; unfold PGSIZE; lia.
Qed.

Lemma tree_grow : tree m' own'.
Proof using Ht Hp0 Hi Hq Hqok Hinv.
  assert (∀ p r, own !! p = Some (r, l0, x0 * 512 + i) → r ≠ r0) as Hnew.
  { intros p r Hp ->. destruct (t_level _ _ Ht _ _ _ _ Hp0) as [Hl _].
    destruct (t_reach _ _ Ht _ _ _ _ Hp) as (p' & Hp' & Hv & _); [lia|].
    rewrite <-(Z.div_unique _ 512 x0 i) in Hp' by lia.
    rewrite <-(Z.mod_unique _ 512 x0 i) in Hv by lia.
    assert (p' = p0) as -> by (by eapply t_uniq). congruence. }
  pose proof grow_word as (_ & Hwv & Hwp).
  destruct Ht as [T1 T2 T3 T4 T5 T6]. unfold own'. constructor.
  - intros p t. destruct (decide (p = q)) as [->|]; [done|]. rewrite lookup_insert_ne by done. apply T1.
  - intros p r l x. destruct (decide (p = q)) as [->|].
    + rewrite lookup_insert_eq. intros [= <- <- <-].
      rewrite lookup_insert_ne by (intros ->; apply T2 in Hp0; congruence). by eapply T2.
    + rewrite lookup_insert_ne by done. intros Hp. pose proof (T2 _ _ _ _ Hp).
      rewrite lookup_insert_ne by congruence. done.
  - intros p r l x. destruct (decide (p = q)) as [->|].
    + rewrite lookup_insert_eq. intros [= <- <- <-]. destruct (T3 _ _ _ _ Hp0) as (Hl & Hx & _).
      split_and!; lia.
    + rewrite lookup_insert_ne by done. apply T3.
  - intros p1 p2 r l x. rewrite !lookup_insert_Some.
    intros [[<- E1]|[_ H1]] [[<- E2]|[_ H2]]; [done|..|by eapply T4]; simplify_eq;
      [by apply Hnew in H2|by apply Hnew in H1].
  - intros p r l x j. destruct (decide (p = q)) as [->|Hpq]; intros Hp Hj; cbv zeta.
    + by rewrite grow_new.
    + rewrite lookup_insert_ne in Hp by done. rewrite (grow_old _ _ _ Hp Hj).
      case_decide as Hd; [destruct Hd as [-> ->]|].
      * intros _. rewrite Hwp, lookup_insert_eq. congruence.
      * intros Hv. rewrite lookup_insert_ne; [by apply T5|]. pose proof (T5 _ _ _ _ _ Hp Hj Hv). congruence.
  - intros p r l x Hp Hl. destruct (decide (p = q)) as [->|Hpq].
    + rewrite lookup_insert_eq in Hp. injection Hp as <- <- <-. exists p0.
      rewrite <-(Z.div_unique (x0 * 512 + i) 512 x0 i) by lia.
      rewrite <-(Z.mod_unique (x0 * 512 + i) 512 x0 i) by lia.
      rewrite lookup_insert_ne by congruence. split; [done|].
      rewrite (grow_old _ _ _ Hp0 Hi), decide_True by done. done.
    + rewrite lookup_insert_ne in Hp by done. destruct (T6 _ _ _ _ Hp Hl) as (p' & Hp' & Hv & He).
      exists p'. rewrite lookup_insert_ne by congruence. split; [done|].
      rewrite (grow_old _ _ _ Hp'), decide_False; [done| |apply Z.mod_pos_bound; lia].
      intros [-> Hj]. rewrite Hj in Hv. congruence.
Qed.

Lemma tr_grow l p r x va :
  own !! p = Some (r, l, x) → covers l x va → tr m' l p va = tr m l p va.
Proof using Ht Hp0 Hi Hq Hqok Hinv.
  pose proof grow_word as (_ & Hwv & Hwp).
  revert p r x. induction l as [|l IH]; intros p r x Hp Hc; rewrite ?tr_O, ?tr_S;
    rewrite (grow_old _ _ _ Hp (PX_range _ va)).
  - rewrite decide_False; [done|]. intros [Hpp _]. rewrite Hpp in Hp. congruence.
  - case_decide as Hd.
    + destruct Hd as [-> Hpx]. rewrite Hpx, Hinv, Hwv, Hwp.
      destruct l; rewrite ?tr_O, ?tr_S; by rewrite grow_new by apply PX_range.
    + destruct (has PTE_V (load64 m (p + _))) eqn:Hv; [|done].
      eapply IH; [by apply (t_entry _ _ Ht _ _ _ _ _ Hp (PX_range (S l) va))|by apply covers_child].
Qed.
End grow.

(** ** The invariant

    [rs] are the references to pages that the allocator counts (see Kalloc.v);
    every page of a page table has exactly one. *)
Record vinv (kend : Z) (st : machine) (own : owners) (rs : list Z) : Prop := {
  vi_k : kinv kend (mk_krun (km st) [] rs);
  vi_tree : tree (ram st) own;
  vi_occ p t : own !! p = Some t → occ p rs = 1;
}.

(** Changes of leaf entries, by root and page number. *)
Abbreviation changes := (Z → Z → option Z).

Definition unchanged : changes := λ _ _, None.

Definition change (r0 v0 w : Z) : changes :=
  λ r v, if decide (r = r0 ∧ v = v0) then Some w else None.

(** [then_changes U V]: first [U], then [V]. *)
Definition then_changes (U V : changes) : changes := λ r v, V r v ∪ U r v.

(** Page tables have grown, their leaf entries have changed as [U] says, and the
    other pages in use are as they were. *)
Record vext (st : machine) (own : owners) (rs : list Z) (st' : machine) (own' : owners)
    (rs' : list Z) (U : changes) : Prop := {
  ve_sub p t : own !! p = Some t → own' !! p = Some t;
  ve_root p r l x : own' !! p = Some (r, l, x) → own !! r = Some (r, 2%nat, 0);
  ve_tr r va : own !! r = Some (r, 2%nat, 0) → covers 2 0 va →
    tr (ram st') 2 r va = default (tr (ram st) 2 r va) (U r (va / PGSIZE));
  ve_ram p a : p ∈ rs → p ∈ rs' → own' !! p = None → p ≤ a < p + PGSIZE → ram st' a = ram st a;
  ve_sw : sw st' = sw st;
}.

(** [new] are the pages added to page tables. *)
Definition grown (own own' : owners) (new : list Z) : Prop :=
  elements (dom own') ≡ₚ new ++ elements (dom own).

Lemma vext_refl kend st own rs : vinv kend st own rs → vext st own rs st own rs unchanged.
Proof.
  intros Hv. constructor; try done. intros p r l x Hp. by eapply t_root; [apply Hv|].
Qed.

Lemma vext_trans st0 own0 rs0 st1 own1 rs1 U st2 own2 rs2 V :
  (∀ p, p ∈ rs0 → p ∈ rs2 → p ∈ rs1) →
  vext st0 own0 rs0 st1 own1 rs1 U → vext st1 own1 rs1 st2 own2 rs2 V →
  vext st0 own0 rs0 st2 own2 rs2 (then_changes U V).
Proof.
  intros Hrs [A1 A3 A4 A5 A6] [B1 B3 B4 B5 B6]. constructor.
  - auto.
  - intros p r l x Hp. by eapply A3, B3.
  - intros r va Hr Hc. rewrite B4, A4; auto. unfold then_changes.
    by destruct (V r (va / PGSIZE)), (U r (va / PGSIZE)).
  - intros p a H0 H2 Hn Ha. rewrite (B5 p) by eauto. apply (A5 p); eauto.
    destruct (own1 !! p) eqn:E; [|done]. apply B1 in E. congruence.
  - congruence.
Qed.

Lemma vext_changes st own rs st' own' rs' U V :
  (∀ r v, U r v = V r v) → vext st own rs st' own' rs' U → vext st own rs st' own' rs' V.
Proof. intros HU [A1 A3 A4 A5 A6]. constructor; try done. intros. rewrite <-HU. by eapply A4. Qed.

(** With a step that changes no entry. *)
Lemma vext_before st0 own0 rs0 st1 own1 rs1 st2 own2 rs2 V :
  (∀ p, p ∈ rs0 → p ∈ rs2 → p ∈ rs1) →
  vext st0 own0 rs0 st1 own1 rs1 unchanged → vext st1 own1 rs1 st2 own2 rs2 V →
  vext st0 own0 rs0 st2 own2 rs2 V.
Proof.
  intros Hrs H1 H2. eapply vext_changes, vext_trans; [|exact Hrs|exact H1|exact H2].
  intros r v. unfold then_changes, unchanged. by destruct (V r v).
Qed.

Lemma vext_after st0 own0 rs0 st1 own1 rs1 st2 own2 rs2 U :
  (∀ p, p ∈ rs0 → p ∈ rs2 → p ∈ rs1) →
  vext st0 own0 rs0 st1 own1 rs1 U → vext st1 own1 rs1 st2 own2 rs2 unchanged →
  vext st0 own0 rs0 st2 own2 rs2 U.
Proof.
  intros Hrs H1 H2. eapply vext_changes, vext_trans; [|exact Hrs|exact H1|exact H2].
  intros r v. unfold then_changes, unchanged. by destruct (U r v).
Qed.

Lemma grown_refl own : grown own own [].
Proof. unfold grown. reflexivity. Qed.

Lemma grown_trans own0 own1 own2 new1 new2 :
  grown own0 own1 new1 → grown own1 own2 new2 → grown own0 own2 (new2 ++ new1).
Proof. unfold grown. intros H1 H2. by rewrite H2, H1, (assoc_L app). Qed.

Lemma grown_insert (own : owners) q t : own !! q = None → grown own (<[q := t]> own) [q].
Proof.
  intros Hq. unfold grown. rewrite dom_insert_L, elements_union_singleton; [done|].
  by apply not_elem_of_dom.
Qed.

Lemma managed_page kend p : 0 < kend → managed kend p → page_ok p.
Proof. intros H0 [H1 H2]. split; [done|]. unfold PHYSTOP, KERNBASE in *. lia. Qed.

Section spec.
Context (kend : Z) (id : nat) (Hkend : 0 < kend ≤ PHYSTOP) (Hid : (id < NCPU)%nat).

Lemma kalloc_spec st own rs :
  vinv kend st own rs →
  match kalloc id st with
  | (Some p, st') =>
      managed kend p ∧ (p ∉ rs) ∧ own !! p = None ∧ kinv kend (mk_krun (km st') [] (p :: rs)) ∧
      ram st' = memset p 5 PGSIZE (ram st) ∧ sw st' = sw st
  | (None, st') => st' = st ∧ concat (freelist (km st)) = []
  end.
Proof using Hid.
  intros [Hk _ Ho]. unfold kalloc. destruct (kalloc_try id (km st)) as [[p|] m] eqn:Ht.
  - destruct (kalloc_try_Some _ _ _ _ Hid Ht) as (j & Hj & Hp).
    destruct (kinv_alloc _ _ _ _ _ _ _ Hk Hj Hp) as (Hm & Hn & Hk').
    split_and!; try done. destruct (own !! p) as [t|] eqn:E; [|done].
    apply Ho in E. rewrite occ_not_elem in E by done. lia.
  - destruct (kalloc_try_None _ _ _ (ki_lists _ _ Hk) Ht) as [-> He]. split; [by destruct st|done].
Qed.

(** One page added by walk(). *)
Lemma walk_grow st own rs p r l x va q st1 :
  vinv kend st own rs → own !! p = Some (r, S l, x) → covers (S l) x va →
  has PTE_V (load64 (ram st) (p + 8 * PX (S l) va)) = false →
  kalloc id st = (Some q, st1) →
  let st2 := store_pte (p + 8 * PX (S l) va) (Z.lor (PA2PTE q) PTE_V)
               (st1 <| ram := memset q 0 PGSIZE (ram st1) |>) in
  let own2 := <[q := (r, l, x * 512 + PX (S l) va)]> own in
  vinv kend st2 own2 (q :: rs) ∧ vext st own rs st2 own2 (q :: rs) unchanged ∧ grown own own2 [q] ∧
  tr (ram st2) l q va = tr (ram st) (S l) p va.
Proof using Hkend Hid.
  intros Hv Hp Hc Hval Hk st2 own2. pose proof (kalloc_spec st own rs Hv) as Hka. rewrite Hk in Hka.
  destruct Hka as (Hm & Hn & Ho & Hki & Hram & Hsw).
  pose proof (vi_tree _ _ _ _ Hv) as Ht. pose proof (PX_range (S l) va) as Hr.
  pose proof (managed_page kend q ltac:(lia) Hm) as Hqok.
  set (m2 := store64 (p + 8 * PX (S l) va) (Z.lor (PA2PTE q) PTE_V) (memset q 0 PGSIZE (ram st))).
  assert (∀ y, ram st2 y = m2 y) as Hst2.
  { intros y. unfold st2, m2, store_pte; simpl. rewrite Hram. unfold store64, store_le, store_bytes.
    case_match; [done|]. unfold memset. by case_match. }
  assert (tree m2 own2) as Ht2 by (by apply tree_grow).
  assert (∀ l' p' r' x' va', own !! p' = Some (r', l', x') → covers l' x' va' →
    tr (ram st2) l' p' va' = tr (ram st) l' p' va') as Htr2.
  { intros l' p' r' x' va' Hp' Hc'.
    rewrite <-(tr_grow _ _ Ht p r x (PX (S l) va) q l Hp Hr Hval Ho Hqok l' p' r' x' va' Hp' Hc').
    eapply (tr_agree m2 _ _ Ht2); [intros; apply Hst2| |done].
    unfold own2. rewrite lookup_insert_ne; [done|]. congruence. }
  split_and!.
  - constructor; [done|eapply tree_agree; [done|]; intros; apply Hst2|].
    intros p' t. rewrite occ_cons. unfold own2. destruct (decide (p' = q)) as [->|Hne].
    + rewrite decide_True by done. by rewrite occ_not_elem.
    + rewrite lookup_insert_ne, decide_False by done. apply (vi_occ _ _ _ _ Hv).
  - unfold own2. constructor; try done.
    + intros p' t Hp'. rewrite lookup_insert_ne; [done|]. congruence.
    + intros p' r' l' x'. destruct (decide (p' = q)) as [->|].
      * rewrite lookup_insert_eq. intros [= <- <- <-]. by eapply t_root.
      * rewrite lookup_insert_ne by done. by eapply t_root.
    + intros r' va' Hr' Hc'. by eapply Htr2.
    + intros p' a Hin _ Hnone Ha. rewrite Hst2. unfold m2.
      rewrite lookup_insert_None in Hnone. destruct Hnone as [Hnone Hqp].
      assert (page_ok p') as Hp'.
      { apply (managed_page kend); [lia|]. apply (ki_refs _ _ (vi_k _ _ _ _ Hv)). done. }
      rewrite store64_outside, memset_out; [done| |].
      * destruct (pages_apart p' q Hp' Hqok ltac:(congruence)); lia.
      * destruct (pages_apart p' p Hp' (t_page _ _ Ht _ _ Hp) ltac:(congruence)); unfold PGSIZE in *; lia.
  - by apply grown_insert.
  - rewrite <-(Htr2 (S l) p r x va Hp Hc). rewrite ?tr_O, ?tr_S.
    assert (load64 (ram st2) (p + 8 * PX (S l) va) = Z.lor (PA2PTE q) PTE_V) as ->.
    { rewrite (load64_ext _ m2) by (intros; apply Hst2). apply load64_store_eq, grow_word. done. }
    destruct (grow_word q Hqok) as (_ & -> & ->). done.
Qed.

(** walk() finds the slot of the entry, and with [alloc] adds what is missing. *)
Lemma walk_loop_spec alloc va l : ∀ p st own rs r x,
  vinv kend st own rs → own !! p = Some (r, l, x) → covers l x va →
  ∃ own' new, let '(o, st') := walk_loop id l p va alloc st in
    vinv kend st' own' (new ++ rs) ∧ vext st own rs st' own' (new ++ rs) unchanged ∧
    grown own own' new ∧
    (alloc = false → st' = st ∧ own' = own ∧ new = []) ∧
    match o with
    | Some a => ∃ q x0, own' !! q = Some (r, 0%nat, x0) ∧ covers 0 x0 va ∧ a = q + 8 * PX 0 va ∧
                tr (ram st) l p va = load64 (ram st') a
    | None => tr (ram st) l p va = 0 ∧ (alloc = true → concat (freelist (km st')) = [])
    end.
Proof using Hkend Hid.
  induction l as [|l IH]; intros p st own rs r x Hv Hp Hc.
  { exists own, []. split_and!; try done; [by eapply vext_refl|apply grown_refl|]. by exists p, x. }
  pose proof (vi_tree _ _ _ _ Hv) as Ht. pose proof (PX_range (S l) va) as Hr.
  cbn [walk_loop]. unfold load_pte. destruct (has PTE_V _) eqn:Hval.
  { pose proof (t_entry _ _ Ht _ _ _ _ _ Hp Hr Hval) as Hq.
    destruct (IH _ _ _ _ _ _ Hv Hq (covers_child _ _ _ Hc)) as (own' & new & H).
    exists own', new. destruct (walk_loop _ _ _ _ _ _) as [o st'].
    rewrite ?tr_O, ?tr_S. by rewrite Hval. }
  destruct alloc; cbn [negb].
  2:{ exists own, []. split_and!; try done; [by eapply vext_refl|apply grown_refl|]. rewrite ?tr_O, ?tr_S. by rewrite Hval. }
  destruct (kalloc id st) as [[q|] st1] eqn:Hka.
  2:{ pose proof (kalloc_spec st own rs Hv) as Hk. rewrite Hka in Hk. destruct Hk as [-> He].
      exists own, []. split_and!; try done; [by eapply vext_refl|apply grown_refl|]. rewrite ?tr_O, ?tr_S. by rewrite Hval. }
  destruct (walk_grow st own rs p r l x va q st1 Hv Hp Hc Hval Hka) as (Hv2 & Hx2 & Hg2 & Htr2).
  destruct (IH q _ _ (q :: rs) r (x * 512 + PX (S l) va) Hv2) as (own' & new & H);
    [by rewrite lookup_insert_eq|by apply covers_child|].
  exists own', (new ++ [q]). destruct (walk_loop _ _ _ _ _ _) as [o st'].
  destruct H as (H1 & H2 & H3 & _ & H5). rewrite <-(assoc_L app). rewrite <-Htr2.
  split_and!; [done| |by eapply grown_trans|done|done].
  eapply vext_before; [|done..]. set_solver.
Qed.

Lemma walk_spec alloc va r st own rs :
  vinv kend st own rs → own !! r = Some (r, 2%nat, 0) → 0 ≤ va < MAXVA →
  ∃ o st' own' new, walk id r va alloc st = Some (o, st') ∧
    vinv kend st' own' (new ++ rs) ∧ vext st own rs st' own' (new ++ rs) unchanged ∧
    grown own own' new ∧ (alloc = false → st' = st ∧ own' = own ∧ new = []) ∧
    match o with
    | Some a => ∃ q x0, own' !! q = Some (r, 0%nat, x0) ∧ a = q + 8 * PX 0 va ∧
                va / PGSIZE = x0 * 512 + PX 0 va ∧ load64 (ram st') a = tr (ram st) 2 r va
    | None => tr (ram st) 2 r va = 0 ∧ (alloc = true → concat (freelist (km st')) = [])
    end.
Proof using Hkend Hid.
  intros Hv Hr Hva. unfold walk. rewrite (proj2 (Z.leb_gt _ _)) by lia.
  destruct (walk_loop_spec alloc va 2 r st own rs r 0 Hv Hr (covers_root va Hva)) as (own' & new & H).
  destruct (walk_loop _ _ _ _ _ _) as [o st']. destruct H as (H1 & H2 & H3 & H4 & H5).
  exists o, st', own', new. split_and!; try done. destruct o as [a|]; [|done].
  destruct H5 as (q & x0 & Hq & Hc & -> & He). exists q, x0. split_and!; [done..| |done].
  by apply covers_page.
Qed.

Lemma store_leaf_spec st own rs q r0 x0 i w :
  vinv kend st own rs → own !! q = Some (r0, 0%nat, x0) → 0 ≤ i < 512 → 0 ≤ w < 2 ^ 64 →
  vinv kend (store_pte (q + 8 * i) w st) own rs ∧
  vext st own rs (store_pte (q + 8 * i) w st) own rs (change r0 (x0 * 512 + i) w).
Proof using Hkend.
  clear Hid. intros Hv Hq Hi Hw. pose proof (vi_tree _ _ _ _ Hv) as Ht. split.
  - destruct Hv as [V1 V2 V3]. constructor; [done| |done]. by eapply tree_leaf.
  - constructor; try done; [intros p r l x; by eapply t_root|..].
    + intros r va Hr Hc. unfold store_pte; simpl ram.
      rewrite (tr_leaf _ _ Ht _ _ _ _ _ Hq Hi Hw _ _ _ _ _ Hr Hc). unfold change. by case_decide.
    + intros p a Hp _ Hnone Ha. unfold store_pte; simpl. apply store64_outside.
      assert (page_ok p) as Hpok.
      { apply (managed_page kend); [lia|]. by apply (ki_refs _ _ (vi_k _ _ _ _ Hv)). }
      destruct (pages_apart p q Hpok (t_page _ _ Ht _ _ Hq)); unfold PGSIZE in *; [congruence|lia..].
Qed.

(** Dropping a reference to a page that is not part of a page table. *)
Lemma page_free_spec st own rs rs' pa :
  vinv kend st own rs → rs ≡ₚ pa :: rs' → own !! pa = None →
  ∃ st', page_free kend id pa st = Some st' ∧ vinv kend st' own rs' ∧
    vext st own rs st' own rs' unchanged.
Proof using Hkend Hid.
  intros Hv Hrs Hnone. destruct Hv as [V1 V2 V3].
  destruct (kinv_drop _ _ _ _ _ _ V1 Hrs) as (m & Hd & Hk).
  assert (managed kend pa) as Hm by (apply (ki_refs _ _ V1); simpl; rewrite Hrs; left).
  pose proof (managed_page kend pa ltac:(lia) Hm) as Hpa.
  assert (∀ p t, own !! p = Some t → occ p rs' = 1) as Ho.
  { intros p t Hp. rewrite <-(V3 p t Hp), (occ_perm p _ _ Hrs), occ_cons, decide_False; [done|congruence]. }
  unfold page_free. rewrite Hd. destruct (occ pa rs' =? 0) eqn:E; simpl in Hk; eexists; (split; [done|]).
  2:{ split; [by constructor|]. constructor; try done. intros p r l x. by eapply t_root. }
  apply Z.eqb_eq in E.
  assert (∀ p a, page_ok p → p ≠ pa → p ≤ a < p + PGSIZE → memset pa 1 PGSIZE (ram st) a = ram st a) as Hms.
  { intros p a Hp Hne Ha. apply memset_out. destruct (pages_apart p pa Hp Hpa Hne); lia. }
  assert (∀ p t a, own !! p = Some t → p ≤ a < p + PGSIZE → memset pa 1 PGSIZE (ram st) a = ram st a) as Hag.
  { intros p t a Hp. apply Hms; [by eapply t_page|congruence]. }
  split; constructor; simpl; try done.
  - by eapply kinv_push.
  - by eapply tree_agree.
  - intros p r l x. by eapply t_root.
  - intros r va Hr Hc. by eapply tr_agree.
  - intros p a Hp Hp' Hn. apply Hms.
    + apply (managed_page kend); [lia|]. by apply (ki_refs _ _ V1).
    + intros ->. apply occ_elem in Hp'. lia.
Qed.

(** ** mappages() *)

(** [k] pages from page number [v0] of the table [pt] are mapped to the frames
    from [f0]. *)
Definition mapped (pt v0 k f0 perm : Z) : changes := λ r v,
  if decide (r = pt ∧ v0 ≤ v < v0 + k) then Some (frame_pte (f0 + (v - v0)) (Z.lor perm PTE_V))
  else None.

Lemma mapped_cons pt v0 k f0 perm r v :
  0 ≤ k →
  then_changes (change pt v0 (frame_pte f0 (Z.lor perm PTE_V))) (mapped pt (v0 + 1) k (f0 + 1) perm) r v =
  mapped pt v0 (k + 1) f0 perm r v.
Proof.
  clear Hkend Hid. intros Hk. unfold then_changes, change, mapped.
  destruct (decide (r = pt ∧ v0 + 1 ≤ v < v0 + 1 + k)) as [[-> H]|H].
  - rewrite (decide_True (P := pt = pt ∧ v0 ≤ v < v0 + (k + 1))) by lia. simpl.
    replace (f0 + 1 + (v - (v0 + 1))) with (f0 + (v - v0)) by lia. by case_decide.
  - destruct (decide (r = pt ∧ v = v0)) as [[-> ->]|H'].
    + rewrite decide_True by lia. simpl. by rewrite Z.sub_diag, Z.add_0_r.
    + rewrite decide_False; [done|]. intros [-> ?]. destruct (decide (v = v0)); [tauto|]. apply H. lia.
Qed.

Lemma mapped_one pt v0 f0 perm r v :
  mapped pt v0 1 f0 perm r v = change pt v0 (frame_pte f0 (Z.lor perm PTE_V)) r v.
Proof.
  clear Hkend Hid. unfold mapped, change. destruct (decide (r = pt ∧ v = v0)) as [[-> ->]|H].
  - rewrite decide_True by lia. by rewrite Z.sub_diag, Z.add_0_r.
  - rewrite decide_False; [done|]. intros [-> ?]. apply H. split; [done|lia].
Qed.

Lemma map_loop_S fuel pt a last pa perm st :
  map_loop id (S fuel) pt a last pa perm st =
  '(o, st) ← walk id pt a true st;
  match o with
  | None => Some (-1, st)
  | Some slot =>
      if has PTE_V (load_pte slot st) then None
      else
        let st := store_pte slot (Z.lor (Z.lor (PA2PTE pa) perm) PTE_V) st in
        if a =? last then Some (0, st)
        else map_loop id fuel pt (u64 (a + PGSIZE)) last (u64 (pa + PGSIZE)) perm st
  end.
Proof. done. Qed.

Definition page_va (v : Z) : Z := v * PGSIZE.

Lemma page_va_div v : page_va v / PGSIZE = v.
Proof. by apply Z.div_mul. Qed.

(** What [n] turns of the loop of mappages() do, from page number [v0]. *)
Definition map_result (pt v0 n f0 perm : Z) (st : machine) (own : owners) (rs : list Z)
    (o : option (Z * machine)) : Prop :=
  match o with
  | Some (res, st') => ∃ own' new k,
      vinv kend st' own' (new ++ rs) ∧
      vext st own rs st' own' (new ++ rs) (mapped pt v0 k f0 perm) ∧ grown own own' new ∧
      (∀ v, v0 ≤ v < v0 + k → has PTE_V (tr (ram st) 2 pt (page_va v)) = false) ∧
      (res = 0 ∧ k = n ∨ res = -1 ∧ 0 ≤ k < n ∧ concat (freelist (km st')) = [] ∧
                         tr (ram st) 2 pt (page_va (v0 + k)) = 0)
  | None => ∃ v, v0 ≤ v < v0 + n ∧ has PTE_V (tr (ram st) 2 pt (page_va v)) = true
  end.

(** One turn. *)
Lemma map_turn pt v0 f0 perm st own rs :
  vinv kend st own rs → own !! pt = Some (pt, 2%nat, 0) → 0 ≤ perm < 1024 →
  0 ≤ page_va v0 < MAXVA → 0 ≤ f0 < 2 ^ 44 →
  ∃ o st1 own1 new, walk id pt (page_va v0) true st = Some (o, st1) ∧ grown own own1 new ∧
  match o with
  | None => vinv kend st1 own1 (new ++ rs) ∧ vext st own rs st1 own1 (new ++ rs) unchanged ∧
            concat (freelist (km st1)) = [] ∧ tr (ram st) 2 pt (page_va v0) = 0
  | Some a =>
      load_pte a st1 = tr (ram st) 2 pt (page_va v0) ∧
      let w := Z.lor (Z.lor (PA2PTE (f0 * PGSIZE)) perm) PTE_V in
      vinv kend (store_pte a w st1) own1 (new ++ rs) ∧
      vext st own rs (store_pte a w st1) own1 (new ++ rs) (mapped pt v0 1 f0 perm)
  end.
Proof using Hkend Hid.
  intros Hv Hpt Hperm Hv0 Hf0. assert (0 ≤ PTE_V < 1024) as HV by (unfold PTE_V; lia).
  destruct (walk_spec true (page_va v0) pt st own rs Hv Hpt Hv0) as
    (o & st1 & own1 & new & Hw & Hv1 & Hx1 & Hg1 & _ & Ho).
  exists o, st1, own1, new. split_and!; [done..|].
  destruct o as [a|]; [|split_and!; [done..|by apply Ho|by apply Ho]].
  destruct Ho as (q & x0 & Hq & -> & Hva & Hld). rewrite page_va_div in Hva. split; [done|].
  rewrite frame_pte_of_pa, !frame_pte_lor, Z.lor_0_l by lia. cbv zeta.
  pose proof (frame_pte_range f0 (Z.lor perm PTE_V) Hf0 (flags_lor perm PTE_V Hperm HV)) as Hfr.
  destruct (store_leaf_spec st1 own1 (new ++ rs) q pt x0 (PX 0 (page_va v0)) _ Hv1 Hq
    (PX_range 0 (page_va v0)) Hfr) as [Hv2 Hx2]. rewrite <-Hva in Hx2. split; [done|].
  eapply vext_before; [|exact Hx1|eapply vext_changes, Hx2; intros r v; by rewrite mapped_one].
  intros p Hp _. by apply elem_of_app; right.
Qed.

(** A later page is translated as before. *)
Lemma mapped_other pt v0 k f0 perm st own rs st' own' rs' v :
  vext st own rs st' own' rs' (mapped pt v0 k f0 perm) → own !! pt = Some (pt, 2%nat, 0) →
  0 ≤ page_va v < MAXVA → v0 + k ≤ v →
  tr (ram st') 2 pt (page_va v) = tr (ram st) 2 pt (page_va v).
Proof.
  clear Hkend Hid. intros Hx Hpt Hv Hk. rewrite (ve_tr _ _ _ _ _ _ _ Hx pt), page_va_div by
    (done || by apply covers_root).
  unfold mapped. rewrite decide_False; [done|]. lia.
Qed.

Lemma map_loop_spec pt perm n : ∀ v0 f0 st own rs,
  vinv kend st own rs → own !! pt = Some (pt, 2%nat, 0) → 0 ≤ perm < 1024 →
  0 ≤ v0 → page_va (v0 + Z.of_nat n) < MAXVA → 0 ≤ f0 → f0 + Z.of_nat n < 2 ^ 44 →
  map_result pt v0 (Z.of_nat n + 1) f0 perm st own rs
    (map_loop id (S n) pt (page_va v0) (page_va (v0 + Z.of_nat n)) (f0 * PGSIZE) perm st).
Proof using Hkend Hid.
  induction n as [|n IH]; intros v0 f0 st own rs Hv Hpt Hperm Hv0 Hmax Hf0 Hfm;
    (destruct (map_turn pt v0 f0 perm st own rs Hv Hpt Hperm) as
      (o & st1 & own1 & new & Hw & Hg1 & Ho); [unfold page_va, PGSIZE in *; lia|lia|]);
    rewrite map_loop_S, Hw; cbn [mbind option_bind]; (destruct o as [a|];
      [|destruct Ho as (Ho1 & Ho2 & Ho3 & Ho4); exists own1, new, 0; split_and!; try done;
        [eapply vext_changes, Ho2; intros r v; unfold mapped; rewrite decide_False by lia; done
        |intros v; lia|right; rewrite Z.add_0_r; split_and!; [done|lia|lia|done..]]]);
    destruct Ho as (Hld & Hv2 & Hx); rewrite Hld;
    (destruct (has PTE_V (tr (ram st) 2 pt (page_va v0))) eqn:Hval; [exists v0; split; [lia|done]|]);
    set (st2 := store_pte _ _ _) in *; cbv zeta.
  - rewrite Z.add_0_r, Z.eqb_refl. exists own1, new, 1. split_and!; [done..| |by left].
    intros v Hvr. assert (v = v0) as -> by lia. done.
  - rewrite (proj2 (Z.eqb_neq _ _)) by (unfold page_va, PGSIZE; lia).
    replace (u64 (page_va v0 + PGSIZE)) with (page_va (v0 + 1)).
    2:{ rewrite u64_small; [unfold page_va; lia|]. change MAXVA with (2 ^ 38) in Hmax.
        unfold page_va, PGSIZE in *. lia. }
    replace (u64 (f0 * PGSIZE + PGSIZE)) with ((f0 + 1) * PGSIZE).
    2:{ rewrite u64_small; [lia|]. unfold PGSIZE. lia. }
    replace (v0 + Z.of_nat (S n)) with (v0 + 1 + Z.of_nat n) in * by lia.
    assert (∀ v, v0 + 1 ≤ v < v0 + 1 + Z.of_nat n + 1 →
      tr (ram st2) 2 pt (page_va v) = tr (ram st) 2 pt (page_va v)) as Hsame.
    { intros v Hvr. eapply mapped_other; [done..| |lia]. unfold page_va, PGSIZE in *. lia. }
    specialize (IH (v0 + 1) (f0 + 1) st2 own1 (new ++ rs) Hv2 (ve_sub _ _ _ _ _ _ _ Hx _ _ Hpt)
      Hperm ltac:(lia) Hmax ltac:(lia) ltac:(lia)). unfold map_result in IH |- *.
    destruct (map_loop _ _ _ _ _ _ _ _) as [[res st']|].
    + destruct IH as (own' & new' & k & I1 & I2 & I3 & I4 & I5).
      assert (0 ≤ k ≤ Z.of_nat n + 1) as Hk by (destruct I5; lia).
      exists own', (new' ++ new), (k + 1). rewrite <-(assoc_L app). split_and!.
      * done.
      * eapply vext_changes, (vext_trans _ _ _ st2 own1 (new ++ rs)); [|set_solver|exact Hx|exact I2].
        intros r v. rewrite <-(mapped_cons pt v0 k) by lia. unfold then_changes. by rewrite mapped_one.
      * by eapply grown_trans.
      * intros v Hvr. destruct (decide (v = v0)) as [->|]; [done|].
        rewrite <-Hsame by lia. apply I4. lia.
      * destruct I5 as [[-> ->]|(-> & ? & ? & Hz)]; [left; lia|right; split_and!; [done|lia|lia|done|]].
        rewrite Hsame in Hz by lia. by replace (v0 + (k + 1)) with (v0 + 1 + k) by lia.
    + destruct IH as (v & Hvr & Hval'). exists v. split; [lia|]. by rewrite <-Hsame by lia.
Qed.

Lemma page_count_aligned v0 v1 : v0 ≤ v1 → page_count (page_va v0) (page_va v1) = Z.to_nat (v1 - v0).
Proof.
  clear Hkend Hid. intros H. unfold page_count. f_equal. symmetry.
  apply (Z.div_unique _ _ _ (PGSIZE - 1)); unfold page_va, PGSIZE; lia.
Qed.

Lemma mappages_spec pt va size pa perm st own rs :
  vinv kend st own rs → own !! pt = Some (pt, 2%nat, 0) → 0 ≤ perm < 1024 →
  0 ≤ va → 0 < size → va + size ≤ MAXVA →
  pa `mod` PGSIZE = 0 → 0 ≤ pa → pa + size < 2 ^ 55 →
  map_result pt (va / PGSIZE) ((va + size - 1) / PGSIZE - va / PGSIZE + 1) (pa / PGSIZE) perm
    st own rs (mappages id pt va size pa perm st).
Proof using Hkend Hid.
  intros Hv Hpt Hperm Hva Hsz Hmax Hpa Hpa0 Hpas. unfold mappages. cbv zeta.
  change MAXVA with (2 ^ 38) in *. rewrite u64_small, !PGROUNDDOWN_div by lia.
  set (v0 := va / PGSIZE). set (v1 := (va + size - 1) / PGSIZE).
  assert (v0 ≤ v1) as Hle by (apply Z.div_le_mono; [done|lia]).
  assert (0 ≤ v0) as H0 by (apply Z.div_pos; unfold PGSIZE; lia).
  assert (page_va v1 ≤ va + size - 1) as Hv1.
  { unfold page_va, v1. rewrite Z.mul_comm. apply Z.mul_div_le. done. }
  fold (page_va v0) (page_va v1).
  rewrite (proj2 (Z.leb_le (page_va v0) (page_va v1))) by (unfold page_va, PGSIZE; lia).
  rewrite page_count_aligned by done.
  assert (pa = pa / PGSIZE * PGSIZE) as Hpa' by (pose proof (Z.div_mod pa PGSIZE ltac:(done)); lia).
  pose proof (map_loop_spec pt perm (Z.to_nat (v1 - v0)) v0 (pa / PGSIZE) st own rs Hv Hpt Hperm H0) as H.
  rewrite Z2Nat.id, <-Hpa' in H by lia. replace (v0 + (v1 - v0)) with v1 in H by lia.
  apply H.
  - change MAXVA with (2 ^ 38). lia.
  - apply Z.div_pos; [done|unfold PGSIZE; lia].
  - set (f0 := pa / PGSIZE) in *. assert (v1 - v0 ≤ (size - 1) / PGSIZE + 1) as Hn.
    { unfold v0, v1. pose proof (Z.div_mod va PGSIZE ltac:(done)).
      pose proof (Z.mod_pos_bound va PGSIZE ltac:(done)).
      pose proof (Z.mul_div_le (va + size - 1) PGSIZE ltac:(done)).
      pose proof (Z.mul_succ_div_gt (size - 1) PGSIZE ltac:(done)). unfold PGSIZE in *. lia. }
    pose proof (Z.mul_div_le (size - 1) PGSIZE ltac:(done)). unfold PGSIZE in *. lia.
Qed.

(** ** New pages and new page tables *)

(** A new page, filled in some way. *)
Lemma kalloc_fill st own rs p st1 m :
  vinv kend st own rs → kalloc id st = (Some p, st1) →
  (∀ a, ¬ (p ≤ a < p + PGSIZE) → m a = ram st a) →
  managed kend p ∧ page_ok p ∧ (p ∉ rs) ∧ vinv kend (st1 <| ram := m |>) own (p :: rs) ∧
  vext st own rs (st1 <| ram := m |>) own (p :: rs) unchanged.
Proof using Hkend Hid.
  intros Hv Hk Hm. pose proof (kalloc_spec st own rs Hv) as H. rewrite Hk in H.
  destruct H as (Hp & Hn & Ho & Hki & Hram & Hsw). destruct Hv as [V1 V2 V3].
  pose proof (managed_page kend p ltac:(lia) Hp) as Hpok.
  assert (∀ q a, page_ok q → q ≠ p → q ≤ a < q + PGSIZE → m a = ram st a) as Hout.
  { intros q a Hq Hne Ha. apply Hm. destruct (pages_apart q p Hq Hpok Hne); lia. }
  assert (∀ q t a, own !! q = Some t → q ≤ a < q + PGSIZE → m a = ram st a) as Hag.
  { intros q t a Hq. apply Hout; [by eapply t_page|congruence]. }
  split_and!; try done; constructor; simpl; try done.
  - by eapply tree_agree.
  - intros q t Hq. rewrite occ_cons, decide_False by congruence. by eapply V3.
  - intros q r l x. by eapply t_root.
  - intros r va Hr Hc. by eapply tr_agree.
  - intros q a Hq _ _. apply Hout; [|congruence].
    apply (managed_page kend); [lia|]. by apply (ki_refs _ _ V1).
Qed.

(** A page of zeros as a new root. *)
Lemma tree_root m m' own q :
  tree m own → own !! q = None → page_ok q →
  (∀ p t a, own !! p = Some t → p ≤ a < p + PGSIZE → m' a = m a) →
  (∀ a, q ≤ a < q + PGSIZE → m' a = 0) →
  tree m' (<[q := (q, 2%nat, 0)]> own).
Proof.
  clear Hkend Hid. intros Ht Hq Hok Hag Hz. pose proof (tree_agree _ _ _ Ht Hag) as [T1 T2 T3 T4 T5 T6].
  assert (∀ p l x, own !! p ≠ Some (q, l, x)) as Hno by (intros p l x Hp%T2; congruence).
  assert (∀ i, 0 ≤ i < 512 → load64 m' (q + 8 * i) = 0) as Hld.
  { intros i Hi. rewrite (load64_ext _ (λ _, 0)); [done|]. intros y Hy. apply Hz. unfold PGSIZE. lia. }
  constructor.
  - intros p t [[<- _]|[_ Hp]]%lookup_insert_Some; [done|]. by eapply T1.
  - intros p r l x [[<- [= <- <- <-]]|[_ Hp]]%lookup_insert_Some; [by rewrite lookup_insert_eq|].
    rewrite lookup_insert_ne; [by eapply T2|]. intros <-. by eapply Hno.
  - intros p r l x [[<- [= <- <- <-]]|[_ Hp]]%lookup_insert_Some; [split_and!; auto; lia|]. by eapply T3.
  - intros p1 p2 r l x [[<- E1]|[_ H1]]%lookup_insert_Some [[<- E2]|[_ H2]]%lookup_insert_Some; simplify_eq.
    + done.
    + by apply Hno in H2.
    + by apply Hno in H1.
    + by eapply T4.
  - intros p r l x i [[<- [= <- <- <-]]|[_ Hp]]%lookup_insert_Some Hi; cbv zeta; [by rewrite Hld|].
    intros Hv. pose proof (T5 _ _ _ _ _ Hp Hi Hv) as Hc. cbv zeta in Hc.
    rewrite lookup_insert_ne; [done|congruence].
  - intros p r l x [[<- [= <- <- <-]]|[_ Hp]]%lookup_insert_Some Hl; [lia|].
    destruct (T6 _ _ _ _ Hp Hl) as (p' & Hp' & He). exists p'. split; [|done].
    rewrite lookup_insert_ne; [done|congruence].
Qed.


Lemma uvmcreate_vinv st own rs r st' :
  vinv kend st own rs → uvmcreate id st = (Some r, st') →
  own !! r = None ∧ (r ∉ rs) ∧ vinv kend st' (<[r := (r, 2%nat, 0)]> own) (r :: rs) ∧
  ∀ va, tr (ram st') 2 r va = 0.
Proof using Hkend Hid.
  intros Hv Hc. unfold uvmcreate in Hc. destruct (kalloc id st) as [[p|] st1] eqn:Hk; [|done].
  injection Hc as -> <-. pose proof (kalloc_spec st own rs Hv) as H. rewrite Hk in H.
  destruct H as (_ & Hn & Hno & _ & Hram & _). set (st2 := st1 <| ram := _ |>).
  destruct (kalloc_fill st own rs r st1 (ram st2) Hv Hk) as (Hm & Hok & _ & Hv2 & _).
  { intros a Hout. unfold st2; simpl. rewrite memset_out, Hram, memset_out by done. done. }
  assert (∀ a, r ≤ a < r + PGSIZE → ram st2 a = 0) as Hz by (intros a Har; unfold st2; simpl; by apply memset_in).
  split_and!; try done.
  - destruct Hv2 as [V1 V2 V3]. constructor; [done|by eapply tree_root|].
    intros q t [[<- _]|[_ Hq]]%lookup_insert_Some; [|by eapply V3].
    by rewrite occ_cons, decide_True, occ_not_elem.
  - intros va. rewrite tr_S. rewrite (load64_ext _ (λ _, 0)); [done|]. intros y Hy. apply Hz.
    pose proof (PX_range 2 va). unfold PGSIZE. lia.
Qed.

(** ** Lookups *)

(** The entry that walk() finds. *)
Definition pte_at (pt va : Z) (st : machine) : Z :=
  match walk id pt va false st with
  | Some (Some a, st) => load_pte a st
  | _ => 0
  end.

Lemma pte_at_tr pt va st own rs :
  vinv kend st own rs → own !! pt = Some (pt, 2%nat, 0) → 0 ≤ va < MAXVA →
  pte_at pt va st = tr (ram st) 2 pt va.
Proof using Hkend Hid.
  intros Hv Hpt Hva. unfold pte_at.
  destruct (walk_spec false va pt st own rs Hv Hpt Hva) as (o & st' & own' & new & -> & _ & _ & _ & Hs & Ho).
  destruct (Hs eq_refl) as (-> & _). destruct o as [a|]; [|by destruct Ho].
  by destruct Ho as (q & x0 & _ & _ & _ & <-).
Qed.
End spec.

(** ** The theorem *)

(** mappages() is an update of the page table as a map from pages to entries.
    Where page tables are well formed it maps every page of the range to its
    frame with the permissions and returns 0; or memory runs out, it returns -1
    and a prefix of the range is mapped; or a page of the range was already
    mapped, and it panics. Walks of every page table on every hart find the new
    entries for the pages that were mapped and the old ones elsewhere; pages in
    use that are not page tables keep their contents; and page tables stay well
    formed. *)
Theorem mappages_maps kend id pt va size pa perm st own rs :
  0 < kend ≤ PHYSTOP → (id < NCPU)%nat →
  vinv kend st own rs → own !! pt = Some (pt, 2%nat, 0) → 0 ≤ perm < 1024 →
  0 ≤ va → 0 < size → va + size ≤ MAXVA →
  pa `mod` PGSIZE = 0 → 0 ≤ pa → pa + size < 2 ^ 55 →
  let v0 := va / PGSIZE in
  let n := (va + size - 1) / PGSIZE - v0 + 1 in
  match mappages id pt va size pa perm st with
  | None => ∃ v, v0 ≤ v < v0 + n ∧ has PTE_V (pte_at id pt (page_va v) st) = true
  | Some (res, st') => ∃ own' new k,
      (res = 0 ∧ k = n ∨ res = -1 ∧ 0 ≤ k < n ∧ concat (freelist (km st')) = []) ∧
      (∀ id' r va', (id' < NCPU)%nat → own !! r = Some (r, 2%nat, 0) → 0 ≤ va' < MAXVA →
        pte_at id' r va' st' =
          if decide (r = pt ∧ v0 ≤ va' / PGSIZE < v0 + k)
          then Z.lor (Z.lor (PA2PTE (pa + (va' / PGSIZE - v0) * PGSIZE)) perm) PTE_V
          else pte_at id' r va' st) ∧
      (∀ p a, p ∈ rs → own' !! p = None → p ≤ a < p + PGSIZE → ram st' a = ram st a) ∧
      vinv kend st' own' (new ++ rs)
  end.
Proof.
  intros Hk Hid Hv Hpt Hperm Hva Hsz Hmax Hpa Hpa0 Hpas v0 n.
  pose proof (mappages_spec kend id Hk Hid pt va size pa perm st own rs Hv Hpt Hperm Hva Hsz Hmax
    Hpa Hpa0 Hpas) as H. fold v0 n in H. unfold map_result in H.
  assert (0 ≤ v0) as Hv0 by (apply Z.div_pos; unfold PGSIZE; lia).
  assert (v0 + n ≤ 2 ^ 26) as Hn.
  { unfold n. assert ((va + size - 1) / PGSIZE < 2 ^ 26); [|lia].
    apply Z.div_lt_upper_bound; [done|]. change MAXVA with (2 ^ 38) in Hmax. unfold PGSIZE. lia. }
  destruct (mappages _ _ _ _ _ _ _) as [[res st']|].
  - destruct H as (own' & new & k & H1 & H2 & _ & _ & H5). exists own', new, k. split_and!; try done.
    + destruct H5 as [?|(? & ? & ? & _)]; auto.
    + intros id' r va' Hid' Hr Hva'.
      rewrite (pte_at_tr kend id' Hk Hid' r va' st own rs Hv Hr Hva').
      rewrite (pte_at_tr kend id' Hk Hid' r va' st' own' _ H1 (ve_sub _ _ _ _ _ _ _ H2 _ _ Hr) Hva').
      rewrite (ve_tr _ _ _ _ _ _ _ H2 r va' Hr (covers_root va' Hva')). unfold mapped.
      case_decide as Hd; [|done]. simpl.
      assert (pa = pa / PGSIZE * PGSIZE) as Hpa' by (pose proof (Z.div_mod pa PGSIZE ltac:(done)); lia).
      rewrite Hpa' at 2. rewrite <-Z.mul_add_distr_r.
      rewrite frame_pte_of_pa; [unfold frame_pte; by rewrite Z.lor_0_r, <-Z.lor_assoc|].
      assert (0 ≤ pa / PGSIZE < 2 ^ 43).
      { split; [by apply Z.div_pos|]. apply Z.div_lt_upper_bound; [done|]. unfold PGSIZE. lia. }
      destruct H5; lia.
    + intros p a Hp. apply (ve_ram _ _ _ _ _ _ _ H2 p a Hp). set_solver.
  - destruct H as (v & Hvr & Hval). exists v. split; [done|].
    rewrite (pte_at_tr kend id Hk Hid pt _ st own rs Hv Hpt); [done|].
    change MAXVA with (2 ^ 38). unfold page_va, PGSIZE. lia.
Qed.

(** *** A small memory *)

Definition small_kend : Z := PHYSTOP - 16 * PGSIZE.

Definition small_kmem : kmem := default (mk_kmem [] (λ _, 0)) (kinit small_kend 0).

Definition small : machine := mk_machine small_kmem (λ _, 0) (swapinit (λ _, [])).

Definition small_root : Z := PHYSTOP - PGSIZE.

Lemma small_kend_ok : 0 < small_kend ≤ PHYSTOP.
Proof. by vm_compute. Qed.

Definition small1 : machine := (uvmcreate 0 small).2.

Lemma small_create : uvmcreate 0 small = (Some small_root, small1).
Proof. apply injective_projections; [by vm_compute|reflexivity]. Qed.

Lemma small_kinit : kinit small_kend 0 = Some small_kmem.
Proof. by vm_compute. Qed.

Lemma small_cpu : (0 < NCPU)%nat.
Proof. unfold NCPU. lia. Qed.

Lemma tree_empty m : tree m ∅.
Proof. constructor; done. Qed.

Lemma small_vinv : vinv small_kend small ∅ [].
Proof.
  destruct (kinit_inv small_kend small_kend_ok 0 small_cpu) as (m & Hm & Hi).
  pose proof (inj Some _ _ (eq_trans (eq_sym Hm) small_kinit)) as E. rewrite E in Hi. clear Hm.
  constructor; [exact Hi|apply tree_empty|]. intros p t Hp. by rewrite lookup_empty in Hp.
Qed.

Definition small_pa : Z := PHYSTOP - 2 * PGSIZE.

Lemma small_maps :
  fst <$> mappages 0 small_root 8192 4096 small_pa PTE_R small1 = Some 0.
Proof. by vm_compute. Qed.

Lemma small_sizes :
  0 ≤ PTE_R < 1024 ∧ 0 ≤ 8192 ∧ 0 < 4096 ∧ 8192 + 4096 ≤ MAXVA ∧ small_pa `mod` PGSIZE = 0 ∧
  0 ≤ small_pa ∧ small_pa + 4096 < 2 ^ 55.
Proof. by vm_compute. Qed.

Lemma mappages_maps_witness :
  ∃ st', mappages 0 small_root 8192 4096 small_pa PTE_R small1 = Some (0, st') ∧
    pte_at 0 small_root 8192 st' = Z.lor (Z.lor (PA2PTE (small_pa + 0)) PTE_R) PTE_V.
Proof.
  destruct (uvmcreate_vinv small_kend 0 small_kend_ok small_cpu _ _ _ _ _ small_vinv small_create)
    as (_ & _ & Hv & _). destruct small_sizes as (S1 & S2 & S3 & S4 & S5 & S6 & S7).
  pose proof (mappages_maps small_kend 0 small_root 8192 4096 small_pa PTE_R small1 _ _
    small_kend_ok small_cpu Hv (lookup_insert_eq _ _ _) S1 S2 S3 S4 S5 S6 S7) as H.
  pose proof small_maps as Hm.
  destruct (mappages 0 small_root 8192 4096 small_pa PTE_R small1) as [[res st']|]; [|done].
  injection Hm as Hm. simpl in Hm. subst res. exists st'. split; [done|].
  destruct H as (own' & new & k & [[_ ->]|[? _]] & Hp & _); [|done].
  exact (Hp 0%nat small_root 8192 small_cpu (lookup_insert_eq _ _ _) ltac:(by vm_compute)).
Defined.
