(* ===== verification/Cow.v ===== *)
(** * Address spaces and copy on write (src/kernel/mm/vm.c, kalloc.c)

    fork() shares pages and copies them on the first write. The theorems of this
    file say that the sharing cannot be seen: an address space behaves as if it
    had memory of its own. *)

From stdpp Require Import gmap.
From S2P Require Import Prelude Mem KState Kalloc Swap Vm.

(** ** Address spaces *)

(** User pages lie below the trap frame. *)
Definition UPAGES : Z := TRAPFRAME / PGSIZE.

(** The byte at [va] in the address space with root [r]. *)
Definition view (st : machine) (r va : Z) : option Z :=
  let e := tr (ram st) 2 r va in
  if has PTE_V e then Some (ram st (PTE2PA e + va `mod` PGSIZE)) else None.

(** [lv] are the leaf entries of all address spaces: root and page number to the
    physical page. *)
Abbreviation leaves := (gmap (Z * Z) Z).

Definition is_root (own : owners) (r : Z) : Prop := own !! r = Some (r, 2%nat, 0).

(** The entry of a leaf; a page is writable, or marked copy-on-write. *)
Definition leaf_entry (e pa : Z) : Prop :=
  ∃ f fl, pa = f * PGSIZE ∧ 0 ≤ f < 2 ^ 44 ∧ 0 ≤ fl < 1024 ∧ e = frame_pte f fl ∧
    has PTE_V fl = true ∧ has PTE_W fl = negb (has PTE_F fl).

(** [ext] are the references to pages that are not in page tables: pages that
    have just been allocated, trap frames, and the like. *)
Record ainv (kend : Z) (st : machine) (own : owners) (rs : list Z) (lv : leaves) (ext : list Z)
    : Prop := {
  a_v : vinv kend st own rs;
  a_dom r v pa : lv !! (r, v) = Some pa → is_root own r ∧ 0 ≤ v < UPAGES;
  a_leaf r v : is_root own r → 0 ≤ v < UPAGES →
    let e := tr (ram st) 2 r (page_va v) in
    match lv !! (r, v) with Some pa => leaf_entry e pa | None => e = 0 end;
  a_refs : rs ≡ₚ elements (dom own) ++ (map_to_list lv).*2 ++ ext;
  a_write r v pa : lv !! (r, v) = Some pa → has PTE_W (tr (ram st) 2 r (page_va v)) = true →
    occ pa rs = 1;
}.

(** ** Pages and addresses *)

Lemma UPAGES_max v : 0 ≤ v < UPAGES → 0 ≤ page_va v < MAXVA.
Proof.
  unfold UPAGES, page_va. change (TRAPFRAME / PGSIZE) with (2 ^ 26 - 2).
  change MAXVA with (2 ^ 38). unfold PGSIZE. lia.
Qed.

Lemma upage_covers v : 0 ≤ v < UPAGES → covers 2 0 (page_va v).
Proof. intros Hv. by apply covers_root, UPAGES_max. Qed.

(** The entry depends on the page only. *)
Lemma tr_page m l p va : 0 ≤ va → tr m l p va = tr m l p (page_va (va / PGSIZE)).
Proof.
  intros Hva. assert (∀ k, PX k va = PX k (page_va (va / PGSIZE))) as Hpx.
  { intros k. rewrite !PX_mod. f_equal.
    rewrite Z.pow_add_r by lia. change (2 ^ 12) with PGSIZE.
    pose proof (Z.pow_pos_nonneg 2 (9 * Z.of_nat k) ltac:(lia) ltac:(lia)).
    rewrite <-!Z.div_div by (done || lia). by rewrite page_va_div. }
  revert p. induction l as [|l IH]; intros p; [unfold tr; by rewrite <-Hpx|].
  rewrite !tr_S, <-Hpx. case_match; [apply IH|done].
Qed.

Lemma occ_app `{EqDecision A} (x : A) l k : occ x (l ++ k) = occ x l + occ x k.
Proof. induction l as [|y l IH]; [done|]. simpl. rewrite !occ_cons, IH. lia. Qed.

(** The references to a page, by kind. *)
Lemma a_occ kend st own rs lv ext pa :
  ainv kend st own rs lv ext →
  occ pa rs = occ pa (elements (dom own)) + (occ pa (map_to_list lv).*2 + occ pa ext).
Proof. intros Ha. by rewrite (occ_perm pa _ _ (a_refs _ _ _ _ _ _ Ha)), !occ_app. Qed.

Lemma leaf_occ (lv : leaves) r v pa : lv !! (r, v) = Some pa → 1 ≤ occ pa (map_to_list lv).*2.
Proof.
  intros Hl. apply occ_elem. apply list_elem_of_fmap. exists (r, v, pa). split; [done|].
  by apply elem_of_map_to_list.
Qed.

(** Inserting and deleting leaves. *)
Lemma leaves_insert (lv : leaves) k pa :
  lv !! k = None → (map_to_list (<[k := pa]> lv)).*2 ≡ₚ pa :: (map_to_list lv).*2.
Proof. intros Hk. by rewrite map_to_list_insert. Qed.

Lemma leaves_delete (lv : leaves) k pa :
  lv !! k = Some pa → (map_to_list lv).*2 ≡ₚ pa :: (map_to_list (delete k lv)).*2.
Proof. intros Hk. by rewrite <-(map_to_list_delete lv k pa). Qed.

(** Two leaves of one page make two references. *)
Lemma leaf_occ2 (lv : leaves) k k' pa :
  lv !! k = Some pa → lv !! k' = Some pa → k ≠ k' → 2 ≤ occ pa (map_to_list lv).*2.
Proof.
  intros Hk Hk' Hne. rewrite (occ_perm pa _ _ (leaves_delete lv k pa Hk)), occ_cons, decide_True by done.
  assert (delete k lv !! k' = Some pa) as Hd by (by rewrite lookup_delete_ne).
  destruct k' as [r v]. pose proof (leaf_occ _ _ _ _ Hd). lia.
Qed.

(** A page with a single reference that is a leaf has no other use. *)
Lemma leaf_alone kend st own rs lv ext r v pa :
  ainv kend st own rs lv ext → lv !! (r, v) = Some pa → occ pa rs = 1 →
  (∀ k, lv !! k = Some pa → k = (r, v)) ∧ (pa ∉ ext) ∧ own !! pa = None.
Proof.
  intros Ha Hl H1. rewrite (a_occ _ _ _ _ _ _ pa Ha) in H1.
  pose proof (leaf_occ _ _ _ _ Hl). pose proof (occ_nonneg pa (elements (dom own))).
  pose proof (occ_nonneg pa ext). split_and!.
  - intros k Hk. destruct (decide (k = (r, v))) as [|Hne]; [done|].
    pose proof (leaf_occ2 _ _ _ _ Hl Hk ltac:(done)). lia.
  - intros Hin%occ_elem. lia.
  - apply not_elem_of_dom. intros Hin%elem_of_elements%occ_elem. lia.
Qed.

Lemma leaf_page kend st own rs lv ext r v pa :
  0 < kend → ainv kend st own rs lv ext → lv !! (r, v) = Some pa →
  pa ∈ rs ∧ page_ok pa ∧ managed kend pa ∧ own !! pa = None.
Proof.
  intros Hk Ha Hl. assert (pa ∈ rs) as Hin.
  { rewrite (a_refs _ _ _ _ _ _ Ha). apply elem_of_app; right. apply elem_of_app; left.
    apply list_elem_of_fmap. exists (r, v, pa). split; [done|]. by apply elem_of_map_to_list. }
  pose proof (ki_refs _ _ (vi_k _ _ _ _ (a_v _ _ _ _ _ _ Ha)) pa Hin) as Hm.
  split_and!; [done|by eapply managed_page|done|].
  destruct (own !! pa) as [t|] eqn:Ho; [|done].
  pose proof (vi_occ _ _ _ _ (a_v _ _ _ _ _ _ Ha) _ _ Ho) as H1.
  rewrite (a_occ _ _ _ _ _ _ pa Ha) in H1. pose proof (leaf_occ _ _ _ _ Hl).
  pose proof (occ_nonneg pa ext).
  assert (1 ≤ occ pa (elements (dom own))); [|lia].
  apply occ_elem, elem_of_elements, elem_of_dom. eauto.
Qed.

(** ** Changes of address spaces *)

Lemma ext_roots st own rs st' own' rs' U r :
  vext st own rs st' own' rs' U → is_root own' r ↔ is_root own r.
Proof. intros Hx. split; [by apply (ve_root _ _ _ _ _ _ _ Hx)|apply (ve_sub _ _ _ _ _ _ _ Hx)]. Qed.

Lemma ext_entry st own rs st' own' rs' U r v :
  vext st own rs st' own' rs' U → is_root own r → 0 ≤ v < UPAGES →
  tr (ram st') 2 r (page_va v) = default (tr (ram st) 2 r (page_va v)) (U r v).
Proof.
  intros Hx Hr Hv. rewrite (ve_tr _ _ _ _ _ _ _ Hx r (page_va v) Hr (upage_covers v Hv)).
  by rewrite page_va_div.
Qed.

(** What has to be checked after a change. *)
Lemma ainv_step kend st own rs lv ext st' own' rs' U lv' ext' :
  ainv kend st own rs lv ext → vinv kend st' own' rs' → vext st own rs st' own' rs' U →
  (∀ r v, is_root own r → 0 ≤ v < UPAGES →
    match U r v with
    | None => lv' !! (r, v) = lv !! (r, v)
    | Some w => match lv' !! (r, v) with Some pa => leaf_entry w pa | None => w = 0 end
    end) →
  (∀ r v pa, lv' !! (r, v) = Some pa → is_root own r ∧ 0 ≤ v < UPAGES) →
  rs' ≡ₚ elements (dom own') ++ (map_to_list lv').*2 ++ ext' →
  (∀ r v pa, lv' !! (r, v) = Some pa →
    has PTE_W (default (tr (ram st) 2 r (page_va v)) (U r v)) = true → occ pa rs' = 1) →
  ainv kend st' own' rs' lv' ext'.
Proof.
  intros [A1 A2 A3 A4 A5] Hv Hx HU Hdom Hrs Hw. constructor; try done.
  - intros r v pa Hl. destruct (Hdom r v pa Hl). by rewrite (ext_roots _ _ _ _ _ _ _ _ Hx).
  - intros r v Hr Hvr. rewrite (ext_roots _ _ _ _ _ _ _ _ Hx) in Hr. cbv zeta.
    rewrite (ext_entry _ _ _ _ _ _ _ _ _ Hx Hr Hvr). specialize (HU r v Hr Hvr).
    destruct (U r v) as [w|]; simpl; [done|]. rewrite HU. by apply A3.
  - intros r v pa Hl. destruct (Hdom r v pa Hl) as [Hr Hvr].
    rewrite (ext_entry _ _ _ _ _ _ _ _ _ Hx Hr Hvr). by apply Hw.
Qed.

(** Growing page tables and changing references only. *)
Lemma ainv_frame kend st own rs lv ext st' own' rs' ext' :
  ainv kend st own rs lv ext → vinv kend st' own' rs' → vext st own rs st' own' rs' unchanged →
  rs' ≡ₚ elements (dom own') ++ (map_to_list lv).*2 ++ ext' →
  (∀ r v pa, lv !! (r, v) = Some pa → occ pa rs = 1 → occ pa rs' = 1) →
  ainv kend st' own' rs' lv ext'.
Proof.
  intros Ha Hv Hx Hrs Ho. apply (ainv_step _ _ _ _ _ _ _ _ _ _ lv ext' Ha Hv Hx); try done.
  - apply (a_dom _ _ _ _ _ _ Ha).
  - intros r v pa Hl Hw. by eapply Ho, (a_write _ _ _ _ _ _ Ha).
Qed.

Lemma leaf_entry_bits e pa :
  leaf_entry e pa → has PTE_V e = true ∧ has PTE_W e = negb (has PTE_F e) ∧ PTE2PA e = pa ∧
  (PTE_FLAGS e =? PTE_V) = false.
Proof.
  intros (f & fl & -> & Hf & Hfl & -> & Hv & Hw).
  rewrite !frame_pte_has by (done || unfold PTE_V, PTE_W, PTE_F; lia).
  rewrite frame_pte_pa, frame_pte_flags by done. split_and!; try done.
  apply Z.eqb_neq. intros ->. done.
Qed.

Lemma user_page va : 0 ≤ va < TRAPFRAME ↔ 0 ≤ va ∧ 0 ≤ va / PGSIZE < UPAGES.
Proof.
  change TRAPFRAME with ((2 ^ 26 - 2) * PGSIZE). change UPAGES with (2 ^ 26 - 2). split.
  - intros H. split_and!; [lia|apply Z.div_pos; unfold PGSIZE; lia|].
    apply Z.div_lt_upper_bound; [done|]. lia.
  - intros [H0 [_ H]]. split; [done|]. pose proof (Z.mul_succ_div_gt va PGSIZE ltac:(done)).
    unfold PGSIZE in *. lia.
Qed.

(** What an address space shows, in terms of its leaves. *)
Lemma view_leaves kend st own rs lv ext r va :
  ainv kend st own rs lv ext → is_root own r → 0 ≤ va < TRAPFRAME →
  view st r va = (λ pa, ram st (pa + va `mod` PGSIZE)) <$> lv !! (r, va / PGSIZE).
Proof.
  intros Ha Hr [H0 Hv]%user_page. unfold view. rewrite (tr_page _ 2 r va) by done.
  pose proof (a_leaf _ _ _ _ _ _ Ha r _ Hr Hv) as Hl. cbv zeta in Hl.
  destruct (lv !! (r, va / PGSIZE)) as [pa|]; [|by rewrite Hl].
  destruct (leaf_entry_bits _ _ Hl) as (-> & _ & -> & _). done.
Qed.

(** Where the leaf is the same, so is what is seen through it. *)
Lemma view_same kend st own rs lv ext st' own' rs' lv' ext' U r va :
  0 < kend → ainv kend st own rs lv ext → ainv kend st' own' rs' lv' ext' →
  vext st own rs st' own' rs' U → is_root own r → 0 ≤ va < TRAPFRAME →
  lv' !! (r, va / PGSIZE) = lv !! (r, va / PGSIZE) → view st' r va = view st r va.
Proof.
  intros Hk Ha Ha' Hx Hr Hva Hl. pose proof (proj2 (ext_roots _ _ _ _ _ _ _ _ Hx) Hr) as Hr'.
  rewrite (view_leaves _ _ _ _ _ _ _ _ Ha Hr Hva), (view_leaves _ _ _ _ _ _ _ _ Ha' Hr' Hva), Hl.
  destruct (lv !! (r, va / PGSIZE)) as [pa|] eqn:E; [|done]. simpl. f_equal.
  destruct (leaf_page _ _ _ _ _ _ _ _ _ Hk Ha E) as (Hin & _).
  destruct (leaf_page _ _ _ _ _ _ _ _ _ Hk Ha' Hl) as (Hin' & _ & _ & Hno).
  apply (ve_ram _ _ _ _ _ _ _ Hx pa); try done.
  pose proof (Z.mod_pos_bound va PGSIZE ltac:(done)). lia.
Qed.

Section ops.
Context (kend : Z) (id : nat) (Hkend : 0 < kend ≤ PHYSTOP) (Hid : (id < NCPU)%nat).

Lemma ref_page own rs st p : vinv kend st own rs → p ∈ rs → page_ok p.
Proof using Hkend.
  clear Hid. intros Hv Hp. apply (managed_page kend); [lia|]. by apply (ki_refs _ _ (vi_k _ _ _ _ Hv)).
Qed.

(** mappages() of one page that is not mapped. *)
Lemma mappages_one pt v f perm st own rs :
  vinv kend st own rs → is_root own pt → 0 ≤ perm < 1024 → 0 ≤ v < UPAGES → 0 ≤ f < 2 ^ 42 →
  has PTE_V (tr (ram st) 2 pt (page_va v)) = false →
  ∃ res st' own' new, mappages id pt (page_va v) PGSIZE (f * PGSIZE) perm st = Some (res, st') ∧
    vinv kend st' own' (new ++ rs) ∧ grown own own' new ∧
    (res = 0 ∧ vext st own rs st' own' (new ++ rs) (change pt v (frame_pte f (Z.lor perm PTE_V))) ∨
     res = -1 ∧ vext st own rs st' own' (new ++ rs) unchanged ∧ tr (ram st) 2 pt (page_va v) = 0).
Proof using Hkend Hid.
  intros Hv Hpt Hperm Hvr Hf Hval.
  assert (page_va v + PGSIZE ≤ MAXVA) as Hmax.
  { unfold page_va. change UPAGES with (2 ^ 26 - 2) in Hvr. change MAXVA with (2 ^ 38).
    unfold PGSIZE. lia. }
  pose proof (mappages_spec kend id Hkend Hid pt (page_va v) PGSIZE (f * PGSIZE) perm st own rs
    Hv Hpt Hperm (proj1 (UPAGES_max v Hvr)) ltac:(done) Hmax (Z.mod_mul f PGSIZE ltac:(done))
    ltac:(unfold PGSIZE; lia) ltac:(unfold PGSIZE; lia)) as H.
  rewrite page_va_div, Z.div_mul in H by done.
  replace ((page_va v + PGSIZE - 1) / PGSIZE - v + 1) with 1 in H.
  2:{ rewrite <-(Z.div_unique (page_va v + PGSIZE - 1) PGSIZE v (PGSIZE - 1)); unfold page_va, PGSIZE; lia. }
  unfold map_result in H. destruct (mappages _ _ _ _ _ _ _) as [[res st']|].
  - destruct H as (own' & new & k & H1 & H2 & H3 & _ & H5). exists res, st', own', new.
    split_and!; try done. destruct H5 as [[-> ->]|(-> & Hk & _ & Hz)]; [left|right]; (split; [done|]).
    + eapply vext_changes, H2. intros r w. apply mapped_one.
    + assert (k = 0) as -> by lia. rewrite Z.add_0_r in Hz. split; [|done].
      eapply vext_changes, H2. intros r w. unfold mapped. rewrite decide_False by lia. done.
  - destruct H as (w & Hw & Hval'). assert (w = v) as -> by lia. congruence.
Qed.

Lemma page_frame pa : page_ok pa → ∃ f, pa = f * PGSIZE ∧ 0 < f < 2 ^ 44.
Proof.
  clear Hkend Hid. intros [[f ->]%Z.mod_divide H]; [|done]. exists f. unfold PGSIZE in *. lia.
Qed.

Lemma managed_frame pa : managed kend pa → ∃ f, pa = f * PGSIZE ∧ 0 < f < 2 ^ 42.
Proof using Hkend.
  clear Hid. intros [[f ->]%Z.mod_divide H]; [|done]. exists f. unfold PHYSTOP, KERNBASE, PGSIZE in *. lia.
Qed.

(** The entry of a leaf, when the invariant holds. *)
Lemma leaf_get st own rs lv ext r v pa :
  ainv kend st own rs lv ext → lv !! (r, v) = Some pa →
  leaf_entry (tr (ram st) 2 r (page_va v)) pa ∧ is_root own r ∧ 0 ≤ v < UPAGES.
Proof.
  intros Ha Hl. destruct (a_dom _ _ _ _ _ _ Ha _ _ _ Hl) as [Hr Hv].
  pose proof (a_leaf _ _ _ _ _ _ Ha r v Hr Hv) as H. cbv zeta in H. by rewrite Hl in H.
Qed.

(** ** Unmapping *)

(** An entry that is zero may be said to have been cleared. *)
Lemma vext_cleared st own rs st' own' rs' r v :
  vext st own rs st' own' rs' unchanged → tr (ram st) 2 r (page_va v) = 0 →
  vext st own rs st' own' rs' (change r v 0).
Proof.
  clear Hkend Hid. intros [X1 X2 X3 X4 X5] Hz. constructor; try done.
  intros r' va Hr Hc. rewrite X3 by done. unfold change, unchanged.
  case_decide as Hd; [|done]. destruct Hd as [-> Hd]. simpl.
  rewrite (tr_page _ 2 r va) by apply Hc. by rewrite Hd.
Qed.

(** The references left when the leaf [k] is dropped. *)
Definition drop_leaf (lv : leaves) (k : Z * Z) (rs rs' : list Z) : Prop :=
  match lv !! k with Some pa => rs ≡ₚ pa :: rs' | None => rs ≡ₚ rs' end.

Lemma drop_leaf_refs st own rs lv ext k pa :
  ainv kend st own rs lv ext → lv !! k = Some pa →
  rs ≡ₚ pa :: elements (dom own) ++ (map_to_list (delete k lv)).*2 ++ ext.
Proof.
  clear Hkend Hid. intros Ha Hk. rewrite (a_refs _ _ _ _ _ _ Ha), (leaves_delete lv k pa Hk). simpl.
  symmetry. apply Permutation_middle.
Qed.

(** The invariant once the entry of a leaf is cleared and its reference gone. *)
Lemma ainv_clear st own rs lv ext st' rs' r v :
  ainv kend st own rs lv ext → is_root own r → 0 ≤ v < UPAGES →
  vinv kend st' own rs' → vext st own rs st' own rs' (change r v 0) →
  rs' ≡ₚ elements (dom own) ++ (map_to_list (delete (r, v) lv)).*2 ++ ext →
  ainv kend st' own rs' (delete (r, v) lv) ext.
Proof.
  clear Hkend Hid. intros Ha Hr Hv Hv' Hx Hrs.
  apply (ainv_step _ _ _ _ _ _ _ _ _ _ _ _ Ha Hv' Hx); [| |done|].
  - intros r' v' Hr' Hv''. unfold change. case_decide as Hd.
    + destruct Hd as [-> ->]. by rewrite lookup_delete_eq.
    + rewrite lookup_delete_ne; [done|]. naive_solver.
  - intros r' v' pa [_ Hl]%lookup_delete_Some. by eapply (a_dom _ _ _ _ _ _ Ha).
  - intros r' v' pa [Hne Hl]%lookup_delete_Some. unfold change. rewrite decide_False by naive_solver.
    simpl. intros Hw. pose proof (a_write _ _ _ _ _ _ Ha _ _ _ Hl Hw) as H1.
    destruct (leaf_alone _ _ _ _ _ _ _ _ _ Ha Hl H1) as (Hal & Hext & Hno).
    rewrite (occ_perm pa _ _ Hrs), !occ_app, (occ_not_elem pa ext) by done.
    rewrite (occ_not_elem pa (elements _)).
    2:{ rewrite elem_of_elements, not_elem_of_dom. done. }
    assert (delete (r, v) lv !! (r', v') = Some pa) as Hl' by (by rewrite lookup_delete_ne).
    pose proof (leaf_occ _ _ _ _ Hl'). rewrite (a_occ _ _ _ _ _ _ pa Ha) in H1.
    pose proof (occ_nonneg pa (elements (dom own))). pose proof (occ_nonneg pa ext).
    assert (occ pa (map_to_list (delete (r, v) lv)).*2 ≤ occ pa (map_to_list lv).*2); [|lia].
    destruct (lv !! (r, v)) as [pa'|] eqn:E; [|by rewrite delete_id].
    rewrite (occ_perm pa _ _ (leaves_delete lv (r, v) pa' E)), occ_cons. case_decide; lia.
Qed.

(** One turn of uvmunmap() with do_free, on a user page. *)
Lemma unmap_turn st own rs lv ext r v :
  ainv kend st own rs lv ext → is_root own r → 0 ≤ v < UPAGES →
  ∃ st' rs', unmap_body kend id r true (Some st) (page_va v) = Some st' ∧
    ainv kend st' own rs' (delete (r, v) lv) ext ∧
    vext st own rs st' own rs' (change r v 0) ∧ drop_leaf lv (r, v) rs rs'.
Proof using Hkend Hid.
  intros Ha Hr Hv. pose proof (a_v _ _ _ _ _ _ Ha) as Hvi.
  destruct (walk_spec kend id Hkend Hid false (page_va v) r st own rs Hvi Hr (UPAGES_max v Hv))
    as (o & st0 & own0 & new & Hw & Hv1 & Hx & _ & Hsame & Ho).
  destruct (Hsame eq_refl) as (-> & -> & ->). simpl in Hv1, Hx. clear Hsame.
  pose proof (a_leaf _ _ _ _ _ _ Ha r v Hr Hv) as Hl. cbv zeta in Hl.
  unfold unmap_body. cbn [mbind option_bind]. rewrite Hw. cbn [mbind option_bind].
  unfold drop_leaf. destruct o as [a|].
  2:{ exists st, rs. destruct Ho as [Hz _]. split; [done|].
      assert (vext st own rs st own rs (change r v 0)) as Hxc by (by apply vext_cleared).
      destruct (lv !! (r, v)) as [pa|] eqn:E.
      { destruct (leaf_entry_bits _ _ Hl) as (Hb & _). by rewrite Hz in Hb. }
      split_and!; [|done..]. apply (ainv_clear st own rs); try done.
      rewrite delete_id by done. apply (a_refs _ _ _ _ _ _ Ha). }
  destruct Ho as (q & x0 & Hq & -> & Hva & Hld). rewrite page_va_div in Hva.
  pose proof (PX_range 0 (page_va v)) as HPX. unfold load_pte. rewrite Hld.
  destruct (lv !! (r, v)) as [pa|] eqn:E.
  - destruct (leaf_entry_bits _ _ Hl) as (-> & _ & -> & ->). cbn [negb].
    pose proof (drop_leaf_refs st own rs lv ext _ pa Ha E) as Hrs.
    destruct (leaf_page _ _ _ _ _ _ _ _ _ (proj1 Hkend) Ha E) as (_ & _ & _ & Hno).
    destruct (page_free_spec kend id Hkend Hid st own rs _ pa Hvi Hrs Hno) as (st1 & -> & Hv2 & Hx2).
    cbn [mbind option_bind]. set (rs' := _ ++ _) in *.
    destruct (store_leaf_spec kend Hkend st1 own rs' q r x0 _ 0 Hv2 Hq HPX ltac:(lia)) as [Hv3 Hx3].
    rewrite <-Hva in Hx3. eexists _, rs'. split; [done|].
    assert (vext st own rs (store_pte (q + 8 * PX 0 (page_va v)) 0 st1) own rs' (change r v 0)) as Hx'.
    { eapply vext_before; [|exact Hx2|exact Hx3]. done. }
    split_and!; [|done..]. by apply (ainv_clear st own rs).
  - rewrite Hl. cbn. 
    destruct (store_leaf_spec kend Hkend st own rs q r x0 _ 0 Hvi Hq HPX ltac:(lia)) as [Hv3 Hx3].
    rewrite <-Hva in Hx3. eexists _, rs. split; [done|]. split_and!; [|done..].
    apply (ainv_clear st own rs); try done. rewrite delete_id by done. apply (a_refs _ _ _ _ _ _ Ha).
Qed.

(** [n] pages of the table [r0] from page number [v0]. *)
Definition in_pages (r0 v0 n r v : Z) : Prop := r = r0 ∧ v0 ≤ v < v0 + n.

#[global] Instance in_pages_dec r0 v0 n r v : Decision (in_pages r0 v0 n r v) := _.

Definition cleared (r0 v0 n : Z) : changes := λ r v,
  if decide (in_pages r0 v0 n r v) then Some 0 else None.

Definition without (r0 v0 n : Z) (lv lv' : leaves) : Prop :=
  ∀ r v, lv' !! (r, v) = if decide (in_pages r0 v0 n r v) then None else lv !! (r, v).

Lemma page_seq_S v n : page_seq (page_va v) (S n) = page_va v :: page_seq (page_va (v + 1)) n.
Proof.
  clear Hkend Hid. unfold page_seq. rewrite seqZ_cons, fmap_cons by lia. f_equal; [lia|].
  replace (Z.pred (Z.of_nat (S n))) with (Z.of_nat n) by lia.
  change (Z.succ 0) with (1 + 0). rewrite <-fmap_add_seqZ, <-list_fmap_compose.
  apply list_fmap_ext. intros i x _. unfold compose, page_va. lia.
Qed.

Lemma unmap_pages ext r n : ∀ v0 st own rs lv,
  ainv kend st own rs lv ext → is_root own r → 0 ≤ v0 → v0 + Z.of_nat n ≤ UPAGES →
  ∃ st' rs' lv',
    foldl (unmap_body kend id r true) (Some st) (page_seq (page_va v0) n) = Some st' ∧
    ainv kend st' own rs' lv' ext ∧ vext st own rs st' own rs' (cleared r v0 (Z.of_nat n)) ∧
    without r v0 (Z.of_nat n) lv lv' ∧ ∀ p, p ∈ rs' → p ∈ rs.
Proof using Hkend Hid.
  induction n as [|n IH]; intros v0 st own rs lv Ha Hr H0 Hmax.
  { exists st, rs, lv. split_and!; try done.
    - eapply vext_changes, vext_refl, Ha. intros r' v. unfold cleared, in_pages.
      rewrite decide_False by lia. done.
    - intros r' v. rewrite decide_False; [done|]. unfold in_pages. lia. }
  destruct (unmap_turn st own rs lv ext r v0 Ha Hr ltac:(lia)) as (st1 & rs1 & Hb & Ha1 & Hx1 & Hd).
  rewrite page_seq_S. cbn [foldl]. rewrite Hb.
  destruct (IH (v0 + 1) st1 own rs1 _ Ha1 Hr ltac:(lia) ltac:(lia))
    as (st2 & rs2 & lv2 & -> & Ha2 & Hx2 & Hw2 & Hs2).
  assert (∀ p, p ∈ rs1 → p ∈ rs) as Hs1.
  { intros p Hp. unfold drop_leaf in Hd. case_match; rewrite Hd; [by right|done]. }
  exists st2, rs2, lv2. split_and!; [done..| | |eauto].
  - eapply vext_changes, (vext_trans _ _ _ st1 own rs1); [|by intros p _ Hp; apply Hs2|exact Hx1|exact Hx2].
    intros r' v. unfold then_changes, cleared, change, in_pages.
    destruct (decide (r' = r ∧ v0 ≤ v < v0 + Z.of_nat (S n))) as [[-> Hv]|Hno].
    + case_decide; [by case_decide|]. rewrite decide_True; [done|]. lia.
    + rewrite !decide_False; [done|lia|]. intros [-> ?]. apply Hno. lia.
  - intros r' v. rewrite Hw2. unfold in_pages.
    destruct (decide (r' = r ∧ v0 ≤ v < v0 + Z.of_nat (S n))) as [[-> Hv]|Hno].
    + case_decide; [done|]. assert (v = v0) as -> by lia. by rewrite lookup_delete_eq.
    + rewrite decide_False, lookup_delete_ne; [done| |lia]. intros [= -> ->]. apply Hno. lia.
Qed.

Lemma uvmunmap_spec st own rs lv ext r v0 n :
  ainv kend st own rs lv ext → is_root own r → 0 ≤ v0 → 0 ≤ n → v0 + n ≤ UPAGES →
  ∃ st' rs' lv', uvmunmap kend id r (page_va v0) n true st = Some st' ∧
    ainv kend st' own rs' lv' ext ∧ vext st own rs st' own rs' (cleared r v0 n) ∧
    without r v0 n lv lv' ∧ ∀ p, p ∈ rs' → p ∈ rs.
Proof using Hkend Hid.
  intros Ha Hr H0 Hn Hmax. unfold uvmunmap.
  rewrite (proj2 (Z.eqb_eq (page_va v0 `mod` PGSIZE) 0)) by (unfold page_va; by apply Z.mod_mul). cbn [negb].
  replace (u64 (page_va v0 + n * PGSIZE)) with (page_va (v0 + n)).
  2:{ rewrite u64_small; [unfold page_va; lia|]. change UPAGES with (2 ^ 26 - 2) in Hmax.
      unfold page_va, PGSIZE. lia. }
  rewrite page_count_aligned by lia. replace (v0 + n - v0) with n by lia.
  destruct (unmap_pages ext r (Z.to_nat n) v0 st own rs lv Ha Hr H0) as (st' & rs' & lv' & H); [lia|].
  rewrite Z2Nat.id in H by lia. by exists st', rs', lv'.
Qed.

Lemma PGROUNDUP_page a :
  0 ≤ a ≤ TRAPFRAME → ∃ v, PGROUNDUP a = page_va v ∧ 0 ≤ v ≤ UPAGES ∧ a ≤ page_va v < a + PGSIZE.
Proof.
  clear Hkend Hid. intros Ha. change TRAPFRAME with ((2 ^ 26 - 2) * PGSIZE) in Ha.
  change UPAGES with (2 ^ 26 - 2). exists ((a + PGSIZE - 1) / PGSIZE). unfold page_va.
  rewrite PGROUNDUP_div by (unfold PGSIZE in *; lia).
  pose proof (Z.div_mod (a + PGSIZE - 1) PGSIZE ltac:(done)).
  pose proof (Z.mod_pos_bound (a + PGSIZE - 1) PGSIZE ltac:(done)).
  unfold PGSIZE in *. split; [done|]. lia.
Qed.

(** uvmdealloc() unmaps the whole pages between the two sizes. *)
Lemma uvmdealloc_spec st own rs lv ext r oldsz newsz :
  ainv kend st own rs lv ext → is_root own r → 0 ≤ oldsz ≤ TRAPFRAME → 0 ≤ newsz →
  ∃ st' rs' lv' v0 n, uvmdealloc kend id r oldsz newsz st = Some (Z.min oldsz newsz, st') ∧
    ainv kend st' own rs' lv' ext ∧ vext st own rs st' own rs' (cleared r v0 n) ∧
    without r v0 n lv lv' ∧ (∀ p, p ∈ rs' → p ∈ rs) ∧
    (∀ v, in_pages r v0 n r v ↔ newsz ≤ page_va v < oldsz).
Proof using Hkend Hid.
  intros Ha Hr Ho Hn. unfold uvmdealloc.
  assert (∃ st' rs' lv' v0 n, Some st = Some st' ∧ ainv kend st' own rs' lv' ext ∧
    vext st own rs st' own rs' (cleared r v0 n) ∧ without r v0 n lv lv' ∧
    (∀ p, p ∈ rs' → p ∈ rs) ∧ ∀ v, ¬ in_pages r v0 n r v) as Hnone.
  { exists st, rs, lv, 0, 0. split_and!; try done; [|intros r' v; by rewrite decide_False by (unfold in_pages; lia)|unfold in_pages; lia].
    eapply vext_changes, vext_refl, Ha. intros r' v. unfold cleared.
    by rewrite decide_False by (unfold in_pages; lia). }
  destruct (Z.leb_spec oldsz newsz) as [Hle|Hgt].
  { destruct Hnone as (st' & rs' & lv' & v0 & n & [= <-] & A1 & A2 & A3 & A4 & A5).
    exists st, rs', lv', v0, n. rewrite Z.min_l by lia. split_and!; try done.
    intros v. split; [by intros ?%A5|lia]. }
  destruct (PGROUNDUP_page oldsz ltac:(lia)) as (v1 & -> & Hv1 & Hb1).
  destruct (PGROUNDUP_page newsz ltac:(lia)) as (v0 & -> & Hv0 & Hb0).
  rewrite Z.min_r by lia.
  destruct (Z.ltb_spec (page_va v0) (page_va v1)) as [Hlt|Hge].
  - replace ((page_va v1 - page_va v0) / PGSIZE) with (v1 - v0).
    2:{ unfold page_va. rewrite <-Z.mul_sub_distr_r. by rewrite Z.div_mul. }
    assert (v0 < v1) by (unfold page_va, PGSIZE in *; lia).
    rewrite i32_small by (unfold is_i32; change UPAGES with (2 ^ 26 - 2) in *; lia).
    destruct (uvmunmap_spec st own rs lv ext r v0 (v1 - v0) Ha Hr) as (st' & rs' & lv' & -> & A1 & A2 & A3 & A4);
      [lia..|]. cbn [mbind option_bind]. exists st', rs', lv', v0, (v1 - v0). split_and!; try done.
    intros v. unfold in_pages, page_va, PGSIZE in *. lia.
  - destruct Hnone as (st' & rs' & lv' & w & n & [= <-] & A1 & A2 & A3 & A4 & A5).
    exists st, rs', lv', w, n. split_and!; try done.
    intros v. split; [by intros ?%A5|]. unfold page_va, PGSIZE in *. lia.
Qed.

(** ** Mapping pages *)

Lemma grown_fresh st' own own' new rs p :
  vinv kend st' own' (new ++ rs) → grown own own' new → p ∈ rs → p ∉ new.
Proof.
  clear Hkend Hid. intros Hv Hg Hp Hin.
  assert (p ∈ dom own') as [t Ht]%elem_of_dom by (apply elem_of_elements; rewrite Hg; set_solver).
  pose proof (vi_occ _ _ _ _ Hv _ _ Ht) as H1. rewrite occ_app in H1.
  apply occ_elem in Hin, Hp. lia.
Qed.

Lemma grown_occ st' own own' new rs p :
  vinv kend st' own' (new ++ rs) → grown own own' new → p ∈ rs → occ p (new ++ rs) = occ p rs.
Proof.
  clear Hkend Hid. intros Hv Hg Hp. rewrite occ_app, (occ_not_elem p new); [done|].
  by eapply grown_fresh.
Qed.

Lemma ainv_grow st own rs lv ext st' own' new :
  ainv kend st own rs lv ext → vinv kend st' own' (new ++ rs) → grown own own' new →
  vext st own rs st' own' (new ++ rs) unchanged → ainv kend st' own' (new ++ rs) lv ext.
Proof using Hkend.
  clear Hid. intros Ha Hv Hg Hx. apply (ainv_frame kend st own rs lv ext); try done.
  - by rewrite Hg, <-(assoc_L app), <-(a_refs _ _ _ _ _ _ Ha).
  - intros r v pa Hl H1. rewrite (grown_occ st' own own'); try done.
    by apply (leaf_page _ _ _ _ _ _ _ _ _ (proj1 Hkend) Ha Hl).
Qed.

(** A reference in hand becomes a leaf. *)
Lemma ainv_map st own rs lv ext st' own' new pt v pa w :
  ainv kend st own rs lv (pa :: ext) → vinv kend st' own' (new ++ rs) → grown own own' new →
  vext st own rs st' own' (new ++ rs) (change pt v w) → is_root own pt → 0 ≤ v < UPAGES →
  lv !! (pt, v) = None → leaf_entry w pa → (has PTE_W w = true → occ pa rs = 1) →
  ainv kend st' own' (new ++ rs) (<[(pt, v) := pa]> lv) ext.
Proof using Hkend.
  clear Hid. intros Ha Hv Hg Hx Hpt Hvr Hnone Hle Hw.
  assert (pa ∈ rs) as Hpa by (rewrite (a_refs _ _ _ _ _ _ Ha); set_solver).
  apply (ainv_step _ _ _ _ _ _ _ _ _ _ _ _ Ha Hv Hx).
  - intros r' v' Hr' Hv'. unfold change. case_decide as Hd.
    + destruct Hd as [-> ->]. by rewrite lookup_insert_eq.
    + rewrite lookup_insert_ne; [done|]. naive_solver.
  - intros r' v' pa' [[[= <- <-] _]|[_ Hl]]%lookup_insert_Some; [done|].
    by eapply (a_dom _ _ _ _ _ _ Ha).
  - rewrite leaves_insert, Hg by done. rewrite (a_refs _ _ _ _ _ _ Ha) at 1.
    rewrite <-!(assoc_L app). f_equiv. f_equiv. simpl. by rewrite <-Permutation_middle.
  - intros r' v' pa' [[[= <- <-] <-]|[Hne Hl]]%lookup_insert_Some; unfold change.
    + rewrite decide_True by done. simpl. intros Hw'. rewrite (grown_occ st' own own') by done. auto.
    + rewrite decide_False by naive_solver. simpl. intros Hw'.
      rewrite (grown_occ st' own own'); try done; [by eapply (a_write _ _ _ _ _ _ Ha)|].
      by apply (leaf_page _ _ _ _ _ _ _ _ _ (proj1 Hkend) Ha Hl).
Qed.

(** ** uvmalloc() *)

Definition user_flags : Z := Z.lor (Z.lor (Z.lor PTE_W PTE_X) PTE_R) PTE_U.

Lemma kalloc_zero st own rs lv ext mem st1 :
  ainv kend st own rs lv ext → kalloc id st = (Some mem, st1) →
  let st2 := st1 <| ram := memset mem 0 PGSIZE (ram st1) |> in
  managed kend mem ∧ occ mem (mem :: rs) = 1 ∧
  ainv kend st2 own (mem :: rs) lv (mem :: ext) ∧ vext st own rs st2 own (mem :: rs) unchanged.
Proof using Hkend Hid.
  intros Ha Hk st2.
  pose proof (kalloc_spec kend id Hid st own rs (a_v _ _ _ _ _ _ Ha)) as H. rewrite Hk in H.
  destruct H as (_ & _ & _ & _ & Hram & _).
  destruct (kalloc_fill kend id Hkend Hid st own rs mem st1 (ram st2) (a_v _ _ _ _ _ _ Ha) Hk) as (Hm & _ & Hn & Hv & Hx).
  { intros a Hout. unfold st2; simpl. rewrite memset_out, Hram, memset_out by done. done. }
  split_and!; [done|by rewrite occ_cons, decide_True, occ_not_elem by done| |done].
  apply (ainv_frame kend st own rs lv ext); try done.
  - rewrite (a_refs _ _ _ _ _ _ Ha). rewrite !(assoc_L app). apply Permutation_middle.
  - intros r v pa Hl H1. rewrite occ_cons, decide_False; [lia|]. intros ->.
    destruct (leaf_page _ _ _ _ _ _ _ _ _ (proj1 Hkend) Ha Hl); done.
Qed.

Lemma uvmalloc_page st own rs lv ext pt v mem st1 :
  ainv kend st own rs lv ext → is_root own pt → 0 ≤ v < UPAGES → lv !! (pt, v) = None →
  kalloc id st = (Some mem, st1) →
  ∃ res st3 own' new w,
    mappages id pt (page_va v) PGSIZE mem user_flags (st1 <| ram := memset mem 0 PGSIZE (ram st1) |>)
      = Some (res, st3) ∧
    (res = 0 ∧ ainv kend st3 own' (new ++ mem :: rs) (<[(pt, v) := mem]> lv) ext ∧
      vext st own rs st3 own' (new ++ mem :: rs) (change pt v w) ∧
      (∀ a, mem ≤ a < mem + PGSIZE → ram st3 a = 0) ∨
     res = -1 ∧ ainv kend st3 own' (new ++ mem :: rs) lv (mem :: ext) ∧
      vext st own rs st3 own' (new ++ mem :: rs) unchanged ∧
      occ mem (new ++ mem :: rs) = 1 ∧ (mem ∉ rs)).
Proof using Hkend Hid.
  intros Ha Hpt Hv Hnone Hk.
  destruct (kalloc_zero st own rs lv ext mem st1 Ha Hk) as (Hm & H1 & Ha2 & Hx2).
  set (st2 := st1 <| ram := _ |>) in *. destruct (managed_frame mem Hm) as (f & -> & Hf).
  pose proof (a_leaf _ _ _ _ _ _ Ha2 pt v Hpt Hv) as Hz. cbv zeta in Hz. rewrite Hnone in Hz.
  destruct (mappages_one pt v f user_flags st2 own (f * PGSIZE :: rs) (a_v _ _ _ _ _ _ Ha2) Hpt)
    as (res & st3 & own' & new & Hmp & Hv3 & Hg & Hres); [done|done|lia|by rewrite Hz|].
  set (w := frame_pte f (Z.lor user_flags PTE_V)) in *.
  exists res, st3, own', new, w. split; [done|].
  assert (leaf_entry w (f * PGSIZE)) as Hle.
  { exists f, (Z.lor user_flags PTE_V). split_and!; try done; lia. }
  destruct Hres as [[-> Hx3]|(-> & Hx3 & _)]; [left|right]; (split; [done|]).
  - split_and!.
    + by eapply (ainv_map st2).
    + eapply vext_before; [|exact Hx2|exact Hx3]. intros p Hp _. by right.
    + intros a Hin. rewrite (ve_ram _ _ _ _ _ _ _ Hx3 (f * PGSIZE)).
      * unfold st2; simpl. by apply memset_in.
      * left.
      * set_solver.
      * pose proof (ainv_map st2 own _ lv ext st3 own' new pt v _ w Ha2 Hv3 Hg Hx3 Hpt Hv Hnone Hle
          (λ _, H1)) as Ha3.
        eapply (leaf_page _ _ _ _ _ _ pt v _ (proj1 Hkend) Ha3). by rewrite lookup_insert_eq.
      * done.
  - split_and!.
    + by eapply (ainv_grow st2).
    + eapply vext_before; [|exact Hx2|exact Hx3]. intros p Hp _. by right.
    + rewrite (grown_occ st3 own own'); [done..|left].
    + intros Hin%occ_elem. rewrite occ_cons, decide_True in H1 by done. lia.
Qed.

(** A reference in hand is given back. *)
Lemma ainv_free st own rs lv ext pa :
  ainv kend st own rs lv (pa :: ext) → own !! pa = None →
  (∀ r v, lv !! (r, v) = Some pa → has PTE_W (tr (ram st) 2 r (page_va v)) = false) →
  ∃ st' rs', page_free kend id pa st = Some st' ∧ rs ≡ₚ pa :: rs' ∧
    ainv kend st' own rs' lv ext ∧ vext st own rs st' own rs' unchanged.
Proof using Hkend Hid.
  intros Ha Hno HW. set (rs' := elements (dom own) ++ (map_to_list lv).*2 ++ ext).
  assert (rs ≡ₚ pa :: rs') as Hrs.
  { rewrite (a_refs _ _ _ _ _ _ Ha). unfold rs'. rewrite !(assoc_L app). symmetry. apply Permutation_middle. }
  destruct (page_free_spec kend id Hkend Hid st own rs rs' pa (a_v _ _ _ _ _ _ Ha) Hrs Hno)
    as (st' & Hf & Hv & Hx).
  exists st', rs'. split_and!; try done. apply (ainv_step _ _ _ _ _ _ _ _ _ _ _ _ Ha Hv Hx); try done.
  - apply (a_dom _ _ _ _ _ _ Ha).
  - intros r v pa' Hl Hw. simpl in Hw. pose proof (a_write _ _ _ _ _ _ Ha _ _ _ Hl Hw) as H1.
    rewrite (occ_perm pa' _ _ Hrs), occ_cons in H1. case_decide as E; [|lia]. subst.
    rewrite HW in Hw by done. done.
Qed.

(** A new page that could not be mapped is given back. *)
Lemma ainv_free_new st own rs lv ext pa :
  ainv kend st own rs lv (pa :: ext) → occ pa rs = 1 →
  ∃ st' rs', page_free kend id pa st = Some st' ∧ rs ≡ₚ pa :: rs' ∧
    ainv kend st' own rs' lv ext ∧ vext st own rs st' own rs' unchanged.
Proof using Hkend Hid.
  intros Ha H1. pose proof H1 as H2. rewrite (a_occ _ _ _ _ _ _ pa Ha), occ_cons, decide_True in H2 by done.
  pose proof (occ_nonneg pa (elements (dom own))). pose proof (occ_nonneg pa ext).
  pose proof (occ_nonneg pa (map_to_list lv).*2). apply ainv_free; [done|..].
  - apply not_elem_of_dom. intros Hin%elem_of_elements%occ_elem. lia.
  - intros r v Hl. pose proof (leaf_occ _ _ _ _ Hl). lia.
Qed.

(** Entries and leaves outside a range of pages are as before. *)
Definition only_pages (pt v0 n : Z) (U : changes) (lv lv' : leaves) : Prop :=
  ∀ r v, ¬ in_pages pt v0 n r v → U r v = None ∧ lv' !! (r, v) = lv !! (r, v).

Lemma only_pages_trans pt v0 n U V lv lv1 lv2 :
  only_pages pt v0 n U lv lv1 → only_pages pt v0 n V lv1 lv2 →
  only_pages pt v0 n (then_changes U V) lv lv2.
Proof.
  clear Hkend Hid. intros H1 H2 r v Hn. destruct (H1 r v Hn) as [E1 <-], (H2 r v Hn) as [E2 ->].
  split; [|done]. unfold then_changes. by rewrite E1, E2.
Qed.

Lemma only_pages_wider pt v0 n v1 m U lv lv' :
  only_pages pt v0 n U lv lv' → v1 ≤ v0 → v0 + n ≤ v1 + m → only_pages pt v1 m U lv lv'.
Proof. clear Hkend Hid. intros H H1 H2 r v Hn. apply H. intros [-> ?]. apply Hn. split; [done|lia]. Qed.

Lemma without_only pt v0 n lv lv' : without pt v0 n lv lv' → only_pages pt v0 n (cleared pt v0 n) lv lv'.
Proof.
  clear Hkend Hid. intros H r v Hn. rewrite H. unfold cleared. by rewrite !decide_False.
Qed.

(** The error path of uvmalloc(). *)
Lemma uvmalloc_undo st own rs lv ext pt v0 v :
  ainv kend st own rs lv ext → is_root own pt → 0 ≤ v0 ≤ v → v ≤ UPAGES →
  ∃ st' rs' lv' U x, uvmdealloc kend id pt (page_va v) (page_va v0) st = Some (x, st') ∧
    ainv kend st' own rs' lv' ext ∧ vext st own rs st' own rs' U ∧
    only_pages pt v0 (v - v0) U lv lv' ∧ (∀ u, v0 ≤ u < v → lv' !! (pt, u) = None) ∧
    (∀ p, p ∈ rs' → p ∈ rs).
Proof using Hkend Hid.
  intros Ha Hpt H0 Hmax.
  destruct (uvmdealloc_spec st own rs lv ext pt (page_va v) (page_va v0) Ha Hpt)
    as (st' & rs' & lv' & w & n & Hd & A1 & A2 & A3 & A4 & A5).
  { change TRAPFRAME with ((2 ^ 26 - 2) * PGSIZE). change UPAGES with (2 ^ 26 - 2) in Hmax.
    unfold page_va, PGSIZE. lia. }
  { unfold page_va, PGSIZE. lia. }
  assert (∀ u, w ≤ u < w + n ↔ v0 ≤ u < v) as Hin.
  { intros u. specialize (A5 u). unfold in_pages, page_va, PGSIZE in A5. lia. }
  exists st', rs', lv', (cleared pt w n), (Z.min (page_va v) (page_va v0)). split_and!; try done.
  - intros r u Hn. apply (without_only _ _ _ _ _ A3). intros [-> Hu]. apply Hn. split; [done|].
    apply Hin in Hu. lia.
  - intros u Hu. rewrite A3, decide_True; [done|]. split; [done|]. by apply Hin.
Qed.

(** The outcome of a turn of the loop of uvmalloc() at page [v]. *)
Lemma alloc_turn st own rs lv ext pt v0 v :
  ainv kend st own rs lv ext → is_root own pt → 0 ≤ v0 ≤ v → v < UPAGES → lv !! (pt, v) = None →
  ∃ failed st' own' rs' lv' U,
    alloc_body kend id pt (page_va v0) (Some (false, st)) (page_va v) = Some (failed, st') ∧
    ainv kend st' own' rs' lv' ext ∧ vext st own rs st' own' rs' U ∧
    if failed : bool
    then only_pages pt v0 (v - v0) U lv lv' ∧ ∀ u, v0 ≤ u < v → lv' !! (pt, u) = None
    else only_pages pt v 1 U lv lv' ∧ (∀ p, p ∈ rs → p ∈ rs') ∧
         ∃ pa, lv' !! (pt, v) = Some pa ∧ ∀ a, pa ≤ a < pa + PGSIZE → ram st' a = 0.
Proof using Hkend Hid.
  intros Ha Hpt H0 Hv Hnone. unfold alloc_body. cbn [mbind option_bind].
  destruct (kalloc id st) as [[mem|] st1] eqn:Hk.
  2:{ pose proof (kalloc_spec kend id Hid st own rs (a_v _ _ _ _ _ _ Ha)) as H. rewrite Hk in H.
      destruct H as [-> _].
      destruct (uvmalloc_undo st own rs lv ext pt v0 v Ha Hpt H0 ltac:(lia))
        as (st' & rs' & lv' & U & x & -> & A1 & A2 & A3 & A4 & A5).
      cbn [mbind option_bind]. by exists true, st', own, rs', lv', U. }
  destruct (uvmalloc_page st own rs lv ext pt v mem st1 Ha Hpt ltac:(lia) Hnone Hk)
    as (res & st3 & own3 & new & w & Hmp & Hres).
  unfold user_flags in Hmp. cbv zeta. rewrite Hmp. cbn [mbind option_bind].
  destruct Hres as [(-> & A1 & A2 & A3)|(-> & A1 & A2 & Hocc & Hn)]; cbn [negb Z.eqb].
  - exists false, st3, own3, (new ++ mem :: rs), (<[(pt, v) := mem]> lv), (change pt v w).
    split_and!; try done.
    + intros r u Hn. unfold in_pages in Hn. unfold change. rewrite decide_False by naive_solver lia.
      rewrite lookup_insert_ne; [done|]. intros [= <- <-]. apply Hn. lia.
    + set_solver.
    + exists mem. by rewrite lookup_insert_eq.
  - destruct (ainv_free_new st3 own3 _ lv ext mem A1 Hocc) as (st4 & rs4 & -> & Hrs4 & A4 & A5).
    cbn [mbind option_bind].
    destruct (uvmalloc_undo st4 own3 rs4 lv ext pt v0 v A4) as (st' & rs' & lv' & U & x & -> & B1 & B2 & B3 & B4 & B5);
      [by apply (ext_roots _ _ _ _ _ _ _ _ A2)|lia..|].
    cbn [mbind option_bind]. exists true, st', own3, rs', lv', U. split_and!; try done.
    eapply vext_before; [|eapply vext_before; [|exact A2|exact A5]|exact B2].
    + intros p Hp _. assert (p ∈ mem :: rs4) as [->|]%elem_of_cons; [|done..].
      rewrite <-Hrs4. apply elem_of_app; right. by right.
    + intros p Hp _. apply elem_of_app; right. by right.
Qed.

Lemma alloc_failed pt oldsz l st :
  foldl (alloc_body kend id pt oldsz) (Some (true, st)) l = Some (true, st).
Proof. clear Hkend Hid. by induction l. Qed.

Lemma alloc_loop ext pt v0 n : ∀ v st own rs lv,
  ainv kend st own rs lv ext → is_root own pt → 0 ≤ v0 ≤ v → v + Z.of_nat n ≤ UPAGES →
  (∀ u, v ≤ u < v + Z.of_nat n → lv !! (pt, u) = None) →
  ∃ failed st' own' rs' lv' U,
    foldl (alloc_body kend id pt (page_va v0)) (Some (false, st)) (page_seq (page_va v) n)
      = Some (failed, st') ∧
    ainv kend st' own' rs' lv' ext ∧ vext st own rs st' own' rs' U ∧
    if failed : bool
    then only_pages pt v0 (v + Z.of_nat n - v0) U lv lv' ∧
         ∀ u, v0 ≤ u < v + Z.of_nat n → lv' !! (pt, u) = None
    else only_pages pt v (Z.of_nat n) U lv lv' ∧
         ∀ va, v ≤ va / PGSIZE < v + Z.of_nat n → 0 ≤ va → view st' pt va = Some 0.
Proof using Hkend Hid.
  induction n as [|n IH]; intros v st own rs lv Ha Hpt H0 Hmax Hnone.
  { exists false, st, own, rs, lv, unchanged. split_and!; try done; [by eapply vext_refl, Ha|lia]. }
  destruct (alloc_turn st own rs lv ext pt v0 v Ha Hpt H0 ltac:(lia) (Hnone v ltac:(lia)))
    as (failed & st1 & own1 & rs1 & lv1 & U1 & Hb & Ha1 & Hx1 & Hf).
  rewrite page_seq_S. cbn [foldl]. rewrite Hb. destruct failed.
  { destruct Hf as [Ho Hn]. exists true, st1, own1, rs1, lv1, U1. rewrite alloc_failed.
    split_and!; try done; [by eapply only_pages_wider; [done|lia..]|].
    intros u Hu. destruct (decide (u < v)); [apply Hn; lia|]. rewrite (proj2 (Ho pt u ltac:(unfold in_pages; lia))).
    apply Hnone. lia. }
  destruct Hf as (Ho & Hrs & pa & Hpa & Hz).
  pose proof (proj2 (ext_roots _ _ _ _ _ _ _ _ Hx1) Hpt) as Hpt1.
  destruct (IH (v + 1) st1 own1 rs1 lv1 Ha1 Hpt1 ltac:(lia) ltac:(lia))
    as (failed & st2 & own2 & rs2 & lv2 & U2 & -> & Ha2 & Hx2 & Hf).
  { intros u Hu. rewrite (proj2 (Ho pt u ltac:(unfold in_pages; lia))). apply Hnone. lia. }
  exists failed, st2, own2, rs2, lv2, (then_changes U1 U2). split_and!; [done..| |].
  { eapply vext_trans; [|exact Hx1|exact Hx2]. auto. }
  replace (v + Z.of_nat (S n)) with (v + 1 + Z.of_nat n) by lia. destruct failed.
  - destruct Hf as [Ho2 Hn2]. split; [|done]. eapply only_pages_trans; [|done].
    eapply only_pages_wider; [done|lia..].
  - destruct Hf as [Ho2 Hz2]. split.
    + eapply only_pages_trans; (eapply only_pages_wider; [done|lia..]).
    + intros va Hva Hva0. destruct (decide (v + 1 ≤ va / PGSIZE)); [apply Hz2; lia|].
      assert (va / PGSIZE = v) as Hv by lia.
      assert (0 ≤ va < TRAPFRAME) as Hu by (apply user_page; lia).
      rewrite (view_same _ _ _ _ _ _ _ _ _ _ _ _ _ _ (proj1 Hkend) Ha1 Ha2 Hx2 Hpt1 Hu)
        by (rewrite Hv; apply Ho2; unfold in_pages; lia).
      rewrite (view_leaves _ _ _ _ _ _ _ _ Ha1 Hpt1 Hu), Hv, Hpa. simpl. f_equal. apply Hz.
      pose proof (Z.mod_pos_bound va PGSIZE ltac:(done)). lia.
Qed.

(** ** uvmcopy() *)

Lemma share_spec st own rs pa :
  vinv kend st own rs → pa ∈ rs → own !! pa = None → occ pa rs < 2 ^ 31 - 1 →
  vinv kend (share_page kend pa st) own (pa :: rs) ∧
  vext st own rs (share_page kend pa st) own (pa :: rs) unchanged.
Proof.
  clear Hkend Hid. intros [V1 V2 V3] Hin Hno Hlt. unfold share_page.
  pose proof (ki_refs _ _ V1 pa Hin) as Hm.
  destruct (kaddrefcnt kend pa (km st)) as [z m] eqn:Hk.
  assert (z = 0) as ->.
  { unfold kaddrefcnt in Hk. rewrite (proj2 (bad_page_managed kend pa) Hm) in Hk. congruence. }
  split; constructor; simpl; try done.
  - by eapply kinv_share.
  - intros p t Hp. rewrite occ_cons, decide_False by congruence. by eapply V3.
  - intros p r l x. by eapply t_root.
Qed.

(** The flags that parent and child get. *)
Definition cow_flags (fl : Z) : Z :=
  if has PTE_W fl then Z.ldiff (Z.lor fl PTE_F) PTE_W else fl.

Lemma has_bit k fl : 0 ≤ k → has (2 ^ k) fl = Z.testbit fl k.
Proof.
  clear Hkend Hid. intros Hk. unfold has.
  assert (Z.land fl (2 ^ k) = if Z.testbit fl k then 2 ^ k else 0) as ->.
  { apply Z.bits_inj'. intros n Hn. rewrite Z.land_spec, Z.pow2_bits_eqb by lia.
    destruct (Z.eqb_spec k n) as [->|Hne].
    - rewrite andb_true_r. destruct (Z.testbit fl n) eqn:E; [|by rewrite Z.testbit_0_l].
      by rewrite Z.pow2_bits_true.
    - rewrite andb_false_r. case_match; [by rewrite Z.pow2_bits_false by lia|by rewrite Z.testbit_0_l]. }
  case_match; [|done]. apply negb_true_iff, Z.eqb_neq. pose proof (Z.pow_pos_nonneg 2 k). lia.
Qed.

Lemma cow_flags_ok fl :
  0 ≤ fl < 1024 → has PTE_V fl = true → has PTE_W fl = negb (has PTE_F fl) →
  0 ≤ cow_flags fl < 1024 ∧ has PTE_V (cow_flags fl) = true ∧
  has PTE_W (cow_flags fl) = false ∧ has PTE_F (cow_flags fl) = true.
Proof.
  clear Hkend Hid. intros Hfl Hv Hw. unfold cow_flags. destruct (has PTE_W fl) eqn:E.
  - split; [apply flags_ldiff; [apply flags_lor|]; unfold PTE_F, PTE_W; lia|].
    change PTE_V with (2 ^ 0) in *. change PTE_W with (2 ^ 2) in *. change PTE_F with (2 ^ 8) in *.
    rewrite !has_bit in * by lia. rewrite !Z.ldiff_spec, !Z.lor_spec.
    rewrite !Z.pow2_bits_eqb by lia.
    split_and!; [by rewrite Hv|by rewrite andb_false_r|by rewrite orb_true_r].
  - split_and!; try done; [lia..|]. by destruct (has PTE_F fl).
Qed.

Lemma lor_same fl k : 0 ≤ k → has (2 ^ k) fl = true → Z.lor fl (2 ^ k) = fl.
Proof.
  clear Hkend Hid. intros Hk Hb. rewrite has_bit in Hb by done. apply Z.bits_inj'. intros n Hn.
  rewrite Z.lor_spec, Z.pow2_bits_eqb by lia.
  destruct (Z.eqb_spec k n) as [<-|]; [by rewrite Hb|by rewrite orb_false_r].
Qed.

(** Changing the flags of a leaf so that it is not writable. *)
Lemma ainv_protect st own rs lv ext st' r v pa w :
  ainv kend st own rs lv ext → lv !! (r, v) = Some pa → vinv kend st' own rs →
  vext st own rs st' own rs (change r v w) → leaf_entry w pa → has PTE_W w = false →
  ainv kend st' own rs lv ext.
Proof.
  clear Hkend Hid. intros Ha Hl Hv Hx Hle Hw.
  apply (ainv_step _ _ _ _ _ _ _ _ _ _ _ _ Ha Hv Hx).
  - intros r' v' _ _. unfold change. case_decide as Hd; [|done]. destruct Hd as [-> ->]. by rewrite Hl.
  - apply (a_dom _ _ _ _ _ _ Ha).
  - apply (a_refs _ _ _ _ _ _ Ha).
  - intros r' v' pa' Hl'. unfold change. case_decide as Hd; simpl; [by rewrite Hw|].
    by apply (a_write _ _ _ _ _ _ Ha).
Qed.

(** The part of a turn of uvmcopy() on the parent's entry. *)
Lemma copy_protect st own rs lv ext old v pa q x0 :
  ainv kend st own rs lv ext → lv !! (old, v) = Some pa → own !! q = Some (old, 0%nat, x0) →
  v = x0 * 512 + PX 0 (page_va v) →
  let slot := q + 8 * PX 0 (page_va v) in
  let pte := tr (ram st) 2 old (page_va v) in
  ∃ f fl st1 U, pa = f * PGSIZE ∧ 0 ≤ f < 2 ^ 44 ∧ 0 ≤ fl < 1024 ∧
    has PTE_V fl = true ∧ has PTE_W fl = false ∧ has PTE_F fl = true ∧
    (if has PTE_W (PTE_FLAGS pte)
     then (Z.ldiff (Z.lor (PTE_FLAGS pte) PTE_F) PTE_W,
           store_pte slot (Z.lor (PA2PTE (PTE2PA pte)) (Z.ldiff (Z.lor (PTE_FLAGS pte) PTE_F) PTE_W)) st)
     else (PTE_FLAGS pte, st)) = (fl, st1) ∧
    ainv kend st1 own rs lv ext ∧ vext st own rs st1 own rs U ∧
    has PTE_W (tr (ram st1) 2 old (page_va v)) = false.
Proof using Hkend.
  clear Hid. intros Ha Hl Hq Hv slot pte.
  destruct (leaf_get _ _ _ _ _ _ _ _ Ha Hl) as ((f & fl & -> & Hf & Hfl & He & HV & HW) & Hr & Hvr).
  destruct (cow_flags_ok fl Hfl HV HW) as (Hc & HcV & HcW & HcF).
  exists f, (cow_flags fl). unfold pte. rewrite He, frame_pte_flags, frame_pte_pa by done.
  rewrite frame_pte_of_pa by done. unfold cow_flags in *. destruct (has PTE_W fl) eqn:E.
  - rewrite frame_pte_lor, Z.lor_0_l by done. set (w := frame_pte f _).
    assert (0 ≤ w < 2 ^ 64) as Hw by (by apply frame_pte_range).
    destruct (store_leaf_spec kend Hkend st own rs q old x0 _ w (a_v _ _ _ _ _ _ Ha) Hq
      (PX_range 0 (page_va v)) Hw) as [Hv1 Hx1]. rewrite <-Hv in Hx1. fold slot in Hv1, Hx1.
    assert (has PTE_W w = false) as Hww by (unfold w; by rewrite frame_pte_has).
    exists (store_pte slot w st), (change old v w). split_and!; try done; [lia..| |].
    + eapply (ainv_protect st own rs lv ext); try done.
      exists f, (Z.ldiff (Z.lor fl PTE_F) PTE_W). split_and!; try done; [lia..|]. by rewrite HcW, HcF.
    + rewrite (ext_entry _ _ _ _ _ _ _ _ _ Hx1 Hr Hvr). unfold change. by rewrite decide_True.
  - exists st, unchanged. split_and!; try done; [lia..|by eapply vext_refl, Ha|].
    rewrite He. by rewrite frame_pte_has.
Qed.

(** The child's entry and the new reference. *)
Lemma copy_share st own rs lv ext st2 own2 nw old new v pa w :
  ainv kend st own rs lv ext → lv !! (old, v) = Some pa →
  has PTE_W (tr (ram st) 2 old (page_va v)) = false →
  vinv kend st2 own2 (nw ++ rs) → grown own own2 nw →
  vext st own rs st2 own2 (nw ++ rs) (change new v w) → is_root own new →
  lv !! (new, v) = None → leaf_entry w pa → has PTE_W w = false → occ pa rs < 2 ^ 31 - 1 →
  ainv kend (share_page kend pa st2) own2 (pa :: nw ++ rs) (<[(new, v) := pa]> lv) ext ∧
  vext st own rs (share_page kend pa st2) own2 (pa :: nw ++ rs) (change new v w).
Proof using Hkend.
  clear Hid. intros Ha Hl HW Hv2 Hg Hx2 Hnew Hnone Hle Hww Hlt.
  destruct (leaf_get _ _ _ _ _ _ _ _ Ha Hl) as (_ & _ & Hvr).
  destruct (leaf_page _ _ _ _ _ _ _ _ _ (proj1 Hkend) Ha Hl) as (Hin & _ & _ & Hno).
  pose proof (grown_fresh _ _ _ _ _ _ Hv2 Hg Hin) as Hfr.
  assert (own2 !! pa = None) as Hno2.
  { apply not_elem_of_dom. rewrite <-elem_of_elements, Hg. apply not_elem_of_app. split; [done|].
    by rewrite elem_of_elements, not_elem_of_dom. }
  destruct (share_spec st2 own2 (nw ++ rs) pa Hv2) as [Hv3 Hx3]; [set_solver|done| |].
  { by rewrite (grown_occ st2 own own2). }
  assert (vext st own rs (share_page kend pa st2) own2 (pa :: nw ++ rs) (change new v w)) as Hx.
  { eapply vext_after; [|exact Hx2|exact Hx3]. intros p Hp _. set_solver. }
  split; [|done]. apply (ainv_step _ _ _ _ _ _ _ _ _ _ _ _ Ha Hv3 Hx).
  - intros r' v' _ _. unfold change. case_decide as Hd.
    + destruct Hd as [-> ->]. by rewrite lookup_insert_eq.
    + rewrite lookup_insert_ne; [done|]. naive_solver.
  - intros r' v' pa' [[[= <- <-] _]|[_ Hl']]%lookup_insert_Some; [done|].
    by eapply (a_dom _ _ _ _ _ _ Ha).
  - rewrite leaves_insert, Hg by done. rewrite (a_refs _ _ _ _ _ _ Ha) at 1. simpl.
    rewrite <-!(assoc_L app). rewrite !(Permutation_middle nw). f_equiv.
    by rewrite (Permutation_middle (elements _)).
  - intros r' v' pa' [[[= <- <-] <-]|[Hne Hl']]%lookup_insert_Some; unfold change.
    + rewrite decide_True by done. simpl. by rewrite Hww.
    + rewrite decide_False by naive_solver. simpl. intros Hw'.
      pose proof (a_write _ _ _ _ _ _ Ha _ _ _ Hl' Hw') as H1.
      rewrite occ_cons, decide_False, (grown_occ st2 own own2 nw rs pa' Hv2 Hg); [done| |].
      * by apply (leaf_page _ _ _ _ _ _ _ _ _ (proj1 Hkend) Ha Hl').
      * intros <-. destruct (leaf_alone _ _ _ _ _ _ _ _ _ Ha Hl' H1) as [Hal _].
        specialize (Hal _ Hl). injection Hal as -> ->. congruence.
Qed.

(** Leaves outside a range of pages are as before. *)
Definition same_leaves (pt v0 n : Z) (lv lv' : leaves) : Prop :=
  ∀ r v, ¬ in_pages pt v0 n r v → lv' !! (r, v) = lv !! (r, v).

(** The error path of uvmcopy(). *)
Lemma copy_undo st own rs lv ext new v :
  ainv kend st own rs lv ext → is_root own new → 0 ≤ v ≤ UPAGES →
  ∃ st' rs' lv', uvmunmap kend id new 0 (page_va v / PGSIZE) true st = Some st' ∧
    ainv kend st' own rs' lv' ext ∧ vext st own rs st' own rs' (cleared new 0 v) ∧
    same_leaves new 0 v lv lv' ∧ (∀ u, 0 ≤ u < v → lv' !! (new, u) = None) ∧ (∀ p, p ∈ rs' → p ∈ rs).
Proof using Hkend Hid.
  intros Ha Hnew Hv. rewrite page_va_div.
  destruct (uvmunmap_spec st own rs lv ext new 0 v Ha Hnew ltac:(lia) ltac:(lia) ltac:(lia))
    as (st' & rs' & lv' & Hu & A1 & A2 & A3 & A4).
  exists st', rs', lv'. split_and!; try done.
  - intros r u Hn. rewrite A3. by rewrite decide_False.
  - intros u Hu'. rewrite A3, decide_True; [done|]. split; [done|lia].
Qed.

(** The outcome of a turn of the loop of uvmcopy() at page [v]. *)
Lemma copy_turn st own rs lv ext old new v :
  ainv kend st own rs lv ext → is_root own old → is_root own new → 0 ≤ v < UPAGES →
  lv !! (new, v) = None → (∀ pa, lv !! (old, v) = Some pa → occ pa rs < 2 ^ 31 - 1) →
  ∃ failed st' own' rs' lv' U,
    copy_body kend id old new (Some (false, st)) (page_va v) = Some (failed, st') ∧
    ainv kend st' own' rs' lv' ext ∧ vext st own rs st' own' rs' U ∧
    if failed : bool
    then same_leaves new 0 v lv lv' ∧ ∀ u, 0 ≤ u < v → lv' !! (new, u) = None
    else same_leaves new v 1 lv lv' ∧ lv' !! (new, v) = lv !! (old, v) ∧
         (∀ p, p ∈ rs → p ∈ rs') ∧ (∀ p, p ∈ rs → occ p rs' ≤ occ p rs + 1).
Proof using Hkend Hid.
  intros Ha Hold Hnew Hv Hnone Hcnt. pose proof (a_v _ _ _ _ _ _ Ha) as Hvi.
  destruct (walk_spec kend id Hkend Hid false (page_va v) old st own rs Hvi Hold (UPAGES_max v Hv))
    as (o & st0 & own0 & nw0 & Hw & _ & _ & _ & Hsame & Ho).
  destruct (Hsame eq_refl) as (-> & -> & ->). clear Hsame.
  pose proof (a_leaf _ _ _ _ _ _ Ha old v Hold Hv) as Hl. cbv zeta in Hl.
  unfold copy_body. cbn [mbind option_bind]. rewrite Hw. cbn [mbind option_bind].
  assert (lv !! (old, v) = None → ∃ st' own' rs' lv' U, Some (false, st) = Some (false, st') ∧
    ainv kend st' own' rs' lv' ext ∧ vext st own rs st' own' rs' U ∧
    same_leaves new v 1 lv lv' ∧ lv' !! (new, v) = lv !! (old, v) ∧
    (∀ p, p ∈ rs → p ∈ rs') ∧ (∀ p, p ∈ rs → occ p rs' ≤ occ p rs + 1)) as Hskip.
  { intros E. exists st, own, rs, lv, unchanged. split_and!; try done;
      [by eapply vext_refl|congruence|intros; lia]. }
  destruct o as [a|].
  2:{ destruct Ho as [Hz _]. exists false. apply Hskip. destruct (lv !! (old, v)); [|done].
      destruct (leaf_entry_bits _ _ Hl) as [Hb _]. by rewrite Hz in Hb. }
  destruct Ho as (q & x0 & Hq & -> & Hva & Hld). rewrite page_va_div in Hva.
  unfold load_pte. rewrite Hld. destruct (lv !! (old, v)) as [pa|] eqn:E.
  2:{ rewrite Hl. exists false. by apply Hskip. }
  destruct (leaf_entry_bits _ _ Hl) as (-> & _ & Hpa & _). cbn [negb].
  destruct (copy_protect st own rs lv ext old v pa q x0 Ha E Hq Hva)
    as (f & fl & st1 & U1 & -> & Hf & Hfl & HV & HW & HF & Hlet & Ha1 & Hx1 & HW1).
  cbv zeta in Hlet. rewrite Hpa in Hlet |- *. rewrite Hlet.
  destruct (leaf_page _ _ _ _ _ _ _ _ _ (proj1 Hkend) Ha E) as (Hin & _ & Hm & _).
  pose proof (a_leaf _ _ _ _ _ _ Ha1 new v Hnew Hv) as Hz. cbv zeta in Hz. rewrite Hnone in Hz.
  destruct (mappages_one new v f fl st1 own rs (a_v _ _ _ _ _ _ Ha1) Hnew Hfl Hv)
    as (res & st2 & own2 & nw & -> & Hv2 & Hg & Hres).
  { destruct (managed_frame _ Hm) as (f' & Hf' & ?). unfold PGSIZE in Hf'. lia. }
  { by rewrite Hz. }
  cbn [mbind option_bind]. set (w := frame_pte f (Z.lor fl PTE_V)) in *.
  destruct Hres as [[-> Hx2]|(-> & Hx2 & _)]; cbn [negb Z.eqb].
  - assert (Z.lor fl PTE_V = fl) as Hsame by (by apply (lor_same fl 0)).
    unfold w in Hx2. rewrite Hsame in Hx2.
    destruct (copy_share st1 own rs lv ext st2 own2 nw old new v _ (frame_pte f fl) Ha1 E HW1 Hv2 Hg Hx2
      Hnew Hnone) as [Ha3 Hx3].
    { exists f, fl. split_and!; try done; [lia..|]. by rewrite HW, HF. }
    { by rewrite frame_pte_has. }
    { by apply Hcnt. }
    exists false, (share_page kend (f * PGSIZE) st2), own2, (f * PGSIZE :: nw ++ rs),
      (<[(new, v) := f * PGSIZE]> lv), (then_changes U1 (change new v (frame_pte f fl))).
    split_and!; try done.
    + eapply vext_trans; [|exact Hx1|exact Hx3]. done.
    + intros r u Hn. rewrite lookup_insert_ne; [done|]. intros [= <- <-]. apply Hn. split; [done|lia].
    + by rewrite lookup_insert_eq.
    + set_solver.
    + intros p Hp. rewrite occ_cons, (grown_occ st2 own own2) by done. case_decide; lia.
  - pose proof (ainv_grow st1 own rs lv ext st2 own2 nw Ha1 Hv2 Hg Hx2) as Ha2.
    destruct (copy_undo st2 own2 (nw ++ rs) lv ext new v Ha2) as (st3 & rs3 & lv3 & -> & B1 & B2 & B3 & B4 & B5);
      [by apply (ext_roots _ _ _ _ _ _ _ _ Hx2)|lia|].
    cbn [mbind option_bind]. exists true, st3, own2, rs3, lv3, (then_changes U1 (cleared new 0 v)).
    split_and!; try done. eapply vext_trans; [|exact Hx1|eapply vext_before; [|exact Hx2|exact B2]]; [done|].
    set_solver.
Qed.

Lemma copy_failed old new l st :
  foldl (copy_body kend id old new) (Some (true, st)) l = Some (true, st).
Proof. clear Hkend Hid. by induction l. Qed.

Lemma copy_loop ext old new n : ∀ v st own rs lv,
  ainv kend st own rs lv ext → is_root own old → is_root own new → old ≠ new →
  0 ≤ v → v + Z.of_nat n ≤ UPAGES →
  (∀ u, v ≤ u < v + Z.of_nat n → lv !! (new, u) = None) →
  (∀ k pa, lv !! k = Some pa → occ pa rs + Z.of_nat n < 2 ^ 31) →
  ∃ failed st' own' rs' lv' U,
    foldl (copy_body kend id old new) (Some (false, st)) (page_seq (page_va v) n) = Some (failed, st') ∧
    ainv kend st' own' rs' lv' ext ∧ vext st own rs st' own' rs' U ∧
    if failed : bool
    then same_leaves new 0 (v + Z.of_nat n) lv lv' ∧
         ∀ u, 0 ≤ u < v + Z.of_nat n → lv' !! (new, u) = None
    else same_leaves new v (Z.of_nat n) lv lv' ∧
         ∀ u, v ≤ u < v + Z.of_nat n → lv' !! (new, u) = lv !! (old, u).
Proof using Hkend Hid.
  induction n as [|n IH]; intros v st own rs lv Ha Hold Hnew Hne H0 Hmax Hnone Hcnt.
  { exists false, st, own, rs, lv, unchanged. split_and!; try done; [by eapply vext_refl, Ha|lia]. }
  destruct (copy_turn st own rs lv ext old new v Ha Hold Hnew ltac:(lia) (Hnone v ltac:(lia)))
    as (failed & st1 & own1 & rs1 & lv1 & U1 & Hb & Ha1 & Hx1 & Hf).
  { intros pa Hl. specialize (Hcnt _ _ Hl). lia. }
  rewrite page_seq_S. cbn [foldl]. rewrite Hb. destruct failed.
  { destruct Hf as [Ho Hn]. exists true, st1, own1, rs1, lv1, U1. rewrite copy_failed.
    split_and!; try done.
    - intros r u Hu. apply Ho. intros [-> ?]. apply Hu. split; [done|lia].
    - intros u Hu. destruct (decide (u < v)); [apply Hn; lia|].
      rewrite Ho by (unfold in_pages; lia). apply Hnone. lia. }
  destruct Hf as (Ho & Hl & Hrs & Hocc).
  destruct (IH (v + 1) st1 own1 rs1 lv1 Ha1) as (failed & st2 & own2 & rs2 & lv2 & U2 & -> & Ha2 & Hx2 & Hf);
    [by apply (ext_roots _ _ _ _ _ _ _ _ Hx1)|by apply (ext_roots _ _ _ _ _ _ _ _ Hx1)|done|lia|lia| | |].
  { intros u Hu. rewrite Ho by (unfold in_pages; lia). apply Hnone. lia. }
  { intros [r u] pa Hk. assert (∃ k, lv !! k = Some pa) as [k Hk'].
    { destruct (decide (in_pages new v 1 r u)) as [[-> Hu]|Hn]; [|rewrite Ho in Hk by done; eauto].
      assert (u = v) as -> by lia. rewrite Hl in Hk. eauto. }
    destruct k as [r' u']. destruct (leaf_page _ _ _ _ _ _ _ _ _ (proj1 Hkend) Ha Hk') as [Hin _].
    specialize (Hcnt _ _ Hk'). specialize (Hocc _ Hin). lia. }
  exists failed, st2, own2, rs2, lv2, (then_changes U1 U2). split_and!; [done..| |].
  { eapply vext_trans; [|exact Hx1|exact Hx2]. auto. }
  replace (v + Z.of_nat (S n)) with (v + 1 + Z.of_nat n) by lia.
  destruct failed; destruct Hf as [Ho2 Hn2]; (split; [|try done]).
  - intros r u Hu. rewrite Ho2 by done. apply Ho. intros [-> ?]. apply Hu. split; [done|lia].
  - intros r u Hu. rewrite Ho2, Ho; [done|..]; intros [-> ?]; apply Hu; (split; [done|lia]).
  - intros u Hu. destruct (decide (u = v)) as [->|].
    + rewrite Ho2; [done|]. unfold in_pages. lia.
    + rewrite Hn2 by lia. apply Ho. intros [? _]. done.
Qed.

(** ** cowalloc() *)

(** walkaddr() of a page that is mapped. *)
Lemma walkaddr_leaf st own rs lv ext r v pa :
  ainv kend st own rs lv ext → lv !! (r, v) = Some pa →
  ∃ q x0, own !! q = Some (r, 0%nat, x0) ∧ v = x0 * 512 + PX 0 (page_va v) ∧
    let slot := q + 8 * PX 0 (page_va v) in
    walk id r (page_va v) false st = Some (Some slot, st) ∧
    load_pte slot st = tr (ram st) 2 r (page_va v) ∧
    walkaddr id r (page_va v) st =
      Some (if has PTE_U (tr (ram st) 2 r (page_va v)) then Some pa else None, st).
Proof using Hkend Hid.
  intros Ha Hl. destruct (leaf_get _ _ _ _ _ _ _ _ Ha Hl) as (Hle & Hr & Hv).
  pose proof (UPAGES_max v Hv) as Hmax.
  destruct (walk_spec kend id Hkend Hid false (page_va v) r st own rs (a_v _ _ _ _ _ _ Ha) Hr Hmax)
    as (o & st0 & own0 & nw0 & Hw & _ & _ & _ & Hsame & Ho).
  destruct (Hsame eq_refl) as (-> & -> & ->). clear Hsame.
  destruct (leaf_entry_bits _ _ Hle) as (HV & _ & Hpa & _).
  destruct o as [a|]; [|destruct Ho as [Hz _]; by rewrite Hz in HV].
  destruct Ho as (q & x0 & Hq & -> & Hva & Hld). rewrite page_va_div in Hva.
  exists q, x0. split_and!; try done. unfold walkaddr. rewrite (proj2 (Z.leb_gt _ _)) by lia.
  rewrite Hw. cbn [mbind option_bind]. unfold load_pte. rewrite Hld, HV. cbn [mbind option_bind].
  rewrite Hld, HV, Hpa. destruct (leaf_page _ _ _ _ _ _ _ _ _ (proj1 Hkend) Ha Hl) as (_ & [_ Hp0] & _).
  rewrite (proj2 (Z.eqb_neq pa 0)) by lia. by rewrite andb_true_r.
Qed.

(** The flags of a page that is written for the first time. *)
Definition own_flags (fl : Z) : Z := Z.ldiff (Z.lor fl PTE_W) PTE_F.

Lemma own_flags_ok fl :
  0 ≤ fl < 1024 → 0 ≤ own_flags fl < 1024 ∧ has PTE_V (own_flags fl) = has PTE_V fl ∧
  has PTE_W (own_flags fl) = true ∧ has PTE_F (own_flags fl) = false.
Proof.
  clear Hkend Hid. intros Hfl. unfold own_flags.
  split; [apply flags_ldiff; [apply flags_lor|]; unfold PTE_F, PTE_W; lia|].
  change PTE_V with (2 ^ 0). change PTE_W with (2 ^ 2). change PTE_F with (2 ^ 8).
  rewrite !has_bit by lia. rewrite !Z.ldiff_spec, !Z.lor_spec. rewrite !Z.pow2_bits_eqb by lia.
  split_and!; [by rewrite orb_false_r, andb_true_r|by rewrite orb_true_r|by rewrite andb_false_r].
Qed.

(** The slot of an entry holds the entry. *)
Lemma slot_load st own rs r v q x0 :
  vinv kend st own rs → is_root own r → 0 ≤ v < UPAGES → own !! q = Some (r, 0%nat, x0) →
  v = x0 * 512 + PX 0 (page_va v) → tr (ram st) 2 r (page_va v) ≠ 0 →
  load_pte (q + 8 * PX 0 (page_va v)) st = tr (ram st) 2 r (page_va v).
Proof using Hkend Hid.
  intros Hvi Hr Hv Hq Hva Hnz. unfold load_pte.
  destruct (walk_spec kend id Hkend Hid false (page_va v) r st own rs Hvi Hr (UPAGES_max v Hv))
    as (o & st0 & own0 & nw0 & _ & _ & _ & _ & Hsame & Ho).
  destruct (Hsame eq_refl) as (-> & -> & ->). destruct o as [a|]; [|by destruct Ho].
  destruct Ho as (q' & x' & Hq' & -> & Hva' & <-). rewrite page_va_div in Hva'.
  assert (x' = x0) as -> by (pose proof (PX_range 0 (page_va v)); lia).
  by rewrite (t_uniq _ _ (vi_tree _ _ _ _ Hvi) _ _ _ _ _ Hq' Hq).
Qed.

(** The copy, up to the new entry. *)
Lemma cow_copy st own rs lv ext r v f fl q x0 mem st1 :
  ainv kend st own rs lv ext → lv !! (r, v) = Some (f * PGSIZE) → 0 < f < 2 ^ 44 → 0 ≤ fl < 1024 →
  tr (ram st) 2 r (page_va v) = frame_pte f fl → has PTE_V fl = true →
  own !! q = Some (r, 0%nat, x0) → v = x0 * 512 + PX 0 (page_va v) →
  kalloc id st = (Some mem, st1) →
  let slot := q + 8 * PX 0 (page_va v) in
  let st2 := st1 <| ram := memmove mem (f * PGSIZE) PGSIZE (ram st1) |> in
  let pte := Z.ldiff (load_pte slot st2) PTE_V in
  ∃ st4 own' nw w,
    mappages id r (page_va v) PGSIZE mem (own_flags (PTE_FLAGS pte)) (store_pte slot pte st2)
      = Some (0, st4) ∧
    vinv kend st4 own' (nw ++ mem :: rs) ∧ grown own own' nw ∧
    vext st own rs st4 own' (nw ++ mem :: rs) (change r v w) ∧ leaf_entry w mem ∧
    has PTE_W w = true ∧ (mem ∉ rs) ∧ (mem ∉ nw) ∧ own' !! mem = None ∧
    ∀ a, 0 ≤ a < PGSIZE → ram st4 (mem + a) = ram st (f * PGSIZE + a).
Proof using Hkend Hid.
  intros Ha Hl Hf Hfl He HV Hq Hva Hk slot st2 pte.
  destruct (leaf_get _ _ _ _ _ _ _ _ Ha Hl) as (_ & Hr & Hv).
  destruct (leaf_page _ _ _ _ _ _ _ _ _ (proj1 Hkend) Ha Hl) as (Hin & Hfok & _ & _).
  pose proof (kalloc_spec kend id Hid st own rs (a_v _ _ _ _ _ _ Ha)) as H. rewrite Hk in H.
  destruct H as (_ & _ & Hnomem & _ & Hram & _).
  destruct (kalloc_fill kend id Hkend Hid st own rs mem st1 (ram st2) (a_v _ _ _ _ _ _ Ha) Hk) as (Hm & Hmok & Hn & Hv2 & Hx2).
  { intros a Hout. unfold st2; simpl. rewrite memmove_out, Hram, memset_out by done. done. }
  change (st1 <| ram := ram st2 |>) with st2 in Hv2, Hx2.
  assert (load_pte slot st2 = frame_pte f fl) as Hld.
  { pose proof (ext_entry _ _ _ _ _ _ _ _ _ Hx2 Hr Hv : _ = tr (ram st) 2 r (page_va v)) as Hee.
    rewrite <-He, <-Hee. eapply slot_load; try done. rewrite Hee, He, frame_pte_add by lia. lia. }
  assert (0 ≤ PTE_V < 1024) as HVr by (unfold PTE_V; lia).
  pose proof (flags_ldiff fl PTE_V Hfl HVr) as Hfl0.
  assert (pte = frame_pte f (Z.ldiff fl PTE_V)) as Hpte.
  { unfold pte. rewrite Hld. apply frame_pte_ldiff; [lia|done..]. }
  destruct (store_leaf_spec kend Hkend st2 own (mem :: rs) q r x0 _ pte Hv2 Hq (PX_range 0 (page_va v)))
    as [Hv3 Hx3]; [rewrite Hpte; apply frame_pte_range; [lia|done]|]. rewrite <-Hva in Hx3. fold slot in Hv3, Hx3.
  destruct (managed_frame mem Hm) as (fm & -> & Hfm).
  assert (tr (ram (store_pte slot pte st2)) 2 r (page_va v) = pte) as He3.
  { rewrite (ext_entry _ _ _ _ _ _ _ _ _ Hx3 Hr Hv). unfold change. by rewrite decide_True. }
  assert (PTE_FLAGS pte = Z.ldiff fl PTE_V) as Hflg by (rewrite Hpte; apply frame_pte_flags; [lia|done]).
  rewrite Hflg.
  destruct (own_flags_ok _ Hfl0) as (Hw0 & _ & HwW & HwF).
  destruct (mappages_one r v fm (own_flags (Z.ldiff fl PTE_V)) _ own _ Hv3 Hr Hw0 Hv ltac:(lia))
    as (res & st4 & own' & nw & Hmp & Hv4 & Hg & Hres).
  { rewrite He3, Hpte, frame_pte_has by (done || lia). change PTE_V with (2 ^ 0). rewrite has_bit by lia.
    rewrite Z.ldiff_spec, Z.pow2_bits_eqb by lia. by rewrite andb_false_r. }
  set (w := frame_pte fm _) in Hres.
  destruct Hres as [[-> Hx4]|(_ & _ & Hz)].
  2:{ exfalso. rewrite He3, Hpte, frame_pte_add in Hz by (done || lia). lia. }
  exists st4, own', nw, w. split; [done|].
  assert (fm * PGSIZE ∈ fm * PGSIZE :: rs) as Hinm by left.
  assert (own' !! (fm * PGSIZE) = None) as Hno'.
  { apply not_elem_of_dom. rewrite <-elem_of_elements, Hg. apply not_elem_of_app.
    split; [by eapply grown_fresh|]. by rewrite elem_of_elements, not_elem_of_dom. }
  split_and!; try done.
  - eapply vext_before; [|exact Hx2|]; [intros p Hp _; by right|].
    eapply vext_changes, (vext_trans _ _ _ _ _ _ _ _ _ _ _ (λ p H _, H) Hx3 Hx4).
    intros r' v'. unfold then_changes, change. by repeat case_decide.
  - exists fm, (Z.lor (own_flags (Z.ldiff fl PTE_V)) PTE_V). pose proof (flags_lor _ _ Hw0 HVr).
    split_and!; try done; [lia..| |].
    + change PTE_V with (2 ^ 0). rewrite has_bit, Z.lor_spec, Z.pow2_bits_eqb by lia. by rewrite orb_true_r.
    + change PTE_V with (2 ^ 0) in HwW, HwF |- *. change PTE_W with (2 ^ 2) in HwW |- *.
      change PTE_F with (2 ^ 8) in HwF |- *.
      rewrite has_bit in HwW, HwF by lia. rewrite !has_bit by lia. rewrite !Z.lor_spec, !Z.pow2_bits_eqb by lia. by rewrite HwW, HwF.
  - unfold w. rewrite frame_pte_has; [|lia|by apply flags_lor|unfold PTE_W; lia].
    change PTE_V with (2 ^ 0) in HwW |- *. change PTE_W with (2 ^ 2) in HwW |- *.
    rewrite has_bit in HwW by lia. rewrite has_bit, Z.lor_spec by lia. by rewrite HwW.
  - by eapply grown_fresh.
  - intros a Hr'. rewrite (ve_ram _ _ _ _ _ _ _ Hx4 (fm * PGSIZE)) by (done || set_solver || lia).
    rewrite (ve_ram _ _ _ _ _ _ _ Hx3 (fm * PGSIZE)) by (done || lia).
    unfold st2; simpl. rewrite memmove_in by lia. rewrite Hram, memset_out; [f_equal; lia|].
    destruct (pages_apart _ _ Hfok Hmok); [by intros E; rewrite E in Hin|lia..].
Qed.

(** The copy once the old page is given back. *)
Lemma cow_replace st own rs lv ext r v pa mem st4 own' nw w :
  ainv kend st own rs lv ext → lv !! (r, v) = Some pa → occ pa rs ≠ 1 →
  vinv kend st4 own' (nw ++ mem :: rs) → grown own own' nw →
  vext st own rs st4 own' (nw ++ mem :: rs) (change r v w) → leaf_entry w mem →
  (mem ∉ rs) → (mem ∉ nw) → own' !! mem = None →
  ∃ st' rs', page_free kend id pa st4 = Some st' ∧
    ainv kend st' own' rs' (<[(r, v) := mem]> lv) ext ∧ vext st own rs st' own' rs' (change r v w) ∧
    ∀ a, mem ≤ a < mem + PGSIZE → ram st' a = ram st4 a.
Proof using Hkend Hid.
  intros Ha Hl Hne Hv4 Hg Hx4 Hle Hn1 Hn2 Hno.
  destruct (leaf_get _ _ _ _ _ _ _ _ Ha Hl) as (_ & Hr & Hv).
  destruct (leaf_page _ _ _ _ _ _ _ _ _ (proj1 Hkend) Ha Hl) as (Hin & _ & _ & Hnopa).
  assert (mem ≠ pa) as Hmp by (intros ->; done).
  assert (own' !! pa = None) as Hnopa'.
  { apply not_elem_of_dom. rewrite <-elem_of_elements, Hg. apply not_elem_of_app.
    split; [eapply grown_fresh; [done..|by right]|]. by rewrite elem_of_elements, not_elem_of_dom. }
  set (rs5 := elements (dom own') ++ (map_to_list (<[(r, v) := mem]> lv)).*2 ++ ext).
  assert (nw ++ mem :: rs ≡ₚ pa :: rs5) as Hrs.
  { unfold rs5. rewrite Hg, (drop_leaf_refs st own rs lv ext _ _ Ha Hl).
    rewrite <-(insert_delete_eq lv), leaves_insert by (by rewrite lookup_delete_eq). simpl.
    rewrite <-!(assoc_L app), <-!Permutation_middle. by rewrite (Permutation_swap mem pa). }
  destruct (page_free_spec kend id Hkend Hid st4 own' _ rs5 pa Hv4 Hrs Hnopa') as (st' & Hf & Hv5 & Hx5).
  assert (∀ p, p ≠ pa → occ p rs5 = occ p (nw ++ mem :: rs)) as Hocc.
  { intros p Hp. rewrite (occ_perm p _ _ Hrs), occ_cons, decide_False by done. done. }
  assert (vext st own rs st' own' rs5 (change r v w)) as Hx.
  { eapply vext_after; [|exact Hx4|exact Hx5]. intros p Hp _. apply elem_of_app; right. by right. }
  exists st', rs5. split_and!; try done.
  - apply (ainv_step _ _ _ _ _ _ _ _ _ _ _ _ Ha Hv5 Hx); [| |done|].
    + intros r' v' _ _. unfold change. case_decide as Hd.
      * destruct Hd as [-> ->]. by rewrite lookup_insert_eq.
      * rewrite lookup_insert_ne; [done|]. naive_solver.
    + intros r' v' pa' [[[= <- <-] _]|[_ Hl']]%lookup_insert_Some; [done|].
      by eapply (a_dom _ _ _ _ _ _ Ha).
    + intros r' v' pa' [[[= <- <-] <-]|[Hne' Hl']]%lookup_insert_Some; unfold change.
      * intros _. rewrite Hocc by done.
        by rewrite occ_app, occ_cons, decide_True, (occ_not_elem mem nw), (occ_not_elem mem rs) by done.
      * rewrite decide_False by naive_solver. simpl. intros Hw'.
        pose proof (a_write _ _ _ _ _ _ Ha _ _ _ Hl' Hw') as H1.
        destruct (leaf_page _ _ _ _ _ _ _ _ _ (proj1 Hkend) Ha Hl') as (Hin' & _).
        rewrite Hocc by (intros ->; congruence).
        rewrite (grown_occ st4 own own'), occ_cons, decide_False; [done|by intros ->|done..|by right].
  - intros a Har. eapply (ve_ram _ _ _ _ _ _ _ Hx5 mem); try done.
    + apply elem_of_app; right. left.
    + assert (mem ∈ pa :: rs5) as [->|]%elem_of_cons; [|done..].
      rewrite <-Hrs. apply elem_of_app; right. left.
Qed.

(** cowalloc() of a page marked copy-on-write: it fails, or the page is then
    writable with the same bytes; nothing else is seen to change. *)
Lemma cowalloc_spec st own rs lv ext r v :
  ainv kend st own rs lv ext → is_root own r → 0 ≤ v < UPAGES → cowpage id r (page_va v) st = true →
  ∃ o st' own' rs' lv' U pa pa', cowalloc kend id r (page_va v) st = Some (o, st') ∧
    ainv kend st' own' rs' lv' ext ∧ vext st own rs st' own' rs' U ∧
    lv !! (r, v) = Some pa ∧ lv' !! (r, v) = Some pa' ∧ same_leaves r v 1 lv lv' ∧
    (∀ a, 0 ≤ a < PGSIZE → ram st' (pa' + a) = ram st (pa + a)) ∧
    (is_Some o → o = Some pa' ∧ has PTE_W (tr (ram st') 2 r (page_va v)) = true).
Proof using Hkend Hid.
  intros Ha Hr Hv Hcow. pose proof (a_leaf _ _ _ _ _ _ Ha r v Hr Hv) as Hl0. cbv zeta in Hl0.
  pose proof (UPAGES_max v Hv) as Hmax.
  assert (∃ pa, lv !! (r, v) = Some pa) as [pa Hl].
  { destruct (lv !! (r, v)) as [pa|] eqn:E; [eauto|]. exfalso. unfold cowpage in Hcow.
    rewrite (proj2 (Z.leb_gt _ _)) in Hcow by lia.
    destruct (walk_spec kend id Hkend Hid false (page_va v) r st own rs (a_v _ _ _ _ _ _ Ha) Hr Hmax)
      as (o & st0 & own0 & nw0 & Hw & _ & _ & _ & _ & Ho). rewrite Hw in Hcow.
    destruct o; [|done]. destruct Ho as (? & ? & _ & _ & _ & Hld). unfold load_pte in Hcow.
    rewrite Hld, Hl0 in Hcow. done. }
  rewrite Hl in Hl0. destruct (walkaddr_leaf st own rs lv ext r v pa Ha Hl) as (q & x0 & Hq & Hva & Hw & Hld & Hwa).
  assert (∃ own' rs' lv' U pa0 pa', ainv kend st own' rs' lv' ext ∧ vext st own rs st own' rs' U ∧
    Some pa = Some pa0 ∧ lv' !! (r, v) = Some pa' ∧ same_leaves r v 1 lv lv' ∧
    (∀ a, 0 ≤ a < PGSIZE → ram st (pa' + a) = ram st (pa0 + a)) ∧
    (is_Some (None : option Z) → None = Some pa' ∧ has PTE_W (tr (ram st) 2 r (page_va v)) = true)) as Hskip.
  { exists own, rs, lv, unchanged, pa, pa. split_and!; try done. by eapply vext_refl, Ha. }
  destruct Hl0 as (f & fl & -> & Hf & Hfl & He & HV & HW).
  destruct (leaf_page _ _ _ _ _ _ _ _ _ (proj1 Hkend) Ha Hl) as (Hin & [_ Hp0] & Hm & _).
  unfold cowalloc. rewrite (proj2 (Z.eqb_eq (page_va v `mod` PGSIZE) 0)) by (by apply Z.mod_mul). cbn [negb].
  rewrite Hwa, Hl. cbn [mbind option_bind]. destruct (has PTE_U _).
  2:{ destruct Hskip as (o' & r' & l' & U & p0 & p' & H). by exists None, st, o', r', l', U, p0, p'. }
  rewrite Hw. cbn [mbind option_bind].
  rewrite (ki_count _ _ (vi_k _ _ _ _ (a_v _ _ _ _ _ _ Ha)) _ Hm : krefcnt _ (km st) = occ _ rs).
  destruct (Z.eqb_spec (occ (f * PGSIZE) rs) 1) as [H1|H1].
  - destruct (own_flags_ok fl Hfl) as (Hw0 & HwV & HwW & HwF).
    rewrite Hld, He, frame_pte_lor, frame_pte_ldiff;
      [|lia|apply flags_lor; [done|unfold PTE_W; lia]|unfold PTE_F; lia].
    change (Z.ldiff (Z.lor fl PTE_W) PTE_F) with (own_flags fl). set (w := frame_pte f (own_flags fl)).
    destruct (store_leaf_spec kend Hkend st own rs q r x0 _ w (a_v _ _ _ _ _ _ Ha) Hq (PX_range 0 (page_va v)))
      as [Hv1 Hx1]; [by apply frame_pte_range|]. rewrite <-Hva in Hx1.
    eexists _, _, own, rs, lv, (change r v w), _, (f * PGSIZE). split; [done|].
    assert (has PTE_W w = true) as Hww by (unfold w; by rewrite frame_pte_has).
    split_and!; try done.
    + apply (ainv_step _ _ _ _ _ _ _ _ _ _ _ _ Ha Hv1 Hx1).
      * intros r' v' _ _. unfold change. case_decide as Hd; [|done]. destruct Hd as [-> ->]. rewrite Hl.
        exists f, (own_flags fl). split_and!; try done; [lia..|by rewrite HwV|by rewrite HwW, HwF].
      * apply (a_dom _ _ _ _ _ _ Ha).
      * apply (a_refs _ _ _ _ _ _ Ha).
      * intros r' v' pa' Hl'. unfold change. case_decide as Hd; [|by apply (a_write _ _ _ _ _ _ Ha)].
        destruct Hd as [-> ->]. intros _. congruence.
    + intros a Har. apply (ve_ram _ _ _ _ _ _ _ Hx1 (f * PGSIZE)); try done; [|lia].
      by apply (leaf_page _ _ _ _ _ _ _ _ _ (proj1 Hkend) Ha Hl).
    + intros _. split; [done|]. rewrite (ext_entry _ _ _ _ _ _ _ _ _ Hx1 Hr Hv). unfold change.
      by rewrite decide_True.
  - destruct (kalloc id st) as [[mem|] st1] eqn:Hk.
    2:{ pose proof (kalloc_spec kend id Hid st own rs (a_v _ _ _ _ _ _ Ha)) as H. rewrite Hk in H.
        destruct H as [-> _].
        destruct Hskip as (o' & r' & l' & U & p0 & p' & H). by exists None, st, o', r', l', U, p0, p'. }
    assert (0 < f) as Hf0 by (unfold PGSIZE in Hp0; lia).
    destruct (cow_copy st own rs lv ext r v f fl q x0 mem st1 Ha Hl ltac:(lia) Hfl He HV Hq Hva Hk)
      as (st4 & own' & nw & w & Hmp & Hv4 & Hg & Hx4 & Hle & Hww & Hn1 & Hn2 & Hno & Hby).
    unfold own_flags in Hmp. cbv zeta. rewrite Hmp. cbn [mbind option_bind negb Z.eqb].
    rewrite PGROUNDDOWN_div, Z.div_mul by done.
    destruct (cow_replace st own rs lv ext r v _ mem st4 own' nw w Ha Hl H1 Hv4 Hg Hx4 Hle Hn1 Hn2 Hno)
      as (st' & rs' & -> & Ha' & Hx' & Hby'). cbn [mbind option_bind].
    eexists _, st', own', rs', _, (change r v w), _, mem. split; [done|]. split_and!; try done.
    + by rewrite lookup_insert_eq.
    + intros r' v' Hn. rewrite lookup_insert_ne; [done|]. intros [= <- <-]. apply Hn. split; [done|lia].
    + intros a Har. rewrite Hby' by lia. by apply Hby.
    + intros _. split; [done|]. rewrite (ext_entry _ _ _ _ _ _ _ _ _ Hx' Hr Hv). unfold change.
      by rewrite decide_True.
Qed.

(** ** uvmcreate() *)

Lemma uvmcreate_spec st own rs lv ext r st' :
  ainv kend st own rs lv ext → uvmcreate id st = (Some r, st') →
  own !! r = None ∧ ainv kend st' (<[r := (r, 2%nat, 0)]> own) (r :: rs) lv ext ∧
  (∀ va, 0 ≤ va < TRAPFRAME → view st' r va = None) ∧
  ∀ r0 va, is_root own r0 → 0 ≤ va < TRAPFRAME → view st' r0 va = view st r0 va.
Proof using Hkend Hid.
  intros Ha Hc.
  destruct (uvmcreate_vinv kend id Hkend Hid st own rs r st' (a_v _ _ _ _ _ _ Ha) Hc) as (Hno & Hn & Hv2 & Htr).
  unfold uvmcreate in Hc. destruct (kalloc id st) as [[p|] st1] eqn:Hk; [|done].
  injection Hc as -> <-. destruct (kalloc_zero st own rs lv ext r st1 Ha Hk) as (_ & _ & Ha1 & Hx1).
  set (st2 := st1 <| ram := _ |>) in *. split_and!; try done.
  - constructor; [done|..].
    + intros r' v pa Hl. destruct (a_dom _ _ _ _ _ _ Ha _ _ _ Hl) as [Hr Hv]. split; [|done].
      unfold is_root in *. rewrite lookup_insert_ne; [done|congruence].
    + intros r' v Hr Hv. cbv zeta. destruct (decide (r' = r)) as [->|Hne].
      * rewrite Htr. destruct (lv !! (r, v)) as [pa|] eqn:E; [|done].
        destruct (a_dom _ _ _ _ _ _ Ha _ _ _ E) as [Hr' _]. unfold is_root in Hr'. congruence.
      * apply (a_leaf _ _ _ _ _ _ Ha1); [|done]. unfold is_root in *. by rewrite lookup_insert_ne in Hr.
    + rewrite (grown_insert own r) by done. simpl. by rewrite (a_refs _ _ _ _ _ _ Ha).
    + apply (a_write _ _ _ _ _ _ Ha1).
  - intros va Hva. unfold view. by rewrite Htr.
  - intros r0 va Hr0 Hva. by apply (view_same _ _ _ _ _ _ _ _ _ _ _ _ _ _ (proj1 Hkend) Ha Ha1 Hx1).
Qed.

(** ** Stores of user programs *)

(** What the hardware does when the page is valid, writable and of the user. *)
Definition user_store (r va b : Z) (st : machine) : machine :=
  let e := tr (ram st) 2 r va in
  st <| ram := store_bytes (PTE2PA e + va `mod` PGSIZE) [b] (ram st) |>.

Lemma store_byte a b m x : store_bytes a [b] m x = if decide (x = a) then b else m x.
Proof.
  clear Hkend Hid. unfold store_bytes. simpl length. case_decide as E.
  - subst. rewrite (proj2 (Z.leb_le _ _)), (proj2 (Z.ltb_lt _ _)) by lia. simpl. by rewrite Z.sub_diag.
  - destruct (Z.leb_spec a x), (Z.ltb_spec x (a + Z.of_nat 1)); simpl; try done. lia.
Qed.

Lemma user_store_spec st own rs lv ext r va b :
  ainv kend st own rs lv ext → is_root own r → 0 ≤ va < TRAPFRAME →
  has PTE_V (tr (ram st) 2 r va) = true → has PTE_W (tr (ram st) 2 r va) = true →
  ainv kend (user_store r va b st) own rs lv ext ∧
  ∀ r' va', is_root own r' → 0 ≤ va' < TRAPFRAME →
    view (user_store r va b st) r' va' = if decide (r' = r ∧ va' = va) then Some b else view st r' va'.
Proof using Hkend.
  clear Hid. intros Ha Hr Hva HV HW. pose proof (proj1 (user_page va) Hva) as [Hva0 Hv].
  rewrite (tr_page _ 2 r va) in HV, HW by done.
  pose proof (a_leaf _ _ _ _ _ _ Ha r _ Hr Hv) as Hl. cbv zeta in Hl.
  destruct (lv !! (r, va / PGSIZE)) as [pa|] eqn:E; [|by rewrite Hl in HV].
  pose proof (a_write _ _ _ _ _ _ Ha _ _ _ E HW) as H1.
  destruct (leaf_alone _ _ _ _ _ _ _ _ _ Ha E H1) as (Hal & _ & Hno).
  destruct (leaf_page _ _ _ _ _ _ _ _ _ (proj1 Hkend) Ha E) as (_ & Hok & _ & _).
  pose proof (Z.mod_pos_bound va PGSIZE ltac:(done)) as Hoff.
  assert (∀ x, ram (user_store r va b st) x =
    if decide (x = pa + va `mod` PGSIZE) then b else ram st x) as Hram.
  { intros x. unfold user_store; simpl. rewrite store_byte, (tr_page _ 2 r va) by done.
    destruct (leaf_entry_bits _ _ Hl) as (_ & _ & -> & _). done. }
  assert (∀ p a, page_ok p → p ≠ pa → p ≤ a < p + PGSIZE → ram (user_store r va b st) a = ram st a) as Hout.
  { intros p a Hp Hne Hpa. rewrite Hram, decide_False; [done|].
    destruct (pages_apart p pa Hp Hok Hne); lia. }
  assert (∀ p t a, own !! p = Some t → p ≤ a < p + PGSIZE → ram (user_store r va b st) a = ram st a) as Hag.
  { intros p t a Hp. apply Hout; [|congruence]. by eapply t_page; [apply Ha|]. }
  assert (∀ r' v, is_root own r' → 0 ≤ v < UPAGES →
    tr (ram (user_store r va b st)) 2 r' (page_va v) = tr (ram st) 2 r' (page_va v)) as Htr.
  { intros r' v Hr' Hv'. eapply tr_agree; [apply Ha|done|done|by apply upage_covers]. }
  assert (ainv kend (user_store r va b st) own rs lv ext) as Ha'.
  { destruct Ha as [[V1 V2 V3] A2 A3 A4 A5]. constructor; try done.
    - constructor; [done| |done]. by eapply tree_agree.
    - intros r' v Hr' Hv'. cbv zeta. rewrite Htr by done. by apply A3.
    - intros r' v pa' Hl'. destruct (A2 _ _ _ Hl'). rewrite Htr by done. by apply A5. }
  split; [done|]. intros r' va' Hr' Hva'.
  rewrite (view_leaves _ _ _ _ _ _ _ _ Ha' Hr' Hva'), (view_leaves _ _ _ _ _ _ _ _ Ha Hr' Hva').
  destruct (lv !! (r', va' / PGSIZE)) as [pa'|] eqn:E'; cbn [fmap option_fmap option_map].
  - rewrite Hram. pose proof (Z.mod_pos_bound va' PGSIZE ltac:(done)).
    destruct (decide (pa' = pa)) as [->|Hne].
    + specialize (Hal _ E'). injection Hal as -> Hpg.
      pose proof (Z.div_mod va PGSIZE ltac:(done)). pose proof (Z.div_mod va' PGSIZE ltac:(done)).
      rewrite Hpg in *. case_decide; case_decide as Hd; try done; [destruct Hd; split; [done|lia]|].
      destruct Hd as [_ ->]. done.
    + rewrite !decide_False; [done| |].
      * intros [-> ->]. congruence.
      * destruct (leaf_page _ _ _ _ _ _ _ _ _ (proj1 Hkend) Ha E') as (_ & Hok' & _ & _).
        destruct (pages_apart pa' pa Hok' Hok Hne); lia.
  - rewrite decide_False; [done|]. intros [-> ->]. congruence.
Qed.
End ops.
