(* ===== verification/Space.v ===== *)
(** * Address spaces as the processes see them (src/kernel/mm/vm.c, kalloc.c)

    The calls that create, grow, shrink, copy and write address spaces, an
    abstract specification in which every address space has memory of its own
    and fork() copies it, and the theorem that the kernel implements it. *)

From stdpp Require Import gmap.
From S2P Require Import Prelude Mem KState Kalloc Swap Vm Cow.

(** ** The calls *)

Inductive call :=
  | Create
  | Grow (r oldsz newsz : Z)
  | Shrink (r oldsz newsz : Z)
  | Copy (old new sz : Z)
  | Fault (r va : Z)
  | Store (r va b : Z).

(** The call [c] on hart [id]: what it returns (a null pointer is [None]) and the
    memory after it, or [None] for a panic. A page fault on a store is handled by
    cowalloc() when the page is marked copy-on-write. *)
Definition exec (kend : Z) (id : nat) (c : call) (st : machine) : option (option Z * machine) :=
  match c with
  | Create => Some (uvmcreate id st)
  | Grow r oldsz newsz => '(x, st) ← uvmalloc kend id r oldsz newsz st; Some (Some x, st)
  | Shrink r oldsz newsz => '(x, st) ← uvmdealloc kend id r oldsz newsz st; Some (Some x, st)
  | Copy old new sz => '(x, st) ← uvmcopy kend id old new sz st; Some (Some x, st)
  | Fault r va => if cowpage id r va st then cowalloc kend id r va st else Some (None, st)
  | Store r va b => Some (None, user_store r va b st)
  end.

(** What the callers see to: [rts] are the roots of the page tables in use.
    Memory is grown and copied to where nothing is mapped; a store is only made
    where the hardware allows it. *)
Definition allowed (c : call) (st : machine) (rts : gset Z) : Prop :=
  match c with
  | Create => True
  | Grow r oldsz newsz =>
      r ∈ rts ∧ 0 ≤ oldsz ≤ TRAPFRAME ∧ newsz ≤ TRAPFRAME ∧
      ∀ va, PGROUNDUP oldsz ≤ va < TRAPFRAME → view st r va = None
  | Shrink r oldsz newsz => r ∈ rts ∧ 0 ≤ oldsz ≤ TRAPFRAME ∧ 0 ≤ newsz ≤ TRAPFRAME
  | Copy old new sz =>
      old ∈ rts ∧ new ∈ rts ∧ old ≠ new ∧ 0 ≤ sz ≤ TRAPFRAME ∧
      (∀ va, 0 ≤ va < TRAPFRAME → view st new va = None) ∧
      (∀ pa, krefcnt pa (km st) + UPAGES < 2 ^ 31)
  | Fault r va => r ∈ rts ∧ 0 ≤ va < TRAPFRAME ∧ va `mod` PGSIZE = 0
  | Store r va b =>
      r ∈ rts ∧ 0 ≤ va < TRAPFRAME ∧
      let e := tr (ram st) 2 r va in has PTE_V e = true ∧ has PTE_U e = true ∧ has PTE_W e = true
  end.

Definition roots_after (c : call) (res : option Z) (rts : gset Z) : gset Z :=
  match c, res with Create, Some r => {[r]} ∪ rts | _, _ => rts end.

(** ** The specification *)

(** Address spaces: by root and address. *)
Abbreviation spaces := (Z → Z → option Z).

Definition fill (r lo hi : Z) (x : option Z) (A : spaces) : spaces := λ r' va,
  if decide (r' = r ∧ lo ≤ va < hi) then x else A r' va.

Definition effect (c : call) (res : option Z) (A : spaces) : spaces :=
  match c, res with
  | Create, Some r => fill r 0 TRAPFRAME None A
  | Grow r oldsz newsz, Some x =>
      if (oldsz <=? newsz) && negb (x =? 0)
      then fill r (PGROUNDUP oldsz) (PGROUNDUP newsz) (Some 0) A else A
  | Shrink r oldsz newsz, _ => fill r (PGROUNDUP newsz) (PGROUNDUP oldsz) None A
  | Copy old new sz, Some x =>
      if x =? 0
      then λ r va, if decide (r = new ∧ 0 ≤ va < PGROUNDUP sz) then A old va else A r va
      else A
  | Store r va b, _ => fill r va (va + 1) (Some b) A
  | _, _ => A
  end.

(** ** Runs *)

Inductive vstep (kend : Z) : machine * gset Z → machine * gset Z → Prop :=
  | vstep_call id c st rts res st' :
      (id < NCPU)%nat → allowed c st rts → exec kend id c st = Some (res, st') →
      vstep kend (st, rts) (st', roots_after c res rts).

(** The memory after kinit(). *)
Definition booted (kend : Z) (st : machine) : Prop :=
  ∃ id, (id < NCPU)%nat ∧ kinit kend id = Some (km st).

Definition space_inv (kend : Z) (st : machine) (rts : gset Z) : Prop :=
  ∃ own rs lv ext, ainv kend st own rs lv ext ∧ ∀ r, r ∈ rts → is_root own r.

Lemma booted_inv kend st : 0 < kend ≤ PHYSTOP → booted kend st → space_inv kend st ∅.
Proof.
  intros Hk (id & Hid & Hm). destruct (kinit_inv kend Hk id Hid) as (m & Hm' & Hi).
  rewrite Hm in Hm'. injection Hm' as <-. exists ∅, [], ∅, []. split; [|set_solver].
  done.
Qed.

Section calls.
Context (kend : Z) (id : nat) (Hkend : 0 < kend ≤ PHYSTOP) (Hid : (id < NCPU)%nat).

(** What is to be shown of a call. *)
Definition correct (c : call) (st : machine) (rts : gset Z) : Prop :=
  ∃ res st', exec kend id c st = Some (res, st') ∧ space_inv kend st' (roots_after c res rts) ∧
    ∀ r va, r ∈ roots_after c res rts → 0 ≤ va < TRAPFRAME →
      view st' r va = effect c res (view st) r va.

(** A call that keeps the roots. *)
Lemma correct_intro c st rts own rs lv ext res st' own' rs' lv' ext' U :
  roots_after c res rts = rts → ainv kend st own rs lv ext → (∀ r, r ∈ rts → is_root own r) →
  exec kend id c st = Some (res, st') → ainv kend st' own' rs' lv' ext' →
  vext st own rs st' own' rs' U →
  (∀ r va, is_root own r → 0 ≤ va < TRAPFRAME → view st' r va = effect c res (view st) r va) →
  correct c st rts.
Proof.
  clear Hkend Hid. intros Hro Ha Hr Hex Ha' Hx Hv. exists res, st'. rewrite Hro. split_and!; [done| |].
  - exists own', rs', lv', ext'. split; [done|]. intros r Hin. by apply (ext_roots _ _ _ _ _ _ _ _ Hx), Hr.
  - intros r va Hin. apply Hv. by apply Hr.
Qed.

Lemma PGROUNDUP_pages v1 va : 0 ≤ va → 0 ≤ v1 → va < page_va v1 ↔ va / PGSIZE < v1.
Proof.
  clear Hkend Hid. intros H0 H1. unfold page_va. pose proof (Z.div_mod va PGSIZE ltac:(done)).
  pose proof (Z.mod_pos_bound va PGSIZE ltac:(done)). unfold PGSIZE in *. lia.
Qed.

Lemma PGROUNDUP_above v0 va : 0 ≤ va → 0 ≤ v0 → page_va v0 ≤ va ↔ v0 ≤ va / PGSIZE.
Proof. clear Hkend Hid. intros H0 H1. pose proof (PGROUNDUP_pages v0 va H0 H1). lia. Qed.

Lemma page_count_up v0 v1 n :
  v0 ≤ v1 → n ≤ page_va v1 < n + PGSIZE → page_count (page_va v0) n = Z.to_nat (v1 - v0).
Proof.
  clear Hkend Hid. intros H01 Hn. unfold page_count. f_equal. symmetry.
  apply (Z.div_unique _ _ _ (n + PGSIZE - 1 - page_va v1)); unfold page_va, PGSIZE in *; lia.
Qed.

(** Nothing is mapped where nothing is seen. *)
Lemma view_unmapped st own rs lv ext r v :
  ainv kend st own rs lv ext → is_root own r → 0 ≤ v < UPAGES →
  view st r (page_va v) = None → lv !! (r, v) = None.
Proof.
  clear Hkend Hid. intros Ha Hr Hv Hn.
  rewrite (view_leaves _ _ _ _ _ _ _ _ Ha Hr) in Hn.
  - rewrite page_va_div in Hn. by destruct (lv !! (r, v)).
  - apply user_page. rewrite page_va_div. split; [|done]. by apply UPAGES_max.
Qed.

Lemma create_correct st rts : space_inv kend st rts → correct Create st rts.
Proof using Hkend Hid.
  intros (own & rs & lv & ext & Ha & Hr). destruct (uvmcreate id st) as [[r|] st'] eqn:Hc.
  - destruct (uvmcreate_spec kend id Hkend Hid st own rs lv ext r st' Ha Hc) as (Hn & Ha' & Hnew & Hold).
    exists (Some r), st'. split; [by rewrite <-Hc|]. split.
    + exists (<[r := (r, 2%nat, 0)]> own), (r :: rs), lv, ext. split; [done|].
      intros r' Hin. simpl in Hin. apply elem_of_union in Hin as [->%elem_of_singleton|Hin]; [by apply lookup_insert_eq|].
      specialize (Hr r' Hin). unfold is_root in *. rewrite lookup_insert_ne; [done|congruence].
    + intros r' va Hin Hva. simpl. unfold fill. case_decide as Hd; [destruct Hd as [-> _]; by apply Hnew|].
      apply Hold; [|done]. apply Hr. simpl in Hin.
      apply elem_of_union in Hin as [->%elem_of_singleton|]; [|done]. destruct Hd. by split.
  - exists None, st. split_and!; [|by exists own, rs, lv, ext|done]. simpl. rewrite Hc. do 2 f_equal.
    unfold uvmcreate in Hc.
    pose proof (kalloc_spec kend id Hid st own rs (a_v _ _ _ _ _ _ Ha)) as H.
    destruct (kalloc id st) as [[p|] st1]; [done|]. destruct H as [-> _]. congruence.
Qed.

Lemma shrink_correct st rts r oldsz newsz :
  space_inv kend st rts → allowed (Shrink r oldsz newsz) st rts → correct (Shrink r oldsz newsz) st rts.
Proof using Hkend Hid.
  intros (own & rs & lv & ext & Ha & Hr) (Hin & Ho & Hn).
  destruct (uvmdealloc_spec kend id Hkend Hid st own rs lv ext r oldsz newsz Ha (Hr r Hin) Ho ltac:(lia))
    as (st' & rs' & lv' & v0 & n & Hd & Ha' & Hx & Hw & _ & Hpg).
  eapply (correct_intro _ _ _ own rs lv ext); try done; [simpl; by rewrite Hd|].
  intros r' va Hr' Hva. simpl. unfold fill. pose proof (proj1 (user_page va) Hva) as [Hva0 Hv].
  destruct (PGROUNDUP_page oldsz ltac:(lia)) as (v1 & -> & Hv1 & Hb1).
  assert (r' = r ∧ PGROUNDUP newsz ≤ va < page_va v1 ↔ in_pages r v0 n r' (va / PGSIZE)) as Hiff.
  { destruct (PGROUNDUP_page newsz Hn) as (w & -> & Hw0 & Hbw).
    pose proof (PGROUNDUP_pages v1 va Hva0 ltac:(lia)). pose proof (PGROUNDUP_above w va Hva0 ltac:(lia)).
    specialize (Hpg (va / PGSIZE)). unfold in_pages, page_va, PGSIZE in *. lia. }
  destruct (decide _) as [Hyes|Hno].
  - apply Hiff in Hyes. pose proof Hyes as [-> _].
    rewrite (view_leaves _ _ _ _ _ _ _ _ Ha'); [|by apply (ext_roots _ _ _ _ _ _ _ _ Hx)|done].
    by rewrite Hw, decide_True.
  - apply (view_same _ _ _ _ _ _ _ _ _ _ _ _ _ _ (proj1 Hkend) Ha Ha' Hx Hr' Hva).
    by rewrite Hw, decide_False by tauto.
Qed.

Lemma grow_correct st rts r oldsz newsz :
  space_inv kend st rts → allowed (Grow r oldsz newsz) st rts → correct (Grow r oldsz newsz) st rts.
Proof using Hkend Hid.
  intros (own & rs & lv & ext & Ha & Hr) (Hin & Ho & Hn & Hfree). specialize (Hr r Hin) as Hrr.
  destruct (Z.ltb_spec newsz oldsz) as [Hlt|Hge].
  { eapply (correct_intro _ _ _ own rs lv ext (Some oldsz) st); try done;
      [simpl; unfold uvmalloc; by rewrite (proj2 (Z.ltb_lt _ _))|by eapply vext_refl, Ha|].
    intros r' va _ _. simpl. by rewrite (proj2 (Z.leb_gt _ _)). }
  destruct (PGROUNDUP_page oldsz Ho) as (v0 & E0 & Hv0 & Hb0).
  destruct (PGROUNDUP_page newsz ltac:(lia)) as (v1 & E1 & Hv1 & Hb1).
  assert (v0 ≤ v1) as H01 by (unfold page_va, PGSIZE in *; lia).
  assert (∀ u, v0 ≤ u < v0 + Z.of_nat (Z.to_nat (v1 - v0)) → lv !! (r, u) = None) as Hnone.
  { intros u Hu. assert (0 ≤ u < UPAGES) as Hur by lia.
    apply (view_unmapped st own rs lv ext); try done. apply Hfree. rewrite E0.
    pose proof (proj2 (user_page (page_va u))) as Htf. rewrite page_va_div in Htf.
    destruct Htf as [_ Htf]; [split; [apply UPAGES_max|]; done|]. unfold page_va, PGSIZE in *. lia. }
  destruct (alloc_loop kend id Hkend Hid ext r v0 (Z.to_nat (v1 - v0)) v0 st own rs lv Ha Hrr)
    as (failed & st' & own' & rs' & lv' & U & Hl & Ha' & Hx & Hf); [lia|lia|done|].
  assert (exec kend id (Grow r oldsz newsz) st = Some (Some (if failed then 0 else newsz), st')) as Hex.
  { simpl. unfold uvmalloc. rewrite (proj2 (Z.ltb_ge _ _)) by done. cbv zeta. rewrite E0.
    rewrite (page_count_up v0 v1) by done. rewrite Hl. cbn [mbind option_bind]. done. }
  eapply (correct_intro _ _ _ own rs lv ext); try done.
  intros r' va Hr' Hva. simpl. rewrite (proj2 (Z.leb_le _ _)) by done. cbn [andb].
  pose proof (proj1 (user_page va) Hva) as [Hva0 Hv]. rewrite Z2Nat.id in Hf by lia. destruct failed.
  - destruct Hf as [Hsame Hnone'].
    apply (view_same _ _ _ _ _ _ _ _ _ _ _ _ _ _ (proj1 Hkend) Ha Ha' Hx Hr' Hva).
    destruct (decide (in_pages r v0 (v0 + (v1 - v0) - v0) r' (va / PGSIZE))) as [[-> Hp]|Hp];
      [|by apply Hsame]. rewrite Hnone', Hnone by lia. done.
  - destruct Hf as [Hsame Hzero]. rewrite E0, E1.
    pose proof (PGROUNDUP_pages v1 va Hva0 ltac:(lia)). pose proof (PGROUNDUP_above v0 va Hva0 ltac:(lia)).
    destruct (decide (r' = r ∧ page_va v0 ≤ va < page_va v1)) as [[-> Hp]|Hp].
    + rewrite Hzero by lia. destruct (Z.eqb_spec newsz 0) as [->|]; cbn [negb].
      * unfold page_va, PGSIZE in *. lia.
      * unfold fill. by rewrite decide_True.
    + rewrite (view_same _ _ _ _ _ _ _ _ _ _ _ _ _ _ (proj1 Hkend) Ha Ha' Hx Hr' Hva).
      * destruct (negb _); [|done]. unfold fill. by rewrite decide_False.
      * apply Hsame. intros [-> ?]. apply Hp. split; [done|lia].
Qed.

Lemma copy_correct st rts old new sz :
  space_inv kend st rts → allowed (Copy old new sz) st rts → correct (Copy old new sz) st rts.
Proof using Hkend Hid.
  intros (own & rs & lv & ext & Ha & Hr) (Hin & Hin' & Hne & Hsz & Hfree & Hcnt).
  destruct (PGROUNDUP_page sz Hsz) as (v1 & E1 & Hv1 & Hb1).
  assert (∀ u, 0 ≤ u < UPAGES → lv !! (new, u) = None) as Hnone.
  { intros u Hu. apply (view_unmapped st own rs lv ext); try done; [by apply Hr|]. apply Hfree.
    apply user_page. rewrite page_va_div. split; [by apply UPAGES_max|done]. }
  destruct (copy_loop kend id Hkend Hid ext old new (Z.to_nat v1) 0 st own rs lv Ha (Hr _ Hin) (Hr _ Hin') Hne)
    as (failed & st' & own' & rs' & lv' & U & Hl & Ha' & Hx & Hf).
  { done. }
  { lia. }
  { intros u Hu. apply Hnone. lia. }
  { intros [r u] pa Hk. destruct (leaf_page _ _ _ _ _ _ _ _ _ (proj1 Hkend) Ha Hk) as (_ & _ & Hm & _).
    rewrite <-(ki_count _ _ (vi_k _ _ _ _ (a_v _ _ _ _ _ _ Ha)) _ Hm : krefcnt _ (km st) = occ _ rs).
    specialize (Hcnt pa). lia. }
  assert (exec kend id (Copy old new sz) st = Some (Some (if failed then -1 else 0), st')) as Hex.
  { simpl. unfold uvmcopy. change 0 with (page_va 0) at 1 2. rewrite (page_count_up 0 v1) by lia.
    rewrite Z.sub_0_r, Hl. cbn [mbind option_bind]. done. }
  rewrite Z.add_0_l, Z2Nat.id in Hf by lia.
  eapply (correct_intro _ _ _ own rs lv ext); try done.
  intros r' va Hr' Hva. pose proof (proj1 (user_page va) Hva) as [Hva0 Hv]. simpl. destruct failed.
  - destruct Hf as [Hsame Hnone'].
    apply (view_same _ _ _ _ _ _ _ _ _ _ _ _ _ _ (proj1 Hkend) Ha Ha' Hx Hr' Hva).
    destruct (decide (in_pages new 0 v1 r' (va / PGSIZE))) as [[-> Hp]|Hp]; [|by apply Hsame].
    rewrite Hnone', Hnone by lia. done.
  - destruct Hf as [Hsame Hcopy]. cbn [Z.eqb]. rewrite E1.
    pose proof (PGROUNDUP_pages v1 va Hva0 ltac:(lia)).
    destruct (decide (r' = new ∧ 0 ≤ va < page_va v1)) as [[-> Hp]|Hp].
    + assert (lv' !! (new, va / PGSIZE) = lv !! (old, va / PGSIZE)) as Hnew by (apply Hcopy; lia).
      rewrite <-(view_same _ _ _ _ _ _ _ _ _ _ _ _ old va (proj1 Hkend) Ha Ha' Hx (Hr _ Hin) Hva).
      * rewrite !(view_leaves _ _ _ _ _ _ _ _ Ha') by (done || by apply (ext_roots _ _ _ _ _ _ _ _ Hx); auto).
        rewrite Hnew. rewrite Hsame; [done|]. by intros [? _].
      * apply Hsame. by intros [? _].
    + apply (view_same _ _ _ _ _ _ _ _ _ _ _ _ _ _ (proj1 Hkend) Ha Ha' Hx Hr' Hva).
      apply Hsame. intros [-> ?]. apply Hp. split; [done|lia].
Qed.

Lemma fault_correct st rts r va :
  space_inv kend st rts → allowed (Fault r va) st rts → correct (Fault r va) st rts.
Proof using Hkend Hid.
  intros (own & rs & lv & ext & Ha & Hr) (Hin & Hva & Hal). specialize (Hr r Hin) as Hrr.
  destruct (cowpage id r va st) eqn:Hc.
  2:{ eapply (correct_intro _ _ _ own rs lv ext None st); try done;
        [simpl; by rewrite Hc|by eapply vext_refl, Ha]. }
  assert (va = page_va (va / PGSIZE)) as Epg.
  { unfold page_va. pose proof (Z.div_mod va PGSIZE ltac:(done)). lia. }
  pose proof (proj1 (user_page va) Hva) as [Hva0 Hv]. set (v := va / PGSIZE) in *. rewrite Epg in Hc.
  destruct (cowalloc_spec kend id Hkend Hid st own rs lv ext r v Ha Hrr Hv Hc)
    as (o & st' & own' & rs' & lv' & U & pa & pa' & Hca & Ha' & Hx & Hl & Hl' & Hsame & Hby & _).
  eapply (correct_intro _ _ _ own rs lv ext o st'); try done;
    [simpl; by rewrite Epg, Hc|].
  intros r' va' Hr' Hva'. replace (effect _ o (view st)) with (view st) by (by destruct o).
  pose proof (proj1 (user_page va') Hva') as [Hva0' Hv'].
  destruct (decide (in_pages r v 1 r' (va' / PGSIZE))) as [[-> Hp]|Hp].
  - assert (va' / PGSIZE = v) as Ev by lia.
    rewrite (view_leaves _ _ _ _ _ _ _ _ Ha Hrr Hva').
    rewrite (view_leaves _ _ _ _ _ _ _ _ Ha'), Ev, Hl, Hl'; [|by apply (ext_roots _ _ _ _ _ _ _ _ Hx)|done].
    cbn. f_equal. apply Hby. by apply Z.mod_pos_bound.
  - apply (view_same _ _ _ _ _ _ _ _ _ _ _ _ _ _ (proj1 Hkend) Ha Ha' Hx Hr' Hva'). by apply Hsame.
Qed.

Lemma store_correct st rts r va b :
  space_inv kend st rts → allowed (Store r va b) st rts → correct (Store r va b) st rts.
Proof using Hkend.
  clear Hid. intros (own & rs & lv & ext & Ha & Hr) (Hin & Hva & HV & HU & HW).
  destruct (user_store_spec kend Hkend st own rs lv ext r va b Ha (Hr r Hin) Hva HV HW) as [Ha' Hview].
  exists None, (user_store r va b st). split_and!; [done|by exists own, rs, lv, ext|].
  intros r' va' Hin' Hva'. rewrite Hview by (done || by apply Hr). simpl. unfold fill.
  destruct (decide (r' = r ∧ va' = va)) as [[-> ->]|Hno]; [rewrite decide_True by lia; done|].
  rewrite decide_False; [done|]. intros [-> ?]. apply Hno. split; [done|lia].
Qed.

Lemma call_correct c st rts : space_inv kend st rts → allowed c st rts → correct c st rts.
Proof using Hkend Hid.
  intros Hi Ha. destruct c; [by apply create_correct|by apply grow_correct|by apply shrink_correct|
    by apply copy_correct|by apply fault_correct|by apply store_correct].
Qed.
End calls.

Lemma space_inv_run kend s s' :
  0 < kend ≤ PHYSTOP → rtc (vstep kend) s s' → space_inv kend s.1 s.2 → space_inv kend s'.1 s'.2.
Proof.
  intros Hk. induction 1 as [|s1 s2 s3 Hs _ IH]; [done|]. intros Hi. apply IH.
  destruct Hs as [id c st rts res st' Hid Ha Hex].
  destruct (call_correct kend id Hk Hid c st rts Hi Ha) as (res' & st'' & Hex' & Hi' & _).
  rewrite Hex in Hex'. by injection Hex' as <- <-.
Qed.

(** ** The theorem *)

(** C2: copy on write cannot be seen. In every run from boot on any harts, each
    allowed call returns without a panic, and the address spaces afterwards are
    those of the specification, in which every address space has memory of its
    own: uvmcreate() gives an empty one, uvmalloc() adds zeros (or, when memory is
    short, nothing), uvmdealloc() removes whole pages, uvmcopy() copies the
    parent's bytes to the child (or leaves both as they were), cowalloc() changes
    nothing, and a store changes one byte of one address space. *)
Theorem cow_refines_copy kend st0 st rts id c :
  0 < kend ≤ PHYSTOP → booted kend st0 → rtc (vstep kend) (st0, ∅) (st, rts) →
  (id < NCPU)%nat → allowed c st rts →
  ∃ res st', exec kend id c st = Some (res, st') ∧
    ∀ r va, r ∈ roots_after c res rts → 0 ≤ va < TRAPFRAME →
      view st' r va = effect c res (view st) r va.
Proof.
  intros Hk Hb Hrun Hid Hal.
  pose proof (space_inv_run kend _ _ Hk Hrun (booted_inv kend st0 Hk Hb)) as Hi.
  destruct (call_correct kend id Hk Hid c st rts Hi Hal) as (res & st' & Hex & _ & Hv). eauto.
Qed.

Lemma small_booted : booted small_kend small.
Proof. exists 0%nat. split; [apply small_cpu|apply small_kinit]. Qed.

Lemma small_run : rtc (vstep small_kend) (small, ∅) (small1, {[small_root]} ∪ ∅).
Proof.
  apply rtc_once. apply (vstep_call small_kend 0 Create small ∅ (Some small_root) small1); [apply small_cpu|done|].
  simpl. by rewrite small_create.
Qed.

Lemma small_empty va : 0 ≤ va < TRAPFRAME → view small1 small_root va = None.
Proof.
  destruct (booted_inv _ _ small_kend_ok small_booted) as (own & rs & lv & ext & Ha & _).
  destruct (uvmcreate_spec small_kend 0 small_kend_ok small_cpu _ _ _ _ _ _ _ Ha small_create)
    as (_ & _ & Hnone & _). apply Hnone.
Qed.

Lemma small_in : small_root ∈ ({[small_root]} ∪ ∅ : gset Z).
Proof. apply elem_of_union_l. by apply elem_of_singleton. Qed.

Lemma small_va : 0 ≤ 17 < TRAPFRAME.
Proof. by vm_compute. Qed.

Lemma small_allowed : allowed (Grow small_root 0 4096) small1 ({[small_root]} ∪ ∅).
Proof.
  split; [exact small_in|]. split; [by vm_compute|]. split; [by vm_compute|].
  intros va Hva. apply small_empty. change (PGROUNDUP 0) with 0 in Hva. exact Hva.
Qed.

Lemma cow_refines_copy_witness :
  ∃ res st', exec small_kend 0 (Grow small_root 0 4096) small1 = Some (res, st') ∧
    view st' small_root 17 = effect (Grow small_root 0 4096) res (view small1) small_root 17.
Proof.
  destruct (cow_refines_copy small_kend small small1 ({[small_root]} ∪ ∅) 0 (Grow small_root 0 4096)
    small_kend_ok small_booted small_run) as (res & st' & Hex & Hv).
  - unfold NCPU. lia.
  - exact small_allowed.
  - exists res, st'. split; [exact Hex|]. exact (Hv small_root 17 small_in small_va).
Defined.

(** A parent with one page forks, the child writes to its page: the child sees its
    own byte, the parent sees the old one. *)
Definition fork_demo : option (option Z * option Z * option Z) :=
  let run c st := (exec small_kend 0 c st : option (option Z * machine)) in
  '(p, st) ← run Create small;
  '(c, st) ← run Create st;
  p ← p; c ← c;
  '(_, st) ← run (Grow p 0 4096) st;
  '(_, st) ← run (Store p 5 11) st;
  '(_, st) ← run (Copy p c 4096) st;
  let before := view st c 5 in
  '(_, st) ← run (Fault c 0) st;
  '(_, st) ← run (Store c 5 22) st;
  Some (before, view st c 5, view st p 5).

Example fork_demo_result : fork_demo = Some (Some 11, Some 22, Some 11).
Proof. vm_compute. reflexivity. Qed.
