(* ===== verification/CString.v ===== *)
(** * The kernel's string functions (src/kernel/lib/string.c)

    Loops over a byte memory [m : Z → Z]; a pointer is an address. Loops that
    count down an argument recurse on it; strlen() has fuel, and [strlen_returns]
    says how much it needs. The read-only functions memcmp(), strncmp() and
    strlen() take each string as a function from positions to bytes. *)

From stdpp Require Import list_numbers.
From S2P Require Import Prelude Mem.

Definition put (a b : Z) (m : Z → Z) : Z → Z := λ x, if x =? a then b else m x.

(** ** Memory *)

(** [turns] turns of the loop are left, [i] is its variable. *)
Fixpoint memset_loop (turns : nat) (dst c i : Z) (m : Z → Z) : Z → Z :=
  match turns with
  | O => m
  | S turns => memset_loop turns dst c (i + 1) (put (dst + i) (c `mod` 256) m)
  end.

Definition memset (dst c : Z) (n : nat) (m : Z → Z) : Z → Z := memset_loop n dst c 0 m.

Fixpoint memcmp (n : nat) (s1 s2 : nat → Z) : Z :=
  match n with
  | O => 0
  | S n => if negb (s1 O =? s2 O) then s1 O - s2 O else memcmp n (λ i, s1 (S i)) (λ i, s2 (S i))
  end.

Fixpoint copy_down (n : nat) (d s : Z) (m : Z → Z) : Z → Z :=
  match n with
  | O => m
  | S n => copy_down n (d - 1) (s - 1) (put (d - 1) (m (s - 1)) m)
  end.

Fixpoint copy_up (n : nat) (d s : Z) (m : Z → Z) : Z → Z :=
  match n with
  | O => m
  | S n => copy_up n (d + 1) (s + 1) (put d (m s) m)
  end.

Definition memmove (dst src : Z) (n : nat) (m : Z → Z) : Z → Z :=
  if (src <? dst) && (dst <? src + Z.of_nat n)
  then copy_down n (dst + Z.of_nat n) (src + Z.of_nat n) m
  else copy_up n dst src m.

Definition memcpy (dst src : Z) (n : nat) (m : Z → Z) : Z → Z := memmove dst src n m.

(** ** Strings *)

Fixpoint strncmp (n : nat) (p q : nat → Z) : Z :=
  match n with
  | O => 0
  | S n =>
      if negb (p O =? 0) && (p O =? q O) then strncmp n (λ i, p (S i)) (λ i, q (S i))
      else p O - q O
  end.

(** The first loop of strncpy(): what is left of [n], the next place of [s]. *)
Fixpoint copy_string (n : nat) (s t : Z) (m : Z → Z) : nat * Z * (Z → Z) :=
  match n with
  | O => (O, s, m)
  | S n =>
      let b := m t in
      let m := put s b m in
      if b =? 0 then (n, s + 1, m) else copy_string n (s + 1) (t + 1) m
  end.

Fixpoint pad (n : nat) (s : Z) (m : Z → Z) : Z → Z :=
  match n with
  | O => m
  | S n => pad n (s + 1) (put s 0 m)
  end.

Definition strncpy (s t : Z) (n : nat) (m : Z → Z) : Z → Z :=
  let '(n, s, m) := copy_string n s t m in pad n s m.

Definition safestrcpy (s t : Z) (n : nat) (m : Z → Z) : Z → Z :=
  match n with
  | O => m
  | S n => let '(_, s, m) := copy_string n s t m in put s 0 m
  end.

Fixpoint strlen (fuel : nat) (s : nat → Z) (n : nat) : option nat :=
  match fuel with
  | O => None
  | S fuel => if s n =? 0 then Some n else strlen fuel s (S n)
  end.

(** ** Copies *)

Lemma put_eq a b m : put a b m a = b.
Proof. unfold put. by rewrite Z.eqb_refl. Qed.

Lemma put_ne a b m x : x ≠ a → put a b m x = m x.
Proof. intros H. unfold put. by rewrite (proj2 (Z.eqb_neq _ _)). Qed.

Lemma memset_loop_spec turns dst c i m x :
  memset_loop turns dst c i m x = Mem.memset (dst + i) (c `mod` 256) (Z.of_nat turns) m x.
Proof.
  revert i m. induction turns as [|turns IH]; intros i m; cbn [memset_loop].
  - symmetry. apply memset_out. lia.
  - rewrite IH. destruct (decide (dst + (i + 1) ≤ x < dst + (i + 1) + Z.of_nat turns)).
    + rewrite !memset_in by lia. done.
    + rewrite memset_out by done. destruct (decide (x = dst + i)) as [->|].
      * rewrite put_eq, memset_in by lia. done.
      * rewrite put_ne, memset_out by lia. done.
Qed.

Lemma copy_up_spec n d s m x : d ≤ s ∨ s + Z.of_nat n ≤ d →
  copy_up n d s m x = Mem.memmove d s (Z.of_nat n) m x.
Proof.
  revert d s m. induction n as [|n IH]; intros d s m H; cbn [copy_up].
  - symmetry. apply memmove_out. lia.
  - rewrite IH by lia. destruct (decide (d + 1 ≤ x < d + 1 + Z.of_nat n)).
    + rewrite !memmove_in by lia. rewrite put_ne by lia. f_equal. lia.
    + rewrite memmove_out by done. destruct (decide (x = d)) as [->|].
      * rewrite put_eq, memmove_in by lia. f_equal. lia.
      * rewrite put_ne, memmove_out by lia. done.
Qed.

Lemma copy_down_spec n d s m x : s ≤ d →
  copy_down n (d + Z.of_nat n) (s + Z.of_nat n) m x = Mem.memmove d s (Z.of_nat n) m x.
Proof.
  revert m. induction n as [|n IH]; intros m H; cbn [copy_down].
  - symmetry. apply memmove_out. lia.
  - replace (d + Z.of_nat (S n) - 1) with (d + Z.of_nat n) by lia.
    replace (s + Z.of_nat (S n) - 1) with (s + Z.of_nat n) by lia.
    rewrite IH by done. destruct (decide (d ≤ x < d + Z.of_nat n)).
    + rewrite !memmove_in by lia. rewrite put_ne by lia. done.
    + rewrite memmove_out by done. destruct (decide (x = d + Z.of_nat n)) as [->|].
      * rewrite put_eq, memmove_in by lia. f_equal. lia.
      * rewrite put_ne, memmove_out by lia. done.
Qed.

Lemma memmove_closed dst src n m x : memmove dst src n m x = Mem.memmove dst src (Z.of_nat n) m x.
Proof.
  unfold memmove. destruct (Z.ltb_spec src dst), (Z.ltb_spec dst (src + Z.of_nat n)); simpl;
    try (apply copy_up_spec; lia). apply copy_down_spec. lia.
Qed.

(** ** Strings *)

(** The string at [t], up to its end and padded with zeros: what strncpy() stores in a field. *)
Definition field (t : nat → Z) (i : nat) : Z :=
  if forallb (λ j, negb (t j =? 0)) (seq 0 i) then t i else 0.

Definition at_ (m : Z → Z) (a : Z) (i : nat) : Z := m (a + Z.of_nat i).

Lemma field_0 t : field t 0 = t 0%nat.
Proof. done. Qed.

Lemma field_S t i : t 0%nat ≠ 0 → field t (S i) = field (λ j, t (S j)) i.
Proof.
  intros H. unfold field. cbn [seq forallb]. rewrite (proj2 (Z.eqb_neq _ _) H). cbn [negb andb].
  replace (forallb (λ j, negb (t j =? 0)) (seq 1 i))
    with (forallb (λ j, negb (t (S j) =? 0)) (seq 0 i)); [done|].
  rewrite <-fmap_S_seq. generalize (seq 0 i). intros l. induction l as [|y l IH]; [done|].
  rewrite fmap_cons. cbn [forallb]. by rewrite IH.
Qed.

Lemma field_stop t i : t 0%nat = 0 → field t (S i) = 0.
Proof. intros H. unfold field. cbn [seq forallb]. rewrite H. done. Qed.

Lemma pad_spec n s m x : pad n s m x = Mem.memset s 0 (Z.of_nat n) m x.
Proof.
  revert s m. induction n as [|n IH]; intros s m; cbn [pad].
  - symmetry. apply memset_out. lia.
  - rewrite IH. destruct (decide (s + 1 ≤ x < s + 1 + Z.of_nat n)).
    + rewrite !memset_in by lia. done.
    + rewrite memset_out by done. destruct (decide (x = s)) as [->|].
      * rewrite put_eq, memset_in by lia. done.
      * rewrite put_ne, memset_out by lia. done.
Qed.

Definition apart (s t : Z) (n : nat) : Prop := s + Z.of_nat n ≤ t ∨ t + Z.of_nat n ≤ s.

Lemma at_shift m a i : at_ m (a + 1) i = at_ m a (S i).
Proof. unfold at_. f_equal. lia. Qed.

Lemma field_ext t t' i : (∀ j, (j ≤ i)%nat → t j = t' j) → field t i = field t' i.
Proof.
  intros H. unfold field. rewrite (H i) by lia.
  replace (forallb (λ j, negb (t j =? 0)) (seq 0 i)) with (forallb (λ j, negb (t' j =? 0)) (seq 0 i)); [done|].
  assert (∀ j, In j (seq 0 i) → t j = t' j) as Hj.
  { intros j Hj%in_seq. apply H. lia. }
  revert Hj. generalize (seq 0 i). intros l. induction l as [|y l IH]; intros Hj; [done|].
  cbn [forallb]. rewrite (Hj y (or_introl eq_refl)), IH; [done|]. intros j Hin. apply Hj. by right.
Qed.

Lemma strncpy_field s t n m : apart s t n →
  (∀ i, (i < n)%nat → at_ (strncpy s t n m) s i = field (at_ m t) i) ∧
  (∀ x, ¬ (s ≤ x < s + Z.of_nat n) → strncpy s t n m x = m x).
Proof.
  unfold strncpy. revert s t m. induction n as [|n IH]; intros s t m Hap.
  { split; [lia|]. intros x Hx. done. }
  assert (apart (s + 1) (t + 1) n) as Hap' by (unfold apart in *; lia).
  cbn [copy_string]. destruct (Z.eqb_spec (m t) 0) as [E|E].
  - split.
    + intros i Hi. unfold at_. rewrite pad_spec. destruct i as [|i].
      * rewrite memset_out, Z.add_0_r, put_eq by lia. rewrite field_0. unfold at_. by rewrite Z.add_0_r.
      * rewrite memset_in, field_stop; [done| |lia]. unfold at_. by rewrite Z.add_0_r.
    + intros x Hx. rewrite pad_spec, memset_out, put_ne by lia. done.
  - specialize (IH (s + 1) (t + 1) (put s (m t) m) Hap'). destruct IH as [IH1 IH2].
    set (w := copy_string n (s + 1) (t + 1) (put s (m t) m)) in *. destruct w as [[n' s'] m'].
    split.
    + intros i Hi. destruct i as [|i].
      * rewrite field_0. unfold at_ at 1. rewrite IH2, Z.add_0_r, put_eq by lia.
        unfold at_. by rewrite Z.add_0_r.
      * rewrite <-at_shift, IH1 by lia. rewrite field_S by (unfold at_; by rewrite Z.add_0_r).
        apply field_ext. intros j Hj. rewrite at_shift. unfold at_. apply put_ne.
        unfold apart in Hap. lia.
    + intros x Hx. rewrite IH2, put_ne by lia. done.
Qed.

(** Two fields hold the same string. *)
Lemma strncmp_zero n p q :
  strncmp n p q = 0 ↔ ∀ i, (i < n)%nat → field p i = field q i.
Proof.
  revert p q. induction n as [|n IH]; intros p q; cbn [strncmp]; [split; [lia|done]|].
  destruct (Z.eqb_spec (p 0%nat) 0) as [E|E]; cbn [negb andb].
  - split.
    + intros H i Hi. destruct i as [|i]; [by rewrite !field_0; lia|]. rewrite !field_stop by lia. done.
    + intros H. specialize (H 0%nat ltac:(lia)). rewrite !field_0 in H. lia.
  - destruct (Z.eqb_spec (p 0%nat) (q 0%nat)) as [E'|E'].
    + rewrite IH. split; intros H i Hi.
      * destruct i as [|i]; [by rewrite !field_0|]. rewrite !field_S by congruence.
        apply H. lia.
      * specialize (H (S i) ltac:(lia)). rewrite !field_S in H by congruence. done.
    + split; [lia|]. intros H. specialize (H 0%nat ltac:(lia)). rewrite !field_0 in H. lia.
Qed.

Lemma field_idem t i : field (field t) i = field t i.
Proof.
  revert t. induction i as [|i IH]; intros t; [done|].
  destruct (Z.eqb_spec (t 0%nat) 0) as [E|E].
  - rewrite (field_stop t) by done. by rewrite field_stop.
  - rewrite (field_S (field t)), (field_S t) by done.
    etransitivity; [|apply IH]. apply field_ext. intros j _. by apply field_S.
Qed.

(** What safestrcpy() leaves: the bytes of the source, none of them zero, and
    then a zero within the [n + 1] bytes of the target. *)
Lemma safestrcpy_string s t n m : apart s t (S n) → ∃ k, (k ≤ n)%nat ∧
  (∀ i, (i < k)%nat → at_ (safestrcpy s t (S n) m) s i = at_ m t i ∧ at_ m t i ≠ 0) ∧
  at_ (safestrcpy s t (S n) m) s k = 0 ∧ ((k < n)%nat → at_ m t k = 0).
Proof.
  unfold safestrcpy. intros Hap.
  cut (∃ k, (k ≤ n)%nat ∧
    let '(_, s', m') := copy_string n s t m in
    (∀ i, (i < k)%nat → at_ (put s' 0 m') s i = at_ m t i ∧ at_ m t i ≠ 0) ∧
    at_ (put s' 0 m') s k = 0 ∧ ((k < n)%nat → at_ m t k = 0) ∧
    s < s' + 1 ∧ (∀ x, x < s → m' x = m x)).
  { intros (k & Hk & H). destruct (copy_string n s t m) as [[? s'] m'].
    destruct H as (H1 & H2 & H3 & _). by exists k. }
  revert s t m Hap. induction n as [|n IH]; intros s t m Hap; cbn [copy_string].
  { exists 0%nat. split; [lia|]. split_and!; try lia.
    unfold at_. rewrite Z.add_0_r. apply put_eq. }
  destruct (Z.eqb_spec (m t) 0) as [E|E].
  - exists 0%nat. split; [lia|]. split_and!; try lia.
    + unfold at_. rewrite Z.add_0_r, put_ne by lia. by rewrite put_eq.
    + intros _. unfold at_. by rewrite Z.add_0_r.
    + intros x Hx. apply put_ne. lia.
  - destruct (IH (s + 1) (t + 1) (put s (m t) m)) as (k & Hk & H); [unfold apart in *; lia|].
    destruct (copy_string n (s + 1) (t + 1) (put s (m t) m)) as [[? s'] m'].
    destruct H as (H1 & H2 & H3 & H4 & H5). exists (S k). split; [lia|].
    assert (∀ i, (i ≤ n)%nat → at_ (put s (m t) m) (t + 1) i = at_ m t (S i)) as Hsh.
    { intros i Hi. rewrite at_shift. unfold at_. apply put_ne. unfold apart in Hap. lia. }
    split_and!.
    + intros [|i] Hi.
      * unfold at_. rewrite !Z.add_0_r, put_ne, H5, put_eq by lia. done.
      * rewrite <-at_shift, <-Hsh by lia. apply H1. lia.
    + by rewrite <-at_shift.
    + intros Hlt. rewrite <-Hsh by lia. apply H3. lia.
    + lia.
    + intros x Hx. rewrite H5, put_ne by lia. done.
Qed.

Lemma strlen_from fuel s n k :
  (n ≤ k)%nat → (∀ i, (n ≤ i < k)%nat → s i ≠ 0) → s k = 0 → (k - n < fuel)%nat →
  strlen fuel s n = Some k.
Proof.
  revert n. induction fuel as [|fuel IH]; intros n Hn Hs Hk Hf; [lia|]. cbn [strlen].
  destruct (Z.eqb_spec (s n) 0) as [E|E].
  - f_equal. destruct (decide (n = k)); [done|]. by destruct (Hs n ltac:(lia)).
  - assert (n ≠ k) by congruence. apply IH; try lia. intros i Hi. apply Hs. lia.
Qed.

(** ** Fields as lists

    A string constant or argument is the list of its bytes, followed by zeros;
    [stored n t] is what strncpy() leaves in a field of [n] bytes. *)

Definition str (l : list Z) (i : nat) : Z := nth i l 0.

Definition stored (n : nat) (t : nat → Z) : list Z := field t <$> seq 0 n.

Lemma length_stored n t : length (stored n t) = n.
Proof. unfold stored. by rewrite length_fmap, length_seq. Qed.

Lemma str_stored n t i : (i < n)%nat → str (stored n t) i = field t i.
Proof.
  intros Hi. unfold str. rewrite (nth_lookup_Some _ _ _ (field t i)); [done|].
  unfold stored. rewrite list_lookup_fmap, lookup_seq_lt by done. done.
Qed.

Lemma strncpy_stored s t n m : apart s t n →
  load_bytes s n (strncpy s t n m) = stored n (at_ m t).
Proof.
  intros Hap. destruct (strncpy_field s t n m Hap) as [H _]. apply list_eq. intros i.
  destruct (decide (i < n)%nat) as [Hi|Hi].
  - rewrite load_bytes_lookup by done. unfold stored.
    rewrite list_lookup_fmap, lookup_seq_lt by done. cbn. f_equal. by apply H.
  - rewrite !lookup_ge_None_2; rewrite ?length_load_bytes, ?length_stored; try done; lia.
Qed.

Lemma field_ext_below n p q :
  (∀ i, (i < n)%nat → p i = field q i) → ∀ i, (i < n)%nat → field p i = field q i.
Proof.
  intros H i Hi. rewrite <-(field_idem q). apply field_ext. intros j Hj. apply H. lia.
Qed.

Lemma strncmp_ext n p p' q q' :
  (∀ i, (i < n)%nat → field p i = field p' i) → (∀ i, (i < n)%nat → field q i = field q' i) →
  strncmp n p q = 0 ↔ strncmp n p' q' = 0.
Proof.
  intros Hp Hq. rewrite !strncmp_zero. split; intros H i Hi.
  - rewrite <-Hp, <-Hq by done. by apply H.
  - rewrite Hp, Hq by done. by apply H.
Qed.

(** A stored string compares as the string itself. *)
Lemma strncmp_stored n t q : strncmp n (str (stored n t)) q = 0 ↔ strncmp n t q = 0.
Proof.
  apply strncmp_ext; [|done]. apply field_ext_below. intros i Hi. by apply str_stored.
Qed.

(** Strings without zero bytes are compared by their first [n] bytes. *)
Lemma field_str l i : Forall (λ b, b ≠ 0) l → field (str l) i = str l i.
Proof.
  intros Hl. unfold field. destruct (decide (i < length l)%nat) as [Hi|Hi].
  - replace (forallb _ _) with true; [done|]. symmetry. apply forallb_forall. intros j Hj%in_seq.
    apply negb_true_iff, Z.eqb_neq. unfold str.
    destruct (lookup_lt_is_Some_2 l j ltac:(lia)) as [b Hb].
    rewrite (nth_lookup_Some _ _ _ b) by done. by apply (Forall_lookup_1 _ _ _ _ Hl Hb).
  - unfold str. rewrite nth_overflow by lia. by destruct (forallb _ _).
Qed.

Lemma strncmp_str n l k : Forall (λ b, b ≠ 0) l → Forall (λ b, b ≠ 0) k →
  strncmp n (str l) (str k) = 0 ↔ take n l = take n k.
Proof.
  intros Hl Hk. rewrite strncmp_zero.
  assert (∀ (l : list Z) i, Forall (λ b, b ≠ 0) l →
    take n l !! i = if decide (i < n)%nat then (if str l i =? 0 then None else Some (str l i)) else None) as Ht.
  { clear. intros l i Hl. case_decide as Hi; [|by rewrite lookup_take_ge by lia].
    rewrite lookup_take_lt by done. destruct (l !! i) as [b|] eqn:E; unfold str.
    - rewrite (nth_lookup_Some _ _ _ b) by done.
      by rewrite (proj2 (Z.eqb_neq b 0)) by apply (Forall_lookup_1 _ _ _ _ Hl E).
    - rewrite nth_overflow by (by apply lookup_ge_None_1). done. }
  split.
  - intros H. apply list_eq. intros i. rewrite !Ht by done. case_decide as Hi; [|done].
    specialize (H i Hi). rewrite !field_str in H by done. by rewrite H.
  - intros H i Hi. rewrite !field_str by done. pose proof (f_equal (λ l, l !! i) H) as E. simpl in E.
    rewrite !Ht, !decide_True in E by done.
    destruct (Z.eqb_spec (str l i) 0), (Z.eqb_spec (str k i) 0); congruence.
Qed.

Lemma strlen_str l : Forall (λ b, b ≠ 0) l → strlen (S (length l)) (str l) 0 = Some (length l).
Proof.
  intros Hl. apply strlen_from; try lia.
  - intros i Hi. unfold str. destruct (lookup_lt_is_Some_2 l i ltac:(lia)) as [b Hb].
    rewrite (nth_lookup_Some _ _ _ b) by done. by apply (Forall_lookup_1 _ _ _ _ Hl Hb).
  - unfold str. by apply nth_overflow.
Qed.

(** ** The theorems *)

(** memmove() copies as if through a buffer of its own: whatever the overlap of
    source and target, the target holds the bytes the source had before, and no
    other byte changes. memcpy() and memset() have the closed forms used by the
    models of the page tables and of the disk. *)
Theorem memmove_any_overlap dst src c n m x :
  memmove dst src n m x = Mem.memmove dst src (Z.of_nat n) m x ∧
  memcpy dst src n m x = Mem.memmove dst src (Z.of_nat n) m x ∧
  memset dst c n m x = Mem.memset dst (c `mod` 256) (Z.of_nat n) m x.
Proof.
  split_and!; [apply memmove_closed..|]. unfold memset. by rewrite memset_loop_spec, Z.add_0_r.
Qed.

(** A name stored in a fixed-size field is found again: after strncpy() of [t]
    to [s], strncmp() of the field with any string is zero exactly when it is
    zero for [t] itself, so in particular the field matches [t]; bytes outside
    the field keep their values. safestrcpy() always leaves a string that ends
    inside the target, on which strlen() returns. *)
Theorem strncpy_strncmp_roundtrip s t n m q :
  apart s t n →
  strncmp n (at_ (strncpy s t n m) s) (at_ m t) = 0 ∧
  (strncmp n (at_ (strncpy s t n m) s) q = 0 ↔ strncmp n (at_ m t) q = 0) ∧
  (∀ x, ¬ (s ≤ x < s + Z.of_nat n) → strncpy s t n m x = m x) ∧
  (∀ n', n = S n' → ∃ k, (k ≤ n')%nat ∧
     strlen (S n') (at_ (safestrcpy s t n m) s) 0 = Some k).
Proof.
  intros Hap. destruct (strncpy_field s t n m Hap) as [H1 H2].
  assert (∀ i, (i < n)%nat → field (at_ (strncpy s t n m) s) i = field (at_ m t) i) as Hf.
  { apply field_ext_below. exact H1. }
  split_and!.
  - apply strncmp_zero. exact Hf.
  - rewrite !strncmp_zero. split; intros H i Hi; rewrite <-H by done; [symmetry|]; by apply Hf.
  - done.
  - intros n' ->. destruct (safestrcpy_string s t n' m Hap) as (k & Hk & Ha & Hz & _).
    exists k. split; [done|]. apply strlen_from; try lia.
    intros i Hi. destruct (Ha i ltac:(lia)) as [-> ?]. done.
Qed.

(** The name "ab" of three bytes stored in a field of four. *)
Lemma strncpy_strncmp_roundtrip_witness :
  let m := store_bytes 100 [97; 98; 0; 7] (λ _, 9) in
  strncmp 4 (at_ (strncpy 50 100 4 m) 50) (at_ m 100) = 0 ∧
  load_bytes 50 5 (strncpy 50 100 4 m) = [97; 98; 0; 0; 9].
Proof.
  intros m. split; [|reflexivity].
  apply (proj1 (strncpy_strncmp_roundtrip 50 100 4 m (at_ m 100) ltac:(left; lia))).
Defined.
