(* ===== verification/Xattr.v ===== *)
(** * Extended attributes (src/kernel/filesystem/xattr.c)

    The table of attributes, held in memory, keyed by device and inode number.
    The calls are whole critical sections under [xattr_table.lock]. A name or a
    value is the list of its bytes; the caller's buffers are arguments and
    results. *)

From stdpp Require Import gmap.
From S2P Require Import Prelude Mem CString.

Definition XATTR_NAME_MAX : nat := 64.
Definition XATTR_VALUE_MAX : Z := 256.
Definition XATTR_MAX_ATTRS : nat := 8.
Definition XATTR_TABLE_SIZE : nat := 64.

Record xattr_entry := mk_xe {
  xe_name : list Z; xe_value : list Z; xe_value_len : Z; xe_used : bool }.

Record xattr_inode := mk_xi {
  xi_dev : Z; xi_inum : Z; xi_attrs : list xattr_entry; xi_used : bool }.

#[export] Instance xe_rebuild : Rebuild xattr_entry := λ e,
  mk_xe (xe_name e) (xe_value e) (xe_value_len e) (xe_used e).
#[export] Instance xe_name_set : Setter xe_name := ltac:(solve_setter).
#[export] Instance xe_value_set : Setter xe_value := ltac:(solve_setter).
#[export] Instance xe_value_len_set : Setter xe_value_len := ltac:(solve_setter).
#[export] Instance xe_used_set : Setter xe_used := ltac:(solve_setter).

#[export] Instance xi_rebuild : Rebuild xattr_inode := λ x,
  mk_xi (xi_dev x) (xi_inum x) (xi_attrs x) (xi_used x).
#[export] Instance xi_dev_set : Setter xi_dev := ltac:(solve_setter).
#[export] Instance xi_inum_set : Setter xi_inum := ltac:(solve_setter).
#[export] Instance xi_attrs_set : Setter xi_attrs := ltac:(solve_setter).
#[export] Instance xi_used_set : Setter xi_used := ltac:(solve_setter).

#[export] Instance xe_inhabited : Inhabited xattr_entry := populate (mk_xe [] [] 0 false).
#[export] Instance xi_inhabited : Inhabited xattr_inode := populate (mk_xi 0 0 [] false).

Abbreviation xattr_table := (list xattr_inode).

Definition xattrinit (t : xattr_table) : xattr_table := (λ x, x <| xi_used := false |>) <$> t.

(** ** The calls *)

Definition holds (dev inum : Z) (x : xattr_inode) : bool :=
  xi_used x && (xi_dev x =? dev) && (xi_inum x =? inum).

Definition xattr_find_or_create (dev inum : Z) (create : bool) (t : xattr_table)
    : option nat * xattr_table :=
  match find_index (holds dev inum) t with
  | Some i => (Some i, t)
  | None =>
      match find_index (λ x, negb (xi_used x)) t with
      | Some e =>
          if create then
            (Some e, alter (λ x, mk_xi dev inum ((λ a, a <| xe_used := false |>) <$> xi_attrs x) true) e t)
          else (None, t)
      | None => (None, t)
      end
  end.

(** [xe->used && strncmp(xe->name, name, XATTR_NAME_MAX) == 0] *)
Definition named (name : list Z) (e : xattr_entry) : bool :=
  xe_used e && (strncmp XATTR_NAME_MAX (str (xe_name e)) (str name) =? 0).

(** memmove(xe->value, value, size); xe->value_len = size *)
Definition set_value (value : list Z) (size : Z) (e : xattr_entry) : xattr_entry :=
  e <| xe_value := take (Z.to_nat size) value ++ drop (Z.to_nat size) (xe_value e) |>
    <| xe_value_len := size |>.

Definition set_attr (i j : nat) (f : xattr_entry → xattr_entry) (t : xattr_table) : xattr_table :=
  alter (λ x, x <| xi_attrs := alter f j (xi_attrs x) |>) i t.

Definition xattr_set (dev inum : Z) (name value : list Z) (size : Z) (t : xattr_table)
    : Z * xattr_table :=
  let namelen := default 0%nat (strlen (S (length name)) (str name) 0) in
  if (namelen =? 0)%nat || (XATTR_NAME_MAX <=? namelen)%nat then (-1, t)
  else if (size <? 0) || (XATTR_VALUE_MAX <? size) then (-1, t)
  else
    match xattr_find_or_create dev inum true t with
    | (None, t) => (-1, t)
    | (Some i, t) =>
        let attrs := xi_attrs (t !!! i) in
        match find_index (named name) attrs with
        | Some j => (0, set_attr i j (set_value value size) t)
        | None =>
            match find_index (λ e, negb (xe_used e)) attrs with
            | Some j =>
                (0, set_attr i j (λ e, set_value value size
                       (e <| xe_name := stored XATTR_NAME_MAX (str name) |>)
                       <| xe_used := true |>) t)
            | None => (-1, t)
            end
        end
    end.

(** The result and the bytes stored in the caller's buffer. *)
Definition xattr_get (dev inum : Z) (name : list Z) (size : Z) (t : xattr_table) : Z * list Z :=
  match (xattr_find_or_create dev inum false t).1 with
  | None => (-1, [])
  | Some i =>
      match find_index (named name) (xi_attrs (t !!! i)) with
      | None => (-1, [])
      | Some j =>
          let e := xi_attrs (t !!! i) !!! j in
          if size =? 0 then (xe_value_len e, [])
          else if size <? xe_value_len e then (-1, [])
          else (xe_value_len e, take (Z.to_nat (xe_value_len e)) (xe_value e))
      end
  end.

Definition xattr_clear (dev inum : Z) (t : xattr_table) : xattr_table :=
  match xattr_find_or_create dev inum false t with
  | (Some i, t) => alter (λ x, x <| xi_used := false |>) i t
  | (None, t) => t
  end.

(** [strlen(xe->name) + 1] *)
Definition name_size (e : xattr_entry) : nat :=
  S (default 0%nat (strlen (S (length (xe_name e))) (str (xe_name e)) 0)).

Definition xattr_list (dev inum : Z) (size : Z) (t : xattr_table) : Z * list Z :=
  match (xattr_find_or_create dev inum false t).1 with
  | None => (0, [])
  | Some i =>
      let attrs := filter (λ e, xe_used e = true) (xi_attrs (t !!! i)) in
      let total := sum_with (λ e, Z.of_nat (name_size e)) attrs in
      if size =? 0 then (total, [])
      else if size <? total then (-1, [])
      else (total, mjoin ((λ e, take (name_size e) (xe_name e)) <$> attrs))
  end.

Definition xattr_remove (dev inum : Z) (name : list Z) (t : xattr_table) : Z * xattr_table :=
  match xattr_find_or_create dev inum false t with
  | (None, t) => (-1, t)
  | (Some i, t) =>
      match find_index (named name) (xi_attrs (t !!! i)) with
      | None => (-1, t)
      | Some j =>
          let t := set_attr i j (λ e, e <| xe_used := false |>) t in
          if existsb xe_used (xi_attrs (t !!! i)) then (0, t)
          else (0, alter (λ x, x <| xi_used := false |>) i t)
      end
  end.

(** ** The specification: a map from names to values for every inode *)

(** The value of an attribute. *)
Definition attr (t : xattr_table) (dev inum : Z) (name : list Z) : option (list Z) :=
  i ← find_index (holds dev inum) t;
  j ← find_index (named name) (xi_attrs (t !!! i));
  Some (take (Z.to_nat (xe_value_len (xi_attrs (t !!! i) !!! j)))
             (xe_value (xi_attrs (t !!! i) !!! j))).

(** A name that xattr_set() accepts. *)
Definition name_ok (name : list Z) : Prop :=
  Forall (λ b, b ≠ 0) name ∧ (0 < length name < XATTR_NAME_MAX)%nat.

Record iwf (x : xattr_inode) : Prop := {
  iw_len : length (xi_attrs x) = XATTR_MAX_ATTRS;
  iw_buf : ∀ j e, xi_attrs x !! j = Some e → length (xe_value e) = Z.to_nat XATTR_VALUE_MAX;
  iw_used : ∀ j e, xi_attrs x !! j = Some e → xe_used e = true →
    0 ≤ xe_value_len e ≤ XATTR_VALUE_MAX ∧
    ∃ n, name_ok n ∧ xe_name e = stored XATTR_NAME_MAX (str n);
  iw_uniq : ∀ j1 j2 e1 e2, xi_attrs x !! j1 = Some e1 → xi_attrs x !! j2 = Some e2 →
    xe_used e1 = true → xe_used e2 = true → xe_name e1 = xe_name e2 → j1 = j2;
}.

Record xwf (t : xattr_table) : Prop := {
  x_len : length t = XATTR_TABLE_SIZE;
  x_inode : ∀ i x, t !! i = Some x → iwf x;
  x_uniq : ∀ i1 i2 x1 x2, t !! i1 = Some x1 → t !! i2 = Some x2 →
    xi_used x1 = true → xi_used x2 = true →
    xi_dev x1 = xi_dev x2 → xi_inum x1 = xi_inum x2 → i1 = i2;
}.

(** The value of an attribute in the slot [x]. *)
Definition slot_attr (x : xattr_inode) (name : list Z) : option (list Z) :=
  j ← find_index (named name) (xi_attrs x);
  Some (take (Z.to_nat (xe_value_len (xi_attrs x !!! j))) (xe_value (xi_attrs x !!! j))).

Lemma stored_inj n1 n2 : name_ok n1 → name_ok n2 →
  strncmp XATTR_NAME_MAX (str (stored XATTR_NAME_MAX (str n1))) (str n2) = 0 ↔ n1 = n2.
Proof.
  intros [H1 L1] [H2 L2]. rewrite strncmp_stored, strncmp_str by done.
  rewrite !take_ge by lia. done.
Qed.

Lemma stored_eq n1 n2 : name_ok n1 → name_ok n2 →
  stored XATTR_NAME_MAX (str n1) = stored XATTR_NAME_MAX (str n2) → n1 = n2.
Proof. intros H1 H2 E. apply stored_inj; [done..|]. rewrite E. by apply stored_inj. Qed.

Lemma named_iff x j e name : iwf x → name_ok name → xi_attrs x !! j = Some e →
  named name e = true ↔ xe_used e = true ∧ xe_name e = stored XATTR_NAME_MAX (str name).
Proof.
  intros Hw Hn Hj. unfold named. rewrite andb_true_iff, Z.eqb_eq. split; intros [Hu H]; split; try done.
  - destruct (iw_used _ Hw _ _ Hj Hu) as (_ & n & Hok & E). rewrite E in *.
    apply stored_inj in H; [by subst|done..].
  - rewrite H. by apply stored_inj.
Qed.

Lemma holds_iff dev inum x :
  holds dev inum x = true ↔ xi_used x = true ∧ xi_dev x = dev ∧ xi_inum x = inum.
Proof. unfold holds. rewrite !andb_true_iff, !Z.eqb_eq. tauto. Qed.

(** At most one slot holds an inode, at most one entry of it has a name. *)
Lemma find_slot t dev inum i x : xwf t → t !! i = Some x → holds dev inum x = true →
  find_index (holds dev inum) t = Some i.
Proof.
  intros Hw Hi Hh. destruct (find_index (holds dev inum) t) as [i'|] eqn:E.
  - apply find_index_Some in E as [(x' & Hx' & Hh') _]. f_equal.
    apply holds_iff in Hh, Hh'. destruct Hh as (?&?&?), Hh' as (?&?&?).
    eapply (x_uniq t Hw); eauto; congruence.
  - by rewrite (find_index_None _ _ E x (list_elem_of_lookup_2 _ _ _ Hi)) in Hh.
Qed.

Lemma find_attr x j e name : iwf x → name_ok name → xi_attrs x !! j = Some e →
  xe_used e = true → xe_name e = stored XATTR_NAME_MAX (str name) →
  find_index (named name) (xi_attrs x) = Some j.
Proof.
  intros Hw Hn Hj Hu He. destruct (find_index (named name) (xi_attrs x)) as [j'|] eqn:E.
  - apply find_index_Some in E as [(e' & He' & Hm) _]. f_equal.
    apply (named_iff x j') in Hm as [Hu' E']; [|done..]. eapply (iw_uniq x Hw); eauto; congruence.
  - pose proof (find_index_None _ _ E e (list_elem_of_lookup_2 _ _ _ Hj)) as Hf.
    rewrite (proj2 (named_iff x j e name Hw Hn Hj)) in Hf; done.
Qed.

Lemma find_slot_None t dev inum :
  (∀ i x, t !! i = Some x → holds dev inum x = false) → find_index (holds dev inum) t = None.
Proof.
  intros H. destruct (find_index (holds dev inum) t) as [i|] eqn:E; [|done].
  apply find_index_Some in E as [(x & Hx & Hh) _]. by rewrite (H i x Hx) in Hh.
Qed.

Lemma attr_slot t dev inum name i x : xwf t → t !! i = Some x → holds dev inum x = true →
  attr t dev inum name = slot_attr x name.
Proof.
  intros Hw Hx Hh. unfold attr. rewrite (find_slot _ _ _ _ _ Hw Hx Hh). cbn.
  by rewrite (list_lookup_total_correct _ _ _ Hx).
Qed.

Lemma attr_no_slot t dev inum name :
  (∀ i x, t !! i = Some x → holds dev inum x = false) → attr t dev inum name = None.
Proof. intros H. unfold attr. by rewrite find_slot_None. Qed.

Lemma slot_attr_entry x j e name : iwf x → name_ok name → xi_attrs x !! j = Some e →
  xe_used e = true → xe_name e = stored XATTR_NAME_MAX (str name) →
  slot_attr x name = Some (take (Z.to_nat (xe_value_len e)) (xe_value e)).
Proof.
  intros Hw Hn Hj Hu He. unfold slot_attr. rewrite (find_attr x j e name) by done. cbn.
  by rewrite (list_lookup_total_correct _ _ _ Hj).
Qed.

Lemma slot_attr_None x name : iwf x → name_ok name →
  slot_attr x name = None ↔
  ∀ j e, xi_attrs x !! j = Some e → xe_used e = true → xe_name e ≠ stored XATTR_NAME_MAX (str name).
Proof.
  intros Hw Hn. split.
  - intros H j e Hj Hu He. by rewrite (slot_attr_entry x j e) in H.
  - intros H. unfold slot_attr. destruct (find_index (named name) (xi_attrs x)) as [j|] eqn:E; [|done].
    apply find_index_Some in E as [(e & He & Hm) _].
    apply (named_iff x j) in Hm as [Hu En]; [|done..]. by destruct (H j e).
Qed.

(** ** One slot or one entry changes *)

Section slot.
Context (t : xattr_table) (i : nat) (x x' : xattr_inode).
Context (Hw : xwf t) (Hi : t !! i = Some x) (Hx' : iwf x').
(** The new contents of the slot do not repeat an inode. *)
Context (Hnew : xi_used x' = true →
  (xi_used x = true ∧ xi_dev x' = xi_dev x ∧ xi_inum x' = xi_inum x) ∨
  ∀ k y, t !! k = Some y → holds (xi_dev x') (xi_inum x') y = false).

Lemma insert_cases k y : <[i := x']> t !! k = Some y → (k = i ∧ y = x') ∨ (k ≠ i ∧ t !! k = Some y).
Proof using Hi.
  destruct (decide (k = i)) as [->|].
  - rewrite list_lookup_insert_eq by (by eapply lookup_lt_Some). intros [= <-]. by left.
  - rewrite list_lookup_insert_ne by done. by right.
Qed.

Lemma fresh_other k y : k ≠ i → t !! k = Some y → xi_used x' = true → xi_used y = true →
  xi_dev y = xi_dev x' → xi_inum y = xi_inum x' → False.
Proof using Hw Hi Hnew.
  intros Hk Hy Hu Huy Hd Hn. destruct (Hnew Hu) as [(Hux & Hd' & Hn')|Hf].
  - apply Hk. eapply (x_uniq t Hw); eauto; congruence.
  - specialize (Hf k y Hy). rewrite (proj2 (holds_iff _ _ y)) in Hf; done.
Qed.

Lemma xwf_insert : xwf (<[i := x']> t).
Proof using Hw Hi Hx' Hnew.
  split.
  - rewrite length_insert. by apply x_len.
  - intros k y [[-> ->]|[_ Hy]]%insert_cases; [done|by eapply x_inode].
  - intros k1 k2 y1 y2 [[-> ->]|[H1 Hy1]]%insert_cases [[-> ->]|[H2 Hy2]]%insert_cases Hu1 Hu2 Hd Hn.
    + done.
    + by destruct (fresh_other k2 y2).
    + by destruct (fresh_other k1 y1).
    + by eapply (x_uniq t Hw).
Qed.

Lemma attr_insert dev inum name :
  attr (<[i := x']> t) dev inum name =
  if holds dev inum x' then slot_attr x' name
  else if holds dev inum x then None else attr t dev inum name.
Proof using Hw Hi Hx' Hnew.
  pose proof xwf_insert as Hw'.
  assert (<[i := x']> t !! i = Some x') as Hi' by (by apply list_lookup_insert_eq, (lookup_lt_Some _ _ x)).
  destruct (holds dev inum x') eqn:E'; [by rewrite (attr_slot _ dev inum name i x' Hw' Hi')|].
  assert (∀ k y, k ≠ i → t !! k = Some y → <[i := x']> t !! k = Some y) as Hk.
  { intros k y Hne Hy. by rewrite list_lookup_insert_ne. }
  destruct (holds dev inum x) eqn:E.
  - apply attr_no_slot. intros k y [[-> ->]|[Hne Hy]]%insert_cases; [done|].
    destruct (holds dev inum y) eqn:Ey; [|done]. exfalso. apply Hne.
    apply holds_iff in E, Ey. destruct E as (?&?&?), Ey as (?&?&?).
    eapply (x_uniq t Hw); eauto; congruence.
  - destruct (find_index (holds dev inum) t) as [k|] eqn:Ek.
    + apply find_index_Some in Ek as [(y & Hy & Hh) _].
      assert (k ≠ i) as Hne by (intros ->; congruence).
      rewrite (attr_slot _ dev inum name k y Hw (Hy) Hh).
      by apply (attr_slot _ dev inum name k y Hw' (Hk _ _ Hne Hy)).
    + assert (∀ k y, t !! k = Some y → holds dev inum y = false) as Hno.
      { intros k y Hy. by apply (find_index_None _ _ Ek), (list_elem_of_lookup_2 _ k). }
      rewrite !attr_no_slot; [done|done|].
      intros k y [[-> ->]|[Hne Hy]]%insert_cases; [done|by eapply Hno].
Qed.

End slot.

Section entry.
Context (x : xattr_inode) (j : nat) (e e' : xattr_entry).
Context (Hw : iwf x) (Hj : xi_attrs x !! j = Some e).
Context (Hbuf : length (xe_value e') = Z.to_nat XATTR_VALUE_MAX).
Context (Hok : xe_used e' = true → 0 ≤ xe_value_len e' ≤ XATTR_VALUE_MAX ∧
  (∃ n, name_ok n ∧ xe_name e' = stored XATTR_NAME_MAX (str n)) ∧
  ∀ k y, k ≠ j → xi_attrs x !! k = Some y → xe_used y = true → xe_name y ≠ xe_name e').

Let x' : xattr_inode := x <| xi_attrs := <[j := e']> (xi_attrs x) |>.

Lemma entry_cases k y : xi_attrs x' !! k = Some y →
  (k = j ∧ y = e') ∨ (k ≠ j ∧ xi_attrs x !! k = Some y).
Proof using Hj.
  cbn. destruct (decide (k = j)) as [->|].
  - rewrite list_lookup_insert_eq by (by eapply lookup_lt_Some). intros [= <-]. by left.
  - rewrite list_lookup_insert_ne by done. by right.
Qed.

Lemma iwf_entry : iwf x'.
Proof using Hw Hj Hbuf Hok.
  split.
  - cbn. rewrite length_insert. by apply iw_len.
  - intros k y [[-> ->]|[_ Hy]]%entry_cases; [done|by eapply iw_buf].
  - intros k y [[-> ->]|[_ Hy]]%entry_cases Hu; [|by eapply iw_used].
    destruct (Hok Hu) as (? & ? & _). done.
  - intros k1 k2 y1 y2 [[-> ->]|[H1 Hy1]]%entry_cases [[-> ->]|[H2 Hy2]]%entry_cases Hu1 Hu2 E.
    + done.
    + destruct (Hok Hu1) as (_ & _ & Hf). by destruct (Hf k2 y2).
    + destruct (Hok Hu2) as (_ & _ & Hf). by destruct (Hf k1 y1).
    + by eapply (iw_uniq x Hw).
Qed.

Lemma slot_attr_change name : name_ok name →
  slot_attr x' name =
  if decide (xe_used e' = true ∧ xe_name e' = stored XATTR_NAME_MAX (str name))
  then Some (take (Z.to_nat (xe_value_len e')) (xe_value e'))
  else if decide (xe_used e = true ∧ xe_name e = stored XATTR_NAME_MAX (str name)) then None
  else slot_attr x name.
Proof using Hw Hj Hbuf Hok.
  intros Hn. pose proof iwf_entry as Hw'. case_decide as E'.
  - destruct E' as [Hu En]. apply (slot_attr_entry x' j e'); try done.
    cbn. apply list_lookup_insert_eq. by eapply lookup_lt_Some.
  - case_decide as E.
    + apply slot_attr_None; [done..|]. intros k y [[-> ->]|[Hne Hy]]%entry_cases Hu En; [by apply E'|].
      apply Hne. destruct E as [Hue Ene]. eapply (iw_uniq x Hw); eauto; congruence.
    + destruct (slot_attr x name) as [v|] eqn:Es.
      * unfold slot_attr in Es. destruct (find_index (named name) (xi_attrs x)) as [k|] eqn:Ek; [|done].
        apply find_index_Some in Ek as [(y & Hy & Hm) _]. cbn in Es.
        rewrite (list_lookup_total_correct _ _ _ Hy) in Es. injection Es as <-.
        apply (named_iff x k) in Hm as [Hu En]; [|done..].
        apply (slot_attr_entry x' k y); try done. cbn. rewrite list_lookup_insert_ne; [done|].
        intros <-. apply E. rewrite Hj in Hy. injection Hy as ->. done.
      * apply slot_attr_None; [done..|]. intros k y [[-> ->]|[Hne Hy]]%entry_cases Hu En.
        { by apply E'. }
        by apply ((proj1 (slot_attr_None x name Hw Hn) Es) k y).
Qed.

End entry.

(** ** The calls against the specification *)

Lemma set_value_spec value size e :
  0 ≤ size ≤ XATTR_VALUE_MAX → Z.of_nat (length value) = size →
  length (xe_value e) = Z.to_nat XATTR_VALUE_MAX →
  length (xe_value (set_value value size e)) = Z.to_nat XATTR_VALUE_MAX ∧
  xe_value_len (set_value value size e) = size ∧
  take (Z.to_nat size) (xe_value (set_value value size e)) = value.
Proof.
  intros Hs Hl Hb. unfold set_value; cbn. split_and!.
  - rewrite length_app, length_take, length_drop. unfold XATTR_VALUE_MAX in *. lia.
  - done.
  - rewrite (take_ge value) by lia. rewrite take_app_length' by lia. done.
Qed.

(** The slot xattr_set() works on: the one of the inode, or a new empty one. *)
Lemma find_or_create_spec dev inum t : xwf t →
  match xattr_find_or_create dev inum true t with
  | (None, t') => t' = t ∧ (∀ i x, t !! i = Some x → xi_used x = true ∧ holds dev inum x = false)
  | (Some i, t') => xwf t' ∧ (∃ x, t' !! i = Some x ∧ holds dev inum x = true) ∧
      (∀ d n name, attr t' d n name = attr t d n name) ∧
      (t' = t ∨
       (∀ k x, t !! k = Some x → holds dev inum x = false) ∧ (∃ k x, t !! k = Some x ∧ xi_used x = false) ∧
       ∀ x, t' !! i = Some x → ∀ j e, xi_attrs x !! j = Some e → xe_used e = false)
  end.
Proof.
  intros Hw. unfold xattr_find_or_create. destruct (find_index (holds dev inum) t) as [i|] eqn:E.
  { apply find_index_Some in E as [(x & Hx & Hh) _]. split_and!; try done; [by exists x|by left]. }
  assert (∀ k x, t !! k = Some x → holds dev inum x = false) as Hno.
  { intros k x Hx. by apply (find_index_None _ _ E), (list_elem_of_lookup_2 _ k). }
  destruct (find_index (λ x, negb (xi_used x)) t) as [i|] eqn:Ei.
  - apply find_index_Some in Ei as [(x & Hx & Hu) _]. apply negb_true_iff in Hu.
    rewrite (list_alter_insert _ _ _ _ Hx). set (x' := mk_xi _ _ _ _).
    assert (∀ j e, xi_attrs x' !! j = Some e → ∃ e0, xi_attrs x !! j = Some e0 ∧ e = e0 <| xe_used := false |>) as He.
    { intros j e. unfold x'; cbn. rewrite list_lookup_fmap.
      destruct (xi_attrs x !! j) as [e0|]; [|done]. intros [= <-]. by exists e0. }
    assert (iwf x') as Hx'.
    { pose proof (x_inode _ Hw _ _ Hx) as Hwx. split.
      - unfold x'; cbn. rewrite length_fmap. by apply iw_len.
      - intros j e (e0 & He0 & ->)%He. cbn. by eapply iw_buf.
      - intros j e (e0 & He0 & ->)%He. done.
      - intros j1 j2 e1 e2 (e0 & He0 & ->)%He. done. }
    assert (holds dev inum x' = true) as Hh by (by apply holds_iff).
    assert (xi_used x' = true →
      (xi_used x = true ∧ xi_dev x' = xi_dev x ∧ xi_inum x' = xi_inum x) ∨
      ∀ k y, t !! k = Some y → holds (xi_dev x') (xi_inum x') y = false) as Hnew by (by right).
    assert (<[i := x']> t !! i = Some x') as Hi'.
    { apply list_lookup_insert_eq. by eapply lookup_lt_Some. }
    split_and!.
    + by apply (xwf_insert t i x).
    + by exists x'.
    + intros d n name. rewrite (attr_insert t i x x' Hw Hx Hx' Hnew).
      destruct (holds d n x') eqn:Ed.
      * apply holds_iff in Ed as (_ & <- & <-). cbn [xi_dev xi_inum x'].
        rewrite attr_no_slot by exact Hno. unfold slot_attr.
        destruct (find_index (named name) (xi_attrs x')) as [j|] eqn:Ej; [|done].
        apply find_index_Some in Ej as [(e & (e0 & _ & ->)%He & Hm) _].
        unfold named in Hm. cbn in Hm. done.
      * unfold holds at 1. by rewrite Hu.
    + right. split_and!; [done|by exists i, x|]. intros y Hy. rewrite Hi' in Hy. injection Hy as <-.
      by intros j e (e0 & _ & ->)%He.
  - split; [done|]. intros i x Hx. split; [|by eapply Hno].
    pose proof (find_index_None _ _ Ei x (list_elem_of_lookup_2 _ _ _ Hx)) as Hn.
    by apply negb_false_iff in Hn.
Qed.

(** No room for another attribute of the inode. *)
Definition full (t : xattr_table) (dev inum : Z) : Prop :=
  (∃ i x, t !! i = Some x ∧ holds dev inum x = true ∧
     ∀ j e, xi_attrs x !! j = Some e → xe_used e = true) ∨
  (∀ i x, t !! i = Some x → xi_used x = true ∧ holds dev inum x = false).

Definition key_eq (d n d' n' : Z) (name name' : list Z) : bool :=
  bool_decide (d = d' ∧ n = n' ∧ name = name').

Lemma set_attr_insert t i j f x e : t !! i = Some x → xi_attrs x !! j = Some e →
  set_attr i j f t = <[i := x <| xi_attrs := <[j := f e]> (xi_attrs x) |>]> t.
Proof.
  intros Hx He. unfold set_attr. rewrite (list_alter_insert _ _ _ _ Hx).
  by rewrite (list_alter_insert _ _ _ _ He).
Qed.

(** A change of one entry seen through [attr]. *)
Lemma set_attr_spec t dev inum i j f x e : xwf t → t !! i = Some x → holds dev inum x = true →
  xi_attrs x !! j = Some e →
  length (xe_value (f e)) = Z.to_nat XATTR_VALUE_MAX →
  (xe_used (f e) = true → 0 ≤ xe_value_len (f e) ≤ XATTR_VALUE_MAX ∧
    (∃ n, name_ok n ∧ xe_name (f e) = stored XATTR_NAME_MAX (str n)) ∧
    ∀ k y, k ≠ j → xi_attrs x !! k = Some y → xe_used y = true → xe_name y ≠ xe_name (f e)) →
  xwf (set_attr i j f t) ∧
  ∀ d n name, name_ok name → attr (set_attr i j f t) d n name =
    if holds d n x then
      if decide (xe_used (f e) = true ∧ xe_name (f e) = stored XATTR_NAME_MAX (str name))
      then Some (take (Z.to_nat (xe_value_len (f e))) (xe_value (f e)))
      else if decide (xe_used e = true ∧ xe_name e = stored XATTR_NAME_MAX (str name)) then None
      else attr t d n name
    else attr t d n name.
Proof.
  intros Hw Hx Hh He Hb Hok. rewrite (set_attr_insert t i j f x e) by done.
  pose proof (x_inode _ Hw _ _ Hx) as Hwx.
  pose proof (iwf_entry x j e (f e) Hwx He Hb Hok) as Hx'. set (x' := x <| xi_attrs := _ |>) in *.
  assert (xi_used x' = true →
    (xi_used x = true ∧ xi_dev x' = xi_dev x ∧ xi_inum x' = xi_inum x) ∨
    ∀ k y, t !! k = Some y → holds (xi_dev x') (xi_inum x') y = false) as Hnew by (by left).
  split; [by apply (xwf_insert t i x)|]. intros d n name Hn.
  rewrite (attr_insert t i x x' Hw Hx Hx' Hnew).
  change (holds d n x') with (holds d n x). destruct (holds d n x) eqn:Ed; [|done].
  unfold x'. rewrite (slot_attr_change x j e (f e) Hwx He Hb Hok) by done.
  rewrite (attr_slot t d n name i x) by done. done.
Qed.

Lemma xattr_set_spec dev inum name value t :
  xwf t → name_ok name → Z.of_nat (length value) ≤ XATTR_VALUE_MAX →
  let '(r, t') := xattr_set dev inum name value (Z.of_nat (length value)) t in
  xwf t' ∧ (r = 0 ∨ r = -1) ∧
  (r = -1 ↔ attr t dev inum name = None ∧ full t dev inum) ∧
  ∀ d n nm, name_ok nm →
    attr t' d n nm = if (r =? 0) && key_eq dev inum d n name nm then Some value else attr t d n nm.
Proof.
  intros Hw Hn Hv. pose proof Hn as [Hz Hl]. unfold xattr_set. rewrite strlen_str by done.
  change (default 0%nat (Some (length name))) with (length name).
  rewrite (proj2 (Nat.eqb_neq (length name) 0)), (proj2 (Nat.leb_gt XATTR_NAME_MAX (length name))) by lia.
  cbn [orb].
  rewrite (proj2 (Z.ltb_ge (Z.of_nat (length value)) 0)), (proj2 (Z.ltb_ge XATTR_VALUE_MAX (Z.of_nat (length value)))) by lia. cbn [orb].
  pose proof (find_or_create_spec dev inum t Hw) as Hf.
  destruct (xattr_find_or_create dev inum true t) as [[i|] t1].
  2: { destruct Hf as [-> Hno]. split_and!; try done; [by right|].
    split; [|done]. intros _. split; [|by right]. apply attr_no_slot. intros i x Hx. by apply (Hno i x). }
  destruct Hf as (Hw1 & (x & Hx & Hh) & Hat & Hcase).
  rewrite (list_lookup_total_correct _ _ _ Hx). pose proof (x_inode _ Hw1 _ _ Hx) as Hwx.
  assert (attr t dev inum name = slot_attr x name) as Hslot.
  { rewrite <-Hat. by apply (attr_slot _ _ _ _ i). }
  assert (∀ d n nm (b c : option (list Z)), (if holds d n x then if decide (name = nm) then b else c else c) =
    (if (0 =? 0) && key_eq dev inum d n name nm then b else c)) as Hkey.
  { intros d n nm b c. apply holds_iff in Hh as (Hu & <- & <-). unfold holds, key_eq. rewrite Hu. cbn.
    destruct (Z.eqb_spec (xi_dev x) d), (Z.eqb_spec (xi_inum x) n), (decide (name = nm)); cbn;
      case_bool_decide; naive_solver. }
  destruct (find_index (named name) (xi_attrs x)) as [j|] eqn:Ej.
  - (* the attribute exists *)
    apply find_index_Some in Ej as [(e & He & Hm) _]. apply (named_iff x j) in Hm as [Hu En]; [|done..].
    pose proof (iw_buf _ Hwx _ _ He) as Hb.
    destruct (set_value_spec value (Z.of_nat (length value)) e ltac:(lia) eq_refl Hb) as (Hb' & Hl' & Ht').
    destruct (set_attr_spec t1 dev inum i j (set_value value (Z.of_nat (length value))) x e) as [Hw2 Ha];
      try done.
    { intros _. rewrite Hl'. split_and!; [lia..|by exists name|].
      intros k y Hk Hy Huy E. apply Hk. by eapply (iw_uniq x Hwx). }
    split_and!; try done; [by left| |].
    + split; [done|]. intros [Hnone _]. rewrite Hslot in Hnone.
      by rewrite (slot_attr_entry x j e) in Hnone.
    + intros d n nm Hnm. rewrite (Ha d n nm Hnm), Hat, <-Hkey. destruct (holds d n x); [|done].
      rewrite Hl', Ht'. change (xe_used (set_value _ _ e)) with (xe_used e).
      change (xe_name (set_value _ _ e)) with (xe_name e). rewrite Hu, En.
      destruct (decide (name = nm)) as [->|Hne]; [by rewrite decide_True|].
      rewrite !decide_False; [done|..]; intros [_ E]; by apply stored_eq in E.
  - (* a new attribute *)
    assert (slot_attr x name = None) as Hnone by (unfold slot_attr; by rewrite Ej).
    destruct (find_index (λ e, negb (xe_used e)) (xi_attrs x)) as [j|] eqn:Ef.
    + apply find_index_Some in Ef as [(e & He & Hu) Hfirst]. apply negb_true_iff in Hu.
      pose proof (iw_buf _ Hwx _ _ He) as Hb.
      set (e1 := e <| xe_name := stored XATTR_NAME_MAX (str name) |>).
      destruct (set_value_spec value (Z.of_nat (length value)) e1 ltac:(lia) eq_refl Hb) as (Hb' & Hl' & Ht').
      set (f := λ e : xattr_entry, set_value value (Z.of_nat (length value))
        (e <| xe_name := stored XATTR_NAME_MAX (str name) |>) <| xe_used := true |>).
      destruct (set_attr_spec t1 dev inum i j f x e) as [Hw2 Ha]; try done.
      { intros _. split_and!; [cbn; lia..|by exists name|].
        intros k y Hk Hy Huy. by apply (proj1 (slot_attr_None x name Hwx Hn) Hnone k y). }
      split_and!; try done; [by left| |].
      * split; [done|]. intros [_ Hfull]. exfalso. destruct Hcase as [->|(Hno & (k & y & Hy & Huy) & _)].
        -- destruct Hfull as [(i' & x' & Hx' & Hh' & Hall)|Hno]; [|by destruct (Hno i x Hx); congruence].
           assert (i' = i) as ->.
           { pose proof (find_slot t dev inum i x Hw Hx Hh) as E1.
             rewrite (find_slot t dev inum i' x' Hw Hx' Hh') in E1. by injection E1. }
           rewrite Hx in Hx'. injection Hx' as <-. rewrite (Hall j e He) in Hu. done.
        -- destruct Hfull as [(i' & x' & Hx' & Hh' & _)|Hall].
           ++ by rewrite (Hno i' x' Hx') in Hh'.
           ++ destruct (Hall k y Hy). congruence.
      * intros d n nm Hnm. rewrite (Ha d n nm Hnm), Hat, <-Hkey. destruct (holds d n x); [|done].
        change (xe_value_len (f e)) with (xe_value_len (set_value value (Z.of_nat (length value)) e1)).
        change (xe_value (f e)) with (xe_value (set_value value (Z.of_nat (length value)) e1)).
        rewrite Hl', Ht'. change (xe_used (f e)) with true.
        change (xe_name (f e)) with (stored XATTR_NAME_MAX (str name)).
        destruct (decide (name = nm)) as [->|Hne]; [by rewrite decide_True|].
        rewrite !decide_False; [done|..]; intros [? E]; [congruence|by apply stored_eq in E].
    + assert (∀ j e, xi_attrs x !! j = Some e → xe_used e = true) as Hall.
      { intros j e He. pose proof (find_index_None _ _ Ef e (list_elem_of_lookup_2 _ _ _ He)) as Hu.
        by apply negb_false_iff in Hu. }
      destruct Hcase as [->|(_ & _ & Hnew)].
      * split_and!; try done; [by right|]. split; [|done]. intros _. split; [by rewrite Hslot|].
        left. by exists i, x.
      * destruct (lookup_lt_is_Some_2 (xi_attrs x) 0) as [e He].
        { rewrite (iw_len _ Hwx). unfold XATTR_MAX_ATTRS. lia. }
        pose proof (Hall _ _ He) as H1. by rewrite (Hnew x Hx _ _ He) in H1.
Qed.

(** A lookup of the inode's slot. *)
Lemma find_spec dev inum t :
  match xattr_find_or_create dev inum false t with
  | (Some i, t') => t' = t ∧ ∃ x, t !! i = Some x ∧ holds dev inum x = true
  | (None, t') => t' = t ∧ ∀ i x, t !! i = Some x → holds dev inum x = false
  end.
Proof.
  unfold xattr_find_or_create. destruct (find_index (holds dev inum) t) as [i|] eqn:E.
  - apply find_index_Some in E as [(x & Hx & Hh) _]. eauto.
  - assert (∀ i x, t !! i = Some x → holds dev inum x = false) as Hno.
    { intros i x Hx. by apply (find_index_None _ _ E), (list_elem_of_lookup_2 _ i). }
    by destruct (find_index (λ x, negb (xi_used x)) t).
Qed.

(** A slot is given up. *)
Lemma free_slot t i x : xwf t → t !! i = Some x →
  xwf (alter (λ y, y <| xi_used := false |>) i t) ∧
  ∀ d n name, attr (alter (λ y, y <| xi_used := false |>) i t) d n name =
    if holds d n x then None else attr t d n name.
Proof.
  intros Hw Hx. rewrite (list_alter_insert _ _ _ _ Hx). set (x' := x <| xi_used := false |>).
  assert (iwf x') as Hx' by (destruct (x_inode _ Hw _ _ Hx); by constructor).
  assert (xi_used x' = true →
    (xi_used x = true ∧ xi_dev x' = xi_dev x ∧ xi_inum x' = xi_inum x) ∨
    ∀ k y, t !! k = Some y → holds (xi_dev x') (xi_inum x') y = false) as Hnew by done.
  split; [by apply (xwf_insert t i x)|]. intros d n name.
  by rewrite (attr_insert t i x x' Hw Hx Hx' Hnew).
Qed.

Lemma xattr_clear_spec dev inum t : xwf t → xwf (xattr_clear dev inum t) ∧
  ∀ d n nm, attr (xattr_clear dev inum t) d n nm =
    if bool_decide (d = dev ∧ n = inum) then None else attr t d n nm.
Proof.
  intros Hw. unfold xattr_clear. pose proof (find_spec dev inum t) as Hf.
  destruct (xattr_find_or_create dev inum false t) as [[i|] t1].
  - destruct Hf as (-> & x & Hx & Hh). destruct (free_slot t i x Hw Hx) as [Hw' Ha].
    split; [done|]. intros d n nm. rewrite Ha. apply holds_iff in Hh as (Hu & <- & <-).
    unfold holds. rewrite Hu. cbn.
    destruct (Z.eqb_spec (xi_dev x) d), (Z.eqb_spec (xi_inum x) n); cbn; case_bool_decide; naive_solver.
  - destruct Hf as [-> Hno]. split; [done|]. intros d n nm. case_bool_decide as E; [|done].
    destruct E as [-> ->]. by apply attr_no_slot.
Qed.

Lemma xattr_remove_spec dev inum name t : xwf t → name_ok name →
  let '(r, t') := xattr_remove dev inum name t in
  xwf t' ∧ (r = 0 ∨ r = -1) ∧ (r = -1 ↔ attr t dev inum name = None) ∧
  ∀ d n nm, name_ok nm →
    attr t' d n nm = if (r =? 0) && key_eq dev inum d n name nm then None else attr t d n nm.
Proof.
  intros Hw Hn. unfold xattr_remove. pose proof (find_spec dev inum t) as Hf.
  destruct (xattr_find_or_create dev inum false t) as [[i|] t1].
  2: { destruct Hf as [-> Hno]. split_and!; try done; [by right|]. split; [|done].
       intros _. by apply attr_no_slot. }
  destruct Hf as (-> & x & Hx & Hh). rewrite (list_lookup_total_correct _ _ _ Hx).
  pose proof (x_inode _ Hw _ _ Hx) as Hwx.
  pose proof (attr_slot t dev inum name i x Hw Hx Hh) as Hslot.
  destruct (find_index (named name) (xi_attrs x)) as [j|] eqn:Ej.
  2: { split_and!; try done; [by right|]. split; [|done]. intros _. rewrite Hslot.
       unfold slot_attr. by rewrite Ej. }
  apply find_index_Some in Ej as [(e & He & Hm) _]. apply (named_iff x j) in Hm as [Hu En]; [|done..].
  set (f := λ e : xattr_entry, e <| xe_used := false |>).
  destruct (set_attr_spec t dev inum i j f x e) as [Hw2 Ha]; try done.
  { exact (iw_buf _ Hwx j e He). }
  assert (∀ d n nm, name_ok nm → attr (set_attr i j f t) d n nm =
    if key_eq dev inum d n name nm then None else attr t d n nm) as Ha'.
  { intros d n nm Hnm. rewrite (Ha d n nm Hnm). apply holds_iff in Hh as (Hux & <- & <-).
    unfold holds, key_eq. rewrite Hux, Hu, En. cbn [xe_used f upd xe_used_set andb].
    destruct (Z.eqb_spec (xi_dev x) d), (Z.eqb_spec (xi_inum x) n); cbn [andb];
      try (rewrite bool_decide_false by naive_solver; done).
    rewrite decide_False by (by intros [? _]). case_bool_decide as E.
    - destruct E as (_ & _ & ->). by rewrite decide_True.
    - rewrite decide_False; [done|]. intros [_ E2]. apply stored_eq in E2; [|done..]. naive_solver. }
  assert (attr t dev inum name ≠ None) as Hsome.
  { rewrite Hslot, (slot_attr_entry x j e) by done. done. }
  rewrite (set_attr_insert t i j f x e) in * by done. set (x' := x <| xi_attrs := _ |>) in *.
  assert (<[i := x']> t !! i = Some x') as Hi'.
  { apply list_lookup_insert_eq. by eapply lookup_lt_Some. }
  rewrite (list_lookup_total_correct _ _ _ Hi'). destruct (existsb xe_used (xi_attrs x')) eqn:Ex.
  { split_and!; try done. by left. }
  destruct (free_slot _ i x' Hw2 Hi') as [Hw3 Hfree]. split_and!; try done; [by left|].
  intros d n nm Hnm. rewrite Hfree. cbn [Z.eqb andb]. rewrite <-Ha' by done.
  destruct (holds d n x') eqn:Ed; [|done]. rewrite (attr_slot _ d n nm i x') by done. unfold slot_attr.
  destruct (find_index (named nm) (xi_attrs x')) as [k|] eqn:Ek; [|done].
  apply find_index_Some in Ek as [(y & Hy & Hm) _]. exfalso.
  assert (existsb xe_used (xi_attrs x') = true) as Hex; [|congruence].
  apply existsb_exists. exists y. split; [by apply list_elem_of_In, (list_elem_of_lookup_2 _ k)|].
  unfold named in Hm. by apply andb_true_iff in Hm as [? _].
Qed.

Lemma xattr_get_spec dev inum name size t : xwf t → name_ok name →
  xattr_get dev inum name size t =
  match attr t dev inum name with
  | None => (-1, [])
  | Some v => if size =? 0 then (Z.of_nat (length v), [])
              else if size <? Z.of_nat (length v) then (-1, []) else (Z.of_nat (length v), v)
  end.
Proof.
  intros Hw Hn. unfold xattr_get. pose proof (find_spec dev inum t) as Hf.
  destruct (xattr_find_or_create dev inum false t) as [[i|] t1]; cbn [fst].
  2: { destruct Hf as [_ Hno]. by rewrite attr_no_slot. }
  destruct Hf as (_ & x & Hx & Hh). rewrite (list_lookup_total_correct _ _ _ Hx).
  rewrite (attr_slot t dev inum name i x Hw Hx Hh). unfold slot_attr.
  destruct (find_index (named name) (xi_attrs x)) as [j|] eqn:Ej; [|done].
  apply find_index_Some in Ej as [(e & He & Hm) _]. cbn [mbind option_bind].
  rewrite (list_lookup_total_correct _ _ _ He). pose proof (x_inode _ Hw _ _ Hx) as Hwx.
  apply (named_iff x j) in Hm as [Hu En]; [|done..].
  destruct (iw_used _ Hwx _ _ He Hu) as [Hl _]. pose proof (iw_buf _ Hwx _ _ He) as Hb.
  rewrite length_take, Hb. unfold XATTR_VALUE_MAX in *.
  rewrite Nat.min_l by lia. by rewrite Z2Nat.id by lia.
Qed.

(** ** The theorem *)

(** The calls that change the table. *)
Inductive xcall :=
  | XSet (dev inum : Z) (name value : list Z)
  | XRemove (dev inum : Z) (name : list Z)
  | XClear (dev inum : Z).

Definition xcall_ok (c : xcall) : Prop :=
  match c with
  | XSet _ _ name value => name_ok name ∧ Z.of_nat (length value) ≤ XATTR_VALUE_MAX
  | XRemove _ _ name => name_ok name
  | XClear _ _ => True
  end.

Definition xrun (c : xcall) (t : xattr_table) : Z * xattr_table :=
  match c with
  | XSet dev inum name value => xattr_set dev inum name value (Z.of_nat (length value)) t
  | XRemove dev inum name => xattr_remove dev inum name t
  | XClear dev inum => (0, xattr_clear dev inum t)
  end.

Abbreviation attrs := (Z → Z → list Z → option (list Z)).

(** What a call with the result [r] does to the attributes of all inodes. *)
Definition xeffect (c : xcall) (r : Z) (A : attrs) : attrs := λ d n nm,
  match c with
  | XSet dev inum name value => if (r =? 0) && key_eq dev inum d n name nm then Some value else A d n nm
  | XRemove dev inum name => if (r =? 0) && key_eq dev inum d n name nm then None else A d n nm
  | XClear dev inum => if bool_decide (d = dev ∧ n = inum) then None else A d n nm
  end.

(** When a call fails. *)
Definition xfails (c : xcall) (t : xattr_table) : Prop :=
  match c with
  | XSet dev inum name _ => attr t dev inum name = None ∧ full t dev inum
  | XRemove dev inum name => attr t dev inum name = None
  | XClear _ _ => False
  end.

Definition zero_table : xattr_table :=
  replicate XATTR_TABLE_SIZE (mk_xi 0 0
    (replicate XATTR_MAX_ATTRS (mk_xe (replicate XATTR_NAME_MAX 0)
       (replicate (Z.to_nat XATTR_VALUE_MAX) 0) 0 false)) false).

(** The table after the calls [cs]. *)
Definition xafter (cs : list xcall) : xattr_table :=
  foldl (λ t c, (xrun c t).2) (xattrinit zero_table) cs.

Lemma xrun_spec c t : xwf t → xcall_ok c → let '(r, t') := xrun c t in
  xwf t' ∧ (r = 0 ∨ r = -1) ∧ (r = -1 ↔ xfails c t) ∧
  ∀ d n nm, name_ok nm → attr t' d n nm = xeffect c r (attr t) d n nm.
Proof.
  intros Hw Hok. destruct c as [dev inum name value|dev inum name|dev inum]; cbn [xrun xfails xeffect].
  - destruct Hok as [Hn Hv]. exact (xattr_set_spec dev inum name value t Hw Hn Hv).
  - exact (xattr_remove_spec dev inum name t Hw Hok).
  - destruct (xattr_clear_spec dev inum t Hw) as [Hw' Ha]. split_and!; try done. by left.
Qed.

Lemma xattrinit_wf : xwf (xattrinit zero_table).
Proof.
  assert (∀ i x, xattrinit zero_table !! i = Some x → x = mk_xi 0 0
    (replicate XATTR_MAX_ATTRS (mk_xe (replicate XATTR_NAME_MAX 0)
       (replicate (Z.to_nat XATTR_VALUE_MAX) 0) 0 false)) false) as H.
  { intros i x. unfold xattrinit, zero_table. rewrite list_lookup_fmap.
    destruct (replicate XATTR_TABLE_SIZE _ !! i) as [y|] eqn:E; [|done].
    apply lookup_replicate in E as [-> _]. by intros [= <-]. }
  assert (iwf (mk_xi 0 0 (replicate XATTR_MAX_ATTRS (mk_xe (replicate XATTR_NAME_MAX 0)
       (replicate (Z.to_nat XATTR_VALUE_MAX) 0) 0 false)) false)) as Hi.
  { split; cbn [xi_attrs].
    - by rewrite length_replicate.
    - intros j e [-> _]%lookup_replicate. cbn [xe_value]. by rewrite length_replicate.
    - by intros j e [-> _]%lookup_replicate.
    - by intros j1 j2 e1 e2 [-> _]%lookup_replicate. }
  split.
  - unfold xattrinit, zero_table. by rewrite length_fmap, length_replicate.
  - intros i x ->%H. done.
  - intros i1 i2 x1 x2 ->%H. done.
Qed.

Lemma xafter_wf cs : Forall xcall_ok cs → xwf (xafter cs).
Proof.
  intros H. unfold xafter. generalize xattrinit_wf. generalize (xattrinit zero_table).
  induction H as [|c cs Hc _ IH]; intros t Ht; [done|]. cbn [foldl]. apply IH.
  pose proof (xrun_spec c t Ht Hc) as Hr. destruct (xrun c t) as [r t']. apply Hr.
Qed.

(** C27: Extended attributes are a map. After any calls from boot, setting, removing
    and clearing attributes have on the attributes of all inodes exactly the
    effect of the map operation; setting fails only when the attribute is new and
    the inode or the table has no free entry, removing only when there is none;
    and reading returns the value set last, its length when asked with size 0,
    or -1 when there is no such attribute or the buffer is too short. *)
Theorem xattr_refines_map cs c dev inum name size :
  Forall xcall_ok cs → xcall_ok c → name_ok name →
  let t := xafter cs in let '(r, t') := xrun c t in
  (r = 0 ∨ r = -1) ∧ (r = -1 ↔ xfails c t) ∧
  attr t' dev inum name = xeffect c r (attr t) dev inum name ∧
  xattr_get dev inum name size t' =
    match xeffect c r (attr t) dev inum name with
    | None => (-1, [])
    | Some v => if size =? 0 then (Z.of_nat (length v), [])
                else if size <? Z.of_nat (length v) then (-1, []) else (Z.of_nat (length v), v)
    end.
Proof.
  intros Hcs Hc Hn t. pose proof (xrun_spec c t (xafter_wf cs Hcs) Hc) as Hr.
  destruct (xrun c t) as [r t']. destruct Hr as (Hw & Hr & Hf & Ha).
  split_and!; [done..|by apply Ha|]. rewrite <-Ha by done. by apply xattr_get_spec.
Qed.

Lemma name_ok_1 b : b ≠ 0 → name_ok [b].
Proof. intros H. split; [by apply Forall_singleton|]. unfold XATTR_NAME_MAX. cbn. lia. Qed.

(** Two attributes of one file; the second is read back. *)
Lemma xattr_refines_map_witness :
  xattr_get 1 7 [98] 8 (xafter [XSet 1 7 [97] [1; 2]; XSet 1 7 [98] [3]]) = (1, [3]).
Proof.
  destruct (xattr_refines_map [XSet 1 7 [97] [1; 2]] (XSet 1 7 [98] [3]) 1 7 [98] 8) as (_ & _ & _ & H).
  - apply Forall_singleton. split; [by apply name_ok_1|]. unfold XATTR_VALUE_MAX. cbn. lia.
  - split; [by apply name_ok_1|]. unfold XATTR_VALUE_MAX. cbn. lia.
  - by apply name_ok_1.
  - exact H.
Defined.
