(* ===== verification/Fs.v ===== *)
(** * Blocks, inodes and file contents (src/kernel/filesystem/fs.c)

    The disk is the byte memory that the buffer cache presents (Bio.v shows that
    the cache is one memory): byte [i] of block [b] is at [b * BSIZE + i], a held
    buffer is its block. [logged] are the blocks given to log_write() in the
    current transaction. Calls run one at a time, each with the locks it takes;
    a panic, or a lock that the caller itself holds, is [None]. [struct inode *]
    is an index of the inode cache; [uint *] is a [loc]. The device number does
    not reach the disk driver and is kept only where the code compares it. *)

From stdpp Require Import list_numbers.
From S2P Require Import Prelude Mem Xattr.

(** ** Layout *)

Definition BSIZE : Z := 1024.
Definition NDIRECT : Z := 11.
Definition NINDIRECT : Z := BSIZE / 4.
Definition NADDR_PER_BLOCK : Z := BSIZE / 4.
Definition NDINDIRECT : Z := (BSIZE / 4) * (BSIZE / 4).
Definition MAXFILE : Z := NDIRECT + NINDIRECT + NDINDIRECT.
Definition IPB : Z := BSIZE / 64.
Definition BPB : Z := BSIZE * 8.
Definition NINODE : nat := 50.
Definition FSSIZE : Z := 100000.

Definition T_DIR : Z := 1.
Definition T_FILE : Z := 2.
Definition T_DEVICE : Z := 3.
Definition T_SYMLINK : Z := 4.

Record superblock := mk_sb {
  sb_size : Z; sb_nblocks : Z; sb_ninodes : Z; sb_nlog : Z;
  sb_logstart : Z; sb_inodestart : Z; sb_bmapstart : Z }.

(** The fields of an inode that live on disk. *)
Record dinode := mk_dinode {
  d_mode : Z; d_type : Z; d_major : Z; d_minor : Z; d_nlink : Z; d_size : Z; d_addrs : list Z }.

Record inode := mk_inode {
  i_dev : Z; i_inum : Z; i_ref : Z; i_locked : bool; i_valid : bool;
  i_d : dinode; i_flock_type : Z; i_flock_count : Z }.

Record fs := mk_fs {
  dsk : Z → Z;
  brefs : Z → Z;
  hint : Z;
  logged : list Z;
  icache : list inode;
  xattrs : xattr_table }.

#[export] Instance dinode_rebuild : Rebuild dinode := λ d,
  mk_dinode (d_mode d) (d_type d) (d_major d) (d_minor d) (d_nlink d) (d_size d) (d_addrs d).
#[export] Instance d_mode_set : Setter d_mode := ltac:(solve_setter).
#[export] Instance d_type_set : Setter d_type := ltac:(solve_setter).
#[export] Instance d_nlink_set : Setter d_nlink := ltac:(solve_setter).
#[export] Instance d_size_set : Setter d_size := ltac:(solve_setter).
#[export] Instance d_addrs_set : Setter d_addrs := ltac:(solve_setter).

#[export] Instance inode_rebuild : Rebuild inode := λ i,
  mk_inode (i_dev i) (i_inum i) (i_ref i) (i_locked i) (i_valid i) (i_d i) (i_flock_type i) (i_flock_count i).
#[export] Instance i_ref_set : Setter i_ref := ltac:(solve_setter).
#[export] Instance i_locked_set : Setter i_locked := ltac:(solve_setter).
#[export] Instance i_valid_set : Setter i_valid := ltac:(solve_setter).
#[export] Instance i_d_set : Setter i_d := ltac:(solve_setter).
#[export] Instance i_flock_type_set : Setter i_flock_type := ltac:(solve_setter).
#[export] Instance i_flock_count_set : Setter i_flock_count := ltac:(solve_setter).

#[export] Instance fs_rebuild : Rebuild fs := λ s,
  mk_fs (dsk s) (brefs s) (hint s) (logged s) (icache s) (xattrs s).
#[export] Instance dsk_set : Setter dsk := ltac:(solve_setter).
#[export] Instance brefs_set : Setter brefs := ltac:(solve_setter).
#[export] Instance hint_set : Setter hint := ltac:(solve_setter).
#[export] Instance logged_set : Setter logged := ltac:(solve_setter).
#[export] Instance icache_set : Setter icache := ltac:(solve_setter).
#[export] Instance xattrs_set : Setter xattrs := ltac:(solve_setter).

Definition no_dinode : dinode := mk_dinode 0 0 0 0 0 0 (replicate 13 0).

#[export] Instance inode_inhabited : Inhabited inode :=
  populate (mk_inode 0 0 0 false false no_dinode 0 0).

(** [short] *)
Definition i16 (z : Z) : Z := (z + 2 ^ 15) `mod` 2 ^ 16 - 2 ^ 15.

(** ** Buffers *)

Definition block_byte (b i : Z) : Z := b * BSIZE + i.

(** log_write() records a block once. *)
Definition log_write (b : Z) (s : fs) : fs :=
  if bool_decide (b ∈ logged s) then s else s <| logged := logged s ++ [b] |>.

Definition get_word (b j : Z) (s : fs) : Z := load32 (dsk s) (b * BSIZE + 4 * j).

Definition set_word (b j v : Z) (s : fs) : fs := s <| dsk := store32 (b * BSIZE + 4 * j) v (dsk s) |>.

(** [for (x = lo; x < hi; x++)] *)
Definition range (lo hi : Z) : list Z := seqZ lo (hi - lo).

(** A loop whose body may panic. *)
Definition for_each {A} (l : list A) (body : A → fs → option fs) (s : fs) : option fs :=
  foldl (λ o x, s ← o; body x s) (Some s) l.

(** The inode that a pointer points to. *)
Definition inode_at (ip : nat) (s : fs) : inode := icache s !!! ip.
Definition set_inode (ip : nat) (f : inode → inode) (s : fs) : fs := s <| icache := alter f ip (icache s) |>.
Definition din (ip : nat) (s : fs) : dinode := i_d (inode_at ip s).
Definition set_din (ip : nat) (f : dinode → dinode) (s : fs) : fs :=
  set_inode ip (λ i, i <| i_d := f (i_d i) |>) s.
Definition get_addr (ip : nat) (i : Z) (s : fs) : Z := d_addrs (din ip s) !!! Z.to_nat i.
Definition set_addr (ip : nat) (i v : Z) (s : fs) : fs :=
  set_din ip (λ d, d <| d_addrs := <[Z.to_nat i := v]> (d_addrs d) |>) s.

Inductive loc := LAddr (ip : nat) (i : Z) | LWord (b j : Z).

Definition read_loc (l : loc) (s : fs) : Z :=
  match l with LAddr ip i => get_addr ip i s | LWord b j => get_word b j s end.
Definition write_loc (l : loc) (v : Z) (s : fs) : fs :=
  match l with LAddr ip i => set_addr ip i v s | LWord b j => set_word b j v s end.

Section fs.
Context (sb : superblock).

Definition IBLOCK (i : Z) : Z := i / IPB + sb_inodestart sb.
Definition BBLOCK (b : Z) : Z := b / BPB + sb_bmapstart sb.

(** ** Blocks *)

(** [bp->data[bi/8] & (1 << (bi % 8))] for bit [bi] of the bitmap block of [b]. *)
Definition get_bit (b bi : Z) (s : fs) : bool :=
  negb (Z.land (dsk s (BBLOCK b * BSIZE + bi / 8)) (Z.shiftl 1 (bi `mod` 8)) =? 0).

Definition put_byte (b i v : Z) (s : fs) : fs := s <| dsk := store_bytes (b * BSIZE + i) [v] (dsk s) |>.

Definition or_bit (b bi : Z) (s : fs) : fs :=
  put_byte (BBLOCK b) (bi / 8)
    (Z.lor (dsk s (BBLOCK b * BSIZE + bi / 8)) (Z.shiftl 1 (bi `mod` 8))) s.

Definition clear_bit (b bi : Z) (s : fs) : fs :=
  put_byte (BBLOCK b) (bi / 8)
    (Z.ldiff (dsk s (BBLOCK b * BSIZE + bi / 8)) (Z.shiftl 1 (bi `mod` 8))) s.

Definition bzero (bno : Z) (s : fs) : fs :=
  log_write bno (s <| dsk := memset (bno * BSIZE) 0 BSIZE (dsk s) |>).

Definition add_ref (b k : Z) (s : fs) : fs :=
  s <| brefs := λ x, if x =? b then u32 (brefs s x + k) else brefs s x |>.

Definition bref_inc (b : Z) (s : fs) : option fs :=
  if sb_size sb <=? b then None else Some (add_ref b 1 s).

Definition bref_dec (b : Z) (s : fs) : option (Z * fs) :=
  if sb_size sb <=? b then None
  else if brefs s b <? 1 then None
  else let s := add_ref b (-1) s in Some (brefs s b, s).

Definition bref_get (b : Z) (s : fs) : option Z :=
  if sb_size sb <=? b then None else Some (brefs s b).

(** The inner loop of balloc(): the first clear bit from [bi] up to [bi_end]. *)
Fixpoint scan_bits (turns : nat) (b bi bi_end : Z) (s : fs) : option Z :=
  match turns with
  | O => None
  | S turns =>
      if (bi <? bi_end) && (b + bi <? sb_size sb) then
        if negb (get_bit b bi s) then Some bi else scan_bits turns b (bi + 1) bi_end s
      else None
  end.

(** The two outer loops: from the block of [start] to the end of the disk, then
    from the beginning up to [start]. *)
Fixpoint scan_up (turns : nat) (b b0 start : Z) (s : fs) : option (Z * Z) :=
  match turns with
  | O => None
  | S turns =>
      if b <? sb_size sb then
        match scan_bits (Z.to_nat BPB) b (if b =? b0 then start - b else 0) BPB s with
        | Some bi => Some (b, bi)
        | None => scan_up turns (b + BPB) b0 start s
        end
      else None
  end.

Fixpoint scan_low (turns : nat) (b start : Z) (s : fs) : option (Z * Z) :=
  match turns with
  | O => None
  | S turns =>
      if b <? start then
        match scan_bits (Z.to_nat BPB) b 0 (if start <? b + BPB then start - b else BPB) s with
        | Some bi => Some (b, bi)
        | None => scan_low turns (b + BPB) start s
        end
      else None
  end.

(** What balloc() does with the bit it finds. *)
Definition take_block (b bi : Z) (s : fs) : option (Z * fs) :=
  let s := log_write (BBLOCK b) (or_bit b bi s) in
  let s := bzero (b + bi) s in
  s ← bref_inc (b + bi) s;
  Some (b + bi, s <| hint := b + bi + 1 |>).

Definition balloc (s : fs) : option (Z * fs) :=
  let start := if sb_size sb <=? hint s then 0 else hint s in
  let b0 := start - start `mod` BPB in
  let turns := S (Z.to_nat (sb_size sb / BPB)) in
  match scan_up turns b0 b0 start s with
  | Some (b, bi) => take_block b bi s
  | None =>
      if start =? 0 then None
      else
        match scan_low turns 0 start s with
        | Some (b, bi) => take_block b bi s
        | None => None
        end
  end.

Definition bfree (b : Z) (s : fs) : option fs :=
  '(ref, s) ← bref_dec b s;
  if 0 <? ref then Some s
  else
    let bi := b `mod` BPB in
    if negb (get_bit b bi s) then None
    else Some (log_write (BBLOCK b) (clear_bit b bi s)).

(** [if (a) bfree(a)] *)
Definition bfree_if (a : Z) (s : fs) : option fs := if a =? 0 then Some s else bfree a s.

(** ** Free space *)

Definition count_free_blocks (data_start : Z) (s : fs) : Z :=
  sum_with (λ bi,
    sum_with (λ bit,
      let b := bi * BPB + bit in
      if (b <? data_start) || (sb_size sb <=? b) then 0
      else if negb (Z.land (dsk s ((sb_bmapstart sb + bi) * BSIZE + bit / 8))
                      (Z.shiftl 1 (bit `mod` 8)) =? 0) then 0 else 1)
      (range 0 BPB))
    (range 0 (sb_size sb / BPB + 1)).

(** ** Inodes on disk *)

(** The address of a disk inode: [(struct dinode * )bp->data + inum%IPB]. *)
Definition dinode_addr (inum : Z) : Z := IBLOCK inum * BSIZE + (inum `mod` IPB) * 64.

Definition read_dinode (inum : Z) (m : Z → Z) : dinode :=
  let a := dinode_addr inum in
  mk_dinode (m a) (m (a + 1)) (i16 (load_le 2 m (a + 2))) (i16 (load_le 2 m (a + 4)))
    (i16 (load_le 2 m (a + 6))) (load32 m (a + 8))
    ((λ i, load32 m (a + 12 + 4 * i)) <$> seqZ 0 13).

Definition disk_type (inum : Z) (s : fs) : Z := d_type (read_dinode inum (dsk s)).

(** The stores of iupdate(), in its order. *)
Definition write_dinode (inum : Z) (d : dinode) (m : Z → Z) : Z → Z :=
  let a := dinode_addr inum in
  let m := store_bytes (a + 1) [d_type d] m in
  let m := store_le 2 (a + 2) (d_major d) m in
  let m := store_le 2 (a + 4) (d_minor d) m in
  let m := store_le 2 (a + 6) (d_nlink d) m in
  let m := store32 (a + 8) (d_size d) m in
  let m := store_bytes a [d_mode d] m in
  store_bytes (a + 12) (mjoin (Z_to_little_endian 4 8 <$> d_addrs d)) m.

Definition iupdate (ip : nat) (s : fs) : fs :=
  let inum := i_inum (inode_at ip s) in
  log_write (IBLOCK inum) (s <| dsk := write_dinode inum (din ip s) (dsk s) |>).

Definition count_free_inodes (s : fs) : Z :=
  sum_with (λ k,
    let inum := 1 + k * IPB in
    sum_with (λ i,
      if sb_ninodes sb <=? inum + i then 0
      else if s.(dsk) (IBLOCK inum * BSIZE + i * 64 + 1) =? 0 then 1 else 0) (range 0 IPB))
    (range 0 ((sb_ninodes sb - 1 + IPB - 1) / IPB)).

(** ** The inode cache *)

Definition cached (dev inum : Z) (i : inode) : bool :=
  (0 <? i_ref i) && (i_dev i =? dev) && (i_inum i =? inum).

Definition iget (dev inum : Z) (s : fs) : option (nat * fs) :=
  match find_index (cached dev inum) (icache s) with
  | Some ip => Some (ip, set_inode ip (λ i, i <| i_ref := i_ref i + 1 |>) s)
  | None =>
      match find_index (λ i, i_ref i =? 0) (icache s) with
      | None => None
      | Some ip =>
          Some (ip, set_inode ip (λ i, mk_inode dev inum 1 (i_locked i) false (i_d i) 0 0) s)
      end
  end.

Definition idup (ip : nat) (s : fs) : fs := set_inode ip (λ i, i <| i_ref := i_ref i + 1 |>) s.

(** The turns of ialloc() up to the first free inode. *)
Definition ialloc (dev type : Z) (s : fs) : option (nat * fs) :=
  match find_index (λ inum, disk_type inum s =? 0) (range 1 (sb_ninodes sb)) with
  | None => None
  | Some k =>
      let inum := 1 + Z.of_nat k in
      let a := dinode_addr inum in
      let m := memset a 0 64 (dsk s) in
      let m := store_bytes (a + 1) [type] m in
      let m := store_bytes a [3] m in
      iget dev inum (log_write (IBLOCK inum) (s <| dsk := m |>))
  end.

Definition ilock (ip : nat) (s : fs) : option fs :=
  if i_ref (inode_at ip s) <? 1 then None
  else if i_locked (inode_at ip s) then None
  else
    let s := set_inode ip (λ i, i <| i_locked := true |>) s in
    if i_valid (inode_at ip s) then Some s
    else
      let d := read_dinode (i_inum (inode_at ip s)) (dsk s) in
      let s := set_inode ip (λ i, i <| i_d := d |> <| i_valid := true |>) s in
      if d_type (din ip s) =? 0 then None else Some s.

Definition iunlock (ip : nat) (s : fs) : option fs :=
  if negb (i_locked (inode_at ip s)) || (i_ref (inode_at ip s) <? 1) then None
  else Some (set_inode ip (λ i, i <| i_locked := false |>) s).

(** ** The blocks of a file *)

(** [if ((addr = *p) == 0) { *p = addr = balloc(); log_write(bp); }] where [bp] is
    the buffer of [p], if it lies in one. *)
Definition get_or_alloc (p : loc) (pbuf : option Z) (s : fs) : option (Z * fs) :=
  let addr := read_loc p s in
  if addr =? 0 then
    '(addr, s) ← balloc s;
    let s := write_loc p addr s in
    Some (addr, match pbuf with Some b => log_write b s | None => s end)
  else Some (addr, s).

(** The first part of bmap(): the place of the block pointer, the indirect block
    it is in, and the block. *)
Definition bmap_find (ip : nat) (bn : Z) (s : fs) : option (loc * option Z * Z * fs) :=
  if bn <? NDIRECT then
    let p := LAddr ip bn in
    '(addr, s) ← get_or_alloc p None s;
    Some (p, None, addr, s)
  else
    let bn := bn - NDIRECT in
    if bn <? NINDIRECT then
      '(b, s) ← get_or_alloc (LAddr ip NDIRECT) None s;
      let p := LWord b bn in
      '(addr, s) ← get_or_alloc p (Some b) s;
      Some (p, Some b, addr, s)
    else
      let bn := bn - NINDIRECT in
      if bn <? NDINDIRECT then
        let level2_idx := bn / NADDR_PER_BLOCK in
        let level1_idx := bn `mod` NADDR_PER_BLOCK in
        '(b2, s) ← get_or_alloc (LAddr ip (NDIRECT + 1)) None s;
        '(b1, s) ← get_or_alloc (LWord b2 level2_idx) (Some b2) s;
        let p := LWord b1 level1_idx in
        '(addr, s) ← get_or_alloc p (Some b1) s;
        Some (p, Some b1, addr, s)
      else None.

(** The copy that a write makes of a shared block. *)
Definition bmap_cow (p : loc) (pbuf : option Z) (addr : Z) (s : fs) : option (Z * fs) :=
  '(newb, s) ← balloc s;
  let s := log_write newb (s <| dsk := memmove (newb * BSIZE) (addr * BSIZE) BSIZE (dsk s) |>) in
  let s := write_loc p newb s in
  let s := match pbuf with Some b => log_write b s | None => s end in
  s ← bfree addr s;
  Some (newb, s).

Definition bmap (ip : nat) (bn : Z) (for_write : bool) (s : fs) : option (Z * fs) :=
  '(p, pbuf, addr, s) ← bmap_find ip bn s;
  if for_write && negb (addr =? 0) then
    ref ← bref_get addr s;
    if 1 <? ref then bmap_cow p pbuf addr s else Some (addr, s)
  else Some (addr, s).

Definition bmap_nalloc (ip : nat) (bn : Z) (s : fs) : Z :=
  if bn <? NDIRECT then get_addr ip bn s
  else
    let bn := bn - NDIRECT in
    if bn <? NINDIRECT then
      let addr := get_addr ip NDIRECT s in
      if addr =? 0 then 0 else get_word addr bn s
    else
      let bn := bn - NINDIRECT in
      if bn <? NDINDIRECT then
        let addr := get_addr ip (NDIRECT + 1) s in
        if addr =? 0 then 0
        else
          let l1 := get_word addr (bn / NADDR_PER_BLOCK) s in
          if l1 =? 0 then 0 else get_word l1 (bn `mod` NADDR_PER_BLOCK) s
      else 0.

Definition bmap_set_existing (ip : nat) (bn addr : Z) (s : fs) : Z * fs :=
  if bn <? NDIRECT then (1, set_addr ip bn addr s)
  else
    let bn := bn - NDIRECT in
    if bn <? NINDIRECT then
      let b := get_addr ip NDIRECT s in
      if b =? 0 then (-1, s) else (0, log_write b (set_word b bn addr s))
    else
      let bn := bn - NINDIRECT in
      if bn <? NDINDIRECT then
        let b := get_addr ip (NDIRECT + 1) s in
        if b =? 0 then (-1, s)
        else
          let l1 := get_word b (bn / NADDR_PER_BLOCK) s in
          if l1 =? 0 then (-1, s)
          else (0, log_write l1 (set_word l1 (bn `mod` NADDR_PER_BLOCK) addr s))
      else (-1, s).

Definition bmap_ensure (ip : nat) (bn : Z) (s : fs) : option (Z * fs) :=
  if bn <? NDIRECT then Some (0, s)
  else
    let bn := bn - NDIRECT in
    if bn <? NINDIRECT then
      if get_addr ip NDIRECT s =? 0 then
        '(b, s) ← balloc s; Some (1, set_addr ip NDIRECT b s)
      else Some (0, s)
    else
      let bn := bn - NINDIRECT in
      if bn <? NDINDIRECT then
        '(need_update, s) ←
          (if get_addr ip (NDIRECT + 1) s =? 0 then
             '(b, s) ← balloc s; Some (1, set_addr ip (NDIRECT + 1) b s)
           else Some (0, s));
        let b2 := get_addr ip (NDIRECT + 1) s in
        let level2_idx := bn / NADDR_PER_BLOCK in
        if get_word b2 level2_idx s =? 0 then
          '(b, s) ← balloc s;
          Some (need_update, log_write b2 (set_word b2 level2_idx b s))
        else Some (need_update, s)
      else Some (-1, s).

(** ** Freeing blocks *)

(** [for (j = lo; j < n; j++) if (a[j]) bfree(a[j])], [a] the words of block [b]. *)
Definition free_words (b lo n : Z) (s : fs) : option fs :=
  for_each (range lo n) (λ j s, bfree_if (get_word b j s) s) s.

(** The same, with the words cleared; tells whether any was. *)
Definition clear_words (b lo n : Z) (s : fs) : option (bool * fs) :=
  foldl (λ o j, '(changed, s) ← o;
    if get_word b j s =? 0 then Some (changed, s)
    else s ← bfree (get_word b j s) s; Some (true, set_word b j 0 s))
    (Some (false, s)) (range lo n).

Definition addr_block_empty (b n : Z) (s : fs) : bool :=
  forallb (λ j, get_word b j s =? 0) (range 0 n).

Definition free_indirect_block (ind_bno : Z) (s : fs) : option fs :=
  if ind_bno =? 0 then Some s
  else
    s ← free_words ind_bno 0 NADDR_PER_BLOCK s;
    bfree ind_bno s.

(** [if (ip->addrs[i]) { bfree(ip->addrs[i]); ip->addrs[i] = 0; }] *)
Definition free_addr (ip : nat) (i : Z) (s : fs) : option fs :=
  if get_addr ip i s =? 0 then Some s
  else s ← bfree (get_addr ip i s) s; Some (set_addr ip i 0 s).

Definition itrunc (ip : nat) (s : fs) : option fs :=
  s ← for_each (range 0 NDIRECT) (free_addr ip) s;
  s ← (let ind := get_addr ip NDIRECT s in
       if ind =? 0 then Some s
       else
         s ← free_words ind 0 NINDIRECT s;
         s ← bfree ind s;
         Some (set_addr ip NDIRECT 0 s));
  s ← (let dind := get_addr ip (NDIRECT + 1) s in
       if dind =? 0 then Some s
       else
         s ← for_each (range 0 NADDR_PER_BLOCK) (λ i s,
               let l1 := get_word dind i s in
               if l1 =? 0 then Some s
               else
                 s ← free_words l1 0 NADDR_PER_BLOCK s;
                 bfree l1 s) s;
         s ← bfree dind s;
         Some (set_addr ip (NDIRECT + 1) 0 s));
  Some (iupdate ip (set_din ip (λ d, d <| d_size := 0 |>) s)).

(** The single indirect part of itrunc_to(). *)
Definition trunc_indirect (ip : nat) (new_nblocks : Z) (s : fs) : option fs :=
  let ind := get_addr ip NDIRECT s in
  if new_nblocks <=? NDIRECT then
    if ind =? 0 then Some s
    else
      s ← free_indirect_block ind s;
      Some (set_addr ip NDIRECT 0 s)
  else if ind =? 0 then Some s
  else
    '(changed, s) ← clear_words ind (new_nblocks - NDIRECT) NINDIRECT s;
    let empty := addr_block_empty ind NINDIRECT s in
    let s := if changed && negb empty then log_write ind s else s in
    if empty then
      s ← bfree ind s;
      Some (set_addr ip NDIRECT 0 s)
    else Some s.

(** [free_indirect_block(a[i]); a[i] = 0] for the level-1 blocks after [keep2]. *)
Definition clear_level1 (b lo n : Z) (s : fs) : option (bool * fs) :=
  foldl (λ o i, '(changed, s) ← o;
    if get_word b i s =? 0 then Some (changed, s)
    else s ← free_indirect_block (get_word b i s) s; Some (true, set_word b i 0 s))
    (Some (false, s)) (range lo n).

(** The level-1 block that is kept in part. *)
Definition trunc_level1 (b keep2 keep1 : Z) (changed : bool) (s : fs) : option (bool * fs) :=
  let l1 := get_word b keep2 s in
  if (NADDR_PER_BLOCK <=? keep2) || (l1 =? 0) then Some (changed, s)
  else if keep1 =? 0 then
    s ← free_indirect_block l1 s;
    Some (true, set_word b keep2 0 s)
  else
    '(changed1, s) ← clear_words l1 keep1 NADDR_PER_BLOCK s;
    let empty1 := addr_block_empty l1 NADDR_PER_BLOCK s in
    let s := if changed1 && negb empty1 then log_write l1 s else s in
    if empty1 then
      s ← bfree l1 s;
      Some (true, set_word b keep2 0 s)
    else Some (changed, s).

Definition trunc_dindirect (ip : nat) (new_nblocks : Z) (s : fs) : option fs :=
  let dind := get_addr ip (NDIRECT + 1) s in
  if new_nblocks <=? NDIRECT + NINDIRECT then
    if dind =? 0 then Some s
    else
      s ← for_each (range 0 NADDR_PER_BLOCK) (λ i s, free_indirect_block (get_word dind i s) s) s;
      s ← bfree dind s;
      Some (set_addr ip (NDIRECT + 1) 0 s)
  else if dind =? 0 then Some s
  else
    let dkeep := new_nblocks - (NDIRECT + NINDIRECT) in
    let keep2 := dkeep / NADDR_PER_BLOCK in
    let keep1 := dkeep `mod` NADDR_PER_BLOCK in
    '(changed, s) ← clear_level1 dind (keep2 + 1) NADDR_PER_BLOCK s;
    '(changed, s) ← trunc_level1 dind keep2 keep1 changed s;
    let empty := addr_block_empty dind NADDR_PER_BLOCK s in
    let s := if changed && negb empty then log_write dind s else s in
    if empty then
      s ← bfree dind s;
      Some (set_addr ip (NDIRECT + 1) 0 s)
    else Some s.

Definition itrunc_to (ip : nat) (newsize : Z) (s : fs) : option fs :=
  if d_size (din ip s) <=? newsize then
    Some (iupdate ip (set_din ip (λ d, d <| d_size := newsize |>) s))
  else
    let new_nblocks := u32 (newsize + BSIZE - 1) / BSIZE in
    s ← for_each (range new_nblocks NDIRECT) (free_addr ip) s;
    s ← trunc_indirect ip new_nblocks s;
    s ← trunc_dindirect ip new_nblocks s;
    Some (iupdate ip (set_din ip (λ d, d <| d_size := newsize |>) s)).

(** ** Dropping references *)

Definition iput (ip : nat) (s : fs) : option fs :=
  let i := inode_at ip s in
  s ← (if (i_ref i =? 1) && i_valid i && (d_nlink (i_d i) =? 0) then
         if i_locked i then None
         else
           let s := set_inode ip (λ i, i <| i_locked := true |>) s in
           s ← itrunc ip s;
           let s := s <| xattrs := xattr_clear (i_dev i) (i_inum i) (xattrs s) |> in
           let s := set_din ip (λ d, d <| d_type := 0 |>) s in
           let s := iupdate ip s in
           let s := set_inode ip (λ i, i <| i_valid := false |>) s in
           Some (set_inode ip (λ i, i <| i_locked := false |>) s)
       else Some s);
  Some (set_inode ip (λ i, i <| i_ref := i_ref i - 1 |>) s).

Definition iunlockput (ip : nat) (s : fs) : option fs :=
  s ← iunlock ip s;
  iput ip s.

(** ** Reading and writing *)

Record stat := mk_stat { st_dev : Z; st_ino : Z; st_type : Z; st_mode : Z; st_nlink : Z; st_size : Z }.

Definition stati (ip : nat) (s : fs) : stat :=
  let i := inode_at ip s in let d := i_d i in
  mk_stat (i_dev i) (i_inum i) (d_type d) (d_mode d) (d_nlink d) (d_size d).

(** The part of block [blkaddr] from [off] of [m] bytes; zeros when there is none. *)
Definition read_part (blkaddr off m : Z) (s : fs) : list Z :=
  if blkaddr =? 0 then replicate (Z.to_nat m) 0
  else load_bytes (blkaddr * BSIZE + off `mod` BSIZE) (Z.to_nat m) (dsk s).

(** [dst_ok tot m] tells whether either_copyout() of the [m] bytes at [tot] works. *)
Fixpoint read_loop (fuel : nat) (ip : nat) (dst_ok : Z → Z → bool) (off tot n : Z) (acc : list Z)
    (s : fs) : option (Z * list Z) :=
  match fuel with
  | O => None
  | S fuel =>
      if tot <? n then
        let blkaddr := bmap_nalloc ip (off / BSIZE) s in
        let m := Z.min (n - tot) (BSIZE - off `mod` BSIZE) in
        if dst_ok tot m then
          read_loop fuel ip dst_ok (off + m) (tot + m) n (acc ++ read_part blkaddr off m s) s
        else Some (tot, acc)
      else Some (tot, acc)
  end.

(** A turn of the loop of readi() or writei() ends a block. *)
Definition turns (n : Z) : nat := Z.to_nat (n / BSIZE) + 3.

Definition readi (ip : nat) (dst_ok : Z → Z → bool) (off n : Z) (s : fs) : option (Z * list Z) :=
  let size := d_size (din ip s) in
  if (size <? off) || (u32 (off + n) <? off) then Some (0, [])
  else
    let n := if size <? u32 (off + n) then size - off else n in
    read_loop (turns n) ip dst_ok off 0 n [] s.

(** [src tot m] is what either_copyin() of the [m] bytes at [tot] stores, and
    whether it works: when it does not, it may have stored a part. *)
Fixpoint write_loop (fuel : nat) (ip : nat) (src : Z → Z → list Z * bool) (off tot n : Z) (s : fs)
    : option (Z * fs) :=
  match fuel with
  | O => None
  | S fuel =>
      if tot <? n then
        '(b, s) ← bmap ip (off / BSIZE) true s;
        let m := Z.min (n - tot) (BSIZE - off `mod` BSIZE) in
        let '(bs, ok) := src tot m in
        let s := s <| dsk := store_bytes (b * BSIZE + off `mod` BSIZE) bs (dsk s) |> in
        if ok : bool then write_loop fuel ip src (off + m) (tot + m) n (log_write b s)
        else Some (off, s)
      else Some (off, s)
  end.

Definition writei (ip : nat) (src : Z → Z → list Z * bool) (off n : Z) (s : fs) : option (Z * fs) :=
  if (d_size (din ip s) <? off) || (u32 (off + n) <? off) then Some (-1, s)
  else if MAXFILE * BSIZE <? u32 (off + n) then Some (-1, s)
  else
    '(off, s) ← write_loop (turns n) ip src off 0 n s;
    if 0 <? n then
      let s := if d_size (din ip s) <? off then set_din ip (λ d, d <| d_size := off |>) s else s in
      Some (n, iupdate ip s)
    else Some (n, s).

Definition falloc (ip : nat) (startb endb newsize : Z) (keep_size : bool) (s : fs) : option (Z * fs) :=
  if MAXFILE * BSIZE <? newsize then Some (-1, s)
  else
    s ← for_each (range startb endb) (λ b s, '(_, s) ← bmap ip b false s; Some s) s;
    let grow := negb keep_size && (d_size (din ip s) <? newsize) in
    let s := if grow then set_din ip (λ d, d <| d_size := newsize |>) s else s in
    Some (0, if keep_size || grow then iupdate ip s else s).

(** ** Holes *)

(** One turn of ipunch(); the flag is need_update. *)
Definition punch_direct (ip : nat) (bn : Z) (u : bool) (s : fs) : option (bool * fs) :=
  if get_addr ip bn s =? 0 then Some (u, s)
  else
    s ← bfree (get_addr ip bn s) s;
    Some (true, set_addr ip bn 0 s).

Definition punch_indirect (ip : nat) (idx : Z) (u : bool) (s : fs) : option (bool * fs) :=
  let ind := get_addr ip NDIRECT s in
  if ind =? 0 then Some (u, s)
  else
    s ← (if get_word ind idx s =? 0 then Some s
         else s ← bfree (get_word ind idx s) s; Some (log_write ind (set_word ind idx 0 s)));
    if addr_block_empty ind NINDIRECT s then
      s ← bfree ind s;
      Some (true, set_addr ip NDIRECT 0 s)
    else Some (u, s).

Definition punch_dindirect (ip : nat) (dbn : Z) (u : bool) (s : fs) : option (bool * fs) :=
  let level2_idx := dbn / NADDR_PER_BLOCK in
  let level1_idx := dbn `mod` NADDR_PER_BLOCK in
  let dind := get_addr ip (NDIRECT + 1) s in
  if dind =? 0 then Some (u, s)
  else
    let l1 := get_word dind level2_idx s in
    if l1 =? 0 then Some (u, s)
    else
      s ← (if get_word l1 level1_idx s =? 0 then Some s
           else s ← bfree (get_word l1 level1_idx s) s; Some (log_write l1 (set_word l1 level1_idx 0 s)));
      if addr_block_empty l1 NADDR_PER_BLOCK s then
        s ← bfree l1 s;
        let s := log_write dind (set_word dind level2_idx 0 s) in
        if addr_block_empty dind NADDR_PER_BLOCK s then
          s ← bfree dind s;
          Some (true, set_addr ip (NDIRECT + 1) 0 s)
        else Some (u, s)
      else Some (u, s).

Definition punch_turn (ip : nat) (bn : Z) (u : bool) (s : fs) : option (bool * fs) :=
  if bn <? NDIRECT then punch_direct ip bn u s
  else if bn <? NDIRECT + NINDIRECT then punch_indirect ip (bn - NDIRECT) u s
  else if bn <? NDIRECT + NINDIRECT + NDINDIRECT then punch_dindirect ip (bn - NDIRECT - NINDIRECT) u s
  else Some (u, s).

Definition ipunch (ip : nat) (startb endb : Z) (s : fs) : option (Z * fs) :=
  if negb (d_type (din ip s) =? T_FILE) then Some (-1, s)
  else
    '(u, s) ← foldl (λ o bn, '(u, s) ← o; punch_turn ip bn u s) (Some (false, s)) (range startb endb);
    Some (0, if u : bool then iupdate ip s else s).

(** ** Sharing blocks between files *)

(** [for (j = 0; j < n; j++) if (a[j]) bref_inc(a[j])] *)
Definition share_words (b n : Z) (s : fs) : option fs :=
  for_each (range 0 n) (λ j s, let a := get_word b j s in if a =? 0 then Some s else bref_inc a s) s.

Definition copy_block (dst src : Z) (s : fs) : fs :=
  s <| dsk := memmove (dst * BSIZE) (src * BSIZE) BSIZE (dsk s) |>.

(** [dst->addrs[i] = src->addrs[i]; if (src->addrs[i]) bref_inc(src->addrs[i])] *)
Definition clone_addr (src dst : nat) (i : Z) (s : fs) : option fs :=
  let s := set_addr dst i (get_addr src i s) s in
  let a := get_addr src i s in
  if a =? 0 then Some s else bref_inc a s.

(** A new pointer block at [p] with the [n] pointers of the block at [old]. *)
Definition clone_block (p old : loc) (n : Z) (s : fs) : option fs :=
  if read_loc old s =? 0 then Some s
  else
    '(new_b, s) ← balloc s;
    let s := write_loc p new_b s in
    let s := copy_block new_b (read_loc old s) s in
    s ← share_words new_b n s;
    Some (log_write new_b s).

Definition clone_dindirect (src dst : nat) (s : fs) : option fs :=
  if get_addr src (NDIRECT + 1) s =? 0 then Some s
  else
    '(new_dind, s) ← balloc s;
    let s := set_addr dst (NDIRECT + 1) new_dind s in
    let a_src := get_addr src (NDIRECT + 1) s in
    let s := s <| dsk := memset (new_dind * BSIZE) 0 BSIZE (dsk s) |> in
    s ← for_each (range 0 NADDR_PER_BLOCK) (λ i s,
          clone_block (LWord new_dind i) (LWord a_src i) NADDR_PER_BLOCK s) s;
    Some (log_write new_dind s).

Definition clone_tree (src dst : nat) (s : fs) : option fs :=
  s ← for_each (range 0 NDIRECT) (clone_addr src dst) s;
  s ← clone_block (LAddr dst NDIRECT) (LAddr src NDIRECT) NINDIRECT s;
  clone_dindirect src dst s.

Definition iclone (src dst : nat) (s : fs) : option (Z * fs) :=
  if negb (d_type (din src s) =? T_FILE) || negb (d_type (din dst s) =? T_FILE) then Some (-1, s)
  else
    let s := set_din dst (λ d, d <| d_mode := d_mode (din src s) |>) s in
    let s := set_din dst (λ d, d <| d_size := d_size (din src s) |>) s in
    s ← clone_tree src dst s;
    Some (0, iupdate dst s).

(** One turn of iclone_range(): the flag is need_update, [inr] an early return -1. *)
Definition clone_turn (src dst : nat) (srcbn dstbn : Z) (u : bool) (s : fs)
    : option ((bool + unit) * fs) :=
  let sblk := bmap_nalloc src srcbn s in
  let dblk := bmap_nalloc dst dstbn s in
  if sblk =? 0 then
    if dblk =? 0 then Some (inl u, s)
    else
      let '(r, s) := bmap_set_existing dst dstbn 0 s in
      if r <? 0 then Some (inr tt, s)
      else
        s ← bfree dblk s;
        Some (inl (u || (r =? 1)), s)
  else if dblk =? sblk then Some (inl u, s)
  else
    s ← bref_inc sblk s;
    '(r, s) ← bmap_ensure dst dstbn s;
    if r <? 0 then '(_, s) ← bref_dec sblk s; Some (inr tt, s)
    else
      let u := u || (r =? 1) in
      let '(r, s) := bmap_set_existing dst dstbn sblk s in
      if r <? 0 then '(_, s) ← bref_dec sblk s; Some (inr tt, s)
      else
        let u := u || (r =? 1) in
        s ← bfree_if dblk s;
        Some (inl u, s).

Definition iclone_range (src dst : nat) (src_off dst_off len : Z) (s : fs) : option (Z * fs) :=
  if negb (d_type (din src s) =? T_FILE) || negb (d_type (din dst s) =? T_FILE) then Some (-1, s)
  else if negb (i_dev (inode_at src s) =? i_dev (inode_at dst s)) then Some (-1, s)
  else
    let nblocks := len / BSIZE in
    let srcb := src_off / BSIZE in
    let dstb := dst_off / BSIZE in
    '(r, s) ← foldl (λ o bn, '(r, s) ← o;
        match r with
        | inl u => clone_turn src dst (srcb + bn) (dstb + bn) u s
        | inr tt => Some (inr tt, s)
        end) (Some (inl false, s)) (range 0 nblocks);
    match r with
    | inr tt => Some (-1, s)
    | inl u =>
        let newsize := u32 (dst_off + len) in
        let grow := d_size (din dst s) <? newsize in
        let s := if grow then set_din dst (λ d, d <| d_size := newsize |>) s else s in
        Some (0, if u || grow then iupdate dst s else s)
    end.

Definition blocks_equal (b c : Z) (s : fs) : bool :=
  bool_decide (load_bytes (b * BSIZE) (Z.to_nat BSIZE) (dsk s) =
               load_bytes (c * BSIZE) (Z.to_nat BSIZE) (dsk s)).

(** One turn of idedup(): need_iupdate and the number of blocks shared. *)
Definition dedup_turn (src dst : nat) (bn : Z) (u : bool) (shared : Z) (s : fs)
    : option ((bool * Z + unit) * fs) :=
  let sblk := bmap_nalloc src bn s in
  let dblk := bmap_nalloc dst bn s in
  if (sblk =? 0) || (dblk =? 0) || (sblk =? dblk) then Some (inl (u, shared), s)
  else if negb (blocks_equal sblk dblk s) then Some (inl (u, shared), s)
  else
    s ← bref_inc sblk s;
    let '(r, s) := bmap_set_existing dst bn sblk s in
    if r <? 0 then '(_, s) ← bref_dec sblk s; Some (inr tt, s)
    else
      s ← bfree dblk s;
      Some (inl (u || (r =? 1), shared + 1), s).

Definition idedup (src dst : nat) (s : fs) : option (Z * fs) :=
  if negb (d_type (din src s) =? T_FILE) || negb (d_type (din dst s) =? T_FILE) then Some (-1, s)
  else if negb (i_dev (inode_at src s) =? i_dev (inode_at dst s)) then Some (-1, s)
  else if i_inum (inode_at src s) =? i_inum (inode_at dst s) then Some (0, s)
  else
    let nblocks := Z.min (u32 (d_size (din src s) + BSIZE - 1) / BSIZE)
                         (u32 (d_size (din dst s) + BSIZE - 1) / BSIZE) in
    '(r, s) ← foldl (λ o bn, '(r, s) ← o;
        match r with
        | inl (u, shared) => dedup_turn src dst bn u shared s
        | inr tt => Some (inr tt, s)
        end) (Some (inl (false, 0), s)) (range 0 nblocks);
    match r with
    | inr tt => Some (-1, s)
    | inl (u, shared) => Some (shared, if u : bool then iupdate dst s else s)
    end.

(** ** Start-up *)

Definition bump (b : Z) (s : fs) : fs := if b =? 0 then s else add_ref b 1 s.

Definition count_words (b n : Z) (s : fs) : fs := foldl (λ s j, bump (get_word b j s) s) s (range 0 n).

(** The references from one disk inode. *)
Definition bref_inode (inum : Z) (s : fs) : fs :=
  let d := read_dinode inum (dsk s) in
  if d_type d =? 0 then s
  else
    let s := foldl (λ s i, bump (d_addrs d !!! Z.to_nat i) s) s (range 0 NDIRECT) in
    let ind := d_addrs d !!! Z.to_nat NDIRECT in
    let s := if ind =? 0 then s else count_words ind NINDIRECT (bump ind s) in
    let dind := d_addrs d !!! Z.to_nat (NDIRECT + 1) in
    if dind =? 0 then s
    else
      foldl (λ s i,
        let l1 := get_word dind i s in
        if l1 =? 0 then s else count_words l1 NADDR_PER_BLOCK (bump l1 s))
        (bump dind s) (range 0 NADDR_PER_BLOCK).

Definition bref_init (s : fs) : fs :=
  let s := s <| brefs := λ b, if (0 <=? b) && (b <? sb_size sb) && (b <? FSSIZE) then 0 else brefs s b |> in
  foldl (λ s inum, bref_inode inum s) s (range 1 (sb_ninodes sb)).

(** fsinit() after readsb() and the recovery of the log. *)
Definition fsinit (s : fs) : fs := bref_init (s <| hint := 0 |>).

Record fsinfo_rec := mk_fsinfo {
  fi_bsize : Z; fi_total_blocks : Z; fi_free_blocks : Z; fi_total_inodes : Z; fi_free_inodes : Z }.

Definition fsinfo (s : fs) : fsinfo_rec :=
  mk_fsinfo BSIZE (sb_nblocks sb) (count_free_blocks (sb_size sb - sb_nblocks sb) s)
    (sb_ninodes sb) (count_free_inodes s).

End fs.

Definition FSMAGIC : Z := 0x10203040.

(** readsb() and the test of fsinit(). *)
Definition readsb (m : Z → Z) : option superblock :=
  let w i := load32 m (1 * BSIZE + 4 * i) in
  if negb (w 0 =? FSMAGIC) then None
  else Some (mk_sb (w 1) (w 2) (w 3) (w 4) (w 5) (w 6) (w 7)).
