(* ===== verification/FsInv.v ===== *)
(** * Block pointers of the file system

    Every block pointer of a file has a position: a data block, the indirect
    block, the double indirect block or one of its level-1 blocks. [ptr] reads
    the pointer at a position from the inode and the indirect blocks. The
    invariant [inv] relates the pointers, collected in a finite map, to the
    reference counts and to the bitmap; the lemmas of this file are the steps
    that the operations of Fs.v are made of: allocate and free a block, take a
    reference, set one pointer. *)

From stdpp Require Import list_numbers gmap.
From S2P Require Import Prelude Mem Xattr Fs.

(** ** Positions *)

Inductive pos := PData (bn : Z) | PInd | PDind | PL1 (k : Z).

#[export] Instance pos_eq_dec : EqDecision pos.
Proof. solve_decision. Defined.

#[export] Instance pos_countable : Countable pos.
Proof.
  refine (inj_countable'
    (λ p, match p with PData bn => inl bn | PL1 k => inr (inl k) | PInd => inr (inr true) | PDind => inr (inr false) end)
    (λ x, match x with inl bn => PData bn | inr (inl k) => PL1 k | inr (inr true) => PInd | inr (inr false) => PDind end) _).
  by intros [].
Defined.

Definition valid_pos (p : pos) : Prop :=
  match p with PData bn => 0 ≤ bn < MAXFILE | PL1 k => 0 ≤ k < NADDR_PER_BLOCK | _ => True end.

Definition is_meta (p : pos) : bool := match p with PData _ => false | _ => true end.

(** The position of the block that holds the pointer; [None] for the inode. *)
Definition parent (p : pos) : option pos :=
  match p with
  | PData bn => if bn <? NDIRECT then None
                else if bn <? NDIRECT + NINDIRECT then Some PInd
                else Some (PL1 ((bn - NDIRECT - NINDIRECT) / NADDR_PER_BLOCK))
  | PL1 _ => Some PDind
  | _ => None
  end.

(** The index of the pointer in [addrs] or in the indirect block. *)
Definition index (p : pos) : Z :=
  match p with
  | PData bn => if bn <? NDIRECT then bn
                else if bn <? NDIRECT + NINDIRECT then bn - NDIRECT
                else (bn - NDIRECT - NINDIRECT) `mod` NADDR_PER_BLOCK
  | PInd => NDIRECT
  | PDind => NDIRECT + 1
  | PL1 k => k
  end.

Definition rank (p : pos) : nat :=
  match parent p with
  | None => 0
  | Some q => match parent q with None => 1 | Some _ => 2 end
  end.

Ltac layout := unfold MAXFILE, NDINDIRECT, NINDIRECT, NADDR_PER_BLOCK, NDIRECT, BPB, IPB, BSIZE in *.
Ltac layout_lia := layout; change (1024 / 4) with 256 in *; Z.to_euclidean_division_equations; lia.

Lemma parent_valid p q : valid_pos p → parent p = Some q → valid_pos q ∧ is_meta q = true.
Proof.
  destruct p as [bn| | |k]; simpl; try done.
  - intros Hv. case_tests; intros [= <-]; split; try done; simpl. layout_lia.
  - by intros _ [= <-].
Qed.

Lemma parent_rank p q : parent p = Some q → (rank q < rank p)%nat.
Proof.
  intros H. assert (q = PInd ∨ q = PDind ∨ ∃ k, q = PL1 k) as Hq.
  { revert H. destruct p; simpl; case_tests; naive_solver. }
  unfold rank at 2. rewrite H. destruct Hq as [->|[->|[k ->]]]; cbn; lia.
Qed.

Lemma index_range p : valid_pos p → 0 ≤ index p ∧
  match parent p with None => index p < 13 | Some _ => index p < NADDR_PER_BLOCK end.
Proof.
  destruct p as [bn| | |k]; simpl; intros Hv; case_tests; layout_lia.
Qed.

Lemma pos_inj p q : valid_pos p → valid_pos q → parent p = parent q → index p = index q → p = q.
Proof.
  intros Hp Hq. destruct p as [bn| | |k], q as [bn'| | |k']; simpl in *; case_tests;
    intros [=]; intros; try done; f_equal; layout_lia.
Qed.

(** ** The pointers of a state *)

Definition ROOTDEV : Z := 1.

Definition data_start (sb : superblock) : Z := sb_size sb - sb_nblocks sb.

(** What mkfs lays out: inodes, then the bitmap, then (after the swap area) data. *)
Record sb_wf (sb : superblock) : Prop := {
  sb_inodes : 2 ≤ sb_ninodes sb ≤ 30000;
  sb_start : 0 < sb_inodestart sb;
  sb_bmap : sb_inodestart sb + sb_ninodes sb / IPB + 1 ≤ sb_bmapstart sb;
  sb_data : sb_bmapstart sb + sb_size sb / BPB + 1 ≤ data_start sb;
  sb_nb : 0 ≤ sb_nblocks sb;
  sb_max : sb_size sb ≤ FSSIZE;
}.

Record dinode_ok (d : dinode) : Prop := {
  do_mode : 0 ≤ d_mode d < 256;
  do_type : 0 ≤ d_type d < 256;
  do_major : -2 ^ 15 ≤ d_major d < 2 ^ 15;
  do_minor : -2 ^ 15 ≤ d_minor d < 2 ^ 15;
  do_nlink : -2 ^ 15 ≤ d_nlink d < 2 ^ 15;
  do_size : 0 ≤ d_size d < 2 ^ 32;
  do_len : length (d_addrs d) = 13%nat;
  do_addrs : Forall (λ a, 0 ≤ a < 2 ^ 32) (d_addrs d);
}.

(** The cache entry is the current version of the inode [inum]. *)
Definition holds_inum (inum : Z) (i : inode) : bool := (0 <? i_ref i) && i_valid i && (i_inum i =? inum).

Definition owns (s : fs) (ip : nat) (inum : Z) : Prop :=
  ∃ i, icache s !! ip = Some i ∧ 0 < i_ref i ∧ i_valid i = true ∧ i_inum i = inum.

Definition word (b j : Z) (s : fs) : Z := if b =? 0 then 0 else get_word b j s.

Section ptr.
Context (sb : superblock).

Definition inum_ok (inum : Z) : Prop := 1 ≤ inum < sb_ninodes sb.

Record cache_ok (s : fs) : Prop := {
  c_uniq : ∀ ip1 ip2 i1 i2, icache s !! ip1 = Some i1 → icache s !! ip2 = Some i2 →
    0 < i_ref i1 → 0 < i_ref i2 → i_inum i1 = i_inum i2 → ip1 = ip2;
  c_entry : ∀ ip i, icache s !! ip = Some i → 0 < i_ref i → i_dev i = ROOTDEV ∧ inum_ok (i_inum i);
  c_valid : ∀ ip i, icache s !! ip = Some i → 0 < i_ref i → i_valid i = true → dinode_ok (i_d i);
}.

(** The current version of an inode, in the cache or on disk. *)
Definition dnode (s : fs) (inum : Z) : dinode :=
  match find_index (holds_inum inum) (icache s) with
  | Some ip => din ip s
  | None => read_dinode sb inum (dsk s)
  end.

Definition faddr (s : fs) (inum i : Z) : Z := d_addrs (dnode s inum) !!! Z.to_nat i.

(** The block pointer at a position, 0 when there is none. *)
Definition ptr (s : fs) (inum : Z) (p : pos) : Z :=
  match parent p with
  | None => faddr s inum (index p)
  | Some q =>
      word (match parent q with
            | None => faddr s inum (index q)
            | Some r => word (faddr s inum (index r)) (index q) s
            end) (index p) s
  end.

Lemma ptr_unfold s inum p : valid_pos p → ptr s inum p =
  match parent p with
  | None => faddr s inum (index p)
  | Some q => word (ptr s inum q) (index p) s
  end.
Proof.
  intros Hv. unfold ptr at 1. destruct (parent p) as [q|] eqn:Eq; [|done]. f_equal. unfold ptr.
  destruct (parent q) as [r|] eqn:Er; [|done]. f_equal.
  destruct (parent r) as [t|] eqn:Et; [|done]. exfalso.
  apply parent_rank in Et, Er, Eq. assert (rank p ≤ 2)%nat; [|lia].
  unfold rank. destruct (parent p) as [y|]; [|lia]. destruct (parent y); lia.
Qed.

Lemma bmap_nalloc_ptr s ip inum bn : dnode s inum = din ip s → 0 ≤ bn < MAXFILE →
  bmap_nalloc ip bn s = ptr s inum (PData bn).
Proof.
  intros Hd Hbn. assert (∀ i, faddr s inum i = get_addr ip i s) as Hf.
  { intros i. unfold faddr, get_addr. by rewrite Hd. }
  unfold bmap_nalloc, ptr. cbn [parent index].
  destruct (Z.ltb_spec bn NDIRECT); [by rewrite Hf|].
  destruct (Z.ltb_spec (bn - NDIRECT) NINDIRECT), (Z.ltb_spec bn (NDIRECT + NINDIRECT)); try lia.
  - cbn [parent index]. by rewrite Hf.
  - rewrite (proj2 (Z.ltb_lt _ _)) by (unfold MAXFILE in Hbn; lia). cbn [parent index].
    rewrite Hf. unfold word. destruct (get_addr ip (NDIRECT + 1) s =? 0); done.
Qed.

Lemma dnode_owns s ip inum : cache_ok s → owns s ip inum → dnode s inum = din ip s.
Proof.
  intros Hc (i & Hi & Hr & Hv & Hn). unfold dnode.
  destruct (find_index (holds_inum inum) (icache s)) as [k|] eqn:E.
  - apply find_index_Some in E as [(j & Hj & Hh) _]. unfold holds_inum in Hh. bool_facts.
    assert (k = ip) as -> by (eapply (c_uniq s Hc); eauto; congruence). done.
  - pose proof (find_index_None _ _ E i (list_elem_of_lookup_2 _ _ _ Hi)) as Hf.
    unfold holds_inum in Hf. rewrite Hv, (proj2 (Z.ltb_lt _ _) Hr), (proj2 (Z.eqb_eq _ _) Hn) in Hf. done.
Qed.

(** ** The invariant *)

Abbreviation ptrs := (gmap (Z * pos) Z).

Definition count (b : Z) (P : ptrs) : Z := Z.of_nat (size (filter (λ kv, kv.2 = b) P)).

Definition bit (b : Z) (s : fs) : bool := get_bit sb b (b `mod` BPB) s.

Record linked (s : fs) (P : ptrs) : Prop := {
  l_ptr : ∀ inum p, inum_ok inum → valid_pos p →
    P !! (inum, p) = if ptr s inum p =? 0 then None else Some (ptr s inum p);
  l_dom : ∀ inum p b, P !! (inum, p) = Some b →
    inum_ok inum ∧ valid_pos p ∧ data_start sb ≤ b < sb_size sb;
  l_meta : ∀ k1 k2 b, P !! k1 = Some b → P !! k2 = Some b → is_meta k1.2 = true → k1 = k2;
}.

Record counted (s : fs) (P : ptrs) (ext : Z → Z) : Prop := {
  r_ref : ∀ b, data_start sb ≤ b < sb_size sb → brefs s b = count b P + ext b;
  r_nonneg : ∀ b, 0 ≤ brefs s b;
  r_bit : ∀ b, 0 ≤ b < sb_size sb → bit b s = true ↔ b < data_start sb ∨ brefs s b ≠ 0;
}.

Record inv (s : fs) (P : ptrs) (ext : Z → Z) : Prop := {
  v_linked : linked s P;
  v_counted : counted s P ext;
  v_cache : cache_ok s;
  v_bytes : ∀ x, 0 ≤ dsk s x < 256;
  v_hint : 0 ≤ hint s;
}.

(** Bytes of a block. *)
Definition same_block (b : Z) (s s' : fs) : Prop :=
  ∀ x, b * BSIZE ≤ x < b * BSIZE + BSIZE → dsk s' x = dsk s x.

Lemma get_word_same b j s s' : same_block b s s' → 0 ≤ j < NADDR_PER_BLOCK → get_word b j s' = get_word b j s.
Proof. intros H Hj. unfold get_word. apply load32_ext. intros x Hx. apply H. layout_lia. Qed.

(** ** Frames *)

Lemma ptr_frame s s' P : linked s P →
  (∀ inum i, inum_ok inum → 0 ≤ i < 13 → faddr s' inum i = faddr s inum i) →
  (∀ k b j, P !! k = Some b → is_meta k.2 = true → 0 ≤ j < NADDR_PER_BLOCK → get_word b j s' = get_word b j s) →
  ∀ inum p, inum_ok inum → valid_pos p → ptr s' inum p = ptr s inum p.
Proof.
  intros Hl Ha Hw inum p Hn. remember (rank p) as r eqn:Hr. revert p Hr.
  induction (lt_wf r) as [r _ IH]. intros p -> Hv. rewrite !ptr_unfold by done.
  pose proof (index_range p Hv) as Hi. destruct (parent p) as [q|] eqn:Eq; [|apply Ha; [done|lia]].
  destruct (parent_valid p q Hv Eq) as [Hvq Hmq].
  rewrite (IH (rank q) (parent_rank p q Eq) q eq_refl Hvq).
  pose proof (l_ptr s P Hl inum q Hn Hvq) as Hp. unfold word.
  destruct (Z.eqb_spec (ptr s inum q) 0); [done|]. by apply (Hw (inum, q)).
Qed.

Lemma linked_frame s s' P : linked s P →
  (∀ inum i, inum_ok inum → 0 ≤ i < 13 → faddr s' inum i = faddr s inum i) →
  (∀ k b j, P !! k = Some b → is_meta k.2 = true → 0 ≤ j < NADDR_PER_BLOCK → get_word b j s' = get_word b j s) →
  linked s' P.
Proof.
  intros Hl Ha Hw. pose proof (ptr_frame s s' P Hl Ha Hw) as Hp. destruct Hl as [H1 H2 H3]. split; [|done..].
  intros inum p Hn Hv. rewrite Hp by done. by apply H1.
Qed.

(** A pointer block that is set belongs to its position alone. *)
Lemma ptr_block s P inum q b : linked s P → inum_ok inum → valid_pos q →
  ptr s inum q = b → b ≠ 0 → P !! (inum, q) = Some b.
Proof.
  intros Hl Hn Hv <- Hb. rewrite (l_ptr s P Hl) by done. by rewrite (proj2 (Z.eqb_neq _ _) Hb).
Qed.

(** ** Setting one pointer *)

Section set_ptr.
Context (s s' : fs) (P : ptrs) (inum : Z) (p : pos) (v : Z).
Context (Hl : linked s P) (Hn : inum_ok inum) (Hv : valid_pos p).
(** No pointer has its block at [p]. *)
Context (Hleaf : ∀ n q, P !! (n, q) ≠ None → n = inum → parent q ≠ Some p).
(** The word that holds the pointer is set to [v]; no other word changes. *)
Context (Haddr : ∀ n i, inum_ok n → 0 ≤ i < 13 → faddr s' n i =
  if decide (n = inum ∧ parent p = None ∧ i = index p) then v else faddr s n i).
Context (Hword : ∀ k b j, P !! k = Some b → is_meta k.2 = true → 0 ≤ j < NADDR_PER_BLOCK →
  get_word b j s' = if decide (k.1 = inum ∧ parent p = Some k.2 ∧ j = index p) then v else get_word b j s).
(** The block that holds the pointer exists. *)
Context (Hpar : ∀ q, parent p = Some q → ptr s inum q ≠ 0).
(** A new pointer block is empty. *)
Context (Hnew : is_meta p = true → v ≠ 0 → ∀ j, 0 ≤ j < NADDR_PER_BLOCK → get_word v j s' = 0).

Lemma ptr_set n q : inum_ok n → valid_pos q →
  ptr s' n q = if decide (n = inum ∧ q = p) then v else ptr s n q.
Proof using All.
  intros Hnn. remember (rank q) as r eqn:Hr. revert q Hr.
  induction (lt_wf r) as [r _ IH]. intros q -> Hvq.
  rewrite !ptr_unfold by done. pose proof (index_range q Hvq) as Hi.
  destruct (parent q) as [q1|] eqn:Eq.
  - destruct (parent_valid q q1 Hvq Eq) as [Hv1 Hm1].
    rewrite (IH (rank q1) (parent_rank q q1 Eq) q1 eq_refl Hv1).
    destruct (decide (n = inum ∧ q1 = p)) as [[-> ->]|Hne].
    + (* a child of [p]: there was none, and there is none *)
      rewrite decide_False by (intros [_ ->]; apply parent_rank in Eq; lia).
      assert (word (ptr s inum p) (index q) s = 0) as ->.
      { pose proof (l_ptr s P Hl inum q Hn Hvq) as Hq. rewrite ptr_unfold, Eq in Hq by done.
        destruct (Z.eqb_spec (word (ptr s inum p) (index q) s) 0); [done|]. exfalso.
        apply (Hleaf inum q); [by rewrite Hq|done|done]. }
      unfold word. destruct (Z.eqb_spec v 0); [done|]. by apply Hnew.
    + unfold word. destruct (Z.eqb_spec (ptr s n q1) 0) as [E0|E0].
      * rewrite decide_False; [done|]. intros [-> ->]. by apply (Hpar q1).
      * rewrite (Hword (n, q1) (ptr s n q1)) by (done || by eapply ptr_block). cbn [fst snd].
        destruct (decide (n = inum ∧ parent p = Some q1 ∧ index q = index p)) as [(-> & Ep & Ei)|Hno].
        -- rewrite decide_True; [done|]. split; [done|]. apply pos_inj; try done. congruence.
        -- rewrite decide_False; [done|]. intros [-> ->]. apply Hno. done.
  - rewrite Haddr by done.
    destruct (decide (n = inum ∧ parent p = None ∧ index q = index p)) as [(-> & Ep & Ei)|Hno].
    + rewrite decide_True; [done|]. split; [done|]. apply pos_inj; try done. congruence.
    + rewrite decide_False; [done|]. intros [-> ->]. apply Hno. done.
Qed.

Definition set_P : ptrs := if v =? 0 then delete (inum, p) P else <[(inum, p) := v]> P.

(** The new pointer points into the data area, and a block shared by two
    pointers is a data block. *)
Context (Hrange : v ≠ 0 → data_start sb ≤ v < sb_size sb).
Context (Hexcl : v ≠ 0 → ∀ k, P !! k = Some v → k ≠ (inum, p) → is_meta k.2 = false ∧ is_meta p = false).

Lemma linked_set : linked s' set_P.
Proof using All.
  split.
  - intros n q Hnn Hvq. rewrite ptr_set by done. unfold set_P. destruct (Z.eqb_spec v 0) as [->|Hv0].
    + destruct (decide (n = inum ∧ q = p)) as [[-> ->]|Hne]; [by rewrite lookup_delete_eq|].
      rewrite lookup_delete_ne by (intros [=]; naive_solver). by apply (l_ptr s P Hl).
    + destruct (decide (n = inum ∧ q = p)) as [[-> ->]|Hne].
      * by rewrite lookup_insert_eq, (proj2 (Z.eqb_neq _ _) Hv0).
      * rewrite lookup_insert_ne by (intros [=]; naive_solver). by apply (l_ptr s P Hl).
  - intros n q b. unfold set_P. destruct (Z.eqb_spec v 0) as [->|Hv0].
    + rewrite lookup_delete_Some. intros [_ H]. by apply (l_dom s P Hl).
    + rewrite lookup_insert_Some. intros [[[= <- <-] <-]|[_ H]]; [by auto|by apply (l_dom s P Hl)].
  - intros k1 k2 b. unfold set_P. destruct (Z.eqb_spec v 0) as [->|Hv0].
    + rewrite !lookup_delete_Some. intros [_ H1] [_ H2]. by apply (l_meta s P Hl) with b.
    + rewrite !lookup_insert_Some. intros [[<- <-]|[Hne1 H1]] [[<- E]|[Hne2 H2]] Hm.
      * done.
      * destruct (Hexcl Hv0 k2 H2) as [_ Hf]; [done|]. cbn in Hm. congruence.
      * subst. destruct (Hexcl Hv0 k1 H1) as [Hf _]; [done|]. congruence.
      * by apply (l_meta s P Hl) with b.
Qed.

End set_ptr.


(** ** Counting references *)

Definition one (b b' : Z) : Z := if decide (b = b') then 1 else 0.

Lemma count_insert b k v P : P !! k = None → count b (<[k := v]> P) = count b P + one v b.
Proof.
  intros Hk. unfold count, one. rewrite map_filter_insert. cbn [snd].
  destruct (decide (v = b)).
  - rewrite map_size_insert_None by (apply map_lookup_filter_None; by left). lia.
  - rewrite delete_id by done. lia.
Qed.

Lemma count_delete b k v P : P !! k = Some v → count b (delete k P) = count b P - one v b.
Proof.
  intros Hk. rewrite <-(insert_delete_id P k v Hk) at 2. rewrite count_insert by apply lookup_delete_eq. lia.
Qed.

Lemma count_nonneg b P : 0 ≤ count b P.
Proof. unfold count. lia. Qed.

Lemma count_pos b k P : P !! k = Some b → 1 ≤ count b P.
Proof.
  intros Hk. pose proof (count_delete b k b P Hk) as H. pose proof (count_nonneg b (delete k P)).
  unfold one in H. rewrite decide_True in H by done. lia.
Qed.

Lemma count_two b k1 k2 P : P !! k1 = Some b → P !! k2 = Some b → k1 ≠ k2 → 2 ≤ count b P.
Proof.
  intros H1 H2 Hne. pose proof (count_delete b k1 b P H1) as H.
  pose proof (count_pos b k2 (delete k1 P)) as Hp. rewrite lookup_delete_ne in Hp by done.
  unfold one in H. rewrite decide_True in H by done. specialize (Hp H2). lia.
Qed.

Lemma count_zero b P : (∀ k, P !! k ≠ Some b) → count b P = 0.
Proof.
  intros H. unfold count. replace (filter (λ kv : Z * pos * Z, kv.2 = b) P) with (∅ : ptrs); [done|].
  symmetry. apply map_empty. intros k. apply map_lookup_filter_None. right. intros x Hx E. simpl in E. subst.
  by apply (H k).
Qed.

(** A block that several references share is a data block. *)
Lemma count_meta s P k b : linked s P → P !! k = Some b → is_meta k.2 = true → count b P = 1.
Proof.
  intros Hl Hk Hm. pose proof (count_delete b k b P Hk) as H. rewrite (count_zero b (delete k P)) in H.
  - unfold one in H. rewrite decide_True in H by done. lia.
  - intros k' [Hne Hk']%lookup_delete_Some. apply Hne. by apply (l_meta s P Hl) with b.
Qed.

Lemma size_list_to_set_le `{Countable A} (l : list A) : (size (list_to_set l : gset A) ≤ length l)%nat.
Proof.
  induction l as [|x l IH]; [done|]. cbn [list_to_set foldr length].
  change (list_to_set (x :: l)) with ({[x]} ∪ list_to_set l : gset A).
  rewrite size_union_alt, size_singleton.
  assert (size ((list_to_set l : gset A) ∖ {[x]}) ≤ size (list_to_set l : gset A))%nat; [|lia].
  apply subseteq_size. set_solver.
Qed.

(** The number of pointers is bounded by the number of positions. *)
Definition positions : list pos :=
  [PInd; PDind] ++ (PL1 <$> range 0 NADDR_PER_BLOCK) ++ (PData <$> range 0 MAXFILE).

Lemma positions_complete p : valid_pos p → p ∈ positions.
Proof.
  intros Hv. apply list_elem_of_In. unfold positions. rewrite !in_app_iff.
  assert (∀ (f : Z → pos) n x, 0 ≤ x < n → In (f x) (f <$> range 0 n)) as Hf.
  { intros f n x Hx. apply in_map, list_elem_of_In. unfold range. apply elem_of_seqZ. lia. }
  destruct p as [bn| | |k]; simpl in Hv.
  - right. right. by apply Hf.
  - left. by left.
  - left. right. by left.
  - right. left. by apply Hf.
Qed.

Lemma count_bound s P b : sb_wf sb → linked s P → count b P < 2 ^ 31.
Proof.
  intros Hw Hl. unfold count.
  assert (size (filter (λ kv : Z * pos * Z, kv.2 = b) P) ≤ size P)%nat as H1.
  { apply map_subseteq_size, map_filter_subseteq. }
  set (keys := list_prod (range 1 (sb_ninodes sb)) positions).
  assert (dom P ⊆ (list_to_set keys : gset (Z * pos))) as Hsub.
  { intros [n p] [v Hx]%elem_of_dom. destruct (l_dom s P Hl n p v Hx) as (Hn & Hv & _).
    apply elem_of_list_to_set, list_elem_of_In, in_prod; apply list_elem_of_In.
    - unfold range. apply elem_of_seqZ. unfold inum_ok in Hn. lia.
    - by apply positions_complete. }
  assert (size P ≤ length keys)%nat as H2.
  { rewrite <-size_dom. etransitivity; [by apply subseteq_size|]. apply size_list_to_set_le. }
  assert (Z.of_nat (length keys) ≤ 30000 * 66061) as H3.
  { unfold keys. rewrite length_prod. unfold range. rewrite length_seqZ. rewrite Nat2Z.inj_mul.
    unfold positions, range. rewrite !length_app, !length_fmap, !length_seqZ. cbn [length].
    pose proof (sb_inodes _ Hw). layout. change (1024 / 4) with 256. lia. }
  lia.
Qed.


(** ** The bitmap *)

(** The byte of the bitmap that holds the bit of block [b]. *)
Definition bit_addr (b : Z) : Z := sb_bmapstart sb * BSIZE + b / 8.

Lemma bblock_addr b bi : b `mod` BPB = 0 → 0 ≤ bi < BPB →
  BBLOCK sb b * BSIZE + bi / 8 = bit_addr (b + bi).
Proof. intros H1 H2. unfold BBLOCK, bit_addr. layout_lia. Qed.

Lemma bit_addr_own b : BBLOCK sb b * BSIZE + (b `mod` BPB) / 8 = bit_addr b.
Proof. unfold BBLOCK, bit_addr. layout_lia. Qed.

Lemma land_bit x k : 0 ≤ k → negb (Z.land x (Z.shiftl 1 k) =? 0) = Z.testbit x k.
Proof.
  intros Hk. rewrite Z.shiftl_1_l. destruct (Z.testbit x k) eqn:E.
  - apply negb_true_iff, Z.eqb_neq. intros H. apply (f_equal (λ z, Z.testbit z k)) in H.
    rewrite Z.land_spec, E, Z.pow2_bits_true, Z.bits_0 in H by done. done.
  - apply negb_false_iff, Z.eqb_eq. apply Z.bits_inj'. intros n Hn.
    rewrite Z.land_spec, Z.bits_0. destruct (decide (n = k)) as [->|]; [by rewrite E|].
    rewrite Z.pow2_bits_false by done. apply andb_false_r.
Qed.

Lemma bit_testbit b s : bit b s = Z.testbit (dsk s (bit_addr b)) (b `mod` 8).
Proof.
  unfold bit, get_bit. rewrite bit_addr_own, land_bit by (apply Z.mod_pos_bound; lia).
  f_equal. layout_lia.
Qed.

Lemma get_bit_in b bi s : b `mod` BPB = 0 → 0 ≤ bi < BPB → get_bit sb b bi s = bit (b + bi) s.
Proof.
  intros H1 H2. rewrite bit_testbit. unfold get_bit.
  rewrite bblock_addr, land_bit by (done || apply Z.mod_pos_bound; lia). f_equal. layout_lia.
Qed.

Lemma bit_same b s s' : dsk s' (bit_addr b) = dsk s (bit_addr b) → bit b s' = bit b s.
Proof. intros H. by rewrite !bit_testbit, H. Qed.

Lemma byte_lor x k : 0 ≤ x < 256 → 0 ≤ k < 8 → 0 ≤ Z.lor x (Z.shiftl 1 k) < 256.
Proof.
  intros Hx Hk. assert (0 ≤ Z.shiftl 1 k < 256) as Hs.
  { rewrite Z.shiftl_1_l. split; [lia|]. change 256 with (2 ^ 8). apply Z.pow_lt_mono_r; lia. }
  split; [apply Z.lor_nonneg; lia|].
  destruct (Z.eq_dec (Z.lor x (Z.shiftl 1 k)) 0) as [->|Hne]; [lia|].
  change 256 with (2 ^ 8). assert (0 ≤ Z.lor x (Z.shiftl 1 k)) by (apply Z.lor_nonneg; lia).
  apply Z.log2_lt_pow2; [lia|]. rewrite Z.log2_lor by lia.
  assert (∀ y, 0 ≤ y < 256 → Z.log2 y < 8) as Hl.
  { intros y Hy. destruct (Z.eq_dec y 0) as [->|]; [done|]. apply Z.log2_lt_pow2; lia. }
  apply Z.max_lub_lt; by apply Hl.
Qed.

Lemma byte_ldiff x y : 0 ≤ x < 256 → 0 ≤ Z.ldiff x y < 256.
Proof.
  intros Hx. assert (0 ≤ Z.ldiff x y) as H0 by (apply Z.ldiff_nonneg; lia). split; [done|].
  assert (Z.ldiff x y ≤ x); [|lia].
  apply Z.ldiff_le; [lia|]. apply Z.bits_inj'. intros n Hn. rewrite !Z.ldiff_spec, Z.bits_0.
  destruct (Z.testbit x n), (Z.testbit y n); done.
Qed.

(** A write of the byte of block [b] that sets its bit to [v]. *)
Record bit_write (b : Z) (v : bool) (s s' : fs) : Prop := {
  bw_bit : ∀ b', bit b' s' = if decide (b' = b) then v else bit b' s;
  bw_dsk : ∀ x, x ≠ bit_addr b → dsk s' x = dsk s x;
  bw_bytes : (∀ x, 0 ≤ dsk s x < 256) → ∀ x, 0 ≤ dsk s' x < 256;
  bw_rest : brefs s' = brefs s ∧ icache s' = icache s ∧ hint s' = hint s ∧ xattrs s' = xattrs s;
}.

Lemma bit_write_put b v s w a : a = bit_addr b →
  (∀ k, 0 ≤ k → Z.testbit w k = if decide (k = b `mod` 8) then v else Z.testbit (dsk s a) k) →
  (0 ≤ dsk s a < 256 → 0 ≤ w < 256) →
  bit_write b v s (s <| dsk := store_bytes a [w] (dsk s) |>).
Proof.
  intros -> Hw Hr.
  assert (∀ x, store_bytes (bit_addr b) [w] (dsk s) x = if decide (x = bit_addr b) then w else dsk s x) as Hst.
  { intros x. case_decide as E.
    - subst x. rewrite store_bytes_in by (cbn; lia). by rewrite Z.sub_diag.
    - apply store_bytes_out. cbn. lia. }
  split; try done.
  - intros b'. rewrite !bit_testbit. cbn [dsk upd dsk_set]. rewrite Hst.
    assert (0 ≤ b' `mod` 8 < 8) by (apply Z.mod_pos_bound; lia).
    destruct (decide (bit_addr b' = bit_addr b)) as [E|E].
    + rewrite Hw by lia. rewrite E. destruct (decide (b' `mod` 8 = b `mod` 8)), (decide (b' = b)); try done;
        exfalso; unfold bit_addr in E; layout_lia.
    + rewrite decide_False; [done|]. by intros ->.
  - intros x Hx. cbn [dsk upd dsk_set]. by rewrite Hst, decide_False.
  - intros Hb x. cbn [dsk upd dsk_set]. rewrite Hst. case_decide; [|done]. by apply Hr.
Qed.

Lemma or_bit_write b bi s : b `mod` BPB = 0 → 0 ≤ bi < BPB → bit_write (b + bi) true s (or_bit sb b bi s).
Proof.
  intros H1 H2. pose proof (Z.mod_pos_bound bi 8 ltac:(lia)) as Hm.
  assert ((b + bi) `mod` 8 = bi `mod` 8) as E by layout_lia.
  unfold or_bit, put_byte. apply bit_write_put.
  - by apply bblock_addr.
  - intros k Hk. rewrite Z.lor_spec, Z.shiftl_1_l, E. case_decide as Ek.
    + subst k. rewrite Z.pow2_bits_true by lia. apply orb_true_r.
    + rewrite Z.pow2_bits_false by done. apply orb_false_r.
  - intros Hr. apply byte_lor; lia.
Qed.

Lemma clear_bit_write b s : bit_write b false s (clear_bit sb b (b `mod` BPB) s).
Proof.
  pose proof (Z.mod_pos_bound (b `mod` BPB) 8 ltac:(lia)) as Hm.
  assert (b `mod` 8 = (b `mod` BPB) `mod` 8) as E by layout_lia.
  unfold clear_bit, put_byte. apply bit_write_put.
  - apply bit_addr_own.
  - intros k Hk. rewrite Z.ldiff_spec, Z.shiftl_1_l, E. case_decide as Ek.
    + subst k. rewrite Z.pow2_bits_true by lia. apply andb_false_r.
    + rewrite Z.pow2_bits_false by done. apply andb_true_r.
  - intros Hr. by apply byte_ldiff.
Qed.


(** ** Regions of the disk *)

Context (Hsb : sb_wf sb).

Definition same_inodes (s s' : fs) : Prop :=
  ∀ x, sb_inodestart sb * BSIZE ≤ x < sb_bmapstart sb * BSIZE → dsk s' x = dsk s x.

Lemma dinode_addr_range inum : inum_ok inum →
  sb_inodestart sb * BSIZE ≤ dinode_addr sb inum ∧ dinode_addr sb inum + 64 ≤ sb_bmapstart sb * BSIZE.
Proof.
  intros Hn. destruct Hsb. unfold inum_ok in Hn. unfold dinode_addr, IBLOCK. layout. change (1024 / 64) with 16 in *.
  Z.to_euclidean_division_equations; lia.
Qed.

Lemma read_dinode_ext inum m m' :
  (∀ x, dinode_addr sb inum ≤ x < dinode_addr sb inum + 64 → m' x = m x) →
  read_dinode sb inum m' = read_dinode sb inum m.
Proof.
  intros H. unfold read_dinode. set (a := dinode_addr sb inum) in *.
  rewrite !(load_le_ext 2 m' m) by (intros; apply H; lia).
  rewrite (load32_ext m' m (a + 8)) by (intros; apply H; lia). rewrite !H by lia. f_equal.
  apply list_fmap_ext. intros i x Hx. apply lookup_seqZ in Hx.
  apply load32_ext. intros y Hy. apply H. lia.
Qed.

Lemma dnode_frame s s' inum : inum_ok inum → icache s' = icache s → same_inodes s s' →
  dnode s' inum = dnode s inum.
Proof.
  intros Hn Hc Hi. unfold dnode, din, inode_at. rewrite Hc. case_match; [done|].
  apply read_dinode_ext. intros x Hx. apply Hi. pose proof (dinode_addr_range inum Hn). lia.
Qed.

Lemma cache_ok_frame s s' : cache_ok s → icache s' = icache s → cache_ok s'.
Proof. intros [H1 H2 H3] E. split; rewrite E; done. Qed.

Lemma inv_frame s s' P ext ext' : inv s P ext →
  icache s' = icache s → same_inodes s s' →
  (∀ k b, P !! k = Some b → is_meta k.2 = true → same_block b s s') →
  (∀ x, 0 ≤ dsk s' x < 256) → 0 ≤ hint s' → counted s' P ext' → inv s' P ext'.
Proof.
  intros Hi Hc Hin Hm Hb Hh Hct. split; try done; [|by eapply cache_ok_frame, Hc; apply Hi].
  apply (linked_frame s s'); [apply Hi|..].
  - intros inum i Hn _. unfold faddr. by rewrite (dnode_frame s s').
  - intros k b j Hk Hmk Hj. apply get_word_same; [by eapply Hm|done].
Qed.

Lemma bit_addr_range b : 0 ≤ b < sb_size sb →
  sb_bmapstart sb * BSIZE ≤ bit_addr b < data_start sb * BSIZE.
Proof. intros Hb. destruct Hsb. unfold bit_addr. layout_lia. Qed.

(** ** Allocation *)

Lemma scan_bits_Some turns b bi bi_end s x : scan_bits sb turns b bi bi_end s = Some x →
  bi ≤ x < bi_end ∧ b + x < sb_size sb ∧ get_bit sb b x s = false.
Proof.
  revert bi. induction turns as [|n IH]; intros bi; cbn [scan_bits]; [done|].
  destruct (Z.ltb_spec bi bi_end), (Z.ltb_spec (b + bi) (sb_size sb)); cbn [andb]; try done.
  destruct (get_bit sb b bi s) eqn:E; cbn [negb].
  - intros (? & ? & ?)%IH. split_and!; (done || lia).
  - intros [= <-]. split_and!; (done || lia).
Qed.

Lemma scan_bits_None turns b bi bi_end s : bi_end - bi ≤ Z.of_nat turns →
  scan_bits sb turns b bi bi_end s = None →
  ∀ x, bi ≤ x < bi_end → b + x < sb_size sb → get_bit sb b x s = true.
Proof.
  revert bi. induction turns as [|n IH]; intros bi Hn; cbn [scan_bits]; [lia|].
  destruct (Z.ltb_spec bi bi_end), (Z.ltb_spec (b + bi) (sb_size sb)); cbn [andb]; try (intros; lia).
  destruct (get_bit sb b bi s) eqn:E; cbn [negb]; [|done].
  intros Hx x Hr Hs. destruct (decide (x = bi)) as [->|]; [done|]. apply (IH (bi + 1)); (done || lia).
Qed.

(** A clear bit that a scan reports. *)
Definition clear_at (b bi : Z) (s : fs) : Prop :=
  b `mod` BPB = 0 ∧ 0 ≤ bi < BPB ∧ 0 ≤ b ∧ b + bi < sb_size sb ∧ bit (b + bi) s = false.

Lemma scan_up_spec turns b b0 start s : 0 ≤ b0 ≤ start → start < b0 + BPB → b `mod` BPB = 0 → b0 ≤ b →
  sb_size sb ≤ b + BPB * Z.of_nat turns →
  match scan_up sb turns b b0 start s with
  | Some (b', bi) => clear_at b' bi s
  | None => ∀ x, b ≤ x < sb_size sb → start ≤ x → bit x s = true
  end.
Proof.
  intros H0 H1. revert b. induction turns as [|n IH]; intros b Hb Hb0 Ht; cbn [scan_up]; [lia|].
  destruct (Z.ltb_spec b (sb_size sb)) as [Hlt|Hge]; [|intros; lia].
  assert (0 < BPB) by layout_lia.
  set (lo := if b =? b0 then start - b else 0). assert (0 ≤ lo) by (unfold lo; destruct (b =? b0) eqn:?; bool_facts; lia).
  destruct (scan_bits sb (Z.to_nat BPB) b lo BPB s) as [bi|] eqn:E.
  - apply scan_bits_Some in E as (Hbi & Hs & Hg). rewrite get_bit_in in Hg by (done || lia).
    split_and!; (done || lia).
  - pose proof (scan_bits_None (Z.to_nat BPB) b lo BPB s ltac:(lia) E) as Hall.
    specialize (IH (b + BPB) ltac:(rewrite <-Zplus_mod_idemp_r, Z_mod_same_full, Z.add_0_r; done) ltac:(lia) ltac:(lia)).
    destruct (scan_up sb n (b + BPB) b0 start s) as [[b' bi]|]; [done|].
    intros x Hx Hst. destruct (decide (b + BPB ≤ x)); [apply IH; lia|].
    replace x with (b + (x - b)) by lia. rewrite <-get_bit_in by (done || lia). apply Hall; [|lia].
    unfold lo. destruct (Z.eqb_spec b b0); lia.
Qed.

Lemma scan_low_spec turns b start s : 0 ≤ b → b `mod` BPB = 0 → start ≤ b + BPB * Z.of_nat turns →
  match scan_low sb turns b start s with
  | Some (b', bi) => clear_at b' bi s
  | None => ∀ x, b ≤ x < start → x < sb_size sb → bit x s = true
  end.
Proof.
  revert b. induction turns as [|n IH]; intros b Hb Hm Ht; cbn [scan_low]; [lia|].
  destruct (Z.ltb_spec b start) as [Hlt|Hge]; [|intros; lia].
  assert (0 < BPB) by layout_lia.
  set (hi := if start <? b + BPB then start - b else BPB).
  assert (hi = Z.min (start - b) BPB) as Ehi by (unfold hi; destruct (Z.ltb_spec start (b + BPB)); lia).
  destruct (scan_bits sb (Z.to_nat BPB) b 0 hi s) as [bi|] eqn:E.
  - apply scan_bits_Some in E as (Hbi & Hs & Hg). rewrite get_bit_in in Hg by (done || lia).
    split_and!; (done || lia).
  - pose proof (scan_bits_None (Z.to_nat BPB) b 0 hi s ltac:(lia) E) as Hall.
    specialize (IH (b + BPB) ltac:(lia) ltac:(rewrite <-Zplus_mod_idemp_r, Z_mod_same_full, Z.add_0_r; done) ltac:(lia)).
    destruct (scan_low sb n (b + BPB) start s) as [[b' bi]|]; [done|].
    intros x Hx Hst. destruct (decide (b + BPB ≤ x)); [apply IH; lia|].
    replace x with (b + (x - b)) by lia. rewrite <-get_bit_in by (done || lia). apply Hall; lia.
Qed.


(** *** What the primitives leave alone *)

Definition in_data (b : Z) : Prop := data_start sb ≤ b < sb_size sb.

(** Between [s] and [s'] only reference counts, the bitmap, the log and the
    blocks in [ch] changed. *)
Record frame (s s' : fs) (ch : Z → Prop) : Prop := {
  f_cache : icache s' = icache s;
  f_xattrs : xattrs s' = xattrs s;
  f_inodes : same_inodes s s';
  f_block : ∀ b, in_data b → ¬ ch b → same_block b s s';
}.

Lemma frame_refl s (ch : Z → Prop) : frame s s ch.
Proof. by split. Qed.

Lemma frame_trans s1 s2 s3 (ch : Z → Prop) : frame s1 s2 ch → frame s2 s3 ch → frame s1 s3 ch.
Proof.
  intros [A1 A2 A3 A4] [B1 B2 B3 B4]. split; [congruence|congruence|..].
  - intros x Hx. by rewrite B3, A3.
  - intros b Hb Hc x Hx. by rewrite (B4 b), (A4 b).
Qed.

Lemma frame_weaken s s' (ch ch' : Z → Prop) : frame s s' ch → (∀ b, ch b → ch' b) → frame s s' ch'.
Proof. intros [? ? ? H] Hw. split; try done. intros b Hb Hn. apply H; [done|]. intros ?. by apply Hn, Hw. Qed.

Definition no_block (b : Z) : Prop := False.

Definition zero_block (b : Z) (s : fs) : Prop := ∀ x, b * BSIZE ≤ x < b * BSIZE + BSIZE → dsk s x = 0.

(** [ext] with [k] more references of [b]. *)
Definition plus (ext : Z → Z) (b k : Z) : Z → Z := λ x, ext x + k * one b x.

Lemma plus_eq ext b k : plus ext b k b = ext b + k.
Proof. unfold plus, one. rewrite decide_True by done. lia. Qed.

Lemma plus_ne ext b k x : x ≠ b → plus ext b k x = ext x.
Proof. intros H. unfold plus, one. rewrite decide_False by congruence. lia. Qed.

Lemma counted_ext s P ext ext' : counted s P ext → (∀ b, in_data b → ext b = ext' b) → counted s P ext'.
Proof. intros [H1 H2 H3] E. split; try done. intros b Hb. rewrite <-E by done. by apply H1. Qed.

Lemma inv_ext s P ext ext' : inv s P ext → (∀ b, in_data b → ext b = ext' b) → inv s P ext'.
Proof. intros [H1 H2 H3 H4 H5] E. split; try done. by eapply counted_ext. Qed.

Lemma log_write_fields b s : dsk (log_write b s) = dsk s ∧ brefs (log_write b s) = brefs s ∧
  hint (log_write b s) = hint s ∧ icache (log_write b s) = icache s ∧ xattrs (log_write b s) = xattrs s.
Proof. unfold log_write. by case_bool_decide. Qed.

Lemma inv_log b s P ext : inv s P ext → inv (log_write b s) P ext.
Proof.
  intros Hi. destruct (log_write_fields b s) as (E1 & E2 & E3 & E4 & _).
  assert (same_inodes s (log_write b s)) as Hs by (intros x _; by rewrite E1).
  apply (inv_frame s _ P ext); try done.
  - intros k x _ _ y _. by rewrite E1.
  - intros x. rewrite E1. apply Hi.
  - rewrite E3. apply Hi.
  - destruct (v_counted _ _ _ Hi) as [C1 C2 C3]. split; rewrite ?E2; try done.
    intros b' Hb'. rewrite <-C3 by done. unfold bit, get_bit. by rewrite E1.
Qed.

Lemma frame_log b s (ch : Z → Prop) : frame s (log_write b s) ch.
Proof.
  destruct (log_write_fields b s) as (E1 & E2 & E3 & E4 & E5). split; try done.
  - intros x _. by rewrite E1.
  - intros b' _ _ x _. by rewrite E1.
Qed.

(** References of blocks outside the data area do not matter. *)
Lemma add_ref_spec b k s : 0 ≤ brefs s b + k < 2 ^ 32 →
  ∀ x, brefs (add_ref b k s) x = brefs s x + k * one b x.
Proof.
  intros H x. unfold add_ref; cbn [brefs upd brefs_set]. unfold one. destruct (Z.eqb_spec x b) as [->|Hne].
  - rewrite decide_True, u32_small by (done || lia). lia.
  - rewrite decide_False by congruence. lia.
Qed.

Lemma data_start_pos : 0 < sb_bmapstart sb ∧ sb_bmapstart sb < data_start sb ≤ sb_size sb.
Proof.
  destruct Hsb. unfold data_start in *.
  assert (0 ≤ sb_ninodes sb / IPB) by (apply Z.div_pos; [lia|done]).
  assert (0 ≤ sb_size sb / BPB); [|lia]. destruct (decide (0 ≤ sb_size sb)); [by apply Z.div_pos|].
  exfalso. layout_lia.
Qed.

Lemma data_bytes b x : in_data b → b * BSIZE ≤ x < b * BSIZE + BSIZE →
  sb_bmapstart sb * BSIZE ≤ x ∧ data_start sb * BSIZE ≤ x.
Proof. intros Hb Hx. pose proof data_start_pos. unfold in_data in Hb. unfold BSIZE in *. lia. Qed.

Lemma bit_data b s s' : 0 ≤ b < sb_size sb →
  (∀ x, sb_bmapstart sb * BSIZE ≤ x < data_start sb * BSIZE → dsk s' x = dsk s x) → bit b s' = bit b s.
Proof. intros Hb H. by apply bit_same, H, bit_addr_range. Qed.


(** *** Reference counts *)

Lemma inv_add_ref b k s P ext : inv s P ext → in_data b → 0 < brefs s b → 0 < brefs s b + k < 2 ^ 32 →
  inv (add_ref b k s) P (plus ext b k) ∧ frame s (add_ref b k s) no_block.
Proof.
  intros Hi Hb Hpos Hk. pose proof (add_ref_spec b k s ltac:(lia)) as Hr.
  destruct (v_counted _ _ _ Hi) as [C1 C2 C3]. split; [|by split].
  apply (inv_frame s _ P ext); try done; [apply Hi|apply Hi|]. split.
  - intros x Hx. rewrite Hr, C1 by done. unfold plus. lia.
  - intros x. rewrite Hr. specialize (C2 x). unfold one. case_decide; [subst|]; lia.
  - intros x Hx. rewrite Hr. change (bit x (add_ref b k s)) with (bit x s). rewrite C3 by done.
    unfold one. case_decide; [subst|]; [lia|]. replace (brefs s x + k * 0) with (brefs s x) by lia. done.
Qed.

Lemma bref_inc_spec b s P ext : inv s P ext → in_data b → 0 < brefs s b → brefs s b < 2 ^ 31 →
  ∃ s', bref_inc sb b s = Some s' ∧ inv s' P (plus ext b 1) ∧ frame s s' no_block.
Proof.
  intros Hi Hb Hpos Hk. unfold bref_inc. rewrite (proj2 (Z.leb_gt _ _)) by (unfold in_data in Hb; lia).
  destruct (inv_add_ref b 1 s P ext Hi Hb Hpos ltac:(lia)). eauto.
Qed.

(** *** Freeing *)

Lemma bfree_spec b s P ext : inv s P ext → in_data b → 1 ≤ count b P + ext b < 2 ^ 31 →
  ∃ s', bfree sb b s = Some s' ∧ inv s' P (plus ext b (-1)) ∧ frame s s' no_block ∧
        (∀ x, in_data x → brefs s x = 0 → brefs s' x = 0).
Proof.
  intros Hi Hb Hcnt. destruct (v_counted _ _ _ Hi) as [C1 C2 C3]. pose proof (C1 b Hb) as Href.
  pose proof (add_ref_spec b (-1) s ltac:(lia)) as Hr.
  unfold bfree, bref_dec. rewrite (proj2 (Z.leb_gt _ _)) by (unfold in_data in Hb; lia).
  rewrite (proj2 (Z.ltb_ge _ _)) by lia. cbn [mbind option_bind].
  assert (∀ x, in_data x → brefs s x = 0 → brefs (add_ref b (-1) s) x = 0) as Hz.
  { intros x Hx H0. rewrite Hr. unfold one. case_decide as E; [|lia]. subst x. lia. }
  destruct (Z.ltb_spec 0 (brefs (add_ref b (-1) s) b)) as [Hgt|Hle].
  { rewrite Hr in Hgt. unfold one in Hgt. rewrite decide_True in Hgt by done.
    destruct (inv_add_ref b (-1) s P ext Hi Hb ltac:(lia) ltac:(lia)). eexists. split_and!; eauto. }
  assert (brefs s b = 1) as Hone.
  { rewrite Hr in Hle. unfold one in Hle. rewrite decide_True in Hle by done. lia. }
  set (s1 := add_ref b (-1) s) in *. pose proof data_start_pos as Hds.
  assert (0 ≤ b < sb_size sb) as Hbr by (unfold in_data in Hb; lia).
  assert (get_bit sb b (b `mod` BPB) s1 = true) as ->.
  { change (bit b s = true). apply C3; [done|]. right. lia. }
  cbn [negb]. pose proof (clear_bit_write b s1) as [W1 W2 W3 (W4 & W5 & W6 & W7)].
  set (s2 := clear_bit sb b (b `mod` BPB) s1) in *.
  assert (∀ x, ¬ (sb_bmapstart sb * BSIZE ≤ x < data_start sb * BSIZE) → dsk s2 x = dsk s x) as Hd.
  { intros x Hx. apply W2. pose proof (bit_addr_range b Hbr). intros ->. done. }
  assert (frame s s2 no_block) as Hf.
  { split; [exact W5|exact W7|..].
    - intros x Hx. apply Hd. lia.
    - intros b' Hb' _ x Hx. apply Hd. pose proof (data_bytes b' x Hb' Hx). lia. }
  eexists. split; [done|]. split_and!.
  - apply inv_log. apply (inv_frame s _ P ext); try done; try apply Hf.
    + intros k b' Hk _. apply Hf; [|by intros []]. destruct k. by apply (l_dom s P (v_linked _ _ _ Hi) _ _ _ Hk).
    + apply W3, Hi.
    + rewrite W6. apply Hi.
    + split; rewrite W4.
      * intros x Hx. rewrite Hr, C1 by done. unfold plus. lia.
      * intros x. rewrite Hr. specialize (C2 x). unfold one. case_decide; [subst|]; lia.
      * intros x Hx. rewrite W1, Hr. unfold one. destruct (decide (x = b)) as [->|Hne].
        -- rewrite decide_True by done. unfold in_data in Hb. split; [done|lia].
        -- rewrite decide_False by congruence. change (bit x s1) with (bit x s). rewrite C3 by done.
           replace (brefs s x + -1 * 0) with (brefs s x) by lia. done.
  - apply (frame_trans s s2); [done|apply frame_log].
  - intros x Hx H0. rewrite (proj1 (proj2 (log_write_fields _ _))), W4. by apply Hz.
Qed.

(** *** Allocating *)

Lemma take_block_spec b0 bi s P ext : inv s P ext → (∀ x, 0 ≤ ext x) → clear_at b0 bi s →
  let b := b0 + bi in
  ∃ s', take_block sb b0 bi s = Some (b, s') ∧ in_data b ∧ brefs s b = 0 ∧
    inv s' P (plus ext b 1) ∧ frame s s' (λ x, x = b) ∧ zero_block b s' ∧
    (∀ x, brefs s' x = brefs s x + one b x).
Proof.
  intros Hi He (Hm & Hbi & Hb0 & Hlt & Hbit) b. destruct (v_counted _ _ _ Hi) as [C1 C2 C3].
  pose proof data_start_pos as Hds. assert (0 ≤ b < sb_size sb) as Hbr by lia.
  assert (¬ (b < data_start sb ∨ brefs s b ≠ 0)) as Hfree by (rewrite <-C3 by done; unfold b; congruence).
  assert (in_data b) as Hb by (unfold in_data; lia). assert (brefs s b = 0) as H0 by lia.
  assert (∀ k, P !! k ≠ Some b) as Hno.
  { intros k Hk. pose proof (count_pos b k P Hk). pose proof (C1 b Hb). specialize (He b). lia. }
  pose proof (or_bit_write b0 bi s Hm Hbi) as [W1 W2 W3 (W4 & W5 & W6 & W7)].
  unfold take_block. set (s1 := or_bit sb b0 bi s) in *.
  destruct (log_write_fields (BBLOCK sb b0) s1) as (L1 & L2 & L3 & L4 & L5).
  set (s2 := log_write (BBLOCK sb b0) s1) in *. change (b0 + bi) with b in W1, W2 |- *.
  unfold bzero. set (s3 := s2 <| dsk := memset (b * BSIZE) 0 BSIZE (dsk s2) |>) in *.
  destruct (log_write_fields b s3) as (M1 & M2 & M3 & M4 & M5). set (s4 := log_write b s3) in *.
  unfold bref_inc. rewrite (proj2 (Z.leb_gt _ _)) by lia. cbn [mbind option_bind].
  set (s5 := add_ref b 1 s4 <| hint := b + 1 |>).
  assert (∀ x, dsk s5 x = memset (b * BSIZE) 0 BSIZE (dsk s1) x) as Hd.
  { intros x. change (dsk s5 x) with (dsk s4 x). rewrite M1. cbn [dsk upd dsk_set s3]. unfold memset. by rewrite L1. }
  assert (∀ x, brefs s4 x = brefs s x) as Hb4.
  { intros x. rewrite M2. change (brefs s3) with (brefs s2). by rewrite L2, W4. }
  assert (∀ x, brefs s5 x = brefs s x + one b x) as Hr.
  { intros x. change (brefs s5 x) with (brefs (add_ref b 1 s4) x).
    rewrite add_ref_spec by (rewrite Hb4; lia). rewrite Hb4. lia. }
  assert (∀ x, 0 ≤ x < sb_size sb → bit x s5 = if decide (x = b) then true else bit x s) as Hbits.
  { intros x Hx. rewrite <-W1. apply bit_data; [done|]. intros y Hy. rewrite Hd. apply memset_out.
    pose proof (data_bytes b y Hb). lia. }
  assert (frame s s5 (λ x, x = b)) as Hf.
  { split.
    - change (icache s5) with (icache s4). rewrite M4. change (icache s3) with (icache s2). by rewrite L4.
    - change (xattrs s5) with (xattrs s4). rewrite M5. change (xattrs s3) with (xattrs s2). by rewrite L5.
    - intros x Hx. rewrite Hd, memset_out by (pose proof (data_bytes b x Hb); lia).
      apply W2. pose proof (bit_addr_range b Hbr). intros ->. lia.
    - intros b' Hb' Hne x Hx. rewrite Hd, memset_out by (unfold BSIZE in *; lia).
      apply W2. pose proof (bit_addr_range b Hbr). pose proof (data_bytes b' x Hb' Hx). intros ->. lia. }
  exists s5. split; [done|]. split_and!; try done.
  - apply (inv_frame s _ P ext); try done; try apply Hf.
    + intros k b' Hk _. apply Hf; [|intros ->; by apply (Hno k)].
      destruct k. by apply (l_dom s P (v_linked _ _ _ Hi) _ _ _ Hk).
    + intros x. rewrite Hd. unfold memset. case_match; [lia|]. apply W3, Hi.
    + cbn. lia.
    + split.
      * intros x Hx. rewrite Hr, C1 by done. unfold plus. lia.
      * intros x. rewrite Hr. specialize (C2 x). unfold one. case_decide; lia.
      * intros x Hx. rewrite Hbits, Hr by done. unfold one. destruct (decide (x = b)) as [->|Hne].
        -- rewrite decide_True by done. split; [intros _; right; lia|done].
        -- rewrite decide_False by congruence. rewrite C3 by done. by rewrite Z.add_0_r.
  - intros x Hx. rewrite Hd. by apply memset_in.
Qed.

Lemma balloc_spec s P ext : inv s P ext → (∀ x, 0 ≤ ext x) →
  match balloc sb s with
  | None => ∀ b, in_data b → brefs s b ≠ 0
  | Some (b, s') => in_data b ∧ brefs s b = 0 ∧ inv s' P (plus ext b 1) ∧ frame s s' (λ x, x = b) ∧
      zero_block b s' ∧ (∀ x, brefs s' x = brefs s x + one b x)
  end.
Proof.
  intros Hi He. unfold balloc. pose proof data_start_pos as Hds. assert (0 < BPB) as HB by layout_lia.
  set (start := if sb_size sb <=? hint s then 0 else hint s).
  assert (0 ≤ start ∧ start < sb_size sb) as Hst.
  { unfold start. pose proof (v_hint _ _ _ Hi). destruct (Z.leb_spec (sb_size sb) (hint s)); lia. }
  pose proof (Z.mod_pos_bound start BPB HB) as Hmod. set (b0 := start - start `mod` BPB).
  assert (b0 `mod` BPB = 0) as Hb0.
  { unfold b0. rewrite Zminus_mod, Z.mod_mod, Z.sub_diag by lia. done. }
  assert (0 ≤ b0) as Hb0p by (unfold b0; pose proof (Z.mod_le start BPB); lia).
  assert (sb_size sb ≤ BPB * Z.of_nat (S (Z.to_nat (sb_size sb / BPB)))) as Hturns.
  { pose proof (Z.div_pos (sb_size sb) BPB). pose proof (Z_div_mod_eq_full (sb_size sb) BPB).
    pose proof (Z.mod_pos_bound (sb_size sb) BPB HB). lia. }
  assert (∀ b0 bi, clear_at b0 bi s → match take_block sb b0 bi s with
    | None => ∀ b, in_data b → brefs s b ≠ 0
    | Some (b, s') => in_data b ∧ brefs s b = 0 ∧ inv s' P (plus ext b 1) ∧ frame s s' (λ x, x = b) ∧
        zero_block b s' ∧ (∀ x, brefs s' x = brefs s x + one b x) end) as Htake.
  { intros b1 bi Hc. destruct (take_block_spec b1 bi s P ext Hi He Hc) as (s' & -> & H). done. }
  pose proof (scan_up_spec (S (Z.to_nat (sb_size sb / BPB))) b0 b0 start s ltac:(lia) ltac:(lia) Hb0 ltac:(lia) ltac:(lia)) as Hup.
  destruct (scan_up sb _ b0 b0 start s) as [[b1 bi]|]; [by apply Htake|].
  assert (∀ b, in_data b → (0 ≤ b < start → bit b s = true) → brefs s b ≠ 0) as Hfull.
  { intros b Hb Hlow. unfold in_data in Hb.
    assert (bit b s = true) as Hbit by (destruct (decide (start ≤ b)); [apply Hup; lia|apply Hlow; lia]).
    apply (r_bit _ _ _ (v_counted _ _ _ Hi)) in Hbit as [?|?]; [lia|done|lia]. }
  destruct (Z.eqb_spec start 0) as [E|E]; [intros b Hb; apply Hfull; [done|lia]|].
  pose proof (scan_low_spec (S (Z.to_nat (sb_size sb / BPB))) 0 start s ltac:(lia) ltac:(done) ltac:(lia)) as Hlow.
  destruct (scan_low sb _ 0 start s) as [[b1 bi]|]; [by apply Htake|].
  intros b Hb. apply Hfull; [done|]. intros Hr. apply Hlow; lia.
Qed.


(** ** Updates of a cached inode *)

Lemma find_index_alter {A} (Q : A → bool) (f : A → A) (i : nat) (l : list A) :
  (∀ x, l !! i = Some x → Q (f x) = Q x) → find_index Q (alter f i l) = find_index Q l.
Proof.
  revert i. induction l as [|y l IH]; intros i H; [done|]. destruct i as [|i]; cbn.
  - by rewrite (H y eq_refl).
  - change (list_alter f i l) with (alter f i l). by rewrite (IH i H).
Qed.

Lemma owns_lookup s ip inum : owns s ip inum → icache s !! ip = Some (inode_at ip s).
Proof.
  intros (i & Hi & _). unfold inode_at. by rewrite (list_lookup_total_correct _ _ _ Hi).
Qed.

Lemma set_inode_lookup ip f s k : icache (set_inode ip f s) !! k =
  if decide (k = ip) then f <$> icache s !! k else icache s !! k.
Proof.
  unfold set_inode; cbn [icache upd icache_set]. case_decide as E.
  - subst. apply list_lookup_alter_eq.
  - by apply list_lookup_alter_ne.
Qed.

Lemma inode_at_set ip f s : (ip < length (icache s))%nat → inode_at ip (set_inode ip f s) = f (inode_at ip s).
Proof.
  intros [i Hi]%lookup_lt_is_Some_2. unfold inode_at. rewrite (list_lookup_total_correct _ _ _ Hi).
  apply list_lookup_total_correct. rewrite set_inode_lookup, decide_True, Hi by done. done.
Qed.

Lemma owns_lt s ip inum : owns s ip inum → (ip < length (icache s))%nat.
Proof. intros (i & Hi & _). by eapply lookup_lt_Some. Qed.

Lemma din_set ip f s inum : owns s ip inum → din ip (set_din ip f s) = f (din ip s).
Proof. intros Ho. unfold din, set_din. by rewrite inode_at_set by (by eapply owns_lt). Qed.

(** Changing the disk fields of a cached inode changes no other inode. *)
Lemma dnode_set_din s ip inum f n : cache_ok s → owns s ip inum →
  dnode (set_din ip f s) n = if decide (n = inum) then f (din ip s) else dnode s n.
Proof.
  intros Hc Ho. unfold dnode at 1.
  assert (find_index (holds_inum n) (icache (set_din ip f s)) = find_index (holds_inum n) (icache s)) as Hf.
  { unfold set_din, set_inode; cbn [icache upd icache_set]. by apply find_index_alter. }
  rewrite Hf. case_decide as E.
  - subst n. pose proof (dnode_owns s ip inum Hc Ho) as Hd. unfold dnode in Hd.
    destruct Ho as (i & Hi & Hr & Hv & Hn). destruct (find_index (holds_inum inum) (icache s)) as [k|] eqn:Ek.
    + apply find_index_Some in Ek as [(j & Hj & Hh) _]. unfold holds_inum in Hh. bool_facts.
      assert (k = ip) as -> by (eapply (c_uniq s Hc); eauto; congruence).
      apply (din_set ip f s inum). by exists i.
    + pose proof (find_index_None _ _ Ek i (list_elem_of_lookup_2 _ _ _ Hi)) as Hno.
      unfold holds_inum in Hno. rewrite Hv, (proj2 (Z.ltb_lt _ _) Hr), (proj2 (Z.eqb_eq _ _) Hn) in Hno. done.
  - unfold dnode. destruct (find_index (holds_inum n) (icache s)) as [k|] eqn:Ek; [|done].
    apply find_index_Some in Ek as [(j & Hj & Hh) _]. unfold holds_inum in Hh. bool_facts.
    unfold din, inode_at. f_equal. apply list_lookup_total_correct.
    unfold set_din. rewrite set_inode_lookup, decide_False.
    + by rewrite Hj, (list_lookup_total_correct _ _ _ Hj).
    + intros ->. destruct Ho as (i & Hi & _ & _ & Hn). congruence.
Qed.

Lemma cache_ok_set_din s ip inum f : cache_ok s → owns s ip inum →
  (dinode_ok (din ip s) → dinode_ok (f (din ip s))) → cache_ok (set_din ip f s).
Proof.
  intros Hc Ho Hf.
  assert (∀ k j, icache (set_din ip f s) !! k = Some j → ∃ i, icache s !! k = Some i ∧
    i_ref j = i_ref i ∧ i_inum j = i_inum i ∧ i_dev j = i_dev i ∧ i_valid j = i_valid i ∧
    (k ≠ ip → j = i) ∧ (k = ip → i_d j = f (i_d i))) as Hk.
  { intros k j. unfold set_din. rewrite set_inode_lookup. case_decide as E.
    - subst. destruct (icache s !! ip) as [i|] eqn:Ei; [|done]. intros [= <-]. exists i. by split_and!.
    - intros Hj. exists j. by split_and!. }
  split.
  - intros k1 k2 j1 j2 (i1 & H1 & R1 & N1 & _)%Hk (i2 & H2 & R2 & N2 & _)%Hk Hr1 Hr2 En.
    eapply (c_uniq s Hc); eauto; congruence.
  - intros k j (i & Hi & R & N & D & _)%Hk Hr. rewrite R in Hr. rewrite D, N. by eapply (c_entry s Hc).
  - intros k j (i & Hi & R & N & D & V & H1 & H2)%Hk Hr Hv. rewrite R in Hr. rewrite V in Hv.
    pose proof (c_valid s Hc k i Hi Hr Hv) as Hok. destruct (decide (k = ip)) as [->|Hne].
    + rewrite H2 by done. assert (i_d i = din ip s) as E.
      { unfold din, inode_at. by rewrite (list_lookup_total_correct _ _ _ Hi). }
      rewrite E in *. by apply Hf.
    + by rewrite H1.
Qed.

Lemma owns_set_din s ip f k inum : owns s k inum → owns (set_din ip f s) k inum.
Proof.
  intros (i & Hi & Hr & Hv & Hn). unfold set_din. unfold owns. setoid_rewrite set_inode_lookup.
  case_decide as E; [subst; rewrite Hi; cbn; eexists; split; [done|]; done|by exists i].
Qed.

Lemma owns_inum s ip inum : cache_ok s → owns s ip inum → inum_ok inum.
Proof. intros Hc (i & Hi & Hr & _ & <-). by apply (c_entry s Hc ip i). Qed.

Lemma owns_dinode s ip inum : cache_ok s → owns s ip inum → dinode_ok (din ip s).
Proof.
  intros Hc Ho. pose proof (owns_lookup _ _ _ Ho) as Hi. destruct Ho as (i & Hi' & Hr & Hv & _).
  rewrite Hi in Hi'. injection Hi' as <-. by apply (c_valid s Hc ip).
Qed.

Lemma dinode_ok_addr d i v : dinode_ok d → 0 ≤ v < 2 ^ 32 → dinode_ok (d <| d_addrs := <[i := v]> (d_addrs d) |>).
Proof.
  intros [H1 H2 H3 H4 H5 H6 H7 H8] Hv. split; try done; cbn [d_addrs upd d_addrs_set].
  - by rewrite length_insert.
  - by apply Forall_insert.
Qed.

Lemma faddr_set_addr s ip inum i v n j : cache_ok s → owns s ip inum → 0 ≤ i < 13 → 0 ≤ j < 13 →
  faddr (set_addr ip i v s) n j = if decide (n = inum ∧ j = i) then v else faddr s n j.
Proof.
  intros Hc Ho Hi Hj. unfold faddr, set_addr. rewrite (dnode_set_din s ip inum) by done.
  pose proof (do_len _ (owns_dinode _ _ _ Hc Ho)) as Hlen.
  destruct (decide (n = inum)) as [->|]; [|by rewrite decide_False by naive_solver].
  cbn [d_addrs upd d_addrs_set]. rewrite (dnode_owns s ip inum) by done. case_decide as E.
  - destruct E as [_ ->]. apply list_lookup_total_insert_eq. lia.
  - apply list_lookup_total_insert_ne. intros ?. apply E. split; [done|lia].
Qed.

(** ** Updates of a word of a pointer block *)

Lemma get_set_word b j v b' j' s : 0 ≤ v < 2 ^ 32 → 0 ≤ j < NADDR_PER_BLOCK → 0 ≤ j' < NADDR_PER_BLOCK →
  get_word b' j' (set_word b j v s) = if decide (b' = b ∧ j' = j) then v else get_word b' j' s.
Proof.
  intros Hv Hj Hj'. unfold get_word, set_word; cbn [dsk upd dsk_set]. case_decide as E.
  - destruct E as [-> ->]. by apply load32_store_eq.
  - apply load32_store_ne. destruct (decide (b' = b)) as [->|]; [|layout_lia].
    assert (j' ≠ j) by naive_solver. lia.
Qed.

Lemma set_word_out b j v s x : ¬ (b * BSIZE ≤ x < b * BSIZE + BSIZE) → 0 ≤ j < NADDR_PER_BLOCK →
  dsk (set_word b j v s) x = dsk s x.
Proof. intros Hx Hj. unfold set_word; cbn [dsk upd dsk_set]. apply store32_outside. layout_lia. Qed.

Lemma set_word_bytes b j v s : (∀ x, 0 ≤ dsk s x < 256) → ∀ x, 0 ≤ dsk (set_word b j v s) x < 256.
Proof.
  intros H x. unfold set_word; cbn [dsk upd dsk_set]. unfold store32, store_le, store_bytes. case_match; [|done].
  bool_facts. generalize dependent (b * BSIZE + 4 * j). intros a H0 H1. pose proof (Z_to_little_endian_bound 4 8 v ltac:(lia) ltac:(lia)) as Hb.
  rewrite Forall_forall in Hb. apply Hb. apply list_elem_of_lookup_2 with (Z.to_nat (x - a)).
  apply list_lookup_lookup_total_lt. lia.
Qed.

Lemma set_word_frame b j v s : in_data b → 0 ≤ j < NADDR_PER_BLOCK →
  frame s (set_word b j v s) (λ x, x = b).
Proof.
  intros Hb Hj. split; try done.
  - intros x Hx. apply set_word_out; [|done]. intros Hc. pose proof (data_bytes b x Hb Hc). lia.
  - intros b' Hb' Hne x Hx. apply set_word_out; [|done]. unfold BSIZE in *. lia.
Qed.


(** ** Setting a pointer of a cached file *)

(** The place of the pointer at [p]; the block that holds it exists. *)
Definition at_loc (s : fs) (ip : nat) (inum : Z) (p : pos) (l : loc) : Prop :=
  match parent p with
  | None => l = LAddr ip (index p)
  | Some q => l = LWord (ptr s inum q) (index p) ∧ ptr s inum q ≠ 0
  end.

Lemma read_at_loc s ip inum p l : cache_ok s → owns s ip inum → valid_pos p → at_loc s ip inum p l →
  read_loc l s = ptr s inum p.
Proof.
  intros Hc Ho Hv Hl. rewrite ptr_unfold by done. unfold at_loc in Hl. destruct (parent p) as [q|].
  - destruct Hl as [-> Hne]. unfold word. by rewrite (proj2 (Z.eqb_neq _ _) Hne).
  - subst l. unfold faddr. by rewrite (dnode_owns s ip inum).
Qed.

(** The change of the inode cache that an operation on one file makes: only the
    block addresses of that file change. *)
Record touches (ip : nat) (s s' : fs) : Prop := {
  t_other : ∀ k, k ≠ ip → icache s' !! k = icache s !! k;
  t_own : ∀ i, icache s !! ip = Some i →
    ∃ a, icache s' !! ip = Some (i <| i_d := (i_d i) <| d_addrs := a |> |>);
  t_xattrs : xattrs s' = xattrs s;
  t_inodes : same_inodes s s';
}.

Lemma touches_refl ip s : touches ip s s.
Proof.
  split; try done. intros i Hi. exists (d_addrs (i_d i)). rewrite Hi. destruct i as [? ? ? ? ? []]. done.
Qed.

Lemma touches_trans ip s1 s2 s3 : touches ip s1 s2 → touches ip s2 s3 → touches ip s1 s3.
Proof.
  intros [A1 A2 A3 A4] [B1 B2 B3 B4]. split; [|..|congruence|].
  - intros k Hk. by rewrite B1, A1.
  - intros i Hi. destruct (A2 i Hi) as [a Ha]. destruct (B2 _ Ha) as [a' Ha']. exists a'. by rewrite Ha'.
  - intros x Hx. by rewrite B4, A4.
Qed.

Lemma touches_frame ip s s' ch : frame s s' ch → touches ip s s'.
Proof.
  intros [E1 E2 E3 _]. split; try done; rewrite E1; [done|].
  intros i Hi. exists (d_addrs (i_d i)). rewrite Hi. destruct i as [? ? ? ? ? []]. done.
Qed.

Lemma touches_owns ip s s' k inum : touches ip s s' → owns s k inum → owns s' k inum.
Proof.
  intros [A1 A2 _ _] (i & Hi & Hr & Hv & Hn). destruct (decide (k = ip)) as [->|Hne].
  - destruct (A2 i Hi) as [a Ha]. eexists. split; [done|]. by split_and!.
  - exists i. by rewrite A1.
Qed.

Lemma touches_din ip s s' inum : touches ip s s' → owns s ip inum →
  ∃ a, din ip s' = (din ip s) <| d_addrs := a |> ∧ inode_at ip s' = (inode_at ip s) <| i_d := din ip s' |>.
Proof.
  intros [_ A2 _ _] Ho. pose proof (owns_lookup _ _ _ Ho) as Hi. destruct (A2 _ Hi) as [a Ha].
  apply list_lookup_total_correct in Ha. exists a. unfold din. change (icache s' !!! ip) with (inode_at ip s') in Ha.
  rewrite Ha. by split.
Qed.

Lemma touches_set_addr ip i v s : touches ip s (set_addr ip i v s).
Proof.
  split; try done.
  - intros k Hk. unfold set_addr, set_din. by rewrite set_inode_lookup, decide_False.
  - intros j Hj. unfold set_addr, set_din. rewrite set_inode_lookup, decide_True, Hj by done. by eexists.
Qed.

Definition loc_block (l : loc) : Z := match l with LAddr _ _ => 0 | LWord b _ => b end.

Section set.
Context (s : fs) (P : ptrs) (ext : Z → Z) (ip : nat) (inum : Z) (p : pos) (l : loc) (v : Z).
Context (Hi : inv s P ext) (Ho : owns s ip inum) (Hv : valid_pos p) (Hat : at_loc s ip inum p l).
Context (Hleaf : ∀ q, parent q = Some p → P !! (inum, q) = None).
Context (Hv0 : 0 ≤ v < 2 ^ 32) (Hrange : v ≠ 0 → in_data v).
Context (Hexcl : v ≠ 0 → ∀ k, P !! k = Some v → k ≠ (inum, p) → is_meta k.2 = false ∧ is_meta p = false).
Context (Hzero : is_meta p = true → v ≠ 0 → zero_block v s ∧ v ≠ loc_block l).

Lemma loc_block_own q : parent p = Some q →
  P !! (inum, q) = Some (loc_block l) ∧ is_meta q = true ∧ in_data (loc_block l) ∧
  l = LWord (loc_block l) (index p) ∧ 0 ≤ index p < NADDR_PER_BLOCK.
Proof using Hi Ho Hv Hat.
  clear Hleaf Hv0 Hrange Hexcl Hzero. intros Eq. pose proof (index_range p Hv) as Hir. unfold at_loc in Hat. rewrite Eq in *.
  destruct Hat as [-> Hne]. cbn [loc_block]. destruct (parent_valid p q Hv Eq) as [Hvq Hmq].
  assert (inum_ok inum) as Hn by (by eapply owns_inum; [apply Hi|]).
  assert (P !! (inum, q) = Some (ptr s inum q)) as HP by (by apply (ptr_block s); [apply Hi|..]).
  split_and!; try done; try lia; by apply (l_dom s P (v_linked _ _ _ Hi) _ _ _ HP).
Qed.

(** The block of the place is no block at all, or the pointer block of the parent. *)
Lemma loc_block_cases : loc_block l = 0 ∨
  ∃ q, parent p = Some q ∧ P !! (inum, q) = Some (loc_block l) ∧ is_meta q = true.
Proof using Hi Ho Hv Hat.
  destruct (parent p) as [q|] eqn:Eq.
  - destruct (loc_block_own q Eq) as (H1 & H2 & _). right. by exists q.
  - left. unfold at_loc in Hat. rewrite Eq in Hat. by rewrite Hat.
Qed.

Lemma write_loc_frame :
  brefs (write_loc l v s) = brefs s ∧ hint (write_loc l v s) = hint s ∧
  (∀ x, 0 ≤ dsk (write_loc l v s) x < 256) ∧ touches ip s (write_loc l v s) ∧
  (∀ b, in_data b → b ≠ loc_block l → same_block b s (write_loc l v s)) ∧
  (∀ x, sb_bmapstart sb * BSIZE ≤ x < data_start sb * BSIZE → dsk (write_loc l v s) x = dsk s x).
Proof using Hi Ho Hv Hat Hsb.
  clear Hleaf Hv0 Hrange Hexcl Hzero. destruct (parent p) as [q|] eqn:Eq.
  - destruct (loc_block_own q Eq) as (_ & _ & Hb & El & Hr). rewrite El in *. cbn [loc_block write_loc] in *.
    pose proof (set_word_frame (loc_block l) (index p) v s Hb Hr) as Hf. split_and!; try done.
    + apply set_word_bytes, Hi.
    + by eapply touches_frame.
    + intros b Hbd Hne. by apply Hf.
    + intros x Hx. apply set_word_out; [|done]. intros Hc. pose proof (data_bytes _ x Hb Hc). lia.
  - unfold at_loc in Hat. rewrite Eq in Hat. subst l. cbn [write_loc]. split_and!; try done.
    + apply Hi.
    + apply touches_set_addr.
Qed.

Lemma write_loc_addr n i : inum_ok n → 0 ≤ i < 13 → faddr (write_loc l v s) n i =
  if decide (n = inum ∧ parent p = None ∧ i = index p) then v else faddr s n i.
Proof using Hi Ho Hv Hat Hsb.
  clear Hleaf Hv0 Hrange Hexcl Hzero. intros Hnn Hir'. destruct write_loc_frame as (_ & _ & _ & F4 & _). pose proof (index_range p Hv) as Hir.
  pose proof (v_cache _ _ _ Hi) as Hc. destruct (parent p) as [q|] eqn:Eq.
  - rewrite decide_False by naive_solver. destruct (loc_block_own q Eq) as (_ & _ & _ & El & _).
    unfold faddr. f_equal. f_equal. apply dnode_frame; [done|by rewrite El|apply F4].
  - unfold at_loc in Hat. rewrite Eq in Hat. subst l. cbn [write_loc].
    rewrite (faddr_set_addr s ip inum) by done. apply decide_ext. naive_solver.
Qed.

Lemma write_loc_word k b j : P !! k = Some b → is_meta k.2 = true → 0 ≤ j < NADDR_PER_BLOCK →
  get_word b j (write_loc l v s) =
  if decide (k.1 = inum ∧ parent p = Some k.2 ∧ j = index p) then v else get_word b j s.
Proof using Hi Ho Hv Hat Hv0.
  clear Hleaf Hrange Hexcl Hzero. intros Hk Hm Hj. destruct (parent p) as [q|] eqn:Eq.
  - destruct (loc_block_own q Eq) as (HPq & Hmq & _ & El & Hr). rewrite El at 1. cbn [write_loc].
    rewrite get_set_word by done. apply decide_ext. split.
    + intros [-> ->]. pose proof (l_meta s P (v_linked _ _ _ Hi) k (inum, q) _ Hk HPq Hm) as ->. done.
    + intros (E1 & [= E2] & ->). split; [|done]. destruct k as [n q']. cbn in *. subst.
      rewrite HPq in Hk. by injection Hk.
  - rewrite decide_False by naive_solver. unfold at_loc in Hat. rewrite Eq in Hat. by subst l.
Qed.

Lemma write_loc_cache : cache_ok (write_loc l v s).
Proof using Hi Ho Hv Hat Hv0.
  clear Hleaf Hrange Hexcl Hzero. pose proof (v_cache _ _ _ Hi) as Hc. destruct (parent p) as [q|] eqn:Eq.
  - destruct (loc_block_own q Eq) as (_ & _ & _ & El & _). apply (cache_ok_frame s); [done|by rewrite El].
  - unfold at_loc in Hat. rewrite Eq in Hat. subst l. cbn [write_loc].
    apply (cache_ok_set_din s ip inum); try done. intros Hok. by apply dinode_ok_addr.
Qed.

(** A change of the pointer map that leaves the reference counts. *)
Lemma write_loc_inv P' : linked (write_loc l v s) P' →
  inv (write_loc l v s) P' (λ x, ext x + count x P - count x P').
Proof using Hi Ho Hv Hat Hv0 Hsb.
  clear Hleaf Hrange Hexcl Hzero. intros Hl'. destruct write_loc_frame as (F1 & F2 & F3 & F4 & F5 & F6).
  split; try done.
  - destruct (v_counted _ _ _ Hi) as [C1 C2 C3]. split; rewrite F1; try done.
    + intros b Hb. rewrite C1 by done. lia.
    + intros b Hb. rewrite <-C3 by done. by rewrite (bit_data b s).
  - apply write_loc_cache.
  - rewrite F2. apply Hi.
Qed.

Lemma inv_set_ptr :
  inv (write_loc l v s) (set_P P inum p v) (λ x, ext x + count x P - count x (set_P P inum p v)).
Proof.
  destruct write_loc_frame as (F1 & F2 & F3 & F4 & F5 & F6).
  assert (inum_ok inum) as Hn by (by eapply owns_inum; [apply Hi|]).
  apply write_loc_inv, (linked_set s (write_loc l v s) P inum p v); try done; try apply Hi.
  - intros n q HP -> Hq. by apply HP, Hleaf.
  - apply write_loc_addr.
  - apply write_loc_word.
  - intros q Eq. unfold at_loc in Hat. rewrite Eq in Hat. by destruct Hat.
  - intros Hm Hne j Hj. destruct (Hzero Hm Hne) as [Hz Hnl].
    rewrite (get_word_same v j s (write_loc l v s) (F5 v (Hrange Hne) Hnl) Hj).
    unfold get_word. rewrite (load32_ext _ (λ _, 0)); [done|]. intros x Hx. apply Hz. layout_lia.
Qed.

End set.

End ptr.
