(* ===== verification/FsFile.v ===== *)
(** * File contents

    What the operations on one file do to the contents of all files: block
    lookup and copy on write (bmap), writing, reading. [content] is the byte of a
    file at an offset, 0 in a hole; it is defined beyond the size too. *)

From stdpp Require Import list_numbers gmap.
From S2P Require Import Prelude Mem Xattr Fs FsInv.

Definition zero : Z → Z := λ _, 0.

Section file.
Context (sb : superblock) (Hsb : sb_wf sb).

Abbreviation inv := (inv sb).
Abbreviation ptrs := (gmap (Z * pos) Z).

Definition content (s : fs) (inum o : Z) : Z :=
  let b := ptr sb s inum (PData (o / BSIZE)) in
  if b =? 0 then 0 else dsk s (b * BSIZE + o `mod` BSIZE).

(** ** Pointers through the map *)

Lemma ptr_lookup s P n p : linked sb s P → inum_ok sb n → valid_pos p → ptr sb s n p = default 0 (P !! (n, p)).
Proof.
  intros Hl Hn Hv. rewrite (l_ptr sb s P Hl n p Hn Hv). destruct (Z.eqb_spec (ptr sb s n p) 0); done.
Qed.

Lemma ptr_None s P n p : linked sb s P → inum_ok sb n → valid_pos p → ptr sb s n p = 0 ↔ P !! (n, p) = None.
Proof.
  intros Hl Hn Hv. rewrite (l_ptr sb s P Hl n p Hn Hv). destruct (Z.eqb_spec (ptr sb s n p) 0); split; done.
Qed.

Lemma in_data_pos b : in_data sb b → 0 < b.
Proof. pose proof (data_start_pos sb Hsb). unfold in_data. lia. Qed.

Lemma in_data_word b : in_data sb b → 0 ≤ b < 2 ^ 32.
Proof.
  intros Hb. pose proof (in_data_pos b Hb). unfold in_data in Hb. pose proof (sb_max _ Hsb).
  unfold FSSIZE in *. lia.
Qed.

Lemma dom_data s P k b : linked sb s P → P !! k = Some b → in_data sb b.
Proof. intros Hl Hk. destruct k. by apply (l_dom sb s P Hl _ _ _ Hk). Qed.

(** A position whose parent has no block has none. *)
Lemma no_child s P n p q : linked sb s P → inum_ok sb n → valid_pos q → parent q = Some p →
  P !! (n, p) = None → P !! (n, q) = None.
Proof.
  intros Hl Hn Hv Hp Hnone. destruct (parent_valid q p Hv Hp) as [Hvp _].
  apply (ptr_None s P); [done..|]. rewrite ptr_unfold by done. rewrite Hp.
  rewrite (proj2 (ptr_None s P n p Hl Hn Hvp) Hnone). done.
Qed.

Lemma child_valid s P n q : linked sb s P → is_Some (P !! (n, q)) → valid_pos q.
Proof. intros Hl [b Hb]. by apply (l_dom sb s P Hl _ _ _ Hb). Qed.

(** ** Contents *)

Lemma content_byte s P e n o b : inv s P e → inum_ok sb n → 0 ≤ o / BSIZE < MAXFILE →
  P !! (n, PData (o / BSIZE)) = Some b → content s n o = dsk s (b * BSIZE + o `mod` BSIZE).
Proof.
  intros Hi Hn Ho HP. unfold content. rewrite (ptr_lookup s P) by (done || apply Hi). rewrite HP. cbn.
  pose proof (in_data_pos b (dom_data s P _ b (v_linked _ _ _ _ Hi) HP)).
  by rewrite (proj2 (Z.eqb_neq _ _)) by lia.
Qed.

Lemma content_hole s P e n o : inv s P e → inum_ok sb n → 0 ≤ o / BSIZE < MAXFILE →
  P !! (n, PData (o / BSIZE)) = None → content s n o = 0.
Proof.
  intros Hi Hn Ho HP. unfold content. rewrite (ptr_lookup s P) by (done || apply Hi). by rewrite HP.
Qed.

Lemma block_byte_in b o : b * BSIZE ≤ b * BSIZE + o `mod` BSIZE < b * BSIZE + BSIZE.
Proof. pose proof (Z.mod_pos_bound o BSIZE ltac:(done)). lia. Qed.

(** The contents of block [bn] of a file stay when its pointer and block do. *)
Lemma content_keep s s' P P' e e' n o : inv s P e → inv s' P' e' → inum_ok sb n → 0 ≤ o / BSIZE < MAXFILE →
  P' !! (n, PData (o / BSIZE)) = P !! (n, PData (o / BSIZE)) →
  (∀ b, P !! (n, PData (o / BSIZE)) = Some b → same_block b s s') → content s' n o = content s n o.
Proof.
  intros Hi Hi' Hn Ho HP Hb. destruct (P !! (n, PData (o / BSIZE))) as [b|] eqn:E.
  - rewrite (content_byte s P e n o b), (content_byte s' P' e' n o b) by done.
    apply (Hb b eq_refl), block_byte_in.
  - by rewrite (content_hole s P e), (content_hole s' P' e').
Qed.

Lemma content_zero s P e n o b : inv s P e → inum_ok sb n → 0 ≤ o / BSIZE < MAXFILE →
  P !! (n, PData (o / BSIZE)) = Some b → zero_block b s → content s n o = 0.
Proof. intros Hi Hn Ho HP Hz. rewrite (content_byte s P e n o b) by done. apply Hz, block_byte_in. Qed.

Definition off_ok (o : Z) : Prop := 0 ≤ o / BSIZE < MAXFILE.

Definition same_files (s s' : fs) : Prop :=
  ∀ n o, inum_ok sb n → off_ok o → content s' n o = content s n o.

Lemma same_files_trans s1 s2 s3 : same_files s1 s2 → same_files s2 s3 → same_files s1 s3.
Proof. intros H1 H2 n o Hn Ho. by rewrite H2, H1. Qed.

(** Steps that change neither pointers nor data blocks. *)
Lemma same_files_frame s s' P e e' (ch : Z → Prop) : inv s P e → inv s' P e' → frame sb s s' ch →
  (∀ k b, P !! k = Some b → ¬ ch b) → same_files s s'.
Proof.
  intros Hi Hi' Hf Hch n o Hn Ho. apply (content_keep s s' P P e e'); try done.
  intros b Hb. apply Hf; [|by eapply Hch]. by eapply dom_data; [apply Hi|].
Qed.

(** ** Free blocks *)

Definition nfree (s : fs) : Z :=
  sum_with (λ b, if brefs s b =? 0 then 1 else 0) (range (data_start sb) (sb_size sb)).

Lemma in_range lo hi x : x ∈ range lo hi ↔ lo ≤ x < hi.
Proof. unfold range. rewrite elem_of_seqZ. lia. Qed.

Lemma nodup_range lo hi : NoDup (range lo hi).
Proof. apply NoDup_seqZ. Qed.

Lemma sum_with_le {A} (f g : A → Z) l : (∀ x, x ∈ l → f x ≤ g x) → sum_with f l ≤ sum_with g l.
Proof.
  induction l as [|x l IH]; intros H; [done|]. cbn.
  pose proof (H x (list_elem_of_here _ _)). specialize (IH (λ y Hy, H y (list_elem_of_further _ _ _ Hy))).
  unfold sum_with in IH. lia.
Qed.

(** Adding one at a single place of the list adds one to the sum. *)
Lemma sum_with_one (f g : Z → Z) b l : NoDup l → b ∈ l → (∀ x, x ∈ l → f x = g x + one b x) →
  sum_with f l = sum_with g l + 1.
Proof.
  induction l as [|x l IH]; intros Hnd Hb H; [by apply not_elem_of_nil in Hb|].
  apply NoDup_cons in Hnd as [Hx Hnd]. pose proof (H x (list_elem_of_here _ _)) as Hfx. cbn.
  assert (∀ y, y ∈ l → f y = g y + one b y) as Hl by (intros y Hy; apply H; by apply list_elem_of_further).
  change (foldr (λ x s, f x + s) 0 l) with (sum_with f l). change (foldr (λ x s, g x + s) 0 l) with (sum_with g l).
  apply elem_of_cons in Hb as [<-|Hb].
  - rewrite (sum_with_ext f g l).
    + rewrite Hfx. unfold one. rewrite decide_True by done. lia.
    + intros y Hy. rewrite Hl by done. unfold one. rewrite decide_False; [lia|]. by intros ->.
  - rewrite IH by done. rewrite Hfx. unfold one. rewrite decide_False; [lia|]. by intros ->.
Qed.

Lemma nfree_alloc s s' b : in_data sb b → brefs s b = 0 → (∀ x, 0 ≤ brefs s x) →
  (∀ x, brefs s' x = brefs s x + one b x) → nfree s = nfree s' + 1.
Proof.
  intros Hb H0 Hp Hr. unfold nfree. apply (sum_with_one _ _ b).
  - apply nodup_range.
  - apply in_range. unfold in_data in Hb. lia.
  - intros x Hx. rewrite Hr. unfold one. specialize (Hp x). case_decide as E.
    + subst x. rewrite H0. done.
    + rewrite !Z.add_0_r. lia.
Qed.

Lemma nfree_mono s s' : (∀ x, in_data sb x → brefs s x = 0 → brefs s' x = 0) → nfree s ≤ nfree s'.
Proof.
  intros H. apply sum_with_le. intros x Hx%in_range.
  destruct (Z.eqb_spec (brefs s x) 0) as [E|E]; [rewrite (H x) by done; done|].
  destruct (brefs s' x =? 0); lia.
Qed.

Lemma nfree_none s : (∀ b, in_data sb b → brefs s b ≠ 0) → nfree s = 0.
Proof.
  intros H. unfold nfree. rewrite (sum_with_ext _ (λ _, 0)).
  - induction (range (data_start sb) (sb_size sb)) as [|x l IH]; [done|]. cbn. exact IH.
  - intros x Hx%in_range. by rewrite (proj2 (Z.eqb_neq _ _)) by (by apply H).
Qed.

Lemma nfree_eq s s' : brefs s' = brefs s → nfree s' = nfree s.
Proof. intros E. unfold nfree. by rewrite E. Qed.

(** ** Allocating at a position *)

Lemma count_set_new P inum p v x : P !! (inum, p) = None → v ≠ 0 →
  count x (set_P P inum p v) = count x P + one v x.
Proof. intros HP Hv. unfold set_P. rewrite (proj2 (Z.eqb_neq _ _) Hv). by apply count_insert. Qed.

Lemma count_set_old P inum p v b x : P !! (inum, p) = Some b → v ≠ 0 →
  count x (set_P P inum p v) = count x P - one b x + one v x.
Proof.
  intros HP Hv. unfold set_P. rewrite (proj2 (Z.eqb_neq _ _) Hv).
  rewrite <-insert_delete_eq, count_insert by apply lookup_delete_eq. by rewrite (count_delete x _ b).
Qed.

Lemma count_set_clear P inum p b x : P !! (inum, p) = Some b → count x (set_P P inum p 0) = count x P - one b x.
Proof. intros HP. by apply count_delete. Qed.

Lemma at_loc_frame s s' P e e' ip inum p l : inv s P e → inv s' P e' → inum_ok sb inum → valid_pos p →
  at_loc sb s ip inum p l → at_loc sb s' ip inum p l.
Proof.
  intros Hi Hi' Hn Hv. unfold at_loc. destruct (parent p) as [q|] eqn:Eq; [|done].
  destruct (parent_valid p q Hv Eq) as [Hvq _].
  rewrite (ptr_lookup s P), (ptr_lookup s' P) by (done || apply Hi || apply Hi'). done.
Qed.

Lemma brefs_count s P b : inv s P zero → in_data sb b → brefs s b = count b P.
Proof. intros Hi Hb. rewrite (r_ref _ _ _ _ (v_counted _ _ _ _ Hi)) by done. unfold zero. lia. Qed.

Lemma fresh_none s P ext b : inv s P ext → (∀ x, 0 ≤ ext x) → in_data sb b → brefs s b = 0 → ∀ k, P !! k ≠ Some b.
Proof.
  intros Hi He Hb H0 k Hk. pose proof (count_pos b k P Hk). specialize (He b).
  pose proof (r_ref _ _ _ _ (v_counted _ _ _ _ Hi) b Hb). lia.
Qed.

(** What a step that may allocate at most [cost] blocks for one file keeps: the
    contents of all files and the other inodes. *)
Record grows (ip : nat) (s s' : fs) (P' : ptrs) (cost : Z) : Prop := {
  g_inv : inv s' P' zero;
  g_touch : touches sb ip s s';
  g_files : same_files s s';
  g_free : nfree s - cost ≤ nfree s';
}.

Lemma grows_trans ip s1 s2 s3 P2 P3 c1 c2 : grows ip s1 s2 P2 c1 → grows ip s2 s3 P3 c2 →
  grows ip s1 s3 P3 (c1 + c2).
Proof.
  intros [A1 A2 A3 A4] [B1 B2 B3 B4]. split; [done|by eapply touches_trans|by eapply same_files_trans|lia].
Qed.

Lemma grows_weaken ip s s' P c c' : grows ip s s' P c → c ≤ c' → grows ip s s' P c'.
Proof. intros [A1 A2 A3 A4] Hc. split; try done. lia. Qed.

(** A new block for an empty position. *)
Lemma alloc_at_spec ip inum p l s P e : inv s P e → (∀ x, 0 ≤ e x) → owns s ip inum → valid_pos p → at_loc sb s ip inum p l →
  P !! (inum, p) = None →
  match balloc sb s with
  | None => nfree s = 0
  | Some (b, s1) => let s' := write_loc l b s1 in
      inv s' (<[(inum, p) := b]> P) e ∧ touches sb ip s s' ∧ in_data sb b ∧ (∀ k, P !! k ≠ Some b) ∧
      zero_block b s' ∧ (∀ c, in_data sb c → c ≠ b → c ≠ loc_block l → same_block c s s') ∧ nfree s - 1 ≤ nfree s'
  end.
Proof.
  intros Hi He Ho Hv Hat HP. pose proof (v_cache _ _ _ _ Hi) as Hc.
  pose proof (owns_inum sb s ip inum Hc Ho) as Hn. pose proof (v_linked _ _ _ _ Hi) as Hl.
  pose proof (balloc_spec sb Hsb s P e Hi He) as Hb.
  destruct (balloc sb s) as [[b s1]|]; [|by apply nfree_none].
  destruct Hb as (Hd & H0 & Hi1 & Hf & Hz & Hr). pose proof (in_data_pos b Hd) as Hbp.
  pose proof (fresh_none s P e b Hi He Hd H0) as Hfresh.
  pose proof (touches_owns sb ip s s1 ip inum (touches_frame sb ip _ _ _ Hf) Ho) as Ho1.
  pose proof (at_loc_frame s s1 P _ _ ip inum p l Hi Hi1 Hn Hv Hat) as Hat1.
  assert (∀ q, parent q = Some p → P !! (inum, q) = None) as Hleaf.
  { intros q Hq. destruct (P !! (inum, q)) as [c|] eqn:Ec; [|done].
    rewrite (no_child s P inum p q Hl Hn) in Ec; try done. apply (child_valid s P inum q Hl). by rewrite Ec. }
  assert (b ≠ loc_block l) as Hbl.
  { destruct (loc_block_cases sb s P e ip inum p l Hi Ho Hv Hat) as [->|(q & _ & HPq & _)]; [lia|].
    intros ->. by apply (Hfresh (inum, q)). }
  assert (is_meta p = true → b ≠ 0 → zero_block b s1 ∧ b ≠ loc_block l) as Hzero by (by intros _ _).
  assert (b ≠ 0 → ∀ k, P !! k = Some b → k ≠ (inum, p) → is_meta k.2 = false ∧ is_meta p = false) as Hexcl.
  { intros _ k Hk. by destruct (Hfresh k). }
  pose proof (write_loc_frame sb Hsb s1 P _ ip inum p l b Hi1 Ho1 Hv Hat1) as (F1 & F2 & F3 & F4 & F5 & F6).
  pose proof (inv_set_ptr sb Hsb s1 P _ ip inum p l b Hi1 Ho1 Hv Hat1 Hleaf (in_data_word b Hd) (λ _, Hd) Hexcl Hzero) as Hi2.
  assert (set_P P inum p b = <[(inum, p) := b]> P) as E by (unfold set_P; by rewrite (proj2 (Z.eqb_neq _ _)) by lia).
  cbn zeta. split_and!; try done.
  - rewrite <-E. apply (inv_ext sb _ _ _ e Hi2). intros x Hx. rewrite count_set_new by (done || lia). unfold plus. lia.
  - eapply touches_trans; [exact (touches_frame sb ip _ _ _ Hf)|done].
  - intros x Hx. rewrite (F5 b) by done. by apply Hz.
  - intros c Hcd Hcb Hcl x Hx. rewrite (F5 c) by done. by apply (f_block _ _ _ _ Hf c).
  - rewrite (nfree_eq s1 _ F1). rewrite (nfree_alloc s s1 b) by (try done; apply (r_nonneg _ _ _ _ (v_counted _ _ _ _ Hi))). lia.
Qed.

Lemma grows_log ip s s' P c b : grows ip s s' P c → grows ip s (log_write b s') P c.
Proof.
  intros [A1 A2 A3 A4]. pose proof (frame_log sb b s' no_block) as Hf. split.
  - by apply inv_log.
  - eapply touches_trans; [done|exact (touches_frame sb ip _ _ _ Hf)].
  - eapply same_files_trans; [done|]. apply (same_files_frame s' _ P zero zero no_block); try done; [by apply inv_log|]. by intros k x _ [].
  - rewrite (nfree_eq s' (log_write b s')); [done|]. apply (log_write_fields b s').
Qed.

Lemma grows_alloc ip inum p l b s s' P : inv s P zero → owns s ip inum → valid_pos p → at_loc sb s ip inum p l →
  P !! (inum, p) = None → inv s' (<[(inum, p) := b]> P) zero → touches sb ip s s' → (∀ k, P !! k ≠ Some b) →
  zero_block b s' → (∀ c, in_data sb c → c ≠ b → c ≠ loc_block l → same_block c s s') → nfree s - 1 ≤ nfree s' →
  grows ip s s' (<[(inum, p) := b]> P) 1.
Proof.
  intros Hi Ho Hv Hat HP Hi' Ht Hfresh Hz Hblk Hfree. pose proof (v_linked _ _ _ _ Hi) as Hl. split; try done.
  intros n o Hnn Hoo. destruct (decide ((n, PData (o / BSIZE)) = (inum, p))) as [[= -> Ep]|Hne].
  - rewrite (content_zero s' _ zero inum o b Hi'), (content_hole s P zero); rewrite ?Ep; try done.
    by apply lookup_insert_eq.
  - apply (content_keep s s' P (<[(inum, p) := b]> P) zero zero); try done; [by apply lookup_insert_ne|].
    intros c Hcc. apply Hblk; [by eapply dom_data| |].
    + intros ->. by apply (Hfresh (n, PData (o / BSIZE))).
    + destruct (loc_block_cases sb s P zero ip inum p l Hi Ho Hv Hat) as [->|(q & _ & HPq & Hmq)].
      * pose proof (in_data_pos c (dom_data s P _ c Hl Hcc)). lia.
      * intros ->. pose proof (l_meta sb s P Hl _ _ _ HPq Hcc Hmq) as [= _ ->]. done.
Qed.

Lemma get_or_alloc_spec ip inum p l pbuf s P : inv s P zero → owns s ip inum → valid_pos p →
  at_loc sb s ip inum p l →
  match get_or_alloc sb l pbuf s with
  | None => nfree s = 0
  | Some (b, s') => ∃ P', grows ip s s' P' 1 ∧ P' !! (inum, p) = Some b ∧
      (∀ k, k ≠ (inum, p) → P' !! k = P !! k) ∧ P ⊆ P'
  end.
Proof.
  intros Hi Ho Hv Hat. pose proof (v_cache _ _ _ _ Hi) as Hc.
  pose proof (owns_inum sb s ip inum Hc Ho) as Hn. pose proof (v_linked _ _ _ _ Hi) as Hl.
  unfold get_or_alloc. rewrite (read_at_loc sb s ip inum p l Hc Ho Hv Hat).
  destruct (Z.eqb_spec (ptr sb s inum p) 0) as [E|E].
  2: { exists P. split_and!; [|by apply (ptr_block sb s)|done|done]. split; try done; [apply touches_refl|lia]. }
  pose proof (proj1 (ptr_None s P inum p Hl Hn Hv) E) as HP.
  pose proof (alloc_at_spec ip inum p l s P zero Hi ltac:(done) Ho Hv Hat HP) as Hb.
  destruct (balloc sb s) as [[b s1]|]; cbn [mbind option_bind]; [|done].
  destruct Hb as (Hi' & Ht & Hd & Hfresh & Hz & Hblk & Hfree). exists (<[(inum, p) := b]> P).
  assert (grows ip s (write_loc l b s1) (<[(inum, p) := b]> P) 1) as Hg by (by apply (grows_alloc ip inum p l b)).
  split_and!; [destruct pbuf; [by apply grows_log|done]|by apply lookup_insert_eq| |by apply insert_subseteq].
  intros k Hk. by apply lookup_insert_ne.
Qed.


(** ** bmap() *)

Lemma at_loc_child s P e ip inum p q b : inv s P e → inum_ok sb inum → valid_pos p → parent p = Some q →
  P !! (inum, q) = Some b → at_loc sb s ip inum p (LWord b (index p)).
Proof.
  intros Hi Hn Hv Hq HP. unfold at_loc. rewrite Hq. destruct (parent_valid p q Hv Hq) as [Hvq _].
  rewrite (ptr_lookup s P) by (done || apply Hi). rewrite HP. cbn. split; [done|].
  pose proof (in_data_pos b (dom_data s P _ b (v_linked _ _ _ _ Hi) HP)). lia.
Qed.

(** A position below one that has just been filled. *)
Lemma get_or_alloc_child ip inum p q b s P : inv s P zero → owns s ip inum → valid_pos p → parent p = Some q →
  P !! (inum, q) = Some b →
  match get_or_alloc sb (LWord b (index p)) (Some b) s with
  | None => nfree s = 0
  | Some (c, s') => ∃ P', grows ip s s' P' 1 ∧ P' !! (inum, p) = Some c ∧ P ⊆ P' ∧
      at_loc sb s' ip inum p (LWord b (index p))
  end.
Proof.
  intros Hi Ho Hv Hq HP. pose proof (owns_inum sb s ip inum (v_cache _ _ _ _ Hi) Ho) as Hn.
  pose proof (at_loc_child s P zero ip inum p q b Hi Hn Hv Hq HP) as Hat.
  pose proof (get_or_alloc_spec ip inum p _ (Some b) s P Hi Ho Hv Hat) as Hg.
  destruct (get_or_alloc sb (LWord b (index p)) (Some b) s) as [[c s']|]; [|done].
  destruct Hg as (P' & Hgr & HP' & Hk & Hsub). exists P'. split_and!; try done.
  apply (at_loc_child s' P' zero ip inum p q b); try done; [apply Hgr|].
  rewrite Hk; [done|]. intros [= ->]. apply parent_rank in Hq. lia.
Qed.

Lemma bmap_find_spec ip inum bn s P : inv s P zero → owns s ip inum → 0 ≤ bn < MAXFILE →
  match bmap_find sb ip bn s with
  | None => nfree s < 3
  | Some (l, pbuf, b, s') => ∃ P', grows ip s s' P' 3 ∧ P' !! (inum, PData bn) = Some b ∧
      at_loc sb s' ip inum (PData bn) l ∧ P ⊆ P'
  end.
Proof.
  intros Hi Ho Hbn. unfold bmap_find. pose proof (owns_inum sb s ip inum (v_cache _ _ _ _ Hi) Ho) as Hn.
  assert (valid_pos (PData bn)) as Hv by done.
  destruct (Z.ltb_spec bn NDIRECT) as [Hd|Hd].
  { assert (parent (PData bn) = None ∧ index (PData bn) = bn) as [Ep Ei] by (cbn; by rewrite (proj2 (Z.ltb_lt _ _) Hd)).
    assert (∀ s, at_loc sb s ip inum (PData bn) (LAddr ip bn)) as Hat by (intros s0; unfold at_loc; by rewrite Ep, Ei).
    pose proof (get_or_alloc_spec ip inum _ _ None s P Hi Ho Hv (Hat s)) as Hg.
    destruct (get_or_alloc sb (LAddr ip bn) None s) as [[b s']|]; cbn [mbind option_bind]; [|lia].
    destruct Hg as (P' & Hgr & HP' & _ & Hsub). exists P'. split_and!; try done. by apply (grows_weaken _ _ _ _ 1); [|lia]. }
  destruct (Z.ltb_spec (bn - NDIRECT) NINDIRECT) as [Hs|Hs].
  { assert (parent (PData bn) = Some PInd ∧ index (PData bn) = bn - NDIRECT) as [Ep Ei].
    { cbn. rewrite (proj2 (Z.ltb_ge _ _) Hd), (proj2 (Z.ltb_lt _ _)) by lia. done. }
    pose proof (get_or_alloc_spec ip inum PInd (LAddr ip NDIRECT) None s P Hi Ho I eq_refl) as Hg.
    destruct (get_or_alloc sb (LAddr ip NDIRECT) None s) as [[b s1]|]; cbn [mbind option_bind]; [|lia].
    destruct Hg as (P1 & Hg1 & HP1 & _ & Hs1). pose proof (touches_owns _ _ _ _ ip inum (g_touch _ _ _ _ _ Hg1) Ho) as Ho1.
    pose proof (get_or_alloc_child ip inum (PData bn) PInd b s1 P1 (g_inv _ _ _ _ _ Hg1) Ho1 Hv Ep HP1) as Hg.
    rewrite Ei in Hg. pose proof (g_free _ _ _ _ _ Hg1).
    destruct (get_or_alloc sb (LWord b (bn - NDIRECT)) (Some b) s1) as [[c s2]|]; cbn [mbind option_bind]; [|lia].
    destruct Hg as (P2 & Hg2 & HP2 & Hs2 & Hat). exists P2. split_and!; try done; [|by etrans].
    apply (grows_weaken _ _ _ _ 2); [|lia]. by apply (grows_trans _ _ s1 _ P1 _ 1 1). }
  assert (bn - NDIRECT - NINDIRECT < NDINDIRECT) as Hdd by (unfold MAXFILE in Hbn; lia).
  rewrite (proj2 (Z.ltb_lt _ _) Hdd).
  set (k := (bn - NDIRECT - NINDIRECT) / NADDR_PER_BLOCK). set (j := (bn - NDIRECT - NINDIRECT) `mod` NADDR_PER_BLOCK).
  assert (parent (PData bn) = Some (PL1 k) ∧ index (PData bn) = j) as [Ep Ei].
  { cbn. rewrite (proj2 (Z.ltb_ge _ _) Hd), (proj2 (Z.ltb_ge bn _)) by lia. done. }
  assert (valid_pos (PL1 k)) as Hvk by (by apply (parent_valid (PData bn))).
  pose proof (get_or_alloc_spec ip inum PDind (LAddr ip (NDIRECT + 1)) None s P Hi Ho I eq_refl) as Hg.
  destruct (get_or_alloc sb (LAddr ip (NDIRECT + 1)) None s) as [[b s1]|]; cbn [mbind option_bind]; [|lia].
  destruct Hg as (P1 & Hg1 & HP1 & _ & Hs1). pose proof (touches_owns _ _ _ _ ip inum (g_touch _ _ _ _ _ Hg1) Ho) as Ho1.
  pose proof (get_or_alloc_child ip inum (PL1 k) PDind b s1 P1 (g_inv _ _ _ _ _ Hg1) Ho1 Hvk eq_refl HP1) as Hg.
  cbn [index] in Hg. pose proof (g_free _ _ _ _ _ Hg1).
  destruct (get_or_alloc sb (LWord b k) (Some b) s1) as [[c s2]|]; cbn [mbind option_bind]; [|lia].
  destruct Hg as (P2 & Hg2 & HP2 & Hs2 & _). pose proof (touches_owns _ _ _ _ ip inum (g_touch _ _ _ _ _ Hg2) Ho1) as Ho2.
  pose proof (get_or_alloc_child ip inum (PData bn) (PL1 k) c s2 P2 (g_inv _ _ _ _ _ Hg2) Ho2 Hv Ep HP2) as Hg.
  rewrite Ei in Hg. pose proof (g_free _ _ _ _ _ Hg2).
  destruct (get_or_alloc sb (LWord c j) (Some c) s2) as [[d s3]|]; cbn [mbind option_bind]; [|lia].
  destruct Hg as (P3 & Hg3 & HP3 & Hs3 & Hat). exists P3. split_and!; try done; [|by do 2 (etrans; [done|])].
  apply (grows_trans _ _ s2 _ P2 _ 2 1); [|done]. by apply (grows_trans _ _ s1 _ P1 _ 1 1).
Qed.


(** A data position has no position below it. *)
Lemma data_leaf (n bn : Z) (P : ptrs) (q : pos) : parent q = Some (PData bn) → P !! (n, q) = None.
Proof. destruct q; cbn; case_tests; done. Qed.

(** Filling a block that nothing points to. *)
Lemma inv_fill s s' P ext b : inv s P ext → in_data sb b → (∀ k, P !! k ≠ Some b) →
  frame sb s s' (λ x, x = b) → (∀ x, 0 ≤ dsk s' x < 256) → hint s' = hint s → brefs s' = brefs s →
  (∀ x, sb_bmapstart sb * BSIZE ≤ x < data_start sb * BSIZE → dsk s' x = dsk s x) → inv s' P ext.
Proof.
  intros Hi Hb Hno Hf Hby Hh Hr Hbm. apply (inv_frame sb Hsb s s' P ext); try done; try apply Hf.
  - intros k c Hk _. apply Hf; [by eapply dom_data; [apply Hi|]|]. intros ->. by apply (Hno k).
  - rewrite Hh. apply Hi.
  - destruct (v_counted _ _ _ _ Hi) as [C1 C2 C3]. split; rewrite Hr; try done.
    intros x Hx. rewrite <-C3 by done. by rewrite (bit_data sb Hsb x s).
Qed.

(** The block [b] is filled by a copy or by bytes of the caller. *)
Lemma store_frame s b (m : Z → Z) : in_data sb b →
  (∀ x, ¬ (b * BSIZE ≤ x < b * BSIZE + BSIZE) → m x = dsk s x) →
  frame sb s (s <| dsk := m |>) (λ x, x = b) ∧
  (∀ x, sb_bmapstart sb * BSIZE ≤ x < data_start sb * BSIZE → m x = dsk s x).
Proof.
  intros Hb Hm. split; [split; try done|].
  - intros x Hx. apply Hm. intros Hc. pose proof (data_bytes sb Hsb b x Hb Hc). lia.
  - intros c Hc Hne x Hx. apply Hm. unfold BSIZE in *. lia.
  - intros x Hx. apply Hm. intros Hc. pose proof (data_bytes sb Hsb b x Hb Hc). lia.
Qed.

Lemma bmap_cow_spec ip inum bn l pbuf addr s P : inv s P zero → owns s ip inum → 0 ≤ bn < MAXFILE →
  at_loc sb s ip inum (PData bn) l → P !! (inum, PData bn) = Some addr →
  match bmap_cow sb l pbuf addr s with
  | None => nfree s = 0
  | Some (b, s') => ∃ P', grows ip s s' P' 1 ∧ P' !! (inum, PData bn) = Some b ∧
      (∀ k, P' !! k = Some b → k = (inum, PData bn))
  end.
Proof.
  intros Hi Ho Hbn Hat HP. pose proof (v_cache _ _ _ _ Hi) as Hc. pose proof (v_linked _ _ _ _ Hi) as Hl.
  pose proof (owns_inum sb s ip inum Hc Ho) as Hn. pose proof (dom_data s P _ addr Hl HP) as Had.
  assert (valid_pos (PData bn)) as Hv by done.
  unfold bmap_cow. pose proof (balloc_spec sb Hsb s P zero Hi ltac:(done)) as Hb.
  destruct (balloc sb s) as [[b s1]|]; cbn [mbind option_bind]; [|by apply nfree_none].
  destruct Hb as (Hd & H0 & Hi1 & Hf1 & Hz & Hr). pose proof (in_data_pos b Hd) as Hbp.
  pose proof (fresh_none s P zero b Hi ltac:(done) Hd H0) as Hfresh.
  assert (addr ≠ b) as Hab by (intros ->; by apply (Hfresh (inum, PData bn))).
  (* the copy *)
  set (s2 := s1 <| dsk := memmove (b * BSIZE) (addr * BSIZE) BSIZE (dsk s1) |>).
  destruct (store_frame s1 b (memmove (b * BSIZE) (addr * BSIZE) BSIZE (dsk s1)) Hd) as [Hf2 Hbm2].
  { intros x Hx. by apply memmove_out. }
  fold s2 in Hf2. assert (inv s2 P (plus zero b 1)) as Hi2.
  { apply (inv_fill s1 s2 P _ b); try done. intros x. cbn [dsk upd dsk_set s2]. unfold memmove. case_match; apply Hi1. }
  apply (inv_log sb Hsb b) in Hi2. pose proof (frame_log sb b s2 (λ x, x = b)) as Hfl.
  destruct (log_write_fields b s2) as (L1 & L2 & L3 & L4 & L5). set (s3 := log_write b s2) in *.
  assert (frame sb s s3 (λ x, x = b)) as Hf3 by (eapply frame_trans; [done|]; by eapply frame_trans).
  pose proof (touches_owns sb ip s s3 ip inum (touches_frame sb ip _ _ _ Hf3) Ho) as Ho3.
  pose proof (at_loc_frame s s3 P _ _ ip inum _ l Hi Hi2 Hn Hv Hat) as Hat3.
  assert (b ≠ 0 → ∀ k, P !! k = Some b → k ≠ (inum, PData bn) → is_meta k.2 = false ∧ is_meta (PData bn) = false) as Hexcl.
  { intros _ k Hk. by destruct (Hfresh k). }
  pose proof (write_loc_frame sb Hsb s3 P _ ip inum _ l b Hi2 Ho3 Hv Hat3) as (F1 & F2 & F3 & F4 & F5 & F6).
  pose proof (inv_set_ptr sb Hsb s3 P _ ip inum _ l b Hi2 Ho3 Hv Hat3 (data_leaf inum bn P) (in_data_word b Hd) (λ _, Hd) Hexcl ltac:(done)) as Hi4.
  set (s4 := write_loc l b s3) in *. set (P4 := set_P P inum (PData bn) b) in *.
  assert (P4 !! (inum, PData bn) = Some b) as HP4.
  { unfold P4, set_P. rewrite (proj2 (Z.eqb_neq _ _)) by lia. apply lookup_insert_eq. }
  assert (∀ k, k ≠ (inum, PData bn) → P4 !! k = P !! k) as HP4'.
  { intros k Hk. unfold P4, set_P. rewrite (proj2 (Z.eqb_neq _ _)) by lia. by apply lookup_insert_ne. }
  apply (inv_ext sb s4 P4 _ (one addr)) in Hi4.
  2: { intros x Hx. unfold P4. rewrite (count_set_old _ _ _ _ addr) by (done || lia). unfold plus, zero. lia. }
  (* the log *)
  set (s5 := match pbuf with Some c => log_write c s4 | None => s4 end).
  assert (inv s5 P4 (one addr) ∧ frame sb s4 s5 no_block ∧ brefs s5 = brefs s4) as (Hi5 & Hf5 & Hr5).
  { unfold s5. destruct pbuf as [c|]; [|split_and!; [done|apply frame_refl|done]].
    split_and!; [by apply inv_log|apply frame_log|apply log_write_fields]. }
  (* the old block *)
  destruct (bfree_spec sb Hsb addr s5 P4 (one addr) Hi5 Had) as (s6 & Hfr & Hi6 & Hf6 & Hz6).
  { pose proof (count_nonneg addr P4). pose proof (count_bound sb s5 P4 addr Hsb (v_linked _ _ _ _ Hi5)).
    unfold one. rewrite decide_True by done. split; [lia|].
    pose proof (count_delete addr _ b P4 HP4). unfold P4 in *. rewrite (count_set_old _ _ _ _ addr) in * by (done || lia).
    pose proof (count_bound sb s P addr Hsb Hl). unfold one in *. rewrite decide_True in * by done.
    rewrite (decide_False (P := b = addr)) in * by done. lia. }
  change (match pbuf with Some b0 => log_write b0 s4 | None => s4 end) with s5. rewrite Hfr. cbn [mbind option_bind].
  apply (inv_ext sb s6 P4 _ zero) in Hi6.
  2: { intros x Hx. unfold plus, zero. lia. }
  exists P4. split_and!; [split| |]; try done.
  - eapply touches_trans; [exact (touches_frame sb ip _ _ _ Hf3)|].
    eapply touches_trans; [exact F4|]. eapply touches_trans; [exact (touches_frame sb ip _ _ _ Hf5)|].
    exact (touches_frame sb ip _ _ _ Hf6).
  - assert (∀ c, in_data sb c → c ≠ loc_block l → same_block c s3 s6) as Hkeep.
    { intros c Hcd Hcl x Hx. rewrite (f_block _ _ _ _ Hf6 c), (f_block _ _ _ _ Hf5 c), (F5 c); try done; by intros []. }
    pose proof (loc_block_cases sb s P zero ip inum _ l Hi Ho Hv Hat) as Hlb.
    assert (∀ c k, in_data sb c → P !! k = Some c ∨ c = b → is_meta k.2 = false → c ≠ loc_block l) as Hcl.
    { intros c k Hcd Hk Hm ->. destruct Hlb as [E|(q & _ & HPq & Hmq)].
      - rewrite E in Hcd. pose proof (in_data_pos 0 Hcd). lia.
      - destruct Hk as [Hk|<-]; [|by apply (Hfresh (inum, q))].
        pose proof (l_meta sb s P Hl _ _ _ HPq Hk Hmq) as <-. cbn in Hm. congruence. }
    intros n o Hnn Hoo. destruct (decide ((n, PData (o / BSIZE)) = (inum, PData bn))) as [[= -> Ep]|Hne].
    + rewrite (content_byte s6 P4 zero inum o b), (content_byte s P zero inum o addr); rewrite ?Ep; try done.
      rewrite (Hkeep b Hd (Hcl b (inum, PData bn) Hd (or_intror eq_refl) eq_refl)) by apply block_byte_in.
      rewrite L1. cbn [dsk upd dsk_set s2]. rewrite memmove_in by apply block_byte_in.
      replace (addr * BSIZE + (b * BSIZE + o `mod` BSIZE - b * BSIZE)) with (addr * BSIZE + o `mod` BSIZE) by lia.
      by apply (f_block _ _ _ _ Hf1 addr); [..|apply block_byte_in].
    + apply (content_keep s s6 P P4 zero zero); try done; [by apply HP4'|].
      intros c Hcc x Hx. pose proof (dom_data s P _ c Hl Hcc) as Hcd.
      rewrite (Hkeep c Hcd (Hcl c _ Hcd (or_introl Hcc) eq_refl)) by done.
      apply (f_block _ _ _ _ Hf3 c); try done. intros ->. by apply (Hfresh (n, PData (o / BSIZE))).
  - assert (nfree s5 ≤ nfree s6) by (by apply nfree_mono).
    assert (nfree s5 = nfree s1) as E5.
    { apply nfree_eq. rewrite Hr5, F1. exact L2. }
    rewrite (nfree_alloc s s1 b) by (try done; apply (r_nonneg _ _ _ _ (v_counted _ _ _ _ Hi))). lia.
  - intros k Hk. destruct (decide (k = (inum, PData bn))); [done|]. rewrite HP4' in Hk by done. by destruct (Hfresh k).
Qed.

Lemma bmap_write_spec ip inum bn s P : inv s P zero → owns s ip inum → 0 ≤ bn < MAXFILE →
  match bmap sb ip bn true s with
  | None => nfree s < 4
  | Some (b, s') => ∃ P', grows ip s s' P' 4 ∧ P' !! (inum, PData bn) = Some b ∧
      (∀ k, P' !! k = Some b → k = (inum, PData bn))
  end.
Proof.
  intros Hi Ho Hbn. unfold bmap. pose proof (bmap_find_spec ip inum bn s P Hi Ho Hbn) as Hf.
  destruct (bmap_find sb ip bn s) as [[[[l pbuf] b] s1]|]; cbn [mbind option_bind]; [|lia].
  destruct Hf as (P1 & Hg1 & HP1 & Hat & _). pose proof (g_inv _ _ _ _ _ Hg1) as Hi1.
  pose proof (dom_data s1 P1 _ b (v_linked _ _ _ _ Hi1) HP1) as Hd. pose proof (in_data_pos b Hd).
  rewrite (proj2 (Z.eqb_neq _ _)) by lia. cbn [andb negb].
  unfold bref_get. rewrite (proj2 (Z.leb_gt _ _)) by (unfold in_data in Hd; lia). cbn [mbind option_bind].
  pose proof (brefs_count s1 P1 b Hi1 Hd) as Hr. destruct (Z.ltb_spec 1 (brefs s1 b)) as [Hsh|Hsh].
  - pose proof (touches_owns _ _ _ _ ip inum (g_touch _ _ _ _ _ Hg1) Ho) as Ho1.
    pose proof (bmap_cow_spec ip inum bn l pbuf b s1 P1 Hi1 Ho1 Hbn Hat HP1) as Hcow.
    pose proof (g_free _ _ _ _ _ Hg1).
    destruct (bmap_cow sb l pbuf b s1) as [[c s2]|]; [|lia].
    destruct Hcow as (P2 & Hg2 & HP2 & Hu). exists P2. split_and!; try done. by apply (grows_trans _ _ s1 _ P1 _ 3 1).
  - exists P1. split_and!; try done; [by apply (grows_weaken _ _ _ _ 3)|].
    intros k Hk. destruct (decide (k = (inum, PData bn))) as [|Hne]; [done|].
    pose proof (count_two b k (inum, PData bn) P1 Hk HP1 Hne). lia.
Qed.


(** ** Writing *)

Definition is_byte (b : Z) : Prop := 0 ≤ b < 256.

(** [bs] written at [off] of file [inum]. *)
Definition overwrite (inum off : Z) (bs : list Z) (n o old : Z) : Z :=
  if decide (n = inum ∧ off ≤ o < off + Z.of_nat (length bs)) then bs !!! Z.to_nat (o - off) else old.

Lemma store_block_spec ip inum s P b off bs : inv s P zero → owns s ip inum → 0 ≤ off → off_ok off →
  P !! (inum, PData (off / BSIZE)) = Some b → (∀ k, P !! k = Some b → k = (inum, PData (off / BSIZE))) →
  Forall is_byte bs → off `mod` BSIZE + Z.of_nat (length bs) ≤ BSIZE →
  let s' := s <| dsk := store_bytes (b * BSIZE + off `mod` BSIZE) bs (dsk s) |> in
  inv s' P zero ∧ touches sb ip s s' ∧
  ∀ n o, inum_ok sb n → off_ok o → content s' n o = overwrite inum off bs n o (content s n o).
Proof.
  intros Hi Ho Hoff Hok HP Hu Hbs Hlen s'. pose proof (v_linked _ _ _ _ Hi) as Hl.
  pose proof (dom_data s P _ b Hl HP) as Hd. pose proof (Z.mod_pos_bound off BSIZE ltac:(done)) as Hm.
  destruct (store_frame s b (store_bytes (b * BSIZE + off `mod` BSIZE) bs (dsk s)) Hd) as [Hf Hbm].
  { intros x Hx. apply store_bytes_out. lia. }
  fold s' in Hf. assert (inv s' P zero) as Hi'.
  { apply (inv_frame sb Hsb s s' P zero); try done; try apply Hf.
    - intros k c Hk Hmk. apply Hf; [by eapply dom_data; [apply Hi|]|]. intros ->. by rewrite (Hu k Hk) in Hmk.
    - intros x. cbn [dsk upd dsk_set s']. unfold store_bytes. case_match; [|apply Hi].
      bool_facts. rewrite Forall_forall in Hbs. apply Hbs.
      apply list_elem_of_lookup_2 with (Z.to_nat (x - (b * BSIZE + off `mod` BSIZE))).
      apply list_lookup_lookup_total_lt. generalize dependent (b * BSIZE + off `mod` BSIZE). intros. lia.
    - apply Hi.
    - destruct (v_counted _ _ _ _ Hi) as [C1 C2 C3]. split; try done.
      intros x Hx. change (brefs s' x) with (brefs s x). rewrite <-C3 by done. by rewrite (bit_data sb Hsb x s s'). }
  split_and!; [done|by eapply touches_frame|]. intros n o Hn Hoo. unfold overwrite.
  assert (∀ x, b * BSIZE + x - (b * BSIZE + off `mod` BSIZE) = x - off `mod` BSIZE) as Hsub by (intros; lia).
  pose proof (Z.div_mod o BSIZE ltac:(done)). pose proof (Z.div_mod off BSIZE ltac:(done)).
  pose proof (Z.mod_pos_bound o BSIZE ltac:(done)).
  destruct (decide (n = inum ∧ o / BSIZE = off / BSIZE)) as [[-> E]|Hne].
  - rewrite (content_byte s' P zero inum o b), (content_byte s P zero inum o b); rewrite ?E; try done.
    cbn [dsk upd dsk_set s']. case_decide as Ein.
    + rewrite store_bytes_in by (rewrite E in *; lia). f_equal. rewrite Hsub. rewrite E in *. lia.
    + rewrite store_bytes_out; [done|]. rewrite E in *. lia.
  - rewrite decide_False.
    + apply (content_keep s s' P P zero zero); try done. intros c Hcc. apply Hf; [by eapply dom_data|].
      intros ->. pose proof (Hu _ Hcc) as [= -> E]. by apply Hne.
    + intros [-> Hr]. apply Hne. split; [done|]. assert (0 < BSIZE) by done. nia.
Qed.

Section source.
(** The source of the bytes: what either_copyin() stores. *)
Context (src : Z → Z → list Z * bool).
Context (Hsrc : ∀ tot m, 0 ≤ m →
  Forall is_byte (src tot m).1 ∧ Z.of_nat (length (src tot m).1) ≤ m ∧
  ((src tot m).2 = true → Z.of_nat (length (src tot m).1) = m)).

(** The bytes that the turns of writei() store, and where the offset ends. *)
Fixpoint copied (fuel : nat) (off tot n : Z) : list Z * Z :=
  match fuel with
  | O => ([], off)
  | S fuel =>
      if tot <? n then
        let m := Z.min (n - tot) (BSIZE - off `mod` BSIZE) in
        let '(bs, ok) := src tot m in
        if ok : bool then let '(bs', off') := copied fuel (off + m) (tot + m) n in (bs ++ bs', off')
        else (bs, off)
      else ([], off)
  end.

(** The turns that are left. *)
Definition need (off rem : Z) : Z := if rem <=? 0 then 0 else (off `mod` BSIZE + rem + BSIZE - 1) / BSIZE.

Lemma need_nonneg off rem : 0 ≤ need off rem.
Proof.
  unfold need. destruct (Z.leb_spec rem 0); [done|]. pose proof (Z.mod_pos_bound off BSIZE ltac:(done)).
  apply Z.div_pos; lia.
Qed.

Lemma need_step off rem : 0 ≤ off → 0 < rem → let m := Z.min rem (BSIZE - off `mod` BSIZE) in
  0 < m ∧ off `mod` BSIZE + m ≤ BSIZE ∧ need (off + m) (rem - m) ≤ need off rem - 1 ∧ (off + m - 1) / BSIZE = off / BSIZE.
Proof.
  intros Ho Hr m. pose proof (Z.mod_pos_bound off BSIZE ltac:(done)).
  assert (0 < m ∧ off `mod` BSIZE + m ≤ BSIZE) as [Hm1 Hm2] by lia.
  pose proof (Z.div_mod off BSIZE ltac:(done)).
  assert ((off + m) `mod` BSIZE = off `mod` BSIZE + m ∨ ((off + m) `mod` BSIZE = 0 ∧ off `mod` BSIZE + m = BSIZE)) as Hmod.
  { unfold BSIZE in *. Z.to_euclidean_division_equations; lia. }
  split_and!; try done.
  - unfold need. rewrite (proj2 (Z.leb_gt rem 0)) by lia. destruct (Z.leb_spec (rem - m) 0).
    + assert (1 ≤ (off `mod` BSIZE + rem + BSIZE - 1) / BSIZE); [|lia]. apply Z.div_le_lower_bound; lia.
    + assert (m = BSIZE - off `mod` BSIZE) as Hm by lia. unfold BSIZE in *. Z.to_euclidean_division_equations; lia.
  - unfold BSIZE in *. Z.to_euclidean_division_equations; lia.
Qed.

Lemma overwrite_app inum off bs bs' n o old :
  overwrite inum (off + Z.of_nat (length bs)) bs' n o (overwrite inum off bs n o old) =
  overwrite inum off (bs ++ bs') n o old.
Proof.
  unfold overwrite. rewrite length_app. destruct (decide (n = inum ∧ off ≤ o < off + Z.of_nat (length bs))) as [[-> H1]|H1].
  - rewrite decide_False by lia. rewrite decide_True by lia. rewrite lookup_total_app_l by lia. done.
  - destruct (decide (n = inum ∧ off + _ ≤ o < _)) as [[-> H2]|H2].
    + rewrite decide_True by lia. rewrite lookup_total_app_r by lia. f_equal. lia.
    + rewrite decide_False; [done|]. intros [-> H3]. lia.
Qed.

Lemma write_loop_spec fuel ip inum off tot n s P : inv s P zero → owns s ip inum → 0 ≤ off →
  off + (n - tot) ≤ MAXFILE * BSIZE → tot ≤ n → need off (n - tot) < Z.of_nat fuel →
  match write_loop sb fuel ip src off tot n s with
  | None => nfree s < 4 * need off (n - tot)
  | Some (off', s') => ∃ P', inv s' P' zero ∧ touches sb ip s s' ∧ nfree s - 4 * need off (n - tot) ≤ nfree s' ∧ off' = (copied fuel off tot n).2 ∧
      ∀ k o, inum_ok sb k → off_ok o →
        content s' k o = overwrite inum off (copied fuel off tot n).1 k o (content s k o)
  end.
Proof using Hsb Hsrc.
  revert off tot s P. induction fuel as [|fuel IH]; intros off tot s P Hi Ho Hoff Hmax Hle Hfuel.
  { pose proof (need_nonneg off (n - tot)). lia. }
  cbn [write_loop copied]. destruct (Z.ltb_spec tot n) as [Hlt|Hge].
  2: { exists P. split_and!; [done|apply touches_refl|pose proof (need_nonneg off (n - tot)); lia|done|]. intros k o Hk Hoo. unfold overwrite. cbn.
       rewrite decide_False by lia. done. }
  pose proof (need_step off (n - tot) Hoff ltac:(lia)) as (Hm1 & Hm2 & Hm3 & Hm4).
  pose proof (need_nonneg (off + Z.min (n - tot) (BSIZE - off `mod` BSIZE)) (n - tot - Z.min (n - tot) (BSIZE - off `mod` BSIZE))) as Hm5.
  set (m := Z.min (n - tot) (BSIZE - off `mod` BSIZE)) in *.
  assert (off_ok off) as Hok.
  { unfold off_ok. split; [by apply Z.div_pos|]. apply Z.div_lt_upper_bound; [done|]. lia. }
  pose proof (bmap_write_spec ip inum (off / BSIZE) s P Hi Ho Hok) as Hb.
  destruct (bmap sb ip (off / BSIZE) true s) as [[b s1]|]; cbn [mbind option_bind]; [|lia].
  destruct Hb as (P1 & Hg1 & HP1 & Hu). pose proof (touches_owns _ _ _ _ ip inum (g_touch _ _ _ _ _ Hg1) Ho) as Ho1.
  destruct (Hsrc tot m ltac:(lia)) as (Hby & Hlen & Hfull). destruct (src tot m) as [bs ok]. cbn [fst snd] in *.
  destruct (store_block_spec ip inum s1 P1 b off bs (g_inv _ _ _ _ _ Hg1) Ho1 Hoff Hok HP1 Hu Hby ltac:(lia)) as (Hi2 & Ht2 & Hc2).
  set (s2 := s1 <| dsk := _ |>) in *.
  assert (touches sb ip s s2) as Ht by (eapply touches_trans; [apply Hg1|done]).
  assert (∀ k o, inum_ok sb k → off_ok o → content s2 k o = overwrite inum off bs k o (content s k o)) as Hc.
  { intros k o Hk Hoo. rewrite Hc2 by done. by rewrite (g_files _ _ _ _ _ Hg1). }
  destruct ok.
  2: { exists P1. split_and!; try done. pose proof (g_free _ _ _ _ _ Hg1). assert (nfree s2 = nfree s1) by (by apply nfree_eq). lia. }
  specialize (Hfull eq_refl).
  pose proof (frame_log sb b s2 no_block) as Hfl. apply (inv_log sb Hsb b) in Hi2 as Hi3.
  assert (same_files s2 (log_write b s2)) as Hsf.
  { apply (same_files_frame s2 _ P1 zero zero no_block); try done. by intros k c _ []. }
  pose proof (touches_trans sb ip s s2 _ Ht (touches_frame sb ip _ _ _ Hfl)) as Ht3.
  specialize (IH (off + m) (tot + m) (log_write b s2) P1 Hi3 (touches_owns _ _ _ _ ip inum Ht3 Ho) ltac:(lia) ltac:(lia) ltac:(lia)).
  replace (n - (tot + m)) with (n - tot - m) in IH by lia. specialize (IH ltac:(lia)).
  assert (nfree (log_write b s2) = nfree s1) as Hnf.
  { rewrite (nfree_eq s2) by apply log_write_fields. by apply nfree_eq. }
  pose proof (g_free _ _ _ _ _ Hg1).
  destruct (write_loop sb fuel ip src (off + m) (tot + m) n (log_write b s2)) as [[off' s']|]; [|lia].
  destruct IH as (P' & Hi' & Ht' & Hn' & -> & Hc'). destruct (copied fuel (off + m) (tot + m) n) as [bs' off']. cbn [fst snd] in *.
  exists P'. split_and!; [done|by eapply touches_trans|lia|done|].
  intros k o Hk Hoo. rewrite Hc', Hsf, Hc by done. rewrite <-Hfull. apply overwrite_app.
Qed.

End source.

End file.
