(* ===== verification/FsNode.v ===== *)
(** * Inodes: the disk format and the cache

    The round trip between struct dinode on disk and the copy in memory, and the
    calls that move inodes through the cache: iget, idup, ilock, iunlock, iput,
    ialloc, iupdate. [clean] says that the cached inodes are the ones on disk. *)

From stdpp Require Import list_numbers gmap.
From S2P Require Import Prelude Mem Xattr Fs FsInv FsFile.

(** ** The disk format *)

Section codec.
Context (sb : superblock).

Lemma i16_mod v : -2 ^ 15 ≤ v < 2 ^ 15 → i16 (v `mod` 2 ^ 16) = v.
Proof. intros H. unfold i16. rewrite Zplus_mod_idemp_l. rewrite Z.mod_small by lia. lia. Qed.

Lemma write_dinode_out inum d m x : length (d_addrs d) = 13%nat →
  ¬ (dinode_addr sb inum ≤ x < dinode_addr sb inum + 64) → write_dinode sb inum d m x = m x.
Proof.
  intros Hl Hx. unfold write_dinode, store32. set (a := dinode_addr sb inum) in *.
  pose proof (length_words 4 (d_addrs d) ltac:(lia)) as Hw. rewrite Hl in Hw.
  rewrite store_bytes_out by (rewrite Hw; lia). rewrite store_bytes_out by (cbn; lia).
  rewrite !store_le_outside by lia. by rewrite store_bytes_out by (cbn; lia).
Qed.

Lemma read_write_dinode inum d m : dinode_ok d → read_dinode sb inum (write_dinode sb inum d m) = d.
Proof.
  intros [H1 H2 H3 H4 H5 H6 H7 H8]. unfold read_dinode, write_dinode.
  set (a := dinode_addr sb inum).
  set (m1 := store_bytes (a + 1) [d_type d] m). set (m2 := store_le 2 (a + 2) (d_major d) m1).
  set (m3 := store_le 2 (a + 4) (d_minor d) m2). set (m4 := store_le 2 (a + 6) (d_nlink d) m3).
  set (m5 := store32 (a + 8) (d_size d) m4). set (m6 := store_bytes a [d_mode d] m5).
  set (m7 := store_bytes (a + 12) (mjoin (Z_to_little_endian 4 8 <$> d_addrs d)) m6).
  pose proof (length_words 4 (d_addrs d) ltac:(lia)) as Hw. rewrite H7 in Hw.
  assert (∀ x, x < a + 12 → m7 x = m6 x) as E7 by (intros x Hx; apply store_bytes_out; lia).
  assert (∀ x, a < x → m6 x = m5 x) as E6 by (intros x Hx; apply store_bytes_out; cbn; lia).
  assert (∀ x, x < a + 8 → m5 x = m4 x) as E5 by (intros x Hx; apply (store_le_outside 4); lia).
  assert (∀ x, x < a + 6 → m4 x = m3 x) as E4 by (intros x Hx; apply (store_le_outside 2); lia).
  assert (∀ x, x < a + 4 → m3 x = m2 x) as E3 by (intros x Hx; apply (store_le_outside 2); lia).
  assert (∀ x, x < a + 2 → m2 x = m1 x) as E2 by (intros x Hx; apply (store_le_outside 2); lia).
  destruct d as [mode type major minor nlink size addrs]; cbn in *. f_equal.
  - rewrite E7 by lia. unfold m6. rewrite store_bytes_in by (cbn; lia). by rewrite Z.sub_diag.
  - rewrite E7, E6, E5, E4, E3, E2 by lia. unfold m1. rewrite store_bytes_in by (cbn; lia). by rewrite Z.sub_diag.
  - rewrite (load_le_ext 2 m7 m2) by (intros; rewrite E7, E6, E5, E4, E3 by lia; done).
    unfold m2. rewrite load_le_store_mod by lia. by apply i16_mod.
  - rewrite (load_le_ext 2 m7 m3) by (intros; rewrite E7, E6, E5, E4 by lia; done).
    unfold m3. rewrite load_le_store_mod by lia. by apply i16_mod.
  - rewrite (load_le_ext 2 m7 m4) by (intros; rewrite E7, E6, E5 by lia; done).
    unfold m4. rewrite load_le_store_mod by lia. by apply i16_mod.
  - rewrite (load32_ext m7 m5) by (intros; rewrite E7, E6 by lia; done). by apply load32_store_eq.
  - apply list_eq. intros i. rewrite list_lookup_fmap. destruct (decide (i < 13)%nat) as [Hi|Hi].
    + rewrite (proj2 (lookup_seqZ 0 13 i (0 + Z.of_nat i))) by lia. cbn.
      destruct (lookup_lt_is_Some_2 addrs i ltac:(lia)) as [v Hv]. rewrite Hv. f_equal.
      apply (load_le_words 4); [lia|done|]. by apply (Forall_lookup_1 _ _ _ _ H8 Hv).
    + rewrite lookup_seqZ_ge by lia. cbn. symmetry. apply lookup_ge_None_2. lia.
Qed.

Lemma read_dinode_ok inum m : (∀ x, 0 ≤ m x < 256) → dinode_ok (read_dinode sb inum m).
Proof.
  intros Hm. unfold read_dinode. split; cbn [d_mode d_type d_major d_minor d_nlink d_size d_addrs]; try apply Hm.
  1-3: unfold i16; match goal with |- context [?x `mod` 2 ^ 16] => pose proof (Z.mod_pos_bound x (2 ^ 16) ltac:(lia)) end; lia.
  - apply (load_le_range 4); [lia|done].
  - by rewrite length_fmap, length_seqZ.
  - apply Forall_fmap, Forall_true. intros i. cbn. apply (load_le_range 4); [lia|done].
Qed.

(** Different inodes have different places. *)
Lemma dinode_disjoint i j : i ≠ j →
  dinode_addr sb i + 64 ≤ dinode_addr sb j ∨ dinode_addr sb j + 64 ≤ dinode_addr sb i.
Proof.
  intros H. unfold dinode_addr, IBLOCK, IPB, BSIZE. change (1024 / 64) with 16.
  Z.to_euclidean_division_equations; lia.
Qed.

End codec.

(** ** Writing an inode back *)

Lemma find_index_same {A} (Q : A → bool) (l l' : list A) :
  (∀ k, Q <$> l !! k = Q <$> l' !! k) → find_index Q l = find_index Q l'.
Proof.
  revert l'. induction l as [|x l IH]; intros [|y l'] H; [done| | |]; try by specialize (H 0%nat).
  cbn [find_index]. pose proof (H 0%nat) as H0. cbn in H0. injection H0 as ->.
  by rewrite (IH l' (λ k, H (S k))).
Qed.

Section node.
Context (sb : superblock) (Hsb : sb_wf sb).

Abbreviation inv := (inv sb).
Abbreviation ptrs := (gmap (Z * pos) Z).

(** Every cached inode is the one on disk. *)
Definition clean (s : fs) : Prop :=
  ∀ ip inum, owns s ip inum → read_dinode sb inum (dsk s) = din ip s.

(** A change of the dinode of [inum] and nothing else of the disk. *)
Lemma write_dinode_frame s inum d : inum_ok sb inum → length (d_addrs d) = 13%nat →
  let s' := s <| dsk := write_dinode sb inum d (dsk s) |> in
  (∀ x, sb_bmapstart sb * BSIZE ≤ x → dsk s' x = dsk s x) ∧
  (∀ n, n ≠ inum → read_dinode sb n (dsk s') = read_dinode sb n (dsk s)).
Proof.
  intros Hn Hl s'. pose proof (dinode_addr_range sb Hsb inum Hn) as Hr. split.
  - intros x Hx. cbn [dsk upd dsk_set s']. apply write_dinode_out; [done|]. lia.
  - intros n Hne. apply read_dinode_ext. intros x Hx. cbn [dsk upd dsk_set s']. apply write_dinode_out; [done|].
    pose proof (dinode_disjoint sb n inum Hne). lia.
Qed.

Lemma write_dinode_bytes inum d m : dinode_ok d → (∀ x, 0 ≤ m x < 256) → ∀ x, 0 ≤ write_dinode sb inum d m x < 256.
Proof.
  intros [H1 H2 _ _ _ _ _ _] Hm x. unfold write_dinode.
  assert (∀ a bs m, Forall is_byte bs → (∀ x, 0 ≤ m x < 256) → ∀ x, 0 ≤ store_bytes a bs m x < 256) as Hst.
  { clear. intros a bs m Hb Hm x. unfold store_bytes. case_match; [|done]. bool_facts.
    rewrite Forall_forall in Hb. apply Hb, list_elem_of_lookup_2 with (Z.to_nat (x - a)).
    apply list_lookup_lookup_total_lt. lia. }
  assert (∀ k v, 0 ≤ k → Forall is_byte (Z_to_little_endian k 8 v)) as Hle.
  { intros k v Hk. apply (Forall_impl _ _ _ (Z_to_little_endian_bound k 8 v ltac:(lia) ltac:(lia))). done. }
  assert (Forall is_byte (mjoin (Z_to_little_endian 4 8 <$> d_addrs d))) as Hj.
  { apply Forall_join, Forall_fmap, Forall_true. intros v. by apply Hle. }
  repeat (apply Hst; [first [done | by apply Hle | by apply Forall_singleton]|]). done.
Qed.

(** When the inode cache keeps its entries, [dnode] is read from the cache or
    from the unchanged disk inode. *)
Lemma dnode_same s s' n : icache s' = icache s →
  (find_index (holds_inum n) (icache s) = None → read_dinode sb n (dsk s') = read_dinode sb n (dsk s)) →
  dnode sb s' n = dnode sb s n.
Proof.
  intros Hc Hd. unfold dnode, din, inode_at. rewrite Hc. case_match eqn:E; [done|]. by apply Hd.
Qed.

(** Writing to the inode blocks keeps the files when their addresses stay. *)
Lemma inode_area_keep s s' P e : inv s P e → icache s' = icache s → brefs s' = brefs s → hint s' = hint s →
  (∀ x, sb_bmapstart sb * BSIZE ≤ x → dsk s' x = dsk s x) → (∀ x, 0 ≤ dsk s' x < 256) →
  (∀ n i, inum_ok sb n → 0 ≤ i < 13 → faddr sb s' n i = faddr sb s n i) → inv s' P e ∧ same_files sb s s'.
Proof.
  intros Hi E1 E2 E3 Hd Hb Hf.
  assert (∀ b, in_data sb b → same_block b s s') as Hblk by (intros b Hb' x Hx; apply Hd; by apply (data_bytes sb Hsb b x)).
  assert (inv s' P e) as Hi'.
  { split; [| |by apply (cache_ok_frame sb s); [apply Hi|]|done|rewrite E3; apply Hi].
    - apply (linked_frame sb s s' P (v_linked _ _ _ _ Hi) Hf).
      intros k b j Hk _ Hj. apply get_word_same; [|done]. apply Hblk. by eapply dom_data; [apply Hi|].
    - destruct (v_counted _ _ _ _ Hi) as [C1 C2 C3]. split; rewrite E2; try done.
      intros b Hb'. rewrite <-C3 by done. rewrite (bit_data sb Hsb b s); [done|done|]. intros x Hx. apply Hd. lia. }
  split; [done|]. intros n o Hn Hoo. apply (content_keep sb Hsb s s' P P e e); try done.
  intros b Hb'. apply Hblk. by eapply dom_data; [apply Hi|].
Qed.

Lemma iupdate_spec ip inum s P e : inv s P e → owns s ip inum →
  let s' := iupdate sb ip s in
  inv s' P e ∧ icache s' = icache s ∧ xattrs s' = xattrs s ∧ brefs s' = brefs s ∧ same_files sb s s' ∧
  read_dinode sb inum (dsk s') = din ip s ∧
  (∀ n, n ≠ inum → read_dinode sb n (dsk s') = read_dinode sb n (dsk s)) ∧
  (∀ n, dnode sb s' n = dnode sb s n).
Proof.
  intros Hi Ho s'. pose proof (v_cache _ _ _ _ Hi) as Hc. pose proof (owns_inum sb s ip inum Hc Ho) as Hn.
  pose proof (owns_dinode sb s ip inum Hc Ho) as Hok.
  assert (i_inum (inode_at ip s) = inum) as En.
  { pose proof (owns_lookup _ _ _ Ho) as Hlk. destruct Ho as (i & Hi' & _ & _ & <-). rewrite Hlk in Hi'. by injection Hi' as <-. }
  unfold s', iupdate. rewrite En. set (s1 := s <| dsk := write_dinode sb inum (din ip s) (dsk s) |>).
  destruct (log_write_fields (IBLOCK sb inum) s1) as (L1 & L2 & L3 & L4 & L5).
  set (s2 := log_write (IBLOCK sb inum) s1) in *.
  destruct (write_dinode_frame s inum (din ip s) Hn (do_len _ Hok)) as [F1 F2]. fold s1 in F1, F2.
  assert (∀ n, dnode sb s2 n = dnode sb s n) as Hdn.
  { intros n. apply dnode_same; [exact L4|]. intros Hnone. rewrite L1. apply F2. intros ->.
    destruct Ho as (i & Hi' & Hr & Hv & Hin).
    pose proof (find_index_None _ _ Hnone i (list_elem_of_lookup_2 _ _ _ Hi')) as Hno.
    unfold holds_inum in Hno. rewrite Hv, (proj2 (Z.ltb_lt _ _) Hr), (proj2 (Z.eqb_eq _ _) Hin) in Hno. done. }
  destruct (inode_area_keep s s2 P e Hi L4 L2 L3) as [Hi2 Hsf2].
  { intros x Hx. rewrite L1. by apply F1. }
  { intros x. rewrite L1. apply write_dinode_bytes; [done|apply Hi]. }
  { intros n i _ _. unfold faddr. by rewrite Hdn. }
  split_and!; try done.
  - rewrite L1. by apply read_write_dinode.
  - intros n Hne. rewrite L1. by apply F2.
Qed.

(** ** Operations on one file *)

(** The operation on the file [inum] leaves the inode [d], written to disk, and
    nothing else of any inode changed. *)
Record saves (ip : nat) (inum : Z) (s s' : fs) (d : dinode) : Prop := {
  sv_other : ∀ k, k ≠ ip → icache s' !! k = icache s !! k;
  sv_own : icache s' !! ip = Some ((inode_at ip s) <| i_d := d |>);
  sv_xattrs : xattrs s' = xattrs s;
  sv_disk : ∀ n, inum_ok sb n → n ≠ inum → read_dinode sb n (dsk s') = read_dinode sb n (dsk s);
  sv_saved : read_dinode sb inum (dsk s') = d;
}.

Lemma saves_owns ip inum s s' d k n : owns s ip inum → saves ip inum s s' d → owns s k n ↔ owns s' k n.
Proof.
  intros Ho [A1 A2 _ _ _]. pose proof (owns_lookup _ _ _ Ho) as Hl. unfold owns.
  destruct (decide (k = ip)) as [->|Hne]; [|by rewrite A1].
  rewrite A2, Hl. split; intros (i & [= <-] & H); (eexists; split; [done|]; by cbn in * ).
Qed.

Lemma saves_clean ip inum s s' d : cache_ok sb s → owns s ip inum → clean s → saves ip inum s s' d → clean s'.
Proof.
  intros Hc Ho Hcl Hs k n Hk. pose proof Hs as [A1 A2 _ A4 A5].
  pose proof (proj2 (saves_owns _ _ _ _ _ k n Ho Hs) Hk) as Hk0.
  destruct (decide (k = ip)) as [->|Hne].
  - assert (n = inum) as ->. { destruct Ho as (i & Hi & _ & _ & <-), Hk0 as (i' & Hi' & _ & _ & <-). congruence. }
    rewrite A5. unfold din, inode_at. by rewrite (list_lookup_total_correct _ _ _ A2).
  - assert (n ≠ inum) as Hnn.
    { intros ->. apply Hne. destruct Ho as (i & Hi & Hr & _ & E), Hk0 as (i' & Hi' & Hr' & _ & E').
      eapply (c_uniq sb s Hc); eauto; congruence. }
    rewrite A4 by (done || by eapply owns_inum). rewrite (Hcl k n Hk0). unfold din, inode_at.
    by rewrite !list_lookup_total_alt, A1.
Qed.

Lemma saves_dnode ip inum s s' d n : cache_ok sb s → cache_ok sb s' → owns s ip inum → saves ip inum s s' d →
  inum_ok sb n → dnode sb s' n = if decide (n = inum) then d else dnode sb s n.
Proof.
  intros Hc Hc' Ho Hs Hn. pose proof Hs as [A1 A2 _ A4 A5].
  assert (owns s' ip inum) as Ho' by (by apply (saves_owns ip inum s s' d)).
  destruct (decide (n = inum)) as [->|Hne].
  { rewrite (dnode_owns sb s' ip inum) by done. unfold din, inode_at. by rewrite (list_lookup_total_correct _ _ _ A2). }
  unfold dnode. pose proof (owns_lookup _ _ _ Ho) as Hl.
  assert (find_index (holds_inum n) (icache s') = find_index (holds_inum n) (icache s)) as ->.
  { apply find_index_same. intros k. destruct (decide (k = ip)) as [->|Hk]; [|by rewrite A1]. by rewrite A2, Hl. }
  destruct (find_index (holds_inum n) (icache s)) as [k|] eqn:Ek; [|by apply A4].
  assert (k ≠ ip) as Hk.
  { intros ->. apply find_index_Some in Ek as [(i & Hi0 & Hh0) _]. unfold holds_inum in Hh0. bool_facts.
    destruct Ho as (i' & Hi'' & _ & _ & E). congruence. }
  unfold din, inode_at. by rewrite !list_lookup_total_alt, A1.
Qed.

(** The operation on the file [inum] leaves the inode [d] and the contents [C];
    every other file is as before. *)
Definition acts (ip : nat) (inum : Z) (s s' : fs) (d : dinode) (C : Z → Z) : Prop :=
  (∃ P', inv s' P' zero) ∧ saves ip inum s s' d ∧
  ∀ n o, inum_ok sb n → off_ok o → content sb s' n o = if decide (n = inum) then C o else content sb s n o.

(** The inode was saved and is not changed. *)
Lemma saves_same ip inum s s' : cache_ok sb s → clean s → owns s ip inum → (∀ k, icache s' !! k = icache s !! k) → xattrs s' = xattrs s →
  same_inodes sb s s' → saves ip inum s s' (din ip s).
Proof.
  intros Hok Hcl Ho Hc Hx Hsi. pose proof (owns_lookup _ _ _ Ho) as Hl.
  assert (∀ n, inum_ok sb n → read_dinode sb n (dsk s') = read_dinode sb n (dsk s)) as Hd.
  { intros n Hn. apply read_dinode_ext. intros x Hx'. apply Hsi. pose proof (dinode_addr_range sb Hsb n Hn). lia. }
  split; try done.
  - rewrite Hc, Hl. f_equal. unfold din. by destruct (inode_at ip s).
  - intros n Hn _. by apply Hd.
  - rewrite Hd by (by eapply owns_inum). by apply Hcl.
Qed.

(** Setting a field of a cached inode other than the block addresses. *)
Lemma inv_set_din ip inum f s P e : inv s P e → owns s ip inum →
  (dinode_ok (din ip s) → dinode_ok (f (din ip s))) → d_addrs (f (din ip s)) = d_addrs (din ip s) →
  inv (set_din ip f s) P e ∧ same_files sb s (set_din ip f s).
Proof.
  intros Hi Ho Hok Ha. pose proof (v_cache _ _ _ _ Hi) as Hc.
  assert (inv (set_din ip f s) P e) as Hi1.
  { destruct Hi as [Hl Hct _ Hby Hh]. split; [|by destruct Hct; split| |done..].
    - apply (linked_frame sb s _ P Hl); [|done]. intros n i _ _. unfold faddr. rewrite (dnode_set_din sb s ip inum) by done.
      case_decide as E; [|done]. subst n. by rewrite Ha, (dnode_owns sb s ip inum).
    - by apply (cache_ok_set_din sb s ip inum). }
  split; [done|]. intros n o Hn Hoo. by apply (content_keep sb Hsb s _ P P e e).
Qed.

Lemma saves_set_din ip inum f s s' d : owns s ip inum → saves ip inum (set_din ip f s) s' d → saves ip inum s s' d.
Proof.
  intros Ho [A1 A2 A3 A4 A5]. split; try done.
  - intros k Hk. rewrite A1 by done. unfold set_din. by rewrite set_inode_lookup, decide_False.
  - rewrite A2. unfold set_din. rewrite inode_at_set by (by eapply owns_lt). done.
Qed.

(** The tail of an operation: set a field of the inode, write it back. *)
Lemma finish_spec ip inum f s0 s P : inv s P zero → owns s0 ip inum → touches sb ip s0 s →
  (dinode_ok (din ip s) → dinode_ok (f (din ip s))) → d_addrs (f (din ip s)) = d_addrs (din ip s) →
  let s' := iupdate sb ip (set_din ip f s) in
  inv s' P zero ∧ saves ip inum s0 s' (f (din ip s)) ∧ same_files sb s s' ∧ nfree sb s' = nfree sb s.
Proof.
  intros Hi Ho Ht Hok Ha s'. pose proof (touches_owns _ _ _ _ ip inum Ht Ho) as Ho1. set (s1 := set_din ip f s).
  destruct (inv_set_din ip inum f s P zero Hi Ho1 Hok Ha) as [Hi1 Hsf1]. fold s1 in Hi1, Hsf1.
  pose proof (owns_set_din s ip f ip inum Ho1) as Ho2.
  destruct (iupdate_spec ip inum s1 P zero Hi1 Ho2) as (Hi' & E1 & E2 & E3 & Hsf & Hsv & Hds & Hdn').
  fold s1 in s'. fold s' in Hi', E1, E2, E3, Hsf, Hsv, Hds, Hdn'.
  pose proof (din_set ip f s inum Ho1) as Hdin. fold s1 in Hdin.
  assert (saves ip inum s0 s' (f (din ip s))) as Hsave.
  { split.
    - intros k Hk. rewrite E1. unfold s1, set_din. rewrite set_inode_lookup, decide_False by done. by apply Ht.
    - rewrite E1. unfold s1, set_din. rewrite set_inode_lookup, decide_True by done.
      destruct (touches_din _ _ _ _ _ Ht Ho) as (a & Hd & Hia). rewrite (owns_lookup _ _ _ Ho1). cbn.
      rewrite Hia. by cbn.
    - rewrite E2. change (xattrs s1) with (xattrs s). apply Ht.
    - intros n Hn Hne. rewrite Hds by done. change (dsk s1) with (dsk s). apply read_dinode_ext.
      intros x Hx. apply (t_inodes _ _ _ _ Ht). pose proof (dinode_addr_range sb Hsb n Hn). lia.
    - by rewrite Hsv, Hdin. }
  split_and!; [done|done| |by apply nfree_eq].
  by apply (same_files_trans sb s s1).
Qed.

End node.
