(* ===== verification/FsIO.v ===== *)
(** * Reading and writing files

    writei() and readi() against the contents of files. *)

From stdpp Require Import list_numbers gmap.
From S2P Require Import Prelude Mem Xattr Fs FsInv FsFile FsNode.

Section io.
Context (sb : superblock) (Hsb : sb_wf sb).

Abbreviation inv := (inv sb).
Abbreviation ptrs := (gmap (Z * pos) Z).

Definition MAXSIZE : Z := MAXFILE * BSIZE.

(** The size of every file fits. *)
Definition sizes_ok (s : fs) : Prop := ∀ n, inum_ok sb n → 0 ≤ d_size (dnode sb s n) ≤ MAXSIZE.

(** The inode apart from size and block addresses. *)
Definition same_meta (d d' : dinode) : Prop :=
  d_mode d' = d_mode d ∧ d_type d' = d_type d ∧ d_major d' = d_major d ∧
  d_minor d' = d_minor d ∧ d_nlink d' = d_nlink d.

(** ** writei() *)

Lemma set_din_id ip s : set_din ip (λ d, d) s = s.
Proof.
  unfold set_din, set_inode. rewrite list_alter_id; [by destruct s|]. by intros [].
Qed.

Lemma u32_wraps off n : 0 ≤ off < 2 ^ 32 → 0 ≤ n < 2 ^ 32 → (u32 (off + n) <? off) = (2 ^ 32 <=? off + n).
Proof.
  intros Ho Hn. unfold u32. destruct (Z.leb_spec (2 ^ 32) (off + n)).
  - apply Z.ltb_lt. replace (off + n) with (off + n - 2 ^ 32 + 1 * 2 ^ 32) by lia.
    rewrite Z.mod_add by lia. rewrite Z.mod_small by lia. lia.
  - apply Z.ltb_ge. rewrite Z.mod_small by lia. lia.
Qed.

(** Offset and length that writei() accepts. *)
Definition fits (size off n : Z) : bool := (off <=? size) && (off + n <=? MAXSIZE).

Lemma MAXSIZE_value : MAXSIZE = 67382272.
Proof. reflexivity. Qed.

(** [bs] stored at [off] over the contents [C]. *)
Definition patch (off : Z) (bs : list Z) (C : Z → Z) (o : Z) : Z :=
  if decide (off ≤ o < off + Z.of_nat (length bs)) then bs !!! Z.to_nat (o - off) else C o.

Lemma overwrite_patch inum off bs n o (C : Z → Z → Z) :
  overwrite inum off bs n o (C n o) = if decide (n = inum) then patch off bs (C inum) o else C n o.
Proof.
  unfold overwrite, patch. destruct (decide (n = inum)) as [->|Hne]; [|by rewrite decide_False by naive_solver].
  case_decide as E1; case_decide as E2; naive_solver.
Qed.

Section source.
Context (src : Z → Z → list Z * bool).
Context (Hsrc : ∀ tot m, 0 ≤ m →
  Forall is_byte (src tot m).1 ∧ Z.of_nat (length (src tot m).1) ≤ m ∧
  ((src tot m).2 = true → Z.of_nat (length (src tot m).1) = m)).

Lemma copied_end fuel off tot n : 0 ≤ off → tot ≤ n →
  off ≤ (copied src fuel off tot n).2 ≤ off + (n - tot).
Proof.
  revert off tot. induction fuel as [|fuel IH]; intros off tot Ho Hle; cbn [copied]; [cbn; lia|].
  destruct (Z.ltb_spec tot n); [|cbn; lia].
  pose proof (need_step off (n - tot) Ho ltac:(lia)) as (Hm1 & Hm2 & _).
  set (m := Z.min (n - tot) (BSIZE - off `mod` BSIZE)) in *. destruct (src tot m) as [bs ok].
  destruct ok; [|cbn; lia]. specialize (IH (off + m) (tot + m) ltac:(lia) ltac:(lia)).
  destruct (copied src fuel (off + m) (tot + m) n). cbn in *. lia.
Qed.

Lemma turns_enough off n : 0 ≤ n → need off n < Z.of_nat (turns n).
Proof.
  intros Hn. unfold need, turns. pose proof (Z.mod_pos_bound off BSIZE ltac:(done)).
  pose proof (Z.div_pos n BSIZE Hn ltac:(done)). destruct (Z.leb_spec n 0); [lia|].
  assert ((off `mod` BSIZE + n + BSIZE - 1) / BSIZE ≤ n / BSIZE + 2); [|lia].
  unfold BSIZE in *. Z.to_euclidean_division_equations; lia.
Qed.

Lemma writei_spec ip inum off n s P : inv s P zero → clean sb s → owns s ip inum →
  0 ≤ off < 2 ^ 32 → 0 ≤ n < 2 ^ 32 →
  let size := d_size (din ip s) in
  match writei sb ip src off n s with
  | None => fits size off n = true ∧ nfree sb s < 4 * need off n
  | Some (r, s') =>
      if fits size off n then
        let '(bs, off') := copied src (turns n) off 0 n in
        r = n ∧ ∃ d, acts sb ip inum s s' d (patch off bs (content sb s inum)) ∧
          same_meta (din ip s) d ∧ d_size d = Z.max size off' ∧ nfree sb s - 4 * need off n ≤ nfree sb s'
      else r = -1 ∧ s' = s
  end.
Proof using Hsb Hsrc.
  intros Hi Hcl Ho Hoff Hn size. unfold writei. fold size. rewrite (u32_wraps off n Hoff Hn).
  pose proof MAXSIZE_value as HM. change (MAXFILE * BSIZE) with MAXSIZE. unfold fits.
  destruct (Z.ltb_spec size off) as [H1|H1]; cbn [orb].
  { rewrite (proj2 (Z.leb_gt _ _)) by lia. done. }
  rewrite (proj2 (Z.leb_le off size)) by lia. cbn [andb].
  destruct (Z.leb_spec (2 ^ 32) (off + n)) as [H2|H2].
  { rewrite (proj2 (Z.leb_gt _ _)) by lia. done. }
  rewrite u32_small by lia. destruct (Z.ltb_spec MAXSIZE (off + n)) as [H3|H3].
  { rewrite (proj2 (Z.leb_gt _ _)) by lia. done. }
  rewrite (proj2 (Z.leb_le _ _)) by lia.
  pose proof (write_loop_spec sb Hsb src Hsrc (turns n) ip inum off 0 n s P Hi Ho ltac:(lia)) as Hw.
  rewrite Z.sub_0_r in Hw. specialize (Hw ltac:(fold MAXSIZE; lia) ltac:(lia) (turns_enough off n ltac:(lia))).
  pose proof (copied_end (turns n) off 0 n ltac:(lia) ltac:(lia)) as Hend.
  destruct (write_loop sb (turns n) ip src off 0 n s) as [[off' s1]|] eqn:Ew; cbn [mbind option_bind]; [|done].
  destruct Hw as (P1 & Hi1 & Ht1 & Hn1 & -> & Hc1).
  destruct (copied src (turns n) off 0 n) as [bs off'] eqn:Ec. cbn [fst snd] in *.
  destruct (Z.ltb_spec 0 n) as [Hpos|Hz].
  - destruct (touches_din _ _ _ _ _ Ht1 Ho) as (a & Hd & _).
    set (f := λ d : dinode, if d_size (din ip s1) <? off' then d <| d_size := off' |> else d).
    assert ((if d_size (din ip s1) <? off' then set_din ip (λ d, d <| d_size := off' |>) s1 else s1) =
            set_din ip f s1) as ->.
    { unfold f. destruct (d_size (din ip s1) <? off'); [done|]. symmetry. apply set_din_id. }
    destruct (finish_spec sb Hsb ip inum f s s1 P1 Hi1 Ho Ht1) as (A1 & A2 & A3 & A4).
    { unfold f. case_match; [|done]. intros [? ? ? ? ? ? ? ?]. split; try done. cbn. lia. }
    { unfold f. by case_match. }
    split; [done|]. exists (f (din ip s1)). split_and!; [split_and!; [by exists P1|done|]| | |by rewrite A4].
    + intros k o Hk Hoo. rewrite A3, Hc1 by done. apply overwrite_patch.
    + unfold f, same_meta. rewrite Hd. by case_match.
    + unfold f. rewrite Hd. change (d_size ((din ip s) <| d_addrs := a |>)) with size.
      destruct (Z.ltb_spec size off'); cbn; [lia|]. change (d_size (din ip s)) with size. lia.
  - assert (n = 0) as -> by lia. assert (s1 = s) as -> by (revert Ew; unfold turns; cbn; by intros [= _ <-]).
    split; [done|]. exists (din ip s). split_and!; [split_and!; [by exists P1| |]|done| |done].
    + apply saves_same; try done. apply Hi.
    + intros k o Hk Hoo. rewrite Hc1 at 1 by done. apply overwrite_patch.
    + change (d_size (din ip s)) with size. lia.
Qed.

End source.

(** ** readi() *)

Lemma read_part_spec s P ip inum off m : inv s P zero → owns s ip inum → 0 ≤ off → off_ok off →
  0 ≤ m → off `mod` BSIZE + m ≤ BSIZE →
  read_part (bmap_nalloc ip (off / BSIZE) s) off m s = (λ i, content sb s inum (off + i)) <$> seqZ 0 m.
Proof.
  intros Hi Ho Hoff Hok Hm Hfit. pose proof (owns_inum sb s ip inum (v_cache _ _ _ _ Hi) Ho) as Hn.
  rewrite (bmap_nalloc_ptr sb s ip inum) by (done || by apply dnode_owns; [apply Hi|]).
  assert (∀ i, 0 ≤ i < m → (off + i) / BSIZE = off / BSIZE ∧ (off + i) `mod` BSIZE = off `mod` BSIZE + i) as Hdiv.
  { intros i Hri. pose proof (Z.mod_pos_bound off BSIZE ltac:(done)). unfold BSIZE in *.
    Z.to_euclidean_division_equations; lia. }
  apply list_eq. intros i. rewrite list_lookup_fmap. unfold read_part.
  destruct (decide (Z.of_nat i < m)) as [Hlt|Hge].
  - rewrite (proj2 (lookup_seqZ 0 m i (Z.of_nat i))) by lia. cbn [fmap option_fmap option_map]. destruct (Hdiv (Z.of_nat i) ltac:(lia)) as [E1 E2].
    unfold content. rewrite E1, E2. destruct (ptr sb s inum (PData (off / BSIZE)) =? 0).
    + by rewrite lookup_replicate_2 by lia.
    + rewrite load_bytes_lookup by lia. f_equal. f_equal. lia.
  - rewrite lookup_seqZ_ge by lia. cbn. apply lookup_ge_None_2.
    case_match; [rewrite length_replicate|rewrite length_load_bytes]; lia.
Qed.

Lemma seqZ_app_content (f : Z → Z) off m k : 0 ≤ m → 0 ≤ k →
  ((λ i, f (off + i)) <$> seqZ 0 m) ++ ((λ i, f (off + m + i)) <$> seqZ 0 k) = (λ i, f (off + i)) <$> seqZ 0 (m + k).
Proof.
  intros Hm Hk. rewrite (seqZ_app 0 m k) by lia. rewrite fmap_app. f_equal.
  replace (0 + m) with (m + 0) by lia. rewrite <-(fmap_add_seqZ m 0 k), <-list_fmap_compose.
  apply list_fmap_ext. intros i x _. unfold compose. f_equal. lia.
Qed.

(** The bytes that a read returns are the contents. *)
Lemma read_loop_spec fuel ip dst_ok off tot n acc s P inum : inv s P zero → owns s ip inum → 0 ≤ off → 0 ≤ tot ≤ n →
  off + (n - tot) ≤ MAXSIZE → need off (n - tot) < Z.of_nat fuel →
  ∃ k, read_loop fuel ip dst_ok off tot n acc s =
         Some (tot + k, acc ++ ((λ i, content sb s inum (off + i)) <$> seqZ 0 k)) ∧
       0 ≤ k ≤ n - tot ∧ ((∀ t m, dst_ok t m = true) → k = n - tot).
Proof.
  intros Hi Ho. revert off tot acc. induction fuel as [|fuel IH]; intros off tot acc Hoff Hle Hmax Hfuel.
  { pose proof (need_nonneg off (n - tot)). lia. }
  cbn [read_loop]. destruct (Z.ltb_spec tot n) as [Hlt|Hge].
  2: { exists 0. rewrite Z.add_0_r, app_nil_r. split_and!; try done; lia. }
  pose proof (need_step off (n - tot) Hoff ltac:(lia)) as (Hm1 & Hm2 & Hm3 & Hm4).
  set (m := Z.min (n - tot) (BSIZE - off `mod` BSIZE)) in *.
  destruct (dst_ok tot m) eqn:Ed.
  2: { exists 0. rewrite Z.add_0_r, app_nil_r. split_and!; try done; [lia|]. intros Hall. by rewrite Hall in Ed. }
  assert (off_ok off) as Hok.
  { unfold off_ok. split; [by apply Z.div_pos|]. apply Z.div_lt_upper_bound; [done|]. unfold MAXSIZE in Hmax. lia. }
  rewrite (read_part_spec s P ip inum off m) by (done || lia).
  destruct (IH (off + m) (tot + m) (acc ++ ((λ i, content sb s inum (off + i)) <$> seqZ 0 m))) as (k & Hk & Hkr & Hka);
    [lia..| |].
  { replace (n - (tot + m)) with (n - tot - m) by lia. lia. }
  exists (m + k). rewrite Hk, <-app_assoc. rewrite (seqZ_app_content (content sb s inum)) by lia.
  split_and!; [by rewrite Z.add_assoc|lia|lia|]. intros Hall. specialize (Hka Hall). lia.
Qed.

Lemma readi_spec ip inum dst_ok off n s P : inv s P zero → owns s ip inum → sizes_ok s →
  0 ≤ off < 2 ^ 32 → 0 ≤ n < 2 ^ 32 →
  let size := d_size (din ip s) in
  let want := if (off <=? size) && (off + n <? 2 ^ 32) then Z.min n (size - off) else 0 in
  ∃ k, readi ip dst_ok off n s = Some (k, (λ i, content sb s inum (off + i)) <$> seqZ 0 k) ∧
       0 ≤ k ≤ want ∧ ((∀ t m, dst_ok t m = true) → k = want).
Proof.
  intros Hi Ho Hsz Hoff Hn size want. pose proof (v_cache _ _ _ _ Hi) as Hc.
  pose proof (Hsz inum (owns_inum sb s ip inum Hc Ho)) as Hs. rewrite (dnode_owns sb s ip inum Hc Ho) in Hs.
  fold size in Hs. unfold readi. fold size. rewrite u32_wraps by done. pose proof MAXSIZE_value.
  destruct (Z.ltb_spec size off) as [H1|H1]; cbn [orb].
  { exists 0. assert (want = 0) as -> by (unfold want; by rewrite (proj2 (Z.leb_gt _ _)) by lia). done. }
  destruct (Z.leb_spec (2 ^ 32) (off + n)) as [H2|H2].
  { exists 0. assert (want = 0) as -> by (unfold want; rewrite (proj2 (Z.ltb_ge _ _)), andb_false_r by lia; done). done. }
  assert (want = Z.min n (size - off)) as ->.
  { unfold want. rewrite (proj2 (Z.leb_le _ _)), (proj2 (Z.ltb_lt _ _)) by lia. done. }
  rewrite u32_small by lia. set (n' := if size <? off + n then size - off else n).
  assert (n' = Z.min n (size - off)) as En by (unfold n'; destruct (Z.ltb_spec size (off + n)); lia).
  destruct (read_loop_spec (turns n') ip dst_ok off 0 n' [] s P inum Hi Ho ltac:(lia) ltac:(lia)) as (k & Hk & Hkr & Hka);
    [lia|rewrite Z.sub_0_r; apply turns_enough; lia|].
  exists k. rewrite Hk. split_and!; [done|lia|lia|]. intros Hall. specialize (Hka Hall). lia.
Qed.

End io.
