(* ===== verification/FsFree.v ===== *)
(** * Freeing the blocks of a file

    itrunc(), itrunc_to() and ipunch() free blocks first and clear the pointers
    afterwards, often a whole indirect block at once. [freeing] is the state in
    between: the pointers in [K] are freed, those in [G] are gone. *)

From stdpp Require Import list_numbers gmap.
From S2P Require Import Prelude Mem Xattr Fs FsInv FsFile FsNode.

Abbreviation key := (Z * pos)%type.
Abbreviation ptrs := (gmap (Z * pos) Z).

(** ** Sets of pointers *)

Definition minus (P : ptrs) (K : key → bool) : ptrs := filter (λ kv, K kv.1 = false) P.

Lemma minus_lookup P K k : minus P K !! k = if K k then None else P !! k.
Proof.
  unfold minus. destruct (K k) eqn:E.
  - apply map_lookup_filter_None. right. intros x _. cbn. congruence.
  - destruct (P !! k) as [x|] eqn:Ex.
    + by apply map_lookup_filter_Some.
    + apply map_lookup_filter_None. by left.
Qed.

Lemma minus_eq (P : ptrs) (K : key → bool) (Q : ptrs) : (∀ k, Q !! k = if K k then None else P !! k) → minus P K = Q.
Proof. intros H. apply map_eq. intros k. by rewrite minus_lookup, H. Qed.

Lemma minus_ext (P : ptrs) (K K' : key → bool) : (∀ k, is_Some (P !! k) → K k = K' k) → minus P K = minus P K'.
Proof.
  intros H. apply minus_eq. intros k. rewrite minus_lookup.
  destruct (P !! k) as [x|] eqn:E; [by rewrite (H k)|]. by destruct (K k), (K' k).
Qed.

Lemma minus_none P : minus P (λ _, false) = P.
Proof. by apply minus_eq. Qed.

(** One more pointer. *)
Definition also (k : key) (K : key → bool) : key → bool := λ k', bool_decide (k' = k) || K k'.

Definition either (K K' : key → bool) : key → bool := λ k, K k || K' k.

Lemma count_also b k v P K : P !! k = Some v → K k = false →
  count b (minus P (also k K)) = count b (minus P K) - one v b.
Proof.
  intros HP HK. rewrite <-(count_delete b k v (minus P K)) by (by rewrite minus_lookup, HK).
  f_equal. apply minus_eq. intros k'. unfold also. destruct (bool_decide_reflect (k' = k)) as [->|Hne].
  - by rewrite lookup_delete_eq.
  - by rewrite lookup_delete_ne, minus_lookup.
Qed.

Lemma count_minus_le b P K : count b (minus P K) ≤ count b P.
Proof.
  unfold count, minus. apply Nat2Z.inj_le, map_subseteq_size, map_filter_strong_subseteq_ext.
  intros k x [H1 H2]. split; [done|]. by apply map_lookup_filter_Some in H2 as [??].
Qed.

(** ** Positions below a position *)

(** The [j]-th pointer in the block at [q]. *)
Definition child (q : pos) (j : Z) : pos :=
  match q with
  | PInd => PData (NDIRECT + j)
  | PL1 k => PData (NDIRECT + NINDIRECT + NADDR_PER_BLOCK * k + j)
  | PDind => PL1 j
  | PData bn => PData bn
  end.

Lemma child_parent q j : is_meta q = true → valid_pos q → 0 ≤ j < NADDR_PER_BLOCK →
  parent (child q j) = Some q ∧ index (child q j) = j ∧ valid_pos (child q j).
Proof.
  intros Hm Hv Hj. destruct q as [bn| | |k]; try done; cbn [child parent index valid_pos is_meta] in *.
  - rewrite (proj2 (Z.ltb_ge _ _)), (proj2 (Z.ltb_lt _ _)) by layout_lia. split_and!; [done|lia|layout_lia..].
  - rewrite (proj2 (Z.ltb_ge _ NDIRECT)), (proj2 (Z.ltb_ge _ (NDIRECT + NINDIRECT))) by layout_lia.
    split_and!; [do 2 f_equal; layout_lia|layout_lia..].
Qed.

Lemma child_index p q : valid_pos p → parent p = Some q → child q (index p) = p.
Proof.
  intros Hv Hq. pose proof (index_range p Hv) as Hi. rewrite Hq in Hi.
  destruct (parent_valid p q Hv Hq) as [Hvq Hmq]. destruct (child_parent q (index p) Hmq Hvq Hi) as (E1 & E2 & E3).
  apply pos_inj; try done. congruence.
Qed.

(** [q] is [p] or reached through [p]. *)
Definition below (p q : pos) : bool :=
  bool_decide (q = p) || bool_decide (parent q = Some p) || bool_decide (parent q ≫= parent = Some p).

Definition subtree (inum : Z) (p : pos) : key → bool := λ k, bool_decide (k.1 = inum) && below p k.2.

Lemma below_parent p q r : valid_pos q → parent q = Some r → q ≠ p → below p q = below p r.
Proof.
  intros Hv Hq Hne. unfold below. rewrite Hq. cbn [mbind option_bind].
  rewrite (bool_decide_false (q = p)) by done. cbn [orb].
  assert (parent r ≫= parent ≠ Some p) as H3.
  { intros H. destruct (parent r) as [t|] eqn:Er; [|done]. cbn in H.
    apply parent_rank in H, Er, Hq. assert (rank q ≤ 2)%nat; [|lia].
    unfold rank. destruct (parent q) as [y|]; [|lia]. destruct (parent y); lia. }
  rewrite (bool_decide_false _ H3), orb_false_r.
  assert (bool_decide (Some r = Some p) = bool_decide (r = p)) as ->.
  { apply bool_decide_ext. split; [by intros [=]|by intros ->]. }
  done.
Qed.

Lemma below_root p q : parent q = None → below p q = bool_decide (q = p).
Proof. intros H. unfold below. rewrite H. cbn. by rewrite !orb_false_r. Qed.

Lemma below_refl p : below p p = true.
Proof. unfold below. by rewrite bool_decide_true. Qed.

Section drop.
Context (sb : superblock) (Hsb : sb_wf sb).

Abbreviation inv := (inv sb).

(** Clearing the pointer at [p] removes everything below it. *)
Lemma linked_drop s s' P inum p : linked sb s P → inum_ok sb inum → valid_pos p →
  (∀ n i, inum_ok sb n → 0 ≤ i < 13 → faddr sb s' n i =
    if decide (n = inum ∧ parent p = None ∧ i = index p) then 0 else faddr sb s n i) →
  (∀ k b j, P !! k = Some b → is_meta k.2 = true → 0 ≤ j < NADDR_PER_BLOCK →
    get_word b j s' = if decide (k.1 = inum ∧ parent p = Some k.2 ∧ j = index p) then 0 else get_word b j s) →
  linked sb s' (minus P (subtree inum p)).
Proof.
  intros Hl Hn Hv Haddr Hword.
  assert (∀ n q, inum_ok sb n → valid_pos q →
    ptr sb s' n q = if subtree inum p (n, q) then 0 else ptr sb s n q) as Hptr.
  { intros n q Hnn. unfold subtree. cbn [fst snd]. remember (rank q) as r eqn:Hr. revert q Hr.
    induction (lt_wf r) as [r _ IH]. intros q -> Hvq. rewrite !ptr_unfold by done.
    pose proof (index_range q Hvq) as Hi. destruct (parent q) as [q1|] eqn:Eq.
    - destruct (parent_valid q q1 Hvq Eq) as [Hv1 Hm1].
      rewrite (IH (rank q1) (parent_rank q q1 Eq) q1 eq_refl Hv1).
      assert (q ≠ p → below p q = below p q1) as Hbq by (by apply below_parent).
      destruct (bool_decide_reflect (n = inum)) as [->|Hne]; cbn [andb].
      + destruct (decide (q = p)) as [->|Hqp].
        * rewrite below_refl. destruct (below p q1); [done|]. unfold word.
          destruct (Z.eqb_spec (ptr sb s inum q1) 0); [done|].
          rewrite (Hword (inum, q1)) by (done || by eapply ptr_block). by rewrite decide_True.
        * rewrite (Hbq Hqp). destruct (below p q1); [done|]. unfold word.
          destruct (Z.eqb_spec (ptr sb s inum q1) 0); [done|].
          rewrite (Hword (inum, q1)) by (done || by eapply ptr_block). rewrite decide_False; [done|].
          intros (_ & Ep & Ei). apply Hqp, pos_inj; cbn in *; congruence.
      + unfold word. destruct (Z.eqb_spec (ptr sb s n q1) 0); [done|].
        rewrite (Hword (n, q1)) by (done || by eapply ptr_block). by rewrite decide_False by naive_solver.
    - rewrite Haddr by done. rewrite below_root by done.
      destruct (bool_decide_reflect (n = inum)) as [->|Hne]; cbn [andb]; [|by rewrite decide_False by naive_solver].
      destruct (bool_decide_reflect (q = p)) as [->|Hqp]; [by rewrite decide_True|].
      rewrite decide_False; [done|]. intros (_ & Ep & Ei). apply Hqp, pos_inj; congruence. }
  destruct Hl as [L1 L2 L3]. split.
  - intros n q Hnn Hvq. rewrite minus_lookup, Hptr, L1 by done. by destruct (subtree inum p (n, q)).
  - intros n q b. rewrite minus_lookup. case_match; [done|]. by apply L2.
  - intros k1 k2 b. rewrite !minus_lookup. case_match; [done|]. case_match; [done|]. by apply L3.
Qed.

(** ** Blocks being freed *)

Record freeing (ip : nat) (s0 s : fs) (P : ptrs) (G K : key → bool) : Prop := {
  fr_start : linked sb s0 P;
  fr_inv : inv s (minus P G) (λ b, count b (minus P K) - count b (minus P G));
  fr_sub : ∀ k, is_Some (P !! k) → G k = true → K k = true;
  fr_touch : touches sb ip s0 s;
  fr_data : ∀ k b, P !! k = Some b → is_meta k.2 = false → same_block b s0 s;
  fr_free : nfree sb s0 ≤ nfree sb s;
}.

Definition none : key → bool := λ _, false.

Lemma freeing_start ip s P : inv s P zero → freeing ip s s P none none.
Proof.
  intros Hi. unfold none. split; try done; [apply Hi| |apply touches_refl]. rewrite minus_none.
  apply (inv_ext sb s P zero); [done|]. intros b _. unfold zero. lia.
Qed.

Lemma freeing_end ip s0 s P G : freeing ip s0 s P G G → inv s (minus P G) zero.
Proof. intros Hf. apply (inv_ext sb _ _ _ zero (fr_inv _ _ _ _ _ _ Hf)). intros b _. unfold zero. lia. Qed.

Lemma freeing_ext ip s0 s P G K G' K' : freeing ip s0 s P G K →
  (∀ k, is_Some (P !! k) → G' k = G k) → (∀ k, is_Some (P !! k) → K' k = K k) → freeing ip s0 s P G' K'.
Proof.
  intros [A1 A2 A3 A4 A5 A6] HG HK. split; try done.
  - by rewrite (minus_ext P G' G HG), (minus_ext P K' K HK).
  - intros k Hk. rewrite HG, HK by done. by apply A3.
Qed.

Lemma freeing_log ip s0 s P G K b : freeing ip s0 s P G K → freeing ip s0 (log_write b s) P G K.
Proof.
  intros [A1 A2 A3 A4 A5 A6]. destruct (log_write_fields b s) as (L1 & L2 & _). split; try done.
  - by apply inv_log.
  - eapply touches_trans; [done|]. apply (touches_frame sb ip _ _ no_block), frame_log.
  - intros k c Hk Hm x Hx. rewrite L1. by apply (A5 k c).
  - by rewrite (nfree_eq sb s (log_write b s)).
Qed.

Lemma freeing_free ip s0 s P G K k b : freeing ip s0 s P G K → P !! k = Some b → K k = false →
  ∃ s', bfree sb b s = Some s' ∧ freeing ip s0 s' P G (also k K).
Proof.
  intros [A1 A2 A3 A4 A5 A6] HP HK.
  assert (minus P G !! k = Some b) as HG.
  { rewrite minus_lookup. destruct (G k) eqn:E; [|done]. by rewrite A3 in HK. }
  pose proof (dom_data sb s (minus P G) k b (v_linked _ _ _ _ A2) HG) as Hd.
  pose proof (count_pos b k (minus P K)) as Hpos. rewrite minus_lookup, HK in Hpos. specialize (Hpos HP).
  pose proof (count_minus_le b P K). pose proof (count_bound sb s0 P b Hsb A1).
  destruct (bfree_spec sb Hsb b s _ _ A2 Hd) as (s' & Hs' & Hi' & Hf & Hz); [lia|].
  exists s'. split; [done|]. split; try done.
  - apply (inv_ext sb s' (minus P G) _ _ Hi'). intros x _. rewrite (count_also x k b P K HP HK). unfold plus. lia.
  - intros k' Hk' HGk'. unfold also. rewrite A3, orb_true_r by done. done.
  - eapply touches_trans; [done|]. by eapply touches_frame.
  - intros k' c Hk' Hm x Hx. rewrite (f_block _ _ _ _ Hf c); [by apply (A5 k' c)|by eapply dom_data|by intros []|done].
  - etrans; [done|]. by apply nfree_mono.
Qed.

Lemma freeing_drop ip inum s0 s P G K p l : freeing ip s0 s P G K → owns s0 ip inum → valid_pos p →
  at_loc sb s ip inum p l → (∀ k, subtree inum p k = true → is_Some (P !! k) → K k = true) →
  freeing ip s0 (write_loc l 0 s) P (either (subtree inum p) G) K.
Proof.
  intros [A1 A2 A3 A4 A5 A6] Ho Hv Hat Hsub.
  pose proof (touches_owns _ _ _ _ ip inum A4 Ho) as Ho1. pose proof (v_cache _ _ _ _ A2) as Hc.
  pose proof (owns_inum sb s ip inum Hc Ho1) as Hn.
  pose proof (write_loc_frame sb Hsb s _ _ ip inum p l 0 A2 Ho1 Hv Hat) as (F1 & F2 & F3 & F4 & F5 & F6).
  assert (linked sb (write_loc l 0 s) (minus (minus P G) (subtree inum p))) as Hl'.
  { apply (linked_drop s); try done; [apply A2| |].
    - intros n i. by apply (write_loc_addr sb Hsb s _ _ ip inum p l 0 A2 Ho1 Hv Hat).
    - intros k b j. by apply (write_loc_word sb s _ _ ip inum p l 0 A2 Ho1 Hv Hat). }
  assert (minus (minus P G) (subtree inum p) = minus P (either (subtree inum p) G)) as E.
  { symmetry. apply minus_eq. intros k. rewrite !minus_lookup. unfold either. by destruct (subtree inum p k), (G k). }
  rewrite E in Hl'.
  pose proof (write_loc_inv sb Hsb s _ _ ip inum p l 0 A2 Ho1 Hv Hat ltac:(done) _ Hl') as Hi'.
  split; try done.
  - apply (inv_ext sb _ _ _ _ Hi'). intros b _. lia.
  - intros k Hk. unfold either. destruct (subtree inum p k) eqn:Es; [by intros _; apply Hsub|]. by apply A3.
  - by eapply touches_trans.
  - intros k b Hk Hm x Hx. rewrite (F5 b); [by apply (A5 k b)|exact (dom_data sb s0 P k b A1 Hk)| |done]. intros ->.
    destruct (loc_block_cases sb s _ _ ip inum p l A2 Ho1 Hv Hat) as [E0|(q & _ & HPq & Hmq)].
    + pose proof (in_data_pos sb Hsb _ (dom_data sb s0 P k _ A1 Hk)). lia.
    + rewrite minus_lookup in HPq. destruct (G (inum, q)); [done|].
      pose proof (l_meta sb s0 P A1 (inum, q) k _ HPq Hk Hmq) as <-. cbn in Hm. congruence.
  - rewrite (nfree_eq sb s (write_loc l 0 s)); done.
Qed.

(** *** What the code reads *)

Lemma freeing_addr ip inum s0 s P G K p : freeing ip s0 s P G K → owns s0 ip inum → valid_pos p →
  parent p = None → get_addr ip (index p) s = default 0 (minus P G !! (inum, p)).
Proof.
  intros [A1 A2 A3 A4 A5 A6] Ho Hv Hp. pose proof (touches_owns _ _ _ _ ip inum A4 Ho) as Ho1.
  pose proof (v_cache _ _ _ _ A2) as Hc.
  pose proof (owns_inum sb s ip inum Hc Ho1) as Hn.
  rewrite <-(ptr_lookup sb s (minus P G) inum p (v_linked _ _ _ _ A2) Hn Hv). rewrite ptr_unfold, Hp by done.
  unfold faddr, get_addr. by rewrite (dnode_owns sb s ip inum).
Qed.

Lemma freeing_word ip inum s0 s P G K q b j : freeing ip s0 s P G K → inum_ok sb inum → valid_pos q →
  is_meta q = true → 0 ≤ j < NADDR_PER_BLOCK → minus P G !! (inum, q) = Some b →
  get_word b j s = default 0 (minus P G !! (inum, child q j)) ∧
  at_loc sb s ip inum (child q j) (LWord b j).
Proof.
  intros [A1 A2 A3 A4 A5 A6] Hn Hv Hm Hj HP. destruct (child_parent q j Hm Hv Hj) as (E1 & E2 & E3).
  assert (ptr sb s inum q = b) as Hpq by (rewrite (ptr_lookup sb s (minus P G)), HP by (done || apply A2); done).
  pose proof (in_data_pos sb Hsb b (dom_data sb s _ _ b (v_linked _ _ _ _ A2) HP)) as Hb. split.
  - rewrite <-(ptr_lookup sb s (minus P G) inum _ (v_linked _ _ _ _ A2) Hn E3). rewrite ptr_unfold, E1, E2, Hpq by done.
    unfold word. by rewrite (proj2 (Z.eqb_neq _ _)) by lia.
  - unfold at_loc. rewrite E1, E2, Hpq. split; [done|lia].
Qed.

End drop.

(** ** Loops *)

Lemma foldl_range {A} (body : Z → A → option A) (I : Z → A → Prop) lo hi a : I lo a →
  (∀ j a, lo ≤ j < hi → I j a → ∃ a', body j a = Some a' ∧ I (j + 1) a') →
  ∃ a', foldl (λ o x, a ← o; body x a) (Some a) (range lo hi) = Some a' ∧ I (Z.max lo hi) a'.
Proof.
  intros H0 Hstep. unfold range. remember (Z.to_nat (hi - lo)) as n eqn:Hn.
  revert lo a H0 Hstep Hn. induction n as [|n IH]; intros lo a H0 Hstep Hn.
  - rewrite seqZ_nil by lia. exists a. split; [done|]. by rewrite Z.max_l by lia.
  - rewrite seqZ_cons by lia. cbn [foldl]. destruct (Hstep lo a ltac:(lia) H0) as (a' & Ha & HI).
    cbn [mbind option_bind]. rewrite Ha.
    destruct (IH (lo + 1) a' HI) as (a2 & H2 & HI2); [intros j a1 Hj; apply Hstep; lia|lia|].
    exists a2. replace (Z.pred (hi - lo)) with (hi - (lo + 1)) by lia. change (Z.succ lo) with (lo + 1).
    split; [done|]. by replace (Z.max lo hi) with (Z.max (lo + 1) hi) by lia.
Qed.

(** The same when the body may panic. *)
Lemma foldl_range_opt {A} (body : Z → A → option A) (I : Z → A → Prop) (F : Prop) lo hi a : I lo a →
  (∀ j a, lo ≤ j < hi → I j a → match body j a with Some a' => I (j + 1) a' | None => F end) →
  match foldl (λ o x, a ← o; body x a) (Some a) (range lo hi) with Some a' => I (Z.max lo hi) a' | None => F end.
Proof.
  intros H0 Hstep. unfold range. remember (Z.to_nat (hi - lo)) as n eqn:Hn.
  revert lo a H0 Hstep Hn. induction n as [|n IH]; intros lo a H0 Hstep Hn.
  - rewrite seqZ_nil by lia. cbn. by rewrite Z.max_l by lia.
  - rewrite seqZ_cons by lia. cbn [foldl]. pose proof (Hstep lo a ltac:(lia) H0) as Ha.
    cbn [mbind option_bind]. replace (Z.pred (hi - lo)) with (hi - (lo + 1)) by lia. change (Z.succ lo) with (lo + 1).
    destruct (body lo a) as [a'|].
    + replace (Z.max lo hi) with (Z.max (lo + 1) hi) by lia. apply IH; [done|intros j a1 Hj; apply Hstep; lia|lia].
    + assert (∀ l, foldl (λ o x, a ← o; body x a) None l = None) as -> by (intros l; by induction l). done.
Qed.

(** ** The pointers below the [j]-th pointer of a block *)

(** The index of the pointer in the block at [q] through which [p] is reached. *)
Definition via (q p : pos) : option Z :=
  match parent p with
  | None => None
  | Some r => if bool_decide (r = q) then Some (index p)
              else if bool_decide (parent r = Some q) then Some (index r) else None
  end.

Definition trees (inum : Z) (q : pos) (lo hi : Z) : key → bool := λ k,
  bool_decide (k.1 = inum) && match via q k.2 with Some i => (lo <=? i) && (i <? hi) | None => false end.

Lemma via_range q p i : valid_pos p → via q p = Some i → 0 ≤ i < NADDR_PER_BLOCK ∧ is_meta q = true.
Proof.
  intros Hv. unfold via. destruct (parent p) as [r|] eqn:Er; [|done].
  destruct (parent_valid p r Hv Er) as [Hvr Hmr].
  pose proof (index_range p Hv) as Hi. rewrite Er in Hi. pose proof (index_range r Hvr) as Hi'.
  case_bool_decide as E1; [intros [= <-]; by subst|]. case_bool_decide as E2; [|done]. intros [= <-].
  rewrite E2 in Hi'. by destruct (parent_valid r q Hvr E2).
Qed.

Lemma rank_bound p : (rank p ≤ 2)%nat.
Proof. unfold rank. destruct (parent p) as [y|]; [|lia]. destruct (parent y); lia. Qed.

Lemma subtree_child inum q j n p : is_meta q = true → valid_pos q → 0 ≤ j < NADDR_PER_BLOCK → valid_pos p →
  subtree inum (child q j) (n, p) =
  bool_decide (n = inum) && match via q p with Some i => i =? j | None => false end.
Proof.
  intros Hm Hv Hj Hp. destruct (child_parent q j Hm Hv Hj) as (E1 & E2 & E3). unfold subtree. cbn [fst snd]. f_equal.
  pose proof (parent_rank _ _ E1) as Hr. pose proof (rank_bound p) as Hb.
  unfold below, via. destruct (parent p) as [r|] eqn:Er; cbn [mbind option_bind].
  2: { rewrite bool_decide_false by congruence. done. }
  pose proof (parent_rank _ _ Er) as Hr2. destruct (parent_valid p r Hp Er) as [Hvr Hmr].
  assert (parent r ≠ Some (child q j)) as H3 by (intros H; apply parent_rank in H; lia).
  rewrite (bool_decide_false _ H3), orb_false_r. destruct (bool_decide_reflect (r = q)) as [->|Hrq].
  - assert (Some q ≠ Some (child q j)) as H4 by (intros [= H]; rewrite <-H in Hr; lia).
    rewrite (bool_decide_false _ H4), orb_false_r. destruct (Z.eqb_spec (index p) j) as [Ei|Ei].
    + apply bool_decide_true, pos_inj; congruence.
    + apply bool_decide_false. intros ->. congruence.
  - rewrite (bool_decide_false (p = child q j)) by (intros ->; congruence). cbn [orb].
    destruct (bool_decide_reflect (parent r = Some q)) as [Erq|Erq].
    + destruct (Z.eqb_spec (index r) j) as [Ei|Ei].
      * apply bool_decide_true. f_equal. apply pos_inj; congruence.
      * apply bool_decide_false. intros [= ->]. congruence.
    + apply bool_decide_false. intros [= ->]. congruence.
Qed.

Lemma trees_step inum q lo j n p : is_meta q = true → valid_pos q → 0 ≤ lo ≤ j → j < NADDR_PER_BLOCK → valid_pos p →
  trees inum q lo (j + 1) (n, p) = subtree inum (child q j) (n, p) || trees inum q lo j (n, p).
Proof.
  intros Hm Hv Hlo Hj Hp. rewrite subtree_child by (done || lia). unfold trees. cbn [fst snd].
  destruct (bool_decide (n = inum)); [|done]. cbn [andb]. destruct (via q p) as [i|]; [|done].
  destruct (Z.leb_spec lo i), (Z.ltb_spec i (j + 1)), (Z.eqb_spec i j), (Z.ltb_spec i j); cbn; done || lia.
Qed.

Lemma trees_empty inum q lo k : trees inum q lo lo k = false.
Proof.
  unfold trees. destruct (via q k.2) as [i|]; [|by rewrite andb_false_r].
  destruct (Z.leb_spec lo i), (Z.ltb_spec i lo); cbn; rewrite ?andb_false_r; done || lia.
Qed.

Lemma subtree_trees inum q n p : valid_pos p →
  subtree inum q (n, p) = bool_decide ((n, p) = (inum, q)) || trees inum q 0 NADDR_PER_BLOCK (n, p).
Proof.
  intros Hp. unfold subtree, trees, below. cbn [fst snd].
  destruct (bool_decide_reflect (n = inum)) as [->|Hne]; cbn [andb].
  2: { rewrite bool_decide_false by congruence. done. }
  assert (bool_decide ((inum, p) = (inum, q)) = bool_decide (p = q)) as ->.
  { apply bool_decide_ext. split; [by intros [=]|by intros ->]. }
  rewrite <-orb_assoc. f_equal.
  unfold via. destruct (parent p) as [r|] eqn:Er; [|done]. cbn [mbind option_bind].
  destruct (parent_valid p r Hp Er) as [Hvr Hmr].
  pose proof (index_range p Hp) as Hi. rewrite Er in Hi. pose proof (index_range r Hvr) as Hi'.
  destruct (bool_decide_reflect (r = q)) as [->|Hrq].
  - rewrite (bool_decide_true (Some q = Some q)) by done. symmetry. apply andb_true_iff.
    split; [apply Z.leb_le|apply Z.ltb_lt]; lia.
  - rewrite (bool_decide_false (Some r = Some q)) by congruence. cbn [orb].
    destruct (bool_decide_reflect (parent r = Some q)) as [E|E]; [|done]. rewrite E in Hi'.
    symmetry. apply andb_true_iff. split; [apply Z.leb_le|apply Z.ltb_lt]; lia.
Qed.

Section ops.
Context (sb : superblock) (Hsb : sb_wf sb) (ip : nat) (inum : Z) (s0 : fs) (P : ptrs).
Context (Ho : owns s0 ip inum) (Hn : inum_ok sb inum).

Abbreviation freeing := (freeing sb ip s0).

(** Nothing of [T] is freed and not yet gone. *)
Definition settled (G K T : key → bool) : Prop := ∀ k, is_Some (P !! k) → T k = true → K k = G k.

(** [F] frees the block at [c] and everything below it. *)
Definition frees (F : Z → fs → option fs) (c : pos) : Prop := ∀ s G K w,
  freeing s P G K → minus P G !! (inum, c) = Some w → settled G K (subtree inum c) →
  ∃ s', F w s = Some s' ∧ freeing s' P G (either (subtree inum c) K).

Lemma key_valid s G K n p : freeing s P G K → is_Some (P !! (n, p)) → valid_pos p.
Proof using Type. intros Hf [b Hb]. by apply (l_dom sb s0 P (fr_start _ _ _ _ _ _ _ Hf)) in Hb as (_ & ? & _). Qed.

Lemma minus_Some G k b : minus P G !! k = Some b → P !! k = Some b ∧ G k = false.
Proof using Type. rewrite minus_lookup. by destruct (G k). Qed.

Lemma freeing_pos s G K k w : freeing s P G K → minus P G !! k = Some w → (w =? 0) = false.
Proof using Hsb.
  intros Hf Hw. pose proof (dom_data sb s _ _ w (v_linked _ _ _ _ (fr_inv _ _ _ _ _ _ _ Hf)) Hw) as Hd.
  apply (in_data_pos sb Hsb) in Hd. lia.
Qed.

(** What is absent below an absent pointer is gone already. *)
Lemma absent_gone s G K c k : freeing s P G K → valid_pos c → minus P G !! (inum, c) = None →
  is_Some (P !! k) → subtree inum c k = true → G k = true.
Proof using Hn.
  intros Hf Hv Hno [b Hb] Hk. destruct k as [n p]. pose proof (key_valid s G K n p Hf ltac:(eauto)) as Hp.
  pose proof (v_linked _ _ _ _ (fr_inv _ _ _ _ _ _ _ Hf)) as Hl.
  assert (n = inum ∧ below c p = true) as [-> Hbel] by (unfold subtree in Hk; cbn in Hk; bool_facts; done).
  assert (minus P G !! (inum, p) = None) as Hp0.
  { unfold below in Hbel. destruct (bool_decide_reflect (p = c)) as [->|_]; [done|].
    destruct (parent p) as [r|] eqn:Er; [|done]. destruct (parent_valid p r Hp Er) as [Hvr _].
    apply (no_child sb s (minus P G) inum r p Hl Hn Hp Er).
    destruct (bool_decide_reflect (Some r = Some c)) as [[= ->]|_]; [done|]. cbn in Hbel. bool_facts.
    by apply (no_child sb s (minus P G) inum c r Hl Hn Hvr). }
  rewrite minus_lookup, Hb in Hp0. by destruct (G (inum, p)).
Qed.

Lemma frees_leaf bn : frees (bfree sb) (PData bn).
Proof using Hsb.
  intros s G K w Hf Hw Hs. apply minus_Some in Hw as [HP HG].
  assert (subtree inum (PData bn) (inum, PData bn) = true) as Hself.
  { unfold subtree. by rewrite below_refl, bool_decide_true. }
  destruct (freeing_free sb Hsb ip s0 s P G K (inum, PData bn) w Hf HP) as (s' & Hs' & Hf').
  { by rewrite (Hs _ ltac:(eauto) Hself). }
  exists s'. split; [done|]. apply (freeing_ext sb ip s0 s' P G _ G _ Hf'); [done|].
  intros [n p] Hk. pose proof (key_valid s G K n p Hf Hk) as Hp.
  unfold either, also. rewrite subtree_trees by done. f_equal.
  assert (trees inum (PData bn) 0 NADDR_PER_BLOCK (n, p) = false) as ->; [|by rewrite orb_false_r].
  unfold trees. cbn [snd]. destruct (via (PData bn) p) as [i|] eqn:E; [|by rewrite andb_false_r].
  apply via_range in E as [_ ?]; done.
Qed.

Section loop.
Context (F : Z → fs → option fs) (q : pos) (b lo hi : Z).
Context (HF : ∀ j, lo ≤ j < hi → frees F (child q j)).
Context (Hq : valid_pos q) (Hmq : is_meta q = true) (Hlo : 0 ≤ lo) (Hhi : hi ≤ NADDR_PER_BLOCK).

Lemma trees_self lo' hi' : trees inum q lo' hi' (inum, q) = false.
Proof using Hq.
  unfold trees. cbn [snd]. destruct (via q q) as [i|] eqn:E; [|by rewrite andb_false_r]. exfalso.
  unfold via in E. destruct (parent q) as [r|] eqn:Er; [|done]. pose proof (parent_rank _ _ Er).
  revert E. case_bool_decide; [subst; lia|]. case_bool_decide as E2; [|done]. apply parent_rank in E2. lia.
Qed.

Lemma settled_child j G K : lo ≤ j < hi → 
  (∀ k, is_Some (P !! k) → valid_pos k.2) →
  settled G K (trees inum q lo hi) → settled G (either (trees inum q lo j) K) (subtree inum (child q j)).
Proof using Hq Hmq Hlo Hhi.
  intros Hj Hval Hs [n p] Hk Hc. pose proof (Hval _ Hk) as Hp. cbn in Hp. rewrite subtree_child in Hc by (done || lia).
  assert (trees inum q lo j (n, p) = false ∧ trees inum q lo hi (n, p) = true) as [E1 E2].
  { unfold trees. cbn [fst snd]. destruct (via q p) as [i|]; [|bool_facts; done]. bool_facts. subst.
    rewrite bool_decide_true by done. cbn [andb]. split.
    - rewrite (proj2 (Z.ltb_ge _ _)), andb_false_r by lia. done.
    - rewrite (proj2 (Z.leb_le _ _)), (proj2 (Z.ltb_lt _ _)) by lia. done. }
  unfold either. rewrite E1. cbn [orb]. by apply Hs.
Qed.

Lemma loop_free (body : Z → fs → option fs) s G K :
  (∀ j s, body j s = if get_word b j s =? 0 then Some s else F (get_word b j s) s) →
  freeing s P G K → minus P G !! (inum, q) = Some b → settled G K (trees inum q lo hi) → lo ≤ hi →
  ∃ s', for_each (range lo hi) body s = Some s' ∧ freeing s' P G (either (trees inum q lo hi) K).
Proof using Hsb Ho Hn HF Hq Hmq Hlo Hhi.
  intros Hbody Hf Hb Hs Hle.
  destruct (foldl_range body (λ j s, freeing s P G (either (trees inum q lo j) K)) lo hi s) as (s' & Hs' & HI).
  - apply (freeing_ext sb ip s0 s P G K _ _ Hf); [done|]. intros k _. unfold either. by rewrite trees_empty.
  - intros j s1 Hj Hf1. rewrite Hbody.
    assert (∀ k, is_Some (P !! k) → valid_pos k.2) as Hval by (intros [n p]; apply (key_valid s _ _ n p Hf)).
    assert (∀ K', (∀ k, is_Some (P !! k) → K' k = either (subtree inum (child q j)) (either (trees inum q lo j) K) k) →
      ∀ k, is_Some (P !! k) → either (trees inum q lo (j + 1)) K k = K' k) as Hext.
    { intros K' HK' [n p] Hk. rewrite (HK' _ Hk). pose proof (Hval _ Hk) as Hp. cbn in Hp. unfold either.
      rewrite trees_step by (done || lia). by rewrite orb_assoc. }
    destruct (freeing_word sb Hsb ip inum s0 s1 P G _ q b j Hf1 Hn Hq Hmq ltac:(lia) Hb) as [-> _].
    destruct (minus P G !! (inum, child q j)) as [w|] eqn:Ew; cbn [default from_option id].
    + rewrite (freeing_pos _ _ _ _ _ Hf1 Ew).
      destruct (HF j Hj s1 G _ w Hf1 Ew) as (s2 & Hs2 & Hf2); [by apply settled_child|].
      exists s2. split; [done|]. apply (freeing_ext sb ip s0 s2 P G _ G _ Hf2); [done|]. by apply Hext.
    + exists s1. split; [done|]. apply (freeing_ext sb ip s0 s1 P G _ G _ Hf1); [done|]. apply Hext.
      intros k Hk. unfold either at 2. destruct (subtree inum (child q j) k) eqn:Ek; [|done]. cbn [orb].
      apply (fr_sub _ _ _ _ _ _ _ Hf1); [done|]. destruct (child_parent q j Hmq Hq ltac:(lia)) as (_ & _ & Hvc).
      by apply (absent_gone s1 G _ (child q j) k Hf1).
  - exists s'. split; [done|]. by rewrite Z.max_r in HI.
Qed.

(** The same loop, which also clears the pointers. *)
Lemma loop_clear (body : Z → bool * fs → option (bool * fs)) c s G :
  (∀ j c s, body j (c, s) = if get_word b j s =? 0 then Some (c, s)
     else s ← F (get_word b j s) s; Some (true, set_word b j 0 s)) →
  freeing s P G G → minus P G !! (inum, q) = Some b →
  ∃ c' s', foldl (λ o j, a ← o; body j a) (Some (c, s)) (range lo hi) = Some (c', s') ∧
    freeing s' P (either (trees inum q lo hi) G) (either (trees inum q lo hi) G).
Proof using Hsb Ho Hn HF Hq Hmq Hlo Hhi.
  intros Hbody Hf Hb. set (Gj := λ j, either (trees inum q lo j) G).
  destruct (foldl_range body (λ j a, freeing a.2 P (Gj j) (Gj j)) lo hi (c, s)) as ([c' s'] & Hs' & HI).
  - apply (freeing_ext sb ip s0 s P G G _ _ Hf); intros k _; unfold Gj, either; by rewrite trees_empty.
  - intros j [c1 s1] Hj Hf1. cbn [snd] in Hf1. rewrite Hbody.
    assert (∀ k, is_Some (P !! k) → valid_pos k.2) as Hval by (intros [n p]; apply (key_valid s _ _ n p Hf)).
    assert (∀ k, is_Some (P !! k) → Gj (j + 1) k = either (subtree inum (child q j)) (Gj j) k) as Hext.
    { intros [n p] Hk. pose proof (Hval _ Hk) as Hp. cbn in Hp. unfold Gj, either.
      rewrite trees_step by (done || lia). by rewrite orb_assoc. }
    assert (minus P (Gj j) !! (inum, q) = Some b) as Hb1.
    { apply minus_Some in Hb as [HPb HGb]. rewrite minus_lookup. unfold Gj, either. by rewrite trees_self, HGb. }
    destruct (child_parent q j Hmq Hq ltac:(lia)) as (_ & _ & Hvc).
    destruct (freeing_word sb Hsb ip inum s0 s1 P (Gj j) _ q b j Hf1 Hn Hq Hmq ltac:(lia) Hb1) as [-> _].
    destruct (minus P (Gj j) !! (inum, child q j)) as [w|] eqn:Ew; cbn [default from_option id].
    + rewrite (freeing_pos _ _ _ _ _ Hf1 Ew).
      destruct (HF j Hj s1 (Gj j) _ w Hf1 Ew ltac:(done)) as (s2 & Hs2 & Hf2).
      destruct (freeing_word sb Hsb ip inum s0 s2 P (Gj j) _ q b j Hf2 Hn Hq Hmq ltac:(lia) Hb1) as [_ Hat].
      exists (true, set_word b j 0 s2). rewrite Hs2. cbn [mbind option_bind snd]. split; [done|].
      pose proof (freeing_drop sb Hsb ip inum s0 s2 P (Gj j) _ (child q j) _ Hf2 Ho Hvc Hat) as Hf3.
      apply (freeing_ext sb ip s0 _ P _ _ _ _ (Hf3 ltac:(intros k Hk _; unfold either; by rewrite Hk))); done.
    + exists (c1, s1). split; [done|]. cbn [snd].
      assert (∀ k, is_Some (P !! k) → Gj (j + 1) k = Gj j k) as Hsame.
      { intros k Hk. rewrite (Hext _ Hk). unfold either at 1. destruct (subtree inum (child q j) k) eqn:Ek; [|done].
        symmetry. by apply (absent_gone s1 (Gj j) (Gj j) (child q j) k Hf1). }
      by apply (freeing_ext sb ip s0 s1 P (Gj j) (Gj j)).
  - exists c', s'. split; [done|]. cbn [snd] in HI. destruct (Z.le_gt_cases lo hi); [by rewrite Z.max_r in HI|].
    rewrite Z.max_l in HI by lia.
    assert (∀ k, either (trees inum q lo hi) G k = Gj lo k) as HG; [|by apply (freeing_ext sb ip s0 s' P (Gj lo) (Gj lo))].
    intros k. unfold Gj, either. rewrite trees_empty. cbn [orb].
    assert (trees inum q lo hi k = false) as ->; [|done]. unfold trees. destruct (via q k.2) as [i|]; [|by rewrite andb_false_r].
    destruct (Z.leb_spec lo i), (Z.ltb_spec i hi); cbn; rewrite ?andb_false_r; done || lia.
Qed.

End loop.
(** Freeing what a pointer block points to, then the block. *)
Lemma frees_node F q (body : Z → Z → fs → option fs) : valid_pos q → is_meta q = true →
  (∀ j, 0 ≤ j < NADDR_PER_BLOCK → frees F (child q j)) →
  (∀ w j s, body w j s = if get_word w j s =? 0 then Some s else F (get_word w j s) s) →
  frees (λ w s, s ← for_each (range 0 NADDR_PER_BLOCK) (body w) s; bfree sb w s) q.
Proof using Hsb Ho Hn.
  intros Hq Hmq HF Hbody s G K w Hf Hw Hs.
  assert (∀ k, is_Some (P !! k) → valid_pos k.2) as Hval by (intros [n p]; apply (key_valid s _ _ n p Hf)).
  assert (∀ k, is_Some (P !! k) →
    subtree inum q k = bool_decide (k = (inum, q)) || trees inum q 0 NADDR_PER_BLOCK k) as Hsub.
  { intros [n p] Hk. apply subtree_trees. by apply (Hval (n, p)). }
  destruct (loop_free F q w 0 NADDR_PER_BLOCK HF Hq Hmq ltac:(lia) ltac:(lia) (body w) s G K) as (s1 & -> & Hf1); try done.
  { intros k Hk Ht. apply Hs; [done|]. by rewrite Hsub, Ht, orb_true_r. }
  cbn [mbind option_bind]. pose proof (minus_Some _ _ _ Hw) as [HP HG].
  destruct (freeing_free sb Hsb ip s0 s1 P G _ (inum, q) w Hf1 HP) as (s2 & Hs2 & Hf2).
  { unfold either. rewrite trees_self by done. cbn [orb]. rewrite Hs; [done|by eauto|].
    rewrite Hsub by eauto. by rewrite bool_decide_true. }
  exists s2. split; [done|]. apply (freeing_ext sb ip s0 s2 P G _ _ _ Hf2); [done|].
  intros k Hk. unfold either, also. rewrite Hsub by done. by rewrite orb_assoc.
Qed.

Lemma child_data q j : q = PInd ∨ (∃ k, q = PL1 k) → ∃ bn, child q j = PData bn.
Proof using Type. intros [->|[k ->]]; cbn; by eexists. Qed.

Lemma frees_indirect q : valid_pos q → q = PInd ∨ (∃ k, q = PL1 k) → frees (free_indirect_block sb) q.
Proof using Hsb Ho Hn.
  intros Hq Hk s G K w Hf Hw Hs.
  unfold free_indirect_block. rewrite (freeing_pos _ _ _ _ _ Hf Hw).
  apply (frees_node (bfree sb) q (λ w j s, bfree_if sb (get_word w j s) s) Hq); try done.
  - by destruct Hk as [->|[k ->]].
  - intros j _. destruct (child_data q j Hk) as [bn ->]. apply frees_leaf.
Qed.

(** ** Whole files *)

(** Besides [G] the pointers of the data blocks in [f] are gone. *)
Definition cuts (f : Z → bool) (G G' : key → bool) : Prop := ∀ n p, is_Some (P !! (n, p)) →
  (n ≠ inum → G' (n, p) = G (n, p)) ∧ ∀ bn, n = inum → p = PData bn → G' (n, p) = f bn || G (n, p).

Lemma cuts_trans f1 f2 G1 G2 G3 : cuts f1 G1 G2 → cuts f2 G2 G3 → cuts (λ bn, f1 bn || f2 bn) G1 G3.
Proof using Type.
  intros H1 H2 n p Hk. destruct (H1 n p Hk) as [A1 A2], (H2 n p Hk) as [B1 B2]. split.
  - intros Hne. by rewrite B1, A1.
  - intros bn En Ep. rewrite (B2 bn En Ep), (A2 bn En Ep). by destruct (f1 bn), (f2 bn).
Qed.

Lemma cuts_ext f f' G G' s K1 K2 : freeing s P K1 K2 → cuts f G G' → (∀ bn, 0 ≤ bn < MAXFILE → f' bn = f bn) → cuts f' G G'.
Proof using Type.
  intros Hf H Hx n p Hk. destruct (H n p Hk) as [A1 A2]. split; [done|]. intros bn En Ep. rewrite (A2 bn En Ep).
  pose proof (key_valid s K1 K2 n p Hf Hk) as Hv. subst p. by rewrite Hx.
Qed.

Lemma cuts_refl G : cuts (λ _, false) G G.
Proof using Type. by split. Qed.

Lemma cuts_tree p G : cuts (λ bn, below p (PData bn)) G (either (subtree inum p) G).
Proof using Type.
  intros n q Hk. unfold either, subtree. cbn [fst snd]. split.
  - intros Hne. by rewrite bool_decide_false.
  - intros bn -> ->. by rewrite bool_decide_true.
Qed.

(** Free the tree at [p] and clear its pointer. *)
Lemma cut_tree F p l s G w : frees F p → valid_pos p → freeing s P G G → minus P G !! (inum, p) = Some w →
  (∀ s', freeing s' P G (either (subtree inum p) G) → at_loc sb s' ip inum p l) →
  ∃ s', (s ← F w s; Some (write_loc l 0 s)) = Some s' ∧
    freeing s' P (either (subtree inum p) G) (either (subtree inum p) G).
Proof using Hsb Ho.
  intros HF Hp Hf Hw Hat. destruct (HF s G G w Hf Hw ltac:(done)) as (s1 & -> & Hf1). cbn [mbind option_bind].
  pose proof (freeing_drop sb Hsb ip inum s0 s1 P G _ p l Hf1 Ho Hp (Hat _ Hf1)) as Hf2.
  eexists. split; [done|]. apply Hf2. intros k Hk _. unfold either. by rewrite Hk.
Qed.

Lemma absent_tree s G p : freeing s P G G → valid_pos p → minus P G !! (inum, p) = None →
  freeing s P (either (subtree inum p) G) (either (subtree inum p) G).
Proof using Hn.
  intros Hf Hp Hw.
  assert (∀ k, is_Some (P !! k) → either (subtree inum p) G k = G k) as HG; [|by apply (freeing_ext sb ip s0 s P G G)].
  intros k Hk. unfold either. destruct (subtree inum p k) eqn:E; [|done]. symmetry. by apply (absent_gone s G G p k Hf).
Qed.

(** The same at a pointer of the inode, with the test for 0. *)
Lemma cut_root F p s G : frees F p → valid_pos p → parent p = None → freeing s P G G →
  ∃ s', (if get_addr ip (index p) s =? 0 then Some s
         else s' ← F (get_addr ip (index p) s) s; Some (set_addr ip (index p) 0 s')) = Some s' ∧
    freeing s' P (either (subtree inum p) G) (either (subtree inum p) G).
Proof using Hsb Ho Hn.
  intros HF Hp Hroot Hf. rewrite (freeing_addr sb ip inum s0 s P G G p Hf Ho Hp Hroot).
  destruct (minus P G !! (inum, p)) as [w|] eqn:Ew; cbn [default from_option id].
  - rewrite (freeing_pos _ _ _ _ _ Hf Ew).
    apply (cut_tree F p (LAddr ip (index p)) s G w); try done. intros s' _. unfold at_loc. by rewrite Hroot.
  - exists s. split; [done|]. by apply absent_tree.
Qed.

(** The direct blocks from [lo]. *)
Definition directs (lo hi : Z) : key → bool := λ k,
  bool_decide (k.1 = inum) && match k.2 with PData bn => (lo <=? bn) && (bn <? hi) | _ => false end.

Lemma subtree_data bn n p : valid_pos p → subtree inum (PData bn) (n, p) = bool_decide ((n, p) = (inum, PData bn)).
Proof using Type.
  intros Hp. rewrite subtree_trees by done.
  assert (trees inum (PData bn) 0 NADDR_PER_BLOCK (n, p) = false) as ->; [|by rewrite orb_false_r].
  unfold trees. cbn [snd]. destruct (via (PData bn) p) as [i|] eqn:E; [|by rewrite andb_false_r].
  apply via_range in E as [_ ?]; done.
Qed.

Lemma cut_directs lo s G : 0 ≤ lo → freeing s P G G →
  ∃ s', for_each (range lo NDIRECT) (free_addr sb ip) s = Some s' ∧
    freeing s' P (either (directs lo (Z.max lo NDIRECT)) G) (either (directs lo (Z.max lo NDIRECT)) G).
Proof using Hsb Ho Hn.
  intros Hlo Hf. set (Gj := λ j, either (directs lo j) G).
  apply (foldl_range (free_addr sb ip) (λ j s, freeing s P (Gj j) (Gj j)) lo NDIRECT s).
  - assert (∀ k, Gj lo k = G k) as HG; [|by apply (freeing_ext sb ip s0 s P G G)].
    intros [n p]. unfold Gj, either, directs. destruct p; cbn; rewrite ?andb_false_r; try done.
    destruct (Z.leb_spec lo bn), (Z.ltb_spec bn lo); cbn; rewrite ?andb_false_r; done || lia.
  - intros j s1 Hj Hf1.
    assert (parent (PData j) = None ∧ index (PData j) = j) as [E1 E2].
    { cbn. by rewrite (proj2 (Z.ltb_lt _ _)) by lia. }
    assert (valid_pos (PData j)) as Hv by (cbn; layout_lia).
    pose proof (cut_root (bfree sb) (PData j) s1 (Gj j) (frees_leaf j) Hv E1 Hf1) as (s2 & Hs2 & Hf2).
    rewrite E2 in Hs2. exists s2. split; [exact Hs2|].
    assert (∀ k, is_Some (P !! k) → Gj (j + 1) k = either (subtree inum (PData j)) (Gj j) k) as HG.
    { intros [n p] Hk. unfold either. rewrite subtree_data by (by apply (key_valid s G G n p)).
      unfold Gj, either, directs. rewrite orb_assoc. f_equal. cbn [fst snd].
      destruct (bool_decide_reflect (n = inum)) as [->|Hne]; cbn [andb].
      2: { rewrite bool_decide_false by congruence. done. }
      destruct p as [bn| | |k]; rewrite ?orb_false_r; try (symmetry; apply bool_decide_false; congruence).
      destruct (bool_decide_reflect ((inum, PData bn) = (inum, PData j))) as [[= ->]|Hne].
      - rewrite (proj2 (Z.leb_le _ _)), (proj2 (Z.ltb_lt _ _)) by lia. done.
      - assert (bn ≠ j) by congruence.
        destruct (Z.leb_spec lo bn), (Z.ltb_spec bn (j + 1)), (Z.ltb_spec bn j); cbn; done || lia. }
    by apply (freeing_ext sb ip s0 s2 P _ _ _ _ Hf2).
Qed.

(** itrunc() up to the update of the inode. *)
Lemma itrunc_frees s : freeing s P none none → ∃ s' G,
  itrunc sb ip s = Some (iupdate sb ip (set_din ip (λ d, d <| d_size := 0 |>) s')) ∧
  freeing s' P G G ∧ (∀ p, is_Some (P !! (inum, p)) → G (inum, p) = true) ∧ cuts (λ _, true) none G.
Proof using Hsb Ho Hn.
  intros Hf. unfold itrunc. destruct (cut_directs 0 s none ltac:(lia) Hf) as (s1 & -> & Hf1). cbn [mbind option_bind].
  set (G1 := either (directs 0 (Z.max 0 NDIRECT)) none) in *.
  destruct (cut_root (λ w s, s ← free_words sb w 0 NINDIRECT s; bfree sb w s) PInd s1 G1) as (s2 & Hs2 & Hf2); try done.
  { apply (frees_node (bfree sb) PInd (λ w j s, bfree_if sb (get_word w j s) s)); try done.
    intros j _. apply frees_leaf. }
  cbn [index] in Hs2. set (G2 := either (subtree inum PInd) G1) in *.
  match goal with |- context [mbind ?K ?t] => assert (t = Some s2) as -> end.
  { rewrite <-Hs2. destruct (get_addr ip NDIRECT s1 =? 0); [done|]. cbn [mbind option_bind].
    by destruct (free_words sb (get_addr ip NDIRECT s1) 0 NINDIRECT s1). }
  cbn [mbind option_bind].
  set (body := λ (w i : Z) (s : fs), let l1 := get_word w i s in
    if l1 =? 0 then Some s else s ← free_words sb l1 0 NADDR_PER_BLOCK s; bfree sb l1 s).
  destruct (cut_root (λ w s, s ← for_each (range 0 NADDR_PER_BLOCK) (body w) s; bfree sb w s) PDind s2 G2)
    as (s3 & Hs3 & Hf3); try done.
  { apply (frees_node (free_indirect_block sb) PDind body); try done.
    - intros j Hj. apply frees_indirect; [done|]. right. by exists j.
    - intros w j s'. unfold body, free_indirect_block. by destruct (get_word w j s' =? 0). }
  cbn [index] in Hs3.
  match goal with |- context [mbind ?K ?t] => assert (t = Some s3) as -> end.
  { rewrite <-Hs3. destruct (get_addr ip (NDIRECT + 1) s2 =? 0); [done|].
    match goal with |- context [for_each _ ?f s2] => change f with (body (get_addr ip (NDIRECT + 1) s2)) end.
    cbn [mbind option_bind]. by destruct (for_each (range 0 NADDR_PER_BLOCK) (body (get_addr ip (NDIRECT + 1) s2)) s2). }
  cbn [mbind option_bind]. exists s3, (either (subtree inum PDind) G2).
  assert (∀ p, is_Some (P !! (inum, p)) → either (subtree inum PDind) G2 (inum, p) = true) as Hall.
  { intros p Hp. pose proof (key_valid s none none inum p Hf Hp) as Hv. unfold either, G2, G1, either, directs, subtree.
    cbn [fst snd]. rewrite bool_decide_true by done. cbn [andb]. destruct p as [bn| | |k].
    - unfold below. cbn [parent mbind option_bind]. destruct (Z.ltb_spec bn NDIRECT) as [Hd|Hd].
      + rewrite (proj2 (Z.leb_le _ _)) by (cbn in Hv; lia). rewrite (proj2 (Z.ltb_lt _ _)) by lia. by rewrite !orb_true_r.
      + destruct (Z.ltb_spec bn (NDIRECT + NINDIRECT)); cbn [mbind option_bind parent].
        * by rewrite (bool_decide_true (Some PInd = Some PInd)), ?orb_true_r by done.
        * by rewrite (bool_decide_true (Some PDind = Some PDind)), ?orb_true_r by done.
    - by rewrite !orb_true_r.
    - done.
    - unfold below. cbn [parent]. by rewrite (bool_decide_true (Some PDind = Some PDind)), !orb_true_r by done. }
  split_and!; [done|done|done|].
  intros n p Hp. split.
  - intros Hne. unfold either, G2, G1, either, directs, subtree. cbn [fst snd]. by rewrite bool_decide_false.
  - intros bn -> _. by rewrite Hall.
Qed.

(** *** Blocks that become empty *)

Lemma addr_block_empty_spec b n s : addr_block_empty b n s = true → ∀ j, 0 ≤ j < n → get_word b j s = 0.
Proof using Type.
  unfold addr_block_empty. rewrite forallb_forall. intros H j Hj. apply Z.eqb_eq, H.
  by apply list_elem_of_In, in_range.
Qed.

Lemma empty_gone s G q b k : freeing s P G G → valid_pos q → is_meta q = true → minus P G !! (inum, q) = Some b →
  addr_block_empty b NADDR_PER_BLOCK s = true → is_Some (P !! k) → subtree inum q k = true →
  k = (inum, q) ∨ G k = true.
Proof using Hsb Hn.
  intros Hf Hq Hmq Hb He Hk Hs. destruct k as [n p]. pose proof (key_valid s G G n p Hf Hk) as Hp.
  rewrite subtree_trees in Hs by done. apply orb_true_iff in Hs as [Hs%bool_decide_eq_true|Ht]; [by left|right].
  unfold trees in Ht. cbn [fst snd] in Ht. destruct (via q p) as [j|] eqn:Ej; [|bool_facts; done].
  bool_facts. destruct (child_parent q j Hmq Hq ltac:(lia)) as (_ & _ & Hvc).
  destruct (freeing_word sb Hsb ip inum s0 s P G G q b j Hf Hn Hq Hmq ltac:(lia) Hb) as [Hw _].
  rewrite (addr_block_empty_spec _ _ _ He) in Hw by lia.
  apply (absent_gone s G G (child q j) (n, p) Hf); try done.
  - destruct (minus P G !! (inum, child q j)) as [w|] eqn:Ew; [|done]. pose proof (freeing_pos _ _ _ _ _ Hf Ew).
    cbn in Hw. lia.
  - rewrite subtree_child by (done || lia). rewrite Ej, bool_decide_true by done. lia.
Qed.

Lemma cut_empty q l s G b : freeing s P G G → valid_pos q → is_meta q = true → minus P G !! (inum, q) = Some b →
  addr_block_empty b NADDR_PER_BLOCK s = true → (∀ s' K, freeing s' P G K → at_loc sb s' ip inum q l) →
  ∃ s' G', (s ← bfree sb b s; Some (write_loc l 0 s)) = Some s' ∧ freeing s' P G' G' ∧ cuts (λ _, false) G G' ∧
    ∀ p, subtree inum q (inum, p) = false → G' (inum, p) = G (inum, p).
Proof using Hsb Ho Hn.
  intros Hf Hq Hmq Hb He Hat. pose proof (minus_Some _ _ _ Hb) as [HP HG].
  destruct (freeing_free sb Hsb ip s0 s P G G (inum, q) b Hf HP HG) as (s1 & -> & Hf1). cbn [mbind option_bind].
  pose proof (freeing_drop sb Hsb ip inum s0 s1 P G _ q l Hf1 Ho Hq (Hat _ _ Hf1)) as Hf2.
  pose proof (λ k, empty_gone s G q b k Hf Hq Hmq Hb He) as Hgone.
  assert (∀ k, is_Some (P !! k) → either (subtree inum q) G k = also (inum, q) G k) as HG'.
  { intros k Hk. unfold either, also. destruct (subtree inum q k) eqn:Es.
    - destruct (Hgone k Hk Es) as [->| ->]; [by rewrite bool_decide_true|cbn [orb]; by rewrite orb_true_r].
    - rewrite bool_decide_false; [done|]. intros ->. unfold subtree in Es. cbn [fst snd] in Es.
      by rewrite below_refl, bool_decide_true in Es. }
  exists (write_loc l 0 s1), (either (subtree inum q) G). split_and!; [done| | |].
  - apply (freeing_ext sb ip s0 _ P (either (subtree inum q) G) (also (inum, q) G)); try done.
    apply Hf2. intros k Hk HS. rewrite <-HG' by done. unfold either. by rewrite Hk.
  - intros n p Hk. rewrite HG' by done. unfold also. split.
    + intros Hne. rewrite bool_decide_false; [done|]. by intros [= -> _].
    + intros bn -> ->. rewrite bool_decide_false; [done|]. intros [= <-]. done.
  - intros p Hp. unfold either. by rewrite Hp.
Qed.

(** Cutting data blocks below a pointer that is 0 does nothing. *)
Lemma cuts_absent f s G p : freeing s P G G → valid_pos p → minus P G !! (inum, p) = None →
  (∀ bn, 0 ≤ bn < MAXFILE → f bn = true → below p (PData bn) = true) → cuts f G G.
Proof using Hn.
  intros Hf Hp Hw Hb n q Hk. split; [done|]. intros bn -> ->. destruct (f bn) eqn:E; [|done]. cbn [orb].
  pose proof (key_valid s G G _ _ Hf Hk) as Hv.
  apply (absent_gone s G G p (inum, PData bn) Hf); try done. unfold subtree. cbn [fst snd].
  by rewrite (Hb bn Hv E), bool_decide_true.
Qed.

(** *** Where the data blocks are *)

Lemma below_ind bn : 0 ≤ bn → below PInd (PData bn) = (NDIRECT <=? bn) && (bn <? NDIRECT + NINDIRECT).
Proof using Type.
  intros Hb. unfold below. cbn [parent mbind option_bind]. rewrite (bool_decide_false (PData bn = PInd)) by done.
  case_tests; cbn [mbind option_bind parent orb]; destruct (Z.leb_spec NDIRECT bn); cbn; done || lia.
Qed.

Lemma below_dind bn : 0 ≤ bn → below PDind (PData bn) = (NDIRECT + NINDIRECT <=? bn).
Proof using Type.
  intros Hb. unfold below. cbn [parent mbind option_bind]. rewrite (bool_decide_false (PData bn = PDind)) by done.
  case_tests; cbn [mbind option_bind parent orb]; destruct (Z.leb_spec (NDIRECT + NINDIRECT) bn); cbn; done || layout_lia.
Qed.

Lemma below_l1 k bn : 0 ≤ bn → below (PL1 k) (PData bn) =
  (NDIRECT + NINDIRECT <=? bn) && ((bn - NDIRECT - NINDIRECT) / NADDR_PER_BLOCK =? k).
Proof using Type.
  intros Hb. unfold below. cbn [parent mbind option_bind]. rewrite (bool_decide_false (PData bn = PL1 k)) by done.
  case_tests; cbn [mbind option_bind parent orb].
  - rewrite (proj2 (Z.leb_gt _ _)) by layout_lia. done.
  - rewrite (proj2 (Z.leb_gt _ _)) by layout_lia. done.
  - rewrite (proj2 (Z.leb_le _ _)) by layout_lia. rewrite orb_false_r. cbn [andb].
    destruct (Z.eqb_spec ((bn - NDIRECT - NINDIRECT) / NADDR_PER_BLOCK) k) as [<-|Hne].
    + by apply bool_decide_true.
    + apply bool_decide_false. congruence.
Qed.

Lemma cuts_trees q lo hi G f : (∀ bn, 0 ≤ bn < MAXFILE →
    match via q (PData bn) with Some i => (lo <=? i) && (i <? hi) | None => false end = f bn) →
  (∀ n p, is_Some (P !! (n, p)) → valid_pos p) → cuts f G (either (trees inum q lo hi) G).
Proof using Type.
  intros H Hval n p Hk. unfold either, trees. cbn [fst snd]. split.
  - intros Hne. by rewrite bool_decide_false.
  - intros bn -> ->. rewrite bool_decide_true by done. cbn [andb]. rewrite H; [done|]. by apply (Hval _ _ Hk).
Qed.

Lemma via_ind bn : 0 ≤ bn → via PInd (PData bn) =
  if (NDIRECT <=? bn) && (bn <? NDIRECT + NINDIRECT) then Some (bn - NDIRECT) else None.
Proof using Type.
  intros Hb. unfold via. cbn [parent index]. destruct (Z.ltb_spec bn NDIRECT), (Z.leb_spec NDIRECT bn); cbn [andb]; try done; try lia.
  destruct (Z.ltb_spec bn (NDIRECT + NINDIRECT)); [by rewrite bool_decide_true|]. cbn. done.
Qed.

Lemma via_l1 k bn : 0 ≤ bn → via (PL1 k) (PData bn) =
  if below (PL1 k) (PData bn) then Some ((bn - NDIRECT - NINDIRECT) `mod` NADDR_PER_BLOCK) else None.
Proof using Type.
  intros Hb. rewrite below_l1 by done. unfold via. cbn [parent index].
  destruct (Z.ltb_spec bn NDIRECT); [rewrite (proj2 (Z.leb_gt _ _)) by layout_lia; done|].
  destruct (Z.ltb_spec bn (NDIRECT + NINDIRECT)).
  { rewrite (proj2 (Z.leb_gt _ _)) by layout_lia. done. }
  rewrite (proj2 (Z.leb_le _ _)) by layout_lia. cbn [andb parent].
  destruct (Z.eqb_spec ((bn - NDIRECT - NINDIRECT) / NADDR_PER_BLOCK) k) as [<-|Hne]; [by rewrite bool_decide_true|].
  rewrite bool_decide_false by congruence. done.
Qed.

Lemma via_dind bn : 0 ≤ bn → via PDind (PData bn) =
  if NDIRECT + NINDIRECT <=? bn then Some ((bn - NDIRECT - NINDIRECT) / NADDR_PER_BLOCK) else None.
Proof using Type.
  intros Hb. unfold via. cbn [parent index].
  destruct (Z.ltb_spec bn NDIRECT); [rewrite (proj2 (Z.leb_gt _ _)) by layout_lia; done|].
  destruct (Z.ltb_spec bn (NDIRECT + NINDIRECT)).
  { rewrite (proj2 (Z.leb_gt _ _)) by layout_lia. done. }
  rewrite (proj2 (Z.leb_le _ _)) by layout_lia. cbn [parent index]. done.
Qed.

(** *** itrunc_to() *)

Lemma freeing_log_if (c : bool) b s G K : freeing s P G K → freeing (if c then log_write b s else s) P G K.
Proof using Hsb. destruct c; [|done]. by apply freeing_log. Qed.

Lemma empty_log_if (c : bool) b' b n s : addr_block_empty b n (if c then log_write b' s else s) = addr_block_empty b n s.
Proof using Type.
  destruct c; [|done]. unfold addr_block_empty, get_word. by destruct (log_write_fields b' s) as (-> & _).
Qed.

Lemma valid_keys s G K : freeing s P G K → ∀ n p, is_Some (P !! (n, p)) → valid_pos p.
Proof using Type. intros Hf n p. by apply (key_valid s G K). Qed.

Lemma trunc_indirect_cuts nb s G : 0 ≤ nb → freeing s P G G → ∃ s' G',
  trunc_indirect sb ip nb s = Some s' ∧ freeing s' P G' G' ∧
  cuts (λ bn, (nb <=? bn) && ((NDIRECT <=? bn) && (bn <? NDIRECT + NINDIRECT))) G G'.
Proof using Hsb Ho Hn.
  intros Hnb Hf. unfold trunc_indirect. destruct (Z.leb_spec nb NDIRECT) as [Hle|Hgt].
  - destruct (cut_root (free_indirect_block sb) PInd s G) as (s1 & Hs1 & Hf1); try done.
    { apply frees_indirect; [done|by left]. }
    cbn [index] in Hs1. exists s1, (either (subtree inum PInd) G). split_and!; [done..|].
    apply (cuts_ext (λ bn, below PInd (PData bn)) _ _ _ s1 _ _ Hf1); [apply cuts_tree|].
    intros bn Hbn. rewrite below_ind by lia. destruct (Z.leb_spec nb bn), (Z.leb_spec NDIRECT bn); done || lia.
  - pose proof (freeing_addr sb ip inum s0 s P G G PInd Hf Ho I eq_refl) as Ha. cbn [index] in Ha. rewrite Ha.
    destruct (minus P G !! (inum, PInd)) as [b|] eqn:Eb; cbn [default from_option id].
    2: { exists s, G. split_and!; [done..|]. apply (cuts_absent _ s G PInd Hf I Eb). intros bn Hbn.
         rewrite below_ind by lia. intros Ht. bool_facts. apply andb_true_iff. by rewrite Z.leb_le, Z.ltb_lt. }
    rewrite (freeing_pos _ _ _ _ _ Hf Eb).
    destruct (loop_clear (bfree sb) PInd b (nb - NDIRECT) NINDIRECT) with
      (body := λ j (a : bool * fs), let '(changed, s) := a in if get_word b j s =? 0 then Some (changed, s)
        else s ← bfree sb (get_word b j s) s; Some (true, set_word b j 0 s)) (c := false) (s := s) (G := G)
      as (c1 & s1 & Hs1 & Hf1); try done; [by intros; apply frees_leaf|lia|].
    unfold clear_words. rewrite Hs1. cbn [mbind option_bind].
    set (G1 := either (trees inum PInd (nb - NDIRECT) NINDIRECT) G) in *.
    assert (cuts (λ bn, (nb <=? bn) && ((NDIRECT <=? bn) && (bn <? NDIRECT + NINDIRECT))) G G1) as Hc1.
    { apply cuts_trees; [|by eapply valid_keys]. intros bn Hbn. rewrite via_ind by lia.
      destruct (Z.leb_spec NDIRECT bn), (Z.ltb_spec bn (NDIRECT + NINDIRECT)); cbn [andb]; rewrite ?andb_false_r; try done.
      destruct (Z.leb_spec (nb - NDIRECT) (bn - NDIRECT)), (Z.ltb_spec (bn - NDIRECT) NINDIRECT), (Z.leb_spec nb bn); done || lia. }
    destruct (addr_block_empty b NINDIRECT s1) eqn:He.
    + rewrite andb_false_r. destruct (cut_empty PInd (LAddr ip NDIRECT) s1 G1 b) as (s2 & G2 & Hs2 & Hf2 & Hc2 & _); try done.
      { rewrite minus_lookup. unfold G1, either. rewrite trees_self by done. by apply minus_Some in Eb as [-> ->]. }
      exists s2, G2. split_and!; [done..|]. apply (cuts_ext _ _ _ _ s2 _ _ Hf2 (cuts_trans _ _ _ _ _ Hc1 Hc2)).
      intros bn _. by rewrite orb_false_r.
    + exists (if c1 && negb false then log_write b s1 else s1), G1. split_and!; [done|by apply freeing_log_if|done].
Qed.

Lemma keep_dind G G' b : minus P G !! (inum, PDind) = Some b → G' (inum, PDind) = G (inum, PDind) →
  minus P G' !! (inum, PDind) = Some b.
Proof using Type. intros [H1 H2]%minus_Some HG. by rewrite minus_lookup, HG, H2. Qed.

Lemma dind_not_below k : subtree inum (PL1 k) (inum, PDind) = false.
Proof using Type. unfold subtree. cbn [fst snd]. rewrite below_root, (bool_decide_false (PDind = PL1 k)) by done. apply andb_false_r. Qed.

Lemma trunc_level1_cuts b k2 k1 c s G : 0 ≤ k2 → 0 ≤ k1 < NADDR_PER_BLOCK → freeing s P G G →
  minus P G !! (inum, PDind) = Some b → ∃ c' s' G',
  trunc_level1 sb b k2 k1 c s = Some (c', s') ∧ freeing s' P G' G' ∧ minus P G' !! (inum, PDind) = Some b ∧
  cuts (λ bn, below (PL1 k2) (PData bn) && (k1 <=? (bn - NDIRECT - NINDIRECT) `mod` NADDR_PER_BLOCK)) G G'.
Proof using Hsb Ho Hn.
  intros Hk2 Hk1 Hf Hb. unfold trunc_level1. destruct (Z.leb_spec NADDR_PER_BLOCK k2) as [Hge|Hlt]; cbn [orb].
  { exists c, s, G. split_and!; [done..|]. apply (cuts_ext _ _ _ _ s _ _ Hf (cuts_refl G)). intros bn Hbn.
    rewrite below_l1 by lia. destruct (Z.eqb_spec ((bn - NDIRECT - NINDIRECT) / NADDR_PER_BLOCK) k2); [|by rewrite andb_false_r].
    exfalso. revert Hbn. layout_lia. }
  assert (valid_pos (PL1 k2)) as Hv by done.
  destruct (freeing_word sb Hsb ip inum s0 s P G G PDind b k2 Hf Hn I eq_refl ltac:(lia) Hb) as [-> _]. cbn [child].
  assert (∀ s' K, freeing s' P G K → at_loc sb s' ip inum (PL1 k2) (LWord b k2)) as Hat.
  { intros s' K Hf'. by apply (freeing_word sb Hsb ip inum s0 s' P G K PDind b k2 Hf' Hn I eq_refl). }
  destruct (minus P G !! (inum, PL1 k2)) as [l1|] eqn:El; cbn [default from_option id].
  2: { exists c, s, G. split_and!; [done..|]. apply (cuts_absent _ s G (PL1 k2) Hf Hv El). intros bn Hbn Ht. by bool_facts. }
  rewrite (freeing_pos _ _ _ _ _ Hf El). destruct (Z.eqb_spec k1 0) as [->|Hk0].
  - destruct (cut_tree (free_indirect_block sb) (PL1 k2) (LWord b k2) s G l1) as (s1 & Hs1 & Hf1); try done.
    { apply frees_indirect; [done|]. right. by exists k2. }
    { intros s'. by apply Hat. }
    exists true, s1, (either (subtree inum (PL1 k2)) G). split_and!; [|done| |].
    + revert Hs1. destruct (free_indirect_block sb l1 s); cbn; [|done]. by intros [= <-].
    + apply (keep_dind G); [done|]. unfold either. by rewrite dind_not_below.
    + apply (cuts_ext _ _ _ _ s1 _ _ Hf1 (cuts_tree _ _)). intros bn Hbn.
      rewrite (proj2 (Z.leb_le 0 _)), andb_true_r; [done|]. by apply Z.mod_pos_bound.
  - destruct (loop_clear (bfree sb) (PL1 k2) l1 k1 NADDR_PER_BLOCK) with
      (body := λ j (a : bool * fs), let '(changed, s) := a in if get_word l1 j s =? 0 then Some (changed, s)
        else s ← bfree sb (get_word l1 j s) s; Some (true, set_word l1 j 0 s)) (c := false) (s := s) (G := G)
      as (c1 & s1 & Hs1 & Hf1); try done; [by intros; apply frees_leaf|lia|].
    unfold clear_words. rewrite Hs1. cbn [mbind option_bind].
    set (G1 := either (trees inum (PL1 k2) k1 NADDR_PER_BLOCK) G) in *.
    assert (cuts (λ bn, below (PL1 k2) (PData bn) && (k1 <=? (bn - NDIRECT - NINDIRECT) `mod` NADDR_PER_BLOCK)) G G1) as Hc1.
    { apply cuts_trees; [|by eapply valid_keys]. intros bn Hbn. rewrite via_l1 by lia.
      destruct (below (PL1 k2) (PData bn)); [|done]. cbn [andb].
      rewrite (proj2 (Z.ltb_lt _ NADDR_PER_BLOCK)), andb_true_r; [done|]. by apply Z.mod_pos_bound. }
    assert (minus P G1 !! (inum, PDind) = Some b) as Hb1.
    { apply (keep_dind G); [done|]. unfold G1, either, trees. cbn. by rewrite andb_false_r. }
    assert (minus P G1 !! (inum, PL1 k2) = Some l1) as El1.
    { rewrite minus_lookup. unfold G1, either. rewrite trees_self by done. by apply minus_Some in El as [-> ->]. }
    destruct (addr_block_empty l1 NADDR_PER_BLOCK s1) eqn:He.
    + rewrite andb_false_r.
      destruct (cut_empty (PL1 k2) (LWord b k2) s1 G1 l1) as (s2 & G2 & Hs2 & Hf2 & Hc2 & Hd2); try done.
      { intros s' K Hf'. by apply (freeing_word sb Hsb ip inum s0 s' P G1 K PDind b k2 Hf' Hn I eq_refl). }
      exists true, s2, G2. split_and!; [|done| |].
      * revert Hs2. destruct (bfree sb l1 s1); cbn; [|done]. by intros [= <-].
      * apply (keep_dind G1); [done|]. apply Hd2, dind_not_below.
      * apply (cuts_ext _ _ _ _ s2 _ _ Hf2 (cuts_trans _ _ _ _ _ Hc1 Hc2)). intros bn _. by rewrite orb_false_r.
    + exists c, (if c1 && negb false then log_write l1 s1 else s1), G1. split_and!; [done|by apply freeing_log_if|done..].
Qed.

Lemma trunc_dindirect_cuts nb s G : 0 ≤ nb → freeing s P G G → ∃ s' G',
  trunc_dindirect sb ip nb s = Some s' ∧ freeing s' P G' G' ∧
  cuts (λ bn, (nb <=? bn) && (NDIRECT + NINDIRECT <=? bn)) G G'.
Proof using Hsb Ho Hn.
  intros Hnb Hf. unfold trunc_dindirect. destruct (Z.leb_spec nb (NDIRECT + NINDIRECT)) as [Hle|Hgt].
  - destruct (cut_root (λ w s, s ← for_each (range 0 NADDR_PER_BLOCK) (λ i s, free_indirect_block sb (get_word w i s) s) s;
                               bfree sb w s) PDind s G) as (s1 & Hs1 & Hf1); try done.
    { apply (frees_node (free_indirect_block sb) PDind (λ w i s, free_indirect_block sb (get_word w i s) s)); try done.
      - intros j Hj. apply frees_indirect; [done|]. right. by exists j.
      - intros w j s'. unfold free_indirect_block. by destruct (get_word w j s' =? 0). }
    cbn [index] in Hs1. exists s1, (either (subtree inum PDind) G). split_and!; [|done|].
    + rewrite <-Hs1. generalize (get_addr ip (NDIRECT + 1) s). intros w. destruct (w =? 0); [done|]. cbn [mbind option_bind].
      by destruct (for_each (range 0 NADDR_PER_BLOCK) (λ i s, free_indirect_block sb (get_word w i s) s) s).
    + apply (cuts_ext (λ bn, below PDind (PData bn)) _ _ _ s1 _ _ Hf1); [apply cuts_tree|].
      intros bn Hbn. rewrite below_dind by lia. destruct (Z.leb_spec nb bn), (Z.leb_spec (NDIRECT + NINDIRECT) bn); done || lia.
  - pose proof (freeing_addr sb ip inum s0 s P G G PDind Hf Ho I eq_refl) as Ha. cbn [index] in Ha. rewrite Ha.
    destruct (minus P G !! (inum, PDind)) as [b|] eqn:Eb; cbn [default from_option id].
    2: { exists s, G. split_and!; [done..|]. apply (cuts_absent _ s G PDind Hf I Eb). intros bn Hbn.
         rewrite below_dind by lia. intros Ht. by bool_facts; apply Z.leb_le. }
    rewrite (freeing_pos _ _ _ _ _ Hf Eb).
    set (dk := nb - (NDIRECT + NINDIRECT)). set (k2 := dk / NADDR_PER_BLOCK). set (k1 := dk `mod` NADDR_PER_BLOCK).
    assert (0 ≤ k2) as Hk2 by (apply Z.div_pos; [lia|done]).
    assert (0 ≤ k1 < NADDR_PER_BLOCK) as Hk1 by (by apply Z.mod_pos_bound).
    destruct (loop_clear (free_indirect_block sb) PDind b (k2 + 1) NADDR_PER_BLOCK) with
      (body := λ i (a : bool * fs), let '(changed, s) := a in if get_word b i s =? 0 then Some (changed, s)
        else s ← free_indirect_block sb (get_word b i s) s; Some (true, set_word b i 0 s)) (c := false) (s := s) (G := G)
      as (c1 & s1 & Hs1 & Hf1); try done; [|lia|].
    { intros j Hj. apply frees_indirect; [cbn; lia|]. right. by exists j. }
    unfold clear_level1. rewrite Hs1. cbn [mbind option_bind].
    set (G1 := either (trees inum PDind (k2 + 1) NADDR_PER_BLOCK) G) in *.
    assert (cuts (λ bn, (NDIRECT + NINDIRECT <=? bn) && (k2 + 1 <=? (bn - NDIRECT - NINDIRECT) / NADDR_PER_BLOCK)) G G1) as Hc1.
    { apply cuts_trees; [|by eapply valid_keys]. intros bn Hbn. rewrite via_dind by lia.
      destruct (Z.leb_spec (NDIRECT + NINDIRECT) bn); [|done]. cbn [andb].
      rewrite (proj2 (Z.ltb_lt _ NADDR_PER_BLOCK)), andb_true_r; [done|]. revert Hbn. layout_lia. }
    assert (minus P G1 !! (inum, PDind) = Some b) as Hb1.
    { rewrite minus_lookup. unfold G1, either. rewrite trees_self by done. by apply minus_Some in Eb as [-> ->]. }
    destruct (trunc_level1_cuts b k2 k1 c1 s1 G1 Hk2 Hk1 Hf1 Hb1) as (c2 & s2 & G2 & -> & Hf2 & Hb2 & Hc2).
    cbn [mbind option_bind].
    assert (cuts (λ bn, (nb <=? bn) && (NDIRECT + NINDIRECT <=? bn)) G G2) as Hc.
    { apply (cuts_ext _ _ _ _ s2 _ _ Hf2 (cuts_trans _ _ _ _ _ Hc1 Hc2)). intros bn Hbn. rewrite below_l1 by lia.
      destruct (Z.leb_spec (NDIRECT + NINDIRECT) bn); cbn [andb orb]; [|by rewrite andb_false_r]. rewrite andb_true_r.
      set (e := bn - NDIRECT - NINDIRECT).
      assert ((nb <=? bn) = (dk <=? e)) as ->.
      { unfold dk, e. destruct (Z.leb_spec nb bn), (Z.leb_spec (nb - (NDIRECT + NINDIRECT)) (bn - NDIRECT - NINDIRECT)); done || lia. }
      destruct (Z.leb_spec dk e), (Z.leb_spec (k2 + 1) (e / NADDR_PER_BLOCK)), (Z.eqb_spec (e / NADDR_PER_BLOCK) k2),
        (Z.leb_spec k1 (e `mod` NADDR_PER_BLOCK)); cbn; try done; exfalso; unfold k1, k2 in *; clearbody e dk; layout_lia. }
    destruct (addr_block_empty b NADDR_PER_BLOCK s2) eqn:He.
    + rewrite andb_false_r.
      destruct (cut_empty PDind (LAddr ip (NDIRECT + 1)) s2 G2 b) as (s3 & G3 & Hs3 & Hf3 & Hc3 & _); try done.
      exists s3, G3. split_and!; [done..|]. apply (cuts_ext _ _ _ _ s3 _ _ Hf3 (cuts_trans _ _ _ _ _ Hc Hc3)).
      intros bn _. by rewrite orb_false_r.
    + exists (if c2 && negb false then log_write b s2 else s2), G2. split_and!; [done|by apply freeing_log_if|done].
Qed.

Lemma itrunc_to_cuts nb s : 0 ≤ nb → freeing s P none none → ∃ s' G,
  (s ← for_each (range nb NDIRECT) (free_addr sb ip) s;
   s ← trunc_indirect sb ip nb s; trunc_dindirect sb ip nb s) = Some s' ∧
  freeing s' P G G ∧ cuts (λ bn, nb <=? bn) none G.
Proof using Hsb Ho Hn.
  intros Hnb Hf. destruct (cut_directs nb s none Hnb Hf) as (s1 & -> & Hf1). cbn [mbind option_bind].
  destruct (trunc_indirect_cuts nb s1 _ Hnb Hf1) as (s2 & G2 & -> & Hf2 & Hc2). cbn [mbind option_bind].
  destruct (trunc_dindirect_cuts nb s2 _ Hnb Hf2) as (s3 & G3 & -> & Hf3 & Hc3).
  exists s3, G3. split_and!; [done..|].
  assert (cuts (λ bn, (nb <=? bn) && (bn <? Z.max nb NDIRECT)) none
    (either (directs nb (Z.max nb NDIRECT)) none)) as Hc1.
  { intros n p Hk. unfold either, directs. cbn [fst snd]. split; [by intros Hne; rewrite bool_decide_false|].
    intros bn -> ->. by rewrite bool_decide_true. }
  apply (cuts_ext _ _ _ _ s3 _ _ Hf3 (cuts_trans _ _ _ _ _ (cuts_trans _ _ _ _ _ Hc1 Hc2) Hc3)). intros bn Hbn.
  destruct (Z.leb_spec nb bn), (Z.ltb_spec bn (Z.max nb NDIRECT)), (Z.leb_spec NDIRECT bn),
    (Z.ltb_spec bn (NDIRECT + NINDIRECT)), (Z.leb_spec (NDIRECT + NINDIRECT) bn); cbn; done || lia.
Qed.

(** *** ipunch() *)

Lemma cuts_one bn s G K1 K2 : freeing s P K1 K2 → cuts (λ x, x =? bn) G (either (subtree inum (PData bn)) G).
Proof using Type.
  intros Hf. apply (cuts_ext _ _ _ _ s _ _ Hf (cuts_tree _ _)). intros x Hx.
  pose proof (subtree_data bn inum (PData x) Hx) as E. unfold subtree in E. cbn [fst snd] in E.
  rewrite bool_decide_true in E by done. cbn [andb] in E. rewrite E. symmetry.
  destruct (Z.eqb_spec x bn) as [->|Hne]; [by apply bool_decide_true|apply bool_decide_false; congruence].
Qed.

(** Free one block whose pointer is in a pointer block, then the empty block. *)
Lemma punch_word q b j bn s G : freeing s P G G → valid_pos q → is_meta q = true → 0 ≤ j < NADDR_PER_BLOCK →
  child q j = PData bn → minus P G !! (inum, q) = Some b → ∃ s' G',
  (if get_word b j s =? 0 then Some s
   else s ← bfree sb (get_word b j s) s; Some (log_write b (set_word b j 0 s))) = Some s' ∧
  freeing s' P G' G' ∧ cuts (λ x, x =? bn) G G' ∧ (∀ p, is_meta p = true → G' (inum, p) = G (inum, p)).
Proof using Hsb Ho Hn.
  intros Hf Hq Hmq Hj Ec Hb.
  destruct (freeing_word sb Hsb ip inum s0 s P G G q b j Hf Hn Hq Hmq Hj Hb) as [-> _]. rewrite Ec.
  destruct (child_parent q j Hmq Hq Hj) as (_ & _ & Hvc). rewrite Ec in Hvc.
  set (G' := either (subtree inum (PData bn)) G).
  assert (∀ p, is_meta p = true → G' (inum, p) = G (inum, p)) as Hmeta.
  { intros p Hp. unfold G', either. assert (subtree inum (PData bn) (inum, p) = false) as ->; [|done].
    unfold subtree, below. cbn [fst snd]. rewrite (bool_decide_false (p = PData bn)) by (by intros ->).
    destruct p as [x| | |k]; cbn; rewrite ?andb_false_r; done. }
  destruct (minus P G !! (inum, PData bn)) as [w|] eqn:Ew; cbn [default from_option id].
  - rewrite (freeing_pos _ _ _ _ _ Hf Ew).
    destruct (cut_tree (bfree sb) (PData bn) (LWord b j) s G w) as (s1 & Hs1 & Hf1); try done; [apply frees_leaf| |].
    { intros s' Hf'. rewrite <-Ec. by apply (freeing_word sb Hsb ip inum s0 s' P G _ q b j Hf' Hn). }
    exists (log_write b s1), G'. split_and!; [|by apply freeing_log|by apply (cuts_one bn s1 G _ _ Hf1)|done].
    revert Hs1. destruct (bfree sb w s); cbn; [|done]. by intros [= <-].
  - exists s, G'. pose proof (absent_tree s G (PData bn) Hf Hvc Ew) as Hf1.
    split_and!; [done|done|by apply (cuts_one bn s G _ _ Hf1)|done].
Qed.

Lemma punch_turn_cuts bn u s G : 0 ≤ bn < MAXFILE → freeing s P G G → ∃ u' s' G',
  punch_turn sb ip bn u s = Some (u', s') ∧ freeing s' P G' G' ∧ cuts (λ x, x =? bn) G G'.
Proof using Hsb Ho Hn.
  intros Hbn Hf. unfold punch_turn. assert (valid_pos (PData bn)) as Hv by done.
  destruct (Z.ltb_spec bn NDIRECT) as [Hd|Hd].
  { assert (parent (PData bn) = None ∧ index (PData bn) = bn) as [E1 E2] by (cbn; by rewrite (proj2 (Z.ltb_lt _ _) Hd)).
    destruct (cut_root (bfree sb) (PData bn) s G (frees_leaf bn) Hv E1 Hf) as (s1 & Hs1 & Hf1). rewrite E2 in Hs1.
    unfold punch_direct. destruct (get_addr ip bn s =? 0).
    - exists u, s, (either (subtree inum (PData bn)) G). injection Hs1 as <-. split_and!; [done..|]. by apply (cuts_one bn s G _ _ Hf1).
    - exists true, s1, (either (subtree inum (PData bn)) G). split_and!; [|done|by apply (cuts_one bn s1 G _ _ Hf1)].
      revert Hs1. destruct (bfree sb (get_addr ip bn s) s); cbn; [|done]. by intros [= <-]. }
  destruct (Z.ltb_spec bn (NDIRECT + NINDIRECT)) as [Hi|Hi].
  { unfold punch_indirect.
    pose proof (freeing_addr sb ip inum s0 s P G G PInd Hf Ho I eq_refl) as Ha. cbn [index] in Ha. rewrite Ha.
    destruct (minus P G !! (inum, PInd)) as [b|] eqn:Eb; cbn [default from_option id].
    2: { exists u, s, G. split_and!; [done..|]. apply (cuts_absent _ s G PInd Hf I Eb). intros x Hx Ex.
         rewrite below_ind by lia. apply andb_true_iff. rewrite Z.leb_le, Z.ltb_lt. lia. }
    rewrite (freeing_pos _ _ _ _ _ Hf Eb).
    destruct (punch_word PInd b (bn - NDIRECT) bn s G) as (s1 & G1 & -> & Hf1 & Hc1 & Hm1); try done.
    { unfold NINDIRECT, NADDR_PER_BLOCK in *. lia. }
    { cbn. f_equal. lia. }
    cbn [mbind option_bind]. destruct (addr_block_empty b NINDIRECT s1) eqn:He.
    - destruct (cut_empty PInd (LAddr ip NDIRECT) s1 G1 b) as (s2 & G2 & Hs2 & Hf2 & Hc2 & _); try done.
      { rewrite minus_lookup, Hm1 by done. by apply minus_Some in Eb as [-> ->]. }
      exists true, s2, G2. split_and!; [|done|].
      + revert Hs2. destruct (bfree sb b s1); cbn; [|done]. by intros [= <-].
      + apply (cuts_ext _ _ _ _ s2 _ _ Hf2 (cuts_trans _ _ _ _ _ Hc1 Hc2)). intros x _. by rewrite orb_false_r.
    - by exists u, s1, G1. }
  rewrite (proj2 (Z.ltb_lt _ _)) by (unfold MAXFILE in Hbn; lia). unfold punch_dindirect.
  set (e := bn - NDIRECT - NINDIRECT). set (k2 := e / NADDR_PER_BLOCK). set (k1 := e `mod` NADDR_PER_BLOCK).
  assert (0 ≤ k2 < NADDR_PER_BLOCK) as Hk2 by (unfold k2, e; layout_lia).
  assert (0 ≤ k1 < NADDR_PER_BLOCK) as Hk1 by (by apply Z.mod_pos_bound).
  pose proof (freeing_addr sb ip inum s0 s P G G PDind Hf Ho I eq_refl) as Ha. cbn [index] in Ha. rewrite Ha.
  destruct (minus P G !! (inum, PDind)) as [b|] eqn:Eb; cbn [default from_option id].
  2: { exists u, s, G. split_and!; [done..|]. apply (cuts_absent _ s G PDind Hf I Eb). intros x Hx Ex.
       rewrite below_dind by lia. lia. }
  rewrite (freeing_pos _ _ _ _ _ Hf Eb).
  destruct (freeing_word sb Hsb ip inum s0 s P G G PDind b k2 Hf Hn I eq_refl Hk2 Eb) as [-> _]. cbn [child].
  destruct (minus P G !! (inum, PL1 k2)) as [l1|] eqn:El; cbn [default from_option id].
  2: { exists u, s, G. split_and!; [done..|]. apply (cuts_absent _ s G (PL1 k2) Hf Hk2 El). intros x Hx Ex.
       rewrite below_l1 by lia. apply Z.eqb_eq in Ex. subst x. fold e. fold k2. rewrite Z.eqb_refl, andb_true_r. lia. }
  rewrite (freeing_pos _ _ _ _ _ Hf El).
  destruct (punch_word (PL1 k2) l1 k1 bn s G) as (s1 & G1 & -> & Hf1 & Hc1 & Hm1); try done.
  { cbn [child]. f_equal. unfold k1, k2, e. layout_lia. }
  cbn [mbind option_bind].
  assert (∀ p w, is_meta p = true → minus P G !! (inum, p) = Some w → minus P G1 !! (inum, p) = Some w) as Hk.
  { intros p w Hp Hw. rewrite minus_lookup, Hm1 by done. by apply minus_Some in Hw as [-> ->]. }
  destruct (addr_block_empty l1 NADDR_PER_BLOCK s1) eqn:He; [|by exists u, s1, G1].
  destruct (cut_empty (PL1 k2) (LWord b k2) s1 G1 l1) as (s2 & G2 & Hs2 & Hf2 & Hc2 & Hd2); try done; [by apply Hk| |].
  { intros s' K Hf'. apply (freeing_word sb Hsb ip inum s0 s' P G1 K PDind b k2 Hf' Hn I eq_refl Hk2). by apply Hk. }
  destruct (bfree sb l1 s1) as [s2'|]; cbn [mbind option_bind] in Hs2 |- *; [|done]. injection Hs2 as Hs2.
  cbn [write_loc] in Hs2. rewrite Hs2.
  pose proof (freeing_log sb Hsb ip s0 s2 P G2 G2 b Hf2) as Hf3.
  assert (cuts (λ x, x =? bn) G G2) as Hc.
  { apply (cuts_ext _ _ _ _ s2 _ _ Hf2 (cuts_trans _ _ _ _ _ Hc1 Hc2)). intros x _. by rewrite orb_false_r. }
  destruct (addr_block_empty b NADDR_PER_BLOCK (log_write b s2)) eqn:He2; [|by exists u, (log_write b s2), G2].
  destruct (cut_empty PDind (LAddr ip (NDIRECT + 1)) (log_write b s2) G2 b) as (s3 & G3 & Hs3 & Hf4 & Hc3 & _); try done.
  { apply (keep_dind G1); [by apply Hk|]. apply Hd2, dind_not_below. }
  exists true, s3, G3. split_and!; [|done|].
  - revert Hs3. destruct (bfree sb b (log_write b s2)); cbn; [|done]. by intros [= <-].
  - apply (cuts_ext _ _ _ _ s3 _ _ Hf4 (cuts_trans _ _ _ _ _ Hc Hc3)). intros x _. by rewrite orb_false_r.
Qed.

(** Blocks past the largest file do not exist. *)
Lemma punch_turn_any bn u s G : 0 ≤ bn → freeing s P G G → ∃ u' s' G',
  punch_turn sb ip bn u s = Some (u', s') ∧ freeing s' P G' G' ∧ cuts (λ x, x =? bn) G G'.
Proof using Hsb Ho Hn.
  intros Hbn Hf. destruct (decide (bn < MAXFILE)) as [Hlt|Hge]; [by apply punch_turn_cuts|].
  exists u, s, G. split_and!; [|done|].
  - unfold punch_turn. pose proof (proj2 (Z.ltb_ge bn NDIRECT)) as E1. pose proof (proj2 (Z.ltb_ge bn (NDIRECT + NINDIRECT))) as E2.
    pose proof (proj2 (Z.ltb_ge bn (NDIRECT + NINDIRECT + NDINDIRECT))) as E3. unfold MAXFILE in Hge.
    rewrite E1, E2, E3 by layout_lia. done.
  - apply (cuts_ext _ _ _ _ s _ _ Hf (cuts_refl G)). intros x Hx. lia.
Qed.

(** ** Contents *)

Lemma cuts_content s f G : inv sb s0 P zero → freeing s P G G → cuts f none G →
  ∀ n o, inum_ok sb n → off_ok o → content sb s n o =
    if decide (n = inum) then if f (o / BSIZE) then 0 else content sb s0 inum o else content sb s0 n o.
Proof using Hsb.
  intros Hi Hf Hc n o Hnn Hoo. pose proof (freeing_end _ _ _ _ _ _ Hf) as Hi'.
  assert (n = inum ∧ f (o / BSIZE) = true → content sb s n o = 0) as Hgone.
  { intros [-> Hfo]. apply (content_hole sb s (minus P G) zero inum o Hi' Hnn Hoo). rewrite minus_lookup.
    destruct (P !! (inum, PData (o / BSIZE))) as [b|] eqn:Eb; [|by case_match].
    destruct (Hc inum (PData (o / BSIZE)) ltac:(eauto)) as [_ HG]. by rewrite (HG _ eq_refl eq_refl), Hfo. }
  assert (n ≠ inum ∨ f (o / BSIZE) = false → content sb s n o = content sb s0 n o) as Hkeep.
  { intros Hor. apply (content_keep sb Hsb s0 s P (minus P G) zero zero); try done.
    - rewrite minus_lookup. destruct (P !! (n, PData (o / BSIZE))) as [b|] eqn:Eb; [|by case_match].
      destruct (Hc n (PData (o / BSIZE)) ltac:(eauto)) as [HG1 HG2].
      assert (G (n, PData (o / BSIZE)) = false) as ->; [|done].
      destruct (decide (n = inum)) as [->|Hne]; [|by apply HG1].
      rewrite (HG2 _ eq_refl eq_refl). destruct Hor as [?|Hfo]; [done|by rewrite Hfo].
    - intros b Hb. by apply (fr_data _ _ _ _ _ _ _ Hf (n, PData (o / BSIZE))). }
  case_decide as E; [|by apply Hkeep; left]. destruct (f (o / BSIZE)) eqn:Ef; [by apply Hgone|].
  subst n. apply Hkeep. by right.
Qed.

End ops.
