(* ===== verification/FsOps.v ===== *)
(** * Truncating, punching holes *)

From stdpp Require Import list_numbers gmap.
From S2P Require Import Prelude Mem Xattr Fs FsInv FsFile FsNode FsIO FsFree.

Section trunc.
Context (sb : superblock) (Hsb : sb_wf sb).

Abbreviation inv := (inv sb).
Abbreviation acts := (acts sb).

Lemma dinode_ok_size d n : dinode_ok d → 0 ≤ n < 2 ^ 32 → dinode_ok (d <| d_size := n |>).
Proof. intros [? ? ? ? ? ? ? ?] Hn. by split. Qed.

(** An operation that has cut blocks, then changes the inode by [g] and saves it. *)
Lemma cut_finish ip inum s s1 P G f g : inv s P zero → owns s ip inum → freeing sb ip s s1 P G G →
  cuts inum P f none G →
  (∀ d, dinode_ok d → dinode_ok (g d)) → (∀ d, d_addrs (g d) = d_addrs d) → (∀ d, same_meta d (g d)) →
  let s' := iupdate sb ip (set_din ip g s1) in let d := g (din ip s1) in
  acts ip inum s s' d (λ o, if f (o / BSIZE) then 0 else content sb s inum o) ∧
  same_meta (din ip s) d ∧ d_size (din ip s1) = d_size (din ip s) ∧
  nfree sb s ≤ nfree sb s' ∧ inv s' (minus P G) zero.
Proof.
  intros Hi Ho Hf Hc Hg1 Hg2 Hg3 s' d. pose proof (freeing_end _ _ _ _ _ _ Hf) as Hi1.
  pose proof (fr_touch _ _ _ _ _ _ _ Hf) as Ht. destruct (touches_din _ _ _ _ _ Ht Ho) as (a & Hd & _).
  destruct (finish_spec sb Hsb ip inum g s s1 _ Hi1 Ho Ht (Hg1 _) (Hg2 _)) as (A1 & A2 & A3 & A4).
  split_and!; [split_and!; [by eexists|exact A2|]|..].
  - intros k o Hk Hoo. rewrite A3 by done. by apply (cuts_content sb Hsb ip inum s P s1 f G).
  - unfold d. specialize (Hg3 (din ip s1)). unfold same_meta in *. rewrite Hd in *. exact Hg3.
  - by rewrite Hd.
  - unfold s'. rewrite A4. apply Hf.
  - done.
Qed.

(** The same, storing a size. *)
Lemma cut_resize ip inum s s1 P G f n : inv s P zero → owns s ip inum → freeing sb ip s s1 P G G →
  cuts inum P f none G → 0 ≤ n < 2 ^ 32 → ∃ d,
  let s' := iupdate sb ip (set_din ip (λ d, d <| d_size := n |>) s1) in
  acts ip inum s s' d (λ o, if f (o / BSIZE) then 0 else content sb s inum o) ∧ same_meta (din ip s) d ∧
  d_size d = n ∧ nfree sb s ≤ nfree sb s' ∧ inv s' (minus P G) zero.
Proof.
  intros Hi Ho Hf Hc Hn.
  destruct (cut_finish ip inum s s1 P G f (λ d, d <| d_size := n |>) Hi Ho Hf Hc) as (A1 & A2 & _ & A4 & A5); try done.
  { intros d Hok. by apply dinode_ok_size. }
  eexists. split_and!; [exact A1|done|done|exact A4|exact A5].
Qed.

Lemma itrunc_spec ip inum s P : inv s P zero → owns s ip inum → ∃ s' d P',
  itrunc sb ip s = Some s' ∧ acts ip inum s s' d (λ _, 0) ∧ same_meta (din ip s) d ∧ d_size d = 0 ∧
  nfree sb s ≤ nfree sb s' ∧ inv s' P' zero ∧ ∀ p, P' !! (inum, p) = None.
Proof.
  intros Hi Ho. pose proof (owns_inum sb s ip inum (v_cache _ _ _ _ Hi) Ho) as Hn.
  destruct (itrunc_frees sb Hsb ip inum s P Ho Hn s (freeing_start sb ip s P Hi)) as (s1 & G & Hs & Hf & Hall & Hc).
  destruct (cut_resize ip inum s s1 P G _ 0 Hi Ho Hf Hc ltac:(done)) as (d & A1 & A2 & A3 & A4 & A5).
  eexists _, d, _. split_and!; [exact Hs|exact A1|done..|]. intros p. rewrite minus_lookup.
  destruct (P !! (inum, p)) as [b|] eqn:Eb; [|by case_match]. by rewrite Hall by eauto.
Qed.

(** The number of blocks of a file of [n] bytes. *)
Definition nblocks (n : Z) : Z := (n + BSIZE - 1) / BSIZE.

Lemma itrunc_to_spec ip inum n s P : inv s P zero → owns s ip inum → 0 ≤ n ≤ MAXSIZE → ∃ s' d,
  itrunc_to sb ip n s = Some s' ∧ same_meta (din ip s) d ∧ d_size d = n ∧ nfree sb s ≤ nfree sb s' ∧
  acts ip inum s s' d (λ o, if (n <? d_size (din ip s)) && (nblocks n <=? o / BSIZE) then 0 else content sb s inum o).
Proof.
  intros Hi Ho Hn. pose proof (owns_inum sb s ip inum (v_cache _ _ _ _ Hi) Ho) as Hin. pose proof MAXSIZE_value.
  pose proof (freeing_start sb ip s P Hi) as Hf0. unfold itrunc_to. rewrite Z.leb_antisym.
  destruct (Z.ltb_spec n (d_size (din ip s))) as [Hlt|Hge]; cbn [negb andb].
  - rewrite u32_small by (unfold BSIZE; lia). fold (nblocks n).
    destruct (itrunc_to_cuts sb Hsb ip inum s P Ho Hin (nblocks n) s) as (s1 & G & Hs & Hf & Hc); [|done|].
    { unfold nblocks. apply Z.div_pos; [unfold BSIZE; lia|done]. }
    destruct (cut_resize ip inum s s1 P G _ n Hi Ho Hf Hc ltac:(lia)) as (d & A1 & A2 & A3 & A4 & _).
    eexists _, d. split_and!; [|done|done|exact A4|exact A1].
    revert Hs. destruct (for_each _ _ s) as [s2|]; cbn [mbind option_bind]; [|done].
    destruct (trunc_indirect sb ip (nblocks n) s2) as [s3|]; cbn [mbind option_bind]; [|done]. by intros ->.
  - destruct (cut_resize ip inum s s P none (λ _, false) n Hi Ho Hf0 (cuts_refl inum P none) ltac:(lia)) as (d & A1 & A2 & A3 & A4 & _).
    eexists _, d. split_and!; [done|done|done|exact A4|exact A1].
Qed.

(** *** ipunch() *)

Lemma log_icache b s : icache (log_write b s) = icache s.
Proof. apply log_write_fields. Qed.

Lemma bfree_icache b s s' : bfree sb b s = Some s' → icache s' = icache s.
Proof.
  unfold bfree, bref_dec. destruct (sb_size sb <=? b); [done|]. destruct (brefs s b <? 1); [done|].
  cbn [mbind option_bind]. destruct (0 <? _); [by intros [= <-]|]. destruct (negb _); [done|].
  intros [= <-]. by rewrite log_icache.
Qed.

Lemma clear_icache b j s s' : (if get_word b j s =? 0 then Some s
  else s ← bfree sb (get_word b j s) s; Some (log_write b (set_word b j 0 s))) = Some s' → icache s' = icache s.
Proof.
  destruct (get_word b j s =? 0); [by intros [= <-]|]. destruct (bfree sb (get_word b j s) s) as [s1|] eqn:E; [|done].
  cbn [mbind option_bind]. intros [= <-]. rewrite log_icache. by apply (bfree_icache _ _ _ E).
Qed.

(** While the flag is not set the inode is as it was. *)
Lemma punch_turn_flag ip bn u s u' s' : punch_turn sb ip bn u s = Some (u', s') → u' = false →
  u = false ∧ icache s' = icache s.
Proof.
  intros H ->. revert H. unfold punch_turn. destruct (bn <? NDIRECT).
  { unfold punch_direct. destruct (get_addr ip bn s =? 0); [by intros [= -> ->]|].
    by destruct (bfree sb (get_addr ip bn s) s). }
  destruct (bn <? NDIRECT + NINDIRECT).
  { unfold punch_indirect. destruct (get_addr ip NDIRECT s =? 0); [by intros [= -> ->]|].
    match goal with |- mbind _ ?t = _ → _ => destruct t as [s1|] eqn:E end; [|done]. apply clear_icache in E.
    cbn [mbind option_bind]. destruct (addr_block_empty _ _ s1); [by destruct (bfree _ _ _)|]. by intros [= -> <-]. }
  destruct (bn <? NDIRECT + NINDIRECT + NDINDIRECT); [|by intros [= -> ->]].
  unfold punch_dindirect. destruct (get_addr ip (NDIRECT + 1) s =? 0); [by intros [= -> ->]|].
  destruct (get_word _ _ s =? 0); [by intros [= -> ->]|].
  match goal with |- mbind _ ?t = _ → _ => destruct t as [s1|] eqn:E end; [|done]. apply clear_icache in E.
  cbn [mbind option_bind]. destruct (addr_block_empty _ _ s1); [|by intros [= -> <-]].
  destruct (bfree _ _ s1) as [s2|] eqn:E2; [|done]. apply bfree_icache in E2. cbn [mbind option_bind].
  destruct (addr_block_empty _ _ _); [by destruct (bfree _ _ _)|]. intros [= -> <-]. split; [done|].
  rewrite log_icache. change (icache s2 = icache s). congruence.
Qed.

Lemma punch_loop_cuts ip inum lo hi s P : inv s P zero → owns s ip inum → 0 ≤ lo → ∃ u s1 G,
  foldl (λ o bn, '(u, s) ← o; punch_turn sb ip bn u s) (Some (false, s)) (range lo hi) = Some (u, s1) ∧
  freeing sb ip s s1 P G G ∧ cuts inum P (λ bn, (lo <=? bn) && (bn <? hi)) none G ∧
  (u = false → icache s1 = icache s).
Proof.
  intros Hi Ho Hlo. pose proof (owns_inum sb s ip inum (v_cache _ _ _ _ Hi) Ho) as Hn.
  destruct (foldl_range (λ bn (a : bool * fs), let '(u, s) := a in punch_turn sb ip bn u s)
    (λ j a, ∃ G, freeing sb ip s a.2 P G G ∧ cuts inum P (λ bn, (lo <=? bn) && (bn <? j)) none G ∧
      (a.1 = false → icache a.2 = icache s)) lo hi (false, s)) as ([u s1] & Hs & G & Hf & Hc & Hu).
  - pose proof (freeing_start sb ip s P Hi) as Hf. exists none. split_and!; try done.
    apply (cuts_ext sb ip inum s P _ _ _ _ s _ _ Hf (cuts_refl _ _ _)). intros bn _.
    destruct (Z.leb_spec lo bn), (Z.ltb_spec bn lo); done || lia.
  - intros j [u1 s1] Hj (G & Hf & Hc & Hu). cbn [fst snd] in *.
    destruct (punch_turn_any sb Hsb ip inum s P Ho Hn j u1 s1 G ltac:(lia) Hf) as (u2 & s2 & G2 & Hs2 & Hf2 & Hc2).
    exists (u2, s2). split; [done|]. exists G2. split_and!; [done| |].
    + apply (cuts_ext sb ip inum s P _ _ _ _ s2 _ _ Hf2 (cuts_trans _ _ _ _ _ _ _ Hc Hc2)). intros bn _.
      destruct (Z.leb_spec lo bn), (Z.ltb_spec bn (j + 1)), (Z.ltb_spec bn j), (Z.eqb_spec bn j); cbn; done || lia.
    + cbn [fst snd]. intros ->. destruct (punch_turn_flag _ _ _ _ _ _ Hs2 eq_refl) as [-> E]. by rewrite E, Hu.
  - exists u, s1, G. split_and!; [done|done| |done].
    apply (cuts_ext sb ip inum s P _ _ _ _ s1 _ _ Hf Hc). intros bn _.
    destruct (Z.leb_spec lo bn), (Z.ltb_spec bn (Z.max lo hi)), (Z.ltb_spec bn hi); cbn; done || lia.
Qed.

Lemma ipunch_spec ip inum lo hi s P : inv s P zero → clean sb s → owns s ip inum → 0 ≤ lo → ∃ r s',
  ipunch sb ip lo hi s = Some (r, s') ∧
  if d_type (din ip s) =? T_FILE then
    r = 0 ∧ nfree sb s ≤ nfree sb s' ∧ ∃ d, same_meta (din ip s) d ∧ d_size d = d_size (din ip s) ∧
      acts ip inum s s' d (λ o, if (lo <=? o / BSIZE) && (o / BSIZE <? hi) then 0 else content sb s inum o)
  else r = -1 ∧ s' = s.
Proof.
  intros Hi Hcl Ho Hlo. unfold ipunch. destruct (d_type (din ip s) =? T_FILE); cbn [negb]; [|by eexists _, _].
  destruct (punch_loop_cuts ip inum lo hi s P Hi Ho Hlo) as (u & s1 & G & -> & Hf & Hc & Hu). cbn [mbind option_bind].
  eexists 0, _. split; [done|]. split; [done|]. pose proof (fr_touch _ _ _ _ _ _ _ Hf) as Ht.
  pose proof (cuts_content sb Hsb ip inum s P s1 _ G Hi Hf Hc) as Hcont. destruct u.
  - destruct (cut_finish ip inum s s1 P G _ (λ d, d) Hi Ho Hf Hc) as (A1 & A2 & A3 & A4 & _); try done.
    rewrite set_din_id in A1, A4. split; [exact A4|]. by exists (din ip s1).
  - split; [apply Hf|]. exists (din ip s). split_and!; [done|done|]. split_and!; [|by apply saves_same; try apply Ht; try apply Hi; rewrite ?(Hu eq_refl)|done].
    eexists. by apply (freeing_end _ _ _ _ _ _ Hf).
Qed.

End trunc.
