(* ===== verification/FsShare.v ===== *)
(** * Sharing blocks between files

    iclone() copies the pointers of a file first and takes the references
    afterwards; iclone_range() and idedup() take the reference first. [owed K P]
    is what is missing while the pointers in [K] have no reference yet. *)

From stdpp Require Import list_numbers gmap.
From S2P Require Import Prelude Mem Xattr Fs FsInv FsFile FsNode FsIO FsFree FsOps.

Definition owed (K : key → bool) (P : ptrs) (b : Z) : Z := count b (minus P K) - count b P.

Lemma owed_none P b : owed none P b = 0.
Proof. unfold owed, none. rewrite minus_none. lia. Qed.

(** The pointers in a block, taken from the words [w]. *)
Definition fill (P : ptrs) (n : Z) (q : pos) (w : Z → Z) : ptrs :=
  foldr (λ j P, if w j =? 0 then P else <[(n, child q j) := w j]> P) P (range 0 NADDR_PER_BLOCK).

Definition in_block (n : Z) (q : pos) : key → bool := λ k, bool_decide (k.1 = n) && bool_decide (parent k.2 = Some q).

(** A pointer block whose pointers lead to data blocks. *)
Definition leaf_node (q : pos) : Prop := valid_pos q ∧ (q = PInd ∨ ∃ k, q = PL1 k).

Lemma leaf_meta q : leaf_node q → is_meta q = true.
Proof. by intros [_ [->|[k ->]]]. Qed.

Lemma leaf_child q p : leaf_node q → parent p = Some q →
  p = child q (index p) ∧ 0 ≤ index p < NADDR_PER_BLOCK ∧ is_meta p = false ∧ valid_pos p.
Proof.
  intros [Hv Hq] Hp. assert (valid_pos p ∧ is_meta p = false) as [Hvp Hm].
  { destruct p as [bn| | |k]; cbn [parent] in Hp; try done; [|destruct Hq as [->|[? ->]]; done]. split; [|done]. cbn.
    revert Hp. case_tests; intros [= <-]; [layout_lia|]. cbn in Hv. revert Hv. layout_lia. }
  pose proof (index_range p Hvp) as Hi. rewrite Hp in Hi. split_and!; try done; try lia. by rewrite (child_index p q).
Qed.

Lemma foldr_fill_lookup (P : ptrs) n q w l k : NoDup l → (∀ j, j ∈ l → 0 ≤ j < NADDR_PER_BLOCK) → leaf_node q →
  foldr (λ j P, if w j =? 0 then P else <[(n, child q j) := w j]> P) P l !! k =
  if in_block n q k && bool_decide (index k.2 ∈ l)
  then (if w (index k.2) =? 0 then P !! k else Some (w (index k.2))) else P !! k.
Proof.
  intros Hnd Hr Hq. destruct k as [m p]. unfold in_block. cbn [fst snd].
  induction l as [|j l IH]; cbn [foldr]; [by rewrite (bool_decide_false (index p ∈ [])), andb_false_r by (by intros ?%elem_of_nil)|].
  apply NoDup_cons in Hnd as [Hj Hnd]. specialize (IH Hnd ltac:(intros x Hx; apply Hr; set_solver)).
  pose proof (Hr j ltac:(set_solver)) as Hjr. destruct Hq as [Hvq Hq].
  destruct (child_parent q j (leaf_meta q (conj Hvq Hq)) Hvq Hjr) as (E1 & E2 & E3).
  destruct (decide ((m, p) = (n, child q j))) as [[= -> ->]|Hne].
  - rewrite E1, E2 in *. rewrite !(bool_decide_true (n = n)), !(bool_decide_true (Some q = Some q)),
      (bool_decide_true (j ∈ j :: l)) by (done || set_solver). cbn [andb].
    rewrite (bool_decide_false (j ∈ l)) in IH by done. rewrite andb_false_r in IH.
    destruct (w j =? 0); [by rewrite IH|]. by rewrite lookup_insert_eq.
  - trans (foldr (λ j P, if w j =? 0 then P else <[(n, child q j) := w j]> P) P l !! (m, p)).
    { destruct (w j =? 0); [done|]. by rewrite lookup_insert_ne by congruence. }
    rewrite IH. destruct (bool_decide_reflect (m = n)) as [->|]; [|done].
    destruct (bool_decide_reflect (parent p = Some q)) as [Ep|]; [|done]. cbn [andb].
    destruct (leaf_child q p (conj Hvq Hq) Ep) as (Ec & _).
    rewrite (bool_decide_ext (index p ∈ j :: l) (index p ∈ l)); [done|].
    rewrite elem_of_cons. split; [|by right]. intros [E|?]; [|done]. exfalso. apply Hne. by rewrite Ec, E.
Qed.

Lemma fill_lookup (P : ptrs) n q w k : leaf_node q → (∀ p, parent p = Some q → P !! (n, p) = None) →
  fill P n q w !! k = if in_block n q k then (if w (index k.2) =? 0 then None else Some (w (index k.2))) else P !! k.
Proof.
  intros Hq Hno. unfold fill. rewrite foldr_fill_lookup; [|apply nodup_range|intros j Hj; by apply in_range|done].
  destruct k as [m p]. unfold in_block. cbn [fst snd]. destruct (bool_decide_reflect (m = n)) as [->|]; [|done].
  destruct (bool_decide_reflect (parent p = Some q)) as [Ep|]; [|done]. cbn [andb].
  destruct (leaf_child q p Hq Ep) as (_ & Hi & _). rewrite bool_decide_true by (by apply in_range).
  by rewrite (Hno p Ep).
Qed.

(** Before the block was filled there was nothing in it. *)
Lemma minus_fill (P : ptrs) n q w : leaf_node q → (∀ p, parent p = Some q → P !! (n, p) = None) →
  minus (fill P n q w) (in_block n q) = P.
Proof.
  intros Hq Hno. apply minus_eq. intros [m p]. rewrite fill_lookup by done.
  destruct (in_block n q (m, p)) eqn:E; [|done]. unfold in_block in E. cbn in E. bool_facts. subst. by apply Hno.
Qed.

Section share.
Context (sb : superblock) (Hsb : sb_wf sb).

Abbreviation inv := (inv sb).

Lemma linked_fill s s' P n q b w : linked sb s P → inum_ok sb n → leaf_node q → P !! (n, q) = Some b →
  (∀ p, parent p = Some q → P !! (n, p) = None) →
  (∀ m i, inum_ok sb m → 0 ≤ i < 13 → faddr sb s' m i = faddr sb s m i) →
  (∀ k c j, P !! k = Some c → is_meta k.2 = true → 0 ≤ j < NADDR_PER_BLOCK →
    get_word c j s' = if decide (k = (n, q)) then w j else get_word c j s) →
  (∀ j, 0 ≤ j < NADDR_PER_BLOCK → w j ≠ 0 → in_data sb (w j) ∧ ∀ k, P !! k = Some (w j) → is_meta k.2 = false) →
  linked sb s' (fill P n q w).
Proof.
  intros Hl Hn Hq HP Hno Haddr Hword Hw. pose proof (leaf_meta q Hq) as Hmq.
  assert (∀ m p, inum_ok sb m → valid_pos p →
    ptr sb s' m p = if in_block n q (m, p) then w (index p) else ptr sb s m p) as Hptr.
  { intros m p Hm. unfold in_block. cbn [fst snd]. remember (rank p) as r eqn:Hr. revert p Hr.
    induction (lt_wf r) as [r _ IH]. intros p -> Hvp. rewrite !ptr_unfold by done.
    pose proof (index_range p Hvp) as Hi. destruct (parent p) as [p1|] eqn:Ep.
    2: { rewrite (bool_decide_false (None = Some q)), andb_false_r by done. by apply Haddr; [|lia]. }
    destruct (parent_valid p p1 Hvp Ep) as [Hv1 Hm1]. rewrite (IH (rank p1) (parent_rank p p1 Ep) p1 eq_refl Hv1).
    rewrite (bool_decide_false (parent p1 = Some q)), andb_false_r.
    2: { intros E. destruct (leaf_child q p1 Hq E) as (_ & _ & ? & _). congruence. }
    unfold word. destruct (Z.eqb_spec (ptr sb s m p1) 0) as [E0|E0].
    - destruct (bool_decide_reflect (m = n)) as [->|]; [|done].
      destruct (bool_decide_reflect (Some p1 = Some q)) as [[= ->]|]; [|done]. exfalso.
      apply (ptr_None sb s P n q Hl Hn (proj1 Hq)) in E0. congruence.
    - rewrite (Hword (m, p1)) by (done || by eapply ptr_block).
      destruct (decide ((m, p1) = (n, q))) as [[= -> ->]|Hne]; [by rewrite !bool_decide_true|].
      destruct (bool_decide_reflect (m = n)) as [->|]; [|done].
      destruct (bool_decide_reflect (Some p1 = Some q)) as [[= ->]|]; done. }
  destruct Hl as [L1 L2 L3]. split.
  - intros m p Hm Hp. rewrite Hptr, fill_lookup by done. cbn [snd]. destruct (in_block n q (m, p)); [done|]. by apply L1.
  - intros m p c. rewrite fill_lookup by done. destruct (in_block n q (m, p)) eqn:E; [|by apply L2].
    unfold in_block in E. cbn in E. bool_facts. subst m. cbn [snd]. destruct (leaf_child q p Hq ltac:(done)) as (_ & Hi & _ & Hv).
    destruct (Z.eqb_spec (w (index p)) 0) as [|Hne]; [done|]. intros [= <-]. split_and!; try done; apply (Hw _ Hi Hne).
  - intros k1 k2 c. rewrite !fill_lookup by done. destruct (in_block n q k1) eqn:E1.
    + unfold in_block in E1. bool_facts. destruct (leaf_child q k1.2 Hq ltac:(done)) as (_ & _ & ? & _). intros _ _ ?. congruence.
    + intros H1. destruct (in_block n q k2) eqn:E2; [|intros H2; by apply (L3 k1 k2 c)].
      unfold in_block in E2. bool_facts. destruct (leaf_child q k2.2 Hq ltac:(done)) as (_ & Hi & _ & _).
      destruct (Z.eqb_spec (w (index k2.2)) 0) as [|Hne]; [done|]. intros [= <-] Hm1.
      pose proof (proj2 (Hw _ Hi Hne) k1 H1). congruence.
Qed.

(** ** Taking the references *)

Definition pending (n : Z) (q : pos) (j : Z) : key → bool := λ k, in_block n q k && (j <=? index k.2).

Lemma pending_step (P : ptrs) n q j : leaf_node q → 0 ≤ j < NADDR_PER_BLOCK →
  ∀ k, pending n q j k = also (n, child q j) (pending n q (j + 1)) k.
Proof.
  intros Hq Hj [m p]. destruct (child_parent q j (leaf_meta q Hq) (proj1 Hq) Hj) as (E1 & E2 & _).
  unfold pending, also. destruct (bool_decide_reflect ((m, p) = (n, child q j))) as [[= -> ->]|Hne]; cbn [orb snd].
  - unfold in_block. cbn [fst snd]. rewrite E1, E2, !bool_decide_true by done. cbn. lia.
  - destruct (in_block n q (m, p)) eqn:E; [|done]. cbn [andb]. unfold in_block in E. cbn in E. bool_facts. subst.
    destruct (leaf_child q p Hq ltac:(done)) as (Ec & _). assert (index p ≠ j) by (intros <-; congruence).
    destruct (Z.leb_spec j (index p)), (Z.leb_spec (j + 1) (index p)); done || lia.
Qed.

(** Nothing that is in use becomes free. *)
Definition keeps_free (s s' : fs) : Prop := ∀ x, in_data sb x → brefs s x = 0 → brefs s' x = 0.

(** A reference for a pointer whose block is in use. *)
Lemma bref_inc_pending s P K K' k c : inv s P (owed K P) → P !! k = Some c → 1 ≤ count c (minus P K) →
  (∀ k', K k' = also k K' k') → K' k = false →
  ∃ s', bref_inc sb c s = Some s' ∧ inv s' P (owed K' P) ∧ frame sb s s' no_block ∧ keeps_free s s'.
Proof.
  intros Hi HP Hc HK HK'. pose proof (v_linked _ _ _ _ Hi) as Hl. pose proof (dom_data sb s P k c Hl HP) as Hd.
  pose proof (r_ref _ _ _ _ (v_counted _ _ _ _ Hi) c Hd) as Hr. unfold owed in Hr.
  pose proof (count_minus_le c P K). pose proof (count_bound sb s P c Hsb Hl).
  destruct (bref_inc_spec sb Hsb c s P _ Hi Hd ltac:(lia) ltac:(lia)) as (s' & Hs & Hi' & Hf).
  exists s'. split_and!; try done.
  - apply (inv_ext sb s' P _ _ Hi'). intros x _. unfold plus, owed.
    rewrite (minus_ext P K (also k K')) by (intros; apply HK). rewrite (count_also x k c P K' HP HK'). lia.
  - intros x Hx Hx0. rewrite (r_ref _ _ _ _ (v_counted _ _ _ _ Hi') x Hx).
    pose proof (r_ref _ _ _ _ (v_counted _ _ _ _ Hi) x Hx) as Hrx. rewrite plus_ne by (intros ->; lia). lia.
Qed.

Lemma share_words_spec s P n q b : inv s P (owed (in_block n q) P) → inum_ok sb n → leaf_node q → P !! (n, q) = Some b →
  (∀ k c, in_block n q k = true → P !! k = Some c → ∃ k', in_block n q k' = false ∧ P !! k' = Some c) →
  ∃ s', share_words sb b NADDR_PER_BLOCK s = Some s' ∧ inv s' P zero ∧ frame sb s s' no_block ∧ keeps_free s s'.
Proof.
  intros Hi Hn Hq HP Huse. pose proof (leaf_meta q Hq) as Hmq.
  destruct (foldl_range (λ j s, let a := get_word b j s in if a =? 0 then Some s else bref_inc sb a s)
    (λ j s', inv s' P (owed (pending n q j) P) ∧ frame sb s s' no_block ∧ keeps_free s s')
    0 NADDR_PER_BLOCK s) as (s' & Hs & Hi' & Hf & Hk).
  - split_and!; [|apply frame_refl|by intros x]. apply (inv_ext sb s P _ _ Hi). intros x _. unfold owed.
    rewrite (minus_ext P (pending n q 0) (in_block n q)); [done|]. intros [m p] _. unfold pending.
    destruct (in_block n q (m, p)) eqn:E; [|done]. unfold in_block in E. cbn in E. bool_facts.
    destruct (leaf_child q p Hq ltac:(done)) as (_ & Hip & _). cbn. lia.
  - intros j s1 Hj (Hi1 & Hf1 & Hk1). cbn zeta.
    destruct (child_parent q j Hmq (proj1 Hq) Hj) as (E1 & E2 & E3). pose proof (v_linked _ _ _ _ Hi1) as Hl1.
    assert (get_word b j s1 = default 0 (P !! (n, child q j))) as ->.
    { rewrite <-(ptr_lookup sb s1 P n _ Hl1 Hn E3). rewrite ptr_unfold, E1, E2 by done.
      rewrite (ptr_lookup sb s1 P n q Hl1 Hn (proj1 Hq)), HP. cbn. unfold word.
      by rewrite (proj2 (Z.eqb_neq _ _)) by (pose proof (in_data_pos sb Hsb b (dom_data sb s1 P _ b Hl1 HP)); lia). }
    assert (in_block n q (n, child q j) = true) as Hin by (unfold in_block; cbn; by rewrite E1, !bool_decide_true).
    destruct (P !! (n, child q j)) as [c|] eqn:Ec; cbn [default from_option id].
    + rewrite (proj2 (Z.eqb_neq _ _)) by (pose proof (in_data_pos sb Hsb c (dom_data sb s1 P _ c Hl1 Ec)); lia).
      destruct (Huse _ c Hin Ec) as (k' & Hk' & HPk').
      destruct (bref_inc_pending s1 P (pending n q j) (pending n q (j + 1)) (n, child q j) c) as (s2 & Hs2 & Hi2 & Hf2 & Hk2); try done.
      * apply (count_pos c k'). rewrite minus_lookup. unfold pending. by rewrite Hk'.
      * by apply pending_step.
      * unfold pending. cbn [snd]. rewrite E2, (proj2 (Z.leb_gt _ _)), andb_false_r by lia. done.
      * exists s2. split_and!; [done|done|by eapply frame_trans|]. intros x Hx H0. by apply Hk2, Hk1.
    + exists s1. split_and!; try done. apply (inv_ext sb s1 P _ _ Hi1). intros x _. unfold owed.
      rewrite (minus_ext P (pending n q j) (pending n q (j + 1))); [done|]. intros k' Hk'. rewrite (pending_step P n q j Hq Hj).
      unfold also. rewrite bool_decide_false; [done|]. intros ->. by destruct Hk'; congruence.
  - exists s'. split_and!; [done| |done|done]. apply (inv_ext sb s' P _ _ Hi'). intros x _. unfold owed, zero.
    rewrite (minus_ext P _ none); [unfold none; rewrite minus_none; lia|]. intros [m p] _. unfold pending, none.
    destruct (in_block n q (m, p)) eqn:E; [|done]. unfold in_block in E. cbn in E. bool_facts.
    destruct (leaf_child q p Hq ltac:(done)) as (_ & Hip & _). cbn [snd andb]. apply Z.leb_gt. lia.
Qed.

(** ** iclone() *)

Lemma copy_word nb old j s : old ≠ nb → 0 ≤ j < NADDR_PER_BLOCK → get_word nb j (copy_block nb old s) = get_word old j s.
Proof.
  intros Hne Hj. unfold get_word, copy_block; cbn [dsk upd dsk_set]. apply load_le_shift. intros i Hi.
  rewrite memmove_in by layout_lia. f_equal. lia.
Qed.

Lemma copy_out nb old s x : ¬ (nb * BSIZE ≤ x < nb * BSIZE + BSIZE) → dsk (copy_block nb old s) x = dsk s x.
Proof. intros Hx. unfold copy_block; cbn [dsk upd dsk_set]. by apply memmove_out. Qed.

Section clone.
Context (ip : nat) (src dst : Z) (s0 : fs) (P0 : ptrs).
Context (Ho : owns s0 ip dst) (Hsrc : inum_ok sb src) (Hdst : inum_ok sb dst) (Hne : src ≠ dst).
Context (Hempty : ∀ p, P0 !! (dst, p) = None).

(** The pointers at the positions [D] are copied. *)
Record cloning (s : fs) (P : ptrs) (D : pos → bool) : Prop := {
  cl_inv : inv s P zero;
  cl_touch : touches sb ip s0 s;
  cl_other : ∀ n p, n ≠ dst → P !! (n, p) = P0 !! (n, p);
  cl_data : ∀ bn, P !! (dst, PData bn) = if D (PData bn) then P0 !! (src, PData bn) else None;
  cl_meta : ∀ p, is_meta p = true → D p = false → P !! (dst, p) = None;
  cl_blocks : ∀ k b, P0 !! k = Some b → same_block b s0 s;
}.

(** A pointer of the copy is one of the source or new. *)
Lemma cloning_data s P D bn b : cloning s P D → P !! (dst, PData bn) = Some b → P !! (src, PData bn) = Some b.
Proof using Hne.
  intros Hc Hb. rewrite (cl_data _ _ _ Hc) in Hb. rewrite (cl_other _ _ _ Hc) by done. by destruct (D (PData bn)).
Qed.

Lemma cloning_start : inv s0 P0 zero → cloning s0 P0 (λ _, false).
Proof using Hempty. intros Hi. split; try done. apply touches_refl. Qed.

Lemma cloning_ext s P D D' : cloning s P D → (∀ p, D p = D' p) → cloning s P D'.
Proof using Type.
  intros [A1 A2 A3 A4 A5 A6] HD. split; try done.
  - intros bn. by rewrite A4, HD.
  - intros p Hp HDp. apply A5; [done|]. by rewrite HD.
Qed.

Definition with_node (q : pos) (D : pos → bool) : pos → bool := λ p,
  bool_decide (p = q) || bool_decide (parent p = Some q) || D p.

(** The blocks that are not the one being filled. *)
Lemma clone_fill s P D q nb old : cloning s P D → leaf_node q → (∀ p, parent p = Some q → D p = false) →
  P0 !! (src, q) = Some old → (∀ k, P !! k ≠ Some nb) → D q = false →
  ∀ s1, inv s1 (<[(dst, q) := nb]> P) zero → in_data sb nb →
  let P1 := <[(dst, q) := nb]> P in let w := λ j, default 0 (P !! (src, child q j)) in
  inv (copy_block nb old s1) (fill P1 dst q w) (owed (in_block dst q) (fill P1 dst q w)) ∧
  (∀ p, parent p = Some q → P1 !! (dst, p) = None).
Proof using Hsb Hsrc Hdst Hne.
  intros Hc Hq Hno Hold Hfresh HDq s1 Hi1 Hd P1 w. pose proof (leaf_meta q Hq) as Hmq. destruct Hq as [Hvq Hq'].
  set (s2 := copy_block nb old s1). pose proof (conj Hvq Hq') as Hq.
  assert (old ≠ nb) as Hon.
  { intros ->. apply (Hfresh (src, q)). by rewrite (cl_other _ _ _ Hc). }
  assert (∀ p, parent p = Some q → P1 !! (dst, p) = None) as Hnone.
  { intros p Hp. destruct (leaf_child q p Hq Hp) as (Ec & Hi & Hm & _). unfold P1.
    rewrite lookup_insert_ne by (intros [= <-]; congruence).
    destruct p as [bn| | |k]; try done. by rewrite (cl_data _ _ _ Hc), (Hno _ Hp). }
  split; [|done]. pose proof (v_linked _ _ _ _ Hi1) as Hl1.
  destruct (store_frame sb Hsb s1 nb (memmove (nb * BSIZE) (old * BSIZE) BSIZE (dsk s1)) Hd) as [Hf Hbm].
  { intros x Hx. by apply memmove_out. }
  assert (P1 !! (src, q) = Some old) as HPs.
  { unfold P1. rewrite lookup_insert_ne by congruence. by rewrite (cl_other _ _ _ Hc). }
  assert (linked sb s2 (fill P1 dst q w)) as Hl2.
  { apply (linked_fill s1 s2 P1 dst q nb w Hl1 Hdst Hq); try done.
    - apply lookup_insert_eq.
    - intros m i Hm _. unfold faddr. f_equal. f_equal. apply (dnode_frame sb Hsb s1 s2 m Hm); [done|]. exact (f_inodes _ _ _ _ Hf).
    - intros k c j Hk Hm Hj. destruct (decide (k = (dst, q))) as [->|Hkne].
      + unfold P1 in Hk. rewrite lookup_insert_eq in Hk. injection Hk as <-. unfold s2. rewrite copy_word by done.
        destruct (child_parent q j Hmq Hvq Hj) as (E1 & E2 & E3).
        unfold w. assert (P !! (src, child q j) = P1 !! (src, child q j)) as -> by (unfold P1; by rewrite lookup_insert_ne by congruence).
        rewrite <-(ptr_lookup sb s1 P1 src _ Hl1 Hsrc E3), ptr_unfold, E1, E2 by done.
        rewrite (ptr_lookup sb s1 P1 src q Hl1 Hsrc Hvq), HPs. cbn. unfold word.
        by rewrite (proj2 (Z.eqb_neq _ _)) by (pose proof (in_data_pos sb Hsb old (dom_data sb s1 P1 _ old Hl1 HPs)); lia).
      + assert (c ≠ nb) as Hcn.
        { intros ->. unfold P1 in Hk. rewrite lookup_insert_ne in Hk by done. by apply (Hfresh k). }
        apply get_word_same; [|done]. intros x Hx. unfold s2. apply copy_out. unfold BSIZE in *. lia.
    - intros j Hj Hw. unfold w in *. destruct (P !! (src, child q j)) as [c|] eqn:Ec; [|done]. cbn.
      assert (P1 !! (src, child q j) = Some c) as Ec1 by (unfold P1; by rewrite lookup_insert_ne by congruence).
      split; [by apply (dom_data sb s1 P1 _ c Hl1 Ec1)|]. intros k Hk.
      destruct (is_meta k.2) eqn:Em; [|done]. pose proof (l_meta sb s1 P1 Hl1 k _ c Hk Ec1 Em) as ->. cbn in Em.
      destruct (child_data q j Hq') as [bn Ebn]. by rewrite Ebn in Em. }
  destruct Hi1 as [_ [C1 C2 C3] Hcache Hby Hh]. split; try done.
  - split; [|done|].
    + intros b Hb. change (brefs s2 b) with (brefs s1 b). rewrite C1 by done. unfold owed, zero.
      rewrite (minus_fill P1 dst q w Hq Hnone). fold P1. lia.
    + intros b Hb. change (brefs s2 b) with (brefs s1 b). rewrite <-C3 by done. by rewrite (bit_data sb Hsb b s1).
  - by apply (cache_ok_frame sb s1).
  - intros x. unfold s2, copy_block; cbn [dsk upd dsk_set]. unfold memmove. case_match; apply Hby.
Qed.

Lemma clone_lookup s P D q nb : cloning s P D → leaf_node q → (∀ p, parent p = Some q → D p = false) → ∀ k,
  let P' := fill (<[(dst, q) := nb]> P) dst q (λ j, default 0 (P !! (src, child q j))) in
  P' !! k = if in_block dst q k then P !! (src, k.2) else if bool_decide (k = (dst, q)) then Some nb else P !! k.
Proof using Hsb Hne.
  intros Hc Hq Hno [n p] P'. pose proof (leaf_meta q Hq) as Hmq.
  assert (∀ p, parent p = Some q → <[(dst, q) := nb]> P !! (dst, p) = None) as Hnone.
  { intros p' Hp. destruct (leaf_child q p' Hq Hp) as (_ & _ & Hm & _).
    rewrite lookup_insert_ne by (intros [= <-]; congruence).
    destruct p' as [bn| | |k]; try done. by rewrite (cl_data _ _ _ Hc), (Hno _ Hp). }
  unfold P'. rewrite fill_lookup by done. cbn [snd]. destruct (in_block dst q (n, p)) eqn:E.
  - unfold in_block in E. cbn in E. bool_facts. subst n. destruct (leaf_child q p Hq ltac:(done)) as (Ec & _). rewrite <-Ec.
    destruct (P !! (src, p)) as [c|] eqn:Es; [|done]. cbn.
    by rewrite (proj2 (Z.eqb_neq _ _)) by (pose proof (in_data_pos sb Hsb c (dom_data sb s P _ c (v_linked _ _ _ _ (cl_inv _ _ _ Hc)) Es)); lia).
  - destruct (bool_decide_reflect ((n, p) = (dst, q))) as [->|Hn]; [apply lookup_insert_eq|by apply lookup_insert_ne].
Qed.

(** *** Direct blocks *)

Context (sip : nat) (Hos : owns s0 sip src).

Lemma sip_ne : sip ≠ ip.
Proof using Ho Hos Hne.
  intros ->. destruct Ho as (i & Hi & _ & _ & E), Hos as (i' & Hi' & _ & _ & E'). congruence.
Qed.

(** The block addresses of the source do not change. *)
Lemma src_addr s P p : inv s P zero → touches sb ip s0 s → (∀ n p, n ≠ dst → P !! (n, p) = P0 !! (n, p)) →
  valid_pos p → parent p = None → get_addr sip (index p) s = default 0 (P0 !! (src, p)).
Proof using Hsrc Hos Hne.
  intros Hi Ht Hoth Hp Hroot. pose proof (touches_owns _ _ _ _ sip src Ht Hos) as Hos1.
  rewrite <-Hoth by done. rewrite <-(ptr_lookup sb s P src p (v_linked _ _ _ _ Hi) Hsrc Hp), ptr_unfold, Hroot by done.
  unfold faddr, get_addr. by rewrite (dnode_owns sb s sip src (v_cache _ _ _ _ Hi) Hos1).
Qed.

Definition directs_upto (i : Z) (p : pos) : bool := match p with PData bn => bn <? i | _ => false end.

Lemma clone_direct s P i : 0 ≤ i < NDIRECT → cloning s P (directs_upto i) →
  ∃ s' P', clone_addr sb sip ip i s = Some s' ∧
    cloning s' P' (directs_upto (i + 1)) ∧ nfree sb s ≤ nfree sb s'.
Proof using Hsb Ho Hos Hsrc Hdst Hne Hempty.
  intros Hi Hc. pose proof (cl_inv _ _ _ Hc) as Hin. pose proof (cl_touch _ _ _ Hc) as Ht.
  pose proof (touches_owns _ _ _ _ ip dst Ht Ho) as Hos1. pose proof (v_linked _ _ _ _ Hin) as Hl.
  assert (valid_pos (PData i)) as Hv by (cbn; layout_lia).
  assert (parent (PData i) = None ∧ index (PData i) = i) as [Er Ei] by (cbn; by rewrite (proj2 (Z.ltb_lt _ _)) by lia).
  assert (∀ s P, inv s P zero → touches sb ip s0 s → (∀ n p, n ≠ dst → P !! (n, p) = P0 !! (n, p)) →
    get_addr sip i s = default 0 (P0 !! (src, PData i))) as Hga.
  { intros s1 P1 Hi1 Ht1 Ho1. rewrite <-Ei at 1. by apply (src_addr s1 P1). }
  unfold clone_addr. rewrite (Hga s P Hin Ht (cl_other _ _ _ Hc)). cbn zeta. set (v := default 0 (P0 !! (src, PData i))).
  assert (get_addr sip i (set_addr ip i v s) = v) as ->.
  { assert (inode_at sip (set_addr ip i v s) = inode_at sip s) as E.
    { unfold inode_at, set_addr, set_din. rewrite !list_lookup_total_alt, set_inode_lookup, decide_False by apply sip_ne. done. }
    unfold get_addr, din. rewrite E. apply (Hga s P Hin Ht (cl_other _ _ _ Hc)). }
  assert (P !! (dst, PData i) = None) as HPd.
  { rewrite (cl_data _ _ _ Hc). unfold directs_upto. by rewrite (proj2 (Z.ltb_ge _ _)) by lia. }
  assert (P !! (src, PData i) = P0 !! (src, PData i)) as HPs by (by apply (cl_other _ _ _ Hc)).
  assert (at_loc sb s ip dst (PData i) (LAddr ip i)) as Hat by (unfold at_loc; by rewrite Er, Ei).
  assert (v ≠ 0 → P !! (src, PData i) = Some v) as Hvs.
  { unfold v. rewrite HPs. by destruct (P0 !! (src, PData i)). }
  assert (v ≠ 0 → in_data sb v) as Hvd by (intros E; by apply (dom_data sb s P _ v Hl (Hvs E))).
  assert (0 ≤ v < 2 ^ 32) as Hvw.
  { destruct (decide (v = 0)) as [->|E]; [done|]. by apply (in_data_word sb Hsb v (Hvd E)). }
  assert (v ≠ 0 → ∀ k, P !! k = Some v → k ≠ (dst, PData i) → is_meta k.2 = false ∧ is_meta (PData i) = false) as Hex.
  { intros E k Hk _. split; [|done]. destruct (is_meta k.2) eqn:Em; [|done].
    pose proof (l_meta sb s P Hl k _ v Hk (Hvs E) Em) as ->. done. }
  pose proof (write_loc_frame sb Hsb s P _ ip dst (PData i) (LAddr ip i) v Hin Hos1 Hv Hat) as (_ & _ & _ & Ht1 & _ & _).
  pose proof (inv_set_ptr sb Hsb s P _ ip dst (PData i) (LAddr ip i) v Hin Hos1 Hv Hat (data_leaf dst i P) Hvw Hvd Hex ltac:(done)) as Hi1.
  cbn [write_loc] in Hi1, Ht1. set (s1 := set_addr ip i v s) in *. set (P1 := set_P P dst (PData i) v) in *.
  assert (∀ k, P1 !! k = if bool_decide (k = (dst, PData i)) then P0 !! (src, PData i) else P !! k) as HP1.
  { intros k. unfold P1, set_P. destruct (bool_decide_reflect (k = (dst, PData i))) as [->|Hk].
    - destruct (Z.eqb_spec v 0) as [E|E]; [|by rewrite lookup_insert_eq, <-HPs, Hvs].
      rewrite lookup_delete_eq. destruct (P0 !! (src, PData i)) as [c|] eqn:Ec; [|done].
      cbn in v. pose proof (in_data_pos sb Hsb c (dom_data sb s P _ c Hl HPs)). lia.
    - case_match; [by apply lookup_delete_ne|by apply lookup_insert_ne]. }
  assert (∀ s', inv s' P1 zero → frame sb s1 s' no_block → keeps_free s s' →
    cloning s' P1 (directs_upto (i + 1)) ∧ nfree sb s ≤ nfree sb s') as Hend.
  { intros s' Hi' Hf Hk. split; [|by apply nfree_mono]. split.
    - done.
    - eapply touches_trans; [exact Ht|]. eapply touches_trans; [exact Ht1|]. exact (touches_frame sb ip _ _ _ Hf).
    - intros n p Hn. rewrite HP1, bool_decide_false by congruence. by apply (cl_other _ _ _ Hc).
    - intros bn. rewrite HP1. unfold directs_upto. destruct (bool_decide_reflect ((dst, PData bn) = (dst, PData i))) as [[= ->]|Hb].
      + by rewrite (proj2 (Z.ltb_lt _ _)) by lia.
      + rewrite (cl_data _ _ _ Hc). unfold directs_upto. assert (bn ≠ i) by congruence.
        destruct (Z.ltb_spec bn i), (Z.ltb_spec bn (i + 1)); done || lia.
    - intros p Hp _. rewrite HP1, bool_decide_false by (intros [= ->]; done). apply (cl_meta _ _ _ Hc); [done|]. by destruct p.
    - intros k b Hk' x Hx. rewrite (f_block _ _ _ _ Hf b); [by apply (cl_blocks _ _ _ Hc k b)|..|done]; [|by intros []].
      assert (k.1 ≠ dst) by (destruct k as [n p]; cbn; intros ->; by rewrite Hempty in Hk').
      apply (dom_data sb s P k b Hl). destruct k as [n p]. by rewrite (cl_other _ _ _ Hc). }
  destruct (Z.eqb_spec v 0) as [E|E].
  - exists s1, P1. split; [done|]. apply Hend; [|apply frame_refl|by intros x].
    apply (inv_ext sb s1 P1 _ zero Hi1). intros x _. unfold P1, set_P. rewrite (proj2 (Z.eqb_eq _ _) E), delete_id by done. unfold zero. lia.
  - assert (minus P1 (also (dst, PData i) none) = P) as HM.
    { apply minus_eq. intros k. unfold also, none. rewrite HP1. destruct (bool_decide_reflect (k = (dst, PData i))) as [->|]; [exact HPd|done]. }
    destruct (bref_inc_pending s1 P1 (also (dst, PData i) none) none (dst, PData i) v) as (s2 & Hs2 & Hi2 & Hf2 & Hk2); try done.
    + apply (inv_ext sb s1 P1 _ _ Hi1). intros x _. unfold owed. rewrite HM. unfold zero. lia.
    + rewrite HP1, bool_decide_true, <-HPs by done. by apply Hvs.
    + rewrite HM. by apply (count_pos v (src, PData i)), Hvs.
    + exists s2, P1. split; [done|]. apply Hend; try done. apply (inv_ext sb s2 P1 _ _ Hi2). intros x _. by rewrite owed_none.
Qed.

(** *** Indirect blocks *)

Context (Hi0 : inv s0 P0 zero).

(** The source has nothing at [q]. *)
Lemma cloning_absent s P D D' : cloning s P D → (∀ p, D p = true → D' p = true) →
  (∀ bn, D (PData bn) = false → D' (PData bn) = true → P0 !! (src, PData bn) = None) → cloning s P D'.
Proof using Type.
  intros [A1 A2 A3 A4 A5 A6] Hsub Hno. split; try done.
  - intros bn. rewrite A4. destruct (D (PData bn)) eqn:E; [by rewrite Hsub|].
    destruct (D' (PData bn)) eqn:E'; [by rewrite Hno|done].
  - intros p Hp HD. apply A5; [done|]. destruct (D p) eqn:E; [|done]. by rewrite Hsub in HD.
Qed.

Lemma absent_below q p : valid_pos p → parent p = Some q → P0 !! (src, q) = None → P0 !! (src, p) = None.
Proof using Hsrc Hi0.
  intros Hp Hq HP. by apply (no_child sb s0 P0 src q p (v_linked _ _ _ _ Hi0) Hsrc).
Qed.

Lemma with_node_absent s P D q : cloning s P D → leaf_node q → P0 !! (src, q) = None → cloning s P (with_node q D).
Proof using Hsrc Hi0.
  intros Hc Hq HP. apply (cloning_absent s P D _ Hc).
  - intros p Hp. unfold with_node. by rewrite Hp, orb_true_r.
  - intros bn HD. unfold with_node. rewrite HD, orb_false_r. intros Hb. destruct (bool_decide_reflect (PData bn = q)) as [<-|_].
    { by apply leaf_meta in Hq. }
    cbn in Hb. bool_facts. destruct (leaf_child q (PData bn) Hq ltac:(done)) as (_ & _ & _ & Hv).
    by apply (absent_below q).
Qed.

Lemma clone_block_spec s P D q l old : cloning s P D → leaf_node q → (∀ p, parent p = Some q → D p = false) → D q = false →
  at_loc sb s ip dst q l →
  (∀ s1 P1, inv s1 P1 zero → touches sb ip s0 s1 → (∀ n p, n ≠ dst → P1 !! (n, p) = P0 !! (n, p)) →
    read_loc old s1 = default 0 (P0 !! (src, q))) →
  match clone_block sb l old NADDR_PER_BLOCK s with
  | None => nfree sb s = 0
  | Some s' => ∃ P', cloning s' P' (with_node q D) ∧ nfree sb s - 1 ≤ nfree sb s' ∧
      ∀ p, p ≠ q → parent p ≠ Some q → P' !! (dst, p) = P !! (dst, p)
  end.
Proof using Hsb Ho Hsrc Hdst Hne Hempty Hi0.
  intros Hc Hq Hno HDq Hat Hrd. pose proof (leaf_meta q Hq) as Hmq. pose proof (cl_inv _ _ _ Hc) as Hi.
  unfold clone_block. rewrite (Hrd s P Hi (cl_touch _ _ _ Hc) (cl_other _ _ _ Hc)).
  destruct (P0 !! (src, q)) as [ob|] eqn:Hold; cbn [default from_option id].
  2: { exists P. split_and!; [by apply with_node_absent|lia|done]. }
  rewrite (proj2 (Z.eqb_neq _ _)) by (pose proof (in_data_pos sb Hsb ob (dom_data sb s0 P0 _ ob (v_linked _ _ _ _ Hi0) Hold)); lia).
  pose proof (touches_owns _ _ _ _ ip dst (cl_touch _ _ _ Hc) Ho) as Hod. pose proof (v_linked _ _ _ _ Hi) as Hl.
  pose proof (alloc_at_spec sb Hsb ip dst q l s P zero Hi ltac:(done) Hod (proj1 Hq) Hat (cl_meta _ _ _ Hc q Hmq HDq)) as Ha.
  destruct (balloc sb s) as [[nb s1']|]; cbn [mbind option_bind]; [|done].
  destruct Ha as (Hi1 & Ht1 & Hd & Hfresh & _ & Hblk1 & Hfree1). set (s1 := write_loc l nb s1') in *.
  assert (touches sb ip s0 s1) as Ht01 by (eapply touches_trans; [apply Hc|done]).
  rewrite (Hrd s1 _ Hi1 Ht01).
  2: { intros n p Hn. rewrite lookup_insert_ne by congruence. by apply (cl_other _ _ _ Hc). }
  change (default 0 (Some ob)) with ob. destruct (clone_fill s P D q nb ob Hc Hq Hno Hold Hfresh HDq s1 Hi1 Hd) as [Hi2 Hnone].
  pose proof (clone_lookup s P D q nb Hc Hq Hno) as Hlk. cbn zeta in Hlk, Hi2.
  set (P2 := fill (<[(dst, q) := nb]> P) dst q (λ j, default 0 (P !! (src, child q j)))) in *.
  assert (P2 !! (dst, q) = Some nb) as HPq.
  { rewrite Hlk, bool_decide_true by done. assert (in_block dst q (dst, q) = false) as ->; [|done].
    unfold in_block. cbn. destruct (bool_decide_reflect (parent q = Some q)) as [E|]; [apply parent_rank in E; lia|by rewrite andb_false_r]. }
  assert (∀ n p, n ≠ dst → P2 !! (n, p) = P !! (n, p)) as Hother.
  { intros n p Hn. rewrite Hlk. unfold in_block. cbn.
    by rewrite (bool_decide_false (n = dst)), (bool_decide_false ((n, p) = (dst, q))) by congruence. }
  destruct (share_words_spec (copy_block nb ob s1) P2 dst q nb Hi2 Hdst Hq HPq) as (s3 & -> & Hi3 & Hf3 & Hk3).
  { intros k c Hk Hkc. rewrite Hlk, Hk in Hkc. exists (src, k.2).
    split; [unfold in_block; cbn; by rewrite bool_decide_false|by rewrite Hother]. }
  cbn [mbind option_bind]. exists P2.
  assert (frame sb s1 (copy_block nb ob s1) (λ x, x = nb)) as Hf2.
  { apply (store_frame sb Hsb s1 nb _ Hd). intros x Hx. by apply memmove_out. }
  destruct (log_write_fields nb s3) as (L1 & L2 & _).
  split_and!.
  - split.
    + by apply inv_log.
    + eapply touches_trans; [exact Ht01|]. eapply touches_trans; [exact (touches_frame sb ip _ _ _ Hf2)|].
      eapply touches_trans; [exact (touches_frame sb ip _ _ _ Hf3)|].
      exact (touches_frame sb ip _ _ _ (frame_log sb nb s3 no_block)).
    + intros n p Hn. rewrite Hother by done. by apply (cl_other _ _ _ Hc).
    + intros bn. rewrite Hlk. unfold in_block, with_node. cbn [fst snd]. rewrite bool_decide_true by done. cbn [andb].
      rewrite (bool_decide_false (PData bn = q)) by (intros <-; done). cbn [orb].
      destruct (bool_decide (parent (PData bn) = Some q)); cbn [orb]; [by apply (cl_other _ _ _ Hc)|].
      rewrite bool_decide_false by (intros [= <-]; done). apply (cl_data _ _ _ Hc).
    + intros p Hp HD. unfold with_node in HD. bool_facts. rewrite Hlk. unfold in_block. cbn [fst snd].
      rewrite (bool_decide_false (parent p = Some q)), andb_false_r, bool_decide_false by (done || congruence).
      by apply (cl_meta _ _ _ Hc).
    + intros k b Hk x Hx. assert (k.1 ≠ dst) as Hkd by (destruct k as [n p]; cbn; intros ->; by rewrite Hempty in Hk).
      assert (P !! k = Some b) as HPk by (destruct k as [n p]; by rewrite (cl_other _ _ _ Hc)).
      pose proof (dom_data sb s P k b Hl HPk) as Hbd. assert (b ≠ nb) as Hbn by (intros ->; by apply (Hfresh k)).
      rewrite L1, (f_block _ _ _ _ Hf3 b Hbd (λ F, F) x Hx), (f_block _ _ _ _ Hf2 b Hbd Hbn x Hx).
      rewrite (Hblk1 b Hbd Hbn); [by apply (cl_blocks _ _ _ Hc k b)| |done].
      destruct (loc_block_cases sb s P zero ip dst q l Hi Hod (proj1 Hq) Hat) as [->|(r & _ & HPr & Hmr)].
      * pose proof (in_data_pos sb Hsb b Hbd). lia.
      * intros ->. pose proof (l_meta sb s P Hl _ _ _ HPr HPk Hmr) as <-. done.
  - etrans; [exact Hfree1|]. etrans; [apply (nfree_mono sb (copy_block nb ob s1) s3 Hk3)|].
    by rewrite (nfree_eq sb s3 (log_write nb s3)).
  - intros p Hp Hpq. rewrite Hlk. unfold in_block. cbn [fst snd].
    by rewrite (bool_decide_false (parent p = Some q)), andb_false_r, bool_decide_false by (done || congruence).
Qed.

(** The positions up to the [i]-th level-1 block. *)
Definition level1_upto (i : Z) (D : pos → bool) : pos → bool := λ p, D p ||
  match p with
  | PDind => true
  | PL1 k => k <? i
  | PData bn => (NDIRECT + NINDIRECT <=? bn) && ((bn - NDIRECT - NINDIRECT) / NADDR_PER_BLOCK <? i)
  | PInd => false
  end.

Lemma level1_step i D p : with_node (PL1 i) (level1_upto i D) p = level1_upto (i + 1) D p.
Proof using Type.
  unfold with_node, level1_upto. destruct p as [bn| | |k]; cbn [parent].
  - rewrite (bool_decide_false (PData bn = PL1 i)) by done. cbn [orb].
    destruct (D (PData bn)); [by rewrite !orb_true_r|]. cbn [orb].
    destruct (Z.ltb_spec bn NDIRECT); [rewrite !(proj2 (Z.leb_gt _ bn)) by layout_lia; done|].
    destruct (Z.ltb_spec bn (NDIRECT + NINDIRECT)); [rewrite !(proj2 (Z.leb_gt _ bn)) by lia; done|].
    rewrite !(proj2 (Z.leb_le _ bn)) by lia. cbn [andb]. set (x := _ / _).
    destruct (bool_decide_reflect (Some (PL1 x) = Some (PL1 i))) as [[= E]|Hx].
    + symmetry. apply Z.ltb_lt. lia.
    + assert (x ≠ i) by congruence. destruct (Z.ltb_spec x i), (Z.ltb_spec x (i + 1)); done || lia.
  - done.
  - done.
  - rewrite (bool_decide_false (Some PDind = Some (PL1 i))), orb_false_r by done.
    destruct (bool_decide_reflect (PL1 k = PL1 i)) as [[= ->]|Hk].
    + cbn [orb]. rewrite (proj2 (Z.ltb_lt _ _)), orb_true_r by lia. done.
    + assert (k ≠ i) by congruence. cbn [orb]. destruct (D (PL1 k)); [done|]. destruct (Z.ltb_spec k i), (Z.ltb_spec k (i + 1)); done || lia.
Qed.

(** A block written with what it holds. *)
Lemma cloning_same s s' P D : cloning s P D → (∀ x, dsk s' x = dsk s x) → brefs s' = brefs s → icache s' = icache s →
  xattrs s' = xattrs s → hint s' = hint s → cloning s' P D.
Proof using Hsb.
  intros [A1 A2 A3 A4 A5 A6] Hd Hr Hc Hx Hh.
  assert (frame sb s s' no_block) as Hf by (split; try done; [intros x _; apply Hd|intros b _ _ x _; apply Hd]).
  split; try done.
  - apply (inv_frame sb Hsb s s' P zero zero A1 Hc (f_inodes _ _ _ _ Hf)); [intros k b _ _ x _; apply Hd|intros x; rewrite Hd; apply A1|rewrite Hh; apply A1|].
    destruct (v_counted _ _ _ _ A1) as [C1 C2 C3]. split; rewrite Hr; try done.
    intros b Hb. rewrite <-C3 by done. rewrite (bit_data sb Hsb b s); done.
  - eapply touches_trans; [exact A2|]. exact (touches_frame sb ip _ _ _ Hf).
  - intros k b Hk x Hx'. rewrite Hd. by apply (A6 k b).
Qed.

(** A new, empty double indirect block. *)
Lemma clone_dind s P D : cloning s P D → D PDind = false →
  match balloc sb s with
  | None => nfree sb s = 0
  | Some (nd, s1) => let s' := set_addr ip (NDIRECT + 1) nd s1 in let P' := <[(dst, PDind) := nd]> P in
      cloning (s' <| dsk := memset (nd * BSIZE) 0 BSIZE (dsk s') |>) P' (λ p, bool_decide (p = PDind) || D p) ∧
      nfree sb s - 1 ≤ nfree sb s'
  end.
Proof using Hsb Ho Hempty.
  intros Hc HD. pose proof (cl_inv _ _ _ Hc) as Hi. pose proof (v_linked _ _ _ _ Hi) as Hl.
  pose proof (touches_owns _ _ _ _ ip dst (cl_touch _ _ _ Hc) Ho) as Hos1.
  pose proof (alloc_at_spec sb Hsb ip dst PDind (LAddr ip (NDIRECT + 1)) s P zero Hi ltac:(done) Hos1 I eq_refl (cl_meta _ _ _ Hc PDind eq_refl HD)) as Ha.
  destruct (balloc sb s) as [[nd s1]|]; [|done]. cbn zeta. cbn [write_loc] in Ha.
  destruct Ha as (Hi1 & Ht1 & Hd & Hfresh & Hz & Hblk1 & Hfree1). set (s' := set_addr ip (NDIRECT + 1) nd s1) in *.
  split; [|done]. apply (cloning_same s'); try done.
  - split.
    + done.
    + eapply touches_trans; [apply Hc|done].
    + intros n p Hn. rewrite lookup_insert_ne by congruence. by apply (cl_other _ _ _ Hc).
    + intros bn. rewrite lookup_insert_ne by congruence. cbn. apply (cl_data _ _ _ Hc).
    + intros p Hp HDp. bool_facts. rewrite lookup_insert_ne by congruence. by apply (cl_meta _ _ _ Hc).
    + intros k b Hk x Hx. assert (k.1 ≠ dst) as Hkd by (destruct k as [n p]; cbn; intros ->; by rewrite Hempty in Hk).
      assert (P !! k = Some b) as HPk by (destruct k as [n p]; by rewrite (cl_other _ _ _ Hc)).
      pose proof (dom_data sb s P k b Hl HPk) as Hbd. pose proof (in_data_pos sb Hsb b Hbd).
      rewrite (Hblk1 b Hbd); [by apply (cl_blocks _ _ _ Hc k b)|intros ->; by apply (Hfresh k)|cbn; lia|done].
  - intros x. cbn [dsk upd dsk_set]. destruct (decide (nd * BSIZE ≤ x < nd * BSIZE + BSIZE)) as [Hx|Hx].
    + rewrite memset_in by done. symmetry. by apply Hz.
    + by rewrite memset_out.
Qed.

Lemma clone_level1 s P D nd ad i : 0 ≤ i < NADDR_PER_BLOCK → cloning s P (level1_upto i D) →
  (∀ p, D p = true → is_meta p = true → p = PInd) → (∀ bn, D (PData bn) = true → bn < NDIRECT + NINDIRECT) →
  P !! (dst, PDind) = Some nd → P0 !! (src, PDind) = Some ad →
  match clone_block sb (LWord nd i) (LWord ad i) NADDR_PER_BLOCK s with
  | None => nfree sb s = 0
  | Some s' => ∃ P', cloning s' P' (level1_upto (i + 1) D) ∧ P' !! (dst, PDind) = Some nd ∧ nfree sb s - 1 ≤ nfree sb s'
  end.
Proof using Hsb Ho Hsrc Hdst Hne Hempty Hi0.
  intros Hi Hc HDm HDd Hnd Had. pose proof (v_linked _ _ _ _ (cl_inv _ _ _ Hc)) as Hl.
  assert (leaf_node (PL1 i)) as Hq by (split; [done|right; by exists i]).
  pose proof (clone_block_spec s P (level1_upto i D) (PL1 i) (LWord nd i) (LWord ad i) Hc Hq) as Hcn.
  match type of Hcn with _ → _ → _ → _ → ?C => assert C as Hres end.
  { apply Hcn; try done.
    - intros p Hp. destruct (leaf_child _ p Hq Hp) as (_ & _ & Hm & _). destruct p as [bn| | |k]; try done.
      unfold level1_upto. destruct (D (PData bn)) eqn:E.
      + apply HDd in E. revert Hp. cbn [parent]. rewrite (proj2 (Z.ltb_lt bn (NDIRECT + NINDIRECT)) E). destruct (bn <? NDIRECT); intros [=].
      + cbn [orb]. revert Hp. cbn [parent]. destruct (bn <? NDIRECT); [intros [=]|]. destruct (bn <? NDIRECT + NINDIRECT); [intros [=]|].
        intros [= <-]. by rewrite Z.ltb_irrefl, andb_false_r.
    - unfold level1_upto. rewrite Z.ltb_irrefl, orb_false_r. destruct (D (PL1 i)) eqn:E; [|done]. by specialize (HDm (PL1 i) E eq_refl).
    - unfold at_loc. cbn [parent index]. rewrite (ptr_lookup sb s P dst PDind Hl Hdst I), Hnd. cbn. split; [done|].
      pose proof (in_data_pos sb Hsb nd (dom_data sb s P _ nd Hl Hnd)). lia.
    - intros s1 P1 Hi1 _ Hot. pose proof (v_linked _ _ _ _ Hi1) as Hl1. rewrite <-Hot by done.
      rewrite <-(ptr_lookup sb s1 P1 src (PL1 i) Hl1 Hsrc Hi), ptr_unfold by done. cbn [parent index read_loc].
      rewrite (ptr_lookup sb s1 P1 src PDind Hl1 Hsrc I), Hot, Had by done. cbn. unfold word.
      by rewrite (proj2 (Z.eqb_neq _ _)) by (pose proof (in_data_pos sb Hsb ad (dom_data sb s0 P0 _ ad (v_linked _ _ _ _ Hi0) Had)); lia). }
  destruct (clone_block sb (LWord nd i) (LWord ad i) NADDR_PER_BLOCK s) as [s'|]; [|done].
  destruct Hres as (P' & Hc' & Hf & Hk). exists P'. split_and!; [|by rewrite Hk|done].
  apply (cloning_ext s' P' _ _ Hc'), level1_step.
Qed.

(** The blocks that the pointers of the copy need. *)
Definition clone_cost : Z := 2 + NADDR_PER_BLOCK.

Lemma clone_directs : ∃ s1 P1, for_each (range 0 NDIRECT) (clone_addr sb sip ip) s0 = Some s1 ∧
  cloning s1 P1 (directs_upto NDIRECT) ∧ nfree sb s0 ≤ nfree sb s1.
Proof using Hsb Ho Hos Hsrc Hdst Hne Hempty Hi0.
  destruct (foldl_range (clone_addr sb sip ip)
    (λ i s, ∃ P, cloning s P (directs_upto i) ∧ nfree sb s0 ≤ nfree sb s) 0 NDIRECT s0) as (s1 & Hs1 & P1 & Hc1 & Hf1).
  - exists P0. split; [|done]. apply (cloning_absent s0 P0 (λ _, false) _ (cloning_start Hi0)); [done|].
    intros bn _ Hb. cbn in Hb. destruct (P0 !! (src, PData bn)) as [b|] eqn:E; [|done].
    apply (l_dom sb s0 P0 (v_linked _ _ _ _ Hi0)) in E as (_ & Hv & _). cbn in Hv. lia.
  - intros i s Hi (P & Hc & Hf). destruct (clone_direct s P i Hi Hc) as (s' & P' & Hs' & Hc' & Hf').
    exists s'. split; [done|]. exists P'. split; [done|lia].
  - by exists s1, P1.
Qed.

Lemma clone_ind s P : cloning s P (directs_upto NDIRECT) →
  match clone_block sb (LAddr ip NDIRECT) (LAddr sip NDIRECT) NINDIRECT s with
  | None => nfree sb s = 0
  | Some s' => ∃ P', cloning s' P' (with_node PInd (directs_upto NDIRECT)) ∧ nfree sb s - 1 ≤ nfree sb s'
  end.
Proof using Hsb Ho Hos Hsrc Hdst Hne Hempty Hi0.
  intros Hc. assert (leaf_node PInd) as Hq by (split; [done|by left]).
  assert (∀ p, parent p = Some PInd → directs_upto NDIRECT p = false) as Hch.
  { intros p Hp. destruct p as [bn| | |k]; try done. cbn [parent directs_upto] in *. by destruct (bn <? NDIRECT). }
  pose proof (clone_block_spec s P (directs_upto NDIRECT) PInd (LAddr ip NDIRECT) (LAddr sip NDIRECT) Hc Hq Hch eq_refl eq_refl) as Hres.
  specialize (Hres (λ s1 P1 Hi1 Ht1 Hot, src_addr s1 P1 PInd Hi1 Ht1 Hot I eq_refl)).
  change NINDIRECT with NADDR_PER_BLOCK. destruct (clone_block sb _ _ _ s) as [s'|]; [|done].
  destruct Hres as (P' & Hc' & Hf & _). by exists P'.
Qed.

Lemma clone_dindirect_spec s P D : cloning s P D → D PDind = false →
  (∀ p, D p = true → is_meta p = true → p = PInd) → (∀ bn, D (PData bn) = true → bn < NDIRECT + NINDIRECT) →
  match clone_dindirect sb sip ip s with
  | None => nfree sb s < 1 + NADDR_PER_BLOCK
  | Some s' => ∃ P', cloning s' P' (level1_upto NADDR_PER_BLOCK D)
  end.
Proof using Hsb Ho Hos Hsrc Hdst Hne Hempty Hi0.
  intros Hc HD0 HDm HDd. unfold clone_dindirect.
  assert (∀ s P, inv s P zero → touches sb ip s0 s → (∀ n p, n ≠ dst → P !! (n, p) = P0 !! (n, p)) →
    get_addr sip (NDIRECT + 1) s = default 0 (P0 !! (src, PDind))) as Hga.
  { intros s1 P1 Hi Ht Hot. by apply (src_addr s1 P1 PDind). }
  rewrite (Hga s P (cl_inv _ _ _ Hc) (cl_touch _ _ _ Hc) (cl_other _ _ _ Hc)).
  destruct (P0 !! (src, PDind)) as [ad|] eqn:Ead; cbn [default from_option id].
  2: { exists P. apply (cloning_absent s P D _ Hc).
       - intros p Hp. unfold level1_upto. by rewrite Hp.
       - intros bn HD. unfold level1_upto. rewrite HD. cbn [orb]. intros Hb. bool_facts.
         assert (valid_pos (PData bn)) as Hv by (cbn; layout_lia).
         assert (parent (PData bn) = Some (PL1 ((bn - NDIRECT - NINDIRECT) / NADDR_PER_BLOCK))) as Ep.
         { cbn [parent]. rewrite !(proj2 (Z.ltb_ge bn _)) by layout_lia. done. }
         apply (absent_below _ _ Hv Ep). destruct (parent_valid _ _ Hv Ep) as [Hvk _].
         by apply (absent_below PDind). }
  rewrite (proj2 (Z.eqb_neq _ _)) by (pose proof (in_data_pos sb Hsb ad (dom_data sb s0 P0 _ ad (v_linked _ _ _ _ Hi0) Ead)); lia).
  pose proof (clone_dind s P D Hc HD0) as H3.
  destruct (balloc sb s) as [[nd s3']|]; cbn [mbind option_bind]; [|change NADDR_PER_BLOCK with 256; lia].
  cbn zeta in H3. destruct H3 as [Hc3 Hf3]. set (s3 := set_addr ip (NDIRECT + 1) nd s3') in *.
  set (s4 := s3 <| dsk := memset (nd * BSIZE) 0 BSIZE (dsk s3) |>) in *.
  assert (get_addr sip (NDIRECT + 1) s3 = ad) as ->.
  { change (get_addr sip (NDIRECT + 1) s3) with (get_addr sip (NDIRECT + 1) s4).
    by rewrite (Hga s4 _ (cl_inv _ _ _ Hc3) (cl_touch _ _ _ Hc3) (cl_other _ _ _ Hc3)). }
  pose proof (foldl_range_opt (λ i, clone_block sb (LWord nd i) (LWord ad i) NADDR_PER_BLOCK)
    (λ i s', ∃ P, cloning s' P (level1_upto i D) ∧ P !! (dst, PDind) = Some nd ∧ nfree sb s - 1 - i ≤ nfree sb s')
    (nfree sb s < 1 + NADDR_PER_BLOCK) 0 NADDR_PER_BLOCK s4) as Hloop.
  match type of Hloop with _ → _ → ?C => assert C as Hres end.
  { apply Hloop.
    - eexists. split_and!; [|apply lookup_insert_eq|change (nfree sb s4) with (nfree sb s3); lia].
      apply (cloning_absent s4 _ _ _ Hc3).
      + intros p. unfold level1_upto. destruct (D p); [done|]. rewrite orb_false_r. by intros ->%bool_decide_eq_true.
      + intros bn HD Hb. exfalso. unfold level1_upto in Hb. rewrite bool_decide_false in HD by done. cbn in HD. rewrite HD in Hb.
        cbn [orb] in Hb. bool_facts. assert (0 ≤ (bn - NDIRECT - NINDIRECT) / NADDR_PER_BLOCK); [apply Z.div_pos; [lia|done]|lia].
    - intros i s' Hi (P' & Hc' & Hnd & Hf). pose proof (clone_level1 s' P' D nd ad i Hi Hc' HDm HDd Hnd Ead) as Hs.
      destruct (clone_block sb (LWord nd i) (LWord ad i) NADDR_PER_BLOCK s') as [s''|]; [|lia].
      destruct Hs as (P'' & ? & ? & ?). exists P''. split_and!; [done|done|lia]. }
  clear Hloop. revert Hres. unfold for_each.
  match goal with |- match ?t with _ => _ end → _ => destruct t as [s5|] end; cbn [mbind option_bind]; [|done].
  intros (P5 & Hc5 & _). exists P5.
  destruct (log_write_fields nd s5) as (L1 & L2 & L3 & L4 & L5). apply (cloning_same s5); try done. intros x. by rewrite L1.
Qed.

Lemma clone_tree_spec : match clone_tree sb sip ip s0 with
  | None => nfree sb s0 < clone_cost
  | Some s' => ∃ P' D, cloning s' P' D ∧ ∀ p, valid_pos p → is_meta p = false → D p = true
  end.
Proof using Hsb Ho Hos Hsrc Hdst Hne Hempty Hi0.
  unfold clone_tree. destruct clone_directs as (s1 & P1 & -> & Hc1 & Hf1). cbn [mbind option_bind].
  pose proof (clone_ind s1 P1 Hc1) as H2.
  destruct (clone_block sb _ _ _ s1) as [s2|]; cbn [mbind option_bind].
  2: { unfold clone_cost. change NADDR_PER_BLOCK with 256. lia. }
  destruct H2 as (P2 & Hc2 & Hf2). set (D := with_node PInd (directs_upto NDIRECT)) in *.
  pose proof (clone_dindirect_spec s2 P2 D Hc2 ltac:(done)) as H3.
  match type of H3 with _ → _ → ?C => assert C as Hres end.
  { apply H3.
    - intros p HD Hp. unfold D, with_node in HD. destruct p as [bn| | |k]; try done; cbn in HD; try done.
    - intros bn HD. unfold D, with_node, directs_upto in HD. cbn [parent] in HD.
      destruct (Z.ltb_spec bn NDIRECT); [layout_lia|]. destruct (Z.ltb_spec bn (NDIRECT + NINDIRECT)); [done|].
      rewrite !bool_decide_false in HD by congruence. done. }
  destruct (clone_dindirect sb sip ip s2) as [s'|]; [|unfold clone_cost; lia].
  destruct Hres as (P' & Hc'). exists P', (level1_upto NADDR_PER_BLOCK D). split; [done|].
  intros p Hp Hm. destruct p as [bn| | |k]; try done. unfold level1_upto, D, with_node, directs_upto. cbn [parent].
  destruct (Z.ltb_spec bn NDIRECT); [by rewrite !orb_true_r|]. destruct (Z.ltb_spec bn (NDIRECT + NINDIRECT)).
  - by rewrite (bool_decide_true (Some PInd = Some PInd)), ?orb_true_r by done.
  - rewrite (proj2 (Z.leb_le _ bn)) by lia. rewrite (proj2 (Z.ltb_lt _ NADDR_PER_BLOCK)); [by rewrite !orb_true_r|].
    cbn in Hp. revert Hp. layout_lia.
Qed.

End clone.
Lemma cloning_content ip src dst s0 s P0 P D : inv s0 P0 zero → inum_ok sb src → inum_ok sb dst →
  cloning ip src dst s0 P0 s P D → (∀ p, valid_pos p → is_meta p = false → D p = true) →
  ∀ n o, inum_ok sb n → off_ok o → content sb s n o = content sb s0 (if decide (n = dst) then src else n) o.
Proof.
  intros Hi0 Hsrc Hdst Hc Hall n o Hn Hoo. set (m := if decide (n = dst) then src else n).
  assert (inum_ok sb m) as Hm by (unfold m; by case_decide).
  pose proof (cl_inv _ _ _ _ _ _ _ _ Hc) as Hi.
  assert (P !! (n, PData (o / BSIZE)) = P0 !! (m, PData (o / BSIZE))) as HP.
  { unfold m. case_decide as E; [|by apply (cl_other _ _ _ _ _ _ _ _ Hc)]. subst n.
    rewrite (cl_data _ _ _ _ _ _ _ _ Hc). by rewrite Hall. }
  destruct (P0 !! (m, PData (o / BSIZE))) as [b|] eqn:Eb.
  - rewrite (content_byte sb Hsb s P zero n o b Hi Hn Hoo HP), (content_byte sb Hsb s0 P0 zero m o b Hi0 Hm Hoo Eb).
    apply (cl_blocks _ _ _ _ _ _ _ _ Hc _ b Eb), block_byte_in.
  - by rewrite (content_hole sb s P zero n o Hi Hn Hoo HP), (content_hole sb s0 P0 zero m o Hi0 Hm Hoo Eb).
Qed.

Lemma din_set_ne ip k f s : k ≠ ip → din k (set_din ip f s) = din k s.
Proof. intros Hk. unfold din, inode_at, set_din. by rewrite !list_lookup_total_alt, set_inode_lookup, decide_False. Qed.

Lemma owns_ne s k ip m n : owns s k m → owns s ip n → m ≠ n → k ≠ ip.
Proof. intros (i & Hi & _ & _ & <-) (i' & Hi' & _ & _ & <-) Hne ->. congruence. Qed.

(** The inode of a copy. *)
Definition copy_dinode (d d' : dinode) : dinode := d' <| d_mode := d_mode d |> <| d_size := d_size d |>.

Lemma iclone_spec sip dip src dst s P : inv s P zero → owns s sip src → owns s dip dst → src ≠ dst →
  (∀ p, P !! (dst, p) = None) →
  match iclone sb sip dip s with
  | None => nfree sb s < clone_cost
  | Some (r, s') =>
      if (d_type (din sip s) =? T_FILE) && (d_type (din dip s) =? T_FILE) then
        r = 0 ∧ ∃ d, acts sb dip dst s s' d (content sb s src) ∧
          same_meta (copy_dinode (din sip s) (din dip s)) d ∧ d_size d = d_size (din sip s)
      else r = -1 ∧ s' = s
  end.
Proof.
  intros Hi Hos Hod Hne Hempty. pose proof (v_cache _ _ _ _ Hi) as Hc.
  pose proof (owns_inum sb s sip src Hc Hos) as Hsrc. pose proof (owns_inum sb s dip dst Hc Hod) as Hdst.
  pose proof (owns_ne s sip dip src dst Hos Hod Hne) as Hip.
  pose proof (owns_dinode sb s sip src Hc Hos) as Hoks. unfold iclone.
  destruct (d_type (din sip s) =? T_FILE); cbn [negb orb andb]; [|done].
  destruct (d_type (din dip s) =? T_FILE); cbn [negb orb andb]; [|done].
  set (f1 := λ d, d <| d_mode := d_mode (din sip s) |>). set (s1 := set_din dip f1 s).
  assert (din sip s1 = din sip s) as Es by (by apply din_set_ne). rewrite Es.
  set (f2 := λ d, d <| d_size := d_size (din sip s) |>). set (s2 := set_din dip f2 s1).
  destruct (inv_set_din sb Hsb dip dst f1 s P zero Hi Hod) as [Hi1 Hsf1]; [|done|].
  { intros [? ? ? ? ? ? ? ?]. split; try done. apply Hoks. }
  assert (owns s1 dip dst) as Hod1 by (by apply owns_set_din).
  destruct (inv_set_din sb Hsb dip dst f2 s1 P zero Hi1 Hod1) as [Hi2 Hsf2]; [|done|].
  { intros [? ? ? ? ? ? ? ?]. split; try done. apply Hoks. }
  assert (owns s2 dip dst ∧ owns s2 sip src) as [Hod2 Hos2] by (split; by repeat apply owns_set_din).
  pose proof (clone_tree_spec dip src dst s2 P Hod2 Hsrc Hdst Hne Hempty sip Hos2 Hi2) as Hct.
  destruct (clone_tree sb sip dip s2) as [s3|]; cbn [mbind option_bind]; [|exact Hct].
  destruct Hct as (P3 & D & Hcl & Hall). split; [done|].
  pose proof (cl_touch _ _ _ _ _ _ _ _ Hcl) as Ht. destruct (touches_din _ _ _ _ _ Ht Hod2) as (a & Hd3 & _).
  destruct (finish_spec sb Hsb dip dst (λ d, d) s2 s3 P3 (cl_inv _ _ _ _ _ _ _ _ Hcl) Hod2 Ht) as (A1 & A2 & A3 & _); try done.
  rewrite set_din_id in A1, A2, A3. exists (din dip s3).
  assert (din dip s2 = copy_dinode (din sip s) (din dip s)) as Ed.
  { unfold s2, s1. rewrite (din_set dip f2 _ dst) by done. by rewrite (din_set dip f1 _ dst). }
  split_and!; [split_and!; [by eexists|by eapply saves_set_din, saves_set_din|]| |].
  - intros n o Hn Hoo. rewrite A3 by done. rewrite (cloning_content _ _ _ _ _ _ _ _ Hi2 Hsrc Hdst Hcl Hall) by done.
    rewrite Hsf2, Hsf1 by (try case_decide; done). by case_decide.
  - by rewrite Hd3, Ed.
  - by rewrite Hd3, Ed.
Qed.

End share.
