(* ===== verification/FsRange.v ===== *)
(** * Preallocation, shared ranges and deduplication

    falloc(), iclone_range() and idedup(). *)

From stdpp Require Import list_numbers gmap.
From S2P Require Import Prelude Mem Xattr Fs FsInv FsFile FsNode FsIO FsFree FsOps FsShare.

Section range.
Context (sb : superblock) (Hsb : sb_wf sb).

Abbreviation inv := (inv sb).

(** No data block that a file has is written. *)
Definition same_data (P : ptrs) (s s' : fs) : Prop :=
  ∀ k b, P !! k = Some b → is_meta k.2 = false → same_block b s s'.

Lemma same_data_frame P s s' : linked sb s P → frame sb s s' no_block → same_data P s s'.
Proof. intros Hl Hf k b Hk _. apply (f_block _ _ _ _ Hf b); [by eapply dom_data|by intros []]. Qed.

Lemma same_data_trans P P' s1 s2 s3 : (∀ k b, P !! k = Some b → is_meta k.2 = false → ∃ k', P' !! k' = Some b ∧ is_meta k'.2 = false) →
  same_data P s1 s2 → same_data P' s2 s3 → same_data P s1 s3.
Proof.
  intros Hsub H1 H2 k b Hk Hm x Hx. destruct (Hsub k b Hk Hm) as (k' & Hk' & Hm').
  by rewrite (H2 k' b Hk' Hm'), (H1 k b Hk Hm).
Qed.

(** The block of a pointer that lies in a pointer block is no data block. *)
Lemma loc_block_data s P e ip inum p l k b : inv s P e → owns s ip inum → valid_pos p → at_loc sb s ip inum p l →
  P !! k = Some b → is_meta k.2 = false → b ≠ loc_block l.
Proof.
  intros Hi Ho Hv Hat Hk Hm. pose proof (v_linked _ _ _ _ Hi) as Hl.
  destruct (loc_block_cases sb s P e ip inum p l Hi Ho Hv Hat) as [->|(q & _ & HPq & Hmq)].
  - pose proof (in_data_pos sb Hsb b (dom_data sb s P _ b Hl Hk)). lia.
  - intros ->. pose proof (l_meta sb s P Hl _ _ _ HPq Hk Hmq) as <-. cbn in Hm. congruence.
Qed.

(** ** bmap_set_existing() *)

(** The pointer of block [bn] has a place. *)
Definition has_place (P : ptrs) (inum bn : Z) : Prop := ∀ q, parent (PData bn) = Some q → P !! (inum, q) ≠ None.

Lemma set_existing_loc s P e ip inum bn v : inv s P e → owns s ip inum → 0 ≤ bn < MAXFILE → has_place P inum bn →
  ∃ l r s', bmap_set_existing ip bn v s = (r, s') ∧ at_loc sb s ip inum (PData bn) l ∧ 0 ≤ r ∧
    (s' = write_loc l v s ∨ ∃ b, s' = log_write b (write_loc l v s)) ∧ (r ≠ 1 → icache s' = icache s).
Proof.
  intros Hi Ho Hbn Hpl. pose proof (v_cache _ _ _ _ Hi) as Hc. pose proof (v_linked _ _ _ _ Hi) as Hl.
  pose proof (owns_inum sb s ip inum Hc Ho) as Hn. assert (valid_pos (PData bn)) as Hv by done.
  assert (∀ q b, valid_pos q → P !! (inum, q) = Some b → (b =? 0) = false ∧ ptr sb s inum q = b) as Hb.
  { intros q b Hq HP. pose proof (in_data_pos sb Hsb b (dom_data sb s P _ b Hl HP)).
    rewrite (ptr_lookup sb s P inum q Hl Hn Hq), HP. split; [lia|done]. }
  assert (∀ p, valid_pos p → parent p = None → get_addr ip (index p) s = default 0 (P !! (inum, p))) as Hga.
  { intros p Hp Hr. rewrite <-(ptr_lookup sb s P inum p Hl Hn Hp), ptr_unfold, Hr by done. unfold faddr, get_addr.
    by rewrite (dnode_owns sb s ip inum). }
  unfold bmap_set_existing, has_place in *. cbn [parent] in Hpl. unfold at_loc. cbn [parent index].
  destruct (Z.ltb_spec bn NDIRECT) as [Hd|Hd].
  { exists (LAddr ip bn), 1, (set_addr ip bn v s). split_and!; try done. by left. }
  destruct (Z.ltb_spec bn (NDIRECT + NINDIRECT)) as [Hs|Hs].
  { rewrite (proj2 (Z.ltb_lt (bn - NDIRECT) NINDIRECT)) by lia.
    destruct (P !! (inum, PInd)) as [b|] eqn:Eb; [|by destruct (Hpl PInd eq_refl)].
    destruct (Hb PInd b I Eb) as [Eb0 Ep]. rewrite (Hga PInd I eq_refl : get_addr ip NDIRECT s = _), Eb. cbn [default from_option id].
    rewrite Eb0, Ep. exists (LWord b (bn - NDIRECT)). eexists _, _. split_and!; [done|done|lia|lia|right; by exists b|].
    intros _. by rewrite log_icache. }
  rewrite (proj2 (Z.ltb_ge (bn - NDIRECT) NINDIRECT)) by lia.
  rewrite (proj2 (Z.ltb_lt (bn - NDIRECT - NINDIRECT) NDINDIRECT)) by (unfold MAXFILE in Hbn; lia).
  set (k2 := (bn - NDIRECT - NINDIRECT) / NADDR_PER_BLOCK) in *.
  assert (valid_pos (PL1 k2)) as Hv2 by (cbn; unfold k2; layout_lia).
  destruct (P !! (inum, PL1 k2)) as [l1|] eqn:El; [|by destruct (Hpl (PL1 k2) eq_refl)].
  destruct (Hb (PL1 k2) l1 Hv2 El) as [El0 Epl].
  destruct (P !! (inum, PDind)) as [b|] eqn:Eb.
  2: { by rewrite (no_child sb s P inum PDind (PL1 k2) Hl Hn Hv2 eq_refl Eb) in El. }
  destruct (Hb PDind b I Eb) as [Eb0 Epd].
  rewrite (Hga PDind I eq_refl : get_addr ip (NDIRECT + 1) s = _), Eb. cbn [default from_option id].
  assert (get_word b k2 s = l1) as ->.
  { pose proof Epl as E. rewrite ptr_unfold in E by done. cbn [parent index] in E. rewrite Epd in E. unfold word in E. by rewrite Eb0 in E. }
  rewrite Eb0, El0, Epl. eexists (LWord l1 _), _, _. split_and!; [done|done|lia|lia|right; by exists l1|].
  intros _. by rewrite log_icache.
Qed.

Lemma log_if_props (o : option Z) s P e : inv s P e →
  let s' := match o with Some b => log_write b s | None => s end in
  inv s' P e ∧ frame sb s s' no_block ∧ brefs s' = brefs s.
Proof.
  intros Hi. destruct o as [b|]; [|split_and!; [done|apply frame_refl|done]].
  split_and!; [by apply inv_log|apply frame_log|apply log_write_fields].
Qed.

(** Making the pointer of a data block point to [v], a data block of some file, or to nothing. *)
Lemma repoint s P e ip inum bn v : inv s P e → owns s ip inum → 0 ≤ bn < MAXFILE → has_place P inum bn →
  (v = 0 ∨ ∃ k, P !! k = Some v ∧ is_meta k.2 = false) →
  ∃ r s', bmap_set_existing ip bn v s = (r, s') ∧ 0 ≤ r ∧ (r ≠ 1 → icache s' = icache s) ∧
    let P' := set_P P inum (PData bn) v in
    inv s' P' (λ x, e x + count x P - count x P') ∧ touches sb ip s s' ∧ same_data P s s' ∧ brefs s' = brefs s.
Proof.
  intros Hi Ho Hbn Hpl Hv. pose proof (v_linked _ _ _ _ Hi) as Hl.
  destruct (set_existing_loc s P e ip inum bn v Hi Ho Hbn Hpl) as (l & r & s' & Hs & Hat & Hr & Hs' & Hic).
  exists r, s'. split_and!; [done..|]. assert (valid_pos (PData bn)) as Hvp by done.
  assert (v ≠ 0 → in_data sb v) as Hvd by (intros Hv0; destruct Hv as [?|(k & Hk & _)]; [done|by eapply dom_data]).
  assert (0 ≤ v < 2 ^ 32) as Hvw.
  { destruct (decide (v = 0)) as [->|E]; [done|]. by apply (in_data_word sb Hsb v (Hvd E)). }
  assert (v ≠ 0 → ∀ k, P !! k = Some v → k ≠ (inum, PData bn) → is_meta k.2 = false ∧ is_meta (PData bn) = false) as Hex.
  { intros E k Hk _. split; [|done]. destruct Hv as [?|(k' & Hk' & Hm')]; [done|]. destruct (is_meta k.2) eqn:Em; [|done].
    pose proof (l_meta sb s P Hl k k' v Hk Hk' Em) as ->. congruence. }
  pose proof (inv_set_ptr sb Hsb s P e ip inum _ l v Hi Ho Hvp Hat (data_leaf inum bn P) Hvw Hvd Hex ltac:(done)) as Hi1.
  pose proof (write_loc_frame sb Hsb s P e ip inum _ l v Hi Ho Hvp Hat) as (F1 & F2 & F3 & F4 & F5 & F6).
  assert (∃ o, s' = match o with Some b => log_write b (write_loc l v s) | None => write_loc l v s end) as [o ->].
  { destruct Hs' as [->|[b ->]]; [by exists None|by exists (Some b)]. }
  destruct (log_if_props o _ _ _ Hi1) as (Hi2 & Hf2 & Hr2). split_and!; [done| | |by rewrite Hr2].
  - eapply touches_trans; [done|]. exact (touches_frame sb ip _ _ _ Hf2).
  - intros k b Hk Hm x Hx. pose proof (dom_data sb s P k b Hl Hk) as Hbd.
    rewrite (f_block _ _ _ _ Hf2 b Hbd (λ F, F) x Hx). apply (F5 b Hbd); [|done].
    by apply (loc_block_data s P e ip inum (PData bn) l k b).
Qed.

(** ** bmap_ensure() *)

Lemma balloc_icache s b s' : balloc sb s = Some (b, s') → icache s' = icache s.
Proof.
  assert (∀ x y, take_block sb x y s = Some (b, s') → icache s' = icache s) as Ht.
  { intros x y. unfold take_block, bref_inc. destruct (sb_size sb <=? x + y); [done|]. cbn [mbind option_bind].
    intros [= <- <-]. unfold bzero, add_ref. cbn. rewrite log_icache. cbn. by rewrite log_icache. }
  unfold balloc. destruct (scan_up _ _ _ _ _ s) as [[x y]|]; [apply Ht|]. case_match; [done|].
  destruct (scan_low _ _ _ _ s) as [[x y]|]; [apply Ht|done].
Qed.

(** Only pointer blocks of [inum] were added. *)
Record adds_meta (ip : nat) (inum : Z) (s s' : fs) (P P' : ptrs) (e : Z → Z) (cost : Z) : Prop := {
  am_inv : inv s' P' e;
  am_touch : touches sb ip s s';
  am_data : ∀ n p, n ≠ inum ∨ is_meta p = false → P' !! (n, p) = P !! (n, p);
  am_keep : ∀ k b, P !! k = Some b → P' !! k = Some b;
  am_blocks : same_data P s s';
  am_free : nfree sb s - cost ≤ nfree sb s';
}.

Lemma adds_meta_refl ip inum s P e : inv s P e → adds_meta ip inum s s P P e 0.
Proof. intros Hi. split; try done; [apply touches_refl|lia]. Qed.

Lemma adds_meta_trans ip inum s1 s2 s3 P1 P2 P3 e c1 c2 : adds_meta ip inum s1 s2 P1 P2 e c1 →
  adds_meta ip inum s2 s3 P2 P3 e c2 → adds_meta ip inum s1 s3 P1 P3 e (c1 + c2).
Proof.
  intros [A1 A2 A3 A4 A5 A6] [B1 B2 B3 B4 B5 B6]. split; [done|by eapply touches_trans| | | |lia].
  - intros n p H. by rewrite B3, A3.
  - intros k b H. by apply B4, A4.
  - eapply (same_data_trans P1 P2); [|done|done]. intros k b Hk Hm. exists k. split; [by apply A4|done].
Qed.

Lemma adds_meta_alloc ip inum p l s P e : inv s P e → (∀ x, 0 ≤ e x) → owns s ip inum → valid_pos p → is_meta p = true →
  at_loc sb s ip inum p l → P !! (inum, p) = None →
  match balloc sb s with
  | None => nfree sb s = 0
  | Some (b, s1) => adds_meta ip inum s (write_loc l b s1) P (<[(inum, p) := b]> P) e 1
  end.
Proof.
  intros Hi He Ho Hp Hm Hat HP. pose proof (alloc_at_spec sb Hsb ip inum p l s P e Hi He Ho Hp Hat HP) as Ha.
  destruct (balloc sb s) as [[b s1]|]; [|done]. destruct Ha as (A1 & A2 & A3 & A4 & A5 & A6 & A7).
  pose proof (v_linked _ _ _ _ Hi) as Hl. split; try done.
  - intros n q [Hn|Hq]; (rewrite lookup_insert_ne; [done|intros [= <- <-]]); [done|congruence].
  - intros k c Hk. rewrite lookup_insert_ne; [done|]. intros <-. congruence.
  - intros k c Hk Hmk. apply A6; [by eapply dom_data|intros ->; by apply (A4 k)|].
    by apply (loc_block_data s P e ip inum p l k c).
Qed.

Lemma adds_meta_log ip inum s s' P P' e c b : adds_meta ip inum s s' P P' e c → adds_meta ip inum s (log_write b s') P P' e c.
Proof.
  intros [A1 A2 A3 A4 A5 A6]. destruct (log_write_fields b s') as (L1 & L2 & _). split; try done.
  - by apply inv_log.
  - eapply touches_trans; [done|]. exact (touches_frame sb ip _ _ _ (frame_log sb b s' no_block)).
  - intros k x Hk Hm y Hy. rewrite L1. by apply (A5 k x).
  - by rewrite (nfree_eq sb s' (log_write b s')).
Qed.

Lemma addr_lookup s P e ip inum p : inv s P e → owns s ip inum → valid_pos p → parent p = None →
  get_addr ip (index p) s = default 0 (P !! (inum, p)).
Proof.
  intros Hi Ho Hp Hr. pose proof (v_cache _ _ _ _ Hi) as Hc. pose proof (owns_inum sb s ip inum Hc Ho) as Hn.
  rewrite <-(ptr_lookup sb s P inum p (v_linked _ _ _ _ Hi) Hn Hp), ptr_unfold, Hr by done. unfold faddr, get_addr.
  by rewrite (dnode_owns sb s ip inum).
Qed.

Lemma block_pos s P e k b : inv s P e → P !! k = Some b → (b =? 0) = false.
Proof. intros Hi Hk. pose proof (in_data_pos sb Hsb b (dom_data sb s P k b (v_linked _ _ _ _ Hi) Hk)). lia. Qed.

(** The root pointer block is there or is allocated. *)
Lemma ensure_root s P e ip inum p : inv s P e → (∀ x, 0 ≤ e x) → owns s ip inum → valid_pos p → is_meta p = true → parent p = None →
  match (if get_addr ip (index p) s =? 0 then '(b, s) ← balloc sb s; Some (1, set_addr ip (index p) b s) else Some (0, s)) with
  | None => nfree sb s = 0
  | Some (r, s') => 0 ≤ r ∧ ∃ P' b, adds_meta ip inum s s' P P' e 1 ∧ P' !! (inum, p) = Some b ∧ (r ≠ 1 → icache s' = icache s) ∧
      ∀ q, q ≠ p → P' !! (inum, q) = P !! (inum, q)
  end.
Proof.
  intros Hi He Ho Hp Hm Hr. rewrite (addr_lookup s P e ip inum p Hi Ho Hp Hr).
  destruct (P !! (inum, p)) as [b|] eqn:Eb; cbn [default from_option id].
  - rewrite (block_pos s P e _ b Hi Eb). split; [lia|]. exists P, b. split_and!; try done.
    destruct (adds_meta_refl ip inum s P e Hi) as [A1 A2 A3 A4 A5 A6]. split; try done. lia.
  - cbn. pose proof (adds_meta_alloc ip inum p (LAddr ip (index p)) s P e Hi He Ho Hp Hm) as Ha.
    unfold at_loc in Ha. rewrite Hr in Ha. specialize (Ha eq_refl Eb).
    destruct (balloc sb s) as [[b s1]|]; cbn [mbind option_bind]; [|done]. split; [lia|]. eexists _, b.
    split_and!; [exact Ha|apply lookup_insert_eq|lia|]. intros q Hq. by rewrite lookup_insert_ne by congruence.
Qed.

Lemma bmap_ensure_spec s P e ip inum bn : inv s P e → (∀ x, 0 ≤ e x) → owns s ip inum → 0 ≤ bn < MAXFILE →
  match bmap_ensure sb ip bn s with
  | None => nfree sb s < 2
  | Some (r, s') => 0 ≤ r ∧ (r ≠ 1 → icache s' = icache s) ∧
      ∃ P', adds_meta ip inum s s' P P' e 2 ∧ has_place P' inum bn
  end.
Proof.
  intros Hi He Ho Hbn. unfold bmap_ensure.
  assert (∀ s' P' c, adds_meta ip inum s s' P P' e c → c ≤ 2 → adds_meta ip inum s s' P P' e 2) as Hwk.
  { intros s' P' c [A1 A2 A3 A4 A5 A6] Hc. split; try done. lia. }
  destruct (Z.ltb_spec bn NDIRECT) as [Hd|Hd].
  { split_and!; [lia|done|]. exists P. split; [apply (Hwk s P 0); [by apply adds_meta_refl|lia]|].
    intros q. cbn [parent]. by rewrite (proj2 (Z.ltb_lt _ _) Hd). }
  destruct (Z.ltb_spec (bn - NDIRECT) NINDIRECT) as [Hs|Hs].
  { pose proof (ensure_root s P e ip inum PInd Hi He Ho I eq_refl eq_refl) as H1. cbn [index] in H1.
    match goal with |- match ?t with _ => _ end => destruct t as [[r s']|] end; [|lia].
    destruct H1 as (Hr & P' & b & Ham & HP & Hic & _). split_and!; [done|done|]. exists P'. split; [by apply (Hwk s' P' 1); [|lia]|].
    intros q. cbn [parent]. rewrite (proj2 (Z.ltb_ge _ _) Hd), (proj2 (Z.ltb_lt bn _)) by lia. intros [= <-]. by rewrite HP. }
  rewrite (proj2 (Z.ltb_lt (bn - NDIRECT - NINDIRECT) NDINDIRECT)) by (unfold MAXFILE in Hbn; lia).
  set (k2 := (bn - NDIRECT - NINDIRECT) / NADDR_PER_BLOCK).
  assert (valid_pos (PL1 k2)) as Hv2 by (cbn; unfold k2; layout_lia).
  assert (∀ P', P' !! (inum, PL1 k2) ≠ None → has_place P' inum bn) as Hplace.
  { intros P' H q. cbn [parent]. rewrite (proj2 (Z.ltb_ge _ _) Hd), (proj2 (Z.ltb_ge bn _)) by lia. by intros [= <-]. }
  pose proof (ensure_root s P e ip inum PDind Hi He Ho I eq_refl eq_refl) as H1. cbn [index] in H1.
  match goal with |- match mbind _ ?t with _ => _ end => destruct t as [[r s1]|] end; cbn [mbind option_bind]; [|lia].
  destruct H1 as (Hr & P1 & b2 & Ham1 & HP1 & Hic & _). pose proof (am_inv _ _ _ _ _ _ _ _ Ham1) as Hi1.
  pose proof (touches_owns _ _ _ _ ip inum (am_touch _ _ _ _ _ _ _ _ Ham1) Ho) as Ho1.
  pose proof (owns_inum sb s1 ip inum (v_cache _ _ _ _ Hi1) Ho1) as Hn. pose proof (v_linked _ _ _ _ Hi1) as Hl1.
  assert (get_addr ip (NDIRECT + 1) s1 = b2) as ->.
  { pose proof (addr_lookup s1 P1 e ip inum PDind Hi1 Ho1 I eq_refl) as Ea. by rewrite HP1 in Ea. }
  assert (ptr sb s1 inum PDind = b2) as Epd by (rewrite (ptr_lookup sb s1 P1), HP1 by done; done).
  pose proof (block_pos s1 P1 e _ b2 Hi1 HP1) as Hb0.
  assert (get_word b2 k2 s1 = default 0 (P1 !! (inum, PL1 k2))) as ->.
  { rewrite <-(ptr_lookup sb s1 P1 inum (PL1 k2) Hl1 Hn Hv2), ptr_unfold by done. cbn [parent index]. rewrite Epd. unfold word. by rewrite Hb0. }
  destruct (P1 !! (inum, PL1 k2)) as [b1|] eqn:Eb1; cbn [default from_option id].
  - rewrite (block_pos s1 P1 e _ b1 Hi1 Eb1). split_and!; [done|done|]. exists P1. split; [by apply (Hwk s1 P1 1); [|lia]|].
    apply Hplace. by rewrite Eb1.
  - cbn. pose proof (adds_meta_alloc ip inum (PL1 k2) (LWord b2 k2) s1 P1 e Hi1 He Ho1 Hv2 eq_refl) as Ha.
    unfold at_loc in Ha. cbn [parent index] in Ha. rewrite Epd in Ha.
    specialize (Ha ltac:(split; [done|lia]) Eb1). pose proof (balloc_icache s1) as Hbi. pose proof (am_free _ _ _ _ _ _ _ _ Ham1).
    destruct (balloc sb s1) as [[b s2]|]; cbn [mbind option_bind]; [|lia]. split_and!; [done| |].
    + intros Hr1. rewrite log_icache. change (icache (set_word b2 k2 b s2)) with (icache s2). rewrite (Hbi b s2 eq_refl). by apply Hic.
    + eexists. split; [apply (adds_meta_trans ip inum s s1 _ P P1 _ e 1 1 Ham1), adds_meta_log; exact Ha|].
      apply Hplace. by rewrite lookup_insert_eq.
Qed.

(** ** Sharing one block *)

(** The pointer of block [bn] of [inum] is [b] now; nothing else changed but pointer blocks of [inum]. *)
Record shares (ip : nat) (inum bn : Z) (b : option Z) (s s' : fs) (P P' : ptrs) (cost : Z) : Prop := {
  ss_inv : inv s' P' zero;
  ss_touch : touches sb ip s s';
  ss_data : ∀ n p, is_meta p = false → P' !! (n, p) = if decide ((n, p) = (inum, PData bn)) then b else P !! (n, p);
  ss_blocks : same_data P s s';
  ss_free : nfree sb s - cost ≤ nfree sb s';
}.

Lemma set_P_lookup (P : ptrs) n p v k : set_P P n p v !! k =
  if decide (k = (n, p)) then (if v =? 0 then None else Some v) else P !! k.
Proof.
  unfold set_P. destruct (v =? 0); case_decide as E; subst;
    [apply lookup_delete_eq|by apply lookup_delete_ne|apply lookup_insert_eq|by apply lookup_insert_ne].
Qed.

(** Drop the reference of the block that the pointer had. *)
Lemma bfree_old s P e old : inv s P e → (∀ x, e x = one old x) → in_data sb old → count old P + 1 < 2 ^ 31 →
  ∃ s', bfree sb old s = Some s' ∧ inv s' P zero ∧ frame sb s s' no_block ∧ nfree sb s ≤ nfree sb s'.
Proof.
  intros Hi He Hd Hc. destruct (bfree_spec sb Hsb old s P e Hi Hd) as (s' & Hs & Hi' & Hf & Hz).
  { rewrite He. unfold one. rewrite decide_True by done. pose proof (count_nonneg old P). lia. }
  exists s'. split_and!; [done| |done|by apply nfree_mono].
  apply (inv_ext sb s' P _ _ Hi'). intros x _. unfold plus, zero. rewrite He. lia.
Qed.

(** A reference of [v] is in hand. *)
Definition in_hand (v : Z) : Z → Z := λ x, if v =? 0 then 0 else one v x.

Lemma repoint_free s P ip inum bn v : inv s P (in_hand v) → owns s ip inum → 0 ≤ bn < MAXFILE → has_place P inum bn →
  (v = 0 ∨ ∃ k, P !! k = Some v ∧ is_meta k.2 = false) → v ≠ default 0 (P !! (inum, PData bn)) →
  ∃ r s1 s2, bmap_set_existing ip bn v s = (r, s1) ∧ 0 ≤ r ∧ (r ≠ 1 → icache s2 = icache s) ∧
    bfree_if sb (default 0 (P !! (inum, PData bn))) s1 = Some s2 ∧
    shares ip inum bn (if v =? 0 then None else Some v) s s2 P (set_P P inum (PData bn) v) 0.
Proof.
  intros Hi Ho Hbn Hpl Hv Hne. pose proof (v_linked _ _ _ _ Hi) as Hl.
  destruct (repoint s P _ ip inum bn v Hi Ho Hbn Hpl Hv) as (r & s1 & Hs & Hr & Hic & Hi1 & Ht1 & Hd1 & Hb1).
  cbn zeta in Hi1. set (P' := set_P P inum (PData bn) v) in *. pose proof (v_linked _ _ _ _ Hi1) as Hl1.
  assert (∀ s2, inv s2 P' zero → frame sb s1 s2 no_block → nfree sb s1 ≤ nfree sb s2 →
    shares ip inum bn (if v =? 0 then None else Some v) s s2 P P' 0) as Hend.
  { intros s2 Hi2 Hf2 Hn2. split.
    - done.
    - eapply touches_trans; [exact Ht1|]. exact (touches_frame sb ip _ _ _ Hf2).
    - intros n p _. apply set_P_lookup.
    - intros k b Hk Hm x Hx. rewrite (f_block _ _ _ _ Hf2 b); [by apply (Hd1 k b)|exact (dom_data sb s P k b Hl Hk)|by intros []|done].
    - rewrite (nfree_eq sb s s1 Hb1) in Hn2. lia. }
  destruct (P !! (inum, PData bn)) as [old|] eqn:Eo; cbn [default from_option id] in *.
  - pose proof (dom_data sb s P _ old Hl Eo) as Hod. assert (v ≠ old) as Hvo by done.
    assert (∀ x, count x P' = count x P - one old x + in_hand v x) as Hcnt.
    { intros x. unfold P', in_hand. destruct (Z.eqb_spec v 0) as [->|E].
      - rewrite (count_set_clear P inum (PData bn) old x Eo). lia.
      - by apply count_set_old. }
    destruct (bfree_old s1 P' _ old Hi1) as (s2 & Hs2 & Hi2 & Hf2 & Hn2); try done.
    { intros x. rewrite Hcnt. lia. }
    { rewrite Hcnt. unfold in_hand, one. rewrite !(decide_True (P := old = old)) by done.
      pose proof (count_bound sb s P old Hsb Hl). destruct (v =? 0); [lia|]. rewrite (decide_False (P := v = old)) by done. lia. }
    exists r, s1, s2. split_and!; [done|done| | |by apply Hend].
    + intros Hr1. rewrite (f_cache _ _ _ _ Hf2). by apply Hic.
    + unfold bfree_if. by rewrite (block_pos s P _ _ old Hi Eo).
  - exists r, s1, s1. split_and!; [done..|]. apply Hend; [|apply frame_refl|done].
    apply (inv_ext sb s1 P' _ _ Hi1). intros x _. unfold P', in_hand, zero. rewrite (proj2 (Z.eqb_neq v 0) Hne).
    rewrite count_set_new by done. lia.
Qed.

Lemma nalloc_lookup s P e ip inum bn : inv s P e → owns s ip inum → 0 ≤ bn < MAXFILE →
  bmap_nalloc ip bn s = default 0 (P !! (inum, PData bn)).
Proof.
  intros Hi Ho Hbn. pose proof (v_cache _ _ _ _ Hi) as Hc. pose proof (owns_inum sb s ip inum Hc Ho) as Hn.
  rewrite (bmap_nalloc_ptr sb s ip inum bn (dnode_owns sb s ip inum Hc Ho) Hbn). by apply (ptr_lookup sb s P); [apply Hi|..].
Qed.

Lemma bref_inc_hand s P k v : inv s P zero → P !! k = Some v →
  ∃ s', bref_inc sb v s = Some s' ∧ inv s' P (in_hand v) ∧ frame sb s s' no_block ∧ nfree sb s ≤ nfree sb s'.
Proof.
  intros Hi Hk. pose proof (v_linked _ _ _ _ Hi) as Hl. pose proof (dom_data sb s P k v Hl Hk) as Hd.
  pose proof (count_pos v k P Hk). pose proof (count_bound sb s P v Hsb Hl).
  pose proof (brefs_count sb s P v Hi Hd) as Hr.
  destruct (bref_inc_spec sb Hsb v s P zero Hi Hd ltac:(lia) ltac:(lia)) as (s' & Hs & Hi' & Hf). exists s'.
  split_and!; try done.
  - apply (inv_ext sb s' P _ _ Hi'). intros x _. unfold plus, zero, in_hand. rewrite (block_pos s P zero k v Hi Hk). lia.
  - apply nfree_mono. intros x Hx Hx0. pose proof (brefs_count sb s P x Hi Hx) as Hrx.
    rewrite (r_ref _ _ _ _ (v_counted _ _ _ _ Hi') x Hx). rewrite plus_ne by (intros ->; lia). unfold zero. lia.
Qed.

(** ** The turns *)

Lemma placed s P e inum bn b : inv s P e → inum_ok sb inum → 0 ≤ bn < MAXFILE → P !! (inum, PData bn) = Some b → has_place P inum bn.
Proof.
  intros Hi Hn Hbn HP q Hq HPq. pose proof (v_linked _ _ _ _ Hi) as Hl.
  by rewrite (no_child sb s P inum q (PData bn) Hl Hn Hbn Hq HPq) in HP.
Qed.

Lemma shares_refl ip inum bn s P : inv s P zero → shares ip inum bn (P !! (inum, PData bn)) s s P P 0.
Proof.
  intros Hi. split; try done; [apply touches_refl| |lia]. intros n p _. case_decide as E; [|done]. by injection E as -> ->.
Qed.

Lemma clone_turn_spec sip dip src dst sbn dbn u s P : inv s P zero → owns s sip src → owns s dip dst →
  0 ≤ sbn < MAXFILE → 0 ≤ dbn < MAXFILE →
  match clone_turn sb sip dip sbn dbn u s with
  | None => nfree sb s < 2
  | Some (r, s') => ∃ u' P', r = inl u' ∧ shares dip dst dbn (P !! (src, PData sbn)) s s' P P' 2 ∧
      (u' = false → u = false ∧ icache s' = icache s)
  end.
Proof.
  intros Hi Hos Hod Hsbn Hdbn. pose proof (v_cache _ _ _ _ Hi) as Hc. pose proof (owns_inum sb s dip dst Hc Hod) as Hnd.
  unfold clone_turn. rewrite (nalloc_lookup s P zero sip src sbn Hi Hos Hsbn), (nalloc_lookup s P zero dip dst dbn Hi Hod Hdbn).
  assert (∀ b s' P' c, shares dip dst dbn b s s' P P' c → c ≤ 2 → shares dip dst dbn b s s' P P' 2) as Hwk.
  { intros b s' P' c [A1 A2 A3 A4 A5] Hc'. split; try done. lia. }
  destruct (P !! (src, PData sbn)) as [sblk|] eqn:Es; cbn [default from_option id].
  2: { cbn. destruct (P !! (dst, PData dbn)) as [dblk|] eqn:Ed; cbn [default from_option id].
       - rewrite (block_pos s P zero _ dblk Hi Ed).
         destruct (repoint_free s P dip dst dbn 0) as (r & s1 & s2 & -> & Hr & Hic & Hs2 & Hsh); try done; [by eapply placed|by left| |].
         { rewrite Ed. cbn. pose proof (block_pos s P zero _ dblk Hi Ed). lia. }
         rewrite (proj2 (Z.ltb_ge _ _) Hr). rewrite Ed in Hs2. unfold bfree_if in Hs2. cbn [default from_option id] in Hs2.
         rewrite (block_pos s P zero _ dblk Hi Ed) in Hs2. rewrite Hs2. cbn [mbind option_bind].
         eexists _, _. split_and!; [done|by apply (Hwk _ _ _ 0 Hsh)|]. intros [-> Hr1]%orb_false_iff. split; [done|]. apply Hic. lia.
       - cbn. exists u, P. split_and!; [done| |done]. rewrite <-Ed. by apply (Hwk _ _ _ 0 (shares_refl dip dst dbn s P Hi)). }
  rewrite (block_pos s P zero _ sblk Hi Es). destruct (Z.eqb_spec (default 0 (P !! (dst, PData dbn))) sblk) as [Eq|Hneq].
  { exists u, P. split_and!; [done| |done]. destruct (P !! (dst, PData dbn)) as [dblk|] eqn:Ed; cbn in Eq; subst.
    - rewrite <-Ed. by apply (Hwk _ _ _ 0 (shares_refl dip dst dbn s P Hi)).
    - by pose proof (block_pos s P zero _ 0 Hi Es). }
  destruct (bref_inc_hand s P _ sblk Hi Es) as (s1 & -> & Hi1 & Hf1 & Hn1). cbn [mbind option_bind].
  pose proof (touches_owns _ _ _ _ dip dst (touches_frame sb dip _ _ _ Hf1) Hod) as Hod1.
  assert (∀ x, 0 ≤ in_hand sblk x) as Hpos by (intros x; unfold in_hand, one; repeat case_match; lia).
  pose proof (bmap_ensure_spec s1 P _ dip dst dbn Hi1 Hpos Hod1 Hdbn) as He.
  destruct (bmap_ensure sb dip dbn s1) as [[r s2]|]; cbn [mbind option_bind]; [|lia].
  destruct He as (Hr & Hic & P2 & Ham & Hpl). rewrite (proj2 (Z.ltb_ge _ _) Hr).
  pose proof (touches_owns _ _ _ _ dip dst (am_touch _ _ _ _ _ _ _ _ Ham) Hod1) as Hod2.
  pose proof (am_data _ _ _ _ _ _ _ _ Ham dst (PData dbn) (or_intror eq_refl)) as Ed2.
  destruct (repoint_free s2 P2 dip dst dbn sblk) as (r2 & s3 & s4 & -> & Hr2 & Hic2 & Hs4 & Hsh); try done.
  { apply Ham. }
  { right. exists (src, PData sbn). split; [|done]. by apply (am_keep _ _ _ _ _ _ _ _ Ham). }
  { rewrite Ed2. done. }
  rewrite (proj2 (Z.ltb_ge _ _) Hr2). rewrite Ed2 in Hs4. rewrite Hs4. cbn [mbind option_bind].
  rewrite (block_pos s P zero _ sblk Hi Es) in Hsh. destruct Hsh as [B1 B2 B3 B4 B5].
  eexists _, _. split_and!; [done| |].
  - split; [exact B1| | | |].
    + eapply touches_trans; [exact (touches_frame sb dip _ _ _ Hf1)|]. eapply touches_trans; [apply Ham|done].
    + intros n p Hp. rewrite B3 by done. case_decide; [done|]. by rewrite (am_data _ _ _ _ _ _ _ _ Ham) by (by right).
    + eapply (same_data_trans P P2); [|eapply (same_data_trans P P)|exact B4].
      * intros k b Hk Hm. exists k. split; [by apply (am_keep _ _ _ _ _ _ _ _ Ham)|done].
      * intros k b Hk Hm. by exists k.
      * apply same_data_frame; [apply Hi|done].
      * apply Ham.
    + pose proof (am_free _ _ _ _ _ _ _ _ Ham). lia.
  - intros [[-> Hr1]%orb_false_iff Hr3]%orb_false_iff. split; [done|].
    rewrite Hic2, Hic by lia. apply (f_cache _ _ _ _ Hf1).
Qed.

(** ** Whole operations *)

(** After the turns: the data pointers are [Q], all of which [P] had; [u] tells
    whether the inode changed. *)
Record shared (ip : nat) (s s' : fs) (P : ptrs) (Q : Z → pos → option Z) (u : bool) (cost : Z) : Prop := {
  sd_inv : ∃ P', inv s' P' zero ∧ same_data P' s s' ∧ ∀ n p, is_meta p = false → P' !! (n, p) = Q n p;
  sd_touch : touches sb ip s s';
  sd_free : nfree sb s - cost ≤ nfree sb s';
  sd_flag : u = false → icache s' = icache s;
}.

Lemma shared_step ip inum bn b s s1 s2 P P1 P2 Q Q' u u' c1 c2 :
  shared ip s s1 P Q u c1 → (∀ n p, is_meta p = false → P1 !! (n, p) = Q n p) → inv s1 P1 zero → same_data P1 s s1 →
  shares ip inum bn b s1 s2 P1 P2 c2 → (b ≠ None → ∃ k, P1 !! k = b ∧ is_meta k.2 = false) →
  (∀ n p, is_meta p = false → Q' n p = if decide ((n, p) = (inum, PData bn)) then b else Q n p) →
  (u' = false → u = false ∧ icache s2 = icache s1) → shared ip s s2 P Q' u' (c1 + c2).
Proof.
  intros [_ A2 A3 A4] HP1 Hi1 Hd1 [B1 B2 B3 B4 B5] Hb HQ Hu. split.
  - exists P2. split_and!; [done| |].
    + intros k x Hk Hm y Hy. destruct k as [n p]. rewrite B3 in Hk by done.
      assert (∃ k', P1 !! k' = Some x ∧ is_meta k'.2 = false) as (k' & Hk' & Hm').
      { case_decide; [|by exists (n, p)]. subst b. apply Hb. done. }
      by rewrite (B4 k' x Hk' Hm'), (Hd1 k' x Hk' Hm').
    + intros n p Hp. rewrite B3, HQ by done. case_decide; [done|]. by apply HP1.
  - by eapply touches_trans.
  - lia.
  - intros Hu'. destruct (Hu Hu') as [-> ->]. by apply A4.
Qed.

(** The contents, when the data pointer [(n, bn)] is the one that [m n bn] had. *)
Lemma shared_content ip s s' P Q u c (m : Z → Z → Z * Z) : inv s P zero → shared ip s s' P Q u c →
  (∀ n bn, inum_ok sb n → 0 ≤ bn < MAXFILE → Q n (PData bn) = P !! ((m n bn).1, PData (m n bn).2) ∧
     inum_ok sb (m n bn).1 ∧ 0 ≤ (m n bn).2 < MAXFILE) →
  ∀ n o, inum_ok sb n → off_ok o →
    content sb s' n o = content sb s (m n (o / BSIZE)).1 ((m n (o / BSIZE)).2 * BSIZE + o `mod` BSIZE).
Proof.
  intros Hi [(P' & Hi' & Hd & HQ) _ _ _] Hm n o Hn Hoo. destruct (Hm n (o / BSIZE) Hn Hoo) as (E & Hn' & Hb').
  destruct (m n (o / BSIZE)) as [n' b']. cbn [fst snd] in *. pose proof (Z.mod_pos_bound o BSIZE ltac:(done)) as Hmod.
  set (o' := b' * BSIZE + o `mod` BSIZE).
  assert (o' / BSIZE = b' ∧ o' `mod` BSIZE = o `mod` BSIZE) as [Ed Em].
  { unfold o', BSIZE in *. Z.to_euclidean_division_equations; lia. }
  assert (off_ok o') as Hoo' by (unfold off_ok; by rewrite Ed).
  assert (P' !! (n, PData (o / BSIZE)) = P !! (n', PData (o' / BSIZE))) as HP by (by rewrite HQ, E, Ed).
  destruct (P !! (n', PData (o' / BSIZE))) as [b|] eqn:Eb.
  - rewrite (content_byte sb Hsb s' P' zero n o b Hi' Hn Hoo HP), (content_byte sb Hsb s P zero n' o' b Hi Hn' Hoo' Eb), Em.
    apply (Hd _ b HP eq_refl), block_byte_in.
  - by rewrite (content_hole sb s' P' zero n o Hi' Hn Hoo HP), (content_hole sb s P zero n' o' Hi Hn' Hoo' Eb).
Qed.

(** The end of both operations: store a size, save the inode when it changed. *)
Lemma shared_finish ip inum s s1 P Q u c g grow C : inv s P zero → clean sb s → owns s ip inum → shared ip s s1 P Q u c →
  (∀ d, dinode_ok d → dinode_ok (g d)) → (∀ d, d_addrs (g d) = d_addrs d) → (∀ d, same_meta d (g d)) →
  (∀ n o, inum_ok sb n → off_ok o → content sb s1 n o = if decide (n = inum) then C o else content sb s n o) →
  let s2 := if grow : bool then set_din ip g s1 else s1 in
  ∃ d, acts sb ip inum s (if u || grow then iupdate sb ip s2 else s2) d C ∧ same_meta (din ip s) d ∧
    d_size d = if grow then d_size (g (din ip s1)) else d_size (din ip s).
Proof.
  intros Hi Hcl Ho [(P' & Hi' & _ & _) Ht _ Hu] G1 G2 G3 HC s2. destruct (touches_din _ _ _ _ _ Ht Ho) as (a & Hd & _).
  assert (∀ f, (∀ d, dinode_ok d → dinode_ok (f d)) → (∀ d, d_addrs (f d) = d_addrs d) → (∀ d, same_meta d (f d)) →
    acts sb ip inum s (iupdate sb ip (set_din ip f s1)) (f (din ip s1)) C ∧ same_meta (din ip s) (f (din ip s1))) as Hfin.
  { intros f F1 F2 F3. destruct (finish_spec sb Hsb ip inum f s s1 P' Hi' Ho Ht (F1 _) (F2 _)) as (A1 & A2 & A3 & _).
    split; [split_and!; [by eexists|done|]|].
    - intros n o Hn Hoo. rewrite A3 by done. by apply HC.
    - specialize (F3 (din ip s1)). unfold same_meta in *. rewrite Hd in *. exact F3. }
  unfold s2. destruct grow.
  - rewrite orb_true_r. destruct (Hfin g G1 G2 G3) as [A B]. by exists (g (din ip s1)).
  - rewrite orb_false_r. destruct u.
    + destruct (Hfin (λ d, d)) as [A B]; try done. rewrite set_din_id in A. exists (din ip s1). split_and!; [done|done|by rewrite Hd].
    + exists (din ip s). split_and!; [|done|done]. split_and!; [by eexists| |done].
      apply saves_same; try done; [apply Hi|by rewrite Hu|apply Ht|apply Ht].
Qed.

(** *** iclone_range() *)

Definition range_ptr (P : ptrs) (src dst sb0 db0 j n : Z) (p : pos) : option Z :=
  match p with
  | PData bn => if decide (n = dst ∧ db0 ≤ bn < db0 + j) then P !! (src, PData (sb0 + (bn - db0))) else P !! (n, p)
  | _ => P !! (n, p)
  end.

Lemma shared_start ip s P Q : inv s P zero → (∀ n p, is_meta p = false → Q n p = P !! (n, p)) → shared ip s s P Q false 0.
Proof.
  intros Hi HQ. split; [|apply touches_refl|lia|done]. exists P. split_and!; [done|done|]. intros n p Hp. by rewrite HQ.
Qed.

Lemma shared_ptrs ip s s' P Q u c : shared ip s s' P Q u c →
  ∃ P', inv s' P' zero ∧ same_data P' s s' ∧ ∀ n p, is_meta p = false → P' !! (n, p) = Q n p.
Proof. by intros []. Qed.

Lemma clone_loop sip dip src dst sb0 db0 nb s P : inv s P zero → owns s sip src → owns s dip dst → src ≠ dst →
  0 ≤ sb0 → 0 ≤ db0 → sb0 + nb ≤ MAXFILE → db0 + nb ≤ MAXFILE →
  match foldl (λ o bn, '(r, s) ← o;
          match r with
          | inl u => clone_turn sb sip dip (sb0 + bn) (db0 + bn) u s
          | inr tt => Some (inr tt, s)
          end) (Some (inl false, s)) (range 0 nb) with
  | None => nfree sb s < 2 * nb
  | Some (r, s') => ∃ u, r = inl u ∧ shared dip s s' P (range_ptr P src dst sb0 db0 (Z.max 0 nb)) u (2 * Z.max 0 nb)
  end.
Proof.
  intros Hi Hos Hod Hne Hs0 Hd0 Hs1 Hd1.
  pose proof (foldl_range_opt (λ bn (a : (bool + unit) * fs), let '(r, s) := a in
      match r with inl u => clone_turn sb sip dip (sb0 + bn) (db0 + bn) u s | inr tt => Some (inr tt, s) end)
    (λ j a, ∃ u, a.1 = inl u ∧ shared dip s a.2 P (range_ptr P src dst sb0 db0 j) u (2 * j))
    (nfree sb s < 2 * nb) 0 nb (inl false, s)) as Hloop.
  match type of Hloop with _ → _ → ?C => assert C as Hres end.
  { apply Hloop.
    - exists false. split; [done|]. apply shared_start; [done|]. intros n [bn| | |k] Hp; try done. cbn.
      by rewrite decide_False by lia.
    - intros j [r s1] Hj (u & Hr & Hsd). cbn [fst snd] in *. subst r.
      destruct (shared_ptrs _ _ _ _ _ _ _ Hsd) as (P1 & Hi1 & Hd & HQ). pose proof (sd_touch _ _ _ _ _ _ _ Hsd) as Ht.
      pose proof (touches_owns _ _ _ _ sip src Ht Hos) as Hos1. pose proof (touches_owns _ _ _ _ dip dst Ht Hod) as Hod1.
      pose proof (clone_turn_spec sip dip src dst (sb0 + j) (db0 + j) u s1 P1 Hi1 Hos1 Hod1 ltac:(lia) ltac:(lia)) as Hct.
      pose proof (sd_free _ _ _ _ _ _ _ Hsd) as Hfr.
      destruct (clone_turn sb sip dip (sb0 + j) (db0 + j) u s1) as [[r s2]|]; [|lia].
      destruct Hct as (u' & P2 & -> & Hsh & Hu). exists u'. split; [done|]. replace (2 * (j + 1)) with (2 * j + 2) by lia.
      eapply (shared_step dip dst (db0 + j) _ s s1 s2 P P1 P2); try done.
      + intros Hb. eexists (src, PData (sb0 + j)). done.
      + intros n [bn| | |k] Hp; try done. cbn [range_ptr].
        destruct (decide ((n, PData bn) = (dst, PData (db0 + j)))) as [[= -> ->]|Hn].
        * rewrite decide_True by lia. rewrite HQ by done. cbn [range_ptr].
          rewrite decide_False by (intros [? _]; done). by replace (db0 + j - db0) with j by lia.
        * rewrite (decide_ext _ (n = dst ∧ db0 ≤ bn < db0 + j)); [done|]. 
          assert (n = dst → bn ≠ db0 + j) by (intros -> ->; done). lia. }
  clear Hloop. revert Hres. match goal with |- match ?t with _ => _ end → match ?t' with _ => _ end => change t' with t; destruct t as [[r s']|] end; [|done].
  done.
Qed.

Lemma div_add_le a b : 0 ≤ a → 0 ≤ b → a / BSIZE + b / BSIZE ≤ (a + b) / BSIZE.
Proof. intros. unfold BSIZE. Z.to_euclidean_division_equations; lia. Qed.

Lemma same_dev s k ip m n : cache_ok sb s → owns s k m → owns s ip n → i_dev (inode_at k s) = i_dev (inode_at ip s).
Proof.
  intros Hc H1 H2.
  assert (∀ x y, owns s x y → i_dev (inode_at x s) = ROOTDEV) as H; [|by rewrite (H k m), (H ip n)].
  intros x y Hx. pose proof (owns_lookup _ _ _ Hx) as Hl. destruct Hx as (i & Hi & Hr & _).
  rewrite Hl in Hi. injection Hi as <-. by apply (c_entry sb s Hc x).
Qed.

Lemma iclone_range_spec sip dip src dst soff doff len s P : inv s P zero → clean sb s → owns s sip src → owns s dip dst →
  src ≠ dst → 0 ≤ soff → 0 ≤ doff → 0 ≤ len → soff + len ≤ MAXSIZE → doff + len ≤ MAXSIZE →
  let nb := len / BSIZE in let sb0 := soff / BSIZE in let db0 := doff / BSIZE in
  match iclone_range sb sip dip soff doff len s with
  | None => nfree sb s < 2 * nb
  | Some (r, s') =>
      if (d_type (din sip s) =? T_FILE) && (d_type (din dip s) =? T_FILE) then
        r = 0 ∧ ∃ d, same_meta (din dip s) d ∧ d_size d = Z.max (d_size (din dip s)) (doff + len) ∧
          acts sb dip dst s s' d (λ o, if (db0 <=? o / BSIZE) && (o / BSIZE <? db0 + nb)
            then content sb s src (o + (sb0 - db0) * BSIZE) else content sb s dst o)
      else r = -1 ∧ s' = s
  end.
Proof.
  intros Hi Hcl Hos Hod Hne Hso Hdo Hlen Hs1 Hd1 nb sb0 db0. pose proof (v_cache _ _ _ _ Hi) as Hc. pose proof MAXSIZE_value as HM.
  pose proof (owns_inum sb s sip src Hc Hos) as Hns. unfold iclone_range. rewrite (same_dev s sip dip src dst Hc Hos Hod), Z.eqb_refl.
  destruct (d_type (din sip s) =? T_FILE); cbn [negb orb andb]; [|done].
  destruct (d_type (din dip s) =? T_FILE); cbn [negb orb andb]; [|done]. fold nb sb0 db0.
  assert (0 ≤ sb0 ∧ 0 ≤ db0 ∧ 0 ≤ nb) as (Hs0 & Hd0 & Hn0) by (unfold sb0, db0, nb; split_and!; by apply Z.div_pos).
  assert (sb0 + nb ≤ MAXFILE ∧ db0 + nb ≤ MAXFILE) as [Hsn Hdn].
  { unfold sb0, db0, nb. split; (etrans; [by apply div_add_le|]; apply Z.div_le_upper_bound; [done|]; unfold MAXSIZE in *; lia). }
  pose proof (clone_loop sip dip src dst sb0 db0 nb s P Hi Hos Hod Hne Hs0 Hd0 Hsn Hdn) as Hl.
  match goal with |- match mbind _ ?t with _ => _ end => destruct t as [[r s1]|] end; cbn [mbind option_bind]; [|done].
  destruct Hl as (u & -> & Hsd). rewrite Z.max_r in Hsd by lia. rewrite u32_small by lia.
  split; [done|]. pose proof (sd_touch _ _ _ _ _ _ _ Hsd) as Ht. destruct (touches_din _ _ _ _ _ Ht Hod) as (a & Hd & _).
  assert (d_size (din dip s1) = d_size (din dip s)) as Esz by (by rewrite Hd). rewrite Esz.
  set (grow := d_size (din dip s) <? doff + len).
  destruct (shared_finish dip dst s s1 P _ u _ (λ d, d <| d_size := doff + len |>) grow (λ o, if (db0 <=? o / BSIZE) && (o / BSIZE <? db0 + nb)
            then content sb s src (o + (sb0 - db0) * BSIZE) else content sb s dst o) Hi Hcl Hod Hsd) as (d & A1 & A2 & A3); try done.
  { intros d Hok. apply dinode_ok_size; [done|]. lia. }
  { intros n o Hn Hoo. pose proof (Z.div_mod o BSIZE ltac:(done)) as Ediv.
    rewrite (shared_content dip s s1 P _ u _ (λ n bn, if decide (n = dst ∧ db0 ≤ bn < db0 + nb) then (src, sb0 + (bn - db0)) else (n, bn)) Hi Hsd);
      [|intros m bn Hm Hbn; cbn [range_ptr]; case_decide; cbn [fst snd]; split_and!; (done || lia)|done|done].
    destruct (decide (n = dst)) as [->|Hnd].
    - destruct (Z.leb_spec db0 (o / BSIZE)), (Z.ltb_spec (o / BSIZE) (db0 + nb)); cbn [andb];
        [rewrite decide_True by lia|rewrite decide_False by lia..]; cbn [fst snd]; f_equal; lia.
    - rewrite decide_False by (intros [? _]; done). cbn [fst snd]. f_equal. lia. }
  exists d. split_and!; [done| |exact A1]. rewrite A3. unfold grow. destruct (Z.ltb_spec (d_size (din dip s)) (doff + len)); cbn; lia.
Qed.

(** *** idedup() *)

Lemma blocks_equal_spec b c s : blocks_equal b c s = true ↔ ∀ i, 0 ≤ i < BSIZE → dsk s (b * BSIZE + i) = dsk s (c * BSIZE + i).
Proof.
  unfold blocks_equal. rewrite bool_decide_eq_true. split.
  - intros H i Hi. apply (f_equal (λ l, l !! Z.to_nat i)) in H. rewrite !load_bytes_lookup in H by lia.
    rewrite Z2Nat.id in H by lia. by injection H.
  - intros H. apply list_eq. intros i. destruct (decide (i < Z.to_nat BSIZE)%nat) as [Hi|Hi].
    + rewrite !load_bytes_lookup by done. f_equal. apply H. lia.
    + rewrite !lookup_ge_None_2; rewrite ?length_load_bytes; try done; lia.
Qed.

(** Block [bn] of two files holds the same bytes. *)
Definition same_content (s : fs) (m n bn : Z) : Prop :=
  ∀ i, 0 ≤ i < BSIZE → content sb s m (bn * BSIZE + i) = content sb s n (bn * BSIZE + i).

Lemma content_at s P e n bn b i : inv s P e → inum_ok sb n → 0 ≤ bn < MAXFILE → 0 ≤ i < BSIZE → P !! (n, PData bn) = Some b →
  content sb s n (bn * BSIZE + i) = dsk s (b * BSIZE + i).
Proof.
  intros Hi Hn Hbn Hir HP.
  assert ((bn * BSIZE + i) / BSIZE = bn ∧ (bn * BSIZE + i) `mod` BSIZE = i) as [E1 E2].
  { unfold BSIZE in *. Z.to_euclidean_division_equations; lia. }
  rewrite (content_byte sb Hsb s P e n _ b Hi Hn); rewrite ?E1, ?E2; done.
Qed.

Lemma dedup_turn_spec sip dip src dst bn u sh s P : inv s P zero → owns s sip src → owns s dip dst → 0 ≤ bn < MAXFILE →
  ∃ u' sh' s' P', dedup_turn sb sip dip bn u sh s = Some (inl (u', sh'), s') ∧
    inv s' P' zero ∧ touches sb dip s s' ∧ same_files sb s s' ∧ nfree sb s ≤ nfree sb s' ∧
    (u' = false → u = false ∧ icache s' = icache s) ∧ sh ≤ sh' ≤ sh + 1 ∧
    (∀ n p, is_meta p = false → (n, p) ≠ (dst, PData bn) → P' !! (n, p) = P !! (n, p)) ∧
    (P !! (dst, PData bn) = None ↔ P' !! (dst, PData bn) = None) ∧
    (is_Some (P !! (src, PData bn)) → is_Some (P !! (dst, PData bn)) → same_content s src dst bn →
      P' !! (dst, PData bn) = P !! (src, PData bn)).
Proof.
  intros Hi Hos Hod Hbn. pose proof (v_cache _ _ _ _ Hi) as Hc.
  pose proof (owns_inum sb s sip src Hc Hos) as Hns. pose proof (owns_inum sb s dip dst Hc Hod) as Hnd.
  unfold dedup_turn. rewrite (nalloc_lookup s P zero sip src bn Hi Hos Hbn), (nalloc_lookup s P zero dip dst bn Hi Hod Hbn).
  assert ((is_Some (P !! (src, PData bn)) → is_Some (P !! (dst, PData bn)) → same_content s src dst bn →
      P !! (dst, PData bn) = P !! (src, PData bn)) →
    ∃ u' sh' s' P', Some (inl (u, sh), s) = Some (inl (u', sh') : bool * Z + unit, s') ∧
    inv s' P' zero ∧ touches sb dip s s' ∧ same_files sb s s' ∧ nfree sb s ≤ nfree sb s' ∧
    (u' = false → u = false ∧ icache s' = icache s) ∧ sh ≤ sh' ≤ sh + 1 ∧
    (∀ n p, is_meta p = false → (n, p) ≠ (dst, PData bn) → P' !! (n, p) = P !! (n, p)) ∧
    (P !! (dst, PData bn) = None ↔ P' !! (dst, PData bn) = None) ∧
    (is_Some (P !! (src, PData bn)) → is_Some (P !! (dst, PData bn)) → same_content s src dst bn →
      P' !! (dst, PData bn) = P !! (src, PData bn))) as Hskip.
  { intros H. exists u, sh, s, P. split_and!; try done; [apply touches_refl|lia]. }
  destruct (P !! (src, PData bn)) as [sblk|] eqn:Es; cbn [default from_option id]; [|by apply Hskip; intros [? ?]].
  destruct (P !! (dst, PData bn)) as [dblk|] eqn:Ed; cbn [default from_option id].
  2: { cbn. rewrite orb_true_r. cbn. apply Hskip. by intros _ [? ?]. }
  rewrite (block_pos s P zero _ sblk Hi Es), (block_pos s P zero _ dblk Hi Ed). cbn [orb].
  destruct (Z.eqb_spec sblk dblk) as [->|Hne]; [by apply Hskip|].
  destruct (blocks_equal sblk dblk s) eqn:Eb; cbn [negb].
  2: { apply Hskip. intros _ _ Hsc. exfalso. rewrite <-not_true_iff_false in Eb. apply Eb, blocks_equal_spec. intros i Hir.
       rewrite <-(content_at s P zero src bn sblk i Hi Hns Hbn Hir Es), <-(content_at s P zero dst bn dblk i Hi Hnd Hbn Hir Ed). by apply Hsc. }
  destruct (bref_inc_hand s P _ sblk Hi Es) as (s1 & -> & Hi1 & Hf1 & Hn1). cbn [mbind option_bind].
  pose proof (touches_owns _ _ _ _ dip dst (touches_frame sb dip _ _ _ Hf1) Hod) as Hod1.
  destruct (repoint_free s1 P dip dst bn sblk) as (r & s2 & s3 & -> & Hr & Hic & Hs3 & Hsh); try done.
  { by eapply placed. }
  { right. by exists (src, PData bn). }
  { by rewrite Ed. }
  rewrite (proj2 (Z.ltb_ge _ _) Hr). rewrite Ed in Hs3. unfold bfree_if in Hs3. cbn [default from_option id] in Hs3.
  rewrite (block_pos s P zero _ dblk Hi Ed) in Hs3. rewrite Hs3. cbn [mbind option_bind].
  rewrite (block_pos s P zero _ sblk Hi Es) in Hsh. destruct Hsh as [B1 B2 B3 B4 B5].
  assert (same_data P s s3) as Hsd.
  { eapply (same_data_trans P P); [by intros k b; eauto|apply same_data_frame; [apply Hi|done]|done]. }
  eexists _, _, s3, _. split_and!; [done|exact B1| | |lia| |lia|lia| | |].
  - eapply touches_trans; [exact (touches_frame sb dip _ _ _ Hf1)|done].
  - intros n o Hn Hoo. destruct (decide ((n, PData (o / BSIZE)) = (dst, PData bn))) as [[= -> Eo]|Hno].
    + rewrite (content_byte sb Hsb s3 _ zero dst o sblk B1 Hn Hoo), (content_byte sb Hsb s P zero dst o dblk Hi Hn Hoo) by (rewrite ?B3, Eo, ?decide_True by done; done).
      rewrite (Hsd _ sblk Es eq_refl) by apply block_byte_in. apply blocks_equal_spec; [done|]. by apply Z.mod_pos_bound.
    + apply (content_keep sb Hsb s s3 P _ zero zero n o Hi B1 Hn Hoo); [rewrite B3 by done; by rewrite decide_False|].
      intros b Hb. by apply (Hsd _ b Hb).
  - intros [-> Hr1]%orb_false_iff. split; [done|]. rewrite Hic by lia. apply (f_cache _ _ _ _ Hf1).
  - intros n p Hp Hno. rewrite B3 by done. by rewrite decide_False.
  - rewrite B3, decide_True by done. done.
  - intros _ _ _. by rewrite B3, decide_True.
Qed.

Lemma dedup_loop sip dip src dst nb s P : inv s P zero → owns s sip src → owns s dip dst → src ≠ dst → nb ≤ MAXFILE →
  ∃ u sh s' P', foldl (λ o bn, '(r, s) ← o;
          match r with
          | inl (u, shared) => dedup_turn sb sip dip bn u shared s
          | inr tt => Some (inr tt, s)
          end) (Some (inl (false, 0), s)) (range 0 nb) = Some (inl (u, sh), s') ∧
    inv s' P' zero ∧ touches sb dip s s' ∧ same_files sb s s' ∧ nfree sb s ≤ nfree sb s' ∧
    (u = false → icache s' = icache s) ∧ 0 ≤ sh ≤ Z.max 0 nb ∧
    (∀ bn, P' !! (src, PData bn) = P !! (src, PData bn)) ∧
    (∀ bn, P !! (dst, PData bn) = None ↔ P' !! (dst, PData bn) = None) ∧
    (∀ bn, 0 ≤ bn < nb → is_Some (P !! (src, PData bn)) → is_Some (P !! (dst, PData bn)) → same_content s src dst bn →
      P' !! (dst, PData bn) = P !! (src, PData bn)).
Proof.
  intros Hi Hos Hod Hne Hnb.
  destruct (foldl_range (λ bn (a : (bool * Z + unit) * fs), let '(r, s) := a in
      match r with inl (u, shared) => dedup_turn sb sip dip bn u shared s | inr tt => Some (inr tt, s) end)
    (λ j a, ∃ u sh P', a.1 = inl (u, sh) ∧ inv a.2 P' zero ∧ touches sb dip s a.2 ∧ same_files sb s a.2 ∧ nfree sb s ≤ nfree sb a.2 ∧
      (u = false → icache a.2 = icache s) ∧ 0 ≤ sh ≤ j ∧
      (∀ bn, P' !! (src, PData bn) = P !! (src, PData bn)) ∧
      (∀ bn, P !! (dst, PData bn) = None ↔ P' !! (dst, PData bn) = None) ∧
      (∀ bn, 0 ≤ bn < j → is_Some (P !! (src, PData bn)) → is_Some (P !! (dst, PData bn)) → same_content s src dst bn →
        P' !! (dst, PData bn) = P !! (src, PData bn))) 0 nb (inl (false, 0), s))
    as ([r s'] & Hs & u & sh & P' & Er & A1 & A2 & A3 & A4 & A5 & A6 & A7 & A8 & A9).
  - exists false, 0, P. split_and!; try done; [apply touches_refl|]. intros bn Hb. lia.
  - intros j [r s1] Hj (u & sh & P1 & Er & A1 & A2 & A3 & A4 & A5 & A6 & A7 & A8 & A9). cbn [fst snd] in *. subst r.
    pose proof (touches_owns _ _ _ _ sip src A2 Hos) as Hos1. pose proof (touches_owns _ _ _ _ dip dst A2 Hod) as Hod1.
    pose proof (owns_inum sb s sip src (v_cache _ _ _ _ Hi) Hos) as Hns. pose proof (owns_inum sb s dip dst (v_cache _ _ _ _ Hi) Hod) as Hnd.
    destruct (dedup_turn_spec sip dip src dst j u sh s1 P1 A1 Hos1 Hod1 ltac:(lia))
      as (u' & sh' & s2 & P2 & Hs2 & B1 & B2 & B3 & B4 & B5 & B6 & B7 & B8 & B9).
    exists (inl (u', sh'), s2). split; [done|]. exists u', sh', P2. cbn [fst snd]. split_and!; try done; try lia.
    + by eapply touches_trans.
    + by eapply same_files_trans.
    + intros Hu'. destruct (B5 Hu') as [-> ->]. by apply A5.
    + intros bn. rewrite B7 by (done || congruence). apply A7.
    + intros bn. rewrite A8. destruct (decide (bn = j)) as [->|Hbn]; [done|]. by rewrite B7 by (done || congruence).
    + intros bn Hbn Hs Hd Hsc. destruct (decide (bn = j)) as [->|Hbj].
      * rewrite B9; [by apply A7|by rewrite A7| |].
        -- destruct (P1 !! (dst, PData j)) eqn:E; [done|]. apply A8 in E. rewrite E in Hd. by destruct Hd.
        -- intros i Hir. rewrite !A3; [by apply Hsc|done| |done|]; unfold off_ok;
             (replace ((j * BSIZE + i) / BSIZE) with j by (unfold BSIZE in *; Z.to_euclidean_division_equations; lia)); lia.
      * rewrite B7 by (done || congruence). apply A9; try done. lia.
  - cbn [fst snd] in *. subst r. exists u, sh, s', P'. split_and!; try done; try lia.
    intros bn Hbn. apply A9. lia.
Qed.

Lemma idedup_spec sip dip src dst s P : inv s P zero → clean sb s → owns s sip src → owns s dip dst → src ≠ dst →
  d_size (din sip s) ≤ MAXSIZE → d_size (din dip s) ≤ MAXSIZE →
  let nb := Z.min (nblocks (d_size (din sip s))) (nblocks (d_size (din dip s))) in
  ∃ r s', idedup sb sip dip s = Some (r, s') ∧
  if (d_type (din sip s) =? T_FILE) && (d_type (din dip s) =? T_FILE) then
    0 ≤ r ≤ nb ∧ nfree sb s ≤ nfree sb s' ∧
    (∃ d, acts sb dip dst s s' d (content sb s dst) ∧ same_meta (din dip s) d ∧ d_size d = d_size (din dip s)) ∧
    ∀ bn, 0 ≤ bn < nb → ptr sb s src (PData bn) ≠ 0 → ptr sb s dst (PData bn) ≠ 0 → same_content s src dst bn →
      ptr sb s' dst (PData bn) = ptr sb s' src (PData bn)
  else r = -1 ∧ s' = s.
Proof.
  intros Hi Hcl Hos Hod Hne Hz1 Hz2 nb. pose proof (v_cache _ _ _ _ Hi) as Hc. pose proof MAXSIZE_value as HM.
  pose proof (owns_inum sb s sip src Hc Hos) as Hns. pose proof (owns_inum sb s dip dst Hc Hod) as Hnd.
  pose proof (do_size _ (owns_dinode sb s sip src Hc Hos)) as Hp1. pose proof (do_size _ (owns_dinode sb s dip dst Hc Hod)) as Hp2.
  unfold idedup. rewrite (same_dev s sip dip src dst Hc Hos Hod), Z.eqb_refl.
  destruct (d_type (din sip s) =? T_FILE); cbn [negb orb andb]; [|by eexists _, _].
  destruct (d_type (din dip s) =? T_FILE); cbn [negb orb andb]; [|by eexists _, _].
  assert (∀ x y, owns s x y → i_inum (inode_at x s) = y) as Hin.
  { intros x y Hx. pose proof (owns_lookup _ _ _ Hx) as Hl. destruct Hx as (i & Hii & _ & _ & <-). congruence. }
  rewrite (Hin sip src Hos), (Hin dip dst Hod), (proj2 (Z.eqb_neq src dst) Hne).
  rewrite !u32_small by (unfold BSIZE; lia). fold (nblocks (d_size (din sip s))) (nblocks (d_size (din dip s))). fold nb.
  assert (0 ≤ nb ≤ MAXFILE) as Hnb.
  { unfold nb, nblocks. split; [apply Z.min_glb; apply Z.div_pos; unfold BSIZE; lia|].
    etrans; [apply Z.le_min_l|]. apply Z.lt_succ_r, Z.div_lt_upper_bound; [done|]. unfold MAXSIZE, BSIZE in *. lia. }
  destruct (dedup_loop sip dip src dst nb s P Hi Hos Hod Hne ltac:(lia)) as (u & sh & s1 & P1 & -> & A1 & A2 & A3 & A4 & A5 & A6 & A7 & A8 & A9).
  cbn [mbind option_bind]. rewrite Z.max_r in A6 by lia. eexists sh, _. split; [done|].
  set (s2 := if u then iupdate sb dip s1 else s1).
  assert (∃ d, acts sb dip dst s s2 d (content sb s dst) ∧ same_meta (din dip s) d ∧ d_size d = d_size (din dip s)) as Hact.
  { destruct (touches_din _ _ _ _ _ A2 Hod) as (a & Hd & _).
    assert (∀ n o, inum_ok sb n → off_ok o → content sb s1 n o = if decide (n = dst) then content sb s dst o else content sb s n o) as HC.
    { intros n o Hn Hoo. rewrite A3 by done. case_decide; by subst. }
    unfold s2. destruct u.
    - destruct (finish_spec sb Hsb dip dst (λ d, d) s s1 P1 A1 Hod A2) as (B1 & B2 & B3 & _); try done.
      rewrite set_din_id in B1, B2, B3. exists (din dip s1). split_and!; [split_and!; [by eexists|done|]|by rewrite Hd..].
      intros n o Hn Hoo. rewrite B3 by done. by apply HC.
    - exists (din dip s). split_and!; [|done|done]. split_and!; [by eexists| |done].
      apply saves_same; try done; [by rewrite A5|apply A2|apply A2]. }
  assert (inv s2 P1 zero ∧ nfree sb s1 = nfree sb s2) as [Hi2 Hn2].
  { unfold s2. destruct u; [|done]. pose proof (touches_owns _ _ _ _ dip dst A2 Hod) as Hod1.
    destruct (iupdate_spec sb Hsb dip dst s1 P1 zero A1 Hod1) as (B1 & _ & _ & B4 & _). split; [done|]. symmetry. by apply nfree_eq. }
  split_and!; [lia|lia|lia|done|]. intros bn Hbn Hs Hd Hsc. assert (valid_pos (PData bn)) as Hv by (cbn; lia).
  rewrite (ptr_lookup sb s2 P1 dst _ (v_linked _ _ _ _ Hi2) Hnd Hv), (ptr_lookup sb s2 P1 src _ (v_linked _ _ _ _ Hi2) Hns Hv), A7.
  rewrite (ptr_lookup sb s P src _ (v_linked _ _ _ _ Hi) Hns Hv) in Hs. rewrite (ptr_lookup sb s P dst _ (v_linked _ _ _ _ Hi) Hnd Hv) in Hd.
  f_equal. apply A9; try done; [by destruct (P !! (src, PData bn))|by destruct (P !! (dst, PData bn))].
Qed.

(** *** falloc() *)

Lemma falloc_loop ip inum lo hi s P : inv s P zero → owns s ip inum → 0 ≤ lo → hi ≤ MAXFILE →
  match for_each (range lo hi) (λ b s, '(_, s) ← bmap sb ip b false s; Some s) s with
  | None => nfree sb s < 3 * (hi - lo)
  | Some s' => ∃ P', inv s' P' zero ∧ touches sb ip s s' ∧ same_files sb s s' ∧ P ⊆ P' ∧
      ∀ bn, lo ≤ bn < hi → P' !! (inum, PData bn) ≠ None
  end.
Proof.
  intros Hi Ho Hlo Hhi.
  pose proof (foldl_range_opt (λ b s, '(_, s) ← bmap sb ip b false s; Some s)
    (λ j s', ∃ P', inv s' P' zero ∧ touches sb ip s s' ∧ same_files sb s s' ∧ P ⊆ P' ∧
      (∀ bn, lo ≤ bn < j → P' !! (inum, PData bn) ≠ None) ∧ nfree sb s - 3 * (j - lo) ≤ nfree sb s')
    (nfree sb s < 3 * (hi - lo)) lo hi s) as Hloop.
  match type of Hloop with _ → _ → ?C => assert C as Hres end.
  { apply Hloop.
    - exists P. split_and!; try done; [apply touches_refl| |lia]. intros bn Hb. lia.
    - intros j s1 Hj (P1 & A1 & A2 & A3 & A4 & A5 & A6). pose proof (touches_owns _ _ _ _ ip inum A2 Ho) as Ho1.
      pose proof (bmap_find_spec sb Hsb ip inum j s1 P1 A1 Ho1 ltac:(lia)) as Hb. unfold bmap.
      destruct (bmap_find sb ip j s1) as [[[[l pb] b] s2]|]; cbn [mbind option_bind andb]; [|lia].
      destruct Hb as (P2 & [B1 B2 B3 B4] & HP2 & _ & Hsub). exists P2. split_and!; [done| | | | |lia].
      + by eapply touches_trans.
      + by eapply same_files_trans.
      + by etrans.
      + intros bn Hbn. destruct (decide (bn = j)) as [->|Hne]; [by rewrite HP2|].
        destruct (P1 !! (inum, PData bn)) as [c|] eqn:E; [|by destruct (A5 bn ltac:(lia))].
        by rewrite (lookup_weaken _ _ _ _ E Hsub). }
  unfold for_each. destruct (foldl _ _ _) as [s'|]; [|done]. destruct Hres as (P' & A1 & A2 & A3 & A4 & A5 & _).
  exists P'. split_and!; try done. intros bn Hbn. apply A5. lia.
Qed.

(** falloc() gives every block of the range a place and keeps the contents. The inode
    is saved unless the size is to follow the range and does not grow. *)
Lemma falloc_spec ip inum lo hi newsize keep s P : inv s P zero → owns s ip inum → 0 ≤ lo → hi ≤ MAXFILE → 0 ≤ newsize →
  let size := d_size (din ip s) in
  match falloc sb ip lo hi newsize keep s with
  | None => newsize ≤ MAXSIZE ∧ nfree sb s < 3 * (hi - lo)
  | Some (r, s') =>
      if MAXSIZE <? newsize then r = -1 ∧ s' = s
      else r = 0 ∧ (∀ bn, lo ≤ bn < hi → ptr sb s' inum (PData bn) ≠ 0) ∧ same_files sb s s' ∧
        if keep || (size <? newsize) then
          ∃ d, acts sb ip inum s s' d (content sb s inum) ∧ same_meta (din ip s) d ∧
            d_size d = if keep then size else Z.max size newsize
        else (∃ P', inv s' P' zero) ∧ touches sb ip s s'
  end.
Proof.
  intros Hi Ho Hlo Hhi Hns size. pose proof MAXSIZE_value as HM. pose proof (v_cache _ _ _ _ Hi) as Hc.
  pose proof (owns_inum sb s ip inum Hc Ho) as Hn. unfold falloc. change (MAXFILE * BSIZE) with MAXSIZE.
  destruct (Z.ltb_spec MAXSIZE newsize) as [|Hle]; [done|].
  pose proof (falloc_loop ip inum lo hi s P Hi Ho Hlo Hhi) as Hl.
  destruct (for_each (range lo hi) _ s) as [s1|]; cbn [mbind option_bind]; [|done].
  destruct Hl as (P1 & A1 & A2 & A3 & A4 & A5). destruct (touches_din _ _ _ _ _ A2 Ho) as (a & Hd & _).
  assert (d_size (din ip s1) = size) as Esz by (by rewrite Hd). rewrite Esz.
  assert (∀ f, (∀ d, dinode_ok d → dinode_ok (f d)) → (∀ d, d_addrs (f d) = d_addrs d) → (∀ d, same_meta d (f d)) →
    let s' := iupdate sb ip (set_din ip f s1) in
    inv s' P1 zero ∧ same_files sb s s' ∧ acts sb ip inum s s' (f (din ip s1)) (content sb s inum) ∧ same_meta (din ip s) (f (din ip s1))) as Hfin.
  { intros f F1 F2 F3 s'. destruct (finish_spec sb Hsb ip inum f s s1 P1 A1 Ho A2 (F1 _) (F2 _)) as (B1 & B2 & B3 & _).
    assert (same_files sb s s') as Hsf by (by eapply same_files_trans). split_and!; [done|done| |].
    - split_and!; [by eexists|done|]. intros n o Hnn Hoo. rewrite Hsf by done. case_decide; by subst.
    - specialize (F3 (din ip s1)). unfold same_meta in *. rewrite Hd in *. exact F3. }
  assert (∀ s', inv s' P1 zero → ∀ bn, lo ≤ bn < hi → ptr sb s' inum (PData bn) ≠ 0) as Hptr.
  { intros s' Hi' bn Hbn E. apply (ptr_None sb s' P1 inum (PData bn) (v_linked _ _ _ _ Hi') Hn) in E; [|cbn; lia]. by apply (A5 bn Hbn). }
  destruct keep; cbn [negb andb orb].
  - destruct (Hfin (λ d, d)) as (B1 & B2 & B3 & B4); try done. rewrite set_din_id in B1, B2, B3.
    split_and!; [done|by apply Hptr|done|]. exists (din ip s1). split_and!; [done|done|done].
  - destruct (Z.ltb_spec size newsize) as [Hg|Hg]; cbn [orb].
    + destruct (Hfin (λ d, d <| d_size := newsize |>)) as (B1 & B2 & B3 & B4); try done.
      { intros d Hok. apply dinode_ok_size; [done|lia]. }
      split_and!; [done|by apply Hptr|done|]. eexists. split_and!; [exact B3|done|cbn; lia].
    + split_and!; [done|by apply Hptr|done|by eexists|done].
Qed.

End range.
