(* ===== verification/FsSpec.v ===== *)
(** * The operations on files as operations on byte strings

    [abs] gives the file of an inode: its fields and its contents. Every
    operation on file contents acts on these files as [effect] says, keeps the
    file system consistent ([good]), and stops only when blocks run out. *)

From stdpp Require Import list_numbers gmap.
From S2P Require Import Prelude Mem Xattr Fs FsInv FsFile FsNode FsIO FsFree FsOps FsShare FsRange.

Record afile := mk_afile {
  af_mode : Z; af_type : Z; af_major : Z; af_minor : Z; af_nlink : Z; af_size : Z; af_data : Z → Z }.

#[export] Instance afile_rebuild : Rebuild afile := λ a,
  mk_afile (af_mode a) (af_type a) (af_major a) (af_minor a) (af_nlink a) (af_size a) (af_data a).
#[export] Instance af_type_set : Setter af_type := ltac:(solve_setter).
#[export] Instance af_mode_set : Setter af_mode := ltac:(solve_setter).
#[export] Instance af_size_set : Setter af_size := ltac:(solve_setter).
#[export] Instance af_data_set : Setter af_data := ltac:(solve_setter).

Definition file_of (d : dinode) (data : Z → Z) : afile :=
  mk_afile (d_mode d) (d_type d) (d_major d) (d_minor d) (d_nlink d) (d_size d) data.

(** Equal files: the contents matter up to the largest offset. *)
Definition agree (a b : afile) : Prop :=
  af_mode a = af_mode b ∧ af_type a = af_type b ∧ af_major a = af_major b ∧ af_minor a = af_minor b ∧
  af_nlink a = af_nlink b ∧ af_size a = af_size b ∧ ∀ o, off_ok o → af_data a o = af_data b o.

#[export] Instance agree_equivalence : Equivalence agree.
Proof.
  unfold agree. split.
  - done.
  - intros a b (? & ? & ? & ? & ? & ? & H). split_and!; try done. intros o Ho. by rewrite H.
  - intros a b c (? & ? & ? & ? & ? & ? & H) (? & ? & ? & ? & ? & ? & H'). split_and!; try congruence.
    intros o Ho. by rewrite H, H'.
Qed.

(** The calls; inodes are given by their cache entries. *)
Inductive call :=
  | Writei (ip : nat) (src : Z → Z → list Z * bool) (off n : Z)
  | Itrunc (ip : nat)
  | Itrunc_to (ip : nat) (newsize : Z)
  | Ipunch (ip : nat) (startb endb : Z)
  | Iclone (src dst : nat)
  | Iclone_range (src dst : nat) (src_off dst_off len : Z)
  | Idedup (src dst : nat)
  | Falloc (ip : nat) (startb endb newsize : Z) (keep_size : bool).

Section spec.
Context (sb : superblock) (Hsb : sb_wf sb).

Abbreviation inv := (inv sb).

Definition abs (s : fs) (n : Z) : afile := file_of (dnode sb s n) (content sb s n).

Record good (s : fs) : Prop := {
  g_inv : ∃ P, inv s P zero;
  g_clean : clean sb s;
  g_sizes : sizes_ok sb s;
  g_dead : ∀ n, inum_ok sb n → d_type (dnode sb s n) = 0 → d_addrs (dnode sb s n) = replicate 13 0;
  g_live : ∀ ip n, owns s ip n → d_type (din ip s) ≠ 0;
}.


Definition inum_at (ip : nat) (s : fs) : Z := i_inum (inode_at ip s).

(** A locked inode. *)
Definition held (ip : nat) (s : fs) : Prop := owns s ip (inum_at ip s).

Definition held2 (src dst : nat) (s : fs) : Prop := held src s ∧ held dst s ∧ inum_at src s ≠ inum_at dst s.

(** The arguments for which the calls are specified: the caller holds the locks of
    the inodes, the source delivers bytes, the offsets are within the largest file,
    and the target of iclone() has no blocks. *)
Definition call_ok (c : call) (s : fs) : Prop :=
  match c with
  | Writei ip src off n => held ip s ∧ 0 ≤ off < 2 ^ 32 ∧ 0 ≤ n < 2 ^ 32 ∧
      ∀ tot m, 0 ≤ m → Forall is_byte (src tot m).1 ∧ Z.of_nat (length (src tot m).1) ≤ m ∧
        ((src tot m).2 = true → Z.of_nat (length (src tot m).1) = m)
  | Itrunc ip => held ip s
  | Itrunc_to ip newsize => held ip s ∧ 0 ≤ newsize ≤ MAXSIZE
  | Ipunch ip startb endb => held ip s ∧ 0 ≤ startb
  | Iclone src dst => held2 src dst s ∧ d_addrs (din dst s) = replicate 13 0
  | Iclone_range src dst src_off dst_off len => held2 src dst s ∧ 0 ≤ src_off ∧ 0 ≤ dst_off ∧ 0 ≤ len ∧
      src_off + len ≤ MAXSIZE ∧ dst_off + len ≤ MAXSIZE
  | Idedup src dst => held2 src dst s
  | Falloc ip startb endb newsize keep_size => held ip s ∧ 0 ≤ startb ∧ endb ≤ MAXFILE ∧ 0 ≤ newsize
  end.








Lemma held_dnode ip s P : inv s P zero → held ip s → inum_ok sb (inum_at ip s) ∧ dnode sb s (inum_at ip s) = din ip s.
Proof.
  intros Hi Hh. pose proof (v_cache _ _ _ _ Hi) as Hc. split; [by eapply owns_inum|by apply dnode_owns].
Qed.

(** One file changed, its type stayed. *)
Lemma acts_good ip s s' d C : good s → held ip s → acts sb ip (inum_at ip s) s s' d C →
  d_type d = d_type (din ip s) → 0 ≤ d_size d ≤ MAXSIZE →
  good s' ∧ ∀ n, inum_ok sb n → agree (abs s' n) (if decide (n = inum_at ip s) then file_of d C else abs s n).
Proof.
  intros [(P & Hi) Hcl Hsz Hdead Hlive] Hh ((P' & Hi') & Hsv & Hcont) Hty Hds. set (i := inum_at ip s) in *.
  pose proof (v_cache _ _ _ _ Hi) as Hc. pose proof (v_cache _ _ _ _ Hi') as Hc'.
  assert (∀ n, inum_ok sb n → dnode sb s' n = if decide (n = i) then d else dnode sb s n) as Hdn.
  { intros n Hn. by apply (saves_dnode sb ip i s s' d n). }
  assert (d_type (din ip s) ≠ 0) as Hne by (by eapply Hlive). split.
  - split.
    + by exists P'.
    + by apply (saves_clean sb ip i s s' d).
    + intros n Hn. rewrite Hdn by done. case_decide; [done|]. by apply Hsz.
    + intros n Hn. rewrite Hdn by done. case_decide; [intros ?; congruence|]. by apply Hdead.
    + intros k n Hk. pose proof (proj2 (saves_owns sb ip i s s' d k n Hh Hsv) Hk) as Hk0.
      rewrite <-(dnode_owns sb s' k n Hc' Hk). rewrite Hdn by (by eapply owns_inum). case_decide; [congruence|].
      rewrite (dnode_owns sb s k n Hc Hk0). by eapply Hlive.
  - intros n Hn. unfold abs. rewrite Hdn by done. case_decide as E.
    + subst n. unfold agree, file_of. cbn. split_and!; try done. intros o Ho. rewrite Hcont by done. by rewrite decide_True.
    + unfold agree. cbn. split_and!; try done. intros o Ho. rewrite Hcont by done. by rewrite decide_False.
Qed.








Lemma held_size ip s : good s → held ip s → 0 ≤ d_size (din ip s) ≤ MAXSIZE.
Proof.
  intros [(P & Hi) _ Hsz _ _] Hh. destruct (held_dnode ip s P Hi Hh) as [Hn Hd]. rewrite <-Hd. by apply Hsz.
Qed.












(** ** Reading back what was written *)

(** either_copyin() from a kernel buffer. *)
Definition kernel_src (bs : list Z) : Z → Z → list Z * bool := λ tot m,
  ((λ i, bs !!! Z.to_nat (tot + i)) <$> seqZ 0 m, true).

Lemma kernel_src_ok bs : Forall is_byte bs → ∀ tot m, 0 ≤ m →
  Forall is_byte (kernel_src bs tot m).1 ∧ Z.of_nat (length (kernel_src bs tot m).1) ≤ m ∧
  ((kernel_src bs tot m).2 = true → Z.of_nat (length (kernel_src bs tot m).1) = m).
Proof.
  intros Hb tot m Hm. cbn. rewrite length_fmap, length_seqZ. split_and!; [|lia|lia].
  apply Forall_fmap, Forall_true. intros i. cbn. destruct (decide (Z.to_nat (tot + i) < length bs)%nat) as [Hlt|Hge].
  - eapply Forall_lookup_1; [exact Hb|]. by apply list_lookup_lookup_total_lt.
  - rewrite list_lookup_total_alt, lookup_ge_None_2 by lia. done.
Qed.

Lemma copied_kernel bs fuel off tot n : 0 ≤ off → 0 ≤ tot ≤ n → need off (n - tot) < Z.of_nat fuel →
  copied (kernel_src bs) fuel off tot n = ((λ i, bs !!! Z.to_nat (tot + i)) <$> seqZ 0 (n - tot), off + (n - tot)).
Proof.
  revert off tot. induction fuel as [|fuel IH]; intros off tot Hoff Htot Hf; [pose proof (need_nonneg off (n - tot)); lia|].
  cbn [copied]. destruct (Z.ltb_spec tot n) as [Hlt|Hge].
  2: { rewrite seqZ_nil by lia. f_equal. lia. }
  pose proof (need_step off (n - tot) Hoff ltac:(lia)) as (Hm1 & Hm2 & Hm3 & Hm4).
  set (m := Z.min (n - tot) (BSIZE - off `mod` BSIZE)) in *. unfold kernel_src at 1.
  rewrite IH; [|lia|lia|]. 2: { replace (n - (tot + m)) with (n - tot - m) by lia. lia. }
  replace (n - (tot + m)) with (n - tot - m) by lia. f_equal; [|lia].
  pose proof (seqZ_app_content (λ i, bs !!! Z.to_nat i) tot m (n - tot - m) ltac:(lia) ltac:(lia)) as E.
  rewrite E. do 2 f_equal. lia.
Qed.

Lemma slice_all (bs : list Z) : (λ i, bs !!! Z.to_nat (0 + i)) <$> seqZ 0 (Z.of_nat (length bs)) = bs.
Proof.
  apply list_eq. intros i. rewrite list_lookup_fmap. destruct (decide (i < length bs)%nat) as [Hi|Hi].
  - rewrite (proj2 (lookup_seqZ 0 (Z.of_nat (length bs)) i (Z.of_nat i))) by lia.
    cbn [fmap option_fmap option_map]. rewrite Z.add_0_l, Nat2Z.id. symmetry. by apply list_lookup_lookup_total_lt.
  - rewrite lookup_seqZ_ge by lia. cbn. symmetry. apply lookup_ge_None_2. lia.
Qed.

(** writei() followed by readi(): with enough free blocks, writing the bytes [bs] at
    an offset that is not beyond the end of the file returns their number, and
    reading as many bytes at that offset gives them back. *)
Theorem write_read_roundtrip ip off bs s : good s → held ip s → Forall is_byte bs →
  0 ≤ off ≤ d_size (din ip s) → off + Z.of_nat (length bs) ≤ MAXSIZE → 4 * need off (Z.of_nat (length bs)) ≤ nfree sb s →
  ∃ s', writei sb ip (kernel_src bs) off (Z.of_nat (length bs)) s = Some (Z.of_nat (length bs), s') ∧
    readi ip (λ _ _, true) off (Z.of_nat (length bs)) s' = Some (Z.of_nat (length bs), bs).
Proof.
  intros Hg Hh Hb Hoff Hfit Hfree. set (n := Z.of_nat (length bs)) in *. pose proof MAXSIZE_value as HM.
  pose proof Hg as [(P & Hi) Hcl _ _ _].
  assert (call_ok (Writei ip (kernel_src bs) off n) s) as Hok by (split_and!; [done|lia..|by apply kernel_src_ok]).
  pose proof (writei_spec sb Hsb (kernel_src bs) (kernel_src_ok bs Hb) ip _ off n s P Hi Hcl Hh ltac:(lia) ltac:(lia)) as Hw.
  cbn zeta in Hw. assert (fits (d_size (din ip s)) off n = true) as Ef.
  { unfold fits. apply andb_true_iff. rewrite !Z.leb_le. lia. }
  rewrite Ef, copied_kernel in Hw; [|lia|lia|rewrite Z.sub_0_r; apply turns_enough; lia]. rewrite Z.sub_0_r in Hw.
  pose proof (slice_all bs) as Hsl. fold n in Hsl. rewrite Hsl in Hw.
  destruct (writei sb ip (kernel_src bs) off n s) as [[r s']|]; [|lia]. destruct Hw as (-> & d & Hact & Hm & Hd & _).
  exists s'. split; [done|]. set (inum := inum_at ip s) in *.
  destruct (acts_good ip s s' d _ Hg Hh Hact (proj1 (proj2 Hm))) as [[(P' & Hi') _ Hsz _ _] _].
  { pose proof (held_size ip s Hg Hh). lia. }
  destruct Hact as (_ & Hsv & Hcont). pose proof (proj1 (saves_owns sb ip inum s s' d ip inum Hh Hsv) Hh) as Ho'.
  pose proof (owns_inum sb s ip inum (v_cache _ _ _ _ Hi) Hh) as Hn.
  assert (din ip s' = d) as Ed.
  { unfold din, inode_at. by rewrite (list_lookup_total_correct _ _ _ (sv_own _ _ _ _ _ _ Hsv)). }
  destruct (readi_spec sb ip inum (λ _ _, true) off n s' P' Hi' Ho' Hsz ltac:(lia) ltac:(lia)) as (k & -> & _ & Hk).
  specialize (Hk ltac:(done)). rewrite Ed, Hd in Hk. rewrite (proj2 (Z.leb_le _ _)), (proj2 (Z.ltb_lt _ _)) in Hk by lia. cbn [andb] in Hk.
  assert (k = n) as -> by lia. do 2 f_equal. rewrite <-Hsl. apply list_fmap_ext. intros j x Hx.
  apply lookup_seqZ in Hx as [Hx1 Hx2]. assert (off_ok (off + x)) as Hoo.
  { unfold off_ok. split; [apply Z.div_pos; [lia|done]|]. apply Z.div_lt_upper_bound; [done|]. unfold MAXSIZE in *. lia. }
  rewrite (Hcont inum (off + x) Hn Hoo), decide_True by done. unfold patch. rewrite decide_True by lia. f_equal. lia.
Qed.

End spec.

(** ** A small file system *)

(** 32 data blocks, two empty files, both in the cache: inode 1 has the type
    [t1]; inode 3 is free; the entries [rest] are not in use. *)
Definition small_sb : superblock := mk_sb 40 32 4 0 2 2 3.

Definition small_dinode (t : Z) : dinode := mk_dinode 3 t 0 0 1 0 (replicate 13 0).

Definition small_disk (t1 : Z) : Z → Z := write_dinode small_sb 2 (small_dinode T_FILE) (write_dinode small_sb 1 (small_dinode t1)
  (λ x, if x =? 3 * BSIZE then 255 else 0)).

Definition small (t1 : Z) (lk : bool) (rest : list inode) : fs := mk_fs (small_disk t1) (λ _, 0) 0 []
  (mk_inode 1 1 1 lk true (small_dinode t1) 0 0 :: mk_inode 1 2 1 lk true (small_dinode T_FILE) 0 0 :: rest) [].

Lemma small_wf : sb_wf small_sb.
Proof. split; vm_compute; done. Qed.

Lemma small_cases n : inum_ok small_sb n → n = 1 ∨ n = 2 ∨ n = 3.
Proof. unfold inum_ok. cbn. lia. Qed.

Section small.
Context (t1 : Z) (lk : bool) (rest : list inode) (Ht : 0 < t1 < 256) (Hrest : Forall (λ i, i_ref i = 0) rest).

Abbreviation sfs := (small t1 lk rest).

Lemma small_dinode_ok t : 0 < t < 256 → dinode_ok (small_dinode t).
Proof using Type. intros H. split; cbn; try lia; try done. repeat constructor; lia. Qed.

Lemma small_entry ip i : icache sfs !! ip = Some i → 0 < i_ref i →
  (ip = 0%nat ∧ i_inum i = 1 ∧ i_d i = small_dinode t1 ∨ ip = 1%nat ∧ i_inum i = 2 ∧ i_d i = small_dinode T_FILE) ∧ i_dev i = 1.
Proof using Ht Hrest.
  destruct ip as [|[|ip]]; cbn; [intros [= <-]|intros [= <-]|]; cbn; [naive_solver..|].
  intros Hi Hr. pose proof (Forall_lookup_1 _ _ _ _ Hrest Hi). cbn in *. lia.
Qed.

Lemma small_cache : cache_ok small_sb sfs.
Proof using Ht Hrest.
  split.
  - intros ip1 ip2 i1 i2 H1 H2 R1 R2 E. destruct (small_entry _ _ H1 R1) as [[(-> & E1 & _)|(-> & E1 & _)] _], (small_entry _ _ H2 R2) as [[(-> & E2 & _)|(-> & E2 & _)] _]; congruence.
  - intros ip i Hi Hr. destruct (small_entry _ _ Hi Hr) as [[(_ & E & _)|(_ & E & _)] Ed]; (split; [done|]); unfold inum_ok; rewrite E; cbn; lia.
  - intros ip i Hi Hr _. destruct (small_entry _ _ Hi Hr) as [[(_ & _ & ->)|(_ & _ & ->)] _]; by apply small_dinode_ok.
Qed.

Lemma small_owns ip n : owns sfs ip n ↔ (ip = 0%nat ∧ n = 1) ∨ (ip = 1%nat ∧ n = 2).
Proof using Ht Hrest.
  split.
  - intros (i & Hi & Hr & _ & <-). destruct (small_entry _ _ Hi Hr) as [[(-> & -> & _)|(-> & -> & _)] _]; auto.
  - intros [[-> ->]|[-> ->]]; eexists; by split_and!.
Qed.

Definition small_node (n : Z) : dinode := if n =? 3 then no_dinode else small_dinode (if n =? 1 then t1 else T_FILE).

Lemma small_dnode n : inum_ok small_sb n → dnode small_sb sfs n = small_node n.
Proof using Ht Hrest.
  intros [-> |[-> | ->]]%small_cases; [done|done|]. unfold dnode. destruct (find_index (holds_inum 3) (icache sfs)) as [k|] eqn:E; [|done].
  apply find_index_Some in E as [(i & Hi & Hh) _]. unfold holds_inum in Hh. bool_facts. by destruct (small_entry k i Hi) as [[(_ & ? & _)|(_ & ? & _)] _]; try lia.
Qed.

Lemma small_bytes x : 0 ≤ small_disk t1 x < 256.
Proof using Ht.
  unfold small_disk. revert x. apply write_dinode_bytes; [by apply small_dinode_ok|].
  apply write_dinode_bytes; [by apply small_dinode_ok|]. intros x. case_match; lia.
Qed.

Lemma small_bit b : 0 ≤ b < 40 → bit small_sb b sfs = (b <? 8).
Proof using Type.
  intros Hb. rewrite bit_testbit. unfold bit_addr. change (sb_bmapstart small_sb) with 3.
  assert (∀ x, 3 * BSIZE ≤ x → small_disk t1 x = if x =? 3 * BSIZE then 255 else 0) as Hd.
  { intros x Hx. pose proof (dinode_addr_range small_sb small_wf 1 ltac:(done)) as [_ H1].
    pose proof (dinode_addr_range small_sb small_wf 2 ltac:(done)) as [_ H2]. change (sb_bmapstart small_sb) with 3 in *.
    unfold small_disk. rewrite !write_dinode_out; [done|done|lia|done|lia]. }
  change (dsk sfs) with (small_disk t1). rewrite Hd by (pose proof (Z.div_pos b 8 ltac:(lia) ltac:(lia)); lia).
  destruct (Z.ltb_spec b 8).
  - rewrite (Z.div_small b 8), (Z.mod_small b 8), Z.add_0_r, Z.eqb_refl by lia.
    assert (b = 0 ∨ b = 1 ∨ b = 2 ∨ b = 3 ∨ b = 4 ∨ b = 5 ∨ b = 6 ∨ b = 7) as Hc by lia.
    by destruct Hc as [-> | [-> | [-> | [-> | [-> | [-> | [-> | ->]]]]]]].
  - assert (1 ≤ b / 8) by (apply Z.div_le_lower_bound; lia). rewrite (proj2 (Z.eqb_neq _ _)) by lia. apply Z.bits_0.
Qed.

Lemma small_inv : inv small_sb sfs ∅ zero.
Proof using Ht Hrest.
  assert (∀ n p, inum_ok small_sb n → valid_pos p → ptr small_sb sfs n p = 0) as Hp.
  { intros n p Hn. remember (rank p) as r eqn:Hr. revert p Hr. induction (lt_wf r) as [r _ IH]. intros p -> Hv.
    rewrite ptr_unfold by done. pose proof (index_range p Hv) as Hi. destruct (parent p) as [q|] eqn:Eq.
    - by rewrite (IH (rank q) (parent_rank p q Eq) q eq_refl (proj1 (parent_valid p q Hv Eq))).
    - unfold faddr. rewrite small_dnode by done. assert (d_addrs (small_node n) = replicate 13 0) as -> by (unfold small_node; by case_match).
      apply list_lookup_total_correct, lookup_replicate_2. lia. }
  split.
  - split; [|done..]. intros n p Hn Hv. by rewrite Hp.
  - split; [done|done|]. intros b Hb. rewrite (small_bit b Hb), Z.ltb_lt. cbn. naive_solver.
  - apply small_cache.
  - apply small_bytes.
  - done.
Qed.

Lemma small_good : good small_sb sfs.
Proof using Ht Hrest.
  split.
  - exists ∅. apply small_inv.
  - assert (read_dinode small_sb 2 (small_disk t1) = small_dinode T_FILE) as E2 by (by apply read_write_dinode, small_dinode_ok).
    assert (read_dinode small_sb 1 (small_disk t1) = small_dinode t1) as E1.
    { unfold small_disk. rewrite (read_dinode_ext small_sb 1 (write_dinode small_sb 1 (small_dinode t1) (λ x, if x =? 3 * BSIZE then 255 else 0))).
      - by apply read_write_dinode, small_dinode_ok.
      - intros x Hx. apply write_dinode_out; [done|]. pose proof (dinode_disjoint small_sb 1 2 ltac:(done)). lia. }
    by intros ip n [[-> ->]|[-> ->]]%small_owns.
  - intros n Hn. rewrite small_dnode by done. assert (d_size (small_node n) = 0) as -> by (unfold small_node; by case_match). pose proof MAXSIZE_value. lia.
  - intros n Hn. rewrite small_dnode by done. unfold small_node. by case_match.
  - intros ip n [[-> ->]|[-> ->]]%small_owns; [change (t1 ≠ 0); lia|done].
Qed.

Lemma small_abs n : inum_ok small_sb n → ∃ C, abs small_sb sfs n = file_of (small_node n) C.
Proof using Ht Hrest. intros Hn. eexists. unfold abs. by rewrite small_dnode. Qed.

End small.

(** Both inodes are files and locked. *)
Definition small_fs : fs := small T_FILE true [].

Lemma small_fs_good : good small_sb small_fs.
Proof. apply small_good; [done|constructor]. Qed.

Lemma small_held ip : ip = 0%nat ∨ ip = 1%nat → held ip small_fs.
Proof. intros [-> | ->]; (apply small_owns; [done|constructor|by auto]). Qed.


Lemma write_read_roundtrip_witness : ∃ s', writei small_sb 0 (kernel_src [104; 105]) 0 2 small_fs = Some (2, s') ∧
  readi 0 (λ _ _, true) 0 2 s' = Some (2, [104; 105]).
Proof.
  apply (write_read_roundtrip small_sb small_wf 0 0 [104; 105] small_fs small_fs_good).
  - apply small_held. by left.
  - repeat constructor; lia.
  - cbn. lia.
  - pose proof MAXSIZE_value. cbn [length Z.of_nat]. lia.
  - vm_compute. discriminate.
Defined.

(** fallocate() of a hole: two bytes are written, their block is punched out, and
    falloc() is asked for it again without growing the file. It returns 0; the
    cached inode has a block and the inode on disk has none. *)
Example falloc_forgets_iupdate :
  ('(_, s1) ← writei small_sb 0 (kernel_src [104; 105]) 0 2 small_fs;
   '(_, s2) ← ipunch small_sb 0 0 1 s1;
   '(r, s3) ← falloc small_sb 0 0 1 1 false s2;
   Some (r, negb (d_addrs (din 0 s3) !!! 0%nat =? 0), d_addrs (read_dinode small_sb 1 (dsk s3)) !!! 0%nat))
  = Some (0, true, 0).
Proof. vm_compute. reflexivity. Qed.
