(* ===== verification/FsCache.v ===== *)
(** * The inode cache

    iget, idup, ilock, iunlock, iput, ialloc: they count the references of
    inodes and change no file, except that the last iput() of an inode without
    links empties it and ialloc() makes a new empty file. *)

From stdpp Require Import list_numbers gmap.
From S2P Require Import Prelude Mem Xattr Fs FsInv FsFile FsNode FsIO FsFree FsOps FsShare FsRange FsSpec.

Section cache.
Context (sb : superblock) (Hsb : sb_wf sb).

Abbreviation inv := (inv sb).
Abbreviation good := (good sb).
Abbreviation abs := (abs sb).

(** The references of an inode. *)
Definition ref_of (n : Z) (i : inode) : Z := if (0 <? i_ref i) && (i_inum i =? n) then i_ref i else 0.
Definition nref (s : fs) (n : Z) : Z := sum_with (ref_of n) (icache s).

(** The cache entries without the copies of the inodes. *)
Definition tag (i : inode) : Z * Z * Z * bool * bool := (i_dev i, i_inum i, i_ref i, i_locked i, i_valid i).
Definition tags (s : fs) : list (Z * Z * Z * bool * bool) := tag <$> icache s.

Lemma nref_tags s s' n : tags s' = tags s → nref s' n = nref s n.
Proof.
  unfold nref, tags. intros E.
  assert (∀ l, sum_with (ref_of n) l = sum_with (λ t, if (0 <? t.1.1.2) && (t.1.1.1.2 =? n) then t.1.1.2 else 0) (tag <$> l)) as H.
  { induction l as [|i l IH]; [done|]. cbn. f_equal. exact IH. }
  by rewrite !H, E.
Qed.

Lemma saves_tags ip inum s s' d : owns s ip inum → saves sb ip inum s s' d → tags s' = tags s.
Proof.
  intros (i & Hi & _) [A B _ _ _]. apply list_eq. intros k. unfold tags. rewrite !list_lookup_fmap.
  destruct (decide (k = ip)) as [->|Hne]; [|by rewrite A]. rewrite B, Hi. cbn. f_equal.
  unfold inode_at. by rewrite (list_lookup_total_correct _ _ _ Hi).
Qed.

(** A change of cache entries alone. *)
Record recached (s s' : fs) : Prop := {
  rc_dsk : dsk s' = dsk s;
  rc_brefs : brefs s' = brefs s;
  rc_hint : hint s' = hint s;
}.

Definition same_dnodes (s s' : fs) : Prop := ∀ n, inum_ok sb n → dnode sb s' n = dnode sb s n.

Lemma recached_inv s s' P : inv s P zero → recached s s' → cache_ok sb s' → same_dnodes s s' →
  inv s' P zero ∧ same_files sb s s'.
Proof.
  intros Hi [R1 R2 R3] Hc Hd. assert (inv s' P zero) as Hi'.
  { destruct Hi as [Hl [C1 C2 C3] _ Hb Hh]. split; [| |done|by rewrite R1|by rewrite R3].
    - apply (linked_frame sb s s' P Hl).
      + intros n i Hn _. unfold faddr. by rewrite Hd.
      + intros k b j _ _ _. unfold get_word. by rewrite R1.
    - split; rewrite R2; try done. intros b Hb'. rewrite <-C3 by done. unfold bit, get_bit. by rewrite R1. }
  split; [done|]. intros n o Hn Hoo. apply (content_keep sb Hsb s s' P P zero zero); try done.
  intros b _ x _. by rewrite R1.
Qed.

Lemma recached_good s s' : good s → recached s s' → cache_ok sb s' → same_dnodes s s' →
  (∀ ip n, owns s' ip n → read_dinode sb n (dsk s) = din ip s' ∧ d_type (din ip s') ≠ 0) →
  good s' ∧ ∀ n, inum_ok sb n → agree (abs s' n) (abs s n).
Proof.
  intros [(P & Hi) Hcl Hsz Hdead Hlive] Hr Hc Hd Ho. destruct (recached_inv s s' P Hi Hr Hc Hd) as [Hi' Hsf]. split.
  - split.
    + by exists P.
    + intros ip n Hown. rewrite (rc_dsk _ _ Hr). by apply Ho.
    + intros n Hn. rewrite Hd by done. by apply Hsz.
    + intros n Hn. rewrite Hd by done. by apply Hdead.
    + intros ip n Hown. by apply (Ho ip n).
  - intros n Hn. unfold abs. rewrite Hd by done. unfold agree. cbn. split_and!; try done. intros o Hoo. by apply Hsf.
Qed.

(** A change of one entry. *)
Section entry.
Context (s : fs) (ip : nat) (f : inode → inode) (i : inode).
Context (P : ptrs) (Hin : inv s P zero) (Hcl : clean sb s) (Hi : icache s !! ip = Some i).

Lemma recached_set : recached s (set_inode ip f s).
Proof using Type. by split. Qed.

Lemma nref_set n : nref (set_inode ip f s) n = nref s n - ref_of n i + ref_of n (f i).
Proof using Hi.
  unfold nref, set_inode; cbn [icache upd icache_set]. rewrite list_alter_insert with (x := i) by done.
  by rewrite (sum_with_insert _ _ _ i).
Qed.

Lemma owns_set k n : owns (set_inode ip f s) k n ↔
  if decide (k = ip) then 0 < i_ref (f i) ∧ i_valid (f i) = true ∧ i_inum (f i) = n else owns s k n.
Proof using Hi.
  unfold owns. setoid_rewrite set_inode_lookup. case_decide as E.
  - subst k. rewrite Hi. cbn. naive_solver.
  - done.
Qed.

Lemma din_set_entry k : din k (set_inode ip f s) = if decide (k = ip) then i_d (f i) else din k s.
Proof using Hi.
  unfold din, inode_at. rewrite !list_lookup_total_alt, set_inode_lookup. case_decide as E; [|done]. subst. by rewrite Hi.
Qed.

(** The entry names the same inode as before. *)
Lemma cache_ok_set : (0 < i_ref (f i) → i_inum (f i) = i_inum i ∧ 0 < i_ref i ∨ ∀ k j, icache s !! k = Some j → 0 < i_ref j → k ≠ ip → i_inum j ≠ i_inum (f i)) →
  (0 < i_ref (f i) → i_dev (f i) = ROOTDEV ∧ inum_ok sb (i_inum (f i))) →
  (0 < i_ref (f i) → i_valid (f i) = true → dinode_ok (i_d (f i))) → cache_ok sb (set_inode ip f s).
Proof using Hin Hi.
  intros H1 H2 H3. pose proof (v_cache _ _ _ _ Hin) as Hc.
  assert (∀ k j, icache (set_inode ip f s) !! k = Some j → k = ip ∧ j = f i ∨ k ≠ ip ∧ icache s !! k = Some j) as Hk.
  { intros k j. rewrite set_inode_lookup. case_decide as E; [subst; rewrite Hi; intros [= <-]; by left|by right]. }
  assert (∀ k j, k ≠ ip → icache s !! k = Some j → 0 < i_ref (f i) → 0 < i_ref j → i_inum j ≠ i_inum (f i)) as Hu.
  { intros k j Hne Hj Hr Hrj E. destruct (H1 Hr) as [[En Hr0]|Hno]; [|by apply (Hno k j)].
    apply Hne. eapply (c_uniq sb s Hc k ip j i); congruence || done. }
  split.
  - intros k1 k2 j1 j2 Hk1 Hk2 Hr1 Hr2 E. destruct (Hk _ _ Hk1) as [[-> ->]|[N1 L1]], (Hk _ _ Hk2) as [[-> ->]|[N2 L2]]; try done.
    + exfalso. by apply (Hu k2 j2).
    + exfalso. by apply (Hu k1 j1).
    + by eapply (c_uniq sb s Hc k1 k2 j1 j2).
  - intros k j Hkj Hr. destruct (Hk _ _ Hkj) as [[-> ->]|[N L]]; [by apply H2|by eapply (c_entry sb s Hc k)].
  - intros k j Hkj Hr Hv. destruct (Hk _ _ Hkj) as [[-> ->]|[N L]]; [by apply H3|by eapply (c_valid sb s Hc k)].
Qed.

(** The inodes that the other entries hold are not affected; the one of the entry
    is the one on disk. *)
Lemma dnodes_set : cache_ok sb (set_inode ip f s) →
  (∀ n, owns (set_inode ip f s) ip n → i_d (f i) = read_dinode sb n (dsk s)) → same_dnodes s (set_inode ip f s).
Proof using Hin Hcl Hi.
  intros Hc' Hnew n Hn. pose proof (v_cache _ _ _ _ Hin) as Hc.
  assert (∀ s', cache_ok sb s' → dsk s' = dsk s → (∀ k, owns s' k n → din k s' = read_dinode sb n (dsk s)) →
    dnode sb s' n = read_dinode sb n (dsk s)) as Hdisk.
  { intros s' Hs' Ed Hd. unfold dnode. destruct (find_index (holds_inum n) (icache s')) as [k|] eqn:E; [|by rewrite Ed].
    apply Hd. apply find_index_Some in E as [(j & Hj & Hh) _]. unfold holds_inum in Hh. bool_facts. exists j. by split_and!. }
  trans (read_dinode sb n (dsk s)).
  - apply Hdisk; [done|done|]. intros k Hk. rewrite din_set_entry. case_decide as E.
    + subst k. by apply Hnew.
    + apply owns_set in Hk. rewrite decide_False in Hk by done. symmetry. by apply Hcl.
  - symmetry. apply Hdisk; [done|done|]. intros k Hk. symmetry. by apply Hcl.
Qed.

Lemma entry_good : good s → cache_ok sb (set_inode ip f s) →
  (∀ n, owns (set_inode ip f s) ip n → i_d (f i) = read_dinode sb n (dsk s) ∧ d_type (i_d (f i)) ≠ 0) →
  good (set_inode ip f s) ∧ ∀ n, inum_ok sb n → agree (abs (set_inode ip f s) n) (abs s n).
Proof using Hin Hcl Hi Hsb.
  intros Hg Hc Hnew. apply recached_good; [done|apply recached_set|done|..].
  - apply dnodes_set; [done|]. intros n Hn. by apply Hnew.
  - intros k n Hk. rewrite din_set_entry. pose proof Hk as Hk'. apply owns_set in Hk'. case_decide as E.
    + subst k. destruct (Hnew n Hk) as [-> Hd]. done.
    + split; [by apply Hcl|by eapply (g_live _ _ Hg)].
Qed.

(** An entry in use that keeps its inode and its dinode. *)
Lemma entry_same : good s → i_inum (f i) = i_inum i → i_dev (f i) = i_dev i → i_valid (f i) = i_valid i → i_d (f i) = i_d i →
  (0 < i_ref (f i) → 0 < i_ref i) →
  good (set_inode ip f s) ∧ ∀ n, inum_ok sb n → agree (abs (set_inode ip f s) n) (abs s n).
Proof using Hin Hcl Hi Hsb.
  intros Hg E1 E2 E3 E4 Hr. pose proof (v_cache _ _ _ _ Hin) as Hc. apply entry_good; [done|..].
  - apply cache_ok_set; rewrite ?E1, ?E2, ?E3, ?E4.
    + intros H. left. auto.
    + intros H. by apply (c_entry sb s Hc ip i Hi), Hr.
    + intros H Hv. by apply (c_valid sb s Hc ip i Hi); [apply Hr|].
  - intros n Hn. apply owns_set in Hn. rewrite decide_True in Hn by done. destruct Hn as (Hp & Hv & <-). rewrite E1, E3, E4 in *.
    assert (owns s ip (i_inum i)) as Ho by (exists i; split_and!; auto).
    assert (din ip s = i_d i) as Ed by (unfold din, inode_at; by rewrite (list_lookup_total_correct _ _ _ Hi)).
    split; [rewrite <-Ed; symmetry; by apply Hcl|]. rewrite <-Ed. by eapply (g_live _ _ Hg).
Qed.

End entry.
(** ** The calls *)

Lemma idup_spec ip s i : good s → icache s !! ip = Some i → 0 < i_ref i →
  let s' := idup ip s in
  good s' ∧ (∀ n, inum_ok sb n → agree (abs s' n) (abs s n)) ∧ ∀ n, nref s' n = nref s n + one (i_inum i) n.
Proof.
  intros Hg Hi Hr s'. unfold s', idup. pose proof Hg as [(P & Hin) Hcl _ _ _].
  destruct (entry_same s ip (λ i, i <| i_ref := i_ref i + 1 |>) i P Hin Hcl Hi Hg) as [A B]; try done.
  split_and!; [done|done|]. intros n. rewrite (nref_set s ip _ i Hi). unfold ref_of, one. cbn.
  rewrite !(proj2 (Z.ltb_lt 0 _)) by lia. cbn [andb]. destruct (Z.eqb_spec (i_inum i) n), (decide (i_inum i = n)); congruence || lia.
Qed.

Lemma iget_spec inum s : good s → inum_ok sb inum →
  match iget ROOTDEV inum s with
  | None => ∀ i, i ∈ icache s → i_ref i ≠ 0
  | Some (ip, s') => good s' ∧ (∀ n, inum_ok sb n → agree (abs s' n) (abs s n)) ∧
      (∀ n, nref s' n = nref s n + one inum n) ∧
      ∃ i, icache s' !! ip = Some i ∧ 0 < i_ref i ∧ i_dev i = ROOTDEV ∧ i_inum i = inum
  end.
Proof.
  intros Hg Hn. pose proof Hg as [(P & Hin) Hcl _ _ _]. pose proof (v_cache _ _ _ _ Hin) as Hc. unfold iget.
  destruct (find_index (cached ROOTDEV inum) (icache s)) as [ip|] eqn:E.
  - apply find_index_Some in E as [(i & Hi & Hh) _]. unfold cached in Hh. bool_facts.
    destruct (idup_spec ip s i Hg Hi ltac:(done)) as (A & B & C). unfold idup in *. split_and!; [done|done|by subst|].
    exists (i <| i_ref := i_ref i + 1 |>). rewrite set_inode_lookup, decide_True, Hi by done. cbn. split_and!; [done|lia|done|done].
  - destruct (find_index (λ i, i_ref i =? 0) (icache s)) as [ip|] eqn:E0.
    2: { intros i Hi H0. pose proof (find_index_None _ _ E0 i Hi) as Hf. cbn in Hf. lia. }
    apply find_index_Some in E0 as [(i & Hi & Hz) _]. apply Z.eqb_eq in Hz.
    set (f := λ i, mk_inode ROOTDEV inum 1 (i_locked i) false (i_d i) 0 0).
    destruct (entry_good s ip f i P Hin Hcl Hi Hg) as [A B].
    + apply (cache_ok_set s ip f i P Hin Hi); [|done|done]. intros _. right. intros k j Hj Hr _ Ej. change (i_inum (f i)) with inum in Ej.
      pose proof (find_index_None _ _ E j (list_elem_of_lookup_2 _ _ _ Hj)) as Hno. unfold cached in Hno.
      rewrite (proj2 (Z.ltb_lt _ _) Hr), (proj2 (Z.eqb_eq _ _) Ej) in Hno. destruct (c_entry sb s Hc k j Hj Hr) as [Ed _].
      by rewrite (proj2 (Z.eqb_eq _ _) Ed) in Hno.
    + intros n Ho. apply (owns_set s ip f i Hi) in Ho. rewrite decide_True in Ho by done. by destruct Ho as (_ & ? & _).
    + split_and!; [done|done| |].
      * intros n. rewrite (nref_set s ip f i Hi). unfold ref_of, one. cbn. rewrite Hz. cbn.
        destruct (Z.eqb_spec inum n), (decide (inum = n)); congruence || lia.
      * exists (f i). rewrite set_inode_lookup, decide_True, Hi by done. by split_and!.
Qed.

Lemma iunlock_spec ip s i : good s → icache s !! ip = Some i → 0 < i_ref i → i_locked i = true →
  ∃ s', iunlock ip s = Some s' ∧ good s' ∧ (∀ n, inum_ok sb n → agree (abs s' n) (abs s n)) ∧
    (∀ n, nref s' n = nref s n) ∧ i_locked (inode_at ip s') = false.
Proof.
  intros Hg Hi Hr Hl. pose proof Hg as [(P & Hin) Hcl _ _ _]. unfold iunlock. assert (inode_at ip s = i) as -> by (by apply list_lookup_total_correct).
  rewrite Hl, (proj2 (Z.ltb_ge _ _)) by lia. cbn [negb orb]. eexists. split; [done|].
  destruct (entry_same s ip (λ i, i <| i_locked := false |>) i P Hin Hcl Hi Hg) as [A B]; try done.
  split_and!; [done|done| |].
  - intros n. rewrite (nref_set s ip _ i Hi). unfold ref_of. cbn. lia.
  - unfold inode_at. by rewrite list_lookup_total_alt, set_inode_lookup, decide_True, Hi.
Qed.

Lemma inode_at_entry ip s i : icache s !! ip = Some i → inode_at ip s = i.
Proof. apply list_lookup_total_correct. Qed.

Lemma ilock_spec ip s i : good s → icache s !! ip = Some i → 0 < i_ref i → i_locked i = false →
  match ilock sb ip s with
  | None => d_type (dnode sb s (i_inum i)) = 0
  | Some s' => good s' ∧ (∀ n, inum_ok sb n → agree (abs s' n) (abs s n)) ∧ (∀ n, nref s' n = nref s n) ∧
      owns s' ip (i_inum i) ∧ i_locked (inode_at ip s') = true
  end.
Proof.
  intros Hg Hi Hr Hl. pose proof Hg as [(P & Hin) Hcl _ _ _]. unfold ilock.
  rewrite (inode_at_entry ip s i Hi), (proj2 (Z.ltb_ge _ _)), Hl by lia.
  destruct (entry_same s ip (λ i, i <| i_locked := true |>) i P Hin Hcl Hi Hg) as [A B]; try done.
  set (s1 := set_inode ip (λ i, i <| i_locked := true |>) s) in *. set (i1 := i <| i_locked := true |>).
  assert (icache s1 !! ip = Some i1) as Hi1 by (unfold s1; by rewrite set_inode_lookup, decide_True, Hi).
  assert (∀ n, nref s1 n = nref s n) as Hn1 by (intros n; unfold s1; rewrite (nref_set s ip _ i Hi); unfold ref_of; cbn; lia).
  rewrite (inode_at_entry ip s1 i1 Hi1). change (i_valid i1) with (i_valid i). change (i_inum i1) with (i_inum i).
  destruct (i_valid i) eqn:Ev.
  { split_and!; [done|done|done| |by rewrite (inode_at_entry ip s1 i1 Hi1)]. exists i1. by split_and!. }
  set (d := read_dinode sb (i_inum i) (dsk s1)). set (f := λ i, i <| i_d := d |> <| i_valid := true |>).
  pose proof A as [(P1 & Hin1) Hcl1 _ _ _]. pose proof (v_cache _ _ _ _ Hin1) as Hc1.
  assert (din ip (set_inode ip f s1) = d) as -> by (by rewrite (din_set_entry s1 ip f i1 Hi1 ip), decide_True).
  destruct (c_entry sb s1 Hc1 ip i1 Hi1 Hr) as [Hdev Hnum].
  destruct (Z.eqb_spec (d_type d) 0) as [Et|Et].
  { pose proof (v_cache _ _ _ _ Hin) as Hc. unfold dnode. destruct (find_index (holds_inum (i_inum i)) (icache s)) as [k|] eqn:E; [|done].
    exfalso. apply find_index_Some in E as [(j & Hj & Hh) _]. unfold holds_inum in Hh. bool_facts.
    assert (k = ip) as -> by (by eapply (c_uniq sb s Hc k ip j i)). congruence. }
  destruct (entry_good s1 ip f i1 P1 Hin1 Hcl1 Hi1 A) as [A' B'].
  - apply (cache_ok_set s1 ip f i1 P1 Hin1 Hi1); [intros _; by left|done|]. intros _ _. apply read_dinode_ok. apply Hin1.
  - intros n Ho. apply (owns_set s1 ip f i1 Hi1) in Ho. rewrite decide_True in Ho by done. by destruct Ho as (_ & _ & <-).
  - split_and!.
    + done.
    + intros n Hn. etrans; [by apply B'|by apply B].
    + intros n. rewrite (nref_set s1 ip f i1 Hi1), <-Hn1. unfold ref_of. cbn. lia.
    + apply (owns_set s1 ip f i1 Hi1). by rewrite decide_True.
    + unfold inode_at. by rewrite list_lookup_total_alt, set_inode_lookup, decide_True, Hi1.
Qed.

(** *** iput() *)

Lemma zero_addrs s P n : inv s P zero → inum_ok sb n → length (d_addrs (dnode sb s n)) = 13%nat → (∀ p, P !! (n, p) = None) →
  d_addrs (dnode sb s n) = replicate 13 0.
Proof.
  intros Hi Hn Hlen Hno.
  assert (∀ p, valid_pos p → parent p = None → d_addrs (dnode sb s n) !!! Z.to_nat (index p) = 0) as Hz.
  { intros p Hp Hr. pose proof (ptr_lookup sb s P n p (v_linked _ _ _ _ Hi) Hn Hp) as E. rewrite Hno, ptr_unfold, Hr in E by done. exact E. }
  symmetry. apply replicate_as_Forall. split; [done|]. apply Forall_lookup. intros i x Hx.
  pose proof (lookup_lt_Some _ _ _ Hx) as Hi13. apply list_lookup_total_correct in Hx. rewrite <-Hx. symmetry.
  assert (i < 11 ∨ i = 11 ∨ i = 12)%nat as [H|[->| ->]] by lia.
  - specialize (Hz (PData (Z.of_nat i))). cbn [parent index] in Hz. rewrite (proj2 (Z.ltb_lt _ _)) in Hz by (unfold NDIRECT; lia).
    rewrite Nat2Z.id in Hz. apply Hz; [cbn; layout_lia|done].
  - by apply (Hz PInd).
  - by apply (Hz PDind).
Qed.

Lemma addrs_length s P n : inv s P zero → inum_ok sb n → length (d_addrs (dnode sb s n)) = 13%nat.
Proof.
  intros Hi Hn. pose proof (v_cache _ _ _ _ Hi) as Hc. unfold dnode.
  destruct (find_index (holds_inum n) (icache s)) as [k|] eqn:E.
  - apply find_index_Some in E as [(j & Hj & Hh) _]. unfold holds_inum in Hh. bool_facts.
    unfold din. rewrite (inode_at_entry k s j Hj). by apply (c_valid sb s Hc k j).
  - apply read_dinode_ok, Hi.
Qed.

Definition freed (a : afile) : afile := a <| af_type := 0 |> <| af_size := 0 |> <| af_data := λ _, 0 |>.

(** The part of iput() that frees the inode, up to the reference. *)
Lemma iput_frees ip s i : good s → icache s !! ip = Some i → i_ref i = 1 → i_valid i = true → i_locked i = false →
  ∃ s5, (let s := set_inode ip (λ i, i <| i_locked := true |>) s in
         s ← itrunc sb ip s;
         let s := s <| xattrs := xattr_clear (i_dev i) (i_inum i) (xattrs s) |> in
         let s := set_din ip (λ d, d <| d_type := 0 |>) s in
         Some (iupdate sb ip s)) = Some s5 ∧
    (∃ P, inv s5 P zero) ∧ clean sb s5 ∧ nfree sb s ≤ nfree sb s5 ∧
    (∃ d, icache s5 !! ip = Some (i <| i_locked := true |> <| i_d := d |>)) ∧
    (∀ k, k ≠ ip → icache s5 !! k = icache s !! k) ∧
    (∀ n, inum_ok sb n → n ≠ i_inum i → dnode sb s5 n = dnode sb s n) ∧
    d_addrs (dnode sb s5 (i_inum i)) = replicate 13 0 ∧
    (∀ n, inum_ok sb n → agree (abs s5 n) (if decide (n = i_inum i) then freed (abs s n) else abs s n)).
Proof.
  intros Hg Hi Hr Hv Hl. pose proof Hg as [(P & Hin) Hcl _ _ _].
  destruct (entry_same s ip (λ i, i <| i_locked := true |>) i P Hin Hcl Hi Hg) as [A B]; try done.
  set (s1 := set_inode ip (λ i, i <| i_locked := true |>) s) in *. set (i1 := i <| i_locked := true |>).
  assert (icache s1 !! ip = Some i1) as Hi1 by (unfold s1; by rewrite set_inode_lookup, decide_True, Hi).
  assert (owns s1 ip (i_inum i)) as Ho1 by (exists i1; split_and!; try done; cbn; lia). set (inum := i_inum i) in *.
  pose proof A as [(P1 & Hin1) Hcl1 _ _ _]. pose proof (v_cache _ _ _ _ Hin1) as Hc1.
  pose proof (owns_inum sb s1 ip inum Hc1 Ho1) as Hn.
  destruct (itrunc_spec sb Hsb ip inum s1 P1 Hin1 Ho1) as (s2 & d2 & P2 & Hs2 & (_ & Hsv2 & Hct2) & Hm2 & Hd2 & Hf2 & Hin2 & Hno2).
  cbn zeta. rewrite Hs2. cbn [mbind option_bind].
  set (s3 := s2 <| xattrs := xattr_clear (i_dev i) inum (xattrs s2) |>).
  assert (inv s3 P2 zero) as Hin3.
  { apply (recached_inv s2 s3 P2 Hin2); [done|destruct (v_cache _ _ _ _ Hin2); by split|done]. }
  pose proof (proj1 (saves_owns sb ip inum s1 s2 d2 ip inum Ho1 Hsv2) Ho1) as Ho2.
  assert (owns s3 ip inum) as Ho3 by exact Ho2.
  assert (clean sb s3) as Hcl3 by exact (saves_clean sb ip inum s1 s2 d2 Hc1 Ho1 Hcl1 Hsv2).
  assert (din ip s3 = d2) as Ed3.
  { unfold din, inode_at. change (icache s3) with (icache s2). by rewrite (list_lookup_total_correct _ _ _ (sv_own _ _ _ _ _ _ Hsv2)). }
  destruct (finish_spec sb Hsb ip inum (λ d, d <| d_type := 0 |>) s3 s3 P2 Hin3 Ho3 (touches_refl sb ip s3)) as (Hin5 & Hsv5 & Hsf5 & Hnf5); [|done|].
  { intros [? ? ? ? ? ? ? ?]. split; try done. }
  rewrite Ed3 in Hsv5. set (s5 := iupdate sb ip (set_din ip (λ d, d <| d_type := 0 |>) s3)) in *.
  pose proof (v_cache _ _ _ _ Hin5) as Hc5. pose proof (v_cache _ _ _ _ Hin2) as Hc2.
  assert (∀ n, inum_ok sb n → dnode sb s5 n = if decide (n = inum) then d2 <| d_type := 0 |> else dnode sb s1 n) as Hdn.
  { intros n Hnn. rewrite (saves_dnode sb ip inum s3 s5 _ n (v_cache _ _ _ _ Hin3) Hc5 Ho3 Hsv5 Hnn). case_decide; [done|].
    change (dnode sb s3 n) with (dnode sb s2 n). rewrite (saves_dnode sb ip inum s1 s2 d2 n Hc1 Hc2 Ho1 Hsv2 Hnn). by rewrite decide_False. }
  assert (same_dnodes s s1) as Hdn1.
  { apply (dnodes_set s ip _ i P Hin Hcl Hi Hc1). intros n Hown. apply (owns_set s ip _ i Hi) in Hown. rewrite decide_True in Hown by done.
    destruct Hown as (_ & _ & <-). assert (owns s ip inum) as Ho by (exists i; split_and!; try done; lia).
    change (i_d i = read_dinode sb inum (dsk s)). rewrite (Hcl ip inum Ho). unfold din. by rewrite (inode_at_entry ip s i Hi). }
  eexists. split; [done|]. split_and!.
  - by exists P2.
  - by apply (saves_clean sb ip inum s3 s5 (d2 <| d_type := 0 |>) (v_cache _ _ _ _ Hin3)).
  - rewrite Hnf5. change (nfree sb s3) with (nfree sb s2). exact Hf2.
  - exists (d2 <| d_type := 0 |>). rewrite (sv_own _ _ _ _ _ _ Hsv5).
    unfold inode_at at 1. change (icache s3) with (icache s2). rewrite (list_lookup_total_correct _ _ _ (sv_own _ _ _ _ _ _ Hsv2)).
    rewrite (inode_at_entry ip s1 i1 Hi1). done.
  - intros k Hk. rewrite (sv_other _ _ _ _ _ _ Hsv5) by done. change (icache s3) with (icache s2).
    rewrite (sv_other _ _ _ _ _ _ Hsv2) by done. unfold s1. by rewrite set_inode_lookup, decide_False.
  - intros n Hnn Hne. rewrite Hdn, decide_False by done. by apply Hdn1.
  - apply (zero_addrs s5 P2 inum Hin5 Hn); [by eapply addrs_length|done].
  - intros n Hnn. unfold abs at 1. rewrite Hdn by done.
    assert (∀ o, off_ok o → content sb s5 n o = if decide (n = inum) then 0 else content sb s1 n o) as HC.
    { intros o Hoo. rewrite Hsf5 by done. change (content sb s3 n o) with (content sb s2 n o). by rewrite Hct2. }
    pose proof (B n Hnn) as Bn. case_decide as E.
    + subst n. assert (din ip s1 = i_d i) as Ed1 by (unfold din; by rewrite (inode_at_entry ip s1 i1 Hi1)).
      assert (dnode sb s inum = i_d i) as Edn.
      { rewrite <-Hdn1 by done. rewrite (dnode_owns sb s1 ip inum Hc1 Ho1). done. }
      destruct Hm2 as (M1 & M2 & M3 & M4 & M5). rewrite Ed1 in *. unfold agree, freed, abs, file_of. rewrite Edn. cbn.
      split_and!; try done; try congruence. 
    + etrans; [|exact Bn]. unfold agree, abs. cbn. by split_and!.
Qed.

Lemma set_inode_compose ip f g s : set_inode ip f (set_inode ip g s) = set_inode ip (f ∘ g) s.
Proof. unfold set_inode. cbn [icache upd icache_set]. by rewrite list_alter_alter_eq. Qed.

(** Whether iput() frees the inode. *)
Definition last_ref (i : inode) : bool := (i_ref i =? 1) && i_valid i && (d_nlink (i_d i) =? 0).

(** The entry lost a reference, the others did not change. *)
Definition dropped (ip : nat) (i : inode) (s s' : fs) : Prop :=
  (∀ k, k ≠ ip → icache s' !! k = icache s !! k) ∧
  ∃ i', icache s' !! ip = Some i' ∧ i_ref i' = i_ref i - 1 ∧ i_inum i' = i_inum i ∧ i_locked i' = i_locked i.

Lemma iput_last ip s i : good s → icache s !! ip = Some i → last_ref i = true → i_locked i = false →
  ∃ s', iput sb ip s = Some s' ∧ good s' ∧ nfree sb s ≤ nfree sb s' ∧ dropped ip i s s' ∧ (∀ n, nref s' n = nref s n - one (i_inum i) n) ∧
    ∀ n, inum_ok sb n → agree (abs s' n) (if decide (n = i_inum i) then freed (abs s n) else abs s n).
Proof.
  intros Hg Hi Hlast Hl. pose proof Hlast as Hlast'. unfold last_ref in Hlast'. bool_facts.
  destruct (iput_frees ip s i Hg Hi) as (s5 & Hs5 & (P & Hin) & Hcl & Hnf & (d & Hi5) & Hoth & Hdn & Hz & Hab); try done.
  unfold iput. rewrite (inode_at_entry ip s i Hi). fold (last_ref i). rewrite Hlast, Hl. cbn zeta in Hs5 |- *.
  destruct (itrunc sb ip _) as [s2|]; [|done]. cbn [mbind option_bind] in Hs5 |- *. injection Hs5 as ->.
  rewrite !set_inode_compose. set (f := _ ∘ _). set (i5 := i <| i_locked := true |> <| i_d := d |>) in *.
  eexists. split; [done|]. set (s' := set_inode ip f s5).
  assert (∀ k n, owns s' k n → k ≠ ip ∧ owns s5 k n) as How.
  { intros k n Ho. apply (owns_set s5 ip f i5 Hi5) in Ho. case_decide; [|done]. cbn in Ho. by destruct Ho as (_ & ? & _). }
  assert (cache_ok sb s') as Hc'.
  { apply (cache_ok_set s5 ip f i5 P Hin Hi5); cbn; lia. }
  assert (same_dnodes s5 s') as Hsd.
  { apply (dnodes_set s5 ip f i5 P Hin Hcl Hi5 Hc'). intros n Ho. by destruct (How _ _ Ho). }
  destruct (recached_inv s5 s' P Hin (recached_set s5 ip f) Hc' Hsd) as [Hin' Hsf].
  assert (∀ n, inum_ok sb n → agree (abs s' n) (abs s5 n)) as Hag.
  { intros n Hn. unfold abs. rewrite Hsd by done. unfold agree. cbn. split_and!; try done. intros o Hoo. by apply Hsf. }
  assert (∀ k n, owns s' k n → din k s' = din k s5 ∧ din k s5 = din k s ∧ owns s k n) as Hdin.
  { intros k n Ho. destruct (How _ _ Ho) as [Hne Ho5]. rewrite (din_set_entry s5 ip f i5 Hi5), decide_False by done.
    unfold din, inode_at, owns in *. by rewrite !list_lookup_total_alt, !Hoth in * by done. }
  split_and!.
  - split.
    + by exists P.
    + intros k n Ho. destruct (How _ _ Ho) as [Hne Ho5]. destruct (Hdin k n Ho) as (-> & _ & _). by apply Hcl.
    + intros n Hn. rewrite Hsd by done. destruct (decide (n = i_inum i)) as [->|Hne].
      * specialize (Hab _ Hn). rewrite decide_True in Hab by done. destruct Hab as (_ & _ & _ & _ & _ & E & _). cbn in E. rewrite E. unfold MAXSIZE; layout_lia.
      * rewrite Hdn by done. by apply (g_sizes _ _ Hg).
    + intros n Hn. rewrite Hsd by done. destruct (decide (n = i_inum i)) as [->|Hne]; [done|]. rewrite Hdn by done. by apply (g_dead _ _ Hg).
    + intros k n Ho. destruct (Hdin k n Ho) as (-> & -> & Ho'). by eapply (g_live _ _ Hg).
  - exact Hnf.
  - split.
    + intros k Hk. unfold s'. by rewrite set_inode_lookup, decide_False, Hoth.
    + exists (f i5). unfold s'. rewrite set_inode_lookup, decide_True, Hi5 by done. by split_and!.
  - intros n. unfold s'. rewrite (nref_set s5 ip f i5 Hi5).
    assert (nref s5 n = nref s n) as ->.
    { unfold nref. assert (icache s5 = <[ip := i5]> (icache s)) as ->.
      { apply list_eq. intros k. destruct (decide (k = ip)) as [->|Hne]; [|by rewrite list_lookup_insert_ne, Hoth].
        rewrite Hi5, list_lookup_insert_eq; [done|]. by eapply lookup_lt_Some. }
      rewrite (sum_with_insert _ _ _ i) by done. unfold ref_of. cbn. lia. }
    unfold ref_of, one. cbn. replace (i_ref i) with 1 by lia. cbn. change (0 <? 1 - 1) with false; cbn [andb]; destruct (Z.eqb_spec (i_inum i) n), (decide (i_inum i = n)); congruence || lia.
  - intros n Hn. etrans; [by apply Hag|by apply Hab].
Qed.

Lemma iput_spec ip s i : good s → icache s !! ip = Some i → 0 < i_ref i → (last_ref i = true → i_locked i = false) →
  ∃ s', iput sb ip s = Some s' ∧ good s' ∧ nfree sb s ≤ nfree sb s' ∧ dropped ip i s s' ∧ (∀ n, nref s' n = nref s n - one (i_inum i) n) ∧
    ∀ n, inum_ok sb n → agree (abs s' n) (if decide (n = i_inum i ∧ last_ref i = true) then freed (abs s n) else abs s n).
Proof.
  intros Hg Hi Hr Hl. destruct (last_ref i) eqn:E.
  - destruct (iput_last ip s i Hg Hi E (Hl eq_refl)) as (s' & H1 & H2 & H3 & H4 & H5 & H6). exists s'. split_and!; try done.
    intros n Hn. rewrite (decide_ext (n = i_inum i ∧ true = true) (n = i_inum i)) by naive_solver. by apply H6.
  - unfold iput. rewrite (inode_at_entry ip s i Hi). fold (last_ref i). rewrite E. cbn [mbind option_bind]. eexists. split; [done|].
    pose proof Hg as [(P & Hin) Hcl _ _ _].
    destruct (entry_same s ip (λ i, i <| i_ref := i_ref i - 1 |>) i P Hin Hcl Hi Hg) as [A B]; try done.
    split_and!; [done|done| | |intros n Hn; rewrite decide_False by naive_solver; by apply B].
    { split; [intros k Hk; by rewrite set_inode_lookup, decide_False|]. eexists. rewrite set_inode_lookup, decide_True, Hi by done. by split_and!. }
    intros n. rewrite (nref_set s ip _ i Hi). unfold ref_of, one. cbn. rewrite (proj2 (Z.ltb_lt 0 (i_ref i))) by lia. cbn [andb].
    destruct (Z.ltb_spec 0 (i_ref i - 1)), (Z.eqb_spec (i_inum i) n), (decide (i_inum i = n)); cbn; congruence || lia.
Qed.

(** *** ialloc() *)

Definition blank (type : Z) : dinode := mk_dinode 3 type 0 0 0 0 (replicate 13 0).

(** The stores of ialloc(). *)
Definition mark (inum type : Z) (m : Z → Z) : Z → Z :=
  let a := dinode_addr sb inum in store_bytes a [3] (store_bytes (a + 1) [type] (memset a 0 64 m)).

Lemma mark_out inum type m x : ¬ (dinode_addr sb inum ≤ x < dinode_addr sb inum + 64) → mark inum type m x = m x.
Proof.
  intros Hx. unfold mark. set (a := dinode_addr sb inum) in *.
  by rewrite !store_bytes_out, memset_out by (cbn; lia).
Qed.

Lemma mark_zero inum type m x : dinode_addr sb inum + 2 ≤ x < dinode_addr sb inum + 64 → mark inum type m x = 0.
Proof.
  intros Hx. unfold mark. set (a := dinode_addr sb inum) in *.
  by rewrite !store_bytes_out, memset_in by (cbn; lia).
Qed.

Lemma read_mark inum type m : read_dinode sb inum (mark inum type m) = blank type.
Proof.
  pose proof (mark_zero inum type m) as Hz. set (a := dinode_addr sb inum) in *. set (m' := mark inum type m) in *.
  assert (∀ n p, 0 ≤ n → a + 2 ≤ p → p + n ≤ a + 64 → load_le n m' p = 0) as H0.
  { intros n p Hn Hp Hpn. rewrite (load_le_ext n m' (memset p 0 n m')); [apply load_le_memset0; lia|].
    intros x Hx. rewrite Hz, memset_in by lia. done. }
  unfold read_dinode. fold a. rewrite !H0 by lia. unfold load32. rewrite H0 by lia. unfold blank. f_equal.
  - unfold m', mark. fold a. rewrite store_bytes_in by (cbn; lia). by rewrite Z.sub_diag.
  - unfold m', mark. fold a. rewrite store_bytes_out, store_bytes_in by (cbn; lia). by rewrite Z.sub_diag.
  - symmetry. apply replicate_as_Forall. split; [by rewrite length_fmap, length_seqZ|].
    apply Forall_fmap, Forall_forall. intros i Hi. apply elem_of_seqZ in Hi. symmetry. apply H0; lia.
Qed.

Lemma mark_bytes inum type m : is_byte type → (∀ x, 0 ≤ m x < 256) → ∀ x, 0 ≤ mark inum type m x < 256.
Proof.
  intros Ht Hm x. unfold mark, store_bytes, memset, is_byte in *. repeat case_match; bool_facts; cbn in *; try lia; try apply Hm.
  - by replace (Z.to_nat (x - dinode_addr sb inum)) with 0%nat by lia.
  - by replace (Z.to_nat (x - (dinode_addr sb inum + 1))) with 0%nat by lia.
Qed.

(** A free inode on disk is not in use by a cache entry. *)
Lemma free_unowned s n ip : good s → disk_type sb n s = 0 → ¬ owns s ip n.
Proof. intros Hg H0 Ho. apply (g_live _ _ Hg ip n Ho). rewrite <-(g_clean _ _ Hg ip n Ho). exact H0. Qed.

Lemma dnode_unowned s n : (∀ ip, ¬ owns s ip n) → dnode sb s n = read_dinode sb n (dsk s).
Proof.
  intros Hno. unfold dnode. destruct (find_index (holds_inum n) (icache s)) as [k|] eqn:E; [|done]. exfalso. apply (Hno k).
  apply find_index_Some in E as [(j & Hj & Hh) _]. unfold holds_inum in Hh. bool_facts. exists j. by split_and!.
Qed.

Lemma no_blocks s n p : d_addrs (dnode sb s n) = replicate 13 0 → valid_pos p → ptr sb s n p = 0.
Proof.
  intros Ha Hp. assert (∀ i, 0 ≤ i < 13 → faddr sb s n i = 0) as Hz.
  { intros i Hi13. unfold faddr. rewrite Ha. by rewrite lookup_total_replicate_2 by lia. }
  remember (rank p) as k eqn:Ek. revert p Hp Ek. induction (lt_wf k) as [k _ IH]. intros p Hp ->.
  rewrite ptr_unfold by done. pose proof (index_range p Hp) as Hx. destruct (parent p) as [q|] eqn:Eq.
  - destruct (parent_valid p q Hp Eq) as [Hq _]. rewrite (IH (rank q)); [done|by apply parent_rank|done|done].
  - apply Hz. lia.
Qed.

Lemma content_empty s P n o : inv s P zero → inum_ok sb n → off_ok o → d_addrs (dnode sb s n) = replicate 13 0 → content sb s n o = 0.
Proof.
  intros Hi Hn Ho Ha. apply (content_hole sb s P zero); [done|done|done|].
  apply (ptr_None sb s P n (PData (o / BSIZE)) (v_linked _ _ _ _ Hi) Hn); [done|]. by apply no_blocks.
Qed.

Definition new_file (type : Z) : afile := file_of (blank type) (λ _, 0).

Lemma mark_spec s inum type : good s → inum_ok sb inum → disk_type sb inum s = 0 → 0 < type < 256 →
  let s' := log_write (IBLOCK sb inum) (s <| dsk := mark inum type (dsk s) |>) in
  good s' ∧ nfree sb s' = nfree sb s ∧ (∀ n, nref s' n = nref s n) ∧
  ∀ n, inum_ok sb n → agree (abs s' n) (if decide (n = inum) then new_file type else abs s n).
Proof.
  intros Hg Hn H0 Ht s'. pose proof Hg as [(P & Hi) Hcl Hsz Hdead Hlive]. pose proof (v_cache _ _ _ _ Hi) as Hc.
  pose proof (log_write_fields (IBLOCK sb inum) (s <| dsk := mark inum type (dsk s) |>)) as (L1 & L2 & L3 & L4 & L5). fold s' in L1, L2, L3, L4, L5.
  pose proof (dinode_addr_range sb Hsb inum Hn) as Hr.
  assert (∀ ip n, owns s' ip n ↔ owns s ip n) as How by (intros ip n; unfold owns; by rewrite L4).
  assert (∀ ip, din ip s' = din ip s) as Hdin by (intros ip; unfold din, inode_at; by rewrite L4).
  assert (∀ n, n ≠ inum → read_dinode sb n (dsk s') = read_dinode sb n (dsk s)) as Hrd.
  { intros n Hne. apply read_dinode_ext. intros x Hx. rewrite L1. apply mark_out. pose proof (dinode_disjoint sb n inum Hne). lia. }
  assert (∀ ip, ¬ owns s ip inum) as Hno by (intros ip; by apply free_unowned).
  assert (dnode sb s' inum = blank type) as Hd1.
  { rewrite dnode_unowned by (intros ip; by rewrite How). rewrite L1. apply read_mark. }
  assert (∀ n, n ≠ inum → dnode sb s' n = dnode sb s n) as Hd2.
  { intros n Hne. apply dnode_same; [done|]. intros _. by apply Hrd. }
  assert (d_addrs (dnode sb s inum) = replicate 13 0) as Hz.
  { apply Hdead; [done|]. rewrite dnode_unowned by done. exact H0. }
  destruct (inode_area_keep sb Hsb s s' P zero Hi L4 L2 L3) as [Hi' Hsf].
  { intros x Hx. rewrite L1. apply mark_out. lia. }
  { intros x. rewrite L1. apply mark_bytes; [unfold is_byte; lia|apply Hi]. }
  { intros n i _ _. unfold faddr. destruct (decide (n = inum)) as [->|Hne]; [by rewrite Hd1, Hz|by rewrite Hd2]. }
  split_and!.
  - split.
    + by exists P.
    + intros ip n Ho. rewrite Hdin, Hrd by (intros ->; by eapply Hno, How). by apply Hcl, How.
    + intros n Hnn. destruct (decide (n = inum)) as [->|Hne]; [rewrite Hd1; cbn; unfold MAXSIZE; layout_lia|]. rewrite Hd2 by done. by apply Hsz.
    + intros n Hnn. destruct (decide (n = inum)) as [->|Hne]; [by rewrite Hd1|]. rewrite Hd2 by done. by apply Hdead.
    + intros ip n Ho. rewrite Hdin. eapply Hlive. by apply How.
  - by apply nfree_eq.
  - intros n. unfold nref. by rewrite L4.
  - intros n Hnn. unfold abs. case_decide as E.
    + subst n. rewrite Hd1. unfold agree, new_file, file_of. cbn. split_and!; try done. intros o Hoo. rewrite Hsf by done. by eapply content_empty.
    + rewrite Hd2 by done. unfold agree. cbn. split_and!; try done. intros o Hoo. by apply Hsf.
Qed.

Lemma ialloc_spec type s : good s → 0 < type < 256 →
  match ialloc sb ROOTDEV type s with
  | None => (∀ n, inum_ok sb n → disk_type sb n s ≠ 0) ∨ ∀ i, i ∈ icache s → i_ref i ≠ 0
  | Some (ip, s') => good s' ∧ nfree sb s' = nfree sb s ∧ ∃ i, icache s' !! ip = Some i ∧ 0 < i_ref i ∧
      inum_ok sb (i_inum i) ∧ disk_type sb (i_inum i) s = 0 ∧ (∀ n, inum_ok sb n → disk_type sb n s = 0 → i_inum i ≤ n) ∧
      (∀ n, nref s' n = nref s n + one (i_inum i) n) ∧
      ∀ n, inum_ok sb n → agree (abs s' n) (if decide (n = i_inum i) then new_file type else abs s n)
  end.
Proof.
  intros Hg Ht. unfold ialloc. destruct (find_index (λ inum, disk_type sb inum s =? 0) (range 1 (sb_ninodes sb))) as [k|] eqn:E.
  2: { left. intros n Hn H0. pose proof (find_index_None _ _ E n ltac:(by apply in_range)) as Hf. by apply Z.eqb_neq in Hf. }
  apply find_index_Some in E as [(x & Hx & H0) Hbefore]. apply Z.eqb_eq in H0.
  unfold range in Hx, Hbefore. apply lookup_seqZ in Hx as [Ex Hk]. rewrite <-Ex.
  assert (inum_ok sb x) as Hn by (unfold inum_ok; lia).
  cbn zeta. fold (mark x type (dsk s)). destruct (mark_spec s x type Hg Hn H0 Ht) as (A & B & C & D).
  set (s1 := log_write _ _) in *. pose proof (iget_spec x s1 A Hn) as Hget.
  assert (icache s1 = icache s) as Eic by exact (proj1 (proj2 (proj2 (proj2 (log_write_fields _ _))))).
  destruct (iget ROOTDEV x s1) as [[ip s']|] eqn:Eg; [|right; by rewrite <-Eic].
  destruct Hget as (A' & B' & C' & i & Hi & Hr & _ & <-). split_and!; [done| |].
  - etrans; [|exact B]. apply nfree_eq. clear -Eg. unfold iget in Eg. repeat case_match; by simplify_eq.
  - exists i. split_and!; try done.
    + intros n Hnn Hz. destruct (decide (i_inum i ≤ n)); [done|]. exfalso.
      specialize (Hbefore (Z.to_nat (n - 1)) n). cbv beta in Hbefore.
      rewrite (proj2 (Z.eqb_eq _ _) Hz) in Hbefore. unfold inum_ok in Hnn.
      assert (true = false) by (apply Hbefore; [lia|apply lookup_seqZ; lia]). done.
    + intros n. by rewrite C', C.
    + intros n Hnn. etrans; [by apply B'|by apply D].
Qed.

(** ** References that are not the last *)

Lemma nref_entry s ip i : cache_ok sb s → icache s !! ip = Some i → 0 < i_ref i → nref s (i_inum i) = i_ref i.
Proof.
  intros Hc Hi Hr. unfold nref. set (j := i <| i_ref := 0 |>).
  pose proof (sum_with_insert (ref_of (i_inum i)) (icache s) ip i j Hi) as E.
  assert (sum_with (ref_of (i_inum i)) (<[ip := j]> (icache s)) = 0) as E0.
  { rewrite (sum_with_ext _ (λ _, 0)); [clear; by induction (<[ip := j]> (icache s))|].
    intros x [k Hk]%list_elem_of_lookup. apply list_lookup_insert_Some in Hk as [(<- & <- & _)|[Hne Hk]]; [done|].
    unfold ref_of. destruct (Z.ltb_spec 0 (i_ref x)), (Z.eqb_spec (i_inum x) (i_inum i)) as [Ei|]; try done.
    exfalso. apply Hne. by eapply (c_uniq sb s Hc ip k i x). }
  assert (ref_of (i_inum i) i = i_ref i) as E1 by (unfold ref_of; by rewrite (proj2 (Z.ltb_lt _ _)), Z.eqb_refl by done).
  change (ref_of (i_inum i) j) with 0 in E. lia.
Qed.

(** The links of the inode of a valid entry. *)
Lemma entry_nlink s ip i : good s → icache s !! ip = Some i → 0 < i_ref i → i_valid i = true →
  af_nlink (abs s (i_inum i)) = d_nlink (i_d i).
Proof.
  intros Hg Hi Hr Hv. pose proof Hg as [(P & Hin) _ _ _ _]. unfold abs, file_of. cbn.
  rewrite (dnode_owns sb s ip _ (v_cache _ _ _ _ Hin)) by (exists i; by split_and!). unfold din. by rewrite (inode_at_entry _ _ _ Hi).
Qed.

(** iput() of an inode with other references or links. *)
Lemma iput_kept s ip i : good s → icache s !! ip = Some i → 0 < i_ref i →
  1 < nref s (i_inum i) ∨ af_nlink (abs s (i_inum i)) ≠ 0 →
  iput sb ip s = Some (set_inode ip (λ i, i <| i_ref := i_ref i - 1 |>) s) ∧
  let s' := set_inode ip (λ i, i <| i_ref := i_ref i - 1 |>) s in
  good s' ∧ (∀ n, nref s' n = nref s n - one (i_inum i) n) ∧ ∀ n, inum_ok sb n → agree (abs s' n) (abs s n).
Proof.
  intros Hg Hi Hr Hk. assert (last_ref i = false) as E.
  { apply not_true_is_false. intros E. unfold last_ref in E. bool_facts. pose proof Hg as [(P & Hin) _ _ _ _].
    rewrite (nref_entry s ip i (v_cache _ _ _ _ Hin) Hi Hr), (entry_nlink s ip i) in Hk by done. lia. }
  assert (iput sb ip s = Some (set_inode ip (λ i, i <| i_ref := i_ref i - 1 |>) s)) as Eq.
  { unfold iput. rewrite (inode_at_entry ip s i Hi). fold (last_ref i). by rewrite E. }
  split; [done|]. destruct (iput_spec ip s i Hg Hi Hr) as (s' & Es & A & _ & _ & B & C); [by rewrite E|].
  rewrite Eq in Es. injection Es as <-. split_and!; try done. intros n Hn. specialize (C n Hn).
  by rewrite E, decide_False in C by naive_solver.
Qed.

(** ** The inode cache as counts of references

    The calls, with what they do to the number of references of the inodes and
    to the files. *)
Inductive icall := Iget (inum : Z) | Idup (ip : nat) | Ialloc (type : Z) | Ilock (ip : nat) | Iunlock (ip : nat) | Iput (ip : nat).

Definition irun (c : icall) (s : fs) : option (nat * fs) :=
  match c with
  | Iget inum => iget ROOTDEV inum s
  | Idup ip => Some (ip, idup ip s)
  | Ialloc type => ialloc sb ROOTDEV type s
  | Ilock ip => s' ← ilock sb ip s; Some (ip, s')
  | Iunlock ip => s' ← iunlock ip s; Some (ip, s')
  | Iput ip => s' ← iput sb ip s; Some (ip, s')
  end.

Definition in_use (ip : nat) (s : fs) : Prop := ∃ i, icache s !! ip = Some i ∧ 0 < i_ref i.

Definition icall_ok (c : icall) (s : fs) : Prop :=
  match c with
  | Iget inum => inum_ok sb inum
  | Idup ip => in_use ip s
  | Ialloc type => 0 < type < 256
  | Ilock ip => in_use ip s ∧ i_locked (inode_at ip s) = false
  | Iunlock ip => in_use ip s ∧ i_locked (inode_at ip s) = true
  | Iput ip => in_use ip s ∧ (last_ref (inode_at ip s) = true → i_locked (inode_at ip s) = false)
  end.

(** The states in which the kernel panics. *)
Definition panics (c : icall) (s : fs) : Prop :=
  match c with
  | Iget _ => ∀ i, i ∈ icache s → i_ref i ≠ 0
  | Ialloc _ => (∀ n, inum_ok sb n → disk_type sb n s ≠ 0) ∨ ∀ i, i ∈ icache s → i_ref i ≠ 0
  | Ilock ip => af_type (abs s (inum_at ip s)) = 0
  | _ => False
  end.

(** The change of the references of the inode that the call is about. *)
Definition dref (c : icall) : Z :=
  match c with Iget _ | Idup _ | Ialloc _ => 1 | Ilock _ | Iunlock _ => 0 | Iput _ => -1 end.

Definition file_after (c : icall) (s : fs) (a : afile) : afile :=
  match c with
  | Ialloc type => new_file type
  | Iput ip => if last_ref (inode_at ip s) then freed a else a
  | _ => a
  end.

(** The inode that the call is about. *)
Definition target (c : icall) (s : fs) (ip : nat) (n : Z) : Prop :=
  match c with
  | Iget inum => n = inum
  | Ialloc _ => inum_ok sb n ∧ disk_type sb n s = 0 ∧ ∀ k, inum_ok sb k → disk_type sb k s = 0 → n ≤ k
  | Idup k | Ilock k | Iunlock k | Iput k => ip = k ∧ n = inum_at k s
  end.

Definition entry_after (c : icall) (ip : nat) (n : Z) (s : fs) : Prop :=
  match c with
  | Ilock _ => owns s ip n ∧ i_locked (inode_at ip s) = true
  | Iunlock _ => i_locked (inode_at ip s) = false
  | Iput _ => True
  | _ => in_use ip s ∧ inum_at ip s = n
  end.

(** C6: The inode cache calls count the references of inodes and leave every file
    as it is, except that ialloc() makes a new empty file of the free inode
    with the smallest number and that iput() of the last reference to an inode
    without links empties it; no call panics except without a free entry or a
    free inode, or in ilock() of a free inode. *)
Theorem inode_calls_refine c s : good s → icall_ok c s →
  match irun c s with
  | None => panics c s
  | Some (ip, s') => good s' ∧ nfree sb s ≤ nfree sb s' ∧ ∃ i, target c s ip i ∧ entry_after c ip i s' ∧
      (∀ n, nref s' n = nref s n + dref c * one i n) ∧
      ∀ n, inum_ok sb n → agree (abs s' n) (if decide (n = i) then file_after c s (abs s n) else abs s n)
  end.
Proof.
  assert (∀ n i, (if decide (n = i) then abs s n else abs s n) = abs s n) as Hsame by (intros; by case_decide).
  intros Hg. destruct c as [inum|ip|type|ip|ip|ip]; cbn [irun icall_ok].
  - intros Hn. pose proof (iget_spec inum s Hg Hn) as H. destruct (iget ROOTDEV inum s) as [[ip s']|] eqn:E; [|done].
    destruct H as (A & B & C & i & Hi & Hr & _ & Ei). split_and!; [done| |].
    { rewrite (nfree_eq sb s s'); [done|]. clear -E. unfold iget in E. repeat case_match; by simplify_eq. }
    exists inum. cbn [target entry_after dref file_after]. split_and!; [done|by exists i|unfold inum_at; by rewrite (inode_at_entry _ _ _ Hi)|..].
    + intros n. rewrite C. lia.
    + intros n Hnn. rewrite Hsame. by apply B.
  - intros (i & Hi & Hr). destruct (idup_spec ip s i Hg Hi Hr) as (A & B & C). split_and!; [done|done|].
    assert (icache (idup ip s) !! ip = Some (i <| i_ref := i_ref i + 1 |>)) as Hi' by (unfold idup; by rewrite set_inode_lookup, decide_True, Hi).
    exists (i_inum i). cbn [target entry_after dref file_after]. unfold inum_at. rewrite (inode_at_entry _ (idup ip s) _ Hi'), (inode_at_entry _ s _ Hi). split_and!; try done.
    + eexists. split; [done|]. cbn. lia.
    + intros n. rewrite C. lia.
    + intros n Hnn. rewrite Hsame. by apply B.
  - intros Ht. pose proof (ialloc_spec type s Hg Ht) as H. destruct (ialloc sb ROOTDEV type s) as [[ip s']|]; [|done].
    destruct H as (A & B & i & Hi & Hr & Hn & H0 & Hmin & C & D). split_and!; [done|lia|]. exists (i_inum i). cbn [target entry_after dref file_after]. split_and!; try done.
    + by exists i.
    + unfold inum_at; by rewrite (inode_at_entry _ _ _ Hi).
    + intros n. rewrite C. lia.
  - intros [(i & Hi & Hr) Hl]. rewrite (inode_at_entry _ _ _ Hi) in Hl. pose proof (ilock_spec ip s i Hg Hi Hr Hl) as H.
    pose proof (nfree_eq sb s) as Hnf. destruct (ilock sb ip s) as [s'|] eqn:E; cbn [mbind option_bind].
    2: { cbn [panics]. unfold inum_at. by rewrite (inode_at_entry _ _ _ Hi). }
    destruct H as (A & B & C & Ho & Hl'). split_and!; [done| |].
    { rewrite (Hnf s'); [done|]. clear -E. unfold ilock in E. repeat case_match; by simplify_eq. }
    exists (i_inum i). cbn [target entry_after dref file_after]. unfold inum_at. rewrite (inode_at_entry _ _ _ Hi). split_and!; try done.
    + intros n. rewrite C. lia.
    + intros n Hnn. rewrite Hsame. by apply B.
  - intros [(i & Hi & Hr) Hl]. rewrite (inode_at_entry _ _ _ Hi) in Hl. destruct (iunlock_spec ip s i Hg Hi Hr Hl) as (s' & E & A & B & C & D).
    rewrite E. cbn [mbind option_bind]. split_and!; [done| |].
    { rewrite (nfree_eq sb s s'); [done|]. clear -E. unfold iunlock in E. case_match; by simplify_eq. }
    exists (i_inum i). cbn [target entry_after dref file_after]. unfold inum_at. rewrite (inode_at_entry _ _ _ Hi). split_and!; try done.
    + intros n. rewrite C. lia.
    + intros n Hnn. rewrite Hsame. by apply B.
  - intros [(i & Hi & Hr) Hl]. rewrite (inode_at_entry _ _ _ Hi) in Hl. destruct (iput_spec ip s i Hg Hi Hr Hl) as (s' & E & A & B & _ & C & D).
    rewrite E. cbn [mbind option_bind]. split_and!; [done|done|].
    exists (i_inum i). cbn [target entry_after dref file_after]. unfold inum_at. rewrite (inode_at_entry _ _ _ Hi). split_and!; try done.
    intros n Hnn. etrans; [by apply D|]. destruct (last_ref i).
    + by rewrite (decide_ext (n = i_inum i ∧ true = true) (n = i_inum i)) by naive_solver.
    + by rewrite decide_False, Hsame by naive_solver.
Qed.

End cache.

Lemma inode_calls_refine_witness :
  good small_sb small_fs ∧ icall_ok small_sb (Iput 0) small_fs ∧
  ∃ s', irun small_sb (Iput 0) small_fs = Some (0%nat, s') ∧ good small_sb s' ∧ ∀ n, nref s' n = nref small_fs n - one 1 n.
Proof.
  assert (icall_ok small_sb (Iput 0) small_fs) as Hok.
  { split; [by exists (mk_inode 1 1 1 true true (small_dinode T_FILE) 0 0)|]. vm_compute. done. }
  split; [exact small_fs_good|]. split; [exact Hok|].
  pose proof (inode_calls_refine small_sb small_wf (Iput 0) small_fs small_fs_good Hok) as H.
  destruct (irun small_sb (Iput 0) small_fs) as [[ip s']|]; [|done].
  destruct H as (A & _ & i & [-> Hi] & _ & C & _). exists s'. split_and!; [done|done|].
  intros n. rewrite C, Hi. change (inum_at 0 small_fs) with 1. change (dref (Iput 0)) with (-1). lia.
Defined.
