(* ===== verification/Dir.v ===== *)
(** * Directories

    The directory part of fs.c: a directory is a file of 16-byte entries, an
    inode number of two bytes and a name of 14. dirlookup() finds the first
    entry in use with the name, dirlink() fills the first unused one or appends;
    skipelem(), namex(), namei() and nameiparent() walk along paths.

    A name or path argument is the list of the bytes of the string; the buffer
    that skipelem() fills is a list of DIRSIZ bytes. *)

From stdpp Require Import list_numbers gmap.
From S2P Require Import Prelude Mem CString Xattr Fs FsInv FsFile FsNode FsIO FsFree FsOps FsShare FsRange FsSpec FsCache.

Definition DIRSIZ : nat := 14.
Definition ROOTINO : Z := 1.

Record dirent := mk_dirent { de_inum : Z; de_name : list Z }.

(** sizeof(struct dirent) *)
Definition DESZ : Z := 16.

Definition decode_dirent (bs : list Z) : dirent :=
  mk_dirent (little_endian_to_Z 8 (take 2 bs)) (drop 2 bs).

Definition encode_dirent (de : dirent) : list Z := Z_to_little_endian 2 8 (de_inum de) ++ de_name de.

Definition namecmp (s t : list Z) : Z := strncmp DIRSIZ (str s) (str t).

(** readi(dp, 0, (uint64)&de, off, sizeof(de)); [None] is the panic on a short read. *)
Definition read_dirent (dp : nat) (off : Z) (s : fs) : option dirent :=
  '(r, bs) ← readi dp (λ _ _, true) off DESZ s;
  if r =? DESZ then Some (decode_dirent bs) else None.

(** The loop of dirlookup(): the offset and inode number of the entry. *)
Fixpoint lookup_loop (fuel : nat) (dp : nat) (name : list Z) (off : Z) (s : fs) : option (option (Z * Z)) :=
  match fuel with
  | O => None
  | S fuel =>
      if off <? d_size (din dp s) then
        de ← read_dirent dp off s;
        if de_inum de =? 0 then lookup_loop fuel dp name (off + DESZ) s
        else if namecmp name (de_name de) =? 0 then Some (Some (off, de_inum de))
        else lookup_loop fuel dp name (off + DESZ) s
      else Some None
  end.

(** Turns of the loops over the entries. *)
Definition dturns (dp : nat) (s : fs) : nat := Z.to_nat (d_size (din dp s) / DESZ + 2).

Definition dirlookup (dp : nat) (name : list Z) (s : fs) : option (option (Z * nat) * fs) :=
  if negb (d_type (din dp s) =? T_DIR) then None
  else
    r ← lookup_loop (dturns dp s) dp name 0 s;
    match r with
    | None => Some (None, s)
    | Some (off, inum) =>
        '(ip, s) ← iget (i_dev (inode_at dp s)) inum s;
        Some (Some (off, ip), s)
    end.

(** The loop of dirlink(): the offset of the first empty entry, or the size. *)
Fixpoint empty_loop (fuel : nat) (dp : nat) (off : Z) (s : fs) : option Z :=
  match fuel with
  | O => None
  | S fuel =>
      if off <? d_size (din dp s) then
        de ← read_dirent dp off s;
        if de_inum de =? 0 then Some off else empty_loop fuel dp (off + DESZ) s
      else Some off
  end.

Section dir.
Context (sb : superblock).

Definition dirlink (dp : nat) (name : list Z) (inum : Z) (s : fs) : option (Z * fs) :=
  '(r, s) ← dirlookup dp name s;
  match r with
  | Some (_, ip) => s ← iput sb ip s; Some (-1, s)
  | None =>
      off ← empty_loop (dturns dp s) dp 0 s;
      let de := mk_dirent inum (stored DIRSIZ (str name)) in
      '(r, s) ← writei sb dp (kernel_src (encode_dirent de)) off DESZ s;
      if r =? DESZ then Some (0, s) else None
  end.

End dir.

(** ** Paths *)

Definition SLASH : Z := 47.

Fixpoint skip_slashes (path : list Z) : list Z :=
  match path with
  | c :: path' => if c =? SLASH then skip_slashes path' else path
  | [] => []
  end.

(** The bytes up to the next slash or the end. *)
Fixpoint span_elem (path : list Z) : list Z * list Z :=
  match path with
  | c :: path' => if c =? SLASH then ([], path) else let '(e, rest) := span_elem path' in (c :: e, rest)
  | [] => ([], [])
  end.

Definition skipelem (path name : list Z) : option (list Z * list Z) :=
  match skip_slashes path with
  | [] => None
  | path =>
      let '(e, path) := span_elem path in
      let len := length e in
      let name := if (DIRSIZ <=? len)%nat then take DIRSIZ e ++ drop DIRSIZ name
                  else e ++ 0 :: drop (S len) name in
      Some (skip_slashes path, name)
  end.

Section path.
Context (sb : superblock).

(** The loop of namex(), from the inode [ip]; the name that the last skipelem()
    left is part of the result. *)
Fixpoint namex_loop (fuel : nat) (ip : nat) (path : list Z) (parent : bool) (name : list Z) (s : fs)
    : option (option nat * list Z * fs) :=
  match fuel with
  | O => None
  | S fuel =>
      match skipelem path name with
      | None =>
          if parent then s ← iput sb ip s; Some (None, name, s)
          else Some (Some ip, name, s)
      | Some (path, name) =>
          s ← ilock sb ip s;
          if negb (d_type (din ip s) =? T_DIR) then
            s ← iunlockput sb ip s;
            Some (None, name, s)
          else if parent && bool_decide (path = []) then
            s ← iunlock ip s;
            Some (Some ip, name, s)
          else
            '(next, s) ← dirlookup ip name s;
            s ← iunlockput sb ip s;
            match next with
            | None => Some (None, name, s)
            | Some (_, next) => namex_loop fuel next path parent name s
            end
      end
  end.

(** [cwd] is myproc()->cwd. *)
Definition namex (cwd : nat) (path : list Z) (parent : bool) (name : list Z) (s : fs)
    : option (option nat * list Z * fs) :=
  '(ip, s) ← (if bool_decide (head path = Some SLASH) then iget ROOTDEV ROOTINO s
              else Some (cwd, idup cwd s));
  namex_loop (S (length path)) ip path parent name s.

(** [name] is what the buffer on the stack holds. *)
Definition namei (cwd : nat) (path name : list Z) (s : fs) : option (option nat * fs) :=
  '(ip, _, s) ← namex cwd path false name s; Some (ip, s).

Definition nameiparent (cwd : nat) (path name : list Z) (s : fs) : option (option nat * list Z * fs) :=
  namex cwd path true name s.

End path.

(** ** Directories as lists of entries *)

Definition entry_of (C : Z → Z) (k : Z) : dirent := decode_dirent ((λ i, C (DESZ * k + i)) <$> seqZ 0 DESZ).

Definition dents (a : afile) : list dirent := entry_of (af_data a) <$> seqZ 0 (af_size a / DESZ).

Definition names (name : list Z) (e : dirent) : bool :=
  negb (de_inum e =? 0) && (namecmp name (de_name e) =? 0).

(** The inode that the name stands for. *)
Definition dlookup (l : list dirent) (name : list Z) : option Z :=
  k ← find_index (names name) l; de_inum <$> l !! k.

(** Equal files have the same entries. *)
Lemma dents_agree a b : 0 ≤ af_size a ≤ MAXSIZE → agree a b → dents a = dents b.
Proof.
  intros Hsz (_ & _ & _ & _ & _ & Es & Hd). unfold dents. rewrite <-Es. apply list_fmap_ext. intros i k Hk.
  apply lookup_seqZ in Hk as [-> Hk]. unfold entry_of. f_equal. apply list_fmap_ext. intros j x Hx.
  apply lookup_seqZ in Hx as [-> Hx]. apply Hd. unfold off_ok, MAXSIZE, DESZ, BSIZE in *. Z.to_euclidean_division_equations; lia.
Qed.

(** The entries of a well-formed directory. *)
Record dir_ok (sb : superblock) (A : Z → afile) (a : afile) : Prop := {
  do_whole : af_size a `mod` DESZ = 0;
  do_live : ∀ e, e ∈ dents a → de_inum e ≠ 0 → inum_ok sb (de_inum e) ∧ af_type (A (de_inum e)) ≠ 0;
}.

Section scan.
Context (sb : superblock) (Hsb : sb_wf sb).
Context (s : fs) (dp : nat) (n : Z).
Context (Hg : good sb s) (Ho : owns s dp n) (Hw : d_size (din dp s) `mod` DESZ = 0).

Abbreviation l := (dents (abs sb s n)).

Lemma dir_size : af_size (abs sb s n) = d_size (din dp s) ∧ 0 ≤ d_size (din dp s) ≤ MAXSIZE.
Proof using Hg Ho Hw.
  pose proof Hg as [(P & Hi) _ Hsz _ _]. pose proof (v_cache _ _ _ _ Hi) as Hc. unfold abs, file_of. cbn.
  pose proof (dnode_owns sb s dp n Hc Ho) as E. rewrite E. split; [done|]. rewrite <-E. apply Hsz. by eapply owns_inum.
Qed.

Lemma dents_length : Z.of_nat (length l) = d_size (din dp s) / DESZ.
Proof using Hg Ho Hw.
  destruct dir_size as [E H]. unfold dents. rewrite length_fmap, length_seqZ, E, Z2Nat.id; [done|]. apply Z.div_pos; [lia|done].
Qed.

Lemma read_dirent_spec k e : l !! k = Some e → read_dirent dp (DESZ * Z.of_nat k) s = Some e.
Proof using Hg Ho Hw.
  intros Hk. destruct dir_size as [E H]. pose proof Hg as [(P & Hi) _ Hsz _ _]. pose proof MAXSIZE_value as HM.
  pose proof (lookup_lt_Some _ _ _ Hk) as Hlt. pose proof dents_length as Hlen.
  unfold dents in Hk. rewrite list_lookup_fmap in Hk. apply fmap_Some in Hk as (x & Hx & ->). apply lookup_seqZ in Hx as [-> Hx].
  assert (DESZ * Z.of_nat k + DESZ ≤ d_size (din dp s)) as Hin by (unfold DESZ in *; Z.to_euclidean_division_equations; lia).
  unfold read_dirent.
  destruct (readi_spec sb dp n (λ _ _, true) (DESZ * Z.of_nat k) DESZ s P Hi Ho Hsz) as (r & -> & _ & Hr); [unfold DESZ in *; lia..|].
  cbn [mbind option_bind]. specialize (Hr ltac:(done)). rewrite (proj2 (Z.leb_le _ _)), (proj2 (Z.ltb_lt _ _)) in Hr by (unfold DESZ in *; lia).
  cbn [andb] in Hr. assert (r = DESZ) as -> by lia. by rewrite Z.eqb_refl.
Qed.

(** The loops over the entries. *)
Lemma in_dir k : (DESZ * Z.of_nat k <? d_size (din dp s)) = bool_decide (k < length l)%nat.
Proof using Hg Ho Hw.
  pose proof dents_length. apply Bool.eq_iff_eq_true. rewrite Z.ltb_lt, bool_decide_eq_true.
  unfold DESZ in *. Z.to_euclidean_division_equations; lia.
Qed.

Lemma lookup_loop_spec name fuel k : (length l - k < fuel)%nat →
  lookup_loop fuel dp name (DESZ * Z.of_nat k) s =
    Some (i ← find_index (names name) (drop k l); e ← l !! (k + i)%nat; Some (DESZ * Z.of_nat (k + i), de_inum e)).
Proof using Hg Ho Hw.
  revert k. induction fuel as [|fuel IH]; intros k Hf; [lia|]. cbn [lookup_loop]. rewrite in_dir. case_bool_decide as Hk.
  2: { by rewrite drop_ge by lia. }
  destruct (lookup_lt_is_Some_2 l k Hk) as [e He]. rewrite (read_dirent_spec k e He). cbn [mbind option_bind].
  rewrite (drop_S l e k He). cbn [find_index]. unfold names at 1.
  replace (DESZ * Z.of_nat k + DESZ) with (DESZ * Z.of_nat (S k)) by lia. rewrite IH by lia.
  assert ((i ← S <$> find_index (names name) (drop (S k) l); e0 ← l !! (k + i)%nat; Some (DESZ * Z.of_nat (k + i), de_inum e0)) =
          (i ← find_index (names name) (drop (S k) l); e0 ← l !! (S k + i)%nat; Some (DESZ * Z.of_nat (S k + i), de_inum e0))) as Estep.
  { destruct (find_index _ _) as [i|]; [|done]. cbn. by rewrite Nat.add_succ_r. }
  destruct (Z.eqb_spec (de_inum e) 0) as [E0|E0]; cbn [negb andb]; [by rewrite Estep|].
  destruct (namecmp name (de_name e) =? 0); [|by rewrite Estep]. cbn. rewrite Nat.add_0_r, He. done.
Qed.

Lemma empty_loop_spec fuel k : (length l - k < fuel)%nat →
  empty_loop fuel dp (DESZ * Z.of_nat k) s =
    Some (DESZ * Z.of_nat (k + default (length l - k)%nat (find_index (λ e, de_inum e =? 0) (drop k l)))).
Proof using Hg Ho Hw.
  revert k. induction fuel as [|fuel IH]; intros k Hf; [lia|]. cbn [empty_loop]. rewrite in_dir. case_bool_decide as Hk.
  2: { rewrite drop_ge by lia. cbn. do 3 f_equal. lia. }
  destruct (lookup_lt_is_Some_2 l k Hk) as [e He]. rewrite (read_dirent_spec k e He). cbn [mbind option_bind].
  rewrite (drop_S l e k He). cbn [find_index]. destruct (Z.eqb_spec (de_inum e) 0) as [E0|E0]; [cbn; do 3 f_equal; lia|].
  replace (DESZ * Z.of_nat k + DESZ) with (DESZ * Z.of_nat (S k)) by lia. rewrite IH by lia.
  destruct (find_index _ _) as [i|]; cbn; do 3 f_equal; lia.
Qed.

Lemma dturns_enough k : (length l - k < dturns dp s)%nat.
Proof using Hg Ho Hw. pose proof dents_length. unfold dturns. destruct dir_size. pose proof (Z.div_pos (d_size (din dp s)) DESZ). unfold DESZ in *. lia. Qed.

End scan.

(** ** dirlookup() and dirlink() *)

Section calls.
Context (sb : superblock) (Hsb : sb_wf sb).

Abbreviation good := (good sb).
Abbreviation abs := (abs sb).

Lemma dirlookup_spec s dp n name : good s → owns s dp n → d_type (din dp s) = T_DIR → d_size (din dp s) `mod` DESZ = 0 →
  dirlookup dp name s =
    match find_index (names name) (dents (abs s n)) with
    | None => Some (None, s)
    | Some k =>
        match dents (abs s n) !! k with
        | Some e => '(ip, s') ← iget ROOTDEV (de_inum e) s; Some (Some (DESZ * Z.of_nat k, ip), s')
        | None => None
        end
    end.
Proof.
  intros Hg Ho Ht Hw. unfold dirlookup. rewrite Ht. cbn [negb Z.eqb T_DIR Pos.eqb].
  pose proof (lookup_loop_spec sb s dp n Hg Ho Hw name (dturns dp s) 0 (dturns_enough sb s dp n Hg Ho Hw 0)) as E.
  rewrite Z.mul_0_r, drop_0 in E. rewrite E. cbn [mbind option_bind].
  assert (i_dev (inode_at dp s) = ROOTDEV) as ->.
  { pose proof Hg as [(P & Hi) _ _ _ _]. destruct Ho as (i & Hi' & Hr & _). rewrite (inode_at_entry _ _ _ Hi').
    by apply (c_entry sb s (v_cache _ _ _ _ Hi) dp i). }
  destruct (find_index _ _) as [k|] eqn:Ek; cbn [option_bind]; [|done].
  destruct (lookup_lt_is_Some_2 (dents (abs s n)) k (find_index_lt _ _ _ Ek)) as [e He]. cbn [Nat.add]. rewrite !He. cbn. by rewrite He.
Qed.

(** The entry that dirlink() fills. *)
Definition slot (l : list dirent) : nat := default (length l) (find_index (λ e, de_inum e =? 0) l).

Definition put_entry (k : nat) (e : dirent) (l : list dirent) : list dirent :=
  if decide (k < length l)%nat then <[k := e]> l else l ++ [e].

Definition link (e : dirent) (l : list dirent) : list dirent := put_entry (slot l) e l.

Lemma slot_le l : (slot l ≤ length l)%nat.
Proof. unfold slot. destruct (find_index _ l) as [k|] eqn:E; [|done]. apply find_index_lt in E. cbn. lia. Qed.

Lemma decode_encode e : 0 ≤ de_inum e < 2 ^ 16 → decode_dirent (encode_dirent e) = e.
Proof.
  intros He. destruct e as [i nm]. unfold decode_dirent, encode_dirent. cbn [de_inum de_name] in *.
  assert (length (Z_to_little_endian 2 8 i) = 2%nat) as Hl by (pose proof (length_le 2 ltac:(lia) i); lia).
  rewrite take_app_length', drop_app_length' by done. rewrite little_endian_to_Z_to_little_endian by lia.
  by rewrite Z.mod_small by (cbn; lia).
Qed.

Lemma entry_patch C e k j : length (encode_dirent e) = Z.to_nat DESZ → 0 ≤ de_inum e < 2 ^ 16 →
  entry_of (patch (DESZ * k) (encode_dirent e) C) j = if decide (j = k) then e else entry_of C j.
Proof.
  intros Hl He. unfold entry_of. case_decide as E.
  - subst j. etrans; [|exact (decode_encode e He)]. f_equal. etrans; [|apply slice_all]. rewrite Hl. change (Z.of_nat (Z.to_nat DESZ)) with DESZ.
    apply list_fmap_ext. intros i x Hx. apply lookup_seqZ in Hx as [-> Hx]. unfold patch.
    rewrite decide_True by (rewrite Hl; unfold DESZ in *; lia). f_equal. lia.
  - f_equal. apply list_fmap_ext. intros i x Hx. apply lookup_seqZ in Hx as [-> Hx]. unfold patch.
    rewrite decide_False; [done|]. rewrite Hl. unfold DESZ in *. lia.
Qed.

Lemma dents_patch a b e i : af_size a `mod` DESZ = 0 → 0 ≤ af_size a → length (encode_dirent e) = Z.to_nat DESZ → 0 ≤ de_inum e < 2 ^ 16 →
  (i ≤ length (dents a))%nat → let k := Z.of_nat i in
  af_data b = patch (DESZ * k) (encode_dirent e) (af_data a) → af_size b = Z.max (af_size a) (DESZ * k + DESZ) →
  dents b = put_entry i e (dents a).
Proof.
  intros Hm H0 Hl He Hk k Ed Es.
  assert (Z.of_nat (length (dents a)) = af_size a / DESZ) as Hlen.
  { unfold dents. rewrite length_fmap, length_seqZ, Z2Nat.id; [done|]. by apply Z.div_pos. }
  assert (∀ j, dents b !! j = if decide (Z.of_nat j < af_size b / DESZ) then Some (if decide (Z.of_nat j = k) then e else entry_of (af_data a) (Z.of_nat j)) else None) as Hb.
  { intros j. unfold dents. rewrite list_lookup_fmap. case_decide.
    - rewrite (proj2 (lookup_seqZ _ _ _ (Z.of_nat j))) by lia. cbn. rewrite Ed. by rewrite entry_patch.
    - by rewrite lookup_seqZ_ge by lia. }
  assert (∀ j, dents a !! j = if decide (Z.of_nat j < af_size a / DESZ) then Some (entry_of (af_data a) (Z.of_nat j)) else None) as Ha.
  { intros j. unfold dents. rewrite list_lookup_fmap. case_decide.
    - by rewrite (proj2 (lookup_seqZ _ _ _ (Z.of_nat j))) by lia.
    - by rewrite lookup_seqZ_ge by lia. }
  apply list_eq. intros j. rewrite Hb. unfold put_entry. unfold DESZ in *.
  destruct (decide (i < length (dents a))%nat) as [E1|E1].
  - assert (af_size b = af_size a) as -> by (Z.to_euclidean_division_equations; lia).
    rewrite list_lookup_insert. rewrite Ha. repeat case_decide; try done; naive_solver lia.
  - assert (af_size b = af_size a + 16) as Eb by (Z.to_euclidean_division_equations; lia).
    rewrite lookup_app, Ha. rewrite Eb. replace ((af_size a + 16) / 16) with (af_size a / 16 + 1) by (Z.to_euclidean_division_equations; lia).
    destruct (decide (Z.of_nat j < af_size a / 16)).
    + by rewrite decide_True, decide_False by lia.
    + destruct (decide (Z.of_nat j < af_size a / 16 + 1)).
      * rewrite decide_True by lia. by replace (j - length (dents a))%nat with 0%nat by lia.
      * rewrite lookup_ge_None_2; [done|]. cbn. lia.
Qed.

(** *** Looking up after linking *)

Lemma dlookup_cons x l name : dlookup (x :: l) name = if names name x then Some (de_inum x) else dlookup l name.
Proof. unfold dlookup. cbn [find_index]. destruct (names name x); [done|]. by destruct (find_index (names name) l). Qed.

Lemma link_cons e x l : link e (x :: l) = if de_inum x =? 0 then e :: l else x :: link e l.
Proof.
  unfold link, put_entry, slot. cbn [find_index length]. destruct (Z.eqb_spec (de_inum x) 0); [by rewrite decide_True by (cbn; lia)|].
  destruct (find_index _ l) as [k|] eqn:E; cbn.
  - apply find_index_lt in E. by rewrite !decide_True by lia.
  - by rewrite !decide_False by lia.
Qed.

Lemma namecmp_zero s t : namecmp s t = 0 ↔ ∀ i, (i < DIRSIZ)%nat → field (str s) i = field (str t) i.
Proof. apply strncmp_zero. Qed.

Lemma names_cong name name' e : namecmp name' name = 0 → names name' e = names name e.
Proof.
  intros H. unfold names. f_equal. apply Bool.eq_iff_eq_true. rewrite !Z.eqb_eq, !namecmp_zero. rewrite namecmp_zero in H.
  split; intros H' i Hi; specialize (H i Hi); specialize (H' i Hi); congruence.
Qed.

(** The entry that dirlink() writes. *)
Definition new_dirent (name : list Z) (inum : Z) : dirent := mk_dirent inum (stored DIRSIZ (str name)).

Lemma names_new name name' inum : inum ≠ 0 → names name' (new_dirent name inum) = (namecmp name' name =? 0).
Proof.
  intros Hi. unfold names, new_dirent. cbn [de_inum de_name]. rewrite (proj2 (Z.eqb_neq _ _) Hi). cbn [negb andb].
  apply Bool.eq_iff_eq_true. rewrite !Z.eqb_eq. unfold namecmp. apply strncmp_ext; [done|].
  apply field_ext_below. intros i Hlt. by apply str_stored.
Qed.

Lemma dlookup_link l name inum name' : inum ≠ 0 → dlookup l name = None →
  dlookup (link (new_dirent name inum) l) name' = if namecmp name' name =? 0 then Some inum else dlookup l name'.
Proof.
  intros Hi. induction l as [|x l IH]; intros Hn.
  - change (link (new_dirent name inum) []) with [new_dirent name inum]. by rewrite dlookup_cons, names_new.
  - rewrite dlookup_cons in Hn. destruct (names name x) eqn:En; [done|]. rewrite link_cons.
    destruct (Z.eqb_spec (de_inum x) 0) as [E0|E0]; rewrite !dlookup_cons.
    + rewrite names_new by done. destruct (Z.eqb_spec (namecmp name' name) 0); [done|].
      unfold names at 1. by rewrite E0.
    + rewrite IH by done. destruct (Z.eqb_spec (namecmp name' name) 0) as [E|E]; [|done].
      by rewrite (names_cong name name' x E), En.
Qed.

(** *** dirlink() *)

(** Every allocated inode is linked or referenced. *)
Definition anchored (s : fs) : Prop := ∀ n, inum_ok sb n → af_type (abs s n) ≠ 0 → af_nlink (abs s n) ≠ 0 ∨ 0 < nref s n.

Definition is_dir (a : afile) : Prop := af_type a = T_DIR.

Definition cache_full (s : fs) : Prop := ∀ i, i ∈ icache s → i_ref i ≠ 0.

Lemma held_abs dp n s : good s → owns s dp n → inum_ok sb n ∧ abs s n = file_of (din dp s) (content sb s n).
Proof.
  intros [(P & Hi) _ _ _ _] Ho. pose proof (v_cache _ _ _ _ Hi) as Hc. split; [by eapply owns_inum|].
  unfold abs, FsSpec.abs. by rewrite (dnode_owns sb s dp n Hc Ho).
Qed.

(** iget() and iput() of an inode that is linked or referenced. *)
Lemma iget_iput m s ip s1 : good s → anchored s → inum_ok sb m → af_type (abs s m) ≠ 0 → iget ROOTDEV m s = Some (ip, s1) →
  ∃ s2, iput sb ip s1 = Some s2 ∧ good s2 ∧ (∀ k, nref s2 k = nref s k) ∧ ∀ k, inum_ok sb k → agree (abs s2 k) (abs s k).
Proof.
  intros Hg Ha Hm Ht E. pose proof (iget_spec sb Hsb m s Hg Hm) as H. rewrite E in H.
  destruct H as (Hg1 & B & C & i & Hi & Hr & _ & Ei).
  destruct (iput_kept sb Hsb s1 ip i Hg1 Hi Hr) as (Es & Hg2 & D & F).
  { rewrite Ei, C. unfold one. rewrite decide_True by done. destruct (B m Hm) as (_ & _ & _ & _ & -> & _). destruct (Ha m Hm Ht); [by right|left; lia]. }
  eexists. split_and!; [done|done| |].
  - intros k. rewrite D, C, Ei. lia.
  - intros k Hk. etrans; [by apply F|by apply B].
Qed.

Lemma need_dirent k : need (DESZ * k) DESZ ≤ 1.
Proof.
  unfold need, DESZ, BSIZE. cbn [Z.leb Z.compare]. assert ((16 * k) `mod` 1024 ≤ 1008) by (Z.to_euclidean_division_equations; lia).
  assert (((16 * k) `mod` 1024 + 16 + 1024 - 1) / 1024 < 2); [|lia]. apply Z.div_lt_upper_bound; lia.
Qed.

Lemma length_new_dirent name inum : length (encode_dirent (new_dirent name inum)) = Z.to_nat DESZ.
Proof.
  unfold encode_dirent, new_dirent. cbn [de_inum de_name]. rewrite length_app, length_stored.
  pose proof (length_le 2 ltac:(lia) inum). change (Z.to_nat DESZ) with 16%nat. unfold DIRSIZ. lia.
Qed.

Lemma bytes_new_dirent name inum : Forall is_byte name → Forall is_byte (encode_dirent (new_dirent name inum)).
Proof.
  intros Hn. apply Forall_app. split.
  - apply (Forall_impl _ _ _ (Z_to_little_endian_bound 2 8 inum ltac:(lia) ltac:(lia))). done.
  - unfold new_dirent, stored. cbn [de_name]. apply Forall_fmap, Forall_true. intros i. cbn. unfold field. case_match; [|done].
    unfold str. destruct (decide (i < length name)%nat) as [Hi|Hi].
    + destruct (lookup_lt_is_Some_2 name i Hi) as [b Hb]. rewrite (nth_lookup_Some _ _ _ b) by done. by eapply Forall_lookup_1.
    + by rewrite nth_overflow by lia.
Qed.

(** Writing one entry of a directory. *)
Lemma write_entry dp n k e s : good s → owns s dp n → d_size (din dp s) `mod` DESZ = 0 →
  length (encode_dirent e) = Z.to_nat DESZ → Forall is_byte (encode_dirent e) → 0 ≤ de_inum e < 2 ^ 16 → (k ≤ length (dents (abs s n)))%nat →
  match writei sb dp (kernel_src (encode_dirent e)) (DESZ * Z.of_nat k) DESZ s with
  | None => nfree sb s < 4
  | Some (r, s') =>
      if DESZ * Z.of_nat k + DESZ <=? MAXSIZE then
        r = DESZ ∧ good s' ∧ tags s' = tags s ∧
        (∀ m, inum_ok sb m → m ≠ n → agree (abs s' m) (abs s m)) ∧
        dents (abs s' n) = put_entry k e (dents (abs s n)) ∧
        nfree sb s - 4 ≤ nfree sb s' ∧
        ∃ d, abs s' n = file_of d (af_data (abs s' n)) ∧ same_meta (din dp s) d ∧ d_size d = Z.max (d_size (din dp s)) (DESZ * Z.of_nat k + DESZ)
      else r = -1 ∧ s' = s
  end.
Proof.
  intros Hg Ho Hw Hl Hb He Hk. pose proof Hg as [(P & Hi) Hcl _ _ _]. pose proof MAXSIZE_value as HM.
  destruct (dir_size sb s dp n Hg Ho Hw) as [Es Hs]. pose proof (dents_length sb s dp n Hg Ho Hw) as Hlen.
  assert (DESZ * Z.of_nat k ≤ d_size (din dp s)) as Hoff by (unfold DESZ in *; Z.to_euclidean_division_equations; lia).
  assert (inum_at dp s = n) as En by (destruct Ho as (i & Hi' & _ & _ & <-); unfold inum_at; by rewrite (inode_at_entry _ _ _ Hi')).
  pose proof (writei_spec sb Hsb (kernel_src (encode_dirent e)) (kernel_src_ok _ Hb) dp n (DESZ * Z.of_nat k) DESZ s P Hi Hcl Ho) as H.
  specialize (H ltac:(unfold DESZ in *; lia) ltac:(unfold DESZ; lia)). cbn zeta in H.
  rewrite copied_kernel in H by (unfold DESZ in *; lia || (rewrite Z.sub_0_r; apply turns_enough; unfold DESZ; lia)).
  rewrite Z.sub_0_r in H. pose proof (slice_all (encode_dirent e)) as Hsl. rewrite Hl in Hsl. change (Z.of_nat (Z.to_nat DESZ)) with DESZ in Hsl. rewrite Hsl in H.
  unfold fits in H. rewrite (proj2 (Z.leb_le (DESZ * Z.of_nat k) (d_size (din dp s)))) in H by done. cbn [andb] in H.
  destruct (writei sb dp _ _ _ s) as [[r s']|]; [|pose proof (need_dirent (Z.of_nat k)); lia].
  destruct (Z.leb_spec (DESZ * Z.of_nat k + DESZ) MAXSIZE) as [Hfit|Hfit]; [|done].
  destruct H as (-> & d & Hact & Hm & Hd & Hfree). rewrite <-En in Hact.
  assert (held dp s) as Hh by (unfold held; by rewrite En).
  destruct (acts_good sb dp s s' d _ Hg Hh Hact) as [Hg' Hab]; [apply Hm|rewrite Hd; lia|]. rewrite En in *.
  destruct (held_abs dp n s Hg Ho) as [Hn Ea].
  assert (agree (abs s' n) (file_of d (patch (DESZ * Z.of_nat k) (encode_dirent e) (content sb s n)))) as Hag.
  { specialize (Hab n Hn). by rewrite decide_True in Hab. }
  destruct Hact as (_ & Hsv & _). pose proof (proj1 (saves_owns sb dp n s s' d dp n Ho Hsv) Ho) as Ho'.
  split_and!; [done|done|exact (saves_tags sb dp n s s' d Ho Hsv)| | |pose proof (need_dirent (Z.of_nat k)); lia|].
  - intros m Hm' Hne. specialize (Hab m Hm'). by rewrite decide_False in Hab.
  - trans (dents (file_of d (patch (DESZ * Z.of_nat k) (encode_dirent e) (content sb s n)))).
    + apply dents_agree; [|done]. destruct Hag as (_ & _ & _ & _ & _ & -> & _). cbn. lia.
    + apply dents_patch; try done; rewrite ?Ea; cbn; try done; lia.
  - exists d. destruct (held_abs dp n s' Hg' Ho') as [_ Ea']. rewrite Ea'. cbn.
    assert (din dp s' = d) as -> by (unfold din; by rewrite (inode_at_entry _ _ _ (sv_own _ _ _ _ _ _ Hsv))). done.
Qed.

Lemma dlookup_found l name k e : find_index (names name) l = Some k → l !! k = Some e →
  dlookup l name = Some (de_inum e) ∧ de_inum e ≠ 0 ∧ e ∈ l.
Proof.
  intros E He. unfold dlookup. rewrite E. cbn. rewrite He. split; [done|].
  apply find_index_Some in E as [(e' & He' & Hn) _]. rewrite He in He'. injection He' as <-. unfold names in Hn. bool_facts.
  split; [done|]. by eapply list_elem_of_lookup_2.
Qed.

Lemma dlookup_missing l name : find_index (names name) l = None → dlookup l name = None.
Proof. intros E. unfold dlookup. by rewrite E. Qed.

Lemma dlookup_live n name m s : dir_ok sb (abs s) (abs s n) → dlookup (dents (abs s n)) name = Some m →
  inum_ok sb m ∧ af_type (abs s m) ≠ 0.
Proof.
  intros Hd H. unfold dlookup in H. apply bind_Some in H as (k & Hk & H). apply fmap_Some in H as (e & He & ->).
  destruct (dlookup_found _ _ _ _ Hk He) as (_ & H0 & Hin). by apply (do_live _ _ _ Hd).
Qed.

(** dirlookup() finds the inode of the name. *)
Lemma dirlookup_finds dp n name s : good s → owns s dp n → is_dir (abs s n) → dir_ok sb (abs s) (abs s n) →
  match dlookup (dents (abs s n)) name with
  | None => dirlookup dp name s = Some (None, s)
  | Some m => ∃ off, dirlookup dp name s = ('(ip, s') ← iget ROOTDEV m s; Some (Some (off, ip), s'))
  end.
Proof.
  intros Hg Ho Ht Hd. destruct (held_abs dp n s Hg Ho) as [Hn Ea]. unfold is_dir in Ht. pose proof (do_whole _ _ _ Hd) as Hw.
  rewrite Ea in Ht, Hw. cbn in Ht, Hw. pose proof (dirlookup_spec s dp n name Hg Ho Ht Hw) as E.
  destruct (find_index (names name) (dents (abs s n))) as [k|] eqn:Ek; [|by rewrite dlookup_missing].
  destruct (lookup_lt_is_Some_2 _ k (find_index_lt _ _ _ Ek)) as [e He]. rewrite He in E.
  destruct (dlookup_found _ _ _ _ Ek He) as (-> & _). by eexists.
Qed.

Lemma dirlink_spec dp n name inum s : good s → anchored s → owns s dp n → is_dir (abs s n) → dir_ok sb (abs s) (abs s n) →
  Forall is_byte name → 0 < inum < 2 ^ 16 →
  match dirlink sb dp name inum s with
  | None => cache_full s ∨ nfree sb s < 4 ∨ MAXSIZE < af_size (abs s n) + DESZ
  | Some (r, s') => good s' ∧ (∀ m, nref s' m = nref s m) ∧ (∀ m, inum_ok sb m → m ≠ n → agree (abs s' m) (abs s m)) ∧
      match dlookup (dents (abs s n)) name with
      | Some _ => r = -1 ∧ agree (abs s' n) (abs s n)
      | None => r = 0 ∧ tags s' = tags s ∧ dents (abs s' n) = link (new_dirent name inum) (dents (abs s n)) ∧
          af_type (abs s' n) = T_DIR ∧ af_nlink (abs s' n) = af_nlink (abs s n) ∧
          af_size (abs s' n) = Z.max (af_size (abs s n)) (DESZ * Z.of_nat (slot (dents (abs s n))) + DESZ) ∧ nfree sb s - 4 ≤ nfree sb s'
      end
  end.
Proof.
  intros Hg Ha Ho Ht Hd Hb Hi. pose proof (dirlookup_finds dp n name s Hg Ho Ht Hd) as Hf. destruct (held_abs dp n s Hg Ho) as [Hn Ea].
  unfold dirlink. destruct (dlookup (dents (abs s n)) name) as [m|] eqn:El.
  - destruct Hf as [off ->]. destruct (dlookup_live n name m s Hd El) as [Hm Hty].
    pose proof (iget_spec sb Hsb m s Hg Hm) as Hget. destruct (iget ROOTDEV m s) as [[ip s1]|] eqn:Eg; cbn [mbind option_bind]; [|by left].
    destruct (iget_iput m s ip s1 Hg Ha Hm Hty Eg) as (s2 & -> & A & B & C). cbn [mbind option_bind]. split_and!; auto.
  - rewrite Hf. cbn [mbind option_bind].
    assert (d_size (din dp s) `mod` DESZ = 0) as Hw by (pose proof (do_whole _ _ _ Hd) as Hw; by rewrite Ea in Hw).
    pose proof (empty_loop_spec sb s dp n Hg Ho Hw (dturns dp s) 0 (dturns_enough sb s dp n Hg Ho Hw 0)) as E.
    rewrite Z.mul_0_r, drop_0, Nat.sub_0_r in E. rewrite E. cbn [mbind option_bind Nat.add]. fold (slot (dents (abs s n))). fold (new_dirent name inum).
    pose proof (write_entry dp n (slot (dents (abs s n))) (new_dirent name inum) s Hg Ho Hw (length_new_dirent name inum) (bytes_new_dirent name inum Hb)) as W.
    specialize (W ltac:(cbn; lia) (slot_le _)). destruct (writei sb dp _ _ _ s) as [[r s']|]; cbn [mbind option_bind]; [|by right; left].
    destruct (Z.leb_spec (DESZ * Z.of_nat (slot (dents (abs s n))) + DESZ) MAXSIZE) as [Hfit|Hfit].
    + destruct W as (-> & A & B & C & D & Hfree & d & Eabs & Hm & Hsz). rewrite Z.eqb_refl. split_and!; try done.
      * intros m. by apply nref_tags.
      * destruct Hm as (_ & Hm & _). rewrite Eabs. cbn. rewrite Hm. unfold is_dir in Ht. by rewrite Ea in Ht.
      * destruct Hm as (_ & _ & _ & _ & Hm). rewrite Eabs, Ea. cbn. done.
      * rewrite Eabs. cbn [af_size file_of]. rewrite Hsz. do 2 f_equal. by rewrite Ea.
    + destruct W as [-> ->]. right. right. pose proof (slot_le (dents (abs s n))). pose proof (dents_length sb s dp n Hg Ho Hw) as Hlen.
      rewrite Ea. cbn. unfold DESZ in *. Z.to_euclidean_division_equations; lia.
Qed.

(** dirlink() gives the name to the inode: when it returns 0, looking up the name
    in the directory gives the inode and every other name gives what it gave
    before; when the name exists it returns -1 and changes no file. The
    references and all other files stay, and it panics only when the inode cache
    is full, the disk is, or the directory has its maximal size. *)
Theorem dirlink_adds_entry dp n name inum s : good s → anchored s → owns s dp n → is_dir (abs s n) → dir_ok sb (abs s) (abs s n) →
  Forall is_byte name → 0 < inum < 2 ^ 16 →
  match dirlink sb dp name inum s with
  | None => cache_full s ∨ nfree sb s < 4 ∨ MAXSIZE < af_size (abs s n) + DESZ
  | Some (r, s') => good s' ∧ (∀ m, nref s' m = nref s m) ∧ (∀ m, inum_ok sb m → m ≠ n → agree (abs s' m) (abs s m)) ∧
      match dlookup (dents (abs s n)) name with
      | Some _ => r = -1 ∧ agree (abs s' n) (abs s n)
      | None => r = 0 ∧ ∀ name', dlookup (dents (abs s' n)) name' =
          if namecmp name' name =? 0 then Some inum else dlookup (dents (abs s n)) name'
      end
  end.
Proof.
  intros Hg Ha Ho Ht Hd Hb Hi. pose proof (dirlink_spec dp n name inum s Hg Ha Ho Ht Hd Hb Hi) as H.
  destruct (dirlink sb dp name inum s) as [[r s']|]; [|done]. destruct H as (A & B & C & D). split_and!; try done.
  destruct (dlookup (dents (abs s n)) name) eqn:E; [done|]. destruct D as (-> & _ & D & _). split; [done|].
  intros name'. rewrite D. apply dlookup_link; [lia|done].
Qed.

End calls.

(** ** An empty root directory *)

(** Inode 1 is a directory; the cache has four unused entries. *)
Definition root_rest : list inode := replicate 4 (mk_inode 0 0 0 false false no_dinode 0 0).
Definition root_fs : fs := small T_DIR false root_rest.

Lemma root_unused : Forall (λ i, i_ref i = 0) root_rest.
Proof. by repeat constructor. Qed.

Lemma root_good : good small_sb root_fs.
Proof. apply small_good; [done|exact root_unused]. Qed.

Lemma root_anchored : anchored small_sb root_fs.
Proof.
  intros n Hn. unfold root_fs. destruct (small_abs T_DIR false root_rest ltac:(done) root_unused n Hn) as [C ->]. destruct (small_cases n Hn) as [-> |[-> | ->]]; [by left..|done].
Qed.

Lemma root_dir : is_dir (abs small_sb root_fs 1) ∧ dir_ok small_sb (abs small_sb root_fs) (abs small_sb root_fs 1).
Proof. split; [done|]. split; [done|]. intros e He. by apply not_elem_of_nil in He. Qed.

Lemma root_owns : owns root_fs 0 1.
Proof. apply small_owns; [done|exact root_unused|by left]. Qed.

(** dirlink(root, "a", 2) *)
Lemma dirlink_adds_entry_witness : ∃ s, dirlink small_sb 0 [97] 2 root_fs = Some (0, s) ∧ good small_sb s ∧
  dlookup (dents (abs small_sb s 1)) [97] = Some 2.
Proof.
  pose proof (dirlink_adds_entry small_sb small_wf 0 1 [97] 2 root_fs root_good root_anchored root_owns (proj1 root_dir) (proj2 root_dir)
    ltac:(repeat constructor; lia) ltac:(lia)) as H.
  destruct (dirlink small_sb 0 [97] 2 root_fs) as [[r s']|].
  - destruct H as (A & _ & _ & -> & D). exists s'. split_and!; [done|done|]. by rewrite D.
  - exfalso. destruct H as [H|[H|H]]; [|by vm_compute in H|by vm_compute in H].
    apply (H (mk_inode 0 0 0 false false no_dinode 0 0)); [|done]. do 2 apply list_elem_of_further. apply list_elem_of_here.
Defined.
