(* ===== verification/Path.v ===== *)
(** * Path lookup

    namex() against the walk along the elements of the path in the directories:
    it returns the inode that the walk reaches with one more reference, every
    other reference, lock and file is as before, and its loop ends. *)

From stdpp Require Import list_numbers gmap.
From S2P Require Import Prelude Mem CString Xattr Fs FsInv FsFile FsNode FsIO FsFree FsOps FsShare FsRange FsSpec FsCache Dir.

Section cache.
Context (sb : superblock) (Hsb : sb_wf sb).

Abbreviation good := (good sb).
Abbreviation abs := (abs sb).

Definition locks (s : fs) : list bool := i_locked <$> icache s.

(** The number of unused cache entries. *)
Definition free_entry (i : inode) : Z := if i_ref i =? 0 then 1 else 0.
Definition slots (s : fs) : Z := sum_with free_entry (icache s).

Definition entry (ip : nat) (n : Z) (s : fs) : Prop := ∃ i, icache s !! ip = Some i ∧ 0 < i_ref i ∧ i_inum i = n.

Definition none (k : Z) : Z := if k =? 0 then 1 else 0.

Lemma locks_set ip f s i : icache s !! ip = Some i → locks (set_inode ip f s) = <[ip := i_locked (f i)]> (locks s).
Proof.
  intros Hi. unfold locks, set_inode. cbn [icache upd icache_set]. rewrite (list_alter_insert _ _ _ i) by done. apply list_fmap_insert.
Qed.

Lemma slots_set ip f s i : icache s !! ip = Some i → slots (set_inode ip f s) = slots s - free_entry i + free_entry (f i).
Proof.
  intros Hi. unfold slots, set_inode. cbn [icache upd icache_set]. rewrite (list_alter_insert _ _ _ i) by done.
  by rewrite (sum_with_insert _ _ _ i).
Qed.

Lemma locks_keep ip f s i : icache s !! ip = Some i → i_locked (f i) = i_locked i → locks (set_inode ip f s) = locks s.
Proof.
  intros Hi E. rewrite (locks_set ip f s i Hi), E. apply list_insert_id. unfold locks. by rewrite list_lookup_fmap, Hi.
Qed.

Lemma slots_pos s i k : icache s !! k = Some i → i_ref i = 0 → 0 < slots s.
Proof.
  intros Hi Hr. assert (free_entry i ≤ slots s) as H.
  { apply sum_with_elem_le; [intros; unfold free_entry; case_match; lia|by eapply list_elem_of_lookup_2]. }
  unfold free_entry in H. rewrite Hr in H. cbn in H. lia.
Qed.

Lemma nref_nonneg s n : 0 ≤ nref s n.
Proof. apply sum_with_nonneg. intros i _. unfold ref_of. case_match; [|lia]. bool_facts. lia. Qed.

Lemma locks_tags s s' : tags s' = tags s → locks s' = locks s.
Proof.
  intros E. assert (∀ s, locks s = (λ t : Z * Z * Z * bool * bool, t.1.2) <$> tags s) as H.
  { intros t. unfold locks, tags. by rewrite <-list_fmap_compose. }
  by rewrite !H, E.
Qed.

Lemma slots_tags s s' : tags s' = tags s → slots s' = slots s.
Proof.
  unfold slots, tags. intros E.
  assert (∀ l, sum_with free_entry l = sum_with (λ t : Z * Z * Z * bool * bool, if t.1.1.2 =? 0 then 1 else 0) (tag <$> l)) as H.
  { induction l as [|i l IH]; [done|]. cbn. f_equal. exact IH. }
  by rewrite !H, E.
Qed.

Lemma entry_tags ip n s s' : tags s' = tags s → entry ip n s → entry ip n s'.
Proof.
  intros E (i & Hi & Hr & Hn). unfold tags in E. apply (f_equal (λ l, l !! ip)) in E. rewrite !list_lookup_fmap, Hi in E.
  destruct (icache s' !! ip) as [i'|] eqn:Hi'; [|done]. cbn in E. unfold tag in E. exists i'. split; [done|]. injection E as _ E1 E2 _ _. by rewrite E1, E2.
Qed.

(** iget() finds the entry of the inode or takes a free one. *)
Lemma iget_walk m s : good s → inum_ok sb m → 0 < slots s →
  ∃ ip s', iget ROOTDEV m s = Some (ip, s') ∧ good s' ∧ (∀ n, inum_ok sb n → agree (abs s' n) (abs s n)) ∧
    (∀ n, nref s' n = nref s n + one m n) ∧ locks s' = locks s ∧ slots s' = slots s - none (nref s m) ∧ entry ip m s' ∧
    (∀ k n, entry k n s → entry k n s') ∧ nfree sb s' = nfree sb s.
Proof.
  intros Hg Hm Hs. pose proof (iget_spec sb Hsb m s Hg Hm) as H. pose proof Hg as [(P & Hin) _ _ _ _]. pose proof (v_cache _ _ _ _ Hin) as Hc.
  destruct (iget ROOTDEV m s) as [[ip s']|] eqn:E.
  2: { exfalso. assert (slots s = 0); [|lia]. unfold slots. rewrite (sum_with_ext _ (λ _, 0)).
       - clear. by induction (icache s).
       - intros i Hi. unfold free_entry. by rewrite (proj2 (Z.eqb_neq _ _)) by (by apply H). }
  destruct H as (A & B & C & i' & Hi' & Hr' & _ & Ei'). exists ip, s'. unfold iget in E.
  destruct (find_index (cached ROOTDEV m) (icache s)) as [k|] eqn:Ek.
  - injection E as -> <-. apply find_index_Some in Ek as [(i & Hi & Hh) _]. unfold cached in Hh. bool_facts.
    split_and!; try done.
    + by apply (locks_keep _ _ _ i).
    + rewrite (slots_set _ _ _ i Hi). replace m with (i_inum i) by lia. rewrite (nref_entry sb s ip i Hc Hi ltac:(lia)). unfold free_entry, none. cbn.
      rewrite !(proj2 (Z.eqb_neq _ _)) by lia. lia.
    + by exists i'.
    + intros k n (j & Hj & Hrj & Ej). destruct (decide (k = ip)) as [->|Hne].
      * exists i'. split_and!; try done. congruence.
      * exists j. split_and!; try done. by rewrite set_inode_lookup, decide_False.
  - destruct (find_index _ (icache s)) as [k|] eqn:Ef in E; [|done]. injection E as -> <-.
    apply find_index_Some in Ef as [(i & Hi & Hh) _]. apply Z.eqb_eq in Hh.
    assert (nref s m = 0) as H0.
    { unfold nref. rewrite (sum_with_ext _ (λ _, 0)); [clear; by induction (icache s)|]. intros j [k Hj]%list_elem_of_lookup.
      unfold ref_of. destruct (Z.ltb_spec 0 (i_ref j)) as [Hrj|], (Z.eqb_spec (i_inum j) m) as [Ej|]; try done. exfalso.
      pose proof (find_index_None _ _ Ek j (list_elem_of_lookup_2 _ _ _ Hj)) as Hno. unfold cached in Hno.
      destruct (c_entry sb s Hc k j Hj Hrj) as [Ed _]. rewrite (proj2 (Z.ltb_lt _ _) Hrj), (proj2 (Z.eqb_eq _ _) Ej), (proj2 (Z.eqb_eq _ _) Ed) in Hno. done. }
    split_and!; try done.
    + by apply (locks_keep _ _ _ i).
    + rewrite (slots_set _ _ _ i Hi), H0. unfold free_entry. rewrite Hh. unfold none. cbn. lia.
    + by exists i'.
    + intros k n (j & Hj & Hrj & Ej). destruct (decide (k = ip)) as [->|Hne]; [simplify_eq; lia|].
      exists j. split_and!; try done. by rewrite set_inode_lookup, decide_False.
Qed.

Lemma idup_walk ip n s : good s → entry ip n s →
  let s' := idup ip s in
  good s' ∧ (∀ k, inum_ok sb k → agree (abs s' k) (abs s k)) ∧ (∀ k, nref s' k = nref s k + one n k) ∧ locks s' = locks s ∧
  slots s' = slots s - none (nref s n) ∧ entry ip n s' ∧ (∀ k m, entry k m s → entry k m s') ∧ nfree sb s' = nfree sb s.
Proof.
  intros Hg (i & Hi & Hr & <-) s'. destruct (idup_spec sb Hsb ip s i Hg Hi Hr) as (A & B & C).
  pose proof Hg as [(P & Hin) _ _ _ _]. pose proof (v_cache _ _ _ _ Hin) as Hc. split_and!; try done.
  - by apply (locks_keep _ _ _ i).
  - unfold s', idup. rewrite (slots_set _ _ _ i Hi), (nref_entry sb s ip i Hc Hi Hr). unfold free_entry, none. cbn.
    rewrite !(proj2 (Z.eqb_neq _ _)) by lia. lia.
  - exists (i <| i_ref := i_ref i + 1 |>). unfold s', idup. rewrite set_inode_lookup, decide_True, Hi by done. cbn. split_and!; [done|lia|done].
  - intros k m (j & Hj & Hrj & Hm). unfold entry, s', idup. rewrite set_inode_lookup. case_decide; [|by exists j].
    subst k. rewrite Hj. eexists. split; [done|]. cbn. split; [lia|done].
Qed.

Lemma ilock_walk ip n s : good s → entry ip n s → locks s !! ip = Some false → af_type (abs s n) ≠ 0 →
  ∃ s', ilock sb ip s = Some s' ∧ good s' ∧ (∀ k, inum_ok sb k → agree (abs s' k) (abs s k)) ∧ (∀ k, nref s' k = nref s k) ∧
    locks s' = <[ip := true]> (locks s) ∧ slots s' = slots s ∧ owns s' ip n ∧ nfree sb s' = nfree sb s ∧ ∀ k m, entry k m s ↔ entry k m s'.
Proof.
  intros Hg (i & Hi & Hr & <-) Hl Ht. assert (i_locked i = false) as El.
  { unfold locks in Hl. rewrite list_lookup_fmap, Hi in Hl. cbn in Hl. by injection Hl. }
  pose proof (ilock_spec sb Hsb ip s i Hg Hi Hr El) as H. destruct (ilock sb ip s) as [s'|] eqn:E; [|done].
  destruct H as (A & B & C & D & F). exists s'. unfold ilock in E. rewrite (inode_at_entry _ _ _ Hi), (proj2 (Z.ltb_ge _ _)), El in E by lia.
  set (g := λ i, i <| i_locked := true |>) in E. set (s1 := set_inode ip g s) in E.
  assert (icache s1 !! ip = Some (g i)) as Hi1 by (unfold s1; by rewrite set_inode_lookup, decide_True, Hi).
  assert (locks s1 = <[ip := true]> (locks s) ∧ slots s1 = slots s) as [L1 S1].
  { unfold s1. rewrite (locks_set ip g s i Hi), (slots_set ip g s i Hi). split; [done|]. unfold free_entry. cbn. lia. }
  assert (locks s' = locks s1 ∧ slots s' = slots s1 ∧ brefs s' = brefs s1 ∧ ∀ k, icache s' !! k = icache s1 !! k ∨ k = ip ∧ ∃ i', icache s' !! k = Some i' ∧ i_ref i' = i_ref i ∧ i_inum i' = i_inum i)
    as (L2 & S2 & B2 & Hk).
  { destruct (i_valid (inode_at ip s1)); [injection E as <-; split_and!; auto|]. case_match; [done|]. injection E as <-. split_and!; [..|intros k].
    - by rewrite (locks_keep ip _ s1 (g i) Hi1).
    - rewrite (slots_set ip _ s1 (g i) Hi1). unfold free_entry. cbn. lia.
    - done.
    - rewrite set_inode_lookup. case_decide; [|by left]. subst k. right. split; [done|]. rewrite Hi1. eexists. by split. }
  assert (∀ k m, entry k m s ↔ entry k m s1) as En1.
  { intros k m. unfold entry, s1. setoid_rewrite set_inode_lookup. case_decide; [|done]. subst k. rewrite Hi. cbn. naive_solver. }
  split_and!; try done; try congruence.
  - apply nfree_eq. by rewrite B2.
  - intros k m. rewrite En1. destruct (Hk k) as [Ek|(-> & i' & Ei & Er & Enum)]; unfold entry; [by rewrite Ek|].
    rewrite Ei, Hi1. naive_solver congruence.
Qed.

Lemma locked_entry ip n s b : locks s !! ip = Some b → entry ip n s → ∃ i, icache s !! ip = Some i ∧ 0 < i_ref i ∧ i_inum i = n ∧ i_locked i = b.
Proof.
  intros Hl (i & Hi & Hr & Hn). exists i. split_and!; try done. unfold locks in Hl. rewrite list_lookup_fmap, Hi in Hl. by injection Hl.
Qed.

Lemma iunlock_walk ip n s : good s → entry ip n s → locks s !! ip = Some true →
  ∃ s', iunlock ip s = Some s' ∧ good s' ∧ (∀ k, inum_ok sb k → agree (abs s' k) (abs s k)) ∧ (∀ k, nref s' k = nref s k) ∧
    locks s' = <[ip := false]> (locks s) ∧ slots s' = slots s ∧ (∀ k m, entry k m s ↔ entry k m s') ∧ nfree sb s' = nfree sb s.
Proof.
  intros Hg He Hl. destruct (locked_entry ip n s true Hl He) as (i & Hi & Hr & Hn & El).
  destruct (iunlock_spec sb Hsb ip s i Hg Hi Hr El) as (s' & E & A & B & C & D). exists s'.
  unfold iunlock in E. rewrite (inode_at_entry _ _ _ Hi), El, (proj2 (Z.ltb_ge _ _)) in E by lia. cbn [negb orb] in E. injection E as <-.
  split_and!; try done.
  - unfold iunlock. by rewrite (inode_at_entry _ _ _ Hi), El, (proj2 (Z.ltb_ge _ _)) by lia.
  - by rewrite (locks_set ip _ s i Hi).
  - rewrite (slots_set ip _ s i Hi). unfold free_entry. cbn. lia.
  - intros k m. unfold entry. setoid_rewrite set_inode_lookup. case_decide; [|done]. subst k. rewrite Hi. cbn. naive_solver.
Qed.

Lemma iput_walk ip n s : good s → entry ip n s → 1 < nref s n ∨ af_nlink (abs s n) ≠ 0 →
  ∃ s', iput sb ip s = Some s' ∧ good s' ∧ (∀ k, inum_ok sb k → agree (abs s' k) (abs s k)) ∧ (∀ k, nref s' k = nref s k - one n k) ∧
    locks s' = locks s ∧ slots s' = slots s + none (nref s' n) ∧ (∀ k m, entry k m s → 0 < nref s' m → entry k m s') ∧ nfree sb s' = nfree sb s.
Proof.
  intros Hg (i & Hi & Hr & <-) Hk. destruct (iput_kept sb Hsb s ip i Hg Hi Hr Hk) as (E & A & B & C). eexists. split; [exact E|].
  pose proof Hg as [(P & Hin) _ _ _ _]. pose proof (v_cache _ _ _ _ Hin) as Hc.
  pose proof (nref_entry sb s ip i Hc Hi Hr) as En. assert (one (i_inum i) (i_inum i) = 1) as E1 by (unfold one; by rewrite decide_True).
  split_and!; try done.
  - by apply (locks_keep ip _ s i).
  - rewrite (slots_set ip _ s i Hi), B, En, E1. unfold free_entry, none. cbn. by rewrite (proj2 (Z.eqb_neq (i_ref i) 0)), Z.sub_0_r by lia.
  - intros k m (j & Hj & Hrj & Hm) Hp. unfold entry. rewrite set_inode_lookup. case_decide as Ek; [|by exists j].
    subst k. simplify_eq. eexists. rewrite Hi. cbn. split_and!; [done| |done]. cbn. rewrite B, En, E1 in Hp. lia.
Qed.

(** iput() of an inode that may be freed. *)
Definition maybe_freed (s s' : fs) (n m : Z) : Prop :=
  agree (abs s' m) (abs s m) ∨ m = n ∧ af_nlink (abs s m) = 0 ∧ nref s' m = 0 ∧ agree (abs s' m) (freed (abs s m)).

Lemma iput_any ip n s : good s → entry ip n s → locks s !! ip = Some false →
  ∃ s', iput sb ip s = Some s' ∧ good s' ∧ nfree sb s ≤ nfree sb s' ∧ (∀ k, nref s' k = nref s k - one n k) ∧ locks s' = locks s ∧
    (∀ k m, entry k m s → 0 < nref s' m → entry k m s') ∧ ∀ m, inum_ok sb m → maybe_freed s s' n m.
Proof.
  intros Hg (i & Hi & Hr & <-) Hl. assert (i_locked i = false) as El.
  { unfold locks in Hl. rewrite list_lookup_fmap, Hi in Hl. cbn in Hl. by injection Hl. }
  destruct (iput_spec sb Hsb ip s i Hg Hi Hr (λ _, El)) as (s' & E & A & B & (D1 & i' & Hi' & Hr' & Hn' & Hl') & C & F).
  pose proof Hg as [(P & Hin) _ _ _ _]. pose proof (nref_entry sb s ip i (v_cache _ _ _ _ Hin) Hi Hr) as En.
  exists s'. split_and!; try done.
  - apply list_eq. intros k. unfold locks. rewrite !list_lookup_fmap. destruct (decide (k = ip)) as [->|Hne]; [|by rewrite D1].
    rewrite Hi, Hi'. cbn. by rewrite Hl'.
  - intros k m (j & Hj & Hrj & Hm) Hp. destruct (decide (k = ip)) as [->|Hne]; [|exists j; by rewrite D1].
    rewrite Hi in Hj. injection Hj as <-. exists i'. split_and!; [done| |congruence]. rewrite <-Hm, C, En in Hp.
    unfold one in Hp. rewrite decide_True in Hp by done. lia.
  - intros m Hm. specialize (F m Hm). case_decide as Ed; [|by left]. destruct Ed as [-> Elast]. right. unfold last_ref in Elast. bool_facts.
    split_and!; try done.
    + by rewrite (entry_nlink sb s ip i).
    + rewrite C, En. unfold one. rewrite decide_True by done. lia.
Qed.

Lemma iunlockput_walk ip n s : good s → inum_ok sb n → entry ip n s → locks s !! ip = Some true → 1 < nref s n ∨ af_nlink (abs s n) ≠ 0 →
  ∃ s', iunlockput sb ip s = Some s' ∧ good s' ∧ (∀ k, inum_ok sb k → agree (abs s' k) (abs s k)) ∧ (∀ k, nref s' k = nref s k - one n k) ∧
    locks s' = <[ip := false]> (locks s) ∧ slots s' = slots s + none (nref s' n) ∧ (∀ k m, entry k m s → 0 < nref s' m → entry k m s') ∧ nfree sb s' = nfree sb s.
Proof.
  intros Hg Hn He Hl Hk. destruct (iunlock_walk ip n s Hg He Hl) as (s1 & E1 & A1 & B1 & C1 & D1 & F1 & G1 & N1).
  destruct (iput_walk ip n s1 A1) as (s2 & E2 & A2 & B2 & C2 & D2 & F2 & G2 & N2); [by apply G1| |].
  { rewrite C1. by destruct (B1 n Hn) as (_ & _ & _ & _ & -> & _). }
  exists s2. unfold iunlockput. rewrite E1. split_and!; try done; try congruence.
  - intros k Hkk. etrans; [by apply B2|by apply B1].
  - intros k m Hm Hp. apply G2; [by apply G1|done].
Qed.

End cache.

(** ** Elements of a path *)

Fixpoint pieces (path : list Z) : list (list Z) :=
  match path with
  | [] => [[]]
  | c :: path =>
      if c =? SLASH then [] :: pieces path
      else match pieces path with p :: ps => (c :: p) :: ps | [] => [[c]] end
  end.

(** The parts between slashes that are not empty. *)
Definition elements (path : list Z) : list (list Z) := filter (λ p, p ≠ []) (pieces path).

Lemma pieces_nonempty path : pieces path ≠ [].
Proof. destruct path as [|c path]; cbn; [done|]. destruct (c =? SLASH); [done|]. by destruct (pieces path). Qed.

Lemma elements_slash path : elements (SLASH :: path) = elements path.
Proof. unfold elements. cbn [pieces]. rewrite Z.eqb_refl. by rewrite filter_cons_False by naive_solver. Qed.

Lemma elements_skip path : elements (skip_slashes path) = elements path.
Proof.
  induction path as [|c path IH]; [done|]. cbn [skip_slashes]. destruct (Z.eqb_spec c SLASH) as [->|]; [|done].
  by rewrite IH, elements_slash.
Qed.

Lemma skip_head path : match skip_slashes path with c :: _ => c ≠ SLASH | [] => True end.
Proof. induction path as [|c path IH]; cbn; [done|]. by destruct (Z.eqb_spec c SLASH). Qed.

Lemma skip_length path : (length (skip_slashes path) ≤ length path)%nat.
Proof. induction path as [|c path IH]; cbn; [done|]. case_match; cbn; lia. Qed.

Lemma span_pieces path e rest : span_elem path = (e, rest) →
  Forall (λ c, c ≠ SLASH) e ∧ path = e ++ rest ∧
  ∃ ps, pieces path = e :: ps ∧ elements rest = filter (λ p, p ≠ []) ps.
Proof.
  revert e. induction path as [|c path IH]; intros e; cbn [span_elem pieces].
  - intros [= <- <-]. split_and!; [constructor|done|]. by exists [].
  - destruct (Z.eqb_spec c SLASH) as [->|Hc].
    + intros [= <- <-]. split_and!; [constructor|done|]. exists (pieces path). split; [done|]. apply elements_slash.
    + destruct (span_elem path) as [e' rest'] eqn:E. intros [= <- <-]. destruct (IH e' eq_refl) as (A & -> & ps & Hp & Hr).
      split_and!; [by constructor|done|]. exists ps. by rewrite Hp.
Qed.

(** A string that ends in a buffer. *)
Lemma field_terminated e rest i : Forall (λ c, c ≠ 0) e → field (str (e ++ 0 :: rest)) i = field (str e) i.
Proof.
  intros He. rewrite (field_str e) by done. unfold field.
  destruct (forallb _ (seq 0 i)) eqn:E.
  - unfold str. destruct (decide (i < length e)%nat); [by rewrite app_nth1|].
    destruct (decide (i = length e)) as [->|]; [rewrite app_nth2, Nat.sub_diag by lia; symmetry; by apply nth_overflow|]. exfalso.
    rewrite forallb_forall in E. specialize (E (length e) ltac:(apply in_seq; lia)). unfold str in E. by rewrite app_nth2, Nat.sub_diag in E by lia.
  - unfold str. destruct (decide (i < length e)%nat) as [Hi|]; [|by rewrite nth_overflow by lia]. exfalso.
    apply not_true_iff_false in E. apply E. apply forallb_forall. intros j Hj%in_seq. unfold str. rewrite app_nth1 by lia.
    destruct (lookup_lt_is_Some_2 e j ltac:(lia)) as [b Hb]. rewrite (nth_lookup_Some _ _ _ b) by done.
    pose proof (Forall_lookup_1 _ _ _ _ He Hb). cbn in *. by apply negb_true_iff, Z.eqb_neq.
Qed.

(** skipelem() takes the first element; the name holds its first DIRSIZ bytes. *)
Lemma skipelem_spec path name : Forall (λ c, c ≠ 0) path → length name = DIRSIZ →
  match skipelem path name with
  | None => elements path = []
  | Some (path', name') => ∃ e, elements path = e :: elements path' ∧ length name' = DIRSIZ ∧ (length path' < length path)%nat ∧
      Forall (λ c, c ≠ 0) path' ∧ path' = skip_slashes path' ∧ (Forall is_byte path → Forall is_byte name → Forall is_byte path' ∧ Forall is_byte name') ∧
      ∀ i, (i < DIRSIZ)%nat → field (str name') i = field (str e) i
  end.
Proof.
  intros Hz Hl. unfold skipelem. pose proof (elements_skip path) as Es. pose proof (skip_length path) as Hlen. pose proof (skip_head path) as Hh.
  assert (∀ (Q : Z → Prop) l, Forall Q l → Forall Q (skip_slashes l)) as Hfs.
  { intros Q l. induction l as [|c l IH]; cbn; [done|]. intros Hc. pose proof Hc as [_ ?]%Forall_cons. destruct (c =? SLASH); [by apply IH|done]. }
  assert (∀ l, skip_slashes (skip_slashes l) = skip_slashes l) as Hidem.
  { intros l. induction l as [|c l IH]; cbn; [done|]. destruct (c =? SLASH) eqn:E; [done|]. cbn. by rewrite E. }
  destruct (skip_slashes path) as [|c p] eqn:Ep; [by rewrite <-Es|].
  destruct (span_elem (c :: p)) as [e rest] eqn:E. destruct (span_pieces _ _ _ E) as (A & Ecp & ps & Hp & Hr).
  assert (e ≠ []) as Hne.
  { cbn [span_elem] in E. rewrite (proj2 (Z.eqb_neq c SLASH)) in E by done. destruct (span_elem p). by injection E as <- _. }
  pose proof (Hfs _ _ Hz) as Hz'. rewrite Ep, Ecp in Hz'. apply Forall_app in Hz' as [Hze Hzr].
  exists e. split_and!.
  - rewrite <-Es. unfold elements at 1. rewrite Hp, filter_cons_True by done. f_equal. by rewrite elements_skip, Hr.
  - unfold DIRSIZ in *. case_match eqn:El; bool_facts; rewrite ?length_app, ?length_take, ?length_cons, ?length_drop;
      [apply Nat.leb_le in El|apply Nat.leb_gt in El]; lia.
  - pose proof (skip_length rest). rewrite Ecp, length_app in Hlen. destruct e; [done|]. cbn in Hlen. lia.
  - by apply Hfs.
  - symmetry. apply Hidem.
  - intros Hb Hbn. pose proof (Hfs _ _ Hb) as Hb'. rewrite Ep, Ecp in Hb'. apply Forall_app in Hb' as [Hbe Hbr]. split; [by apply Hfs|].
    case_match; apply Forall_app; split.
    + by apply Forall_take.
    + by apply Forall_drop.
    + done.
    + apply Forall_cons. split; [done|]. by apply Forall_drop.
  - intros i Hi. case_match eqn:El; [apply Nat.leb_le in El|apply Nat.leb_gt in El; by apply field_terminated].
    apply field_ext. intros j Hj. unfold str. rewrite app_nth1 by (rewrite length_take; lia).
    rewrite nth_firstn. by rewrite (proj2 (Nat.ltb_lt _ _)) by lia.
Qed.

Lemma elements_nil path : path = skip_slashes path → elements path = [] → path = [].
Proof.
  intros Es He. pose proof (skip_head path) as Hh. rewrite <-Es in Hh. destruct path as [|c p]; [done|]. exfalso.
  unfold elements in He. cbn [pieces] in He. rewrite (proj2 (Z.eqb_neq _ _) Hh) in He.
  destruct (pieces p); by rewrite filter_cons_True in He by done.
Qed.

(** ** The walk *)

(** The inode that the path names from the directory [n]; the directory of the
    last element for nameiparent(). *)
Fixpoint resolve (A : Z → afile) (parent : bool) (n : Z) (es : list (list Z)) : option Z :=
  match es with
  | [] => if parent then None else Some n
  | e :: es' =>
      if af_type (A n) =? T_DIR then
        if parent && bool_decide (es' = []) then Some n
        else m ← dlookup (dents (A n)) e; resolve A parent m es'
      else None
  end.

Lemma dlookup_cong l name name' : namecmp name' name = 0 → dlookup l name' = dlookup l name.
Proof.
  intros H. induction l as [|x l IH]; [done|]. rewrite !dlookup_cons. by rewrite (names_cong name name' x H), IH.
Qed.

Section walk.
Context (sb : superblock) (Hsb : sb_wf sb) (s0 : fs).

Abbreviation good := (good sb).
Abbreviation abs := (abs sb).

(** The directories are well formed. *)
Definition tree_ok (s : fs) : Prop := ∀ n, inum_ok sb n → is_dir (abs s n) → dir_ok sb (abs s) (abs s n).

Definition same_files (s s' : fs) : Prop := ∀ n, inum_ok sb n → agree (abs s' n) (abs s n).

Context (Hg0 : good s0) (Ha : anchored sb s0) (Hq : Forall (eq false) (locks s0)) (Hroom : 2 ≤ slots s0) (Htree : tree_ok s0).

(** At the entry [ip] of the inode [cur], referenced once more. *)
Record walking (s : fs) (ip : nat) (cur : Z) : Prop := {
  w_good : good s;
  w_files : same_files s0 s;
  w_refs : ∀ n, nref s n = nref s0 n + one cur n;
  w_locks : locks s = locks s0;
  w_slots : slots s = slots s0 - none (nref s0 cur);
  w_entry : entry ip cur s;
  w_ents : ∀ k m, entry k m s0 → entry k m s;
  w_nfree : nfree sb s = nfree sb s0;
}.

(** Back where the walk began. *)
Record finished (s : fs) : Prop := {
  f_good : good s;
  f_files : same_files s0 s;
  f_refs : ∀ n, nref s n = nref s0 n;
  f_locks : locks s = locks s0;
  f_slots : slots s = slots s0;
  f_ents : ∀ k m, entry k m s0 → entry k m s;
  f_nfree : nfree sb s = nfree sb s0;
}.

Lemma size_ok s n : good s → inum_ok sb n → 0 ≤ af_size (abs s n) ≤ MAXSIZE.
Proof. intros Hg Hn. exact (g_sizes _ _ Hg n Hn). Qed.

Lemma same_dents s n : good s → same_files s0 s → inum_ok sb n → dents (abs s n) = dents (abs s0 n).
Proof. intros Hg Hf Hn. apply dents_agree; [by apply size_ok|by apply Hf]. Qed.

Lemma same_type s n : same_files s0 s → inum_ok sb n → af_type (abs s n) = af_type (abs s0 n).
Proof. intros Hf Hn. by destruct (Hf n Hn) as (_ & -> & _). Qed.

Lemma same_dir s n : good s → same_files s0 s → inum_ok sb n → is_dir (abs s n) → dir_ok sb (abs s) (abs s n).
Proof using Htree.
  intros Hg Hf Hn Hd. unfold is_dir in Hd. rewrite (same_type s n Hf Hn) in Hd. destruct (Htree n Hn Hd) as [H1 H2]. split.
  - by destruct (Hf n Hn) as (_ & _ & _ & _ & _ & -> & _).
  - intros e He H0. rewrite same_dents in He by auto. destruct (H2 e He H0) as [Hi Ht]. split; [done|]. by rewrite same_type.
Qed.

Lemma entry_nref k m s : good s → entry k m s → 0 < nref s m.
Proof.
  intros Hg (i & Hi & Hr & <-). pose proof Hg as [(P & Hin) _ _ _ _]. by rewrite (nref_entry sb s k i (v_cache _ _ _ _ Hin) Hi Hr).
Qed.

(** The inode of the walk is not freed when its reference goes. *)
Lemma walk_kept s cur : same_files s0 s → inum_ok sb cur → af_type (abs s0 cur) ≠ 0 → nref s0 cur + 1 ≤ nref s cur →
  1 < nref s cur ∨ af_nlink (abs s cur) ≠ 0.
Proof using Ha.
  intros Hf Hn Ht Hr. destruct (Hf cur Hn) as (_ & _ & _ & _ & -> & _). destruct (Ha cur Hn Ht); [by right|left; lia].
Qed.

Lemma one_self n : one n n = 1.
Proof. unfold one. by rewrite decide_True. Qed.

(** The directory [cur] of the walk is locked. *)
Record inside (s : fs) (ip : nat) (cur : Z) : Prop := {
  i_good : good s;
  i_files : same_files s0 s;
  i_refs : ∀ n, nref s n = nref s0 n + one cur n;
  i_locks : locks s = <[ip := true]> (locks s0);
  i_was : locks s0 !! ip = Some false;
  i_slots : slots s = slots s0 - none (nref s0 cur);
  i_owns : owns s ip cur;
  i_ents : ∀ k m, entry k m s0 → entry k m s;
  i_nfree : nfree sb s = nfree sb s0;
}.

Lemma walk_lock s ip cur : walking s ip cur → inum_ok sb cur → af_type (abs s0 cur) ≠ 0 →
  ∃ s1, ilock sb ip s = Some s1 ∧ inside s1 ip cur ∧ d_type (din ip s1) = af_type (abs s0 cur).
Proof using Hsb Hq.
  intros [Wg Wf Wr Wl Ws We Wn Wb] Hn Ht. assert (locks s0 !! ip = Some false) as Hl.
  { rewrite <-Wl. destruct We as (i & Hi & _). destruct (lookup_lt_is_Some_2 (locks s) ip) as [b Hb].
    { unfold locks. rewrite length_fmap. by eapply lookup_lt_Some. }
    rewrite Hb. f_equal. symmetry. rewrite Wl in Hb. exact (Forall_lookup_1 _ _ _ _ Hq Hb). }
  destruct (ilock_walk sb Hsb ip cur s Wg We) as (s1 & E & A & B & C & D & F & G & N & En); [by rewrite Wl|by rewrite same_type|].
  exists s1. split_and!; try assumption; [split; try assumption|].
  - intros n Hnn. etrans; [by apply B|by apply Wf].
  - intros n. by rewrite C.
  - by rewrite D, Wl.
  - by rewrite F.
  - intros k m Hk. by apply En, Wn.
  - by rewrite N.
  - rewrite <-(same_type s cur Wf Hn). destruct (B cur Hn) as (_ & <- & _). destruct (held_abs sb ip cur s1 A G) as [_ ->]. reflexivity.
Qed.

Lemma relock (l : list bool) ip : l !! ip = Some false → <[ip := false]> (<[ip := true]> l) = l.
Proof. intros H. rewrite list_insert_insert_eq. by apply list_insert_id. Qed.

Lemma owns_entry s ip n : owns s ip n → entry ip n s.
Proof. intros (i & Hi & Hr & _ & Hn). by exists i. Qed.

(** iunlockput() of the directory after its lookup, which holds a reference to [m] if any. *)
Lemma walk_leave s ip cur m : good s → same_files s0 s → inum_ok sb cur → af_type (abs s0 cur) ≠ 0 → locks s0 !! ip = Some false →
  entry ip cur s → locks s = <[ip := true]> (locks s0) → (∀ n, nref s n = nref s0 n + one cur n + m n) → (∀ n, 0 ≤ m n) →
  ∃ s', iunlockput sb ip s = Some s' ∧ good s' ∧ same_files s0 s' ∧ locks s' = locks s0 ∧ (∀ n, nref s' n = nref s0 n + m n) ∧
    slots s' = slots s + none (nref s0 cur + m cur) ∧ (∀ k n, entry k n s → 0 < nref s0 n + m n → entry k n s') ∧ nfree sb s' = nfree sb s.
Proof using Ha Hg0 Hsb.
  intros Hg Hf Hn Ht Hl He Hlk Hr Hm. pose proof (Hr cur) as Hrc. rewrite one_self in Hrc. specialize (Hm cur).
  destruct (iunlockput_walk sb Hsb ip cur s Hg Hn He) as (s' & E & A & B & C & D & F & G & N).
  { rewrite Hlk. apply list_lookup_insert_eq. by eapply lookup_lt_Some. }
  { apply walk_kept; try assumption. lia. }
  assert (∀ n, nref s' n = nref s0 n + m n) as Hr' by (intros n; rewrite C, Hr; lia).
  exists s'. split_and!; try assumption.
  - intros n Hnn. etrans; [by apply B|by apply Hf].
  - rewrite D, Hlk. by apply relock.
  - by rewrite F, Hr'.
  - intros k n Hk Hp. apply G; [assumption|]. by rewrite Hr'.
Qed.

(** The ways out of a directory of the walk. *)
Lemma inside_fail s ip cur : inside s ip cur → inum_ok sb cur → af_type (abs s0 cur) ≠ 0 → ∃ s', iunlockput sb ip s = Some s' ∧ finished s'.
Proof using Ha Hg0 Hsb.
  intros [A B C D W F G En N] Hn Ht. destruct (walk_leave s ip cur zero A B Hn Ht W (owns_entry _ _ _ G) D) as (s' & E & A2 & B2 & D2 & C2 & F2 & En2 & N2).
  { intros n. rewrite C. unfold zero. lia. }
  { done. }
  exists s'. split; [done|]. unfold zero in C2, F2. split; try done.
  - intros n. rewrite C2. lia.
  - rewrite F2, Z.add_0_r, F. lia.
  - intros k m Hk. apply En2; [by apply En|]. pose proof (entry_nref k m s0 Hg0 Hk). unfold zero. lia.
  - congruence.
Qed.

Lemma inside_stop s ip cur : inside s ip cur → ∃ s', iunlock ip s = Some s' ∧ walking s' ip cur.
Proof using Hsb.
  intros [A B C D W F G En N]. destruct (iunlock_walk sb Hsb ip cur s A (owns_entry _ _ _ G)) as (s' & E & A2 & B2 & C2 & D2 & F2 & E2 & N2).
  { rewrite D. apply list_lookup_insert_eq. by eapply lookup_lt_Some. }
  exists s'. split; [done|]. split; try done.
  - intros n Hnn. etrans; [by apply B2|by apply B].
  - intros n. by rewrite C2.
  - rewrite D2, D. by apply relock.
  - by rewrite F2.
  - apply E2. by apply owns_entry.
  - intros k m Hk. by apply E2, En.
  - congruence.
Qed.

Lemma inside_next s ip cur name e : inside s ip cur → inum_ok sb cur → is_dir (abs s0 cur) → namecmp name e = 0 →
  match dlookup (dents (abs s0 cur)) e with
  | None => dirlookup ip name s = Some (None, s)
  | Some m => inum_ok sb m ∧ af_type (abs s0 m) ≠ 0 ∧ ∃ off next s1 s', dirlookup ip name s = Some (Some (off, next), s1) ∧
      iunlockput sb ip s1 = Some s' ∧ walking s' next m
  end.
Proof using Ha Hg0 Hsb Hroom Htree.
  intros [A B C D W F G En N] Hn Hd Hname.
  assert (dlookup (dents (abs s cur)) name = dlookup (dents (abs s0 cur)) e) as Edl by (rewrite same_dents by done; by apply dlookup_cong).
  assert (is_dir (abs s cur)) as Hd1 by (unfold is_dir; by rewrite same_type).
  pose proof (dirlookup_finds sb ip cur name s A G Hd1 (same_dir s cur A B Hn Hd1)) as Hfind. rewrite Edl in Hfind.
  destruct (dlookup (dents (abs s0 cur)) e) as [m|] eqn:Em; [|done].
  destruct (dlookup_live sb cur e m s0 (Htree cur Hn Hd) Em) as [Hm Hmt]. split_and!; try done.
  destruct Hfind as [off Hfind]. destruct (iget_walk sb Hsb m s A Hm) as (next & s2 & Eg & A2 & B2 & C2 & D2 & F2 & E2 & P2 & N2).
  { rewrite F. unfold none. case_match; lia. }
  rewrite Eg in Hfind. cbn [mbind option_bind] in Hfind.
  destruct (walk_leave s2 ip cur (one m) A2) as (s3 & Eu & A3 & B3 & D3 & C3 & F3 & E3 & N3); try done.
  { intros n Hnn. etrans; [by apply B2|by apply B]. }
  { by rewrite Hd. }
  { by apply P2, owns_entry. }
  { by rewrite D2. }
  { intros n. rewrite C2, C. lia. }
  { intros n. unfold one. case_decide; lia. }
  exists off, next, s2, s3. split_and!; try done. split; try done.
  - rewrite F3, F2, F, C. pose proof (nref_nonneg s0 cur). unfold none, one.
    destruct (decide (m = cur)) as [->|Hne]; [rewrite !decide_True by done|rewrite !decide_False by congruence; rewrite !Z.add_0_r; lia].
    destruct (Z.eqb_spec (nref s0 cur + 1) 0); lia.
  - apply E3; [done|]. rewrite one_self. pose proof (nref_nonneg s0 m). lia.
  - intros k j Hk. apply E3; [by apply P2, En|]. pose proof (entry_nref k j s0 Hg0 Hk). unfold one. case_decide; lia.
  - congruence.
Qed.

(** The end of the path: nameiparent() has nothing to return. *)
Lemma walk_drop s ip cur : walking s ip cur → inum_ok sb cur → af_type (abs s0 cur) ≠ 0 → ∃ s', iput sb ip s = Some s' ∧ finished s'.
Proof using Ha Hg0 Hsb.
  intros [Wg Wf Wr Wl Ws We Wn Wb] Hn Ht. destruct (iput_walk sb Hsb ip cur s Wg We) as (s' & E & A & B & C & D & F & G & N).
  { apply walk_kept; try assumption. rewrite Wr, one_self. lia. }
  assert (∀ n, nref s' n = nref s0 n) as Hr by (intros n; rewrite C, Wr; lia).
  exists s'. split; [done|]. split; try done.
  - intros n Hnn. etrans; [by apply B|by apply Wf].
  - congruence.
  - rewrite F, Hr, Ws. lia.
  - intros k m Hk. apply G; [by apply Wn|]. rewrite Hr. by eapply entry_nref.
  - congruence.
Qed.

(** The result of the loop. *)
Definition reached (r : option nat) (s : fs) (t : option Z) : Prop :=
  match t with
  | None => r = None ∧ finished s
  | Some m => ∃ ip, r = Some ip ∧ walking s ip m ∧ inum_ok sb m ∧ af_type (abs s0 m) ≠ 0
  end.

Lemma namex_loop_spec parent fuel path name s ip cur : walking s ip cur → inum_ok sb cur → af_type (abs s0 cur) ≠ 0 →
  Forall (λ c, c ≠ 0) path → length name = DIRSIZ → (length path < fuel)%nat →
  ∃ r name' s', namex_loop sb fuel ip path parent name s = Some (r, name', s') ∧ length name' = DIRSIZ ∧
    reached r s' (resolve (abs s0) parent cur (elements path)) ∧
    (Forall is_byte path → Forall is_byte name → Forall is_byte name') ∧
    (parent = true → r ≠ None → ∃ e, last (elements path) = Some e ∧ ∀ i, (i < DIRSIZ)%nat → field (str name') i = field (str e) i).
Proof using Ha Hg0 Hq Hroom Htree Hsb.
  revert path name s ip cur. induction fuel as [|fuel IH]; intros path name s ip cur Hw Hn Ht Hz Hl Hfuel; [lia|].
  cbn [namex_loop]. pose proof (skipelem_spec path name Hz Hl) as Hsk. destruct (skipelem path name) as [[path' name']|].
  2: { rewrite Hsk. destruct parent; [|by exists (Some ip), name, s; split_and!; try done; exists ip].
       destruct (walk_drop s ip cur Hw Hn Ht) as (s' & -> & Hf). by exists None, name, s'. }
  destruct Hsk as (e & Ee & Hl' & Hlt & Hz' & Hskip & Hbytes & Hname). rewrite Ee. cbn [resolve].
  destruct (walk_lock s ip cur Hw Hn Ht) as (s1 & -> & Hin & T1). cbn [mbind option_bind]. rewrite T1.
  destruct (inside_fail s1 ip cur Hin Hn Ht) as (sf & Ef & Hfin).
  destruct (Z.eqb_spec (af_type (abs s0 cur)) T_DIR) as [Hd|Hd]; cbn [negb].
  2: { rewrite Ef. exists None, name', sf. split_and!; try done. intros Hb Hbn. by apply Hbytes. }
  assert (bool_decide (path' = []) = bool_decide (elements path' = [])) as ->.
  { apply bool_decide_ext. split; [by intros ->|by apply elements_nil]. }
  destruct (parent && bool_decide (elements path' = [])) eqn:Epar.
  { destruct (inside_stop s1 ip cur Hin) as (s2 & -> & Hw2). exists (Some ip), name', s2. split_and!; try done; [by exists ip|intros Hb Hbn; by apply Hbytes|].
    intros -> _. apply bool_decide_eq_true in Epar. rewrite Epar. by exists e. }
  pose proof (inside_next s1 ip cur name' e Hin Hn Hd) as Hnext. destruct (dlookup (dents (abs s0 cur)) e) as [m|].
  2: { rewrite Hnext by (by apply namecmp_zero). cbn [mbind option_bind]. rewrite Ef. exists None, name', sf. split_and!; try done. intros Hb Hbn. by apply Hbytes. }
  destruct Hnext as (Hm & Hmt & off & next & s2 & s3 & -> & Eu & Hw3); [by apply namecmp_zero|]. cbn [mbind option_bind]. rewrite Eu. cbn [mbind option_bind].
  destruct (IH path' name' s3 next m Hw3 Hm Hmt Hz' Hl' ltac:(lia)) as (r & name2 & s4 & -> & Hl2 & Hre & Hb2 & Hlast).
  exists r, name2, s4. split_and!; try done.
  - intros Hb Hbn. destruct (Hbytes Hb Hbn). by apply Hb2.
  - intros Hp Hr. destruct (Hlast Hp Hr) as (e' & He' & Hf). exists e'. split; [|done].
    destruct (elements path') as [|x l] eqn:El; [done|]. by rewrite last_cons_cons.
Qed.

Lemma namex_spec cwd c path parent name : inum_ok sb ROOTINO → af_type (abs s0 ROOTINO) ≠ 0 → entry cwd c s0 → af_type (abs s0 c) ≠ 0 →
  Forall (λ c, c ≠ 0) path → length name = DIRSIZ →
  ∃ r name' s', namex sb cwd path parent name s0 = Some (r, name', s') ∧ length name' = DIRSIZ ∧
    reached r s' (resolve (abs s0) parent (if bool_decide (head path = Some SLASH) then ROOTINO else c) (elements path)) ∧
    (Forall is_byte path → Forall is_byte name → Forall is_byte name') ∧
    (parent = true → r ≠ None → ∃ e, last (elements path) = Some e ∧ ∀ i, (i < DIRSIZ)%nat → field (str name') i = field (str e) i).
Proof using Ha Hg0 Hq Hroom Htree Hsb.
  intros Hr Hrt Hc Hct Hz Hl. unfold namex. destruct (bool_decide (head path = Some SLASH)).
  - destruct (iget_walk sb Hsb ROOTINO s0 Hg0 Hr ltac:(lia)) as (ip & s1 & -> & A & B & C & D & F & E & En & N).
    cbn [mbind option_bind]. by apply namex_loop_spec; [|..|lia].
  - destruct (idup_walk sb Hsb cwd c s0 Hg0 Hc) as (A & B & C & D & F & E & En & N). cbn [mbind option_bind].
    apply namex_loop_spec; try done; [|lia]. destruct Hc as (i & Hi & Hri & <-).
    pose proof Hg0 as [(P & Hin) _ _ _ _]. exact (proj2 (c_entry sb s0 (v_cache _ _ _ _ Hin) cwd i Hi Hri)).
Qed.

End walk.

(** C8: namei() and nameiparent() return for every path and give the inode that the
    walk along the elements of the path reaches - from the root directory for a
    path that starts with a slash, else from the current directory -, or nothing
    when an element is missing or not in a directory. The inode has one
    reference more; all other references, all locks and all files are as before.
    nameiparent() stops at the directory of the last element and leaves that
    element, cut to DIRSIZ bytes, in the name. *)
Theorem namex_walks sb s cwd c path parent name : sb_wf sb → good sb s → anchored sb s → tree_ok sb s → Forall (eq false) (locks s) → 2 ≤ slots s →
  inum_ok sb ROOTINO → af_type (abs sb s ROOTINO) ≠ 0 → entry cwd c s → af_type (abs sb s c) ≠ 0 →
  Forall (λ c, c ≠ 0) path → length name = DIRSIZ →
  ∃ r name' s', namex sb cwd path parent name s = Some (r, name', s') ∧ good sb s' ∧
    (∀ n, inum_ok sb n → agree (abs sb s' n) (abs sb s n)) ∧ locks s' = locks s ∧
    match resolve (abs sb s) parent (if bool_decide (head path = Some SLASH) then ROOTINO else c) (elements path) with
    | None => r = None ∧ ∀ n, nref s' n = nref s n
    | Some m => ∃ ip, r = Some ip ∧ entry ip m s' ∧ ∀ n, nref s' n = nref s n + one m n
    end ∧
    (parent = true → r ≠ None → ∃ e, last (elements path) = Some e ∧ namecmp name' e = 0).
Proof.
  intros Hsb Hg Ha Ht Hl Hs Hr Hrt Hc Hct Hz Hn.
  destruct (namex_spec sb Hsb s Hg Ha Hl Hs Ht cwd c path parent name Hr Hrt Hc Hct Hz Hn) as (r & name' & s' & E & _ & Hre & _ & Hlast).
  exists r, name', s'. split; [done|]. unfold reached in Hre.
  assert (parent = true → r ≠ None → ∃ e, last (elements path) = Some e ∧ namecmp name' e = 0) as HL.
  { intros Hp Hrn. destruct (Hlast Hp Hrn) as (e & He & Hf). exists e. split; [done|]. by apply namecmp_zero. }
  destruct (resolve _ _ _ _) as [m|].
  - destruct Hre as (ip & -> & [A B C D F G _ _] & _). split_and!; try done. by exists ip.
  - destruct Hre as (-> & [A B C D F _ _]). by split_and!.
Qed.

(** "/a" in a root directory with an entry "a" for inode 2. *)
Lemma namex_walks_witness : ∃ s ip name s', dirlink small_sb 0 [97] 2 root_fs = Some (0, s) ∧
  namex small_sb 0 [47; 97] false (replicate 14 0) s = Some (Some ip, name, s') ∧ entry ip 2 s'.
Proof.
  pose proof (dirlink_spec small_sb small_wf 0 1 [97] 2 root_fs root_good root_anchored root_owns (proj1 root_dir) (proj2 root_dir)
    ltac:(repeat constructor; lia) ltac:(lia)) as H.
  destruct (dirlink small_sb 0 [97] 2 root_fs) as [[r s]|].
  2: { exfalso. destruct H as [H|[H|H]]; [|by vm_compute in H|by vm_compute in H].
       apply (H (mk_inode 0 0 0 false false no_dinode 0 0)); [|done]. do 2 apply list_elem_of_further. apply list_elem_of_here. }
  destruct H as (Hg & _ & Hoth & -> & Htag & Hd & Ht & Hnl & Hsz & _).
  assert (agree (abs small_sb s 2) (abs small_sb root_fs 2)) as (_ & T2 & _ & _ & N2 & _) by (apply Hoth; done).
  assert (agree (abs small_sb s 3) (abs small_sb root_fs 3)) as (_ & T3 & _) by (apply Hoth; done).
  change (dents (abs small_sb root_fs 1)) with (@nil dirent) in Hd, Hsz.
  destruct (namex_walks small_sb s 0 1 [47; 97] false (replicate 14 0)) as (r & name & s' & E & _ & _ & _ & Hre & _); try done.
  - intros n [-> |[-> | ->]]%small_cases; [left; by rewrite Hnl|left; by rewrite N2|by rewrite T3].
  - intros n [-> |[-> | ->]]%small_cases Hdir; [|unfold is_dir in Hdir; by rewrite T2 in Hdir|unfold is_dir in Hdir; by rewrite T3 in Hdir]. split; [by rewrite Hsz|].
    intros e He _. rewrite Hd in He. apply list_elem_of_singleton in He as ->. split; [done|]. change (af_type (abs small_sb s 2) ≠ 0). by rewrite T2.
  - rewrite (locks_tags root_fs s Htag). by repeat constructor.
  - by rewrite (slots_tags root_fs s Htag).
  - change (af_type (abs small_sb s 1) ≠ 0). by rewrite Ht.
  - apply (entry_tags 0 1 root_fs s Htag). by eexists.
  - by rewrite Ht.
  - by repeat constructor.
  - exists s. change (elements [47; 97]) with [[97]] in Hre. change (if bool_decide _ then ROOTINO else 1) with 1 in Hre.
    cbn [resolve andb] in Hre. rewrite Ht, Hd in Hre. change (dlookup (link (new_dirent [97] 2) []) [97]) with (Some 2) in Hre.
    destruct Hre as (ip & -> & He & _). by exists ip, name, s'.
Defined.
