(* ===== verification/File.v ===== *)
(** * Open files

    file.c and the descriptor calls of sysfile.c: the table of open files with
    their reference counts, descriptors of processes, reading and writing
    through an open file, advisory locks.

    A system call is a function of the arguments that argint(), argaddr(),
    argstr() and argfd() delivered (when they fail the call returns -1 at
    once) and of the process [p] that makes it. Pipes, devices and sockets are
    other components: [ext] is what their functions returned, and fileclose()
    tells which of them it closes. *)

From stdpp Require Import list_numbers gmap.
From S2P Require Import Prelude Mem CString Xattr Fs FsInv FsFile FsNode FsIO FsFree FsOps FsShare FsRange FsSpec FsCache Dir Path.

Definition NOFILE : Z := 16.
Definition NFILE : nat := 100.
Definition NDEV : Z := 10.
Definition MAXOPBLOCKS : Z := 10.
Definition LOCK_SH : Z := 1.
Definition LOCK_EX : Z := 2.
Definition LOCK_NB : Z := 4.
Definition LOCK_UN : Z := 8.

Inductive ftype := FD_NONE | FD_PIPE | FD_INODE | FD_DEVICE | FD_SOCK.

#[export] Instance ftype_eq_dec : EqDecision ftype.
Proof. solve_decision. Defined.

Record file := mk_file {
  f_type : ftype; f_ref : Z; f_readable : bool; f_writable : bool; f_pipe : Z; f_ip : nat; f_sock : Z;
  f_off : Z; f_major : Z; f_flock_held : Z }.

#[export] Instance file_rebuild : Rebuild file := λ f,
  mk_file (f_type f) (f_ref f) (f_readable f) (f_writable f) (f_pipe f) (f_ip f) (f_sock f) (f_off f) (f_major f) (f_flock_held f).
#[export] Instance f_type_set : Setter f_type := ltac:(solve_setter).
#[export] Instance f_ref_set : Setter f_ref := ltac:(solve_setter).
#[export] Instance f_readable_set : Setter f_readable := ltac:(solve_setter).
#[export] Instance f_writable_set : Setter f_writable := ltac:(solve_setter).
#[export] Instance f_ip_set : Setter f_ip := ltac:(solve_setter).
#[export] Instance f_off_set : Setter f_off := ltac:(solve_setter).
#[export] Instance f_major_set : Setter f_major := ltac:(solve_setter).
#[export] Instance f_flock_held_set : Setter f_flock_held := ltac:(solve_setter).
#[export] Instance file_inhabited : Inhabited file := populate (mk_file FD_NONE 0 false false 0 0 0 0 0 0).

(** The file system, the table of open files, and descriptors and current
    directory of each process. *)
Record sys := mk_sys { s_fs : fs; ftable : list file; ofile : list (list (option nat)); cwd : list (option nat) }.

#[export] Instance sys_rebuild : Rebuild sys := λ s, mk_sys (s_fs s) (ftable s) (ofile s) (cwd s).
#[export] Instance s_fs_set : Setter s_fs := ltac:(solve_setter).
#[export] Instance ftable_set : Setter ftable := ltac:(solve_setter).
#[export] Instance ofile_set : Setter ofile := ltac:(solve_setter).
#[export] Instance cwd_set : Setter cwd := ltac:(solve_setter).

Definition file_at (f : nat) (s : sys) : file := ftable s !!! f.
Definition set_file (f : nat) (g : file → file) (s : sys) : sys := s <| ftable := alter g f (ftable s) |>.

(** The transaction ends: the logged blocks are committed, see Log.v. *)
Definition end_op (s : fs) : fs := s <| logged := [] |>.

(** ** The table of open files *)

Definition filealloc (s : sys) : option nat * sys :=
  match find_index (λ f, f_ref f =? 0) (ftable s) with
  | Some f => (Some f, set_file f (λ f, f <| f_ref := 1 |> <| f_flock_held := 0 |>) s)
  | None => (None, s)
  end.

Definition filedup (f : nat) (s : sys) : option sys :=
  if f_ref (file_at f s) <? 1 then None
  else Some (set_file f (λ f, f <| f_ref := f_ref f + 1 |>) s).

(** Dropping the lock of an open file on its inode; tells whether wakeup() is called. *)
Definition flock_drop (ip : nat) (s : fs) : bool * fs :=
  if i_flock_type (inode_at ip s) =? LOCK_SH then
    let s := set_inode ip (λ i, i <| i_flock_count := i_flock_count i - 1 |>) s in
    if i_flock_count (inode_at ip s) =? 0 then (true, set_inode ip (λ i, i <| i_flock_type := 0 |>) s)
    else (false, s)
  else if i_flock_type (inode_at ip s) =? LOCK_EX then
    (true, set_inode ip (λ i, i <| i_flock_type := 0 |> <| i_flock_count := 0 |>) s)
  else (false, s).

(** What fileclose() does outside the table. *)
Inductive closing := CNone | CPipe (pi : Z) (writable : bool) | CInode | CSock (sk : Z).

Section file.
Context (sb : superblock).

Definition fileclose (f : nat) (s : sys) : option (closing * sys) :=
  if f_ref (file_at f s) <? 1 then None
  else
    let s := set_file f (λ f, f <| f_ref := f_ref f - 1 |>) s in
    if 0 <? f_ref (file_at f s) then Some (CNone, s)
    else
      let ff := file_at f s in
      let s := set_file f (λ f, f <| f_ref := 0 |> <| f_type := FD_NONE |> <| f_flock_held := 0 |>) s in
      let s := if negb (f_flock_held ff =? 0) && bool_decide (f_type ff = FD_INODE)
               then s <| s_fs := (flock_drop (f_ip ff) (s_fs s)).2 |> else s in
      match f_type ff with
      | FD_PIPE => Some (CPipe (f_pipe ff) (f_writable ff), s)
      | FD_INODE | FD_DEVICE =>
          s' ← iput sb (f_ip ff) (s_fs s);
          Some (CInode, s <| s_fs := end_op s' |>)
      | FD_SOCK => Some (CSock (f_sock ff), s)
      | FD_NONE => Some (CNone, s)
      end.

(** [out_ok] tells whether copyout() of the struct works. *)
Definition filestat (f : nat) (out_ok : bool) (s : sys) : option (Z * option stat * sys) :=
  let ff := file_at f s in
  if bool_decide (f_type ff = FD_INODE) || bool_decide (f_type ff = FD_DEVICE) then
    s1 ← ilock sb (f_ip ff) (s_fs s);
    let st := stati (f_ip ff) s1 in
    s2 ← iunlock (f_ip ff) s1;
    let s := s <| s_fs := s2 |> in
    if out_ok then Some (0, Some st, s) else Some (-1, None, s)
  else Some (-1, None, s).

(** [dev_ok] tells whether the device has a read (or write) function. *)
Definition fileread (f : nat) (dev_ok : Z → bool) (ext : Z) (dst_ok : Z → Z → bool) (n : Z) (s : sys)
    : option (Z * list Z * sys) :=
  let ff := file_at f s in
  if negb (f_readable ff) then Some (-1, [], s)
  else match f_type ff with
  | FD_PIPE | FD_SOCK => Some (ext, [], s)
  | FD_DEVICE =>
      if (f_major ff <? 0) || (NDEV <=? f_major ff) || negb (dev_ok (f_major ff)) then Some (-1, [], s)
      else Some (ext, [], s)
  | FD_INODE =>
      let ip := f_ip ff in
      s1 ← ilock sb ip (s_fs s);
      if Z.land (d_mode (din ip s1)) 1 =? 0 then
        s2 ← iunlock ip s1;
        Some (-1, [], s <| s_fs := s2 |>)
      else
        '(r, bs) ← readi ip dst_ok (f_off ff) (u32 n) s1;
        let s := if 0 <? r then set_file f (λ f, f <| f_off := u32 (f_off f + r) |>) s else s in
        s2 ← iunlock ip s1;
        Some (r, bs, s <| s_fs := s2 |>)
  | FD_NONE => None
  end.

(** The bytes of one transaction. *)
Definition WMAX : Z := ((MAXOPBLOCKS - 1 - 1 - 2) / 2) * BSIZE.

(** The loop of filewrite(): [inl i] where it ends, [inr tt] for the early return. *)
Fixpoint write_chunks (fuel : nat) (f : nat) (src : Z → Z → list Z * bool) (i n : Z) (s : sys)
    : option ((Z + unit) * sys) :=
  match fuel with
  | O => None
  | S fuel =>
      if i <? n then
        let n1 := if WMAX <? n - i then WMAX else n - i in
        let ip := f_ip (file_at f s) in
        s1 ← ilock sb ip (s_fs s);
        if Z.land (d_mode (din ip s1)) 2 =? 0 then
          s2 ← iunlock ip s1;
          Some (inr tt, s <| s_fs := end_op s2 |>)
        else
          '(r, s1) ← writei sb ip (λ tot m, src (i + tot) m) (f_off (file_at f s)) n1 s1;
          let s := if 0 <? r then set_file f (λ f, f <| f_off := u32 (f_off f + r) |>) s else s in
          s2 ← iunlock ip s1;
          let s := s <| s_fs := end_op s2 |> in
          if r <? 0 then Some (inl i, s)
          else if negb (r =? n1) then None
          else write_chunks fuel f src (i + r) n s
      else Some (inl i, s)
  end.

Definition wturns (n : Z) : nat := S (Z.to_nat (n / WMAX + 1)).

Definition filewrite (f : nat) (dev_ok : Z → bool) (ext : Z) (src : Z → Z → list Z * bool) (n : Z) (s : sys)
    : option (Z * sys) :=
  let ff := file_at f s in
  if negb (f_writable ff) then Some (-1, s)
  else match f_type ff with
  | FD_PIPE | FD_SOCK => Some (ext, s)
  | FD_DEVICE =>
      if (f_major ff <? 0) || (NDEV <=? f_major ff) || negb (dev_ok (f_major ff)) then Some (-1, s)
      else Some (ext, s)
  | FD_INODE =>
      '(r, s) ← write_chunks (wturns n) f src 0 n s;
      match r with
      | inr tt => Some (-1, s)
      | inl i => Some (if i =? n then n else -1, s)
      end
  | FD_NONE => None
  end.

Definition filefsync (f : nat) (datasync : bool) (s : sys) : option (Z * sys) :=
  let ff := file_at f s in
  if negb (bool_decide (f_type ff = FD_INODE)) then Some (-1, s)
  else
    s1 ← ilock sb (f_ip ff) (s_fs s);
    let s1 := if datasync then s1 else iupdate sb (f_ip ff) s1 in
    s2 ← iunlock (f_ip ff) s1;
    Some (0, s <| s_fs := end_op s2 |>).

End file.

(** ** Advisory locks *)

(** One pass of fileflock() under flock_lock: it returns a value, or sleeps on
    the lock of the inode, after which the loop of the same request runs again.
    The flag tells whether wakeup() is called. *)
Inductive flock_result := FRet (r : Z) | FSleep.

(** The loops that wait for the lock of the inode. *)
Definition flock_wait (f : nat) (op : Z) (nonblock : bool) (s : sys) : flock_result * sys :=
  let ip := f_ip (file_at f s) in
  if op =? LOCK_SH then
    if i_flock_type (inode_at ip (s_fs s)) =? LOCK_EX then
      if nonblock then (FRet (-1), s) else (FSleep, s)
    else
      let s := s <| s_fs := set_inode ip (λ i, i <| i_flock_type := LOCK_SH |> <| i_flock_count := i_flock_count i + 1 |>) (s_fs s) |> in
      (FRet 0, set_file f (λ f, f <| f_flock_held := LOCK_SH |>) s)
  else if op =? LOCK_EX then
    if negb (i_flock_type (inode_at ip (s_fs s)) =? 0) then
      if nonblock then (FRet (-1), s) else (FSleep, s)
    else
      let s := s <| s_fs := set_inode ip (λ i, i <| i_flock_type := LOCK_EX |> <| i_flock_count := 1 |>) (s_fs s) |> in
      (FRet 0, set_file f (λ f, f <| f_flock_held := LOCK_EX |>) s)
  else (FRet (-1), s).

Definition fileflock (f : nat) (operation : Z) (s : sys) : flock_result * bool * sys :=
  let nonblock := negb (Z.land operation LOCK_NB =? 0) in
  let op := Z.ldiff operation LOCK_NB in
  let ff := file_at f s in
  if negb (bool_decide (f_type ff = FD_INODE)) then (FRet (-1), false, s)
  else
    let ip := f_ip ff in
    if op =? LOCK_UN then
      if f_flock_held ff =? 0 then (FRet 0, false, s)
      else
        let '(w, s1) := flock_drop ip (s_fs s) in
        (FRet 0, w, set_file f (λ f, f <| f_flock_held := 0 |>) (s <| s_fs := s1 |>))
    else
      let '(w, s) :=
        if negb (f_flock_held ff =? 0) && negb (f_flock_held ff =? op) then
          let '(w, s1) := flock_drop ip (s_fs s) in
          (w, set_file f (λ f, f <| f_flock_held := 0 |>) (s <| s_fs := s1 |>))
        else (false, s) in
      let '(r, s) := flock_wait f op nonblock s in (r, w, s).

(** ** Descriptors *)

Definition argfd (p : nat) (fd : Z) (s : sys) : option nat :=
  if (fd <? 0) || (NOFILE <=? fd) then None else mjoin ((ofile s !!! p) !! Z.to_nat fd).

Definition set_fd (p fd : nat) (o : option nat) (s : sys) : sys := s <| ofile := alter (λ l, <[fd := o]> l) p (ofile s) |>.

Definition fdalloc (p f : nat) (s : sys) : Z * sys :=
  match find_index (λ o, bool_decide (o = None)) (take (Z.to_nat NOFILE) (ofile s !!! p)) with
  | Some fd => (Z.of_nat fd, set_fd p fd (Some f) s)
  | None => (-1, s)
  end.

Definition sys_dup (p : nat) (fd : Z) (s : sys) : option (Z * sys) :=
  match argfd p fd s with
  | None => Some (-1, s)
  | Some f =>
      let '(fd, s) := fdalloc p f s in
      if fd <? 0 then Some (-1, s)
      else s ← filedup f s; Some (fd, s)
  end.

Section fds.
Context (sb : superblock).

Definition sys_close (p : nat) (fd : Z) (s : sys) : option (Z * closing * sys) :=
  match argfd p fd s with
  | None => Some (-1, CNone, s)
  | Some f =>
      let s := set_fd p (Z.to_nat fd) None s in
      '(c, s) ← fileclose sb f s;
      Some (0, c, s)
  end.

Definition sys_dup2 (p : nat) (oldfd newfd : Z) (s : sys) : option (Z * closing * sys) :=
  match argfd p oldfd s with
  | None => Some (-1, CNone, s)
  | Some f =>
      if (newfd <? 0) || (NOFILE <=? newfd) then Some (-1, CNone, s)
      else if oldfd =? newfd then Some (newfd, CNone, s)
      else
        '(c, s) ← (match mjoin ((ofile s !!! p) !! Z.to_nat newfd) with
                   | Some g => '(c, s) ← fileclose sb g s; Some (c, set_fd p (Z.to_nat newfd) None s)
                   | None => Some (CNone, s)
                   end);
        s ← filedup f s;
        Some (newfd, c, set_fd p (Z.to_nat newfd) (Some f) s)
  end.

(** The loops of fork() and exit() over the descriptors, and the current directory;
    the mapped regions that exit() closes in between are not part of these steps. *)
Definition fork_fd (p np : nat) (o : option sys) (fd : nat) : option sys :=
  s ← o;
  match mjoin ((ofile s !!! p) !! fd) with
  | Some f => s ← filedup f s; Some (set_fd np fd (Some f) s)
  | None => Some s
  end.

Definition fork_files (p np : nat) (s : sys) : option sys :=
  s ← foldl (fork_fd p np) (Some s) (seq 0 (Z.to_nat NOFILE));
  match mjoin (cwd s !! p) with
  | Some ip => Some (s <| s_fs := idup ip (s_fs s) |> <| cwd := <[np := Some ip]> (cwd s) |>)
  | None => None
  end.

Definition exit_fd (p : nat) (o : option (list closing * sys)) (fd : nat) : option (list closing * sys) :=
  '(cs, s) ← o;
  match mjoin ((ofile s !!! p) !! fd) with
  | Some f => '(c, s) ← fileclose sb f s; Some (cs ++ [c], set_fd p fd None s)
  | None => Some (cs, s)
  end.

Definition exit_files (p : nat) (s : sys) : option (list closing * sys) :=
  '(cs, s) ← foldl (exit_fd p) (Some ([], s)) (seq 0 (Z.to_nat NOFILE));
  match mjoin (cwd s !! p) with
  | Some ip => s' ← iput sb ip (s_fs s); Some (cs, s <| s_fs := end_op s' |> <| cwd := <[p := None]> (cwd s) |>)
  | None => None
  end.

End fds.

(** ** The invariant *)

Definition is_fd (f : nat) (o : option nat) : Z := if decide (o = Some f) then 1 else 0.
Definition onef (f g : nat) : Z := if decide (f = g) then 1 else 0.

(** The descriptors of an open file. *)
Definition fdcount (f : nat) (s : sys) : Z := sum_with (λ l, sum_with (is_fd f) l) (ofile s).

Definition on_inode (f : file) : bool := bool_decide (f_type f = FD_INODE) || bool_decide (f_type f = FD_DEVICE).

(** The references to an inode that open files and current directories hold. *)
Definition file_ref (s : fs) (n : Z) (f : file) : Z := if on_inode f then one (inum_at (f_ip f) s) n else 0.
Definition cwd_ref (s : fs) (n : Z) (o : option nat) : Z := match o with Some ip => one (inum_at ip s) n | None => 0 end.
Definition inode_refs (n : Z) (s : sys) : Z :=
  sum_with (file_ref (s_fs s) n) (ftable s) + sum_with (cwd_ref (s_fs s) n) (cwd s).

(** The cache entries in use by an open file or a process. *)
Definition uses (s : sys) (ip : nat) : Prop :=
  (∃ ff, ff ∈ ftable s ∧ on_inode ff = true ∧ f_ip ff = ip) ∨ Some ip ∈ cwd s.

(** [x] and [y]: references to open files and to inodes held by the running call. *)
Record sys_ok (sb : superblock) (x : nat → Z) (y : Z → Z) (s : sys) : Prop := {
  so_good : good sb (s_fs s);
  so_locks : Forall (eq false) (locks (s_fs s));
  so_fds : Forall (λ l, length l = Z.to_nat NOFILE) (ofile s);
  so_fd : ∀ l f, l ∈ ofile s → Some f ∈ l → (f < length (ftable s))%nat;
  so_ref : ∀ f ff, ftable s !! f = Some ff → f_ref ff = fdcount f s + x f ∧ 0 ≤ f_ref ff;
  so_idle : ∀ ff, ff ∈ ftable s → f_ref ff = 0 → f_type ff = FD_NONE;
  so_entry : ∀ ip, uses s ip → ∃ n, entry ip n (s_fs s);
  so_nref : ∀ n, nref (s_fs s) n = inode_refs n s + y n;
}.

(** ** Counting *)

Lemma is_fd_nonneg f o : 0 ≤ is_fd f o.
Proof. unfold is_fd. case_decide; lia. Qed.

Lemma fdcount_set p fd o o0 l s g : ofile s !! p = Some l → l !! fd = Some o0 →
  fdcount g (set_fd p fd o s) = fdcount g s - is_fd g o0 + is_fd g o.
Proof.
  intros Hp Hf. unfold fdcount, set_fd. cbn [ofile upd ofile_set]. rewrite (list_alter_insert _ _ _ l) by done.
  rewrite (sum_with_insert _ _ _ l) by done. rewrite (sum_with_insert _ _ _ o0) by done. lia.
Qed.

Lemma fdcount_pos f s l : l ∈ ofile s → Some f ∈ l → 1 ≤ fdcount f s.
Proof.
  intros Hl Hf. assert (is_fd f (Some f) ≤ sum_with (is_fd f) l) as H1 by (apply sum_with_elem_le; [intros; apply is_fd_nonneg|done]).
  assert (sum_with (is_fd f) l ≤ fdcount f s) as H2.
  { apply (sum_with_elem_le (λ l, sum_with (is_fd f) l)); [|done]. intros k _. apply sum_with_nonneg. intros; apply is_fd_nonneg. }
  assert (is_fd f (Some f) = 1) as E by (unfold is_fd; by rewrite decide_True). lia.
Qed.

Lemma entry_inum ip n s : entry ip n s → inum_at ip s = n.
Proof. intros (i & Hi & _ & Hn). unfold inum_at. by rewrite (inode_at_entry _ _ _ Hi). Qed.

(** The counts depend on the numbers of the inodes in use only. *)
Lemma inode_refs_ext n s s' : ftable s' = ftable s → cwd s' = cwd s →
  (∀ ip, uses s ip → inum_at ip (s_fs s') = inum_at ip (s_fs s)) → inode_refs n s' = inode_refs n s.
Proof.
  intros E1 E2 H. unfold inode_refs. rewrite E1, E2. f_equal; apply sum_with_ext.
  - intros ff Hff. unfold file_ref. destruct (on_inode ff) eqn:E; [|done]. rewrite H; [done|]. left. by exists ff.
  - intros [ip|] Hip; [|done]. cbn. rewrite H; [done|]. by right.
Qed.

Lemma inode_refs_use n s ip : uses s ip → n = inum_at ip (s_fs s) → 1 ≤ inode_refs n s.
Proof.
  intros Hu ->. unfold inode_refs.
  assert (∀ ff, ff ∈ ftable s → 0 ≤ file_ref (s_fs s) (inum_at ip (s_fs s)) ff) as P1.
  { intros ff _. unfold file_ref, one. repeat case_match; lia. }
  assert (∀ o, o ∈ cwd s → 0 ≤ cwd_ref (s_fs s) (inum_at ip (s_fs s)) o) as P2.
  { intros [k|] _; cbn; unfold one; repeat case_match; lia. }
  pose proof (sum_with_nonneg _ _ P1) as N1. pose proof (sum_with_nonneg _ _ P2) as N2. destruct Hu as [(ff & Hff & Hi & <-)|Hc].
  - pose proof (sum_with_elem_le _ _ ff P1 Hff) as H. unfold file_ref at 1 in H. rewrite Hi, one_self in H. lia.
  - pose proof (sum_with_elem_le _ _ (Some ip) P2 Hc) as H. cbn in H. rewrite one_self in H. lia.
Qed.

(** ** Changes of the table and of the descriptors *)

Section inv.
Context (sb : superblock) (Hsb : sb_wf sb).

Abbreviation sys_ok := (sys_ok sb).

Lemma sys_ok_ext x x' y y' s : sys_ok x y s → (∀ f, x' f = x f) → (∀ n, y' n = y n) → sys_ok x' y' s.
Proof.
  intros [H1 H2 H3 H4 H5 H6 H7 H8] Ex Ey. split; try done.
  - intros f ff Hf. rewrite Ex. by apply H5.
  - intros n. by rewrite Ey.
Qed.

Lemma set_file_lookup f g s k : ftable (set_file f g s) !! k = if decide (k = f) then g <$> ftable s !! f else ftable s !! k.
Proof.
  unfold set_file. cbn [ftable upd ftable_set]. case_decide as E; [subst; apply list_lookup_alter_eq|]. by apply list_lookup_alter_ne.
Qed.

(** A change of an open file that stays on its inode. *)
Lemma ref_change x y s f ff g d : sys_ok x y s → ftable s !! f = Some ff → on_inode (g ff) = on_inode ff → f_ip (g ff) = f_ip ff →
  f_ref (g ff) = f_ref ff + d → 0 ≤ f_ref (g ff) → (f_ref (g ff) = 0 → f_type (g ff) = FD_NONE) →
  sys_ok (λ h, x h + d * onef f h) y (set_file f g s).
Proof.
  intros [H1 H2 H3 H4 H5 H6 H7 H8] Hf Ho Hip Hr Hp Hi.
  assert (∀ n, inode_refs n (set_file f g s) = inode_refs n s) as HR.
  { intros n. unfold inode_refs, set_file. cbn [ftable cwd s_fs upd ftable_set]. rewrite (list_alter_insert _ _ _ ff) by done.
    rewrite (sum_with_insert _ _ _ ff) by done. unfold file_ref at 2 3. rewrite Ho, Hip. lia. }
  assert (∀ ip, uses (set_file f g s) ip → uses s ip) as HU.
  { intros ip [(h & [k Hk]%list_elem_of_lookup & Hon & <-)|Hc]; [|by right]. left. rewrite set_file_lookup in Hk. case_decide as E.
    - rewrite Hf in Hk. injection Hk as <-. exists ff. split_and!; [by eapply list_elem_of_lookup_2|congruence|done].
    - exists h. split_and!; try done. by eapply list_elem_of_lookup_2. }
  split; try done.
  - intros l h Hl Hh. unfold set_file. cbn [ftable upd ftable_set]. rewrite length_alter. by eapply H4.
  - intros h hh Hh. rewrite set_file_lookup in Hh. unfold onef. case_decide as E.
    + subst h. rewrite Hf in Hh. injection Hh as <-. rewrite decide_True by done. destruct (H5 f ff Hf) as [E _].
      change (fdcount f (set_file f g s)) with (fdcount f s). lia.
    + rewrite decide_False by done. rewrite Z.mul_0_r, Z.add_0_r. by apply H5.
  - intros h [k Hk]%list_elem_of_lookup. rewrite set_file_lookup in Hk. case_decide.
    + rewrite Hf in Hk. by injection Hk as <-.
    + apply H6. by eapply list_elem_of_lookup_2.
  - intros ip Hu. apply H7. by apply HU.
  - intros n. rewrite HR. apply H8.
Qed.

Lemma fd_change x y s p fd o o0 l : sys_ok x y s → ofile s !! p = Some l → l !! fd = Some o0 →
  (∀ f, o = Some f → (f < length (ftable s))%nat) →
  sys_ok (λ h, x h + is_fd h o0 - is_fd h o) y (set_fd p fd o s).
Proof.
  intros [H1 H2 H3 H4 H5 H6 H7 H8] Hp Hfd Ho.
  assert (∀ k, k ∈ ofile (set_fd p fd o s) → k = <[fd := o]> l ∨ k ∈ ofile s) as Hin.
  { intros k [i Hk]%list_elem_of_lookup. unfold set_fd in Hk. cbn [ofile upd ofile_set] in Hk. rewrite (list_alter_insert _ _ _ l) in Hk by done.
    apply list_lookup_insert_Some in Hk as [(_ & <- & _)|[_ Hk]]; [by left|]. right. by eapply list_elem_of_lookup_2. }
  pose proof (list_elem_of_lookup_2 _ _ _ Hp) as Hl. split; try done.
  - apply Forall_forall. intros k [-> |Hk]%Hin; [rewrite length_insert|]; by eapply Forall_forall in H3.
  - intros k f [-> |Hk]%Hin Hf; [|by eapply H4]. apply list_elem_of_lookup in Hf as [i Hf].
    apply list_lookup_insert_Some in Hf as [(_ & Ef & _)|[_ Hf]]; [by apply Ho|].
    apply (H4 l); [done|by eapply list_elem_of_lookup_2].
  - intros f ff Hf. rewrite (fdcount_set p fd o o0 l s f Hp Hfd). destruct (H5 f ff Hf). lia.
Qed.

(** The file system alone changes: references to [n] are added or given back. *)
Lemma fs_change x y y' s s' : sys_ok x y s → good sb s' → locks s' = locks (s_fs s) → (∀ n, nref s' n = nref (s_fs s) n + y' n) →
  (∀ k m, entry k m (s_fs s) → uses s k → entry k m s') → sys_ok x (λ n, y n + y' n) (s <| s_fs := s' |>).
Proof.
  intros [H1 H2 H3 H4 H5 H6 H7 H8] Hg Hl Hr He. split; try done.
  - cbn [s_fs upd s_fs_set]. by rewrite Hl.
  - intros ip Hu. destruct (H7 ip Hu) as [n Hn]. exists n. by apply He.
  - intros n. cbn [s_fs upd s_fs_set]. rewrite Hr, H8, (inode_refs_ext n s (s <| s_fs := s' |>)); [lia|done|done|].
    intros ip Hu. destruct (H7 ip Hu) as [m Hm]. cbn [s_fs upd s_fs_set]. rewrite (entry_inum ip m _ Hm). by apply entry_inum, He.
Qed.

(** ** Closing *)

Lemma good_end_op s : good sb s → good sb (end_op s).
Proof.
  intros Hg. pose proof Hg as [(P & Hi) Hcl _ _ Hlive]. assert (cache_ok sb (end_op s)) as Hc by (destruct (v_cache _ _ _ _ Hi); by split).
  apply (recached_good sb Hsb s (end_op s) Hg); try done.
  intros ip n Ho. split; [by apply Hcl|by eapply Hlive].
Qed.

Lemma flock_set_spec ip n s g : good sb s → entry ip n s →
  (∀ i, i_inum (g i) = i_inum i ∧ i_dev (g i) = i_dev i ∧ i_valid (g i) = i_valid i ∧ i_d (g i) = i_d i ∧ i_ref (g i) = i_ref i ∧ i_locked (g i) = i_locked i) →
  good sb (set_inode ip g s) ∧ tags (set_inode ip g s) = tags s ∧ ∀ m, inum_ok sb m → agree (abs sb (set_inode ip g s) m) (abs sb s m).
Proof.
  intros Hg (i & Hi & Hr & Hn) H. destruct (H i) as (G1 & G2 & G3 & G4 & G5 & G6). pose proof Hg as [(P & Hin) Hcl _ _ _].
  destruct (entry_same sb Hsb s ip g i P Hin Hcl Hi Hg) as [A B]; try done. split_and!; [done| |done].
  unfold tags, set_inode. cbn [icache upd icache_set]. rewrite (list_alter_insert _ _ _ i) by done. rewrite list_fmap_insert.
  apply list_insert_id. rewrite list_lookup_fmap, Hi. cbn. unfold tag. by rewrite G1, G2, G3, G5, G6.
Qed.

Lemma flock_drop_spec ip n s : good sb s → entry ip n s →
  let s' := (flock_drop ip s).2 in
  good sb s' ∧ tags s' = tags s ∧ ∀ m, inum_ok sb m → agree (abs sb s' m) (abs sb s m).
Proof.
  intros Hg He. unfold flock_drop.
  assert (∀ g, (∀ i, i_inum (g i) = i_inum i ∧ i_dev (g i) = i_dev i ∧ i_valid (g i) = i_valid i ∧ i_d (g i) = i_d i ∧ i_ref (g i) = i_ref i ∧ i_locked (g i) = i_locked i) →
    good sb (set_inode ip g s) ∧ tags (set_inode ip g s) = tags s ∧ ∀ m, inum_ok sb m → agree (abs sb (set_inode ip g s) m) (abs sb s m)) as Hset.
  { intros g H. by apply (flock_set_spec ip n). }
  destruct (i_flock_type (inode_at ip s) =? LOCK_SH).
  - destruct (Hset (λ i, i <| i_flock_count := i_flock_count i - 1 |>)) as (A & B & C); [done|].
    case_match; [|done]. destruct (flock_set_spec ip n _ (λ i, i <| i_flock_type := 0 |>) A (entry_tags ip n s _ B He)) as (A' & B' & C'); [done|].
    cbn [snd]. split_and!; [done|congruence|]. intros m Hm. etrans; [by apply C'|by apply C].
  - case_match; [|done]. by apply Hset.
Qed.

(** The last descriptor of an open file goes: the table entry is cleared. *)
Lemma file_clear x y s f ff g : sys_ok x y s → ftable s !! f = Some ff → f_ref (g ff) = 0 → f_type (g ff) = FD_NONE →
  sys_ok (λ h, x h - f_ref ff * onef f h) (λ n, y n + file_ref (s_fs s) n ff) (set_file f g s).
Proof.
  intros [H1 H2 H3 H4 H5 H6 H7 H8] Hf Hr Ht. split; try done.
  - intros l h Hl Hh. unfold set_file. cbn [ftable upd ftable_set]. rewrite length_alter. by eapply H4.
  - intros h hh Hh. rewrite set_file_lookup in Hh. unfold onef. case_decide as E.
    + subst h. rewrite Hf in Hh. injection Hh as <-. rewrite decide_True by done. destruct (H5 f ff Hf) as [E _].
      change (fdcount f (set_file f g s)) with (fdcount f s). lia.
    + rewrite decide_False by done. rewrite Z.mul_0_r, Z.sub_0_r. by apply H5.
  - intros h [k Hk]%list_elem_of_lookup. rewrite set_file_lookup in Hk. case_decide.
    + rewrite Hf in Hk. by injection Hk as <-.
    + apply H6. by eapply list_elem_of_lookup_2.
  - intros ip [(h & [k Hk]%list_elem_of_lookup & Hon & <-)|Hc]; [|apply H7; by right]. apply H7. left. rewrite set_file_lookup in Hk. case_decide as E.
    + rewrite Hf in Hk. injection Hk as <-. unfold on_inode in Hon. by rewrite Ht in Hon.
    + exists h. split_and!; try done. by eapply list_elem_of_lookup_2.
  - intros n. rewrite H8. unfold inode_refs, set_file. cbn [ftable cwd s_fs upd ftable_set]. rewrite (list_alter_insert _ _ _ ff) by done.
    rewrite (sum_with_insert _ _ _ ff) by done. assert (file_ref (s_fs s) n (g ff) = 0) as -> by (unfold file_ref, on_inode; by rewrite Ht). lia.
Qed.

Lemma lock_free s x y ip n : sys_ok x y s → entry ip n (s_fs s) → locks (s_fs s) !! ip = Some false.
Proof.
  intros Hs (i & Hi & _). destruct (lookup_lt_is_Some_2 (locks (s_fs s)) ip) as [b Hb].
  { unfold locks. rewrite length_fmap. by eapply lookup_lt_Some. }
  rewrite Hb. f_equal. symmetry. exact (Forall_lookup_1 _ _ _ _ (so_locks _ _ _ _ Hs) Hb).
Qed.

(** A reference of the running call is given back. *)
Lemma put_back x y s ip n : sys_ok x (λ m, y m + one n m) s → (∀ m, 0 ≤ y m) → entry ip n (s_fs s) →
  ∃ s', iput sb ip (s_fs s) = Some s' ∧ sys_ok x y (s <| s_fs := end_op s' |>) ∧ nfree sb (s_fs s) ≤ nfree sb s' ∧
    ∀ m, inum_ok sb m → maybe_freed sb (s_fs s) s' n m.
Proof.
  intros Hs Hy He. destruct (iput_any sb Hsb ip n (s_fs s) (so_good _ _ _ _ Hs) He (lock_free s _ _ ip n Hs He)) as (s' & E & A & N & B & C & D & F).
  exists s'. split_and!; try done.
  eapply sys_ok_ext; [apply (fs_change x _ (λ m, - one n m) s (end_op s') Hs)|done|].
  - by apply good_end_op.
  - done.
  - intros m. change (nref (end_op s') m) with (nref s' m). rewrite B. lia.
  - intros k m Hk Hu. change (entry k m s'). apply D; [done|]. rewrite B, (so_nref _ _ _ _ Hs).
    pose proof (inode_refs_use m s k Hu ltac:(by rewrite (entry_inum k m))). specialize (Hy m). lia.
  - intros m. cbn. lia.
Qed.

(** What closing the last descriptor of a file does outside the table. *)
Definition closes (ff : file) : closing :=
  if 1 <? f_ref ff then CNone
  else match f_type ff with
  | FD_PIPE => CPipe (f_pipe ff) (f_writable ff)
  | FD_INODE | FD_DEVICE => CInode
  | FD_SOCK => CSock (f_sock ff)
  | FD_NONE => CNone
  end.

(** A file system call left the files as they were, or the inode [n] without links
    lost its last reference and was freed. *)
Definition kept_or_freed (n : option Z) (s s' : sys) : Prop := ∀ m, inum_ok sb m →
  agree (abs sb (s_fs s') m) (abs sb (s_fs s) m) ∨
  n = Some m ∧ af_nlink (abs sb (s_fs s) m) = 0 ∧ nref (s_fs s') m = 0 ∧ agree (abs sb (s_fs s') m) (freed (abs sb (s_fs s) m)).

(** The inode that fileclose() may free. *)
Definition last_inode (ff : file) (s : sys) : option Z :=
  if (f_ref ff =? 1) && on_inode ff then Some (inum_at (f_ip ff) (s_fs s)) else None.

Lemma fileclose_spec x y s f ff : sys_ok x y s → (∀ m, 0 ≤ y m) → ftable s !! f = Some ff → 1 ≤ f_ref ff →
  ∃ s', fileclose sb f s = Some (closes ff, s') ∧ sys_ok (λ h, x h - onef f h) y s' ∧ ofile s' = ofile s ∧ cwd s' = cwd s ∧
    nfree sb (s_fs s) ≤ nfree sb (s_fs s') ∧ kept_or_freed (last_inode ff s) s s'.
Proof.
  intros Hs Hy Hf Hr. unfold fileclose. assert (∀ t : sys, ftable t !! f = Some ff → file_at f t = ff) as Hat by (intros t; apply list_lookup_total_correct).
  rewrite (Hat s Hf), (proj2 (Z.ltb_ge _ _)) by lia. set (s1 := set_file f (λ f, f <| f_ref := f_ref f - 1 |>) s).
  assert (ftable s1 !! f = Some (ff <| f_ref := f_ref ff - 1 |>)) as Hf1 by (unfold s1; by rewrite set_file_lookup, decide_True, Hf).
  assert (file_at f s1 = ff <| f_ref := f_ref ff - 1 |>) as -> by (by apply list_lookup_total_correct).
  unfold closes, last_inode. cbn [f_ref f_ref_set upd]. destruct (Z.ltb_spec 0 (f_ref ff - 1)) as [H1|H1].
  { rewrite (proj2 (Z.ltb_lt _ _)), (proj2 (Z.eqb_neq _ _)) by lia. exists s1. split_and!; try done; [|intros m _; by left].
    eapply sys_ok_ext; [apply (ref_change x y s f ff (λ f, f <| f_ref := f_ref f - 1 |>) (-1) Hs Hf)|intros h; cbn; lia|done]; cbn; try done; lia. }
  assert (f_ref ff = 1) as E1 by lia. rewrite E1. cbn [Z.ltb Z.eqb Z.compare Pos.compare Pos.compare_cont Pos.eqb andb].
  set (g := λ f : file, f <| f_ref := 0 |> <| f_type := FD_NONE |> <| f_flock_held := 0 |>). set (s2 := set_file f g s1).
  assert (sys_ok (λ h, x h - onef f h) (λ n, y n + file_ref (s_fs s) n ff) s2) as Hs2.
  { assert (s2 = set_file f (g ∘ (λ f, f <| f_ref := f_ref f - 1 |>)) s) as ->.
    { unfold s2, s1, set_file. cbn [ftable upd ftable_set]. by rewrite list_alter_alter_eq. }
    eapply sys_ok_ext; [apply (file_clear x y s f ff _ Hs Hf)|intros h; rewrite E1; lia|]; done. }
  cbn [f_type f_flock_held f_ip f_pipe f_writable f_sock f_ref_set upd].
  set (fl := negb (f_flock_held ff =? 0) && bool_decide (f_type ff = FD_INODE)).
  set (s3 := if fl then s2 <| s_fs := (flock_drop (f_ip ff) (s_fs s2)).2 |> else s2).
  assert (on_inode ff = true → entry (f_ip ff) (inum_at (f_ip ff) (s_fs s)) (s_fs s)) as Hent.
  { intros Hon. destruct (so_entry _ _ _ _ Hs (f_ip ff)) as [n Hn]; [left; exists ff; split_and!; [by eapply list_elem_of_lookup_2|done|done]|].
    by rewrite (entry_inum _ _ _ Hn). }
  assert (sys_ok (λ h, x h - onef f h) (λ n, y n + file_ref (s_fs s) n ff) s3 ∧ tags (s_fs s3) = tags (s_fs s) ∧ nfree sb (s_fs s3) = nfree sb (s_fs s) ∧
    ofile s3 = ofile s ∧ cwd s3 = cwd s ∧ ∀ m, inum_ok sb m → agree (abs sb (s_fs s3) m) (abs sb (s_fs s) m)) as (Hs3 & Ht3 & Hn3 & Ho3 & Hc3 & Ha3).
  { unfold s3. destruct fl eqn:Efl; [|by split_and!]. unfold fl in Efl. bool_facts.
    assert (on_inode ff = true) as Hon by (unfold on_inode; by rewrite bool_decide_eq_true_2).
    destruct (flock_drop_spec (f_ip ff) _ (s_fs s2) (so_good _ _ _ _ Hs2) (Hent Hon)) as (A & B & C). split_and!; try done.
    - eapply sys_ok_ext; [apply (fs_change _ _ (λ _, 0) s2 _ Hs2 A)|done|intros n; cbn; lia].
      + by apply locks_tags.
      + intros n. rewrite (nref_tags _ _ n B). lia.
      + intros k m Hk _. by eapply entry_tags.
    - apply nfree_eq. unfold flock_drop. repeat case_match; done. }
  assert (kept_or_freed (if on_inode ff then Some (inum_at (f_ip ff) (s_fs s)) else None) s s3) as Hk3 by (intros m Hm; left; by apply Ha3).
  assert (on_inode ff = false → sys_ok (λ h, x h - onef f h) y s3) as Hplain.
  { intros Hon. eapply sys_ok_ext; [exact Hs3|done|]. intros n. unfold file_ref. rewrite Hon. lia. }
  destruct (on_inode ff) eqn:Hon.
  2: { destruct (f_type ff) eqn:Ety; unfold on_inode in Hon; rewrite Ety in Hon; try done; exists s3; (split; [done|split_and!; try done; [by apply Hplain|lia]]). }
  destruct (put_back _ y s3 (f_ip ff) (inum_at (f_ip ff) (s_fs s)) ltac:(eapply sys_ok_ext; [exact Hs3|done|intros n; unfold file_ref; by rewrite Hon]) Hy)
    as (s4 & E4 & Hs4 & Hn4 & Hm4).
  { apply (entry_tags _ _ (s_fs s)); [done|by apply Hent]. }
  exists (s3 <| s_fs := end_op s4 |>). split.
  { unfold on_inode in Hon. destruct (f_type ff) eqn:Ety; try done; rewrite E4; done. }
  split_and!; try done; [change (nfree sb (s_fs (s3 <| s_fs := end_op s4 |>))) with (nfree sb s4); lia|].
  intros m Hm. destruct (Hm4 m Hm) as [Hag|(-> & Hnl & Hnr & Hfr)].
  - left. etrans; [exact Hag|by apply Ha3].
  - right. destruct (Ha3 _ Hm) as (B1 & B2 & B3 & B4 & B5 & B6 & B7). split_and!; try done; [congruence|].
    etrans; [exact Hfr|]. unfold freed, agree. cbn. by split_and!.
Qed.

(** ** The descriptor calls *)

Definition quiet (s : sys) : Prop := sys_ok (λ _, 0) (λ _, 0) s.

(** No file changes, except that inodes without links may be freed. *)
Definition kept (s s' : sys) : Prop := ∀ m, inum_ok sb m →
  agree (abs sb (s_fs s') m) (abs sb (s_fs s) m) ∨
  af_nlink (abs sb (s_fs s) m) = 0 ∧ agree (abs sb (s_fs s') m) (freed (abs sb (s_fs s) m)).

Lemma kept_refl s s' : s_fs s' = s_fs s → kept s s'.
Proof. intros E m _. left. by rewrite E. Qed.

Lemma kept_trans s1 s2 s3 : kept s1 s2 → kept s2 s3 → kept s1 s3.
Proof.
  intros H1 H2 m Hm. destruct (H1 m Hm) as [A|[N A]], (H2 m Hm) as [B|[N' B]].
  - left. by etrans.
  - right. destruct A as (A1 & A2 & A3 & A4 & A5 & A6 & A7). split; [congruence|]. etrans; [exact B|].
    unfold freed, agree. cbn. by split_and!.
  - right. split; [done|]. by etrans.
  - right. split; [done|]. etrans; [exact B|]. destruct A as (A1 & A2 & A3 & A4 & A5 & A6 & A7). unfold freed, agree in *. cbn in *. by split_and!.
Qed.

Lemma open_file x y s l f : sys_ok x y s → l ∈ ofile s → Some f ∈ l → ∃ ff, ftable s !! f = Some ff ∧ f_ref ff = fdcount f s + x f ∧ 1 ≤ fdcount f s.
Proof.
  intros Hs Hl Hf. destruct (lookup_lt_is_Some_2 (ftable s) f (so_fd _ _ _ _ Hs l f Hl Hf)) as [ff Hff].
  exists ff. split_and!; [done|by apply (so_ref _ _ _ _ Hs)|by eapply fdcount_pos].
Qed.

Lemma close_fd s p l fd f : quiet s → ofile s !! p = Some l → l !! fd = Some (Some f) →
  ∃ c s1, fileclose sb f s = Some (c, s1) ∧ ofile s1 = ofile s ∧ quiet (set_fd p fd None s1) ∧ cwd s1 = cwd s ∧ kept s s1.
Proof.
  intros Hs Hp Hfd. destruct (open_file _ _ s l f Hs (list_elem_of_lookup_2 _ _ _ Hp) (list_elem_of_lookup_2 _ _ _ Hfd)) as (ff & Hff & Hr & H1).
  destruct (fileclose_spec _ _ s f ff Hs ltac:(done) Hff ltac:(lia)) as (s1 & E & A & B & C & _ & D).
  exists (closes ff), s1. split_and!; try done.
  - eapply sys_ok_ext; [apply (fd_change _ _ s1 p fd None (Some f) l A); [by rewrite B|done|done]| |done].
    intros h. cbn. unfold onef, is_fd. destruct (decide (f = h)), (decide (Some f = Some h)), (decide (None = Some h)); simplify_eq; lia.
  - intros m Hm. destruct (D m Hm) as [?|(_ & ? & _ & ?)]; [by left|by right].
Qed.

Lemma dup_fd s p l fd f k : quiet s → ofile s !! p = Some l → l !! fd = Some None → k ∈ ofile s → Some f ∈ k →
  ∃ s1, filedup f s = Some s1 ∧ ofile s1 = ofile s ∧ cwd s1 = cwd s ∧ s_fs s1 = s_fs s ∧ quiet (set_fd p fd (Some f) s1) ∧
    filedup f (set_fd p fd (Some f) s) = Some (set_fd p fd (Some f) s1).
Proof.
  intros Hs Hp Hfd Hk Hf. destruct (open_file _ _ s k f Hs Hk Hf) as (ff & Hff & Hr & H1). unfold filedup.
  assert (∀ t, ftable t = ftable s → f_ref (file_at f t) <? 1 = false) as Hlt.
  { intros t E. unfold file_at. rewrite E, (list_lookup_total_correct _ _ _ Hff). apply Z.ltb_ge. lia. }
  rewrite !Hlt by done. eexists. split_and!; [done|done|done|done| |done].
  pose proof (ref_change _ _ s f ff (λ f, f <| f_ref := f_ref f + 1 |>) 1 Hs Hff ltac:(done) ltac:(done) ltac:(done)) as Hs1.
  specialize (Hs1 ltac:(cbn; lia) ltac:(cbn; lia)).
  eapply sys_ok_ext; [apply (fd_change _ _ _ p fd (Some f) None l Hs1); [done|done|]| |done].
  - intros g [= <-]. unfold set_file. cbn [ftable upd ftable_set]. rewrite length_alter. by eapply lookup_lt_Some.
  - intros h. cbn. unfold onef, is_fd. destruct (decide (f = h)), (decide (Some f = Some h)), (decide (None = Some h)); simplify_eq; lia.
Qed.

Lemma argfd_Some p fd f s l : ofile s !! p = Some l → argfd p fd s = Some f → l !! Z.to_nat fd = Some (Some f) ∧ 0 ≤ fd < NOFILE.
Proof.
  intros Hp. unfold argfd. rewrite (list_lookup_total_correct _ _ _ Hp). destruct (Z.ltb_spec fd 0), (Z.leb_spec NOFILE fd); try done.
  cbn [orb]. destruct (l !! Z.to_nat fd) as [[g|]|]; try done. intros [= ->]. split; [done|lia].
Qed.

Lemma sys_dup_spec s p fd : quiet s → (p < length (ofile s))%nat →
  ∃ r s', sys_dup p fd s = Some (r, s') ∧ quiet s' ∧ s_fs s' = s_fs s ∧
    (0 ≤ r → argfd p r s = None ∧ argfd p r s' = argfd p fd s) ∧ (r < 0 → s' = s).
Proof.
  intros Hs [l Hl]%lookup_lt_is_Some_2. unfold sys_dup. destruct (argfd p fd s) as [f|] eqn:Ef; [|by exists (-1), s].
  destruct (argfd_Some _ _ _ _ _ Hl Ef) as [Hf Hr]. unfold fdalloc. rewrite (list_lookup_total_correct _ _ _ Hl).
  assert (length l = Z.to_nat NOFILE) as Hlen by (apply (Forall_lookup_1 _ _ _ _ (so_fds _ _ _ _ Hs) Hl)).
  rewrite take_ge by lia. destruct (find_index _ l) as [k|] eqn:Ek.
  2: { cbn [Z.ltb Z.compare]. by exists (-1), s. }
  pose proof (find_index_lt _ _ _ Ek) as Hk. apply find_index_Some in Ek as [(o & Ho & Hn) _]. apply bool_decide_eq_true in Hn as ->.
  destruct (dup_fd s p l k f l Hs Hl Ho (list_elem_of_lookup_2 _ _ _ Hl) (list_elem_of_lookup_2 _ _ _ Hf)) as (s1 & E1 & B & C & D & F & G).
  rewrite (proj2 (Z.ltb_ge _ _)) by lia. rewrite G. cbn [mbind option_bind]. exists (Z.of_nat k), (set_fd p k (Some f) s1). split_and!; try done; [|lia].
  intros _. unfold argfd. assert (NOFILE = 16) as EN by done. rewrite (proj2 (Z.ltb_ge _ _)), (proj2 (Z.leb_gt _ _)) by lia. cbn [orb].
  rewrite Nat2Z.id, (list_lookup_total_correct _ _ _ Hl), Ho. split; [done|].
  unfold set_fd. cbn [ofile upd ofile_set]. rewrite B, list_lookup_total_alt, list_lookup_alter_eq, Hl. cbn. by rewrite list_lookup_insert_eq.
Qed.

Lemma set_fd_lookup p fd o s q : ofile (set_fd p fd o s) !! q = if decide (q = p) then (λ l, <[fd := o]> l) <$> ofile s !! p else ofile s !! q.
Proof.
  unfold set_fd. cbn [ofile upd ofile_set]. case_decide as E; [subst; apply list_lookup_alter_eq|]. by apply list_lookup_alter_ne.
Qed.

Lemma sys_close_spec s p fd : quiet s → (p < length (ofile s))%nat →
  ∃ r c s', sys_close sb p fd s = Some (r, c, s') ∧ quiet s' ∧ kept s s' ∧ cwd s' = cwd s ∧
    (r = 0 ↔ argfd p fd s ≠ None) ∧ (r = 0 → argfd p fd s' = None) ∧ (r ≠ 0 → r = -1 ∧ s' = s).
Proof.
  intros Hs [l Hl]%lookup_lt_is_Some_2. unfold sys_close. destruct (argfd p fd s) as [f|] eqn:Ef.
  2: { exists (-1), CNone, s. split_and!; try done. by apply kept_refl. }
  destruct (argfd_Some _ _ _ _ _ Hl Ef) as [Hf Hr]. destruct (close_fd s p l (Z.to_nat fd) f Hs Hl Hf) as (c & s1 & E & B & Q & C & K).
  assert (fileclose sb f (set_fd p (Z.to_nat fd) None s) = Some (c, set_fd p (Z.to_nat fd) None s1)) as ->.
  { clear -E. unfold fileclose in *. change (file_at f (set_fd p (Z.to_nat fd) None s)) with (file_at f s).
    destruct (f_ref (file_at f s) <? 1); [done|]. change (file_at f (set_file f _ (set_fd p (Z.to_nat fd) None s))) with (file_at f (set_file f (λ f0 : file, f0 <| f_ref := f_ref f0 - 1 |>) s)).
    set (ff := file_at f (set_file f _ s)) in *. destruct (0 <? f_ref ff); [by injection E as <- <-|].
    destruct (negb (f_flock_held ff =? 0) && bool_decide (f_type ff = FD_INODE)), (f_type ff); cbn [s_fs set_file set_fd upd s_fs_set ftable_set ofile_set] in *;
      try (by injection E as <- <-);
      match type of E with context [iput ?a ?b ?c] => destruct (iput a b c) as [s2|]; [|done] end; by injection E as <- <-. }
  cbn [mbind option_bind]. exists 0, c, (set_fd p (Z.to_nat fd) None s1). split_and!; try done.
  intros _. unfold argfd. rewrite (proj2 (Z.ltb_ge _ _)), (proj2 (Z.leb_gt _ _)) by lia. cbn [orb].
  rewrite list_lookup_total_alt, set_fd_lookup, decide_True, B, Hl by done. cbn.
  rewrite list_lookup_insert_eq; [done|]. by eapply lookup_lt_Some.
Qed.

Lemma sys_dup2_spec s p oldfd newfd : quiet s → (p < length (ofile s))%nat →
  ∃ r c s', sys_dup2 sb p oldfd newfd s = Some (r, c, s') ∧ quiet s' ∧ kept s s' ∧ cwd s' = cwd s ∧
    (r = newfd ∧ argfd p oldfd s ≠ None ∧ argfd p newfd s' = argfd p oldfd s ∨ r = -1 ∧ s' = s).
Proof.
  intros Hs [l Hl]%lookup_lt_is_Some_2. unfold sys_dup2. destruct (argfd p oldfd s) as [f|] eqn:Ef.
  2: { exists (-1), CNone, s. split_and!; try done; [by apply kept_refl|by right]. }
  destruct (argfd_Some _ _ _ _ _ Hl Ef) as [Hf Hr]. destruct ((newfd <? 0) || (NOFILE <=? newfd)) eqn:En.
  { exists (-1), CNone, s. split_and!; try done; [by apply kept_refl|by right]. }
  destruct (Z.eqb_spec oldfd newfd) as [->|Hne].
  { exists newfd, CNone, s. split_and!; try done; [by apply kept_refl|by left]. }
  apply orb_false_iff in En as [En1 En2]. apply Z.ltb_ge in En1. apply Z.leb_gt in En2.
  assert (length l = Z.to_nat NOFILE) as Hlen by (apply (Forall_lookup_1 _ _ _ _ (so_fds _ _ _ _ Hs) Hl)).
  destruct (lookup_lt_is_Some_2 l (Z.to_nat newfd) ltac:(lia)) as [o Ho].
  assert (∃ c s1, (match mjoin ((ofile s !!! p) !! Z.to_nat newfd) with
                   | Some g => '(c, s) ← fileclose sb g s; Some (c, set_fd p (Z.to_nat newfd) None s)
                   | None => Some (CNone, s)
                   end) = Some (c, s1) ∧ quiet s1 ∧ kept s s1 ∧ cwd s1 = cwd s ∧ ofile s1 !! p = Some (<[Z.to_nat newfd := None]> l)) as (c & s1 & -> & Q & K & C & L).
  { rewrite (list_lookup_total_correct _ _ _ Hl), Ho. destruct o as [g|]; cbn [mjoin option_join].
    - destruct (close_fd s p l (Z.to_nat newfd) g Hs Hl Ho) as (c & s1 & -> & B & Q & C & K). cbn [mbind option_bind]. exists c, (set_fd p (Z.to_nat newfd) None s1).
      split_and!; try done. by rewrite set_fd_lookup, decide_True, B, Hl.
    - exists CNone, s. split_and!; try done; [by apply kept_refl|]. by rewrite list_insert_id. }
  cbn [mbind option_bind].
  assert (<[Z.to_nat newfd := None]> l !! Z.to_nat oldfd = Some (Some f)) as Hf1 by (rewrite list_lookup_insert_ne by lia; done).
  destruct (dup_fd s1 p _ (Z.to_nat newfd) f _ Q L ltac:(by rewrite list_lookup_insert_eq by lia) (list_elem_of_lookup_2 _ _ _ L) (list_elem_of_lookup_2 _ _ _ Hf1))
    as (s2 & -> & B & C2 & D & F & _). cbn [mbind option_bind].
  exists newfd, c, (set_fd p (Z.to_nat newfd) (Some f) s2). split_and!; try done.
  - eapply kept_trans; [exact K|]. by apply kept_refl.
  - cbn. congruence.
  - left. split_and!; try done. unfold argfd. rewrite (proj2 (Z.ltb_ge _ _)), (proj2 (Z.leb_gt _ _)) by lia. cbn [orb].
    rewrite list_lookup_total_alt, set_fd_lookup, decide_True, B, L by done. cbn. rewrite list_lookup_insert_eq; [done|]. rewrite length_insert. lia.
Qed.

(** *** exit() *)

Lemma exit_loop s p l k : quiet s → ofile s !! p = Some l → (k ≤ length l)%nat →
  ∃ cs s', foldl (exit_fd sb p) (Some ([], s)) (seq 0 k) = Some (cs, s') ∧ quiet s' ∧ kept s s' ∧ cwd s' = cwd s ∧
    ofile s' !! p = Some (replicate k None ++ drop k l) ∧ ∀ q, q ≠ p → ofile s' !! q = ofile s !! q.
Proof.
  intros Hs Hp. induction k as [|k IH]; intros Hk.
  { exists [], s. split_and!; try done. by apply kept_refl. }
  destruct (IH ltac:(lia)) as (cs & s1 & E & Q & K & C & L & O). rewrite seq_S, foldl_app, E. cbn [foldl exit_fd mbind option_bind Nat.add].
  destruct (lookup_lt_is_Some_2 l k ltac:(lia)) as [o Ho]. rewrite (list_lookup_total_correct _ _ _ L).
  assert ((replicate k None ++ drop k l) !! k = Some o) as Hk1.
  { rewrite lookup_app_r by (rewrite length_replicate; lia). rewrite length_replicate, Nat.sub_diag, lookup_drop, Nat.add_0_r. done. }
  assert (<[k := None]> (replicate k None ++ drop k l) = replicate (S k) None ++ drop (S k) l) as Hins.
  { rewrite (drop_S l o k Ho), replicate_S_end, <-app_assoc. rewrite insert_app_r_alt by (rewrite length_replicate; lia).
    by rewrite length_replicate, Nat.sub_diag. }
  rewrite Hk1. destruct o as [f|]; cbn [mjoin option_join].
  - destruct (close_fd s1 p _ k f Q L Hk1) as (c & s2 & -> & B & Q2 & C2 & K2). cbn [mbind option_bind]. exists (cs ++ [c]), (set_fd p k None s2). split_and!; try done.
    + eapply kept_trans; [exact K|]. intros m Hm. exact (K2 m Hm).
    + cbn. congruence.
    + rewrite set_fd_lookup, decide_True, B, L by done. cbn. by rewrite Hins.
    + intros q Hq. rewrite set_fd_lookup, decide_False, B by done. by apply O.
  - exists cs, s1. split_and!; try done. rewrite L, <-Hins. by rewrite list_insert_id.
Qed.

Lemma cwd_drop x y s p ip : sys_ok x y s → cwd s !! p = Some (Some ip) →
  sys_ok x (λ n, y n + one (inum_at ip (s_fs s)) n) (s <| cwd := <[p := None]> (cwd s) |>).
Proof.
  intros [H1 H2 H3 H4 H5 H6 H7 H8] Hp. split; try done.
  - intros k [Hu|Hc]; apply H7; [by left|right]. cbn [cwd upd cwd_set] in Hc.
    apply list_elem_of_lookup in Hc as [i Hi]. apply list_lookup_insert_Some in Hi as [(_ & ? & _)|[_ Hi]]; [done|]. by eapply list_elem_of_lookup_2.
  - intros n. rewrite H8. unfold inode_refs. cbn [cwd ftable s_fs upd cwd_set]. rewrite (sum_with_insert _ _ _ (Some ip)) by done. cbn. lia.
Qed.

Lemma exit_files_spec s p l ip : quiet s → ofile s !! p = Some l → cwd s !! p = Some (Some ip) →
  ∃ cs s', exit_files sb p s = Some (cs, s') ∧ quiet s' ∧ kept s s' ∧ ofile s' !! p = Some (replicate (Z.to_nat NOFILE) None) ∧ cwd s' !! p = Some None ∧
    ∀ q, q ≠ p → ofile s' !! q = ofile s !! q ∧ cwd s' !! q = cwd s !! q.
Proof.
  intros Hs Hp Hc. assert (length l = Z.to_nat NOFILE) as Hlen by (apply (Forall_lookup_1 _ _ _ _ (so_fds _ _ _ _ Hs) Hp)).
  destruct (exit_loop s p l (Z.to_nat NOFILE) Hs Hp ltac:(lia)) as (cs & s1 & E & Q & K & C & L & O). unfold exit_files. rewrite E. cbn [mbind option_bind].
  rewrite C, Hc. cbn [mjoin option_join].
  assert (uses s1 ip) as Hu by (right; rewrite C; by eapply list_elem_of_lookup_2). destruct (so_entry _ _ _ _ Q ip Hu) as [n Hn].
  pose proof (cwd_drop _ _ s1 p ip Q ltac:(by rewrite C)) as Q1. rewrite (entry_inum ip n) in Q1 by done.
  destruct (put_back _ (λ _, 0) _ ip n Q1 ltac:(done) Hn) as (s2 & E2 & Q2 & _ & M).
  assert (iput sb ip (s_fs s1) = Some s2) as -> by exact E2. cbn [mbind option_bind]. rewrite C in Q2.
  eexists _, _. split; [done|]. split_and!; try done.
  - eapply kept_trans; [exact K|]. intros m Hm. destruct (M m Hm) as [?|(-> & ? & _ & ?)]; [by left|by right].
  - cbn [ofile upd cwd_set s_fs_set]. by rewrite L, <-Hlen, drop_all, app_nil_r.
  - cbn [cwd upd cwd_set s_fs_set]. rewrite list_lookup_insert_eq; [done|]. by eapply lookup_lt_Some.
  - intros q Hq. cbn [ofile cwd upd cwd_set s_fs_set]. rewrite list_lookup_insert_ne by done. by rewrite O.
Qed.

(** *** fork() *)

Lemma fork_loop s p np l k : quiet s → p ≠ np → ofile s !! p = Some l → ofile s !! np = Some (replicate (Z.to_nat NOFILE) None) → (k ≤ Z.to_nat NOFILE)%nat →
  ∃ s', foldl (fork_fd p np) (Some s) (seq 0 k) = Some s' ∧ quiet s' ∧ s_fs s' = s_fs s ∧ cwd s' = cwd s ∧
    ofile s' !! np = Some (take k l ++ replicate (Z.to_nat NOFILE - k) None) ∧ ∀ q, q ≠ np → ofile s' !! q = ofile s !! q.
Proof.
  intros Hs Hne Hp Hnp. assert (length l = Z.to_nat NOFILE) as Hlen by (apply (Forall_lookup_1 _ _ _ _ (so_fds _ _ _ _ Hs) Hp)).
  induction k as [|k IH]; intros Hk.
  { exists s. by split_and!. }
  destruct (IH ltac:(lia)) as (s1 & E & Q & F & C & L & O). rewrite seq_S, foldl_app, E. cbn [foldl fork_fd mbind option_bind Nat.add].
  destruct (lookup_lt_is_Some_2 l k ltac:(lia)) as [o Ho]. assert (ofile s1 !! p = Some l) as Hp1 by (by rewrite O).
  rewrite (list_lookup_total_correct _ _ _ Hp1), Ho.
  assert ((take k l ++ replicate (Z.to_nat NOFILE - k) None) !! k = Some None) as Hk1.
  { rewrite lookup_app_r by (rewrite length_take; lia). rewrite length_take, Nat.min_l, Nat.sub_diag by lia. apply lookup_replicate_2. lia. }
  assert (<[k := o]> (take k l ++ replicate (Z.to_nat NOFILE - k) None) = take (S k) l ++ replicate (Z.to_nat NOFILE - S k) None) as Hins.
  { rewrite (take_S_r l k o Ho), <-app_assoc. rewrite insert_app_r_alt by (rewrite length_take; lia). rewrite length_take, Nat.min_l, Nat.sub_diag by lia.
    by replace (Z.to_nat NOFILE - k)%nat with (S (Z.to_nat NOFILE - S k)) by lia. }
  destruct o as [f|]; cbn [mjoin option_join].
  - destruct (dup_fd s1 np _ k f l Q L Hk1 (list_elem_of_lookup_2 _ _ _ Hp1) (list_elem_of_lookup_2 _ _ _ Ho)) as (s2 & -> & B & C2 & D & F2 & _).
    cbn [mbind option_bind]. exists (set_fd np k (Some f) s2). split_and!; try done; try (cbn; congruence).
    + rewrite set_fd_lookup, decide_True, B, L by done. cbn. by rewrite Hins.
    + intros q Hq. rewrite set_fd_lookup, decide_False, B by done. by apply O.
  - exists s1. split_and!; try done. rewrite L, <-Hins. by rewrite list_insert_id.
Qed.

Lemma cwd_add x y s p ip n : sys_ok x (λ m, y m + one n m) s → cwd s !! p = Some None → entry ip n (s_fs s) →
  sys_ok x y (s <| cwd := <[p := Some ip]> (cwd s) |>).
Proof.
  intros [H1 H2 H3 H4 H5 H6 H7 H8] Hp He. split; try done.
  - intros k [Hu|Hc]; [apply H7; by left|]. cbn [cwd upd cwd_set] in Hc.
    apply list_elem_of_lookup in Hc as [i Hi]. apply list_lookup_insert_Some in Hi as [(_ & [= <-] & _)|[_ Hi]]; [by exists n|].
    apply H7. right. by eapply list_elem_of_lookup_2.
  - intros m. rewrite H8. unfold inode_refs. cbn [cwd ftable s_fs upd cwd_set]. rewrite (sum_with_insert _ _ _ None) by done. cbn.
    rewrite (entry_inum ip n) by done. lia.
Qed.

Lemma fork_files_spec s p np l ip : quiet s → p ≠ np → ofile s !! p = Some l → ofile s !! np = Some (replicate (Z.to_nat NOFILE) None) →
  cwd s !! p = Some (Some ip) → cwd s !! np = Some None →
  ∃ s', fork_files p np s = Some s' ∧ quiet s' ∧ kept s s' ∧ ofile s' !! np = Some l ∧ cwd s' !! np = Some (Some ip) ∧
    ∀ q, q ≠ np → ofile s' !! q = ofile s !! q ∧ cwd s' !! q = cwd s !! q.
Proof.
  intros Hs Hne Hp Hnp Hc Hcn. assert (length l = Z.to_nat NOFILE) as Hlen by (apply (Forall_lookup_1 _ _ _ _ (so_fds _ _ _ _ Hs) Hp)).
  destruct (fork_loop s p np l (Z.to_nat NOFILE) Hs Hne Hp Hnp ltac:(lia)) as (s1 & E & Q & F & C & L & O). unfold fork_files. rewrite E. cbn [mbind option_bind].
  rewrite C, Hc. cbn [mjoin option_join]. assert (uses s1 ip) as Hu by (right; rewrite C; by eapply list_elem_of_lookup_2).
  destruct (so_entry _ _ _ _ Q ip Hu) as [n Hn]. destruct (idup_walk sb Hsb ip n (s_fs s1) (so_good _ _ _ _ Q) Hn) as (A & B & D & G & _ & I & En & _).
  assert (sys_ok (λ _, 0) (λ m, 0 + one n m) (s1 <| s_fs := idup ip (s_fs s1) |>)) as Q1.
  { apply (fs_change _ _ (one n) s1 _ Q); try done. intros k m Hk _. by apply En. }
  eexists. split; [done|]. split_and!.
  - rewrite <-C. apply (cwd_add _ _ (s1 <| s_fs := idup ip (s_fs s1) |>) np ip n Q1); [cbn; by rewrite C|done].
  - intros m Hm. left. cbn [s_fs upd s_fs_set cwd_set]. rewrite <-F. by apply B.
  - cbn [ofile upd s_fs_set cwd_set]. by rewrite L, Nat.sub_diag, take_ge, app_nil_r by lia.
  - cbn [cwd upd s_fs_set cwd_set]. rewrite list_lookup_insert_eq; [done|]. by eapply lookup_lt_Some.
  - intros q Hq. cbn [ofile cwd upd s_fs_set cwd_set]. rewrite list_lookup_insert_ne by done. by rewrite O.
Qed.

End inv.

(** ** What the descriptor calls promise *)

(** A process sees its descriptors and its current directory only: [tabs]
    holds those of all processes. *)
Definition tabs : Type := list (list (option nat)) * list (option nat).

Definition tabs_of (s : sys) : tabs := (ofile s, cwd s).

Definition fd_of (p : nat) (fd : Z) (t : tabs) : option nat :=
  if (fd <? 0) || (NOFILE <=? fd) then None else mjoin ((t.1 !!! p) !! Z.to_nat fd).

Definition put_fd (p fd : nat) (o : option nat) (t : tabs) : tabs := (alter (λ l, <[fd := o]> l) p t.1, t.2).

Inductive dcall :=
  | Dup (p : nat) (fd : Z) | Dup2 (p : nat) (oldfd newfd : Z) | Close (p : nat) (fd : Z)
  | ForkFiles (p np : nat) | ExitFiles (p : nat).

Definition dspec (c : dcall) (t : tabs) : Z * tabs :=
  match c with
  | Dup p fd =>
      match fd_of p fd t, find_index (λ o, bool_decide (o = None)) (t.1 !!! p) with
      | Some f, Some k => (Z.of_nat k, put_fd p k (Some f) t)
      | _, _ => (-1, t)
      end
  | Dup2 p oldfd newfd =>
      match fd_of p oldfd t with
      | Some f => if (newfd <? 0) || (NOFILE <=? newfd) then (-1, t) else (newfd, put_fd p (Z.to_nat newfd) (Some f) t)
      | None => (-1, t)
      end
  | Close p fd =>
      match fd_of p fd t with
      | Some _ => (0, put_fd p (Z.to_nat fd) None t)
      | None => (-1, t)
      end
  | ForkFiles p np => (0, (<[np := t.1 !!! p]> t.1, <[np := t.2 !!! p]> t.2))
  | ExitFiles p => (0, (<[p := replicate (Z.to_nat NOFILE) None]> t.1, <[p := None]> t.2))
  end.

(** The process exists; fork() is given a process slot that holds nothing, and
    the process that forks or exits has a current directory. *)
Definition dcall_ok (c : dcall) (t : tabs) : Prop :=
  match c with
  | Dup p _ | Dup2 p _ _ | Close p _ => (p < length t.1)%nat
  | ForkFiles p np => p ≠ np ∧ (p < length t.1)%nat ∧ t.1 !! np = Some (replicate (Z.to_nat NOFILE) None) ∧
      t.2 !! np = Some None ∧ ∃ ip, t.2 !! p = Some (Some ip)
  | ExitFiles p => (p < length t.1)%nat ∧ ∃ ip, t.2 !! p = Some (Some ip)
  end.

Fixpoint dcalls_ok (cs : list dcall) (t : tabs) : Prop :=
  match cs with
  | [] => True
  | c :: cs => dcall_ok c t ∧ dcalls_ok cs (dspec c t).2
  end.

Fixpoint dspecs (cs : list dcall) (t : tabs) : list Z * tabs :=
  match cs with
  | [] => ([], t)
  | c :: cs => let '(r, t) := dspec c t in let '(rs, t) := dspecs cs t in (r :: rs, t)
  end.

Section descriptors.
Context (sb : superblock) (Hsb : sb_wf sb).

Definition drun (c : dcall) (s : sys) : option (Z * sys) :=
  match c with
  | Dup p fd => sys_dup p fd s
  | Dup2 p oldfd newfd => '(r, _, s) ← sys_dup2 sb p oldfd newfd s; Some (r, s)
  | Close p fd => '(r, _, s) ← sys_close sb p fd s; Some (r, s)
  | ForkFiles p np => s ← fork_files p np s; Some (0, s)
  | ExitFiles p => '(_, s) ← exit_files sb p s; Some (0, s)
  end.

Fixpoint druns (cs : list dcall) (s : sys) : option (list Z * sys) :=
  match cs with
  | [] => Some ([], s)
  | c :: cs => '(r, s) ← drun c s; '(rs, s) ← druns cs s; Some (r :: rs, s)
  end.

Lemma fileclose_tabs f s c s' : fileclose sb f s = Some (c, s') → tabs_of s' = tabs_of s.
Proof using Type.
  unfold fileclose. destruct (f_ref (file_at f s) <? 1); [done|]. set (s1 := set_file f _ s).
  destruct (0 <? f_ref (file_at f s1)); [by intros [= _ <-]|].
  destruct (negb _ && _), (f_type (file_at f s1)); cbn [s_fs set_file upd s_fs_set ftable_set];
    try (by intros [= _ <-]); match goal with |- context [iput ?a ?b ?c] => destruct (iput a b c) end; try done; by intros [= _ <-].
Qed.

Lemma filedup_tabs f s s' : filedup f s = Some s' → tabs_of s' = tabs_of s.
Proof using Type. unfold filedup. case_match; [done|]. by intros [= <-]. Qed.

Lemma set_fd_tabs p fd o s : tabs_of (set_fd p fd o s) = put_fd p fd o (tabs_of s).
Proof using Type. done. Qed.

Lemma put_fd_twice p fd o o' t : put_fd p fd o (put_fd p fd o' t) = put_fd p fd o t.
Proof using Type.
  unfold put_fd. cbn. f_equal. rewrite list_alter_alter_eq. apply list_alter_ext; [|done]. intros l _. cbn. apply list_insert_insert_eq.
Qed.

Lemma sys_close_tabs p fd s r c s' : sys_close sb p fd s = Some (r, c, s') → (r, tabs_of s') = dspec (Close p fd) (tabs_of s).
Proof using Type.
  unfold sys_close, dspec. change (fd_of p fd (tabs_of s)) with (argfd p fd s). destruct (argfd p fd s) as [f|]; [|by intros [= <- _ <-]].
  destruct (fileclose sb f _) as [[c1 s1]|] eqn:E; [|done]. intros [= <- _ <-]. by rewrite (fileclose_tabs _ _ _ _ E).
Qed.

Lemma sys_dup_tabs p fd s r s' : (∀ l, ofile s !! p = Some l → length l = Z.to_nat NOFILE) →
  sys_dup p fd s = Some (r, s') → (r, tabs_of s') = dspec (Dup p fd) (tabs_of s).
Proof using Type.
  intros Hlen. unfold sys_dup, dspec. change (fd_of p fd (tabs_of s)) with (argfd p fd s). destruct (argfd p fd s) as [f|]; [|by intros [= <- <-]].
  unfold fdalloc. rewrite take_ge.
  2: { rewrite list_lookup_total_alt. destruct (ofile s !! p) as [l|] eqn:E; cbn; [by rewrite (Hlen l)|lia]. }
  change ((tabs_of s).1 !!! p) with (ofile s !!! p). destruct (find_index _ _) as [k|]; [|by intros [= <- <-]].
  rewrite (proj2 (Z.ltb_ge _ _)) by lia. destruct (filedup f _) as [s1|] eqn:E; [|done]. intros [= <- <-]. by rewrite (filedup_tabs _ _ _ E).
Qed.

Lemma sys_dup2_tabs p oldfd newfd s r c s' : (∀ l, ofile s !! p = Some l → length l = Z.to_nat NOFILE) →
  sys_dup2 sb p oldfd newfd s = Some (r, c, s') → (r, tabs_of s') = dspec (Dup2 p oldfd newfd) (tabs_of s).
Proof using Type.
  intros Hlen. unfold sys_dup2, dspec. change (fd_of p oldfd (tabs_of s)) with (argfd p oldfd s).
  destruct (argfd p oldfd s) as [f|] eqn:Ef; [|by intros [= <- _ <-]]. destruct (_ || _) eqn:En; [by intros [= <- _ <-]|].
  destruct (Z.eqb_spec oldfd newfd) as [->|Hne].
  { intros [= <- _ <-]. f_equal. unfold put_fd, tabs_of. cbn. f_equal. unfold argfd in Ef. rewrite En in Ef.
    rewrite list_lookup_total_alt in Ef. destruct (ofile s !! p) as [l|] eqn:El; [|done].
    rewrite (list_alter_insert _ _ _ l) by done. rewrite list_insert_id; [done|]. cbn in Ef. rewrite El. f_equal.
    symmetry. apply list_insert_id. by destruct (l !! Z.to_nat newfd) as [[?|]|]; simplify_eq/=. }
  destruct (mjoin _) as [g|].
  - destruct (fileclose sb g s) as [[c1 s1]|] eqn:E; [|done]. cbn [mbind option_bind].
    destruct (filedup f _) as [s2|] eqn:E2; [|done]. intros [= <- _ <-].
    by rewrite set_fd_tabs, (filedup_tabs _ _ _ E2), set_fd_tabs, (fileclose_tabs _ _ _ _ E), put_fd_twice.
  - cbn [mbind option_bind]. destruct (filedup f _) as [s2|] eqn:E2; [|done]. intros [= <- _ <-]. by rewrite set_fd_tabs, (filedup_tabs _ _ _ E2).
Qed.

(** A list agrees with another one except at one place. *)
Lemma list_eq_insert {A} (l l' : list A) i x : l' !! i = Some x → (∀ j, j ≠ i → l' !! j = l !! j) → (i < length l)%nat → l' = <[i := x]> l.
Proof using Type.
  intros Hi Hj Hl. apply list_eq. intros j. destruct (decide (j = i)) as [->|Hne].
  - by rewrite list_lookup_insert_eq.
  - rewrite list_lookup_insert_ne by done. by apply Hj.
Qed.

Lemma drun_spec c s : quiet sb s → dcall_ok c (tabs_of s) →
  ∃ r s', drun c s = Some (r, s') ∧ (r, tabs_of s') = dspec c (tabs_of s) ∧ quiet sb s' ∧ kept sb s s'.
Proof using Hsb.
  intros Hs Hok. assert (∀ p l, ofile s !! p = Some l → length l = Z.to_nat NOFILE) as Hlen.
  { intros p l Hl. by apply (Forall_lookup_1 _ _ _ _ (so_fds _ _ _ _ Hs) Hl). }
  destruct c as [p fd|p oldfd newfd|p fd|p np|p]; cbn [dcall_ok tabs_of fst snd] in Hok; cbn [drun].
  - destruct (sys_dup_spec sb s p fd Hs Hok) as (r & s' & E & Q & F & _). exists r, s'. rewrite E.
    split_and!; [done|apply (sys_dup_tabs p fd s r s' (Hlen p) E)|done|by apply kept_refl].
  - destruct (sys_dup2_spec sb Hsb s p oldfd newfd Hs Hok) as (r & c & s' & E & Q & K & _). exists r, s'. rewrite E.
    split_and!; [done|apply (sys_dup2_tabs p oldfd newfd s r c s' (Hlen p) E)|done|done].
  - destruct (sys_close_spec sb Hsb s p fd Hs Hok) as (r & c & s' & E & Q & K & _). exists r, s'. rewrite E.
    split_and!; [done|apply (sys_close_tabs p fd s r c s' E)|done|done].
  - destruct Hok as (Hne & [l Hl]%lookup_lt_is_Some_2 & Hnp & Hcn & ip & Hip).
    destruct (fork_files_spec sb Hsb s p np l ip Hs Hne Hl Hnp Hip Hcn) as (s' & E & Q & K & A & B & C). exists 0, s'. rewrite E.
    split_and!; try done. cbn. rewrite (list_lookup_total_correct _ _ _ Hl), (list_lookup_total_correct _ _ _ Hip). unfold tabs_of. do 2 f_equal.
    + apply list_eq_insert; [done|intros j Hj; by apply C|by eapply lookup_lt_Some].
    + apply list_eq_insert; [done|intros j Hj; by apply C|by eapply lookup_lt_Some].
  - destruct Hok as ([l Hl]%lookup_lt_is_Some_2 & ip & Hip).
    destruct (exit_files_spec sb Hsb s p l ip Hs Hl Hip) as (cs & s' & E & Q & K & A & B & C). exists 0, s'. rewrite E.
    split_and!; try done. cbn. unfold tabs_of. do 2 f_equal.
    + apply list_eq_insert; [done|intros j Hj; by apply C|by eapply lookup_lt_Some].
    + apply list_eq_insert; [done|intros j Hj; by apply C|by eapply lookup_lt_Some].
Qed.

(** C7: any sequence of dup(), dup2(), close(), and of the parts of fork() and
    exit() that copy and close descriptors, made by any processes, runs to its
    end without a panic and changes the descriptor tables as [dspecs] says.
    Afterwards every open file is referred to by as many descriptors as its
    reference count says, files without descriptors are closed, and every
    inode in memory is referred to exactly by the open files and current
    directories on it; no file is lost but those without a name. *)
Theorem descriptor_calls_refine cs s : quiet sb s → dcalls_ok cs (tabs_of s) →
  ∃ rs s', druns cs s = Some (rs, s') ∧ (rs, tabs_of s') = dspecs cs (tabs_of s) ∧ quiet sb s' ∧ kept sb s s'.
Proof using Hsb.
  revert s. induction cs as [|c cs IH]; intros s Hs Hok.
  { exists [], s. split_and!; try done. by apply kept_refl. }
  destruct Hok as [Hc Hcs]. destruct (drun_spec c s Hs Hc) as (r & s1 & E & T & Q & K).
  rewrite <-T in Hcs. destruct (IH s1 Q Hcs) as (rs & s' & E' & T' & Q' & K'). exists (r :: rs), s'.
  cbn [druns dspecs]. rewrite E. cbn [mbind option_bind]. rewrite E'. split_and!; try done.
  - rewrite <-T, <-T'. done.
  - by eapply kept_trans.
Qed.

End descriptors.

(** Two processes' slots: the first has the root as its current directory
    and the file 2 open as descriptor 3. *)
Definition small_sys : sys := mk_sys root_fs
  [mk_file FD_INODE 1 true true 0 1 0 0 0 0; mk_file FD_NONE 0 false false 0 0 0 0 0 0]
  [<[3%nat := Some 0%nat]> (replicate 16 None); replicate 16 None] [Some 0%nat; None].

Lemma small_sys_quiet : quiet small_sb small_sys.
Proof.
  split.
  - apply root_good.
  - by repeat constructor.
  - by repeat constructor.
  - intros l f Hl Hf. assert (f = 0%nat) as ->; [|cbn; lia]. unfold small_sys in Hl. cbn [ofile] in Hl.
    apply elem_of_cons in Hl as [Hl|Hl]; [subst l|apply list_elem_of_singleton in Hl as ->].
    + apply list_elem_of_lookup in Hf as [i Hi]. apply list_lookup_insert_Some in Hi as [(_ & [= ->] & _)|[_ Hi]]; [done|].
      by apply lookup_replicate in Hi as [? _].
    + by apply elem_of_replicate_inv in Hf.
  - intros [|[|f]] ff; cbn; [by intros [= <-]..|done].
  - intros ff Hff Hr. cbn in Hff. repeat match goal with H : _ ∈ _ :: _ |- _ => apply elem_of_cons in H as [->|H]; [done|] end. by apply elem_of_nil in Hff.
  - intros ip [(ff & Hff & Ho & <-)|Hc].
    + cbn in Hff. apply elem_of_cons in Hff as [->|Hff]; [by eexists _, _|]. apply elem_of_cons in Hff as [->|Hff]; [done|]. by apply elem_of_nil in Hff.
    + cbn in Hc. apply elem_of_cons in Hc as [[= ->]|Hc]; [by eexists _, _|]. apply elem_of_cons in Hc as [?|Hc]; [done|]. by apply elem_of_nil in Hc.
  - intros n. unfold inode_refs, file_ref, cwd_ref, nref, ref_of, one, inum_at. cbn -[Z.eqb decide]. change (0 <? 1) with true. change (0 <? 0) with false.
    cbn [andb]. destruct (Z.eqb_spec 1 n), (Z.eqb_spec 2 n), (decide (1 = n)), (decide (2 = n)); try lia; done.
Qed.

Lemma descriptor_calls_refine_witness : ∃ s', 
  druns small_sb [Dup 0 3; ForkFiles 0 1; Close 0 3; ExitFiles 1; Dup2 0 0 7; Close 0 0] small_sys = Some ([0; 0; 0; 0; 7; 0], s') ∧
  quiet small_sb s' ∧ fd_of 0 7 (tabs_of s') = Some 0%nat ∧ fdcount 0 s' = 1.
Proof.
  destruct (descriptor_calls_refine small_sb small_wf [Dup 0 3; ForkFiles 0 1; Close 0 3; ExitFiles 1; Dup2 0 0 7; Close 0 0] small_sys
    small_sys_quiet ltac:(vm_compute; split_and!; try lia; try done; by eexists)) as (rs & s' & E & T & Q & _).
  set (X := dspecs _ _) in T.
  assert (X.1 = [0; 0; 0; 0; 7; 0] ∧ fd_of 0 7 X.2 = Some 0%nat ∧ sum_with (λ l, sum_with (is_fd 0) l) X.2.1 = 1) as (A & B & C) by (vm_compute; done).
  rewrite <-T in A, B, C. cbn [fst snd tabs_of] in A, B, C. subst rs. exists s'. by split_and!.
Defined.
