(* ===== verification/Sysfile.v ===== *)
(** * File system calls

    sysfile.c over the inode layer, the directories and the table of open
    files. A call that uses inodes only is a function of the file system [fs];
    one that uses descriptors is a function of [sys]. [cwd] is the current
    directory of the process, [nm] what the name buffers on its stack hold. A
    path is the list of its bytes. Where a call returns -1 for arguments that
    could not be fetched nothing has happened yet and the call is not run. *)

From stdpp Require Import list_numbers gmap.
From S2P Require Import Prelude Mem CString Xattr Fs FsInv FsFile FsNode FsIO FsFree FsOps FsShare FsRange FsSpec FsCache Dir Path File.

Definition MAXPATH : Z := 128.
Definition MAX_SYMLINK_DEPTH : nat := 10.
Definition O_RDONLY : Z := 0.
Definition O_WRONLY : Z := 1.
Definition O_RDWR : Z := 2.
Definition O_NOFOLLOW : Z := 4.
Definition O_CREATE : Z := 512.
Definition O_TRUNC : Z := 1024.
Definition FALLOC_KEEP_SIZE : Z := 1.
Definition FALLOC_FL_PUNCH_HOLE : Z := 2.

#[export] Instance d_major_set : Setter d_major := ltac:(solve_setter).
#[export] Instance d_minor_set : Setter d_minor := ltac:(solve_setter).

(** [if (x & m)] *)
Definition has (x m : Z) : bool := negb (Z.land x m =? 0).

Definition DOT : list Z := [46].
Definition DOTDOT : list Z := [46; 46].

(** The string that a buffer holds. *)
Fixpoint c_string (bs : list Z) : list Z :=
  match bs with
  | b :: bs => if b =? 0 then [] else b :: c_string bs
  | [] => []
  end.

(** strncmp(s, t, MAXPATH) == 0 *)
Definition same_path (s t : list Z) : bool := strncmp (Z.to_nat MAXPATH) (str s) (str t) =? 0.

Section inodes.
Context (sb : superblock) (cwd : nat) (nm : list Z).

Abbreviation type_of ip s := (d_type (din ip s)).

(** ip->nlink += d; iupdate(ip) *)
Definition add_nlink (ip : nat) (d : Z) (s : fs) : fs :=
  iupdate sb ip (set_din ip (λ x, x <| d_nlink := i16 (d_nlink x + d) |>) s).

(** ** link(), unlink() *)

Definition link_bad (ip : nat) (s : fs) : option (Z * fs) :=
  s ← ilock sb ip s;
  s ← iunlockput sb ip (add_nlink ip (-1) s);
  Some (-1, end_op s).

Definition sys_link (old new : list Z) (s : fs) : option (Z * fs) :=
  '(r, s) ← namei sb cwd old nm s;
  match r with
  | None => Some (-1, end_op s)
  | Some ip =>
      s ← ilock sb ip s;
      if type_of ip s =? T_DIR then s ← iunlockput sb ip s; Some (-1, end_op s)
      else
        s ← iunlock ip (add_nlink ip 1 s);
        '(r, name, s) ← nameiparent sb cwd new nm s;
        match r with
        | None => link_bad ip s
        | Some dp =>
            s ← ilock sb dp s;
            '(failed, s) ← (if negb (i_dev (inode_at dp s) =? i_dev (inode_at ip s)) then Some (true, s)
                            else '(r, s) ← dirlink sb dp name (i_inum (inode_at ip s)) s; Some (r <? 0, s));
            s ← iunlockput sb dp s;
            if failed : bool then link_bad ip s
            else s ← iput sb ip s; Some (0, end_op s)
        end
  end.

(** The loop of isdirempty() from [off]. *)
Fixpoint isdirempty_loop (fuel : nat) (dp : nat) (off : Z) (s : fs) : option bool :=
  match fuel with
  | O => None
  | S fuel =>
      if off <? d_size (din dp s) then
        de ← read_dirent dp off s;
        if negb (de_inum de =? 0) then Some false else isdirempty_loop fuel dp (off + DESZ) s
      else Some true
  end.

Definition isdirempty (dp : nat) (s : fs) : option bool := isdirempty_loop (dturns dp s) dp (2 * DESZ) s.

(** writei(dp, 0, (uint64)&de, off, sizeof(de)); [None] is the panic on a short write. *)
Definition write_dirent (dp : nat) (off : Z) (de : dirent) (s : fs) : option fs :=
  '(r, s) ← writei sb dp (kernel_src (encode_dirent de)) off DESZ s;
  if r =? DESZ then Some s else None.

(** memset(&de, 0, sizeof(de)) *)
Definition no_dirent : dirent := mk_dirent 0 (replicate DIRSIZ 0).

Definition dots (name : list Z) : bool := (namecmp name DOT =? 0) || (namecmp name DOTDOT =? 0).

Definition unlink_bad (dp : nat) (s : fs) : option (Z * fs) :=
  s ← iunlockput sb dp s; Some (-1, end_op s).

Definition sys_unlink (path : list Z) (s : fs) : option (Z * fs) :=
  '(r, name, s) ← nameiparent sb cwd path nm s;
  match r with
  | None => Some (-1, end_op s)
  | Some dp =>
      s ← ilock sb dp s;
      if dots name then unlink_bad dp s
      else
        '(r, s) ← dirlookup dp name s;
        match r with
        | None => unlink_bad dp s
        | Some (off, ip) =>
            s ← ilock sb ip s;
            if d_nlink (din ip s) <? 1 then None
            else
              empty ← (if type_of ip s =? T_DIR then isdirempty ip s else Some true);
              if negb empty then s ← iunlockput sb ip s; unlink_bad dp s
              else
                s ← write_dirent dp off no_dirent s;
                let s := if type_of ip s =? T_DIR then add_nlink dp (-1) s else s in
                s ← iunlockput sb dp s;
                s ← iunlockput sb ip (add_nlink ip (-1) s);
                Some (0, end_op s)
        end
  end.

(** ** Making files *)

(** ialloc(), ilock() and the initialisation of the new inode. *)
Definition new_inode (dev type major minor : Z) (s : fs) : option (nat * fs) :=
  '(ip, s) ← ialloc sb dev type s;
  s ← ilock sb ip s;
  Some (ip, iupdate sb ip (set_din ip (λ d, d <| d_major := i16 major |> <| d_minor := i16 minor |> <| d_nlink := 1 |> <| d_type := type |>) s)).

Definition create (path : list Z) (type major minor : Z) (s : fs) : option (option nat * fs) :=
  '(r, name, s) ← nameiparent sb cwd path nm s;
  match r with
  | None => Some (None, s)
  | Some dp =>
      s ← ilock sb dp s;
      '(r, s) ← dirlookup dp name s;
      match r with
      | Some (_, ip) =>
          s ← iunlockput sb dp s;
          s ← ilock sb ip s;
          if (type =? T_FILE) && ((type_of ip s =? T_FILE) || (type_of ip s =? T_DEVICE)) then Some (Some ip, s)
          else s ← iunlockput sb ip s; Some (None, s)
      | None =>
          '(ip, s) ← new_inode (i_dev (inode_at dp s)) type major minor s;
          s ← (if type =? T_DIR then
                 let s := add_nlink dp 1 s in
                 '(r, s) ← dirlink sb ip DOT (i_inum (inode_at ip s)) s;
                 if r <? 0 then None
                 else '(r, s) ← dirlink sb ip DOTDOT (i_inum (inode_at dp s)) s;
                      if r <? 0 then None else Some s
               else Some s);
          '(r, s) ← dirlink sb dp name (i_inum (inode_at ip s)) s;
          if r <? 0 then None
          else s ← iunlockput sb dp s; Some (Some ip, s)
      end
  end.

Definition create_exclusive (path : list Z) (type major minor : Z) (s : fs) : option (option nat * fs) :=
  '(r, name, s) ← nameiparent sb cwd path nm s;
  match r with
  | None => Some (None, s)
  | Some dp =>
      s ← ilock sb dp s;
      '(r, s) ← dirlookup dp name s;
      match r with
      | Some (_, ip) =>
          s ← iput sb ip s;
          s ← iunlockput sb dp s;
          Some (None, s)
      | None =>
          '(ip, s) ← new_inode (i_dev (inode_at dp s)) type major minor s;
          '(r, s) ← dirlink sb dp name (i_inum (inode_at ip s)) s;
          if r <? 0 then None
          else s ← iunlockput sb dp s; Some (Some ip, s)
      end
  end.

(** create() and iunlockput() of mkdir() and mknod(). *)
Definition make (path : list Z) (type major minor : Z) (s : fs) : option (Z * fs) :=
  '(r, s) ← create path type major minor s;
  match r with
  | None => Some (-1, end_op s)
  | Some ip => s ← iunlockput sb ip s; Some (0, end_op s)
  end.

Definition sys_mkdir (path : list Z) : fs → option (Z * fs) := make path T_DIR 0 0.
Definition sys_mknod (path : list Z) (major minor : Z) : fs → option (Z * fs) := make path T_DEVICE major minor.

(** [target] is the buffer of MAXPATH bytes that argstr() filled. *)
Definition sys_symlink (target path : list Z) (s : fs) : option (Z * fs) :=
  '(r, s) ← create path T_SYMLINK 0 0 s;
  match r with
  | None => Some (-1, end_op s)
  | Some ip =>
      '(r, s) ← writei sb ip (kernel_src target) 0 MAXPATH s;
      s ← iunlockput sb ip s;
      Some (if r <? MAXPATH then -1 else 0, end_op s)
  end.

(** ** Calls on one path *)

(** namei() and ilock(); the call returns -1 when there is no such inode. *)
Definition with_inode {A} (path : list Z) (fail : A) (body : nat → fs → option (A * fs)) (s : fs) : option (A * fs) :=
  '(r, s) ← namei sb cwd path nm s;
  match r with
  | None => Some (fail, end_op s)
  | Some ip => s ← ilock sb ip s; body ip s
  end.

Definition done_put {A} (r : A) (ip : nat) (s : fs) : option (A * fs) :=
  s ← iunlockput sb ip s; Some (r, end_op s).

Definition sys_truncate (path : list Z) (length : Z) (s : fs) : option (Z * fs) :=
  if length <? 0 then Some (-1, s)
  else if MAXFILE * BSIZE <? length then Some (-1, s)
  else with_inode path (-1) (λ ip s,
    if negb (type_of ip s =? T_FILE) then done_put (-1) ip s
    else s ← itrunc_to sb ip length s; done_put 0 ip s) s.

(** The inode keeps the reference of namei(). *)
Definition sys_chmod (path : list Z) (mode : Z) (s : fs) : option (Z * fs) :=
  with_inode path (-1) (λ ip s,
    let s := iupdate sb ip (set_din ip (λ d, d <| d_mode := mode `mod` 256 |>) s) in
    s ← iunlock ip s; Some (0, end_op s)) s.

(** The words of the array when it was copied out. *)
Definition sys_geti (path : list Z) (out_ok : bool) (s : fs) : option (Z * list Z * fs) :=
  with_inode path (-1, []) (λ ip s,
    let ws := ((λ i, get_addr ip i s) <$> seqZ 0 13) ++ [d_size (din ip s)] in
    s ← iunlock ip s;
    Some (if out_ok then (0, ws) else (-1, []), end_op s)) s.

Definition sys_access (path : list Z) (mode : Z) (s : fs) : option (Z * fs) :=
  with_inode path (-1) (λ ip s,
    let m := d_mode (din ip s) in
    let denied := has mode 4 && negb (has m 4) || has mode 2 && negb (has m 2) || has mode 1 && negb (has m 1) in
    done_put (if mode =? 0 then 0 else if denied then -1 else 0) ip s) s.

Definition inode_key (ip : nat) (s : fs) : Z * Z := (i_dev (inode_at ip s), i_inum (inode_at ip s)).

(** [value] is what copyin() read, [None] when it failed. *)
Definition sys_setxattr (path name : list Z) (value : option (list Z)) (size : Z) (s : fs) : option (Z * fs) :=
  if (size <? 0) || (256 <? size) then Some (-1, s)
  else match value with
  | None => Some (-1, s)
  | Some value => with_inode path (-1) (λ ip s,
      let '(dev, inum) := inode_key ip s in
      let '(r, t) := xattr_set dev inum name value size (xattrs s) in
      done_put r ip (s <| xattrs := t |>)) s
  end.

(** The bytes copied out; [out_ok] is whether copyout() works. *)
Definition xattr_result (size : Z) (out_ok : bool) (r : Z * list Z) : Z * list Z :=
  if (0 <? r.1) && (0 <? size) then (if out_ok then (r.1, r.2) else (-1, [])) else (r.1, []).

Definition sys_getxattr (path name : list Z) (size : Z) (out_ok : bool) (s : fs) : option (Z * list Z * fs) :=
  with_inode path (-1, []) (λ ip s,
    let '(dev, inum) := inode_key ip s in
    done_put (xattr_result size out_ok (xattr_get dev inum name (Z.min size 256) (xattrs s))) ip s) s.

Definition sys_listxattr (path : list Z) (size : Z) (out_ok : bool) (s : fs) : option (Z * list Z * fs) :=
  with_inode path (-1, []) (λ ip s,
    let '(dev, inum) := inode_key ip s in
    done_put (xattr_result size out_ok (xattr_list dev inum (Z.min size 512) (xattrs s))) ip s) s.

Definition sys_removexattr (path name : list Z) (s : fs) : option (Z * fs) :=
  with_inode path (-1) (λ ip s,
    let '(dev, inum) := inode_key ip s in
    let '(r, t) := xattr_remove dev inum name (xattrs s) in
    done_put r ip (s <| xattrs := t |>)) s.

(** ** Calls on two paths *)

Definition sys_fclone (src dst : list Z) (s : fs) : option (Z * fs) :=
  with_inode src (-1) (λ ip_src s,
    if negb (type_of ip_src s =? T_FILE) then done_put (-1) ip_src s
    else
      '(r, s) ← create_exclusive dst T_FILE 0 0 s;
      match r with
      | None => done_put (-1) ip_src s
      | Some ip_dst =>
          '(r, s) ← iclone sb ip_src ip_dst s;
          s ← iunlockput sb ip_dst s;
          done_put (if r <? 0 then -1 else 0) ip_src s
      end) s.

(** [if (ip) { if (locked) iunlock(ip); iput(ip); }] *)
Definition drop_inode (o : option (nat * bool)) (s : fs) : option fs :=
  match o with
  | None => Some s
  | Some (ip, locked) => s ← (if locked : bool then iunlock ip s else Some s); iput sb ip s
  end.

(** The locks of two inodes are taken in the order of their numbers. *)
Definition lock_two (a b : nat) (s : fs) : option fs :=
  if i_inum (inode_at a s) <? i_inum (inode_at b s) then s ← ilock sb a s; ilock sb b s
  else s ← ilock sb b s; ilock sb a s.

(** The code at [out:] of dedup(). *)
Definition dedup_out (src dst : option (nat * bool)) (ret : Z) (s : fs) : option (Z * fs) :=
  s ← drop_inode src s;
  s ← drop_inode dst s;
  Some (ret, end_op s).

Definition sys_dedup (srcpath dstpath : list Z) (s : fs) : option (Z * fs) :=
  if same_path srcpath dstpath then Some (0, s)
  else
    '(r, s) ← namei sb cwd srcpath nm s;
    match r with
    | None => dedup_out None None (-1) s
    | Some src =>
        '(r, s) ← namei sb cwd dstpath nm s;
        match r with
        | None => dedup_out (Some (src, false)) None (-1) s
        | Some dst =>
            if negb (i_dev (inode_at src s) =? i_dev (inode_at dst s)) then dedup_out (Some (src, false)) (Some (dst, false)) (-1) s
            else if i_inum (inode_at src s) =? i_inum (inode_at dst s) then dedup_out (Some (src, false)) (Some (dst, false)) 0 s
            else
              s ← lock_two src dst s;
              '(r, s) ← idedup sb src dst s;
              dedup_out (Some (src, true)) (Some (dst, true)) r s
        end
    end.

(** *** rename() *)

(** [Some true] on success, [Some false] for -1. *)
Definition set_dotdot (dir : nat) (newparent : Z) (s : fs) : option (bool * fs) :=
  '(r, bs) ← readi dir (λ _ _, true) DESZ DESZ s;
  if negb (r =? DESZ) then Some (false, s)
  else
    let de := decode_dirent bs in
    if negb (namecmp (de_name de) DOTDOT =? 0) then Some (false, s)
    else
      '(r, s) ← writei sb dir (kernel_src (encode_dirent (mk_dirent (newparent `mod` 2 ^ 16) (de_name de)))) DESZ DESZ s;
      Some (r =? DESZ, s).

(** The loop of dir_is_descendant() from [cur]; every turn goes one directory up. *)
Fixpoint descend_loop (fuel : nat) (cur : nat) (inum : Z) (s : fs) : option (bool * fs) :=
  match fuel with
  | O => None
  | S fuel =>
      s ← ilock sb cur s;
      if i_inum (inode_at cur s) =? inum then
        s ← iunlock cur s; s ← iput sb cur s; Some (true, s)
      else
        let curinum := i_inum (inode_at cur s) in
        '(parent, s) ← dirlookup cur DOTDOT s;
        s ← iunlock cur s;
        s ← iput sb cur s;
        match parent with
        | None => Some (false, s)
        | Some (_, parent) =>
            if i_inum (inode_at parent s) =? curinum then s ← iput sb parent s; Some (false, s)
            else descend_loop fuel parent inum s
        end
  end.

Definition dir_is_descendant (fuel start : nat) (inum : Z) (s : fs) : option (bool * fs) :=
  descend_loop fuel start inum (idup start s).

(** The code at [out:]. *)
Definition rename_out (same_parent : bool) (ip2 ip olddp newdp : option (nat * bool)) (ret : Z) (s : fs) : option (Z * fs) :=
  s ← drop_inode ip2 s;
  s ← drop_inode ip s;
  s ← drop_inode olddp s;
  s ← (if same_parent && bool_decide (fst <$> newdp = fst <$> olddp) then Some s else drop_inode newdp s);
  Some (ret, end_op s).

(** The last step: the old entry is cleared. *)
Definition rename_clear (olddp : nat) (off_old : Z) (s : fs) : option (Z * fs) :=
  s ← write_dirent olddp off_old no_dirent s; Some (0, s).

(** The new name exists and its inode [ip2] is locked: the value of [ret] at [out:]. *)
Definition rename_over (same_parent isdir : bool) (olddp newdp ip ip2 : nat) (off_old off_new : Z) (s : fs) : option (Z * fs) :=
  refused ← (if isdir then
               if negb (type_of ip2 s =? T_DIR) then Some true
               else e ← isdirempty ip2 s; Some (negb e)
             else Some (type_of ip2 s =? T_DIR));
  if refused : bool then Some (-1, s)
  else if i_inum (inode_at ip2 s) =? i_inum (inode_at ip s) then
    s ← write_dirent olddp off_old no_dirent s;
    Some (0, add_nlink ip (-1) s)
  else
    de ← read_dirent newdp off_new s;
    s ← write_dirent newdp off_new (mk_dirent (i_inum (inode_at ip s) `mod` 2 ^ 16) (de_name de)) s;
    if d_nlink (din ip2 s) <? 1 then None
    else
      let s := add_nlink ip2 (-1) s in
      if isdir then
        let s := add_nlink olddp (-1) s in
        if same_parent then rename_clear olddp off_old s
        else
          '(ok, s) ← set_dotdot ip (i_inum (inode_at newdp s)) s;
          if ok : bool then rename_clear olddp off_old (iupdate sb ip s) else Some (-1, s)
      else rename_clear olddp off_old s.

(** The new name does not exist. *)
Definition rename_new (same_parent isdir : bool) (olddp newdp ip : nat) (newname : list Z) (off_old : Z) (s : fs) : option (Z * fs) :=
  if same_parent then
    de ← read_dirent olddp off_old s;
    s ← write_dirent olddp off_old (mk_dirent (de_inum de) newname) s;
    Some (0, s)
  else
    '(r, s) ← dirlink sb newdp newname (i_inum (inode_at ip s)) s;
    if r <? 0 then Some (-1, s)
    else if isdir then
      let s := add_nlink olddp (-1) (add_nlink newdp 1 s) in
      '(ok, s) ← set_dotdot ip (i_inum (inode_at newdp s)) s;
      if ok : bool then rename_clear olddp off_old (iupdate sb ip s) else Some (-1, s)
    else rename_clear olddp off_old s.

(** The check that a directory does not move below itself; [None] in the result is [goto out]. *)
Definition rename_check (fuel : nat) (old : list Z) (newdp : nat) (s : fs) : option (bool * fs) :=
  '(r, s) ← namei sb cwd old nm s;
  match r with
  | None => Some (false, s)
  | Some ip =>
      s ← ilock sb ip s;
      let isdir := type_of ip s =? T_DIR in
      s ← iunlock ip s;
      '(below, s) ← (if isdir then dir_is_descendant fuel newdp (i_inum (inode_at ip s)) s else Some (false, s));
      s ← iput sb ip s;
      Some (negb below, s)
  end.

(** From the locks of the directories on. *)
Definition rename_locked (same_parent : bool) (olddp newdp : nat) (oldname newname : list Z) (s : fs) : option (Z * fs) :=
  let olk := Some (olddp, true) in
  let nlk := Some (newdp, negb same_parent) in
  '(r, s) ← dirlookup olddp oldname s;
  match r with
  | None => rename_out same_parent None None olk nlk (-1) s
  | Some (off_old, ip) =>
      s ← ilock sb ip s;
      let isdir := type_of ip s =? T_DIR in
      '(r, s) ← dirlookup newdp newname s;
      match r with
      | Some (off_new, ip2) =>
          s ← ilock sb ip2 s;
          '(ret, s) ← rename_over same_parent isdir olddp newdp ip ip2 off_old off_new s;
          rename_out same_parent (Some (ip2, true)) (Some (ip, true)) olk nlk ret s
      | None =>
          '(ret, s) ← rename_new same_parent isdir olddp newdp ip newname off_old s;
          rename_out same_parent None (Some (ip, true)) olk nlk ret s
      end
  end.

(** [fuel] bounds the walk to the root in dir_is_descendant(). *)
Definition sys_rename (fuel : nat) (old new : list Z) (s : fs) : option (Z * fs) :=
  if same_path old new then Some (0, s)
  else
    '(r, oldname, s) ← nameiparent sb cwd old nm s;
    match r with
    | None => rename_out false None None None None (-1) s
    | Some olddp =>
        '(r, newname, s) ← nameiparent sb cwd new nm s;
        match r with
        | None => rename_out false None None (Some (olddp, false)) None (-1) s
        | Some newdp =>
            let stop same := rename_out same None None (Some (olddp, false)) (Some (newdp, false)) (-1) in
            if dots oldname || dots newname then stop false s
            else if negb (i_dev (inode_at olddp s) =? i_dev (inode_at newdp s)) then stop false s
            else
              let same_parent := bool_decide (olddp = newdp) in
              '(go, s) ← (if same_parent then Some (true, s) else rename_check fuel old newdp s);
              if negb go then stop same_parent s
              else
                s ← (if same_parent then ilock sb olddp s else lock_two olddp newdp s);
                rename_locked same_parent olddp newdp oldname newname s
        end
    end.

End inodes.

(** ** Calls on descriptors *)

Section descriptors.
Context (sb : superblock) (nm : list Z) (p : nat).

Abbreviation type_of ip s := (d_type (din ip s)).

(** The current directory of the process. *)
Definition cwd_of (s : sys) : nat := default 0%nat (mjoin (cwd s !! p)).

(** A call that starts with argfd(). *)
Definition with_fd {A} (fd : Z) (fail : A) (body : nat → sys → option (A * sys)) (s : sys) : option (A * sys) :=
  match argfd p fd s with
  | None => Some (fail, s)
  | Some f => body f s
  end.

Definition sys_chdir (path : list Z) (s : sys) : option (Z * sys) :=
  '(r, s1) ← namei sb (cwd_of s) path nm (s_fs s);
  match r with
  | None => Some (-1, s <| s_fs := end_op s1 |>)
  | Some ip =>
      s1 ← ilock sb ip s1;
      if negb (type_of ip s1 =? T_DIR) then
        s1 ← iunlockput sb ip s1; Some (-1, s <| s_fs := end_op s1 |>)
      else
        s1 ← iunlock ip s1;
        s1 ← iput sb (cwd_of s) s1;
        Some (0, s <| s_fs := end_op s1 |> <| cwd := <[p := Some ip]> (cwd s) |>)
  end.

(** *** open() *)

(** The inode, locked, of create() or namei(). *)
Definition open_path (cwd : nat) (path : list Z) (omode : Z) (s : fs) : option (option nat * fs) :=
  if has omode O_CREATE then create sb cwd nm path T_FILE 0 0 s
  else
    '(r, s) ← namei sb cwd path nm s;
    match r with
    | None => Some (None, s)
    | Some ip =>
        s ← ilock sb ip s;
        if (type_of ip s =? T_DIR) && negb (omode =? O_RDONLY) then s ← iunlockput sb ip s; Some (None, s)
        else Some (Some ip, s)
    end.

(** The loop along symbolic links; it ends at another file or after the last turn. *)
Fixpoint follow (turns : nat) (cwd ip : nat) (s : fs) : option (option nat * fs) :=
  match turns with
  | O => Some (Some ip, s)
  | S turns =>
      '(r, bs) ← readi ip (λ _ _, true) 0 MAXPATH s;
      s ← iunlockput sb ip s;
      if negb (r =? MAXPATH) then Some (None, s)
      else
        '(r, s) ← namei sb cwd (c_string bs) nm s;
        match r with
        | None => Some (None, s)
        | Some ip =>
            s ← ilock sb ip s;
            if negb (type_of ip s =? T_SYMLINK) then Some (Some ip, s) else follow turns cwd ip s
        end
  end.

(** The locked inode to open, or [None] after everything was put back. *)
Definition open_inode (cwd : nat) (path : list Z) (omode : Z) (s : fs) : option (option nat * fs) :=
  '(r, s) ← open_path cwd path omode s;
  match r with
  | None => Some (None, s)
  | Some ip =>
      let d := din ip s in
      if (d_type d =? T_DEVICE) && ((d_major d <? 0) || (NDEV <=? d_major d)) then s ← iunlockput sb ip s; Some (None, s)
      else if (d_type d =? T_SYMLINK) && negb (has omode O_NOFOLLOW) then
        '(r, s) ← follow MAX_SYMLINK_DEPTH cwd ip s;
        match r with
        | None => Some (None, s)
        | Some ip => if type_of ip s =? T_SYMLINK then s ← iunlockput sb ip s; Some (None, s) else Some (Some ip, s)
        end
      else Some (Some ip, s)
  end.

(** The fields of the new open file. *)
Definition opened (ip : nat) (omode : Z) (s : fs) (f : file) : file :=
  let f := if type_of ip s =? T_DEVICE then f <| f_type := FD_DEVICE |> <| f_major := d_major (din ip s) |>
           else f <| f_type := FD_INODE |> <| f_off := 0 |> in
  f <| f_ip := ip |> <| f_readable := negb (has omode O_WRONLY) |> <| f_writable := has omode O_WRONLY || has omode O_RDWR |>.

Definition open_fail (ip : nat) (s : sys) : option (Z * sys) :=
  s1 ← iunlockput sb ip (s_fs s); Some (-1, s <| s_fs := end_op s1 |>).

Definition sys_open (path : list Z) (omode : Z) (s : sys) : option (Z * sys) :=
  '(r, s1) ← open_inode (cwd_of s) path omode (s_fs s);
  let s := s <| s_fs := s1 |> in
  match r with
  | None => Some (-1, s <| s_fs := end_op s1 |>)
  | Some ip =>
      match filealloc s with
      | (None, s) => open_fail ip s
      | (Some f, s) =>
          let '(fd, s) := fdalloc p f s in
          if fd <? 0 then '(_, s) ← fileclose sb f s; open_fail ip s
          else
            let s := set_file f (opened ip omode (s_fs s)) s in
            s1 ← (if has omode O_TRUNC && (type_of ip (s_fs s) =? T_FILE) then itrunc sb ip (s_fs s) else Some (s_fs s));
            s1 ← iunlock ip s1;
            Some (fd, s <| s_fs := end_op s1 |>)
      end
  end.

(** *** pipe() *)

(** pipealloc(): the two ends; [pi] is the page of kalloc(), [None] when there is none. *)
Definition pipe_end (pi : Z) (w : bool) (f : file) : file :=
  mk_file FD_PIPE (f_ref f) (negb w) w pi (f_ip f) (f_sock f) (f_off f) (f_major f) (f_flock_held f).

Definition close_opt (o : option nat) (s : sys) : option sys :=
  match o with
  | None => Some s
  | Some f => '(_, s) ← fileclose sb f s; Some s
  end.

Definition pipe_files (pi : option Z) (s : sys) : option (option (nat * nat) * sys) :=
  let '(f0, s) := filealloc s in
  let '(f1, s) := match f0 with None => (None, s) | Some _ => filealloc s end in
  match f0, f1, pi with
  | Some f0, Some f1, Some pi => Some (Some (f0, f1), set_file f1 (pipe_end pi true) (set_file f0 (pipe_end pi false) s))
  | _, _, _ => s ← close_opt f0 s; s ← close_opt f1 s; Some (None, s)
  end.

(** fileclose() of both ends. *)
Definition pipe_undo (rf wf : nat) (s : sys) : option (Z * sys) :=
  s ← close_opt (Some rf) s; s ← close_opt (Some wf) s; Some (-1, s).

Definition sys_pipe (pi : option Z) (out_ok : Z → Z → bool) (s : sys) : option (Z * sys) :=
  '(r, s) ← pipe_files pi s;
  match r with
  | None => Some (-1, s)
  | Some (rf, wf) =>
      let '(fd0, s) := fdalloc p rf s in
      if fd0 <? 0 then pipe_undo rf wf s
      else
        let '(fd1, s) := fdalloc p wf s in
        if fd1 <? 0 then pipe_undo rf wf (set_fd p (Z.to_nat fd0) None s)
        else if out_ok fd0 fd1 then Some (0, s)
        else pipe_undo rf wf (set_fd p (Z.to_nat fd1) None (set_fd p (Z.to_nat fd0) None s))
  end.

(** *** Reading, writing and positions *)

Definition sys_read (fd : Z) (dev_ok : Z → bool) (ext : Z) (dst_ok : Z → Z → bool) (n : Z) : sys → option (Z * list Z * sys) :=
  with_fd fd (-1, []) (λ f s, fileread sb f dev_ok ext dst_ok n s).

Definition sys_write (fd : Z) (dev_ok : Z → bool) (ext : Z) (src : Z → Z → list Z * bool) (n : Z) : sys → option (Z * sys) :=
  with_fd fd (-1) (λ f s, filewrite sb f dev_ok ext src n s).

Definition sys_fstat (fd : Z) (out_ok : bool) : sys → option (Z * option stat * sys) :=
  with_fd fd (-1, None) (λ f s, filestat sb f out_ok s).

Definition sys_fsync (fd : Z) (datasync : bool) : sys → option (Z * sys) :=
  with_fd fd (-1) (λ f s, filefsync sb f datasync s).

(** One pass, see [fileflock]. *)
Definition sys_flock (fd operation : Z) : sys → option (flock_result * bool * sys) :=
  with_fd fd (FRet (-1), false) (λ f s, Some (fileflock f operation s)).

Definition sys_lseek (fd offset whence : Z) : sys → option (Z * sys) :=
  with_fd fd (-1) (λ f s,
    let ff := file_at f s in
    if negb (bool_decide (f_type ff = FD_INODE)) then Some (-1, s)
    else
      let ip := f_ip ff in
      s1 ← ilock sb ip (s_fs s);
      let newoff := if whence =? 0 then Some offset
                    else if whence =? 1 then Some (i32 (f_off ff + offset))
                    else if whence =? 2 then Some (i32 (d_size (din ip s1) + offset))
                    else None in
      s1 ← iunlock ip s1;
      let s := s <| s_fs := s1 |> in
      match newoff with
      | None => Some (-1, s)
      | Some off => if off <? 0 then Some (-1, s) else Some (off, set_file f (λ f, f <| f_off := off |>) s)
      end).

Definition sys_ftruncate (fd length : Z) : sys → option (Z * sys) :=
  with_fd fd (-1) (λ f s,
    let ff := file_at f s in
    let ip := f_ip ff in
    if length <? 0 then Some (-1, s)
    else if MAXFILE * BSIZE <? length then Some (-1, s)
    else if negb (bool_decide (f_type ff = FD_INODE)) then Some (-1, s)
    else if negb (f_writable ff) then Some (-1, s)
    else
      s1 ← ilock sb ip (s_fs s);
      if negb (type_of ip s1 =? T_FILE) then
        s1 ← iunlock ip s1; Some (-1, s <| s_fs := end_op s1 |>)
      else
        s1 ← itrunc_to sb ip length s1;
        s1 ← iunlock ip s1;
        let s := if length <? f_off ff then set_file f (λ f, f <| f_off := length |>) s else s in
        Some (0, s <| s_fs := end_op s1 |>)).

Definition sys_pread (fd : Z) (dst_ok : Z → Z → bool) (count offset : Z) : sys → option (Z * list Z * sys) :=
  with_fd fd (-1, []) (λ f s,
    let ff := file_at f s in
    let ip := f_ip ff in
    if (count <? 0) || (offset <? 0) then Some (-1, [], s)
    else if negb (bool_decide (f_type ff = FD_INODE)) then Some (-1, [], s)
    else if negb (f_readable ff) then Some (-1, [], s)
    else
      s1 ← ilock sb ip (s_fs s);
      if negb (has (d_mode (din ip s1)) 1) then s1 ← iunlock ip s1; Some (-1, [], s <| s_fs := s1 |>)
      else
        '(r, bs) ← readi ip dst_ok offset count s1;
        s1 ← iunlock ip s1;
        Some (r, bs, s <| s_fs := s1 |>)).

(** The loop of pwrite(). *)
Fixpoint pwrite_loop (fuel : nat) (ip : nat) (src : Z → Z → list Z * bool) (total cur count : Z) (s : fs) : option (Z * fs) :=
  match fuel with
  | O => None
  | S fuel =>
      if total <? count then
        let n1 := if WMAX <? count - total then WMAX else count - total in
        s ← ilock sb ip s;
        let end_pos := u32 (cur + n1) in
        let s := if d_size (din ip s) <? end_pos then iupdate sb ip (set_din ip (λ d, d <| d_size := end_pos |>) s) else s in
        '(r, s) ← writei sb ip (λ tot m, src (total + tot) m) cur n1 s;
        s ← iunlock ip s;
        let s := end_op s in
        if r <? 0 then Some (total, s)
        else if negb (r =? n1) then Some (total + r, s)
        else pwrite_loop fuel ip src (total + r) (cur + r) count s
      else Some (total, s)
  end.

Definition sys_pwrite (fd : Z) (src : Z → Z → list Z * bool) (count offset : Z) : sys → option (Z * sys) :=
  with_fd fd (-1) (λ f s,
    let ff := file_at f s in
    if (count <? 0) || (offset <? 0) then Some (-1, s)
    else if negb (bool_decide (f_type ff = FD_INODE)) then Some (-1, s)
    else if negb (f_writable ff) then Some (-1, s)
    else
      '(total, s1) ← pwrite_loop (wturns count) (f_ip ff) src 0 offset count (s_fs s);
      Some (if 0 <? total then total else -1, s <| s_fs := s1 |>)).

(** The buffers of readv(): their lengths and what each accepts. *)
Fixpoint readv_loop (f : nat) (dev_ok : Z → bool) (ext : Z → Z) (iov : list (Z * (Z → Z → bool))) (total : Z) (s : sys)
    : option (Z * list (list Z) * sys) :=
  match iov with
  | [] => Some (total, [], s)
  | (len, dst_ok) :: iov =>
      if len =? 0 then '(t, l, s) ← readv_loop f dev_ok ext iov total s; Some (t, [] :: l, s)
      else
        '(r, bs, s) ← fileread sb f dev_ok (ext len) dst_ok len s;
        if r <? 0 then Some (if 0 <? total then total else -1, [bs], s)
        else if r <? len then Some (total + r, [bs], s)
        else '(t, l, s) ← readv_loop f dev_ok ext iov (total + r) s; Some (t, bs :: l, s)
  end.

Definition UIO_MAXIOV : Z := 16.

Definition sys_readv (fd : Z) (dev_ok : Z → bool) (ext : Z → Z) (iov : option (list (Z * (Z → Z → bool)))) (iovcnt : Z)
    : sys → option (Z * list (list Z) * sys) :=
  with_fd fd (-1, []) (λ f s,
    if (iovcnt <=? 0) || (UIO_MAXIOV <? iovcnt) then Some (-1, [], s)
    else match iov with
    | None => Some (-1, [], s)
    | Some iov => if existsb (λ v, v.1 <? 0) iov then Some (-1, [], s) else readv_loop f dev_ok ext iov 0 s
    end).

Fixpoint writev_loop (f : nat) (dev_ok : Z → bool) (ext : Z → Z) (iov : list (Z * (Z → Z → list Z * bool))) (total : Z) (s : sys)
    : option (Z * sys) :=
  match iov with
  | [] => Some (total, s)
  | (len, src) :: iov =>
      if len =? 0 then writev_loop f dev_ok ext iov total s
      else
        '(r, s) ← filewrite sb f dev_ok (ext len) src len s;
        if r <? 0 then Some (if 0 <? total then total else -1, s)
        else if r <? len then Some (total + r, s)
        else writev_loop f dev_ok ext iov (total + r) s
  end.

Definition sys_writev (fd : Z) (dev_ok : Z → bool) (ext : Z → Z) (iov : option (list (Z * (Z → Z → list Z * bool)))) (iovcnt : Z)
    : sys → option (Z * sys) :=
  with_fd fd (-1) (λ f s,
    if (iovcnt <=? 0) || (UIO_MAXIOV <? iovcnt) then Some (-1, s)
    else match iov with
    | None => Some (-1, s)
    | Some iov => if existsb (λ v, v.1 <? 0) iov then Some (-1, s) else writev_loop f dev_ok ext iov 0 s
    end).

(** *** Allocation and sharing of blocks *)

(** A loop over the blocks from [b] to [endb] in transactions of at most [m] blocks;
    [body] says whether to go on. *)
Fixpoint chunks (fuel : nat) (m b endb : Z) (body : Z → Z → fs → option (bool * fs)) (s : fs) : option (Z * fs) :=
  match fuel with
  | O => None
  | S fuel =>
      if b <? endb then
        let chunk := if m <? endb - b then m else endb - b in
        '(ok, s) ← body b chunk s;
        let s := end_op s in
        if ok : bool then chunks fuel m (b + chunk) endb body s else Some (-1, s)
      else Some (0, s)
  end.

(** The most turns: every turn but the last moves on by [m] blocks. *)
Definition cturns (m b endb : Z) : nat := S (Z.to_nat ((endb - b) / m + 1)).

(** A transaction with the inode locked. *)
Definition locked (ip : nat) (body : fs → option (Z * fs)) (s : fs) : option (bool * fs) :=
  s ← ilock sb ip s;
  '(r, s) ← body s;
  s ← iunlock ip s;
  Some (negb (r <? 0), s).

Definition PUNCH_BLOCKS : Z := (MAXOPBLOCKS - 1 - 2) / 2.
Definition FALLOC_BLOCKS : Z := (MAXOPBLOCKS - 1 - 1 - 2) / 2.

Definition sys_fallocate (fd offset len flags : Z) : sys → option (Z * sys) :=
  with_fd fd (-1) (λ f s,
    let ff := file_at f s in
    let ip := f_ip ff in
    if (offset <? 0) || (len <? 0) then Some (-1, s)
    else if negb (Z.ldiff flags 3 =? 0) then Some (-1, s)
    else if negb (bool_decide (f_type ff = FD_INODE)) || negb (type_of ip (s_fs s) =? T_FILE) then Some (-1, s)
    else if negb (f_writable ff) then Some (-1, s)
    else if len =? 0 then Some (0, s)
    else if MAXFILE * BSIZE <? offset + len then Some (-1, s)
    else
      let startb := offset / BSIZE in
      let target := offset + len in
      let endb := (target + BSIZE - 1) / BSIZE in
      '(r, s1) ← (if has flags FALLOC_FL_PUNCH_HOLE then
                    chunks (cturns PUNCH_BLOCKS startb endb) PUNCH_BLOCKS startb endb (λ b chunk, locked ip (ipunch sb ip b (b + chunk))) (s_fs s)
                  else
                    chunks (cturns FALLOC_BLOCKS startb endb) FALLOC_BLOCKS startb endb (λ b chunk,
                      locked ip (falloc sb ip b (b + chunk) (Z.min target ((b + chunk) * BSIZE)) (has flags FALLOC_KEEP_SIZE))) (s_fs s));
      Some (r, s <| s_fs := s1 |>)).

Definition sys_fclonerange (fds src_off fdd dst_off len : Z) : sys → option (Z * sys) :=
  with_fd fds (-1) (λ f, with_fd fdd (-1) (λ g s,
    let fsrc := file_at f s in let fdst := file_at g s in
    let src := f_ip fsrc in let dst := f_ip fdst in
    if (src_off <? 0) || (dst_off <? 0) || (len <? 0) then Some (-1, s)
    else if len =? 0 then Some (0, s)
    else if has (Z.lor (Z.lor src_off dst_off) len) (BSIZE - 1) then Some (-1, s)
    else if negb (bool_decide (f_type fsrc = FD_INODE)) || negb (bool_decide (f_type fdst = FD_INODE)) then Some (-1, s)
    else if negb (type_of src (s_fs s) =? T_FILE) || negb (type_of dst (s_fs s) =? T_FILE) then Some (-1, s)
    else if negb (f_readable fsrc) then Some (-1, s)
    else if negb (f_writable fdst) then Some (-1, s)
    else if bool_decide (src = dst) then Some (-1, s)
    else if negb (i_dev (inode_at src (s_fs s)) =? i_dev (inode_at dst (s_fs s))) then Some (-1, s)
    else if MAXFILE * BSIZE <? dst_off + len then Some (-1, s)
    else
      s1 ← ilock sb src (s_fs s);
      let src_size := d_size (din src s1) in
      s1 ← iunlock src s1;
      if src_size <? src_off + len then Some (-1, s <| s_fs := s1 |>)
      else
        '(r, s1) ← chunks (cturns PUNCH_BLOCKS 0 (len / BSIZE)) PUNCH_BLOCKS 0 (len / BSIZE) (λ b chunk s,
          s ← lock_two sb src dst s;
          '(r, s) ← iclone_range sb src dst (src_off + b * BSIZE) (dst_off + b * BSIZE) (chunk * BSIZE) s;
          s ← iunlock src s;
          s ← iunlock dst s;
          Some (negb (r <? 0), s)) s1;
        Some (r, s <| s_fs := s1 |>))).

End descriptors.
