(* ===== verification/Names.v ===== *)
(** * The name space

    The names of the file system as a tree: what directories and link counts
    mean together. A directory starts with the entries "." and ".."; its other
    entries are names of allocated inodes; every directory but the root has
    exactly one name, in the directory its ".." gives, and ".." leads to the root in
    finitely many steps; no name occurs twice in a directory; the link count of an
    inode is the number of its names and of the directories whose ".." it is. The
    elementary changes that link(), unlink() and create() are made of keep this,
    up to the link counts they have still to correct. *)

From stdpp Require Import list_numbers gmap.
From S2P Require Import Prelude Mem CString Xattr Fs FsInv FsFile FsNode FsIO FsFree FsOps FsShare FsRange FsSpec FsCache Dir Path File Sysfile.

(** What an inode is to the name space. *)
Record node := mk_node { nd_type : Z; nd_nlink : Z; nd_ents : list dirent }.

Abbreviation is_dnode nd := (nd_type nd = T_DIR).

(** Entries for [n] in a list. *)
Definition cnt (n : Z) (l : list dirent) : Z := sum_with (λ e, if de_inum e =? n then 1 else 0) l.

(** The inode of "..". *)
Definition dotdot (nd : node) : Z := default 0 (de_inum <$> nd_ents nd !! 1%nat).

(** The names of [n] in a node, and whether its ".." is [n]. *)
Definition hard (n : Z) (nd : node) : Z := if nd_type nd =? T_DIR then cnt n (drop 2 (nd_ents nd)) else 0.
Definition up (n : Z) (nd : node) : Z := if (nd_type nd =? T_DIR) && (dotdot nd =? n) then 1 else 0.

Definition upd_node (n : Z) (nd : node) (V : Z → node) (m : Z) : node := if decide (m = n) then nd else V m.

Lemma upd_node_eq n nd V : upd_node n nd V n = nd.
Proof. unfold upd_node. by rewrite decide_True. Qed.

Lemma upd_node_ne n nd V m : m ≠ n → upd_node n nd V m = V m.
Proof. intros H. unfold upd_node. by rewrite decide_False. Qed.

(** An entry in use with the name. *)
Definition named_ent (name : list Z) (n : Z) (e : dirent) : Prop := de_inum e = n ∧ namecmp name (de_name e) = 0.

(** No name twice. *)
Definition uniq (l : list dirent) : Prop := ∀ i j a b, l !! i = Some a → l !! j = Some b → de_inum a ≠ 0 → de_inum b ≠ 0 →
  namecmp (de_name a) (de_name b) = 0 → i = j.

Lemma namecmp_sym a b : namecmp a b = 0 → namecmp b a = 0.
Proof. rewrite !namecmp_zero. intros H i Hi. symmetry. by apply H. Qed.

Lemma namecmp_trans a b c : namecmp a b = 0 → namecmp b c = 0 → namecmp a c = 0.
Proof. rewrite !namecmp_zero. intros H1 H2 i Hi. by rewrite H1, H2. Qed.

Lemma uniq_clear k l : uniq l → uniq (<[k := no_dirent]> l).
Proof.
  intros H i j a b Hi Hj Ha Hb. apply list_lookup_insert_Some in Hi as [(_ & <- & _)|[_ Hi]]; [done|].
  apply list_lookup_insert_Some in Hj as [(_ & <- & _)|[_ Hj]]; [done|]. by apply H.
Qed.

Lemma uniq_link e l : uniq l → (∀ a, a ∈ l → de_inum a ≠ 0 → namecmp (de_name e) (de_name a) ≠ 0) → uniq (link e l).
Proof.
  intros H Hf. unfold link. assert (∀ i a, put_entry (slot l) e l !! i = Some a → i = slot l ∧ a = e ∨ i ≠ slot l ∧ l !! i = Some a) as Hp.
  { intros i a. unfold put_entry. pose proof (slot_le l) as Hle. case_decide as Hlt.
    - intros Hi. apply list_lookup_insert_Some in Hi as [(-> & <- & _)|[? Hi]]; auto.
    - intros Hi. apply lookup_app_Some in Hi as [Hi|[Hi Hi2]]; [right|left].
      + pose proof (lookup_lt_Some _ _ _ Hi). split; [lia|done].
      + apply list_lookup_singleton_Some in Hi2 as [E ->]. split; [lia|done]. }
  intros i j a b Hi Hj Ha Hb Hn. destruct (Hp i a Hi) as [[-> ->]|[Hi1 Hi2]], (Hp j b Hj) as [[-> ->]|[Hj1 Hj2]].
  - done.
  - exfalso. apply (Hf b); [by eapply list_elem_of_lookup_2|done|done].
  - exfalso. apply (Hf a); [by eapply list_elem_of_lookup_2|done|by apply namecmp_sym].
  - by eapply H.
Qed.

Section names.
Context (sb : superblock) (Hsb : sb_wf sb).

Definition inums : list Z := seqZ 1 (sb_ninodes sb - 1).

Definition total (g : node → Z) (V : Z → node) : Z := sum_with (λ m, g (V m)) inums.

(** [x]: by how much the link counts are larger than the numbers of links. *)
Record ns (x : Z → Z) (V : Z → node) : Prop := {
  ns_root : is_dnode (V ROOTINO) ∧ dotdot (V ROOTINO) = ROOTINO;
  ns_nlink : ∀ n, inum_ok sb n → nd_type (V n) ≠ 0 → nd_nlink (V n) = total (hard n) V + total (up n) V + x n;
  ns_dots : ∀ n, inum_ok sb n → is_dnode (V n) → ∃ e0 e1 rest, nd_ents (V n) = e0 :: e1 :: rest ∧
    named_ent DOT n e0 ∧ named_ent DOTDOT (dotdot (V n)) e1 ∧ inum_ok sb (dotdot (V n)) ∧ is_dnode (V (dotdot (V n)));
  ns_live : ∀ d e, inum_ok sb d → is_dnode (V d) → e ∈ drop 2 (nd_ents (V d)) → de_inum e ≠ 0 →
    inum_ok sb (de_inum e) ∧ nd_type (V (de_inum e)) ≠ 0 ∧ de_inum e ≠ ROOTINO;
  ns_once : ∀ n, inum_ok sb n → is_dnode (V n) → n ≠ ROOTINO → total (hard n) V = 1 ∧ hard n (V (dotdot (V n))) = 1;
  ns_uniq : ∀ n, inum_ok sb n → is_dnode (V n) → uniq (nd_ents (V n));
  ns_rank : ∃ rank : Z → nat, ∀ n, inum_ok sb n → is_dnode (V n) → n ≠ ROOTINO → (rank (dotdot (V n)) < rank n)%nat;
}.

Lemma inums_elem n : n ∈ inums ↔ inum_ok sb n.
Proof. unfold inums, inum_ok. rewrite elem_of_seqZ. lia. Qed.

Lemma root_ok : inum_ok sb ROOTINO.
Proof using Hsb. destruct Hsb. unfold inum_ok, ROOTINO. lia. Qed.

Lemma total_ext g V V' : (∀ n, inum_ok sb n → g (V' n) = g (V n)) → total g V' = total g V.
Proof. intros H. apply sum_with_ext. intros n Hn%inums_elem. by apply H. Qed.

Lemma sum_change (f f' : Z → Z) l d : NoDup l → d ∈ l → (∀ m, m ∈ l → m ≠ d → f' m = f m) → sum_with f' l = sum_with f l + f' d - f d.
Proof.
  induction l as [|y l IH]; intros Hnd Hd Hf; [by apply elem_of_nil in Hd|]. apply NoDup_cons in Hnd as [Hy Hnd].
  change (f' y + sum_with f' l = f y + sum_with f l + f' d - f d).
  apply elem_of_cons in Hd as [->|Hd].
  - rewrite (sum_with_ext f' f); [lia|]. intros m Hm. apply Hf; [by apply elem_of_cons; right|]. by intros ->.
  - rewrite IH; [|done|done|intros m Hm; apply Hf; by apply elem_of_cons; right].
    rewrite (Hf y); [lia|by left|]. by intros ->.
Qed.

Lemma total_upd g V n nd : inum_ok sb n → total g (upd_node n nd V) = total g V + g nd - g (V n).
Proof.
  intros Hn. unfold total. rewrite (sum_change (λ m, g (V m)) _ inums n).
  - by rewrite upd_node_eq.
  - apply NoDup_seqZ.
  - by apply inums_elem.
  - intros m _ Hm. by rewrite upd_node_ne.
Qed.

Lemma ns_ext x x' V V' : ns x V → (∀ n, inum_ok sb n → V' n = V n) → (∀ n, inum_ok sb n → x' n = x n) → ns x' V'.
Proof using Hsb.
  intros [R L D E O U Q] HV Hx. assert (∀ g, total g V' = total g V) as Ht by (intros g; apply total_ext; intros n Hn; by rewrite HV).
  split.
  - rewrite HV by apply root_ok. done.
  - intros n Hn. rewrite HV, !Ht, Hx by done. by apply L.
  - intros n Hn. rewrite HV by done. intros Hd. destruct (D n Hn Hd) as (e0 & e1 & rest & H1 & H2 & H3 & H4 & H5).
    exists e0, e1, rest. rewrite (HV (dotdot (V n))) by done. done.
  - intros d e Hd. rewrite HV by done. intros Hdd He H0. destruct (E d e Hd Hdd He H0) as (A & B & C). by rewrite HV.
  - intros n Hn. rewrite HV, Ht by done. intros Hd Hr. destruct (O n Hn Hd Hr) as [A B]. split; [done|].
    destruct (D n Hn Hd) as (_ & _ & _ & _ & _ & _ & H4 & _). by rewrite HV.
  - intros n Hn. rewrite HV by done. by apply U.
  - destruct Q as [rank Q]. exists rank. intros n Hn. rewrite HV by done. by apply Q.
Qed.

(** ** Counting *)

Lemma cnt_nonneg n l : 0 ≤ cnt n l.
Proof. apply sum_with_nonneg. intros e _. case_match; lia. Qed.

Lemma hard_nonneg n nd : 0 ≤ hard n nd.
Proof. unfold hard. case_match; [apply cnt_nonneg|done]. Qed.

Lemma up_range n nd : 0 ≤ up n nd ≤ 1.
Proof. unfold up. case_match; lia. Qed.

Lemma total_nonneg g V : (∀ nd, 0 ≤ g nd) → 0 ≤ total g V.
Proof. intros H. apply sum_with_nonneg. intros n _. apply H. Qed.

Lemma total_elem g V n : (∀ nd, 0 ≤ g nd) → inum_ok sb n → g (V n) ≤ total g V.
Proof. intros H Hn. apply (sum_with_elem_le (λ m, g (V m))); [intros; apply H|by apply inums_elem]. Qed.

Lemma cnt_pos n l e : e ∈ l → de_inum e = n → 1 ≤ cnt n l.
Proof.
  intros He <-. assert ((if de_inum e =? de_inum e then 1 else 0) ≤ cnt (de_inum e) l) as H.
  { apply (sum_with_elem_le (λ f, if de_inum f =? de_inum e then 1 else 0)); [|done]. intros y _. case_match; lia. }
  by rewrite Z.eqb_refl in H.
Qed.

Lemma sum_zero {A} (l : list A) : sum_with (λ _, 0) l = 0.
Proof. by induction l. Qed.

Lemma cnt_zero n l : Forall (λ e, de_inum e ≠ n) l → cnt n l = 0.
Proof.
  intros H. unfold cnt. rewrite (sum_with_ext _ (λ _, 0)); [apply sum_zero|]. intros e He. rewrite Forall_forall in H.
  by rewrite (proj2 (Z.eqb_neq _ _) (H e He)).
Qed.

Lemma cnt_elem n l : 1 ≤ cnt n l → ∃ e, e ∈ l ∧ de_inum e = n.
Proof.
  intros H. destruct (decide (Exists (λ e, de_inum e = n) l)) as [He|He]; [by apply Exists_exists|].
  apply not_Exists_Forall in He; [|apply _]. rewrite (cnt_zero n l He) in H. lia.
Qed.

(** The entry that is filled lies behind the dots. *)
Lemma link_dots e e0 e1 rest : de_inum e0 ≠ 0 → de_inum e1 ≠ 0 → link e (e0 :: e1 :: rest) = e0 :: e1 :: link e rest.
Proof. intros H0 H1. rewrite !link_cons, !(proj2 (Z.eqb_neq _ _)) by done. done. Qed.

Lemma cnt_cons n e l : cnt n (e :: l) = (if de_inum e =? n then 1 else 0) + cnt n l.
Proof. done. Qed.

Lemma cnt_link n e l : n ≠ 0 → cnt n (link e l) = cnt n l + (if de_inum e =? n then 1 else 0).
Proof.
  intros Hn. induction l as [|y l IH].
  - change (link e []) with [e]. rewrite cnt_cons. change (cnt n []) with 0. lia.
  - rewrite link_cons. destruct (Z.eqb_spec (de_inum y) 0) as [E|E]; rewrite !cnt_cons; [|lia].
    rewrite E, (proj2 (Z.eqb_neq 0 n)) by done. lia.
Qed.

Lemma cnt_insert n k e e' l : l !! k = Some e → cnt n (<[k := e']> l) = cnt n l - (if de_inum e =? n then 1 else 0) + (if de_inum e' =? n then 1 else 0).
Proof. intros H. unfold cnt. by rewrite (sum_with_insert _ _ _ e). Qed.

Lemma elem_of_link e e' l : e' ∈ link e l → e' = e ∨ e' ∈ l.
Proof.
  unfold link, put_entry. case_decide.
  - intros [k Hk]%list_elem_of_lookup. apply list_lookup_insert_Some in Hk as [(_ & -> & _)|[_ Hk]]; [by left|right]. by eapply list_elem_of_lookup_2.
  - intros [?|?%list_elem_of_singleton]%elem_of_app; auto.
Qed.

(** A directory's link count is positive and fits a [short]. *)
Lemma dir_nlink x V n : ns x V → inum_ok sb n → is_dnode (V n) → 1 + x n ≤ nd_nlink (V n).
Proof using Hsb.
  intros [R L D E O U Q] Hn Hd. rewrite L by (done || by rewrite Hd).
  pose proof (total_nonneg (hard n) V (hard_nonneg n)). pose proof (total_nonneg (up n) V (λ nd, proj1 (up_range n nd))).
  destruct (decide (n = ROOTINO)) as [->|Hr]; [|destruct (O n Hn Hd Hr); lia].
  pose proof (total_elem (up ROOTINO) V ROOTINO (λ nd, proj1 (up_range _ nd)) Hn) as Hu.
  assert (up ROOTINO (V ROOTINO) = 1); [|lia]. unfold up. destruct R as [-> ->]. done.
Qed.

Lemma dir_nlink_max x V n : ns x V → inum_ok sb n → is_dnode (V n) → nd_nlink (V n) ≤ sb_ninodes sb + x n.
Proof using Hsb.
  intros [R L D E O U Q] Hn Hd. rewrite L by (done || by rewrite Hd).
  assert (total (up n) V ≤ sb_ninodes sb - 1) as Hu.
  { unfold total. assert (∀ l, sum_with (λ m, up n (V m)) l ≤ Z.of_nat (length l)) as H.
    { induction l as [|y l IH]; [done|]. cbn [sum_with foldr length]. pose proof (up_range n (V y)). unfold sum_with in IH. lia. }
    etrans; [apply H|]. unfold inums. rewrite length_seqZ. destruct Hsb. lia. }
  destruct (decide (n = ROOTINO)) as [->|Hr]; [|destruct (O n Hn Hd Hr); lia].
  assert (total (hard ROOTINO) V = 0); [|lia]. unfold total. rewrite (sum_with_ext _ (λ _, 0)); [apply sum_zero|].
  intros m Hm%inums_elem. unfold hard. destruct (Z.eqb_spec (nd_type (V m)) T_DIR) as [Hmd|]; [|done].
  apply cnt_zero, Forall_forall. intros e He Ei. assert (de_inum e ≠ 0) as H0 by (rewrite Ei; done).
  by destruct (E m e Hm Hmd He H0) as (_ & _ & ?).
Qed.

(** ** Elementary changes *)

(** The link counts alone. *)
Lemma ns_same x x' V V' : ns x V → (∀ n, inum_ok sb n → nd_type (V' n) = nd_type (V n) ∧ nd_ents (V' n) = nd_ents (V n)) →
  (∀ n, inum_ok sb n → nd_type (V n) ≠ 0 → nd_nlink (V' n) - x' n = nd_nlink (V n) - x n) → ns x' V'.
Proof using Hsb.
  intros [R L D E O U Q] HV Hx.
  assert (∀ n, inum_ok sb n → dotdot (V' n) = dotdot (V n)) as Hdd by (intros n Hn; unfold dotdot; by destruct (HV n Hn) as [_ ->]).
  assert (∀ n m, total (hard n) V' = total (hard n) V ∧ total (up m) V' = total (up m) V) as Ht.
  { intros n m. split; apply total_ext; intros k Hk; unfold hard, up; rewrite ?(Hdd k Hk); destruct (HV k Hk) as [E1 E2]; by rewrite ?E1, ?E2. }
  assert (∀ n, inum_ok sb n → is_dnode (V n) → inum_ok sb (dotdot (V n))) as Hok.
  { intros n Hn Hd. by destruct (D n Hn Hd) as (_ & _ & _ & _ & _ & _ & H & _). }
  split.
  - rewrite Hdd by (by apply root_ok). by destruct (HV ROOTINO root_ok) as [-> _].
  - intros n Hn. destruct (HV n Hn) as [Et _]. rewrite Et. intros H0. specialize (Hx n Hn H0). specialize (L n Hn H0). destruct (Ht n n) as [-> ->]. lia.
  - intros n Hn. rewrite (Hdd n Hn). destruct (HV n Hn) as [-> ->]. intros Hd. destruct (D n Hn Hd) as (e0 & e1 & rest & H1 & H2 & H3 & H4 & H5).
    exists e0, e1, rest. split_and!; try done. by destruct (HV _ H4) as [-> _].
  - intros d e Hd. destruct (HV d Hd) as [-> ->]. intros H1 H2 H3. destruct (E d e Hd H1 H2 H3) as (A & B & C). split_and!; try done. by destruct (HV _ A) as [-> _].
  - intros n Hn. rewrite (Hdd n Hn), (proj1 (Ht n n)). destruct (HV n Hn) as [-> _]. intros Hd Hr. destruct (O n Hn Hd Hr) as [A B]. split; [done|].
    specialize (Hok n Hn Hd). unfold hard in *. by destruct (HV _ Hok) as [-> ->].
  - intros n Hn. destruct (HV n Hn) as [-> ->]. by apply U.
  - destruct Q as [rank Q]. exists rank. intros n Hn. rewrite Hdd by done. destruct (HV n Hn) as [-> _]. by apply Q.
Qed.

Lemma ns_set_nlink x V n d : ns x V → inum_ok sb n →
  ns (λ m, x m + d * one n m) (upd_node n (mk_node (nd_type (V n)) (nd_nlink (V n) + d) (nd_ents (V n))) V).
Proof using Hsb.
  intros H Hn. apply (ns_same x _ V); [done| |].
  - intros m _. unfold upd_node. case_decide; [by subst|done].
  - intros m _ _. unfold upd_node, one. destruct (decide (m = n)), (decide (n = m)); subst; cbn; try lia; congruence.
Qed.

(** The dots of a directory. *)
Lemma dots_nonzero x V d : ns x V → inum_ok sb d → is_dnode (V d) →
  ∃ e0 e1 rest, nd_ents (V d) = e0 :: e1 :: rest ∧ de_inum e0 ≠ 0 ∧ de_inum e1 ≠ 0 ∧ named_ent DOT d e0 ∧ named_ent DOTDOT (dotdot (V d)) e1.
Proof.
  intros [R L D E O U Q] Hd Hdd. destruct (D d Hd Hdd) as (e0 & e1 & rest & H1 & H2 & H3 & H4 & _). exists e0, e1, rest.
  destruct H2 as [A B], H3 as [A' B']. unfold inum_ok in *. split_and!; try done; lia.
Qed.

(** The entries behind the dots, as far as names of files are concerned. *)
Lemma ns_rest x V d nl e0 e1 rest rest' : ns x V → inum_ok sb d → is_dnode (V d) → nd_nlink (V d) = nl → nd_ents (V d) = e0 :: e1 :: rest →
  (∀ e, e ∈ rest' → de_inum e ≠ 0 → e ∈ rest ∨ inum_ok sb (de_inum e) ∧ nd_type (V (de_inum e)) ≠ 0 ∧ ¬ is_dnode (V (de_inum e))) →
  (∀ n, inum_ok sb n → is_dnode (V n) → cnt n rest' = cnt n rest) → uniq (e0 :: e1 :: rest') →
  ns (λ n, x n - (cnt n rest' - cnt n rest)) (upd_node d (mk_node T_DIR nl (e0 :: e1 :: rest')) V).
Proof using Hsb.
  intros [R L D E O U Q] Hd Hdir Hnl Hents He Hc Hu. set (nd := mk_node T_DIR nl (e0 :: e1 :: rest')). set (V' := upd_node d nd V).
  assert (dotdot nd = dotdot (V d)) as Edd by (unfold dotdot; by rewrite Hents).
  assert (∀ n, nd_type (V' n) = nd_type (V n) ∧ dotdot (V' n) = dotdot (V n)) as Hsame.
  { intros n. unfold V', upd_node. case_decide; [|done]. subst. by rewrite Hdir. }
  assert (∀ n, total (up n) V' = total (up n) V) as Hup.
  { intros n. unfold V'. rewrite total_upd by done. unfold up. rewrite Edd, Hdir. cbn [nd_type nd]. lia. }
  assert (∀ n, hard n nd - hard n (V d) = cnt n rest' - cnt n rest) as Hh by (intros n; unfold hard; rewrite Hdir, Hents; done).
  assert (∀ n, total (hard n) V' = total (hard n) V + (cnt n rest' - cnt n rest)) as Hhard.
  { intros n. unfold V'. rewrite total_upd by done. specialize (Hh n). lia. }
  assert (∀ n, inum_ok sb n → is_dnode (V n) → inum_ok sb (dotdot (V n))) as Hok.
  { intros n Hn Hdn. by destruct (D n Hn Hdn) as (_ & _ & _ & _ & _ & _ & H & _). }
  split.
  - by destruct (Hsame ROOTINO) as [-> ->].
  - intros n Hn. destruct (Hsame n) as [-> _]. intros H0. rewrite Hup, Hhard. specialize (L n Hn H0).
    assert (nd_nlink (V' n) = nd_nlink (V n)) as -> by (unfold V', upd_node; case_decide; [by subst|done]). lia.
  - intros n Hn. destruct (Hsame n) as [-> ->]. intros Hdn. destruct (D n Hn Hdn) as (f0 & f1 & r & H1 & H2 & H3 & H4 & H5).
    destruct (Hsame (dotdot (V n))) as [-> _]. unfold V', upd_node. case_decide; [subst n|by exists f0, f1, r].
    rewrite Hents in H1. injection H1 as <- <- <-. exists e0, e1, rest'. by split_and!.
  - intros n e Hn. destruct (Hsame n) as [-> _]. intros Hdn Hin H0. destruct (Hsame (de_inum e)) as [-> _]. unfold V', upd_node in Hin. case_decide as En.
    + subst n. cbn in Hin. rewrite drop_0 in Hin. destruct (He e Hin H0) as [Hr|(A & B & C)].
      * apply (E d e Hd Hdn); [|done]. by rewrite Hents.
      * split_and!; try done. intros Er. rewrite Er in C. by apply C, R.
    + by apply (E n e Hn Hdn).
  - intros n Hn. destruct (Hsame n) as [-> ->]. intros Hdn Hr. destruct (O n Hn Hdn Hr) as [A B]. rewrite Hhard, (Hc n Hn Hdn). split; [lia|].
    unfold V', upd_node. case_decide as En; [|done]. rewrite En in B. specialize (Hh n). rewrite (Hc n Hn Hdn) in Hh. lia.
  - intros n Hn. destruct (Hsame n) as [-> _]. intros Hdn. unfold V', upd_node. case_decide; [done|by apply U].
  - destruct Q as [rank Q]. exists rank. intros n Hn. destruct (Hsame n) as [-> ->]. by apply Q.
Qed.

Lemma ns_add_entry x V d n e : ns x V → inum_ok sb d → is_dnode (V d) → inum_ok sb n → nd_type (V n) ≠ 0 → ¬ is_dnode (V n) → de_inum e = n →
  (∀ a, a ∈ nd_ents (V d) → de_inum a ≠ 0 → namecmp (de_name e) (de_name a) ≠ 0) →
  ns (λ m, x m - one n m) (upd_node d (mk_node T_DIR (nd_nlink (V d)) (link e (nd_ents (V d)))) V).
Proof using Hsb.
  intros H Hd Hdir Hn Hlive Hf He Hfresh. pose proof (uniq_link e _ (ns_uniq _ _ H d Hd Hdir) Hfresh) as Hu. destruct (dots_nonzero x V d H Hd Hdir) as (e0 & e1 & rest & Hents & H0 & H1 & _). rewrite Hents, link_dots in Hu by done. rewrite Hents, link_dots by done.
  assert (∀ m, inum_ok sb m → cnt m (link e rest) - cnt m rest = one n m) as Hc.
  { intros m Hm. rewrite cnt_link by (unfold inum_ok in Hm; lia). rewrite He. unfold one. destruct (Z.eqb_spec n m), (decide (n = m)); lia. }
  eapply ns_ext; [apply (ns_rest x V d _ e0 e1 rest (link e rest) H Hd Hdir eq_refl Hents)|done|].
  - intros e' He' Hz. apply elem_of_link in He' as [->|?]; [right|by left]. by rewrite He.
  - intros m Hm Hdm. specialize (Hc m Hm). unfold one in Hc. rewrite decide_False in Hc by (by intros ->). lia.
  - done.
  - intros m Hm. rewrite <-Hc by done. done.
Qed.

Lemma ns_del_entry x V d n k e : ns x V → inum_ok sb d → is_dnode (V d) → n ≠ 0 → ¬ is_dnode (V n) → nd_ents (V d) !! S (S k) = Some e → de_inum e = n →
  ns (λ m, x m + one n m) (upd_node d (mk_node T_DIR (nd_nlink (V d)) (<[S (S k) := no_dirent]> (nd_ents (V d)))) V).
Proof using Hsb.
  intros H Hd Hdir Hn Hf Hk He. pose proof (uniq_clear (S (S k)) _ (ns_uniq _ _ H d Hd Hdir)) as Hu.
  destruct (dots_nonzero x V d H Hd Hdir) as (e0 & e1 & rest & Hents & H0 & H1 & _).
  rewrite Hents in Hk, Hu. rewrite Hents. cbn in Hk |- *.
  assert (∀ m, inum_ok sb m → cnt m (<[k := no_dirent]> rest) - cnt m rest = - one n m) as Hc.
  { intros m Hm. rewrite (cnt_insert m k e) by done. rewrite He. change (de_inum no_dirent) with 0. unfold inum_ok, one in *.
    destruct (Z.eqb_spec n m), (decide (n = m)), (Z.eqb_spec 0 m); lia. }
  eapply ns_ext; [apply (ns_rest x V d _ e0 e1 rest (<[k := no_dirent]> rest) H Hd Hdir eq_refl Hents)|done|].
  - intros e' [j Hj]%list_elem_of_lookup Hz. left. apply list_lookup_insert_Some in Hj as [(_ & <- & _)|[_ Hj]]; [done|]. by eapply list_elem_of_lookup_2.
  - intros m Hm Hdm. specialize (Hc m Hm). unfold one in Hc. rewrite decide_False in Hc by (by intros ->). lia.
  - exact Hu.
  - intros m Hm. specialize (Hc m Hm). cbn beta. lia.
Qed.

Lemma hard_zero n V : total (hard n) V = 0 → ∀ d, inum_ok sb d → hard n (V d) = 0.
Proof. intros H d Hd. pose proof (total_elem (hard n) V d (hard_nonneg n) Hd). pose proof (hard_nonneg n (V d)). lia. Qed.

(** A name in a directory counts. *)
Lemma hard_pos n (V : Z → node) d e : is_dnode (V d) → e ∈ drop 2 (nd_ents (V d)) → de_inum e = n → 1 ≤ hard n (V d).
Proof. intros Hd He Hn. unfold hard. rewrite Hd. by eapply cnt_pos. Qed.

(** ".." leads to directories only. *)
Lemma no_up x V n : ns x V → ¬ is_dnode (V n) → total (up n) V = 0.
Proof.
  intros [R L D E O U Q] Hf. unfold total. rewrite (sum_with_ext _ (λ _, 0)); [apply sum_zero|]. intros m Hm%inums_elem. unfold up.
  destruct (Z.eqb_spec (nd_type (V m)) T_DIR) as [Hd|]; [|done]. destruct (Z.eqb_spec (dotdot (V m)) n) as [En|]; [|done].
  destruct (D m Hm Hd) as (_ & _ & _ & _ & _ & _ & _ & Hdd). by rewrite En in Hdd.
Qed.

(** Free inodes have no names. *)
Lemma no_names x V n : ns x V → inum_ok sb n → nd_type (V n) = 0 → total (hard n) V = 0.
Proof.
  intros [R L D E O U Q] Hn H0. unfold total. rewrite (sum_with_ext _ (λ _, 0)); [apply sum_zero|]. intros m Hm%inums_elem. unfold hard.
  destruct (Z.eqb_spec (nd_type (V m)) T_DIR) as [Hd|]; [|done]. apply cnt_zero, Forall_forall. intros e He En.
  assert (de_inum e ≠ 0) as Hz by (rewrite En; unfold inum_ok in Hn; lia). destruct (E m e Hm Hd He Hz) as (_ & B & _). by rewrite En in B.
Qed.

(** A file is allocated, or one without names is freed. *)
Lemma ns_plain x V n nd : ns x V → inum_ok sb n → ¬ is_dnode (V n) → ¬ is_dnode nd → (nd_type nd = 0 → total (hard n) V = 0) →
  ns (λ m, if decide (m = n) then nd_nlink nd - total (hard n) V else x m) (upd_node n nd V).
Proof using Hsb.
  intros H Hn Hf Hf' Hfree. pose proof H as [R L D E O U Q]. set (V' := upd_node n nd V).
  assert (∀ m, hard m nd = 0 ∧ up m nd = 0 ∧ hard m (V n) = 0 ∧ up m (V n) = 0) as Hz.
  { intros m. unfold hard, up. destruct (Z.eqb_spec (nd_type nd) T_DIR), (Z.eqb_spec (nd_type (V n)) T_DIR); done. }
  assert (∀ m, total (hard m) V' = total (hard m) V ∧ total (up m) V' = total (up m) V) as Ht.
  { intros m. unfold V'. rewrite !total_upd by done. destruct (Hz m) as (-> & -> & -> & ->). lia. }
  assert (∀ m, is_dnode (V' m) ↔ m ≠ n ∧ is_dnode (V m)) as Hdir.
  { intros m. unfold V', upd_node. case_decide; naive_solver. }
  assert (∀ m, m ≠ n → V' m = V m) as Hne by (intros m Hm; by apply upd_node_ne).
  assert (∀ m, inum_ok sb m → is_dnode (V m) → dotdot (V m) ≠ n) as Hdd.
  { intros m Hm Hd En. destruct (D m Hm Hd) as (_ & _ & _ & _ & _ & _ & _ & Hd2). by rewrite En in Hd2. }
  assert (ROOTINO ≠ n) as Hroot by (intros <-; by apply Hf, R).
  split.
  - by rewrite Hne.
  - intros m Hm. destruct (Ht m) as [-> ->]. case_decide as Em.
    + subst m. unfold V'. rewrite upd_node_eq, (no_up x V n H Hf). lia.
    + rewrite Hne by done. by apply L.
  - intros m Hm [Hmn Hd]%Hdir. rewrite Hne by done. rewrite (Hne (dotdot (V m))) by (by apply Hdd). by apply D.
  - intros d e Hd [Hdn Hdd']%Hdir. rewrite Hne by done. intros He H0. destruct (E d e Hd Hdd' He H0) as (A & B & C). split_and!; try done.
    unfold V', upd_node. case_decide as En; [|done]. intros Hty. specialize (Hfree Hty).
    pose proof (hard_pos n V d e Hdd' He En). pose proof (hard_zero n V Hfree d Hd). lia.
  - intros m Hm [Hmn Hd]%Hdir Hr. rewrite (proj1 (Ht m)), (Hne m) by done. rewrite Hne by (by apply Hdd). by apply O.
  - intros m Hm [Hmn Hd]%Hdir. rewrite Hne by done. by apply U.
  - destruct Q as [rank Q]. exists rank. intros m Hm [Hmn Hd]%Hdir Hr. rewrite Hne by done. by apply Q.
Qed.

(** *** Making and removing directories *)

Lemma drop2 {A} (a b : A) l : drop 2 (a :: b :: l) = l.
Proof. done. Qed.

Lemma uniq_dots n d e0 e1 : named_ent DOT n e0 → named_ent DOTDOT d e1 → uniq [e0; e1].
Proof.
  intros [_ N0] [_ N1] i j a b Hi Hj _ _ Hab.
  assert (namecmp (de_name e0) (de_name e1) ≠ 0) as Hne.
  { intros H. assert (namecmp DOT DOTDOT = 0) as Hd; [|vm_compute in Hd; done]. eapply namecmp_trans; [exact N0|]. eapply namecmp_trans; [exact H|]. by apply namecmp_sym. }
  destruct i as [|[|i]], j as [|[|j]]; cbn in Hi, Hj; simplify_eq; try done. exfalso. by apply Hne, namecmp_sym.
Qed.

Lemma ns_mkdir x V d n e e0 e1 nl : ns x V → inum_ok sb d → is_dnode (V d) → inum_ok sb n → nd_type (V n) = 0 → de_inum e = n →
  named_ent DOT n e0 → named_ent DOTDOT d e1 → (∀ a, a ∈ nd_ents (V d) → de_inum a ≠ 0 → namecmp (de_name e) (de_name a) ≠ 0) →
  ns (λ m, if decide (m = n) then nl - 1 else x m - one d m)
    (upd_node d (mk_node T_DIR (nd_nlink (V d)) (link e (nd_ents (V d)))) (upd_node n (mk_node T_DIR nl [e0; e1]) V)).
Proof using Hsb.
  intros H Hd Hdir Hn H0 He N0 N1 Hfresh. pose proof H as [R L D E O U Q]. pose proof (uniq_link e _ (U d Hd Hdir) Hfresh) as Hu. destruct (dots_nonzero x V d H Hd Hdir) as (f0 & f1 & rest & Hents & F0 & F1 & G0 & G1).
  rewrite Hents, link_dots in Hu by done. rewrite Hents, link_dots by done. set (nn := mk_node T_DIR nl [e0; e1]). set (nd := mk_node T_DIR _ _). set (V' := upd_node d nd (upd_node n nn V)).
  assert (d ≠ n) as Hdn by (intros ->; by rewrite Hdir in H0).
  assert (ROOTINO ≠ n) as Hroot by (intros <-; by rewrite (proj1 R) in H0).
  assert (V' d = nd) as Vd by apply upd_node_eq. assert (V' n = nn) as Vn by (unfold V'; rewrite upd_node_ne, upd_node_eq; done).
  assert (∀ m, m ≠ d → m ≠ n → V' m = V m) as Vo by (intros m ? ?; unfold V'; by rewrite !upd_node_ne).
  assert (dotdot nn = d) as En by (unfold dotdot; cbn; apply N1).
  assert (dotdot nd = dotdot (V d)) as Ed by (unfold dotdot; by rewrite Hents).
  assert (∀ m, hard m nn = 0 ∧ hard m (V n) = 0 ∧ up m (V n) = 0 ∧ up m nd = up m (V d)) as Hz.
  { intros m. unfold hard, up. rewrite H0, Ed, Hdir. done. }
  assert (∀ m, inum_ok sb m → total (hard m) V' = total (hard m) V + one n m ∧ total (up m) V' = total (up m) V + one d m) as Ht.
  { intros m Hm. unfold V'. rewrite !total_upd by done. rewrite (upd_node_ne n nn V d) by done. destruct (Hz m) as (-> & -> & -> & ->).
    assert (hard m nd = hard m (V d) + one n m) as ->.
    { unfold hard. rewrite Hdir, Hents. cbn [nd nd_type nd_ents]. rewrite Z.eqb_refl. rewrite !drop2. rewrite cnt_link by (unfold inum_ok in Hm; lia). rewrite He.
      unfold one. destruct (Z.eqb_spec n m), (decide (n = m)); lia. }
    unfold up at 2. rewrite En. cbn [nn nd_type]. rewrite Z.eqb_refl. cbn [andb]. unfold one. destruct (Z.eqb_spec d m), (decide (d = m)); lia. }
  assert (∀ m, is_dnode (V' m) → m = n ∨ m ≠ n ∧ is_dnode (V m)) as Hdirs.
  { intros m Hm. destruct (decide (m = n)); [by left|right]. split; [done|]. destruct (decide (m = d)) as [->|]; [done|]. by rewrite Vo in Hm. }
  assert (∀ m, m ≠ n → dotdot (V' m) = dotdot (V m)) as Hdd.
  { intros m Hm. destruct (decide (m = d)) as [->|]; [by rewrite Vd|by rewrite Vo]. }
  assert (∀ m, is_dnode (V m) → is_dnode (V' m) ∧ m ≠ n) as Hd'.
  { intros m Hm. assert (m ≠ n) by (intros ->; by rewrite Hm in H0). split; [|done]. destruct (decide (m = d)) as [->|]; [by rewrite Vd|by rewrite Vo]. }
  pose proof (no_up x V n H ltac:(by rewrite H0)) as Un. pose proof (no_names x V n H Hn H0) as Hnn.
  split.
  - rewrite Hdd by done. split; [apply Hd'|]; apply R.
  - intros m Hm Hty. destruct (Ht m Hm) as [-> ->]. case_decide as Em.
    + subst m. rewrite Vn, Un, Hnn. unfold one. rewrite decide_True, decide_False by done. cbn. lia.
    + unfold one at 1. rewrite decide_False by done. assert (nd_nlink (V' m) = nd_nlink (V m) ∧ nd_type (V m) ≠ 0) as [-> Hty'].
      { destruct (decide (m = d)) as [->|]; [rewrite Vd; by rewrite Hdir|]. by rewrite Vo in Hty |- *. }
      rewrite (L m Hm Hty'). lia.
  - intros m Hm [->|[Hmn Hd2]]%Hdirs.
    + rewrite Vn, En, Vd. exists e0, e1, []. by split_and!.
    + rewrite Hdd by done. destruct (D m Hm Hd2) as (g0 & g1 & r & A & B & C & F & G). destruct (Hd' _ G) as [G' _].
      destruct (decide (m = d)) as [->|]; [|rewrite Vo by done; by exists g0, g1, r]. rewrite Vd. exists f0, f1, (link e rest). by split_and!.
  - intros m e' Hm [->|[Hmn Hd2]]%Hdirs; [rewrite Vn; cbn; by intros ?%elem_of_nil|]. intros Hin Hz'.
    assert (e' = e ∨ e' ∈ drop 2 (nd_ents (V m))) as [->|Hin'].
    { destruct (decide (m = d)) as [->|]; [|right; by rewrite Vo in Hin]. rewrite Vd in Hin. cbn [nd nd_ents] in Hin. rewrite Hents. rewrite !drop2 in *.
      by apply elem_of_link. }
    + rewrite He, Vn. by split_and!.
    + destruct (E m e' Hm Hd2 Hin' Hz') as (A & B & C). split_and!; try done. destruct (decide (de_inum e' = n)) as [->|]; [by rewrite Vn|].
      destruct (decide (de_inum e' = d)) as [->|]; [by rewrite Vd|by rewrite Vo].
  - intros m Hm [->|[Hmn Hd2]]%Hdirs Hr.
    + destruct (Ht n Hn) as [-> _]. rewrite Hnn, Vn, En, Vd. unfold one. rewrite decide_True by done. split; [done|].
      unfold hard. cbn [nd nd_type nd_ents]. rewrite Z.eqb_refl. rewrite !drop2. rewrite cnt_link by (unfold inum_ok in Hn; lia). rewrite He, Z.eqb_refl.
      pose proof (hard_zero n V Hnn d Hd) as Hh. unfold hard in Hh. rewrite Hdir, Hents in Hh. rewrite drop2, Z.eqb_refl in Hh. lia.
    + destruct (O m Hm Hd2 Hr) as [A B]. destruct (Ht m Hm) as [-> _]. rewrite Hdd by done. unfold one. rewrite decide_False by done. split; [lia|].
      destruct (D m Hm Hd2) as (_ & _ & _ & _ & _ & _ & F & G). destruct (Hd' _ G) as [_ G'].
      destruct (decide (dotdot (V m) = d)) as [Ed2|]; [|by rewrite Vo]. rewrite Ed2 in B |- *. rewrite Vd. unfold hard in B |- *. rewrite Hdir, Hents in B.
      cbn [nd nd_type nd_ents]. rewrite Z.eqb_refl in B |- *. rewrite !drop2 in *. rewrite cnt_link by (unfold inum_ok in Hm; lia).
      rewrite He, (proj2 (Z.eqb_neq n m)) by done. lia.
  - intros m Hm [->|[Hmn Hd2]]%Hdirs; [rewrite Vn; by eapply uniq_dots|]. destruct (decide (m = d)) as [->|]; [by rewrite Vd|rewrite Vo by done; by apply U].
  - destruct Q as [rank Q]. exists (λ m, if decide (m = n) then S (rank d) else rank m). intros m Hm [->|[Hmn Hd2]]%Hdirs Hr.
    + rewrite Vn, En, decide_False, decide_True by done. lia.
    + rewrite Hdd by done. destruct (D m Hm Hd2) as (_ & _ & _ & _ & _ & _ & _ & G). destruct (Hd' _ G) as [_ G']. rewrite !decide_False by done. by apply Q.
Qed.

Lemma hard_two n V a b : inum_ok sb a → inum_ok sb b → a ≠ b → hard n (V a) + hard n (V b) ≤ total (hard n) V.
Proof.
  intros Ha Hb Hab. pose proof (total_upd (hard n) V a (mk_node 0 0 []) Ha) as H. change (hard n (mk_node 0 0 [])) with 0 in H.
  pose proof (total_elem (hard n) (upd_node a (mk_node 0 0 []) V) b (hard_nonneg n) Hb) as H2. rewrite upd_node_ne in H2 by done. lia.
Qed.

(** An empty directory has one link, from the directory above. *)
Lemma empty_dir x V d n e : ns x V → inum_ok sb d → is_dnode (V d) → inum_ok sb n → is_dnode (V n) → e ∈ drop 2 (nd_ents (V d)) → de_inum e = n →
  Forall (λ e, de_inum e = 0) (drop 2 (nd_ents (V n))) →
  n ≠ ROOTINO ∧ d ≠ n ∧ dotdot (V n) = d ∧ total (up n) V = 0 ∧ hard n (V d) = 1 ∧ total (hard n) V = 1 ∧ nd_nlink (V n) = 1 + x n.
Proof.
  intros [R L D E O U Q] Hd Hdir Hn Hdn He Ee Hempty. assert (n ≠ 0) as Hn0 by (unfold inum_ok in Hn; lia).
  assert (n ≠ ROOTINO) as Hroot by (destruct (E d e Hd Hdir He) as (_ & _ & ?); [by rewrite Ee|by rewrite <-Ee]).
  destruct (O n Hn Hdn Hroot) as [Ht Hh]. pose proof (hard_pos n V d e Hdir He Ee) as Hp.
  destruct (D n Hn Hdn) as (_ & _ & _ & _ & _ & _ & Hdd & _).
  assert (dotdot (V n) = d) as Edd.
  { destruct (decide (dotdot (V n) = d)); [done|]. pose proof (hard_two n V d (dotdot (V n)) Hd Hdd ltac:(done)). lia. }
  assert (total (up n) V = 0) as Hup.
  { unfold total. rewrite (sum_with_ext _ (λ _, 0)); [apply sum_zero|]. intros m Hm%inums_elem. unfold up.
    destruct (Z.eqb_spec (nd_type (V m)) T_DIR) as [Hmd|]; [|done]. destruct (Z.eqb_spec (dotdot (V m)) n) as [Em|]; [|done]. exfalso.
    destruct (decide (m = ROOTINO)) as [->|Hr]; [destruct R; congruence|]. destruct (O m Hm Hmd Hr) as [_ Hh2]. rewrite Em in Hh2. unfold hard in Hh2. rewrite Hdn in Hh2.
    rewrite Z.eqb_refl in Hh2. destruct (cnt_elem m (drop 2 (nd_ents (V n)))) as (e' & He' & Em'); [lia|]. rewrite Forall_forall in Hempty.
    rewrite (Hempty e' He') in Em'. unfold inum_ok in Hm. lia. }
  rewrite Edd in Hh. split_and!; try done.
  - intros ->. rewrite Forall_forall in Hempty. rewrite (Hempty e He) in Ee. lia.
  - rewrite L by (done || by rewrite Hdn). lia.
Qed.

Lemma ns_rmdir x V d n k e nd : ns x V → inum_ok sb d → is_dnode (V d) → inum_ok sb n → is_dnode (V n) → nd_ents (V d) !! S (S k) = Some e → de_inum e = n →
  Forall (λ e, de_inum e = 0) (drop 2 (nd_ents (V n))) → nd_type nd = 0 →
  ns (λ m, x m + one d m) (upd_node n nd (upd_node d (mk_node T_DIR (nd_nlink (V d)) (<[S (S k) := no_dirent]> (nd_ents (V d)))) V)).
Proof using Hsb.
  intros H Hd Hdir Hn Hdn Hk Ee Hempty Hty. destruct (dots_nonzero x V d H Hd Hdir) as (f0 & f1 & rest & Hents & F0 & F1 & G0 & G1).
  rewrite Hents in Hk. cbn in Hk. assert (e ∈ drop 2 (nd_ents (V d))) as He by (rewrite Hents, drop2; by eapply list_elem_of_lookup_2).
  destruct (empty_dir x V d n e H Hd Hdir Hn Hdn He Ee Hempty) as (Hroot & Hdn' & Edd & Un & Hh & Tn & _). pose proof H as [R L D E O U Q].
  rewrite Hents. change (<[S (S k) := no_dirent]> (f0 :: f1 :: rest)) with (f0 :: f1 :: <[k := no_dirent]> rest).
  set (nd' := mk_node T_DIR _ _). set (V' := upd_node n nd (upd_node d nd' V)).
  assert (V' n = nd) as Vn by apply upd_node_eq. assert (V' d = nd') as Vd by (unfold V'; rewrite upd_node_ne, upd_node_eq; done).
  assert (∀ m, m ≠ d → m ≠ n → V' m = V m) as Vo by (intros m ? ?; unfold V'; by rewrite !upd_node_ne).
  assert (dotdot nd' = dotdot (V d)) as Ed by (unfold dotdot; by rewrite Hents).
  assert (∀ m, inum_ok sb m → hard m nd' = hard m (V d) - one n m) as Hd'.
  { intros m Hm. unfold hard. rewrite Hdir, Hents. cbn [nd' nd_type nd_ents]. rewrite Z.eqb_refl, !drop2, (cnt_insert m k e) by done. rewrite Ee.
    change (de_inum no_dirent) with 0. unfold inum_ok, one in *. destruct (Z.eqb_spec n m), (decide (n = m)), (Z.eqb_spec 0 m); lia. }
  assert (∀ m, inum_ok sb m → total (hard m) V' = total (hard m) V - one n m ∧ total (up m) V' = total (up m) V - one d m) as Ht.
  { intros m Hm. unfold V'. rewrite !total_upd by done. rewrite (upd_node_ne d nd' V n), (Hd' m Hm) by done.
    assert (hard m nd = 0 ∧ up m nd = 0 ∧ up m nd' = up m (V d) ∧ up m (V n) = one d m) as (-> & -> & -> & ->).
    { unfold hard, up. rewrite Hty, Ed, Hdir, Hdn, Edd. cbn. split_and!; try done. unfold one. destruct (Z.eqb_spec d m), (decide (d = m)); lia. }
    assert (hard m (V n) = 0) as ->; [|lia]. unfold hard. rewrite Hdn, Z.eqb_refl. apply cnt_zero. eapply Forall_impl; [exact Hempty|]. cbn. unfold inum_ok in Hm. lia. }
  assert (∀ m, is_dnode (V' m) → m ≠ n ∧ is_dnode (V m) ∧ dotdot (V' m) = dotdot (V m)) as Hdirs.
  { intros m Hm. destruct (decide (m = n)) as [->|]; [by rewrite Vn, Hty in Hm|]. destruct (decide (m = d)) as [->|]; [by rewrite Vd|]. by rewrite Vo in Hm |- *. }
  assert (∀ m, inum_ok sb m → m ≠ n → is_dnode (V m) → dotdot (V m) ≠ n) as Hup.
  { intros m Hm Hmn Hmd Em. pose proof (total_elem (up n) V m (λ z, proj1 (up_range n z)) Hm) as Hle. unfold up at 1 in Hle. rewrite Hmd, Em, !Z.eqb_refl in Hle. cbn in Hle. lia. }
  assert (∀ m, m ≠ n → nd_type (V' m) = nd_type (V m)) as Hs.
  { intros m Hm. destruct (decide (m = d)) as [->|]; [by rewrite Vd, Hdir|by rewrite Vo]. }
  split.
  - destruct R as [R1 R2]. destruct (decide (ROOTINO = d)) as [E1|]; [|by rewrite Vo by congruence]. rewrite <-E1 in Vd, Ed. rewrite Vd, Ed. by split.
  - intros m Hm Hm0. assert (m ≠ n) as Hmn by (intros ->; by rewrite Vn, Hty in Hm0). destruct (Ht m Hm) as [-> ->]. rewrite (Hs m Hmn) in Hm0.
    assert (nd_nlink (V' m) = nd_nlink (V m)) as -> by (destruct (decide (m = d)) as [->|]; [by rewrite Vd|by rewrite Vo]).
    rewrite (L m Hm Hm0). assert (one n m = 0) as -> by (unfold one; rewrite decide_False by congruence; done). lia.
  - intros m Hm (Hmn & Hmd & ->)%Hdirs. destruct (D m Hm Hmd) as (g0 & g1 & r & A & B & C & F & G). rewrite (Hs (dotdot (V m))) by (by apply Hup).
    destruct (decide (m = d)) as [->|]; [|rewrite Vo by done; by exists g0, g1, r]. rewrite Vd. exists f0, f1, (<[k := no_dirent]> rest). by split_and!.
  - intros m e' Hm (Hmn & Hmd & _)%Hdirs Hin Hz.
    assert (e' ∈ drop 2 (nd_ents (V m)) ∧ de_inum e' ≠ n) as [Hin' Hne].
    { destruct (decide (m = d)) as [->|].
      - rewrite Vd in Hin. cbn [nd' nd_ents] in Hin. rewrite drop2 in Hin. rewrite Hents, drop2. split.
        + apply list_elem_of_lookup in Hin as [j Hj]. apply list_lookup_insert_Some in Hj as [(_ & <- & _)|[_ Hj]]; [done|]. by eapply list_elem_of_lookup_2.
        + intros En. pose proof (cnt_pos n _ e' Hin En) as Hc. specialize (Hd' n Hn). unfold one in Hd'. rewrite decide_True in Hd' by done. unfold hard in Hd' at 1.
          cbn [nd' nd_type nd_ents] in Hd'. rewrite Z.eqb_refl, drop2 in Hd'. lia.
      - rewrite Vo in Hin by done. split; [done|]. intros En. pose proof (hard_pos n V m e' Hmd Hin En). pose proof (hard_two n V m d Hm Hd ltac:(done)). lia. }
    destruct (E m e' Hm Hmd Hin' Hz) as (A & B & C). split_and!; try done. by rewrite Hs.
  - intros m Hm (Hmn & Hmd & ->)%Hdirs Hr. destruct (O m Hm Hmd Hr) as [A B]. destruct (Ht m Hm) as [-> _]. unfold one. rewrite decide_False by done. split; [lia|].
    destruct (decide (dotdot (V m) = d)) as [E1|]; [|rewrite Vo; [done|done|by apply Hup]]. rewrite E1 in B |- *. rewrite Vd, (Hd' m Hm). unfold one. rewrite decide_False by done. lia.
  - intros m Hm (Hmn & Hmd & _)%Hdirs. destruct (decide (m = d)) as [->|]; [rewrite Vd|rewrite Vo by done; by apply U].
    pose proof (uniq_clear (S (S k)) _ (U d Hd Hdir)) as Hu. by rewrite Hents in Hu.
  - destruct Q as [rank Q]. exists rank. intros m Hm (Hmn & Hmd & ->)%Hdirs. by apply Q.
Qed.

(** No directory is an entry of itself. *)
Lemma no_self x V d e : ns x V → inum_ok sb d → is_dnode (V d) → e ∈ drop 2 (nd_ents (V d)) → de_inum e ≠ d.
Proof.
  intros [R L D E O U Q] Hd Hdir He En. assert (de_inum e ≠ 0) as H0 by (rewrite En; unfold inum_ok in Hd; lia).
  destruct (E d e Hd Hdir He H0) as (_ & _ & Hroot). rewrite En in Hroot. destruct (O d Hd Hdir Hroot) as [Ht Hh].
  pose proof (hard_pos d V d e Hdir He En) as Hp. destruct (D d Hd Hdir) as (_ & _ & _ & _ & _ & _ & Hdd & _).
  assert (dotdot (V d) = d) as Eq.
  { destruct (decide (dotdot (V d) = d)); [done|]. pose proof (hard_two d V d (dotdot (V d)) Hd Hdd ltac:(done)). lia. }
  destruct Q as [rank Q]. specialize (Q d Hd Hdir Hroot). rewrite Eq in Q. lia.
Qed.

(** A name other than the dots is found behind them. *)
Lemma behind_dots x V d name k : ns x V → inum_ok sb d → is_dnode (V d) → dots name = false → find_index (names name) (nd_ents (V d)) = Some k →
  ∃ k' e, k = S (S k') ∧ nd_ents (V d) !! S (S k') = Some e ∧ e ∈ drop 2 (nd_ents (V d)) ∧ de_inum e ≠ 0 ∧ namecmp name (de_name e) = 0.
Proof.
  intros H Hd Hdir Hdots Hk. destruct (dots_nonzero x V d H Hd Hdir) as (e0 & e1 & rest & Hents & _ & _ & [_ N0] & [_ N1]).
  apply find_index_Some in Hk as [(e & He & Hn) _]. unfold names in Hn. apply andb_true_iff in Hn as [Hz Hn]. apply negb_true_iff, Z.eqb_neq in Hz. apply Z.eqb_eq in Hn.
  unfold dots in Hdots. apply orb_false_iff in Hdots as [D0 D1]. apply Z.eqb_neq in D0, D1. rewrite Hents in He |- *. destruct k as [|[|k]]; cbn in He.
  - injection He as <-. exfalso. apply D0. eapply namecmp_trans; [exact Hn|]. by apply namecmp_sym.
  - injection He as <-. exfalso. apply D1. eapply namecmp_trans; [exact Hn|]. by apply namecmp_sym.
  - exists k, e. rewrite drop2. split_and!; try done. by eapply list_elem_of_lookup_2.
Qed.

(** An inode with a name has a link. *)
Lemma named_nlink x V d e : ns x V → (∀ m, 0 ≤ x m) → inum_ok sb d → is_dnode (V d) → e ∈ drop 2 (nd_ents (V d)) → de_inum e ≠ 0 → 1 ≤ nd_nlink (V (de_inum e)).
Proof.
  intros [R L D E O U Q] Hx Hd Hdir He H0. destruct (E d e Hd Hdir He H0) as (A & B & _). rewrite (L _ A B). specialize (Hx (de_inum e)).
  pose proof (hard_pos (de_inum e) V d e Hdir He eq_refl). pose proof (total_elem (hard (de_inum e)) V d (hard_nonneg _) Hd).
  pose proof (total_nonneg (up (de_inum e)) V (λ nd, proj1 (up_range _ nd))). lia.
Qed.

End names.
