(* ===== verification/SysNames.v ===== *)
(** * The calls on names

    link() and unlink() keep the name space a tree with correct link counts
    ([ns]), put back every reference and lock they take, and do to the names what
    they promise.

    A call is followed through its steps by [doing]: relative to the state at its
    start, which references ([H]) and locks ([L]) it holds, and what the files
    are by now ([F]). *)

From stdpp Require Import list_numbers gmap.
From S2P Require Import Prelude Mem CString Xattr Fs FsInv FsFile FsNode FsIO FsFree FsOps FsShare FsRange FsSpec FsCache Dir Path File Sysfile Names.

(** The references held, by inode. *)
Definition hcount (H : list (nat * Z)) (n : Z) : Z := sum_with (λ h, one h.2 n) H.

Definition lock_all (L : list nat) (l : list bool) : list bool := foldr (λ ip l, <[ip := true]> l) l L.

Lemma one_nonneg n m : 0 ≤ one n m.
Proof. unfold one. case_decide; lia. Qed.

Lemma hcount_nonneg H n : 0 ≤ hcount H n.
Proof. apply sum_with_nonneg. intros h _. apply one_nonneg. Qed.

Lemma hcount_cons ip m H n : hcount ((ip, m) :: H) n = one m n + hcount H n.
Proof. done. Qed.

Lemma hcount_elem k m H : (k, m) ∈ H → 1 ≤ hcount H m.
Proof.
  intros Hk. pose proof (sum_with_elem_le (λ h, one h.2 m) H (k, m) ltac:(intros; apply one_nonneg) Hk) as E. cbn in E. by rewrite one_self in E.
Qed.

Lemma lock_all_length L l : length (lock_all L l) = length l.
Proof. induction L; cbn; rewrite ?length_insert; done. Qed.

Lemma lock_all_lookup L l ip b : l !! ip = Some b → lock_all L l !! ip = Some (if decide (ip ∈ L) then true else b).
Proof.
  intros Hl. assert (ip < length l)%nat as Hlt by (by eapply lookup_lt_Some).
  induction L as [|k L IH]; cbn [lock_all foldr]; [by rewrite decide_False by (by intros ?%elem_of_nil)|]. fold (lock_all L l).
  destruct (decide (ip = k)) as [->|Hne].
  - rewrite list_lookup_insert_eq by (by rewrite lock_all_length). by rewrite decide_True by (by left).
  - rewrite list_lookup_insert_ne by done. rewrite IH. f_equal. destruct (decide (ip ∈ L)).
    + by rewrite decide_True by (by right).
    + by rewrite decide_False by (by intros [|]%elem_of_cons).
Qed.

(** What an inode is to the name space. *)
Definition nodeof (a : afile) : node := mk_node (af_type a) (af_nlink a) (if af_type a =? T_DIR then dents a else []).

Lemma nodeof_agree a b : 0 ≤ af_size a ≤ MAXSIZE → agree a b → nodeof a = nodeof b.
Proof.
  intros Hs Ha. pose proof (dents_agree a b Hs Ha) as E. unfold nodeof. destruct Ha as (_ & -> & _ & _ & -> & _). by rewrite E.
Qed.

Section doing.
Context (sb : superblock) (Hsb : sb_wf sb) (s0 : fs).

Abbreviation good := (good sb).
Abbreviation abs := (abs sb).

(** The name space of the files [F] with references [R]; [x] as in [ns]. *)
Record tree (x : Z → Z) (F : Z → afile) (R : Z → Z) : Prop := {
  t_ns : ns sb x (λ n, nodeof (F n));
  t_whole : ∀ n, inum_ok sb n → is_dir (F n) → af_size (F n) `mod` DESZ = 0;
  t_anchored : ∀ n, inum_ok sb n → af_type (F n) ≠ 0 → af_nlink (F n) ≠ 0 ∨ 0 < R n;
}.

Lemma tree_files_agree x F F' R R' : tree x F R → (∀ n, inum_ok sb n → agree (F n) (F' n)) → (∀ n, inum_ok sb n → 0 ≤ af_size (F n) ≤ MAXSIZE) →
  (∀ n, R' n = R n) → tree x F' R'.
Proof using Hsb.
  intros [N W A] HF Hs HR. split.
  - eapply (ns_ext sb Hsb x x); [exact N| |done]. intros n Hn. symmetry. apply nodeof_agree; auto.
  - intros n Hn Hd. destruct (HF n Hn) as (_ & Et & _ & _ & _ & Es & _). rewrite <-Es. apply W; [done|]. unfold is_dir in *. congruence.
  - intros n Hn Ht. destruct (HF n Hn) as (_ & Et & _ & _ & En & _). rewrite HR, <-En. apply A; [done|congruence].
Qed.

(** [K] cache entries and [c] blocks at most were taken. *)
Record doing (s : fs) (H L : list (nat * Z)) (F : Z → afile) (K c : Z) : Prop := {
  a_good : good s;
  a_refs : ∀ n, nref s n = nref s0 n + hcount H n;
  a_locks : locks s = lock_all L.*1 (locks s0);
  a_ents : ∀ k m, entry k m s0 ∨ (k, m) ∈ H → entry k m s;
  a_slots : slots s0 - K ≤ slots s;
  a_free : nfree sb s0 - c ≤ nfree sb s;
  a_files : ∀ n, inum_ok sb n → agree (abs s n) (F n);
  a_valid : ∀ k m, (k, m) ∈ L → owns s k m;
}.

Lemma ilock_others ip s s' k : ilock sb ip s = Some s' → k ≠ ip → icache s' !! k = icache s !! k.
Proof.
  unfold ilock. intros E Hk. repeat case_match; simplify_eq; rewrite ?set_inode_lookup, ?decide_False by done; done.
Qed.

Lemma iget_owns m s ip s' k n : iget ROOTDEV m s = Some (ip, s') → owns s k n → owns s' k n.
Proof.
  unfold iget. intros E (i & Hi & Hr & Hv & Hn). unfold owns. repeat case_match; simplify_eq; rewrite set_inode_lookup; (case_decide; [|by exists i]); subst; rewrite Hi.
  - eexists. split; [done|]. cbn. split_and!; [lia|done|done].
  - match goal with H : find_index _ _ = Some ip |- _ => apply find_index_Some in H as [(j & Hj & Hz) _] end. apply Z.eqb_eq in Hz. simplify_eq. lia.
Qed.

Lemma owns_tags s s' k n : tags s' = tags s → owns s k n → owns s' k n.
Proof.
  intros E (i & Hi & Hr & Hv & Hn). unfold tags in E. apply (f_equal (λ l, l !! k)) in E. rewrite !list_lookup_fmap, Hi in E.
  destruct (icache s' !! k) as [i'|] eqn:Hi'; [|done]. cbn in E. unfold tag in E. injection E as _ E1 E2 _ E4. exists i'. rewrite E1, E2, E4. by split_and!.
Qed.

Context (Hg0 : good s0) (Hq : Forall (eq false) (locks s0)).

Lemma tree_dir x F R n : tree x F R → inum_ok sb n → is_dir (F n) → dir_ok sb F (F n).
Proof.
  intros [[Rt NL D E O U Q] W A] Hn Hd. split; [by apply W|]. intros e He H0.
  assert (is_dnode (nodeof (F n))) as Hdn by exact Hd. destruct (D n Hn Hdn) as (e0 & e1 & rest & H1 & [H2 _] & [H3 _] & H4 & H5).
  assert (nd_ents (nodeof (F n)) = dents (F n)) as Ev by (unfold nodeof; cbn; by rewrite Hd). rewrite <-Ev, H1 in He.
  apply elem_of_cons in He as [->|He]; [rewrite H2; split; [done|by rewrite Hd]|].
  apply elem_of_cons in He as [->|He]; [rewrite H3; split; [done|]; change (nd_type (nodeof (F (dotdot (nodeof (F n))))) ≠ 0); by rewrite H5|].
  destruct (E n e Hn Hdn) as (A1 & B1 & _); [by rewrite H1|done|]. by split.
Qed.

(** The files by now and those of the state. *)
Lemma doing_tree s H L F K c x : doing s H L F K c → tree x F (λ n, nref s0 n + hcount H n) → tree x (abs s) (nref s).
Proof using Hsb.
  intros [A B C D E G I V] Ht. eapply tree_files_agree; [exact Ht| | |done].
  - intros n Hn. symmetry. by apply I.
  - intros n Hn. destruct (I n Hn) as (_ & _ & _ & _ & _ & <- & _). by apply size_ok.
Qed.

Lemma doing_size s H L F K c n : doing s H L F K c → inum_ok sb n → 0 ≤ af_size (F n) ≤ MAXSIZE.
Proof. intros [A B C D E G I V] Hn. destruct (I n Hn) as (_ & _ & _ & _ & _ & <- & _). by apply (size_ok sb). Qed.

Lemma doing_dents s H L F K c n : doing s H L F K c → inum_ok sb n → dents (abs s n) = dents (F n).
Proof. intros [A B C D E G I V] Hn. apply dents_agree; [by apply size_ok|by apply I]. Qed.

(** A reference can be dropped without freeing the inode. *)
Lemma tree_kept x F H n : tree x F (λ n, nref s0 n + hcount H n) → inum_ok sb n → af_type (F n) ≠ 0 → 0 < nref s0 n + hcount H n ∨ af_nlink (F n) ≠ 0.
Proof. intros [_ _ A] Hn Ht. destruct (A n Hn Ht); auto. Qed.

Lemma doing_start : doing s0 [] [] (abs s0) 0 0.
Proof using Hg0.
  split; try done.
  - intros n. cbn. lia.
  - intros k m [?|?%elem_of_nil]; done.
  - lia.
  - lia.
  - by intros k m ?%elem_of_nil.
Qed.

(** A held entry is unlocked, if not in [L]. *)
Lemma doing_unlocked s H L F K c ip n : doing s H L F K c → entry ip n s → ip ∉ L.*1 → locks s !! ip = Some false.
Proof using Hq.
  intros [A B C D E G I V] (i & Hi & _) HL. destruct (lookup_lt_is_Some_2 (locks s) ip) as [b Hb].
  { unfold locks. rewrite length_fmap. by eapply lookup_lt_Some. }
  assert (∃ b0, locks s0 !! ip = Some b0) as [b0 Hb0].
  { apply lookup_lt_is_Some_2. apply lookup_lt_Some in Hb. rewrite C in Hb. by rewrite lock_all_length in Hb. }
  pose proof (Forall_lookup_1 _ _ _ _ Hq Hb0) as <-. rewrite C, (lock_all_lookup L.*1 _ ip false Hb0), decide_False by done. done.
Qed.

Lemma doing_locked s H L F K c ip n : doing s H L F K c → entry ip n s → ip ∈ L.*1 → locks s !! ip = Some true.
Proof using Hq.
  intros [A B C D E G I V] (i & Hi & _) HL. destruct (lookup_lt_is_Some_2 (locks s) ip) as [b Hb].
  { unfold locks. rewrite length_fmap. by eapply lookup_lt_Some. }
  assert (∃ b0, locks s0 !! ip = Some b0) as [b0 Hb0].
  { apply lookup_lt_is_Some_2. apply lookup_lt_Some in Hb. rewrite C in Hb. by rewrite lock_all_length in Hb. }
  by rewrite C, (lock_all_lookup L.*1 _ ip b0 Hb0), decide_True.
Qed.

(** ** Steps *)

Lemma entry_ok s k m : good s → entry k m s → inum_ok sb m.
Proof.
  intros [(P & Hin) _ _ _ _] (i & Hi & Hr & <-). exact (proj2 (c_entry sb s (v_cache _ _ _ _ Hin) k i Hi Hr)).
Qed.

Lemma doing_lock s H L F K c ip n : doing s H L F K c → entry ip n s → ip ∉ L.*1 → af_type (F n) ≠ 0 →
  ∃ s', ilock sb ip s = Some s' ∧ doing s' H ((ip, n) :: L) F K c ∧ owns s' ip n ∧ ∀ k m, entry k m s → entry k m s'.
Proof using Hsb Hq.
  intros Hd He HL Ht. pose proof (doing_unlocked s H L F K c ip n Hd He HL) as Hl. pose proof Hd as [A B C D E G I V].
  pose proof (entry_ok s ip n A He) as Hn. destruct (I n Hn) as (_ & Et & _).
  destruct (ilock_walk sb Hsb ip n s A He Hl ltac:(by rewrite Et)) as (s' & Es & A1 & B1 & C1 & D1 & E1 & O1 & N1 & En).
  exists s'. split_and!; try done; [|intros k m Hk; by apply En]. split; try done.
  - intros m. by rewrite C1.
  - by rewrite D1, C.
  - intros k m Hk. by apply En, D.
  - lia.
  - lia.
  - intros m Hm. etrans; [by apply B1|by apply I].
  - intros k m Hk. apply elem_of_cons in Hk as [[= -> ->]|Hk]; [done|]. destruct (V k m Hk) as (i & Hi & O). exists i.
    rewrite (ilock_others ip s s' k Es); [done|]. intros ->. apply HL. by eapply (list_elem_of_fmap_2 fst _ (ip, m)).
Qed.

(** The fields of the locked inode. *)
Lemma doing_din s H L F K c ip n : doing s H L F K c → owns s ip n → agree (file_of (din ip s) (content sb s n)) (F n) ∧ inum_ok sb n.
Proof. intros [A B C D E G I V] Ho. destruct (held_abs sb ip n s A Ho) as [Hn Ea]. split; [|done]. rewrite <-Ea. by apply I. Qed.

Lemma doing_unlock s H L F K c ip n : doing s H ((ip, n) :: L) F K c → entry ip n s → ip ∉ L.*1 →
  ∃ s', iunlock ip s = Some s' ∧ doing s' H L F K c ∧ owns s' ip n ∧ ∀ k m, entry k m s → entry k m s'.
Proof using Hsb Hq.
  intros Hd He HL. pose proof (doing_locked s H ((ip, n) :: L) F K c ip n Hd He ltac:(by left)) as Hl. pose proof Hd as [A B C D E G I V].
  destruct (iunlock_walk sb Hsb ip n s A He Hl) as (s' & Es & A1 & B1 & C1 & D1 & E1 & En & N1).
  assert (owns s' ip n) as Ho'.
  { destruct (V ip n ltac:(by left)) as (i & Hi & Hr & Hv & Hn). unfold iunlock in Es. case_match; [done|]. injection Es as <-. unfold owns.
    rewrite set_inode_lookup, decide_True, Hi by done. eexists. by split_and!. }
  exists s'. split_and!; try done; [|intros k m Hk; by apply En]. split; try done.
  - intros m. by rewrite C1.
  - rewrite D1, C. cbn [fmap list_fmap fst lock_all foldr]. rewrite list_insert_insert_eq. apply list_insert_id.
    assert (∃ b0, locks s0 !! ip = Some b0) as [b0 Hb0].
    { apply lookup_lt_is_Some_2. apply lookup_lt_Some in Hl. rewrite C in Hl. by rewrite lock_all_length in Hl. }
    pose proof (Forall_lookup_1 _ _ _ _ Hq Hb0) as <-. fold (lock_all L.*1 (locks s0)). by rewrite (lock_all_lookup L.*1 _ ip false Hb0), decide_False.
  - intros k m Hk. by apply En, D.
  - lia.
  - lia.
  - intros m Hm. etrans; [by apply B1|by apply I].
  - intros k m Hk. destruct (V k m ltac:(by right)) as (i & Hi & O). exists i. unfold iunlock in Es. case_match; [done|]. injection Es as <-.
    rewrite set_inode_lookup, decide_False; [done|]. intros ->. apply HL. by eapply (list_elem_of_fmap_2 fst _ (ip, m)).
Qed.

(** The references that stay keep their entries. *)
Lemma hcount_pos k m H : entry k m s0 ∨ (k, m) ∈ H → 0 < nref s0 m + hcount H m.
Proof using Hg0.
  pose proof (hcount_nonneg H m). intros [Hk|Hk]; [pose proof (entry_nref sb k m s0 Hg0 Hk); lia|].
  pose proof (hcount_elem k m H Hk). pose proof (nref_nonneg s0 m). lia.
Qed.

(** iput() of a reference that is not the last, or of a linked inode. *)
Lemma doing_put s H L F K c ip n : doing s ((ip, n) :: H) L F K c → ip ∉ L.*1 ∨ 0 < nref s0 n + hcount H n →
  0 < nref s0 n + hcount H n ∨ af_nlink (F n) ≠ 0 → ∃ s', iput sb ip s = Some s' ∧ doing s' H L F K c.
Proof using Hsb Hg0.
  intros [A B C D E G I V] HL Hk. assert (entry ip n s) as He by (apply D; right; by left). pose proof (entry_ok s ip n A He) as Hn.
  destruct (I n Hn) as (_ & _ & _ & _ & Enl & _). pose proof (B n) as Bn. rewrite hcount_cons, one_self in Bn.
  destruct (iput_walk sb Hsb ip n s A He) as (s' & Es & A1 & B1 & C1 & D1 & E1 & En & N1); [rewrite Enl; destruct Hk; [left; lia|by right]|].
  assert (∀ m, nref s' m = nref s0 m + hcount H m) as Hr by (intros m; rewrite C1, B, hcount_cons; lia).
  exists s'. split; [done|]. split; try done.
  - congruence.
  - intros k m Hkm. apply En; [apply D; destruct Hkm; [by left|by right; right]|]. rewrite Hr. by apply (hcount_pos k).
  - unfold none in E1. case_match; lia.
  - lia.
  - intros m Hm. etrans; [by apply B1|by apply I].
  - destruct He as (i & Hi & Hri & Ei). pose proof A as [(P & Hin) _ _ _ _]. pose proof (nref_entry sb s ip i (v_cache _ _ _ _ Hin) Hi Hri) as Hnr. rewrite Ei in Hnr.
    destruct (iput_kept sb Hsb s ip i A Hi Hri) as [Eq _]; [rewrite Ei, Enl; destruct Hk; [left; lia|by right]|]. rewrite Eq in Es. injection Es as <-.
    intros k m HkL. destruct (V k m HkL) as (j & Hj & Hrj & Hvj & Ej). unfold owns. rewrite set_inode_lookup. case_decide; [subst k|by exists j].
    rewrite Hj. eexists. split; [done|]. cbn. split_and!; try done. rewrite Hi in Hj. injection Hj as <-.
    destruct HL as [HL|HL]; [|lia]. exfalso. apply HL. by eapply (list_elem_of_fmap_2 fst _ (ip, m)).
Qed.

Lemma doing_unlockput s H L F K c ip n : doing s ((ip, n) :: H) ((ip, n) :: L) F K c → ip ∉ L.*1 → 0 < nref s0 n + hcount H n ∨ af_nlink (F n) ≠ 0 →
  ∃ s', iunlockput sb ip s = Some s' ∧ doing s' H L F K c.
Proof using Hsb Hg0 Hq.
  intros Hd HL Hk. destruct (doing_unlock s _ L F K c ip n Hd) as (s1 & E1 & H1 & _ & _); [apply (a_ents _ _ _ _ _ _ Hd); right; by left|done|].
  destruct (doing_put s1 H L F K c ip n H1 (or_introl HL) Hk) as (s2 & E2 & H2). exists s2. unfold iunlockput. rewrite E1. by split.
Qed.

(** The files with one replaced. *)
Definition updf (n : Z) (a : afile) (F : Z → afile) (m : Z) : afile := if decide (m = n) then a else F m.

(** The last reference to an inode without links goes. *)
Lemma doing_put_last s H L F K c ip n : doing s ((ip, n) :: H) L F K c → ip ∉ L.*1 → nref s0 n + hcount H n = 0 → af_nlink (F n) = 0 → af_type (F n) ≠ 0 → owns s ip n →
  ∃ s', iput sb ip s = Some s' ∧ doing s' H L (updf n (freed (F n)) F) K c.
Proof using Hsb Hg0 Hq.
  intros Hd HL Hr0 Hnl Ht Ho. pose proof Hd as [A B C D E G I V]. assert (entry ip n s) as He by (apply D; right; by left).
  pose proof (doing_unlocked s _ L F K c ip n Hd He HL) as Hlk. destruct (doing_din s _ L F K c ip n Hd Ho) as [Ha Hn].
  destruct Ho as (i & Hi & Hr & Hv & Ei). assert (i_locked i = false) as Hil.
  { unfold locks in Hlk. rewrite list_lookup_fmap, Hi in Hlk. cbn in Hlk. by injection Hlk. }
  pose proof A as [(P & Hin) _ _ _ _]. pose proof (nref_entry sb s ip i (v_cache _ _ _ _ Hin) Hi Hr) as Hnr.
  rewrite Ei, B, hcount_cons, one_self in Hnr.
  assert (last_ref i = true) as Hlast.
  { unfold last_ref. rewrite Hv. destruct Ha as (_ & _ & _ & _ & Enl & _). unfold din in Enl. rewrite (inode_at_entry _ _ _ Hi) in Enl. cbn in Enl.
    rewrite Enl, Hnl. replace (i_ref i) with 1 by lia. done. }
  destruct (iput_spec sb Hsb ip s i A Hi Hr (λ _, Hil)) as (s' & Es & A1 & N1 & (D1 & i' & Hi' & Hr' & Hn' & Hl') & C1 & F1).
  rewrite Ei in C1, F1. assert (∀ m, nref s' m = nref s0 m + hcount H m) as Hrs by (intros m; rewrite C1, B, hcount_cons; lia).
  exists s'. split; [done|]. split; try done.
  - rewrite <-C. apply list_eq. intros k. unfold locks. rewrite !list_lookup_fmap. destruct (decide (k = ip)) as [->|]; [|by rewrite D1]. rewrite Hi, Hi'. cbn. by rewrite Hl'.
  - intros k m Hkm. pose proof (hcount_pos k m H Hkm) as Hp. assert (entry k m s) as (j & Hj & Hrj & Hm) by (apply D; destruct Hkm; [by left|by right; right]).
    exists j. rewrite D1; [done|]. intros ->. rewrite Hi in Hj. injection Hj as <-. rewrite <-Hm, Ei in Hp. lia.
  - assert (slots s ≤ slots s'); [|lia]. unfold slots. clear -D1 Hi Hi' Hr Hr'.
    assert (icache s' = <[ip := i']> (icache s)) as ->.
    { apply list_eq. intros k. destruct (decide (k = ip)) as [->|]; [rewrite Hi', list_lookup_insert_eq; [done|by eapply lookup_lt_Some]|]. by rewrite list_lookup_insert_ne, D1. }
    rewrite (sum_with_insert _ _ _ i) by done. unfold free_entry. rewrite (proj2 (Z.eqb_neq (i_ref i) 0)) by lia. case_match; lia.
  - lia.
  - intros m Hm. etrans; [by apply F1|]. rewrite Hlast. unfold updf. destruct (decide (m = n)) as [->|Em].
    + rewrite decide_True by done. destruct (I n Hm) as (E1 & E2 & E3 & E4 & E5 & E6 & E7). unfold freed, agree. cbn. by split_and!.
    + rewrite decide_False by (by intros [? _]). by apply I.
  - intros k m Hk. destruct (V k m Hk) as (j & Hj & O). exists j. rewrite D1; [done|]. intros ->. apply HL. by eapply (list_elem_of_fmap_2 fst _ (ip, m)).
Qed.

Lemma doing_files s H L F F' K c : doing s H L F K c → (∀ n, inum_ok sb n → agree (F n) (F' n)) → doing s H L F' K c.
Proof. intros [A B C D E G I V] HF. split; try done. intros n Hn. etrans; [by apply I|by apply HF]. Qed.

(** A change of files that leaves the cache entries alone. *)
Lemma doing_tags s s' H L F F' K c c' : doing s H L F K c → good s' → tags s' = tags s → nfree sb s - c' ≤ nfree sb s' →
  (∀ n, inum_ok sb n → agree (abs s' n) (F' n)) → doing s' H L F' K (c + c').
Proof.
  intros [A B C D E G I V] Hg Ht Hf HF. split; try done.
  - intros n. by rewrite (nref_tags _ _ n Ht).
  - by rewrite (locks_tags _ _ Ht).
  - intros k m Hk. apply (entry_tags k m s s' Ht). by apply D.
  - by rewrite (slots_tags _ _ Ht).
  - lia.
  - intros k m Hk. by apply (owns_tags s s' k m Ht), V.
Qed.

(** Fields of a locked inode are changed and written back. *)
Lemma doing_update s H L F K c ip n f : doing s H L F K c → owns s ip n → (dinode_ok (din ip s) → dinode_ok (f (din ip s))) →
  d_addrs (f (din ip s)) = d_addrs (din ip s) → d_type (f (din ip s)) = d_type (din ip s) → d_size (f (din ip s)) = d_size (din ip s) →
  doing (iupdate sb ip (set_din ip f s)) H L (updf n (file_of (f (din ip s)) (af_data (F n))) F) K c.
Proof using Hsb.
  intros Hd Ho Hok Ha Ht Hs. pose proof Hd as [A B C D E G I V]. pose proof A as [(P & Hin) Hcl _ _ _].
  assert (inum_at ip s = n) as En by (destruct Ho as (i & Hi & _ & _ & <-); unfold inum_at; by rewrite (inode_at_entry _ _ _ Hi)).
  destruct (finish_spec sb Hsb ip n f s s P Hin Ho (touches_refl sb ip s) Hok Ha) as (Hi' & Hsv & Hsf & Hnf). set (s' := iupdate _ _ _) in *.
  assert (acts sb ip n s s' (f (din ip s)) (content sb s n)) as Hact.
  { split_and!; [by exists P|done|]. intros m o Hm Hoo. rewrite Hsf by done. by case_decide; subst. }
  assert (held ip s) as Hh by (unfold held; by rewrite En). rewrite <-En in Hact.
  destruct (acts_good sb ip s s' _ _ A Hh Hact Ht) as [Hg' Hab]; [rewrite Hs; by apply (held_size sb)|]. rewrite En in Hab.
  replace c with (c + 0) by lia. apply (doing_tags s s' H L F _ K c 0 Hd Hg').
  - by apply (saves_tags sb ip n s s' (f (din ip s))).
  - lia.
  - intros m Hm. etrans; [by apply Hab|]. unfold updf. case_decide; [|by apply I]. subst m.
    destruct (doing_din s H L F K c ip n Hd Ho) as [(_ & _ & _ & _ & _ & _ & Hda) _]. unfold agree. cbn in *. by split_and!.
Qed.

Definition relink (d : Z) (a : afile) : afile :=
  mk_afile (af_mode a) (af_type a) (af_major a) (af_minor a) (af_nlink a + d) (af_size a) (af_data a).

Lemma i16_small z : -2 ^ 15 ≤ z < 2 ^ 15 → i16 z = z.
Proof. intros H. unfold i16. rewrite Z.mod_small by lia. lia. Qed.

Lemma doing_nlink s H L F K c ip n d : doing s H L F K c → owns s ip n → -2 ^ 15 ≤ af_nlink (F n) + d < 2 ^ 15 →
  doing (add_nlink sb ip d s) H L (updf n (relink d (F n)) F) K c.
Proof using Hsb.
  intros Hd Ho Hr. destruct (doing_din s H L F K c ip n Hd Ho) as [(E1 & E2 & E3 & E4 & E5 & E6 & E7) Hn]. cbn in *.
  eapply doing_files; [apply (doing_update s H L F K c ip n _ Hd Ho); try done|].
  - intros [? ? ? ? ? ? ? ?]. split; try done. cbn. rewrite E5, i16_small; lia.
  - intros m Hm. unfold updf. case_decide; [|done]. subst m. unfold agree. cbn. rewrite E5, i16_small by lia. by split_and!.
Qed.

(** Paths. *)
Lemma resolve_agree x F s H L K c : doing s H L F K c → tree x F (λ n, nref s0 n + hcount H n) → ∀ parent es n, inum_ok sb n →
  resolve (abs s) parent n es = resolve F parent n es.
Proof.
  intros Hd Ht parent es. pose proof Hd as [A B C D E G I V]. induction es as [|e es IH]; intros n Hn; [done|]. cbn [resolve].
  destruct (I n Hn) as (_ & -> & _). rewrite (doing_dents s H L F K c n Hd Hn). destruct (Z.eqb_spec (af_type (F n)) T_DIR) as [Hdir|]; [|done].
  destruct (parent && _); [done|]. destruct (dlookup (dents (F n)) e) as [m|] eqn:El; [|done]. cbn [mbind option_bind]. apply IH.
  pose proof (tree_dir x F _ n Ht Hn Hdir) as Hok. unfold dlookup in El. apply bind_Some in El as (k & Hk & El). apply fmap_Some in El as (e' & He & ->).
  destruct (dlookup_found _ _ _ _ Hk He) as (_ & H0 & Hin). by apply (do_live _ _ _ Hok).
Qed.

Lemma doing_namex x s H F K c cwd cd path parent name : doing s H [] F K c → tree x F (λ n, nref s0 n + hcount H n) → 2 ≤ slots s → entry cwd cd s → af_type (F cd) ≠ 0 →
  Forall (λ c, c ≠ 0) path → length name = DIRSIZ →
  ∃ r name' s', namex sb cwd path parent name s = Some (r, name', s') ∧ length name' = DIRSIZ ∧
    match resolve F parent (if bool_decide (head path = Some SLASH) then ROOTINO else cd) (elements path) with
    | None => r = None ∧ doing s' H [] F K c
    | Some m => ∃ ip, r = Some ip ∧ doing s' ((ip, m) :: H) [] F (K + 1) c ∧ inum_ok sb m ∧ af_type (F m) ≠ 0
    end ∧ (∀ k m, entry k m s → entry k m s') ∧
    (Forall is_byte path → Forall is_byte name → Forall is_byte name') ∧
    (parent = true → r ≠ None → ∃ e, last (elements path) = Some e ∧ namecmp name' e = 0).
Proof using Hsb Hg0 Hq.
  intros Hd Ht0 Hs Hc Hct Hz Hl. pose proof Hd as [A B C D E G I V]. pose proof (doing_tree s H [] F K c x Hd Ht0) as Ht.
  assert (Forall (eq false) (locks s)) as Hlk by (by rewrite C).
  assert (af_type (abs s ROOTINO) ≠ 0) as Hroot by (destruct Ht as [[[R1 _] _ _ _ _ _ _] _ _]; cbn [nodeof nd_type] in R1; by rewrite R1).
  assert (af_type (abs s cd) ≠ 0) as Hct' by (destruct (I cd (entry_ok s cwd cd A Hc)) as (_ & -> & _); done).
  pose proof (resolve_agree x F s H [] K c Hd Ht0 parent (elements path) (if bool_decide (head path = Some SLASH) then ROOTINO else cd)) as Hres.
  rewrite <-Hres by (case_match; [apply (root_ok sb Hsb)|by eapply entry_ok]).
  destruct (namex_spec sb Hsb s A (t_anchored _ _ _ Ht) Hlk Hs (λ n Hn Hdn, tree_dir x (abs s) (nref s) n Ht Hn Hdn) cwd cd path parent name (root_ok sb Hsb) Hroot Hc Hct' Hz Hl)
    as (r & name' & s' & En & Hl' & Hre & Hb & Hlast).
  exists r, name', s'. split; [done|]. split; [done|]. unfold reached in Hre.
  assert (parent = true → r ≠ None → ∃ e, last (elements path) = Some e ∧ namecmp name' e = 0) as HL.
  { intros Hp Hrn. destruct (Hlast Hp Hrn) as (e & He & Hf). exists e. split; [done|]. by apply namecmp_zero. }
  destruct (resolve _ _ _ _) as [m|].
  - destruct Hre as (ip & -> & [W1 W2 W3 W4 W5 W6 W7 W8] & Hm & Hmt). split_and!; try done. exists ip. split; [done|]. split_and!; [|done|by destruct (I m Hm) as (_ & <- & _)]. split; try done.
    + intros n. rewrite W3, B, hcount_cons. lia.
    + by rewrite W4.
    + intros k j [Hk|Hk]; [apply W7, D; by left|]. apply elem_of_cons in Hk as [[= -> ->]|Hk]; [done|apply W7, D; by right].
    + unfold none in W5. case_match; lia.
    + lia.
    + intros n Hn. etrans; [by apply W2|by apply I].
    + by intros k j ?%elem_of_nil.
  - destruct Hre as (-> & [W1 W2 W3 W4 W5 W6 W7]). split_and!; try done. split; try done.
    + intros n. by rewrite W3.
    + by rewrite W4.
    + intros k j Hk. by apply W6, D.
    + lia.
    + lia.
    + intros n Hn. etrans; [by apply W2|by apply I].
    + by intros k j ?%elem_of_nil.
Qed.

Lemma doing_iget s H L F K c m : doing s H L F K c → inum_ok sb m → 0 < slots s →
  ∃ ip s', iget ROOTDEV m s = Some (ip, s') ∧ doing s' ((ip, m) :: H) L F (K + 1) c ∧ (∀ k n, owns s k n → owns s' k n) ∧ (∀ k n, entry k n s → entry k n s').
Proof using Hsb.
  intros Hd Hm Hs. pose proof Hd as [A B C D E G I V]. destruct (iget_walk sb Hsb m s A Hm Hs) as (ip & s' & Eg & A1 & B1 & C1 & D1 & E1 & F1 & En & N1).
  exists ip, s'. split_and!; try done; [|intros k n Hk; by eapply iget_owns]. split; try done.
  - intros n. rewrite C1, B, hcount_cons. lia.
  - by rewrite D1.
  - intros j n [Hj|Hj]; [apply En, D; by left|]. apply elem_of_cons in Hj as [[= -> ->]|Hj]; [done|apply En, D; by right].
  - unfold none in E1. case_match; lia.
  - lia.
  - intros n Hnn. etrans; [by apply B1|by apply I].
  - intros j n Hj. by eapply iget_owns, V.
Qed.

(** Looking up a name in a locked directory. *)
Lemma doing_dirlookup s H L F K c dp d name : doing s H L F K c → dir_ok sb F (F d) → owns s dp d → is_dir (F d) → 0 < slots s →
  match find_index (names name) (dents (F d)) with
  | None => dirlookup dp name s = Some (None, s)
  | Some k => ∃ e ip s', dents (F d) !! k = Some e ∧ dirlookup dp name s = Some (Some (DESZ * Z.of_nat k, ip), s') ∧ inum_ok sb (de_inum e) ∧
      af_type (F (de_inum e)) ≠ 0 ∧ doing s' ((ip, de_inum e) :: H) L F (K + 1) c ∧ owns s' dp d ∧ ∀ k m, entry k m s → entry k m s'
  end.
Proof using Hsb.
  intros Hd Hok Ho Hdir Hs. pose proof Hd as [A B C D E G I V]. destruct (held_abs sb dp d s A Ho) as [Hn Ea].
  pose proof (do_whole _ _ _ Hok) as Hw. pose proof (doing_dents s H L F K c d Hd Hn) as Eds.
  destruct (doing_din s H L F K c dp d Hd Ho) as [(_ & Et & _ & _ & _ & Es & _) _]. cbn in Et, Es. unfold is_dir in Hdir.
  rewrite (dirlookup_spec sb s dp d name A Ho) by congruence. rewrite Eds.
  destruct (find_index (names name) (dents (F d))) as [k|] eqn:Ek; [|done].
  destruct (lookup_lt_is_Some_2 _ k (find_index_lt _ _ _ Ek)) as [e He]. rewrite He. destruct (dlookup_found _ _ _ _ Ek He) as (_ & H0 & Hin).
  destruct (do_live _ _ _ Hok e Hin H0) as [Hm Hmt]. destruct (doing_iget s H L F K c (de_inum e) Hd Hm Hs) as (ip & s' & -> & H1 & H2 & H3).
  cbn [mbind option_bind]. exists e, ip, s'. split_and!; try done. by apply H2.
Qed.

(** A new entry in a locked directory. *)
Definition linked_dir (name : list Z) (n : Z) (a a' : afile) : Prop :=
  af_type a' = T_DIR ∧ af_nlink a' = af_nlink a ∧ dents a' = link (new_dirent name n) (dents a) ∧
  af_size a' `mod` DESZ = 0 ∧ 0 ≤ af_size a' ≤ MAXSIZE ∧ af_size a' ≤ af_size a + DESZ.

Lemma inum_short n : inum_ok sb n → 0 < n < 2 ^ 16.
Proof using Hsb. destruct Hsb. unfold inum_ok. lia. Qed.

Lemma held_pos s H L F K c k m n : doing s H L F K c → L ⊆ H → k ∈ L.*1 → entry k m s → (k, n) ∈ L → n = m.
Proof. intros Hd HLH Hk (i & Hi & _ & <-) Hin. destruct (a_valid _ _ _ _ _ _ Hd k n Hin) as (j & Hj & _ & _ & <-). congruence. Qed.

Lemma doing_dirlink s H L F K c dp d name inum : doing s H L F K c → (∀ n, inum_ok sb n → af_type (F n) ≠ 0 → af_nlink (F n) ≠ 0 ∨ 0 < nref s0 n + hcount H n) → dir_ok sb F (F d) →
  owns s dp d → is_dir (F d) → L ⊆ H → Forall is_byte name → inum_ok sb inum → 0 < slots s → 4 ≤ nfree sb s → af_size (F d) + DESZ ≤ MAXSIZE →
  ∃ r s', dirlink sb dp name inum s = Some (r, s') ∧
    match dlookup (dents (F d)) name with
    | Some _ => r = -1 ∧ doing s' H L F (K + 1) c
    | None => r = 0 ∧ ∃ a, doing s' H L (updf d a F) K (c + 4) ∧ linked_dir name inum (F d) a
    end.
Proof using Hsb Hg0.
  intros Hd Han Hok Ho Hdir HLH Hb Hi Hs Hf Hsz. pose proof Hd as [A B C D E G I V]. destruct (held_abs sb dp d s A Ho) as [Hn Ea].
  assert (anchored sb s) as Hans.
  { intros n Hnn. rewrite B. destruct (I n Hnn) as (_ & -> & _ & _ & -> & _). by apply Han. }
  pose proof (doing_dents s H L F K c d Hd Hn) as Eds. destruct (I d Hn) as (_ & Et & _ & _ & Enl & Es & _).
  assert (is_dir (abs s d)) as Hdir' by (unfold is_dir in *; congruence).
  assert (dir_ok sb (abs s) (abs s d)) as Hok'.
  { destruct Hok as [O1 O2]. split; [by rewrite Es|]. intros e He H0. rewrite Eds in He. destruct (O2 e He H0) as [P1 P2]. split; [done|]. by destruct (I _ P1) as (_ & -> & _). }
  pose proof (dirlink_spec sb Hsb dp d name inum s A Hans Ho Hdir' Hok' Hb (inum_short inum Hi)) as Hdl.
  destruct (dirlink sb dp name inum s) as [[r s']|] eqn:El.
  2: { exfalso. destruct Hdl as [Hfull|[Hlow|Hlow]]; [|lia|rewrite Es in Hlow; lia]. unfold cache_full in Hfull. assert (slots s = 0); [|lia].
       unfold slots. rewrite (sum_with_ext _ (λ _, 0)); [apply sum_zero|]. intros i Hin. unfold free_entry. by rewrite (proj2 (Z.eqb_neq _ _)) by (by apply Hfull). }
  exists r, s'. split; [done|]. destruct Hdl as (Hg' & _ & Hoth & Hcase). rewrite Eds in Hcase. destruct (dlookup (dents (F d)) name) as [m|] eqn:Edl.
  - destruct Hcase as [-> _]. split; [done|]. pose proof (doing_dirlookup s H L F K c dp d name Hd Hok Ho Hdir Hs) as Hfind. unfold dlookup in Edl.
    destruct (find_index (names name) (dents (F d))) as [k|]; [|done]. destruct Hfind as (e & ip & s1 & He & Hdlk & Hm & Hmt & H1 & _ & _).
    cbn in Edl. rewrite He in Edl. injection Edl as <-. unfold dirlink in El. rewrite Hdlk in El. cbn [mbind option_bind] in El.
    destruct (doing_put s1 H L F (K + 1) c ip (de_inum e) H1) as (s2 & E2 & H2).
    + destruct (decide (ip ∈ L.*1)) as [Hin|]; [right|by left]. apply list_elem_of_fmap in Hin as ([ip' n] & -> & Hin).
      assert (n = de_inum e) as ->; [|pose proof (hcount_elem ip' (de_inum e) H (HLH _ Hin)); pose proof (nref_nonneg s0 (de_inum e)); lia].
      apply (held_pos s1 _ L F (K + 1) c ip' (de_inum e) n H1); [by intros ? ?; right; apply HLH|by eapply (list_elem_of_fmap_2 fst _ (ip', n))| |done].
      apply (a_ents _ _ _ _ _ _ H1). right. by left.
    + destruct (Han (de_inum e) Hm Hmt); auto.
    + rewrite E2 in El. cbn [mbind option_bind] in El. by injection El as <-.
  - destruct Hcase as (-> & Htag & Hde & Hty & Hnl & Hsize & Hfree). split; [done|]. exists (abs s' d). split.
    + apply (doing_tags s s' H L F _ K c 4 Hd Hg' Htag); [lia|]. intros n Hnn. unfold updf. case_decide; [by subst|]. etrans; [by apply Hoth|by apply I].
    + pose proof (slot_le (dents (F d))) as Hsl. pose proof (do_whole _ _ _ Hok) as Hw. rewrite Es in Hsize.
      assert (Z.of_nat (length (dents (F d))) = af_size (F d) / DESZ) as Hlen.
      { unfold dents. rewrite length_fmap, length_seqZ, Z2Nat.id; [done|]. apply Z.div_pos; [|done]. rewrite <-Es. by apply (size_ok sb). }
      split_and!; try done; try congruence.
      * rewrite Hsize. destruct (Z.max_spec (af_size (F d)) (DESZ * Z.of_nat (slot (dents (F d))) + DESZ)) as [[_ ->]|[_ ->]]; [|done].
        rewrite Z.mul_comm, <-Z.mul_succ_l. by apply Z.mod_mul.
      * by apply (size_ok sb).
      * by apply (size_ok sb).
      * rewrite Hsize. unfold DESZ in *. Z.to_euclidean_division_equations; lia.
Qed.

(** ** The tree along the steps *)

Lemma tree_ext x x' F R : tree x F R → (∀ n, inum_ok sb n → x' n = x n) → tree x' F R.
Proof using Hsb. intros [N W A] Hx. split; try done. by eapply ns_ext. Qed.

Lemma tree_refs x F R R' : tree x F R → (∀ n, inum_ok sb n → af_type (F n) ≠ 0 → af_nlink (F n) = 0 → 0 < R' n) → tree x F R'.
Proof. intros [N W A] HR. split; try done. intros n Hn Ht. destruct (decide (af_nlink (F n) = 0)); [right; by apply HR|by left]. Qed.

Lemma tree_dir_nlink x F R d : tree x F R → inum_ok sb d → is_dir (F d) → 1 + x d ≤ af_nlink (F d) ≤ sb_ninodes sb + x d.
Proof using Hsb.
  intros [N W A] Hd Hdir. split.
  - exact (dir_nlink sb Hsb x _ d N Hd Hdir).
  - exact (dir_nlink_max sb Hsb x _ d N Hd Hdir).
Qed.

Lemma tree_nlink x F R n : tree x F R → inum_ok sb n → af_type (F n) ≠ 0 → x n ≤ af_nlink (F n).
Proof.
  intros [[Rt NL D E O U Q] W A] Hn Ht. pose proof (NL n Hn Ht) as H. cbn [nodeof nd_nlink] in H. rewrite H.
  pose proof (total_nonneg sb (hard n) (λ m, nodeof (F m)) (hard_nonneg n)). pose proof (total_nonneg sb (up n) (λ m, nodeof (F m)) (λ nd, proj1 (up_range n nd))). lia.
Qed.

Lemma tree_relink x F R n d : tree x F R → inum_ok sb n → (af_type (F n) ≠ 0 → af_nlink (F n) + d ≠ 0 ∨ 0 < R n) →
  tree (λ m, x m + d * one n m) (updf n (relink d (F n)) F) R.
Proof using Hsb.
  intros [N W A] Hn HR. split.
  - eapply (ns_ext sb Hsb); [apply (ns_set_nlink sb Hsb x _ n d N Hn)| |done]. intros m _. unfold updf, upd_node. by case_decide.
  - intros m Hm. unfold updf. case_decide; [subst; apply W; done|by apply W].
  - intros m Hm. unfold updf. case_decide; [subst; apply HR|by apply A].
Qed.

Lemma nodeof_linked name n a a' : is_dir a → linked_dir name n a a' → nodeof a' = mk_node T_DIR (af_nlink a) (link (new_dirent name n) (dents a)).
Proof. intros Hd (E1 & E2 & E3 & _). unfold nodeof. by rewrite E1, E2, E3. Qed.

Lemma nodeof_dir a : is_dir a → nodeof a = mk_node T_DIR (af_nlink a) (dents a).
Proof. intros Hd. unfold nodeof. by rewrite Hd. Qed.

Lemma stored_name name n : namecmp (de_name (new_dirent name n)) name = 0.
Proof.
  rewrite namecmp_zero. cbn [new_dirent de_name]. apply field_ext_below. intros i Hi. by apply str_stored.
Qed.

Lemma fresh_name l name n : dlookup l name = None → ∀ a, a ∈ l → de_inum a ≠ 0 → namecmp (de_name (new_dirent name n)) (de_name a) ≠ 0.
Proof.
  intros Hl a Ha H0 Hn. unfold dlookup in Hl. destruct (find_index (names name) l) as [k|] eqn:Ek.
  { destruct (lookup_lt_is_Some_2 l k (find_index_lt _ _ _ Ek)) as [e He]. cbn in Hl. by rewrite He in Hl. }
  pose proof (find_index_None _ _ Ek a Ha) as Hf. unfold names in Hf. rewrite (proj2 (Z.eqb_neq _ _) H0) in Hf. cbn [negb andb] in Hf. apply Z.eqb_neq in Hf.
  apply Hf. eapply namecmp_trans; [|exact Hn]. apply namecmp_sym, stored_name.
Qed.

Lemma tree_add_entry x F R d n name a : tree x F R → inum_ok sb d → is_dir (F d) → inum_ok sb n → af_type (F n) ≠ 0 → ¬ is_dir (F n) →
  dlookup (dents (F d)) name = None → linked_dir name n (F d) a → tree (λ m, x m - one n m) (updf d a F) R.
Proof using Hsb.
  intros [N W A] Hd Hdir Hn Ht Hf Hfresh Ha. pose proof Ha as (E1 & E2 & E3 & E4 & _). split.
  - eapply (ns_ext sb Hsb); [apply (ns_add_entry sb Hsb x _ d n (new_dirent name n) N Hd Hdir Hn Ht Hf eq_refl)| |done].
    { rewrite (nodeof_dir (F d)) by done. by apply fresh_name. }
    intros m _. unfold updf, upd_node. case_decide; [|done]. by rewrite (nodeof_linked name n (F d) a), (nodeof_dir (F d)).
  - intros m Hm. unfold updf. case_decide; [done|by apply W].
  - intros m Hm. unfold updf. case_decide; [subst; rewrite E2; intros _; apply A; [done|by rewrite Hdir]|by apply A].
Qed.

Lemma resolve_same F F' : (∀ n, af_type (F' n) = af_type (F n) ∧ dents (F' n) = dents (F n)) → ∀ parent es n, resolve F' parent n es = resolve F parent n es.
Proof.
  intros H parent es. induction es as [|e es IH]; intros n; [done|]. cbn [resolve]. destruct (H n) as [-> ->]. case_match; [|done]. case_match; [done|].
  destruct (dlookup (dents (F n)) e); [|done]. cbn [mbind option_bind]. apply IH.
Qed.

Lemma resolve_parent F es n d : resolve F true n es = Some d → is_dir (F d).
Proof.
  revert n. induction es as [|e es IH]; intros n; [done|]. cbn [resolve]. destruct (Z.eqb_spec (af_type (F n)) T_DIR) as [Hd|]; [|done].
  cbn [andb]. case_match; [by intros [= <-]|]. destruct (dlookup _ e); [|done]. apply IH.
Qed.

Lemma doing_end_op s H L F K c : doing s H L F K c → doing (end_op s) H L F K c.
Proof. intros [A B C D E G I V]. split; try done. by apply good_end_op. Qed.

Lemma entry_at s k m : good s → entry k m s → i_dev (inode_at k s) = ROOTDEV ∧ i_inum (inode_at k s) = m.
Proof.
  intros [(P & Hin) _ _ _ _] (i & Hi & Hr & <-). rewrite (inode_at_entry _ _ _ Hi). split; [|done].
  exact (proj1 (c_entry sb s (v_cache _ _ _ _ Hin) k i Hi Hr)).
Qed.

(** ** Removing entries *)

Lemma lock_all_perm L L' l : L ≡ₚ L' → lock_all L l = lock_all L' l.
Proof.
  induction 1 as [|x L L' _ IH|x y L|L1 L2 L3 _ IH1 _ IH2]; [done|cbn; by f_equal| |by etrans].
  cbn [lock_all foldr]. destruct (decide (x = y)) as [->|Hne]; [done|]. by rewrite list_insert_insert_ne.
Qed.

Lemma doing_perm s H H' L L' F K c : doing s H L F K c → H ≡ₚ H' → L ≡ₚ L' → doing s H' L' F K c.
Proof.
  intros [A B C D E G I V] PH PL. split; try done.
  - intros n. rewrite B. f_equal. by apply sum_with_perm.
  - rewrite C. apply lock_all_perm. by rewrite PL.
  - intros k m Hk. apply D. by rewrite PH.
  - intros k m Hk. apply V. by rewrite PL.
Qed.

(** One entry of a locked directory is overwritten. *)
Definition changed_dir (k : nat) (e : dirent) (a a' : afile) : Prop :=
  af_type a' = T_DIR ∧ af_nlink a' = af_nlink a ∧ dents a' = <[k := e]> (dents a) ∧ af_size a' = af_size a.

Lemma doing_write_dirent s H L F K c dp d k e : doing s H L F K c → owns s dp d → is_dir (F d) → af_size (F d) `mod` DESZ = 0 → (k < length (dents (F d)))%nat →
  length (encode_dirent e) = Z.to_nat DESZ → Forall is_byte (encode_dirent e) → 0 ≤ de_inum e < 2 ^ 16 → 4 ≤ nfree sb s →
  ∃ s' a, write_dirent sb dp (DESZ * Z.of_nat k) e s = Some s' ∧ doing s' H L (updf d a F) K (c + 4) ∧ changed_dir k e (F d) a.
Proof using Hsb.
  intros Hd Ho Hdir Hw Hk Hl Hb He Hf. pose proof Hd as [A B C D E G I V]. destruct (doing_din s H L F K c dp d Hd Ho) as [(_ & Et & _ & _ & Enl & Es & _) Hn].
  cbn [file_of af_type af_nlink af_size] in Et, Enl, Es. pose proof (doing_dents s H L F K c d Hd Hn) as Eds.
  pose proof (write_entry sb Hsb dp d k e s A Ho ltac:(by rewrite Es) Hl Hb He ltac:(rewrite Eds; lia)) as W. unfold write_dirent.
  destruct (writei sb dp (kernel_src (encode_dirent e)) (DESZ * Z.of_nat k) DESZ s) as [[r s']|]; [|lia]. cbn [mbind option_bind].
  assert (Z.of_nat (length (dents (F d))) = af_size (F d) / DESZ) as Hlen.
  { unfold dents. rewrite length_fmap, length_seqZ, Z2Nat.id; [done|]. apply Z.div_pos; [|done]. by apply (doing_size s H L F K c). }
  pose proof (doing_size s H L F K c d Hd Hn) as Hsz. assert (DESZ * Z.of_nat k + DESZ ≤ af_size (F d)) as Hin by (unfold DESZ in *; Z.to_euclidean_division_equations; lia).
  rewrite (proj2 (Z.leb_le _ _)) in W by lia. destruct W as (-> & Hg' & Htag & Hoth & Hde & Hfree & dd & Eabs & Hm & Hsize). rewrite Z.eqb_refl.
  exists s', (abs s' d). split; [done|]. split.
  - apply (doing_tags s s' H L F _ K c 4 Hd Hg' Htag); [lia|]. intros n Hnn. unfold updf. case_decide; [by subst|]. etrans; [by apply Hoth|by apply I].
  - destruct Hm as (_ & Hm1 & _ & _ & Hm2). rewrite Eds in Hde. unfold put_entry in Hde. rewrite decide_True in Hde by done. split_and!; [| |done|].
    + rewrite Eabs. cbn. unfold is_dir in Hdir. congruence.
    + rewrite Eabs. cbn [file_of af_nlink]. rewrite Hm2. done.
    + rewrite Eabs. cbn [file_of af_size]. rewrite Hsize. lia.
Qed.

(** isdirempty() looks at the entries behind the dots. *)
Lemma isdirempty_loop_spec s dp d fuel k : good s → owns s dp d → d_size (din dp s) `mod` DESZ = 0 → (length (dents (abs s d)) - k < fuel)%nat →
  isdirempty_loop fuel dp (DESZ * Z.of_nat k) s = Some (forallb (λ e, de_inum e =? 0) (drop k (dents (abs s d)))).
Proof.
  intros Hg Ho Hw. revert k. induction fuel as [|fuel IH]; intros k Hf; [lia|]. cbn [isdirempty_loop]. rewrite (in_dir sb s dp d Hg Ho Hw k).
  destruct (decide (k < length (dents (abs s d)))%nat) as [Hlt|Hge].
  - rewrite bool_decide_eq_true_2 by done. destruct (lookup_lt_is_Some_2 _ k Hlt) as [e He]. rewrite (read_dirent_spec sb s dp d Hg Ho Hw k e He). cbn [mbind option_bind].
    rewrite (drop_S _ e k He). cbn [forallb]. destruct (de_inum e =? 0); [|done]. cbn [negb andb].
    replace (DESZ * Z.of_nat k + DESZ) with (DESZ * Z.of_nat (S k)) by lia. apply IH. lia.
  - rewrite bool_decide_eq_false_2 by done. by rewrite drop_ge by lia.
Qed.

Lemma doing_isdirempty s H L F K c dp d : doing s H L F K c → owns s dp d → af_size (F d) `mod` DESZ = 0 →
  isdirempty dp s = Some (forallb (λ e, de_inum e =? 0) (drop 2 (dents (F d)))).
Proof.
  intros Hd Ho Hw. destruct (doing_din s H L F K c dp d Hd Ho) as [(_ & _ & _ & _ & _ & Es & _) Hn]. cbn [file_of af_size] in Es. rewrite <-Es in Hw.
  pose proof (a_good _ _ _ _ _ _ Hd) as Hg. unfold isdirempty. change (2 * DESZ) with (DESZ * Z.of_nat 2).
  rewrite (isdirempty_loop_spec s dp d _ 2 Hg Ho Hw (dturns_enough sb s dp d Hg Ho Hw 2)). by rewrite (doing_dents s H L F K c d Hd Hn).
Qed.

Lemma nodeof_changed k e a a' : is_dir a → changed_dir k e a a' → nodeof a' = mk_node T_DIR (af_nlink a) (<[k := e]> (dents a)).
Proof. intros Hd (E1 & E2 & E3 & _). unfold nodeof. by rewrite E1, E2, E3. Qed.

Lemma tree_del_entry x F R d n k e a : tree x F R → inum_ok sb d → is_dir (F d) → n ≠ 0 → ¬ is_dir (F n) → dents (F d) !! S (S k) = Some e → de_inum e = n →
  changed_dir (S (S k)) no_dirent (F d) a → tree (λ m, x m + one n m) (updf d a F) R.
Proof using Hsb.
  intros [N W A] Hd Hdir Hn Hf Hk He Ha. pose proof Ha as (E1 & E2 & E3 & E4). pose proof (nodeof_dir (F d) Hdir) as End. split.
  - eapply (ns_ext sb Hsb); [apply (ns_del_entry sb Hsb x _ d n k e N Hd Hdir Hn Hf)| |done]; [by rewrite End|done|].
    intros m _. unfold updf, upd_node. case_decide; [|done]. by rewrite (nodeof_changed (S (S k)) no_dirent (F d) a), End.
  - intros m Hm. unfold updf. case_decide; [subst; rewrite E4; intros _; by apply W|by apply W].
  - intros m Hm. unfold updf. case_decide; [subst; rewrite E2; intros _; apply A; [done|by rewrite Hdir]|by apply A].
Qed.

(** A file without names is freed. *)
Lemma tree_free x F R n a : tree x F R → inum_ok sb n → ¬ is_dir (F n) → af_type (F n) ≠ 0 → af_nlink (F n) = 0 → (∀ m, 0 ≤ x m) → af_type a = 0 →
  tree x (updf n a F) R.
Proof using Hsb.
  intros [N W A] Hn Hf Ht Hnl Hx Ha. assert (total sb (hard n) (λ m, nodeof (F m)) = 0) as Hz.
  { pose proof (ns_nlink sb x _ N n Hn Ht) as H. cbn [nodeof nd_nlink] in H. specialize (Hx n).
    pose proof (total_nonneg sb (hard n) (λ m, nodeof (F m)) (hard_nonneg n)). pose proof (total_nonneg sb (up n) (λ m, nodeof (F m)) (λ nd, proj1 (up_range n nd))). lia. }
  split.
  - apply (ns_same sb Hsb (λ m, if decide (m = n) then nd_nlink (nodeof a) - total sb (hard n) (λ m, nodeof (F m)) else x m) x (upd_node n (nodeof a) (λ m, nodeof (F m)))).
    + apply (ns_plain sb Hsb x _ n (nodeof a) N Hn Hf); [cbn; by rewrite Ha|by intros _].
    + intros m _. unfold updf, upd_node. by case_decide.
    + intros m _. unfold updf, upd_node. case_decide; [|done]. cbn. by rewrite Ha.
  - intros m Hm. unfold updf, is_dir. case_decide; [by rewrite Ha|by apply W].
  - intros m Hm. unfold updf. case_decide; [by rewrite Ha|by apply A].
Qed.

(** An empty directory is removed. *)
Lemma tree_rmdir x F R d n k e a a' : tree x F R → inum_ok sb d → is_dir (F d) → inum_ok sb n → is_dir (F n) → dents (F d) !! S (S k) = Some e → de_inum e = n →
  Forall (λ e, de_inum e = 0) (drop 2 (dents (F n))) → changed_dir (S (S k)) no_dirent (F d) a → af_type a' = 0 →
  tree (λ m, x m + one d m) (updf n a' (updf d a F)) R.
Proof using Hsb.
  intros [N W A] Hd Hdir Hn Hdn Hk He Hempty Ha Ha'. pose proof Ha as (E1 & E2 & E3 & E4). pose proof (nodeof_dir (F d) Hdir) as End. pose proof (nodeof_dir (F n) Hdn) as Enn. split.
  - eapply (ns_ext sb Hsb); [apply (ns_rmdir sb Hsb x _ d n k e (nodeof a') N Hd Hdir Hn Hdn)| |done]; [by rewrite End|done|by rewrite Enn|done|].
    intros m _. unfold updf, upd_node. case_decide; [done|]. case_decide; [|done]. by rewrite (nodeof_changed (S (S k)) no_dirent (F d) a), End.
  - intros m Hm. unfold updf, is_dir. case_decide; [by rewrite Ha'|]. case_decide; [subst; rewrite E4; intros _; by apply W|by apply W].
  - intros m Hm. unfold updf. case_decide; [by rewrite Ha'|]. case_decide; [subst; rewrite E2; intros _; apply A; [done|by rewrite Hdir]|by apply A].
Qed.

End doing.

Section calls.
Context (sb : superblock) (Hsb : sb_wf sb) (cwd : nat) (nm : list Z).

Abbreviation good := (good sb).
Abbreviation abs := (abs sb).
Abbreviation tree := (tree sb).

(** What the calls on names start from: a tree of names, no lock held, a current
    directory, and room: cache entries, blocks, space in directories, link
    counts below the largest [short]. *)
Record ready (s : fs) (cd : Z) : Prop := {
  r_good : good s;
  r_tree : tree zero (abs s) (nref s);
  r_quiet : Forall (eq false) (locks s);
  r_slots : 4 ≤ slots s;
  r_free : 12 ≤ nfree sb s;
  r_dirs : ∀ d, inum_ok sb d → is_dir (abs s d) → af_size (abs s d) + DESZ ≤ MAXSIZE;
  r_links : ∀ n, inum_ok sb n → af_nlink (abs s n) < 2 ^ 15 - 1;
  r_cwd : entry cwd cd s;
  r_cwd_dir : is_dir (abs s cd);
}.

(** The buffer for a name. *)
Definition name_buf (nm : list Z) : Prop := length nm = DIRSIZ ∧ Forall is_byte nm.

(** A path argument. *)
Definition path_ok (path : list Z) : Prop := Forall (λ c, 0 < c < 256) path.

Lemma path_bytes path : path_ok path → Forall (λ c, c ≠ 0) path ∧ Forall is_byte path.
Proof. intros H. split; (eapply Forall_impl; [exact H|]); cbn; unfold is_byte; lia. Qed.

Definition start (cd : Z) (path : list Z) : Z := if bool_decide (head path = Some SLASH) then ROOTINO else cd.

Section one.
Context (s0 : fs) (cd : Z) (Hr : ready s0 cd).

Abbreviation doing := (doing sb s0).
Abbreviation F0 := (abs s0).
Abbreviation refs H := (λ n, nref s0 n + hcount H n).

Lemma more_refs x F H : tree x F (nref s0) → tree x F (refs H).
Proof using Type.
  intros Ht. eapply tree_refs; [exact Ht|]. intros n Hn Hty H0. pose proof (hcount_nonneg H n). destruct (t_anchored _ _ _ _ Ht n Hn Hty); [done|]. lia.
Qed.

Lemma kept0 n : inum_ok sb n → af_type (F0 n) ≠ 0 → 0 < nref s0 n + hcount [] n ∨ af_nlink (F0 n) ≠ 0.
Proof using Hr. intros Hn Ht. apply (tree_kept sb s0 zero F0 [] n); [apply more_refs, Hr|done|done]. Qed.

(** The link that could not be made is taken back. *)
Lemma link_bad_spec s ip n K c : doing s [(ip, n)] [] (updf n (relink 1 (F0 n)) F0) K c → inum_ok sb n → af_type (F0 n) ≠ 0 →
  ∃ s', link_bad sb ip s = Some (-1, s') ∧ doing s' [] [] F0 K c.
Proof using Hsb Hr.
  intros Hd Hn Ht. pose proof Hr as [Rg Rt Rq _ _ _ Rl _ _]. unfold link_bad.
  destruct (doing_lock sb Hsb s0 Rq s _ [] _ K c ip n Hd) as (s1 & -> & H1 & O1 & _); [apply (a_ents _ _ _ _ _ _ _ _ Hd); right; by left|by intros ?%elem_of_nil|unfold updf; by rewrite decide_True|].
  cbn [mbind option_bind]. pose proof (tree_nlink sb zero F0 (nref s0) n Rt Hn Ht) as Hnl. unfold zero in Hnl. specialize (Rl n Hn).
  assert (af_nlink (updf n (relink 1 (F0 n)) F0 n) = af_nlink (F0 n) + 1) as Enl by (unfold updf; by rewrite decide_True).
  pose proof (doing_nlink sb Hsb s0 s1 _ _ _ K c ip n (-1) H1 O1 ltac:(rewrite Enl; lia)) as H2.
  eapply (doing_files _ _ _ _ _ _ F0) in H2.
  2: { intros m Hm. unfold updf. case_decide; [|done]. subst m. rewrite decide_True by done. unfold agree. cbn. split_and!; try done. lia. }
  destruct (doing_unlockput sb Hsb s0 Rg Rq _ [] [] F0 K c ip n H2 ltac:(by intros ?%elem_of_nil) (kept0 n Hn Ht)) as (s3 & -> & H3).
  cbn [mbind option_bind]. exists (end_op s3). split; [done|]. by apply doing_end_op.
Qed.

Context (Hbuf : name_buf nm).

(** The entry that link() makes, if any: directory, name and inode. *)
Definition link_target (F : Z → afile) (old new : list Z) : option (Z * list Z * Z) :=
  n ← resolve F false (start cd old) (elements old);
  if af_type (F n) =? T_DIR then None
  else
    d ← resolve F true (start cd new) (elements new);
    e ← last (elements new);
    if dlookup (dents (F d)) e then None else Some (d, e, n).

(** From the second path on. *)
Lemma link_second s ip n new K c : doing s [(ip, n)] [] (updf n (relink 1 (F0 n)) F0) K c → path_ok new → inum_ok sb n → af_type (F0 n) ≠ 0 → ¬ is_dir (F0 n) →
  K ≤ 1 → c = 0 →
  ∃ r s' F' K' c', ('(r, name, s) ← nameiparent sb cwd new nm s;
        match r with
        | None => link_bad sb ip s
        | Some dp =>
            s ← ilock sb dp s;
            '(failed, s) ← (if negb (i_dev (inode_at dp s) =? i_dev (inode_at ip s)) then Some (true, s)
                            else '(r, s) ← dirlink sb dp name (i_inum (inode_at ip s)) s; Some (r <? 0, s));
            s ← iunlockput sb dp s;
            if failed : bool then link_bad sb ip s
            else s ← iput sb ip s; Some (0, end_op s)
        end) = Some (r, s') ∧ doing s' [] [] F' K' c' ∧
    match d ← resolve F0 true (start cd new) (elements new); e ← last (elements new); if dlookup (dents (F0 d)) e then None else Some (d, e) with
    | None => r = -1 ∧ ∀ m, inum_ok sb m → agree (F0 m) (F' m)
    | Some (d, e) => r = 0 ∧ d ≠ n ∧ inum_ok sb d ∧ is_dir (F0 d) ∧ dlookup (dents (F0 d)) e = None ∧ ∃ name a, namecmp name e = 0 ∧ linked_dir name n (F0 d) a ∧ ∀ m, F' m = updf d a (updf n (relink 1 (F0 n)) F0) m
    end.
Proof using Hsb Hr Hbuf.
  intros Hd Hp Hn Ht Hf HK Hc. destruct Hbuf as [Hnm Hnmb]. pose proof Hr as [Rg Rt Rq Rs Rf Rd Rl Rc Rcd]. destruct (path_bytes new Hp) as [Hz Hb].
  pose proof (tree_nlink sb zero F0 (nref s0) n Rt Hn Ht) as Hnl. unfold zero in Hnl. set (F1 := updf n (relink 1 (F0 n)) F0) in *.
  assert (tree (λ m, zero m + 1 * one n m) F1 (refs [(ip, n)])) as Ht1.
  { apply (tree_relink sb Hsb zero F0 (refs [(ip, n)]) n 1); [by apply more_refs|done|intros _; left; lia]. }
  assert (∀ m, af_type (F1 m) = af_type (F0 m) ∧ dents (F1 m) = dents (F0 m)) as Hsame by (intros m; unfold F1, updf; case_decide; by subst).
  unfold nameiparent.
  destruct (doing_namex sb Hsb s0 Rg Rq _ s _ F1 K c cwd cd new true nm Hd Ht1) as (r & name & s1 & -> & _ & Hre & En & Hbn & Hlast).
  { pose proof (a_slots _ _ _ _ _ _ _ _ Hd). lia. }
  { apply (a_ents _ _ _ _ _ _ _ _ Hd). by left. }
  { destruct (Hsame cd) as [-> _]. by rewrite Rcd. }
  { done. }
  { done. }
  cbn [mbind option_bind]. fold (start cd new) in Hre. rewrite (resolve_same F0 F1 Hsame) in Hre.
  destruct (resolve F0 true (start cd new) (elements new)) as [d|] eqn:Ed; cbn [mbind option_bind].
  2: { destruct Hre as [-> H1]. destruct (link_bad_spec s1 ip n K c H1 Hn Ht) as (s' & E & H2). exists (-1), s', F0, K, c. by split_and!. }
  destruct Hre as (dp & -> & H1 & Hdok & Hdt). destruct (Hlast eq_refl ltac:(done)) as (e & He & Hne). rewrite He. cbn [mbind option_bind].
  assert (is_dir (F0 d)) as Hdir by (by eapply resolve_parent). assert (d ≠ n) as Hdn by (intros ->; done).
  assert (is_dir (F1 d)) as Hdir1 by (unfold is_dir; by destruct (Hsame d) as [-> _]).
  destruct (doing_lock sb Hsb s0 Rq s1 _ [] F1 _ c dp d H1) as (s2 & -> & H2 & O2 & _); [apply (a_ents _ _ _ _ _ _ _ _ H1); right; by left|by intros ?%elem_of_nil|done|].
  cbn [mbind option_bind].
  destruct (entry_at sb s2 dp d (a_good _ _ _ _ _ _ _ _ H2)) as [-> _]; [apply (a_ents _ _ _ _ _ _ _ _ H2); right; by left|].
  destruct (entry_at sb s2 ip n (a_good _ _ _ _ _ _ _ _ H2)) as [-> ->]; [apply (a_ents _ _ _ _ _ _ _ _ H2); right; by right; left|]. cbn [negb Z.eqb ROOTDEV Pos.eqb].
  assert (tree (λ m, zero m + 1 * one n m) F1 (refs [(dp, d); (ip, n)])) as Ht2.
  { apply (tree_relink sb Hsb zero F0 (refs _) n 1); [by apply more_refs|done|intros _; left; lia]. }
  destruct (doing_dirlink sb Hsb s0 Rg s2 _ _ F1 _ c dp d name n H2 (t_anchored _ _ _ _ Ht2) (tree_dir sb _ _ _ d Ht2 Hdok Hdir1) O2 Hdir1) as (r & s3 & -> & Hcase); [|by apply Hbn|done|..].
  { intros h Hh. apply list_elem_of_singleton in Hh as ->. by left. }
  { pose proof (a_slots _ _ _ _ _ _ _ _ H2). lia. }
  { pose proof (a_free _ _ _ _ _ _ _ _ H2). lia. }
  { unfold F1, updf. rewrite decide_False by done. by apply Rd. }
  cbn [mbind option_bind]. destruct (Hsame d) as [_ Eds]. rewrite Eds, (dlookup_cong _ e name Hne) in Hcase.
  assert (af_nlink (F1 d) ≠ 0) as Hdnl.
  { pose proof (tree_dir_nlink sb Hsb _ F0 (nref s0) d Rt Hdok Hdir). unfold zero, F1 in *. unfold  updf. rewrite decide_False by done. lia. }
  destruct (dlookup (dents (F0 d)) e) as [m|] eqn:Edl.
  - destruct Hcase as [-> H3]. destruct (doing_unlockput sb Hsb s0 Rg Rq s3 [(ip, n)] [] F1 _ c dp d H3) as (s4 & -> & H4); [by intros ?%elem_of_nil|by right|].
    cbn [mbind option_bind]. change (-1 <? 0) with true. cbv iota. destruct (link_bad_spec s4 ip n _ c H4 Hn Ht) as (s' & E & H5). eexists (-1), s', F0, _, c. by split_and!.
  - destruct Hcase as (-> & a & H3 & Ha). pose proof Ha as (Ea1 & Ea2 & _).
    destruct (doing_unlockput sb Hsb s0 Rg Rq s3 [(ip, n)] [] _ _ _ dp d H3) as (s4 & -> & H4); [by intros ?%elem_of_nil|right; unfold updf; rewrite decide_True by done; by rewrite Ea2|].
    cbn [mbind option_bind]. change (0 <? 0) with false. cbv iota.
    destruct (doing_put sb Hsb s0 Rg s4 [] [] _ _ _ ip n H4) as (s5 & -> & H5); [left; by intros ?%elem_of_nil| |].
    { right. unfold updf. rewrite decide_False by done. unfold F1, updf. rewrite decide_True by done. cbn [relink af_nlink]. lia. }
    cbn [mbind option_bind]. eexists 0, (end_op s5), _, _, _. split; [done|]. split; [by apply doing_end_op|]. split_and!; try done.
    exists name, a. split_and!; try done. unfold F1, updf in Ha. by rewrite decide_False in Ha by done.
Qed.

(** The tree after a link was made. *)
Lemma link_tree d n e name a : inum_ok sb d → is_dir (F0 d) → d ≠ n → inum_ok sb n → af_type (F0 n) ≠ 0 → ¬ is_dir (F0 n) →
  linked_dir name n (F0 d) a → namecmp name e = 0 → dlookup (dents (F0 d)) e = None → tree zero (updf d a (updf n (relink 1 (F0 n)) F0)) (nref s0).
Proof using Hsb Hr.
  intros Hd Hdir Hdn Hn Ht Hf Ha He Hfresh. pose proof (r_tree _ _ Hr) as Rt. pose proof (tree_nlink sb zero F0 (nref s0) n Rt Hn Ht) as Hnl. unfold zero in Hnl.
  assert (tree (λ m, zero m + 1 * one n m) (updf n (relink 1 (F0 n)) F0) (nref s0)) as Ht1.
  { apply (tree_relink sb Hsb zero F0 (nref s0) n 1); [done|done|intros _; left; lia]. }
  assert (∀ m, updf n (relink 1 (F0 n)) F0 m = if decide (m = n) then relink 1 (F0 n) else F0 m) as EF by done.
  eapply (tree_ext sb Hsb); [apply (tree_add_entry sb Hsb _ _ (nref s0) d n name a Ht1)|]; try done.
  - rewrite EF. by rewrite decide_False.
  - rewrite EF. by rewrite decide_True.
  - rewrite EF. by rewrite decide_True.
  - rewrite EF, decide_False by done. by rewrite (dlookup_cong _ e name He).
  - rewrite EF. by rewrite decide_False.
  - intros m Hm. cbn beta. unfold zero. lia.
Qed.

Lemma sys_link_spec old new : path_ok old → path_ok new →
  ∃ r s' F' K c, sys_link sb cwd nm old new s0 = Some (r, s') ∧ doing s' [] [] F' K c ∧ tree zero F' (nref s0) ∧
    match link_target F0 old new with
    | None => r = -1 ∧ ∀ m, inum_ok sb m → agree (F0 m) (F' m)
    | Some (d, e, n) => r = 0 ∧ d ≠ n ∧ inum_ok sb d ∧ inum_ok sb n ∧ dlookup (dents (F0 d)) e = None ∧
        ∃ name a, namecmp name e = 0 ∧ linked_dir name n (F0 d) a ∧ ∀ m, F' m = updf d a (updf n (relink 1 (F0 n)) F0) m
    end.
Proof using Hsb Hr Hbuf.
  intros Ho Hn. destruct Hbuf as [Hnm Hnmb]. pose proof Hr as [Rg Rt Rq Rs Rf Rd Rl Rc Rcd]. destruct (path_bytes old Ho) as [Hz Hb]. unfold sys_link, namei.
  destruct (doing_namex sb Hsb s0 Rg Rq zero s0 [] F0 0 0 cwd cd old false nm (doing_start sb s0 Rg)) as (r & name & s1 & -> & _ & Hre & _); try done.
  { by apply more_refs. }
  { lia. }
  { by rewrite Rcd. }
  cbn [mbind option_bind]. fold (start cd old) in Hre. unfold link_target. assert (∀ F', (∀ m, inum_ok sb m → agree (F0 m) (F' m)) → tree zero F' (nref s0)) as Hsame.
  { intros F' HF. eapply (tree_files_agree sb Hsb); [exact Rt|done| |done]. intros m Hm. by apply (size_ok sb). }
  destruct (resolve F0 false (start cd old) (elements old)) as [n|]; cbn [mbind option_bind].
  2: { destruct Hre as [-> H1]. exists (-1), (end_op s1), F0, 0, 0. split_and!; try done. by apply doing_end_op. }
  destruct Hre as (ip & -> & H1 & Hnok & Hnt).
  destruct (doing_lock sb Hsb s0 Rq s1 _ [] F0 _ 0 ip n H1) as (s2 & -> & H2 & O2 & _); [apply (a_ents _ _ _ _ _ _ _ _ H1); right; by left|by intros ?%elem_of_nil|done|].
  cbn [mbind option_bind]. destruct (doing_din sb s0 s2 _ _ F0 _ _ ip n H2 O2) as [(_ & Et & _) _]. cbn [file_of af_type] in Et. rewrite Et.
  destruct (Z.eqb_spec (af_type (F0 n)) T_DIR) as [Hd|Hd].
  { destruct (doing_unlockput sb Hsb s0 Rg Rq s2 [] [] F0 _ 0 ip n H2 ltac:(by intros ?%elem_of_nil) (kept0 n Hnok Hnt)) as (s3 & -> & H3). cbn [mbind option_bind].
    eexists (-1), (end_op s3), F0, _, _. split_and!; try done. by apply doing_end_op. }
  pose proof (tree_nlink sb zero F0 (nref s0) n Rt Hnok Hnt) as Hnl. unfold zero in Hnl.
  pose proof (doing_nlink sb Hsb s0 s2 _ _ F0 _ 0 ip n 1 H2 O2 ltac:(specialize (Rl n Hnok); lia)) as H3.
  destruct (doing_unlock sb Hsb s0 Rq _ _ [] _ _ _ ip n H3) as (s4 & -> & H4 & _ & _); [apply (a_ents _ _ _ _ _ _ _ _ H3); right; by left|by intros ?%elem_of_nil|].
  cbn [mbind option_bind]. destruct (link_second s4 ip n new _ 0 H4 Hn Hnok Hnt Hd ltac:(lia) eq_refl) as (r & s5 & F' & K' & c' & -> & H5 & Hcase).
  exists r, s5, F', K', c'. split; [done|]. split; [done|].
  destruct (resolve F0 true (start cd new) (elements new)) as [d|]; cbn [mbind option_bind] in Hcase |- *; [|split; [by apply Hsame, Hcase|done]].
  destruct (last (elements new)) as [e|]; cbn [mbind option_bind] in Hcase |- *; [|split; [by apply Hsame, Hcase|done]].
  destruct (dlookup (dents (F0 d)) e) eqn:Edl; [split; [by apply Hsame, Hcase|done]|]. destruct Hcase as (-> & Hdn & Hdok & Hdir & _ & nam & a & Hne & Ha & HF).
  split; [|split_and!; try done; by exists nam, a].
  eapply (tree_files_agree sb Hsb); [apply (link_tree d n e nam a Hdok Hdir Hdn Hnok Hnt Hd Ha Hne Edl)|intros m _; by rewrite HF| |done].
  intros m Hm. rewrite <-HF. by apply (doing_size sb s0 _ _ _ _ _ _ m H5).
Qed.

(** ** unlink() *)

(** The last step: the reference to the inode goes, and with it the inode without names. *)
Definition dropped_file (n : Z) (F : Z → afile) : Z → afile :=
  if decide (af_nlink (F n) = 0 ∧ nref s0 n = 0) then updf n (freed (F n)) F else F.

Lemma drop_last s ip n F K c : doing s [(ip, n)] [(ip, n)] F K c → inum_ok sb n → af_type (F n) ≠ 0 →
  ∃ s', iunlockput sb ip s = Some s' ∧ doing s' [] [] (dropped_file n F) K c.
Proof using Hsb Hr.
  intros Hd Hn Ht. pose proof Hr as [Rg _ Rq _ _ _ _ _ _]. unfold dropped_file. pose proof (nref_nonneg s0 n) as H0. case_decide as Hcase.
  - destruct Hcase as [Hnl Hrf]. destruct (doing_unlock sb Hsb s0 Rq s [(ip, n)] [] F K c ip n Hd) as (s1 & E1 & H1 & O1 & _).
    { apply (a_ents _ _ _ _ _ _ _ _ Hd). right. by left. }
    { by intros ?%elem_of_nil. }
    destruct (doing_put_last sb Hsb s0 Rg Rq s1 [] [] F K c ip n H1) as (s2 & E2 & H2); try done; [by intros ?%elem_of_nil|cbn; lia|].
    exists s2. unfold iunlockput. rewrite E1. by split.
  - apply (doing_unlockput sb Hsb s0 Rg Rq s [] [] F K c ip n Hd); [by intros ?%elem_of_nil|]. cbn.
    destruct (decide (af_nlink (F n) = 0)); [left|by right]. destruct (decide (nref s0 n = 0)); [exfalso; by apply Hcase|lia].
Qed.

Lemma drop_tree F n ip : tree zero F (refs [(ip, n)]) → inum_ok sb n → af_type (F n) ≠ 0 → ¬ is_dir (F n) → tree zero (dropped_file n F) (nref s0).
Proof using Hsb.
  intros Ht Hn Hty Hf. unfold dropped_file. pose proof (nref_nonneg s0 n) as H0.
  assert (∀ m, inum_ok sb m → af_type (F m) ≠ 0 → af_nlink (F m) = 0 → m ≠ n → 0 < nref s0 m) as Hoth.
  { intros m Hm Hmt Hnl Hmn. destruct (t_anchored _ _ _ _ Ht m Hm Hmt) as [?|Hp]; [done|]. rewrite hcount_cons in Hp. unfold one in Hp. rewrite decide_False in Hp by done. cbn in Hp. lia. }
  case_decide as Hcase.
  - destruct Hcase as [Hnl Hrf]. eapply (tree_refs sb zero _ (refs [(ip, n)])); [by apply (tree_free sb Hsb)|].
    intros m Hm. unfold updf. case_decide; [done|]. intros Hmt Hml. by apply Hoth.
  - eapply (tree_refs sb zero _ (refs [(ip, n)])); [done|]. intros m Hm Hmt Hml. destruct (decide (m = n)) as [->|]; [|by apply Hoth].
    destruct (decide (nref s0 n = 0)); [exfalso; by apply Hcase|lia].
Qed.

Definition unlink_target (F : Z → afile) (path : list Z) : option (Z * nat * Z) :=
  d ← resolve F true (start cd path) (elements path);
  e ← last (elements path);
  if dots e then None
  else
    k ← find_index (names e) (dents (F d));
    n ← de_inum <$> dents (F d) !! k;
    if (af_type (F n) =? T_DIR) && negb (forallb (λ e, de_inum e =? 0) (drop 2 (dents (F n)))) then None
    else Some (d, k, n).

(** The files after the entry [k] of [d] for [n] was removed. *)
Definition unlinked (d : Z) (k : nat) (n : Z) (F' : Z → afile) : Prop := ∃ a, changed_dir k no_dirent (F0 d) a ∧
  ∀ m, F' m = dropped_file n (updf n (relink (-1) (F0 n)) (updf d (if af_type (F0 n) =? T_DIR then relink (-1) a else a) F0)) m.

(** The code after the checks. *)
Definition unlink_commit (dp ip : nat) (off : Z) (s : fs) : option (Z * fs) :=
  s ← write_dirent sb dp off no_dirent s;
  let s := if d_type (din ip s) =? T_DIR then add_nlink sb dp (-1) s else s in
  s ← iunlockput sb dp s;
  s ← iunlockput sb ip (add_nlink sb ip (-1) s);
  Some (0, end_op s).

Lemma no_dirent_ok : length (encode_dirent no_dirent) = Z.to_nat DESZ ∧ Forall is_byte (encode_dirent no_dirent).
Proof. split; [done|]. unfold is_byte. vm_compute. repeat constructor; done. Qed.

Section commit.
Context (s : fs) (dp ip : nat) (d n : Z) (k : nat) (e : dirent) (K : Z).
Context (Hd : doing s [(ip, n); (dp, d)] [(ip, n); (dp, d)] F0 K 0) (Hdok : inum_ok sb d) (Hdir : is_dir (F0 d)) (Hnok : inum_ok sb n) (Hnt : af_type (F0 n) ≠ 0).
Context (Hk : dents (F0 d) !! S (S k) = Some e) (He : de_inum e = n).

Lemma entry_behind : e ∈ drop 2 (nd_ents (nodeof (F0 d))).
Proof using Hdir Hk. rewrite (nodeof_dir (F0 d) Hdir). cbn [nd_ents]. eapply list_elem_of_lookup_2. rewrite lookup_drop. exact Hk. Qed.

Lemma commit_ne : d ≠ n ∧ dp ≠ ip.
Proof using Hr Hd Hdir Hdok Hk He.
  assert (d ≠ n) as Hne.
  { intros E. apply (no_self sb zero (λ m, nodeof (F0 m)) d e (t_ns _ _ _ _ (r_tree _ _ Hr)) Hdok Hdir entry_behind). congruence. }
  split; [done|]. intros E. assert (entry ip n s) as (i & Hi & _ & E1) by (apply (a_ents _ _ _ _ _ _ _ _ Hd); right; by left).
  assert (entry dp d s) as (j & Hj & _ & E2) by (apply (a_ents _ _ _ _ _ _ _ _ Hd); right; by right; left). congruence.
Qed.

Lemma commit_nlink : 1 ≤ af_nlink (F0 n).
Proof using Hr Hdir Hdok Hk He Hnok.
  pose proof (named_nlink sb zero (λ m, nodeof (F0 m)) d e (t_ns _ _ _ _ (r_tree _ _ Hr)) ltac:(done) Hdok Hdir entry_behind) as H. rewrite He in H. apply H.
  unfold inum_ok in Hnok. lia.
Qed.

(** Everything up to the references. *)
Lemma commit_spec (g : afile → afile) : (if af_type (F0 n) =? T_DIR then g = relink (-1) else g = id) → (∀ a, changed_dir (S (S k)) no_dirent (F0 d) a → af_nlink (g a) ≠ 0) →
  ∃ s' a F', unlink_commit dp ip (DESZ * Z.of_nat (S (S k))) s = Some (0, s') ∧ changed_dir (S (S k)) no_dirent (F0 d) a ∧ doing s' [] [] F' K 4 ∧
    F' = dropped_file n (updf n (relink (-1) (F0 n)) (updf d (g a) F0)).
Proof using All.
  intros Hg Hgn. pose proof Hr as [Rg Rt Rq Rs Rf Rd Rl Rc Rcd]. destruct commit_ne as [Hne Hpne]. pose proof commit_nlink as Hnl. unfold unlink_commit.
  destruct no_dirent_ok as [Hl Hb].
  destruct (doing_write_dirent sb Hsb s0 s _ _ F0 K 0 dp d (S (S k)) no_dirent Hd) as (s1 & a & -> & H1 & Ha); try done.
  { apply (a_valid _ _ _ _ _ _ _ _ Hd). by right; left. }
  { by apply (t_whole _ _ _ _ Rt). }
  { by eapply lookup_lt_Some. }
  { pose proof (a_free _ _ _ _ _ _ _ _ Hd). lia. }
  cbn [mbind option_bind]. assert (∀ b, updf d b F0 n = F0 n) as Hn1 by (intros b; unfold updf; by rewrite decide_False).
  assert (owns s1 ip n) as O1 by (apply (a_valid _ _ _ _ _ _ _ _ H1); by left).
  destruct (doing_din sb s0 s1 _ _ _ _ _ ip n H1 O1) as [(_ & Et & _) _]. cbn [file_of af_type] in Et. rewrite Et, Hn1.
  assert (doing (if af_type (F0 n) =? T_DIR then add_nlink sb dp (-1) s1 else s1) [(ip, n); (dp, d)] [(ip, n); (dp, d)] (updf d (g a) F0) K 4) as H2.
  { destruct (Z.eqb_spec (af_type (F0 n)) T_DIR) as [Hty|]; rewrite Hg; [|done].
    assert (owns s1 dp d) as Od by (apply (a_valid _ _ _ _ _ _ _ _ H1); by right; left).
    assert (updf d a F0 d = a) as Ead by (unfold updf; by rewrite decide_True). destruct Ha as (E1 & E2 & _).
    pose proof (tree_dir_nlink sb Hsb zero F0 (nref s0) d Rt Hdok Hdir) as Hdn. unfold zero in Hdn. pose proof (Rl d Hdok).
    eapply doing_files; [apply (doing_nlink sb Hsb s0 s1 _ _ _ _ _ dp d (-1) H1 Od); rewrite Ead, E2; lia|].
    intros m _. unfold updf. case_decide; [|done]. subst m. by rewrite decide_True. }
  set (s2 := if af_type (F0 n) =? T_DIR then add_nlink sb dp (-1) s1 else s1) in *.
  apply (doing_perm sb s0 _ _ [(dp, d); (ip, n)] _ [(dp, d); (ip, n)]) in H2; [|apply Permutation_swap..].
  destruct (doing_unlockput sb Hsb s0 Rg Rq s2 [(ip, n)] [(ip, n)] _ _ _ dp d H2) as (s3 & -> & H3); [by intros ?%list_elem_of_singleton| |].
  { right. unfold updf. rewrite decide_True by done. by apply Hgn. }
  cbn [mbind option_bind]. assert (owns s3 ip n) as O3 by (apply (a_valid _ _ _ _ _ _ _ _ H3); by left).
  pose proof (doing_nlink sb Hsb s0 s3 _ _ _ _ _ ip n (-1) H3 O3) as H4. rewrite Hn1 in H4. specialize (H4 ltac:(pose proof (Rl n Hnok); lia)).
  destruct (drop_last _ ip n _ K 4 H4 Hnok) as (s4 & -> & H5); [unfold updf; by rewrite decide_True|].
  cbn [mbind option_bind]. eexists (end_op s4), a, _. split; [done|]. split; [done|]. split; [by apply doing_end_op|done].
Qed.

End commit.

(** The tree after a file or an empty directory was unlinked. *)
Lemma unlink_file_tree (ip : nat) d n k e a : inum_ok sb d → is_dir (F0 d) → inum_ok sb n → af_type (F0 n) ≠ 0 → ¬ is_dir (F0 n) → dents (F0 d) !! S (S k) = Some e → de_inum e = n →
  changed_dir (S (S k)) no_dirent (F0 d) a → tree zero (dropped_file n (updf n (relink (-1) (F0 n)) (updf d a F0))) (nref s0).
Proof using Hsb Hr.
  intros Hd Hdir Hn Ht Hf Hk He Ha. assert (d ≠ n) as Hne by (by intros ->). assert (updf d a F0 n = F0 n) as En by (unfold updf; by rewrite decide_False).
  assert (n ≠ 0) as H0 by (unfold inum_ok in Hn; lia). pose proof (more_refs zero F0 [(ip, n)] (r_tree _ _ Hr)) as Rt.
  pose proof (tree_del_entry sb Hsb zero F0 _ d n k e a Rt Hd Hdir H0 Hf Hk He Ha) as T1.
  pose proof (tree_relink sb Hsb _ _ _ n (-1) T1 Hn) as T2. rewrite En in T2.
  apply (drop_tree _ n ip); [|done|unfold updf; by rewrite decide_True|unfold updf; by rewrite decide_True].
  eapply (tree_ext sb Hsb); [apply T2|].
  - intros _. right. rewrite hcount_cons, one_self. cbn. pose proof (nref_nonneg s0 n). lia.
  - intros m _. cbn beta. unfold zero. lia.
Qed.

Lemma unlink_dir_tree d n k e a : inum_ok sb d → is_dir (F0 d) → inum_ok sb n → is_dir (F0 n) → dents (F0 d) !! S (S k) = Some e → de_inum e = n →
  Forall (λ e, de_inum e = 0) (drop 2 (dents (F0 n))) → nref s0 n = 0 → changed_dir (S (S k)) no_dirent (F0 d) a →
  tree zero (dropped_file n (updf n (relink (-1) (F0 n)) (updf d (relink (-1) a) F0))) (nref s0) ∧ af_nlink a + -1 ≠ 0.
Proof using Hsb Hr.
  intros Hd Hdir Hn Hdn Hk He Hempty Hrf Ha. pose proof (r_tree _ _ Hr) as Rt.
  destruct (empty_dir sb zero (λ m, nodeof (F0 m)) d n e (t_ns _ _ _ _ Rt) Hd Hdir Hn Hdn) as (_ & Hne & _ & _ & _ & _ & Hnl); [by eapply entry_behind|done|by rewrite nodeof_dir|].
  cbn [nodeof nd_nlink] in Hnl. unfold zero in Hnl. set (a' := freed (relink (-1) (F0 n))).
  pose proof (tree_rmdir sb Hsb zero F0 (nref s0) d n k e a a' Rt Hd Hdir Hn Hdn Hk He Hempty Ha ltac:(done)) as T1. set (F1 := updf n a' (updf d a F0)) in *.
  assert (F1 d = a) as E1 by (unfold F1, updf; rewrite decide_False, decide_True by done; done).
  assert (is_dir (F1 d)) as Hd1 by (rewrite E1; apply Ha). pose proof (tree_dir_nlink sb Hsb _ F1 _ d T1 Hd Hd1) as [Hmin _]. rewrite one_self, E1 in Hmin. unfold zero in Hmin.
  split; [|lia]. pose proof (tree_relink sb Hsb _ _ _ d (-1) T1 Hd) as T2. rewrite E1 in T2. specialize (T2 ltac:(intros _; left; lia)).
  assert (∀ m, dropped_file n (updf n (relink (-1) (F0 n)) (updf d (relink (-1) a) F0)) m = updf d (relink (-1) a) F1 m) as EF.
  { intros m. unfold dropped_file. rewrite decide_True.
    - unfold F1, updf. destruct (decide (m = n)) as [->|]; [rewrite decide_True, decide_False by done; done|]. by destruct (decide (m = d)).
    - unfold updf. rewrite decide_True by done. cbn [relink af_nlink]. split; [lia|done]. }
  eapply (tree_files_agree sb Hsb); [eapply (tree_ext sb Hsb); [exact T2|]| | |done].
  - intros m _. cbn beta. unfold zero. lia.
  - intros m _. by rewrite EF.
  - intros m Hm. unfold updf, F1. pose proof (size_ok sb s0 d (r_good _ _ Hr) Hd) as S1. destruct Ha as (_ & _ & _ & E4). case_decide; [cbn [relink af_size]; lia|].
    unfold updf. case_decide; [cbn; unfold MAXSIZE, MAXFILE, BSIZE; vm_compute; done|]. case_decide; [done|]. apply (size_ok sb s0 m); [apply Hr|done].
Qed.

Lemma unlink_bad_spec s dp d K c : doing s [(dp, d)] [(dp, d)] F0 K c → inum_ok sb d → af_type (F0 d) ≠ 0 →
  ∃ s', unlink_bad sb dp s = Some (-1, s') ∧ doing s' [] [] F0 K c.
Proof using Hsb Hr.
  intros Hd Hn Ht. pose proof Hr as [Rg Rt Rq _ _ _ _ _ _]. unfold unlink_bad.
  destruct (doing_unlockput sb Hsb s0 Rg Rq s [] [] F0 K c dp d Hd ltac:(by intros ?%elem_of_nil) (kept0 d Hn Ht)) as (s1 & -> & H1).
  cbn [mbind option_bind]. exists (end_op s1). split; [done|]. by apply doing_end_op.
Qed.

Lemma names_index l name e : namecmp name e = 0 → find_index (names name) l = find_index (names e) l.
Proof. intros H. induction l as [|y l IH]; [done|]. cbn [find_index]. by rewrite (names_cong e name y H), IH. Qed.

Lemma dots_cong name e : namecmp name e = 0 → dots name = dots e.
Proof.
  intros H. unfold dots. assert (∀ t, (namecmp name t =? 0) = (namecmp e t =? 0)) as Ht; [|by rewrite !Ht]. intros t. apply Bool.eq_iff_eq_true. rewrite !Z.eqb_eq.
  split; intros H'; [eapply namecmp_trans; [by apply namecmp_sym|done]|by eapply namecmp_trans].
Qed.

(** The entry was found and its inode is locked. *)
Lemma unlink_found s dp ip d k e K : doing s [(ip, de_inum e); (dp, d)] [(ip, de_inum e); (dp, d)] F0 K 0 → inum_ok sb d → is_dir (F0 d) → inum_ok sb (de_inum e) →
  af_type (F0 (de_inum e)) ≠ 0 → dents (F0 d) !! S (S k) = Some e →
  let n := de_inum e in let full := (af_type (F0 n) =? T_DIR) && negb (forallb (λ e, de_inum e =? 0) (drop 2 (dents (F0 n)))) in
  (full = false → is_dir (F0 n) → nref s0 n = 0) →
  ∃ r s' F' K' c', (if d_nlink (din ip s) <? 1 then None
     else
       empty ← (if d_type (din ip s) =? T_DIR then isdirempty ip s else Some true);
       if negb empty then s ← iunlockput sb ip s; unlink_bad sb dp s else unlink_commit dp ip (DESZ * Z.of_nat (S (S k))) s) = Some (r, s') ∧
    doing s' [] [] F' K' c' ∧ tree zero F' (nref s0) ∧
    if full then r = -1 ∧ ∀ m, inum_ok sb m → agree (F0 m) (F' m) else r = 0 ∧ unlinked d (S (S k)) n F'.
Proof using Hsb Hr Hbuf.
  intros Hd Hdok Hdir Hnok Hnt Hk n full Huse. pose proof Hr as [Rg Rt Rq Rs Rf Rd Rl Rc Rcd]. destruct (commit_ne s dp ip d n k e K Hd Hdok Hdir Hk eq_refl) as [Hne Hpne].
  pose proof (commit_nlink d n k e Hdok Hdir Hnok Hk eq_refl) as Hnl. assert (owns s ip n) as Ho by (apply (a_valid _ _ _ _ _ _ _ _ Hd); by left).
  destruct (doing_din sb s0 s _ _ F0 K 0 ip n Hd Ho) as [(_ & Et & _ & _ & Enl & _) _]. cbn [file_of af_type af_nlink] in Et, Enl. rewrite Et, Enl, (proj2 (Z.ltb_ge _ _)) by lia.
  assert ((if af_type (F0 n) =? T_DIR then isdirempty ip s else Some true) = Some (negb full)) as ->.
  { unfold full. destruct (Z.eqb_spec (af_type (F0 n)) T_DIR) as [Hdn|]; [|done]. cbn [andb]. rewrite negb_involutive. by apply (doing_isdirempty sb s0 s _ _ F0 K 0 ip n Hd Ho), (t_whole _ _ _ _ Rt). }
  assert (full = false → is_dir (F0 n) → Forall (λ e, de_inum e = 0) (drop 2 (dents (F0 n)))) as Hall.
  { unfold full, n, is_dir. intros Efull Hdn. rewrite Hdn in Efull. cbn [andb Z.eqb T_DIR Pos.eqb] in Efull. apply negb_false_iff in Efull. rewrite forallb_forall in Efull.
    apply Forall_forall. intros x Hx. apply Z.eqb_eq. apply Efull. by apply list_elem_of_In. }
  cbn [mbind option_bind]. rewrite negb_involutive. destruct full.
  - destruct (doing_unlockput sb Hsb s0 Rg Rq s [(dp, d)] [(dp, d)] F0 K 0 ip n Hd) as (s1 & -> & H1); [by intros ?%list_elem_of_singleton|right; lia|].
    cbn [mbind option_bind]. destruct (unlink_bad_spec s1 dp d K 0 H1 Hdok ltac:(by rewrite Hdir)) as (s2 & -> & H2). by exists (-1), s2, F0, K, 0.
  - set (g := if af_type (F0 n) =? T_DIR then relink (-1) else id : afile → afile).
    assert (∀ a, changed_dir (S (S k)) no_dirent (F0 d) a → tree zero (dropped_file n (updf n (relink (-1) (F0 n)) (updf d (g a) F0))) (nref s0) ∧ af_nlink (g a) ≠ 0) as Hg.
    { intros a Ha. unfold g. destruct (Z.eqb_spec (af_type (F0 n)) T_DIR) as [Hdn|Hdn].
      - apply (unlink_dir_tree d n k e a); try done; [by apply Hall|by apply Huse].
      - split; [by apply (unlink_file_tree ip d n k e a)|]. pose proof (tree_dir_nlink sb Hsb zero F0 (nref s0) d Rt Hdok Hdir) as Hdl. unfold zero in Hdl. destruct Ha as (_ & E2 & _). cbn [id]. lia. }
    destruct (commit_spec s dp ip d n k e K Hd Hdok Hdir Hnok Hnt Hk eq_refl g) as (s1 & a & F' & -> & Ha & H1 & ->); [unfold g; by case_match|intros a Ha; by apply Hg|].
    eexists 0, s1, _, K, 4. split; [done|]. split; [done|]. split; [by apply Hg|]. split; [done|]. exists a. split; [done|]. intros m. unfold g. by case_match.
Qed.

Lemma sys_unlink_spec path : path_ok path → (∀ d k n, unlink_target F0 path = Some (d, k, n) → is_dir (F0 n) → nref s0 n = 0) →
  ∃ r s' F' K c, sys_unlink sb cwd nm path s0 = Some (r, s') ∧ doing s' [] [] F' K c ∧ tree zero F' (nref s0) ∧
    match unlink_target F0 path with
    | None => r = -1 ∧ ∀ m, inum_ok sb m → agree (F0 m) (F' m)
    | Some (d, k, n) => r = 0 ∧ unlinked d k n F' ∧ inum_ok sb d ∧ is_dir (F0 d) ∧ inum_ok sb n ∧ d ≠ n
    end.
Proof using Hsb Hr Hbuf.
  intros Hp Huse. destruct Hbuf as [Hnm Hnmb]. pose proof Hr as [Rg Rt Rq Rs Rf Rd Rl Rc Rcd]. destruct (path_bytes path Hp) as [Hz Hb]. unfold sys_unlink, nameiparent.
  destruct (doing_namex sb Hsb s0 Rg Rq zero s0 [] F0 0 0 cwd cd path true nm (doing_start sb s0 Rg)) as (r & name & s1 & -> & _ & Hre & _ & _ & Hlast); try done.
  { by apply more_refs. }
  { lia. }
  { by rewrite Rcd. }
  cbn [mbind option_bind]. fold (start cd path) in Hre. unfold unlink_target in *.
  destruct (resolve F0 true (start cd path) (elements path)) as [d|] eqn:Ed; cbn [mbind option_bind] in *.
  2: { destruct Hre as [-> H1]. exists (-1), (end_op s1), F0, 0, 0. split_and!; try done. by apply doing_end_op. }
  destruct Hre as (dp & -> & H1 & Hdok & Hdt). destruct (Hlast eq_refl ltac:(done)) as (e & He & Hne). rewrite He in Huse |- *. cbn [mbind option_bind] in *.
  assert (is_dir (F0 d)) as Hdir by (by eapply resolve_parent).
  destruct (doing_lock sb Hsb s0 Rq s1 _ [] F0 _ 0 dp d H1) as (s2 & -> & H2 & O2 & _); [apply (a_ents _ _ _ _ _ _ _ _ H1); right; by left|by intros ?%elem_of_nil|done|].
  cbn [mbind option_bind]. destruct (unlink_bad_spec s2 dp d _ 0 H2 Hdok Hdt) as (sf & Ef & Hf). rewrite (dots_cong name e Hne). destruct (dots e) eqn:Edots.
  { rewrite Ef. by eexists (-1), sf, F0, _, 0. }
  pose proof (doing_dirlookup sb Hsb s0 s2 _ _ F0 _ 0 dp d name H2 (tree_dir sb _ _ _ d Rt Hdok Hdir) O2 Hdir) as Hfind. rewrite (names_index _ name e Hne) in Hfind.
  specialize (Hfind ltac:(pose proof (a_slots _ _ _ _ _ _ _ _ H2); lia)). destruct (find_index (names e) (dents (F0 d))) as [k|] eqn:Ek; cbn [mbind option_bind] in *.
  2: { rewrite Hfind. cbn [mbind option_bind]. rewrite Ef. by eexists (-1), sf, F0, _, 0. }
  destruct Hfind as (en & ip & s3 & Hen & -> & Hnok & Hnt & H3 & O3 & _). cbn [mbind option_bind]. rewrite Hen in Huse |- *. cbn [fmap option_fmap option_map mbind option_bind] in *.
  destruct (behind_dots sb zero (λ m, nodeof (F0 m)) d e k (t_ns _ _ _ _ Rt) Hdok Hdir Edots) as (k' & e' & -> & He' & _); [by rewrite (nodeof_dir (F0 d))|].
  assert (d ≠ de_inum en) as Hdn.
  { intros E. apply (no_self sb zero (λ m, nodeof (F0 m)) d en (t_ns _ _ _ _ Rt) Hdok Hdir); [by eapply entry_behind|congruence]. }
  assert (ip ≠ dp) as Hpne.
  { intros E. assert (entry ip (de_inum en) s3) as (i & Hi & _ & E1) by (apply (a_ents _ _ _ _ _ _ _ _ H3); right; by left).
    destruct O3 as (j & Hj & _ & _ & E2). congruence. }
  destruct (doing_lock sb Hsb s0 Rq s3 _ _ F0 _ 0 ip (de_inum en) H3) as (s4 & -> & H4 & _); [apply (a_ents _ _ _ _ _ _ _ _ H3); right; by left|by intros ?%list_elem_of_singleton|done|].
  cbn [mbind option_bind]. pose proof (unlink_found s4 dp ip d k' en _ H4 Hdok Hdir Hnok Hnt Hen) as Hu. cbn zeta in Hu.
  set (full := (af_type (F0 (de_inum en)) =? T_DIR) && _) in *. destruct Hu as (r & s' & F' & K' & c' & Eu & H5 & Ht & Hres).
  { intros E Hnd. rewrite E in Huse. by apply (Huse d (S (S k')) (de_inum en)). }
  unfold unlink_commit in Eu. rewrite Eu. exists r, s', F', K', c'. split; [done|]. split; [done|]. split; [done|]. destruct full; [done|]. by destruct Hres.
Qed.

End one.
End calls.
