(* ===== verification/SysMake.v ===== *)
(** * Making files

    create(), for mkdir(), mknod(), symlink() and open(): a fresh inode gets a
    name, and a directory its "." and ".." and its parent one more link. The
    calls keep the name space a tree with correct link counts. *)

From stdpp Require Import list_numbers gmap.
From S2P Require Import Prelude Mem CString Xattr Fs FsInv FsFile FsNode FsIO FsFree FsOps FsShare FsRange FsSpec FsCache Dir Path File Sysfile Names SysNames.

Section fresh.
Context (sb : superblock) (Hsb : sb_wf sb) (s0 : fs).

Abbreviation good := (good sb).
Abbreviation abs := (abs sb).
Abbreviation doing := (doing sb s0).

Lemma owned_type s ip n : good s → owns s ip n → af_type (abs s n) ≠ 0.
Proof. intros Hg Ho. destruct (held_abs sb ip n s Hg Ho) as [_ ->]. exact (g_live _ _ Hg ip n Ho). Qed.

(** The type on disk and that of the file. *)
Lemma free_type s n : good s → disk_type sb n s = 0 ↔ af_type (abs s n) = 0.
Proof.
  intros Hg. assert ((∀ ip, ¬ owns s ip n) → af_type (abs s n) = disk_type sb n s) as Hu.
  { intros Hno. unfold FsSpec.abs, disk_type. cbn [file_of af_type]. by rewrite (dnode_unowned sb s n Hno). }
  split; intros H0.
  - rewrite Hu; [done|]. intros ip. by apply (free_unowned sb).
  - rewrite <-Hu; [done|]. intros ip Ho. by apply (owned_type s ip n).
Qed.

Context (Hg0 : good s0) (Hq : Forall (eq false) (locks s0)).

(** The file that create() starts from. *)
Definition fresh_file (type major minor : Z) : afile := mk_afile 3 type (i16 major) (i16 minor) 1 0 (λ _, 0).

Lemma i16_range z : -2 ^ 15 ≤ i16 z < 2 ^ 15.
Proof. unfold i16. pose proof (Z.mod_pos_bound (z + 2 ^ 15) (2 ^ 16) ltac:(lia)). lia. Qed.

(** ialloc(): the first free inode gets its type and a cache entry. *)
Lemma doing_ialloc s H L F K c type : doing s H L F K c → 0 < type < 256 → 0 < slots s → (∃ n, inum_ok sb n ∧ af_type (F n) = 0) →
  ∃ ip n s', ialloc sb ROOTDEV type s = Some (ip, s') ∧ inum_ok sb n ∧ af_type (F n) = 0 ∧ ip ∉ L.*1 ∧
    doing s' ((ip, n) :: H) L (updf n (new_file type) F) (K + 1) c.
Proof using Hsb.
  intros Hd Ht Hs (m & Hm & Hm0). pose proof Hd as [A B C D E G I V]. unfold ialloc.
  destruct (find_index (λ inum, disk_type sb inum s =? 0) (range 1 (sb_ninodes sb))) as [k|] eqn:Ek.
  2: { exfalso. pose proof (find_index_None _ _ Ek m ltac:(by apply in_range)) as Hf. apply Z.eqb_neq in Hf. apply Hf, (free_type s m A). by destruct (I m Hm) as (_ & -> & _). }
  apply find_index_Some in Ek as [(n & Hn & H0) _]. apply Z.eqb_eq in H0. unfold range in Hn. apply lookup_seqZ in Hn as [En Hk]. rewrite <-En.
  assert (inum_ok sb n) as Hnok by (unfold inum_ok; lia). cbn zeta. fold (mark sb n type (dsk s)).
  destruct (mark_spec sb Hsb s n type A Hnok H0 Ht) as (A1 & B1 & C1 & D1). set (s1 := log_write _ _) in *.
  assert (icache s1 = icache s) as Ei by (unfold s1; by destruct (log_write_fields (IBLOCK sb n) (s <| dsk := mark sb n type (dsk s) |>)) as (_ & _ & _ & -> & _)).
  assert (doing s1 H L (updf n (new_file type) F) K (c + 0)) as H1.
  { apply (doing_tags sb s0 s s1 H L F _ K c 0 Hd A1); [unfold tags; by rewrite Ei|lia|]. intros j Hj. etrans; [by apply D1|]. unfold updf. case_decide; [done|by apply I]. }
  rewrite Z.add_0_r in H1. destruct (doing_iget sb Hsb s0 s1 H L _ K c n H1 Hnok) as (ip & s2 & Eg & H2 & _ & _); [unfold slots; by rewrite Ei|].
  assert (af_type (F n) = 0) as Hfree by (destruct (I n Hnok) as (_ & <- & _); by apply (free_type s n A)).
  exists ip, n, s2. split_and!; try done. intros ([ip' j] & E1 & Hin)%list_elem_of_fmap. cbn in E1. subst ip'.
  assert (entry ip n s2) as (i & Hi & _ & <-) by (apply (a_ents _ _ _ _ _ _ _ _ H2); right; by left).
  destruct (a_valid _ _ _ _ _ _ _ _ H2 ip j Hin) as (i' & Hi' & _ & _ & <-). assert (i' = i) as -> by congruence.
  pose proof (owned_type s ip (i_inum i) A (V _ _ Hin)) as Hlive. destruct (I (i_inum i) Hnok) as (_ & E2 & _). by rewrite E2 in Hlive.
Qed.

Lemma doing_new s H L F K c type major minor : doing s H L F K c → 0 < type < 256 → 0 < slots s → (∃ n, inum_ok sb n ∧ af_type (F n) = 0) →
  ∃ ip n s', new_inode sb ROOTDEV type major minor s = Some (ip, s') ∧ inum_ok sb n ∧ af_type (F n) = 0 ∧ ip ∉ L.*1 ∧
    doing s' ((ip, n) :: H) ((ip, n) :: L) (updf n (fresh_file type major minor) F) (K + 1) c.
Proof using Hsb Hq.
  intros Hd Ht Hs Hfree. unfold new_inode. destruct (doing_ialloc s H L F K c type Hd Ht Hs Hfree) as (ip & n & s1 & -> & Hn & Hn0 & HL & H1).
  cbn [mbind option_bind]. destruct (doing_lock sb Hsb s0 Hq s1 _ L _ _ c ip n H1) as (s2 & -> & H2 & O2 & _); [apply (a_ents _ _ _ _ _ _ _ _ H1); right; by left|done| |].
  { unfold updf. rewrite decide_True by done. cbn. lia. }
  cbn [mbind option_bind]. eexists ip, n, _. split_and!; [done..|].
  destruct (doing_din sb s0 s2 _ _ _ _ _ ip n H2 O2) as [Ha _]. unfold updf in Ha. rewrite decide_True in Ha by done. destruct Ha as (E1 & E2 & E3 & E4 & E5 & E6 & E7). cbn in E1, E2, E6.
  eapply doing_files; [apply (doing_update sb Hsb s0 s2 _ _ _ _ _ ip n _ H2 O2)|]; try done.
  - intros [? ? ? ? ? ? ? ?]. pose proof (i16_range major). pose proof (i16_range minor). split; cbn; try done; lia.
  - intros m _. unfold updf. case_decide; [|done]. subst m. rewrite decide_True by done. unfold agree. cbn. by split_and!.
Qed.

End fresh.

Section create.
Context (sb : superblock) (Hsb : sb_wf sb) (cwd : nat) (nm : list Z).
Context (s0 : fs) (cd : Z) (Hr : ready sb cwd s0 cd).

Abbreviation abs := (abs sb).
Abbreviation tree := (tree sb).
Abbreviation doing := (doing sb s0).
Abbreviation F0 := (abs s0).
Abbreviation refs H := (λ n, nref s0 n + hcount H n).

(** A directory with its two entries only. *)
Definition new_dir (d n : Z) (b : afile) : Prop :=
  af_type b = T_DIR ∧ af_nlink b = 1 ∧ dents b = [new_dirent DOT n; new_dirent DOTDOT d] ∧ af_size b `mod` DESZ = 0 ∧ 0 ≤ af_size b ≤ MAXSIZE.

Lemma updf_eq n a F : updf n a F n = a.
Proof using Type. unfold updf. by rewrite decide_True. Qed.

Lemma updf_ne n a F m : m ≠ n → updf n a F m = F m.
Proof using Type. intros H. unfold updf. by rewrite decide_False. Qed.

Lemma DESZ_fits : 3 * DESZ ≤ MAXSIZE.
Proof using Type. rewrite MAXSIZE_value. vm_compute. done. Qed.

Lemma dots_bytes : Forall is_byte DOT ∧ Forall is_byte DOTDOT.
Proof using Type. split; repeat constructor; done. Qed.

(** "." and ".." in the new directory. *)
Lemma new_dots s dp ip d n F K : doing s [(ip, n); (dp, d)] [(ip, n); (dp, d)] F K 0 → inum_ok sb n → inum_ok sb d → n ≠ d → K ≤ 3 →
  (∀ m, inum_ok sb m → af_type (F m) ≠ 0 → af_nlink (F m) ≠ 0 ∨ 0 < refs [(ip, n); (dp, d)] m) → af_type (F d) ≠ 0 → (∃ mj mi, F n = fresh_file T_DIR mj mi) →
  ∃ s' b, ('(r, s) ← dirlink sb ip DOT (i_inum (inode_at ip s)) s;
           if r <? 0 then None
           else '(r, s) ← dirlink sb ip DOTDOT (i_inum (inode_at dp s)) s;
                if r <? 0 then None else Some s) = Some s' ∧
    doing s' [(ip, n); (dp, d)] [(ip, n); (dp, d)] (updf n b F) K 8 ∧ new_dir d n b.
Proof using Hsb Hr.
  intros Hd Hn Hdn Hne HK Han Hdt (mj & mi & Hfn). pose proof Hr as [Rg Rt Rq Rs Rf _ _ _ _]. destruct dots_bytes as [Hb1 Hb2]. pose proof DESZ_fits as Hfit.
  assert (n ≠ 0 ∧ 0 < DESZ) as [Hn0 Hdp] by (unfold inum_ok in Hn; split; [lia|done]).
  assert (dents (F n) = []) as Hd0 by (by rewrite Hfn). assert (af_size (F n) = 0 ∧ af_type (F n) = T_DIR ∧ af_nlink (F n) = 1) as (Hz & Hty & Hnl) by (by rewrite Hfn).
  destruct (entry_at sb s ip n (a_good _ _ _ _ _ _ _ _ Hd)) as [_ ->]; [apply (a_ents _ _ _ _ _ _ _ _ Hd); right; by left|].
  assert (owns s ip n) as O by (apply (a_valid _ _ _ _ _ _ _ _ Hd); by left).
  destruct (doing_dirlink sb Hsb s0 Rg s _ _ F K 0 ip n DOT n Hd Han) as (r & s1 & -> & Hcase); try done.
  { split; [by rewrite Hz|]. rewrite Hd0. by intros e ?%elem_of_nil. }
  { pose proof (a_slots _ _ _ _ _ _ _ _ Hd). lia. }
  { pose proof (a_free _ _ _ _ _ _ _ _ Hd). lia. }
  { lia. }
  rewrite Hd0 in Hcase. change (dlookup [] DOT) with (@None Z) in Hcase. cbv iota in Hcase. destruct Hcase as (-> & a1 & H1 & E1 & E2 & E3 & E4 & E5 & E6). rewrite Hd0 in E3.
  change (link (new_dirent DOT n) []) with [new_dirent DOT n] in E3. cbn [mbind option_bind]. change (0 <? 0) with false. cbv iota.
  destruct (entry_at sb s1 dp d (a_good _ _ _ _ _ _ _ _ H1)) as [_ ->]; [apply (a_ents _ _ _ _ _ _ _ _ H1); right; by right; left|].
  assert (owns s1 ip n) as O1 by (apply (a_valid _ _ _ _ _ _ _ _ H1); by left).
  destruct (doing_dirlink sb Hsb s0 Rg s1 _ _ _ K _ ip n DOTDOT d H1) as (r & s2 & -> & Hcase); try done.
  { intros m Hm. destruct (decide (m = n)) as [->|]; [rewrite updf_eq, E2, Hnl; by left|rewrite updf_ne by done; by apply Han]. }
  { rewrite updf_eq. split; [done|]. rewrite E3. intros e ->%list_elem_of_singleton _. cbn [new_dirent de_inum]. rewrite updf_eq, E1. done. }
  { by rewrite updf_eq. }
  { pose proof (a_slots _ _ _ _ _ _ _ _ H1). lia. }
  { pose proof (a_free _ _ _ _ _ _ _ _ H1). lia. }
  { rewrite updf_eq. lia. }
  rewrite updf_eq, E3 in Hcase.
  assert (dlookup [new_dirent DOT n] DOTDOT = None) as Efresh.
  { unfold dlookup. cbn [find_index]. rewrite names_new by done. by change (namecmp DOTDOT DOT =? 0) with false. }
  rewrite Efresh in Hcase. destruct Hcase as (-> & a2 & H2 & G1 & G2 & G3 & G4 & G5 & G6). rewrite E3, link_cons in G3. cbn [new_dirent de_inum] in G3. rewrite (proj2 (Z.eqb_neq n 0)) in G3 by done.
  change (link _ []) with [new_dirent DOTDOT d] in G3. cbn [mbind option_bind]. change (0 <? 0) with false. cbv iota. exists s2, a2. split; [done|]. split.
  - eapply doing_files; [exact H2|]. intros m _. unfold updf. by case_decide.
  - split_and!; try done; lia.
Qed.

(** The file that create() makes for the free inode [n], and its directory. *)
Definition made_file (type major minor d n : Z) (b : afile) : Prop := if type =? T_DIR then new_dir d n b else b = fresh_file type major minor.
Definition made_dir (type : Z) : afile → afile := if type =? T_DIR then relink 1 else id.

Definition made (type major minor d : Z) (e : list Z) (n : Z) (F' : Z → afile) : Prop := ∃ name a b, namecmp name e = 0 ∧
  made_file type major minor d n b ∧ linked_dir name n (made_dir type (F0 d)) a ∧ ∀ m, F' m = updf d a (updf n b F0) m.

Lemma made_dir_same type a : af_type (made_dir type a) = af_type a ∧ dents (made_dir type a) = dents a ∧ af_size (made_dir type a) = af_size a ∧
  af_nlink (made_dir type a) = af_nlink a + (if type =? T_DIR then 1 else 0).
Proof using Type. unfold made_dir. case_match; cbn; split_and!; try done; lia. Qed.

Lemma made_file_type type major minor d n b : 0 < type → made_file type major minor d n b → af_type b = type ∧ af_nlink b = 1 ∧ af_size b `mod` DESZ = 0 ∧ 0 ≤ af_size b ≤ MAXSIZE.
Proof using Type.
  intros Ht. unfold made_file. pose proof DESZ_fits. assert (0 < DESZ) by done.
  destruct (Z.eqb_spec type T_DIR) as [->|]; [by intros (? & ? & ? & ? & ?)|intros ->]. cbn. split_and!; try done; lia.
Qed.

Section fresh_tree.
Context (type major minor d n : Z) (name e : list Z) (a b : afile).
Context (Ht : 0 < type) (Hd : inum_ok sb d) (Hdir : is_dir (F0 d)) (Hn : inum_ok sb n) (Hfree : af_type (F0 n) = 0) (Hfresh : dlookup (dents (F0 d)) name = None).
Context (Hb : made_file type major minor d n b) (Ha : linked_dir name n (made_dir type (F0 d)) a).

Lemma made_ne : d ≠ n.
Proof using Hdir Hfree. intros E. revert Hdir. unfold is_dir. by rewrite E, Hfree. Qed.

Lemma made_whole F' : (∀ m, F' m = updf d a (updf n b F0) m) → (∀ m, inum_ok sb m → is_dir (F' m) → af_size (F' m) `mod` DESZ = 0) ∧
  ∀ m, inum_ok sb m → af_type (F' m) ≠ 0 → af_nlink (F' m) ≠ 0 ∨ 0 < nref s0 m.
Proof using Hsb Hr Ht Hd Hdir Hn Ha Hb.
  intros HF. pose proof (r_tree _ _ _ _ Hr) as Rt. destruct Ha as (A1 & A2 & A3 & A4 & _), (made_file_type type major minor d n b Ht Hb) as (B1 & B2 & B3 & _).
  destruct (made_dir_same type (F0 d)) as (_ & _ & _ & N). pose proof (tree_dir_nlink sb Hsb zero F0 (nref s0) d Rt Hd Hdir) as Hnl. unfold zero in Hnl.
  split; intros m Hm; rewrite HF; unfold updf; case_decide; try done; try case_decide.
  - done.
  - by apply (t_whole _ _ _ _ Rt).
  - intros _. left. rewrite A2, N. case_match; lia.
  - intros _. left. by rewrite B2.
  - by apply (t_anchored _ _ _ _ Rt).
Qed.

Lemma made_ns : ns sb zero (λ m, nodeof (updf d a (updf n b F0) m)).
Proof using Hsb Hr Ht Hd Hdir Hn Hfree Hfresh Ha Hb.
  pose proof (t_ns _ _ _ _ (r_tree _ _ _ _ Hr)) as N. pose proof made_ne as Hne. unfold made_file, made_dir in *. destruct (Z.eqb_spec type T_DIR) as [->|Hnd].
  - destruct Hb as (B1 & B2 & B3 & _). pose proof Ha as (A1 & A2 & A3 & _). change (dents (relink 1 (F0 d))) with (dents (F0 d)) in A3. cbn [relink af_nlink] in A2.
    pose proof (ns_mkdir sb Hsb zero _ d n (new_dirent name n) (new_dirent DOT n) (new_dirent DOTDOT d) 1 N Hd Hdir Hn Hfree eq_refl
      (conj eq_refl (namecmp_sym _ _ (stored_name DOT n))) (conj eq_refl (namecmp_sym _ _ (stored_name DOTDOT d)))) as M.
    cbv beta in M. rewrite (nodeof_dir (F0 d) Hdir) in M. cbn [nd_ents nd_nlink] in M. specialize (M (fresh_name _ name n Hfresh)). set (V := upd_node d _ _) in M.
    assert (V d = mk_node T_DIR (af_nlink (F0 d)) (link (new_dirent name n) (dents (F0 d)))) as EV by (unfold V; by rewrite upd_node_eq).
    pose proof (ns_set_nlink sb Hsb _ V d 1 M Hd) as M2. rewrite EV in M2. cbn [nd_type nd_nlink nd_ents] in M2.
    eapply (ns_ext sb Hsb); [exact M2| |].
    + intros m _. unfold updf, V, upd_node. case_decide; [unfold nodeof; by rewrite A1, A2, A3|]. case_decide; [|done]. unfold nodeof. by rewrite B1, B2, B3.
    + intros m _. cbn beta. unfold zero, one. destruct (decide (m = n)) as [->|]; [by rewrite decide_False|]. lia.
  - subst b. pose proof Ha as (A1 & A2 & A3 & _). cbn [id] in A2, A3.
    pose proof (ns_plain sb Hsb zero _ n (nodeof (fresh_file type major minor)) N Hn ltac:(change (af_type (F0 n) ≠ T_DIR); by rewrite Hfree) ltac:(done) ltac:(cbn; lia)) as M.
    set (V := upd_node n _ _) in M. assert (V d = nodeof (F0 d)) as Ed by (unfold V; by rewrite upd_node_ne).
    pose proof (ns_add_entry sb Hsb _ V d n (new_dirent name n) M Hd ltac:(by rewrite Ed) Hn) as M2. assert (V n = nodeof (fresh_file type major minor)) as En by (unfold V; by rewrite upd_node_eq). rewrite Ed, En in M2.
    specialize (M2 ltac:(cbn; lia) ltac:(done) eq_refl). rewrite (nodeof_dir (F0 d) Hdir) in M2. cbn [nd_ents nd_nlink] in M2. specialize (M2 (fresh_name _ name n Hfresh)).
    eapply (ns_ext sb Hsb); [exact M2| |].
    + intros m _. unfold updf, V, upd_node. case_decide; [unfold nodeof; by rewrite A1, A2, A3|]. by case_decide.
    + intros m _. cbn beta. unfold zero, one. rewrite (no_names sb zero _ n N Hn Hfree). cbn [nodeof fresh_file af_nlink nd_nlink]. destruct (decide (m = n)), (decide (n = m)); try lia; congruence.
Qed.

Lemma made_tree F' : (∀ m, F' m = updf d a (updf n b F0) m) → tree zero F' (nref s0).
Proof using Hsb Hr Ht Hd Hdir Hn Hfree Hfresh Ha Hb.
  intros HF. destruct (made_whole F' HF) as [W A]. split; [|done..]. eapply (ns_ext sb Hsb); [exact made_ns| |done]. intros m _. by rewrite HF.
Qed.

End fresh_tree.

(** The entry for the new inode, and the end of the work on the directory. *)
Lemma create_entry s dp ip d n name b K c type major minor : 0 < type → doing s [(ip, n); (dp, d)] [(ip, n); (dp, d)] (updf n b (updf d (made_dir type (F0 d)) F0)) K c →
  inum_ok sb d → is_dir (F0 d) → inum_ok sb n → af_type (F0 n) = 0 → Forall is_byte name → dlookup (dents (F0 d)) name = None →
  made_file type major minor d n b → K ≤ 3 → c ≤ 8 →
  ∃ s' a, ('(r, s) ← dirlink sb dp name (i_inum (inode_at ip s)) s;
           if r <? 0 then None
           else s ← iunlockput sb dp s; Some (Some ip, s)) = Some (Some ip, s') ∧
    doing s' [(ip, n)] [(ip, n)] (updf d a (updf n b F0)) K (c + 4) ∧ linked_dir name n (made_dir type (F0 d)) a.
Proof using Hsb Hr.
  intros Ht Hd Hdok Hdir Hn Hfree Hb Hfresh Hm HK Hc. pose proof Hr as [Rg Rt Rq Rs Rf Rd _ _ _]. pose proof (made_ne d n Hdir Hfree) as Hne.
  destruct (made_file_type type major minor d n b Ht Hm) as (B1 & B2 & _). destruct (made_dir_same type (F0 d)) as (D1 & D2 & D3 & D4).
  pose proof (tree_dir_nlink sb Hsb zero F0 (nref s0) d Rt Hdok Hdir) as Hnl. unfold zero in Hnl.
  set (F := updf n b (updf d (made_dir type (F0 d)) F0)) in *. assert (F d = made_dir type (F0 d)) as EF by (unfold F; by rewrite updf_ne, updf_eq).
  assert (∀ m, inum_ok sb m → af_type (F0 m) ≠ 0 → af_type (F m) ≠ 0) as Hlive.
  { intros m Hmo Hmt. unfold F, updf. case_decide; [rewrite B1; lia|]. case_decide; [subst; by rewrite D1|done]. }
  destruct (entry_at sb s ip n (a_good _ _ _ _ _ _ _ _ Hd)) as [_ ->]; [apply (a_ents _ _ _ _ _ _ _ _ Hd); right; by left|].
  assert (ip ≠ dp) as Hpne.
  { assert (entry ip n s) as (i & Hi & _ & E1) by (apply (a_ents _ _ _ _ _ _ _ _ Hd); right; by left).
    assert (entry dp d s) as (j & Hj & _ & E2) by (apply (a_ents _ _ _ _ _ _ _ _ Hd); right; by right; left). congruence. }
  destruct (doing_dirlink sb Hsb s0 Rg s _ _ F K c dp d name n Hd) as (r & s1 & -> & Hcase); try done.
  { intros m Hmo. unfold F, updf. case_decide; [left; by rewrite B2|]. case_decide; [subst; left; rewrite D4; case_match; lia|].
    intros Hmt. destruct (t_anchored _ _ _ _ Rt m Hmo Hmt) as [?|?]; [by left|right]. pose proof (hcount_nonneg [(ip, n); (dp, d)] m). lia. }
  { rewrite EF. destruct (tree_dir sb zero F0 (nref s0) d Rt Hdok Hdir) as [W1 W2]. split; [by rewrite D3|]. rewrite D2. intros e He H0. destruct (W2 e He H0) as [P1 P2]. split; [done|by apply Hlive]. }
  { apply (a_valid _ _ _ _ _ _ _ _ Hd). by right; left. }
  { unfold is_dir. by rewrite EF, D1. }
  { pose proof (a_slots _ _ _ _ _ _ _ _ Hd). lia. }
  { pose proof (a_free _ _ _ _ _ _ _ _ Hd). lia. }
  { rewrite EF, D3. by apply Rd. }
  rewrite EF, D2, Hfresh in Hcase. destruct Hcase as (-> & a & H1 & Ha). cbn [mbind option_bind]. change (0 <? 0) with false. cbv iota.
  apply (doing_perm sb s0 _ _ [(dp, d); (ip, n)] _ [(dp, d); (ip, n)]) in H1; [|apply Permutation_swap..].
  destruct (doing_unlockput sb Hsb s0 Rg Rq s1 [(ip, n)] [(ip, n)] _ _ _ dp d H1) as (s2 & -> & H2).
  { intros ?%list_elem_of_singleton. by apply Hpne. }
  { right. rewrite updf_eq. destruct Ha as (_ & -> & _). rewrite D4. case_match; lia. }
  cbn [mbind option_bind]. exists s2, a. split; [done|]. split; [|done]. eapply doing_files; [exact H2|]. intros m _. unfold F, updf. by repeat case_decide.
Qed.

(** create() once the name was not found. *)
Lemma create_new s dp d name K type major minor : 0 < type < 256 → doing s [(dp, d)] [(dp, d)] F0 K 0 → inum_ok sb d → is_dir (F0 d) → Forall is_byte name →
  dlookup (dents (F0 d)) name = None → (∃ n, inum_ok sb n ∧ af_type (F0 n) = 0) → K ≤ 1 →
  ∃ s' ip n a b K' c', ('(ip, s) ← new_inode sb (i_dev (inode_at dp s)) type major minor s;
          s ← (if type =? T_DIR then
                 let s := add_nlink sb dp 1 s in
                 '(r, s) ← dirlink sb ip DOT (i_inum (inode_at ip s)) s;
                 if r <? 0 then None
                 else '(r, s) ← dirlink sb ip DOTDOT (i_inum (inode_at dp s)) s;
                      if r <? 0 then None else Some s
               else Some s);
          '(r, s) ← dirlink sb dp name (i_inum (inode_at ip s)) s;
          if r <? 0 then None
          else s ← iunlockput sb dp s; Some (Some ip, s)) = Some (Some ip, s') ∧
    inum_ok sb n ∧ af_type (F0 n) = 0 ∧ doing s' [(ip, n)] [(ip, n)] (updf d a (updf n b F0)) K' c' ∧
    made_file type major minor d n b ∧ linked_dir name n (made_dir type (F0 d)) a.
Proof using Hsb Hr.
  intros Ht Hd Hdok Hdir Hb Hfresh Hfree HK. pose proof Hr as [Rg Rt Rq Rs Rf Rd Rl _ _].
  destruct (entry_at sb s dp d (a_good _ _ _ _ _ _ _ _ Hd)) as [-> _]; [apply (a_ents _ _ _ _ _ _ _ _ Hd); right; by left|].
  destruct (doing_new sb Hsb s0 Rq s _ _ F0 K 0 type major minor Hd Ht) as (ip & n & s1 & -> & Hn & Hn0 & HL & H1); [pose proof (a_slots _ _ _ _ _ _ _ _ Hd); lia|done|].
  cbn [mbind option_bind]. pose proof (made_ne d n Hdir Hn0) as Hne.
  assert (∃ s2 b c, (if type =? T_DIR then
                 let s := add_nlink sb dp 1 s1 in
                 '(r, s) ← dirlink sb ip DOT (i_inum (inode_at ip s)) s;
                 if r <? 0 then None
                 else '(r, s) ← dirlink sb ip DOTDOT (i_inum (inode_at dp s)) s;
                      if r <? 0 then None else Some s
               else Some s1) = Some s2 ∧ doing s2 [(ip, n); (dp, d)] [(ip, n); (dp, d)] (updf n b (updf d (made_dir type (F0 d)) F0)) (K + 1) c ∧
               made_file type major minor d n b ∧ c ≤ 8) as (s2 & b & c & E2 & H2 & Hm & Hc).
  { unfold made_file, made_dir. destruct (Z.eqb_spec type T_DIR) as [->|Hnd].
    2: { exists s1, (fresh_file type major minor), 0. split_and!; try done. eapply doing_files; [exact H1|]. intros m _. unfold updf. case_decide; [done|]. by case_decide; subst. }
    cbv zeta. pose proof (tree_dir_nlink sb Hsb zero F0 (nref s0) d Rt Hdok Hdir) as Hnl. unfold zero in Hnl. pose proof (Rl d Hdok).
    assert (owns s1 dp d) as O1 by (apply (a_valid _ _ _ _ _ _ _ _ H1); by right; left).
    pose proof (doing_nlink sb Hsb s0 s1 _ _ _ _ _ dp d 1 H1 O1) as H2. rewrite updf_ne in H2 by done. specialize (H2 ltac:(lia)).
    destruct (new_dots _ dp ip d n _ (K + 1) H2) as (s3 & b & E & H3 & Hb3); try done; try lia.
    - intros m Hmo. unfold updf. case_decide; [left; cbn [relink af_nlink]; lia|]. case_decide; [by left|].
      intros Hmt. destruct (t_anchored _ _ _ _ Rt m Hmo Hmt) as [?|?]; [by left|right]. pose proof (hcount_nonneg [(ip, n); (dp, d)] m). lia.
    - rewrite updf_eq. cbn [relink af_type]. by rewrite Hdir.
    - rewrite updf_ne, updf_eq by done. by eexists _, _.
    - exists s3, b, 8. split; [exact E|]. split; [|done]. eapply doing_files; [exact H3|]. intros m _. unfold updf. by repeat case_decide. }
  cbn [mbind option_bind] in E2. rewrite E2. cbn [mbind option_bind].
  destruct (create_entry s2 dp ip d n name b (K + 1) c type major minor (proj1 Ht) H2 Hdok Hdir Hn Hn0 Hb Hfresh Hm ltac:(lia) Hc) as (s3 & a & E3 & H3 & Ha).
  cbn [mbind option_bind] in E3. rewrite E3.
  by exists s3, ip, n, a, b, (K + 1), (c + 4).
Qed.

Context (Hbuf : name_buf nm).

(** The directory and the name that create() works on, and what the name stands for. *)
Definition make_target (F : Z → afile) (path : list Z) : option (Z * list Z * option Z) :=
  d ← resolve F true (start cd path) (elements path);
  e ← last (elements path);
  Some (d, e, dlookup (dents (F d)) e).

(** The name exists: a file or a device is opened, if a file was asked for. *)
Definition openable (type : Z) (a : afile) : bool := (type =? T_FILE) && ((af_type a =? T_FILE) || (af_type a =? T_DEVICE)).

Lemma create_found s dp ip d m K type : doing s [(ip, m); (dp, d)] [(dp, d)] F0 K 0 → inum_ok sb d → af_type (F0 d) ≠ 0 → inum_ok sb m → af_type (F0 m) ≠ 0 →
  ∃ r s', (s ← iunlockput sb dp s;
           s ← ilock sb ip s;
           if (type =? T_FILE) && ((d_type (din ip s) =? T_FILE) || (d_type (din ip s) =? T_DEVICE)) then Some (Some ip, s)
           else s ← iunlockput sb ip s; Some (None, s)) = Some (r, s') ∧
    if openable type (F0 m) then r = Some ip ∧ doing s' [(ip, m)] [(ip, m)] F0 K 0 else r = None ∧ doing s' [] [] F0 K 0.
Proof using Hsb Hr.
  intros Hd Hdok Hdt Hm Hmt. pose proof Hr as [Rg Rt Rq _ _ _ _ _ _]. apply (doing_perm sb s0 _ _ [(dp, d); (ip, m)] _ [(dp, d)]) in Hd; [|apply Permutation_swap|done].
  destruct (doing_unlockput sb Hsb s0 Rg Rq s [(ip, m)] [] F0 K 0 dp d Hd) as (s1 & -> & H1); [by intros ?%elem_of_nil| |].
  { eapply (tree_kept sb s0 zero F0 [(ip, m)] d); [|done|done]. by apply more_refs. }
  cbn [mbind option_bind]. destruct (doing_lock sb Hsb s0 Rq s1 _ [] F0 K 0 ip m H1) as (s2 & -> & H2 & O2 & _); [apply (a_ents _ _ _ _ _ _ _ _ H1); right; by left|by intros ?%elem_of_nil|done|].
  cbn [mbind option_bind]. destruct (doing_din sb s0 s2 _ _ F0 K 0 ip m H2 O2) as [(_ & Et & _) _]. cbn [file_of af_type] in Et. unfold openable. rewrite Et. case_match.
  - exists (Some ip), s2. by split_and!.
  - destruct (doing_unlockput sb Hsb s0 Rg Rq s2 [] [] F0 K 0 ip m H2 ltac:(by intros ?%elem_of_nil) (kept0 sb cwd s0 cd Hr m Hm Hmt)) as (s3 & -> & H3).
    cbn [mbind option_bind]. exists None, s3. by split_and!.
Qed.

(** What create() does. *)
Definition created (type major minor : Z) (path : list Z) (r : option nat) (s' : fs) : Prop :=
  match make_target F0 path with
  | None => r = None ∧ ∃ K, doing s' [] [] F0 K 0
  | Some (d, e, Some m) => inum_ok sb m ∧ ∃ K,
      if openable type (F0 m) then ∃ ip, r = Some ip ∧ doing s' [(ip, m)] [(ip, m)] F0 K 0 else r = None ∧ doing s' [] [] F0 K 0
  | Some (d, e, None) => inum_ok sb d ∧ is_dir (F0 d) ∧ ∃ ip n F' K c, r = Some ip ∧ inum_ok sb n ∧ af_type (F0 n) = 0 ∧
      doing s' [(ip, n)] [(ip, n)] F' K c ∧ made type major minor d e n F' ∧ tree zero F' (nref s0)
  end.

Lemma create_spec path type major minor : path_ok path → 0 < type < 256 → (∃ n, inum_ok sb n ∧ af_type (F0 n) = 0) →
  ∃ r s', create sb cwd nm path type major minor s0 = Some (r, s') ∧ created type major minor path r s'.
Proof using Hsb Hr Hbuf.
  intros Hp Hty Hfree. destruct Hbuf as [Hnm Hnmb]. pose proof Hr as [Rg Rt Rq Rs Rf Rd Rl Rc Rcd]. destruct (path_bytes path Hp) as [Hz Hb]. unfold create, nameiparent, created, make_target.
  destruct (doing_namex sb Hsb s0 Rg Rq zero s0 [] F0 0 0 cwd cd path true nm (doing_start sb s0 Rg)) as (r & name & s1 & -> & _ & Hre & _ & Hbn & Hlast); try done.
  { by apply more_refs. }
  { lia. }
  { by rewrite Rcd. }
  cbn [mbind option_bind]. fold (start cd path) in Hre.
  destruct (resolve F0 true (start cd path) (elements path)) as [d|] eqn:Ed; cbn [mbind option_bind] in *.
  2: { destruct Hre as [-> H1]. exists None, s1. split_and!; try done. by eexists. }
  destruct Hre as (dp & -> & H1 & Hdok & Hdt). destruct (Hlast eq_refl ltac:(done)) as (e & He & Hne). rewrite He. cbn [mbind option_bind] in *.
  assert (is_dir (F0 d)) as Hdir by (by eapply resolve_parent).
  destruct (doing_lock sb Hsb s0 Rq s1 _ [] F0 _ 0 dp d H1) as (s2 & -> & H2 & O2 & _); [apply (a_ents _ _ _ _ _ _ _ _ H1); right; by left|by intros ?%elem_of_nil|done|].
  cbn [mbind option_bind].
  pose proof (doing_dirlookup sb Hsb s0 s2 _ _ F0 _ 0 dp d name H2 (tree_dir sb _ _ _ d Rt Hdok Hdir) O2 Hdir) as Hfind. rewrite (names_index _ name e Hne) in Hfind.
  specialize (Hfind ltac:(pose proof (a_slots _ _ _ _ _ _ _ _ H2); lia)). unfold dlookup. destruct (find_index (names e) (dents (F0 d))) as [k|] eqn:Ek; cbn [mbind option_bind] in *.
  - destruct Hfind as (en & ip & s3 & Hen & -> & Hm & Hmt & H3 & _). rewrite Hen. cbn [fmap option_fmap option_map mbind option_bind].
    destruct (create_found s3 dp ip d (de_inum en) _ type H3 Hdok Hdt Hm Hmt) as (r & s4 & E & Hcase). cbn [mbind option_bind] in E. rewrite E. exists r, s4. split; [done|]. split; [done|]. eexists.
    destruct (openable type (F0 (de_inum en))); [|exact Hcase]. exists ip. exact Hcase.
  - rewrite Hfind. cbn [mbind option_bind]. assert (dlookup (dents (F0 d)) name = None) as Hfresh by (unfold dlookup; by rewrite (names_index _ name e Hne), Ek).
    destruct (create_new s2 dp d name _ type major minor Hty H2 Hdok Hdir (Hbn Hb Hnmb) Hfresh Hfree ltac:(lia)) as (s3 & ip & n & a & b & K & c & E & Hn & Hn0 & H3 & Hm & Ha).
    cbn [mbind option_bind] in E. rewrite E. exists (Some ip), s3. split; [done|]. split; [done|]. split; [done|]. eexists ip, n, _, K, c. split_and!; try done.
    + by exists name, a, b.
    + by apply (made_tree type major minor d n name a b (proj1 Hty)).
Qed.

(** mkdir() and mknod() *)
Lemma make_spec path type major minor : path_ok path → 0 < type < 256 → type ≠ T_FILE → (∃ n, inum_ok sb n ∧ af_type (F0 n) = 0) →
  ∃ r s' F' K c, make sb cwd nm path type major minor s0 = Some (r, s') ∧ doing s' [] [] F' K c ∧ tree zero F' (nref s0) ∧
    match make_target F0 path with
    | Some (d, e, None) => r = 0 ∧ inum_ok sb d ∧ is_dir (F0 d) ∧ ∃ n, inum_ok sb n ∧ af_type (F0 n) = 0 ∧ made type major minor d e n F'
    | _ => r = -1 ∧ F' = F0
    end.
Proof using Hsb Hr Hbuf.
  intros Hp Hty Hnf Hfree. pose proof Hr as [Rg Rt Rq _ _ _ _ _ _]. unfold make. destruct (create_spec path type major minor Hp Hty Hfree) as (r & s1 & -> & Hc). cbn [mbind option_bind]. unfold created in Hc.
  destruct (make_target F0 path) as [[[d e] [m|]]|].
  - destruct Hc as (_ & K & Hc). unfold openable in Hc. rewrite (proj2 (Z.eqb_neq type T_FILE) Hnf) in Hc. cbn [andb] in Hc. destruct Hc as [-> Hd]. exists (-1), (end_op s1), F0, K, 0. split_and!; try done. by apply doing_end_op.
  - destruct Hc as (Hdok & Hdir & ip & n & F' & K & c & -> & Hn & Hn0 & Hd & Hm & Ht).
    destruct (doing_unlockput sb Hsb s0 Rg Rq s1 [] [] F' K c ip n Hd) as (s2 & -> & H2); [by intros ?%elem_of_nil| |].
    { right. destruct Hm as (name & a & b & _ & Hb & _ & HF). pose proof (made_ne d n Hdir Hn0) as Hne. rewrite HF, updf_ne, updf_eq by done.
      by destruct (made_file_type type major minor d n b (proj1 Hty) Hb) as (_ & -> & _). }
    cbn [mbind option_bind]. exists 0, (end_op s2), F', K, c. split; [done|]. split; [by apply doing_end_op|]. split; [done|]. split_and!; try done. by exists n.
  - destruct Hc as (-> & K & Hd). exists (-1), (end_op s1), F0, K, 0. split_and!; try done. by apply doing_end_op.
Qed.

End create.
