(* ===== verification/NameCalls.v ===== *)
(** * What the calls on names promise

    link(), unlink(), mkdir() and mknod() against the files they see: which names
    appear and disappear, what happens to the link counts and when an inode is
    freed; and the invariant they keep between calls. *)

From stdpp Require Import list_numbers gmap.
From S2P Require Import Prelude Mem CString Xattr Fs FsInv FsFile FsNode FsIO FsFree FsOps FsShare FsRange FsSpec FsCache Dir Path File Sysfile Names SysNames SysMake.

(** A directory without names twice is a map. *)
Lemma dlookup_uniq l e m : uniq l → dlookup l e = Some m ↔ ∃ k en, l !! k = Some en ∧ de_inum en = m ∧ m ≠ 0 ∧ namecmp e (de_name en) = 0.
Proof.
  intros Hu. unfold dlookup. split.
  - intros (k & Hk & (en & He & ->)%fmap_Some)%bind_Some. exists k, en. apply find_index_Some in Hk as [(y & Hy & Hn) _]. rewrite He in Hy. injection Hy as <-.
    unfold names in Hn. bool_facts. by split_and!.
  - intros (k & en & He & <- & H0 & Hn). assert (names e en = true) as Ht by (unfold names; by rewrite (proj2 (Z.eqb_neq _ _) H0), Hn).
    destruct (find_index (names e) l) as [j|] eqn:Ej.
    + apply find_index_Some in Ej as [(y & Hy & Hny) _]. cbn. rewrite Hy. cbn. f_equal. unfold names in Hny. bool_facts.
      assert (j = k) as -> by (eapply (Hu j k y en); try done; eapply namecmp_trans; [by apply namecmp_sym|done]). congruence.
    + pose proof (find_index_None _ _ Ej en (list_elem_of_lookup_2 _ _ _ He)). congruence.
Qed.

Lemma dlookup_clear l e k e' : uniq l → find_index (names e) l = Some k → dlookup (<[k := no_dirent]> l) e' = if namecmp e' e =? 0 then None else dlookup l e'.
Proof.
  intros Hu Hk. pose proof Hk as [(en & He & Hn) _]%find_index_Some. unfold names in Hn. bool_facts.
  assert (∀ j y, l !! j = Some y → de_inum y ≠ 0 → namecmp e (de_name y) = 0 → j = k) as Hj.
  { intros j y Hy Hy0 Hny. eapply (Hu j k y en); try done. eapply namecmp_trans; [by apply namecmp_sym|done]. }
  apply option_eq. intros m. rewrite dlookup_uniq by (by apply uniq_clear). destruct (Z.eqb_spec (namecmp e' e) 0) as [E|E].
  - split; [|done]. intros (j & y & Hy & <- & Hy0 & Hny). exfalso. apply list_lookup_insert_Some in Hy as [(_ & <- & _)|[Hne Hy]]; [done|]. apply Hne. symmetry. apply (Hj j y); try done.
    eapply namecmp_trans; [by apply namecmp_sym|done].
  - rewrite dlookup_uniq by done. split; intros (j & y & Hy & <- & Hy0 & Hny).
    + apply list_lookup_insert_Some in Hy as [(_ & <- & _)|[_ Hy]]; [done|]. by exists j, y.
    + exists j, y. split_and!; try done. rewrite list_lookup_insert_ne; [done|]. intros <-. rewrite He in Hy. injection Hy as <-. apply E. eapply namecmp_trans; [done|]. by apply namecmp_sym.
Qed.

Section names.
Context (sb : superblock) (Hsb : sb_wf sb) (cwd : nat) (nm : list Z) (cd : Z).

Abbreviation good := (good sb).
Abbreviation abs := (abs sb).

(** ** The calls *)

Inductive ncall :=
  | Link (old new : list Z)
  | Unlink (path : list Z)
  | Mkdir (path : list Z)
  | Mknod (path : list Z) (major minor : Z).

Definition nrun (c : ncall) : fs → option (Z * fs) :=
  match c with
  | Link old new => sys_link sb cwd nm old new
  | Unlink path => sys_unlink sb cwd nm path
  | Mkdir path => sys_mkdir sb cwd nm path
  | Mknod path major minor => sys_mknod sb cwd nm path major minor
  end.

(** The paths are strings; a directory that is removed is not in use; there is an
    inode for a new file. *)
Definition ncall_ok (c : ncall) (s : fs) : Prop :=
  match c with
  | Link old new => path_ok old ∧ path_ok new
  | Unlink path => path_ok path ∧ ∀ d k n, unlink_target cd (abs s) path = Some (d, k, n) → is_dir (abs s n) → nref s n = 0
  | Mkdir path => path_ok path ∧ ∃ n, inum_ok sb n ∧ af_type (abs s n) = 0
  | Mknod path _ _ => path_ok path ∧ ∃ n, inum_ok sb n ∧ af_type (abs s n) = 0
  end.

(** Between calls: the names form a tree and every link count is right. *)
Record settled (s : fs) : Prop := {
  e_good : good s;
  e_tree : tree sb zero (abs s) (nref s);
  e_quiet : Forall (eq false) (locks s);
  e_cwd : entry cwd cd s;
  e_cwd_dir : is_dir (abs s cd);
}.

(** Room for a call: entries of the inode cache, blocks, space in the
    directories and in the link counts. *)
Record roomy (s : fs) : Prop := {
  m_slots : 4 ≤ slots s;
  m_free : 12 ≤ nfree sb s;
  m_dirs : ∀ d, inum_ok sb d → is_dir (abs s d) → af_size (abs s d) + DESZ ≤ MAXSIZE;
  m_links : ∀ n, inum_ok sb n → af_nlink (abs s n) < 2 ^ 15 - 1;
}.

Lemma settled_ready s : settled s → roomy s → ready sb cwd s cd.
Proof. intros [] []. by split. Qed.

(** What holds once a call is over. *)
Lemma over_settled s s' F' K c : ready sb cwd s cd → doing sb s s' [] [] F' K c → tree sb zero F' (nref s) → is_dir (F' cd) → settled s'.
Proof using Hsb.
  intros Hr Hd Ht Hcd. pose proof Hr as [Rg Rt Rq _ _ _ _ Rc _]. pose proof Hd as [A B C D _ _ I _]. split.
  - done.
  - apply (doing_tree sb Hsb s s' [] [] F' K c zero Hd). by apply more_refs.
  - by rewrite C.
  - apply D. by left.
  - unfold is_dir. by destruct (I cd (entry_ok sb s cwd cd Rg Rc)) as (_ & -> & _).
Qed.

Context (Hbuf : name_buf nm).

Lemma link_settled s old new : ready sb cwd s cd → path_ok old → path_ok new → ∃ r s', sys_link sb cwd nm old new s = Some (r, s') ∧ settled s'.
Proof using Hsb Hbuf.
  intros Hr Ho Hn. destruct (sys_link_spec sb Hsb cwd nm s cd Hr Hbuf old new Ho Hn) as (r & s' & F' & K & c & E & Hd & Ht & Hcase). exists r, s'. split; [done|].
  eapply over_settled; [done|exact Hd|done|]. pose proof Hr as [Rg _ _ _ _ _ _ Rc Rcd]. pose proof (entry_ok sb s cwd cd Rg Rc) as Hcd.
  destruct (link_target cd (abs s) old new) as [[[d e] n]|].
  - destruct Hcase as (_ & Hdn & _ & _ & _ & name & a & _ & Ha & HF). rewrite HF. unfold updf. case_decide; [apply Ha|]. by case_decide; subst.
  - destruct Hcase as [_ HF]. unfold is_dir. by destruct (HF cd Hcd) as (_ & <- & _).
Qed.

Lemma unlink_settled s path : ready sb cwd s cd → ncall_ok (Unlink path) s → ∃ r s', sys_unlink sb cwd nm path s = Some (r, s') ∧ settled s'.
Proof using Hsb Hbuf.
  intros Hr [Hp Huse]. destruct (sys_unlink_spec sb Hsb cwd nm s cd Hr Hbuf path Hp Huse) as (r & s' & F' & K & c & E & Hd & Ht & Hcase). exists r, s'. split; [done|].
  eapply over_settled; [done|exact Hd|done|]. pose proof Hr as [Rg _ _ _ _ _ _ Rc Rcd]. pose proof (entry_ok sb s cwd cd Rg Rc) as Hcd.
  destruct (unlink_target cd (abs s) path) as [[[d k] n]|].
  - destruct Hcase as (_ & (a & Ha & HF) & _). rewrite HF. unfold dropped_file. pose proof (entry_nref sb cwd cd s Rg Rc) as Href.
    assert (is_dir (updf n (relink (-1) (abs s n)) (updf d (if af_type (abs s n) =? T_DIR then relink (-1) a else a) (abs s)) cd)) as Hu.
    { unfold updf. case_decide; [by subst|]. case_decide; [|done]. case_match; apply Ha. }
    case_decide as Hz; [|done]. rewrite updf_ne; [done|]. intros ->. lia.
  - destruct Hcase as [_ HF]. unfold is_dir. by destruct (HF cd Hcd) as (_ & <- & _).
Qed.

Lemma make_settled s path type major minor : ready sb cwd s cd → path_ok path → (∃ n, inum_ok sb n ∧ af_type (abs s n) = 0) → 0 < type < 256 → type ≠ T_FILE →
  ∃ r s', make sb cwd nm path type major minor s = Some (r, s') ∧ settled s'.
Proof using Hsb Hbuf.
  intros Hr Hp Hfree Hty Hnf. destruct (make_spec sb Hsb cwd nm s cd Hr Hbuf path type major minor Hp Hty Hnf Hfree) as (r & s' & F' & K & c & E & Hd & Ht & Hcase). exists r, s'. split; [done|].
  eapply over_settled; [done|exact Hd|done|]. pose proof Hr as [_ _ _ _ _ _ _ _ Rcd].
  destruct (make_target cd (abs s) path) as [[[d e] [m|]]|]; [by destruct Hcase as [_ ->]| |by destruct Hcase as [_ ->]].
  destruct Hcase as (_ & _ & _ & n & _ & Hn0 & name & a & b & _ & _ & Ha & HF). rewrite HF. unfold updf. case_decide; [apply Ha|]. case_decide; [|done]. subst n. unfold is_dir in Rcd. by rewrite Rcd in Hn0.
Qed.

Lemma ncall_settled c s : settled s → roomy s → ncall_ok c s → ∃ r s', nrun c s = Some (r, s') ∧ settled s'.
Proof using Hsb Hbuf.
  intros He Hm Hok. pose proof (settled_ready s He Hm) as Hr. destruct c as [old new|path|path|path major minor]; cbn [nrun].
  - destruct Hok. by apply link_settled.
  - by apply unlink_settled.
  - destruct Hok. by apply make_settled.
  - destruct Hok. by apply make_settled.
Qed.

(** The states that calls lead to, each made with room. *)
Inductive nreach (s : fs) : fs → Prop :=
  | nreach_start : nreach s s
  | nreach_call c s1 r s2 : nreach s s1 → roomy s1 → ncall_ok c s1 → nrun c s1 = Some (r, s2) → nreach s s2.

(** C5: from a state in which the names form a tree (every directory but the root
    has exactly one name, in the directory its ".." leads to, and no directory
    lies below itself; every link count is the number of names plus the number
    of ".." entries; no name occurs twice in a directory and none leads to a free
    inode), every sequence of link(), unlink(), mkdir() and mknod() calls keeps all
    of that, returns every lock it took, and never panics, provided that each call
    has room (entries of the inode cache, a free inode for mkdir() and mknod(),
    blocks, space in the directories, link counts below 2^15 - 1) and that unlink()
    does not remove a directory in use, that is open or the current directory of a
    process: the code does not refuse that, and such a directory would stay
    without a name. *)
Theorem name_calls_keep_tree s s' : settled s → nreach s s' →
  settled s' ∧ ∀ c, roomy s' → ncall_ok c s' → ∃ r s2, nrun c s' = Some (r, s2).
Proof using Hsb Hbuf.
  intros Hs Hreach. assert (settled s') as Hs'.
  { induction Hreach as [|c s1 r s2 _ IH Hm Hok E]; [done|]. destruct (ncall_settled c s1 IH Hm Hok) as (r' & s2' & E' & He). congruence. }
  split; [done|]. intros c Hm Hok. destruct (ncall_settled c s' Hs' Hm Hok) as (r & s2 & E & _). by exists r, s2.
Qed.

(** ** Names *)

Lemma over_file s s' F' K c n a : doing sb s s' [] [] F' K c → inum_ok sb n → F' n = a → agree (abs s' n) a.
Proof. intros [_ _ _ _ _ _ I _] Hn <-. by apply I. Qed.

Lemma over_dents s s' F' K c n a : doing sb s s' [] [] F' K c → inum_ok sb n → F' n = a → dents (abs s' n) = dents a.
Proof. intros Hd Hn <-. by apply (doing_dents sb s s' [] [] F' K c). Qed.

(** The references and the locks are those at the start. *)
Definition restored (s s' : fs) : Prop := (∀ n, nref s' n = nref s n) ∧ locks s' = locks s.

Lemma over_restored s s' F' K c : doing sb s s' [] [] F' K c → restored s s'.
Proof. intros [_ B C _ _ _ _ _]. split; [|done]. intros n. rewrite B. cbn. lia. Qed.

(** A directory in which [e] now stands for [m]. *)
Definition renamed (e : list Z) (m : option Z) (a a' : afile) : Prop :=
  ∀ e', dlookup (dents a') e' = if namecmp e' e =? 0 then m else dlookup (dents a) e'.

Lemma linked_renamed name e n a a' : linked_dir name n a a' → namecmp name e = 0 → n ≠ 0 → dlookup (dents a) e = None → renamed e (Some n) a a'.
Proof.
  intros (_ & _ & E & _) Hne Hn Hf e'. rewrite E, dlookup_link; [|done|by rewrite (dlookup_cong _ e name Hne)].
  assert ((namecmp e' name =? 0) = (namecmp e' e =? 0)) as ->; [|done]. apply Bool.eq_iff_eq_true. rewrite !Z.eqb_eq.
  split; intros H; [by eapply namecmp_trans|]. eapply namecmp_trans; [done|]. by apply namecmp_sym.
Qed.

(** C21: link() gives a file one more name: when the old path leads to a file (not a
    directory), the new path's directory exists and the name is free there, the
    directory gets exactly that name for the inode and the link count grows by
    one, and nothing else changes; in every other case it returns -1 and leaves
    all files and link counts as they were. References and locks are restored.
    There is room for the call, and link counts are below 2^15 - 1: the code adds
    to the 16-bit count without a test. *)
Theorem link_adds_name s old new : ready sb cwd s cd → path_ok old → path_ok new →
  ∃ r s', sys_link sb cwd nm old new s = Some (r, s') ∧ restored s s' ∧
    match link_target cd (abs s) old new with
    | None => r = -1 ∧ ∀ m, inum_ok sb m → agree (abs s' m) (abs s m)
    | Some (d, e, n) => r = 0 ∧ renamed e (Some n) (abs s d) (abs s' d) ∧ agree (abs s' n) (relink 1 (abs s n)) ∧
        ∀ m, inum_ok sb m → m ≠ d → m ≠ n → agree (abs s' m) (abs s m)
    end.
Proof using Hsb Hbuf.
  intros Hr Ho Hn. destruct (sys_link_spec sb Hsb cwd nm s cd Hr Hbuf old new Ho Hn) as (r & s' & F' & K & c & E & Hd & _ & Hcase). exists r, s'. split; [done|]. split; [by eapply over_restored|].
  destruct (link_target cd (abs s) old new) as [[[d e] n]|].
  - destruct Hcase as (-> & Hdn & Hdok & Hnok & Hf & name & a & Hne & Ha & HF). split; [done|]. split; [|split].
    + intros e'. rewrite (over_dents s s' F' K c d a Hd Hdok) by (by rewrite HF, updf_eq). apply (linked_renamed name e n (abs s d) a); try done. unfold inum_ok in Hnok. lia.
    + apply (over_file s s' F' K c n _ Hd Hnok). by rewrite HF, updf_ne, updf_eq.
    + intros m Hm H1 H2. apply (over_file s s' F' K c m _ Hd Hm). by rewrite HF, !updf_ne.
  - destruct Hcase as [-> HF]. split; [done|]. intros m Hm. etrans; [by apply (over_file s s' F' K c m (F' m) Hd)|]. symmetry. by apply HF.
Qed.

Lemma cleared_renamed e k a a' : uniq (dents a) → find_index (names e) (dents a) = Some k → dents a' = <[k := no_dirent]> (dents a) → renamed e None a a'.
Proof. intros Hu Hk E e'. rewrite E. by apply dlookup_clear. Qed.

Lemma unlink_target_name F path d k n : unlink_target cd F path = Some (d, k, n) → ∃ e, last (elements path) = Some e ∧ find_index (names e) (dents (F d)) = Some k ∧ dlookup (dents (F d)) e = Some n.
Proof.
  unfold unlink_target. intros (d' & Hd & H)%bind_Some. apply bind_Some in H as (e & He & H). case_match; [done|]. apply bind_Some in H as (k' & Hk & H). apply bind_Some in H as (n' & Hn & H).
  case_match; [done|]. injection H as -> -> ->. exists e. split_and!; try done. unfold dlookup. by rewrite Hk.
Qed.

(** The file [n] after one of its names went; [r]: the references to it. *)
Definition after_unlink (a : afile) (r : Z) : afile :=
  if decide (af_nlink a = 1 ∧ r = 0) then freed (relink (-1) a) else relink (-1) a.

(** C11: unlink() takes away exactly the name the path ends in: the directory loses
    it and no other name, the link count of the inode falls by one (and that of
    the directory, when a directory goes), the inode is freed exactly when that
    was its last link and nobody holds a reference, and no other file changes.
    For ".", "..", a missing name or a directory that is not empty it returns -1
    and changes nothing. *)
Theorem unlink_removes_name s path : ready sb cwd s cd → ncall_ok (Unlink path) s →
  ∃ r s', sys_unlink sb cwd nm path s = Some (r, s') ∧ restored s s' ∧
    match unlink_target cd (abs s) path with
    | None => r = -1 ∧ ∀ m, inum_ok sb m → agree (abs s' m) (abs s m)
    | Some (d, k, n) => r = 0 ∧ d ≠ n ∧ (∃ e, last (elements path) = Some e ∧ dlookup (dents (abs s d)) e = Some n ∧ renamed e None (abs s d) (abs s' d)) ∧
        af_nlink (abs s' d) = af_nlink (abs s d) - (if af_type (abs s n) =? T_DIR then 1 else 0) ∧
        agree (abs s' n) (after_unlink (abs s n) (nref s n)) ∧
        ∀ m, inum_ok sb m → m ≠ d → m ≠ n → agree (abs s' m) (abs s m)
    end.
Proof using Hsb Hbuf.
  intros Hr [Hp Huse]. destruct (sys_unlink_spec sb Hsb cwd nm s cd Hr Hbuf path Hp Huse) as (r & s' & F' & K & c & E & Hd & _ & Hcase). exists r, s'. split; [done|]. split; [by eapply over_restored|].
  destruct (unlink_target cd (abs s) path) as [[[d k] n]|] eqn:Et.
  2: { destruct Hcase as [-> HF]. split; [done|]. intros m Hm. etrans; [by apply (over_file s s' F' K c m (F' m) Hd)|]. symmetry. by apply HF. }
  destruct Hcase as (-> & (a & Ha & HF) & Hdok & Hdir & Hnok & Hne). destruct (unlink_target_name (abs s) path d k n Et) as (e & He & Hk & Hl).
  assert (F' n = after_unlink (abs s n) (nref s n)) as En.
  { rewrite HF. unfold dropped_file, after_unlink. rewrite updf_eq. cbn [relink af_nlink]. destruct (decide (af_nlink (abs s n) = 1 ∧ nref s n = 0)) as [[E1 E2]|Hz].
    - rewrite decide_True by (split; [lia|done]). by rewrite updf_eq.
    - rewrite decide_False by (intros [? ?]; apply Hz; split; [lia|done]). by rewrite updf_eq. }
  assert (∀ m, m ≠ n → F' m = updf d (if af_type (abs s n) =? T_DIR then relink (-1) a else a) (abs s) m) as Hoth.
  { intros m Hm. rewrite HF. unfold dropped_file. case_decide; by rewrite !(updf_ne n). }
  pose proof (Hoth d Hne) as Ed. rewrite updf_eq in Ed. destruct Ha as (A1 & A2 & A3 & A4). split; [done|]. split; [done|]. split_and!.
  - exists e. split_and!; try done. apply (cleared_renamed e k); [|done|].
    + pose proof (ns_uniq _ _ _ (t_ns _ _ _ _ (r_tree _ _ _ _ Hr)) d Hdok Hdir) as Hu. cbv beta in Hu. by rewrite (nodeof_dir (abs s d) Hdir) in Hu.
    + rewrite (over_dents s s' F' K c d _ Hd Hdok Ed). by case_match.
  - destruct (over_file s s' F' K c d _ Hd Hdok Ed) as (_ & _ & _ & _ & -> & _). case_match; cbn [relink af_nlink]; lia.
  - by apply (over_file s s' F' K c n _ Hd Hnok).
  - intros m Hm H1 H2. apply (over_file s s' F' K c m _ Hd Hm). by rewrite Hoth, updf_ne.
Qed.

(** C22: mkdir() and mknod() make a file from an inode that was free: the directory of
    the path gets exactly the new name for it; mkdir() leaves a directory with
    "." for itself and ".." for its parent, one link, and one link more on the
    parent; mknod() leaves a device file of the given numbers with one link and
    no contents. No other file changes. When the name exists already or the
    directory does not, they return -1 and change nothing. *)
Theorem make_adds_name s path type major minor : ready sb cwd s cd → path_ok path → (∃ n, inum_ok sb n ∧ af_type (abs s n) = 0) → type = T_DIR ∨ type = T_DEVICE →
  ∃ r s', make sb cwd nm path type major minor s = Some (r, s') ∧ restored s s' ∧
    match make_target cd (abs s) path with
    | Some (d, e, None) => r = 0 ∧ ∃ n, inum_ok sb n ∧ af_type (abs s n) = 0 ∧ renamed e (Some n) (abs s d) (abs s' d) ∧
        af_nlink (abs s' d) = af_nlink (abs s d) + (if type =? T_DIR then 1 else 0) ∧
        (if type =? T_DIR then af_type (abs s' n) = T_DIR ∧ af_nlink (abs s' n) = 1 ∧ dents (abs s' n) = [new_dirent DOT n; new_dirent DOTDOT d]
         else agree (abs s' n) (fresh_file type major minor)) ∧
        ∀ m, inum_ok sb m → m ≠ d → m ≠ n → agree (abs s' m) (abs s m)
    | _ => r = -1 ∧ ∀ m, inum_ok sb m → agree (abs s' m) (abs s m)
    end.
Proof using Hsb Hbuf.
  intros Hr Hp Hfree Hty. assert (0 < type < 256 ∧ type ≠ T_FILE) as [Hty1 Hty2] by (destruct Hty; by subst).
  destruct (make_spec sb Hsb cwd nm s cd Hr Hbuf path type major minor Hp Hty1 Hty2 Hfree) as (r & s' & F' & K & c & E & Hd & _ & Hcase). exists r, s'. split; [done|]. split; [by eapply over_restored|].
  assert (F' = abs s → ∀ m, inum_ok sb m → agree (abs s' m) (abs s m)) as Hsame by (intros EF m Hm; apply (over_file s s' F' K c m _ Hd Hm); by rewrite EF).
  destruct (make_target cd (abs s) path) as [[[d e] [m|]]|] eqn:Et; [destruct Hcase; auto| |destruct Hcase; auto].
  assert (dlookup (dents (abs s d)) e = None) as Hf.
  { unfold make_target in Et. apply bind_Some in Et as (d' & _ & Et). apply bind_Some in Et as (e' & _ & Et). injection Et as -> -> Ef. done. }
  destruct Hcase as (-> & Hdok & Hdir & n & Hnok & Hn0 & name & a & b & Hne & Hb & Ha & HF). pose proof (made_ne sb s d n Hdir Hn0) as Hdn.
  destruct (made_dir_same type (abs s d)) as (D1 & D2 & D3 & D4). split; [done|]. exists n. split_and!; try done.
  - intros e'. rewrite (over_dents s s' F' K c d a Hd Hdok) by (by rewrite HF, updf_eq).
    rewrite (linked_renamed name e n (made_dir type (abs s d)) a); [by rewrite D2|done|done|unfold inum_ok in Hnok; lia|by rewrite D2].
  - destruct (over_file s s' F' K c d a Hd Hdok) as (_ & _ & _ & _ & -> & _); [by rewrite HF, updf_eq|]. destruct Ha as (_ & -> & _). exact D4.
  - assert (F' n = b) as En by (by rewrite HF, updf_ne, updf_eq). unfold made_file in Hb. case_match.
    + destruct Hb as (B1 & B2 & B3 & _). rewrite (over_dents s s' F' K c n b Hd Hnok En). destruct (over_file s s' F' K c n b Hd Hnok En) as (_ & -> & _ & _ & -> & _). by split_and!.
    + subst b. by apply (over_file s s' F' K c n _ Hd Hnok).
  - intros m Hm H1 H2. apply (over_file s s' F' K c m _ Hd Hm). by rewrite HF, !updf_ne.
Qed.

End names.

(** ** A small tree *)

(** The root directory of [root_fs] while entries are added. *)
Record grown (k : Z) (l : list dirent) (s : fs) : Prop := {
  gr_good : good small_sb s;
  gr_tags : tags s = tags root_fs;
  gr_root : is_dir (abs small_sb s 1) ∧ af_nlink (abs small_sb s 1) = 1 ∧ dents (abs small_sb s 1) = l ∧
    af_size (abs small_sb s 1) = DESZ * Z.of_nat (length l);
  gr_rest : ∀ n, inum_ok small_sb n → n ≠ 1 → agree (abs small_sb s n) (abs small_sb root_fs n);
  gr_free : 32 - 4 * k ≤ nfree small_sb s;
}.

Lemma grown_start : grown 0 [] root_fs.
Proof.
  destruct (small_abs T_DIR false root_rest ltac:(done) root_unused 1 ltac:(done)) as [C E]. fold root_fs in E. split; [apply root_good|reflexivity| |reflexivity|by vm_compute].
  rewrite E. split_and!; reflexivity.
Qed.

Lemma grown_types k l s : grown k l s → af_type (abs small_sb s 2) = T_FILE ∧ af_nlink (abs small_sb s 2) = 1 ∧
  af_type (abs small_sb s 3) = 0 ∧ af_nlink (abs small_sb s 3) = 0.
Proof.
  intros [_ _ _ R _]. destruct (R 2 ltac:(done) ltac:(done)) as (_ & -> & _ & _ & -> & _), (R 3 ltac:(done) ltac:(done)) as (_ & -> & _ & _ & -> & _).
  destruct (small_abs T_DIR false root_rest ltac:(done) root_unused 2 ltac:(done)) as [C2 E2], (small_abs T_DIR false root_rest ltac:(done) root_unused 3 ltac:(done)) as [C3 E3].
  fold root_fs in E2, E3. rewrite E2, E3. split_and!; reflexivity.
Qed.

Lemma grown_slots k l s : grown k l s → slots s = 4.
Proof. intros [_ T _ _ _]. by rewrite (slots_tags _ _ T). Qed.

Lemma grow k l s name n : grown k l s → (length l < 3)%nat → k ≤ 4 → (∀ e, e ∈ l → de_inum e = 1 ∨ de_inum e = 2) → Forall (λ e, de_inum e ≠ 0) l → Forall is_byte name →
  n = 1 ∨ n = 2 → dlookup l name = None → ∃ s', dirlink small_sb 0 name n s = Some (0, s') ∧ grown (k + 1) (l ++ [new_dirent name n]) s'.
Proof.
  intros Hw Hlen Hk Hl Hnz Hb Hn Hf. destruct (grown_types k l s Hw) as (T2 & N2 & T3 & N3). pose proof (grown_slots k l s Hw) as Hs. pose proof Hw as [Hg Htag (Hdir & Hnl & Hde & Hsz) Hrest Hfree].
  assert (owns s 0 1) as Ho by (apply (owns_tags root_fs s 0 1 Htag), root_owns).
  assert (anchored small_sb s) as Han by (intros m [-> |[-> | ->]]%small_cases; [left; by rewrite Hnl|left; by rewrite N2|by rewrite T3]).
  assert (dir_ok small_sb (abs small_sb s) (abs small_sb s 1)) as Hok.
  { split; [rewrite Hsz, Z.mul_comm; by apply Z.mod_mul|]. rewrite Hde. intros e He _. destruct (Hl e He) as [-> | ->]; (split; [done|]); [by rewrite Hdir|by rewrite T2]. }
  pose proof (dirlink_spec small_sb small_wf 0 1 name n s Hg Han Ho Hdir Hok Hb ltac:(destruct Hn as [-> | ->]; done)) as D. pose proof MAXSIZE_value as Hmax.
  destruct (dirlink small_sb 0 name n s) as [[r s']|].
  2: { exfalso. destruct D as [Hfull|[Hlow|Hlow]]; [|lia|rewrite Hsz in Hlow; unfold DESZ in *; lia]. assert (slots s = 0); [|lia].
       unfold slots. rewrite (sum_with_ext _ (λ _, 0)); [apply sum_zero|]. intros i Hin. unfold free_entry. by rewrite (proj2 (Z.eqb_neq _ _)) by (by apply Hfull). }
  destruct D as (Hg' & _ & Hoth & Hcase). rewrite Hde, Hf in Hcase. destruct Hcase as (-> & Htag' & Hde' & Hty & Hnl' & Hsz' & Hfree').
  exists s'. split; [done|]. assert (slot l = length l) as Hsl.
  { unfold slot. destruct (find_index _ l) as [j|] eqn:Ej; [|done]. exfalso. apply find_index_Some in Ej as [(e & He & Hz) _]. apply Z.eqb_eq in Hz. by apply (Forall_lookup_1 _ _ _ _ Hnz He). }
  split.
  - done.
  - congruence.
  - split_and!; [done|congruence| |].
    + rewrite Hde'. unfold link, put_entry. rewrite Hsl, decide_False by lia. done.
    + rewrite Hsz', Hsl, Hsz, length_app. cbn [length]. unfold DESZ. lia.
  - intros m Hm Hne. etrans; [by apply Hoth|by apply Hrest].
  - lia.
Qed.

Definition small_ents : list dirent := [new_dirent DOT 1; new_dirent DOTDOT 1; new_dirent [97] 2].

(** The root directory has the names ".", ".." and "a". *)
Definition small_tree : fs := default root_fs (
  '(_, s) ← dirlink small_sb 0 DOT 1 root_fs;
  '(_, s) ← dirlink small_sb 0 DOTDOT 1 s;
  '(_, s) ← dirlink small_sb 0 [97] 2 s;
  Some s).

Lemma small_tree_grown : grown 3 small_ents small_tree.
Proof.
  assert (∀ n, (n = 1 ∨ n = 2) → ∀ name, de_inum (new_dirent name n) ≠ 0) as Hnz by (intros n [-> | ->]; done).
  assert (Forall is_byte DOT ∧ Forall is_byte DOTDOT ∧ Forall is_byte [97]) as (B1 & B2 & B3) by (by repeat constructor).
  destruct (grow 0 [] root_fs DOT 1 grown_start ltac:(cbn; lia) ltac:(lia) ltac:(by intros e ?%elem_of_nil) ltac:(constructor) B1 ltac:(by left) eq_refl) as (s1 & E1 & H1).
  assert (∀ e, e ∈ [new_dirent DOT 1] ++ [new_dirent DOTDOT 1] → de_inum e = 1) as Hdots.
  { by intros e [ ->%list_elem_of_singleton| ->%list_elem_of_singleton]%elem_of_app. }
  destruct (grow 1 _ s1 DOTDOT 1 H1 ltac:(cbn; lia) ltac:(lia) ltac:(intros e ->%list_elem_of_singleton; by left) ltac:(repeat constructor; apply Hnz; by left) B2 ltac:(by left) eq_refl) as (s2 & E2 & H2).
  destruct (grow 2 _ s2 [97] 2 H2 ltac:(cbn; lia) ltac:(lia) ltac:(intros e He; left; by apply Hdots) ltac:(repeat constructor; apply Hnz; by left) B3 ltac:(by right) eq_refl) as (s3 & E3 & H3).
  unfold small_tree. rewrite E1. cbn [mbind option_bind]. rewrite E2. cbn [mbind option_bind]. rewrite E3. exact H3.
Qed.

#[local] Opaque small_tree.

Definition small_view (n : Z) : node := if n =? 1 then mk_node T_DIR 1 small_ents else if n =? 2 then mk_node T_FILE 1 [] else mk_node 0 0 [].

Lemma small_ents_uniq : uniq small_ents.
Proof.
  intros i j a b Hi Hj _ _ Hn. destruct i as [|[|[|i]]], j as [|[|[|j]]]; cbn in Hi, Hj; simplify_eq; try done; by vm_compute in Hn.
Qed.

Lemma small_ns : ns small_sb zero small_view.
Proof.
  split.
  - done.
  - by intros n [-> |[-> | ->]]%small_cases.
  - intros n [-> |[-> | ->]]%small_cases; [|done..]. intros _. by exists (new_dirent DOT 1), (new_dirent DOTDOT 1), [new_dirent [97] 2].
  - intros d e [-> |[-> | ->]]%small_cases; [|done..]. by intros _ ->%list_elem_of_singleton _.
  - by intros n [-> |[-> | ->]]%small_cases.
  - intros n [-> |[-> | ->]]%small_cases; [|done..]. intros _. exact small_ents_uniq.
  - exists (λ _, 0%nat). by intros n [-> |[-> | ->]]%small_cases.
Qed.

Lemma root_entry : entry 0 1 root_fs.
Proof. by eexists. Qed.

Lemma small_settled : settled small_sb 0 1 small_tree.
Proof.
  pose proof small_tree_grown as Hw. destruct (grown_types _ _ _ Hw) as (T2 & N2 & T3 & N3). pose proof Hw as [Hg Htag (Hdir & Hnl & Hde & Hsz) Hrest Hfree].
  assert (∀ n, inum_ok small_sb n → n ≠ 3 → nodeof (abs small_sb small_tree n) = small_view n) as Hv.
  { intros n [-> |[-> | ->]]%small_cases Hn; [|unfold nodeof; by rewrite T2, N2|by destruct Hn]. by rewrite (nodeof_dir _ Hdir), Hnl, Hde. }
  split.
  - exact Hg.
  - split.
    + apply (ns_same small_sb small_wf zero zero small_view); [exact small_ns| |].
      * intros n Hn. cbv beta. destruct (decide (n = 3)) as [->|Hne]; [unfold nodeof; rewrite T3|rewrite (Hv n Hn Hne)]; split; reflexivity.
      * intros n Hn. cbv beta. destruct (decide (n = 3)) as [->|Hne]; [intros E; exfalso; by apply E|rewrite (Hv n Hn Hne)]. intros _. reflexivity.
    + intros n [-> |[-> | ->]]%small_cases Hd; [by rewrite Hsz|exfalso; unfold is_dir in Hd; by rewrite T2 in Hd|exfalso; unfold is_dir in Hd; by rewrite T3 in Hd].
    + intros n [-> |[-> | ->]]%small_cases; [left; by rewrite Hnl|left; by rewrite N2|rewrite T3; intros E; by destruct E].
  - rewrite (locks_tags _ _ Htag). by repeat constructor.
  - exact (entry_tags 0 1 root_fs small_tree Htag root_entry).
  - exact Hdir.
Qed.

Lemma small_roomy : roomy small_sb small_tree.
Proof.
  pose proof small_tree_grown as Hw. destruct (grown_types _ _ _ Hw) as (T2 & N2 & T3 & N3). pose proof (grown_slots _ _ _ Hw) as Hs. pose proof Hw as [Hg Htag (Hdir & Hnl & Hde & Hsz) Hrest Hfree].
  pose proof MAXSIZE_value as Hmax. split.
  - lia.
  - lia.
  - intros d [-> |[-> | ->]]%small_cases Hd; [rewrite Hsz; unfold small_ents, DESZ; cbn [length]; lia|exfalso; unfold is_dir in Hd; by rewrite T2 in Hd|exfalso; unfold is_dir in Hd; by rewrite T3 in Hd].
  - intros n [-> |[-> | ->]]%small_cases; [rewrite Hnl|rewrite N2|rewrite N3]; lia.
Qed.

Lemma small_free : ∃ n, inum_ok small_sb n ∧ af_type (abs small_sb small_tree n) = 0.
Proof. exists 3. split; [done|]. exact (proj1 (proj2 (proj2 (grown_types _ _ _ small_tree_grown)))). Qed.

Lemma small_ready : ready small_sb 0 small_tree 1.
Proof. exact (settled_ready small_sb 0 1 small_tree small_settled small_roomy). Qed.

(** A name buffer. *)
Lemma small_buf : name_buf (replicate 14 0).
Proof. split; [done|]. by repeat constructor. Qed.

(** The files the witnesses look at. *)
Lemma small_files : af_type (abs small_sb small_tree 1) = T_DIR ∧ dents (abs small_sb small_tree 1) = small_ents ∧ af_type (abs small_sb small_tree 2) = T_FILE ∧
  af_nlink (abs small_sb small_tree 2) = 1.
Proof.
  pose proof small_tree_grown as Hw. destruct (grown_types _ _ _ Hw) as (T2 & N2 & _). destruct (gr_root _ _ _ Hw) as (Hdir & _ & Hde & _). split; [exact Hdir|]. split; [exact Hde|]. by split.
Qed.

(** A name in the root directory. *)
Lemma small_resolve (F : Z → afile) : af_type (F 1) = T_DIR → (∀ c, elements [47; c] = [[c]] → resolve F true (start 1 [47; c]) (elements [47; c]) = Some 1 ∧
  resolve F false (start 1 [47; c]) (elements [47; c]) = dlookup (dents (F 1)) [c]).
Proof.
  intros Hd c Ec. rewrite Ec. change (start 1 [47; c]) with 1. cbn [resolve]. rewrite Hd. cbn [Z.eqb T_DIR Pos.eqb andb]. split; [done|]. by destruct (dlookup (dents (F 1)) [c]).
Qed.

(** link("/a", "/b") *)
Lemma link_adds_name_witness : ∃ s', sys_link small_sb 0 (replicate 14 0) [47; 97] [47; 98] small_tree = Some (0, s') ∧
  dlookup (dents (abs small_sb s' 1)) [98] = Some 2 ∧ dlookup (dents (abs small_sb s' 1)) [97] = Some 2 ∧ af_nlink (abs small_sb s' 2) = 2.
Proof.
  destruct small_files as (T1 & D1 & T2 & N2). destruct (small_resolve (abs small_sb small_tree) T1 97 eq_refl) as [_ R1], (small_resolve (abs small_sb small_tree) T1 98 eq_refl) as [R2 _].
  destruct (link_adds_name small_sb small_wf 0 (replicate 14 0) 1 small_buf small_tree [47; 97] [47; 98] small_ready
    ltac:(repeat constructor; lia) ltac:(repeat constructor; lia)) as (r & s' & E & _ & H).
  assert (link_target 1 (abs small_sb small_tree) [47; 97] [47; 98] = Some (1, [98], 2)) as Et.
  { unfold link_target. rewrite R1, R2, D1. cbn [mbind option_bind]. change (dlookup small_ents [97]) with (Some 2). cbn [mbind option_bind]. rewrite T2, D1. reflexivity. }
  rewrite Et in H. destruct H as (-> & Hn & (_ & _ & _ & _ & Hl & _) & _). exists s'. split; [exact E|]. rewrite !(Hn _), D1, Hl. cbn [relink af_nlink]. rewrite N2. split_and!; reflexivity.
Defined.

(** unlink("/a"): the file stays, since the cache holds a reference to it. *)
Lemma unlink_removes_name_witness : ∃ s', sys_unlink small_sb 0 (replicate 14 0) [47; 97] small_tree = Some (0, s') ∧
  dlookup (dents (abs small_sb s' 1)) [97] = None ∧ dlookup (dents (abs small_sb s' 1)) [46] = Some 1 ∧ af_nlink (abs small_sb s' 2) = 0.
Proof.
  destruct small_files as (T1 & D1 & T2 & N2). destruct (small_resolve (abs small_sb small_tree) T1 97 eq_refl) as [R1 _].
  assert (unlink_target 1 (abs small_sb small_tree) [47; 97] = Some (1, 2%nat, 2)) as Et.
  { unfold unlink_target. rewrite R1. cbn [mbind option_bind]. change (last (elements [47; 97])) with (Some [97]). cbn [mbind option_bind]. rewrite D1.
    change (dots [97]) with false. change (find_index (names [97]) small_ents) with (Some 2%nat). cbn [mbind option_bind].
    change (de_inum <$> small_ents !! 2%nat) with (Some 2). cbn [mbind option_bind]. rewrite T2. reflexivity. }
  assert (ncall_ok small_sb 1 (Unlink [47; 97]) small_tree) as Hok.
  { split; [repeat constructor; lia|]. intros d k n E Hd. rewrite Et in E. injection E as <- <- <-. exfalso. unfold is_dir in Hd. rewrite T2 in Hd. discriminate. }
  destruct (unlink_removes_name small_sb small_wf 0 (replicate 14 0) 1 small_buf small_tree [47; 97] small_ready Hok) as (r & s' & E & _ & H).
  rewrite Et in H. destruct H as (-> & _ & (e & He & _ & Hn) & _ & (_ & _ & _ & _ & Hl & _) & _). injection He as <-. exists s'. split; [exact E|]. rewrite !(Hn _), D1, Hl.
  split; [reflexivity|]. split; [reflexivity|]. unfold after_unlink. case_decide; [change (af_nlink (abs small_sb small_tree 2) + -1 = 0)|cbn [relink af_nlink]]; rewrite N2; reflexivity.
Defined.

Lemma small_free_only n : inum_ok small_sb n → af_type (abs small_sb small_tree n) = 0 → n = 3.
Proof.
  destruct small_files as (T1 & _ & T2 & _). intros Hn H0. destruct (small_cases n Hn) as [E|[E|E]]; [..|exact E]; exfalso; rewrite E in H0; [rewrite T1 in H0|rewrite T2 in H0]; by vm_compute in H0.
Qed.

(** mkdir("/d") takes inode 3, the only free one. *)
Lemma make_adds_name_witness : ∃ s', make small_sb 0 (replicate 14 0) [47; 100] T_DIR 0 0 small_tree = Some (0, s') ∧
  dlookup (dents (abs small_sb s' 1)) [100] = Some 3 ∧ dents (abs small_sb s' 3) = [new_dirent DOT 3; new_dirent DOTDOT 1].
Proof.
  destruct small_files as (T1 & D1 & T2 & N2). destruct (small_resolve (abs small_sb small_tree) T1 100 eq_refl) as [R1 _].
  destruct (make_adds_name small_sb small_wf 0 (replicate 14 0) 1 small_buf small_tree [47; 100] T_DIR 0 0 small_ready ltac:(repeat constructor; lia) small_free (or_introl eq_refl))
    as (r & s' & E & _ & H).
  assert (make_target 1 (abs small_sb small_tree) [47; 100] = Some (1, [100], None)) as Et by (unfold make_target; rewrite R1; cbn [mbind option_bind]; rewrite D1; reflexivity).
  rewrite Et in H. destruct H as (-> & n & Hn & Hn0 & Hnm & _ & (_ & _ & Hde) & _).
  rewrite (small_free_only n Hn Hn0) in Hnm, Hde.
  exists s'. split; [exact E|]. split; [rewrite (Hnm _); reflexivity|exact Hde].
Defined.

(** mkdir("/d"), then any call. *)
Lemma name_calls_keep_tree_witness : ∃ r s', nrun small_sb 0 (replicate 14 0) (Mkdir [47; 100]) small_tree = Some (r, s') ∧ settled small_sb 0 1 s'.
Proof.
  assert (ncall_ok small_sb 1 (Mkdir [47; 100]) small_tree) as Hok by (split; [repeat constructor; lia|exact small_free]).
  pose proof (nreach_start small_sb 0 (replicate 14 0) 1 small_tree) as H0.
  destruct (name_calls_keep_tree small_sb small_wf 0 (replicate 14 0) 1 small_buf small_tree small_tree small_settled H0) as [_ Hrun].
  destruct (Hrun (Mkdir [47; 100]) small_roomy Hok) as (r & s' & E). exists r, s'. split; [exact E|].
  apply (name_calls_keep_tree small_sb small_wf 0 (replicate 14 0) 1 small_buf small_tree s' small_settled).
  exact (nreach_call small_sb 0 (replicate 14 0) 1 small_tree _ small_tree r s' H0 small_roomy Hok E).
Defined.
