(* ===== verification/Descend.v ===== *)
(** * The walk to the root

    dir_is_descendant(), which rename() uses to refuse moving a directory below
    itself: the walk along ".." ends, since the names form a tree, and answers
    whether the one directory lies above the other. *)

From stdpp Require Import list_numbers gmap.
From S2P Require Import Prelude Mem CString Xattr Fs FsInv FsFile FsNode FsIO FsFree FsOps FsShare FsRange FsSpec FsCache Dir Path File Sysfile Names SysNames SysMake NameCalls.

(** [m] is [n] or one of the directories above it. *)
Inductive above (V : Z → node) : Z → Z → Prop :=
  | above_self n : above V n n
  | above_up n m : n ≠ ROOTINO → above V (dotdot (V n)) m → above V n m.

Section descend.
Context (sb : superblock) (Hsb : sb_wf sb).

Lemma dotdot_lookup x V n : ns sb x V → inum_ok sb n → is_dnode (V n) → dlookup (nd_ents (V n)) DOTDOT = Some (dotdot (V n)).
Proof.
  intros H Hn Hd. destruct (dots_nonzero sb x V n H Hn Hd) as (e0 & e1 & rest & Hents & H0 & H1 & _ & [N1 N2]).
  apply (dlookup_uniq _ _ _ (ns_uniq _ _ _ H n Hn Hd)). exists 1%nat, e1. rewrite Hents. split_and!; try done. by rewrite <-N1.
Qed.

Context (s0 : fs) (cwd : nat) (cd : Z) (Hr : ready sb cwd s0 cd).

Abbreviation abs := (abs sb).
Abbreviation V0 := (λ n, nodeof (abs s0 n)).
Abbreviation walking := (walking sb s0).
Abbreviation finished := (finished sb s0).

Lemma ready_tree : tree_ok sb s0.
Proof using Hr. intros n Hn Hd. by apply (tree_dir sb zero (abs s0) (nref s0)); [apply Hr| |]. Qed.

(** The directories above [n]: [n] itself, or those above its "..". *)
Lemma above_step n m : inum_ok sb n → is_dir (abs s0 n) → above V0 n m ↔ n = m ∨ n ≠ ROOTINO ∧ above V0 (dotdot (V0 n)) m.
Proof using Type.
  intros Hn Hd. split.
  - intros Ha. inversion Ha; subst; auto.
  - intros [->|[Hne Ha]]; [constructor|by apply above_up].
Qed.

Lemma descend_loop_spec rank : (∀ n, inum_ok sb n → is_dir (abs s0 n) → n ≠ ROOTINO → (rank (dotdot (V0 n)) < rank n)%nat) →
  ∀ fuel inum l s ip n, walking s ip n → inum_ok sb n → is_dir (abs s0 n) → NoDup l → Forall (λ m, inum_ok sb m ∧ (rank n < rank m)%nat) l →
  sb_ninodes sb ≤ Z.of_nat (fuel + length l) →
  ∃ b s', descend_loop sb fuel ip inum s = Some (b, s') ∧ finished s' ∧ (b = true ↔ above V0 n inum).
Proof using Hsb Hr.
  intros Hrank. pose proof Hr as [Rg Rt Rq Rs Rf Rd Rl Rc Rcd]. pose proof (t_anchored _ _ _ _ Rt) as Han. pose proof (t_ns _ _ _ _ Rt) as N.
  induction fuel as [|fuel IH]; intros inum l s ip n Hw Hn Hd Hnd Hl Hf.
  { exfalso. assert (length (n :: l) ≤ length (inums sb))%nat as Hle.
    { apply submseteq_length, NoDup_submseteq.
      - apply NoDup_cons. split; [|done]. intros Hin. rewrite Forall_forall in Hl. specialize (Hl n Hin). lia.
      - intros m Hm. apply inums_elem. apply elem_of_cons in Hm as [->|Hm]; [done|]. rewrite Forall_forall in Hl. by apply Hl. }
    unfold inums in Hle. rewrite length_seqZ in Hle. cbn [length] in Hle, Hf. destruct Hsb. lia. }
  cbn [descend_loop]. assert (af_type (abs s0 n) ≠ 0) as Hty by (by rewrite Hd).
  destruct (walk_lock sb Hsb s0 Rq s ip n Hw Hn Hty) as (s1 & -> & Hin & _). cbn [mbind option_bind].
  destruct (entry_at sb s1 ip n (i_good _ _ _ _ _ Hin) (owns_entry _ _ _ (i_owns _ _ _ _ _ Hin))) as [_ ->].
  destruct (inside_fail sb Hsb s0 Rg Han s1 ip n Hin Hn Hty) as (sf & Ef & Hfin). unfold iunlockput in Ef.
  destruct (Z.eqb_spec n inum) as [->|Hne].
  { destruct (iunlock ip s1) as [s2|]; [|done]. cbn [mbind option_bind] in Ef |- *. rewrite Ef. cbn [mbind option_bind]. exists true, sf. split_and!; try done. split; [constructor|done]. }
  pose proof (inside_next sb Hsb s0 Rg Han ltac:(lia) ready_tree s1 ip n DOTDOT DOTDOT Hin Hn Hd eq_refl) as Hnext.
  pose proof (dotdot_lookup zero V0 n N Hn Hd) as Hdd. cbv beta in Hdd. rewrite (nodeof_dir (abs s0 n) Hd) in Hdd at 1. cbn [nd_ents] in Hdd. rewrite Hdd in Hnext.
  set (m := dotdot (nodeof (abs s0 n))) in *. destruct Hnext as (Hm & Hmt & off & next & s2 & s3 & -> & Eu & Hw3). cbn [mbind option_bind]. unfold iunlockput in Eu.
  destruct (iunlock ip s2) as [s2'|]; [|done]. cbn [mbind option_bind] in Eu |- *. rewrite Eu. cbn [mbind option_bind].
  destruct (entry_at sb s3 next m (w_good _ _ _ _ _ Hw3) (w_entry _ _ _ _ _ Hw3)) as [_ ->]. pose proof (above_step n inum Hn Hd) as Hup. cbv beta in Hup. fold m in Hup.
  destruct (ns_dots _ _ _ N n Hn Hd) as (_ & _ & _ & _ & _ & _ & _ & Hmd). cbv beta in Hmd. fold m in Hmd.
  destruct (Z.eqb_spec m n) as [Em|Em].
  - destruct (walk_drop sb Hsb s0 Rg Han s3 next m Hw3 Hm Hmt) as (s4 & -> & Hfin4). cbn [mbind option_bind]. exists false, s4. split_and!; try done. rewrite Hup. split; [done|].
    intros [E|[Hroot Ha]]; [done|]. pose proof (Hrank n Hn Hd Hroot) as Hlt. cbv beta in Hlt. fold m in Hlt. rewrite Em in Hlt. lia.
  - assert (n ≠ ROOTINO) as Hroot by (intros E; apply Em; unfold m; rewrite E; apply (ns_root _ _ _ N)).
    pose proof (Hrank n Hn Hd Hroot) as Hlt. cbv beta in Hlt. fold m in Hlt.
    destruct (IH inum (n :: l) s3 next m Hw3 Hm Hmd) as (b & s4 & -> & Hfin4 & Hb).
    + apply NoDup_cons. split; [|done]. intros Hx. rewrite Forall_forall in Hl. specialize (Hl n Hx). lia.
    + constructor; [done|]. eapply Forall_impl; [exact Hl|]. cbn beta. intros x [? ?]. split; [done|lia].
    + cbn [length]. lia.
    + exists b, s4. split_and!; try done. rewrite Hb, Hup. naive_solver.
Qed.

(** C23: the walk of dir_is_descendant() from a directory along ".." ends: with as many
    turns as the file system has inodes it returns, since the names form a tree.
    The answer is whether [inum] is that directory or lies above it, which is
    what rename() asks before it moves a directory; references, locks and files
    are as before. *)
Theorem descendant_walk_ends fuel ip n inum : entry ip n s0 → is_dir (abs s0 n) → sb_ninodes sb ≤ Z.of_nat fuel →
  ∃ b s', dir_is_descendant sb fuel ip inum s0 = Some (b, s') ∧ (b = true ↔ above V0 n inum) ∧ restored s0 s' ∧
    ∀ m, inum_ok sb m → agree (abs s' m) (abs s0 m).
Proof using Hsb Hr.
  intros He Hd Hf. pose proof Hr as [Rg Rt Rq Rs Rf Rd Rl Rc Rcd]. pose proof (entry_ok sb s0 ip n Rg He) as Hn. unfold dir_is_descendant.
  destruct (idup_walk sb Hsb ip n s0 Rg He) as (A & B & C & D & F & E & En & N).
  destruct (ns_rank _ _ _ (t_ns _ _ _ _ Rt)) as [rank Hrank].
  destruct (descend_loop_spec rank Hrank fuel inum [] (idup ip s0) ip n) as (b & s' & -> & Hfin & Hb); [by split|done|done|constructor|constructor|cbn [length]; lia|].
  exists b, s'. destruct Hfin as [F1 F2 F3 F4 _ _ _]. by split_and!.
Qed.

End descend.

(** From the root directory of the small tree, which has four inodes. *)
Lemma descendant_walk_ends_witness : ∃ s', dir_is_descendant small_sb 4 0 1 small_tree = Some (true, s').
Proof.
  destruct (descendant_walk_ends small_sb small_wf small_tree 0 1 small_ready 4 0 1 1 (r_cwd _ _ _ _ small_ready) (r_cwd_dir _ _ _ _ small_ready) ltac:(by vm_compute)) as (b & s' & E & Hb & _).
  exists s'. rewrite (proj2 Hb (above_self _ 1)) in E. exact E.
Defined.
