(* ===== verification/FileIO.v ===== *)
(** * Reading and writing through descriptors

    filewrite() cuts a write into transactions of at most [WMAX] bytes; together
    they act on the file as one write at the offset of the open file. What was
    written is read back after lseek(). *)

From stdpp Require Import list_numbers gmap.
From S2P Require Import Prelude Mem CString Xattr Fs FsInv FsFile FsNode FsIO FsFree FsOps FsShare FsRange FsSpec FsCache Dir Path File Sysfile Names SysNames.

(** [bs] written at [off]. *)
Definition written (off : Z) (bs : list Z) (a : afile) : afile :=
  a <| af_data := patch off bs (af_data a) |> <| af_size := Z.max (af_size a) (off + Z.of_nat (length bs)) |>.

Lemma written_nil off a : off ≤ af_size a → agree (written off [] a) a.
Proof.
  intros H. unfold agree, written. cbn. split_and!; try done; [lia|]. intros o _. unfold patch. cbn. rewrite decide_False by lia. done.
Qed.

(** Two writes next to each other are one. *)
Lemma written_app off bs bs' a : agree (written (off + Z.of_nat (length bs)) bs' (written off bs a)) (written off (bs ++ bs') a).
Proof.
  unfold agree, written. cbn. rewrite length_app. split_and!; try done; [lia|]. intros o _. unfold patch. rewrite length_app. repeat case_decide; try lia; try done.
  - rewrite lookup_total_app_r by lia. f_equal. lia.
  - rewrite lookup_total_app_l by lia. done.
Qed.

Lemma written_agree off bs a b : agree a b → agree (written off bs a) (written off bs b).
Proof.
  intros (E1 & E2 & E3 & E4 & E5 & E6 & E7). unfold agree, written. cbn. split_and!; try done; [by rewrite E6|]. intros o Ho. unfold patch. case_decide; [done|by apply E7].
Qed.

Lemma copied_ext src src' fuel off tot n : (∀ t m, 0 ≤ t → src t m = src' t m) → 0 ≤ off → 0 ≤ tot → copied src fuel off tot n = copied src' fuel off tot n.
Proof.
  intros H. revert off tot. induction fuel as [|fuel IH]; intros off tot Ho Ht; [done|]. cbn [copied]. destruct (Z.ltb_spec tot n) as [Hlt|]; [|done].
  destruct (need_step off (n - tot) Ho ltac:(lia)) as (Hm & _). cbn zeta in *. rewrite H by done. destruct (src' tot _) as [bs ok]. destruct ok; [|done]. by rewrite IH by lia.
Qed.

(** A piece of a buffer is the buffer that starts there. *)
Lemma kernel_src_drop bs i t m : 0 ≤ i → 0 ≤ t → kernel_src bs (i + t) m = kernel_src (drop (Z.to_nat i) bs) t m.
Proof.
  intros Hi Ht. unfold kernel_src. f_equal. apply list_fmap_ext. intros j x Hx. apply lookup_seqZ in Hx as [-> _]. rewrite lookup_total_drop. f_equal. lia.
Qed.

Section io.
Context (sb : superblock) (Hsb : sb_wf sb).

Abbreviation good := (good sb).
Abbreviation abs := (abs sb).

(** What a call on the contents of the inode [n] leaves alone. *)
Record same_cache (s s' : fs) : Prop := {
  sc_good : good s';
  sc_refs : ∀ m, nref s' m = nref s m;
  sc_locks : locks s' = locks s;
  sc_ents : ∀ k m, entry k m s ↔ entry k m s';
}.

Lemma same_cache_trans s1 s2 s3 : same_cache s1 s2 → same_cache s2 s3 → same_cache s1 s3.
Proof.
  intros [A1 B1 C1 D1] [A2 B2 C2 D2]. split; [done| |congruence|].
  - intros m. by rewrite B2.
  - intros k m. by rewrite D1.
Qed.

(** One transaction of a write: [pre] bytes of the buffer [buf] were written before. *)
Lemma write_session ip n off buf pre len s : good s → entry ip n s → locks s !! ip = Some false → af_type (abs s n) ≠ 0 → Forall is_byte buf →
  0 ≤ pre → 0 ≤ len → pre + len ≤ Z.of_nat (length buf) → 0 ≤ off ≤ af_size (abs s n) → off + len ≤ MAXSIZE → 4 * need off len ≤ nfree sb s →
  ∃ s1 s2 s3, ilock sb ip s = Some s1 ∧ d_mode (din ip s1) = af_mode (abs s n) ∧ writei sb ip (λ tot m, kernel_src buf (pre + tot) m) off len s1 = Some (len, s2) ∧
    iunlock ip s2 = Some s3 ∧ same_cache s s3 ∧ nfree sb s - 4 * need off len ≤ nfree sb s3 ∧
    ∀ m, inum_ok sb m → agree (abs s3 m) (if decide (m = n) then written off (take (Z.to_nat len) (drop (Z.to_nat pre) buf)) (abs s n) else abs s m).
Proof using Hsb.
  intros Hg He Hl Ht Hb Hpre Hlen Hle Hoff Hfit Hfree. pose proof MAXSIZE_value as HM. set (bs := take (Z.to_nat len) (drop (Z.to_nat pre) buf)).
  assert (Z.of_nat (length bs) = len) as Hbs by (unfold bs; rewrite length_take, length_drop; lia).
  destruct (ilock_walk sb Hsb ip n s Hg He Hl Ht) as (s1 & E1 & A1 & B1 & C1 & D1 & _ & O1 & N1 & En1).
  destruct (held_abs sb ip n s1 A1 O1) as [Hn Ea]. destruct (B1 n Hn) as (M1 & T1 & _ & _ & _ & S1 & _). rewrite Ea in M1, T1, S1. cbn [file_of af_mode af_type af_size] in M1, T1, S1.
  pose proof (size_ok sb s n Hg Hn) as Hsz.
  pose proof A1 as [(P & Hi) Hcl _ _ _]. set (src := λ tot m, kernel_src buf (pre + tot) m).
  assert (inum_at ip s1 = n) as En by (by apply entry_inum, owns_entry).
  pose proof (writei_spec sb Hsb src (λ tot m H, kernel_src_ok buf Hb (pre + tot) m H) ip n off len s1 P Hi Hcl O1 ltac:(lia) ltac:(lia)) as W. cbn zeta in W.
  assert (fits (d_size (din ip s1)) off len = true) as Ef by (unfold fits; apply andb_true_iff; rewrite !Z.leb_le; lia). rewrite Ef in W.
  rewrite (copied_ext src (kernel_src (drop (Z.to_nat pre) buf))) in W by (lia || (intros; by apply kernel_src_drop)).
  rewrite copied_kernel in W by (lia || (rewrite Z.sub_0_r; apply turns_enough; lia)). rewrite Z.sub_0_r in W.
  assert ((λ i, drop (Z.to_nat pre) buf !!! Z.to_nat (0 + i)) <$> seqZ 0 len = bs) as Esl.
  { rewrite <-(slice_all bs), Hbs. apply list_fmap_ext. intros j x Hx. apply lookup_seqZ in Hx as [-> Hx]. unfold bs. by rewrite lookup_total_take_lt by lia. }
  rewrite Esl in W. destruct (writei sb ip src off len s1) as [[r s2]|] eqn:E2; [|lia]. destruct W as (-> & d & Hact & Hm & Hd & Hfr). rewrite <-En in Hact.
  assert (held ip s1) as Hh by (unfold held; by rewrite En). destruct (acts_good sb ip s1 s2 d _ A1 Hh Hact) as [A2 B2]; [apply Hm|rewrite Hd; lia|]. rewrite En in *.
  destruct Hact as (_ & Hsv & _). pose proof (saves_tags sb ip n s1 s2 d O1 Hsv) as Htag. pose proof (entry_tags ip n s1 s2 Htag (owns_entry _ _ _ O1)) as He2.
  destruct (iunlock_walk sb Hsb ip n s2 A2 He2) as (s3 & E3 & A3 & B3 & C3 & D3 & _ & En3 & N3).
  { rewrite (locks_tags _ _ Htag), D1. apply list_lookup_insert_eq. by eapply lookup_lt_Some. }
  exists s1, s2, s3. split_and!; try done.
  - split; [done| | |].
    + intros m. by rewrite C3, (nref_tags _ _ m Htag), C1.
    + rewrite D3, (locks_tags _ _ Htag), D1. by apply relock.
    + intros k m. rewrite <-En3, En1. split; apply entry_tags; [done|by symmetry].
  - rewrite N3. lia.
  - intros m Hmo. etrans; [by apply B3|]. etrans; [by apply B2|]. case_decide; [|by apply B1]. subst m.
    destruct (B1 n Hn) as (F1 & F2 & F3 & F4 & F5 & F6 & F7). rewrite Ea in F1, F2, F3, F4, F5, F6, F7. destruct Hm as (G1 & G2 & G3 & G4 & G5).
    unfold agree, written. cbn in *. split_and!; try congruence.
    intros o Ho. unfold patch. case_decide; [done|]. by apply F7.
Qed.

Lemma off_below o : 0 ≤ o < MAXSIZE → off_ok o.
Proof. intros H. unfold off_ok. split; [apply Z.div_pos; [lia|done]|]. apply Z.div_lt_upper_bound; [done|]. unfold MAXSIZE in *. lia. Qed.

(** The bytes of a file from [off] on, at most [n]. *)
Definition bytes_at (a : afile) (off n : Z) : list Z := (λ i, af_data a (off + i)) <$> seqZ 0 (Z.min n (af_size a - off)).

Lemma read_session ip n off len s : good s → entry ip n s → locks s !! ip = Some false → af_type (abs s n) ≠ 0 → 0 ≤ off ≤ af_size (abs s n) → 0 ≤ len → off + len < 2 ^ 32 →
  ∃ s1 s2, ilock sb ip s = Some s1 ∧ d_mode (din ip s1) = af_mode (abs s n) ∧ d_size (din ip s1) = af_size (abs s n) ∧
    readi ip (λ _ _, true) off len s1 = Some (Z.min len (af_size (abs s n) - off), bytes_at (abs s n) off len) ∧
    iunlock ip s1 = Some s2 ∧ same_cache s s2 ∧ nfree sb s2 = nfree sb s ∧ ∀ m, inum_ok sb m → agree (abs s2 m) (abs s m).
Proof using Hsb.
  intros Hg He Hl Ht Hoff Hlen Hfit. pose proof MAXSIZE_value as HM.
  destruct (ilock_walk sb Hsb ip n s Hg He Hl Ht) as (s1 & E1 & A1 & B1 & C1 & D1 & _ & O1 & N1 & En1).
  destruct (held_abs sb ip n s1 A1 O1) as [Hn Ea]. destruct (B1 n Hn) as (M1 & T1 & _ & _ & _ & S1 & F1). rewrite Ea in M1, T1, S1, F1. cbn [file_of af_mode af_type af_size af_data] in M1, T1, S1, F1.
  pose proof (size_ok sb s n Hg Hn) as Hsz. pose proof A1 as [(P & Hi) Hcl Hszs _ _].
  destruct (readi_spec sb ip n (λ _ _, true) off len s1 P Hi O1 Hszs ltac:(lia) ltac:(lia)) as (k & E2 & _ & Hk). specialize (Hk ltac:(done)).
  rewrite S1, (proj2 (Z.leb_le _ _)), (proj2 (Z.ltb_lt _ _)) in Hk by lia. cbn [andb] in Hk. subst k.
  destruct (iunlock_walk sb Hsb ip n s1 A1 (owns_entry _ _ _ O1)) as (s2 & E3 & A3 & B3 & C3 & D3 & _ & En3 & N3).
  { rewrite D1. apply list_lookup_insert_eq. by eapply lookup_lt_Some. }
  exists s1, s2. split_and!; try done.
  - rewrite E2. do 2 f_equal. apply list_fmap_ext. intros j x Hx. apply lookup_seqZ in Hx as [-> Hx]. apply F1, off_below. lia.
  - split; [done| | |].
    + intros m. by rewrite C3, C1.
    + rewrite D3, D1. by apply relock.
    + intros k m. by rewrite En1.
  - congruence.
  - intros m Hm. etrans; [by apply B3|by apply B1].
Qed.

(** An open file of an inode that can be locked. *)
Record at_inode (s : sys) (f : nat) (ff : file) (n : Z) : Prop := {
  ai_file : ftable s !! f = Some ff;
  ai_type : f_type ff = FD_INODE;
  ai_entry : entry (f_ip ff) n (s_fs s);
  ai_free : locks (s_fs s) !! f_ip ff = Some false;
  ai_live : af_type (abs (s_fs s) n) ≠ 0;
}.

Lemma need_chunk off len : 0 ≤ off → len ≤ WMAX → need off len ≤ 4.
Proof using Type.
  intros Ho Hl. change WMAX with 3072 in Hl. unfold need. case_match; [lia|]. assert (0 ≤ off `mod` BSIZE < BSIZE) as Hm by (apply Z.mod_pos_bound; done). change BSIZE with 1024 in *.
  Z.to_euclidean_division_equations; lia.
Qed.

Section write.
Context (s0 : sys) (f : nat) (ff : file) (n : Z) (buf : list Z) (Hg0 : good (s_fs s0)) (Hai : at_inode s0 f ff n).
Context (Hmode : Z.land (af_mode (abs (s_fs s0) n)) 2 ≠ 0) (Hb : Forall is_byte buf).
Context (Hoff : 0 ≤ f_off ff ≤ af_size (abs (s_fs s0) n)) (Hfit : f_off ff + Z.of_nat (length buf) ≤ MAXSIZE).

Abbreviation N := (Z.of_nat (length buf)).

(** After [i] bytes, with [c] blocks taken at most. *)
Record progress (i c : Z) (s : sys) : Prop := {
  pr_tab : ftable s = alter (λ g, g <| f_off := f_off ff + i |>) f (ftable s0);
  pr_fds : ofile s = ofile s0;
  pr_cwd : cwd s = cwd s0;
  pr_cache : same_cache (s_fs s0) (s_fs s);
  pr_free : nfree sb (s_fs s0) - c ≤ nfree sb (s_fs s);
  pr_files : ∀ m, inum_ok sb m → agree (abs (s_fs s) m) (if decide (m = n) then written (f_off ff) (take (Z.to_nat i) buf) (abs (s_fs s0) n) else abs (s_fs s0) m);
}.

Lemma write_start : progress 0 0 s0.
Proof using All.
  destruct Hai as [A1 A2 A3 A4 A5]. split; try done.
  - symmetry. apply (list_alter_id' _ _ _ ff A1). rewrite Z.add_0_r. by destruct ff.
  - lia.
  - intros m Hm. case_decide; [subst|done]. symmetry. apply written_nil. lia.
Qed.

Lemma progress_file i c s : progress i c s → file_at f s = ff <| f_off := f_off ff + i |> ∧ at_inode s f (ff <| f_off := f_off ff + i |>) n ∧
  agree (abs (s_fs s) n) (written (f_off ff) (take (Z.to_nat i) buf) (abs (s_fs s0) n)).
Proof using All.
  intros [P1 P2 P3 [Q1 Q2 Q3 Q4] P5 P6]. destruct Hai as [A1 A2 A3 A4 A5]. pose proof (entry_ok sb (s_fs s0) (f_ip ff) n Hg0 A3) as Hn.
  assert (ftable s !! f = Some (ff <| f_off := f_off ff + i |>)) as Hf by (rewrite P1, list_lookup_alter_eq, A1; done).
  pose proof (P6 n Hn) as F. rewrite decide_True in F by done. split; [unfold file_at; by apply list_lookup_total_correct|]. split; [|done]. split; try done.
  - by apply Q4.
  - cbn. by rewrite Q3.
  - by destruct F as (_ & -> & _).
Qed.

(** One turn. *)
Lemma write_turn i c s len : progress i c s → 0 ≤ i → 0 < len ≤ WMAX → i + len ≤ N → c + 16 ≤ nfree sb (s_fs s0) →
  ∃ s1 s2 s3 s', ilock sb (f_ip (file_at f s)) (s_fs s) = Some s1 ∧ (Z.land (d_mode (din (f_ip (file_at f s)) s1)) 2 =? 0) = false ∧
    writei sb (f_ip (file_at f s)) (λ tot m, kernel_src buf (i + tot) m) (f_off (file_at f s)) len s1 = Some (len, s2) ∧
    iunlock (f_ip (file_at f s)) s2 = Some s3 ∧
    s' = (set_file f (λ g, g <| f_off := u32 (f_off g + len) |>) s) <| s_fs := end_op s3 |> ∧ progress (i + len) (c + 16) s'.
Proof using All.
  intros Hp Hi Hlen Hle Hfree. destruct (progress_file i c s Hp) as (Ef & [A1 A2 A3 A4 A5] & Hag). pose proof Hp as [P1 P2 P3 P4 P5 P6].
  pose proof (sc_good _ _ P4) as Hg. pose proof (entry_ok sb (s_fs s) (f_ip ff) n Hg A3) as Hn. rewrite Ef. cbn [f_ip f_off upd f_off_set] in A3, A4 |- *.
  pose proof Hag as (M & _ & _ & _ & _ & S & _). cbn [written af_mode af_size upd af_data_set af_size_set] in M, S. rewrite length_take in S. pose proof MAXSIZE_value.
  destruct (write_session (f_ip ff) n (f_off ff + i) buf i len (s_fs s) Hg A3 A4 A5 Hb) as (s1 & s2 & s3 & E1 & Em & E2 & E3 & C & Fr & F); try lia.
  { pose proof (need_chunk (f_off ff + i) len ltac:(lia) ltac:(lia)). lia. }
  eexists s1, s2, s3, _. split; [exact E1|]. split; [rewrite Em, M; by apply Z.eqb_neq|]. split; [exact E2|]. split; [exact E3|]. split; [done|]. split.
  - unfold set_file. cbn [ftable upd ftable_set s_fs_set]. rewrite P1, list_alter_alter. apply (list_alter_ext' _ _ _ _ ff); [apply Hai|].
    cbn. rewrite u32_small by lia. by rewrite Z.add_assoc.
  - done.
  - done.
  - eapply same_cache_trans; [exact P4|]. destruct C as [C1 C2 C3 C4]. split; try done. by apply good_end_op.
  - change (nfree sb (s_fs s0) - (c + 16) ≤ nfree sb s3). pose proof (need_chunk (f_off ff + i) len ltac:(lia) ltac:(lia)). lia.
  - intros m Hm. etrans; [exact (F m Hm)|]. case_decide; [|specialize (P6 m Hm); by rewrite decide_False in P6].
    etrans; [apply written_agree, Hag|]. assert (f_off ff + i = f_off ff + Z.of_nat (length (take (Z.to_nat i) buf))) as -> by (rewrite length_take; lia).
    etrans; [apply written_app|]. rewrite take_take_drop. by replace (Z.to_nat i + Z.to_nat len)%nat with (Z.to_nat (i + len)) by lia.
Qed.

Lemma write_chunks_spec fuel i c s : progress i c s → 0 ≤ i ≤ N → (i < N → (N - i) / WMAX + 1 < Z.of_nat fuel ∧ c + 16 * ((N - i) / WMAX + 1) ≤ nfree sb (s_fs s0)) → (0 < fuel)%nat →
  ∃ c' s', write_chunks sb fuel f (kernel_src buf) i N s = Some (inl N, s') ∧ progress N c' s'.
Proof using All.
  revert i c s. induction fuel as [|fuel IH]; intros i c s Hp Hi Hroom Hfuel; [lia|]. cbn [write_chunks]. change WMAX with 3072 in *.
  destruct (Z.ltb_spec i N) as [Hlt|Hge].
  2: { assert (i = N) as -> by lia. by exists c, s. }
  destruct (Hroom Hlt) as [Hf Hfr]. set (len := if 3072 <? N - i then 3072 else N - i). assert (0 < len ≤ 3072 ∧ i + len ≤ N) as [Hlen Hle] by (unfold len; destruct (Z.ltb_spec 3072 (N - i)); lia).
  assert (0 ≤ (N - i) / 3072) as Hq by (apply Z.div_pos; lia).
  destruct (write_turn i c s len Hp ltac:(lia) Hlen Hle ltac:(lia)) as (s1 & s2 & s3 & s' & -> & Em & E2 & E3 & Es & Hp'). cbn [mbind option_bind]. rewrite Em, E2.
  cbn [mbind option_bind]. rewrite E3. cbn [mbind option_bind]. rewrite (proj2 (Z.ltb_lt 0 len)), (proj2 (Z.ltb_ge len 0)), Z.eqb_refl by lia. cbn [negb]. cbv zeta iota. rewrite <-Es.
  apply (IH (i + len) (c + 16) s' Hp'); [lia| |lia]. intros Hlt'. unfold len in Hlt' |- *. destruct (Z.ltb_spec 3072 (N - i)); [|lia].
  replace (N - (i + 3072)) with (N - i + (-1) * 3072) by lia. rewrite Z.div_add by done. lia.
Qed.

(** The whole write. *)
Lemma filewrite_spec dev_ok ext : f_writable ff = true → 16 * (N / WMAX + 1) ≤ nfree sb (s_fs s0) →
  ∃ c s', filewrite sb f dev_ok ext (kernel_src buf) N s0 = Some (N, s') ∧ progress N c s'.
Proof using All.
  intros Hw Hfree. unfold filewrite. pose proof Hai as [A1 A2 A3 A4 A5]. assert (file_at f s0 = ff) as -> by (unfold file_at; by apply list_lookup_total_correct).
  rewrite Hw, A2. cbn [negb]. assert (0 ≤ N / WMAX) by (apply Z.div_pos; [lia|done]).
  destruct (write_chunks_spec (wturns N) 0 0 s0 write_start) as (c & s' & -> & Hp).
  - lia.
  - intros _. rewrite Z.sub_0_r. unfold wturns. lia.
  - unfold wturns. lia.
  - cbn [mbind option_bind]. rewrite Z.eqb_refl. by exists c, s'.
Qed.

End write.

(** ** What the calls promise *)

Lemma moved_quiet s f ff off s' : quiet sb s → ftable s !! f = Some ff → ftable s' = alter (λ g, g <| f_off := off |>) f (ftable s) → ofile s' = ofile s → cwd s' = cwd s →
  same_cache (s_fs s) (s_fs s') → quiet sb s'.
Proof using Hsb.
  intros Hq Hf Et Eo Ec [C1 C2 C3 C4]. destruct s' as [fs' t' o' c']. cbn in Et, Eo, Ec. subst t' o' c'.
  pose proof (so_ref _ _ _ _ Hq f ff Hf) as [_ Hpos].
  assert (quiet sb (set_file f (λ g, g <| f_off := off |>) s)) as Hq1.
  { assert (f_ref ff = 0 → f_type ff = FD_NONE) as Hidle by (intros H0; apply (so_idle _ _ _ _ Hq ff); [by eapply list_elem_of_lookup_2|done]).
    pose (g := λ g : file, g <| f_off := off |>). pose proof (ref_change sb _ _ s f ff g 0 Hq Hf eq_refl eq_refl ltac:(change (f_ref ff = f_ref ff + 0); lia) Hpos Hidle) as H1.
    eapply sys_ok_ext; [exact H1|intros h; lia|done]. }
  change (quiet sb (set_file f (λ g, g <| f_off := off |>) s <| s_fs := fs' |>)). cbn [s_fs] in C1, C2, C3, C4.
  eapply sys_ok_ext; [apply (fs_change sb _ _ (λ _, 0) _ fs' Hq1)| |]; try done.
  - intros m. rewrite C2. cbn [set_file s_fs upd ftable_set]. lia.
  - intros k m Hk _. by apply C4.
Qed.

(** A file that quiet descriptors can use. *)
Lemma quiet_inode s f ff : quiet sb s → ftable s !! f = Some ff → f_type ff = FD_INODE → af_type (abs (s_fs s) (inum_at (f_ip ff) (s_fs s))) ≠ 0 →
  at_inode s f ff (inum_at (f_ip ff) (s_fs s)).
Proof using Hsb.
  intros Hq Hf Ht Hl. destruct (so_entry _ _ _ _ Hq (f_ip ff)) as [n He].
  { left. exists ff. split_and!; [by eapply list_elem_of_lookup_2|unfold on_inode; by rewrite Ht|done]. }
  rewrite (entry_inum _ _ _ He) in *. split; try done. by eapply lock_free.
Qed.

(** lseek(fd, off, SEEK_SET) *)
Lemma seek_spec p fd s f ff n off : quiet sb s → argfd p fd s = Some f → at_inode s f ff n → 0 ≤ off →
  ∃ s', sys_lseek sb p fd off 0 s = Some (off, s') ∧ ftable s' = alter (λ g, g <| f_off := off |>) f (ftable s) ∧ ofile s' = ofile s ∧ cwd s' = cwd s ∧
    same_cache (s_fs s) (s_fs s') ∧ ∀ m, inum_ok sb m → agree (abs (s_fs s') m) (abs (s_fs s) m).
Proof using Hsb.
  intros Hq Hfd [A1 A2 A3 A4 A5] Hoff. unfold sys_lseek, with_fd. rewrite Hfd. assert (file_at f s = ff) as -> by (unfold file_at; by apply list_lookup_total_correct).
  rewrite A2. cbn [negb bool_decide decide]. pose proof (so_good _ _ _ _ Hq) as Hg. pose proof (size_ok sb (s_fs s) n Hg (entry_ok sb _ _ _ Hg A3)) as Hsz.
  destruct (read_session (f_ip ff) n 0 0 (s_fs s) Hg A3 A4 A5 ltac:(lia) ltac:(lia) ltac:(lia)) as (s1 & s2 & E1 & _ & _ & _ & E2 & C & _ & F). rewrite bool_decide_eq_true_2 by done. cbn [negb].
  rewrite E1. cbn [mbind option_bind Z.eqb]. rewrite E2. cbn [mbind option_bind]. rewrite (proj2 (Z.ltb_ge off 0)) by done. eexists. by split_and!.
Qed.

(** read() of a file from the offset of the open file. *)
Lemma fileread_spec f ff n s dev_ok ext len : quiet sb s → at_inode s f ff n → f_readable ff = true → Z.land (af_mode (abs (s_fs s) n)) 1 ≠ 0 →
  0 ≤ f_off ff ≤ af_size (abs (s_fs s) n) → 0 ≤ len → f_off ff + len < 2 ^ 32 →
  let k := Z.min len (af_size (abs (s_fs s) n) - f_off ff) in
  ∃ s', fileread sb f dev_ok ext (λ _ _, true) len s = Some (k, bytes_at (abs (s_fs s) n) (f_off ff) len, s') ∧
    ftable s' = alter (λ g, g <| f_off := f_off ff + k |>) f (ftable s) ∧ ofile s' = ofile s ∧ cwd s' = cwd s ∧
    same_cache (s_fs s) (s_fs s') ∧ ∀ m, inum_ok sb m → agree (abs (s_fs s') m) (abs (s_fs s) m).
Proof using Hsb.
  intros Hq [A1 A2 A3 A4 A5] Hrd Hmode Hoff Hlen Hfit k. unfold fileread. assert (file_at f s = ff) as -> by (unfold file_at; by apply list_lookup_total_correct).
  rewrite Hrd, A2. cbn [negb]. pose proof (so_good _ _ _ _ Hq) as Hg. pose proof (size_ok sb (s_fs s) n Hg (entry_ok sb _ _ _ Hg A3)) as Hsz. pose proof MAXSIZE_value.
  destruct (read_session (f_ip ff) n (f_off ff) len (s_fs s) Hg A3 A4 A5 Hoff Hlen Hfit) as (s1 & s2 & E1 & Em & _ & Er & E2 & C & _ & F).
  rewrite E1. cbn [mbind option_bind]. rewrite Em, (proj2 (Z.eqb_neq _ _) Hmode), u32_small, Er by lia. cbn [mbind option_bind]. rewrite E2. cbn [mbind option_bind]. fold k.
  eexists. split; [done|]. split; [|by split_and!; destruct (0 <? k)]. assert (0 ≤ k) by lia. destruct (Z.ltb_spec 0 k).
  - unfold set_file. cbn [ftable upd ftable_set s_fs_set]. apply (list_alter_ext' _ _ _ _ ff A1). cbn. by rewrite u32_small by lia.
  - cbn [ftable upd s_fs_set]. symmetry. apply (list_alter_id' _ _ _ ff A1). replace (f_off ff + k) with (f_off ff) by lia. by destruct ff.
Qed.

(** C10: write() on a file: although it is cut into transactions of at most three
    blocks' bytes, it acts as one write of the whole buffer at the offset of the
    open file. It returns the number of bytes, moves the offset behind them,
    changes no other file and no other open file, and leaves references, locks
    and descriptors consistent. The loop ends within its turns. *)
Theorem filewrite_is_one_write s f ff buf dev_ok ext : quiet sb s → ftable s !! f = Some ff → f_type ff = FD_INODE → f_writable ff = true →
  let n := inum_at (f_ip ff) (s_fs s) in let a := abs (s_fs s) n in
  af_type a ≠ 0 → Z.land (af_mode a) 2 ≠ 0 → Forall is_byte buf → 0 ≤ f_off ff ≤ af_size a → f_off ff + Z.of_nat (length buf) ≤ MAXSIZE →
  16 * (Z.of_nat (length buf) / WMAX + 1) ≤ nfree sb (s_fs s) →
  ∃ s', filewrite sb f dev_ok ext (kernel_src buf) (Z.of_nat (length buf)) s = Some (Z.of_nat (length buf), s') ∧ quiet sb s' ∧
    ofile s' = ofile s ∧ cwd s' = cwd s ∧ ftable s' = alter (λ g, g <| f_off := f_off ff + Z.of_nat (length buf) |>) f (ftable s) ∧
    ∀ m, inum_ok sb m → agree (abs (s_fs s') m) (if decide (m = n) then written (f_off ff) buf a else abs (s_fs s) m).
Proof using Hsb.
  intros Hq Hf Ht Hw n a Hl Hmode Hb Hoff Hfit Hfree. pose proof (quiet_inode s f ff Hq Hf Ht Hl) as Hai.
  destruct (filewrite_spec s f ff n buf (so_good _ _ _ _ Hq) Hai Hmode Hb Hoff Hfit dev_ok ext Hw Hfree) as (c & s' & E & [P1 P2 P3 P4 P5 P6]).
  exists s'. split_and!; try done.
  - by eapply moved_quiet.
  - intros m Hm. specialize (P6 m Hm). by rewrite Nat2Z.id, firstn_all in P6.
Qed.

(** What was written is there. *)
Lemma bytes_written off buf a b : 0 ≤ off → off + Z.of_nat (length buf) ≤ MAXSIZE → agree b (written off buf a) → bytes_at b off (Z.of_nat (length buf)) = buf.
Proof using Type.
  intros Ho Hfit (_ & _ & _ & _ & _ & S & D). cbn [written af_size af_data upd af_data_set af_size_set] in S, D. unfold bytes_at. rewrite S, Z.min_l by lia.
  trans ((λ i, buf !!! Z.to_nat (0 + i)) <$> seqZ 0 (Z.of_nat (length buf))); [|apply slice_all].
  apply list_fmap_ext. intros j x Hx. apply lookup_seqZ in Hx as [-> Hx]. rewrite D by (apply off_below; lia). unfold patch. rewrite decide_True by lia. f_equal. lia.
Qed.

(** C9: what write() wrote read() returns: after write(fd, buf), lseek(fd, off, SEEK_SET)
    back to where the write began and read(fd, n) give n and exactly the bytes of
    buf, for every buffer that fits the file and the free blocks; descriptors,
    references and locks are consistent afterwards. *)
Theorem write_seek_read p fd s f ff buf dev_ok ext : quiet sb s → argfd p fd s = Some f → ftable s !! f = Some ff → f_type ff = FD_INODE → f_readable ff = true → f_writable ff = true →
  let n := inum_at (f_ip ff) (s_fs s) in let a := abs (s_fs s) n in let len := Z.of_nat (length buf) in
  af_type a ≠ 0 → Z.land (af_mode a) 1 ≠ 0 → Z.land (af_mode a) 2 ≠ 0 → Forall is_byte buf → 0 ≤ f_off ff ≤ af_size a → f_off ff + len ≤ MAXSIZE → 16 * (len / WMAX + 1) ≤ nfree sb (s_fs s) →
  ∃ s1 s2 s3, sys_write sb p fd dev_ok ext (kernel_src buf) len s = Some (len, s1) ∧ sys_lseek sb p fd (f_off ff) 0 s1 = Some (f_off ff, s2) ∧
    sys_read sb p fd dev_ok ext (λ _ _, true) len s2 = Some (len, buf, s3) ∧ quiet sb s3.
Proof using Hsb.
  intros Hq Hfd Hf Ht Hrd Hw n a len Hl Hm1 Hm2 Hb Hoff Hfit Hfree. pose proof (quiet_inode s f ff Hq Hf Ht Hl) as Hai. pose proof MAXSIZE_value.
  destruct (filewrite_spec s f ff n buf (so_good _ _ _ _ Hq) Hai Hm2 Hb Hoff Hfit dev_ok ext Hw Hfree) as (c & s1 & E1 & Hp). pose proof Hp as [P1 P2 P3 P4 P5 P6].
  assert (quiet sb s1) as Hq1 by (by eapply moved_quiet). destruct (progress_file s f ff n buf (so_good _ _ _ _ Hq) Hai Hm2 Hb Hoff Hfit _ _ _ Hp) as (_ & Hai1 & Hag).
  rewrite Nat2Z.id, firstn_all in Hag. assert (argfd p fd s1 = Some f) as Hfd1 by (unfold argfd; by rewrite P2).
  destruct (seek_spec p fd s1 f _ n (f_off ff) Hq1 Hfd1 Hai1 (proj1 Hoff)) as (s2 & E2 & T2 & O2 & C2 & K2 & F2).
  assert (quiet sb s2) as Hq2 by (eapply moved_quiet; [exact Hq1|apply Hai1|done..]). pose proof (entry_ok sb (s_fs s) (f_ip ff) n (so_good _ _ _ _ Hq) (ai_entry _ _ _ _ Hai)) as Hn.
  assert (agree (abs (s_fs s2) n) (written (f_off ff) buf a)) as Hag2 by (etrans; [by apply F2|exact Hag]). pose proof Hag2 as (M & T & _ & _ & _ & S & _). cbn [written af_mode af_type af_size upd af_data_set af_size_set] in M, T, S.
  assert (ftable s2 !! f = Some ff) as Hf2.
  { rewrite T2, P1, list_alter_alter, list_lookup_alter_eq, Hf. cbn. f_equal. by destruct ff. }
  assert (at_inode s2 f ff n) as Hai2.
  { destruct Hai1 as [A1 A2 A3 A4 A5], K2 as [K1 K2 K3 K4]. split; try done; [by apply K4|by rewrite K3|by rewrite T]. }
  destruct (fileread_spec f ff n s2 dev_ok ext len Hq2 Hai2 Hrd ltac:(by rewrite M) ltac:(rewrite S; lia) ltac:(lia) ltac:(lia)) as (s3 & E3 & T3 & O3 & C3 & K3 & F3).
  exists s1, s2, s3. split; [unfold sys_write, with_fd; by rewrite Hfd|]. split; [done|].
  assert (argfd p fd s2 = Some f) as Hfd2 by (unfold argfd; by rewrite O2, P2). split; [|by eapply moved_quiet].
  unfold sys_read, with_fd. rewrite Hfd2, E3. unfold len. rewrite (bytes_written (f_off ff) buf a _ (proj1 Hoff) Hfit Hag2), S. by rewrite Z.min_l by (unfold len in *; lia).
Qed.

End io.

(** "hi" written to the open file of [small_sys], which has mode 3 and room. *)
Lemma small_file : abs small_sb root_fs 2 = file_of (small_dinode T_FILE) (af_data (abs small_sb root_fs 2)).
Proof. destruct (small_abs T_DIR false root_rest ltac:(done) root_unused 2 ltac:(done)) as [C E]. fold root_fs in E. rewrite E. reflexivity. Qed.

Lemma filewrite_is_one_write_witness : ∃ s', filewrite small_sb 0 (λ _, false) 0 (kernel_src [104; 105]) 2 small_sys = Some (2, s') ∧ quiet small_sb s' ∧
  af_size (abs small_sb (s_fs s') 2) = 2.
Proof.
  pose proof small_file as E.
  destruct (filewrite_is_one_write small_sb small_wf small_sys 0 (mk_file FD_INODE 1 true true 0 1 0 0 0 0) [104; 105] (λ _, false) 0 small_sys_quiet eq_refl eq_refl eq_refl) as (s' & W & Q & _ & _ & _ & F).
  - change (af_type (abs small_sb root_fs 2) ≠ 0). rewrite E. discriminate.
  - change (Z.land (af_mode (abs small_sb root_fs 2)) 2 ≠ 0). rewrite E. discriminate.
  - repeat constructor; lia.
  - change (0 ≤ 0 ≤ af_size (abs small_sb root_fs 2)). rewrite E. cbn [file_of af_size small_dinode d_size]. lia.
  - rewrite MAXSIZE_value. cbn. lia.
  - vm_compute. discriminate.
  - exists s'. split; [exact W|]. split; [exact Q|]. destruct (F 2 ltac:(done)) as (_ & _ & _ & _ & _ & -> & _).
    change (af_size (written 0 [104; 105] (abs small_sb root_fs 2)) = 2). rewrite E. reflexivity.
Defined.

Lemma write_seek_read_witness : ∃ s1 s2 s3, sys_write small_sb 0 3 (λ _, false) 0 (kernel_src [104; 105]) 2 small_sys = Some (2, s1) ∧
  sys_lseek small_sb 0 3 0 0 s1 = Some (0, s2) ∧ sys_read small_sb 0 3 (λ _, false) 0 (λ _ _, true) 2 s2 = Some (2, [104; 105], s3).
Proof.
  pose proof small_file as E.
  destruct (write_seek_read small_sb small_wf 0 3 small_sys 0 (mk_file FD_INODE 1 true true 0 1 0 0 0 0) [104; 105] (λ _, false) 0 small_sys_quiet eq_refl eq_refl eq_refl eq_refl eq_refl)
    as (s1 & s2 & s3 & W & L & R & _).
  - change (af_type (abs small_sb root_fs 2) ≠ 0). rewrite E. discriminate.
  - change (Z.land (af_mode (abs small_sb root_fs 2)) 1 ≠ 0). rewrite E. discriminate.
  - change (Z.land (af_mode (abs small_sb root_fs 2)) 2 ≠ 0). rewrite E. discriminate.
  - repeat constructor; lia.
  - change (0 ≤ 0 ≤ af_size (abs small_sb root_fs 2)). rewrite E. cbn [file_of af_size small_dinode d_size]. lia.
  - rewrite MAXSIZE_value. cbn. lia.
  - vm_compute. discriminate.
  - exists s1, s2, s3. split; [exact W|]. split; [exact L|exact R].
Defined.
