(* ===== verification/Fat.v ===== *)
(** * The FAT16 file system (src/kernel/filesystem/fat.c)

    A disk is a byte memory per device, the contents of the buffer cache of
    Bio.v: bread() and bwrite() of a 1024-byte block read and write it. Objects
    that the code keeps on pages of their own - mounted super blocks and the
    inodes of the virtual file system - are maps from page addresses; [pages] are
    the free pages, and kalloc() takes the first. A definition is [None] when the
    code panics, divides by zero or follows a pointer to nothing, and when the
    fuel of a loop runs out; FatSpec.v shows that it does not on well-formed
    disks. The locks of the module protect single assignments. *)

From stdpp Require Import list_numbers gmap.
From S2P Require Import Prelude Mem.

Definition BLOCK : Z := 1024.
Definition FAT16_SECTOR_SIZE : Z := 512.
Definition FAT16_CLUSTER_FREE : Z := 0.
Definition FAT16_CLUSTER_RESV : Z := 65520.
Definition FAT16_CLUSTER_EOF : Z := 65535.
Definition FAT16_CLUSTER_MIN : Z := 2.
Definition FAT_ATTR_VOLUME_ID : Z := 8.
Definition FAT_ATTR_DIRECTORY : Z := 16.
Definition FAT_ATTR_ARCHIVE : Z := 32.
Definition FAT_ATTR_LONG_NAME : Z := 15.
Definition FAT_NINODE : nat := 50.
Definition VFS_FILE : Z := 1.
Definition VFS_DIR : Z := 2.
Definition VFS_MAXPATH : nat := 128.

Record fat_sb := mk_fat_sb {
  sb_dev : Z; bytes_per_sector : Z; sectors_per_cluster : Z; bytes_per_cluster : Z; reserved_sectors : Z;
  num_fats : Z; root_entries : Z; sectors_per_fat : Z; total_sectors : Z; fat_start : Z; root_start : Z;
  root_sectors : Z; data_start : Z; total_clusters : Z; fat_cache : option (list Z); fat_dirty : bool }.

#[export] Instance fat_sb_rebuild : Rebuild fat_sb := λ b,
  mk_fat_sb (sb_dev b) (bytes_per_sector b) (sectors_per_cluster b) (bytes_per_cluster b) (reserved_sectors b)
    (num_fats b) (root_entries b) (sectors_per_fat b) (total_sectors b) (fat_start b) (root_start b)
    (root_sectors b) (data_start b) (total_clusters b) (fat_cache b) (fat_dirty b).
#[export] Instance fat_cache_set : Setter fat_cache := ltac:(solve_setter).
#[export] Instance fat_dirty_set : Setter fat_dirty := ltac:(solve_setter).

(** [fi_sb] is the address of the super block. *)
Record fat_inode := mk_fat_inode {
  fi_cluster : Z; fi_size : Z; fi_attr : Z; fi_parent : Z; fi_dir_offset : Z; fi_name : list Z; fi_sb : Z;
  fi_ref : Z; fi_valid : bool }.

#[export] Instance fat_inode_rebuild : Rebuild fat_inode := λ f,
  mk_fat_inode (fi_cluster f) (fi_size f) (fi_attr f) (fi_parent f) (fi_dir_offset f) (fi_name f) (fi_sb f) (fi_ref f) (fi_valid f).
#[export] Instance fi_cluster_set : Setter fi_cluster := ltac:(solve_setter).
#[export] Instance fi_size_set : Setter fi_size := ltac:(solve_setter).
#[export] Instance fi_attr_set : Setter fi_attr := ltac:(solve_setter).
#[export] Instance fi_parent_set : Setter fi_parent := ltac:(solve_setter).
#[export] Instance fi_dir_offset_set : Setter fi_dir_offset := ltac:(solve_setter).
#[export] Instance fi_name_set : Setter fi_name := ltac:(solve_setter).
#[export] Instance fi_sb_set : Setter fi_sb := ltac:(solve_setter).
#[export] Instance fi_ref_set : Setter fi_ref := ltac:(solve_setter).
#[export] Instance fi_valid_set : Setter fi_valid := ltac:(solve_setter).
#[export] Instance fat_inode_inhabited : Inhabited fat_inode := populate (mk_fat_inode 0 0 0 0 0 [] 0 0 false).

(** [v_mnt] is an index of the mount table, [v_data] one of the FAT inode cache. *)
Record vfs_inode := mk_vfs_inode {
  v_dev : Z; v_inum : Z; v_ref : Z; v_valid : bool; v_type : Z; v_size : Z; v_mnt : nat; v_data : nat }.

#[export] Instance vfs_inode_rebuild : Rebuild vfs_inode := λ v,
  mk_vfs_inode (v_dev v) (v_inum v) (v_ref v) (v_valid v) (v_type v) (v_size v) (v_mnt v) (v_data v).
#[export] Instance v_valid_set : Setter v_valid := ltac:(solve_setter).
#[export] Instance v_type_set : Setter v_type := ltac:(solve_setter).
#[export] Instance v_size_set : Setter v_size := ltac:(solve_setter).

(** The operations of a mount: those of the native file system or of FAT. *)
Inductive fs_operations := xv6_ops | fat_ops.

#[export] Instance fs_operations_eq_dec : EqDecision fs_operations.
Proof. solve_decision. Defined.

(** [m_point] is the array mountpoint[], [m_data] the address of the super block. *)
Record vfs_mount := mk_vfs_mount {
  m_used : bool; m_dev : Z; m_type : Z; m_point : list Z; m_ops : option fs_operations; m_data : option Z }.

#[export] Instance vfs_mount_rebuild : Rebuild vfs_mount := λ m,
  mk_vfs_mount (m_used m) (m_dev m) (m_type m) (m_point m) (m_ops m) (m_data m).
#[export] Instance m_used_set : Setter m_used := ltac:(solve_setter).
#[export] Instance m_dev_set : Setter m_dev := ltac:(solve_setter).
#[export] Instance m_type_set : Setter m_type := ltac:(solve_setter).
#[export] Instance m_point_set : Setter m_point := ltac:(solve_setter).
#[export] Instance m_ops_set : Setter m_ops := ltac:(solve_setter).
#[export] Instance m_data_set : Setter m_data := ltac:(solve_setter).

Record fat := mk_fat {
  disk : Z → Z → Z; sbs : gmap Z fat_sb; fat_icache : list fat_inode; vnodes : gmap Z vfs_inode;
  mounts : list vfs_mount; pages : list Z }.

#[export] Instance fat_rebuild : Rebuild fat := λ s,
  mk_fat (disk s) (sbs s) (fat_icache s) (vnodes s) (mounts s) (pages s).
#[export] Instance disk_set : Setter disk := ltac:(solve_setter).
#[export] Instance sbs_set : Setter sbs := ltac:(solve_setter).
#[export] Instance fat_icache_set : Setter fat_icache := ltac:(solve_setter).
#[export] Instance vnodes_set : Setter vnodes := ltac:(solve_setter).
#[export] Instance mounts_set : Setter mounts := ltac:(solve_setter).
#[export] Instance pages_set : Setter pages := ltac:(solve_setter).

(** The page allocator, and the objects behind pointers. *)
Definition kalloc (s : fat) : option Z * fat :=
  match pages s with
  | [] => (None, s)
  | p :: l => (Some p, s <| pages := l |>)
  end.

Definition kfree (p : Z) (s : fat) : fat := s <| pages := p :: pages s |>.

Definition set_fip (f : nat) (g : fat_inode → fat_inode) (s : fat) : fat :=
  s <| fat_icache := alter g f (fat_icache s) |>.

Definition set_vip (p : Z) (g : vfs_inode → vfs_inode) (s : fat) : fat := s <| vnodes := alter g p (vnodes s) |>.

Definition set_mnt (i : nat) (g : vfs_mount → vfs_mount) (s : fat) : fat := s <| mounts := alter g i (mounts s) |>.

(** ** Sectors and the table *)

Definition fat_init (s : fat) : fat :=
  s <| fat_icache := (λ f, f <| fi_ref := 0 |> <| fi_valid := false |>) <$> fat_icache s |>.

(** Two sectors share a block. *)
Definition sector_addr (sector : Z) : Z := sector / 2 * BLOCK + sector `mod` 2 * FAT16_SECTOR_SIZE.

Definition fat_read_sector (dev sector : Z) (s : fat) : list Z :=
  load_bytes (sector_addr sector) (Z.to_nat FAT16_SECTOR_SIZE) (disk s dev).

Definition fat_write_sector (dev sector : Z) (buf : list Z) (s : fat) : fat :=
  s <| disk := λ d, if d =? dev then store_bytes (sector_addr sector) buf (disk s dev) else disk s d |>.

(** The bytes [bs] stored at [off] of a buffer. *)
Definition buf_write (off : Z) (bs buf : list Z) : list Z :=
  take (Z.to_nat off) buf ++ bs ++ drop (Z.to_nat off + length bs) buf.

Definition buf_read (off n : Z) (buf : list Z) : list Z := take (Z.to_nat n) (drop (Z.to_nat off) buf).

Definition word_at (off n : Z) (buf : list Z) : Z := little_endian_to_Z 8 (buf_read off n buf).

Definition fat_get_entry (b cluster : Z) (s : fat) : option Z :=
  sb ← sbs s !! b;
  match fat_cache sb with
  | Some cache => cache !! Z.to_nat cluster
  | None =>
      let fat_offset := u32 (cluster * 2) in
      let fat_sector := u32 (fat_start sb + fat_offset / FAT16_SECTOR_SIZE) in
      Some (word_at (fat_offset `mod` FAT16_SECTOR_SIZE) 2 (fat_read_sector (sb_dev sb) fat_sector s))
  end.

Definition fat_set_entry (b cluster value : Z) (s : fat) : option fat :=
  sb ← sbs s !! b;
  match fat_cache sb with
  | Some cache =>
      if (Z.to_nat cluster <? length cache)%nat then
        Some (s <| sbs := <[b := sb <| fat_cache := Some (<[Z.to_nat cluster := value `mod` 2 ^ 16]> cache) |> <| fat_dirty := true |>]> (sbs s) |>)
      else None
  | None =>
      let fat_offset := u32 (cluster * 2) in
      let fat_sector := u32 (fat_start sb + fat_offset / FAT16_SECTOR_SIZE) in
      let buf := fat_read_sector (sb_dev sb) fat_sector s in
      let buf := buf_write (fat_offset `mod` FAT16_SECTOR_SIZE) (Z_to_little_endian 2 8 value) buf in
      Some (fat_write_sector (sb_dev sb) fat_sector buf s)
  end.

(** The loop over [turns] clusters from [i]; 0 is "no free cluster". *)
Fixpoint alloc_loop (turns : nat) (b i : Z) (s : fat) : option (Z * fat) :=
  match turns with
  | O => Some (0, s)
  | S turns =>
      e ← fat_get_entry b i s;
      if e =? FAT16_CLUSTER_FREE then
        s ← fat_set_entry b i FAT16_CLUSTER_EOF s;
        Some (i, s)
      else alloc_loop turns b (i + 1) s
  end.

Definition fat_alloc_cluster (b : Z) (s : fat) : option (Z * fat) :=
  sb ← sbs s !! b;
  alloc_loop (Z.to_nat (u32 (total_clusters sb + 2) - FAT16_CLUSTER_MIN)) b FAT16_CLUSTER_MIN s.

(** A cluster number that a chain goes on with. *)
Definition live (c : Z) : bool := (FAT16_CLUSTER_MIN <=? c) && (c <? FAT16_CLUSTER_RESV).

Fixpoint free_loop (fuel : nat) (b cluster : Z) (s : fat) : option fat :=
  match fuel with
  | O => None
  | S fuel =>
      if live cluster then
        next ← fat_get_entry b cluster s;
        s ← fat_set_entry b cluster FAT16_CLUSTER_FREE s;
        free_loop fuel b next s
      else Some s
  end.

Definition fat_free_chain (b cluster : Z) (s : fat) : option fat :=
  free_loop (S (Z.to_nat FAT16_CLUSTER_RESV)) b cluster s.

Definition fat_cluster_to_sector (sb : fat_sb) (cluster : Z) : Z :=
  u32 (data_start sb + (cluster - 2) * sectors_per_cluster sb).

(** ** Mounting *)

(** The super block that the boot sector [buf] describes; [None] is the division
    by sectors_per_cluster = 0. *)
Definition fat_fill_sb (dev : Z) (buf : list Z) : option fat_sb :=
  let bps := word_at 11 2 buf in
  let spc := word_at 13 1 buf in
  let reserved := word_at 14 2 buf in
  let nfats := word_at 16 1 buf in
  let entries := word_at 17 2 buf in
  let spf := word_at 22 2 buf in
  let total := if negb (word_at 19 2 buf =? 0) then word_at 19 2 buf else word_at 32 4 buf in
  let rstart := u32 (reserved + nfats * spf) in
  let rsectors := u32 (entries * 32 + bps - 1) / bps in
  let dstart := u32 (rstart + rsectors) in
  if spc =? 0 then None
  else Some (mk_fat_sb dev bps spc (u32 (bps * spc)) reserved nfats entries spf total reserved rstart rsectors dstart
               (u32 (total - dstart) / spc) None false).

Definition fat_mount (mnt : nat) (dev : Z) (s : fat) : option (Z * fat) :=
  let buf := fat_read_sector dev 0 s in
  if negb (word_at 11 2 buf =? FAT16_SECTOR_SIZE) then Some (-1, s)
  else
    match kalloc s with
    | (None, s) => Some (-1, s)
    | (Some p, s) =>
        sb ← fat_fill_sb dev buf;
        Some (0, set_mnt mnt (λ m, m <| m_data := Some p |> <| m_dev := dev |>) (s <| sbs := <[p := sb]> (sbs s) |>))
    end.

Definition fat_unmount (mnt : nat) (s : fat) : option (Z * fat) :=
  m ← mounts s !! mnt;
  let s := match m_data m with Some p => kfree p (s <| sbs := delete p (sbs s) |>) | None => s end in
  Some (0, set_mnt mnt (λ m, m <| m_data := None |>) s).

(** ** Names *)

Record fat_dirent := mk_fat_dirent {
  fd_name : list Z; fd_ext : list Z; fd_attr : Z; fd_rest : list Z; fd_cluster_low : Z; fd_file_size : Z }.

#[export] Instance fat_dirent_rebuild : Rebuild fat_dirent := λ d,
  mk_fat_dirent (fd_name d) (fd_ext d) (fd_attr d) (fd_rest d) (fd_cluster_low d) (fd_file_size d).
#[export] Instance fd_name_set : Setter fd_name := ltac:(solve_setter).

Definition FDESZ : Z := 32.

(** [fd_rest] are the times and dates and cluster_high, which the code does not read. *)
Definition decode_fdirent (bs : list Z) : fat_dirent :=
  mk_fat_dirent (buf_read 0 8 bs) (buf_read 8 3 bs) (word_at 11 1 bs) (buf_read 12 14 bs) (word_at 26 2 bs) (word_at 28 4 bs).

Definition encode_fdirent (d : fat_dirent) : list Z :=
  fd_name d ++ fd_ext d ++ Z_to_little_endian 1 8 (fd_attr d) ++ fd_rest d ++
  Z_to_little_endian 2 8 (fd_cluster_low d) ++ Z_to_little_endian 4 8 (fd_file_size d).

Definition SPACE : Z := 32.
Definition DOT : Z := 46.

(** The bytes of an array up to the first space. *)
Fixpoint to_space (l : list Z) : list Z :=
  match l with
  | [] => []
  | c :: l => if c =? SPACE then [] else c :: to_space l
  end.

(** The string without its terminating zero. *)
Definition fat_name_to_str (d : fat_dirent) : list Z :=
  to_space (fd_name d) ++ (if negb (fd_ext d !!! O =? SPACE) then DOT :: to_space (fd_ext d) else []).

Definition upper (c : Z) : Z := if (97 <=? c) && (c <=? 122) then c - 97 + 65 else c.

(** At most [room] bytes up to the first dot. *)
Fixpoint copy_name (room : nat) (s : list Z) : list Z :=
  match room, s with
  | S room, c :: s => if c =? DOT then [] else upper c :: copy_name room s
  | _, _ => []
  end.

(** What follows the last dot. *)
Fixpoint last_dot (s : list Z) (dot : option (list Z)) : option (list Z) :=
  match s with
  | [] => dot
  | c :: s => last_dot s (if c =? DOT then Some s else dot)
  end.

Definition pad (n : nat) (l : list Z) : list Z := l ++ replicate (n - length l) SPACE.

Definition fat_str_to_name (s : list Z) : list Z * list Z :=
  (pad 8 (copy_name 8 s),
   pad 3 (match last_dot s None with Some e => upper <$> take 3 e | None => [] end)).

(** ** Inodes *)

Definition fat_ialloc (s : fat) : option (nat * fat) :=
  f ← find_index (λ f, fi_ref f =? 0) (fat_icache s);
  Some (f, set_fip f (λ i, i <| fi_ref := 1 |> <| fi_valid := false |>) s).

Definition fat_iget (mnt : nat) (inum : Z) (s : fat) : option (option Z * fat) :=
  '(f, s) ← fat_ialloc s;
  m ← mounts s !! mnt;
  let s := set_fip f (λ i, i <| fi_cluster := inum |> <| fi_sb := default 0 (m_data m) |> <| fi_valid := false |>) s in
  match kalloc s with
  | (None, s) => Some (None, set_fip f (λ i, i <| fi_ref := 0 |>) s)
  | (Some p, s) => Some (Some p, s <| vnodes := <[p := mk_vfs_inode (m_dev m) inum 1 false 0 0 mnt f]> (vnodes s) |>)
  end.

Definition fat_iput (ip : option Z) (s : fat) : option fat :=
  match ip with
  | None => Some s
  | Some p =>
      v ← vnodes s !! p;
      let s := set_fip (v_data v) (λ i, i <| fi_ref := fi_ref i - 1 |>) s in
      Some (kfree p (s <| vnodes := delete p (vnodes s) |>))
  end.

Definition fat_ilock (p : Z) (s : fat) : option fat :=
  v ← vnodes s !! p;
  fip ← fat_icache s !! v_data v;
  s ← (if fi_valid fip then Some s
       else if fi_cluster fip =? 0 then
         sb ← sbs s !! fi_sb fip;
         Some (set_fip (v_data v) (λ i, i <| fi_size := u32 (root_entries sb * 32) |> <| fi_attr := FAT_ATTR_DIRECTORY |> <| fi_valid := true |>) s)
       else Some (set_fip (v_data v) (λ i, i <| fi_valid := true |>) s));
  fip ← fat_icache s !! v_data v;
  let type := if Z.land (fi_attr fip) FAT_ATTR_DIRECTORY =? 0 then VFS_FILE else VFS_DIR in
  Some (set_vip p (λ v, v <| v_type := type |> <| v_size := fi_size fip |> <| v_valid := true |>) s).

Definition fat_iunlock (p : Z) (s : fat) : fat := s.

(** ** Reading

    [dst_ok total m] tells whether copyout() of the [m] bytes at [total] works.
    The results are the return value and the bytes copied out. *)

Fixpoint root_loop (fuel : nat) (sb : fat_sb) (dst_ok : Z → Z → bool) (off total n : Z) (acc : list Z) (s : fat)
    : option (Z * list Z) :=
  match fuel with
  | O => None
  | S fuel =>
      if total <? n then
        let sector := u32 (root_start sb + u32 (off + total) / FAT16_SECTOR_SIZE) in
        let sector_off := u32 (off + total) `mod` FAT16_SECTOR_SIZE in
        let m := if n - total <? FAT16_SECTOR_SIZE - sector_off then n - total else FAT16_SECTOR_SIZE - sector_off in
        let buf := fat_read_sector (sb_dev sb) sector s in
        if dst_ok total m then root_loop fuel sb dst_ok off (total + m) n (acc ++ buf_read sector_off m buf) s
        else Some (-1, acc)
      else Some (i32 total, acc)
  end.

(** Skips [k] clusters of a chain. *)
Fixpoint skip_loop (k : nat) (b cluster : Z) (s : fat) : option Z :=
  match k with
  | O => Some cluster
  | S k => if live cluster then c ← fat_get_entry b cluster s; skip_loop k b c s else Some cluster
  end.

(** The sectors of one cluster; [inr] is the return with -1. *)
Fixpoint read_sectors (fuel : nat) (sb : fat_sb) (dst_ok : Z → Z → bool) (sector sic sector_off total n : Z) (acc : list Z) (s : fat)
    : option ((Z + unit) * list Z) :=
  match fuel with
  | O => None
  | S fuel =>
      if (sic <? sectors_per_cluster sb) && (total <? n) then
        let buf := fat_read_sector (sb_dev sb) (u32 (sector + sic)) s in
        let m := if n - total <? FAT16_SECTOR_SIZE - sector_off then n - total else FAT16_SECTOR_SIZE - sector_off in
        if dst_ok total m then read_sectors fuel sb dst_ok sector (sic + 1) 0 (total + m) n (acc ++ buf_read sector_off m buf) s
        else Some (inr tt, acc)
      else Some (inl total, acc)
  end.

Definition sturns (sb : fat_sb) : nat := S (Z.to_nat (sectors_per_cluster sb)).

Fixpoint read_clusters (fuel : nat) (b : Z) (dst_ok : Z → Z → bool) (cluster cluster_off total n : Z) (acc : list Z) (s : fat)
    : option (Z * list Z) :=
  match fuel with
  | O => None
  | S fuel =>
      if (total <? n) && live cluster then
        sb ← sbs s !! b;
        '(r, acc) ← read_sectors (sturns sb) sb dst_ok (fat_cluster_to_sector sb cluster) (cluster_off / FAT16_SECTOR_SIZE)
                      (cluster_off `mod` FAT16_SECTOR_SIZE) total n acc s;
        match r with
        | inr tt => Some (-1, acc)
        | inl total =>
            c ← fat_get_entry b cluster s;
            read_clusters fuel b dst_ok c 0 total n acc s
        end
      else Some (i32 total, acc)
  end.

(** Every turn but the first and the last moves a sector or more. *)
Definition fturns (n : Z) : nat := Z.to_nat (n / FAT16_SECTOR_SIZE) + 3.

Definition fat_readi (p : Z) (dst_ok : Z → Z → bool) (off n : Z) (s : fat) : option (Z * list Z) :=
  v ← vnodes s !! p;
  fip ← fat_icache s !! v_data v;
  sb ← sbs s !! fi_sb fip;
  if fi_size fip <? off then Some (0, [])
  else
    let n := if fi_size fip <? u32 (off + n) then fi_size fip - off else n in
    if n =? 0 then Some (0, [])
    else if fi_cluster fip =? 0 then root_loop (fturns n) sb dst_ok off 0 n [] s
    else if bytes_per_cluster sb =? 0 then None
    else
      cluster ← skip_loop (Z.to_nat (off / bytes_per_cluster sb)) (fi_sb fip) (fi_cluster fip) s;
      read_clusters (fturns n) (fi_sb fip) dst_ok cluster (off `mod` bytes_per_cluster sb) 0 n [] s.

(** ** Writing

    [src total m] are the [m] bytes at [total] that copyin() fetches, and whether
    it works. *)

(** Follows [k] clusters of a chain and extends it at its end; [inr] is the
    return when no cluster is free. *)
Fixpoint extend_loop (k : nat) (b cluster : Z) (s : fat) : option ((Z + unit) * fat) :=
  match k with
  | O => Some (inl cluster, s)
  | S k =>
      if FAT16_CLUSTER_MIN <=? cluster then
        next ← fat_get_entry b cluster s;
        if FAT16_CLUSTER_EOF <=? next then
          '(new, s) ← fat_alloc_cluster b s;
          if new =? 0 then Some (inr tt, s)
          else s ← fat_set_entry b cluster new s; extend_loop k b new s
        else extend_loop k b next s
      else Some (inl cluster, s)
  end.

Fixpoint write_sectors (fuel : nat) (sb : fat_sb) (src : Z → Z → list Z * bool) (sector sic sector_off total n : Z) (s : fat)
    : option ((Z + unit) * fat) :=
  match fuel with
  | O => None
  | S fuel =>
      if (sic <? sectors_per_cluster sb) && (total <? n) then
        let buf := fat_read_sector (sb_dev sb) (u32 (sector + sic)) s in
        let m := if n - total <? FAT16_SECTOR_SIZE - sector_off then n - total else FAT16_SECTOR_SIZE - sector_off in
        let '(bs, ok) := src total m in
        if ok : bool then
          let s := fat_write_sector (sb_dev sb) (u32 (sector + sic)) (buf_write sector_off bs buf) s in
          write_sectors fuel sb src sector (sic + 1) 0 (total + m) n s
        else Some (inr tt, s)
      else Some (inl total, s)
  end.

(** The loop over clusters; [inl] is the number of bytes written. *)
Fixpoint write_clusters (fuel : nat) (b : Z) (src : Z → Z → list Z * bool) (cluster cluster_off total n : Z) (s : fat)
    : option ((Z + unit) * fat) :=
  match fuel with
  | O => None
  | S fuel =>
      if total <? n then
        sb ← sbs s !! b;
        '(cluster, s) ← (if cluster <? FAT16_CLUSTER_MIN then fat_alloc_cluster b s else Some (cluster, s));
        if cluster =? 0 then Some (inl total, s)
        else
          '(r, s) ← write_sectors (sturns sb) sb src (fat_cluster_to_sector sb cluster) (cluster_off / FAT16_SECTOR_SIZE)
                      (cluster_off `mod` FAT16_SECTOR_SIZE) total n s;
          match r with
          | inr tt => Some (inr tt, s)
          | inl total =>
              next ← fat_get_entry b cluster s;
              if (FAT16_CLUSTER_EOF <=? next) && (total <? n) then
                '(new, s) ← fat_alloc_cluster b s;
                if new =? 0 then Some (inl total, s)
                else s ← fat_set_entry b cluster new s; write_clusters fuel b src new 0 total n s
              else write_clusters fuel b src next 0 total n s
          end
      else Some (inl total, s)
  end.

(** The allocation of a first cluster is behind the test for the root directory, so
    it is never reached: both test cluster == 0. *)
Definition fat_writei (p : Z) (src : Z → Z → list Z * bool) (off n : Z) (s : fat) : option (Z * fat) :=
  v ← vnodes s !! p;
  let f := v_data v in
  fip ← fat_icache s !! f;
  let b := fi_sb fip in
  sb ← sbs s !! b;
  if fi_cluster fip =? 0 then Some (-1, s)
  else if bytes_per_cluster sb =? 0 then None
  else
    '(r, s) ← extend_loop (Z.to_nat (off / bytes_per_cluster sb)) b (fi_cluster fip) s;
    match r with
    | inr tt => Some (-1, s)
    | inl cluster =>
        '(r, s) ← write_clusters (fturns n) b src cluster (off `mod` bytes_per_cluster sb) 0 n s;
        match r with
        | inr tt => Some (-1, s)
        | inl total =>
            let size := if fi_size fip <? u32 (off + total) then u32 (off + total) else fi_size fip in
            Some (i32 total, set_vip p (λ v, v <| v_size := size |>) (set_fip f (λ i, i <| fi_size := size |>) s))
        end
    end.

(** The bytes of a kernel buffer. *)
Definition from_buf (bs : list Z) : Z → Z → list Z * bool := λ total m, (buf_read total m bs, true).

(** ** Directories *)

Definition any_dst : Z → Z → bool := λ _ _, true.

(** The entry at [off]; [None] inside when the read is short. *)
Definition read_fdirent (p off : Z) (s : fat) : option (option fat_dirent) :=
  '(r, bs) ← fat_readi p any_dst off FDESZ s;
  Some (if r =? FDESZ then Some (decode_fdirent bs) else None).

Definition DELETED : Z := 229.

(** Entries that a lookup passes over. *)
Definition skipped (de : fat_dirent) : bool :=
  (fd_name de !!! O =? DELETED) || (fd_attr de =? FAT_ATTR_LONG_NAME) || negb (Z.land (fd_attr de) FAT_ATTR_VOLUME_ID =? 0).

Definition fmatch (name : list Z * list Z) (de : fat_dirent) : bool :=
  bool_decide (fd_name de = name.1) && bool_decide (fd_ext de = name.2).

(** The first entry with the name, and its offset. *)
Fixpoint find_fdirent (fuel : nat) (p : Z) (name : list Z * list Z) (off : Z) (s : fat) : option (option (Z * fat_dirent)) :=
  match fuel with
  | O => None
  | S fuel =>
      r ← read_fdirent p off s;
      match r with
      | None => Some None
      | Some de =>
          if fd_name de !!! O =? 0 then Some None
          else if skipped de then find_fdirent fuel p name (u32 (off + FDESZ)) s
          else if fmatch name de then Some (Some (off, de))
          else find_fdirent fuel p name (u32 (off + FDESZ)) s
      end
  end.

Definition fip_of (p : Z) (s : fat) : option fat_inode := v ← vnodes s !! p; fat_icache s !! v_data v.

Definition ffuel (fip : fat_inode) : nat := Z.to_nat (fi_size fip / FDESZ) + 2.

(** fat_name_to_str() into the 12 bytes of name[]: the zero after a name of 12
    bytes falls on the lowest byte of the pointer sb behind the array. *)
Definition store_name (str : list Z) (i : fat_inode) : fat_inode :=
  if (length str <? 12)%nat then i <| fi_name := str ++ 0 :: drop (S (length str)) (fi_name i) |>
  else i <| fi_name := str |> <| fi_sb := fi_sb i - fi_sb i `mod` 256 |>.

(** What fat_dirlookup() and fat_create() enter in the inode of an entry. *)
Definition fill_inode (p size attr parent off : Z) (str : list Z) (type : Z) (s : fat) : option fat :=
  v ← vnodes s !! p;
  let s := set_fip (v_data v) (λ i, store_name str (i <| fi_size := size |> <| fi_attr := attr |> <| fi_parent := parent |> <| fi_dir_offset := off |>) <| fi_valid := true |>) s in
  Some (set_vip p (λ v, v <| v_type := type |> <| v_size := size |>) s).

(** The second result is *poff. *)
Definition fat_dirlookup (dp : Z) (name : list Z) (s : fat) : option (option (Z * Z) * fat) :=
  v ← vnodes s !! dp;
  fip ← fat_icache s !! v_data v;
  if (Z.land (fi_attr fip) FAT_ATTR_DIRECTORY =? 0) && negb (fi_cluster fip =? 0) then Some (None, s)
  else
    r ← find_fdirent (ffuel fip) dp (fat_str_to_name name) 0 s;
    match r with
    | None => Some (None, s)
    | Some (off, de) =>
        '(ip, s) ← fat_iget (v_mnt v) (fd_cluster_low de) s;
        match ip with
        | None => Some (None, s)
        | Some p =>
            let type := if Z.land (fd_attr de) FAT_ATTR_DIRECTORY =? 0 then VFS_FILE else VFS_DIR in
            fip ← fat_icache s !! v_data v;
            s ← fill_inode p (fd_file_size de) (fd_attr de) (fi_cluster fip) off (fat_name_to_str de) type s;
            Some (Some (p, off), s)
        end
    end.

(** The offset of the first entry that is free, or the end. *)
Fixpoint free_fdirent (fuel : nat) (p : Z) (off : Z) (s : fat) : option Z :=
  match fuel with
  | O => None
  | S fuel =>
      r ← read_fdirent p off s;
      match r with
      | None => Some off
      | Some de => if (fd_name de !!! O =? 0) || (fd_name de !!! O =? DELETED) then Some off else free_fdirent fuel p (u32 (off + FDESZ)) s
      end
  end.

Definition new_fdirent (name : list Z) (attr cluster : Z) : fat_dirent :=
  let '(n, e) := fat_str_to_name name in mk_fat_dirent n e attr (replicate 14 0) (cluster `mod` 2 ^ 16) 0.

Definition fat_dirlink (dp : Z) (name : list Z) (inum : Z) (s : fat) : option (Z * fat) :=
  fip ← fip_of dp s;
  if (Z.land (fi_attr fip) FAT_ATTR_DIRECTORY =? 0) && negb (fi_cluster fip =? 0) then Some (-1, s)
  else
    '(r, s) ← fat_dirlookup dp name s;
    match r with
    | Some _ => Some (-1, s)
    | None =>
        off ← free_fdirent (ffuel fip) dp 0 s;
        '(w, s) ← fat_writei dp (from_buf (encode_fdirent (new_fdirent name FAT_ATTR_ARCHIVE inum))) off FDESZ s;
        Some (if negb (w =? FDESZ) then -1 else 0, s)
    end.

Definition fat_create (dp : Z) (name : list Z) (type : Z) (s : fat) : option (option Z * fat) :=
  v ← vnodes s !! dp;
  fip ← fat_icache s !! v_data v;
  '(r, s) ← fat_dirlookup dp name s;
  match r with
  | Some (ip, _) => Some (Some ip, s)
  | None =>
      '(cluster, s) ← (if type =? VFS_DIR then fat_alloc_cluster (fi_sb fip) s else Some (0, s));
      if (type =? VFS_DIR) && (cluster =? 0) then Some (None, s)
      else
        let attr := if type =? VFS_DIR then FAT_ATTR_DIRECTORY else FAT_ATTR_ARCHIVE in
        let de := new_fdirent name attr cluster in
        off ← free_fdirent (ffuel fip) dp 0 s;
        '(w, s) ← fat_writei dp (from_buf (encode_fdirent de)) off FDESZ s;
        if negb (w =? FDESZ) then
          s ← (if negb (cluster =? 0) then fat_free_chain (fi_sb fip) cluster s else Some s);
          Some (None, s)
        else
          '(ip, s) ← fat_iget (v_mnt v) cluster s;
          match ip with
          | None => Some (None, s)
          | Some p =>
              fip' ← fat_icache s !! v_data v;
              s ← fill_inode p 0 attr (fi_cluster fip') off (fat_name_to_str de) type s;
              Some (Some p, s)
          end
  end.

Definition fat_unlink (dp : Z) (name : list Z) (s : fat) : option (Z * fat) :=
  '(r, s) ← fat_dirlookup dp name s;
  match r with
  | None => Some (-1, s)
  | Some (ip, off) =>
      fip ← fip_of ip s;
      s ← (if FAT16_CLUSTER_MIN <=? fi_cluster fip then fat_free_chain (fi_sb fip) (fi_cluster fip) s else Some s);
      r ← read_fdirent dp off s;
      '(_, s) ← (match r with
                 | Some de => fat_writei dp (from_buf (encode_fdirent (de <| fd_name := <[O := DELETED]> (fd_name de) |>))) off FDESZ s
                 | None => Some (0, s)
                 end);
      s ← fat_iput (Some ip) s;
      Some (0, s)
  end.

(** ** Paths *)

Definition SLASH : Z := 47.

Fixpoint skip_slash (path : list Z) : list Z :=
  match path with
  | c :: rest => if c =? SLASH then skip_slash rest else path
  | [] => []
  end.

(** At most [room] bytes up to a slash, and what is left. *)
Fixpoint component (room : nat) (path : list Z) : list Z * list Z :=
  match room, path with
  | S room, c :: rest => if c =? SLASH then ([], path) else let '(n, r) := component room rest in (c :: n, r)
  | _, _ => ([], path)
  end.

Fixpoint fat_walk (fuel : nat) (ip : Z) (path : list Z) (s : fat) : option (option Z * fat) :=
  match path, fuel with
  | [], _ => Some (Some ip, s)
  | _, O => None
  | _, S fuel =>
      let '(name, rest) := component 13 path in
      '(next, s) ← fat_dirlookup ip name s;
      s ← fat_iput (Some ip) s;
      match next with
      | None => Some (None, s)
      | Some (next, _) =>
          s ← fat_ilock next s;
          fat_walk fuel next (skip_slash rest) s
      end
  end.

(** Every turn takes a byte of the path. *)
Definition fat_namei (mnt : nat) (path : list Z) (s : fat) : option (option Z * fat) :=
  '(ip, s) ← fat_iget mnt 0 s;
  match ip with
  | None => Some (None, s)
  | Some p =>
      s ← fat_ilock p s;
      fat_walk (length path) p (skip_slash path) s
  end.
