(* ===== verification/FatSpec.v ===== *)
(** * FAT files as sequences of bytes

    The table as a function from clusters to entries, chains of clusters, and the
    bytes of a chain. Freeing a chain ends on every table, also a cyclic one;
    writing extends the chain, changes the bytes it was given and nothing else, and
    reading returns them. *)

From stdpp Require Import list_numbers gmap.
From S2P Require Import Prelude Mem Fat.

Lemma sector_addr_eq n : sector_addr n = FAT16_SECTOR_SIZE * n.
Proof. unfold sector_addr, BLOCK, FAT16_SECTOR_SIZE. pose proof (Z.div_mod n 2 ltac:(lia)). lia. Qed.

Lemma load_bytes_app a n k m : load_bytes a (n + k) m = load_bytes a n m ++ load_bytes (a + Z.of_nat n) k m.
Proof.
  unfold load_bytes. rewrite Nat2Z.inj_add, seqZ_app, fmap_app by lia. f_equal.
  rewrite (Z.add_comm 0), <-(fmap_add_seqZ (Z.of_nat n) 0), <-list_fmap_compose. apply list_fmap_ext. intros i x _. cbn. f_equal. lia.
Qed.

(** A part of a buffer that was read from a sector. *)
Lemma buf_read_load a n m off k : 0 ≤ off → 0 ≤ k → off + k ≤ Z.of_nat n →
  buf_read off k (load_bytes a n m) = load_bytes (a + off) (Z.to_nat k) m.
Proof.
  intros Ho Hk Hn. unfold buf_read.
  replace n with (Z.to_nat off + (Z.to_nat k + (n - Z.to_nat off - Z.to_nat k)))%nat by lia.
  rewrite load_bytes_app, drop_app_length' by (by rewrite length_load_bytes).
  rewrite load_bytes_app, take_app_length' by (by rewrite length_load_bytes). f_equal. lia.
Qed.

Lemma length_buf_write off bs buf : 0 ≤ off → (Z.to_nat off + length bs ≤ length buf)%nat → length (buf_write off bs buf) = length buf.
Proof. intros Ho Hl. unfold buf_write. rewrite !length_app, length_take, length_drop. lia. Qed.

(** Writing back a sector with a changed part stores that part. *)
Lemma store_buf_write a n m off bs x : 0 ≤ off → (Z.to_nat off + length bs ≤ n)%nat →
  store_bytes a (buf_write off bs (load_bytes a n m)) m x = store_bytes (a + off) bs m x.
Proof.
  intros Ho Hl. set (buf := load_bytes a n m). assert (length buf = n) as Hb by apply length_load_bytes.
  destruct (decide (a ≤ x < a + Z.of_nat n)) as [Hx|Hx].
  2: { rewrite !store_bytes_out; [done|lia|rewrite length_buf_write; lia]. }
  rewrite store_bytes_in by (rewrite length_buf_write; lia). apply list_lookup_total_correct. unfold buf_write.
  destruct (decide (x < a + off)) as [H1|H1].
  - rewrite store_bytes_out by lia. rewrite lookup_app_l by (rewrite length_take; lia).
    rewrite lookup_take_lt by lia. unfold buf. rewrite load_bytes_lookup by lia. do 2 f_equal. lia.
  - rewrite lookup_app_r by (rewrite length_take; lia). rewrite length_take, Hb, Nat.min_l by lia.
    destruct (decide (x < a + off + Z.of_nat (length bs))) as [H2|H2].
    + rewrite store_bytes_in by lia. rewrite lookup_app_l by lia.
      replace (Z.to_nat (x - a) - Z.to_nat off)%nat with (Z.to_nat (x - (a + off))) by lia. apply list_lookup_lookup_total_lt. lia.
    + rewrite store_bytes_out by lia. rewrite lookup_app_r by lia. rewrite lookup_drop. unfold buf. rewrite load_bytes_lookup by lia. do 2 f_equal. lia.
Qed.

Lemma word_at_load a n m off k : 0 ≤ off → 0 ≤ k → off + k ≤ Z.of_nat n →
  word_at off k (load_bytes a n m) = load_le k m (a + off).
Proof. intros. unfold word_at. rewrite buf_read_load by done. by rewrite load_le_bytes. Qed.

(** ** The table *)

(** The first copy of the table can be addressed. *)
Record table_ok (sb : fat_sb) : Prop := {
  to_cache : fat_cache sb = None;
  to_start : 0 ≤ fat_start sb;
  to_end : fat_start sb + 256 ≤ 2 ^ 32 }.

Section table.
Context (b : Z) (sb : fat_sb) (Hok : table_ok sb).
Implicit Types s : fat.

Definition entry_addr (c : Z) : Z := FAT16_SECTOR_SIZE * fat_start sb + 2 * c.

Definition entry s (c : Z) : Z := load_le 2 (disk s (sb_dev sb)) (entry_addr c).

(** [s'] is [s] with [bs] at byte [a] of the disk. *)
Record wrote s (a : Z) (bs : list Z) s' : Prop := {
  w_sbs : sbs s' = sbs s;
  w_icache : fat_icache s' = fat_icache s;
  w_vnodes : vnodes s' = vnodes s;
  w_mounts : mounts s' = mounts s;
  w_pages : pages s' = pages s;
  w_dev : ∀ d x, d ≠ sb_dev sb → disk s' d x = disk s d x;
  w_disk : ∀ x, disk s' (sb_dev sb) x = store_bytes a bs (disk s (sb_dev sb)) x }.

Lemma entry_sector c : 0 ≤ c < FAT16_CLUSTER_RESV →
  let o := u32 (c * 2) in let r := u32 (fat_start sb + o / FAT16_SECTOR_SIZE) in
  0 ≤ o `mod` FAT16_SECTOR_SIZE ∧ o `mod` FAT16_SECTOR_SIZE + 2 ≤ 512 ∧ sector_addr r + o `mod` FAT16_SECTOR_SIZE = entry_addr c.
Proof using Hok.
  destruct Hok as [_ H1 H2]. unfold FAT16_CLUSTER_RESV. intros Hc. cbn zeta. rewrite (u32_small (c * 2)) by lia. unfold FAT16_SECTOR_SIZE in *.
  pose proof (Z.div_mod (c * 2) 512 ltac:(lia)). pose proof (Z.mod_pos_bound (c * 2) 512 ltac:(lia)).
  rewrite u32_small by lia. rewrite sector_addr_eq. unfold entry_addr, FAT16_SECTOR_SIZE. split_and!; [lia| |lia].
  change 512 with (256 * 2). rewrite Z.mul_mod_distr_r by lia. pose proof (Z.mod_pos_bound c 256 ltac:(lia)). lia.
Qed.

Lemma get_entry_spec c s : sbs s !! b = Some sb → 0 ≤ c < FAT16_CLUSTER_RESV → fat_get_entry b c s = Some (entry s c).
Proof using Hok.
  intros Hb Hc. unfold fat_get_entry. rewrite Hb. cbn. rewrite (to_cache _ Hok). f_equal.
  destruct (entry_sector c Hc) as (H1 & H2 & H3). unfold fat_read_sector. rewrite word_at_load by (change (Z.of_nat (Z.to_nat FAT16_SECTOR_SIZE)) with 512; lia).
  by rewrite H3.
Qed.

Lemma set_entry_spec c v s : sbs s !! b = Some sb → 0 ≤ c < FAT16_CLUSTER_RESV →
  ∃ s', fat_set_entry b c v s = Some s' ∧ wrote s (entry_addr c) (Z_to_little_endian 2 8 v) s'.
Proof using Hok.
  intros Hb Hc. unfold fat_set_entry. rewrite Hb. cbn. rewrite (to_cache _ Hok). eexists. split; [reflexivity|].
  destruct (entry_sector c Hc) as (H1 & H2 & H3). split; try done.
  - intros d x Hd. cbn. by destruct (Z.eqb_spec d (sb_dev sb)).
  - intros x. cbn -[buf_write]. rewrite Z.eqb_refl, <-H3. apply store_buf_write; [done|].
    pose proof (length_le 2 ltac:(lia) v). change (Z.to_nat FAT16_SECTOR_SIZE) with 512%nat. lia.
Qed.

(** What an assignment to the entry of [c] does to the table. *)
Lemma wrote_entry s c v s' : 0 ≤ v < 2 ^ 16 → wrote s (entry_addr c) (Z_to_little_endian 2 8 v) s' →
  ∀ c', entry s' c' = if decide (c' = c) then v else entry s c'.
Proof using Type.
  intros Hv Hw c'. unfold entry. rewrite (load_le_ext 2 _ _ _ (λ x _, w_disk _ _ _ _ Hw x)). fold (store_le 2 (entry_addr c) v (disk s (sb_dev sb))).
  destruct (decide (c' = c)) as [->|Hne]; [apply load_le_store_eq; [lia|done]|].
  apply load_le_store_ne; [lia|]. unfold entry_addr. lia.
Qed.

Lemma wrote_entry_data s c v s' x : wrote s (entry_addr c) (Z_to_little_endian 2 8 v) s' →
  ¬ (entry_addr c ≤ x < entry_addr c + 2) → disk s' (sb_dev sb) x = disk s (sb_dev sb) x.
Proof using Type. intros Hw Hx. rewrite (w_disk _ _ _ _ Hw). apply store_bytes_out. by rewrite length_le. Qed.

(** ** Freeing *)

(** The clusters on the chain that begins at [c]. *)
Inductive reach s (c : Z) : Z → Prop :=
  | reach_here : live c = true → reach s c c
  | reach_next d : reach s c d → live (entry s d) = true → reach s c (entry s d).

Lemma reach_live s c d : reach s c d → live d = true.
Proof using Type. by inversion 1. Qed.

Lemma live_range c : live c = true → 2 ≤ c < FAT16_CLUSTER_RESV.
Proof using Type. unfold live, FAT16_CLUSTER_MIN. intros [?%Z.leb_le ?%Z.ltb_lt]%andb_prop. lia. Qed.

Lemma reach_dead s c d : live c = false → ¬ reach s c d.
Proof using Type. intros Hc. induction 1; congruence. Qed.

(** Taking the first cluster off: what is reached is that cluster and what is
    reached from the next one. *)
Lemma reach_free s s' c d : live c = true → (∀ c', entry s' c' = if decide (c' = c) then FAT16_CLUSTER_FREE else entry s c') →
  reach s c d ↔ d = c ∨ reach s' (entry s c) d.
Proof using Type.
  intros Hc He. assert (∀ d, reach s c d → live (entry s d) = true → reach s' (entry s c) d ∨ d = c → reach s' (entry s c) (entry s d)) as Hstep.
  { intros d' Hr Hl [H|H]; [|subst; by constructor]. destruct (decide (d' = c)) as [E|E]; [subst; by constructor|].
    pose proof (reach_next s' (entry s c) d' H) as N. rewrite He, decide_False in N by done. by apply N. }
  split.
  - induction 1 as [|d' Hr IH Hl]; [by left|right]. apply Hstep; [done|done|tauto].
  - intros [H|H]; [subst; by constructor|]. induction H as [H|d' Hr IH Hl].
    + apply reach_next; [by constructor|done].
    + rewrite He in Hl |- *. destruct (decide (d' = c)); [done|]. by apply reach_next.
Qed.

(** The clusters that are not free. *)
Definition used s : nat := length (filter (λ c, entry s c ≠ 0) (seqZ 2 (FAT16_CLUSTER_RESV - 2))).

Lemma used_free s s' c : 2 ≤ c < FAT16_CLUSTER_RESV → entry s c ≠ 0 →
  (∀ c', entry s' c' = if decide (c' = c) then FAT16_CLUSTER_FREE else entry s c') → (used s' < used s)%nat.
Proof using Type.
  intros Hc Hn He. unfold used. assert (c ∈ seqZ 2 (FAT16_CLUSTER_RESV - 2)) as (l1 & l2 & ->)%list_elem_of_split by (apply elem_of_seqZ; lia).
  assert (∀ l, (length (filter (λ c, entry s' c ≠ 0%Z) l) ≤ length (filter (λ c, entry s c ≠ 0%Z) l))%nat) as Hle.
  { induction l as [|x l IH]; [done|]. rewrite !filter_cons, He. unfold FAT16_CLUSTER_FREE. repeat case_decide; cbn; try done; lia. }
  rewrite !filter_app, !filter_cons, !length_app, He, !(decide_True (P := c = c)) by done.
  rewrite decide_False by (unfold FAT16_CLUSTER_FREE; tauto). rewrite decide_True by done. cbn [length].
  pose proof (Hle l1). pose proof (Hle l2). lia.
Qed.

Record freed s c s' : Prop := {
  f_rest : sbs s' = sbs s ∧ fat_icache s' = fat_icache s ∧ vnodes s' = vnodes s ∧ mounts s' = mounts s ∧ pages s' = pages s;
  f_devs : ∀ d x, d ≠ sb_dev sb → disk s' d x = disk s d x;
  f_in : ∀ d, reach s c d → entry s' d = FAT16_CLUSTER_FREE;
  f_out : ∀ d, ¬ reach s c d → entry s' d = entry s d;
  f_free : ∀ d, entry s d = FAT16_CLUSTER_FREE → entry s' d = FAT16_CLUSTER_FREE;
  f_data : ∀ x, (∀ d, reach s c d → ¬ (entry_addr d ≤ x < entry_addr d + 2)) → disk s' (sb_dev sb) x = disk s (sb_dev sb) x }.

Lemma free_loop_spec fuel c s : sbs s !! b = Some sb → (used s + 1 < fuel)%nat →
  ∃ s', free_loop fuel b c s = Some s' ∧ freed s c s'.
Proof using Hok.
  revert c s. induction fuel as [|fuel IH]; intros c s Hb Hf; [lia|]. cbn [free_loop].
  destruct (live c) eqn:Hl; [|exists s; split; [done|]; split; try done; intros d Hr; by apply reach_dead in Hr].
  pose proof (live_range c Hl) as Hc. rewrite (get_entry_spec c s Hb ltac:(lia)). cbn.
  destruct (set_entry_spec c FAT16_CLUSTER_FREE s Hb ltac:(lia)) as (s1 & E1 & W). rewrite E1. cbn.
  pose proof (wrote_entry s c FAT16_CLUSTER_FREE s1 ltac:(unfold FAT16_CLUSTER_FREE; lia) W) as He.
  assert (∃ s', free_loop fuel b (entry s c) s1 = Some s' ∧ freed s1 (entry s c) s') as (s2 & E2 & [F1 F2 F3 F4 F6 F5]).
  { destruct (decide (entry s c = 0)) as [E|E].
    - rewrite E. destruct fuel; [lia|]. exists s1. split; [done|]. split; try done. intros d Hr. by apply reach_dead in Hr.
    - apply IH; [by rewrite (w_sbs _ _ _ _ W)|]. pose proof (used_free s s1 c ltac:(lia) E He). lia. }
  exists s2. split; [done|]. pose proof W as [W1 W2 W3 W4 W5 W6 W7]. destruct F1 as (X1 & X2 & X3 & X4 & X5). split.
  - split_and!; congruence.
  - intros d x Hd. by rewrite F2, W6.
  - intros d [->|Hr]%(reach_free s s1 c d Hl He).
    + apply F6. by rewrite He, decide_True.
    + by apply F3.
  - intros d Hn. assert (d ≠ c ∧ ¬ reach s1 (entry s c) d) as [Hd Hr]. { split; intros H; apply Hn, (reach_free s s1 c d Hl He); tauto. }
    by rewrite F4, He, decide_False.
  - intros d Hd. apply F6. rewrite He. by case_decide.
  - intros x Hx. rewrite F5; [apply (wrote_entry_data s c FAT16_CLUSTER_FREE s1 x W)|intros d Hd]; apply Hx, (reach_free s s1 c _ Hl He); tauto.
Qed.

End table.

(** ** The layout of a disk *)

(** The first copy of the table, the root directory and the clusters follow each
    other, and sector numbers fit 32 bits. *)
Record geometry (sb : fat_sb) : Prop := {
  g_table : table_ok sb;
  g_spc : 0 < sectors_per_cluster sb;
  g_bpc : bytes_per_cluster sb = FAT16_SECTOR_SIZE * sectors_per_cluster sb;
  g_clusters : 0 ≤ total_clusters sb ∧ total_clusters sb + 2 ≤ FAT16_CLUSTER_RESV;
  g_fat : entry_addr sb (total_clusters sb + 2) ≤ FAT16_SECTOR_SIZE * root_start sb;
  g_entries : 0 ≤ root_entries sb < 2 ^ 16;
  g_root : FAT16_SECTOR_SIZE * root_start sb + 32 * root_entries sb ≤ FAT16_SECTOR_SIZE * data_start sb;
  g_data : data_start sb + total_clusters sb * sectors_per_cluster sb ≤ 2 ^ 32 }.

Section files.
Context (b : Z) (sb : fat_sb) (Hg : geometry sb).
Implicit Types s : fat.

Notation entry := (entry sb).
Notation wrote := (wrote sb).
Notation dev := (sb_dev sb).
Notation bpc := (bytes_per_cluster sb).
Notation spc := (sectors_per_cluster sb).

Definition in_range (c : Z) : Prop := 2 ≤ c < total_clusters sb + 2.

(** Byte [o] of cluster [c]. *)
Definition daddr (c o : Z) : Z := FAT16_SECTOR_SIZE * (data_start sb + (c - 2) * spc) + o.

(** The clusters of a file in order. *)
Record file_chain s (cs : list Z) : Prop := {
  fc_range : Forall in_range cs;
  fc_nodup : NoDup cs;
  fc_links : ∀ i c, cs !! i = Some c → entry s c = default FAT16_CLUSTER_EOF (cs !! S i) }.

(** Byte [o] of the file. *)
Definition cbyte s (cs : list Z) (o : Z) : Z := disk s dev (daddr (cs !!! Z.to_nat (o / bpc)) (o `mod` bpc)).

Definition cbytes s (cs : list Z) (o n : Z) : list Z := (λ i, cbyte s cs (o + i)) <$> seqZ 0 n.

Definition full s : Prop := ∀ c, in_range c → entry s c ≠ FAT16_CLUSTER_FREE.

Lemma bpc_pos : 0 < bpc ∧ FAT16_SECTOR_SIZE ≤ bpc.
Proof using Hg. rewrite (g_bpc _ Hg). pose proof (g_spc _ Hg). unfold FAT16_SECTOR_SIZE. lia. Qed.

Lemma range_live c : in_range c → live c = true ∧ 0 ≤ c < FAT16_CLUSTER_RESV ∧ c < FAT16_CLUSTER_EOF.
Proof using Hg.
  unfold in_range, live, FAT16_CLUSTER_MIN, FAT16_CLUSTER_EOF. intros H. pose proof (g_clusters _ Hg). unfold FAT16_CLUSTER_RESV in *.
  rewrite (proj2 (Z.leb_le _ _)), (proj2 (Z.ltb_lt _ _)) by lia. split_and!; try done; lia.
Qed.

Lemma cluster_sector c : in_range c → fat_cluster_to_sector sb c = data_start sb + (c - 2) * spc ∧
  ∀ i, 0 ≤ i < spc → u32 (fat_cluster_to_sector sb c + i) = data_start sb + (c - 2) * spc + i.
Proof using Hg.
  intros H. unfold in_range in H. pose proof (g_data _ Hg). pose proof (g_spc _ Hg). pose proof (g_root _ Hg). pose proof (g_fat _ Hg). pose proof (g_entries _ Hg).
  destruct (g_table _ Hg) as [_ Hs _]. unfold entry_addr in *. unfold FAT16_SECTOR_SIZE in *. unfold fat_cluster_to_sector.
  assert ((c - 2) * spc + spc ≤ total_clusters sb * spc) by nia. assert (0 ≤ (c - 2) * spc) by nia.
  rewrite (u32_small (data_start sb + (c - 2) * spc)) by lia. split; [done|]. intros i Hi. apply u32_small. lia.
Qed.

(** Different clusters are different bytes, and none is in the table or the root directory. *)
Lemma daddr_inj c c' o o' : in_range c → in_range c' → 0 ≤ o < bpc → 0 ≤ o' < bpc → daddr c o = daddr c' o' → c = c' ∧ o = o'.
Proof using Hg.
  intros _ _ Ho Ho' E. rewrite (g_bpc _ Hg) in *. pose proof (g_spc _ Hg). unfold daddr, FAT16_SECTOR_SIZE in *.
  assert (c = c') by nia. subst. lia.
Qed.

Lemma daddr_data c o : in_range c → 0 ≤ o → FAT16_SECTOR_SIZE * data_start sb ≤ daddr c o.
Proof using Hg. intros Hc Ho. pose proof (g_spc _ Hg). unfold in_range, daddr, FAT16_SECTOR_SIZE in *. nia. Qed.

Lemma entry_low c : in_range c → entry_addr sb 0 ≤ entry_addr sb c ∧ entry_addr sb c + 2 ≤ entry_addr sb (total_clusters sb + 2) ∧
  entry_addr sb (total_clusters sb + 2) ≤ FAT16_SECTOR_SIZE * data_start sb.
Proof using Hg.
  intros Hc. pose proof (g_fat _ Hg). pose proof (g_root _ Hg). pose proof (g_entries _ Hg). unfold in_range, entry_addr in *. lia.
Qed.

(** ** Reading *)

Lemma cbytes_app s cs o n k : 0 ≤ n → 0 ≤ k → cbytes s cs o (n + k) = cbytes s cs o n ++ cbytes s cs (o + n) k.
Proof using Type.
  intros Hn Hk. unfold cbytes. rewrite seqZ_app, fmap_app by lia. f_equal.
  rewrite (Z.add_comm 0), <-(fmap_add_seqZ n 0), <-list_fmap_compose. apply list_fmap_ext. intros i x _. cbn. f_equal. lia.
Qed.

(** The place of a byte of a file. *)
Lemma cbyte_at s cs k c o co : cs !! k = Some c → 0 ≤ co < bpc → o = Z.of_nat k * bpc + co → cbyte s cs o = disk s dev (daddr c co).
Proof using Hg.
  intros Hk Hco ->. unfold cbyte. pose proof bpc_pos. rewrite Z.div_add_l, Z.div_small, Z.add_0_r, Nat2Z.id by lia.
  rewrite (list_lookup_total_correct _ _ _ Hk). do 2 f_equal. rewrite Z.add_comm, Z.mod_add by lia. by apply Z.mod_small.
Qed.

Lemma cbytes_cluster s cs k c co n : cs !! k = Some c → 0 ≤ co → 0 ≤ n → co + n ≤ bpc →
  cbytes s cs (Z.of_nat k * bpc + co) n = load_bytes (daddr c co) (Z.to_nat n) (disk s dev).
Proof using Hg.
  intros Hk Hco Hn Hle. unfold cbytes, load_bytes. rewrite Z2Nat.id by done. apply list_fmap_ext. intros i x [-> Hi]%lookup_seqZ.
  rewrite (cbyte_at s cs k c _ (co + (0 + Z.of_nat i)) Hk) by lia. f_equal. unfold daddr. lia.
Qed.

Lemma sector_step sic so : 0 ≤ sic < spc → 0 ≤ so < FAT16_SECTOR_SIZE → ∀ k, 0 ≤ k → k ≤ FAT16_SECTOR_SIZE - so → sic * FAT16_SECTOR_SIZE + so + k ≤ bpc.
Proof using Hg. intros. rewrite (g_bpc _ Hg). unfold FAT16_SECTOR_SIZE in *. nia. Qed.

(** The bytes that one turn moves. *)
Lemma turn_min n total so : (if n - total <? FAT16_SECTOR_SIZE - so then n - total else FAT16_SECTOR_SIZE - so) = Z.min (n - total) (FAT16_SECTOR_SIZE - so).
Proof using Type. destruct (Z.ltb_spec (n - total) (FAT16_SECTOR_SIZE - so)); lia. Qed.

Lemma sector_at c sic so : in_range c → 0 ≤ sic < spc → sector_addr (u32 (fat_cluster_to_sector sb c + sic)) + so = daddr c (sic * FAT16_SECTOR_SIZE + so).
Proof using Hg. intros Hc Hs. rewrite (proj2 (cluster_sector c Hc) sic Hs), sector_addr_eq. unfold daddr, FAT16_SECTOR_SIZE. lia. Qed.

Lemma read_sectors_spec fuel c sic so total n acc s : in_range c → 0 ≤ sic ≤ spc → 0 ≤ so < FAT16_SECTOR_SIZE → (sic = spc → so = 0) → total ≤ n →
  (Z.to_nat (spc - sic) < fuel)%nat → let co := sic * FAT16_SECTOR_SIZE + so in let k := Z.min (n - total) (bpc - co) in
  read_sectors fuel sb any_dst (fat_cluster_to_sector sb c) sic so total n acc s = Some (inl (total + k), acc ++ load_bytes (daddr c co) (Z.to_nat k) (disk s dev)).
Proof using Hg.
  revert sic so total acc. induction fuel as [|fuel IH]; intros sic so total acc Hc Hs Hso Hend Ht Hf; [lia|]. cbn zeta. cbn [read_sectors any_dst].
  pose proof (g_bpc _ Hg) as Hb. rewrite turn_min. destruct (Z.ltb_spec sic spc) as [H1|H1]; cbn [andb].
  2: { assert (sic = spc) by lia. rewrite Hend by done. rewrite Hb. rewrite Z.min_r by (unfold FAT16_SECTOR_SIZE; lia).
       replace (_ - _) with 0 by (unfold FAT16_SECTOR_SIZE; lia). cbn. by rewrite app_nil_r, Z.add_0_r. }
  destruct (Z.ltb_spec total n) as [H2|H2].
  2: { replace (n - total) with 0 by lia. pose proof (sector_step sic so ltac:(lia) Hso 0 ltac:(lia) ltac:(lia)). rewrite Z.min_l by lia. cbn. by rewrite app_nil_r, Z.add_0_r. }
  set (m := Z.min (n - total) (FAT16_SECTOR_SIZE - so)). pose proof (sector_step sic so ltac:(lia) Hso m ltac:(lia) ltac:(lia)).
  rewrite IH; [|done|lia|unfold FAT16_SECTOR_SIZE; lia|done|lia|lia]. unfold fat_read_sector.
  rewrite buf_read_load by (unfold FAT16_SECTOR_SIZE in *; lia). rewrite (sector_at c sic so Hc) by lia.
  rewrite <-app_assoc. destruct (decide (n - total ≤ FAT16_SECTOR_SIZE - so)) as [Hm|Hm].
  - assert (m = n - total) as -> by lia. rewrite !Z.min_l by (rewrite ?Hb; unfold FAT16_SECTOR_SIZE in *; lia).
    replace (n - (total + (n - total))) with 0 by lia. cbn [Z.to_nat load_bytes]. cbn. rewrite app_nil_r. by rewrite Z.add_0_r.
  - assert (m = FAT16_SECTOR_SIZE - so) as Em by lia. set (k := Z.min (n - total) (bpc - (sic * FAT16_SECTOR_SIZE + so))).
    replace (Z.min (n - (total + m)) (bpc - ((sic + 1) * FAT16_SECTOR_SIZE + 0))) with (k - m) by (rewrite Em; unfold FAT16_SECTOR_SIZE in *; lia).
    f_equal. f_equal; [f_equal; lia|]. replace (Z.to_nat k) with (Z.to_nat m + Z.to_nat (k - m))%nat by lia. rewrite load_bytes_app. do 3 f_equal.
    unfold daddr. rewrite Em. unfold FAT16_SECTOR_SIZE in *. lia.
Qed.

Lemma split_off co : 0 ≤ co < bpc → let sic := co / FAT16_SECTOR_SIZE in let so := co `mod` FAT16_SECTOR_SIZE in
  0 ≤ sic < spc ∧ 0 ≤ so < FAT16_SECTOR_SIZE ∧ sic * FAT16_SECTOR_SIZE + so = co.
Proof using Hg.
  rewrite (g_bpc _ Hg). unfold FAT16_SECTOR_SIZE. intros H. cbn zeta. pose proof (Z.div_mod co 512 ltac:(lia)). pose proof (Z.mod_pos_bound co 512 ltac:(lia)). lia.
Qed.

Lemma chain_next s cs k c : sbs s !! b = Some sb → file_chain s cs → cs !! k = Some c →
  fat_get_entry b c s = Some (default FAT16_CLUSTER_EOF (cs !! S k)).
Proof using Hg.
  intros Hb [Hr _ Hl] Hk. pose proof (proj1 (Forall_lookup _ _) Hr _ _ Hk) as Hc.
  rewrite (get_entry_spec b sb (g_table _ Hg)); [by rewrite (Hl _ _ Hk)|done|]. apply range_live in Hc. tauto.
Qed.

Lemma chain_range s cs k c : file_chain s cs → cs !! k = Some c → in_range c.
Proof using Type. intros [Hr _ _] Hk. by apply (proj1 (Forall_lookup _ _) Hr _ _ Hk). Qed.

(** The clusters from number [k], from byte [co] of it on. *)
Lemma read_clusters_spec fuel cs k c co total n acc s : sbs s !! b = Some sb → file_chain s cs → cs !! k = Some c → 0 ≤ co < bpc →
  total ≤ n → Z.of_nat k * bpc + co + (n - total) ≤ Z.of_nat (length cs) * bpc → n - total + Z.min co FAT16_SECTOR_SIZE ≤ FAT16_SECTOR_SIZE * (Z.of_nat fuel - 1) →
  read_clusters fuel b any_dst c co total n acc s = Some (i32 n, acc ++ cbytes s cs (Z.of_nat k * bpc + co) (n - total)).
Proof using Hg.
  intros Hb Hcs. pose proof bpc_pos as [Hp Hp']. revert k c co total acc. induction fuel as [|fuel IH]; intros k c co total acc Hk Hco Ht Hcap Hf; [unfold FAT16_SECTOR_SIZE in *; lia|].
  cbn [read_clusters]. pose proof (chain_range _ _ _ _ Hcs Hk) as Hc. rewrite (proj1 (range_live c Hc)).
  destruct (Z.ltb_spec total n) as [H1|H1]; cbn [andb]; [|replace total with n by lia; rewrite Z.sub_diag; cbn; by rewrite app_nil_r].
  rewrite Hb. cbn [mbind option_bind]. destruct (split_off co Hco) as (S1 & S2 & S3).
  rewrite read_sectors_spec by (try done; unfold sturns; lia). cbn zeta. rewrite S3. cbn [mbind option_bind].
  set (m := Z.min (n - total) (bpc - co)). rewrite (chain_next s cs k c Hb Hcs Hk). cbn [mbind option_bind].
  rewrite <-(cbytes_cluster s cs k c co m Hk) by lia. replace (n - total) with (m + (n - (total + m))) by lia. rewrite cbytes_app, app_assoc by lia.
  destruct (decide (n = total + m)) as [E|E].
  - replace (n - (total + m)) with 0 by lia. cbn [cbytes]. rewrite E. destruct fuel; [unfold FAT16_SECTOR_SIZE in *; lia|]. cbn [read_clusters]. rewrite Z.ltb_irrefl. cbn. by rewrite app_nil_r.
  - assert (m = bpc - co) as Em by lia. destruct (cs !! S k) as [c'|] eqn:Hk'; [|apply lookup_ge_None in Hk'; nia]. cbn [default].
    rewrite (IH (S k) c' 0) by (try done; rewrite ?Nat2Z.inj_succ; unfold FAT16_SECTOR_SIZE in *; nia). do 4 f_equal. rewrite Nat2Z.inj_succ. lia.
Qed.

Lemma skip_loop_spec j cs k c s : sbs s !! b = Some sb → file_chain s cs → cs !! k = Some c → (k + j < length cs)%nat →
  ∃ c', skip_loop j b c s = Some c' ∧ cs !! (k + j)%nat = Some c'.
Proof using Hg.
  intros Hb Hcs. revert k c. induction j as [|j IH]; intros k c Hk Hj; [exists c; by rewrite Nat.add_0_r|]. cbn [skip_loop].
  rewrite (proj1 (range_live c (chain_range _ _ _ _ Hcs Hk))), (chain_next s cs k c Hb Hcs Hk). cbn [mbind option_bind].
  destruct (lookup_lt_is_Some_2 cs (S k)) as [c' Hc']; [lia|]. rewrite Hc'. cbn [default].
  destruct (IH (S k) c' Hc' ltac:(lia)) as (c2 & E & H). exists c2. split; [done|]. by rewrite <-Nat.add_succ_comm.
Qed.

(** An inode of the file with the clusters [cs]. *)
Record opened s (p : Z) (v : vfs_inode) (fip : fat_inode) (cs : list Z) : Prop := {
  op_vnode : vnodes s !! p = Some v;
  op_fip : fat_icache s !! v_data v = Some fip;
  op_b : fi_sb fip = b;
  op_sb : sbs s !! b = Some sb;
  op_first : cs !! O = Some (fi_cluster fip);
  op_chain : file_chain s cs }.

Lemma opened_cluster s p v fip cs : opened s p v fip cs → (fi_cluster fip =? 0) = false ∧ (bpc =? 0) = false.
Proof using Hg.
  intros [_ _ _ _ Hf Hc]. pose proof (chain_range _ _ _ _ Hc Hf) as H. unfold in_range in H. pose proof bpc_pos. split; apply Z.eqb_neq; lia.
Qed.

Lemma fturns_enough n : 0 ≤ n → n + FAT16_SECTOR_SIZE ≤ FAT16_SECTOR_SIZE * (Z.of_nat (fturns n) - 1).
Proof using Type. intros Hn. unfold fturns, FAT16_SECTOR_SIZE. pose proof (Z.div_mod n 512 ltac:(lia)). pose proof (Z.mod_pos_bound n 512 ltac:(lia)). pose proof (Z.div_pos n 512 Hn ltac:(lia)). lia. Qed.

(** Reading within the file and its clusters. *)
Lemma fat_readi_spec s p v fip cs off n : opened s p v fip cs → 0 ≤ off → 0 < n → off + n ≤ fi_size fip → off + n < 2 ^ 31 → off + n ≤ Z.of_nat (length cs) * bpc →
  fat_readi p any_dst off n s = Some (n, cbytes s cs off n).
Proof using Hg.
  intros Hop Hoff Hn Hsz Hw Hcap. destruct (opened_cluster _ _ _ _ _ Hop) as [E1 E2]. destruct Hop as [Hv Hf Hb Hs H0 Hcs]. pose proof bpc_pos as [Hp Hp'].
  unfold fat_readi. rewrite Hv. cbn [mbind option_bind]. rewrite Hf. cbn [mbind option_bind]. rewrite Hb, Hs. cbn [mbind option_bind].
  rewrite u32_small by lia. rewrite (proj2 (Z.ltb_ge _ _)) by lia. rewrite (proj2 (Z.ltb_ge (fi_size fip) (off + n))) by lia.
  rewrite (proj2 (Z.eqb_neq n 0)) by lia. rewrite E1, E2. pose proof (Z.div_mod off bpc ltac:(lia)) as Hd. pose proof (Z.mod_pos_bound off bpc ltac:(lia)) as Hm. pose proof (Z.div_pos off bpc ltac:(lia) ltac:(lia)).
  destruct (skip_loop_spec (Z.to_nat (off / bpc)) cs 0 _ s Hs Hcs H0) as (c & E & Hc); [apply Nat2Z.inj_lt; rewrite Nat2Z.inj_add, Z2Nat.id by lia; nia|].
  rewrite E. cbn [mbind option_bind]. rewrite (read_clusters_spec _ cs _ c _ 0 n [] s Hs Hcs Hc Hm).
  - rewrite i32_small by (unfold is_i32; lia). rewrite Z.sub_0_r. cbn [app]. do 3 f_equal. rewrite Nat.add_0_l, Z2Nat.id by lia. lia.
  - lia.
  - rewrite Nat.add_0_l, Z2Nat.id by lia. lia.
  - pose proof (fturns_enough n ltac:(lia)). lia.
Qed.

(** ** Allocating *)

Lemma alloc_loop_spec turns i s : sbs s !! b = Some sb → 2 ≤ i → i + Z.of_nat turns = total_clusters sb + 2 →
  (alloc_loop turns b i s = Some (0, s) ∧ ∀ c, i ≤ c < total_clusters sb + 2 → entry s c ≠ FAT16_CLUSTER_FREE) ∨
  (∃ c s', alloc_loop turns b i s = Some (c, s') ∧ i ≤ c < total_clusters sb + 2 ∧ entry s c = FAT16_CLUSTER_FREE ∧
     wrote s (entry_addr sb c) (Z_to_little_endian 2 8 FAT16_CLUSTER_EOF) s').
Proof using Hg.
  intros Hb. revert i. induction turns as [|turns IH]; intros i Hi He; [left; split; [done|]; intros c Hc; lia|]. cbn [alloc_loop].
  assert (in_range i) as Hr by (unfold in_range; lia). destruct (range_live i Hr) as (_ & Hi' & _).
  rewrite (get_entry_spec b sb (g_table _ Hg) i s Hb Hi'). cbn [mbind option_bind].
  destruct (Z.eqb_spec (entry s i) FAT16_CLUSTER_FREE) as [E|E].
  - right. destruct (set_entry_spec b sb (g_table _ Hg) i FAT16_CLUSTER_EOF s Hb Hi') as (s' & E' & W). rewrite E'. exists i, s'. split_and!; try done; lia.
  - destruct (IH (i + 1) ltac:(lia) ltac:(lia)) as [[H1 H2]|(c & s' & H1 & H2 & H3)].
    + left. split; [done|]. intros c Hc. destruct (decide (c = i)) as [->|]; [done|]. apply H2. lia.
    + right. exists c, s'. split_and!; try done; try lia; apply H3.
Qed.

Lemma alloc_spec s : sbs s !! b = Some sb →
  (fat_alloc_cluster b s = Some (0, s) ∧ full s) ∨
  (∃ c s', fat_alloc_cluster b s = Some (c, s') ∧ in_range c ∧ entry s c = FAT16_CLUSTER_FREE ∧
     wrote s (entry_addr sb c) (Z_to_little_endian 2 8 FAT16_CLUSTER_EOF) s').
Proof using Hg.
  intros Hb. unfold fat_alloc_cluster. rewrite Hb. cbn [mbind option_bind]. pose proof (g_clusters _ Hg) as Hc. unfold FAT16_CLUSTER_RESV in Hc.
  rewrite u32_small by lia. apply alloc_loop_spec; [done|unfold FAT16_CLUSTER_MIN; lia..].
Qed.

(** ** Writing *)

Lemma store_bytes_app a bs bs' m x : store_bytes (a + Z.of_nat (length bs)) bs' (store_bytes a bs m) x = store_bytes a (bs ++ bs') m x.
Proof using Type.
  destruct (decide (a ≤ x < a + Z.of_nat (length (bs ++ bs')))) as [H|H]; rewrite length_app, Nat2Z.inj_add in H.
  2: { rewrite !store_bytes_out; rewrite ?length_app; try done; lia. }
  rewrite (store_bytes_in a (bs ++ bs')) by (rewrite length_app; lia). destruct (decide (x < a + Z.of_nat (length bs))).
  - rewrite store_bytes_out, store_bytes_in by lia. rewrite lookup_total_app_l by lia. done.
  - rewrite store_bytes_in by lia. rewrite lookup_total_app_r by lia. f_equal. lia.
Qed.

Lemma store_bytes_ext a bs m m' x : (∀ y, m y = m' y) → store_bytes a bs m x = store_bytes a bs m' x.
Proof using Type. intros H. unfold store_bytes. by rewrite H. Qed.

Lemma wrote_nil s a : wrote s a [] s.
Proof using Type. split; try done. intros x. rewrite store_bytes_out by (cbn; lia). done. Qed.

Lemma wrote_empty s a a' s' : wrote s a [] s' → wrote s a' [] s'.
Proof using Type. intros [? ? ? ? ? ? H]. split; try done. intros x. rewrite H, !store_bytes_out by (cbn; lia). done. Qed.

Lemma wrote_app s a bs s1 bs' s2 : wrote s a bs s1 → wrote s1 (a + Z.of_nat (length bs)) bs' s2 → wrote s a (bs ++ bs') s2.
Proof using Type.
  intros [A1 A2 A3 A4 A5 A6 A7] [B1 B2 B3 B4 B5 B6 B7]. split; try congruence.
  - intros d x Hd. by rewrite B6, A6.
  - intros x. rewrite B7, <-store_bytes_app. by apply store_bytes_ext.
Qed.

Lemma write_sector_spec c sic so bs s : in_range c → 0 ≤ sic < spc → 0 ≤ so → so + Z.of_nat (length bs) ≤ FAT16_SECTOR_SIZE →
  let r := u32 (fat_cluster_to_sector sb c + sic) in
  wrote s (daddr c (sic * FAT16_SECTOR_SIZE + so)) bs (fat_write_sector dev r (buf_write so bs (fat_read_sector dev r s)) s).
Proof using Hg.
  intros Hc Hs Hso Hl. cbn zeta. split; try done.
  - intros d x Hd. cbn. by destruct (Z.eqb_spec d dev).
  - intros x. cbn -[buf_write sector_addr]. rewrite Z.eqb_refl. rewrite <-(sector_at c sic so Hc Hs). apply store_buf_write; [done|]. unfold FAT16_SECTOR_SIZE in *. lia.
Qed.

Lemma length_buf_read o n buf : 0 ≤ o → 0 ≤ n → o + n ≤ Z.of_nat (length buf) → Z.of_nat (length (buf_read o n buf)) = n.
Proof using Type. intros. unfold buf_read. rewrite length_take, length_drop. lia. Qed.

Lemma buf_read_app o n k buf : 0 ≤ o → 0 ≤ n → 0 ≤ k → o + n + k ≤ Z.of_nat (length buf) → buf_read o (n + k) buf = buf_read o n buf ++ buf_read (o + n) k buf.
Proof using Type.
  intros. unfold buf_read. rewrite !Z2Nat.inj_add by lia. rewrite <-drop_drop. by rewrite take_take_drop.
Qed.

Section write.
Context (buf : list Z).

Lemma write_sectors_spec fuel c sic so total n s : in_range c → 0 ≤ sic ≤ spc → 0 ≤ so < FAT16_SECTOR_SIZE → (sic = spc → so = 0) → 0 ≤ total ≤ n → n ≤ Z.of_nat (length buf) →
  (Z.to_nat (spc - sic) < fuel)%nat → let co := sic * FAT16_SECTOR_SIZE + so in let k := Z.min (n - total) (bpc - co) in
  ∃ s', write_sectors fuel sb (from_buf buf) (fat_cluster_to_sector sb c) sic so total n s = Some (inl (total + k), s') ∧
    wrote s (daddr c co) (buf_read total k buf) s'.
Proof using Hg.
  revert sic so total s. induction fuel as [|fuel IH]; intros sic so total s Hc Hs Hso Hend Ht Hlen Hf; [lia|]. cbn zeta. cbn [write_sectors from_buf].
  pose proof (g_bpc _ Hg) as Hb. rewrite turn_min. destruct (Z.ltb_spec sic spc) as [H1|H1]; cbn [andb].
  2: { assert (sic = spc) by lia. rewrite Hend by done. rewrite Hb. rewrite Z.min_r by (unfold FAT16_SECTOR_SIZE; lia).
       replace (_ - _) with 0 by (unfold FAT16_SECTOR_SIZE; lia). exists s. rewrite Z.add_0_r. split; [done|apply wrote_nil]. }
  destruct (Z.ltb_spec total n) as [H2|H2].
  2: { replace (n - total) with 0 by lia. pose proof (sector_step sic so ltac:(lia) Hso 0 ltac:(lia) ltac:(lia)). rewrite Z.min_l by lia. exists s. rewrite Z.add_0_r. split; [done|apply wrote_nil]. }
  set (m := Z.min (n - total) (FAT16_SECTOR_SIZE - so)). pose proof (sector_step sic so ltac:(lia) Hso m ltac:(lia) ltac:(lia)).
  pose proof (length_buf_read total m buf ltac:(lia) ltac:(lia) ltac:(lia)) as Hl.
  pose proof (write_sector_spec c sic so (buf_read total m buf) s Hc ltac:(lia) ltac:(lia) ltac:(lia)) as W. cbn zeta in W.
  set (s1 := fat_write_sector _ _ _ _) in *. set (k := Z.min (n - total) (bpc - (sic * FAT16_SECTOR_SIZE + so))).
  destruct (IH (sic + 1) 0 (total + m) s1 Hc ltac:(lia) ltac:(unfold FAT16_SECTOR_SIZE; lia) ltac:(done) ltac:(lia) Hlen ltac:(lia)) as (s2 & E & W2).
  destruct (decide (n - total ≤ FAT16_SECTOR_SIZE - so)) as [Hm|Hm].
  - assert (k = m) as -> by lia. exists s2. rewrite E.
    assert (Z.min (n - (total + m)) (bpc - ((sic + 1) * FAT16_SECTOR_SIZE + 0)) = 0) as E0.
    { assert (m = n - total) as -> by lia. rewrite Hb, Z.min_l; unfold FAT16_SECTOR_SIZE in *; lia. } rewrite E0 in *.
    split; [f_equal; f_equal; f_equal; lia|]. rewrite <-(app_nil_r (buf_read _ _ _)). eapply wrote_app; [exact W|].
    by eapply wrote_empty.
  - assert (m = FAT16_SECTOR_SIZE - so) as Em by lia.
    assert (Z.min (n - (total + m)) (bpc - ((sic + 1) * FAT16_SECTOR_SIZE + 0)) = k - m) as Ek by (rewrite Em; unfold FAT16_SECTOR_SIZE in *; lia).
    rewrite Ek in *. exists s2. rewrite E. split; [f_equal; f_equal; f_equal; lia|]. replace k with (m + (k - m)) by lia.
    rewrite buf_read_app by lia. eapply wrote_app; [exact W|]. rewrite Hl.
    replace (daddr c (sic * FAT16_SECTOR_SIZE + so) + m) with (daddr c ((sic + 1) * FAT16_SECTOR_SIZE + 0)); [done|]. unfold daddr. rewrite Em. unfold FAT16_SECTOR_SIZE in *. lia.
Qed.

(** [s'] is [s] with the file [cs] extended to [cs'] and its bytes from [off] to
    [hi] taken from the buffer; nothing else of the disk differs. *)
Record written (off : Z) s (cs : list Z) (hi : Z) s' (cs' : list Z) : Prop := {
  wr_rest : sbs s' = sbs s ∧ fat_icache s' = fat_icache s ∧ vnodes s' = vnodes s ∧ mounts s' = mounts s ∧ pages s' = pages s;
  wr_devs : ∀ d x, d ≠ dev → disk s' d x = disk s d x;
  wr_prefix : cs `prefix_of` cs';
  wr_chain : file_chain s' cs';
  wr_new : ∀ c, c ∈ cs' → c ∈ cs ∨ entry s c = FAT16_CLUSTER_FREE;
  wr_other : ∀ c, in_range c → c ∉ cs' → entry s' c = entry s c ∧ ∀ o, 0 ≤ o < bpc → disk s' dev (daddr c o) = disk s dev (daddr c o);
  wr_low : ∀ x, x < FAT16_SECTOR_SIZE * data_start sb → ¬ (entry_addr sb 0 ≤ x < entry_addr sb (total_clusters sb + 2)) → disk s' dev x = disk s dev x;
  wr_bytes : ∀ o, 0 ≤ o < Z.of_nat (length cs') * bpc →
    cbyte s' cs' o = if (off <=? o) && (o <? hi) then buf !!! Z.to_nat (o - off) else cbyte s cs' o }.

Lemma written_start off s cs : file_chain s cs → written off s cs off s cs.
Proof using Type.
  intros H. split; try done; [by intros; left|]. intros o _. destruct (Z.leb_spec off o), (Z.ltb_spec o off); cbn; try done. lia.
Qed.

(** The place of a byte, from its offset in the file. *)
Lemma cbyte_place (cs : list Z) o : 0 ≤ o < Z.of_nat (length cs) * bpc → ∃ k c, cs !! k = Some c ∧ 0 ≤ o `mod` bpc < bpc ∧ o = Z.of_nat k * bpc + o `mod` bpc.
Proof using Hg.
  intros Ho. pose proof bpc_pos. pose proof (Z.div_mod o bpc ltac:(lia)). pose proof (Z.mod_pos_bound o bpc ltac:(lia)). pose proof (Z.div_pos o bpc ltac:(lia) ltac:(lia)).
  destruct (lookup_lt_is_Some_2 cs (Z.to_nat (o / bpc))) as [c Hc]; [apply Nat2Z.inj_lt; rewrite Z2Nat.id by lia; nia|].
  exists (Z.to_nat (o / bpc)), c. rewrite Z2Nat.id by lia. split_and!; try done; lia.
Qed.

(** Storing the next [m] bytes of the buffer in a cluster. *)
Lemma written_data off s cs hi s1 cs1 k c co m s2 : written off s cs hi s1 cs1 → cs1 !! k = Some c → 0 ≤ co → 0 ≤ m → co + m ≤ bpc → off ≤ hi → hi = Z.of_nat k * bpc + co →
  hi + m - off ≤ Z.of_nat (length buf) → wrote s1 (daddr c co) (buf_read (hi - off) m buf) s2 → written off s cs (hi + m) s2 cs1.
Proof using Hg.
  intros [A1 A2 A3 A4 A5 A6 A7 A8] Hk Hco Hm Hle Hoff Hhi Hlen [B1 B2 B3 B4 B5 B6 B7].
  pose proof (length_buf_read (hi - off) m buf ltac:(lia) Hm ltac:(lia)) as Hl. pose proof (chain_range _ _ _ _ A4 Hk) as Hc.
  assert (∀ c' o, in_range c' → c' ≠ c → 0 ≤ o < bpc → disk s2 dev (daddr c' o) = disk s1 dev (daddr c' o)) as Hother.
  { intros c' o Hr Hne Ho. rewrite B7. apply store_bytes_out. intros Hin. apply Hne. 
    eapply (daddr_inj c' c o (daddr c' o - daddr c co + co)); try done; [unfold daddr in *; lia|]. unfold daddr. lia. }
  assert (∀ x, x < FAT16_SECTOR_SIZE * data_start sb → disk s2 dev x = disk s1 dev x) as Hlow.
  { intros x Hx. rewrite B7. apply store_bytes_out. pose proof (daddr_data c co Hc Hco). lia. }
  assert (∀ c', in_range c' → entry s2 c' = entry s1 c') as Hent.
  { intros c' Hr. apply load_le_ext. intros x Hx. apply Hlow. pose proof (entry_low c' Hr). lia. }
  split.
  - destruct A1 as (? & ? & ? & ? & ?). split_and!; congruence.
  - intros d x Hd. by rewrite B6, A2.
  - done.
  - destruct A4 as [C1 C2 C3]. split; try done. intros i c' Hi. rewrite Hent; [by apply C3|]. by apply (proj1 (Forall_lookup _ _) C1 _ _ Hi).
  - done.
  - intros c' Hr Hn. destruct (A6 c' Hr Hn) as [E1 E2]. split; [by rewrite Hent|]. intros o Ho. rewrite Hother; try done; [by apply E2|]. intros ->. apply Hn. by eapply list_elem_of_lookup_2.
  - intros x Hx Hn. rewrite Hlow by done. by apply A7.
  - intros o Ho. pose proof (A8 o Ho) as E8. destruct (cbyte_place cs1 o Ho) as (k' & c' & Hk' & Hmod & Hplace).
    rewrite (cbyte_at s2 cs1 k' c' o _ Hk' Hmod Hplace). rewrite (cbyte_at s1 cs1 k' c' o _ Hk' Hmod Hplace) in E8. pose proof bpc_pos.
    destruct (decide (hi ≤ o < hi + m)) as [Hin|Hin].
    + assert (k' = k) as -> by nia. rewrite Hk in Hk'. injection Hk' as <-. rewrite (proj2 (Z.leb_le _ _)), (proj2 (Z.ltb_lt _ _)) by lia. cbn [andb].
      rewrite B7, store_bytes_in by (unfold daddr; lia). unfold buf_read. rewrite lookup_total_take_lt, lookup_total_drop by (unfold daddr; lia). f_equal. unfold daddr. lia.
    + replace ((off <=? o) && (o <? hi + m)) with ((off <=? o) && (o <? hi)) by (destruct (Z.leb_spec off o), (Z.ltb_spec o hi), (Z.ltb_spec o (hi + m)); cbn; try done; lia).
      rewrite <-E8. rewrite B7. apply store_bytes_out. intros Hx. apply Hin. assert (c' = c ∧ o `mod` bpc = daddr c' (o `mod` bpc) - daddr c co + co) as [-> _].
      { apply daddr_inj; try done; [by eapply chain_range|unfold daddr in *; lia|unfold daddr; lia]. }
      assert (k' = k) as -> by (eapply NoDup_lookup; [apply (fc_nodup _ _ A4)|done|done]). unfold daddr in Hx. lia.
Qed.

Lemma chain_entry s cs c : file_chain s cs → c ∈ cs → entry s c ≠ FAT16_CLUSTER_FREE.
Proof using Type.
  intros [H1 _ H3] [i Hi]%list_elem_of_lookup_1. rewrite (H3 _ _ Hi). destruct (cs !! S i) as [c'|] eqn:E; [|done].
  pose proof (proj1 (Forall_lookup _ _) H1 _ _ E) as H. unfold in_range, FAT16_CLUSTER_FREE in *. cbn. lia.
Qed.

Lemma chain_snoc s cs c new s' : file_chain s cs → last cs = Some c → in_range new → new ∉ cs →
  (∀ c', entry s' c' = if decide (c' = c) then new else if decide (c' = new) then FAT16_CLUSTER_EOF else entry s c') → file_chain s' (cs ++ [new]).
Proof using Type.
  intros [H1 H2 H3] Hlast Hr Hn He. assert (new ≠ c) as Hne. { intros ->. apply Hn. rewrite last_lookup in Hlast. by eapply list_elem_of_lookup_2. }
  split.
  - apply Forall_app. split; [done|by constructor].
  - apply NoDup_app. split_and!; [done| |apply NoDup_singleton]. intros x Hx ->%list_elem_of_singleton. done.
  - intros i x Hi. rewrite He. destruct (decide (i < length cs)%nat) as [Hlt|Hge].
    + rewrite lookup_app_l in Hi by done. assert (x ≠ new) as Hx. { intros ->. apply Hn. by eapply list_elem_of_lookup_2. }
      rewrite last_lookup in Hlast. destruct (decide (x = c)) as [->|Hxc].
      * assert (i = pred (length cs)) as -> by (eapply NoDup_lookup; done). replace (S (pred (length cs))) with (length cs) by lia. by rewrite lookup_app_r, Nat.sub_diag.
      * rewrite decide_False, (H3 _ _ Hi) by done. destruct (decide (S i < length cs)%nat); [by rewrite lookup_app_l|].
        exfalso. apply Hxc. replace (pred (length cs)) with i in Hlast by lia. congruence.
    + rewrite lookup_app_r in Hi by lia. destruct (i - length cs)%nat eqn:E; [|done]. injection Hi as <-. rewrite decide_False, decide_True by done.
      by rewrite lookup_ge_None_2 by (rewrite length_app; cbn; lia).
Qed.

(** Appending a free cluster to the chain. *)
Lemma written_grow off s cs hi s1 cs1 c new s2 s3 : written off s cs hi s1 cs1 → last cs1 = Some c → (off < hi → hi ≤ Z.of_nat (length cs1) * bpc) →
  in_range new → entry s1 new = FAT16_CLUSTER_FREE → wrote s1 (entry_addr sb new) (Z_to_little_endian 2 8 FAT16_CLUSTER_EOF) s2 →
  wrote s2 (entry_addr sb c) (Z_to_little_endian 2 8 new) s3 → written off s cs hi s3 (cs1 ++ [new]).
Proof using Hg.
  intros [A1 A2 A3 A4 A5 A6 A7 A8] Hlast Hhi Hr Hfree B C.
  assert (c ∈ cs1) as Hin by (by apply last_Some_elem_of). assert (in_range c) as Hc by (by apply (proj1 (Forall_forall _ _) (fc_range _ _ A4))).
  assert (new ∉ cs1) as Hn by (intros H; by apply (chain_entry _ _ _ A4 H)).
  pose proof (wrote_entry sb s1 new FAT16_CLUSTER_EOF s2 ltac:(unfold FAT16_CLUSTER_EOF; lia) B) as E2.
  assert (0 ≤ new < 2 ^ 16) as Hnew by (pose proof (range_live new Hr) as (_ & H & _); unfold FAT16_CLUSTER_RESV in H; lia).
  pose proof (wrote_entry sb s2 c new s3 Hnew C) as E3.
  assert (∀ c', entry s3 c' = if decide (c' = c) then new else if decide (c' = new) then FAT16_CLUSTER_EOF else entry s1 c') as He by (intros c'; by rewrite E3, E2).
  assert (∀ x, ¬ (entry_addr sb 0 ≤ x < entry_addr sb (total_clusters sb + 2)) → disk s3 dev x = disk s1 dev x) as Hd.
  { intros x Hx. pose proof (entry_low c Hc). pose proof (entry_low new Hr). rewrite (wrote_entry_data sb s2 c new s3 x C), (wrote_entry_data sb s1 new _ s2 x B) by lia. done. }
  assert (∀ c' o, in_range c' → 0 ≤ o → disk s3 dev (daddr c' o) = disk s1 dev (daddr c' o)) as Hdata.
  { intros c' o Hc' Ho. apply Hd. pose proof (daddr_data c' o Hc' Ho). pose proof (entry_low c Hc). lia. }
  destruct (A6 new Hr Hn) as [N1 N2]. pose proof bpc_pos as [Hp _]. split.
  - destruct A1 as (? & ? & ? & ? & ?), B as [? ? ? ? ? _ _], C as [? ? ? ? ? _ _]. split_and!; congruence.
  - intros d x Hne. by rewrite (w_dev _ _ _ _ _ C), (w_dev _ _ _ _ _ B), A2.
  - by apply prefix_app_r.
  - by eapply chain_snoc.
  - intros x [Hx| ->%list_elem_of_singleton]%elem_of_app; [by apply A5|right; congruence].
  - intros c' Hc' [Hn1 Hn2]%not_elem_of_app. rewrite list_elem_of_singleton in Hn2. destruct (A6 c' Hc' Hn1) as [E E'].
    rewrite He, decide_False, decide_False by (congruence || by intros ->). split; [done|]. intros o Ho. rewrite Hdata by (done || lia). by apply E'.
  - intros x Hx Hnx. rewrite Hd by done. by apply A7.
  - intros o Ho. rewrite length_app, Nat2Z.inj_add in Ho. cbn [length] in Ho. destruct (decide (o < Z.of_nat (length cs1) * bpc)) as [Hlt|Hge].
    + pose proof (A8 o ltac:(lia)) as E8. destruct (cbyte_place cs1 o ltac:(lia)) as (k & x & Hk & Hm & Hpl). pose proof (chain_range _ _ _ _ A4 Hk) as Hrx.
      assert ((cs1 ++ [new]) !! k = Some x) as Hk' by (by apply lookup_app_l_Some).
      rewrite (cbyte_at s3 _ k x o _ Hk' Hm Hpl), (cbyte_at s _ k x o _ Hk' Hm Hpl), Hdata by (done || lia).
      by rewrite (cbyte_at s1 _ k x o _ Hk Hm Hpl), (cbyte_at s _ k x o _ Hk Hm Hpl) in E8.
    + replace ((off <=? o) && (o <? hi)) with false by (destruct (Z.leb_spec off o), (Z.ltb_spec o hi); cbn; try done; lia).
      assert ((cs1 ++ [new]) !! length cs1 = Some new) as Hk by (by rewrite lookup_app_r, Nat.sub_diag).
      rewrite (cbyte_at s3 _ _ new o (o - Z.of_nat (length cs1) * bpc) Hk), (cbyte_at s _ _ new o (o - Z.of_nat (length cs1) * bpc) Hk), Hdata by (done || lia).
      apply N2. lia.
Qed.

Lemma written_sb off s cs hi s1 cs1 : sbs s !! b = Some sb → written off s cs hi s1 cs1 → sbs s1 !! b = Some sb.
Proof using Type. intros Hs [(-> & _) _ _ _ _ _ _ _]. done. Qed.

(** One more cluster, or the disk is full. *)
Lemma append_spec off s cs hi s1 cs1 c : sbs s !! b = Some sb → written off s cs hi s1 cs1 → last cs1 = Some c → (off < hi → hi ≤ Z.of_nat (length cs1) * bpc) →
  (fat_alloc_cluster b s1 = Some (0, s1) ∧ full s1) ∨
  (∃ new s2 s3, fat_alloc_cluster b s1 = Some (new, s2) ∧ (new =? 0) = false ∧ fat_set_entry b c new s2 = Some s3 ∧ written off s cs hi s3 (cs1 ++ [new])).
Proof using Hg.
  intros Hs Hw Hlast Hhi. pose proof (written_sb _ _ _ _ _ _ Hs Hw) as Hs1. destruct (alloc_spec s1 Hs1) as [H|(new & s2 & E & Hr & Hf & W)]; [by left|right].
  assert (in_range c) as Hc by (apply (proj1 (Forall_forall _ _) (fc_range _ _ (wr_chain _ _ _ _ _ _ Hw))); by apply last_Some_elem_of).
  destruct (set_entry_spec b sb (g_table _ Hg) c new s2) as (s3 & E3 & W3); [by rewrite (w_sbs _ _ _ _ _ W)|apply (range_live c Hc)|].
  exists new, s2, s3. split_and!; try done; [apply Z.eqb_neq; unfold in_range in Hr; lia|]. by eapply written_grow.
Qed.

Lemma last_at (cs : list Z) k c : cs !! k = Some c → cs !! S k = None → last cs = Some c.
Proof using Type.
  intros Hk Hn. apply lookup_ge_None in Hn. pose proof (lookup_lt_Some _ _ _ Hk). rewrite last_lookup. by replace (pred (length cs)) with k by lia.
Qed.

Lemma extend_loop_spec j off s cs s1 cs1 k c : sbs s !! b = Some sb → written off s cs off s1 cs1 → cs1 !! k = Some c →
  ∃ r s2 cs2, extend_loop j b c s1 = Some (r, s2) ∧ written off s cs off s2 cs2 ∧
    match r with inl c' => cs2 !! (k + j)%nat = Some c' | inr _ => full s2 end.
Proof using Hg.
  intros Hs. revert k c s1 cs1. induction j as [|j IH]; intros k c s1 cs1 Hw Hk.
  { exists (inl c), s1, cs1. by rewrite Nat.add_0_r. }
  cbn [extend_loop]. pose proof (wr_chain _ _ _ _ _ _ Hw) as Hcs. pose proof (chain_range _ _ _ _ Hcs Hk) as Hc. pose proof (written_sb _ _ _ _ _ _ Hs Hw) as Hs1.
  rewrite (proj2 (Z.leb_le _ _)) by (unfold in_range, FAT16_CLUSTER_MIN in *; lia). rewrite (chain_next s1 cs1 k c Hs1 Hcs Hk). cbn [mbind option_bind].
  destruct (cs1 !! S k) as [c'|] eqn:Hk'; cbn [default].
  - pose proof (range_live c' (chain_range _ _ _ _ Hcs Hk')) as (_ & _ & Hlt). rewrite (proj2 (Z.leb_gt _ _)) by done.
    destruct (IH (S k) c' s1 cs1 Hw Hk') as (r & s2 & cs2 & E & H). exists r, s2, cs2. by rewrite <-Nat.add_succ_comm.
  - rewrite Z.leb_refl. destruct (append_spec _ _ _ _ _ _ c Hs Hw (last_at _ _ _ Hk Hk') ltac:(lia)) as [[-> Hf]|(new & s2 & s3 & E & E0 & E3 & Hw3)].
    + exists (inr tt), s1, cs1. done.
    + rewrite E. cbn [mbind option_bind]. rewrite E0, E3. cbn [mbind option_bind].
      assert ((cs1 ++ [new]) !! S k = Some new) as Hnew. { apply lookup_ge_None in Hk'. pose proof (lookup_lt_Some _ _ _ Hk). rewrite lookup_app_r by done. by replace (S k - length cs1)%nat with O by lia. }
      destruct (IH (S k) new s3 _ Hw3 Hnew) as (r & s4 & cs4 & E4 & H). exists r, s4, cs4. by rewrite <-Nat.add_succ_comm.
Qed.

Lemma write_clusters_spec fuel off n s cs k c co total s1 cs1 : sbs s !! b = Some sb → 0 ≤ n ≤ Z.of_nat (length buf) → 0 ≤ total ≤ n →
  written off s cs (off + total) s1 cs1 → cs1 !! k = Some c → 0 ≤ co < bpc → off + total = Z.of_nat k * bpc + co →
  n - total + Z.min co FAT16_SECTOR_SIZE ≤ FAT16_SECTOR_SIZE * (Z.of_nat fuel - 1) →
  ∃ t s2 cs2, write_clusters fuel b (from_buf buf) c co total n s1 = Some (inl t, s2) ∧ written off s cs (off + t) s2 cs2 ∧
    total ≤ t ≤ n ∧ (t < n → full s2) ∧ off + t ≤ Z.of_nat (length cs2) * bpc.
Proof using Hg.
  intros Hs Hn. pose proof bpc_pos as [Hp Hp']. revert k c co total s1 cs1. induction fuel as [|fuel IH]; intros k c co total s1 cs1 Ht Hw Hk Hco Hpos Hf; [unfold FAT16_SECTOR_SIZE in *; lia|].
  cbn [write_clusters]. pose proof (wr_chain _ _ _ _ _ _ Hw) as Hcs. pose proof (chain_range _ _ _ _ Hcs Hk) as Hc. pose proof (written_sb _ _ _ _ _ _ Hs Hw) as Hs1.
  pose proof (lookup_lt_Some _ _ _ Hk) as Hkl. destruct (Z.ltb_spec total n) as [H1|H1].
  2: { exists total, s1, cs1. split_and!; try done; try lia. nia. }
  rewrite Hs1. cbn [mbind option_bind]. rewrite (proj2 (Z.ltb_ge _ _)) by (unfold in_range, FAT16_CLUSTER_MIN in *; lia). cbn [mbind option_bind].
  rewrite (proj2 (Z.eqb_neq _ _)) by (unfold in_range in Hc; lia). destruct (split_off co Hco) as (S1 & S2 & S3).
  destruct (write_sectors_spec (sturns sb) c (co / FAT16_SECTOR_SIZE) (co `mod` FAT16_SECTOR_SIZE) total n s1 Hc ltac:(lia) S2 ltac:(lia) Ht ltac:(lia) ltac:(unfold sturns; lia)) as (s2 & E & W).
  rewrite S3 in *. rewrite E. cbn [mbind option_bind]. set (m := Z.min (n - total) (bpc - co)) in *.
  assert (written off s cs (off + total + m) s2 cs1) as Hw2. { apply (written_data off s cs (off + total) s1 cs1 k c co m s2 Hw Hk); try lia. by replace (off + total - off) with total by lia. }
  rewrite <-Z.add_assoc in Hw2. pose proof (wr_chain _ _ _ _ _ _ Hw2) as Hcs2. rewrite (chain_next s2 cs1 k c (written_sb _ _ _ _ _ _ Hs Hw2) Hcs2 Hk). cbn [mbind option_bind].
  assert (off + (total + m) ≤ Z.of_nat (length cs1) * bpc) as Hcap by nia.
  destruct (Z.ltb_spec (total + m) n) as [H2|H2]; [|rewrite andb_false_r].
  2: { exists n, s2, cs1. replace (total + m) with n in * by lia. destruct fuel; [unfold FAT16_SECTOR_SIZE in *; lia|]. cbn [write_clusters]. rewrite Z.ltb_irrefl. split_and!; try done; lia. }
  rewrite andb_true_r. assert (m = bpc - co) as Em by lia.
  assert (∀ s' cs' c', written off s cs (off + (total + m)) s' cs' → cs' !! S k = Some c' →
    ∃ t s2 cs2, write_clusters fuel b (from_buf buf) c' 0 (total + m) n s' = Some (inl t, s2) ∧ written off s cs (off + t) s2 cs2 ∧
    total ≤ t ≤ n ∧ (t < n → full s2) ∧ off + t ≤ Z.of_nat (length cs2) * bpc) as Hnext.
  { intros s' cs' c' Hw' Hk'. destruct (IH (S k) c' 0 (total + m) s' cs' ltac:(lia) Hw' Hk' ltac:(lia) ltac:(lia) ltac:(unfold FAT16_SECTOR_SIZE in *; lia)) as (t & s3 & cs3 & H).
    exists t, s3, cs3. destruct H as (H3 & H4 & H5 & H6 & H7). split_and!; try done; lia. }
  destruct (cs1 !! S k) as [c'|] eqn:Hk'; cbn [default].
  - pose proof (range_live c' (chain_range _ _ _ _ Hcs Hk')) as (_ & _ & Hlt). rewrite (proj2 (Z.leb_gt _ _)) by done. by apply (Hnext s2 cs1 c').
  - rewrite Z.leb_refl. destruct (append_spec _ _ _ _ _ _ c Hs Hw2 (last_at _ _ _ Hk Hk') ltac:(lia)) as [[-> Hfull]|(new & s3 & s4 & E3 & E0 & E4 & Hw4)]; cbn [mbind option_bind].
    + exists (total + m), s2, cs1. split_and!; try done; lia.
    + rewrite E3. cbn [mbind option_bind]. rewrite E0, E4. cbn [mbind option_bind]. apply (Hnext s4 (cs1 ++ [new])); [done|].
      apply lookup_ge_None in Hk'. rewrite lookup_app_r by done. by replace (S k - length cs1)%nat with O by lia.
Qed.

End write.

Lemma file_chain_disk s s' cs : (∀ x, disk s' dev x = disk s dev x) → file_chain s cs → file_chain s' cs.
Proof using Type. intros H [H1 H2 H3]. split; try done. intros i c Hi. rewrite <-(H3 _ _ Hi). by apply load_le_ext. Qed.

(** A file that shares no cluster with the one written. *)
Lemma written_apart buf off s cs hi s' cs' ds : written buf off s cs hi s' cs' → file_chain s ds → ds ## cs →
  file_chain s' ds ∧ ∀ o, 0 ≤ o < Z.of_nat (length ds) * bpc → cbyte s' ds o = cbyte s ds o.
Proof using Hg.
  intros [_ _ _ _ A5 A6 _ _] Hd Hdis. assert (∀ c, c ∈ ds → in_range c ∧ c ∉ cs') as Hout.
  { intros c Hc. split; [by apply (proj1 (Forall_forall _ _) (fc_range _ _ Hd))|]. intros [Hin|Hin]%A5; [by apply (Hdis c)|by apply (chain_entry _ _ _ Hd Hc)]. }
  split.
  - destruct Hd as [H1 H2 H3]. split; try done. intros i c Hi. rewrite <-(H3 _ _ Hi). destruct (Hout c) as [Hr Hn]; [by eapply list_elem_of_lookup_2|]. by apply A6.
  - intros o Ho. destruct (cbyte_place ds o Ho) as (k & c & Hk & Hm & Hpl). rewrite !(cbyte_at _ ds k c o _ Hk Hm Hpl).
    destruct (Hout c) as [Hr Hn]; [by eapply list_elem_of_lookup_2|]. by apply A6.
Qed.

(** The state after the new size is stored. *)
Lemma opened_written buf off s p v fip cs s' cs' hi size : opened s p v fip cs → written buf off s cs hi s' cs' →
  opened (set_vip p (λ v, v <| v_size := size |>) (set_fip (v_data v) (λ i, i <| fi_size := size |>) s')) p (v <| v_size := size |>) (fip <| fi_size := size |>) cs'.
Proof using Type.
  intros [H1 H2 H3 H4 H5 H6] [(A1 & A2 & A3 & _) _ A4 A5 _ _ _ _]. destruct A4 as [l ->]. split; cbn.
  - by rewrite A3, lookup_alter_eq, H1.
  - by rewrite A2, list_lookup_alter_eq, H2.
  - done.
  - by rewrite A1.
  - by apply lookup_app_l_Some.
  - by apply (file_chain_disk s').
Qed.

Lemma fat_writei_spec buf s p v fip cs off : opened s p v fip cs → 0 ≤ off → off + Z.of_nat (length buf) < 2 ^ 31 →
  let n := Z.of_nat (length buf) in
  ∃ s1 cs', written buf off s cs off s1 cs' ∧ full s1 ∧ fat_writei p (from_buf buf) off n s = Some (-1, s1) ∨
  ∃ t, 0 ≤ t ≤ n ∧ (t < n → full s1) ∧ written buf off s cs (off + t) s1 cs' ∧ off + t ≤ Z.of_nat (length cs') * bpc ∧
    let size := if fi_size fip <? off + t then off + t else fi_size fip in
    fat_writei p (from_buf buf) off n s = Some (t, set_vip p (λ v, v <| v_size := size |>) (set_fip (v_data v) (λ i, i <| fi_size := size |>) s1)).
Proof using Hg.
  intros Hop Hoff Hw n. destruct (opened_cluster _ _ _ _ _ Hop) as [E1 E2]. destruct Hop as [Hv Hf Hb Hs H0 Hcs]. pose proof bpc_pos as [Hp Hp'].
  unfold fat_writei. rewrite Hv. cbn [mbind option_bind]. rewrite Hf. cbn [mbind option_bind]. rewrite Hb, Hs. cbn [mbind option_bind]. rewrite E1, E2.
  pose proof (Z.div_mod off bpc ltac:(lia)) as Hd. pose proof (Z.mod_pos_bound off bpc ltac:(lia)) as Hm. pose proof (Z.div_pos off bpc ltac:(lia) ltac:(lia)).
  destruct (extend_loop_spec buf (Z.to_nat (off / bpc)) off s cs s cs 0 _ Hs (written_start buf off s cs Hcs) H0) as ([c|[]] & s1 & cs1 & E & Hw1 & Hr); rewrite E; cbn [mbind option_bind].
  2: { exists s1, cs1. by left. }
  destruct (write_clusters_spec buf (fturns n) off n s cs (0 + Z.to_nat (off / bpc)) c (off `mod` bpc) 0 s1 cs1 Hs ltac:(lia) ltac:(lia)) as (t & s2 & cs2 & E3 & Hw2 & Ht & Hfull & Hcap).
  - by rewrite Z.add_0_r.
  - exact Hr.
  - done.
  - rewrite Nat.add_0_l, Z2Nat.id by lia. lia.
  - pose proof (fturns_enough n ltac:(lia)). lia.
  - exists s2, cs2. right. exists t. rewrite E3. cbn [mbind option_bind]. rewrite i32_small, u32_small by (unfold is_i32; lia). split_and!; try done; lia.
Qed.

End files.

(** ** Theorems *)

(** C24: fat_free_chain() returns for every content of the table, also when the chain
    runs in a circle: it frees exactly the clusters that the chain reaches, and
    changes no other entry and no other byte. *)
Theorem fat_free_chain_frees b sb c s : table_ok sb → sbs s !! b = Some sb →
  ∃ s', fat_free_chain b c s = Some s' ∧ freed sb s c s'.
Proof.
  intros Ht Hb. apply free_loop_spec; [done|done|]. unfold used.
  pose proof (length_filter (λ c, entry sb s c ≠ 0) (seqZ 2 (FAT16_CLUSTER_RESV - 2))) as H. rewrite length_seqZ in H. unfold FAT16_CLUSTER_RESV in *. lia.
Qed.

(** C12: what fat_writei() wrote fat_readi() reads back, for a file with at least one
    cluster whose chain ends with 0xFFFF (fat_writei() takes no other end mark), on
    a disk whose table, root directory and clusters follow each other, and for a
    buffer of the kernel, which can always be read. The write stores as many bytes
    as there is room for: when it stores fewer than asked, no cluster is free. It
    extends the chain of the file as needed; within the file it changes only the
    bytes it was given, and every other file keeps its clusters and its bytes. *)
Theorem fat_write_read b sb s p v fip cs buf off : geometry sb → opened b sb s p v fip cs → 0 ≤ off → off + Z.of_nat (length buf) < 2 ^ 31 →
  let n := Z.of_nat (length buf) in
  ∃ r s' cs', fat_writei p (from_buf buf) off n s = Some (r, s') ∧ r ≤ n ∧ (r < n → full sb s') ∧
    (0 < r → fat_readi p any_dst off r s' = Some (r, take (Z.to_nat r) buf)) ∧
    cs `prefix_of` cs' ∧ file_chain sb s' cs' ∧
    (∀ o, 0 ≤ o < Z.of_nat (length cs) * bytes_per_cluster sb → ¬ (off ≤ o < off + r) → cbyte sb s' cs' o = cbyte sb s cs o) ∧
    (∀ ds, file_chain sb s ds → ds ## cs → file_chain sb s' ds ∧ ∀ o, 0 ≤ o < Z.of_nat (length ds) * bytes_per_cluster sb → cbyte sb s' ds o = cbyte sb s ds o).
Proof.
  intros Hg Hop Hoff Hw n. pose proof (bpc_pos sb Hg) as [Hp _].
  assert (∀ hi s1 cs', written sb buf off s cs hi s1 cs' → ∀ o, 0 ≤ o < Z.of_nat (length cs) * bytes_per_cluster sb → ¬ (off ≤ o < hi) → cbyte sb s1 cs' o = cbyte sb s cs o) as Hkeep.
  { intros hi s1 cs' Hwr o Ho Hn. destruct (wr_prefix _ _ _ _ _ _ _ _ Hwr) as [l El]. rewrite (wr_bytes _ _ _ _ _ _ _ _ Hwr) by (rewrite El, length_app; lia).
    replace ((off <=? o) && (o <? hi)) with false by (destruct (Z.leb_spec off o), (Z.ltb_spec o hi); cbn; try done; lia).
    destruct (cbyte_place sb Hg cs o Ho) as (k & c & Hk & Hm & Hpl). rewrite (cbyte_at sb Hg s cs k c o _ Hk Hm Hpl), (cbyte_at sb Hg s cs' k c o (o `mod` bytes_per_cluster sb)); try done. rewrite El. by apply lookup_app_l_Some. }
  destruct (fat_writei_spec b sb Hg buf s p v fip cs off Hop Hoff Hw) as (s1 & cs' & [(Hwr & Hfull & E)|(t & Ht & Hfull & Hwr & Hcap & E)]).
  - exists (-1), s1, cs'. split_and!; try done; try lia; try apply Hwr.
    + intros o Ho _. apply (Hkeep _ _ _ Hwr o Ho). lia.
    + intros ds Hd Hdis. by eapply written_apart.
  - set (size := if fi_size fip <? off + t then off + t else fi_size fip) in *. cbn zeta in E.
    pose proof (opened_written b sb buf off s p v fip cs s1 cs' (off + t) size Hop Hwr) as Hop'.
    set (s2 := set_vip _ _ _) in *. exists t, s2, cs'. split_and!; try done; try lia; try apply Hwr.
    + intros H0. rewrite (fat_readi_spec b sb Hg s2 p _ _ cs' off t Hop') by (try done; cbn; unfold size; destruct (Z.ltb_spec (fi_size fip) (off + t)); lia).
      do 2 f_equal. apply list_eq. intros i. unfold cbytes. rewrite list_lookup_fmap. destruct (decide (i < Z.to_nat t)%nat) as [Hi|Hi].
      * rewrite (proj2 (lookup_seqZ 0 t i (Z.of_nat i))) by lia. rewrite lookup_take_lt by done. cbn [fmap option_fmap option_map].
        change (cbyte sb s2 cs' (off + Z.of_nat i)) with (cbyte sb s1 cs' (off + Z.of_nat i)).
        rewrite (wr_bytes _ _ _ _ _ _ _ _ Hwr) by lia. rewrite (proj2 (Z.leb_le _ _)), (proj2 (Z.ltb_lt _ _)) by lia. cbn [andb].
        rewrite list_lookup_lookup_total_lt by lia. do 2 f_equal. lia.
      * rewrite lookup_seqZ_ge by lia. rewrite lookup_take_ge by lia. done.
    + by apply (file_chain_disk sb s1), Hwr.
    + intros o Ho Hn. by apply (Hkeep _ _ _ Hwr o Ho).
    + intros ds Hd Hdis. destruct (written_apart sb Hg buf off s cs _ s1 cs' ds Hwr Hd Hdis) as [H1 H2]. split; [by apply (file_chain_disk sb s1)|done].
Qed.

(** ** A small disk *)

(** A boot sector, one sector of the table, one of the root directory and five
    clusters of one sector. The file A.TXT has clusters 2 and 4 and 700 bytes; the
    clusters 5 and 6 point to each other; 3 is free. *)
Definition small_image (x : Z) : Z :=
  default 0 ((list_to_map (M := gmap Z Z)
    ([(12, 2); (13, 1); (14, 1); (16, 1); (17, 16); (19, 8); (22, 1);
      (516, 4); (520, 255); (521, 255); (522, 6); (524, 5);
      (1024, 65); (1032, 84); (1033, 88); (1034, 84); (1035, 32); (1050, 2); (1052, 188); (1053, 2)] ++
     ((λ i, (1025 + i, SPACE)) <$> seqZ 0 7)) !! x)).

Definition small_boot : fat :=
  mk_fat (λ d, if d =? 1 then small_image else λ _, 0) ∅ (replicate FAT_NINODE inhabitant) ∅
    (replicate 8 (mk_vfs_mount false 0 0 [] None None)) [4096; 8192; 12288; 16384].

Definition small_run : option (option Z * fat) := '(_, s) ← fat_mount 1 1 small_boot; fat_namei 1 [SLASH; 97; DOT; 116; 120; 116] s.

Definition small_disk : fat := default small_boot (snd <$> small_run).
Definition small_fsb : fat_sb := default (mk_fat_sb 0 0 0 0 0 0 0 0 0 0 0 0 0 0 None false) (sbs small_disk !! 4096).

Lemma small_opens : fst <$> small_run = Some (Some 12288).
Proof. vm_compute. reflexivity. Qed.

Lemma small_geometry : geometry small_fsb.
Proof. split; [split| ..]; vm_compute; try done; by split. Qed.

Lemma small_at : sbs small_disk !! 4096 = Some small_fsb.
Proof. vm_compute. reflexivity. Qed.

Lemma small_opened : ∃ v fip, opened 4096 small_fsb small_disk 12288 v fip [2; 4].
Proof.
  exists (mk_vfs_inode 1 2 1 true VFS_FILE 700 1 1).
  exists (mk_fat_inode 2 700 32 0 0 [65; DOT; 84; 88; 84; 0] 4096 1 true). split; try (vm_compute; reflexivity). split.
  - repeat constructor; vm_compute; done.
  - apply (bool_decide_unpack _). vm_compute. done.
  - intros [|[|i]] c Hc; [injection Hc as <-; vm_compute; reflexivity..|done].
Qed.

Lemma fat_free_chain_frees_witness : ∃ s', fat_free_chain 4096 5 small_disk = Some s' ∧ entry small_fsb s' 5 = 0 ∧ entry small_fsb s' 6 = 0 ∧ entry small_fsb s' 2 = 4.
Proof.
  destruct (fat_free_chain_frees 4096 small_fsb 5 small_disk (g_table _ small_geometry) small_at) as (s' & E & F).
  assert (reach small_fsb small_disk 5 5) as R5 by (constructor; reflexivity).
  assert (reach small_fsb small_disk 5 6) as R6. { replace 6 with (entry small_fsb small_disk 5) by (vm_compute; reflexivity). apply reach_next; [done|vm_compute; reflexivity]. }
  exists s'. split_and!; [done|exact (f_in _ _ _ _ F 5 R5)|exact (f_in _ _ _ _ F 6 R6)|].
  rewrite (f_out _ _ _ _ F); [vm_compute; reflexivity|]. intros H. assert (∀ d, reach small_fsb small_disk 5 d → d = 5 ∨ d = 6) as Hr.
  { induction 1 as [|d _ [->| ->] _]; [by left|right; vm_compute; reflexivity|left; vm_compute; reflexivity]. }
  destruct (Hr 2 H); lia.
Defined.

Lemma fat_write_read_witness : ∃ r s', fat_writei 12288 (from_buf (replicate 600 7)) 1000 600 small_disk = Some (r, s') ∧
  (0 < r → fat_readi 12288 any_dst 1000 r s' = Some (r, take (Z.to_nat r) (replicate 600 7))).
Proof.
  destruct small_opened as (v & fip & Hop).
  destruct (fat_write_read 4096 small_fsb small_disk 12288 v fip [2; 4] (replicate 600 7) 1000 small_geometry Hop ltac:(lia)) as (r & s' & cs' & E & _ & _ & Hr & _).
  { rewrite length_replicate. lia. }
  rewrite length_replicate in E. change (Z.of_nat 600) with 600 in E. exists r, s'. exact (conj E Hr).
Defined.
