(* ===== verification/FatDir.v ===== *)
(** * The root directory of a FAT disk

    The root directory as a list of entries, what a lookup of a name finds in it,
    and names in the 8.3 form. Removing a file of the root directory frees its
    clusters but leaves its entry. *)

From stdpp Require Import list_numbers gmap.
From S2P Require Import Prelude Mem Fat FatSpec.

(** ** Names *)

Lemma upper_cases c : (97 ≤ c ≤ 122 ∧ upper c = c - 32) ∨ (¬ 97 ≤ c ≤ 122 ∧ upper c = c).
Proof. unfold upper. destruct (Z.leb_spec 97 c), (Z.leb_spec c 122); cbn; lia. Qed.

Lemma upper_idem c : upper (upper c) = upper c.
Proof. pose proof (upper_cases c). pose proof (upper_cases (upper c)). lia. Qed.

Lemma upper_dot c : (upper c =? DOT) = (c =? DOT).
Proof. pose proof (upper_cases c). unfold DOT. destruct (Z.eqb_spec (upper c) 46), (Z.eqb_spec c 46); lia. Qed.

Lemma copy_name_upper n (s : list Z) : copy_name n (upper <$> s) = copy_name n s.
Proof. revert s. induction n as [|n IH]; intros [|c s]; [done..|]. cbn. rewrite upper_dot, upper_idem. destruct (c =? DOT); [done|]. f_equal. apply IH. Qed.

Definition uppers (l : list Z) : list Z := upper <$> l.

Lemma last_dot_upper s d : last_dot (uppers s) (uppers <$> d) = uppers <$> last_dot s d.
Proof. revert d. induction s as [|c s IH]; intros d; [done|]. cbn. rewrite upper_dot. destruct (c =? DOT); [apply (IH (Some s))|apply IH]. Qed.

Lemma str_to_name_upper (s : list Z) : fat_str_to_name (upper <$> s) = fat_str_to_name s.
Proof.
  unfold fat_str_to_name. rewrite copy_name_upper. change (last_dot (upper <$> s) None) with (last_dot (uppers s) (uppers <$> None)).
  rewrite last_dot_upper. destruct (last_dot s None) as [e|]; [|done]. cbn [fmap option_fmap option_map]. unfold uppers. rewrite <-fmap_take, <-list_fmap_compose.
  do 2 f_equal. apply list_fmap_ext. intros i x _. apply upper_idem.
Qed.

(** A byte that a name on the disk can hold. *)
Definition name_byte (c : Z) : Prop := c ≠ DOT ∧ c ≠ SPACE ∧ upper c = c.

Lemma to_space_pad n l : Forall name_byte l → to_space (pad n l) = l.
Proof.
  unfold pad. generalize (n - length l)%nat. intros k. induction 1 as [|c l (_ & Hc & _) Hl IH]; cbn.
  - by destruct k.
  - destruct (Z.eqb_spec c SPACE); [done|]. by rewrite IH.
Qed.

Lemma copy_name_app n l r : Forall name_byte l → (length l ≤ n)%nat → match r with [] => True | c :: _ => c = DOT end → copy_name n (l ++ r) = l.
Proof.
  intros Hl. revert n. induction Hl as [|c l (Hd & _ & Hu) Hl IH]; intros n Hn Hr; cbn in *.
  - destruct n, r; try done. by subst.
  - destruct n; [lia|]. cbn. destruct (Z.eqb_spec c DOT); [done|]. rewrite Hu, IH by (done || lia). done.
Qed.

Lemma last_dot_none l r d : Forall name_byte l → last_dot (l ++ r) d = last_dot r d.
Proof. intros Hl. revert d. induction Hl as [|c l (Hd & _) Hl IH]; intros d; [done|]. cbn. destruct (Z.eqb_spec c DOT); [done|]. apply IH. Qed.

Lemma last_dot_end l d : Forall name_byte l → last_dot l d = d.
Proof. intros Hl. rewrite <-(app_nil_r l). by rewrite last_dot_none. Qed.

Lemma upper_name l : Forall name_byte l → upper <$> l = l.
Proof. induction 1 as [|c l (_ & _ & Hu) Hl IH]; [done|]. by rewrite fmap_cons, Hu, IH. Qed.

(** Names of files survive the way to the disk and back: an 8.3 name printed by
    fat_name_to_str() is converted to the same name by fat_str_to_name(), and small
    and capital letters are the same. *)
Theorem fat_name_roundtrip base ext d : Forall name_byte base → Forall name_byte ext → (length base ≤ 8)%nat → (length ext ≤ 3)%nat →
  fd_name d = pad 8 base → fd_ext d = pad 3 ext →
  ∀ str : list Z, upper <$> str = fat_name_to_str d → fat_str_to_name str = (fd_name d, fd_ext d).
Proof.
  intros Hb He Lb Le Hn Hx str Hs. rewrite <-str_to_name_upper, Hs. unfold fat_name_to_str. rewrite Hn, Hx, !to_space_pad by done.
  assert ((pad 3 ext !!! O =? SPACE) = bool_decide (ext = [])) as ->.
  { destruct ext as [|c ext]; [done|]. apply Forall_cons in He as [(_ & Hc & _) _]. cbn. by apply Z.eqb_neq. }
  unfold fat_str_to_name. destruct ext as [|c ext].
  - rewrite bool_decide_true by done. cbn [negb]. rewrite copy_name_app, last_dot_none by done. done.
  - rewrite bool_decide_false by done. cbn [negb]. rewrite copy_name_app, last_dot_none by done. change (last_dot (DOT :: c :: ext) None) with (last_dot (c :: ext) (Some (c :: ext))).
    by rewrite last_dot_end, take_ge, upper_name by done.
Qed.

(** ** The root directory *)

Section root.
Context (b : Z) (sb : fat_sb) (Hg : geometry sb).
Implicit Types s : fat.

Definition fentry s (k : Z) : fat_dirent :=
  decode_fdirent (load_bytes (FAT16_SECTOR_SIZE * root_start sb + FDESZ * k) (Z.to_nat FDESZ) (disk s (sb_dev sb))).

Definition rdir s : list fat_dirent := fentry s <$> seqZ 0 (root_entries sb).

(** The entry is that of a file or directory with the name: its first byte is not
    the mark of a deleted entry (0xE5), its attributes are not those of a part of a
    long name (0x0F), the bit of a volume label (bit 3) is clear, and both parts of
    the name are equal. *)
Definition names_file (e : fat_dirent) (name : list Z * list Z) : Prop :=
  fd_name e !!! O ≠ 229 ∧ fd_attr e ≠ 15 ∧ Z.testbit (fd_attr e) 3 = false ∧ fd_name e = name.1 ∧ fd_ext e = name.2.

(** [e] at index [k] is the first such entry, and no entry up to it has the end
    mark 0. *)
Definition first_entry (l : list fat_dirent) (name : list Z * list Z) (k : nat) (e : fat_dirent) : Prop :=
  l !! k = Some e ∧ names_file e name ∧
  (∀ j d, (j ≤ k)%nat → l !! j = Some d → fd_name d !!! O ≠ 0) ∧ (∀ j d, (j < k)%nat → l !! j = Some d → ¬ names_file d name).

(** The same as a function. *)
Fixpoint flookup (l : list fat_dirent) (name : list Z * list Z) : option (nat * fat_dirent) :=
  match l with
  | [] => None
  | e :: l =>
      if fd_name e !!! O =? 0 then None
      else if negb (skipped e) && fmatch name e then Some (O, e)
      else prod_map S id <$> flookup l name
  end.

Lemma flookup_lt l name k e : flookup l name = Some (k, e) → (k < length l)%nat.
Proof using Type.
  revert k. induction l as [|x l IH]; intros k H; [done|]. cbn in *. destruct (fd_name x !!! O =? 0); [done|].
  destruct (negb (skipped x) && fmatch name x); [injection H as <- _; lia|].
  destruct (flookup l name) as [[j y]|]; [|done]. injection H as <- ->. specialize (IH j eq_refl). lia.
Qed.

Lemma volume_bit a : (Z.land a FAT_ATTR_VOLUME_ID =? 0) = negb (Z.testbit a 3).
Proof using Type.
  assert (Z.land a FAT_ATTR_VOLUME_ID = if Z.testbit a 3 then 8 else 0) as ->; [|by destruct (Z.testbit a 3)].
  apply Z.bits_inj'. intros n Hn. change FAT_ATTR_VOLUME_ID with (2 ^ 3). rewrite Z.land_spec, Z.pow2_bits_eqb by lia.
  destruct (Z.eqb_spec 3 n) as [<-|Hne]; [rewrite andb_true_r; by destruct (Z.testbit a 3)|]. rewrite andb_false_r.
  destruct (Z.testbit a 3); [|by rewrite Z.bits_0]. change 8 with (2 ^ 3). rewrite Z.pow2_bits_eqb by lia. symmetry. by apply Z.eqb_neq.
Qed.

Lemma names_file_iff e name : negb (skipped e) && fmatch name e = true ↔ names_file e name.
Proof using Type.
  unfold skipped, fmatch, names_file, DELETED, FAT_ATTR_LONG_NAME. rewrite volume_bit, negb_involutive, !negb_orb, !andb_true_iff, !negb_true_iff, !Z.eqb_neq, !bool_decide_eq_true. tauto.
Qed.

Lemma flookup_first l name k e : flookup l name = Some (k, e) ↔ first_entry l name k e.
Proof using Type.
  revert k. induction l as [|x l IH]; intros k; cbn [flookup]. { split; [done|]. by intros [? _]. }
  destruct (Z.eqb_spec (fd_name x !!! O) 0) as [H0|H0].
  { split; [done|]. intros (_ & _ & Hz & _). by destruct (Hz O x ltac:(lia) eq_refl). }
  destruct (negb (skipped x) && fmatch name x) eqn:Hm.
  - apply names_file_iff in Hm. split.
    + intros [= <- <-]. split_and!; try done; [|intros; lia]. intros [|j] d Hj; [by intros [= <-]|lia].
    + intros (Hk & _ & _ & Hno). destruct k as [|k]; [by injection Hk as ->|]. by destruct (Hno O x ltac:(lia) eq_refl).
  - assert (¬ names_file x name) as Hx. { rewrite <-names_file_iff. by rewrite Hm. }
    destruct k as [|k].
    + split; [by destruct (flookup l name) as [ []|]|]. intros ([= ->] & ? & _). done.
    + transitivity (flookup l name = Some (k, e)). { destruct (flookup l name) as [ [j d]|]; cbn; naive_solver. }
      rewrite IH. unfold first_entry. cbn [lookup list_lookup]. split; intros (H1 & H2 & H3 & H4); split_and!; try done.
      * intros [|j] d Hj; [by intros [= <-]|]. apply H3. lia.
      * intros [|j] d Hj; [by intros [= <-]|]. apply H4. lia.
      * intros j d Hj. apply (H3 (S j)). lia.
      * intros j d Hj. apply (H4 (S j)). lia.
Qed.

(** [p] is an inode of the root directory. *)
Record root_open s (p : Z) (v : vfs_inode) (fip : fat_inode) : Prop := {
  ro_vnode : vnodes s !! p = Some v;
  ro_fip : fat_icache s !! v_data v = Some fip;
  ro_b : fi_sb fip = b;
  ro_sb : sbs s !! b = Some sb;
  ro_cluster : fi_cluster fip = 0;
  ro_size : fi_size fip = FDESZ * root_entries sb;
  ro_ref : fi_ref fip ≠ 0 }.

Lemma rdir_lookup s k e : rdir s !! k = Some e → e = fentry s (Z.of_nat k) ∧ Z.of_nat k < root_entries sb.
Proof using Type. unfold rdir. rewrite list_lookup_fmap. intros (x & [-> Hk]%lookup_seqZ & ->)%fmap_Some. by rewrite Z.add_0_l. Qed.

(** Entries do not cross sectors. *)
Lemma entry_place k : 0 ≤ k < root_entries sb →
  let o := FDESZ * k in u32 o = o ∧ u32 (o + FDESZ) = o + FDESZ ∧ 0 ≤ o `mod` FAT16_SECTOR_SIZE ∧ o `mod` FAT16_SECTOR_SIZE + FDESZ ≤ FAT16_SECTOR_SIZE ∧
  sector_addr (u32 (root_start sb + o / FAT16_SECTOR_SIZE)) + o `mod` FAT16_SECTOR_SIZE = FAT16_SECTOR_SIZE * root_start sb + o.
Proof using Hg.
  intros Hk. cbn zeta. pose proof (g_entries _ Hg). pose proof (g_root _ Hg). pose proof (g_data _ Hg). pose proof (g_spc _ Hg). pose proof (g_clusters _ Hg). pose proof (g_fat _ Hg).
  destruct (g_table _ Hg) as [_ Hs _]. unfold entry_addr, FDESZ, FAT16_SECTOR_SIZE in *. assert (0 ≤ total_clusters sb * sectors_per_cluster sb) by nia.
  pose proof (Z.div_mod (32 * k) 512 ltac:(lia)). pose proof (Z.mod_pos_bound (32 * k) 512 ltac:(lia)). pose proof (Z.div_pos (32 * k) 512 ltac:(lia) ltac:(lia)).
  rewrite !u32_small by lia. rewrite sector_addr_eq. unfold FAT16_SECTOR_SIZE. split_and!; try lia.
Qed.

Lemma read_root s p v fip k : root_open s p v fip → 0 ≤ k < root_entries sb → read_fdirent p (FDESZ * k) s = Some (Some (fentry s k)).
Proof using Hg.
  intros [Hv Hf Hb Hs Hc Hz _] Hk. destruct (entry_place k Hk) as (U1 & U2 & P1 & P2 & P3). unfold read_fdirent, fat_readi.
  rewrite Hv. cbn [mbind option_bind]. rewrite Hf. cbn [mbind option_bind]. rewrite Hb, Hs. cbn [mbind option_bind]. rewrite U2, Hz.
  rewrite (proj2 (Z.ltb_ge _ _)) by (unfold FDESZ; lia). rewrite (proj2 (Z.ltb_ge _ _)) by (unfold FDESZ; lia). change (FDESZ =? 0) with false. rewrite Hc. cbn [Z.eqb].
  change (fturns FDESZ) with 3%nat. cbn [root_loop any_dst]. rewrite Z.add_0_r, U1. change (0 <? FDESZ) with true. change (FDESZ - 0) with FDESZ.
  assert ((if FDESZ <? FAT16_SECTOR_SIZE - (FDESZ * k) `mod` FAT16_SECTOR_SIZE then FDESZ else FAT16_SECTOR_SIZE - (FDESZ * k) `mod` FAT16_SECTOR_SIZE) = FDESZ) as ->.
  { destruct (Z.ltb_spec FDESZ (FAT16_SECTOR_SIZE - (FDESZ * k) `mod` FAT16_SECTOR_SIZE)); lia. }
  change (0 + FDESZ) with FDESZ. rewrite Z.ltb_irrefl. cbn [mbind option_bind]. rewrite Z.eqb_refl || change (i32 FDESZ =? FDESZ) with true. cbn [app]. do 2 f_equal.
  unfold fentry. f_equal. unfold fat_read_sector. rewrite buf_read_load by (unfold FDESZ, FAT16_SECTOR_SIZE in *; lia). by rewrite P3.
Qed.

Lemma read_root_end s p v fip : root_open s p v fip → read_fdirent p (FDESZ * root_entries sb) s = Some None.
Proof using Hg.
  intros [Hv Hf Hb Hs Hc Hz _]. pose proof (g_entries _ Hg). unfold read_fdirent, fat_readi. rewrite Hv. cbn [mbind option_bind]. rewrite Hf. cbn [mbind option_bind]. rewrite Hb, Hs. cbn [mbind option_bind].
  rewrite Hz, Z.ltb_irrefl, u32_small by (unfold FDESZ; lia). rewrite (proj2 (Z.ltb_lt _ _)) by (unfold FDESZ; lia). by rewrite Z.sub_diag.
Qed.

Lemma find_root fuel s p v fip name k : root_open s p v fip → (k ≤ length (rdir s))%nat → (length (rdir s) - k < fuel)%nat →
  find_fdirent fuel p name (FDESZ * Z.of_nat k) s = Some ((λ x : nat * fat_dirent, (FDESZ * Z.of_nat (k + x.1), x.2)) <$> flookup (drop k (rdir s)) name).
Proof using Hg.
  intros Hro. assert (Z.of_nat (length (rdir s)) = root_entries sb) as Hlen. { unfold rdir. rewrite length_fmap, length_seqZ. pose proof (g_entries _ Hg). lia. }
  revert k. induction fuel as [|fuel IH]; intros k Hk Hf; [lia|]. cbn [find_fdirent]. destruct (decide (k < length (rdir s))%nat) as [Hlt|Hge].
  2: { rewrite drop_ge by lia. replace (Z.of_nat k) with (root_entries sb) by lia. by rewrite (read_root_end s p v fip Hro). }
  destruct (lookup_lt_is_Some_2 _ _ Hlt) as [e He]. destruct (rdir_lookup s k e He) as [-> Hke]. rewrite (read_root s p v fip (Z.of_nat k) Hro) by lia. cbn [mbind option_bind].
  rewrite (drop_S _ _ _ He). cbn [flookup]. set (e := fentry s (Z.of_nat k)). destruct (entry_place (Z.of_nat k) ltac:(lia)) as (_ & -> & _).
  replace (FDESZ * Z.of_nat k + FDESZ) with (FDESZ * Z.of_nat (S k)) by (unfold FDESZ; lia). rewrite (IH (S k)) by lia.
  destruct (fd_name e !!! O =? 0); [done|]. destruct (skipped e); cbn [negb andb]; [|destruct (fmatch name e)].
  - destruct (flookup (drop (S k) (rdir s)) name) as [[j d]|]; [|done]. cbn. do 5 f_equal. lia.
  - cbn. by rewrite Nat.add_0_r.
  - destruct (flookup (drop (S k) (rdir s)) name) as [[j d]|]; [|done]. cbn. do 5 f_equal. lia.
Qed.

(** What the code needs to make an inode: an unused entry [f] of the inode cache
    and a free page [p]; [m] is the mount. *)
Record can_open s (mnt f : nat) (i : fat_inode) (p : Z) (l : list Z) (m : vfs_mount) : Prop := {
  co_slot : find_index (λ f, fi_ref f =? 0) (fat_icache s) = Some f;
  co_inode : fat_icache s !! f = Some i;
  co_pages : pages s = p :: l;
  co_new : vnodes s !! p = None;
  co_mount : mounts s !! mnt = Some m;
  co_data : m_data m = Some b }.

(** The state with a new inode. *)
Definition with_inode s (f : nat) (i : fat_inode) (p : Z) (v : vfs_inode) (l : list Z) : fat :=
  mk_fat (disk s) (sbs s) (<[f := i]> (fat_icache s)) (<[p := v]> (vnodes s)) (mounts s) l.

Lemma fat_iget_spec s mnt inum f i p l m : can_open s mnt f i p l m →
  fat_iget mnt inum s = Some (Some p, with_inode s f (i <| fi_ref := 1 |> <| fi_cluster := inum |> <| fi_sb := b |> <| fi_valid := false |>) p
    (mk_vfs_inode (m_dev m) inum 1 false 0 0 mnt f) l).
Proof using Type.
  intros [H1 H2 H3 _ H5 H6]. unfold fat_iget, fat_ialloc. rewrite H1. cbn. rewrite H5. cbn. unfold kalloc. cbn. rewrite H3, H6. unfold with_inode.
  do 2 f_equal. unfold set_fip, upd, fat_icache_set, pages_set, vnodes_set. cbn. f_equal. rewrite list_alter_alter. by rewrite (list_alter_insert _ f _ i H2).
Qed.

(** The inode of the entry [e] at offset [off]. *)
Definition entry_inode (e : fat_dirent) (off : Z) (i : fat_inode) : fat_inode :=
  mk_fat_inode (fd_cluster_low e) (fd_file_size e) (fd_attr e) 0 off
    (fi_name (store_name (fat_name_to_str e) i)) b 1 true.

Definition entry_vnode (e : fat_dirent) (mnt f : nat) (m : vfs_mount) : vfs_inode :=
  mk_vfs_inode (m_dev m) (fd_cluster_low e) 1 false (if Z.land (fd_attr e) FAT_ATTR_DIRECTORY =? 0 then VFS_FILE else VFS_DIR) (fd_file_size e) mnt f.

Lemma dirlookup_root s dp v fip name f i p l m : root_open s dp v fip → can_open s (v_mnt v) f i p l m → b `mod` 256 = 0 →
  fat_dirlookup dp name s = match flookup (rdir s) (fat_str_to_name name) with
    | None => Some (None, s)
    | Some (k, e) => Some (Some (p, FDESZ * Z.of_nat k), with_inode s f (entry_inode e (FDESZ * Z.of_nat k) i) p (entry_vnode e (v_mnt v) f m) l)
    end.
Proof using Hg.
  intros Hro Hco Hb. pose proof Hro as [Hv Hf _ _ Hc Hz Hr]. pose proof Hco as [C1 C2 C3 C4 C5 C6]. unfold fat_dirlookup. rewrite Hv. cbn [mbind option_bind]. rewrite Hf. cbn [mbind option_bind].
  rewrite Hc, andb_false_r. assert (Z.of_nat (length (rdir s)) = root_entries sb) as Hlen. { unfold rdir. rewrite length_fmap, length_seqZ. pose proof (g_entries _ Hg). lia. }
  assert (f ≠ v_data v) as Hne. { intros ->. apply find_index_Some in C1 as [(x & E & H0) _]. rewrite Hf in E. injection E as <-. by apply Z.eqb_eq in H0. }
  pose proof (find_root (ffuel fip) s dp v fip (fat_str_to_name name) 0 Hro ltac:(lia)) as E. change (FDESZ * Z.of_nat 0) with 0 in E.
  rewrite E by (unfold ffuel; rewrite Hz, Z.mul_comm, Z.div_mul by done; lia). rewrite drop_0. cbn [mbind option_bind].
  destruct (flookup (rdir s) (fat_str_to_name name)) as [[k e]|]; [|done]. cbn [fmap option_fmap option_map fst snd plus].
  rewrite (fat_iget_spec s _ _ f i p l m Hco). cbn [mbind option_bind]. cbn [fat_icache with_inode]. rewrite list_lookup_insert_ne, Hf by done. cbn [mbind option_bind]. rewrite Hc.
  unfold fill_inode. cbn [vnodes with_inode]. rewrite lookup_insert_eq. cbn [mbind option_bind]. do 2 f_equal. unfold set_vip, set_fip, with_inode, upd, fat_icache_set, vnodes_set. cbn.
  pose proof (lookup_lt_Some _ _ _ C2) as Hlt. unfold with_inode. f_equal.
  - rewrite (list_alter_insert _ f _ _ (list_lookup_insert_eq _ _ _ Hlt)), list_insert_insert_eq. f_equal. unfold store_name, entry_inode.
    destruct (length (fat_name_to_str e) <? 12)%nat eqn:El; cbn; unfold store_name; rewrite El; cbn; [done|]. by rewrite Hb, Z.sub_0_r.
  - rewrite alter_insert_eq. done.
Qed.

End root.

(** The clusters of a chain that begins with [c]. *)
Lemma reach_chain sb s cs c d : geometry sb → file_chain sb s cs → cs !! O = Some c → reach sb s c d → d ∈ cs.
Proof.
  intros Hg Hcs H0. induction 1 as [|d _ IH Hl]; [by eapply list_elem_of_lookup_2|]. apply list_elem_of_lookup_1 in IH as [i Hi].
  rewrite (fc_links _ _ _ Hcs _ _ Hi) in Hl |- *. destruct (cs !! S i) as [c'|] eqn:E; [by eapply list_elem_of_lookup_2|done].
Qed.

Lemma chain_reach sb s cs c d : geometry sb → file_chain sb s cs → cs !! O = Some c → d ∈ cs → reach sb s c d.
Proof.
  intros Hg Hcs H0 [i Hi]%list_elem_of_lookup_1. revert d Hi. induction i as [|i IH]; intros d Hi.
  - rewrite H0 in Hi. injection Hi as <-. constructor. apply (range_live sb Hg). by eapply chain_range.
  - destruct (lookup_lt_is_Some_2 cs i) as [d' Hd']; [apply lookup_lt_Some in Hi; lia|]. pose proof (fc_links _ _ _ Hcs _ _ Hd') as E. rewrite Hi in E. cbn in E. subst d.
    apply reach_next; [by apply IH|]. apply (range_live sb Hg). by eapply chain_range.
Qed.

(** ** Theorems *)

(** The name, in small or capital letters, is the 8.3 name [base].[ext]. *)
Definition name83 (name base ext : list Z) : Prop :=
  Forall name_byte base ∧ Forall name_byte ext ∧ (length base ≤ 8)%nat ∧ (length ext ≤ 3)%nat ∧
  upper <$> name = base ++ match ext with [] => [] | _ => DOT :: ext end.

Lemma name83_str name base ext : name83 name base ext → fat_str_to_name name = (pad 8 base, pad 3 ext).
Proof.
  intros (Hb & He & Lb & Le & Hn). rewrite <-str_to_name_upper, Hn. unfold fat_str_to_name. destruct ext as [|c ext].
  - rewrite copy_name_app, last_dot_none by done. done.
  - rewrite copy_name_app, last_dot_none by done. change (last_dot (DOT :: c :: ext) None) with (last_dot (c :: ext) (Some (c :: ext))).
    by rewrite last_dot_end, take_ge, upper_name by done.
Qed.

(** C25: a lookup in the root directory, with a free entry of the inode cache and a free
    page at hand, finds the first entry with the name before the end mark, passing over
    deleted entries, parts of long names and volume labels, and returns an inode of the
    file it describes; without such an entry nothing changes. The name that is
    searched for is the 8.3 form of the argument, padded with spaces and in capital
    letters. *)
Theorem fat_dirlookup_finds b sb s dp v fip name base ext f i p l m :
  geometry sb → root_open b sb s dp v fip → can_open b s (v_mnt v) f i p l m → b `mod` 256 = 0 → name83 name base ext →
  (∀ k e, first_entry (rdir sb s) (pad 8 base, pad 3 ext) k e →
     ∃ s' i', fat_dirlookup dp name s = Some (Some (p, FDESZ * Z.of_nat k), s') ∧ fip_of p s' = Some i' ∧
       fi_cluster i' = fd_cluster_low e ∧ fi_size i' = fd_file_size e ∧ fi_attr i' = fd_attr e ∧ fi_sb i' = b ∧ fi_ref i' = 1 ∧
       fat_icache s' = <[f := i']> (fat_icache s) ∧ disk s' = disk s ∧ sbs s' = sbs s ∧ delete p (vnodes s') = vnodes s) ∧
  ((∀ k e, ¬ first_entry (rdir sb s) (pad 8 base, pad 3 ext) k e) → fat_dirlookup dp name s = Some (None, s)).
Proof.
  intros Hg Hro Hco Hb Hn. rewrite (dirlookup_root b sb Hg s dp v fip name f i p l m Hro Hco Hb), (name83_str name base ext Hn). split.
  - intros k e Hk%flookup_first. rewrite Hk.
    eexists _, (entry_inode b e (FDESZ * Z.of_nat k) i). split; [done|]. destruct Hco as [_ C2 _ C4 _ _]. pose proof (lookup_lt_Some _ _ _ C2). cbn [disk sbs fat_icache vnodes with_inode]. split_and!; try done.
    + unfold fip_of. cbn. rewrite lookup_insert_eq. cbn. by rewrite list_lookup_insert_eq.
    + by rewrite delete_insert_id.
  - intros Hno. destruct (flookup (rdir sb s) (pad 8 base, pad 3 ext)) as [[k e]|] eqn:E; [|done]. apply flookup_first in E. by destruct (Hno k e).
Qed.

(** Removing a file of the root directory returns 0 and frees its clusters, but its
    entry stays, since fat_writei() refuses the root directory: the name still leads
    to clusters that are free. *)
Theorem fat_unlink_root_keeps_entry b sb s dp v fip name f i p l m k e cs : geometry sb → root_open b sb s dp v fip → can_open b s (v_mnt v) f i p l m → b `mod` 256 = 0 →
  flookup (rdir sb s) (fat_str_to_name name) = Some (k, e) → file_chain sb s cs → cs !! O = Some (fd_cluster_low e) →
  ∃ s', fat_unlink dp name s = Some (0, s') ∧ rdir sb s' = rdir sb s ∧ ∀ c, c ∈ cs → entry sb s' c = FAT16_CLUSTER_FREE.
Proof.
  intros Hg Hro Hco Hb Hl Hcs H0. unfold fat_unlink. rewrite (dirlookup_root b sb Hg s dp v fip name f i p l m Hro Hco Hb), Hl. cbn [mbind option_bind].
  set (s1 := with_inode _ _ _ _ _ _). pose proof Hro as [R1 R2 R3 R4 R5 R6 R7]. pose proof Hco as [C1 C2 C3 C4 C5 C6]. pose proof (lookup_lt_Some _ _ _ C2) as Hlt.
  assert (fip_of p s1 = Some (entry_inode b e (FDESZ * Z.of_nat k) i)) as ->. { unfold fip_of, s1. cbn. rewrite lookup_insert_eq. cbn. by rewrite list_lookup_insert_eq. }
  cbn [mbind option_bind entry_inode fi_cluster fi_sb]. assert (in_range sb (fd_cluster_low e)) as Hr by (by eapply chain_range).
  rewrite (proj2 (Z.leb_le _ _)) by (unfold in_range, FAT16_CLUSTER_MIN in *; lia).
  destruct (fat_free_chain_frees b sb (fd_cluster_low e) s1 (g_table _ Hg) R4) as (s2 & -> & [(F1 & F2 & F3 & F4 & F5) _ Fin _ _ Fdata]). cbn [mbind option_bind].
  assert (file_chain sb s1 cs) as Hcs1 by (by apply (file_chain_disk sb s)).
  assert (f ≠ v_data v) as Hne. { intros ->. apply find_index_Some in C1 as [(x & E & Hx) _]. rewrite R2 in E. injection E as <-. by apply Z.eqb_eq in Hx. }
  assert (root_open b sb s2 dp v fip) as Hro2.
  { split; try done; [|by rewrite F2; cbn; rewrite list_lookup_insert_ne|by rewrite F1]. rewrite F3. cbn. rewrite lookup_insert_ne; [done|]. intros ->. congruence. }
  assert (rdir sb s2 = rdir sb s) as Hdir.
  { unfold rdir. apply list_fmap_ext. intros j x [-> Hj]%lookup_seqZ. unfold fentry. f_equal. apply load_bytes_ext. intros a Ha. rewrite Fdata; [done|]. intros d Hd.
    pose proof (reach_chain sb s1 cs _ d Hg Hcs1 H0 Hd) as Hin. pose proof (proj1 (Forall_forall _ _) (fc_range _ _ _ Hcs) d Hin) as Hrd.
    pose proof (entry_low sb Hg d Hrd). pose proof (g_fat _ Hg). unfold FDESZ in *. lia. }
  assert (Z.of_nat k < root_entries sb) as Hk by (apply flookup_lt in Hl; unfold rdir in Hl; rewrite length_fmap, length_seqZ in Hl; lia).
  rewrite (read_root b sb Hg s2 dp v fip (Z.of_nat k) Hro2) by lia. cbn [mbind option_bind]. unfold fat_writei. destruct Hro2 as [Q1 Q2 Q3 Q4 Q5 _ _].
  rewrite Q1. cbn [mbind option_bind]. rewrite Q2. cbn [mbind option_bind]. rewrite Q3, Q4. cbn [mbind option_bind]. rewrite Q5. cbn [Z.eqb mbind option_bind fat_iput].
  rewrite F3. cbn [vnodes s1 with_inode]. unfold s1. cbn [vnodes with_inode]. rewrite lookup_insert_eq. cbn [mbind option_bind]. eexists. split; [done|]. split; [exact Hdir|].
  intros c Hc. apply (Fin c). by apply (chain_reach sb s1 cs).
Qed.

(** ** On the small disk *)

Definition small_root : fat :=
  default small_boot ('(_, s) ← fat_mount 1 1 small_boot; '(_, s) ← fat_iget 1 0 s; fat_ilock 8192 s).

Lemma small_root_open : root_open 4096 small_fsb small_root 8192 (mk_vfs_inode 1 0 1 true VFS_DIR 512 1 0) (mk_fat_inode 0 512 16 0 0 [] 4096 1 true).
Proof. split; try (vm_compute; reflexivity). done. Qed.

Lemma small_can_open : can_open 4096 small_root 1 1 inhabitant 12288 [16384] (mk_vfs_mount false 1 0 [] None (Some 4096)).
Proof. split; vm_compute; reflexivity. Qed.

(** The name "a.TXT". *)
Definition a_txt : list Z := [97; DOT; 84; 88; 84].

Lemma fat_name_roundtrip_witness : fat_str_to_name a_txt = (pad 8 [65], pad 3 [84; 88; 84]).
Proof.
  apply (fat_name_roundtrip [65] [84; 88; 84] (mk_fat_dirent (pad 8 [65]) (pad 3 [84; 88; 84]) 32 [] 2 700)); try reflexivity; try (cbn; lia);
    repeat constructor; vm_compute; done.
Defined.

Lemma fat_dirlookup_finds_witness : ∃ s' i', fat_dirlookup 8192 a_txt small_root = Some (Some (12288, 0), s') ∧ fip_of 12288 s' = Some i' ∧ fi_cluster i' = 2 ∧ fi_size i' = 700.
Proof.
  assert (name83 a_txt [65] [84; 88; 84]) as Hn by (repeat split; try (cbn; lia); repeat constructor; vm_compute; done).
  destruct (fat_dirlookup_finds 4096 small_fsb small_root 8192 _ _ a_txt [65] [84; 88; 84] 1 inhabitant 12288 [16384] _ small_geometry small_root_open small_can_open eq_refl Hn) as [H _].
  assert (flookup (rdir small_fsb small_root) (pad 8 [65], pad 3 [84; 88; 84]) = Some (O, mk_fat_dirent (pad 8 [65]) (pad 3 [84; 88; 84]) 32 (replicate 14 0) 2 700)) as E by (vm_compute; reflexivity).
  apply flookup_first in E. destruct (H O _ E) as (s' & i' & H1 & H2 & H3 & H4 & _). exists s', i'. exact (conj H1 (conj H2 (conj H3 H4))).
Defined.
