(* ===== verification/Vfs.v ===== *)
(** * The virtual file system switch (src/kernel/filesystem/vfs.c)

    The mount table, mounting and unmounting, and the choice of the mount for a
    path. The native file system is the one of Fs.v: what its adapter functions
    call is the value of type [vnode]. The lock of the table makes each call
    atomic: fat_mount(), which vfs_mount() calls without it, finds its slot
    marked as used. *)

From stdpp Require Import list_numbers gmap.
From S2P Require Import Prelude Mem CString Fat FatSpec FatDir.

Definition FS_TYPE_XV6 : Z := 0.
Definition FS_TYPE_FAT : Z := 1.
Definition MAX_MOUNTS : nat := 8.
Definition ROOTDEV : Z := 1.
Definition ROOTINO : Z := 1.

(** The mount table is part of the state of Fat.v. *)
Record vfs := mk_vfs { v_fat : fat; fs_types : list (option fs_operations); fs_count : Z }.

#[export] Instance vfs_rebuild : Rebuild vfs := λ s, mk_vfs (v_fat s) (fs_types s) (fs_count s).
#[export] Instance v_fat_set : Setter v_fat := ltac:(solve_setter).
#[export] Instance fs_types_set : Setter fs_types := ltac:(solve_setter).
#[export] Instance fs_count_set : Setter fs_count := ltac:(solve_setter).

Definition vfs_register_fs (ops : fs_operations) (type : Z) (s : vfs) : vfs :=
  if type <? 8 then s <| fs_types := <[Z.to_nat type := Some ops]> (fs_types s) |> <| fs_count := fs_count s + 1 |>
  else s.

(** The operation mount of a file system. *)
Definition xv6_vfs_mount (mnt : nat) (dev : Z) (s : fat) : option (Z * fat) :=
  Some (0, set_mnt mnt (λ m, m <| m_dev := dev |>) s).

Definition ops_mount (ops : fs_operations) : nat → Z → fat → option (Z * fat) :=
  match ops with xv6_ops => xv6_vfs_mount | fat_ops => fat_mount end.

Definition xv6_vfs_unmount (mnt : nat) (s : fat) : option (Z * fat) := Some (-1, s).

Definition ops_unmount (ops : fs_operations) : nat → fat → option (Z * fat) :=
  match ops with xv6_ops => xv6_vfs_unmount | fat_ops => fat_unmount end.

Definition vfs_init (s : vfs) : vfs :=
  let s := s <| v_fat := (v_fat s) <| mounts := (λ m, m <| m_used := false |>) <$> mounts (v_fat s) |> |> in
  let s := vfs_register_fs xv6_ops FS_TYPE_XV6 s in
  let s := vfs_register_fs fat_ops FS_TYPE_FAT s in
  s <| v_fat := set_mnt 0 (λ m, m <| m_used := true |> <| m_dev := ROOTDEV |> <| m_type := FS_TYPE_XV6 |> <| m_ops := Some xv6_ops |>
                                  <| m_point := stored VFS_MAXPATH (str [SLASH]) |>) (v_fat s) |>.

(** The source is not looked at: the device is always 1. *)
Definition vfs_mount_call (source target : list Z) (fs_type : Z) (s : vfs) : option (Z * vfs) :=
  if (fs_type <? 0) || (8 <=? fs_type) then Some (-1, s)
  else
    match fs_types s !!! Z.to_nat fs_type with
    | None => Some (-1, s)
    | Some ops =>
        match find_index (λ m, negb (m_used m)) (mounts (v_fat s)) with
        | None => Some (-1, s)
        | Some slot =>
            let dev := 1 in
            let f := set_mnt slot (λ m, m <| m_used := true |> <| m_dev := dev |> <| m_type := fs_type |> <| m_ops := Some ops |>
                                          <| m_point := stored VFS_MAXPATH (str target) |>) (v_fat s) in
            '(r, f) ← ops_mount ops slot dev f;
            if r <? 0 then Some (-1, s <| v_fat := set_mnt slot (λ m, m <| m_used := false |>) f |>)
            else Some (0, s <| v_fat := f |>)
        end
    end.

Definition mounted_at (target : list Z) (m : vfs_mount) : bool :=
  m_used m && (strncmp VFS_MAXPATH (str (m_point m)) (str target) =? 0).

(** Slot 0, the root, is passed over. *)
Definition vfs_umount (target : list Z) (s : vfs) : option (Z * vfs) :=
  match find_index (mounted_at target) (tail (mounts (v_fat s))) with
  | None => Some (-1, s)
  | Some j =>
      let i := S j in
      m ← mounts (v_fat s) !! i;
      ops ← m_ops m;
      '(r, f) ← ops_unmount ops i (v_fat s);
      if r <? 0 then Some (-1, s <| v_fat := f |>)
      else Some (0, s <| v_fat := set_mnt i (λ m, m <| m_used := false |>) f |>)
  end.

(** One turn of the loop of vfs_get_mount(): slot [i] against the best so far. *)
Definition better_mount (path : list Z) (i : nat) (m : vfs_mount) (best : nat * nat) : option (nat * nat) :=
  if negb (m_used m) then Some best
  else
    len ← strlen (S VFS_MAXPATH) (str (m_point m)) 0;
    let c := str path len in
    Some (if (best.2 <? len)%nat && (strncmp len (str (m_point m)) (str path) =? 0) && ((c =? SLASH) || (c =? 0))
          then (i, len) else best).

Fixpoint mount_loop (path : list Z) (i : nat) (l : list vfs_mount) (best : nat * nat) : option (nat * nat) :=
  match l with
  | [] => Some best
  | m :: l => best ← better_mount path i m best; mount_loop path (S i) l best
  end.

Definition vfs_get_mount (path : list Z) (s : vfs) : option nat :=
  fst <$> mount_loop path 0 (mounts (v_fat s)) (O, 1%nat).

(** What a path leads to: nothing, a FAT inode, or what iget() of the native file
    system returns for a device and an inode number. *)
Inductive vnode := Vnull | Vfat (p : Z) | Vxv6 (dev inum : Z).

Definition vfs_namei (path : list Z) (s : vfs) : option (vnode * vfs) :=
  i ← vfs_get_mount path s;
  m ← mounts (v_fat s) !! i;
  match m_ops m with
  | None => Some (Vnull, s)
  | Some fat_ops =>
      '(r, f) ← fat_namei i path (v_fat s);
      Some (match r with Some p => Vfat p | None => Vnull end, s <| v_fat := f |>)
  | Some xv6_ops => Some (Vxv6 (m_dev m) ROOTINO, s)
  end.

(** No file system has the operation nameiparent. *)
Definition vfs_nameiparent (path : list Z) (s : vfs) : option (vnode * vfs) :=
  _ ← vfs_get_mount path s; Some (Vnull, s).

(** The system calls; the arguments are the strings that argstr() fetched. *)
Definition sys_mount (source target fstype : list Z) (s : vfs) : option (Z * vfs) :=
  if strncmp 3 (str fstype) (str [120; 118; 54]) =? 0 then vfs_mount_call source target FS_TYPE_XV6 s
  else if strncmp 3 (str fstype) (str [102; 97; 116]) =? 0 then vfs_mount_call source target FS_TYPE_FAT s
  else Some (-1, s).

Definition sys_umount (target : list Z) (s : vfs) : option (Z * vfs) := vfs_umount target s.

(** ** The mount for a path *)

Definition no_zero (l : list Z) : Prop := Forall (λ b, b ≠ 0) l.

(** The mount point of a used slot is a string. *)
Definition point (m : vfs_mount) (t : list Z) : Prop :=
  m_used m = true ∧ m_point m = stored VFS_MAXPATH (str t) ∧ no_zero t ∧ (length t < VFS_MAXPATH)%nat.

Definition points_ok (l : list vfs_mount) : Prop := ∀ i m, l !! i = Some m → m_used m = true → ∃ t, point m t.

(** [t] is the path itself or ends before a slash of it. *)
Definition covers (t path : list Z) : Prop :=
  t `prefix_of` path ∧ (path !! length t = None ∨ path !! length t = Some SLASH).

Lemma str_nonzero l i : no_zero l → str l i ≠ 0 ↔ (i < length l)%nat.
Proof.
  intros Hl. unfold str. split; intros H.
  - destruct (decide (i < length l)%nat); [done|]. by rewrite nth_overflow in H by lia.
  - destruct (lookup_lt_is_Some_2 _ _ H) as [b Hb]. rewrite (nth_lookup_Some _ _ _ b) by done. by apply (Forall_lookup_1 _ _ _ _ Hl Hb).
Qed.

Lemma stored_str t i : no_zero t → (i < VFS_MAXPATH)%nat → str (stored VFS_MAXPATH (str t)) i = str t i.
Proof. intros Ht Hi. by rewrite str_stored, field_str. Qed.

Lemma strlen_point m t : point m t → strlen (S VFS_MAXPATH) (str (m_point m)) 0 = Some (length t).
Proof.
  intros (_ & -> & Ht & Hl). apply strlen_from; [lia| |rewrite stored_str by done; unfold str; by apply nth_overflow|lia].
  intros i Hi. rewrite stored_str by (done || lia). apply str_nonzero; [done|lia].
Qed.

Lemma covers_iff t path : no_zero t → no_zero path → (length t < VFS_MAXPATH)%nat →
  (strncmp (length t) (str (stored VFS_MAXPATH (str t))) (str path) =? 0) && ((str path (length t) =? SLASH) || (str path (length t) =? 0)) = bool_decide (covers t path).
Proof.
  intros Ht Hp Hl. apply eq_bool_prop_intro. rewrite andb_True, orb_True, bool_decide_spec, !Is_true_true, !Z.eqb_eq. unfold covers.
  rewrite (strncmp_ext _ _ (str t) _ (str path)); [|intros i Hi; apply field_ext; intros j Hj; by apply stored_str; [|lia]|done].
  rewrite strncmp_str by done. rewrite firstn_all.
  assert (str path (length t) = default 0 (path !! length t)) as ->. { unfold str. destruct (path !! length t) eqn:E; [by rewrite (nth_lookup_Some _ _ _ z)|by rewrite nth_overflow by (by apply lookup_ge_None_1)]. }
  split.
  - intros [H1 H2]. split; [rewrite H1; apply prefix_take|]. destruct (path !! length t) as [c|] eqn:E; [|by left]. cbn in H2. right. destruct H2 as [->| ->]; [done|].
    by destruct (Forall_lookup_1 _ _ _ _ Hp E).
  - intros [[r ->] H2]. rewrite take_app_length. split; [done|]. destruct H2 as [->| ->]; [by right|by left].
Qed.

(** [best] is the slot with the longest covering mount point among those of [l],
    whose numbers begin with [i], or as it was. *)
Definition longest (path : list Z) (l : list vfs_mount) (i : nat) (best0 best : nat * nat) : Prop :=
  (best = best0 ∨ ∃ j m t, l !! j = Some m ∧ point m t ∧ covers t path ∧ best = ((i + j)%nat, length t) ∧ (best0.2 < length t)%nat) ∧
  (best0.2 ≤ best.2)%nat ∧
  (∀ j m t, l !! j = Some m → point m t → covers t path → (length t ≤ best.2)%nat).

Lemma point_inj m t t' : point m t → point m t' → t = t'.
Proof.
  intros H H'. pose proof (strlen_point m t H) as E. rewrite (strlen_point m t' H') in E. injection E as El.
  destruct H as (_ & E1 & Hz1 & Hl1), H' as (_ & E2 & Hz2 & Hl2). rewrite E1 in E2.
  apply list_eq_same_length with (n := length t); [done|done|]. intros k x y Hk Hx Hy. assert (str (stored VFS_MAXPATH (str t)) k = str (stored VFS_MAXPATH (str t')) k) as E by (by rewrite E2).
  rewrite !stored_str in E by (done || lia). unfold str in E. by rewrite (nth_lookup_Some _ _ _ _ Hx), (nth_lookup_Some _ _ _ _ Hy) in E.
Qed.

Lemma mount_loop_longest path l i best : no_zero path → points_ok l →
  ∃ best', mount_loop path i l best = Some best' ∧ longest path l i best best'.
Proof.
  intros Hp. revert i best. induction l as [|m l IH]; intros i best Hok; cbn [mount_loop].
  { exists best. split; [done|]. split_and!; [by left|done|done]. }
  assert (points_ok l) as Hok' by (intros j m' Hj; apply (Hok (S j) m' Hj)).
  assert (∃ b1, better_mount path i m best = Some b1 ∧ longest path [m] i best b1) as (b1 & -> & L1 & L2 & L3).
  { unfold better_mount. destruct (m_used m) eqn:Hu; cbn [negb].
    2: { exists best. split; [done|]. split_and!; [by left|done|]. intros [|j] m' t Hj [Hm _]; [|done]. injection Hj as <-. congruence. }
    destruct (Hok O m eq_refl Hu) as [t Ht]. rewrite (strlen_point m t Ht). cbn [mbind option_bind]. pose proof Ht as (_ & -> & Hz & Hl).
    rewrite <-andb_assoc, (covers_iff t path Hz Hp Hl). eexists. split; [done|]. unfold longest.
    assert (∀ j m' t', [m] !! j = Some m' → point m' t' → t' = t) as Hone by (intros [|j] m' t' Hj Ht'; [injection Hj as <-; by eapply point_inj|done]).
    destruct (Nat.ltb_spec best.2 (length t)); cbn [andb]; [destruct (bool_decide (covers t path)) eqn:Hc|].
    - apply bool_decide_eq_true in Hc. cbn [snd]. split_and!; [|lia|intros j m' t' Hj Ht' _; by rewrite (Hone j m' t')].
      right. exists O, m, t. split_and!; try done. by rewrite Nat.add_0_r.
    - apply bool_decide_eq_false in Hc. split_and!; [by left|done|]. intros j m' t' Hj Ht' Hc'. exfalso. apply Hc. by rewrite <-(Hone j m' t').
    - split_and!; [by left|done|]. intros j m' t' Hj Ht' _. rewrite (Hone j m' t') by done. done. }
  cbn [mbind option_bind]. destruct (IH (S i) b1 Hok') as (b2 & -> & M1 & M2 & M3). exists b2. split; [done|]. split_and!.
  - destruct M1 as [->|(j & m' & t & Hj & H1 & H2 & H3 & H4)].
    + destruct L1 as [->|(j & m' & t & Hj & H1 & H2 & H3 & H4)]; [by left|right]. destruct j; [|done]. injection Hj as <-. by exists O, m, t.
    + right. exists (S j), m', t. rewrite Nat.add_succ_r, <-Nat.add_succ_l. split_and!; try done. lia.
  - lia.
  - intros [|j] m' t Hj H1 H2; [injection Hj as <-; specialize (L3 O m t eq_refl H1 H2); lia|by eapply M3].
Qed.

(** C26: vfs_get_mount() returns the mount whose mount point is the longest that is the
    path or ends before a slash of it, and the root mount when there is none. *)
Theorem vfs_get_mount_longest path s : no_zero path → points_ok (mounts (v_fat s)) →
  ∃ i, vfs_get_mount path s = Some i ∧
    (i = O ∨ ∃ m t, mounts (v_fat s) !! i = Some m ∧ point m t ∧ covers t path ∧ (1 < length t)%nat) ∧
    (∀ j m t, mounts (v_fat s) !! j = Some m → point m t → covers t path → (1 < length t)%nat →
       ∃ m' t', mounts (v_fat s) !! i = Some m' ∧ point m' t' ∧ covers t' path ∧ (length t ≤ length t')%nat).
Proof.
  intros Hp Hok. unfold vfs_get_mount. destruct (mount_loop_longest path (mounts (v_fat s)) 0 (O, 1%nat) Hp Hok) as (best & -> & H1 & H2 & H3).
  exists best.1. split; [done|]. split.
  - destruct H1 as [->|(j & m & t & Hj & Ht & Hc & -> & Hlen)]; [by left|right]. by exists m, t.
  - intros j m t Hj Ht Hc Hlen. specialize (H3 j m t Hj Ht Hc). destruct H1 as [->|(k & m' & t' & Hk & Ht' & Hc' & -> & _)]; [cbn in H3; lia|]. by exists m', t'.
Qed.

(** ** Mounting and unmounting *)

Lemma find_index_changed {A} (P : A → bool) (g : A → A) l j x : Forall (λ y, P y = false) l → l !! j = Some x → P (g x) = true →
  find_index P (alter g j l) = Some j.
Proof.
  intros Hl. revert j. induction Hl as [|y l Hy Hl IH]; intros [|j] Hj Hg; try done.
  - injection Hj as ->. cbn. by rewrite Hg.
  - cbn in Hj |- *. rewrite Hy. by rewrite (IH j Hj Hg).
Qed.

Lemma mounted_target target m : m_used m = true → m_point m = stored VFS_MAXPATH (str target) → mounted_at target m = true.
Proof.
  intros Hu Hp. unfold mounted_at. rewrite Hu, Hp. cbn [andb]. apply Z.eqb_eq, strncmp_stored, strncmp_zero. done.
Qed.

(** What a successful mount of a FAT disk leaves in slot [slot]. *)
Definition fat_slot (target : list Z) (p : Z) : vfs_mount :=
  mk_vfs_mount true 1 FS_TYPE_FAT (stored VFS_MAXPATH (str target)) (Some fat_ops) (Some p).

Definition with_mount (f : fat) (slot : nat) (m : vfs_mount) (p : Z) (sb : fat_sb) (l : list Z) : fat :=
  mk_fat (disk f) (<[p := sb]> (sbs f)) (fat_icache f) (vnodes f) (<[slot := m]> (mounts f)) l.

Lemma fat_mounted source target s s1 : fs_types s !! 1%nat = Some (Some fat_ops) → vfs_mount_call source target FS_TYPE_FAT s = Some (0, s1) →
  ∃ slot m p sb l, mounts (v_fat s) !! slot = Some m ∧ m_used m = false ∧ pages (v_fat s) = p :: l ∧
    v_fat s1 = with_mount (v_fat s) slot (fat_slot target p) p sb l.
Proof.
  intros Hty. unfold vfs_mount_call, fat_slot. change ((FS_TYPE_FAT <? 0) || (8 <=? FS_TYPE_FAT)) with false. change (Z.to_nat FS_TYPE_FAT) with 1%nat.
  rewrite (list_lookup_total_correct _ 1%nat _ Hty). generalize (stored VFS_MAXPATH (str target)). intros pt.
  destruct (find_index _ (mounts (v_fat s))) as [slot|] eqn:Hslot; [|done]. apply find_index_Some in Hslot as [(m & Hm & Hun%negb_true_iff) _].
  cbn [ops_mount]. unfold fat_mount. set (f0 := set_mnt slot _ _). destruct (negb _); [done|]. unfold kalloc. change (pages f0) with (pages (v_fat s)).
  destruct (pages (v_fat s)) as [|p l] eqn:Hpg; [done|]. destruct (fat_fill_sb _ _) as [sb|]; [|done]. cbn [mbind option_bind]. change (0 <? 0) with false. intros [= <-].
  exists slot, m, p, sb, l. split_and!; try done. cbn. unfold with_mount, set_mnt, upd, mounts_set, sbs_set, pages_set. cbn. f_equal.
  rewrite list_alter_alter. by rewrite (list_alter_insert _ slot _ m Hm).
Qed.

Lemma unmount_mounted target s f slot m p sb l : v_fat s = with_mount f slot (fat_slot target p) p sb l → slot ≠ O → mounts f !! slot = Some m →
  Forall (λ m, mounted_at target m = false) (tail (mounts f)) →
  ∃ s2, vfs_umount target s = Some (0, s2) ∧
    v_fat s2 = mk_fat (disk f) (delete p (<[p := sb]> (sbs f))) (fat_icache f) (vnodes f)
                 (<[slot := (fat_slot target p) <| m_data := None |> <| m_used := false |>]> (mounts f)) (p :: l).
Proof.
  intros Hs Hslot Hm Hno. destruct slot as [|j]; [done|]. unfold vfs_umount. rewrite Hs. cbn [mounts with_mount].
  destruct (mounts f) as [|m1 ms] eqn:Hms; [done|]. change (<[S j := fat_slot target p]> (m1 :: ms)) with (m1 :: <[j := fat_slot target p]> ms). cbn [tail].
  assert (find_index (mounted_at target) (<[j := fat_slot target p]> ms) = Some j) as ->.
  { rewrite <-(list_alter_insert (λ _, fat_slot target p) j ms m Hm). apply (find_index_changed _ _ ms j m Hno Hm). by apply mounted_target. }
  pose proof (lookup_lt_Some _ _ _ Hm) as Hlt. cbn [length] in Hlt.
  assert ((m1 :: <[j := fat_slot target p]> ms) !! S j = Some (fat_slot target p)) as Hl by (exact (list_lookup_insert_eq ms j (fat_slot target p) ltac:(lia))).
  rewrite Hl. cbn [mbind option_bind m_ops fat_slot ops_unmount]. unfold fat_unmount. cbn [mounts with_mount]. rewrite Hms.
  change (<[S j := fat_slot target p]> (m1 :: ms)) with (m1 :: <[j := fat_slot target p]> ms). rewrite Hl. cbn [mbind option_bind m_data fat_slot]. change (0 <? 0) with false.
  eexists. split; [done|]. cbn. unfold with_mount, set_mnt, kfree, upd, mounts_set, sbs_set, pages_set. cbn. rewrite Hms. f_equal.
  rewrite !list_alter_alter. cbn. f_equal. etransitivity; [exact (list_alter_insert _ j _ (fat_slot target p) Hl)|]. apply list_insert_insert_eq.
Qed.

(** umount() undoes mount(): after a FAT disk was mounted on a target that no other
    file system is mounted on, umount() of it returns 0, frees the page of the super
    block and the slot, and the disk, the open inodes and the other mounts are as
    before. *)
Theorem vfs_mount_umount source target s s1 : fs_types s !! 1%nat = Some (Some fat_ops) → (∃ m, mounts (v_fat s) !! O = Some m ∧ m_used m = true) →
  Forall (λ m, mounted_at target m = false) (tail (mounts (v_fat s))) → (∀ p, p ∈ pages (v_fat s) → sbs (v_fat s) !! p = None) →
  vfs_mount_call source target FS_TYPE_FAT s = Some (0, s1) →
  ∃ s2 slot, vfs_umount target s1 = Some (0, s2) ∧ m_used <$> mounts (v_fat s2) = m_used <$> mounts (v_fat s) ∧
    (∀ i, i ≠ slot → mounts (v_fat s2) !! i = mounts (v_fat s) !! i) ∧ (∃ m, mounts (v_fat s) !! slot = Some m ∧ m_used m = false) ∧
    disk (v_fat s2) = disk (v_fat s) ∧ sbs (v_fat s2) = sbs (v_fat s) ∧ fat_icache (v_fat s2) = fat_icache (v_fat s) ∧
    vnodes (v_fat s2) = vnodes (v_fat s) ∧ pages (v_fat s2) = pages (v_fat s).
Proof.
  intros Hty (m0 & H0 & Hu0) Hno Hfresh E. destruct (fat_mounted source target s s1 Hty E) as (slot & m & p & sb & l & Hm & Hun & Hpg & Es).
  assert (slot ≠ O) as Hne by (intros ->; congruence). destruct (unmount_mounted target s1 (v_fat s) slot m p sb l Es Hne Hm Hno) as (s2 & E2 & Ef).
  exists s2, slot. rewrite Ef. cbn. split_and!; try done.
  - rewrite list_fmap_insert. cbn. apply list_insert_id. rewrite list_lookup_fmap, Hm. cbn. by rewrite Hun.
  - intros i Hi. by rewrite list_lookup_insert_ne.
  - by exists m.
  - rewrite delete_insert_id; [done|]. apply Hfresh. rewrite Hpg. left.
Qed.

(** ** A run from boot *)

Definition vfs_boot : vfs := vfs_init (mk_vfs (small_boot <| mounts := replicate MAX_MOUNTS (mk_vfs_mount false 0 0 [] None None) |>) (replicate 8 None) 0).

(** "/fat". *)
Definition mnt_point : list Z := [SLASH; 102; 97; 116].

Definition vfs_run : vfs := default vfs_boot (snd <$> sys_mount [49] mnt_point [102; 97; 116] vfs_boot).

Lemma vfs_mounts : vfs_mount_call [49] mnt_point FS_TYPE_FAT vfs_boot = Some (0, vfs_run).
Proof. reflexivity. Qed.

Lemma vfs_run_mounts : m_used <$> mounts (v_fat vfs_run) = [true; true; false; false; false; false; false; false] ∧
  ∃ m0 m1 r, mounts (v_fat vfs_run) = m0 :: m1 :: r ∧ m_point m0 = stored VFS_MAXPATH (str [SLASH]) ∧ m_point m1 = stored VFS_MAXPATH (str mnt_point).
Proof. split; [vm_compute; reflexivity|]. do 3 eexists. split; [vm_compute; reflexivity|]. split; vm_compute; reflexivity. Qed.

Lemma vfs_run_points : points_ok (mounts (v_fat vfs_run)).
Proof.
  destruct vfs_run_mounts as [Hu (m0 & m1 & r & E & P0 & P1)]. rewrite E in *. cbn in Hu. injection Hu as H0 H1 Hr.
  intros [|[|i]] m Hm Hused; [injection Hm as <-; exists [SLASH]|injection Hm as <-; exists mnt_point|].
  1,2: split_and!; [done|done|apply (bool_decide_unpack _); reflexivity|vm_compute; lia].
  exfalso. assert (m_used <$> r = replicate 6 false) as Hr' by done. pose proof (f_equal (.!! i) Hr') as H. cbn beta in H. rewrite list_lookup_fmap in H. change (r !! i = Some m) in Hm. rewrite Hm in H. cbn [fmap option_fmap option_map] in H.
  symmetry in H. apply lookup_replicate in H as [H _]. congruence.
Qed.

Lemma vfs_get_mount_longest_witness : ∃ i, vfs_get_mount (mnt_point ++ [SLASH; 97]) vfs_run = Some i ∧ i = 1%nat.
Proof.
  destruct (vfs_get_mount_longest (mnt_point ++ [SLASH; 97]) vfs_run) as (i & E & _ & _); [apply (bool_decide_unpack _); reflexivity|apply vfs_run_points|].
  exists i. split; [exact E|]. vm_compute in E. by injection E.
Defined.

Lemma vfs_mount_umount_witness : ∃ s2, vfs_umount mnt_point vfs_run = Some (0, s2) ∧ pages (v_fat s2) = [4096; 8192; 12288; 16384].
Proof.
  destruct (vfs_mount_umount [49] mnt_point vfs_boot vfs_run eq_refl) as (s2 & slot & E & _ & _ & _ & _ & _ & _ & _ & Hp).
  - eexists. split; [vm_compute; reflexivity|reflexivity].
  - vm_compute. repeat constructor.
  - intros p _. apply lookup_empty.
  - apply vfs_mounts.
  - exists s2. split; [exact E|]. rewrite Hp. vm_compute. reflexivity.
Defined.
